(* ===== verification/_CoqProject ===== *)
-Q . S2P
Prelude.v
KMonad.v
Kstring.v
Riscv.v
Spinlock.v
Kalloc.v
Vm.v
VmTable.v
VmSpec.v
VmUser.v
VmFree.v
VmCopy.v
VmProps.v
UserMem.v
Ring.v
Pipe.v
PipeSpec.v
PipeProps.v
Bytes.v
Sleeplock.v
BlockStore.v
Log.v
LogSpec.v
LogCrash.v
LogOps.v
LogTx.v
Bio.v
BioSpec.v
BioProps.v
LogProps.v
Fs.v
FsSpec.v
FsFile.v
FsInode.v
FsWrite.v
FsProps.v
File.v
Sysfile.v
Sh.v
ShSpec.v
ShProps.v
Ulib.v
Printf.v
Uprog.v
Grep.v
User.v
Uart.v
Console.v
ConsoleSpec.v
ConsoleProps.v
Umalloc.v
UmallocSpec.v
UmallocHeap.v
UmallocProps.v
Virtio.v
VirtioSpec.v
VirtioSys.v
VirtioInv.v
VirtioBoot.v
VirtioProps.v
Proc.v
ProcSpec.v
ProcTree.v
ProcSteps.v
ProcProps.v
Kernel.v
Exec.v
VmSpace.v
VmImage.v
ExecSpec.v
ExecProps.v
Syscall.v
SyscallProps.v
FileInv.v
FileProps.v
Trap.v
TrapProps.v
Mkfs.v
MkfsSpec.v
MkfsProps.v
