(* ===== verification/Prelude.v ===== *)
(** * Verification of the xv6-riscv kernel and shell

    The program is a small Unix: a kernel for RISC-V (src/kernel), user
    programs (src/user) and a tool that makes a file system image (src/mkfs).
    This library models the parts below as Rocq functions, in the order of the
    C code, and proves what each part promises to the parts above it.

    ** Parts, files and how they correspond to the code

    - Integers, memory (this file, Riscv.v, Bytes.v, Ring.v).  A C integer is
      a [Z] with its wrap-around written out ([u8] .. [u64], [i16], [i32]);
      physical memory is a function from addresses to bytes with little-endian
      loads and stores; Bytes.v reads and writes fields of disk blocks; Ring.v
      is the theory of ring buffers with counters that wrap (pipes, console,
      uart).
    - The kernel monad (KMonad.v).  [M S A] is kernel code on the state [S]:
      it returns, panics, sleeps on a channel, spins, or has undefined
      behaviour.  A world records the spinlocks the CPU holds and the wakeups
      it issued.  [wp] is total correctness: the code returns, and its result
      satisfies the postcondition.
    - String routines (Kstring.v; string.c).
    - Spinlocks (Spinlock.v; spinlock.c): the lock word and the per-CPU
      interrupt nesting, and a step relation of several CPUs that acquire and
      release one lock.
    - Page allocator (Kalloc.v; kalloc.c): the free list threaded through
      physical memory.
    - Virtual memory (Vm.v with VmTable.v, VmSpec.v, VmUser.v, VmFree.v,
      VmCopy.v, VmProps.v; vm.c): Sv39 page tables in physical memory.
      UserMem.v is the interface [UserOps]/[UserLaws] that the rest of the
      kernel uses, and [either_copyout]/[either_copyin] of proc.c.
    - Pipes (Pipe.v, PipeSpec.v, PipeProps.v; pipe.c).
    - Sleep locks (Sleeplock.v; sleeplock.c).
    - Buffer cache (Bio.v, BioSpec.v, BioProps.v; bio.c): the buffers and their
      LRU list.  BlockStore.v is the interface [BlockOps]/[BlockLaws] it implements: blocks that are read,
      changed, written and pinned; it also holds the interface of transactions.
    - Disk driver (Virtio.v, VirtioSpec.v, VirtioSys.v, VirtioInv.v,
      VirtioBoot.v, VirtioProps.v; virtio_disk.c): descriptors,
      rings and interrupts.  The device is a parameter with the laws of virtio
      block devices ([VirtioDev]/[VirtioLaws]); the cache uses the driver as
      one transfer of a block, which is what the driver is shown to provide.
    - Log (Log.v, LogSpec.v, LogCrash.v, LogOps.v, LogProps.v; log.c) on any
      [BlockLaws]; LogTx.v shows that it implements the transactions of
      BlockStore.v ([TxOps]/[TxLaws]).
    - File system (Fs.v; fs.c) on any [TxLaws] and any [UserLaws]: FsSpec.v
      (free map), FsFile.v (block map of a file), FsInode.v (inodes on disk,
      reading), FsWrite.v (writing), FsProps.v (operations as transactions).
    - Open files (File.v; file.c and pipealloc) and the file system calls
      (Sysfile.v; sysfile.c and the argument routines of syscall.c); FileInv.v
      and FileProps.v count the references to open files.
    - Uart and console (Uart.v, Console.v, ConsoleSpec.v, ConsoleProps.v;
      uart.c, console.c, and printf and panic of printf.c).  The device is a parameter with the laws of a 16550
      ([UartDev]/[UartLaws]).
    - Processes (Proc.v, ProcSpec.v, ProcTree.v, ProcSteps.v, ProcProps.v;
      proc.c and kvmmake of vm.c): the process table; files are the interface
      [FileOps]/[FileLaws].
    - Address spaces of processes (VmSpace.v, VmImage.v): user pages from
      address 0 on, trapframe and trampoline at the top, built from free pages
      and given back by the routines of vm.c and proc.c.
    - The kernel's file system as the environment of processes
      (Kernel.v): what the routines of bio.c, log.c and fs.c leave alone, and
      the instances of [FileOps] and [ExecOps] that file.c and fs.c provide.
    - Exec (Exec.v, ExecSpec.v, ExecProps.v; exec.c, elf.h).
      [run b] is [wp] where [b] is true; where it is false a call of the file
      system may also wait or panic.
    - System calls (Syscall.v, SyscallProps.v; syscall.c, sysproc.c and
      [clockintr] of trap.c): the table of all calls, the calls of sysproc.c,
      and the clock.
    - Traps (Trap.v, TrapProps.v; riscv.h, plic.c, start.c, main.c, trap.c): the control
      registers of a hart, the interrupt controller as a parameter with the
      laws of its claim registers ([PlicDev]/[PlicLaws]), and the handlers on
      the kernel with its devices.
    - mkfs (Mkfs.v, MkfsSpec.v, MkfsProps.v; mkfs/mkfs.c): the tool that makes
      the image, on sectors; the files of the host are arguments.
    - Shell (Sh.v, ShSpec.v, ShProps.v; user/sh.c): lexer, parser,
      and [runcmd] as a tree of system calls.
    - User memory allocator (Umalloc.v, UmallocSpec.v, UmallocHeap.v,
      UmallocProps.v; user/umalloc.c): the circular free list in user memory;
      the system call sbrk is a parameter ([SbrkOps]/[SbrkLaws]).
    - User library and formatting (Ulib.v, Printf.v; user/ulib.c,
      user/printf.c, kernel/printf.c).
    - User programs (Uprog.v, Grep.v, User.v; cat.c, echo.c, grep.c, init.c,
      kill.c, ln.c, ls.c, mkdir.c, rm.c, wc.c, zombie.c and main of sh.c): a
      program is a tree of system calls.  [ustep] says what the kernel answers,
      with reads that return any part of what is unread and calls that may
      fail, and [uwp] is total correctness against all answers.

    A pointer into a table (buffers, inodes, files, processes) is an index; a
    local buffer of the kernel is a list of bytes; a null pointer is [None] or
    0.  A routine that may sleep is cut there: it yields a [segment] that says
    whether it returned or where it sleeps, and a second definition continues
    after the wakeup.

    ** What the theorems show

    - Crash safety: [log_crash_atomic] and [recovery_idempotent] for the log
      on the real buffer cache, [write_crash_atomic] for a write to a file.  A
      crash leaves any prefix of the sequence of block writes.
    - Refinement: [bio_refines_blocks] (the cache is a block store),
      [virtio_refines_transfers] (the disk driver transfers blocks),
      [spinlock_refines_held_list], [console_line_discipline],
      [runcmd_meaning] (the shell runs what the command means).
    - Virtual memory: mapping, unmapping, copying and freeing address spaces,
      copies between kernel and user memory against byte-wise definitions;
      [exec_correct] for the image of a process, and [kernel_exec_correct] for
      exec on the file system of fs.c; [sbrk_correct] for its end.
    - The disk image: [mkfs_correct] shows that it satisfies the invariants
      the theorems on fs.c assume.
    - Invariants of all interleavings, by induction on step relations:
      [spinlock_mutual_exclusion], [pipe_fifo], [pipe_no_lost_wakeup],
      [virtio_no_lost_wakeup], [process_tree], [sleep_exact],
      [files_typed] (open files have a type and the count of their references).
    - The user allocator: [umalloc_safe] for every program that uses it
      properly, [umalloc_coalesces].
    - Traps: [getpid_trap] from the user's instruction and back,
      [user_return_safe], [kerneltrap_timer], [devintr_completes],
      [usertrap_fault]; [start_correct] and [main_secondary] for the entry.
    - Messages: [kprintf_prints], [panic_reports].
    - Functions of user programs: [parsecmd_total], [parsecmd_words],
      [grep_match_correct], [printint_decimal].
    - User programs, whatever the kernel answers: [sh_runs_script],
      [cat_copies], [grep_prints_matches], [wc_counts], [echo_prints].
    - Defects: [log_admission_overflow], [kill_zero_marks_next_process],
      [piperead_drops_byte], [uprintf_l_truncates], [malloc_size_truncated].

    ** Bounds and fuel

    Loops over data are structural.  A loop with another measure takes fuel,
    and the caller gives it enough: the length of the range for copies and
    page loops, the number of buffers, inodes, processes or free-map blocks
    for table scans, the unsent bytes for [uartstart], the length of the line
    for the parser (four calls per position) and for grep, and a multiple of
    the length of the free list for the user allocator, whose theorems are
    about all large enough fuel.  A user program that reads to the end of a file
    has a number of rounds as an argument, and the theorems ask for more rounds
    than the file has bytes.  Running out of
    fuel is undefined behaviour in the monad, and the theorems, being about
    [wp], show that it does not happen.  [polls] bounds how often the driver
    looks at the uart's status register; the law [idle_soon] says that it is
    enough.

    ** Not modelled

    Assembly (entry, trampoline, kernelvec, swtch); ramdisk.c, which is not
    compiled; the test programs.  The first hart's part of main.c is a definition without
    a theorem of its own: its steps are those of the components.  The weak
    memory model and preemption between two steps of a routine that holds no
    lock are not modelled: a routine runs from one switch to the next as one
    step, and Spinlock.v is where CPUs interleave inside it.  *)

From stdpp Require Export base list gmap strings numbers sets.
From Stdlib Require Export ZArith Lia.

#[global] Open Scope Z_scope.

(** ** Fixed-width integers (kernel/types.h)

    A C integer is a [Z]; the wrap-around of its type is written out. *)

Definition u8 (x : Z) : Z := x mod 2 ^ 8.
Definition u16 (x : Z) : Z := x mod 2 ^ 16.
Definition u32 (x : Z) : Z := x mod 2 ^ 32.
Definition u64 (x : Z) : Z := x mod 2 ^ 64.

Definition i32 (x : Z) : Z :=
  let y := u32 x in if y <? 2 ^ 31 then y else y - 2 ^ 32.
Definition i16 (x : Z) : Z :=
  let y := u16 x in if y <? 2 ^ 15 then y else y - 2 ^ 16.

Lemma u8_range x : 0 <= u8 x < 256.
Proof. apply (Z.mod_pos_bound x (2 ^ 8)). lia. Qed.

Lemma u32_range x : 0 <= u32 x < 2 ^ 32.
Proof. apply Z.mod_pos_bound. lia. Qed.

Lemma u64_range x : 0 <= u64 x < 2 ^ 64.
Proof. apply Z.mod_pos_bound. lia. Qed.

Lemma u8_small x : 0 <= x < 256 -> u8 x = x.
Proof. intros. apply Z.mod_small. lia. Qed.

Lemma u32_small x : 0 <= x < 2 ^ 32 -> u32 x = x.
Proof. intros. apply Z.mod_small. lia. Qed.

Lemma u64_small x : 0 <= x < 2 ^ 64 -> u64 x = x.
Proof. intros. apply Z.mod_small. lia. Qed.

Lemma u8_idem x : u8 (u8 x) = u8 x.
Proof. apply u8_small, u8_range. Qed.

Lemma i32_small x : - 2 ^ 31 <= x < 2 ^ 31 -> i32 x = x.
Proof.
  intros Hx. unfold i32, u32.
  destruct (Z.leb_spec 0 x).
  - rewrite (Z.mod_small x) by lia. destruct (Z.ltb_spec x (2 ^ 31)); lia.
  - replace (x mod 2 ^ 32) with (x + 2 ^ 32)
      by (apply Z.mod_unique with (-1); lia).
    destruct (Z.ltb_spec (x + 2 ^ 32) (2 ^ 31)); lia.
Qed.

Lemma i32_range x : - 2 ^ 31 <= i32 x < 2 ^ 31.
Proof.
  unfold i32. pose proof (u32_range x).
  destruct (Z.ltb_spec (u32 x) (2 ^ 31)); lia.
Qed.

Create HintDb word discriminated.
#[export] Hint Resolve u8_range u32_range u64_range i32_range : word.

(** ** Byte-addressed memory

    Physical memory is a total function from addresses to cells; a cell is
    read as an unsigned char. *)

Definition memory := Z -> Z.

Definition rd (m : memory) (a : Z) : Z := u8 (m a).

Definition wr (m : memory) (a v : Z) : memory :=
  fun x => if x =? a then u8 v else m x.

(** Byte [k] of a little-endian word. *)
Definition byte_at (v k : Z) : Z := (v / 2 ^ (8 * k)) mod 256.

Fixpoint load_le (m : memory) (a : Z) (n : nat) : Z :=
  match n with
  | O => 0
  | S n' => rd m a + 256 * load_le m (a + 1) n'
  end.

Definition load64 (m : memory) (a : Z) : Z := load_le m a 8.
Definition load32 (m : memory) (a : Z) : Z := load_le m a 4.

Definition store_le (m : memory) (a v : Z) (n : Z) : memory :=
  fun x => if (a <=? x) && (x <? a + n) then byte_at v (x - a) else m x.

Definition store64 (m : memory) (a v : Z) : memory := store_le m a v 8.
Definition store32 (m : memory) (a v : Z) : memory := store_le m a v 4.

(** Memories that agree as byte arrays. *)
Definition mem_eq (m1 m2 : memory) : Prop := forall a, rd m1 a = rd m2 a.

#[global] Instance mem_eq_equiv : Equivalence mem_eq.
Proof.
  split.
  - intros m a. reflexivity.
  - intros m1 m2 H a. symmetry. apply H.
  - intros m1 m2 m3 H1 H2 a. rewrite H1. apply H2.
Qed.

#[global] Instance rd_proper : Proper (mem_eq ==> eq ==> eq) rd.
Proof. intros m1 m2 H a ? <-. apply H. Qed.

Lemma byte_at_range v k : 0 <= byte_at v k < 256.
Proof. apply Z.mod_pos_bound. lia. Qed.

Lemma rd_range m a : 0 <= rd m a < 256.
Proof. apply u8_range. Qed.

Lemma rd_wr_same m a v : rd (wr m a v) a = u8 v.
Proof. unfold rd, wr. rewrite Z.eqb_refl. apply u8_idem. Qed.

Lemma rd_wr_other m a v x : x <> a -> rd (wr m a v) x = rd m x.
Proof. intros. unfold rd, wr. destruct (Z.eqb_spec x a); [lia | done]. Qed.

Lemma rd_store_le_in m a v n x :
  a <= x < a + n -> rd (store_le m a v n) x = byte_at v (x - a).
Proof.
  intros. unfold rd, store_le.
  destruct (Z.leb_spec a x), (Z.ltb_spec x (a + n)); try lia; simpl.
  apply u8_small, byte_at_range.
Qed.

Lemma rd_store_le_out m a v n x :
  x < a \/ a + n <= x -> rd (store_le m a v n) x = rd m x.
Proof.
  intros. unfold rd, store_le.
  destruct (Z.leb_spec a x), (Z.ltb_spec x (a + n)); try lia; done.
Qed.

Lemma load_le_ext m1 m2 a n :
  (forall x, a <= x < a + Z.of_nat n -> rd m1 x = rd m2 x) ->
  load_le m1 a n = load_le m2 a n.
Proof.
  revert a. induction n as [|n IH]; intros a H; simpl; [done|].
  rewrite (H a) by lia. rewrite IH; [done|]. intros. apply H. lia.
Qed.

#[global] Instance load_le_proper : Proper (mem_eq ==> eq ==> eq ==> eq) load_le.
Proof. intros m1 m2 H a ? <- n ? <-. apply load_le_ext. intros. apply H. Qed.

#[global] Instance load64_proper : Proper (mem_eq ==> eq ==> eq) load64.
Proof. intros m1 m2 H a ? <-. apply load_le_ext. intros. apply H. Qed.

Lemma load_le_range m a n : 0 <= load_le m a n < 256 ^ Z.of_nat n.
Proof.
  revert a. induction n as [|n IH]; intros a; cbn [load_le].
  - simpl. lia.
  - rewrite Nat2Z.inj_succ, Z.pow_succ_r by lia.
    pose proof (rd_range m a). specialize (IH (a + 1)). lia.
Qed.

Lemma load64_range m a : 0 <= load64 m a < 2 ^ 64.
Proof. pose proof (load_le_range m a 8). unfold load64. lia. Qed.

Lemma byte_at_succ v k : 0 <= k -> byte_at v (k + 1) = byte_at (v / 256) k.
Proof.
  intros. unfold byte_at.
  replace (8 * (k + 1)) with (8 + 8 * k) by lia.
  rewrite Z.pow_add_r by lia. rewrite <- Z.div_div by lia. done.
Qed.

(** Reading [n] little-endian bytes of [v] gives [v] back (mod [256^n]). *)
Lemma load_le_bytes m v n a :
  (forall k, 0 <= k < Z.of_nat n -> rd m (a + k) = byte_at v k) ->
  load_le m a n = v mod 256 ^ Z.of_nat n.
Proof.
  revert v a. induction n as [|n IH]; intros v a H.
  - simpl. by rewrite Z.mod_1_r.
  - rewrite Nat2Z.inj_succ, Z.pow_succ_r by lia.
    cbn [load_le].
    rewrite (IH (v / 256)); [|intros k Hk; rewrite <- byte_at_succ by lia;
                              rewrite <- H by lia; f_equal; lia].
    rewrite Z.rem_mul_r by lia.
    replace (rd m a) with (rd m (a + 0)) by (f_equal; lia).
    rewrite H by lia. unfold byte_at. simpl. by rewrite Z.div_1_r.
Qed.

Lemma load_store_le m a v n :
  load_le (store_le m a v (Z.of_nat n)) a n = v mod 256 ^ Z.of_nat n.
Proof.
  apply load_le_bytes. intros k Hk. rewrite rd_store_le_in by lia. f_equal. lia.
Qed.

Lemma load64_store64_same m a v :
  0 <= v < 2 ^ 64 -> load64 (store64 m a v) a = v.
Proof.
  intros. unfold load64, store64. change 8 with (Z.of_nat 8) at 1.
  rewrite load_store_le. apply Z.mod_small. lia.
Qed.

Lemma load64_store64_other m a v b :
  b + 8 <= a \/ a + 8 <= b -> load64 (store64 m a v) b = load64 m b.
Proof.
  intros. apply load_le_ext. intros. apply rd_store_le_out. lia.
Qed.

(** Case analysis on every integer comparison of the goal. *)
Ltac zcmp :=
  repeat match goal with
  | |- context [Z.leb ?a ?b] => destruct (Z.leb_spec a b)
  | |- context [Z.ltb ?a ?b] => destruct (Z.ltb_spec a b)
  | |- context [Z.geb ?a ?b] => destruct (Z.geb_spec a b)
  | |- context [Z.gtb ?a ?b] => destruct (Z.gtb_spec a b)
  | |- context [Z.eqb ?a ?b] => destruct (Z.eqb_spec a b)
  end; simpl; try lia.

(** ** Lists *)

Lemma filter_neq_notin {A} {eq : EqDecision A} (x : A) (l : list A) :
  x ∉ l -> filter (fun k => k <> x) l = l.
Proof.
  induction l as [|k l IH]; intros Hl; [done|].
  apply not_elem_of_cons in Hl as [Hk Hl].
  rewrite filter_cons_True by congruence. by rewrite IH.
Qed.
