(* ===== verification/KMonad.v ===== *)
(** The kernel monad: state, panics, undefined behaviour and sleeping, with
    the spinlocks a CPU holds and the wakeups it issues. *)

From S2P Require Import Prelude.

(** ** Wait channels, spinlocks and events

    A wait channel is an address in the C code; each address the code sleeps
    on has a constructor. *)

Inductive wchan :=
| ChLog                    (** [&log] *)
| ChPipeRead (pi : Z)      (** [&pi->nread] *)
| ChPipeWrite (pi : Z)     (** [&pi->nwrite] *)
| ChBufLock (b : nat)      (** [&bcache.buf[b].lock] *)
| ChInodeLock (i : nat)    (** [&itable.inode[i].lock] *)
| ChProc (p : nat)         (** [&proc[p]] *)
| ChTicks                  (** [&ticks] *)
| ChDiskFree               (** [&disk.free[0]] *)
| ChDiskBuf (b : nat)      (** [&bcache.buf[b]] *)
| ChConsR                  (** [&cons.r] *)
| ChUartTxR                (** [&uart_tx_r] *).

#[global] Instance wchan_eq_dec : EqDecision wchan.
Proof. solve_decision. Defined.

(** The spinlocks of the kernel; [L_sleep c] is the spinlock inside the
    sleeplock whose address is [c]. *)
Inductive lock :=
| L_kmem | L_bcache | L_log | L_itable | L_ftable
| L_pipe (pi : Z) | L_proc (p : nat) | L_wait | L_pid
| L_ticks | L_cons | L_uart | L_disk | L_pr
| L_sleep (c : wchan).

#[global] Instance lock_eq_dec : EqDecision lock.
Proof. solve_decision. Defined.

Inductive event :=
| EvWakeup (c : wchan)     (** [wakeup(chan)] was called *)
| EvPrint (s : string)     (** [printf] wrote to the console *).

#[global] Instance event_eq_dec : EqDecision event.
Proof. solve_decision. Defined.

(** What the components read of [myproc()]. *)
Record me := Me {
  my_idx : nat;            (** [myproc() - proc] *)
  my_pid : Z;
  my_pagetable : Z;
  my_killed : Z }.

(** ** Worlds and outcomes

    [w_held] are the spinlocks the running CPU holds, the most recent first;
    its length is the CPU's [noff] when no interrupt handler is nested. *)

Record world (S : Type) := World {
  w_me : me;
  w_held : list lock;
  w_evs : list event;
  w_st : S }.
Arguments World {S} _ _ _ _.
Arguments w_me {S} _.
Arguments w_held {S} _.
Arguments w_evs {S} _.
Arguments w_st {S} _.

Inductive outcome (S A : Type) :=
| Ok (a : A) (w : world S)         (** the call returned [a] *)
| Panic (msg : string)             (** [panic(msg)] *)
| Sleep (c : wchan) (w : world S)  (** the process is asleep on [c] *)
| Spin (what : string)             (** the CPU loops and does not come back *)
| UB (what : string)               (** the C code has no defined meaning *).
Arguments Ok {S A} _ _.
Arguments Panic {S A} _.
Arguments Sleep {S A} _ _.
Arguments Spin {S A} _.
Arguments UB {S A} _.

Definition M (S A : Type) : Type := world S -> outcome S A.

#[global] Instance M_ret S : MRet (M S) := fun A a w => Ok a w.
#[global] Instance M_bind S : MBind (M S) := fun A B f m w =>
  match m w with
  | Ok a w' => f a w'
  | Panic msg => Panic msg
  | Sleep c w' => Sleep c w'
  | Spin s => Spin s
  | UB s => UB s
  end.

Definition panic {S A} (msg : string) : M S A := fun _ => Panic msg.
Definition spin {S A} (what : string) : M S A := fun _ => Spin what.
Definition ub {S A} (what : string) : M S A := fun _ => UB what.

Definition set_st {S} (s : S) (w : world S) : world S :=
  World (w_me w) (w_held w) (w_evs w) s.
Definition set_held {S} (h : list lock) (w : world S) : world S :=
  World (w_me w) h (w_evs w) (w_st w).
Definition add_ev {S} (e : event) (w : world S) : world S :=
  World (w_me w) (w_held w) (w_evs w ++ [e]) (w_st w).

Definition get {S} : M S S := fun w => Ok (w_st w) w.
Definition put {S} (s : S) : M S () := fun w => Ok () (set_st s w).
Definition gets {S A} (f : S -> A) : M S A := fun w => Ok (f (w_st w)) w.
Definition modify {S} (f : S -> S) : M S () := fun w => Ok () (set_st (f (w_st w)) w).
Definition myproc {S} : M S me := fun w => Ok (w_me w) w.

(** [acquire] panics when this CPU already holds the lock; waiting for
    another CPU to release it does not change the state.  [release] panics
    when this CPU does not hold it.  Spinlock.v models both on the lock and
    CPU structures and relates them to these two. *)
Definition acquire {S} (l : lock) : M S () := fun w =>
  if decide (l ∈ w_held w) then Panic "acquire"
  else Ok () (set_held (l :: w_held w) w).

Definition release {S} (l : lock) : M S () := fun w =>
  if decide (l ∈ w_held w) then Ok () (set_held (filter (fun k => k <> l) (w_held w)) w)
  else Panic "release".

Definition holding {S} (l : lock) : M S bool := fun w =>
  Ok (bool_decide (l ∈ w_held w)) w.

Definition emit {S} (e : event) : M S () := fun w => Ok () (add_ev e w).
Definition wakeup {S} (c : wchan) : M S () := emit (EvWakeup c).
Definition printk {S} (s : string) : M S () := emit (EvPrint s).

(** [sleep(chan, lk)] takes [p->lock], releases [lk] and calls [sched], which
    panics unless [p->lock] is the only spinlock held. *)
Definition sleep {S A} (c : wchan) (l : lock) : M S A := fun w =>
  if decide (l ∈ w_held w) then
    if decide (filter (fun k => k <> l) (w_held w) = []) then Sleep c (set_held [] w)
    else Panic "sched locks"
  else Panic "release".

(** The part of [sleep] up to the switch to the scheduler, for code whose
    continuation after the wakeup is modelled too. *)
Definition park {S} (l : lock) : M S () := fun w =>
  if decide (l ∈ w_held w) then
    if decide (filter (fun k => k <> l) (w_held w) = []) then Ok () (set_held [] w)
    else Panic "sched locks"
  else Panic "release".

(** [killed(myproc())]. *)
Definition killed {S} : M S bool :=
  p ← myproc;
  acquire (L_proc (my_idx p));;
  release (L_proc (my_idx p));;
  mret (negb (my_killed p =? 0)).

(** How far a call gets before it gives up the CPU: it returns, or it sleeps
    on a channel with its loop variable at [i]. *)
Inductive segment :=
| Returned (r : Z)
| Slept (c : wchan) (i : Z).

(** Run a computation of a component inside a larger state. *)
Definition zoom {S T A} (g : S -> T) (p : S -> T -> S) (m : M T A) : M S A := fun w =>
  match m (World (w_me w) (w_held w) (w_evs w) (g (w_st w))) with
  | Ok a w' => Ok a (World (w_me w') (w_held w') (w_evs w') (p (w_st w) (w_st w')))
  | Panic msg => Panic msg
  | Sleep c w' => Sleep c (World (w_me w') (w_held w') (w_evs w') (p (w_st w) (w_st w')))
  | Spin s => Spin s
  | UB s => UB s
  end.

(** ** Weakest preconditions

    [wp m Q w]: from [w] the computation [m] returns (it does not panic, does
    not sleep or spin and has no undefined behaviour) and [Q] holds of its result and
    final world. *)

Definition wp {S A} (m : M S A) (Q : A -> world S -> Prop) (w : world S) : Prop :=
  match m w with Ok a w' => Q a w' | _ => False end.

Section wp.
Context {S : Type}.
Implicit Types (w : world S).

Lemma wp_elim {A} (m : M S A) Q w :
  wp m Q w -> exists a w', m w = Ok a w' /\ Q a w'.
Proof. unfold wp. destruct (m w); naive_solver. Qed.

Lemma wp_intro {A} (m : M S A) Q w a w' : m w = Ok a w' -> Q a w' -> wp m Q w.
Proof. unfold wp. by intros ->. Qed.

Lemma wp_mono {A} (m : M S A) (Q R : A -> world S -> Prop) w :
  (forall a w', Q a w' -> R a w') -> wp m Q w -> wp m R w.
Proof. unfold wp. destruct (m w); naive_solver. Qed.

Lemma wp_ret {A} (a : A) (Q : A -> world S -> Prop) w : Q a w -> wp (mret a) Q w.
Proof. done. Qed.

Lemma wp_bind {A B} (m : M S A) (f : A -> M S B) Q w :
  wp m (fun a => wp (f a) Q) w -> wp (mbind f m) Q w.
Proof. unfold wp, mbind, M_bind. by destruct (m w). Qed.

(** Use the specification of a call, then continue with what it gives. *)
Lemma wp_call {A B} (m : M S A) (f : A -> M S B) (P : A -> world S -> Prop) Q w :
  wp m P w -> (forall a w', P a w' -> wp (f a) Q w') -> wp (mbind f m) Q w.
Proof. intros H1 H2. apply wp_bind. eapply wp_mono, H1. apply H2. Qed.

(** When the call returns, the whole is what the continuation does. *)
Lemma eq_bind {A B} (m : M S A) (f : A -> M S B) w (o : outcome S B) :
  wp m (fun a w' => f a w' = o) w -> (m ≫= f) w = o.
Proof. unfold wp, mbind, M_bind. by destruct (m w). Qed.

Lemma wp_get (Q : S -> world S -> Prop) w : Q (w_st w) w -> wp get Q w.
Proof. done. Qed.

Lemma wp_gets {A} (f : S -> A) Q w : Q (f (w_st w)) w -> wp (gets f) Q w.
Proof. done. Qed.

Lemma wp_put s (Q : () -> world S -> Prop) w : Q () (set_st s w) -> wp (put s) Q w.
Proof. done. Qed.

Lemma wp_modify f (Q : () -> world S -> Prop) w :
  Q () (set_st (f (w_st w)) w) -> wp (modify f) Q w.
Proof. done. Qed.

Lemma wp_myproc (Q : me -> world S -> Prop) w : Q (w_me w) w -> wp myproc Q w.
Proof. done. Qed.

Lemma wp_acquire l (Q : () -> world S -> Prop) w :
  l ∉ w_held w -> Q () (set_held (l :: w_held w) w) -> wp (acquire l) Q w.
Proof. intros. unfold wp, acquire. by rewrite decide_False. Qed.

Lemma wp_release l h (Q : () -> world S -> Prop) w :
  w_held w = l :: h -> l ∉ h -> Q () (set_held h w) -> wp (release l) Q w.
Proof.
  intros Hh Hl HQ. unfold wp, release. rewrite Hh.
  rewrite decide_True by (left; done).
  rewrite filter_cons_False by naive_solver. by rewrite filter_neq_notin.
Qed.

Lemma wp_park l (Q : () -> world S -> Prop) w :
  w_held w = [l] -> Q () (set_held [] w) -> wp (park l) Q w.
Proof.
  intros Hh HQ. unfold wp, park. rewrite Hh, decide_True by left.
  rewrite filter_cons_False by naive_solver. by rewrite decide_True.
Qed.

Lemma wp_emit e (Q : () -> world S -> Prop) w : Q () (add_ev e w) -> wp (emit e) Q w.
Proof. done. Qed.

Lemma wp_zoom {T A} (g : S -> T) (p : S -> T -> S) (m : M T A) Q w :
  wp m (fun a (w' : world T) => Q a (World (w_me w') (w_held w') (w_evs w') (p (w_st w) (w_st w'))))
     (World (w_me w) (w_held w) (w_evs w) (g (w_st w))) ->
  wp (zoom g p m) Q w.
Proof. unfold wp, zoom. by destruct (m _). Qed.

Lemma wp_killed (Q : bool -> world S -> Prop) w :
  L_proc (my_idx (w_me w)) ∉ w_held w ->
  Q (negb (my_killed (w_me w) =? 0)) w -> wp killed Q w.
Proof.
  intros Hl HQ. destruct w. simpl in *. unfold killed.
  apply wp_bind, wp_myproc, wp_bind, wp_acquire; [done|].
  eapply wp_bind, wp_release; [done..|]. done.
Qed.
End wp.

(** One step of symbolic execution of the goal [wp m Q w]. *)
Ltac wp_step :=
  lazymatch goal with
  | |- wp (mbind _ _) _ _ => apply wp_bind
  | |- wp (mret _) _ _ => apply wp_ret
  | |- wp get _ _ => apply wp_get
  | |- wp (gets _) _ _ => apply wp_gets
  | |- wp (put _) _ _ => apply wp_put
  | |- wp (modify _) _ _ => apply wp_modify
  | |- wp myproc _ _ => apply wp_myproc
  | |- wp (emit _) _ _ => apply wp_emit
  | |- wp (wakeup _) _ _ => apply wp_emit
  | |- wp (printk _) _ _ => apply wp_emit
  end.
Ltac wp_steps := repeat (wp_step; simpl).

(** ** Partial correctness

    [wlp m Q w]: if [m] returns from [w], [Q] holds of its result. *)

Definition wlp {S A} (m : M S A) (Q : A -> world S -> Prop) (w : world S) : Prop :=
  match m w with Ok a w' => Q a w' | _ => True end.

Section wlp.
Context {S : Type}.
Implicit Types (w : world S).

Lemma wlp_elim {A} (m : M S A) Q w a w' : wlp m Q w -> m w = Ok a w' -> Q a w'.
Proof. unfold wlp. intros H E. by rewrite E in H. Qed.

Lemma wlp_mono {A} (m : M S A) (Q R : A -> world S -> Prop) w :
  (forall a w', Q a w' -> R a w') -> wlp m Q w -> wlp m R w.
Proof. unfold wlp. destruct (m w); naive_solver. Qed.

Lemma wlp_bind {A B} (m : M S A) (f : A -> M S B) Q w : wlp m (fun a => wlp (f a) Q) w -> wlp (mbind f m) Q w.
Proof. unfold wlp, mbind, M_bind. by destruct (m w). Qed.

Lemma wlp_ret {A} (a : A) (Q : A -> world S -> Prop) w : Q a w -> wlp (mret a) Q w.
Proof. done. Qed.

Lemma wlp_get (Q : S -> world S -> Prop) w : Q (w_st w) w -> wlp get Q w.
Proof. done. Qed.

Lemma wlp_put s (Q : () -> world S -> Prop) w : Q () (set_st s w) -> wlp (put s) Q w.
Proof. done. Qed.

Lemma wlp_gets {A} (f : S -> A) Q w : Q (f (w_st w)) w -> wlp (gets f) Q w.
Proof. done. Qed.

Lemma wlp_modify f (Q : () -> world S -> Prop) w : Q () (set_st (f (w_st w)) w) -> wlp (modify f) Q w.
Proof. done. Qed.

Lemma wlp_panic {A} s (Q : A -> world S -> Prop) w : wlp (panic s) Q w.
Proof. done. Qed.

Lemma wlp_ub {A} s (Q : A -> world S -> Prop) w : wlp (ub s) Q w.
Proof. done. Qed.

Lemma wlp_acquire l (Q : () -> world S -> Prop) w : Q () (set_held (l :: w_held w) w) -> wlp (acquire l) Q w.
Proof. intros H. unfold wlp, acquire. by destruct (decide _). Qed.

Lemma wlp_release l (Q : () -> world S -> Prop) w :
  Q () (set_held (filter (fun k => k <> l) (w_held w)) w) -> wlp (release l) Q w.
Proof. intros H. unfold wlp, release. by destruct (decide _). Qed.
End wlp.

(** ** Routines that do not change the running process *)

Definition keeps_me {S A} (m : M S A) : Prop := forall w, wlp m (fun _ w' => w_me w' = w_me w) w.

Create HintDb keeps discriminated.
#[export] Hint Constants Opaque : keeps.
#[export] Hint Variables Opaque : keeps.

Lemma keeps_bind {S A B} (m : M S A) (f : A -> M S B) : keeps_me m -> (forall a, keeps_me (f a)) -> keeps_me (m ≫= f).
Proof.
  intros H1 H2 w. apply wlp_bind. eapply wlp_mono; [|apply H1]. intros a w' E. eapply wlp_mono; [|apply H2].
  intros b w''. congruence.
Qed.
Lemma keeps_ret {S A} (a : A) : keeps_me (S := S) (mret a).
Proof. done. Qed.
Lemma keeps_gets {S A} (f : S -> A) : keeps_me (gets f).
Proof. done. Qed.
Lemma keeps_get {S} : keeps_me (S := S) get.
Proof. done. Qed.
Lemma keeps_modify {S} (f : S -> S) : keeps_me (modify f).
Proof. done. Qed.
Lemma keeps_put {S} (s : S) : keeps_me (put s).
Proof. done. Qed.
Lemma keeps_panic {S A} s : keeps_me (S := S) (A := A) (panic s).
Proof. done. Qed.
Lemma keeps_ub {S A} s : keeps_me (S := S) (A := A) (ub s).
Proof. done. Qed.
Lemma keeps_myproc {S} : keeps_me (S := S) myproc.
Proof. done. Qed.
Lemma keeps_emit {S} e : keeps_me (S := S) (emit e).
Proof. done. Qed.
Lemma keeps_acquire {S} l : keeps_me (S := S) (acquire l).
Proof. intros w. by apply wlp_acquire. Qed.
Lemma keeps_release {S} l : keeps_me (S := S) (release l).
Proof. intros w. by apply wlp_release. Qed.
Lemma keeps_zoom {S T A} (g : S -> T) (p : S -> T -> S) (m : M T A) : keeps_me m -> keeps_me (zoom g p m).
Proof.
  intros H w. unfold wlp, zoom. specialize (H (World (w_me w) (w_held w) (w_evs w) (g (w_st w)))). unfold wlp in H.
  by destruct (m _).
Qed.
#[export] Hint Resolve keeps_ret keeps_gets keeps_get keeps_modify keeps_put keeps_panic keeps_ub keeps_myproc
  keeps_emit keeps_acquire keeps_release : keeps.

(** Take a program apart into routines that keep the running process. *)
Ltac keeps :=
  repeat (intros; lazymatch goal with
    | |- keeps_me (mbind _ _) => apply keeps_bind
    | |- keeps_me (zoom _ _ _) => apply keeps_zoom
    | |- keeps_me (if ?b then _ else _) => destruct b
    | |- keeps_me (match ?x with _ => _ end) => destruct x
    | IH : forall _, _ |- keeps_me _ => first [solve [auto with keeps nocore] | simple apply IH]
    | |- keeps_me _ => solve [auto with keeps nocore]
    end).
