(* ===== verification/Kstring.v ===== *)
(** kernel/string.c: byte and string routines on memory. *)

From S2P Require Import Prelude.

(** ** Definitions *)

(** [memset(dst, c, n)]: [cdst[i] = c] for [i = 0 .. n-1]. *)
Fixpoint memset_from (m : memory) (dst c i : Z) (n : nat) : memory :=
  match n with
  | O => m
  | S n' => memset_from (wr m (dst + i) c) dst c (i + 1) n'
  end.

Definition memset (m : memory) (dst c n : Z) : memory :=
  memset_from m dst c 0 (Z.to_nat n).

(** [memcmp(v1, v2, n)]. *)
Fixpoint memcmp_loop (m : memory) (s1 s2 : Z) (n : nat) : Z :=
  match n with
  | O => 0
  | S n' => if negb (rd m s1 =? rd m s2) then rd m s1 - rd m s2
            else memcmp_loop m (s1 + 1) (s2 + 1) n'
  end.

Definition memcmp (m : memory) (v1 v2 n : Z) : Z := memcmp_loop m v1 v2 (Z.to_nat n).

(** The two loops of [memmove]: [*--d = *--s] and [*d++ = *s++]. *)
Fixpoint move_down (m : memory) (d s : Z) (n : nat) : memory :=
  match n with
  | O => m
  | S n' => move_down (wr m (d - 1) (rd m (s - 1))) (d - 1) (s - 1) n'
  end.

Fixpoint move_up (m : memory) (d s : Z) (n : nat) : memory :=
  match n with
  | O => m
  | S n' => move_up (wr m d (rd m s)) (d + 1) (s + 1) n'
  end.

Definition memmove (m : memory) (dst src n : Z) : memory :=
  if n =? 0 then m
  else if (src <? dst) && (src + n >? dst) then move_down m (dst + n) (src + n) (Z.to_nat n)
  else move_up m dst src (Z.to_nat n).

(** [strncmp(p, q, n)]. *)
Fixpoint strncmp_loop (m : memory) (p q : Z) (n : nat) : Z :=
  match n with
  | O => 0
  | S n' => if negb (rd m p =? 0) && (rd m p =? rd m q)
            then strncmp_loop m (p + 1) (q + 1) n'
            else rd m p - rd m q
  end.

Definition strncmp (m : memory) (p q n : Z) : Z := strncmp_loop m p q (Z.to_nat n).

(** [strncpy(s, t, n)]: copy up to and including a NUL, then pad with zeros. *)
Fixpoint zero_fill (m : memory) (s : Z) (n : nat) : memory :=
  match n with
  | O => m
  | S n' => zero_fill (wr m s 0) (s + 1) n'
  end.

Fixpoint strncpy_loop (m : memory) (s t : Z) (n : nat) : memory :=
  match n with
  | O => m
  | S n' =>
      let c := rd m t in
      let m' := wr m s c in
      if negb (c =? 0) then strncpy_loop m' (s + 1) (t + 1) n'
      else zero_fill m' (s + 1) n'
  end.

Definition strncpy (m : memory) (s t n : Z) : memory := strncpy_loop m s t (Z.to_nat n).

(** [safestrcpy(s, t, n)]: at most [n-1] characters, then a NUL. *)
Fixpoint safestrcpy_loop (m : memory) (s t : Z) (n : nat) : memory :=
  match n with
  | O => wr m s 0
  | S n' =>
      let c := rd m t in
      let m' := wr m s c in
      if negb (c =? 0) then safestrcpy_loop m' (s + 1) (t + 1) n'
      else wr m' (s + 1) 0
  end.

Definition safestrcpy (m : memory) (s t n : Z) : memory :=
  if n <=? 0 then m else safestrcpy_loop m s t (Z.to_nat (n - 1)).

(** [strlen(s)]: [fuel] bounds the search for the terminating NUL. *)
Fixpoint strlen_loop (m : memory) (s n : Z) (fuel : nat) : option Z :=
  match fuel with
  | O => None
  | S f => if rd m (s + n) =? 0 then Some n else strlen_loop m s (n + 1) f
  end.

Definition strlen (m : memory) (s : Z) (fuel : nat) : option Z := strlen_loop m s 0 fuel.

(** ** Specification vocabulary *)

(** The first [k] characters of the string at [p] are not NUL. *)
Fixpoint nonul (m : memory) (p : Z) (k : nat) : bool :=
  match k with
  | O => true
  | S k' => negb (rd m p =? 0) && nonul m (p + 1) k'
  end.

(** Character [i] of the string at [p], NUL after its end. *)
Definition cchar (m : memory) (p i : Z) : Z :=
  if nonul m p (Z.to_nat i) then rd m (p + i) else 0.

(** ** Lemmas *)

Lemma memset_from_rd m dst c i n x :
  rd (memset_from m dst c i n) x =
  if (dst + i <=? x) && (x <? dst + i + Z.of_nat n) then u8 c else rd m x.
Proof.
  revert m i. induction n as [|n IH]; intros m i; cbn [memset_from].
  - zcmp; done.
  - rewrite IH.
    destruct (Z.eq_dec x (dst + i)) as [->|Hne];
      [rewrite rd_wr_same|rewrite rd_wr_other by done];
      zcmp; done.
Qed.

(** [memset] sets exactly the [n] bytes from [dst]. *)
Lemma memset_rd m dst c n x :
  rd (memset m dst c n) x =
  if (dst <=? x) && (x <? dst + n) then u8 c else rd m x.
Proof.
  unfold memset. rewrite memset_from_rd.
  destruct (Z.leb_spec 0 n).
  - rewrite Z2Nat.id by done. by rewrite Z.add_0_r.
  - replace (Z.to_nat n) with 0%nat by lia. simpl.
    zcmp; done.
Qed.

Lemma memset_rd_in m dst c n x :
  dst <= x < dst + n -> rd (memset m dst c n) x = u8 c.
Proof.
  intros. rewrite memset_rd.
  zcmp; done.
Qed.

Lemma memset_rd_out m dst c n x :
  x < dst \/ dst + n <= x -> rd (memset m dst c n) x = rd m x.
Proof.
  intros. rewrite memset_rd.
  zcmp; done.
Qed.

Lemma move_up_rd n : forall m d s x,
  d <= s \/ s + Z.of_nat n <= d ->
  rd (move_up m d s n) x =
  if (d <=? x) && (x <? d + Z.of_nat n) then rd m (s + (x - d)) else rd m x.
Proof.
  induction n as [|n IH]; intros m d s x Hov; cbn [move_up].
  - zcmp; done.
  - rewrite IH by lia.
    destruct (Z.leb_spec (d + 1) x), (Z.ltb_spec x (d + 1 + Z.of_nat n)),
             (Z.leb_spec d x), (Z.ltb_spec x (d + Z.of_nat (S n))); simpl; try lia.
    + rewrite rd_wr_other by lia. f_equal. lia.
    + by rewrite rd_wr_other by lia.
    + replace x with d by lia. rewrite rd_wr_same. rewrite (u8_small (rd m s)) by apply rd_range.
      f_equal. lia.
    + by rewrite rd_wr_other by lia.
Qed.

Lemma move_down_rd n : forall m d s x,
  s <= d ->
  rd (move_down m d s n) x =
  if (d - Z.of_nat n <=? x) && (x <? d) then rd m (s + (x - d)) else rd m x.
Proof.
  induction n as [|n IH]; intros m d s x Hov; cbn [move_down].
  - zcmp; done.
  - rewrite IH by lia.
    destruct (Z.leb_spec (d - 1 - Z.of_nat n) x), (Z.ltb_spec x (d - 1)),
             (Z.leb_spec (d - Z.of_nat (S n)) x), (Z.ltb_spec x d); simpl; try lia.
    + rewrite rd_wr_other by lia. f_equal. lia.
    + replace x with (d - 1) by lia. rewrite rd_wr_same.
      rewrite (u8_small (rd m (s - 1))) by apply rd_range. f_equal. lia.
    + by rewrite rd_wr_other by lia.
    + by rewrite rd_wr_other by lia.
Qed.

(** The pointwise effect of [memmove], overlapping regions included. *)
Lemma memmove_rd m dst src n x :
  0 <= n ->
  rd (memmove m dst src n) x =
  if (dst <=? x) && (x <? dst + n) then rd m (src + (x - dst)) else rd m x.
Proof.
  intros Hn. unfold memmove.
  destruct (Z.eqb_spec n 0) as [->|Hn0].
  { destruct (Z.leb_spec dst x), (Z.ltb_spec x (dst + 0)); try lia; done. }
  destruct (Z.ltb_spec src dst), (Z.gtb_spec (src + n) dst); simpl.
  - rewrite move_down_rd by lia. rewrite Z2Nat.id by done.
    replace (dst + n - n) with dst by lia.
    destruct (_ && _); [f_equal; lia|done].
  - rewrite move_up_rd by lia. by rewrite Z2Nat.id.
  - rewrite move_up_rd by lia. by rewrite Z2Nat.id.
  - rewrite move_up_rd by lia. by rewrite Z2Nat.id.
Qed.

Lemma memmove_rd_out m dst src n x :
  0 <= n -> x < dst \/ dst + n <= x -> rd (memmove m dst src n) x = rd m x.
Proof.
  intros. rewrite memmove_rd by done.
  zcmp; done.
Qed.

Lemma memmove_rd_in m dst src n i :
  0 <= i < n -> rd (memmove m dst src n) (dst + i) = rd m (src + i).
Proof.
  intros. rewrite memmove_rd by lia.
  destruct (Z.leb_spec dst (dst + i)), (Z.ltb_spec (dst + i) (dst + n)); try lia; simpl.
  f_equal. lia.
Qed.

Lemma memcmp_loop_zero m s1 s2 n :
  memcmp_loop m s1 s2 n = 0 <->
  forall i, 0 <= i < Z.of_nat n -> rd m (s1 + i) = rd m (s2 + i).
Proof.
  revert s1 s2. induction n as [|n IH]; intros s1 s2; cbn [memcmp_loop].
  - split; [lia|done].
  - destruct (Z.eqb_spec (rd m s1) (rd m s2)) as [He|Hne]; simpl.
    + rewrite IH. split; intros H i Hi.
      * destruct (Z.eq_dec i 0) as [->|]; [by rewrite !Z.add_0_r|].
        replace (s1 + i) with (s1 + 1 + (i - 1)) by lia.
        replace (s2 + i) with (s2 + 1 + (i - 1)) by lia. apply H. lia.
      * rewrite <- !Z.add_assoc. apply H. lia.
    + split; [lia|]. intros H. specialize (H 0). rewrite !Z.add_0_r in H. lia.
Qed.

Lemma nonul_spec m p k :
  nonul m p k = true <-> forall i, 0 <= i < Z.of_nat k -> rd m (p + i) <> 0.
Proof.
  revert p. induction k as [|k IH]; intros p; cbn [nonul]; [split; [lia|done]|].
  rewrite andb_true_iff, IH, negb_true_iff, Z.eqb_neq. split.
  - intros [H0 H] i Hi. destruct (Z.eq_dec i 0) as [->|]; [by rewrite Z.add_0_r|].
    replace (p + i) with (p + 1 + (i - 1)) by lia. apply H. lia.
  - intros H. split; [rewrite <- (Z.add_0_r p); apply H; lia|].
    intros i Hi. rewrite <- Z.add_assoc. apply H. lia.
Qed.

Lemma nonul_ext m1 m2 p k :
  (forall i, 0 <= i < Z.of_nat k -> rd m1 (p + i) = rd m2 (p + i)) ->
  nonul m1 p k = nonul m2 p k.
Proof.
  revert p. induction k as [|k IH]; intros p H; cbn [nonul]; [done|].
  rewrite <- (Z.add_0_r p) at 1 3. rewrite (H 0) by lia. f_equal.
  apply IH. intros i Hi. rewrite <- Z.add_assoc. apply H. lia.
Qed.

Lemma cchar_0 m p : cchar m p 0 = rd m p.
Proof. unfold cchar. simpl. by rewrite Z.add_0_r. Qed.

Lemma cchar_succ m p i :
  0 <= i -> cchar m p (i + 1) = if rd m p =? 0 then 0 else cchar m (p + 1) i.
Proof.
  intros. unfold cchar. replace (Z.to_nat (i + 1)) with (S (Z.to_nat i)) by lia.
  cbn [nonul]. destruct (Z.eqb_spec (rd m p) 0); simpl; [done|].
  by replace (p + (i + 1)) with (p + 1 + i) by lia.
Qed.

Lemma strncmp_loop_zero m p q n :
  strncmp_loop m p q n = 0 <->
  forall i, 0 <= i < Z.of_nat n -> cchar m p i = cchar m q i.
Proof.
  revert p q. induction n as [|n IH]; intros p q; cbn [strncmp_loop]; [split; [lia|done]|].
  destruct (Z.eqb_spec (rd m p) 0) as [Hp|Hp]; simpl.
  - split.
    + intros Heq i Hi. destruct (Z.eq_dec i 0) as [->|]; [rewrite !cchar_0; lia|].
      replace i with (i - 1 + 1) by lia. rewrite !cchar_succ by lia.
      by rewrite Hp, (proj2 (Z.eqb_eq (rd m q) 0)) by lia.
    + intros H. specialize (H 0 ltac:(lia)). rewrite !cchar_0 in H. lia.
  - destruct (Z.eqb_spec (rd m p) (rd m q)) as [He|Hne].
    + rewrite IH. split; intros H i Hi.
      * destruct (Z.eq_dec i 0) as [->|]; [by rewrite !cchar_0|].
        replace i with (i - 1 + 1) by lia. rewrite !cchar_succ by lia.
        rewrite <- He. destruct (rd m p =? 0); [done|]. apply H. lia.
      * specialize (H (i + 1) ltac:(lia)). rewrite !cchar_succ in H by lia.
        rewrite <- He in H. by rewrite (proj2 (Z.eqb_neq (rd m p) 0)) in H by done.
    + split; [lia|]. intros H. specialize (H 0 ltac:(lia)). rewrite !cchar_0 in H. lia.
Qed.

Lemma zero_fill_rd m s n x :
  rd (zero_fill m s n) x = if (s <=? x) && (x <? s + Z.of_nat n) then 0 else rd m x.
Proof.
  revert m s. induction n as [|n IH]; intros m s; cbn [zero_fill]; [zcmp; done|].
  rewrite IH. destruct (Z.eq_dec x s) as [->|];
    [rewrite rd_wr_same|rewrite rd_wr_other by done]; zcmp; done.
Qed.

Lemma cchar_ext m1 m2 p i :
  (forall j, 0 <= j <= i -> rd m1 (p + j) = rd m2 (p + j)) ->
  0 <= i -> cchar m1 p i = cchar m2 p i.
Proof.
  intros H Hi. unfold cchar. rewrite (nonul_ext m1 m2) by (intros; apply H; lia).
  destruct (nonul _ _ _); [apply H; lia|done].
Qed.

Lemma strncpy_loop_rd n : forall m s t x,
  t + Z.of_nat n <= s \/ s + Z.of_nat n <= t ->
  rd (strncpy_loop m s t n) x =
  if (s <=? x) && (x <? s + Z.of_nat n) then cchar m t (x - s) else rd m x.
Proof.
  induction n as [|n IH]; intros m s t x Hov; cbn [strncpy_loop]; [zcmp; done|].
  destruct (Z.eqb_spec (rd m t) 0) as [H0|H0]; simpl.
  - rewrite zero_fill_rd. zcmp; try by rewrite rd_wr_other by lia.
    + replace (x - s) with (x - s - 1 + 1) by lia. rewrite cchar_succ by lia.
      by rewrite H0.
    + replace x with s by lia. rewrite Z.sub_diag, cchar_0, rd_wr_same.
      apply u8_small, rd_range.
  - rewrite IH by lia.
    zcmp; try by rewrite rd_wr_other by lia.
    + replace (x - s) with (x - (s + 1) + 1) by lia. rewrite cchar_succ by lia.
      rewrite (proj2 (Z.eqb_neq (rd m t) 0)) by done.
      apply cchar_ext; [|lia]. intros j Hj. apply rd_wr_other. lia.
    + replace x with s by lia. rewrite Z.sub_diag, cchar_0, rd_wr_same.
      apply u8_small, rd_range.
Qed.

(** What [safestrcpy] leaves at [s]: a NUL-terminated prefix of [t]. *)
Lemma safestrcpy_loop_spec n : forall m s t,
  t + Z.of_nat n <= s \/ s + Z.of_nat n < t ->
  exists k, 0 <= k <= Z.of_nat n /\
    rd (safestrcpy_loop m s t n) (s + k) = 0 /\
    (forall i, 0 <= i < k ->
       rd (safestrcpy_loop m s t n) (s + i) = rd m (t + i) /\ rd m (t + i) <> 0) /\
    (k < Z.of_nat n -> rd m (t + k) = 0).
Proof.
  induction n as [|n IH]; intros m s t Hov; cbn [safestrcpy_loop].
  { exists 0. rewrite Z.add_0_r, rd_wr_same. repeat split; try lia; done. }
  destruct (Z.eqb_spec (rd m t) 0) as [H0|H0]; simpl.
  { exists 0. rewrite !Z.add_0_r. rewrite rd_wr_other, rd_wr_same by lia.
    rewrite u8_small by apply rd_range. repeat split; try lia; done. }
  set (m' := wr m s (rd m t)).
  assert (Hm' : forall i, t <= i <= t + Z.of_nat n -> rd m' i = rd m i)
    by (intros; apply rd_wr_other; lia).
  destruct (IH m' (s + 1) (t + 1)) as (k & Hk & Hz & Hpre & Hend); [lia|].
  assert (Hs : rd (safestrcpy_loop m' (s + 1) (t + 1) n) s = rd m t).
  { assert (Hframe : forall n' m0 s0 t0, s < s0 -> rd (safestrcpy_loop m0 s0 t0 n') s = rd m0 s).
    { induction n' as [|n' IH']; intros m0 s0 t0 Hlt; cbn [safestrcpy_loop].
      - by rewrite rd_wr_other by lia.
      - destruct (negb _); [rewrite IH' by lia|]; by rewrite ?rd_wr_other by lia. }
    rewrite Hframe by lia. unfold m'. rewrite rd_wr_same. apply u8_small, rd_range. }
  exists (k + 1). replace (s + (k + 1)) with (s + 1 + k) by lia.
  split; [lia|]. split; [done|]. split.
  - intros i Hi. destruct (Z.eq_dec i 0) as [->|]; [by rewrite !Z.add_0_r|].
    destruct (Hpre (i - 1)) as [Ha Hb]; [lia|].
    replace (s + 1 + (i - 1)) with (s + i) in Ha by lia.
    replace (t + 1 + (i - 1)) with (t + i) in * by lia.
    rewrite Hm' in Ha, Hb by lia. done.
  - intros Hlt. replace (t + (k + 1)) with (t + 1 + k) by lia.
    rewrite <- (Hm' (t + 1 + k)) by lia. apply Hend. lia.
Qed.

Lemma strlen_loop_spec fuel : forall m s n k,
  n <= k < n + Z.of_nat fuel ->
  (forall i, n <= i < k -> rd m (s + i) <> 0) -> rd m (s + k) = 0 ->
  strlen_loop m s n fuel = Some k.
Proof.
  induction fuel as [|f IH]; intros m s n k Hk Hpre Hz; cbn [strlen_loop]; [lia|].
  destruct (Z.eq_dec n k) as [->|].
  - by rewrite Hz.
  - rewrite (proj2 (Z.eqb_neq _ _)) by (apply Hpre; lia).
    apply IH; [lia| |done]. intros. apply Hpre. lia.
Qed.

(** ** Properties *)

(** [memmove] copies [n] bytes as if through a temporary buffer: after it,
    byte [dst+i] is what byte [src+i] was before, also when the regions
    overlap in either direction, and every other byte is unchanged. *)
Theorem memmove_correct m dst src n x :
  0 <= n ->
  rd (memmove m dst src n) x =
  if (dst <=? x) && (x <? dst + n) then rd m (src + (x - dst)) else rd m x.
Proof. apply memmove_rd. Qed.

Lemma memmove_correct_witness :
  let m := fun x => x in
  map (rd (memmove m 102 100 5)) [101; 102; 103; 104; 105; 106; 107] = [101; 100; 101; 102; 103; 104; 107].
Proof. cbn [map]. rewrite !memmove_correct by lia. reflexivity. Defined.

(** [strncpy] into a separate region makes a string that [strncmp] finds
    equal to the source over the same [n], its tail padded with NULs, and
    changes no byte outside the [n] bytes of the destination. *)
Theorem strncpy_strncmp m s t n :
  0 <= n -> t + n <= s \/ s + n <= t ->
  let m' := strncpy m s t n in
  strncmp m' s t n = 0 /\
  (forall i, 0 <= i < n -> rd m' (s + i) = cchar m t i) /\
  (forall x, x < s \/ s + n <= x -> rd m' x = rd m x).
Proof.
  intros Hn Hov m'.
  assert (Hrd : forall x, rd m' x = if (s <=? x) && (x <? s + n) then cchar m t (x - s) else rd m x).
  { intros x. unfold m', strncpy. rewrite strncpy_loop_rd, Z2Nat.id; [done|done|]. by rewrite Z2Nat.id. }
  assert (Hin : forall i, 0 <= i < n -> rd m' (s + i) = cchar m t i).
  { intros i Hi. rewrite Hrd. zcmp; try lia; simpl. f_equal. lia. }
  split; [|split; [done|]].
  - apply strncmp_loop_zero. intros i Hi. rewrite Z2Nat.id in Hi by done.
    rewrite (cchar_ext m' m t); [|intros j Hj; rewrite Hrd; zcmp; try lia; done|lia].
    destruct (nonul m t (Z.to_nat i)) eqn:Hnn.
    + assert (Hs : nonul m' s (Z.to_nat i) = true).
      { apply nonul_spec. intros j Hj. rewrite Hin by lia. unfold cchar.
        pose proof (proj1 (nonul_spec m t (Z.to_nat i)) Hnn) as Hnz.
        rewrite (proj2 (nonul_spec m t (Z.to_nat j))) by (intros k Hk; apply Hnz; lia). apply Hnz. lia. }
      unfold cchar at 1. by rewrite Hs, Hin by lia.
    + unfold cchar at 1. rewrite Hin by lia. by destruct (nonul m' s _); unfold cchar; rewrite Hnn.
  - intros x Hx. rewrite Hrd. zcmp; try lia; done.
Qed.

Lemma strncpy_strncmp_witness :
  let m := fun x => if x =? 100 then 65 else 0 in
  strncmp (strncpy m 200 100 14) 200 100 14 = 0.
Proof.
  exact (proj1 (strncpy_strncmp (fun x => if x =? 100 then 65 else 0) 200 100 14 ltac:(lia) ltac:(lia))).
Defined.

(** [safestrcpy] always leaves a NUL-terminated string within the [n] bytes
    of the destination: the longest prefix of the source that fits. *)
Theorem safestrcpy_correct m s t n :
  0 < n -> t + n <= s \/ s + n <= t ->
  let m' := safestrcpy m s t n in
  exists k, 0 <= k < n /\ rd m' (s + k) = 0 /\
    (forall i, 0 <= i < k -> rd m' (s + i) = rd m (t + i) /\ rd m (t + i) <> 0) /\
    (k < n - 1 -> rd m (t + k) = 0).
Proof.
  intros Hn Hov m'. unfold m', safestrcpy. rewrite (proj2 (Z.leb_gt _ _)) by lia.
  destruct (safestrcpy_loop_spec (Z.to_nat (n - 1)) m s t) as (k & Hk & H1 & H2 & H3); [lia|].
  exists k. split; [lia|]. split; [done|]. split; [done|]. intros. apply H3. lia.
Qed.

Lemma safestrcpy_correct_witness :
  exists k, 0 <= k < 4 /\ rd (safestrcpy (fun _ => 65) 200 100 4) (200 + k) = 0.
Proof.
  destruct (safestrcpy_correct (fun _ => 65) 200 100 4 ltac:(lia) ltac:(lia)) as (k & H1 & H2 & _).
  exists k. split; assumption.
Defined.
