(* ===== verification/Riscv.v ===== *)
(** kernel/riscv.h and kernel/memlayout.h: page and page-table-entry
    arithmetic, and the physical memory layout. *)

From S2P Require Import Prelude.

(** ** Pages (riscv.h) *)

Definition PGSIZE : Z := 4096.
Definition PGSHIFT : Z := 12.
Definition PGROUNDUP (sz : Z) : Z := Z.land (u64 (sz + PGSIZE - 1)) (Z.lnot (PGSIZE - 1)).
Definition PGROUNDDOWN (a : Z) : Z := Z.land a (Z.lnot (PGSIZE - 1)).

(** ** Page-table entries (riscv.h) *)

Definition PTE_V : Z := Z.shiftl 1 0.
Definition PTE_R : Z := Z.shiftl 1 1.
Definition PTE_W : Z := Z.shiftl 1 2.
Definition PTE_X : Z := Z.shiftl 1 3.
Definition PTE_U : Z := Z.shiftl 1 4.

Definition PA2PTE (pa : Z) : Z := u64 (Z.shiftl (Z.shiftr pa 12) 10).
Definition PTE2PA (pte : Z) : Z := u64 (Z.shiftl (Z.shiftr pte 10) 12).
Definition PTE_FLAGS (pte : Z) : Z := Z.land pte 0x3FF.

Definition PXMASK : Z := 0x1FF.
Definition PXSHIFT (level : Z) : Z := PGSHIFT + 9 * level.
Definition PX (level va : Z) : Z := Z.land (Z.shiftr va (PXSHIFT level)) PXMASK.

Definition MAXVA : Z := Z.shiftl 1 (9 + 9 + 9 + 12 - 1).

Definition SATP_SV39 : Z := Z.shiftl 8 60.
Definition MAKE_SATP (pagetable : Z) : Z := Z.lor SATP_SV39 (Z.shiftr pagetable 12).

(** ** Physical and virtual layout (memlayout.h) *)

Definition UART0 : Z := 0x10000000.
Definition VIRTIO0 : Z := 0x10001000.
Definition PLIC : Z := 0x0c000000.
Definition KERNBASE : Z := 0x80000000.
Definition PHYSTOP : Z := KERNBASE + 128 * 1024 * 1024.
Definition TRAMPOLINE : Z := MAXVA - PGSIZE.
Definition KSTACK (p : Z) : Z := TRAMPOLINE - (p + 1) * 2 * PGSIZE.
Definition TRAPFRAME : Z := TRAMPOLINE - PGSIZE.

(** The symbols kernel.ld provides; [SymbolsOk] is what the linker script
    guarantees about them, and that the kernel fits in RAM. *)
Class Symbols := {
  sym_end : Z;
  sym_etext : Z;
  sym_trampoline : Z }.

Class SymbolsOk {sy : Symbols} : Prop := {
  tramp_aligned : sym_trampoline mod PGSIZE = 0;
  tramp_base : KERNBASE <= sym_trampoline;
  tramp_etext : sym_etext = sym_trampoline + PGSIZE;
  etext_end : sym_etext <= sym_end;
  end_phystop : sym_end <= PHYSTOP }.
Arguments SymbolsOk : clear implicits.

(** ** Lemmas *)

Lemma land_lnot_pages a : 0 <= a -> Z.land a (Z.lnot 4095) = a - a mod 4096.
Proof.
  intros Ha. change 4095 with (Z.ones 12). rewrite <- Z.ldiff_land.
  rewrite Z.ldiff_ones_r by lia. rewrite Z.shiftl_mul_pow2, Z.shiftr_div_pow2 by lia.
  change (2 ^ 12) with 4096. pose proof (Z.div_mod a 4096). lia.
Qed.

Lemma pgrounddown_eq a : 0 <= a -> PGROUNDDOWN a = a - a mod 4096.
Proof. apply land_lnot_pages. Qed.

Lemma pgroundup_eq sz :
  0 <= sz -> sz + 4095 < 2 ^ 64 -> PGROUNDUP sz = sz + 4095 - (sz + 4095) mod 4096.
Proof.
  intros. unfold PGROUNDUP, PGSIZE. replace (sz + 4096 - 1) with (sz + 4095) by lia.
  rewrite u64_small by lia. apply land_lnot_pages. lia.
Qed.

Lemma pgrounddown_bounds a :
  0 <= a -> PGROUNDDOWN a mod 4096 = 0 /\ PGROUNDDOWN a <= a < PGROUNDDOWN a + 4096 /\
            0 <= PGROUNDDOWN a.
Proof.
  intros. rewrite pgrounddown_eq by done. pose proof (Z.mod_pos_bound a 4096).
  pose proof (Z.div_mod a 4096). replace (a - a mod 4096) with (a / 4096 * 4096) by lia.
  rewrite Z.mod_mul by lia. lia.
Qed.

Lemma pgroundup_bounds sz :
  0 <= sz -> sz + 4095 < 2 ^ 64 ->
  PGROUNDUP sz mod 4096 = 0 /\ sz <= PGROUNDUP sz < sz + 4096.
Proof.
  intros. rewrite pgroundup_eq by done.
  pose proof (Z.mod_pos_bound (sz + 4095) 4096). pose proof (Z.div_mod (sz + 4095) 4096).
  replace (sz + 4095 - (sz + 4095) mod 4096) with ((sz + 4095) / 4096 * 4096) by lia.
  rewrite Z.mod_mul by lia. lia.
Qed.

Lemma pgrounddown_aligned a : 0 <= a -> a mod 4096 = 0 -> PGROUNDDOWN a = a.
Proof. intros. rewrite pgrounddown_eq by done. lia. Qed.

Lemma pgroundup_aligned a :
  0 <= a -> a + 4095 < 2 ^ 64 -> a mod 4096 = 0 -> PGROUNDUP a = a.
Proof.
  intros. rewrite pgroundup_eq by done.
  replace ((a + 4095) mod 4096) with 4095; [lia|].
  rewrite Z.add_mod, H1 by lia. done.
Qed.

Lemma PX_eq level va : 0 <= level -> PX level va = (va / 2 ^ (12 + 9 * level)) mod 512.
Proof.
  intros. unfold PX, PXSHIFT, PXMASK, PGSHIFT. change 511 with (Z.ones 9).
  rewrite Z.land_ones by lia. by rewrite Z.shiftr_div_pow2 by lia.
Qed.

Lemma PX_range level va : 0 <= level -> 0 <= PX level va < 512.
Proof. intros. rewrite PX_eq by done. apply Z.mod_pos_bound. lia. Qed.

(** The three indices determine a page-aligned address below [MAXVA]. *)
Lemma PX_inj va1 va2 :
  0 <= va1 < MAXVA -> 0 <= va2 < MAXVA -> va1 mod 4096 = 0 -> va2 mod 4096 = 0 ->
  PX 2 va1 = PX 2 va2 -> PX 1 va1 = PX 1 va2 -> PX 0 va1 = PX 0 va2 -> va1 = va2.
Proof.
  intros H1 H2 A1 A2. rewrite !PX_eq by lia.
  change MAXVA with 274877906944 in *.
  change (2 ^ (12 + 9 * 2)) with (4096 * 512 * 512).
  change (2 ^ (12 + 9 * 1)) with (4096 * 512). change (2 ^ (12 + 9 * 0)) with 4096.
  rewrite <- !Z.div_div by lia.
  set (q1 := va1 / 4096). set (q2 := va2 / 4096).
  assert (va1 = 4096 * q1 + 0) by (rewrite <- A1; apply Z.div_mod; lia).
  assert (va2 = 4096 * q2 + 0) by (rewrite <- A2; apply Z.div_mod; lia).
  clearbody q1 q2. intros E2 E1 E0.
  pose proof (Z.div_mod q1 512 ltac:(lia)). pose proof (Z.div_mod q2 512 ltac:(lia)).
  set (r1 := q1 / 512) in *. set (r2 := q2 / 512) in *.
  pose proof (Z.div_mod r1 512 ltac:(lia)). pose proof (Z.div_mod r2 512 ltac:(lia)).
  assert (0 <= r1 / 512 < 512).
  { split; [apply Z.div_pos; [apply Z.div_pos|]; lia|]. unfold r1. rewrite Z.div_div by lia.
    apply Z.div_lt_upper_bound; lia. }
  assert (0 <= r2 / 512 < 512).
  { split; [apply Z.div_pos; [apply Z.div_pos|]; lia|]. unfold r2. rewrite Z.div_div by lia.
    apply Z.div_lt_upper_bound; lia. }
  rewrite !Z.mod_small in E2 by lia. lia.
Qed.

Lemma lor_low k x f : 0 <= k -> 0 <= f < 2 ^ k -> Z.lor (x * 2 ^ k) f = x * 2 ^ k + f.
Proof.
  intros Hk Hf. symmetry. apply Z.add_nocarry_lor.
  apply Z.bits_inj'. intros n Hn. rewrite Z.land_spec, Z.bits_0.
  destruct (Z.ltb_spec n k).
  - by rewrite Z.mul_pow2_bits_low by done.
  - replace (Z.testbit f n) with false; [by rewrite andb_false_r|].
    symmetry. rewrite Z.testbit_false by done. rewrite Z.div_small; [done|].
    split; [lia|]. apply Z.lt_le_trans with (2 ^ k); [lia|]. apply Z.pow_le_mono_r; lia.
Qed.

(** Physical page addresses a page-table entry can hold. *)
Definition page_addr (pa : Z) : Prop := pa mod 4096 = 0 /\ 0 <= pa < 2 ^ 56.

Lemma PA2PTE_eq pa : page_addr pa -> PA2PTE pa = pa / 4096 * 1024.
Proof.
  intros [_ Hpa]. unfold PA2PTE. rewrite Z.shiftr_div_pow2, Z.shiftl_mul_pow2 by lia.
  change (2 ^ 12) with 4096. change (2 ^ 10) with 1024. apply u64_small.
  assert (0 <= pa / 4096 < 2 ^ 44); [|lia].
  split; [apply Z.div_pos; lia|apply Z.div_lt_upper_bound; lia].
Qed.

Lemma pte_lor pa f : page_addr pa -> 0 <= f < 1024 -> Z.lor (PA2PTE pa) f = pa / 4096 * 1024 + f.
Proof. intros. rewrite PA2PTE_eq by done. by apply (lor_low 10). Qed.

Lemma pte_lor_range pa f :
  page_addr pa -> 0 <= f < 1024 -> 0 <= Z.lor (PA2PTE pa) f < 2 ^ 64.
Proof.
  intros [Ha Hpa] Hf. rewrite pte_lor by done.
  assert (0 <= pa / 4096 < 2 ^ 44); [|lia].
  split; [apply Z.div_pos; lia|apply Z.div_lt_upper_bound; lia].
Qed.

(** Encoding then decoding a page-table entry. *)
Lemma PTE2PA_lor pa f : page_addr pa -> 0 <= f < 1024 -> PTE2PA (Z.lor (PA2PTE pa) f) = pa.
Proof.
  intros [Ha Hpa] Hf. rewrite pte_lor by done. unfold PTE2PA.
  rewrite Z.shiftr_div_pow2, Z.shiftl_mul_pow2 by lia.
  change (2 ^ 12) with 4096. change (2 ^ 10) with 1024.
  rewrite Z.div_add_l by lia. rewrite (Z.div_small f) by lia. rewrite Z.add_0_r.
  pose proof (Z.div_mod pa 4096 ltac:(lia)). rewrite u64_small; lia.
Qed.

Lemma PTE_FLAGS_eq pte : PTE_FLAGS pte = pte mod 1024.
Proof. unfold PTE_FLAGS. change 0x3FF with (Z.ones 10). by rewrite Z.land_ones by lia. Qed.

Lemma PTE_FLAGS_lor pa f :
  page_addr pa -> 0 <= f < 1024 -> PTE_FLAGS (Z.lor (PA2PTE pa) f) = f.
Proof.
  intros. rewrite PTE_FLAGS_eq, pte_lor by done.
  rewrite Z.add_comm, Z.mod_add by lia. by apply Z.mod_small.
Qed.

(** A single-bit flag of an entry is a bit of its flags. *)
Lemma pte_flag_lor pa f k :
  page_addr pa -> 0 <= f < 1024 -> 0 <= k < 10 ->
  Z.land (Z.lor (PA2PTE pa) f) (Z.shiftl 1 k) = Z.land f (Z.shiftl 1 k).
Proof.
  intros Hpa Hf Hk. rewrite PA2PTE_eq by done.
  rewrite Z.land_lor_distr_l. replace (Z.land (pa / 4096 * 1024) (Z.shiftl 1 k)) with 0; [done|].
  symmetry. apply Z.bits_inj'. intros n Hn. rewrite Z.land_spec, Z.bits_0.
  rewrite Z.shiftl_1_l. destruct (Z.eq_dec n k) as [->|].
  - change 1024 with (2 ^ 10). by rewrite Z.mul_pow2_bits_low by lia.
  - rewrite (Z.pow2_bits_false k n) by lia. by rewrite andb_false_r.
Qed.
