(* ===== verification/Spinlock.v ===== *)
(** kernel/spinlock.c: spinlocks and interrupt nesting on the lock and CPU
    structures, the lock protocol of several CPUs as a step relation, and the
    refinement that lets the other components use [KMonad.acquire] and
    [KMonad.release]. *)

From S2P Require Import Prelude KMonad.

(** ** Structures *)

(** [struct spinlock]; [lk_cpu] is the CPU holding the lock. *)
Record spinlock := Spinlock {
  locked : Z;
  name : string;
  lk_cpu : option nat }.

(** [struct cpu], with the supervisor interrupt-enable bit of its hart. *)
Record cpu := Cpu {
  noff : Z;
  intena : bool;
  sie : bool }.

Inductive cresult (A : Type) :=
| Done (a : A)
| CPanic (msg : string)
| Spin                      (** another CPU holds the lock: busy-wait *).
Arguments Done {A} _.
Arguments CPanic {A} _.
Arguments Spin {A}.

(** ** Operations *)

Definition initlock (lk : spinlock) (n : string) : spinlock := Spinlock 0 n None.

Definition holding (lk : spinlock) (c : nat) : bool :=
  negb (locked lk =? 0) && bool_decide (lk_cpu lk = Some c).

Definition push_off (c : cpu) : cpu :=
  let old := sie c in
  Cpu (noff c + 1) (if noff c =? 0 then old else intena c) false.

Definition pop_off (c : cpu) : cresult cpu :=
  if sie c then CPanic "pop_off - interruptible"
  else if noff c <? 1 then CPanic "pop_off"
  else
    let n := noff c - 1 in
    Done (Cpu n (intena c) (if (n =? 0) && intena c then true else sie c)).

(** The state one CPU sees: its number, its [struct cpu] and the locks. *)
Record cstate := CState {
  c_id : nat;
  c_cpu : cpu;
  c_locks : lock -> spinlock }.

Definition set_lock (l : lock) (lk : spinlock) (ls : lock -> spinlock) : lock -> spinlock :=
  fun l' => if decide (l' = l) then lk else ls l'.

Definition acquire_c (l : lock) (s : cstate) : cresult cstate :=
  let c := push_off (c_cpu s) in
  let lk := c_locks s l in
  if holding lk (c_id s) then CPanic "acquire"
  else if negb (locked lk =? 0) then Spin
  else Done (CState (c_id s) c (set_lock l (Spinlock 1 (name lk) (Some (c_id s))) (c_locks s))).

Definition release_c (l : lock) (s : cstate) : cresult cstate :=
  let lk := c_locks s l in
  if negb (holding lk (c_id s)) then CPanic "release"
  else
    let ls := set_lock l (Spinlock 0 (name lk) None) (c_locks s) in
    match pop_off (c_cpu s) with
    | Done c => Done (CState (c_id s) c ls)
    | CPanic m => CPanic m
    | Spin => Spin
    end.

(** ** Nesting of push_off and pop_off *)

Fixpoint push_n (n : nat) (c : cpu) : cpu :=
  match n with O => c | S n' => push_n n' (push_off c) end.

Fixpoint pop_n (n : nat) (c : cpu) : cresult cpu :=
  match n with
  | O => Done c
  | S n' => match pop_off c with Done c' => pop_n n' c' | r => r end
  end.

(** ** The protocol of several CPUs on one lock

    [pc] is where a CPU is in [acquire] or [release]; each step is one atomic
    access to shared memory. *)

Inductive pc :=
| Out          (** outside the lock's critical section *)
| Check        (** in acquire, after [push_off()] *)
| Spinning     (** at the [__sync_lock_test_and_set] loop *)
| Got          (** the swap returned 0, [lk->cpu] not yet set *)
| Crit         (** acquire has returned *)
| Cleared      (** in release, after [lk->cpu = 0] *)
| Unlocked     (** in release, after [__sync_lock_release] *)
| Panicked.

Record sys := Sys {
  y_lock : spinlock;
  y_pcs : list pc;
  y_cpus : list cpu }.

Definition at_pc (s : sys) (i : nat) (p : pc) : Prop := y_pcs s !! i = Some p.

Definition go (s : sys) (i : nat) (p : pc) : list pc := <[i := p]> (y_pcs s).

Inductive step : sys -> sys -> Prop :=
| step_push s i c :
    at_pc s i Out -> y_cpus s !! i = Some c ->
    step s (Sys (y_lock s) (go s i Check) (<[i := push_off c]> (y_cpus s)))
| step_check_ok s i :
    at_pc s i Check -> holding (y_lock s) i = false ->
    step s (Sys (y_lock s) (go s i Spinning) (y_cpus s))
| step_check_panic s i :
    at_pc s i Check -> holding (y_lock s) i = true ->
    step s (Sys (y_lock s) (go s i Panicked) (y_cpus s))
| step_swap_busy s i lk :
    at_pc s i Spinning -> lk = y_lock s -> locked lk <> 0 ->
    step s (Sys (Spinlock 1 (name lk) (lk_cpu lk)) (y_pcs s) (y_cpus s))
| step_swap_free s i lk :
    at_pc s i Spinning -> lk = y_lock s -> locked lk = 0 ->
    step s (Sys (Spinlock 1 (name lk) (lk_cpu lk)) (go s i Got) (y_cpus s))
| step_set_cpu s i lk :
    at_pc s i Got -> lk = y_lock s ->
    step s (Sys (Spinlock (locked lk) (name lk) (Some i)) (go s i Crit) (y_cpus s))
| step_rel_panic s i :
    at_pc s i Crit -> holding (y_lock s) i = false ->
    step s (Sys (y_lock s) (go s i Panicked) (y_cpus s))
| step_rel_clear s i lk :
    at_pc s i Crit -> lk = y_lock s -> holding lk i = true ->
    step s (Sys (Spinlock (locked lk) (name lk) None) (go s i Cleared) (y_cpus s))
| step_rel_unlock s i lk :
    at_pc s i Cleared -> lk = y_lock s ->
    step s (Sys (Spinlock 0 (name lk) (lk_cpu lk)) (go s i Unlocked) (y_cpus s))
| step_pop s i c c' :
    at_pc s i Unlocked -> y_cpus s !! i = Some c -> pop_off c = Done c' ->
    step s (Sys (y_lock s) (go s i Out) (<[i := c']> (y_cpus s)))
| step_pop_panic s i c m :
    at_pc s i Unlocked -> y_cpus s !! i = Some c -> pop_off c = CPanic m ->
    step s (Sys (y_lock s) (go s i Panicked) (y_cpus s))
| step_intr s i c b :       (** [intr_on()] or [intr_off()] by other code *)
    at_pc s i Out -> y_cpus s !! i = Some c -> noff c = 0 ->
    step s (Sys (y_lock s) (y_pcs s) (<[i := Cpu (noff c) (intena c) b]> (y_cpus s))).

(** After [initlock], with [n] CPUs outside and interrupts in any state. *)
Definition initial (s : sys) : Prop :=
  exists lk n,
    y_lock s = initlock lk n /\
    Forall (fun p => p = Out) (y_pcs s) /\
    length (y_cpus s) = length (y_pcs s) /\
    Forall (fun c => 0 <= noff c /\ (0 < noff c -> sie c = false)) (y_cpus s).

Inductive reachable : sys -> Prop :=
| reach_init s : initial s -> reachable s
| reach_step s s' : reachable s -> step s s' -> reachable s'.

(** ** The invariant of the protocol *)

Definition owner (p : pc) : bool :=
  match p with Got | Crit | Cleared => true | _ => false end.

(** The CPU has called [push_off] and not yet [pop_off]. *)
Definition pushed (p : pc) : bool :=
  match p with Out => false | Panicked => false | _ => true end.

Record proto_inv (s : sys) : Prop := {
  pi_owner : forall i j p q, at_pc s i p -> at_pc s j q ->
    owner p = true -> owner q = true -> i = j;
  pi_locked : locked (y_lock s) <> 0 <-> exists i p, at_pc s i p /\ owner p = true;
  pi_cpu : forall i, lk_cpu (y_lock s) = Some i <-> at_pc s i Crit;
  pi_panic : forall i, ~ at_pc s i Panicked;
  pi_len : length (y_cpus s) = length (y_pcs s);
  pi_noff : forall i p c, at_pc s i p -> y_cpus s !! i = Some c ->
    (if pushed p then 1 else 0) <= noff c /\ (0 < noff c -> sie c = false) }.

Lemma at_pc_go s l cs i p j q :
  at_pc (Sys l (go s i p) cs) j q <->
  (j = i /\ q = p /\ is_Some (y_pcs s !! i)) \/ (j <> i /\ at_pc s j q).
Proof.
  unfold at_pc, go; simpl. destruct (decide (j = i)) as [->|Hne].
  - rewrite list_lookup_insert. destruct (decide (i < length (y_pcs s))%nat) as [Hl|Hl].
    + rewrite decide_True by done. apply lookup_lt_is_Some in Hl. naive_solver.
    + rewrite decide_False by naive_solver.
      assert (Hn : ~ is_Some (y_pcs s !! i)) by (by rewrite lookup_lt_is_Some).
      rewrite lookup_ge_None_2 by lia. naive_solver.
  - rewrite list_lookup_insert_ne by done. naive_solver.
Qed.

Lemma holding_spec lk i :
  holding lk i = true <-> locked lk <> 0 /\ lk_cpu lk = Some i.
Proof.
  unfold holding. rewrite andb_true_iff, negb_true_iff, Z.eqb_neq, bool_decide_eq_true. done.
Qed.

Lemma inv_initial s : initial s -> proto_inv s.
Proof.
  intros (lk & n & Hl & Hpcs & Hlen & Hcpus).
  assert (Hout : forall i p, at_pc s i p -> p = Out)
    by (intros i p Hp; exact (Forall_lookup_1 _ _ _ _ Hpcs Hp)).
  split; rewrite ?Hl; simpl.
  - intros i j p q Hp _ Ho. apply Hout in Hp as ->. done.
  - split; [done|]. intros (i & p & Hp & Ho). apply Hout in Hp as ->. done.
  - intros i. split; [done|]. intros Hp. by apply Hout in Hp.
  - intros i Hp. by apply Hout in Hp.
  - done.
  - intros i p c Hp Hc. apply Hout in Hp as ->. exact (Forall_lookup_1 _ _ _ _ Hcpus Hc).
Qed.

(** Moving one CPU from [p] to [p'] preserves the invariant when the lock
    and the CPU structures change accordingly. *)
Lemma inv_go s i p p' lk' cs' :
  proto_inv s -> at_pc s i p ->
  (owner p' = true -> owner p = true \/ locked (y_lock s) = 0) ->
  (locked lk' <> 0 <-> owner p' = true \/ (owner p = false /\ locked (y_lock s) <> 0)) ->
  (forall j, lk_cpu lk' = Some j <-> (j = i /\ p' = Crit) \/ (j <> i /\ at_pc s j Crit)) ->
  p' <> Panicked ->
  length cs' = length (y_cpus s) ->
  (forall j, j <> i -> cs' !! j = y_cpus s !! j) ->
  (forall c, cs' !! i = Some c ->
     (if pushed p' then 1 else 0) <= noff c /\ (0 < noff c -> sie c = false)) ->
  proto_inv (Sys lk' (go s i p') cs').
Proof.
  intros Hinv Hi Hown Hlk Hcpu Hpan Hlen Hcs Hci.
  assert (Hothers : owner p' = true -> forall j q, j <> i -> at_pc s j q -> owner q = false).
  { intros Ho j q Hj Hq. destruct (owner q) eqn:Hoq; [|done]. exfalso.
    destruct (Hown Ho) as [Hp|H0].
    - by apply Hj, (pi_owner _ Hinv j i q p).
    - assert (locked (y_lock s) <> 0); [|done]. apply (pi_locked _ Hinv). eauto. }
  split.
  - intros j k q r Hj Hk. rewrite at_pc_go in Hj, Hk.
    destruct Hj as [(->&->&_)|[Hj Hq]], Hk as [(->&->&_)|[Hk Hr]]; intros Ho1 Ho2.
    + done.
    + by rewrite (Hothers Ho1 k r) in Ho2.
    + by rewrite (Hothers Ho2 j q) in Ho1.
    + by apply (pi_owner _ Hinv j k q r).
  - simpl. rewrite Hlk. split.
    + intros [Ho|[Hp Hl]].
      * exists i, p'. split; [|done]. rewrite at_pc_go. left. eauto.
      * apply (pi_locked _ Hinv) in Hl as (j & q & Hq & Ho).
        exists j, q. split; [|done]. rewrite at_pc_go. right. split; [|done].
        intros ->. unfold at_pc in *. congruence.
    + intros (j & q & Hq & Ho). rewrite at_pc_go in Hq.
      destruct Hq as [(->&->&_)|[Hj Hq]]; [by left|]. right.
      assert (locked (y_lock s) <> 0) by (apply (pi_locked _ Hinv); eauto).
      destruct (owner p) eqn:Hp; [|done]. by destruct Hj; apply (pi_owner _ Hinv j i q p).
  - intros j. simpl. rewrite Hcpu, at_pc_go. naive_solver.
  - intros j. rewrite at_pc_go. intros [(_&Hp&_)|[_ Hj]]; [done|]. by apply (pi_panic _ Hinv j).
  - simpl. unfold go. rewrite length_insert, Hlen. apply Hinv.
  - intros j q c Hj Hc. rewrite at_pc_go in Hj. simpl in Hc.
    destruct Hj as [(->&->&_)|[Hj Hq]]; [by apply Hci|].
    rewrite Hcs in Hc by done. by apply (pi_noff _ Hinv j).
Qed.

Lemma crit_frame s i p : proto_inv s -> at_pc s i p -> p <> Crit ->
  forall j, lk_cpu (y_lock s) = Some j <-> j <> i /\ at_pc s j Crit.
Proof.
  intros Hinv Hi Hp j. rewrite (pi_cpu _ Hinv). split; [|naive_solver].
  intros Hj. split; [|done]. intros ->. unfold at_pc in *. congruence.
Qed.

Lemma owner_locked s i p :
  proto_inv s -> at_pc s i p -> owner p = true -> locked (y_lock s) <> 0.
Proof. intros Hinv Hi Ho. apply (pi_locked _ Hinv). eauto. Qed.

(** The CPU that owns the lock is the only one that can be recorded in it. *)
Lemma owner_cpu s i p j :
  proto_inv s -> at_pc s i p -> owner p = true -> at_pc s j Crit -> j = i.
Proof. intros Hinv Hi Ho Hj. by apply (pi_owner _ Hinv j i Crit p). Qed.

Lemma pop_off_ok c :
  1 <= noff c -> sie c = false ->
  pop_off c = Done (Cpu (noff c - 1) (intena c) ((noff c - 1 =? 0) && intena c)).
Proof.
  intros Hn Hs. unfold pop_off. rewrite Hs. destruct (Z.ltb_spec (noff c) 1); [lia|].
  f_equal. f_equal. by destruct (_ && _).
Qed.

Lemma inv_step s s' : proto_inv s -> step s s' -> proto_inv s'.
Proof.
  intros Hinv Hst.
  destruct Hst as [s i c Hi Hc|s i Hi Hh|s i Hi Hh|s i lk Hi Elk Hl|s i lk Hi Elk Hl
                  |s i lk Hi Elk|s i Hi Hh|s i lk Hi Elk Hh|s i lk Hi Elk
                  |s i c c' Hi Hc Hp|s i c m Hi Hc Hp|s i c b Hi Hc Hn].
  - pose proof (pi_noff _ Hinv i Out c Hi Hc) as [Hn0 _]. simpl in Hn0.
    eapply inv_go; eauto; simpl; try naive_solver.
    + intros j. rewrite (crit_frame s i Out) by done. naive_solver.
    + by rewrite length_insert.
    + intros j Hj. by rewrite list_lookup_insert_ne.
    + intros c' Hc'. rewrite list_lookup_insert_eq in Hc' by (by eapply lookup_lt_Some).
      injection Hc' as <-. simpl. split; [lia|done].
  - eapply inv_go; eauto; simpl; try naive_solver.
    + intros j. rewrite (crit_frame s i Check) by done. naive_solver.
    + intros c Hc. by apply (pi_noff _ Hinv i Check).
  - exfalso. apply holding_spec in Hh as [_ Hh]. apply (pi_cpu _ Hinv) in Hh.
    unfold at_pc in *. congruence.
  - subst lk. destruct s as [[l n c] ps cs]; simpl in *. destruct Hinv as [H1 H2 H3 H4 H5 H6].
    split; simpl in *; try done. rewrite <- H2. naive_solver lia.
  - subst lk. eapply inv_go; eauto; simpl; try naive_solver.
    + intros j. rewrite (crit_frame s i Spinning) by done. naive_solver.
    + intros c Hc. by apply (pi_noff _ Hinv i Spinning).
  - subst lk. pose proof (owner_locked s i Got Hinv Hi eq_refl).
    eapply inv_go; eauto; simpl; try naive_solver.
    + intros j. split; [naive_solver|]. intros [[-> _]|[Hj Hc]]; [done|].
      by destruct Hj; eapply owner_cpu.
    + intros c Hc. by apply (pi_noff _ Hinv i Got).
  - exfalso. assert (holding (y_lock s) i = true); [|congruence].
    apply holding_spec. split; [by eapply owner_locked|]. by apply (pi_cpu _ Hinv).
  - subst lk. pose proof (owner_locked s i Crit Hinv Hi eq_refl).
    eapply inv_go; eauto; simpl; try naive_solver.
    + intros j. split; [done|]. intros [[_ ?]|[Hj Hc]]; [done|].
      by destruct Hj; eapply (owner_cpu s i Crit).
    + intros c Hc. by apply (pi_noff _ Hinv i Crit).
  - subst lk. eapply inv_go; eauto; simpl; try naive_solver.
    + intros j. rewrite (crit_frame s i Cleared) by done. naive_solver.
    + intros c Hc. by apply (pi_noff _ Hinv i Cleared).
  - pose proof (pi_noff _ Hinv i Unlocked c Hi Hc) as [Hn Hs]. simpl in Hn.
    rewrite pop_off_ok in Hp by (done || apply Hs; lia). injection Hp as <-.
    eapply inv_go; eauto; simpl; try naive_solver.
    + intros j. rewrite (crit_frame s i Unlocked) by done. naive_solver.
    + by rewrite length_insert.
    + intros j Hj. by rewrite list_lookup_insert_ne.
    + intros c' Hc'. rewrite list_lookup_insert_eq in Hc' by (by eapply lookup_lt_Some).
      injection Hc' as <-. simpl. split; [lia|]. intros ?. by rewrite (proj2 (Z.eqb_neq _ _)) by lia.
  - exfalso. pose proof (pi_noff _ Hinv i Unlocked c Hi Hc) as [Hn Hs]. simpl in Hn.
    by rewrite pop_off_ok in Hp by (done || apply Hs; lia).
  - destruct Hinv as [H1 H2 H3 H4 H5 H6]. split; simpl; try done.
    + by rewrite length_insert.
    + intros j p c' Hp Hc'. destruct (decide (j = i)) as [->|Hj].
      * rewrite list_lookup_insert_eq in Hc' by (by eapply lookup_lt_Some).
        injection Hc' as <-. simpl. pose proof (H6 i Out c Hi Hc) as [Hlo _].
        unfold at_pc in *. simpl in *. assert (p = Out) as -> by congruence.
        simpl in *. split; lia.
      * rewrite list_lookup_insert_ne in Hc' by done. by apply (H6 j).
Qed.

Lemma inv_reachable s : reachable s -> proto_inv s.
Proof. induction 1; eauto using inv_initial, inv_step. Qed.

(** ** Refinement of the monadic lock operations *)

(** The locks a CPU holds in the structures are the list [h]; [noff] counts
    them, and interrupts are off while it holds any. *)
Record holds (h : list lock) (s : cstate) : Prop := {
  h_nodup : NoDup h;
  h_noff : noff (c_cpu s) = Z.of_nat (length h);
  h_sie : 0 < noff (c_cpu s) -> sie (c_cpu s) = false;
  h_holding : forall l, holding (c_locks s l) (c_id s) = true <-> l ∈ h }.

Lemma set_lock_same l lk ls : set_lock l lk ls l = lk.
Proof. unfold set_lock. by rewrite decide_True. Qed.

Lemma set_lock_other l lk ls l' : l' <> l -> set_lock l lk ls l' = ls l'.
Proof. intros. unfold set_lock. by rewrite decide_False. Qed.

Lemma holding_own b n i : holding (Spinlock b n (Some i)) i = negb (b =? 0).
Proof. unfold holding. simpl. rewrite bool_decide_eq_true_2 by done. by rewrite andb_true_r. Qed.

Lemma length_filter_lock l (h : list lock) :
  NoDup h -> l ∈ h -> length h = S (length (filter (fun k => k <> l) h)).
Proof.
  induction 1 as [|k h Hk Hnd IH]; [by intros ?%elem_of_nil|].
  intros Hl. destruct (decide (k = l)) as [->|Hne].
  - rewrite filter_cons_False by naive_solver. by rewrite filter_neq_notin.
  - rewrite filter_cons_True by done. simpl. f_equal. apply IH.
    by apply elem_of_cons in Hl as [->|].
Qed.

Lemma pop_n_push_n n : forall c,
  0 <= noff c -> (0 < noff c -> sie c = false) ->
  exists c', pop_n n (push_n n c) = Done c' /\ noff c' = noff c /\ sie c' = sie c /\
             (0 < noff c -> intena c' = intena c).
Proof.
  assert (Hpush : forall n c, push_n (S n) c = push_off (push_n n c)).
  { clear. induction n as [|n IH]; intros c; [done|]. cbn [push_n] in *. by rewrite <- IH. }
  induction n as [|n IH]; intros c Hn Hs; [by exists c|].
  rewrite Hpush. cbn [pop_n].
  assert (Hk : forall k, noff (push_n k c) = noff c + Z.of_nat k /\
                         (0 < noff (push_n k c) -> sie (push_n k c) = false)).
  { clear -Hn Hs Hpush. induction k as [|k [IH1 IH2]]; [simpl; split; [lia|done]|].
    rewrite Hpush. simpl. split; [lia|done]. }
  destruct (Hk n) as [Hkn Hks].
  rewrite pop_off_ok by (simpl; done || lia). simpl.
  destruct (IH c Hn Hs) as (c' & Hpop & H1 & H2 & H3).
  replace (noff (push_n n c) + 1 - 1) with (noff (push_n n c)) by lia.
  destruct (Z.eqb_spec (noff (push_n n c)) 0) as [H0|H0]; simpl.
  - assert (n = 0%nat) as -> by lia. simpl in *.
    exists (Cpu (noff c) (sie c) (sie c)). simpl. repeat split; try done. lia.
  - exists c'. split; [|done]. rewrite <- Hpop. f_equal.
    specialize (Hks ltac:(lia)). destruct (push_n n c); simpl in *. by subst.
Qed.

(** ** Properties *)

(** C27: with any number of CPUs running [acquire] and [release] on one
    spinlock, in any interleaving of their memory accesses, at most one CPU
    is between [acquire] and [release]; that CPU passes the [holding] test,
    runs with interrupts off, and no CPU ever panics in either function. *)
Theorem spinlock_mutual_exclusion (s : sys) :
  reachable s ->
  (forall i j, at_pc s i Crit -> at_pc s j Crit -> i = j) /\
  (forall i c, at_pc s i Crit -> y_cpus s !! i = Some c ->
     holding (y_lock s) i = true /\ sie c = false) /\
  (forall i, ~ at_pc s i Panicked).
Proof.
  intros Hinv%inv_reachable. split; [|split].
  - intros i j Hi Hj. by apply (pi_owner _ Hinv i j Crit Crit).
  - intros i c Hi Hc. split.
    + apply holding_spec. split; [by eapply owner_locked|by apply (pi_cpu _ Hinv)].
    + destruct (pi_noff _ Hinv i Crit c Hi Hc) as [Hn Hs]. simpl in Hn. apply Hs. lia.
  - apply (pi_panic _ Hinv).
Qed.

Lemma spinlock_mutual_exclusion_witness :
  exists s, reachable s /\ at_pc s 0 Crit /\ at_pc s 1 Spinning /\
            (forall i j, at_pc s i Crit -> at_pc s j Crit -> i = j).
Proof.
  set (c0 := Cpu 0 false true). set (lk := Spinlock 7 "old" (Some 3%nat)).
  set (s0 := Sys (initlock lk "kmem") [Out; Out] [c0; c0]).
  assert (R0 : reachable s0).
  { apply reach_init. exists lk, "kmem"%string. repeat split; repeat constructor; simpl; lia. }
  pose proof (reach_step _ _ R0 (step_push s0 0 c0 eq_refl eq_refl)) as R1.
  match type of R1 with reachable ?s =>
    pose proof (reach_step _ _ R1 (step_push s 1 c0 eq_refl eq_refl)) as R2 end.
  match type of R2 with reachable ?s =>
    pose proof (reach_step _ _ R2 (step_check_ok s 0 eq_refl eq_refl)) as R3 end.
  match type of R3 with reachable ?s =>
    pose proof (reach_step _ _ R3 (step_check_ok s 1 eq_refl eq_refl)) as R4 end.
  match type of R4 with reachable ?s =>
    pose proof (reach_step _ _ R4 (step_swap_free s 0 _ eq_refl eq_refl eq_refl)) as R5 end.
  match type of R5 with reachable ?s =>
    pose proof (reach_step _ _ R5 (step_set_cpu s 0 _ eq_refl eq_refl)) as R6 end.
  eexists. split; [exact R6|]. split; [reflexivity|]. split; [reflexivity|].
  exact (proj1 (spinlock_mutual_exclusion _ R6)).
Defined.

(** [acquire] and [release] on the lock and CPU structures implement the
    operations on held-lock lists that the other components use: they panic
    in the same cases with the same message, otherwise they end in related
    states, and [acquire] busy-waits only while another CPU holds the lock. *)
Theorem spinlock_refines_held_list (S : Type) (l : lock) (w : world S) (s : cstate) :
  holds (w_held w) s ->
  match acquire_c l s with
  | Done s' => exists w', KMonad.acquire l w = Ok () w' /\ holds (w_held w') s'
  | CPanic m => KMonad.acquire l w = Panic m
  | Spin => (l ∉ w_held w) /\ locked (c_locks s l) <> 0 /\ lk_cpu (c_locks s l) <> Some (c_id s)
  end /\
  match release_c l s with
  | Done s' => exists w', KMonad.release l w = Ok () w' /\ holds (w_held w') s'
  | CPanic m => KMonad.release l w = Panic m
  | Spin => False
  end.
Proof.
  intros [Hnd Hn Hs Hh]. split.
  - unfold acquire_c, KMonad.acquire.
    destruct (holding (c_locks s l) (c_id s)) eqn:Hhl.
    { rewrite decide_True by (by apply Hh). done. }
    assert (Hl : l ∉ w_held w) by (rewrite <- Hh; congruence).
    rewrite decide_False by done.
    destruct (Z.eqb_spec (locked (c_locks s l)) 0) as [H0|H0]; simpl.
    + eexists. split; [done|]. simpl. split; simpl.
      * by constructor.
      * rewrite Hn. lia.
      * done.
      * intros l'. rewrite elem_of_cons. destruct (decide (l' = l)) as [->|Hne].
        -- rewrite set_lock_same, holding_own. naive_solver.
        -- rewrite set_lock_other by done. rewrite Hh. naive_solver.
    + split; [done|]. split; [done|]. intros Hc.
      assert (holding (c_locks s l) (c_id s) = true); [by apply holding_spec|congruence].
  - unfold release_c, KMonad.release.
    destruct (holding (c_locks s l) (c_id s)) eqn:Hhl; simpl.
    2: { rewrite decide_False by (rewrite <- Hh; congruence). done. }
    assert (Hl : l ∈ w_held w) by (by apply Hh). rewrite decide_True by done.
    pose proof (length_filter_lock l _ Hnd Hl) as Hlen.
    rewrite pop_off_ok by (lia || apply Hs; lia).
    eexists. split; [done|]. simpl. split; simpl.
    + by apply NoDup_filter.
    + lia.
    + intros ?. by rewrite (proj2 (Z.eqb_neq _ _)) by lia.
    + intros l'. rewrite list_elem_of_filter. destruct (decide (l' = l)) as [->|Hne].
      * rewrite set_lock_same. unfold holding; simpl. naive_solver.
      * rewrite set_lock_other by done. rewrite Hh. naive_solver.
Qed.

Lemma spinlock_refines_held_list_witness :
  exists s', acquire_c L_kmem (CState 2 (Cpu 0 false true) (fun _ => Spinlock 0 "lk" None)) = Done s' /\
  exists w', KMonad.acquire L_kmem (World (Me 0 1 0 0) [] [] tt) = Ok () w' /\ holds (w_held w') s'.
Proof.
  set (s := CState 2 (Cpu 0 false true) (fun _ => Spinlock 0 "lk" None)).
  set (w := World (Me 0 1 0 0) [] [] tt).
  assert (H : holds (w_held w) s).
  { split; simpl; [constructor|done|lia|]. intros l. split; [done|]. by intros ?%elem_of_nil. }
  eexists. split; [reflexivity|].
  exact (proj1 (spinlock_refines_held_list _ L_kmem w s H)).
Defined.

(** [push_off] and [pop_off] are matched: after [n] calls of [push_off]
    it takes [n] calls of [pop_off] to undo them, none panics, and the
    interrupt state is the one before, off if it was off. *)
Theorem push_pop_matched (n : nat) (c : cpu) :
  0 <= noff c -> (0 < noff c -> sie c = false) ->
  (forall k, (0 < k <= n)%nat -> sie (push_n k c) = false) /\
  exists c', pop_n n (push_n n c) = Done c' /\ noff c' = noff c /\ sie c' = sie c.
Proof.
  intros Hn Hs. split.
  - intros [|k] Hk; [lia|]. clear. revert c. induction k as [|k IH]; intros c; [done|].
    apply (IH (push_off c)).
  - destruct (pop_n_push_n n c Hn Hs) as (c' & H1 & H2 & H3 & _). eauto.
Qed.

Lemma push_pop_matched_witness :
  exists c', pop_n 2 (push_n 2 (Cpu 0 false true)) = Done c' /\ noff c' = 0 /\ sie c' = true.
Proof.
  exact (proj2 (push_pop_matched 2 (Cpu 0 false true) ltac:(simpl; lia) ltac:(simpl; lia))).
Defined.
