(* ===== verification/Kalloc.v ===== *)
(** kernel/kalloc.c: the physical page allocator, with its free list threaded
    through the free pages in memory. *)

From S2P Require Import Prelude KMonad Kstring Riscv.

(** ** State and operations *)

(** Physical memory and [kmem.freelist] (0 is the null pointer). *)
Record phys := Phys {
  p_mem : memory;
  p_freelist : Z }.

Definition upd_mem (f : memory -> memory) (s : phys) : phys :=
  Phys (f (p_mem s)) (p_freelist s).

Section kalloc.
  Context {sy : Symbols}.

Definition kfree (pa : Z) : M phys () :=
  if negb (pa mod PGSIZE =? 0) || (pa <? sym_end) || (pa >=? PHYSTOP) then panic "kfree"
  else
    modify (upd_mem (fun m => memset m pa 1 PGSIZE));;
    acquire L_kmem;;
    modify (fun s => Phys (store64 (p_mem s) pa (p_freelist s)) (p_freelist s));;
    modify (fun s => Phys (p_mem s) pa);;
    release L_kmem.

Definition kalloc : M phys Z :=
  acquire L_kmem;;
  r ← gets p_freelist;
  (if negb (r =? 0) then modify (fun s => Phys (p_mem s) (load64 (p_mem s) r)) else mret ());;
  release L_kmem;;
  (if negb (r =? 0) then modify (upd_mem (fun m => memset m r 5 PGSIZE)) else mret ());;
  mret r.

(** [for(; p + PGSIZE <= pa_end; p += PGSIZE) kfree(p);] *)
Fixpoint freerange_loop (fuel : nat) (p pa_end : Z) : M phys () :=
  match fuel with
  | O => ub "freerange: fuel"
  | S f =>
      if p + PGSIZE <=? pa_end then kfree p;; freerange_loop f (p + PGSIZE) pa_end
      else mret ()
  end.

Definition freerange (pa_start pa_end : Z) : M phys () :=
  let p := PGROUNDUP pa_start in
  freerange_loop (S (Z.to_nat ((pa_end - p) / PGSIZE))) p pa_end.

Definition kinit : M phys () := freerange sym_end PHYSTOP.

(** ** The free list in memory *)

Definition free_page (q : Z) : Prop := q mod 4096 = 0 /\ sym_end <= q < PHYSTOP.

Fixpoint free_rep (m : memory) (p : Z) (l : list Z) : Prop :=
  match l with
  | [] => p = 0
  | q :: l' => p = q /\ free_page q /\ free_rep m (load64 m q) l'
  end.

(** The allocator's invariant: its free pages are the list [l]. *)
Definition kmem_ok (s : phys) (l : list Z) : Prop :=
  free_rep (p_mem s) (p_freelist s) l /\ NoDup l.
End kalloc.

(** ** Pages as address ranges *)

Definition in_page (q x : Z) : Prop := q <= x < q + 4096.

Definition same_outside (q : Z) (m m' : memory) : Prop :=
  forall x, ~ in_page q x -> rd m' x = rd m x.

Definition filled (q c : Z) (m : memory) : Prop :=
  forall x, in_page q x -> rd m x = c.

Lemma aligned_disjoint p q x :
  p mod 4096 = 0 -> q mod 4096 = 0 -> in_page p x -> in_page q x -> p = q.
Proof.
  unfold in_page. intros Hp Hq H1 H2.
  pose proof (Z.div_mod p 4096 ltac:(lia)). pose proof (Z.div_mod q 4096 ltac:(lia)).
  assert (p / 4096 = q / 4096) by lia. lia.
Qed.

(** A word at an 8-aligned offset of a page stays in the page. *)
Lemma load64_same_outside q m m' a :
  same_outside q m m' -> (forall k, 0 <= k < 8 -> ~ in_page q (a + k)) ->
  load64 m' a = load64 m a.
Proof.
  intros Hs Ha. apply load_le_ext. intros x Hx. apply Hs.
  replace x with (a + (x - a)) by lia. apply Ha. lia.
Qed.

Section kalloc_lemmas.
Context {sy : Symbols} {syok : SymbolsOk sy}.

Lemma free_page_pos q : free_page q -> 0 < q.
Proof.
  intros [_ [H _]]. pose proof etext_end. pose proof tramp_etext. pose proof tramp_base.
  unfold KERNBASE, PGSIZE in *. lia.
Qed.

Lemma free_page_top q : free_page q -> q + 4096 <= PHYSTOP.
Proof.
  intros [Ha [_ Ht]]. unfold PHYSTOP, KERNBASE in *.
  pose proof (Z.div_mod q 4096 ltac:(lia)). lia.
Qed.

Lemma free_page_addr q : free_page q -> page_addr q.
Proof.
  intros Hq. split; [apply Hq|]. pose proof (free_page_pos q Hq).
  pose proof (free_page_top q Hq). unfold PHYSTOP, KERNBASE in *. lia.
Qed.

Lemma free_rep_pages m p l : free_rep m p l -> Forall free_page l.
Proof.
  revert p. induction l as [|q l IH]; intros p; [constructor|].
  intros (_ & Hq & Hl). constructor; eauto.
Qed.

Lemma free_rep_ext m m' p l :
  free_rep m p l -> (forall q x, q ∈ l -> in_page q x -> rd m' x = rd m x) ->
  free_rep m' p l.
Proof.
  revert p. induction l as [|q l IH]; intros p; [done|].
  intros (-> & Hq & Hl) Hm. split; [done|]. split; [done|].
  replace (load64 m' q) with (load64 m q).
  - apply IH; [done|]. intros q' x Hq'. apply Hm. by right.
  - symmetry. apply load_le_ext. intros x Hx. apply (Hm q); [left|]. unfold in_page. lia.
Qed.

Lemma free_rep_same_outside q m m' p l :
  free_rep m p l -> q mod 4096 = 0 -> q ∉ l -> same_outside q m m' -> free_rep m' p l.
Proof.
  intros Hl Hqa Hq Hs. eapply free_rep_ext; [done|]. intros r x Hr Hx. apply Hs.
  intros Hqx. apply Hq. replace q with r; [done|].
  apply (aligned_disjoint r q x); [|done..].
  apply free_rep_pages in Hl. rewrite Forall_forall in Hl. by apply Hl.
Qed.

Lemma kmem_ok_notin s q l : kmem_ok s (q :: l) -> (q ∉ l) /\ free_page q.
Proof. intros [(_ & Hq & _) Hnd]. by apply NoDup_cons in Hnd as [? _]. Qed.

(** The call returns the head of the free list, filled with 5s, and takes
    it off the list; it returns 0 when the list is empty. *)
Lemma wp_kalloc l (Q : Z -> world phys -> Prop) w :
  kmem_ok (w_st w) l -> L_kmem ∉ w_held w ->
  (l = [] -> Q 0 w) ->
  (forall q l' s', l = q :: l' -> free_page q -> q ∉ l' -> kmem_ok s' l' ->
     filled q 5 (p_mem s') -> same_outside q (p_mem (w_st w)) (p_mem s') ->
     Q q (set_st s' w)) ->
  wp kalloc Q w.
Proof.
  intros [Hrep Hnd] Hl Hnil Hcons. unfold kalloc.
  apply wp_bind, wp_acquire; [done|]. wp_steps.
  destruct l as [|q l']; simpl in Hrep.
  - rewrite Hrep. simpl. wp_steps. apply wp_release with (w_held w); [done..|]. simpl.
    wp_steps. specialize (Hnil eq_refl). destruct w as [? ? ? []]. simpl in *. by subst.
  - destruct Hrep as (-> & Hq & Hrep). pose proof (free_page_pos q Hq).
    apply NoDup_cons in Hnd as [Hql Hnd].
    rewrite (proj2 (Z.eqb_neq q 0)) by lia. simpl. wp_steps.
    apply wp_release with (w_held w); [done..|]. simpl. wp_steps.
    assert (Hout : same_outside q (p_mem (w_st w)) (memset (p_mem (w_st w)) q 5 PGSIZE)).
    { intros x Hx. apply memset_rd_out. unfold in_page, PGSIZE in *. lia. }
    unfold set_st, set_held; simpl. apply (Hcons q l' (Phys _ _)); try done; simpl.
    + split; [|done]. simpl. eapply free_rep_same_outside; [done| |done|done]. apply Hq.
    + intros x Hx. by apply memset_rd_in.
Qed.

(** Freeing a page that is not free puts it at the head of the list. *)
Lemma wp_kfree pa l (Q : () -> world phys -> Prop) w :
  kmem_ok (w_st w) l -> L_kmem ∉ w_held w -> free_page pa -> pa ∉ l ->
  (forall s', kmem_ok s' (pa :: l) ->
     same_outside pa (p_mem (w_st w)) (p_mem s') -> Q () (set_st s' w)) ->
  wp (kfree pa) Q w.
Proof.
  intros [Hrep Hnd] Hl Hpa Hin HQ. unfold kfree.
  destruct Hpa as [Ha Hr] eqn:Epa. clear Epa.
  change (pa mod PGSIZE) with (pa mod 4096).
  rewrite Ha, (proj2 (Z.ltb_ge pa sym_end)) by lia.
  replace (pa >=? PHYSTOP) with false by (symmetry; rewrite Z.geb_leb; apply Z.leb_gt; lia).
  simpl. wp_steps. apply wp_acquire; [done|]. simpl. wp_steps.
  apply wp_release with (w_held w); [done..|]. unfold set_st, set_held, upd_mem; simpl.
  set (m := p_mem (w_st w)). set (fl := p_freelist (w_st w)).
  assert (Hfl : 0 <= fl < 2 ^ 64).
  { unfold fl. destruct l as [|q l']; simpl in Hrep; [rewrite Hrep; lia|].
    destruct Hrep as (-> & Hq & _). pose proof (free_page_pos q Hq).
    pose proof (free_page_top q Hq). unfold PHYSTOP, KERNBASE in *. lia. }
  set (m' := store64 (memset m pa 1 PGSIZE) pa fl).
  assert (Hs : same_outside pa m m').
  { intros x Hx. unfold in_page in Hx. unfold m', store64.
    rewrite rd_store_le_out by lia. apply memset_rd_out. unfold PGSIZE. lia. }
  apply (HQ (Phys m' pa)); [|done]. split; simpl.
  - split; [done|]. split; [done|]. replace (load64 m' pa) with fl by (symmetry; by apply load64_store64_same).
    by eapply free_rep_same_outside.
  - by constructor.
Qed.

(** [kfree] panics exactly on a pointer that is not a page of the pool. *)
Lemma kfree_panics pa w : ~ free_page pa -> kfree pa w = Panic "kfree".
Proof.
  intros Hn. unfold kfree, free_page, PGSIZE in *.
  destruct (Z.eqb_spec (pa mod 4096) 0), (Z.ltb_spec pa sym_end), (Z.geb_spec pa PHYSTOP);
    simpl; try done. exfalso. apply Hn. lia.
Qed.

Lemma wp_freerange_loop fuel : forall p l w,
  kmem_ok (w_st w) l -> L_kmem ∉ w_held w ->
  p mod 4096 = 0 -> sym_end <= p <= PHYSTOP -> (forall q, q ∈ l -> q < p) ->
  (PHYSTOP - p) / 4096 < Z.of_nat fuel ->
  wp (freerange_loop fuel p PHYSTOP) (fun _ w' => exists s' l',
    w' = set_st s' w /\ kmem_ok s' l' /\
    forall q, (q ∈ l') <-> (q ∈ l) \/ (free_page q /\ p <= q)) w.
Proof.
  induction fuel as [|fuel IH]; intros p l w Hok Hl Ha He Hlt Hf.
  { assert (0 <= (PHYSTOP - p) / 4096) by (apply Z.div_pos; lia). lia. }
  cbn [freerange_loop]. unfold PGSIZE. destruct (Z.leb_spec (p + 4096) PHYSTOP) as [Hp|Hp].
  - assert (Hfp : free_page p) by (split; [done|lia]).
    apply wp_bind, (wp_kfree p l); try done; [intros Hin; specialize (Hlt _ Hin); lia|].
    intros s1 Hok1 _. eapply wp_mono; [|apply (IH (p + 4096) (p :: l) (set_st s1 w)); try done].
    + intros [] w' (s' & l' & -> & Hok' & Hiff). exists s', l'. split; [done|]. split; [done|].
      intros q. rewrite Hiff, elem_of_cons. split.
      { intros [[->|Hq]|[Hq Hle]]; [right; split; [done|lia]|by left|right; split; [done|lia]]. }
      intros [Hq|[Hq Hle]]; [by left; right|].
      destruct (Z.eq_dec q p) as [->|Hne]; [by left; left|]. right. split; [done|].
      destruct Hq as [Hqa _]. pose proof (Z.div_mod q 4096 ltac:(lia)).
      pose proof (Z.div_mod p 4096 ltac:(lia)). lia.
    + rewrite <- (Z.mul_1_l 4096) at 1. by rewrite Z.mod_add.
    + lia.
    + intros q [->|Hq%Hlt]%elem_of_cons; lia.
    + replace (PHYSTOP - (p + 4096)) with (PHYSTOP - p + (-1) * 4096) by lia.
      rewrite Z.div_add by lia. lia.
  - apply wp_ret. exists (w_st w), l. split; [by destruct w|]. split; [done|].
    intros q. split; [by left|]. intros [Hq|[Hq Hle]]; [done|].
    pose proof (free_page_top q Hq). lia.
Qed.

Lemma pgroundup_end : PGROUNDUP sym_end mod 4096 = 0 /\
  sym_end <= PGROUNDUP sym_end <= PHYSTOP /\
  forall q, free_page q -> PGROUNDUP sym_end <= q.
Proof.
  pose proof etext_end. pose proof tramp_etext. pose proof tramp_base. pose proof end_phystop.
  unfold KERNBASE, PGSIZE in *.
  destruct (pgroundup_bounds sym_end) as [Ha Hb]; [unfold PHYSTOP, KERNBASE in *; lia..|].
  pose proof (Z.div_mod (PGROUNDUP sym_end) 4096 ltac:(lia)).
  split; [done|]. split.
  - split; [lia|]. unfold PHYSTOP, KERNBASE in *. lia.
  - intros q [Hqa Hq]. pose proof (Z.div_mod q 4096 ltac:(lia)). lia.
Qed.

End kalloc_lemmas.

(** ** Sequences of allocations and frees

    [owned] are the pages a client got from [kalloc] and has not freed. *)

Inductive alloc_op :=
| OpAlloc
| OpFree (i : nat)   (** free the [i]th owned page *).

Fixpoint run_alloc {sy : Symbols} (ops : list alloc_op) (owned : list Z) : M phys (list Z) :=
  match ops with
  | [] => mret owned
  | OpAlloc :: ops' =>
      q ← kalloc;
      run_alloc ops' (if q =? 0 then owned else q :: owned)
  | OpFree i :: ops' =>
      match owned !! i with
      | Some q => kfree q;; run_alloc ops' (delete i owned)
      | None => run_alloc ops' owned
      end
  end.

(** ** Properties *)

(** [kinit] terminates without panic and leaves on the free list every
    page-aligned page between the end of the kernel and [PHYSTOP], each once. *)
Theorem kinit_frees_all {sy : Symbols} {syok : SymbolsOk sy} (w : world phys) :
  p_freelist (w_st w) = 0 -> L_kmem ∉ w_held w ->
  wp kinit (fun _ w' => exists s' l,
    w' = set_st s' w /\ kmem_ok s' l /\ forall q, (q ∈ l) <-> free_page q) w.
Proof.
  intros H0 Hl. unfold kinit, freerange. destruct pgroundup_end as (Ha & Hr & Hall).
  assert (Hf : (PHYSTOP - PGROUNDUP sym_end) / 4096 <
               Z.of_nat (S (Z.to_nat ((PHYSTOP - PGROUNDUP sym_end) / PGSIZE)))).
  { unfold PGSIZE. assert (0 <= (PHYSTOP - PGROUNDUP sym_end) / 4096) by (apply Z.div_pos; lia). lia. }
  eapply wp_mono; [|apply (wp_freerange_loop _ (PGROUNDUP sym_end) []); try done].
  - intros [] w' (s' & l & -> & Hok & Hiff). exists s', l. split; [done|]. split; [done|].
    intros q. rewrite Hiff. split; [|by eauto]. intros [Hq|[Hq _]]; [by apply elem_of_nil in Hq|done].
  - split; [done|constructor].
  - intros q Hq. by apply elem_of_nil in Hq.
Qed.

(** [kalloc] returns null exactly when no page is free; otherwise the
    page at the head of the free list, which is page-aligned, lies between
    the end of the kernel and [PHYSTOP], is no longer free, and is filled
    with 5s, while every byte outside the page is unchanged. *)
Theorem kalloc_correct {sy : Symbols} {syok : SymbolsOk sy} (w : world phys) (l : list Z) :
  kmem_ok (w_st w) l -> L_kmem ∉ w_held w ->
  wp kalloc (fun r w' => exists s', w' = set_st s' w /\
    match l with
    | [] => r = 0 /\ s' = w_st w
    | q :: l' => r = q /\ free_page q /\ (q ∉ l') /\ kmem_ok s' l' /\
                 filled q 5 (p_mem s') /\ same_outside q (p_mem (w_st w)) (p_mem s')
    end) w.
Proof.
  intros Hok Hl. eapply wp_kalloc; [done..| |].
  - intros ->. exists (w_st w). split; [by destruct w|done].
  - intros q l' s' -> ?????. exists s'. split; [done|]. naive_solver.
Qed.

(** C32: in any sequence of allocations and frees of allocated pages, no call
    panics, and the free and the allocated pages together remain exactly the
    pages there were: no page is lost, and none is handed out twice. *)
Theorem kalloc_no_leak_no_alias {sy : Symbols} {syok : SymbolsOk sy}
    (ops : list alloc_op) (owned l : list Z) (w : world phys) :
  kmem_ok (w_st w) l -> L_kmem ∉ w_held w ->
  Forall free_page owned -> NoDup (owned ++ l) ->
  wp (run_alloc ops owned) (fun owned' w' => exists s' l',
    w' = set_st s' w /\ kmem_ok s' l' /\
    owned' ++ l' ≡ₚ owned ++ l /\ NoDup (owned' ++ l')) w.
Proof.
  revert owned l w. induction ops as [|[|i] ops IH]; intros owned l w Hok Hl Hown Hnd; simpl.
  - exists (w_st w), l. split; [by destruct w|done].
  - eapply wp_bind, wp_kalloc; [done..| |].
    + intros ->. simpl. by apply IH.
    + intros q l' s' -> Hq Hql Hok' _ _. pose proof (free_page_pos q Hq).
      rewrite (proj2 (Z.eqb_neq q 0)) by lia.
      assert (Hperm : (q :: owned) ++ l' ≡ₚ owned ++ q :: l') by (simpl; apply Permutation_middle).
      eapply wp_mono; [|apply (IH (q :: owned) l' (set_st s' w)); try done].
      * intros o w' (s2 & l2 & -> & H1 & H2 & H3). exists s2, l2. by rewrite <- Hperm.
      * by constructor.
      * by rewrite Hperm.
  - destruct (owned !! i) as [q|] eqn:Hi; [|by apply IH].
    pose proof (delete_Permutation owned i q Hi) as Hdel.
    assert (Hperm : delete i owned ++ q :: l ≡ₚ owned ++ l)
      by (etrans; [symmetry; apply Permutation_middle|]; change (q :: delete i owned ++ l)
            with ((q :: delete i owned) ++ l); by rewrite <- Hdel).
    assert (Hq : free_page q) by (by eapply (Forall_lookup_1 free_page)).
    eapply wp_bind, wp_kfree; [done..| |].
    + intros Hin. rewrite <- Hperm, <- Permutation_middle in Hnd.
      apply NoDup_cons in Hnd as [Hn _]. apply Hn, elem_of_app. by right.
    + intros s' Hok' _.
      eapply wp_mono; [|apply (IH (delete i owned) (q :: l) (set_st s' w)); try done].
      * intros o w' (s2 & l2 & -> & H1 & H2 & H3). exists s2, l2. by rewrite <- Hperm.
      * by apply Forall_delete.
      * by rewrite Hperm.
Qed.

(** [kfree] panics exactly when its argument is misaligned, below the end
    of the kernel, or at or above [PHYSTOP]; for any other page that is not
    already free it returns with that page at the head of the free list. *)
Theorem kfree_correct {sy : Symbols} {syok : SymbolsOk sy} (w : world phys) (l : list Z) (pa : Z) :
  kmem_ok (w_st w) l -> L_kmem ∉ w_held w -> pa ∉ l ->
  if decide (pa mod 4096 = 0 /\ sym_end <= pa < PHYSTOP)
  then wp (kfree pa) (fun _ w' => exists s', w' = set_st s' w /\
         kmem_ok s' (pa :: l) /\ same_outside pa (p_mem (w_st w)) (p_mem s')) w
  else kfree pa w = Panic "kfree".
Proof.
  intros Hok Hl Hpa. case_decide as Hd.
  - eapply wp_kfree; [done..|]. eauto.
  - by apply kfree_panics.
Qed.

(** ** Witnesses: a machine whose kernel ends nine pages below [PHYSTOP] *)

Definition ex_symbols : Symbols := {|
  sym_end := PHYSTOP - 9 * 4096 + 16;
  sym_etext := KERNBASE + 4096;
  sym_trampoline := KERNBASE |}.

Definition ex_world (s : phys) : world phys := World (Me 0 1 0 0) [] [] s.

(** One free page, linked to nothing. *)
Definition ex_phys : phys := Phys (fun _ => 0) (PHYSTOP - 4096).

Lemma ex_symbols_ok : SymbolsOk ex_symbols.
Proof. split; vm_compute; done. Qed.

Lemma ex_kmem_ok : kmem_ok (sy := ex_symbols) ex_phys [PHYSTOP - 4096].
Proof.
  split; [|apply NoDup_singleton].
  split; [done|]. split; [by vm_compute|]. reflexivity.
Qed.

Lemma kinit_frees_all_witness :
  exists s l, kmem_ok (sy := ex_symbols) s l /\ (PHYSTOP - 4 * 4096) ∈ l.
Proof.
  destruct (wp_elim _ _ _ (@kinit_frees_all ex_symbols ex_symbols_ok
    (ex_world (Phys (fun _ => 0) 0)) eq_refl (not_elem_of_nil _)))
    as (? & ? & _ & s & l & _ & Hok & Hiff).
  exists s, l. split; [exact Hok|]. apply Hiff. by vm_compute.
Defined.

Lemma kalloc_correct_witness :
  exists w', kalloc (ex_world ex_phys) = Ok (PHYSTOP - 4096) w' /\ rd (p_mem (w_st w')) PHYSTOP = 0.
Proof.
  destruct (wp_elim _ _ _ (@kalloc_correct ex_symbols ex_symbols_ok
    (ex_world ex_phys) _ ex_kmem_ok (not_elem_of_nil _)))
    as (r & w' & Hk & s & -> & -> & _ & _ & _ & _ & Hs).
  eexists. split; [exact Hk|]. simpl. apply Hs. unfold in_page. lia.
Defined.

Lemma kalloc_no_leak_no_alias_witness :
  exists o w', @run_alloc ex_symbols [OpAlloc; OpAlloc; OpFree 0; OpAlloc] [] (ex_world ex_phys) = Ok o w' /\
    exists l', o ++ l' ≡ₚ [PHYSTOP - 4096].
Proof.
  destruct (wp_elim _ _ _ (@kalloc_no_leak_no_alias ex_symbols ex_symbols_ok
    [OpAlloc; OpAlloc; OpFree 0; OpAlloc] [] _ (ex_world ex_phys) ex_kmem_ok (not_elem_of_nil _)
    (Forall_nil_2 _) (NoDup_singleton _)))
    as (o & w' & Hr & s & l' & _ & _ & Hp & _).
  exists o, w'. split; [exact Hr|]. by exists l'.
Defined.

Lemma kfree_correct_witness :
  @kfree ex_symbols 0x1000 (ex_world ex_phys) = Panic "kfree".
Proof.
  pose proof (@kfree_correct ex_symbols ex_symbols_ok (ex_world ex_phys) _ 0x1000
    ex_kmem_ok (not_elem_of_nil _)) as H.
  rewrite decide_False in H; [apply H; by intros ?%list_elem_of_singleton|].
  vm_compute. intros [_ [Hc _]]. by apply Hc.
Defined.
