(* ===== verification/Vm.v ===== *)
(** kernel/vm.c: Sv39 page tables in physical memory, and copying between the
    kernel and user memory.  The theory of these operations is in VmTable.v
    and VmSpec.v. *)

From S2P Require Import Prelude KMonad Kstring Riscv Kalloc.

(** ** Kernel buffers

    A kernel buffer that is a local variable of a caller is a list of bytes;
    [memmove] between it and a physical page reads or writes these bytes. *)

Definition write_bytes (m : memory) (a : Z) (bs : list Z) : memory :=
  fun x => if (a <=? x) && (x <? a + Z.of_nat (length bs))
           then u8 (nth (Z.to_nat (x - a)) bs 0) else m x.

Definition read_bytes (m : memory) (a : Z) (n : nat) : list Z :=
  map (fun i => rd m (a + Z.of_nat i)) (seq 0 n).

Definition load_pte (a : Z) : M phys Z := gets (fun s => load64 (p_mem s) a).
Definition store_pte (a v : Z) : M phys () := modify (upd_mem (fun m => store64 m a v)).

Definition is_set (pte flag : Z) : bool := negb (Z.land pte flag =? 0).

Section vm.
  Context {sy : Symbols}.

(** The loop of [walk] from [level] down; a returned 0 is the null pointer. *)
Fixpoint walk_level (level : nat) (pagetable va : Z) (alloc : bool) : M phys Z :=
  match level with
  | O => mret (pagetable + 8 * PX 0 va)
  | S l =>
      let pte := pagetable + 8 * PX (Z.of_nat level) va in
      v ← load_pte pte;
      if is_set v PTE_V then walk_level l (PTE2PA v) va alloc
      else if negb alloc then mret 0
      else
        pg ← kalloc;
        if pg =? 0 then mret 0
        else
          modify (upd_mem (fun m => memset m pg 0 PGSIZE));;
          store_pte pte (Z.lor (PA2PTE pg) PTE_V);;
          walk_level l pg va alloc
  end.

Definition walk (pagetable va : Z) (alloc : bool) : M phys Z :=
  if va >=? MAXVA then panic "walk" else walk_level 2 pagetable va alloc.

Definition walkaddr (pagetable va : Z) : M phys Z :=
  if va >=? MAXVA then mret 0
  else
    pte ← walk pagetable va false;
    if pte =? 0 then mret 0
    else
      v ← load_pte pte;
      if negb (is_set v PTE_V) then mret 0
      else if negb (is_set v PTE_U) then mret 0
      else mret (PTE2PA v).

(** The loop of [mappages]. *)
Fixpoint mappages_loop (fuel : nat) (pagetable a last pa perm : Z) : M phys Z :=
  match fuel with
  | O => ub "mappages: fuel"
  | S f =>
      pte ← walk pagetable a true;
      if pte =? 0 then mret (-1)
      else
        v ← load_pte pte;
        if is_set v PTE_V then panic "mappages: remap"
        else
          store_pte pte (Z.lor (Z.lor (PA2PTE pa) perm) PTE_V);;
          if a =? last then mret 0
          else mappages_loop f pagetable (u64 (a + PGSIZE)) last (u64 (pa + PGSIZE)) perm
  end.

(** The loop stops at [last], or in [walk] once [a] reaches [MAXVA]. *)
Definition mappages_fuel (a last : Z) : nat :=
  if a <=? last then S (Z.to_nat ((last - a) / PGSIZE))
  else S (S (Z.to_nat ((MAXVA - a) / PGSIZE))).

Definition mappages (pagetable va size pa perm : Z) : M phys Z :=
  if size =? 0 then panic "mappages: size"
  else
    let a := PGROUNDDOWN va in
    let last := PGROUNDDOWN (u64 (va + size - 1)) in
    mappages_loop (mappages_fuel a last) pagetable a last pa perm.

Definition kvmmap (kpgtbl va pa sz perm : Z) : M phys () :=
  r ← mappages kpgtbl va sz pa perm;
  if negb (r =? 0) then panic "kvmmap" else mret ().

(** The loop of [uvmunmap]; [last] is [va + npages*PGSIZE]. *)
Fixpoint uvmunmap_loop (fuel : nat) (pagetable a last : Z) (do_free : bool) : M phys () :=
  match fuel with
  | O => ub "uvmunmap: fuel"
  | S f =>
      if a <? last then
        pte ← walk pagetable a false;
        if pte =? 0 then panic "uvmunmap: walk"
        else
          v ← load_pte pte;
          if negb (is_set v PTE_V) then panic "uvmunmap: not mapped"
          else if PTE_FLAGS v =? PTE_V then panic "uvmunmap: not a leaf"
          else
            (if do_free then kfree (PTE2PA v) else mret ());;
            store_pte pte 0;;
            uvmunmap_loop f pagetable (u64 (a + PGSIZE)) last do_free
      else mret ()
  end.

Definition uvmunmap (pagetable va npages : Z) (do_free : bool) : M phys () :=
  if negb (va mod PGSIZE =? 0) then panic "uvmunmap: not aligned"
  else uvmunmap_loop (S (Z.to_nat npages)) pagetable va (u64 (va + npages * PGSIZE)) do_free.

Definition uvmcreate : M phys Z :=
  pagetable ← kalloc;
  if pagetable =? 0 then mret 0
  else
    modify (upd_mem (fun m => memset m pagetable 0 PGSIZE));;
    mret pagetable.

Definition uvmfirst (pagetable : Z) (src : list Z) : M phys () :=
  if Z.of_nat (length src) >=? PGSIZE then panic "uvmfirst: more than a page"
  else
    mem ← kalloc;
    modify (upd_mem (fun m => memset m mem 0 PGSIZE));;
    _ ← mappages pagetable 0 PGSIZE mem (Z.lor (Z.lor (Z.lor PTE_W PTE_R) PTE_X) PTE_U);
    modify (upd_mem (fun m => write_bytes m mem src)).

Definition uvmdealloc (pagetable oldsz newsz : Z) : M phys Z :=
  if newsz >=? oldsz then mret oldsz
  else
    (if PGROUNDUP newsz <? PGROUNDUP oldsz then
       let npages := i32 ((PGROUNDUP oldsz - PGROUNDUP newsz) / PGSIZE) in
       uvmunmap pagetable (PGROUNDUP newsz) (u64 npages) true
     else mret ());;
    mret newsz.

(** The loop of [uvmalloc]; [oldsz] is the rounded old size. *)
Fixpoint uvmalloc_loop (fuel : nat) (pagetable a oldsz newsz xperm : Z) : M phys Z :=
  match fuel with
  | O => ub "uvmalloc: fuel"
  | S f =>
      if a <? newsz then
        mem ← kalloc;
        if mem =? 0 then uvmdealloc pagetable a oldsz;; mret 0
        else
          modify (upd_mem (fun m => memset m mem 0 PGSIZE));;
          r ← mappages pagetable a PGSIZE mem (Z.lor (Z.lor PTE_R PTE_U) xperm);
          if negb (r =? 0) then
            kfree mem;;
            uvmdealloc pagetable a oldsz;;
            mret 0
          else uvmalloc_loop f pagetable (u64 (a + PGSIZE)) oldsz newsz xperm
      else mret newsz
  end.

Definition uvmalloc (pagetable oldsz newsz xperm : Z) : M phys Z :=
  if newsz <? oldsz then mret oldsz
  else
    let oldsz := PGROUNDUP oldsz in
    uvmalloc_loop (S (S (Z.to_nat ((newsz - oldsz) / PGSIZE)))) pagetable oldsz oldsz newsz xperm.

(** The loop of [freewalk] over the entries from [i]; [rec] is the recursive
    call. *)
Fixpoint freewalk_loop (rec : Z -> M phys ()) (n : nat) (pagetable i : Z) : M phys () :=
  match n with
  | O => mret ()
  | S n' =>
      pte ← load_pte (pagetable + 8 * i);
      if is_set pte PTE_V && (Z.land pte (Z.lor (Z.lor PTE_R PTE_W) PTE_X) =? 0) then
        rec (PTE2PA pte);;
        store_pte (pagetable + 8 * i) 0;;
        freewalk_loop rec n' pagetable (i + 1)
      else if is_set pte PTE_V then panic "freewalk: leaf"
      else freewalk_loop rec n' pagetable (i + 1)
  end.

(** [depth] bounds the recursion; a page table has three levels. *)
Fixpoint freewalk (depth : nat) (pagetable : Z) : M phys () :=
  match depth with
  | O => ub "freewalk: depth"
  | S d =>
      freewalk_loop (freewalk d) 512 pagetable 0;;
      kfree pagetable
  end.

Definition uvmfree (pagetable sz : Z) : M phys () :=
  (if sz >? 0 then uvmunmap pagetable 0 (PGROUNDUP sz / PGSIZE) true else mret ());;
  freewalk 3 pagetable.

(** The loop of [uvmcopy]; the [err:] label unmaps the pages copied so far. *)
Fixpoint uvmcopy_loop (fuel : nat) (old new i sz : Z) : M phys Z :=
  match fuel with
  | O => ub "uvmcopy: fuel"
  | S f =>
      if i <? sz then
        pte ← walk old i false;
        if pte =? 0 then panic "uvmcopy: pte should exist"
        else
          v ← load_pte pte;
          if negb (is_set v PTE_V) then panic "uvmcopy: page not present"
          else
            let pa := PTE2PA v in
            let flags := PTE_FLAGS v in
            mem ← kalloc;
            if mem =? 0 then uvmunmap new 0 (i / PGSIZE) true;; mret (-1)
            else
              modify (upd_mem (fun m => memmove m mem pa PGSIZE));;
              r ← mappages new i PGSIZE mem flags;
              if negb (r =? 0) then
                kfree mem;;
                uvmunmap new 0 (i / PGSIZE) true;;
                mret (-1)
              else uvmcopy_loop f old new (u64 (i + PGSIZE)) sz
      else mret 0
  end.

Definition uvmcopy (old new sz : Z) : M phys Z :=
  uvmcopy_loop (S (S (Z.to_nat (sz / PGSIZE)))) old new 0 sz.

Definition uvmclear (pagetable va : Z) : M phys () :=
  pte ← walk pagetable va false;
  if pte =? 0 then panic "uvmclear"
  else
    v ← load_pte pte;
    store_pte pte (Z.land v (Z.lnot PTE_U)).

(** The loop of [copyout]; [src] holds the [len] bytes still to copy. *)
Fixpoint copyout_loop (fuel : nat) (pagetable dstva : Z) (src : list Z) : M phys Z :=
  match fuel with
  | O => ub "copyout: fuel"
  | S f =>
      let len := Z.of_nat (length src) in
      if len >? 0 then
        let va0 := PGROUNDDOWN dstva in
        pa0 ← walkaddr pagetable va0;
        if pa0 =? 0 then mret (-1)
        else
          let n := PGSIZE - (dstva - va0) in
          let n := if n >? len then len else n in
          modify (upd_mem (fun m => write_bytes m (pa0 + (dstva - va0)) (take (Z.to_nat n) src)));;
          copyout_loop f pagetable (u64 (va0 + PGSIZE)) (drop (Z.to_nat n) src)
      else mret 0
  end.

Definition copyout (pagetable dstva : Z) (src : list Z) : M phys Z :=
  copyout_loop (S (length src)) pagetable dstva src.

(** The loop of [copyin]; the result pairs the return value with the bytes
    written to [dst]. *)
Fixpoint copyin_loop (fuel : nat) (pagetable srcva len : Z) (dst : list Z) : M phys (Z * list Z) :=
  match fuel with
  | O => ub "copyin: fuel"
  | S f =>
      if len >? 0 then
        let va0 := PGROUNDDOWN srcva in
        pa0 ← walkaddr pagetable va0;
        if pa0 =? 0 then mret (-1, dst)
        else
          let n := PGSIZE - (srcva - va0) in
          let n := if n >? len then len else n in
          bs ← gets (fun s => read_bytes (p_mem s) (pa0 + (srcva - va0)) (Z.to_nat n));
          copyin_loop f pagetable (u64 (va0 + PGSIZE)) (len - n) (dst ++ bs)
      else mret (0, dst)
  end.

Definition copyin (pagetable srcva len : Z) : M phys (Z * list Z) :=
  copyin_loop (S (Z.to_nat len)) pagetable srcva len [].

(** The inner loop of [copyinstr]: up to [n] bytes from [p]; it returns
    [got_null], the remaining [max] and the bytes written to [dst]. *)
Fixpoint copyinstr_page (n : nat) (m : memory) (p max : Z) (dst : list Z) : bool * Z * list Z :=
  match n with
  | O => (false, max, dst)
  | S n' =>
      if rd m p =? 0 then (true, max, dst ++ [0])
      else copyinstr_page n' m (p + 1) (max - 1) (dst ++ [rd m p])
  end.

Fixpoint copyinstr_loop (fuel : nat) (pagetable srcva max : Z) (dst : list Z) : M phys (Z * list Z) :=
  match fuel with
  | O => ub "copyinstr: fuel"
  | S f =>
      if max >? 0 then
        let va0 := PGROUNDDOWN srcva in
        pa0 ← walkaddr pagetable va0;
        if pa0 =? 0 then mret (-1, dst)
        else
          let n := PGSIZE - (srcva - va0) in
          let n := if n >? max then max else n in
          m ← gets p_mem;
          let '(got_null, max', dst') :=
            copyinstr_page (Z.to_nat n) m (pa0 + (srcva - va0)) max dst in
          if got_null then mret (0, dst')
          else copyinstr_loop f pagetable (u64 (va0 + PGSIZE)) max' dst'
      else mret (-1, dst)
  end.

Definition copyinstr (pagetable srcva max : Z) : M phys (Z * list Z) :=
  copyinstr_loop (S (Z.to_nat max)) pagetable srcva max [].
End vm.
