(* ===== verification/VmTable.v ===== *)
(** Theory of page tables as trees of physical pages: which pages a table
    consists of, the entry each virtual page has, and how stores to table
    pages change them. *)

From S2P Require Import Prelude KMonad Kstring Riscv Kalloc Vm.

(** ** Table pages and entries *)

(** The table page the [i]th entry of table page [t] points to. *)
Definition child (m : memory) (t i : Z) : option Z :=
  let pte := load64 m (t + 8 * i) in
  if is_set pte PTE_V then Some (PTE2PA pte) else None.

(** The table page reached from [t] by a path of indices. *)
Fixpoint node (m : memory) (t : Z) (path : list Z) : option Z :=
  match path with
  | [] => Some t
  | i :: p => match child m t i with Some c => node m c p | None => None end
  end.

Definition idx (i : Z) : Prop := 0 <= i < 512.
Definition path_ok (p : list Z) : Prop := (length p <= 2)%nat /\ Forall idx p.

Definition leaf_path (va : Z) : list Z := [PX 2 va; PX 1 va].

(** The level-0 table page of [va]. *)
Definition leaf_table (m : memory) (root va : Z) : option Z := node m root (leaf_path va).

(** The level-0 entry of [va], 0 when there is no level-0 table for it. *)
Definition pte_at (m : memory) (root va : Z) : Z :=
  match leaf_table m root va with
  | Some t => load64 m (t + 8 * PX 0 va)
  | None => 0
  end.

Section wf.
  Context {sy : Symbols}.

(** A page table whose pages come from the allocator, are not free (not in
    [l]), and are reached by one path each; an entry that points to a table
    page has only the flag [PTE_V].  Addresses below [MAXVA] use the lower
    half of the root page. *)
Record pt_wf (m : memory) (root : Z) (l : list Z) : Prop := {
  wf_page : forall p t, path_ok p -> node m root p = Some t -> free_page t /\ (t ∉ l);
  wf_inj : forall p q t, path_ok p -> path_ok q ->
    node m root p = Some t -> node m root q = Some t -> p = q;
  wf_inner : forall p t i, path_ok p -> (length p < 2)%nat -> idx i -> node m root p = Some t ->
    is_set (load64 m (t + 8 * i)) PTE_V = true -> PTE_FLAGS (load64 m (t + 8 * i)) = PTE_V;
  wf_half : forall i c, idx i -> child m root i = Some c -> i < 256 }.

(** Address [x] is in no page of the table and in no free page. *)
Definition untouched (m : memory) (root : Z) (l : list Z) (x : Z) : Prop :=
  (forall p t, path_ok p -> node m root p = Some t -> ~ in_page t x) /\
  (forall q, q ∈ l -> ~ in_page q x).
End wf.

(** ** Lemmas on paths *)

Lemma path_ok_nil : path_ok [].
Proof. split; [simpl; lia|constructor]. Qed.

Lemma leaf_path_ok va : path_ok (leaf_path va).
Proof. split; [done|]. repeat constructor; apply PX_range; lia. Qed.

Lemma path_ok_app_l p q : path_ok (p ++ q) -> path_ok p.
Proof. intros [Hl Hf]. rewrite length_app in Hl. apply Forall_app in Hf as [? _]. split; [lia|done]. Qed.

Lemma path_ok_snoc p i : (length p < 2)%nat -> path_ok p -> idx i -> path_ok (p ++ [i]).
Proof.
  intros Hl [_ Hf] Hi. split; [rewrite length_app; simpl; lia|].
  apply Forall_app. split; [done|]. by constructor.
Qed.

Lemma node_app m t p q :
  node m t (p ++ q) = match node m t p with Some c => node m c q | None => None end.
Proof. revert t. induction p as [|i p IH]; intros t; simpl; [done|]. by destruct (child m t i). Qed.

Lemma node_snoc m root p t i :
  node m root p = Some t -> node m root (p ++ [i]) = child m t i.
Proof. intros H. rewrite node_app, H. simpl. by destruct (child m t i). Qed.

(** ** Memory accesses at entries *)

(** The bytes of entry [i] lie in the table's page. *)
Lemma entry_in_page t i k : idx i -> 0 <= k < 8 -> in_page t (t + 8 * i + k).
Proof. unfold idx, in_page. lia. Qed.

Lemma load_entry_ext m m' t i :
  idx i -> (forall x, in_page t x -> rd m' x = rd m x) ->
  load64 m' (t + 8 * i) = load64 m (t + 8 * i).
Proof.
  intros Hi Hm. apply load_le_ext. intros x Hx. apply Hm. unfold idx, in_page in *. lia.
Qed.

Lemma child_ext m m' t i :
  idx i -> (forall x, in_page t x -> rd m' x = rd m x) -> child m' t i = child m t i.
Proof. intros. unfold child. by rewrite (load_entry_ext m m'). Qed.

(** Entries of different (table, index) pairs do not overlap. *)
Lemma load_store_entry m t i v t' i' :
  t mod 4096 = 0 -> t' mod 4096 = 0 -> idx i -> idx i' -> 0 <= v < 2 ^ 64 ->
  load64 (store64 m (t + 8 * i) v) (t' + 8 * i') =
  if decide (t' = t /\ i' = i) then v else load64 m (t' + 8 * i').
Proof.
  intros Ht Ht' Hi Hi' Hv. case_decide as Hd.
  - destruct Hd as [-> ->]. by apply load64_store64_same.
  - apply load64_store64_other. unfold idx in *.
    destruct (Z.eq_dec t' t) as [->|Hne]; [lia|].
    pose proof (Z.div_mod t 4096 ltac:(lia)). pose proof (Z.div_mod t' 4096 ltac:(lia)). lia.
Qed.

Lemma rd_store_entry m t i v x :
  idx i -> ~ in_page t x -> rd (store64 m (t + 8 * i) v) x = rd m x.
Proof. intros Hi Hx. apply rd_store_le_out. unfold idx, in_page in *. lia. Qed.

Lemma is_set_0 f : is_set 0 f = false.
Proof. unfold is_set. by rewrite Z.land_0_l. Qed.

Lemma load64_zero m a : (forall x, a <= x < a + 8 -> rd m x = 0) -> load64 m a = 0.
Proof.
  intros H. unfold load64. rewrite (load_le_bytes m 0 8 a); [done|].
  intros k Hk. rewrite H by lia. unfold byte_at. by rewrite Z.div_0_l by (apply Z.pow_nonzero; lia).
Qed.

Lemma child_zero m t i : idx i -> (forall x, in_page t x -> rd m x = 0) -> child m t i = None.
Proof.
  intros Hi Hz. unfold child. rewrite load64_zero, is_set_0; [done|].
  intros x Hx. apply Hz. unfold idx, in_page in *. lia.
Qed.

(** ** Frames: changes outside the table's pages *)

Section frame.
Context {sy : Symbols} {syok : SymbolsOk sy}.
Implicit Types (m : memory) (root t : Z) (p q : list Z).

(** [m'] agrees with [m] on every page of the table. *)
Definition same_tables m m' root : Prop :=
  forall p t x, path_ok p -> node m root p = Some t -> in_page t x -> rd m' x = rd m x.

Lemma node_frame_gen m m' root : same_tables m m' root ->
  forall q pre t, path_ok (pre ++ q) -> node m root pre = Some t -> node m' t q = node m t q.
Proof.
  intros Hs. induction q as [|i q IH]; intros pre t Hok Hpre; simpl; [done|].
  assert (Hi : idx i) by (destruct Hok as [_ Hf]; apply Forall_app in Hf as [_ Hf]; by inversion Hf).
  rewrite (child_ext m m');
    [|done|intros x; apply (Hs pre t); [by eapply path_ok_app_l|done]].
  destruct (child m t i) as [c|] eqn:Hc; [|done].
  apply (IH (pre ++ [i])); [by rewrite <- app_assoc|]. by rewrite (node_snoc m root pre t).
Qed.

Lemma node_frame m m' root p :
  same_tables m m' root -> path_ok p -> node m' root p = node m root p.
Proof. intros Hs Hp. by apply (node_frame_gen m m' root Hs p []). Qed.

Lemma pte_at_frame m m' root va : same_tables m m' root -> pte_at m' root va = pte_at m root va.
Proof.
  intros Hs. unfold pte_at, leaf_table. rewrite (node_frame m m') by (done || apply leaf_path_ok).
  destruct (node m root (leaf_path va)) as [t|] eqn:Ht; [|done].
  apply load_entry_ext; [by apply PX_range|]. intros x. apply (Hs (leaf_path va) t); [|done].
  apply leaf_path_ok.
Qed.

Lemma pt_wf_frame m m' root l : same_tables m m' root -> pt_wf m root l -> pt_wf m' root l.
Proof.
  intros Hs [H1 H2 H3 H4]. split.
  - intros p t Hp. rewrite (node_frame m m') by done. by apply H1.
  - intros p q t Hp Hq. rewrite !(node_frame m m') by done. by apply H2.
  - intros p t i Hp Hlen Hi. rewrite (node_frame m m') by done. intros Ht.
    rewrite (load_entry_ext m m'); [by eapply H3|done|]. intros x. by apply (Hs p).
  - intros i c Hi. rewrite (child_ext m m'); [by apply H4|done|].
    intros x. apply (Hs []); [apply path_ok_nil|done].
Qed.

Lemma pt_wf_sub m root l l' : (forall x, x ∈ l' -> x ∈ l) -> pt_wf m root l -> pt_wf m root l'.
Proof.
  intros Hsub [H1 H2 H3 H4]. split; [|done..]. intros p t Hp Ht. destruct (H1 p t Hp Ht) as [? Hn].
  split; [done|]. intros Hin. by apply Hn, Hsub.
Qed.

(** Writing only inside a page that is not one of the table's. *)
Lemma same_tables_page m m' root l pg :
  pt_wf m root l -> pg mod 4096 = 0 ->
  (forall p, path_ok p -> node m root p <> Some pg) ->
  same_outside pg m m' -> same_tables m m' root.
Proof.
  intros Hwf Hpg Hno Hs p t x Hp Ht Hx. apply Hs. intros Hx'.
  apply (Hno p Hp). rewrite Ht. f_equal. apply (aligned_disjoint t pg x); try done.
  by destruct (wf_page _ _ _ Hwf p t Hp Ht) as [[? _] _].
Qed.

Lemma wf_aligned m root l p t :
  pt_wf m root l -> path_ok p -> node m root p = Some t -> t mod 4096 = 0.
Proof. intros Hwf Hp Ht. by destruct (wf_page _ _ _ Hwf p t Hp Ht) as [[? _] _]. Qed.

(** *** Storing a level-0 entry *)

Section set_leaf.
Context (m : memory) (root : Z) (l : list Z) (va v t0 : Z).
Context (Hwf : pt_wf m root l) (Ht0 : leaf_table m root va = Some t0) (Hv : 0 <= v < 2 ^ 64).
Let m' := store64 m (t0 + 8 * PX 0 va) v.

Lemma set_leaf_nodes : forall q pre t, path_ok (pre ++ q) ->
  node m root pre = Some t -> node m' t q = node m t q.
Proof.
  induction q as [|i q IH]; intros pre t Hok Hpre; simpl; [done|].
  assert (Hi : idx i) by (destruct Hok as [_ Hf]; apply Forall_app in Hf as [_ Hf]; by inversion Hf).
  assert (Hp : path_ok pre) by (by eapply path_ok_app_l).
  assert (Hne : t <> t0).
  { intros ->. assert (pre = leaf_path va) as -> by
      (apply (wf_inj _ _ _ Hwf pre (leaf_path va) t0); [done|apply leaf_path_ok|done..]).
    destruct Hok as [Hl _]. rewrite length_app in Hl. simpl in Hl. lia. }
  assert (Hc : child m' t i = child m t i).
  { unfold child, m'. rewrite load_store_entry;
      [|by eapply wf_aligned, Ht0; [done|apply leaf_path_ok]|by eapply wf_aligned|by apply PX_range|done|done].
    rewrite decide_False by naive_solver. done. }
  rewrite Hc. destruct (child m t i) as [c|] eqn:Ec; [|done].
  apply (IH (pre ++ [i])); [by rewrite <- app_assoc|]. by rewrite (node_snoc m root pre t).
Qed.

Lemma set_leaf_node p : path_ok p -> node m' root p = node m root p.
Proof. intros Hp. by apply (set_leaf_nodes p []). Qed.

Lemma set_leaf_wf : pt_wf m' root l.
Proof.
  destruct Hwf as [H1 H2 H3 H4]. split.
  - intros p t Hp. rewrite set_leaf_node by done. by apply H1.
  - intros p q t Hp Hq. rewrite !set_leaf_node by done. by apply H2.
  - intros p t i Hp Hlen Hi. rewrite set_leaf_node by done. intros Ht. unfold m'.
    rewrite load_store_entry;
      [|by eapply wf_aligned, Ht0; [done|apply leaf_path_ok]|by eapply wf_aligned|by apply PX_range|done|done].
    rewrite decide_False; [by eapply H3|]. intros [-> _].
    assert (p = leaf_path va) as -> by (apply (H2 _ _ t0); [done|apply leaf_path_ok|done..]).
    simpl in Hlen. lia.
  - intros i c Hi Hc. apply (H4 i c Hi).
    assert (Hn : node m' root [i] = Some c) by (simpl; by rewrite Hc).
    rewrite set_leaf_node in Hn by (apply (path_ok_snoc []); [simpl; lia|apply path_ok_nil|done]).
    simpl in Hn. by destruct (child m root i).
Qed.

(** Only the entry of [va]'s page changes. *)
Lemma set_leaf_pte va' :
  pte_at m' root va' =
  if decide (leaf_path va' = leaf_path va /\ PX 0 va' = PX 0 va) then v else pte_at m root va'.
Proof.
  unfold pte_at, leaf_table. rewrite set_leaf_node by apply leaf_path_ok.
  destruct (node m root (leaf_path va')) as [t|] eqn:Ht.
  - unfold m'. rewrite load_store_entry;
      [|by eapply wf_aligned, Ht0; [done|apply leaf_path_ok]
       |by eapply wf_aligned; [done|apply leaf_path_ok|done]|by apply PX_range..|done].
    case_decide as Hd1; case_decide as Hd2; try done; exfalso.
    + destruct Hd1 as [-> Hi]. apply Hd2. split; [|done].
      by apply (wf_inj _ _ _ Hwf _ _ t0); [apply leaf_path_ok..| |].
    + destruct Hd2 as [Hp Hi]. apply Hd1. split; [|done].
      rewrite Hp in Ht. unfold leaf_table in Ht0. congruence.
  - case_decide as Hd; [|done]. destruct Hd as [Hp _]. rewrite Hp in Ht.
    unfold leaf_table in Ht0. congruence.
Qed.
End set_leaf.

(** *** Adding an empty table page

    A page [pg] taken from the free list and zeroed becomes the child at
    index [i] of the table page [t] reached by [path]. *)

Section add_table.
Context (m m1 : memory) (root : Z) (l : list Z) (pg t i : Z) (path : list Z).
Context (Hwf : pt_wf m root (pg :: l)) (Hpg : free_page pg) (Hpgl : pg ∉ l)
        (Hout : same_outside pg m m1) (Hzero : filled pg 0 m1).
Context (Hlen : (length path < 2)%nat) (Hpath : path_ok path) (Hi : idx i)
        (Ht : node m root path = Some t) (Hnone : child m t i = None)
        (Hhalf : path = [] -> i < 256).
Let m' := store64 m1 (t + 8 * i) (Z.lor (PA2PTE pg) PTE_V).

Lemma add_fresh p : path_ok p -> node m root p <> Some pg.
Proof.
  intros Hp Hn. destruct (wf_page _ _ _ Hwf p pg Hp Hn) as [_ Hin]. apply Hin. left.
Qed.

Lemma add_child t' j p :
  path_ok p -> node m root p = Some t' -> idx j ->
  child m' t' j = if decide (p = path /\ j = i) then Some pg else child m t' j.
Proof.
  intros Hp Ht' Hj. pose proof (wf_aligned _ _ _ _ _ Hwf Hp Ht') as Ha'.
  pose proof (wf_aligned _ _ _ _ _ Hwf Hpath Ht) as Ha.
  pose proof (free_page_addr pg Hpg) as Hpa.
  unfold child, m'. rewrite load_store_entry; [|done..|by apply pte_lor_range].
  assert (Hm1 : load64 m1 (t' + 8 * j) = load64 m (t' + 8 * j)).
  { apply load_entry_ext; [done|]. intros x Hx. apply Hout. intros Hx'.
    apply (add_fresh p Hp). rewrite Ht'. f_equal. apply (aligned_disjoint t' pg x); try done. apply Hpg. }
  case_decide as Hd1; case_decide as Hd2.
  - unfold is_set, PTE_V. rewrite pte_flag_lor by done. simpl. by rewrite PTE2PA_lor.
  - exfalso. destruct Hd1 as [-> ->]. apply Hd2. split; [|done].
    by apply (wf_inj _ _ _ Hwf p path t).
  - exfalso. destruct Hd2 as [-> ->]. apply Hd1. split; [|done]. congruence.
  - by rewrite Hm1.
Qed.

Lemma add_new_empty j : idx j -> child m' pg j = None.
Proof.
  intros Hj. pose proof (wf_aligned _ _ _ _ _ Hwf Hpath Ht) as Ha.
  rewrite (child_ext m1 m'); [|done|].
  - by apply child_zero.
  - intros x Hx. unfold m'. apply rd_store_entry; [done|]. intros Hx'.
    apply (add_fresh path Hpath). rewrite Ht. f_equal.
    apply (aligned_disjoint t pg x); try done. apply Hpg.
Qed.

Lemma add_nodes : forall q pre t', path_ok (pre ++ q) -> node m root pre = Some t' ->
  node m' t' q = if decide (pre ++ q = path ++ [i]) then Some pg else node m t' q.
Proof.
  assert (Hnopath : node m root (path ++ [i]) = None) by (by rewrite (node_snoc m root path t)).
  induction q as [|j q IH]; intros pre t' Hok Hpre; simpl.
  { rewrite app_nil_r, decide_False; [done|]. intros ->. congruence. }
  assert (Hj : idx j) by (destruct Hok as [_ Hf]; apply Forall_app in Hf as [_ Hf]; by inversion Hf).
  rewrite (add_child t' j pre) by (done || by eapply path_ok_app_l).
  destruct (decide (pre = path /\ j = i)) as [[-> ->]|Hd].
  - assert (t' = t) as -> by congruence. rewrite Hnone.
    destruct q as [|k q]; simpl; [by rewrite decide_True|].
    rewrite decide_False by (intros ?%app_inv_head; done).
    rewrite add_new_empty; [done|].
    destruct Hok as [_ Hf]. apply Forall_app in Hf as [_ Hf]. inversion Hf as [|?? _ Hf']. by inversion Hf'.
  - replace (pre ++ j :: q) with ((pre ++ [j]) ++ q) in * by (by rewrite <- app_assoc).
    destruct (child m t' j) as [c|] eqn:Hc.
    + apply IH; [done|]. by rewrite (node_snoc m root pre t').
    + rewrite decide_False; [done|]. intros Heq.
      assert (Hpre' : node m root (pre ++ [j]) = None) by (by rewrite (node_snoc m root pre t')).
      destruct q as [|k q] using rev_ind.
      * rewrite app_nil_r in Heq. apply app_inj_2 in Heq as [-> ?]; [|done]. naive_solver.
      * clear IHq. rewrite app_assoc in Heq. apply app_inj_2 in Heq as [Heq _]; [|done].
        rewrite <- Heq, node_app, Hpre' in Ht. done.
Qed.

Lemma add_node q : path_ok q ->
  node m' root q = if decide (q = path ++ [i]) then Some pg else node m root q.
Proof. intros Hq. by apply (add_nodes q []). Qed.

Lemma add_wf : pt_wf m' root l.
Proof.
  split.
  - intros p u Hp. rewrite add_node by done. case_decide.
    + intros [= <-]. done.
    + intros Hu. destruct (wf_page _ _ _ Hwf p u Hp Hu) as [? Hn]. split; [done|].
      intros Hin. apply Hn. by right.
  - intros p q u Hp Hq. rewrite !add_node by done. repeat case_decide; subst; try done.
    + intros [= <-] Hn. by apply add_fresh in Hn.
    + intros Hn [= <-]. by apply add_fresh in Hn.
    + by apply (wf_inj _ _ _ Hwf).
  - intros p u j Hp Hpl Hj. rewrite add_node by done.
    pose proof (wf_aligned _ _ _ _ _ Hwf Hpath Ht) as Ha.
    pose proof (free_page_addr pg Hpg) as Hpa.
    case_decide as Hd.
    + intros [= <-] Hset. exfalso. pose proof (add_new_empty j Hj) as Hne.
      unfold child in Hne. by rewrite Hset in Hne.
    + intros Hu. pose proof (wf_aligned _ _ _ _ _ Hwf Hp Hu) as Hau.
      unfold m'. rewrite load_store_entry; [|done..|by apply pte_lor_range].
      case_decide; [intros _; by apply PTE_FLAGS_lor|].
      rewrite (load_entry_ext m m1); [by eapply (wf_inner _ _ _ Hwf)|done|].
      intros x Hx. apply Hout. intros Hx'. apply (add_fresh p Hp). rewrite Hu. f_equal.
      apply (aligned_disjoint u pg x); try done. apply Hpg.
  - intros j c Hj. rewrite (add_child root j []) by (done || apply path_ok_nil).
    case_decide as Hd; [|by apply (wf_half _ _ _ Hwf)]. destruct Hd as [<- ->]. by intros _; apply Hhalf.
Qed.

Lemma add_pte va : pte_at m' root va = pte_at m root va.
Proof.
  unfold pte_at, leaf_table. rewrite add_node by apply leaf_path_ok.
  assert (Hi0 : idx (PX 0 va)) by (apply PX_range; lia).
  pose proof (wf_aligned _ _ _ _ _ Hwf Hpath Ht) as Ha.
  case_decide as Hd.
  - rewrite Hd, (node_snoc m root path t), Hnone by done.
    unfold m'. rewrite load_store_entry; [|done|apply Hpg|done..|].
    + rewrite decide_False.
      * apply load64_zero. intros x Hx. apply Hzero. unfold in_page, idx in *. lia.
      * intros [Heq _]. apply (add_fresh path Hpath). congruence.
    + apply pte_lor_range; [by apply free_page_addr|done].
  - destruct (node m root (leaf_path va)) as [t0|] eqn:Ht0; [|done].
    unfold m'. rewrite load_store_entry;
      [|done|by eapply wf_aligned; [done|apply leaf_path_ok|done]|done..
       |apply pte_lor_range; [by apply free_page_addr|done]].
    rewrite decide_False.
    + apply load_entry_ext; [done|]. intros x Hx. apply Hout. intros Hx'.
      apply (add_fresh _ (leaf_path_ok va)). rewrite Ht0. f_equal.
      apply (aligned_disjoint t0 pg x); try done; [|apply Hpg].
      by eapply wf_aligned; [done|apply leaf_path_ok|done].
    + intros [Heq _]. assert (Hp : leaf_path va = path) by
        (apply (wf_inj _ _ _ Hwf _ _ t); [apply leaf_path_ok|done|congruence|done]).
      rewrite <- Hp in Hlen. simpl in Hlen. lia.
Qed.

(** Bytes outside the table and the free pages keep their values. *)
Lemma add_untouched x : untouched m root (pg :: l) x -> rd m' x = rd m x /\ untouched m' root l x.
Proof.
  intros [Htab Hfree]. assert (Hpx : ~ in_page pg x) by (apply Hfree; left).
  split.
  - unfold m'. rewrite rd_store_entry; [by apply Hout|done|]. by apply (Htab path).
  - split.
    + intros p u Hp. rewrite add_node by done. case_decide; [by intros [= <-]|by apply Htab].
    + intros q Hq. apply Hfree. by right.
Qed.
End add_table.
End frame.
