(* ===== verification/VmSpec.v ===== *)
(** Specifications of the page-table operations of kernel/vm.c, proved from
    the theory of VmTable.v. *)

From S2P Require Import Prelude KMonad Kstring Riscv Kalloc Vm VmTable.

Section spec.
Context {sy : Symbols} {syok : SymbolsOk sy}.
Implicit Types (s : phys) (m : memory) (root va : Z) (l : list Z) (w : world phys).

(** The allocator's free pages are [l] and [root] is a page table. *)
Definition vm_ok s root l : Prop := kmem_ok s l /\ pt_wf (p_mem s) root l.

(** [t] is one of the pages of the table. *)
Definition table_page m root t : Prop := exists p, path_ok p /\ node m root p = Some t.

(** Between [s] and [s'] the table may have gained table pages, taken from
    the free list, and entries may have changed; memory outside the table
    and the free pages is as before. *)
Record ext root s l s' l' : Prop := {
  x_ok : vm_ok s' root l';
  x_used : exists used, l = used ++ l' /\ Forall (table_page (p_mem s') root) used;
  x_rest : forall x, untouched (p_mem s) root l x ->
    rd (p_mem s') x = rd (p_mem s) x /\ untouched (p_mem s') root l' x;
  x_node : forall p t, path_ok p -> node (p_mem s) root p = Some t ->
    node (p_mem s') root p = Some t;
  x_new : forall p t, path_ok p -> node (p_mem s') root p = Some t ->
    node (p_mem s) root p = Some t \/ t ∈ l }.

Definition same_ptes root s s' : Prop :=
  forall va, pte_at (p_mem s') root va = pte_at (p_mem s) root va.

Definition grow root s l s' l' : Prop := ext root s l s' l' /\ same_ptes root s s'.

Lemma ext_refl root s l : vm_ok s root l -> ext root s l s l.
Proof. intros H. split; try done; [by exists []|by left]. Qed.

Lemma ext_trans root s l s1 l1 s2 l2 :
  ext root s l s1 l1 -> ext root s1 l1 s2 l2 -> ext root s l s2 l2.
Proof.
  intros [H1 (u1 & U1 & T1) R1 N1 W1] [H2 (u2 & U2 & T2) R2 N2 W2]. split; [done|..].
  - exists (u1 ++ u2). split; [by rewrite <- app_assoc, <- U2|]. apply Forall_app. split; [|done].
    eapply Forall_impl; [done|]. intros t (p & Hp & Ht). exists p. eauto.
  - intros x Hx. destruct (R1 x Hx) as [E1 Hx1]. destruct (R2 x Hx1) as [E2 Hx2].
    by rewrite E2.
  - eauto.
  - intros p t Hp Ht. destruct (W2 p t Hp Ht) as [Ht1|Hin]; [by eauto|].
    right. rewrite U1. apply elem_of_app. by right.
Qed.

Lemma grow_refl root s l : vm_ok s root l -> grow root s l s l.
Proof. intros H. split; [by apply ext_refl|done]. Qed.

Lemma grow_trans root s l s1 l1 s2 l2 :
  grow root s l s1 l1 -> grow root s1 l1 s2 l2 -> grow root s l s2 l2.
Proof.
  intros [H1 P1] [H2 P2]. split; [by eapply ext_trans|]. intros va. by rewrite P2.
Qed.

Lemma wp_load_pte a (Q : Z -> world phys -> Prop) w :
  Q (load64 (p_mem (w_st w)) a) w -> wp (load_pte a) Q w.
Proof. done. Qed.

Lemma wp_store_pte a v (Q : () -> world phys -> Prop) w :
  Q () (set_st (upd_mem (fun m => store64 m a v) (w_st w)) w) -> wp (store_pte a v) Q w.
Proof. done. Qed.

(** ** walk *)

Lemma walk_ro root va w :
  0 <= va < MAXVA ->
  walk root va false w =
  Ok (match leaf_table (p_mem (w_st w)) root va with
      | Some t => t + 8 * PX 0 va
      | None => 0
      end) w.
Proof.
  intros Hva. unfold walk. destruct (Z.geb_spec va MAXVA); [lia|].
  unfold leaf_table, leaf_path, node, child. cbn -[PX PTE2PA load64 Z.of_nat is_set].
  change (Z.of_nat 2) with 2. change (Z.of_nat 1) with 1.
  unfold load_pte, gets, mbind, M_bind; cbn -[PX PTE2PA load64 is_set].
  destruct (is_set (load64 _ (root + 8 * PX 2 va)) PTE_V); [|done].
  cbn -[PX PTE2PA load64 is_set]. by destruct (is_set _ PTE_V).
Qed.

Fixpoint rest_path (level : nat) (va : Z) : list Z :=
  match level with
  | O => []
  | S k => PX (Z.of_nat level) va :: rest_path k va
  end.

(** One iteration of the loop that creates a table page. *)
Lemma grow_add root s l pg l' s1 t i path :
  vm_ok s root (pg :: l') -> l = pg :: l' -> free_page pg -> pg ∉ l' -> kmem_ok s1 l' ->
  same_outside pg (p_mem s) (p_mem s1) ->
  (length path < 2)%nat -> path_ok path -> idx i ->
  node (p_mem s) root path = Some t -> child (p_mem s) t i = None -> (path = [] -> i < 256) ->
  let m1 := memset (p_mem s1) pg 0 PGSIZE in
  let s2 := Phys (store64 m1 (t + 8 * i) (Z.lor (PA2PTE pg) PTE_V)) (p_freelist s1) in
  grow root s l s2 l' /\ node (p_mem s2) root (path ++ [i]) = Some pg.
Proof.
  intros [_ Hwf] -> Hpg Hpgl [Hrep Hnd] Hout Hlen Hpath Hi Ht Hnone Hhalf m1 s2.
  assert (Hout1 : same_outside pg (p_mem s) m1).
  { intros x Hx. unfold m1. rewrite memset_rd_out; [by apply Hout|].
    unfold in_page, PGSIZE in *. lia. }
  assert (Hzero : filled pg 0 m1) by (intros x Hx; by apply memset_rd_in).
  assert (Htp : t mod 4096 = 0) by (by eapply wf_aligned).
  pose proof (add_node _ _ _ _ _ _ _ _ Hwf Hpg Hout1 Hzero Hpath Hi Ht Hnone) as Hnode.
  split; [split; [split|]|]; simpl.
  - split; simpl.
    + split; [|done]. simpl. destruct (wf_page _ _ _ Hwf path t Hpath Ht) as [_ Htl].
      eapply (free_rep_same_outside t m1); [|done|intros Hin; apply Htl; by right|].
      * eapply free_rep_same_outside; [done|apply Hpg|done|].
        intros x Hx. apply memset_rd_out. unfold in_page, PGSIZE in *. lia.
      * intros x Hx. by apply rd_store_entry.
    + by eapply add_wf.
  - exists [pg]. split; [done|]. constructor; [|done]. exists (path ++ [i]).
    split; [by apply path_ok_snoc|]. rewrite Hnode by (by apply path_ok_snoc). by rewrite decide_True.
  - intros x Hx. by eapply add_untouched.
  - intros p u Hp Hu. rewrite Hnode by done. case_decide; [|done].
    subst p. rewrite (node_snoc _ root path t) in Hu by done. congruence.
  - intros p u Hp. rewrite Hnode by done. case_decide; [intros [= <-]; right; left|by left].
  - intros va. by eapply add_pte.
  - rewrite Hnode by (by apply path_ok_snoc). by rewrite decide_True.
Qed.

Lemma PX_half va : 0 <= va < MAXVA -> PX 2 va < 256.
Proof.
  intros Hva. rewrite PX_eq by done. change (2 ^ (12 + 9 * 2)) with 1073741824.
  assert (va / 1073741824 < 256) by (apply Z.div_lt_upper_bound; [lia|]; change MAXVA with 274877906944 in *; lia).
  pose proof (Z.div_pos va 1073741824). rewrite Z.mod_small; lia.
Qed.

Lemma wp_walk_level level : forall path t l s0 l0 va root (Q : Z -> world phys -> Prop) w,
  path ++ rest_path level va = leaf_path va -> 0 <= va < MAXVA ->
  L_kmem ∉ w_held w -> grow root s0 l0 (w_st w) l ->
  node (p_mem (w_st w)) root path = Some t ->
  (forall s', grow root s0 l0 s' [] -> Q 0 (set_st s' w)) ->
  (forall s' l' t', grow root s0 l0 s' l' -> leaf_table (p_mem s') root va = Some t' ->
     Q (t' + 8 * PX 0 va) (set_st s' w)) ->
  wp (walk_level level t va true) Q w.
Proof.
  induction level as [|k IH]; intros path t l s0 l0 va root Q w Hpath Hva Hl Hg Ht Hnil Hok.
  { simpl. rewrite app_nil_r in Hpath. subst path. apply wp_ret.
    specialize (Hok (w_st w) l t Hg Ht). by destruct w. }
  cbn [walk_level]. set (i := PX (Z.of_nat (S k)) va) in *.
  assert (Hpok : path_ok path) by (apply (path_ok_app_l path (rest_path (S k) va)); rewrite Hpath; apply leaf_path_ok).
  assert (Hlen : (length path < 2)%nat).
  { apply (f_equal length) in Hpath. rewrite length_app in Hpath. simpl in Hpath. lia. }
  assert (Hi : idx i) by (apply PX_range; lia).
  assert (Hpath' : (path ++ [i]) ++ rest_path k va = leaf_path va) by (by rewrite <- app_assoc).
  apply wp_bind, wp_load_pte. set (v := load64 (p_mem (w_st w)) (t + 8 * i)).
  assert (Hc : child (p_mem (w_st w)) t i = if is_set v PTE_V then Some (PTE2PA v) else None) by done.
  destruct (is_set v PTE_V).
  - apply (IH (path ++ [i]) (PTE2PA v) l s0 l0 va root); try done.
    by rewrite (node_snoc _ root path t).
  - simpl. destruct (x_ok _ _ _ _ _ (proj1 Hg)) as [Hk Hwf].
    eapply wp_bind, wp_kalloc; [exact Hk|done|..].
    + intros ->. simpl. apply wp_ret. specialize (Hnil (w_st w) Hg). by destruct w.
    + intros pg l' s1 El Hpg Hpgl Hk1 _ Hout. pose proof (free_page_pos pg Hpg).
      rewrite (proj2 (Z.eqb_neq pg 0)) by lia. apply wp_bind, wp_modify, wp_bind, wp_store_pte.
      destruct (grow_add root (w_st w) l pg l' s1 t i path) as [Hg' Hn']; try done.
      { subst l. by apply Hg. }
      { intros ->. assert (E : i = PX 2 va) by (by injection Hpath). rewrite E. by apply PX_half. }
      eapply (IH (path ++ [i]) pg l' s0 l0 va root); try done.
      by eapply grow_trans.
Qed.

Lemma wp_walk_alloc root va l (Q : Z -> world phys -> Prop) w :
  vm_ok (w_st w) root l -> L_kmem ∉ w_held w -> 0 <= va < MAXVA ->
  (forall s', grow root (w_st w) l s' [] -> Q 0 (set_st s' w)) ->
  (forall s' l' t, grow root (w_st w) l s' l' -> leaf_table (p_mem s') root va = Some t ->
     Q (t + 8 * PX 0 va) (set_st s' w)) ->
  wp (walk root va true) Q w.
Proof.
  intros Hok Hl Hva Hnil Hcons. unfold walk. destruct (Z.geb_spec va MAXVA); [lia|].
  by apply (wp_walk_level 2 [] root l (w_st w) l va root); try apply grow_refl.
Qed.

(** ** Storing an entry *)

Lemma same_page_iff va va' :
  0 <= va < MAXVA -> 0 <= va' < MAXVA ->
  (leaf_path va' = leaf_path va /\ PX 0 va' = PX 0 va) <-> va' / 4096 = va / 4096.
Proof.
  intros Hva Hva'.
  assert (Hround : forall v k, 0 <= v < MAXVA -> 0 <= k -> PX k v = PX k (v / 4096 * 4096)).
  { intros v k Hv Hk. rewrite !PX_eq by done. f_equal.
    rewrite Z.pow_add_r by lia. change (2 ^ 12) with 4096.
    rewrite <- !Z.div_div by lia. by rewrite Z.div_mul by lia. }
  assert (Hb : forall v, 0 <= v < MAXVA -> 0 <= v / 4096 * 4096 < MAXVA).
  { intros v Hv. pose proof (Z.div_mod v 4096 ltac:(lia)).
    pose proof (Z.mod_pos_bound v 4096 ltac:(lia)). lia. }
  unfold leaf_path. rewrite !(Hround va), !(Hround va') by lia. split.
  - intros [[= E2 E1] E0].
    assert (va' / 4096 * 4096 = va / 4096 * 4096); [|lia].
    apply PX_inj; auto; by rewrite Z.mod_mul by lia.
  - by intros ->.
Qed.

Lemma ext_set_leaf root s l va v t0 :
  vm_ok s root l -> leaf_table (p_mem s) root va = Some t0 ->
  0 <= va < MAXVA -> 0 <= v < 2 ^ 64 ->
  let s' := upd_mem (fun m => store64 m (t0 + 8 * PX 0 va) v) s in
  ext root s l s' l /\
  forall va', 0 <= va' < MAXVA ->
    pte_at (p_mem s') root va' =
    if decide (va' / 4096 = va / 4096) then v else pte_at (p_mem s) root va'.
Proof.
  intros [[Hrep Hnd] Hwf] Ht0 Hva Hv s'.
  assert (Hi : idx (PX 0 va)) by (apply PX_range; lia).
  destruct (wf_page _ _ _ Hwf _ t0 (leaf_path_ok va) Ht0) as [[Ha _] Htl].
  pose proof (set_leaf_node (p_mem s) root l va v t0 Hwf Ht0 Hv) as Hnode.
  assert (Hout : same_outside t0 (p_mem s) (p_mem s')) by (intros x Hx; by apply rd_store_entry).
  split.
  - split; simpl.
    + split; [|by eapply set_leaf_wf]. split; [|done]. by eapply free_rep_same_outside.
    + by exists [].
    + intros x [Hx1 Hx2]. split.
      * apply Hout. by apply (Hx1 (leaf_path va)); [apply leaf_path_ok|].
      * split; [|done]. intros p t Hp. rewrite Hnode by done. by apply Hx1.
    + intros p t Hp. by rewrite Hnode.
    + intros p t Hp. rewrite Hnode by done. by left.
  - intros va' Hva'. simpl. rewrite (set_leaf_pte (p_mem s) root l va v t0) by done.
    rewrite (decide_ext _ (va' / 4096 = va / 4096)); [done|]. by apply same_page_iff.
Qed.

(** ** mappages *)

(** The entry [mappages] stores for physical page [pa]. *)
Definition mk_pte (pa perm : Z) : Z := Z.lor (Z.lor (PA2PTE pa) perm) PTE_V.

Lemma lor_perm_range perm : 0 <= perm < 1024 -> 0 <= Z.lor perm PTE_V < 1024.
Proof.
  intros Hp. split; [apply Z.lor_nonneg; split; [lia|by vm_compute]|].
  assert (Hm : Z.lor perm PTE_V mod 2 ^ 10 = Z.lor perm PTE_V).
  { rewrite <- Z.land_ones, Z.land_lor_distr_l, !Z.land_ones by lia.
    by rewrite (Z.mod_small perm) by lia. }
  rewrite <- Hm. apply (Z.mod_pos_bound _ (2 ^ 10)). lia.
Qed.

Lemma mk_pte_eq pa perm : mk_pte pa perm = Z.lor (PA2PTE pa) (Z.lor perm PTE_V).
Proof. unfold mk_pte. by rewrite Z.lor_assoc. Qed.

Lemma mk_pte_range pa perm : page_addr pa -> 0 <= perm < 1024 -> 0 <= mk_pte pa perm < 2 ^ 64.
Proof. intros. rewrite mk_pte_eq. apply pte_lor_range; [done|]. by apply lor_perm_range. Qed.

Lemma mk_pte_valid pa perm : page_addr pa -> 0 <= perm < 1024 -> is_set (mk_pte pa perm) PTE_V = true.
Proof.
  intros. rewrite mk_pte_eq. unfold is_set, PTE_V at 2. rewrite pte_flag_lor;
    [|done|by apply lor_perm_range|lia].
  rewrite Z.land_lor_distr_l. apply negb_true_iff, Z.eqb_neq. change (Z.land PTE_V (Z.shiftl 1 0)) with 1.
  intros Hz. apply Z.lor_eq_0_iff in Hz. lia.
Qed.

Lemma mk_pte_pa pa perm : page_addr pa -> 0 <= perm < 1024 -> PTE2PA (mk_pte pa perm) = pa.
Proof. intros. rewrite mk_pte_eq. apply PTE2PA_lor; [done|]. by apply lor_perm_range. Qed.

Lemma mk_pte_flags pa perm :
  page_addr pa -> 0 <= perm < 1024 -> PTE_FLAGS (mk_pte pa perm) = Z.lor perm PTE_V.
Proof. intros. rewrite mk_pte_eq. apply PTE_FLAGS_lor; [done|]. by apply lor_perm_range. Qed.

(** The first [j] pages from page number [k] map to the pages from [pa];
    the other entries are those of [s]. *)
Definition mapped root s s' (k j pa perm : Z) : Prop :=
  forall va, 0 <= va < MAXVA ->
    pte_at (p_mem s') root va =
    if decide (k <= va / 4096 < k + j) then mk_pte (pa + 4096 * (va / 4096 - k)) perm
    else pte_at (p_mem s) root va.

Definition unmapped_range root s (k n : Z) : Prop :=
  forall va, 0 <= va < MAXVA -> k <= va / 4096 < k + n ->
    is_set (pte_at (p_mem s) root va) PTE_V = false.

Lemma page_addr_add pa n : page_addr pa -> 0 <= n -> pa + 4096 * n < 2 ^ 56 -> page_addr (pa + 4096 * n).
Proof.
  intros [Ha Hr] Hn Hb. split; [|lia]. rewrite Z.mul_comm, Z.mod_add by lia. done.
Qed.

(** One iteration of the loop, followed by [k]. *)
Lemma wp_map_one root a pa perm l (k : M phys Z) (Q : Z -> world phys -> Prop) w :
  vm_ok (w_st w) root l -> L_kmem ∉ w_held w -> 0 <= a < MAXVA ->
  page_addr pa -> 0 <= perm < 1024 ->
  is_set (pte_at (p_mem (w_st w)) root a) PTE_V = false ->
  (forall s', grow root (w_st w) l s' [] -> Q (-1) (set_st s' w)) ->
  (forall s' l', ext root (w_st w) l s' l' ->
     mapped root (w_st w) s' (a / 4096) 1 pa perm -> wp k Q (set_st s' w)) ->
  wp (pte ← walk root a true;
      if pte =? 0 then mret (-1)
      else
        v ← load_pte pte;
        if is_set v PTE_V then panic "mappages: remap"
        else store_pte pte (Z.lor (Z.lor (PA2PTE pa) perm) PTE_V);; k) Q w.
Proof.
  intros Hok Hl Ha Hpa Hperm Hun Hfail Hk. eapply wp_bind, wp_walk_alloc; [done..|]. clear Hfail.
  intros s1 l1 t [Hg Hsame] Ht. destruct (x_ok _ _ _ _ _ Hg) as [Hk1 Hwf1].
  pose proof (free_page_pos t (proj1 (wf_page _ _ _ Hwf1 _ t (leaf_path_ok _) Ht))) as Htpos.
  pose proof (PX_range 0 a ltac:(lia)) as Hidx.
  rewrite (proj2 (Z.eqb_neq _ 0)) by lia. apply wp_bind, wp_load_pte. simpl.
  replace (load64 (p_mem s1) (t + 8 * PX 0 a)) with (pte_at (p_mem s1) root a)
    by (unfold pte_at; by rewrite Ht).
  rewrite Hsame, Hun. apply wp_bind, wp_store_pte. simpl.
  destruct (ext_set_leaf root s1 l1 a (mk_pte pa perm) t) as [Hg2 Hp2];
    [done..|by apply mk_pte_range|].
  eapply (Hk _ l1); [by eapply ext_trans|].
  intros va Hva. simpl in *. rewrite Hp2 by done. repeat case_decide; try lia; [|apply Hsame].
  by replace (pa + 4096 * (va / 4096 - a / 4096)) with pa by lia.
Qed.

Lemma div_4096 k : 4096 * k / 4096 = k.
Proof. rewrite Z.mul_comm. apply Z.div_mul. lia. Qed.

Lemma MAXVA_u64 : MAXVA < 2 ^ 56.
Proof. by vm_compute. Qed.

(** The loop maps [n + 1] pages, or stops when no page is left for a table. *)
Lemma wp_mappages_loop n : forall fuel k pa perm root l w,
  vm_ok (w_st w) root l -> L_kmem ∉ w_held w ->
  0 <= k -> 4096 * (k + Z.of_nat n + 1) <= MAXVA -> (n < fuel)%nat ->
  page_addr pa -> pa + 4096 * Z.of_nat n < 2 ^ 56 -> 0 <= perm < 1024 ->
  unmapped_range root (w_st w) k (Z.of_nat n + 1) ->
  wp (mappages_loop fuel root (4096 * k) (4096 * (k + Z.of_nat n)) pa perm) (fun r w' =>
    exists s' l' j, w' = set_st s' w /\ ext root (w_st w) l s' l' /\
      mapped root (w_st w) s' k j pa perm /\
      ((r = 0 /\ j = Z.of_nat n + 1) \/ (r = -1 /\ 0 <= j <= Z.of_nat n /\ l' = []))) w.
Proof.
  pose proof MAXVA_u64.
  induction n as [|n IH]; intros [|fuel] k pa perm root l w Hok Hl Hk Hmax Hf Hpa Hpab Hperm Hun; try lia;
    cbn [mappages_loop]; (eapply wp_map_one;
      [done|done|lia|done|done|apply Hun; rewrite ?div_4096; lia
      |intros s' [Hg Hs]; exists s', [], 0; split; [done|]; split; [done|];
       split; [intros va Hva; rewrite decide_False by lia; apply Hs|right; split; [done|split; [lia|done]]]|]);
    intros s1 l1 Hg1 Hm1; rewrite div_4096 in Hm1.
  - rewrite (proj2 (Z.eqb_eq _ _)) by lia. apply wp_ret.
    exists s1, l1, 1. split; [done|]. split; [done|]. split; [done|left; lia].
  - rewrite (proj2 (Z.eqb_neq _ _)) by lia. unfold PGSIZE.
    pose proof (proj2 Hpa). rewrite (u64_small (4096 * k + 4096)), (u64_small (pa + 4096)) by lia.
    replace (4096 * k + 4096) with (4096 * (k + 1)) by lia.
    replace (4096 * (k + Z.of_nat (S n))) with (4096 * (k + 1 + Z.of_nat n)) by lia.
    eapply wp_mono; [|eapply (IH fuel (k + 1) (pa + 4096) perm root l1)]; try done; try lia.
    + intros r w' (s' & l' & j & -> & Hx & Hm & Hr). exists s', l', (j + 1). split; [done|].
      split; [by eapply ext_trans|]. split; [|naive_solver lia].
      intros va Hva. rewrite Hm by done. simpl. rewrite Hm1 by done.
      repeat case_decide; try lia; f_equal; lia.
    + apply Hg1.
    + replace (pa + 4096) with (pa + 4096 * 1) by lia. apply page_addr_add; [done|lia..].
    + intros va Hva Hr. simpl. rewrite Hm1 by done. rewrite decide_False by lia. apply Hun; [done|lia].
Qed.

Lemma wp_mappages root va size pa perm l w :
  vm_ok (w_st w) root l -> L_kmem ∉ w_held w ->
  0 <= va -> 0 < size -> va + size <= MAXVA ->
  let k := va / 4096 in
  let n := (va + size - 1) / 4096 - k + 1 in
  page_addr pa -> pa + 4096 * n <= 2 ^ 56 -> 0 <= perm < 1024 ->
  unmapped_range root (w_st w) k n ->
  wp (mappages root va size pa perm) (fun r w' =>
    exists s' l' j, w' = set_st s' w /\ ext root (w_st w) l s' l' /\
      mapped root (w_st w) s' k j pa perm /\
      ((r = 0 /\ j = n) \/ (r = -1 /\ 0 <= j < n /\ l' = []))) w.
Proof.
  intros Hok Hl Hva Hsz Hmax k n Hpa Hpab Hperm Hun. pose proof MAXVA_u64.
  unfold mappages. rewrite (proj2 (Z.eqb_neq size 0)) by lia.
  rewrite u64_small by lia. rewrite !pgrounddown_eq by lia.
  assert (Hk : va - va mod 4096 = 4096 * k)
    by (pose proof (Z.div_mod va 4096 ltac:(lia)); unfold k; lia).
  pose proof (Z.div_mod (va + size - 1) 4096 ltac:(lia)) as Hdm.
  pose proof (Z.mod_pos_bound (va + size - 1) 4096 ltac:(lia)).
  assert (Hkle : k <= (va + size - 1) / 4096) by (apply Z.div_le_mono; lia).
  assert (Hn : 0 <= n - 1) by (unfold n; lia).
  replace (va + size - 1 - (va + size - 1) mod 4096) with (4096 * (k + Z.of_nat (Z.to_nat (n - 1))))
    by (unfold n in *; lia).
  rewrite Hk. assert (0 <= k) by (apply Z.div_pos; lia).
  eapply wp_mono; [|apply (wp_mappages_loop (Z.to_nat (n - 1)) _ k pa perm root l)]; try done.
  - intros r w' (s' & l' & j & -> & Hx & Hm & Hr). exists s', l', j. split; [done|]. split; [done|].
    split; [done|]. destruct Hr as [[-> ->]|(-> & ? & ->)]; [left; lia|right; split; [done|split; [lia|done]]].
  - assert (MAXVA = 4096 * 67108864) by done. unfold n in *. lia.
  - unfold mappages_fuel. rewrite (proj2 (Z.leb_le _ _)) by lia. unfold PGSIZE.
    replace (4096 * (k + Z.of_nat (Z.to_nat (n - 1))) - 4096 * k)
      with (4096 * Z.of_nat (Z.to_nat (n - 1))) by lia. rewrite div_4096. lia.
  - lia.
  - by replace (Z.of_nat (Z.to_nat (n - 1)) + 1) with n by lia.
Qed.

(** ** uvmunmap *)

(** Between [s] and [s'] the pages [freed] were put on the free list; the
    table has the same pages, and memory outside the table, the free pages
    and the freed ones is as before. *)
Record shrink root s l s' (freed : list Z) : Prop := {
  k_ok : vm_ok s' root (freed ++ l);
  k_node : forall p, path_ok p -> node (p_mem s') root p = node (p_mem s) root p;
  k_rest : forall x, untouched (p_mem s) root (freed ++ l) x -> rd (p_mem s') x = rd (p_mem s) x }.

(** The page of entry [v] can be given back: it came from the allocator,
    is not free, and is not a page of the table. *)
Definition returnable m root l (v : Z) : Prop :=
  free_page (PTE2PA v) /\ (PTE2PA v ∉ l) /\ ~ table_page m root (PTE2PA v).

Definition is_leaf (v : Z) : Prop := is_set v PTE_V = true /\ PTE_FLAGS v <> PTE_V.

Lemma untouched_ext m m' root l x :
  (forall p, path_ok p -> node m' root p = node m root p) ->
  untouched m root l x -> untouched m' root l x.
Proof. intros Hn [H1 H2]. split; [|done]. intros p t Hp. rewrite Hn by done. by apply H1. Qed.

Lemma shrink_trans root s l s1 f1 s2 f2 :
  shrink root s l s1 f1 -> shrink root s1 (f1 ++ l) s2 f2 -> shrink root s l s2 (f2 ++ f1).
Proof.
  intros [H1 N1 R1] [H2 N2 R2]. split.
  - by rewrite <- app_assoc.
  - intros p Hp. by rewrite N2, N1.
  - intros x Hx. rewrite <- app_assoc in Hx. rewrite R2, R1; [done| |].
    + destruct Hx as [Ht Hf]. split; [done|]. intros q Hq. apply Hf, elem_of_app. by right.
    + by eapply untouched_ext.
Qed.

(** Unmapping one page, without and with freeing it. *)
Lemma shrink_clear root s l va t0 :
  vm_ok s root l -> leaf_table (p_mem s) root va = Some t0 -> 0 <= va < MAXVA ->
  let s' := upd_mem (fun m => store64 m (t0 + 8 * PX 0 va) 0) s in
  shrink root s l s' [] /\
  forall va', 0 <= va' < MAXVA ->
    pte_at (p_mem s') root va' =
    if decide (va' / 4096 = va / 4096) then 0 else pte_at (p_mem s) root va'.
Proof.
  intros Hok Ht Hva s'. destruct (ext_set_leaf root s l va 0 t0) as [Hx Hp]; [done..|lia|].
  split; [|done]. split; simpl.
  - apply Hx.
  - intros p Hpp. apply (set_leaf_node (p_mem s) root l va 0 t0); [apply Hok|done|lia|done].
  - intros x Hun. by apply (x_rest _ _ _ _ _ Hx).
Qed.

Lemma shrink_free root s l s1 pa :
  vm_ok s root l -> kmem_ok s1 (pa :: l) -> same_outside pa (p_mem s) (p_mem s1) ->
  free_page pa -> ~ table_page (p_mem s) root pa ->
  shrink root s l s1 [pa] /\ same_ptes root s s1.
Proof.
  intros [Hk Hwf] Hk1 Hout Hpa Hnt.
  assert (Hs : same_tables (p_mem s) (p_mem s1) root).
  { eapply same_tables_page; [done|apply Hpa| |done]. intros p Hp Hn. apply Hnt. by exists p. }
  split; [split|].
  - split; [done|]. apply (pt_wf_frame (p_mem s)); [done|]. destruct Hwf as [H1 H2 H3 H4]. split; [|done..].
    intros p t Hp Ht. destruct (H1 p t Hp Ht) as [? Hn]. split; [done|].
    change ([pa] ++ l) with (pa :: l). intros [->|]%elem_of_cons; [|done]. apply Hnt. by exists p.
  - intros p Hp. by apply node_frame.
  - intros x [_ Hx]. apply Hout. apply Hx. left.
  - intros va. by apply pte_at_frame.
Qed.

(** Entry by entry, [s'] has 0 for [n] pages from [k] and [s] elsewhere. *)
Definition cleared root s s' (k n : Z) : Prop :=
  forall va, 0 <= va < MAXVA ->
    pte_at (p_mem s') root va =
    if decide (k <= va / 4096 < k + n) then 0 else pte_at (p_mem s) root va.

Lemma pte_at_leaf m root va :
  is_set (pte_at m root va) PTE_V = true ->
  exists t, leaf_table m root va = Some t /\ pte_at m root va = load64 m (t + 8 * PX 0 va).
Proof.
  unfold pte_at. destruct (leaf_table m root va) as [t|]; [by eauto|]. by rewrite is_set_0.
Qed.

Lemma walk_ro_some root va l w t :
  vm_ok (w_st w) root l -> 0 <= va < MAXVA -> leaf_table (p_mem (w_st w)) root va = Some t ->
  walk root va false w = Ok (t + 8 * PX 0 va) w /\ t + 8 * PX 0 va <> 0.
Proof.
  intros [_ Hwf] Hva Ht. rewrite walk_ro by done. rewrite Ht. split; [done|].
  pose proof (free_page_pos t (proj1 (wf_page _ _ _ Hwf _ t (leaf_path_ok _) Ht))).
  pose proof (PX_range 0 va ltac:(lia)). lia.
Qed.

Lemma wp_unmap_one root a (do_free : bool) l (k : M phys ()) (Q : () -> world phys -> Prop) w :
  vm_ok (w_st w) root l -> L_kmem ∉ w_held w -> 0 <= a < MAXVA ->
  let v := pte_at (p_mem (w_st w)) root a in
  is_leaf v -> (do_free = true -> returnable (p_mem (w_st w)) root l v) ->
  (forall s', shrink root (w_st w) l s' (if do_free then [PTE2PA v] else []) ->
     cleared root (w_st w) s' (a / 4096) 1 -> wp k Q (set_st s' w)) ->
  wp (pte ← walk root a false;
      if pte =? 0 then panic "uvmunmap: walk"
      else
        v ← load_pte pte;
        if negb (is_set v PTE_V) then panic "uvmunmap: not mapped"
        else if PTE_FLAGS v =? PTE_V then panic "uvmunmap: not a leaf"
        else
          (if do_free then kfree (PTE2PA v) else mret ());;
          store_pte pte 0;; k) Q w.
Proof.
  intros Hok Hl Ha v [Hv Hfl] Hret Hk.
  destruct (pte_at_leaf _ _ _ Hv) as (t & Ht & Hload).
  destruct (walk_ro_some root a l w t Hok Ha Ht) as [Hw Hne].
  eapply wp_bind, wp_intro; [exact Hw|]. rewrite (proj2 (Z.eqb_neq _ 0)) by done.
  apply wp_bind, wp_load_pte. rewrite <- Hload. fold v. rewrite Hv. simpl.
  rewrite (proj2 (Z.eqb_neq _ _)) by done.
  assert (Hfin : forall s1 f, shrink root (w_st w) l s1 f -> same_ptes root (w_st w) s1 ->
    f = (if do_free then [PTE2PA v] else []) -> wp (store_pte (t + 8 * PX 0 a) 0;; k) Q (set_st s1 w)).
  { intros s1 f Hsh Hsame ->. apply wp_bind, wp_store_pte. simpl.
    destruct (shrink_clear root s1 ((if do_free then [PTE2PA v] else []) ++ l) a t)
      as [Hsh2 Hp2]; [apply Hsh| |done|].
    { unfold leaf_table. rewrite (k_node _ _ _ _ _ Hsh) by apply leaf_path_ok. done. }
    apply (Hk (upd_mem _ s1)).
    - pose proof (shrink_trans _ _ _ _ _ _ _ Hsh Hsh2) as Htr. done.
    - intros va Hva. rewrite Hp2 by done. repeat case_decide; try lia. apply Hsame. }
  destruct do_free.
  - destruct (Hret eq_refl) as (Hfp & Hnl & Hnt).
    eapply wp_bind, (wp_kfree (PTE2PA v) l); [apply Hok|done..|].
    intros s1 Hk1 Hout. destruct (shrink_free root (w_st w) l s1 (PTE2PA v)) as [Hsh Hsame]; [done..|].
    by eapply Hfin.
  - apply wp_bind, wp_ret. specialize (Hfin (w_st w) []). destruct w as [me h ev st]. simpl in *.
    apply Hfin; [|done..]. split; [done..|]. done.
Qed.

(** The physical pages of the [n] pages from page number [k]. *)
Definition pages_of m root (k : Z) (n : nat) : list Z :=
  map (fun i => PTE2PA (pte_at m root (4096 * (k + Z.of_nat i)))) (seq 0 n).

Definition leaves root s (k : Z) (n : nat) : Prop :=
  forall i, k <= i < k + Z.of_nat n -> is_leaf (pte_at (p_mem s) root (4096 * i)).

(** The pages can be freed, and no two entries map the same page. *)
Definition freeable root s l (k : Z) (n : nat) : Prop :=
  (forall i, k <= i < k + Z.of_nat n -> returnable (p_mem s) root l (pte_at (p_mem s) root (4096 * i))) /\
  NoDup (pages_of (p_mem s) root k n).

Lemma pages_of_cons m root k n :
  pages_of m root k (S n) = PTE2PA (pte_at m root (4096 * k)) :: pages_of m root (k + 1) n.
Proof.
  unfold pages_of. cbn [seq map]. f_equal; [do 3 f_equal; lia|].
  rewrite <- seq_shift, map_map. apply map_ext. intros i. do 3 f_equal. lia.
Qed.

Lemma pages_of_ext m m' root k n :
  (forall i, k <= i < k + Z.of_nat n -> pte_at m' root (4096 * i) = pte_at m root (4096 * i)) ->
  pages_of m' root k n = pages_of m root k n.
Proof.
  intros H. unfold pages_of. apply map_ext_in. intros i Hi%in_seq. rewrite H by lia. done.
Qed.

Lemma pages_of_in m root k n i :
  k <= i < k + Z.of_nat n -> PTE2PA (pte_at m root (4096 * i)) ∈ pages_of m root k n.
Proof.
  intros Hi. apply list_elem_of_In, in_map_iff. exists (Z.to_nat (i - k)).
  split; [do 3 f_equal; lia|]. apply in_seq. lia.
Qed.

Lemma wp_uvmunmap_loop n : forall fuel root k (do_free : bool) l w,
  vm_ok (w_st w) root l -> L_kmem ∉ w_held w ->
  0 <= k -> 4096 * (k + Z.of_nat n) <= MAXVA -> (n < fuel)%nat ->
  leaves root (w_st w) k n -> (do_free = true -> freeable root (w_st w) l k n) ->
  wp (uvmunmap_loop fuel root (4096 * k) (4096 * (k + Z.of_nat n)) do_free) (fun _ w' =>
    exists s' freed, w' = set_st s' w /\ shrink root (w_st w) l s' freed /\
      cleared root (w_st w) s' k (Z.of_nat n) /\
      freed ≡ₚ (if do_free then pages_of (p_mem (w_st w)) root k n else [])) w.
Proof.
  pose proof MAXVA_u64.
  induction n as [|n IH]; intros [|fuel] root k do_free l w Hok Hl Hk Hmax Hf Hlv Hfr; try lia;
    cbn [uvmunmap_loop].
  { rewrite (proj2 (Z.ltb_ge _ _)) by lia. exists (w_st w), []. split; [by destruct w|].
    split; [by split|]. split; [|by destruct do_free].
    intros va Hva. rewrite decide_False by lia. done. }
  rewrite (proj2 (Z.ltb_lt _ _)) by lia.
  eapply wp_unmap_one; [done|done|lia|apply Hlv; lia|intros Hd; by apply Hfr; [|lia]|].
  set (fr := if do_free then [PTE2PA (pte_at (p_mem (w_st w)) root (4096 * k))] else []).
  intros s1 Hsh Hcl. rewrite div_4096 in Hcl. unfold PGSIZE. rewrite u64_small by lia.
  replace (4096 * k + 4096) with (4096 * (k + 1)) by lia.
  replace (4096 * (k + Z.of_nat (S n))) with (4096 * (k + 1 + Z.of_nat n)) by lia.
  assert (Hsame : forall i, k + 1 <= i < k + 1 + Z.of_nat n ->
    pte_at (p_mem s1) root (4096 * i) = pte_at (p_mem (w_st w)) root (4096 * i)).
  { intros i Hi. rewrite Hcl by lia. rewrite div_4096, decide_False by lia. done. }
  eapply wp_mono; [|apply (IH fuel root (k + 1) do_free (fr ++ l) (set_st s1 w)); try done; try lia].
  - intros [] w' (s' & f & -> & Hsh' & Hcl' & Hf'). simpl in *.
    exists s', (f ++ fr).
    split; [done|]. split; [by eapply shrink_trans|]. split.
    + intros va Hva. rewrite Hcl' by done. rewrite Hcl by done. repeat case_decide; try lia; done.
    + rewrite Hf'. unfold fr. destruct do_free; [|done]. rewrite pages_of_cons.
      rewrite (pages_of_ext (p_mem (w_st w)) (p_mem s1)) by done. by rewrite Permutation_app_comm.
  - apply Hsh.
  - intros i Hi. simpl. rewrite Hsame by done. apply Hlv. lia.
  - intros ->. destruct (Hfr eq_refl) as [Hr Hnd]. rewrite pages_of_cons in Hnd.
    apply NoDup_cons in Hnd as [Hnin Hnd]. split; simpl.
    + intros i Hi. rewrite Hsame by done. destruct (Hr i) as (R1 & R2 & R3); [lia|].
      split; [done|]. split.
      * intros [Heq|]%elem_of_cons; [|done]. apply Hnin. rewrite <- Heq. by apply pages_of_in.
      * intros (p & Hp & Hn). rewrite (k_node _ _ _ _ _ Hsh) in Hn by done. apply R3. by exists p.
    + by rewrite (pages_of_ext (p_mem (w_st w)) (p_mem s1)).
Qed.

Lemma wp_uvmunmap root va npages (do_free : bool) l w :
  vm_ok (w_st w) root l -> L_kmem ∉ w_held w ->
  va mod 4096 = 0 -> 0 <= va -> 0 <= npages -> va + 4096 * npages <= MAXVA ->
  leaves root (w_st w) (va / 4096) (Z.to_nat npages) ->
  (do_free = true -> freeable root (w_st w) l (va / 4096) (Z.to_nat npages)) ->
  wp (uvmunmap root va npages do_free) (fun _ w' =>
    exists s' freed, w' = set_st s' w /\ shrink root (w_st w) l s' freed /\
      cleared root (w_st w) s' (va / 4096) npages /\
      freed ≡ₚ (if do_free then pages_of (p_mem (w_st w)) root (va / 4096) (Z.to_nat npages) else [])) w.
Proof.
  intros Hok Hl Ha Hva Hn Hmax Hlv Hfr. pose proof MAXVA_u64. unfold uvmunmap, PGSIZE. rewrite Ha.
  change (negb (0 =? 0)) with false. cbv iota. rewrite u64_small by lia. pose proof (Z.div_mod va 4096 ltac:(lia)) as Hdm.
  replace (va + npages * 4096) with (4096 * (va / 4096 + Z.of_nat (Z.to_nat npages))) by lia.
  rewrite Hdm at 1. rewrite Ha, Z.add_0_r.
  eapply wp_mono; [|apply (wp_uvmunmap_loop (Z.to_nat npages)); try done; try lia].
  intros [] w'. by rewrite Z2Nat.id by done.
Qed.
End spec.
