(* ===== verification/VmUser.v ===== *)
(** Growing and shrinking user memory: [uvmalloc] and [uvmdealloc] of
    kernel/vm.c, and the properties of the page-table operations. *)

From S2P Require Import Prelude KMonad Kstring Riscv Kalloc Vm VmTable VmSpec.

Section user.
Context {sy : Symbols} {syok : SymbolsOk sy}.
Implicit Types (s : phys) (m : memory) (root va : Z) (l us tabs : list Z) (w : world phys).

(** [u] is an allocated page that is neither free nor part of the table. *)
Definition private m root l (u : Z) : Prop :=
  free_page u /\ forall x, in_page u x -> untouched m root l x.

Lemma base_in_page u : in_page u u.
Proof. unfold in_page. lia. Qed.

Lemma private_not_table m root l u : private m root l u -> ~ table_page m root u.
Proof.
  intros [_ Hu] (p & Hp & Hn). destruct (Hu u (base_in_page u)) as [Ht _].
  by apply (Ht p u Hp Hn), base_in_page.
Qed.

Lemma private_not_free m root l u : private m root l u -> u ∉ l.
Proof.
  intros [_ Hu] Hin. destruct (Hu u (base_in_page u)) as [_ Hf].
  by apply (Hf u Hin), base_in_page.
Qed.

Lemma private_intro s root l u :
  vm_ok s root l -> free_page u -> u ∉ l -> ~ table_page (p_mem s) root u ->
  private (p_mem s) root l u.
Proof.
  intros [[Hrep _] Hwf] Hu Hul Hnt. split; [done|]. intros x Hx. split.
  - intros p t Hp Hn Hx'. apply Hnt. exists p. split; [done|]. rewrite Hn. f_equal.
    apply (aligned_disjoint t u x); [by eapply wf_aligned|apply Hu|done|done].
  - intros q Hq Hx'. apply Hul. apply free_rep_pages in Hrep. rewrite Forall_forall in Hrep.
    replace u with q; [done|]. apply (aligned_disjoint q u x); [by apply Hrep|apply Hu|done|done].
Qed.

Lemma private_ext root s l s' l' u :
  ext root s l s' l' -> private (p_mem s) root l u ->
  private (p_mem s') root l' u /\ (forall x, in_page u x -> rd (p_mem s') x = rd (p_mem s) x).
Proof.
  intros Hx [Hu Hp]. split; [split; [done|]|]; intros x Hin; by apply (x_rest _ _ _ _ _ Hx), Hp.
Qed.

Lemma private_shrink root s l s' freed u :
  shrink root s l s' freed -> private (p_mem s) root (freed ++ l) u ->
  private (p_mem s') root (freed ++ l) u /\ (forall x, in_page u x -> rd (p_mem s') x = rd (p_mem s) x).
Proof.
  intros Hs [Hu Hp]. split; [split; [done|]|]; intros x Hin.
  - eapply untouched_ext; [apply Hs|by apply Hp].
  - by apply (k_rest _ _ _ _ _ Hs), Hp.
Qed.

Lemma filled_eq u c m m' : (forall x, in_page u x -> rd m' x = rd m x) -> filled u c m -> filled u c m'.
Proof. intros Heq Hf x Hx. rewrite Heq by done. by apply Hf. Qed.

(** ** A page taken from the allocator and zeroed *)

Lemma take_page root s l pg l' s2 :
  vm_ok s root l -> l = pg :: l' -> free_page pg -> pg ∉ l' -> kmem_ok s2 l' ->
  same_outside pg (p_mem s) (p_mem s2) ->
  vm_ok s2 root l' /\ private (p_mem s2) root l' pg /\ same_ptes root s s2 /\
  (forall p, path_ok p -> node (p_mem s2) root p = node (p_mem s) root p) /\
  (forall x, untouched (p_mem s) root l x ->
     rd (p_mem s2) x = rd (p_mem s) x /\ untouched (p_mem s2) root l' x).
Proof.
  intros [Hk Hwf] -> Hpg Hpgl Hk2 Hout.
  assert (Hnt : forall p, path_ok p -> node (p_mem s) root p <> Some pg).
  { intros p Hp Hn. destruct (wf_page _ _ _ Hwf p pg Hp Hn) as [_ Hin]. apply Hin. left. }
  assert (Hst : same_tables (p_mem s) (p_mem s2) root)
    by (eapply same_tables_page; [done|apply Hpg|done|done]).
  assert (Hnode : forall p, path_ok p -> node (p_mem s2) root p = node (p_mem s) root p)
    by (intros; by apply node_frame).
  assert (Hok2 : vm_ok s2 root l').
  { split; [done|]. apply (pt_wf_frame (p_mem s)); [done|]. eapply pt_wf_sub; [|done].
    intros x Hx. by right. }
  split; [done|]. split.
  { apply private_intro; [done..|]. intros (p & Hp & Hn). rewrite Hnode in Hn by done. by apply (Hnt p). }
  split; [intros va; by apply pte_at_frame|]. split; [done|].
  intros x [Ht Hf]. split; [apply Hout, Hf; left|].
  split; [intros p t Hp; rewrite Hnode by done; by apply Ht|]. intros q Hq. apply Hf. by right.
Qed.

(** Writing in a page that is not free keeps the free list. *)
Lemma kmem_ok_write s l pg (f : memory -> memory) :
  kmem_ok s l -> free_page pg -> pg ∉ l -> (forall m, same_outside pg m (f m)) ->
  kmem_ok (upd_mem f s) l.
Proof.
  intros [Hrep Hnd] Hpg Hin Hf. split; [|done]. eapply free_rep_same_outside; [done|apply Hpg|done|].
  apply Hf.
Qed.

(** ** uvmdealloc *)

Lemma wp_uvmdealloc root oldsz newsz l w :
  vm_ok (w_st w) root l -> L_kmem ∉ w_held w ->
  0 <= newsz <= oldsz -> oldsz <= MAXVA -> 
  let k := PGROUNDUP newsz / 4096 in
  let n := Z.to_nat ((PGROUNDUP oldsz - PGROUNDUP newsz) / 4096) in
  leaves root (w_st w) k n -> freeable root (w_st w) l k n ->
  wp (uvmdealloc root oldsz newsz) (fun r w' =>
    r = newsz /\ exists s' freed, w' = set_st s' w /\ shrink root (w_st w) l s' freed /\
      cleared root (w_st w) s' k (Z.of_nat n) /\ freed ≡ₚ pages_of (p_mem (w_st w)) root k n) w.
Proof.
  intros Hok Hl Hnew Hmax k n Hlv Hfr. pose proof MAXVA_u64.
  destruct (pgroundup_bounds newsz) as [Ha1 Hb1]; [lia..|].
  destruct (pgroundup_bounds oldsz) as [Ha2 Hb2]; [lia..|].
  pose proof (Z.div_mod (PGROUNDUP newsz) 4096 ltac:(lia)).
  pose proof (Z.div_mod (PGROUNDUP oldsz) 4096 ltac:(lia)).
  assert (Hd : (PGROUNDUP oldsz - PGROUNDUP newsz) / 4096 = PGROUNDUP oldsz / 4096 - PGROUNDUP newsz / 4096).
  { replace (PGROUNDUP oldsz - PGROUNDUP newsz)
      with ((PGROUNDUP oldsz / 4096 - PGROUNDUP newsz / 4096) * 4096) by lia. apply Z.div_mul. lia. }
  assert (Hnil : n = 0%nat -> forall r, r = newsz -> r = newsz /\ exists s' freed, w = set_st s' w /\
      shrink root (w_st w) l s' freed /\ cleared root (w_st w) s' k (Z.of_nat n) /\
      freed ≡ₚ pages_of (p_mem (w_st w)) root k n).
  { intros Hn r Hr. split; [done|]. exists (w_st w), []. split; [by destruct w|]. split; [by split|].
    rewrite Hn. split; [|done]. intros va Hva. by rewrite decide_False by lia. }
  unfold uvmdealloc. destruct (Z.geb_spec newsz oldsz).
  { apply wp_ret. assert (oldsz = newsz) as E by lia. apply Hnil; [|done]. unfold n.
    rewrite E, Z.sub_diag. done. }
  assert (Hmax2 : PGROUNDUP oldsz <= MAXVA) by (change MAXVA with (67108864 * 4096) in *; lia).
  change PGSIZE with 4096. destruct (Z.ltb_spec (PGROUNDUP newsz) (PGROUNDUP oldsz)) as [Hlt|Hge].
  - assert (Hn : i32 ((PGROUNDUP oldsz - PGROUNDUP newsz) / 4096) = Z.of_nat n).
    { unfold n. rewrite Z2Nat.id by lia. apply i32_small.
      change MAXVA with (67108864 * 4096) in *. lia. }
    rewrite Hn, u64_small by (unfold n; lia).
    eapply wp_bind, wp_mono; [|apply (wp_uvmunmap root (PGROUNDUP newsz) (Z.of_nat n) true l)]; try done; try lia;
      rewrite ?Nat2Z.id; try done.
  - apply wp_bind, wp_ret, wp_ret. apply Hnil; [|done]. unfold n. lia.
Qed.

(** ** Pages added to a table one by one

    [uvmalloc] and [uvmcopy] run the same loop: take a page, fill it, map
    it.  Between [s] and [s'] it has mapped the pages [us] at the page
    numbers from [k], page number [i] with permissions [perm i] and content
    [data i]; [tabs] are the pages that became table pages. *)
Section grown.
Context (root : Z) (s : phys) (l : list Z) (k : Z) (perm : Z -> Z) (data : Z -> Z -> Z).

Definition perm_ok (n : Z) : Prop :=
  forall i, k <= i < k + n -> 0 <= perm i < 1024 /\ Z.lor (perm i) PTE_V <> PTE_V.

Record grown (s' : phys) (us tabs l' : list Z) : Prop := {
  g_ok : vm_ok s' root l';
  g_pages : l ≡ₚ us ++ tabs ++ l';
  g_tabs : Forall (table_page (p_mem s') root) tabs;
  g_private : Forall (private (p_mem s') root l') us;
  g_pte : forall va, 0 <= va < MAXVA -> pte_at (p_mem s') root va =
    (if decide (k <= va / 4096 < k + Z.of_nat (length us))
     then mk_pte (nth (Z.to_nat (va / 4096 - k)) us 0) (perm (va / 4096))
     else pte_at (p_mem s) root va);
  g_data : forall i o, (i < length us)%nat -> 0 <= o < 4096 ->
    rd (p_mem s') (nth i us 0 + o) = data (k + Z.of_nat i) o;
  g_rest : forall x, untouched (p_mem s) root l x ->
    rd (p_mem s') x = rd (p_mem s) x /\ untouched (p_mem s') root l' x;
  g_node : forall p t, path_ok p -> node (p_mem s) root p = Some t -> node (p_mem s') root p = Some t }.

Lemma grown_nil : vm_ok s root l -> grown s [] [] l.
Proof.
  intros Hok. split; [done|done|done|done| |simpl; lia|done|done].
  intros va Hva. simpl. by rewrite decide_False by lia.
Qed.

(** Steps that keep the table's entries: taking a page, or creating a
    table page. *)
Lemma grown_keep s1 us tabs l1 s2 l2 tabs2 :
  grown s1 us tabs l1 -> vm_ok s2 root l2 -> us ++ tabs ++ l1 ≡ₚ us ++ tabs2 ++ l2 ->
  Forall (table_page (p_mem s2) root) tabs2 ->
  (forall va, 0 <= va < MAXVA -> pte_at (p_mem s2) root va = pte_at (p_mem s1) root va) ->
  (forall x, untouched (p_mem s1) root l1 x ->
    rd (p_mem s2) x = rd (p_mem s1) x /\ untouched (p_mem s2) root l2 x) ->
  (forall p t, path_ok p -> node (p_mem s1) root p = Some t -> node (p_mem s2) root p = Some t) ->
  grown s2 us tabs2 l2.
Proof.
  intros [H1 H2 H3 H4 H5 H6 H7 H8] Hok Hp Ht Hpte Hrest Hnd. split; [done|by rewrite H2|done|..].
  - eapply Forall_impl; [exact H4|]. intros u [Hu Hx]. split; [done|]. intros x Hin. by apply Hrest, Hx.
  - intros va Hva. rewrite Hpte by done. by apply H5.
  - intros i o Hi Ho. rewrite <- H6 by done. apply Hrest.
    rewrite Forall_forall in H4. apply (H4 (nth i us 0)).
    { apply list_elem_of_In, nth_In. done. }
    unfold in_page. lia.
  - intros x Hx. destruct (H7 x Hx) as [E Hx1]. destruct (Hrest x Hx1) as [E2 Hx2]. by rewrite E2.
  - intros p t Hpo Hpt. by apply Hnd, H8.
Qed.

Lemma ext_rest_page root' s1 pg l2 s2 s3 l3 x :
  (forall x, untouched (p_mem s1) root' (pg :: l2) x ->
    rd (p_mem s2) x = rd (p_mem s1) x /\ untouched (p_mem s2) root' l2 x) ->
  ext root' s2 l2 s3 l3 -> untouched (p_mem s1) root' (pg :: l2) x ->
  rd (p_mem s3) x = rd (p_mem s1) x /\ untouched (p_mem s3) root' l3 x.
Proof.
  intros H12 Hx H. destruct (H12 x H) as [E1 H1]. destruct (x_rest _ _ _ _ _ Hx x H1) as [E2 H2].
  by rewrite E2.
Qed.

(** The page [pg] is taken, filled and mapped after the others. *)
Lemma grown_map s1 us tabs l1 pg l2 s2 s3 l3 :
  grown s1 us tabs l1 -> l1 = pg :: l2 -> free_page pg -> pg ∉ l2 -> kmem_ok s2 l2 ->
  same_outside pg (p_mem s1) (p_mem s2) ->
  let i := k + Z.of_nat (length us) in
  (forall o, 0 <= o < 4096 -> rd (p_mem s2) (pg + o) = data i o) ->
  ext root s2 l2 s3 l3 -> mapped root s2 s3 i 1 pg (perm i) ->
  exists used, grown s3 (us ++ [pg]) (used ++ tabs) l3.
Proof.
  intros [H1 H2 H3 H4 H5 H6 H7 H8] -> Hpg Hpgl Hk2 Hout i Hdata Hx Hmap.
  destruct (take_page root s1 (pg :: l2) pg l2 s2) as (Hok2 & Hpriv & Hsame & Hnode & Hrest); [done..|].
  destruct (x_used _ _ _ _ _ Hx) as (used & -> & Hused). exists used.
  assert (Hr3 := fun x => ext_rest_page root s1 pg (used ++ l3) s2 s3 l3 x Hrest Hx).
  destruct (private_ext _ _ _ _ _ _ Hx Hpriv) as [Hpriv3 Hpg3].
  split.
  - apply Hx.
  - rewrite H2. by solve_Permutation.
  - apply Forall_app. split; [done|]. eapply Forall_impl; [exact H3|]. intros t (p & Hp & Hn).
    exists p. split; [done|]. apply (x_node _ _ _ _ _ Hx); [done|]. by rewrite Hnode.
  - apply Forall_app. split; [|by constructor].
    eapply Forall_impl; [exact H4|]. intros u [Hu Hin]. split; [done|]. intros x Hx'. by apply Hr3, Hin.
  - intros va Hva. rewrite Hmap, length_app by done. simpl. unfold i.
    destruct (decide (k + Z.of_nat (length us) <= va / 4096 < k + Z.of_nat (length us) + 1)).
    + rewrite decide_True by lia. replace (va / 4096) with (k + Z.of_nat (length us)) by lia.
      rewrite app_nth2 by lia. replace (Z.to_nat _ - length us)%nat with 0%nat by lia. simpl.
      f_equal. lia.
    + rewrite Hsame, H5 by done. case_decide; [|by rewrite decide_False by lia].
      rewrite decide_True by lia. by rewrite app_nth1 by lia.
  - intros j o Hj Ho. rewrite length_app in Hj. simpl in Hj.
    destruct (decide (j < length us)%nat).
    + rewrite app_nth1 by done. rewrite <- H6 by done. apply Hr3.
      rewrite Forall_forall in H4. apply (H4 (nth j us 0)).
      { apply list_elem_of_In, nth_In. done. }
      unfold in_page. lia.
    + replace j with (length us) by lia. rewrite app_nth2, Nat.sub_diag by lia. simpl.
      rewrite Hpg3 by (unfold in_page; lia). by apply Hdata.
  - intros x Hux. destruct (H7 x Hux) as [E Hx1]. destruct (Hr3 x Hx1) as [E2 Hx2]. by rewrite E2.
  - intros p t Hp Ht. apply (x_node _ _ _ _ _ Hx); [done|]. rewrite Hnode by done. by apply H8.
Qed.

(** The page [pg] is taken, mapping it fails, and it is freed again. *)
Lemma grown_fail s1 us tabs l1 pg l2 s2 s3 s4 :
  grown s1 us tabs l1 -> l1 = pg :: l2 -> free_page pg -> pg ∉ l2 -> kmem_ok s2 l2 ->
  same_outside pg (p_mem s1) (p_mem s2) ->
  ext root s2 l2 s3 [] -> mapped root s2 s3 (k + Z.of_nat (length us)) 0 pg (perm (k + Z.of_nat (length us))) ->
  kmem_ok s4 [pg] -> same_outside pg (p_mem s3) (p_mem s4) ->
  grown s4 us (l2 ++ tabs) [pg].
Proof.
  intros Hg -> Hpg Hpgl Hk2 Hout Hx Hmap Hk4 Hout4.
  destruct (take_page root s1 (pg :: l2) pg l2 s2) as (Hok2 & Hpriv & Hsame & Hnode & Hrest);
    [apply Hg|done..|].
  destruct (x_used _ _ _ _ _ Hx) as (used & Hl2 & Hused). rewrite app_nil_r in Hl2. subst used.
  destruct (private_ext _ _ _ _ _ _ Hx Hpriv) as [Hpriv3 Hpg3].
  destruct (shrink_free root s3 [] s4 pg) as [Hsh Hs4]; [apply Hx|done..|by eapply private_not_table|].
  apply (grown_keep s1 us tabs (pg :: l2)); [done|apply Hsh|by solve_Permutation|..].
  - apply Forall_app. split.
    + eapply Forall_impl; [exact Hused|]. intros t (p & Hp & Hn). exists p.
      split; [done|]. by rewrite (k_node _ _ _ _ _ Hsh).
    + eapply Forall_impl; [apply Hg|]. intros t (p & Hp & Hn). exists p.
      split; [done|]. rewrite (k_node _ _ _ _ _ Hsh) by done. apply (x_node _ _ _ _ _ Hx); [done|]. by rewrite Hnode.
  - intros va Hva. rewrite Hs4, Hmap by done. rewrite decide_False by lia. apply Hsame.
  - intros x Hux. destruct (ext_rest_page root s1 pg l2 s2 s3 [] x Hrest Hx Hux) as [E Hx3].
    assert (Hnp : ~ in_page pg x) by (apply Hux; left).
    assert (Hux4 : untouched (p_mem s3) root [pg] x).
    { split; [apply Hx3|]. by intros q ->%list_elem_of_singleton. }
    split; [by rewrite Hout4|]. eapply untouched_ext; [apply Hsh|done].
  - intros p t Hp Ht. rewrite (k_node _ _ _ _ _ Hsh) by done. apply (x_node _ _ _ _ _ Hx); [done|]. by rewrite Hnode.
Qed.

(** What is left when the pages have been unmapped and freed again: the
    free pages are those of [l] except the new table pages. *)
Record rolled_back (n : Z) (s' : phys) (tabs l' : list Z) : Prop := {
  r_ok : vm_ok s' root l';
  r_pages : l ≡ₚ tabs ++ l';
  r_tabs : Forall (table_page (p_mem s') root) tabs;
  r_unmapped : unmapped_range root s' k n;
  r_pte : forall va, 0 <= va < MAXVA -> ~ (k <= va / 4096 < k + n) ->
    pte_at (p_mem s') root va = pte_at (p_mem s) root va;
  r_rest : forall x, untouched (p_mem s) root l x ->
    rd (p_mem s') x = rd (p_mem s) x /\ untouched (p_mem s') root l' x;
  r_node : forall p t, path_ok p -> node (p_mem s) root p = Some t -> node (p_mem s') root p = Some t }.

Context (n : Z) (Hk : 0 <= k) (Hperm : perm_ok n).

Lemma grown_entry s1 us tabs l1 i :
  grown s1 us tabs l1 -> Z.of_nat (length us) <= n -> 4096 * (k + Z.of_nat (length us)) <= MAXVA -> (i < length us)%nat ->
  pte_at (p_mem s1) root (4096 * (k + Z.of_nat i)) = mk_pte (nth i us 0) (perm (k + Z.of_nat i)) /\
  free_page (nth i us 0).
Proof.
  intros Hg Hn Hmax Hi. rewrite (g_pte _ _ _ _ Hg) by lia. rewrite div_4096, decide_True by lia.
  split; [do 2 f_equal; lia|]. pose proof (g_private _ _ _ _ Hg) as Hp. rewrite Forall_forall in Hp.
  apply Hp. apply list_elem_of_In, nth_In. done.
Qed.

Lemma grown_pages_of s1 us tabs l1 :
  grown s1 us tabs l1 -> Z.of_nat (length us) <= n -> 4096 * (k + Z.of_nat (length us)) <= MAXVA ->
  pages_of (p_mem s1) root k (length us) = us.
Proof.
  intros Hg Hn Hmax. unfold pages_of. apply (nth_ext _ _ (PTE2PA (pte_at (p_mem s1) root (4096 * (k + Z.of_nat 0)))) 0).
  { by rewrite length_map, length_seq. }
  rewrite length_map, length_seq. intros i Hi.
  rewrite (map_nth (fun i => PTE2PA (pte_at (p_mem s1) root (4096 * (k + Z.of_nat i))))), seq_nth by done.
  simpl. destruct (grown_entry s1 us tabs l1 i) as [-> Hf]; [done..|].
  apply mk_pte_pa; [by apply free_page_addr|apply Hperm; lia].
Qed.

Lemma grown_leaves s1 us tabs l1 :
  grown s1 us tabs l1 -> Z.of_nat (length us) <= n -> 4096 * (k + Z.of_nat (length us)) <= MAXVA ->
  leaves root s1 k (length us).
Proof.
  intros Hg Hn Hmax i Hi. replace i with (k + Z.of_nat (Z.to_nat (i - k))) by lia.
  destruct (grown_entry s1 us tabs l1 (Z.to_nat (i - k))) as [-> Hf]; [done|done|done|lia|].
  apply free_page_addr in Hf. destruct (Hperm (k + Z.of_nat (Z.to_nat (i - k)))); [lia|].
  split; [by apply mk_pte_valid|by rewrite mk_pte_flags].
Qed.

Lemma grown_freeable s1 us tabs l1 :
  NoDup l -> grown s1 us tabs l1 -> Z.of_nat (length us) <= n -> 4096 * (k + Z.of_nat (length us)) <= MAXVA ->
  freeable root s1 l1 k (length us).
Proof.
  intros Hnd Hg Hn Hmax. split.
  - intros i Hi. replace i with (k + Z.of_nat (Z.to_nat (i - k))) by lia.
    destruct (grown_entry s1 us tabs l1 (Z.to_nat (i - k))) as [-> Hf]; [done|done|done|lia|].
    pose proof (g_private _ _ _ _ Hg) as Hp. rewrite Forall_forall in Hp.
    specialize (Hp (nth (Z.to_nat (i - k)) us 0)). unfold returnable.
    rewrite mk_pte_pa; [|by apply free_page_addr|apply Hperm; lia].
    assert (Hin : nth (Z.to_nat (i - k)) us 0 ∈ us) by (apply list_elem_of_In, nth_In; lia).
    split; [done|]. split; [eapply private_not_free|eapply private_not_table]; by apply Hp.
  - rewrite (grown_pages_of _ _ _ _ Hg) by done. rewrite (g_pages _ _ _ _ Hg) in Hnd.
    by apply NoDup_app in Hnd as [? _].
Qed.

Lemma grown_rollback s1 us tabs l1 s2 freed :
  grown s1 us tabs l1 -> unmapped_range root s k n -> Z.of_nat (length us) <= n ->
  4096 * (k + Z.of_nat (length us)) <= MAXVA ->
  shrink root s1 l1 s2 freed -> cleared root s1 s2 k (Z.of_nat (length us)) ->
  freed ≡ₚ us -> rolled_back n s2 tabs (freed ++ l1).
Proof.
  intros Hg Hun Hn Hmax Hsh Hcl Hfr. split.
  - apply Hsh.
  - rewrite (g_pages _ _ _ _ Hg), Hfr. solve_Permutation.
  - eapply Forall_impl; [apply Hg|]. intros t (p & Hp & Ht). exists p. split; [done|].
    by rewrite (k_node _ _ _ _ _ Hsh).
  - intros va Hva Hin. rewrite Hcl by done. case_decide; [apply is_set_0|].
    rewrite (g_pte _ _ _ _ Hg) by done. rewrite decide_False by done. by apply Hun.
  - intros va Hva Hout. rewrite Hcl by done. rewrite decide_False by lia.
    rewrite (g_pte _ _ _ _ Hg) by done. by rewrite decide_False by lia.
  - intros x Hx. destruct (g_rest _ _ _ _ Hg x Hx) as [E [Ht Hf]].
    assert (Hu : untouched (p_mem s1) root (freed ++ l1) x).
    { split; [done|]. intros q [Hq|Hq]%elem_of_app; [|by apply Hf].
      rewrite Hfr in Hq. apply Hx. rewrite (g_pages _ _ _ _ Hg). apply elem_of_app. by left. }
    rewrite (k_rest _ _ _ _ _ Hsh) by done. split; [done|]. eapply untouched_ext; [apply Hsh|done].
  - intros p t Hp Ht. rewrite (k_node _ _ _ _ _ Hsh) by done. by apply (g_node _ _ _ _ Hg).
Qed.
End grown.

(** ** uvmalloc *)

Definition ualloc_perm (xperm : Z) : Z := Z.lor (Z.lor PTE_R PTE_U) xperm.

Lemma ualloc_perm_ok xperm k n : 0 <= xperm < 1024 -> perm_ok k (fun _ => ualloc_perm xperm) n.
Proof.
  intros Hx i _. unfold ualloc_perm.
  assert (Hnn : 0 <= Z.lor (Z.lor PTE_R PTE_U) xperm) by (apply Z.lor_nonneg; split; [done|lia]).
  split; [split; [done|]|].
  - assert (Hm : Z.lor (Z.lor PTE_R PTE_U) xperm mod 2 ^ 10 = Z.lor (Z.lor PTE_R PTE_U) xperm).
    { rewrite <- Z.land_ones, Z.land_lor_distr_l, !Z.land_ones by lia.
      by rewrite (Z.mod_small xperm) by lia. }
    rewrite <- Hm. apply (Z.mod_pos_bound _ (2 ^ 10)). lia.
  - intros E. apply (f_equal (fun z => Z.testbit z 1)) in E. rewrite !Z.lor_spec in E. done.
Qed.

(** [uvmdealloc] of the pages added so far. *)
Lemma wp_rollback root s l k perm data n us tabs l1 w :
  0 <= k -> perm_ok k perm n -> NoDup l -> unmapped_range root s k n ->
  grown root s l k perm data (w_st w) us tabs l1 -> Z.of_nat (length us) <= n ->
  4096 * (k + Z.of_nat (length us)) <= MAXVA -> L_kmem ∉ w_held w ->
  wp (uvmdealloc root (4096 * (k + Z.of_nat (length us))) (4096 * k)) (fun _ w' =>
    exists s' l', w' = set_st s' w /\ rolled_back root s l k n s' tabs l') w.
Proof.
  intros Hk Hperm Hnd Hun Hg Hn Hmax Hl. pose proof MAXVA_u64.
  assert (Hr : forall j, 0 <= j -> 4096 * j <= MAXVA -> PGROUNDUP (4096 * j) = 4096 * j).
  { intros j Hj Hm. destruct (pgroundup_bounds (4096 * j)); [lia..|].
    pose proof (pgroundup_aligned (4096 * j)). pose proof (Z.div_mod (PGROUNDUP (4096 * j)) 4096 ltac:(lia)). lia. }
  eapply wp_mono; [|apply (wp_uvmdealloc root _ _ l1)]; [|apply Hg|done|lia|done|..];
    rewrite !Hr, div_4096 by lia;
    replace (4096 * (k + Z.of_nat (length us)) - 4096 * k) with (4096 * Z.of_nat (length us)) by lia;
    rewrite div_4096, Nat2Z.id.
  - intros r w' (_ & s' & freed & -> & Hsh & Hcl & Hfr). exists s', (freed ++ l1). split; [done|].
    eapply grown_rollback; try done. rewrite Hfr. by erewrite grown_pages_of.
  - by eapply grown_leaves.
  - by eapply grown_freeable.
Qed.

Lemma memset_same_outside pg c m : same_outside pg m (memset m pg c PGSIZE).
Proof. intros x Hx. apply memset_rd_out. unfold in_page, PGSIZE in *. lia. Qed.

Lemma mapped_page k : 0 <= k -> (4096 * k + PGSIZE - 1) / 4096 - 4096 * k / 4096 + 1 = 1.
Proof.
  intros Hk. unfold PGSIZE. rewrite div_4096.
  replace ((4096 * k + 4096 - 1) / 4096) with k; [lia|].
  apply (Z.div_unique _ _ _ 4095); lia.
Qed.

(** One iteration of the loops of [uvmalloc] and [uvmcopy]. *)
Lemma wp_add_page root s l k perm data n us tabs l1 (fill : Z -> memory -> memory)
    (fail cont : M phys Z) (Q : Z -> world phys -> Prop) w :
  0 <= k -> perm_ok k perm n -> unmapped_range root s k n ->
  grown root s l k perm data (w_st w) us tabs l1 -> Z.of_nat (length us) < n ->
  4096 * (k + n) <= MAXVA -> L_kmem ∉ w_held w ->
  let i := k + Z.of_nat (length us) in
  (forall pg m, same_outside pg m (fill pg m)) ->
  (forall pg l2 s1, l1 = pg :: l2 -> free_page pg -> same_outside pg (p_mem (w_st w)) (p_mem s1) ->
     forall o, 0 <= o < 4096 -> rd (fill pg (p_mem s1)) (pg + o) = data i o) ->
  (forall s' tabs' l', grown root s l k perm data s' us tabs' l' -> wp fail Q (set_st s' w)) ->
  (forall s' pg tabs' l', grown root s l k perm data s' (us ++ [pg]) tabs' l' -> wp cont Q (set_st s' w)) ->
  wp (mem ← kalloc;
      if mem =? 0 then fail
      else
        modify (upd_mem (fill mem));;
        r ← mappages root (4096 * i) PGSIZE mem (perm i);
        if negb (r =? 0) then kfree mem;; fail else cont) Q w.
Proof.
  intros Hk Hperm Hun Hg Hn Hmax Hl i Hout Hfill Hfail Hcont. pose proof MAXVA_u64.
  eapply wp_bind, wp_kalloc; [apply Hg|done|..].
  { intros _. simpl. specialize (Hfail (w_st w) tabs l1 Hg). by destruct w. }
  intros pg l2 s1 El Hpg Hpgl Hk1 _ Hs1. pose proof (free_page_pos pg Hpg).
  rewrite (proj2 (Z.eqb_neq pg 0)) by lia. apply wp_bind, wp_modify.
  set (s2 := upd_mem (fill pg) (w_st (set_st s1 w))).
  assert (Hk2 : kmem_ok s2 l2) by (apply kmem_ok_write with pg; auto).
  assert (Hs2 : same_outside pg (p_mem (w_st w)) (p_mem s2)).
  { intros x Hx. unfold s2. simpl. rewrite Hout by done. by apply Hs1. }
  destruct (take_page root (w_st w) l1 pg l2 s2) as (Hok2 & _ & Hsame & _); [apply Hg|done..|].
  assert (Hpad : pg + 4096 * 1 <= 2 ^ 56).
  { pose proof (free_page_top pg Hpg). unfold PHYSTOP, KERNBASE in *. lia. }
  eapply wp_bind, wp_mono; [|apply (wp_mappages root (4096 * i) PGSIZE pg (perm i) l2)];
    [|exact Hok2|done|lia|done|unfold PGSIZE; lia|by apply free_page_addr|by rewrite mapped_page by lia
     |apply Hperm; lia|].
  2:{ rewrite mapped_page, div_4096 by lia. intros va Hva Hin. rewrite Hsame.
      rewrite (g_pte _ _ _ _ _ _ _ _ _ _ Hg) by done. rewrite decide_False by lia. apply Hun; lia. }
  rewrite mapped_page, div_4096 by lia.
  intros r w' (s3 & l3 & j & -> & Hx & Hmap & [[-> ->]|(-> & Hj & ->)]); simpl.
  - destruct (grown_map root s l k perm data (w_st w) us tabs l1 pg l2 s2 s3 l3) as [used Hg3]; try done.
    { intros o Ho. by eapply Hfill. }
    by eapply Hcont.
  - assert (j = 0) as -> by lia.
    eapply wp_bind, (wp_kfree pg []); [apply Hx|done|done|set_solver|].
    intros s4 Hk4 Hs4. eapply (Hfail s4). by eapply grown_fail.
Qed.

Lemma wp_uvmalloc_loop root s l k xperm newsz n : forall (m fuel : nat) us tabs l1 w,
  0 <= k -> 0 <= xperm < 1024 -> NoDup l -> unmapped_range root s k n ->
  let perm := fun _ => ualloc_perm xperm in
  let data := fun _ _ => 0 in
  grown root s l k perm data (w_st w) us tabs l1 ->
  Z.of_nat (length us) + Z.of_nat m = n -> 4096 * (k + n) <= MAXVA -> L_kmem ∉ w_held w ->
  newsz <= 4096 * (k + n) < newsz + 4096 \/ (m = 0%nat /\ newsz <= 4096 * (k + n)) -> (m < fuel)%nat ->
  wp (uvmalloc_loop fuel root (4096 * (k + Z.of_nat (length us))) (4096 * k) newsz xperm) (fun r w' =>
    exists s', w' = set_st s' w /\
      ((r = newsz /\ exists us' tabs' l', Z.of_nat (length us') = n /\ grown root s l k perm data s' us' tabs' l')
       \/ (r = 0 /\ exists tabs' l', rolled_back root s l k n s' tabs' l'))) w.
Proof.
  induction m as [|m IH]; intros [|fuel] us tabs l1 w Hk Hx Hnd Hun perm data Hg Hn Hmax Hl Hsz Hf; try lia;
    pose proof MAXVA_u64; cbn [uvmalloc_loop].
  { rewrite (proj2 (Z.ltb_ge _ _)) by lia. apply wp_ret. exists (w_st w). split; [by destruct w|].
    left. split; [done|]. exists us, tabs, l1. split; [lia|done]. }
  rewrite (proj2 (Z.ltb_lt _ _)) by lia.
  eapply (wp_add_page root s l k perm data n us tabs l1 (fun pg m => memset m pg 0 PGSIZE));
    [done|by apply ualloc_perm_ok|done|done|lia|done|done|intros; apply memset_same_outside|..].
  - intros. apply memset_rd_in. unfold PGSIZE. lia.
  - intros s' tabs' l' Hg'. eapply wp_bind, wp_mono;
      [|eapply (wp_rollback root s l k perm data n us tabs' l' (set_st s' w)); try done; [by apply ualloc_perm_ok|lia..]].
    intros _ w' (s2 & l2 & -> & Hr). apply wp_ret. exists s2. split; [done|]. right. eauto.
  - intros s' pg tabs' l' Hg'. unfold PGSIZE. rewrite u64_small by lia.
    replace (4096 * (k + Z.of_nat (length us)) + 4096) with (4096 * (k + Z.of_nat (length (us ++ [pg]))))
      by (rewrite length_app; simpl; lia).
    eapply wp_mono; [|eapply (IH fuel (us ++ [pg]) tabs' l' (set_st s' w)); try done;
      rewrite ?length_app; simpl; lia].
    done.
Qed.

Lemma wp_uvmalloc root oldsz newsz xperm l w :
  vm_ok (w_st w) root l -> L_kmem ∉ w_held w ->
  0 <= oldsz <= newsz -> newsz <= MAXVA -> 0 <= xperm < 1024 ->
  let k := PGROUNDUP oldsz / 4096 in
  let n := PGROUNDUP newsz / 4096 - k in
  unmapped_range root (w_st w) k n ->
  wp (uvmalloc root oldsz newsz xperm) (fun r w' => exists s', w' = set_st s' w /\
    ((r = newsz /\ exists us tabs l', Z.of_nat (length us) = n /\
        grown root (w_st w) l k (fun _ => ualloc_perm xperm) (fun _ _ => 0) s' us tabs l') \/
     (r = 0 /\ exists tabs l', rolled_back root (w_st w) l k n s' tabs l'))) w.
Proof.
  intros Hok Hl Hsz Hmax Hx k n Hun. pose proof MAXVA_u64. unfold uvmalloc.
  rewrite (proj2 (Z.ltb_ge _ _)) by lia.
  destruct (pgroundup_bounds oldsz) as [Ha1 Hb1]; [lia..|].
  destruct (pgroundup_bounds newsz) as [Ha2 Hb2]; [lia..|].
  pose proof (Z.div_mod (PGROUNDUP oldsz) 4096 ltac:(lia)). pose proof (Z.div_mod (PGROUNDUP newsz) 4096 ltac:(lia)).
  assert (HM : MAXVA = 4096 * 67108864) by done.
  assert (Hk : 0 <= k) by (unfold k; lia). assert (Hn : 0 <= n) by (unfold n, k; lia).
  assert (E : PGROUNDUP oldsz = 4096 * (k + Z.of_nat (length (@nil Z)))) by (simpl; unfold k; lia).
  assert (Hf : (Z.to_nat n < S (S (Z.to_nat ((newsz - PGROUNDUP oldsz) / PGSIZE))))%nat).
  { unfold n, k, PGSIZE in *.
    assert (PGROUNDUP newsz / 4096 - PGROUNDUP oldsz / 4096 - 1 <= (newsz - PGROUNDUP oldsz) / 4096); [|lia].
    apply Z.div_le_lower_bound; lia. }
  revert Hf. generalize (S (S (Z.to_nat ((newsz - PGROUNDUP oldsz) / PGSIZE)))). intros fuel Hf.
  rewrite E at 1. replace (PGROUNDUP oldsz) with (4096 * k) by (unfold k; lia).
  apply (wp_uvmalloc_loop root (w_st w) l k xperm newsz n (Z.to_nat n) fuel [] [] l w);
    [done|done|apply Hok|done|by apply grown_nil|simpl; lia|unfold n, k in *; lia|done| |done].
  unfold n, k in *. lia.
Qed.

(** ** uvmcopy *)

(** The pages of table [old] and the first [n] pages it maps are disjoint
    from table [new] and from the free pages. *)
Definition apart m (old new : Z) l (n : Z) : Prop :=
  (forall p t x, path_ok p -> node m old p = Some t -> in_page t x -> untouched m new l x) /\
  (forall i x, 0 <= i < n -> in_page (PTE2PA (pte_at m old (4096 * i))) x -> untouched m new l x).

Definition old_perm m (old : Z) (i : Z) : Z := PTE_FLAGS (pte_at m old (4096 * i)).
Definition old_data m (old : Z) (i o : Z) : Z := rd m (PTE2PA (pte_at m old (4096 * i)) + o).

Lemma PTE_FLAGS_range v : 0 <= PTE_FLAGS v < 1024.
Proof. rewrite PTE_FLAGS_eq. apply Z.mod_pos_bound. lia. Qed.

Lemma flags_valid v : is_set v PTE_V = true -> Z.lor (PTE_FLAGS v) PTE_V = PTE_FLAGS v.
Proof.
  unfold is_set, PTE_FLAGS, PTE_V. intros H%negb_true_iff%Z.eqb_neq.
  assert (Hb : Z.testbit v 0 = true).
  { destruct (Z.testbit v 0) eqn:E; [done|]. destruct H. apply Z.bits_inj'. intros i Hi.
    rewrite Z.land_spec, Z.bits_0. change (Z.shiftl 1 0) with (2 ^ 0).
    destruct (decide (i = 0)) as [->|]; [by rewrite E|].
    rewrite Z.pow2_bits_false by lia. by rewrite andb_false_r. }
  apply Z.bits_inj'. intros i Hi. rewrite Z.lor_spec, Z.land_spec.
  change (Z.shiftl 1 0) with (2 ^ 0). destruct (decide (i = 0)) as [->|]; [by rewrite Hb|].
  rewrite Z.pow2_bits_false by lia. by rewrite orb_false_r.
Qed.

Lemma old_perm_ok s old n : leaves old s 0 (Z.to_nat n) -> perm_ok 0 (old_perm (p_mem s) old) n.
Proof.
  intros Hlv i Hi. destruct (Hlv i) as [Hv Hf]; [lia|]. split; [apply PTE_FLAGS_range|].
  unfold old_perm. by rewrite flags_valid.
Qed.

Lemma wp_rollback_unmap root s l perm data n us tabs l1 w :
  perm_ok 0 perm n -> NoDup l -> unmapped_range root s 0 n ->
  grown root s l 0 perm data (w_st w) us tabs l1 -> Z.of_nat (length us) <= n ->
  4096 * Z.of_nat (length us) <= MAXVA -> L_kmem ∉ w_held w ->
  wp (uvmunmap root 0 (Z.of_nat (length us)) true) (fun _ w' =>
    exists s' l', w' = set_st s' w /\ rolled_back root s l 0 n s' tabs l') w.
Proof.
  intros Hperm Hnd Hun Hg Hn Hmax Hl.
  eapply wp_mono; [|apply (wp_uvmunmap root 0 (Z.of_nat (length us)) true l1)];
    [|apply Hg|done|done|done|lia|lia|..]; rewrite ?Nat2Z.id.
  - intros r w' (s' & freed & -> & Hsh & Hcl & Hfr). exists s', (freed ++ l1). split; [done|].
    eapply grown_rollback; try done. rewrite Hfr. erewrite grown_pages_of; done.
  - by eapply grown_leaves.
  - intros _. by eapply grown_freeable.
Qed.

Lemma apart_same_tables s s' old new l n l' us tabs perm data :
  apart (p_mem s) old new l n -> grown new s l 0 perm data s' us tabs l' ->
  same_tables (p_mem s) (p_mem s') old.
Proof. intros [Ha _] Hg p t x Hp Ht Hx. by eapply (g_rest _ _ _ _ _ _ _ _ _ _ Hg), Ha. Qed.

Lemma wp_uvmcopy_loop old new s l sz n : forall (m fuel : nat) us tabs l1 w,
  NoDup l -> pt_wf (p_mem s) old l -> apart (p_mem s) old new l n ->
  leaves old s 0 (Z.to_nat n) -> unmapped_range new s 0 n ->
  let perm := old_perm (p_mem s) old in
  let data := old_data (p_mem s) old in
  grown new s l 0 perm data (w_st w) us tabs l1 ->
  Z.of_nat (length us) + Z.of_nat m = n -> 4096 * n <= MAXVA -> L_kmem ∉ w_held w ->
  sz <= 4096 * n < sz + 4096 -> (m < fuel)%nat ->
  wp (uvmcopy_loop fuel old new (4096 * (0 + Z.of_nat (length us))) sz) (fun r w' =>
    exists s', w' = set_st s' w /\
      ((r = 0 /\ exists us' tabs' l', Z.of_nat (length us') = n /\ grown new s l 0 perm data s' us' tabs' l')
       \/ (r = -1 /\ exists tabs' l', rolled_back new s l 0 n s' tabs' l'))) w.
Proof.
  induction m as [|m IH]; intros [|fuel] us tabs l1 w Hnd Hwf Hap Hlv Hun perm data Hg Hn Hmax Hl Hsz Hf; try lia;
    pose proof MAXVA_u64; cbn [uvmcopy_loop].
  { rewrite (proj2 (Z.ltb_ge _ _)) by lia. apply wp_ret. exists (w_st w). split; [by destruct w|].
    left. split; [done|]. exists us, tabs, l1. split; [lia|done]. }
  rewrite (proj2 (Z.ltb_lt _ _)) by lia. set (i := 0 + Z.of_nat (length us)).
  pose proof (apart_same_tables _ _ _ _ _ _ _ _ _ _ _ Hap Hg) as Hst.
  assert (Hpte : pte_at (p_mem (w_st w)) old (4096 * i) = pte_at (p_mem s) old (4096 * i)) by (by apply pte_at_frame).
  destruct (Hlv i) as [Hv _]; [lia|]. rewrite <- Hpte in Hv.
  destruct (pte_at_leaf _ _ _ Hv) as (t & Ht & Hload).
  eapply wp_bind, wp_intro; [apply walk_ro; lia|]. rewrite Ht.
  assert (Htp : 0 < t).
  { apply free_page_pos. eapply (wf_page _ _ _ Hwf (leaf_path (4096 * i))); [apply leaf_path_ok|].
    rewrite <- (node_frame (p_mem s) (p_mem (w_st w))); [exact Ht|done|apply leaf_path_ok]. }
  pose proof (PX_range 0 (4096 * i) ltac:(lia)). rewrite (proj2 (Z.eqb_neq _ 0)) by lia.
  apply wp_bind, wp_load_pte. rewrite <- Hload, Hv, Hpte. cbn [negb]. cbv zeta.
  eapply (wp_add_page new s l 0 perm data n us tabs l1
    (fun pg mm => memmove mm pg (PTE2PA (pte_at (p_mem s) old (4096 * i))) PGSIZE));
    [done|by apply old_perm_ok|done|done|lia|lia|done|..].
  - intros pg mm x Hx. apply memmove_rd_out; [done|]. unfold in_page, PGSIZE in *. lia.
  - intros pg l2 s1 -> Hpg Hs1 o Ho. rewrite memmove_rd_in by (unfold PGSIZE; lia).
    assert (Hu : untouched (p_mem s) new l (PTE2PA (pte_at (p_mem s) old (4096 * i)) + o)).
    { apply (proj2 Hap i); [lia|]. unfold in_page. lia. }
    destruct (g_rest _ _ _ _ _ _ _ _ _ _ Hg _ Hu) as [E [_ Hfree]]. rewrite Hs1; [done|].
    apply Hfree. left.
  - intros s' tabs' l' Hg'.
    replace (4096 * i / PGSIZE) with (Z.of_nat (length us)) by (unfold PGSIZE; rewrite div_4096; lia).
    eapply wp_bind, wp_mono;
      [|eapply (wp_rollback_unmap new s l perm data n us tabs' l' (set_st s' w)); try done; [by apply old_perm_ok|lia..]].
    intros _ w' (s2 & l2 & -> & Hr). apply wp_ret. exists s2. split; [done|]. right. eauto.
  - intros s' pg tabs' l' Hg'. unfold PGSIZE. rewrite u64_small by lia.
    replace (4096 * i + 4096) with (4096 * (0 + Z.of_nat (length (us ++ [pg]))))
      by (rewrite length_app; simpl; lia).
    eapply wp_mono; [|eapply (IH fuel (us ++ [pg]) tabs' l' (set_st s' w)); try done;
      rewrite ?length_app; simpl; lia].
    done.
Qed.
End user.
