(* ===== verification/VmFree.v ===== *)
(** Freeing a page table: [freewalk] and [uvmfree] of kernel/vm.c return every
    page of the table, and every page it maps, to the allocator. *)

From S2P Require Import Prelude KMonad Kstring Riscv Kalloc Vm VmTable VmSpec VmUser.

(** ** The pages of a table

    [tree_pages m d t] lists the table pages below [t], with [d] levels of
    tables under it, children before their parent. *)

Definition entries : list Z := seqZ 0 512.

Fixpoint tree_pages (m : memory) (d : nat) (t : Z) : list Z :=
  match d with
  | O => []
  | S d' => concat (map (fun i => match child m t i with
                                  | Some c => tree_pages m d' c
                                  | None => []
                                  end) entries)
  end ++ [t].

(** The pages below the entries [js] of [t]. *)
Definition below (m : memory) (d : nat) (t : Z) (js : list Z) : list Z :=
  match d with
  | O => []
  | S d' => concat (map (fun i => match child m t i with
                                  | Some c => tree_pages m d' c
                                  | None => []
                                  end) js)
  end.

Lemma tree_pages_below m d t : tree_pages m d t = below m d t entries ++ [t].
Proof. by destruct d. Qed.

(** No page is mapped, and the entries that point to tables are as [walk]
    makes them. *)
Fixpoint empty_tree (m : memory) (d : nat) (t : Z) : Prop :=
  forall i, idx i -> is_set (load64 m (t + 8 * i)) PTE_V = true ->
    match d with
    | O => False
    | S d' => PTE_FLAGS (load64 m (t + 8 * i)) = PTE_V /\ empty_tree m d' (PTE2PA (load64 m (t + 8 * i)))
    end.

Lemma entries_idx i : i ∈ entries <-> idx i.
Proof. unfold entries, idx. rewrite elem_of_seqZ. lia. Qed.

Lemma entries_seq : seqZ 0 (Z.of_nat 512) = entries.
Proof. done. Qed.

Lemma entries_nodup : NoDup entries.
Proof. apply NoDup_seqZ. Qed.

#[global] Opaque entries.

Lemma below_cons m d t i js :
  below m (S d) t (i :: js) =
  match child m t i with Some c => tree_pages m d c | None => [] end ++ below m (S d) t js.
Proof. done. Qed.

(** Memories that agree on the pages of a tree have the same tree. *)
Lemma tree_frame m m' d : forall t,
  (forall q x, q ∈ tree_pages m d t -> in_page q x -> rd m' x = rd m x) ->
  tree_pages m' d t = tree_pages m d t /\ (empty_tree m d t -> empty_tree m' d t).
Proof.
  induction d as [|d IH]; intros t Hs.
  - assert (Hl : forall i, idx i -> load64 m' (t + 8 * i) = load64 m (t + 8 * i)).
    { intros i Hi. apply load_entry_ext; [done|]. intros x. apply Hs. simpl. left. }
    split; [done|]. intros He i Hi. rewrite Hl by done. by apply He.
  - assert (Hl : forall i, idx i -> load64 m' (t + 8 * i) = load64 m (t + 8 * i)).
    { intros i Hi. apply load_entry_ext; [done|]. intros x. apply Hs.
      rewrite tree_pages_below. apply elem_of_app. right. left. }
    assert (Hsub : forall i c, idx i -> child m t i = Some c ->
      forall q x, q ∈ tree_pages m d c -> in_page q x -> rd m' x = rd m x).
    { intros i c Hi Hc q x Hq. apply Hs. cbn [tree_pages]. apply elem_of_app. left.
      apply list_elem_of_In, in_concat. exists (tree_pages m d c). split; [|by apply list_elem_of_In].
      apply in_map_iff. exists i. rewrite Hc. split; [done|]. by apply list_elem_of_In, entries_idx. }
    split.
    + cbn [tree_pages]. f_equal. f_equal. apply map_ext_in. intros i Hi%list_elem_of_In%entries_idx.
      assert (Hc : child m' t i = child m t i) by (unfold child; by rewrite Hl).
      rewrite Hc. destruct (child m t i) as [c|] eqn:E; [|done]. by apply IH, (Hsub i).
    + intros He i Hi. rewrite Hl by done. intros Hset. destruct (He i Hi Hset) as [Hf He'].
      split; [done|]. apply IH; [|done]. apply (Hsub i); [done|]. unfold child. by rewrite Hset.
Qed.

(** The pages of the tree are the nodes of the table. *)
Lemma elem_of_tree_pages m d : forall t q,
  q ∈ tree_pages m d t <-> exists p, (length p <= d)%nat /\ Forall idx p /\ node m t p = Some q.
Proof.
  induction d as [|d IH]; intros t q.
  - cbn [tree_pages app]. rewrite list_elem_of_singleton. split.
    + intros ->. by exists [].
    + intros ([|i p] & Hl & _ & Hn); [by injection Hn|]. simpl in Hl. lia.
  - rewrite tree_pages_below, elem_of_app, list_elem_of_singleton. cbn [below].
    rewrite list_elem_of_In, in_concat. split.
    + intros [(ps & Hps & Hq)| ->]; [|by exists []; repeat split; [simpl; lia|done]].
      apply in_map_iff in Hps as (i & <- & Hi%list_elem_of_In%entries_idx).
      destruct (child m t i) as [c|] eqn:Hc; [|by destruct Hq].
      apply list_elem_of_In, IH in Hq as (p & Hl & Hp & Hn). exists (i :: p).
      simpl. rewrite Hc. split; [lia|]. by split; [constructor|].
    + intros ([|i p] & Hl & Hp & Hn); [right; by injection Hn|]. left. simpl in *.
      apply Forall_cons_1 in Hp as [Hi Hp]. destruct (child m t i) as [c|] eqn:Hc; [|done].
      exists (tree_pages m d c). split.
      * apply in_map_iff. exists i. rewrite Hc. split; [done|]. by apply list_elem_of_In, entries_idx.
      * apply list_elem_of_In, IH. exists p. split; [lia|done].
Qed.

(** Reached by one path each, they are distinct. *)
Lemma tree_pages_nodup m d : forall t,
  (forall p q u, (length p <= d)%nat -> (length q <= d)%nat -> Forall idx p -> Forall idx q ->
     node m t p = Some u -> node m t q = Some u -> p = q) ->
  NoDup (tree_pages m d t).
Proof.
  induction d as [|d IH]; intros t Hinj; [apply NoDup_singleton|].
  assert (Hjs : forall js, NoDup js -> (forall j, j ∈ js -> idx j) -> NoDup (below m (S d) t js)).
  { induction js as [|j js IHj]; intros Hnd Hidx; [constructor|].
    apply NoDup_cons in Hnd as [Hjn Hnd]. rewrite below_cons.
    assert (Hj : idx j) by (apply Hidx; left).
    assert (Hrest : NoDup (below m (S d) t js)) by (apply IHj; [done|]; intros k Hk; apply Hidx; by right).
    destruct (child m t j) as [c|] eqn:Hc; [|done].
    apply NoDup_app. split; [|split; [|done]].
    - apply IH. intros p q u Hp Hq Hip Hiq Hnp Hnq.
      assert (j :: p = j :: q); [|congruence].
      apply (Hinj _ _ u); simpl; [lia|lia|by constructor|by constructor|by rewrite Hc..].
    - intros x (p & Hl & Hp & Hn)%elem_of_tree_pages Hx.
      apply list_elem_of_In, in_concat in Hx as (ps & Hps & Hx).
      apply in_map_iff in Hps as (k & <- & Hk%list_elem_of_In).
      destruct (child m t k) as [c'|] eqn:Hc'; [|by destruct Hx].
      apply list_elem_of_In, elem_of_tree_pages in Hx as (q & Hlq & Hq & Hnq).
      assert (Heq : j :: p = k :: q).
      { apply (Hinj _ _ x); simpl; [lia|lia|by constructor| |by rewrite Hc|by rewrite Hc'].
        constructor; [apply Hidx; by right|done]. }
      injection Heq as -> _. done. }
  rewrite tree_pages_below. apply NoDup_app. split; [|split; [|apply NoDup_singleton]].
  - apply Hjs; [apply entries_nodup|]. intros j. apply entries_idx.
  - intros x Hx ->%list_elem_of_singleton.
    apply list_elem_of_In, in_concat in Hx as (ps & Hps & Hx).
    apply in_map_iff in Hps as (k & <- & Hk%list_elem_of_In%entries_idx).
    destruct (child m t k) as [c'|] eqn:Hc'; [|by destruct Hx].
    apply list_elem_of_In, elem_of_tree_pages in Hx as (q & Hlq & Hq & Hnq).
    assert (Heq : k :: q = []); [|done].
    apply (Hinj _ _ t); simpl; [lia|lia|by constructor|done|by rewrite Hc'|done].
Qed.

Section free.
Context {sy : Symbols} {syok : SymbolsOk sy}.
Implicit Types (s : phys) (m : memory) (root t : Z) (l : list Z) (w : world phys).

Lemma inner_not_leaf v : PTE_FLAGS v = PTE_V -> Z.land v (Z.lor (Z.lor PTE_R PTE_W) PTE_X) = 0.
Proof.
  unfold PTE_FLAGS. intros H.
  change (Z.lor (Z.lor PTE_R PTE_W) PTE_X) with (Z.land 1023 14).
  rewrite Z.land_assoc. change 1023 with 0x3FF. rewrite H. done.
Qed.

(** What freeing the pages [ps] does; [also] is a page it may write too. *)
Definition freed_pages (ps : list Z) l (also : Z) (w w' : world phys) : Prop :=
  exists s' l', w' = set_st s' w /\ kmem_ok s' l' /\ l' ≡ₚ ps ++ l /\
    forall x, (forall q, q ∈ ps -> ~ in_page q x) -> ~ in_page also x ->
      rd (p_mem s') x = rd (p_mem (w_st w)) x.

(** The pages below the entries [js] of [t] and what they hold do not change
    when other pages and other entries do. *)
Lemma below_frame m m2 d t (js : list Z) :
  (forall j, j ∈ js -> load64 m2 (t + 8 * j) = load64 m (t + 8 * j)) ->
  (forall q x, q ∈ below m (S d) t js -> in_page q x -> rd m2 x = rd m x) ->
  below m2 (S d) t js = below m (S d) t js /\
  forall j, j ∈ js -> is_set (load64 m (t + 8 * j)) PTE_V = true ->
    empty_tree m d (PTE2PA (load64 m (t + 8 * j))) -> empty_tree m2 d (PTE2PA (load64 m (t + 8 * j))).
Proof.
  intros Hent Hpg.
  assert (Hsub : forall j c, j ∈ js -> child m t j = Some c ->
    tree_pages m2 d c = tree_pages m d c /\ (empty_tree m d c -> empty_tree m2 d c)).
  { intros j c Hj Hc. apply tree_frame. intros q x Hq. apply Hpg.
    apply list_elem_of_In, in_concat. exists (tree_pages m d c).
    split; [|by apply list_elem_of_In]. apply in_map_iff. exists j. rewrite Hc. split; [done|].
    by apply list_elem_of_In. }
  split.
  - unfold below. f_equal. apply map_ext_in. intros j Hj%list_elem_of_In.
    assert (E : child m2 t j = child m t j) by (unfold child; by rewrite Hent).
    rewrite E. destruct (child m t j) as [c|] eqn:Ec; [|done]. by apply (Hsub j).
  - intros j Hj Hset. apply (Hsub j); [done|]. unfold child. by rewrite Hset.
Qed.

(** The store of 0 to entry [i] after the pages [pc] below it are freed. *)
Lemma freed_store s1 (pc l : list Z) (c t i : Z) w w1 :
  freed_pages pc l c w w1 -> c ∈ pc -> Forall free_page pc -> free_page t -> (t ∉ pc) -> (t ∉ l) -> idx i ->
  s1 = upd_mem (fun m => store64 m (t + 8 * i) 0) (w_st w1) ->
  w1 = set_st (w_st w1) w /\ (exists l1, kmem_ok s1 l1 /\ l1 ≡ₚ pc ++ l) /\
  (forall x, (forall q, q ∈ pc -> ~ in_page q x) -> ~ in_page t x -> rd (p_mem s1) x = rd (p_mem (w_st w)) x) /\
  (forall j, idx j -> j <> i -> load64 (p_mem s1) (t + 8 * j) = load64 (p_mem (w_st w)) (t + 8 * j)).
Proof.
  intros (s & l1 & -> & Hk & Hl & Hf) Hc Hfp Ht Htpc Htl Hi ->. cbn [w_st set_st].
  rewrite Forall_forall in Hfp.
  assert (Hrd : forall x, (forall q, q ∈ pc -> ~ in_page q x) -> rd (p_mem s) x = rd (p_mem (w_st w)) x).
  { intros x Hx. apply Hf; [done|by apply Hx]. }
  split; [done|]. split; [|split].
  - exists l1. split; [|done]. apply kmem_ok_write with t; [done|done| |].
    + rewrite Hl, elem_of_app. by intros [|].
    + intros m x Hx. by apply rd_store_entry.
  - intros x Hx Htx. simpl. rewrite rd_store_entry by done. by apply Hrd.
  - intros j Hj Hne. simpl. rewrite load_store_entry by (done || apply Ht).
    rewrite decide_False by naive_solver. apply load_entry_ext; [done|]. intros x Hx. apply Hrd.
    intros q Hq Hx'. apply Htpc. replace t with q; [done|].
    apply (aligned_disjoint q t x); [by apply Hfp|apply Ht|done..].
Qed.

Lemma wp_freewalk_loop d (rec : Z -> M phys ()) t :
  free_page t ->
  (forall c l w, kmem_ok (w_st w) l -> L_kmem ∉ w_held w ->
     Forall free_page (tree_pages (p_mem (w_st w)) d c) -> NoDup (tree_pages (p_mem (w_st w)) d c ++ l) ->
     empty_tree (p_mem (w_st w)) d c ->
     wp (rec c) (fun _ => freed_pages (tree_pages (p_mem (w_st w)) d c) l c w) w) ->
  forall n i l w, 0 <= i -> i + Z.of_nat n <= 512 ->
  let m := p_mem (w_st w) in
  let ps := below m (S d) t (seqZ i (Z.of_nat n)) in
  kmem_ok (w_st w) l -> L_kmem ∉ w_held w -> Forall free_page ps -> NoDup (t :: ps ++ l) ->
  (forall j, i <= j < i + Z.of_nat n -> is_set (load64 m (t + 8 * j)) PTE_V = true ->
     PTE_FLAGS (load64 m (t + 8 * j)) = PTE_V /\ empty_tree m d (PTE2PA (load64 m (t + 8 * j)))) ->
  wp (freewalk_loop rec n t i) (fun _ => freed_pages ps l t w) w.
Proof.
  intros Ht Hrec. induction n as [|n IH]; intros i l w Hi0 Hi1 m ps Hk Hl Hfp Hnd He;
    cbn [freewalk_loop].
  { apply wp_ret. exists (w_st w), l. split; [by destruct w|]. done. }
  assert (Hi : idx i) by (unfold idx; lia). set (pr := below m (S d) t (seqZ (i + 1) (Z.of_nat n))).
  assert (Hps : ps = match child m t i with Some c => tree_pages m d c | None => [] end ++ pr).
  { unfold ps, pr. rewrite seqZ_cons by lia. rewrite below_cons. do 3 f_equal; lia. }
  apply wp_bind, wp_load_pte. fold m. unfold child in Hps.
  destruct (is_set (load64 m (t + 8 * i)) PTE_V) eqn:Ev; cbn [andb].
  2:{ simpl in Hps. rewrite Hps in *. apply IH; try done; try lia. intros j Hj. apply He. lia. }
  destruct (He i) as [Hfl Hee]; [lia|done|]. set (c := PTE2PA (load64 m (t + 8 * i))) in *.
  set (pc := tree_pages m d c) in *. rewrite inner_not_leaf by done. cbn [Z.eqb]. rewrite Hps in *.
  apply Forall_app in Hfp as [Hfc Hfr].
  assert (Hnd' : NoDup (t :: pr ++ pc ++ l)).
  { eapply NoDup_Permutation_proper; [|exact Hnd]. solve_Permutation. }
  apply NoDup_cons in Hnd' as [Htn Hnd']. rewrite !elem_of_app in Htn.
  assert (Hdis := Hnd'). apply NoDup_app in Hdis as (_ & Hdis & Hndc).
  eapply wp_bind, wp_mono; [|by apply (Hrec c l w)].
  intros [] w1 Hw1. apply wp_bind, wp_store_pte.
  remember (upd_mem (fun m => store64 m (t + 8 * i) 0) (w_st w1)) as s1 eqn:Es1.
  assert (Hcpc : c ∈ pc) by (unfold pc; rewrite tree_pages_below; apply elem_of_app; right; left).
  destruct (freed_store s1 pc l c t i w w1) as (Ew1 & (l1 & Hk1 & Hl1) & Hrd & Hent); try done; try tauto.
  destruct (below_frame m (p_mem s1) d t (seqZ (i + 1) (Z.of_nat n))) as [Hb Hem].
  { intros j Hj%elem_of_seqZ. apply Hent; unfold idx; lia. }
  { intros q x Hq Hx. rewrite Forall_forall in Hfr, Hfc. destruct (Hfr q Hq) as [Hqa _]. apply Hrd.
    - intros q' Hq' Hx'. apply (Hdis q Hq), elem_of_app. left.
      replace q with q'; [done|]. apply (aligned_disjoint q' q x); [by apply Hfc|done..].
    - intros Hx'. assert (q = t) by (apply (aligned_disjoint q t x); [done|apply Ht|done..]).
      subst q. tauto. }
  fold pr in Hb. rewrite Ew1. unfold set_st at 1. cbn [w_me w_held w_evs set_st]. fold (set_st s1 w).
  eapply wp_mono; [|apply (IH (i + 1) l1 (set_st s1 w)); cbn [w_st set_st]; rewrite ?Hb; try done; try lia].
  - intros [] w' (s' & l' & -> & Hk' & Hl' & Hf'). cbn [w_st set_st] in *. rewrite Hb in *.
    exists s', l'. split; [done|]. split; [done|]. split; [rewrite Hl', Hl1; solve_Permutation|].
    intros x Hx Htx. rewrite Hf'; [apply Hrd; [|done]| |done]; intros q Hq; apply Hx, elem_of_app; tauto.
  - apply NoDup_cons. rewrite Hl1, !elem_of_app. split; [tauto|done].
  - intros j Hj. rewrite Hent by (unfold idx; lia). intros Hset. destruct (He j) as [Hf' He']; [lia|done|].
    split; [done|]. apply Hem; [apply elem_of_seqZ; lia|done..].
Qed.

(** A leaf table without entries. *)
Lemma wp_freewalk_loop_leaf rec t : forall n i w, 0 <= i -> i + Z.of_nat n <= 512 ->
  (forall j, idx j -> is_set (load64 (p_mem (w_st w)) (t + 8 * j)) PTE_V = false) ->
  wp (freewalk_loop rec n t i) (fun _ w' => w' = w) w.
Proof.
  induction n as [|n IH]; intros i w Hi0 Hi1 He; cbn [freewalk_loop]; [done|].
  apply wp_bind, wp_load_pte. rewrite He by (unfold idx; lia). cbn [andb]. apply IH; [lia..|done].
Qed.

Lemma freewalk_S d t : freewalk (S d) t = (freewalk_loop (freewalk d) 512 t 0;; kfree t).
Proof. done. Qed.

Lemma wp_freewalk d : forall t l w,
  kmem_ok (w_st w) l -> L_kmem ∉ w_held w ->
  Forall free_page (tree_pages (p_mem (w_st w)) d t) -> NoDup (tree_pages (p_mem (w_st w)) d t ++ l) ->
  empty_tree (p_mem (w_st w)) d t ->
  wp (freewalk (S d) t) (fun _ => freed_pages (tree_pages (p_mem (w_st w)) d t) l t w) w.
Proof.
  induction d as [|d IH]; intros t l w Hk Hl Hfp Hnd He; rewrite freewalk_S.
  - eapply wp_bind, wp_mono; [|apply wp_freewalk_loop_leaf; [lia|lia|]].
    + intros [] w' ->. cbn in Hfp, Hnd. apply NoDup_cons in Hnd as [Htl _]. apply Forall_cons_1 in Hfp as [Ht _].
      apply (wp_kfree t l); [done..|]. intros s' Hk' Hout. exists s', (t :: l).
      split; [done|]. split; [done|]. split; [done|]. intros x _ Hx. by apply Hout.
    + intros j Hj. destruct (is_set _ _) eqn:E; [|done]. by destruct (He j Hj E).
  - rewrite tree_pages_below in *. remember (below (p_mem (w_st w)) (S d) t entries) as ps eqn:Eps.
    apply Forall_app in Hfp as [Hfp Ht]. apply Forall_cons_1 in Ht as [Htp _].
    assert (Hnd' : NoDup (t :: ps ++ l)).
    { eapply NoDup_Permutation_proper; [|exact Hnd]. rewrite <- app_assoc. apply Permutation_middle. }
    assert (Htn : t ∉ ps ++ l) by (by apply NoDup_cons in Hnd' as [? _]).
    pose proof (wp_freewalk_loop d (freewalk (S d)) t Htp IH 512 0 l w) as Hloop.
    cbv zeta in Hloop. rewrite entries_seq, <- Eps in Hloop.
    eapply wp_bind, wp_mono; [|apply Hloop; [lia|lia|done..|]]; clear Hloop.
    + intros [] w1 (s1 & l1 & -> & Hk1 & Hl1 & Hf1). apply (wp_kfree t l1); [done|done|done|by rewrite Hl1|].
      intros s' Hk' Hout. exists s', (t :: l1). split; [done|]. split; [done|].
      split; [rewrite Hl1, <- app_assoc; apply Permutation_middle|].
      intros x Hx Htx. cbn [w_st set_st] in Hout. rewrite Hout by done.
      apply Hf1; [|done]. intros q Hq. apply Hx, elem_of_app. by left.
    + intros j Hj. apply He. unfold idx. lia.
Qed.

(** ** The pages of a well-formed table *)

Definition table_pages m root : list Z := tree_pages m 2 root.

Lemma table_pages_spec m root t : t ∈ table_pages m root <-> table_page m root t.
Proof.
  unfold table_pages, table_page, path_ok. rewrite elem_of_tree_pages. naive_solver.
Qed.

Lemma table_pages_free s root l :
  vm_ok s root l -> Forall free_page (table_pages (p_mem s) root) /\ NoDup (table_pages (p_mem s) root ++ l).
Proof.
  intros [[_ Hnd] Hwf]. split.
  - apply Forall_forall. intros t (p & Hp & Hn)%table_pages_spec. by eapply (wf_page _ _ _ Hwf).
  - apply NoDup_app. split; [|split; [|done]].
    + apply tree_pages_nodup. intros p q u Hp Hq Hip Hiq. by apply (wf_inj _ _ _ Hwf).
    + intros t (p & Hp & Hn)%table_pages_spec. by eapply (wf_page _ _ _ Hwf).
Qed.

(** The address of three indices. *)
Lemma va_of_indices i2 i1 i0 :
  idx i2 -> i2 < 256 -> idx i1 -> idx i0 ->
  exists va, 0 <= va < MAXVA /\ leaf_path va = [i2; i1] /\ PX 0 va = i0.
Proof.
  unfold idx. intros H2 Hh H1 H0. exists (((i2 * 512 + i1) * 512 + i0) * 4096).
  change MAXVA with 274877906944. split; [lia|]. unfold leaf_path. rewrite !PX_eq by lia.
  change (2 ^ (12 + 9 * 2)) with (4096 * 512 * 512). change (2 ^ (12 + 9 * 1)) with (4096 * 512).
  change (2 ^ (12 + 9 * 0)) with 4096. rewrite <- !Z.div_div, !Z.div_mul by lia.
  rewrite (Z.div_add_l _ 512 i0), (Z.div_small i0), Z.add_0_r by lia.
  rewrite (Z.div_add_l _ 512 i1), (Z.div_small i1), Z.add_0_r by lia.
  rewrite (Z.mod_small i2) by lia. rewrite !(Z.add_comm _ i1), !(Z.add_comm _ i0), !Z.mod_add by lia.
  by rewrite !Z.mod_small by lia.
Qed.

(** A well-formed table that maps nothing. *)
Lemma table_empty s root l :
  vm_ok s root l -> unmapped_range root s 0 (MAXVA / 4096) -> empty_tree (p_mem s) 2 root.
Proof.
  intros [_ Hwf] Hun i2 Hi2 Hv2.
  assert (Hc2 : child (p_mem s) root i2 = Some (PTE2PA (load64 (p_mem s) (root + 8 * i2))))
    by (unfold child; by rewrite Hv2).
  split; [by apply (wf_inner _ _ _ Hwf [] root); [apply path_ok_nil|simpl; lia|..]|].
  set (t1 := PTE2PA (load64 (p_mem s) (root + 8 * i2))) in *. intros i1 Hi1 Hv1.
  assert (Hc1 : child (p_mem s) t1 i1 = Some (PTE2PA (load64 (p_mem s) (t1 + 8 * i1))))
    by (unfold child; by rewrite Hv1).
  split.
  { apply (wf_inner _ _ _ Hwf [i2] t1); simpl; [|lia|done|by rewrite Hc2|done].
    split; [simpl; lia|by constructor]. }
  set (t0 := PTE2PA (load64 (p_mem s) (t1 + 8 * i1))) in *. intros i0 Hi0 Hv0.
  destruct (va_of_indices i2 i1 i0) as (va & Hva & Hp & Hx); [done|by eapply (wf_half _ _ _ Hwf)|done..|].
  assert (Hf : is_set (pte_at (p_mem s) root va) PTE_V = false).
  { apply Hun; [done|]. split; [apply Z.div_pos; lia|]. apply Z.div_lt_upper_bound; [lia|].
    change MAXVA with 274877906944 in *. change (274877906944 / 4096) with 67108864. lia. }
  unfold pte_at, leaf_table in Hf. rewrite Hp, Hx in Hf. cbn [node] in Hf. rewrite Hc2 in Hf.
  cbn [node] in Hf. rewrite Hc1 in Hf. congruence.
Qed.

(** ** uvmfree *)

Lemma wp_uvmfree root sz l w :
  vm_ok (w_st w) root l -> L_kmem ∉ w_held w -> 0 <= sz <= MAXVA ->
  let n := PGROUNDUP sz / 4096 in
  let m := p_mem (w_st w) in
  leaves root (w_st w) 0 (Z.to_nat n) -> freeable root (w_st w) l 0 (Z.to_nat n) ->
  unmapped_range root (w_st w) n (MAXVA / 4096 - n) ->
  wp (uvmfree root sz) (fun _ w' => exists s' l', w' = set_st s' w /\ kmem_ok s' l' /\
    l' ≡ₚ table_pages m root ++ pages_of m root 0 (Z.to_nat n) ++ l /\
    forall x, (forall q, q ∈ l' -> ~ in_page q x) -> rd (p_mem s') x = rd m x) w.
Proof.
  intros Hok Hl Hsz n m Hlv Hfr Hun. pose proof MAXVA_u64. unfold uvmfree.
  destruct (pgroundup_bounds sz) as [Hal Hb]; [lia..|].
  pose proof (Z.div_mod (PGROUNDUP sz) 4096 ltac:(lia)) as Hdm.
  assert (Hn : 0 <= n) by (apply Z.div_pos; lia).
  assert (Hfree : forall s1 freed, shrink root (w_st w) l s1 freed -> cleared root (w_st w) s1 0 n ->
    freed ≡ₚ pages_of m root 0 (Z.to_nat n) ->
    wp (freewalk 3 root) (fun _ w' => exists s' l', w' = set_st s' w /\ kmem_ok s' l' /\
      l' ≡ₚ table_pages m root ++ pages_of m root 0 (Z.to_nat n) ++ l /\
      forall x, (forall q, q ∈ l' -> ~ in_page q x) -> rd (p_mem s') x = rd m x) (set_st s1 w)).
  { intros s1 freed Hsh Hcl Hpg. destruct (table_pages_free s1 root (freed ++ l)) as [Hfp Hnd]; [apply Hsh|].
    eapply wp_mono; [|apply (wp_freewalk 2 root (freed ++ l) (set_st s1 w)); [apply Hsh|done..|]].
    - intros [] w' (s' & l' & -> & Hk' & Hl' & Hfr'). exists s', l'. split; [done|]. split; [done|]. split.
      2:{ intros x Hx. rewrite Hfr'; [apply (k_rest _ _ _ _ _ Hsh); split| |].
          - intros p t Hp Ht. apply Hx. rewrite Hl'. apply elem_of_app. left. change (t ∈ table_pages (p_mem s1) root).
            apply table_pages_spec. exists p. split; [done|]. by rewrite (k_node _ _ _ _ _ Hsh).
          - intros q Hq. apply Hx. rewrite Hl'. apply elem_of_app. by right.
          - intros q Hq. apply Hx. rewrite Hl'. apply elem_of_app. by left.
          - apply Hx. rewrite Hl'. apply elem_of_app. left. change (root ∈ table_pages (p_mem s1) root).
            apply table_pages_spec. exists []. split; [apply path_ok_nil|done]. }
      rewrite Hl', Hpg. apply Permutation_app_tail. apply NoDup_Permutation.
      + by apply NoDup_app in Hnd as [? _].
      + pose proof (proj2 (table_pages_free _ _ _ Hok)) as Hnd0. by apply NoDup_app in Hnd0 as [? _].
      + intros t. change (t ∈ table_pages (p_mem s1) root <-> t ∈ table_pages m root).
        rewrite !table_pages_spec. unfold table_page.
        split; intros (p & Hp & Ht); exists p; (split; [done|]);
          [by rewrite <- (k_node _ _ _ _ _ Hsh)|by rewrite (k_node _ _ _ _ _ Hsh)].
    - apply (table_empty s1 root (freed ++ l)); [apply Hsh|]. intros va Hva Hin.
      rewrite Hcl by done. case_decide; [apply is_set_0|]. apply Hun; [done|lia]. }
  destruct (Z.gtb_spec sz 0) as [Hpos|Hz].
  - eapply wp_bind, wp_mono; [|apply (wp_uvmunmap root 0 n true l); try done].
    + intros [] w' (s1 & freed & -> & Hsh & Hcl & Hpg). by eapply Hfree.
    + change MAXVA with (4096 * 67108864) in *. lia.
  - assert (n = 0) as Hn0 by (unfold n; assert (sz = 0) as -> by lia; done).
    apply wp_bind, wp_ret. specialize (Hfree (w_st w) []). rewrite Hn0 in *.
    destruct w as [me h ev st]. apply Hfree; [by split| |done].
    intros va Hva. by rewrite decide_False by lia.
Qed.
End free.
