(* ===== verification/VmCopy.v ===== *)
(** Copying between the kernel and user memory: [copyin], [copyout] and
    [copyinstr] of kernel/vm.c work page by page; they agree with reading and
    writing user memory byte by byte. *)

From S2P Require Import Prelude KMonad Kstring Riscv Kalloc Vm VmTable VmSpec VmUser.

(** ** User memory, byte by byte

    The physical address of the user byte at [va]: its page must be below
    [MAXVA], valid, and accessible in user mode. *)

Definition upage (m : memory) (root va : Z) : Z :=
  if va >=? MAXVA then 0
  else
    let v := pte_at m root va in
    if is_set v PTE_V && is_set v PTE_U then PTE2PA v else 0.

Definition ubyte (m : memory) (root va : Z) : option Z :=
  let pa0 := upage m root va in
  if pa0 =? 0 then None else Some (pa0 + va mod 4096).

Fixpoint uread (m : memory) (root va : Z) (n : nat) : option (list Z) :=
  match n with
  | O => Some []
  | S n' => pa ← ubyte m root va; bs ← uread m root (va + 1) n'; Some (rd m pa :: bs)
  end.

(** A string of at most [max] bytes, its terminating NUL included. *)
Fixpoint ustring (m : memory) (root va : Z) (max : nat) : option (list Z) :=
  match max with
  | O => None
  | S max' =>
      pa ← ubyte m root va;
      if rd m pa =? 0 then Some [0]
      else bs ← ustring m root (va + 1) max'; Some (rd m pa :: bs)
  end.

Lemma uread_app m root n1 : forall va n2,
  uread m root va (n1 + n2) =
  (b1 ← uread m root va n1; b2 ← uread m root (va + Z.of_nat n1) n2; Some (b1 ++ b2)).
Proof.
  induction n1 as [|n1 IH]; intros va n2; cbn [uread Nat.add].
  - rewrite Z.add_0_r. cbn. by destruct (uread m root va n2).
  - destruct (ubyte m root va) as [pa|]; [|done]. cbn. rewrite IH.
    replace (va + 1 + Z.of_nat n1) with (va + Z.of_nat (S n1)) by lia.
    destruct (uread m root (va + 1) n1); [|done]. cbn. by destruct (uread m root _ n2).
Qed.

Section copy.
Context {sy : Symbols} {syok : SymbolsOk sy}.
Implicit Types (s : phys) (m : memory) (root va : Z) (w : world phys).

Lemma same_page_pte m root va va' :
  0 <= va < MAXVA -> 0 <= va' < MAXVA -> va' / 4096 = va / 4096 -> pte_at m root va' = pte_at m root va.
Proof.
  intros Hva Hva' Hp. destruct (proj2 (same_page_iff va va' Hva Hva') Hp) as [H1 H2].
  unfold pte_at, leaf_table. by rewrite H1, H2.
Qed.

Lemma same_page_upage m root va va' :
  0 <= va -> 0 <= va' -> va' / 4096 = va / 4096 -> upage m root va' = upage m root va.
Proof.
  intros Hva Hva' Hp. unfold upage.
  pose proof (Z.div_mod va 4096 ltac:(lia)). pose proof (Z.div_mod va' 4096 ltac:(lia)).
  pose proof (Z.mod_pos_bound va 4096 ltac:(lia)). pose proof (Z.mod_pos_bound va' 4096 ltac:(lia)).
  assert (HM : MAXVA = 4096 * 67108864) by done.
  destruct (Z.geb_spec va MAXVA), (Z.geb_spec va' MAXVA); try done; try lia.
  by rewrite (same_page_pte m root va va') by lia.
Qed.

(** Every page of the table but the missing ones is at a positive address. *)
Definition tables_pos m root : Prop :=
  forall va t, leaf_table m root va = Some t -> 0 < t.

Lemma wf_tables_pos m root l : pt_wf m root l -> tables_pos m root.
Proof.
  intros Hwf va t Ht. apply free_page_pos. eapply (wf_page _ _ _ Hwf); [apply leaf_path_ok|exact Ht].
Qed.

Lemma walkaddr_eq root va w :
  tables_pos (p_mem (w_st w)) root -> 0 <= va ->
  walkaddr root va w = Ok (upage (p_mem (w_st w)) root va) w.
Proof.
  intros Hpos Hva. unfold walkaddr, upage. destruct (Z.geb_spec va MAXVA) as [|Hlt]; [done|].
  unfold mbind at 1, M_bind at 1. rewrite walk_ro by lia. unfold pte_at.
  destruct (leaf_table (p_mem (w_st w)) root va) as [t|] eqn:Ht.
  - pose proof (Hpos va t Ht). pose proof (PX_range 0 va ltac:(lia)).
    rewrite (proj2 (Z.eqb_neq _ 0)) by lia.
    unfold load_pte, gets, mbind, M_bind. set (v := load64 _ _).
    by destruct (is_set v PTE_V), (is_set v PTE_U).
  - rewrite !is_set_0. done.
Qed.

(** The part of a copy that falls in the page of [va]. *)
Definition in_page_len va (len : Z) : Z :=
  let n := PGSIZE - (va - PGROUNDDOWN va) in if n >? len then len else n.

Lemma in_page_len_spec va len :
  0 <= va < 2 ^ 64 -> 0 < len ->
  let n := in_page_len va len in
  PGROUNDDOWN va = va - va mod 4096 /\ 0 < n <= len /\ va mod 4096 + n <= 4096 /\
  (n < len -> PGROUNDDOWN va + PGSIZE = va + n).
Proof.
  intros Hva Hlen. unfold in_page_len, PGSIZE. rewrite pgrounddown_eq by lia.
  pose proof (Z.mod_pos_bound va 4096 ltac:(lia)).
  destruct (Z.gtb_spec (4096 - (va - (va - va mod 4096))) len); lia.
Qed.

Lemma in_page_ubyte m root va o :
  0 <= va -> 0 <= o -> va mod 4096 + o < 4096 ->
  ubyte m root (va + o) =
  (let pa0 := upage m root va in if pa0 =? 0 then None else Some (pa0 + va mod 4096 + o)).
Proof.
  intros Hva Ho Hin. pose proof (Z.div_mod va 4096 ltac:(lia)) as Hdm.
  pose proof (Z.mod_pos_bound va 4096 ltac:(lia)).
  assert (Hq : va / 4096 = (va + o) / 4096).
  { apply (Z.div_unique _ _ _ (va mod 4096 + o)); [left; lia|lia]. }
  assert (Hm : va mod 4096 + o = (va + o) mod 4096).
  { apply (Z.mod_unique _ _ (va / 4096)); [left; lia|lia]. }
  unfold ubyte. rewrite (same_page_upage m root va) by (done || lia).
  destruct (_ =? 0); [done|]. cbv zeta. f_equal. lia.
Qed.

Lemma uread_in_page m root : forall n va,
  0 <= va -> va mod 4096 + Z.of_nat n <= 4096 -> (0 < n)%nat ->
  uread m root va n =
  (let pa0 := upage m root va in
   if pa0 =? 0 then None else Some (read_bytes m (pa0 + va mod 4096) n)).
Proof.
  intros n va Hva Hin Hn.
  assert (Hgen : forall k j, (j + k = n)%nat -> upage m root va <> 0 ->
    uread m root (va + Z.of_nat j) k =
    Some (map (fun i => rd m (upage m root va + va mod 4096 + Z.of_nat i)) (seq j k))).
  { induction k as [|k IH]; intros j Hj Hne; cbn [uread seq map]; [done|].
    rewrite in_page_ubyte by lia. cbv zeta. rewrite (proj2 (Z.eqb_neq _ _)) by done. cbn [mbind option_bind].
    replace (va + Z.of_nat j + 1) with (va + Z.of_nat (S j)) by lia. by rewrite IH by lia. }
  cbv zeta. destruct (Z.eqb_spec (upage m root va) 0) as [E|E].
  - destruct n as [|n]; [lia|]. cbn [uread]. unfold ubyte. by rewrite (proj2 (Z.eqb_eq _ _) E).
  - specialize (Hgen n 0%nat). rewrite Z.add_0_r in Hgen. by apply Hgen.
Qed.

(** ** copyin *)

Lemma upage_low m root va : upage m root va <> 0 -> va < MAXVA.
Proof. unfold upage. destruct (Z.geb_spec va MAXVA); [done|lia]. Qed.

(** The next page starts below 2^64, since this one is below [MAXVA]. *)
Lemma next_page va len :
  0 <= va < MAXVA -> 0 < len -> in_page_len va len < len ->
  u64 (PGROUNDDOWN va + PGSIZE) = va + in_page_len va len /\ 0 <= va + in_page_len va len < 2 ^ 64.
Proof.
  intros Hva Hl Hlt. pose proof MAXVA_u64. pose proof (Z.mod_pos_bound va 4096 ltac:(lia)).
  destruct (in_page_len_spec va len) as (H1 & H2 & H3 & H4); [lia..|].
  rewrite H4 by lia. rewrite u64_small; [split; [done|]|]; lia.
Qed.

Lemma walkaddr_down root va w :
  tables_pos (p_mem (w_st w)) root -> 0 <= va < 2 ^ 64 ->
  walkaddr root (PGROUNDDOWN va) w = Ok (upage (p_mem (w_st w)) root va) w.
Proof.
  intros Hpos Hva. rewrite pgrounddown_eq by lia.
  pose proof (Z.div_mod va 4096 ltac:(lia)). pose proof (Z.mod_pos_bound va 4096 ltac:(lia)).
  rewrite walkaddr_eq by (done || lia). f_equal. apply same_page_upage; [lia..|].
  replace (va - va mod 4096) with (4096 * (va / 4096)) by lia. apply div_4096.
Qed.

Lemma copyin_loop_eq root w : tables_pos (p_mem (w_st w)) root ->
  forall fuel va n dst, 0 <= va < 2 ^ 64 -> (n < fuel)%nat ->
  match uread (p_mem (w_st w)) root va n with
  | Some bs => copyin_loop fuel root va (Z.of_nat n) dst w = Ok (0, dst ++ bs) w
  | None => exists bs, copyin_loop fuel root va (Z.of_nat n) dst w = Ok (-1, bs) w
  end.
Proof.
  intros Hpos. set (m := p_mem (w_st w)) in *.
  induction fuel as [|fuel IH]; intros va n dst Hva Hf; [lia|]. cbn [copyin_loop].
  destruct (Z.gtb_spec (Z.of_nat n) 0) as [Hn|Hn].
  2:{ replace n with 0%nat by lia. cbn [uread]. by rewrite app_nil_r. }
  unfold mbind, M_bind. rewrite walkaddr_down by done. fold (in_page_len va (Z.of_nat n)). fold m.
  destruct (in_page_len_spec va (Z.of_nat n)) as (H1 & H2 & H3 & H4); [done|lia|].
  set (k := in_page_len va (Z.of_nat n)) in *.
  replace (uread m root va n) with (uread m root va (Z.to_nat k + (n - Z.to_nat k))) by (f_equal; lia).
  rewrite uread_app, (uread_in_page m root (Z.to_nat k) va) by lia. cbv zeta.
  destruct (Z.eqb_spec (upage m root va) 0) as [E|E]; [cbn; eauto|]. cbn -[uread].
  replace (upage m root va + (va - PGROUNDDOWN va)) with (upage m root va + va mod 4096) by lia.
  set (b1 := read_bytes m (upage m root va + va mod 4096) (Z.to_nat k)).
  pose proof (upage_low m root va E) as Hlow. rewrite Z2Nat.id by lia.
  replace (Z.of_nat n - k) with (Z.of_nat (n - Z.to_nat k)) by lia.
  destruct (decide (k < Z.of_nat n)) as [Hk|Hk].
  - destruct (next_page va (Z.of_nat n)) as [Hnx Hr]; [lia|lia|done|]. fold k in Hnx, Hr. rewrite Hnx.
    specialize (IH (va + k) (n - Z.to_nat k)%nat (dst ++ b1) Hr ltac:(lia)).
    destruct (uread m root (va + k) (n - Z.to_nat k)) as [b2|]; [|done]. cbn. by rewrite app_assoc.
  - replace (n - Z.to_nat k)%nat with 0%nat by lia. cbn. destruct fuel as [|fuel]; [lia|]. cbn. by rewrite app_nil_r.
Qed.

(** ** copyinstr *)

Lemma copyinstr_page_eq m root va : 0 <= va -> upage m root va <> 0 ->
  forall n j max dst, va mod 4096 + Z.of_nat (j + n) <= 4096 -> (n <= max)%nat ->
  match copyinstr_page n m (upage m root va + va mod 4096 + Z.of_nat j) (Z.of_nat max) dst with
  | (true, _, dst') => exists bs, ustring m root (va + Z.of_nat j) max = Some bs /\ dst' = dst ++ bs
  | (false, max', dst') => max' = Z.of_nat (max - n) /\ exists bs, dst' = dst ++ bs /\
      ustring m root (va + Z.of_nat j) max = (app bs) <$> ustring m root (va + Z.of_nat (j + n)) (max - n)
  end.
Proof.
  intros Hva Hne. induction n as [|n IH]; intros j max dst Hin Hmax; cbn [copyinstr_page].
  - split; [f_equal; lia|]. exists []. rewrite app_nil_r, Nat.add_0_r, Nat.sub_0_r. split; [done|].
    by destruct (ustring m root (va + Z.of_nat j) max).
  - destruct max as [|max]; [lia|]. cbn [ustring]. rewrite in_page_ubyte by lia. cbv zeta.
    rewrite (proj2 (Z.eqb_neq _ 0) Hne). cbn [mbind option_bind].
    set (p := upage m root va + va mod 4096 + Z.of_nat j). destruct (Z.eqb_spec (rd m p) 0) as [E|E].
    { exists [0]. done. }
    replace (p + 1) with (upage m root va + va mod 4096 + Z.of_nat (S j)) by (unfold p; lia).
    replace (Z.of_nat (S max) - 1) with (Z.of_nat max) by lia.
    replace (va + Z.of_nat j + 1) with (va + Z.of_nat (S j)) by lia.
    specialize (IH (S j) max (dst ++ [rd m p]) ltac:(lia) ltac:(lia)).
    destruct (copyinstr_page _ _ _ _ _) as [[[] max'] dst'].
    + destruct IH as (bs & -> & ->). exists (rd m p :: bs). by rewrite <- app_assoc.
    + destruct IH as (-> & bs & -> & ->). split; [done|]. exists (rd m p :: bs).
      rewrite <- app_assoc. split; [done|]. replace (S j + n)%nat with (j + S n)%nat by lia.
      cbn [Nat.sub]. by destruct (ustring m root (va + Z.of_nat (j + S n)) (max - n)).
Qed.

Lemma copyinstr_loop_eq root w : tables_pos (p_mem (w_st w)) root ->
  forall fuel va max dst, 0 <= va < 2 ^ 64 -> (max < fuel)%nat ->
  match ustring (p_mem (w_st w)) root va max with
  | Some bs => copyinstr_loop fuel root va (Z.of_nat max) dst w = Ok (0, dst ++ bs) w
  | None => exists bs, copyinstr_loop fuel root va (Z.of_nat max) dst w = Ok (-1, bs) w
  end.
Proof.
  intros Hpos. set (m := p_mem (w_st w)) in *.
  induction fuel as [|fuel IH]; intros va max dst Hva Hf; [lia|]. cbn [copyinstr_loop].
  destruct (Z.gtb_spec (Z.of_nat max) 0) as [Hn|Hn].
  2:{ replace max with 0%nat by lia. cbn. eauto. }
  unfold mbind, M_bind. rewrite walkaddr_down by done. fold (in_page_len va (Z.of_nat max)). fold m.
  destruct (in_page_len_spec va (Z.of_nat max)) as (H1 & H2 & H3 & H4); [done|lia|].
  set (k := in_page_len va (Z.of_nat max)) in *.
  destruct (Z.eqb_spec (upage m root va) 0) as [E|E].
  { destruct max as [|max]; [lia|]. cbn [ustring]. unfold ubyte. rewrite E. cbn. eauto. }
  cbn -[copyinstr_page copyinstr_loop ustring]. fold m. pose proof (upage_low m root va E) as Hlow.
  pose proof (copyinstr_page_eq m root va ltac:(lia) E (Z.to_nat k) 0 max dst ltac:(lia) ltac:(lia)) as Hpg.
  rewrite !Z.add_0_r in Hpg.
  replace (upage m root va + (va - PGROUNDDOWN va)) with (upage m root va + va mod 4096) by lia.
  destruct (copyinstr_page _ _ _ _ _) as [[[] max'] dst'].
  { destruct Hpg as (bs & -> & ->). done. }
  destruct Hpg as (-> & bs & -> & ->). cbn [Nat.add]. rewrite Z2Nat.id by lia.
  destruct (decide (k < Z.of_nat max)) as [Hk|Hk].
  - destruct (next_page va (Z.of_nat max)) as [Hnx Hr]; [lia|lia|done|]. fold k in Hnx, Hr. rewrite Hnx.
    specialize (IH (va + k) (max - Z.to_nat k)%nat (dst ++ bs) Hr ltac:(lia)).
    destruct (ustring m root (va + k) (max - Z.to_nat k)) as [b2|]; [|done]. cbn. by rewrite app_assoc.
  - replace (max - Z.to_nat k)%nat with 0%nat by lia. cbn. destruct fuel as [|fuel]; [lia|]. cbn. eauto.
Qed.

(** ** copyout *)

(** The user pages are allocated pages of their own, mapped once each. *)
Record user_ok m root (l : list Z) : Prop := {
  uo_private : forall va, 0 <= va -> upage m root va <> 0 -> private m root l (upage m root va);
  uo_inj : forall va va', 0 <= va -> 0 <= va' -> upage m root va <> 0 ->
    upage m root va' = upage m root va -> va' / 4096 = va / 4096 }.

Lemma ubyte_inj m root l va va' x :
  user_ok m root l -> 0 <= va -> 0 <= va' ->
  ubyte m root va = Some x -> ubyte m root va' = Some x -> va = va'.
Proof.
  intros Hu Hva Hva'. unfold ubyte. cbv zeta.
  destruct (Z.eqb_spec (upage m root va) 0) as [|H1]; [done|].
  destruct (Z.eqb_spec (upage m root va') 0) as [|H2]; [done|]. intros [= <-] [= E].
  destruct (uo_private _ _ _ Hu va Hva H1) as [[Ha _] _].
  destruct (uo_private _ _ _ Hu va' Hva' H2) as [[Ha' _] _].
  pose proof (Z.mod_pos_bound va 4096 ltac:(lia)). pose proof (Z.mod_pos_bound va' 4096 ltac:(lia)).
  assert (Hp : upage m root va' = upage m root va).
  { apply (aligned_disjoint _ _ (upage m root va + va mod 4096)); [done..| |]; unfold in_page; lia. }
  pose proof (uo_inj _ _ _ Hu va va' Hva Hva' H1 Hp).
  pose proof (Z.div_mod va 4096 ltac:(lia)). pose proof (Z.div_mod va' 4096 ltac:(lia)). lia.
Qed.

Lemma rd_write_bytes m a bs x :
  rd (write_bytes m a bs) x =
  if (a <=? x) && (x <? a + Z.of_nat (length bs)) then u8 (nth (Z.to_nat (x - a)) bs 0) else rd m x.
Proof.
  unfold rd, write_bytes. destruct (_ && _); [|done]. unfold u8. by rewrite Z.mod_mod.
Qed.

(** Writing inside a page that is neither free nor part of the table. *)
Lemma write_private s root l pg (f : memory -> memory) :
  vm_ok s root l -> private (p_mem s) root l pg -> (forall m, same_outside pg m (f m)) ->
  let s' := upd_mem f s in
  vm_ok s' root l /\ (forall p, path_ok p -> node (p_mem s') root p = node (p_mem s) root p) /\
  (forall va, pte_at (p_mem s') root va = pte_at (p_mem s) root va).
Proof.
  intros [Hk Hwf] Hpg Hf s'.
  assert (Hst : same_tables (p_mem s) (p_mem s') root).
  { eapply same_tables_page; [done|apply Hpg| |apply Hf].
    intros p Hp Hn. apply (private_not_table _ _ _ _ Hpg). by exists p. }
  split; [split|split].
  - apply kmem_ok_write with pg; [done|apply Hpg|by eapply private_not_free|done].
  - by apply (pt_wf_frame (p_mem s)).
  - intros. by apply node_frame.
  - intros. by apply pte_at_frame.
Qed.

Lemma upage_ext m m' root va : pte_at m' root va = pte_at m root va -> upage m' root va = upage m root va.
Proof. intros H. unfold upage. by rewrite H. Qed.

Lemma user_ok_frame m m' root l :
  user_ok m root l -> (forall va, pte_at m' root va = pte_at m root va) ->
  (forall p, path_ok p -> node m' root p = node m root p) -> user_ok m' root l.
Proof.
  intros [H1 H2] Hp Hn.
  assert (He : forall va, upage m' root va = upage m root va) by (intros; by apply upage_ext).
  split; intros va; rewrite !He.
  - intros Hva Hne. destruct (H1 va Hva Hne) as [Hf Hu]. split; [done|]. intros x Hx.
    by eapply untouched_ext, Hu.
  - intros va'. rewrite He. apply H2.
Qed.

(** What [copyout] does to memory: user bytes in the range get the bytes
    of [src], nothing else changes. *)
Record copied_out root l s s' va (src : list Z) (r : Z) : Prop := {
  co_ok : vm_ok s' root l;
  co_node : forall p, path_ok p -> node (p_mem s') root p = node (p_mem s) root p;
  co_pte : forall va', pte_at (p_mem s') root va' = pte_at (p_mem s) root va';
  co_other : forall x, (forall i, 0 <= i < Z.of_nat (length src) -> ubyte (p_mem s) root (va + i) <> Some x) ->
    rd (p_mem s') x = rd (p_mem s) x;
  co_result :
    (r = 0 /\ forall i, (i < length src)%nat -> exists x, ubyte (p_mem s) root (va + Z.of_nat i) = Some x /\
       rd (p_mem s') x = u8 (nth i src 0)) \/
    (r = -1 /\ exists i, 0 <= i < Z.of_nat (length src) /\ ubyte (p_mem s) root (va + i) = None) }.

Lemma copied_out_nil root l s va : vm_ok s root l -> copied_out root l s s va [] 0.
Proof. intros H. split; try done. left. split; [done|]. simpl. lia. Qed.

Lemma write_user s root l va src (n : nat) :
  let pa := upage (p_mem s) root va + va mod 4096 in
  let s1 := upd_mem (fun m => write_bytes m pa (take n src)) s in
  vm_ok s root l -> user_ok (p_mem s) root l -> 0 <= va ->
  upage (p_mem s) root va <> 0 -> (n <= length src)%nat -> va mod 4096 + Z.of_nat n <= 4096 ->
  vm_ok s1 root l /\ user_ok (p_mem s1) root l /\
  (forall p, path_ok p -> node (p_mem s1) root p = node (p_mem s) root p) /\
  (forall va', pte_at (p_mem s1) root va' = pte_at (p_mem s) root va').
Proof.
  intros pa s1 Hok Hu Hva Hne Hn Hin. pose proof (Z.mod_pos_bound va 4096 ltac:(lia)).
  destruct (write_private s root l (upage (p_mem s) root va) (fun m => write_bytes m pa (take n src)))
    as (Hok1 & Hn1 & Hp1); [done|by apply Hu| |].
  { intros m x Hx. rewrite rd_write_bytes, length_take. unfold in_page in Hx. zcmp; try done; unfold pa in *; lia. }
  split; [done|]. split; [by eapply user_ok_frame|done].
Qed.

(** A page of the copy, then the rest. *)
Lemma copied_out_step root l s s' va src (n : nat) r :
  let pa := upage (p_mem s) root va + va mod 4096 in
  let s1 := upd_mem (fun m => write_bytes m pa (take n src)) s in
  vm_ok s root l -> user_ok (p_mem s) root l -> 0 <= va ->
  upage (p_mem s) root va <> 0 -> (n <= length src)%nat -> va mod 4096 + Z.of_nat n <= 4096 ->
  copied_out root l s1 s' (va + Z.of_nat n) (drop n src) r ->
  copied_out root l s s' va src r.
Proof.
  intros pa s1 Hok Hu Hva Hne Hn Hin [R1 R2 R3 R4 R5]. pose proof (Z.mod_pos_bound va 4096 ltac:(lia)).
  assert (Hlen : length (take n src) = n) by (rewrite length_take; lia).
  destruct (write_user s root l va src n) as (_ & _ & Hn1 & Hp1); [done..|].
  fold s1 in Hn1, Hp1.
  assert (Hub : forall va', ubyte (p_mem s1) root va' = ubyte (p_mem s) root va').
  { intros va'. unfold ubyte. by rewrite (upage_ext (p_mem s)). }
  assert (Hfirst : forall o, 0 <= o < Z.of_nat n -> ubyte (p_mem s) root (va + o) = Some (pa + o)).
  { intros o Ho. rewrite in_page_ubyte by lia. cbv zeta. by rewrite (proj2 (Z.eqb_neq _ 0) Hne). }
  assert (Hw : forall o, 0 <= o < Z.of_nat n -> rd (p_mem s1) (pa + o) = u8 (nth (Z.to_nat o) src 0)).
  { intros o Ho. unfold s1. simpl. rewrite rd_write_bytes, Hlen. zcmp; try lia. simpl.
    replace (pa + o - pa) with o by lia. rewrite nth_firstn, (proj2 (Nat.ltb_lt _ _)) by lia. done. }
  assert (Hkeep : forall o, 0 <= o < Z.of_nat n -> rd (p_mem s') (pa + o) = rd (p_mem s1) (pa + o)).
  { intros o Ho. apply R4. intros i Hi. rewrite Hub. intros E.
    pose proof (ubyte_inj _ _ _ (va + o) (va + Z.of_nat n + i) (pa + o) Hu ltac:(lia) ltac:(lia) (Hfirst o Ho) E). lia. }
  split; [done|intros; by rewrite R2, Hn1|intros; by rewrite R3, Hp1|..].
  - intros x Hx. rewrite R4.
    + unfold s1. simpl. rewrite rd_write_bytes, Hlen. zcmp; try done; simpl.
      exfalso. apply (Hx (x - pa)); [lia|]. rewrite Hfirst by lia. f_equal. lia.
    + intros i Hi. rewrite Hub, length_drop in *. replace (va + Z.of_nat n + i) with (va + (Z.of_nat n + i)) by lia.
      apply Hx. lia.
  - destruct R5 as [[-> R5]|(-> & i & Hi & R5)]; [left|right]; (split; [done|]).
    + intros i Hi. destruct (decide (i < n)%nat) as [Hin'|Hge].
      * exists (pa + Z.of_nat i). split; [apply Hfirst; lia|].
        rewrite Hkeep, Hw by lia. by rewrite Nat2Z.id.
      * destruct (R5 (i - n)%nat) as (x & Ex & Hx); [rewrite length_drop; lia|]. exists x.
        rewrite Hub in Ex. replace (va + Z.of_nat n + Z.of_nat (i - n)) with (va + Z.of_nat i) in Ex by lia.
        split; [done|]. rewrite Hx, nth_skipn. do 2 f_equal. lia.
    + exists (Z.of_nat n + i). rewrite length_drop in Hi. split; [lia|]. rewrite Hub in R5.
      by replace (va + (Z.of_nat n + i)) with (va + Z.of_nat n + i) by lia.
Qed.

Lemma wp_copyout_loop root l : forall fuel va src w,
  vm_ok (w_st w) root l -> user_ok (p_mem (w_st w)) root l -> 0 <= va < 2 ^ 64 -> (length src < fuel)%nat ->
  wp (copyout_loop fuel root va src) (fun r w' =>
    exists s', w' = set_st s' w /\ copied_out root l (w_st w) s' va src r) w.
Proof.
  induction fuel as [|fuel IH]; intros va src w Hok Hu Hva Hf; [lia|]. cbn [copyout_loop].
  destruct (Z.gtb_spec (Z.of_nat (length src)) 0) as [Hn|Hn].
  2:{ destruct src as [|b src]; [|simpl in Hn; lia]. apply wp_ret. exists (w_st w). split; [by destruct w|].
      by apply copied_out_nil. }
  eapply wp_bind, wp_intro; [apply walkaddr_down; [by eapply wf_tables_pos, Hok|done]|].
  fold (in_page_len va (Z.of_nat (length src))).
  destruct (in_page_len_spec va (Z.of_nat (length src))) as (H1 & H2 & H3 & H4); [done|lia|].
  set (k := in_page_len va (Z.of_nat (length src))) in *. set (pg := upage (p_mem (w_st w)) root va).
  destruct (Z.eqb_spec pg 0) as [E|E].
  - apply wp_ret. exists (w_st w). split; [by destruct w|]. split; try done. right. split; [done|].
    exists 0. split; [lia|]. rewrite Z.add_0_r. unfold ubyte. fold pg. by rewrite E.
  - pose proof (upage_low _ _ _ E) as Hlow. apply wp_bind, wp_modify.
    replace (pg + (va - PGROUNDDOWN va)) with (pg + va mod 4096) by lia.
    set (s1 := upd_mem _ (w_st w)).
    destruct (write_user (w_st w) root l va src (Z.to_nat k)) as (Hok1 & Hu1 & _); [done|done|lia|done|lia|lia|].
    eapply wp_mono with (Q := fun r w' => exists s', w' = set_st s' w /\
      copied_out root l s1 s' (va + Z.of_nat (Z.to_nat k)) (drop (Z.to_nat k) src) r).
    { intros r w' (s' & -> & Hco). exists s'. split; [done|].
      apply (copied_out_step root l (w_st w) s' va src (Z.to_nat k) r); try done; lia. }
    rewrite Z2Nat.id by lia. destruct (decide (k < Z.of_nat (length src))) as [Hk|Hk].
    + destruct (next_page va (Z.of_nat (length src))) as [Hnx Hr]; [lia|lia|done|]. fold k in Hnx, Hr.
      rewrite Hnx. eapply wp_mono; [|apply (IH (va + k) (drop (Z.to_nat k) src) (set_st s1 w)); [done..|]]; [done|].
      rewrite length_drop. lia.
    + rewrite drop_ge by lia. destruct fuel as [|fuel]; [lia|]. apply wp_ret.
      exists s1. split; [done|]. by apply copied_out_nil.
Qed.

(** The bytes of a range, one by one. *)
Lemma uread_spec m root n : forall va bs,
  length bs = n ->
  (forall i, (i < n)%nat -> exists x, ubyte m root (va + Z.of_nat i) = Some x /\ rd m x = nth i bs 0) ->
  uread m root va n = Some bs.
Proof.
  induction n as [|n IH]; intros va bs Hlen Hb; destruct bs as [|b bs]; try done. cbn [uread].
  destruct (Hb 0%nat) as (x & Hx & Hr); [lia|]. rewrite Z.add_0_r in Hx. rewrite Hx. cbn [mbind option_bind].
  rewrite (IH (va + 1) bs); [by rewrite Hr|simpl in Hlen; lia|].
  intros i Hi. destruct (Hb (S i)) as (y & Hy & Hry); [lia|]. exists y.
  by replace (va + 1 + Z.of_nat i) with (va + Z.of_nat (S i)) by lia.
Qed.

Lemma uread_none m root n : forall va i,
  0 <= i < Z.of_nat n -> ubyte m root (va + i) = None -> uread m root va n = None.
Proof.
  induction n as [|n IH]; intros va i Hi Hn; [lia|]. cbn [uread].
  destruct (ubyte m root va) as [x|] eqn:E; [|done]. cbn [mbind option_bind].
  destruct (decide (i = 0)) as [->|]; [rewrite Z.add_0_r in Hn; congruence|].
  rewrite (IH (va + 1) (i - 1)); [done|lia|]. by replace (va + 1 + (i - 1)) with (va + i) by lia.
Qed.
End copy.
