(* ===== verification/VmProps.v ===== *)
(** The properties of kernel/vm.c, with a concrete page table for their
    witnesses. *)

From S2P Require Import Prelude KMonad Kstring Riscv Kalloc Vm VmTable VmSpec VmUser VmFree VmCopy.

Section props.
  Context {sy : Symbols} {syok : SymbolsOk sy}.
  Implicit Types (root va : Z) (l : list Z) (w : world phys).

(** [mappages] maps the pages of [va..va+size) one by one to the pages from
    [pa] with permissions [perm] and leaves every other entry as it was; it
    returns -1 only when no page is left for a table, and then the pages
    mapped are an initial part of the range.  The page table stays
    well-formed, its new table pages come from the free list, and memory
    outside the table and the free pages is unchanged. *)
Theorem mappages_correct root va size pa perm l w :
  vm_ok (w_st w) root l -> L_kmem ∉ w_held w ->
  0 <= va -> 0 < size -> va + size <= MAXVA ->
  let k := va / 4096 in
  let n := (va + size - 1) / 4096 - k + 1 in
  page_addr pa -> pa + 4096 * n <= 2 ^ 56 -> 0 <= perm < 1024 ->
  unmapped_range root (w_st w) k n ->
  wp (mappages root va size pa perm) (fun r w' => exists s' l' j,
    w' = set_st s' w /\ ext root (w_st w) l s' l' /\ mapped root (w_st w) s' k j pa perm /\
    ((r = 0 /\ j = n) \/ (r = -1 /\ 0 <= j < n /\ l' = []))) w.
Proof. intros. by apply wp_mappages. Qed.

(** [uvmunmap] of mapped leaf pages clears exactly their entries, gives
    their physical pages back to the allocator when [do_free] is set, and
    changes nothing else. *)
Theorem uvmunmap_correct root va npages (do_free : bool) l w :
  vm_ok (w_st w) root l -> L_kmem ∉ w_held w ->
  va mod 4096 = 0 -> 0 <= va -> 0 <= npages -> va + 4096 * npages <= MAXVA ->
  leaves root (w_st w) (va / 4096) (Z.to_nat npages) ->
  (do_free = true -> freeable root (w_st w) l (va / 4096) (Z.to_nat npages)) ->
  wp (uvmunmap root va npages do_free) (fun _ w' => exists s' freed,
    w' = set_st s' w /\ shrink root (w_st w) l s' freed /\
    cleared root (w_st w) s' (va / 4096) npages /\
    freed ≡ₚ (if do_free then pages_of (p_mem (w_st w)) root (va / 4096) (Z.to_nat npages) else [])) w.
Proof. intros. by apply wp_uvmunmap. Qed.

(** [uvmalloc] grows a process from [oldsz] to [newsz]: on success every
    new page is mapped readable, user-accessible and with [xperm], to a fresh
    page of zeros; on failure it returns 0 with the new pages unmapped again
    and, but for table pages, every page back on the free list.  The rest of
    the address space and of memory is unchanged in both cases. *)
Theorem uvmalloc_correct root oldsz newsz xperm l w :
  vm_ok (w_st w) root l -> L_kmem ∉ w_held w ->
  0 <= oldsz <= newsz -> newsz <= MAXVA -> 0 <= xperm < 1024 ->
  let k := PGROUNDUP oldsz / 4096 in
  let n := PGROUNDUP newsz / 4096 - k in
  unmapped_range root (w_st w) k n ->
  wp (uvmalloc root oldsz newsz xperm) (fun r w' => exists s', w' = set_st s' w /\
    ((r = newsz /\ exists us tabs l', Z.of_nat (length us) = n /\
        grown root (w_st w) l k (fun _ => Z.lor (Z.lor PTE_R PTE_U) xperm) (fun _ _ => 0) s' us tabs l') \/
     (r = 0 /\ exists tabs l', rolled_back root (w_st w) l k n s' tabs l'))) w.
Proof. intros. by apply wp_uvmalloc. Qed.

(** C12: [uvmcopy] gives the child table a copy of every page of the parent
    below [sz]: the same bytes and flags, in fresh pages; when memory runs
    out it returns -1 with the pages copied so far unmapped and freed.
    Neither case changes the parent's memory. *)
Theorem uvmcopy_correct (old new sz : Z) l w :
  vm_ok (w_st w) new l -> L_kmem ∉ w_held w -> 0 <= sz <= MAXVA ->
  let n := PGROUNDUP sz / 4096 in
  let m := p_mem (w_st w) in
  pt_wf m old l -> apart m old new l n -> leaves old (w_st w) 0 (Z.to_nat n) ->
  unmapped_range new (w_st w) 0 n ->
  wp (uvmcopy old new sz) (fun r w' => exists s', w' = set_st s' w /\
    ((r = 0 /\ exists us tabs l', Z.of_nat (length us) = n /\
        grown new (w_st w) l 0 (old_perm m old) (old_data m old) s' us tabs l') \/
     (r = -1 /\ exists tabs l', rolled_back new (w_st w) l 0 n s' tabs l'))) w.
Proof.
  intros Hok Hl Hsz n m Hwf Hap Hlv Hun. pose proof MAXVA_u64. unfold uvmcopy.
  destruct (pgroundup_bounds sz) as [Ha Hb]; [lia..|].
  pose proof (Z.div_mod (PGROUNDUP sz) 4096 ltac:(lia)).
  assert (HM : MAXVA = 4096 * 67108864) by done.
  assert (Hf : (Z.to_nat n < S (S (Z.to_nat (sz / PGSIZE))))%nat).
  { unfold n, PGSIZE in *. assert (PGROUNDUP sz / 4096 - 1 <= sz / 4096); [|lia].
    apply Z.div_le_lower_bound; lia. }
  revert Hf. generalize (S (S (Z.to_nat (sz / PGSIZE)))). intros fuel Hf.
  apply (wp_uvmcopy_loop old new (w_st w) l sz n (Z.to_nat n) fuel [] [] l w);
    [apply Hok|done|done|done|done|by apply grown_nil|simpl; lia|unfold n; lia|done|unfold n; lia|done].
Qed.

(** C24: [uvmfree] returns every page to the allocator: the pages of the
    table and the pages it maps, each once, and no other; memory outside
    the free pages is as before. *)
Theorem uvmfree_correct root sz l w :
  vm_ok (w_st w) root l -> L_kmem ∉ w_held w -> 0 <= sz <= MAXVA ->
  let n := PGROUNDUP sz / 4096 in
  let m := p_mem (w_st w) in
  leaves root (w_st w) 0 (Z.to_nat n) -> freeable root (w_st w) l 0 (Z.to_nat n) ->
  unmapped_range root (w_st w) n (MAXVA / 4096 - n) ->
  wp (uvmfree root sz) (fun _ w' => exists s' l', w' = set_st s' w /\ kmem_ok s' l' /\
    l' ≡ₚ table_pages m root ++ pages_of m root 0 (Z.to_nat n) ++ l /\
    forall x, (forall q, q ∈ l' -> ~ in_page q x) -> rd (p_mem s') x = rd m x) w.
Proof. intros. by apply wp_uvmfree. Qed.

(** [copyin] reads exactly the user bytes of the range: the result is
    that of reading them one by one, and -1 when one of them is not mapped
    for user access. *)
Theorem copyin_correct root srcva len l w :
  vm_ok (w_st w) root l -> 0 <= srcva < 2 ^ 64 -> 0 <= len ->
  match uread (p_mem (w_st w)) root srcva (Z.to_nat len) with
  | Some bs => copyin root srcva len w = Ok (0, bs) w
  | None => exists bs, copyin root srcva len w = Ok (-1, bs) w
  end.
Proof.
  intros [_ Hwf] Hva Hlen. unfold copyin.
  pose proof (copyin_loop_eq root w (wf_tables_pos _ _ _ Hwf) (S (Z.to_nat len)) srcva (Z.to_nat len) [] Hva ltac:(lia)) as Hin.
  by rewrite Z2Nat.id in Hin by done.
Qed.

(** [copyinstr] reads the user string at [srcva], up to and including its
    NUL, when it lies in user memory and is shorter than [max]; otherwise it
    returns -1. *)
Theorem copyinstr_correct root srcva max l w :
  vm_ok (w_st w) root l -> 0 <= srcva < 2 ^ 64 -> 0 <= max ->
  match ustring (p_mem (w_st w)) root srcva (Z.to_nat max) with
  | Some bs => copyinstr root srcva max w = Ok (0, bs) w
  | None => exists bs, copyinstr root srcva max w = Ok (-1, bs) w
  end.
Proof.
  intros [_ Hwf] Hva Hlen. unfold copyinstr.
  pose proof (copyinstr_loop_eq root w (wf_tables_pos _ _ _ Hwf) (S (Z.to_nat max)) srcva (Z.to_nat max) [] Hva ltac:(lia)) as Hin.
  by rewrite Z2Nat.id in Hin by done.
Qed.

(** C4: after a [copyout] that returns 0, [copyin] of the same range gives the
    bytes back; one that returns -1 met an unmapped byte.  In both cases the
    page table is as before and no byte outside the range changes. *)
Theorem copyout_copyin root dstva (src : list Z) l w :
  vm_ok (w_st w) root l -> user_ok (p_mem (w_st w)) root l -> 0 <= dstva < 2 ^ 64 ->
  wp (copyout root dstva src) (fun r w' => exists s', w' = set_st s' w /\ vm_ok s' root l /\
    (forall va, pte_at (p_mem s') root va = pte_at (p_mem (w_st w)) root va) /\
    (forall x, (forall i, 0 <= i < Z.of_nat (length src) ->
                  ubyte (p_mem (w_st w)) root (dstva + i) <> Some x) ->
       rd (p_mem s') x = rd (p_mem (w_st w)) x) /\
    ((r = 0 /\ copyin root dstva (Z.of_nat (length src)) w' = Ok (0, map u8 src) w') \/
     (r = -1 /\ uread (p_mem (w_st w)) root dstva (length src) = None))) w.
Proof.
  intros Hok Hu Hva. eapply wp_mono; [|apply (wp_copyout_loop root l (S (length src)) dstva src w); [done..|lia]].
  intros r w' (s' & -> & [H1 H2 H3 H4 H5]). exists s'. split; [done|]. split; [done|]. split; [done|]. split; [done|].
  destruct H5 as [[-> H5]|(-> & i & Hi & H5)]; [left|right]; (split; [done|]).
  - pose proof (copyin_loop_eq root (set_st s' w) (wf_tables_pos _ _ _ (proj2 H1)) (S (length src)) dstva (length src) [] Hva
      ltac:(lia)) as Hin. cbn [w_st set_st] in Hin.
    rewrite (uread_spec (p_mem s') root (length src) dstva (map u8 src)) in Hin.
    + unfold copyin. by rewrite Nat2Z.id.
    + apply length_map.
    + intros i Hi. destruct (H5 i Hi) as (x & Hx & Hr). exists x. split.
      * rewrite <- Hx. unfold ubyte. by rewrite (upage_ext (p_mem (w_st w))).
      * rewrite Hr. change 0 with (u8 0) at 2. by rewrite map_nth.
  - by eapply uread_none.
Qed.
End props.

(** ** Witnesses: a table that maps one user page at address 0

    Page numbers count down from [PHYSTOP]: the free page, the table's pages,
    the user page, and the root of a second, empty table. *)

Definition ex_free : Z := PHYSTOP - 4096.
Definition ex_root : Z := PHYSTOP - 2 * 4096.
Definition ex_t1 : Z := PHYSTOP - 3 * 4096.
Definition ex_t0 : Z := PHYSTOP - 4 * 4096.
Definition ex_user : Z := PHYSTOP - 5 * 4096.
Definition ex_root2 : Z := PHYSTOP - 6 * 4096.

Definition ex_leaf : Z := mk_pte ex_user (Z.lor (Z.lor PTE_R PTE_W) PTE_U).

Definition ex_mem : memory :=
  store64 (store64 (store64 (fun _ => 0) (ex_root + 8 * 0) (Z.lor (PA2PTE ex_t1) PTE_V))
    (ex_t1 + 8 * 0) (Z.lor (PA2PTE ex_t0) PTE_V)) (ex_t0 + 8 * 0) ex_leaf.

Definition ex_vm : phys := Phys ex_mem ex_free.

Lemma ex_load t i :
  t mod 4096 = 0 -> idx i ->
  load64 ex_mem (t + 8 * i) =
  if decide (i = 0) then
    if decide (t = ex_t0) then ex_leaf
    else if decide (t = ex_t1) then Z.lor (PA2PTE ex_t0) PTE_V
    else if decide (t = ex_root) then Z.lor (PA2PTE ex_t1) PTE_V else 0
  else 0.
Proof.
  intros Ht Hi. assert (H0 : idx 0) by (unfold idx; lia). unfold ex_mem.
  rewrite !load_store_entry by (done || by vm_compute).
  rewrite load64_zero by done. repeat case_decide; naive_solver.
Qed.

Lemma ex_child t i :
  t mod 4096 = 0 -> idx i ->
  child ex_mem t i =
  if decide (i = 0) then
    if decide (t = ex_t0) then Some ex_user
    else if decide (t = ex_t1) then Some ex_t0
    else if decide (t = ex_root) then Some ex_t1 else None
  else None.
Proof.
  intros Ht Hi. unfold child. rewrite ex_load by done. repeat case_decide; by vm_compute.
Qed.

Lemma ex_child_root i : idx i -> child ex_mem ex_root i = if decide (i = 0) then Some ex_t1 else None.
Proof. intros Hi. by rewrite ex_child. Qed.

Lemma ex_child_t1 i : idx i -> child ex_mem ex_t1 i = if decide (i = 0) then Some ex_t0 else None.
Proof. intros Hi. by rewrite ex_child. Qed.

(** The paths of the first table, and of the second. *)
Lemma ex_node p t : path_ok p -> node ex_mem ex_root p = Some t ->
  (p = [] /\ t = ex_root) \/ (p = [0] /\ t = ex_t1) \/ (p = [0; 0] /\ t = ex_t0).
Proof.
  intros [Hl Hf]. destruct p as [|i [|j [|k p]]]; simpl in Hl; try lia; cbn [node].
  - intros [= <-]. by left.
  - apply Forall_cons_1 in Hf as [Hi _]. rewrite ex_child_root by done.
    case_decide as Hd; [subst i|done]. intros [= <-]. right. by left.
  - apply Forall_cons_1 in Hf as [Hi Hf]. apply Forall_cons_1 in Hf as [Hj _].
    rewrite ex_child_root by done. case_decide as Hd; [subst i|done].
    rewrite ex_child_t1 by done. case_decide as Hd; [subst j|done]. intros [= <-]. right. by right.
Qed.

Lemma ex_node_leaf : node ex_mem ex_root [0; 0] = Some ex_t0.
Proof.
  assert (H0 : idx 0) by (unfold idx; lia). cbn [node]. rewrite ex_child_root by exact H0.
  rewrite decide_True by reflexivity. by rewrite ex_child_t1.
Qed.

Lemma ex_node2 p t : path_ok p -> node ex_mem ex_root2 p = Some t -> p = [] /\ t = ex_root2.
Proof.
  intros [Hl Hf]. destruct p as [|i p]; cbn [node]; [by intros [= <-]|].
  apply Forall_cons_1 in Hf as [Hi _]. rewrite ex_child by done. by case_decide.
Qed.

Section ex.
#[local] Existing Instance ex_symbols.
#[local] Existing Instance ex_symbols_ok.

Lemma ex_kmem : kmem_ok ex_vm [ex_free].
Proof.
  split; [|apply NoDup_singleton]. split; [done|]. split; [by vm_compute|].
  change (load64 ex_mem (ex_free + 8 * 0) = 0). by rewrite ex_load.
Qed.

Lemma ex_vm_ok : vm_ok ex_vm ex_root [ex_free].
Proof.
  split; [apply ex_kmem|]. split; simpl.
  - intros p t Hp Hn%ex_node; [|done]. destruct Hn as [[-> ->]|[[-> ->]|[-> ->]]];
      (split; [by vm_compute|]); by intros ?%list_elem_of_singleton.
  - intros p q t Hp Hq Hn Hn'.
    apply ex_node in Hn, Hn'; [|done..]. clear Hp Hq.
    destruct Hn as [[-> ->]|[[-> ->]|[-> ->]]]; by destruct Hn' as [[-> E]|[[-> E]|[-> E]]].
  - intros p t i Hp Hl Hi Hn%ex_node; [|done]. destruct Hn as [[-> ->]|[[-> ->]|[-> ->]]];
      [..|simpl in Hl; lia]; rewrite ex_load by done; repeat case_decide; done.
  - intros i c Hi. rewrite ex_child by done. case_decide; [lia|done].
Qed.

Lemma ex_vm_ok2 : vm_ok ex_vm ex_root2 [ex_free].
Proof.
  split; [apply ex_kmem|]. split; simpl.
  - intros p t Hp Hn%ex_node2; [|done]. destruct Hn as [-> ->]; (split; [by vm_compute|]).
    by intros ?%list_elem_of_singleton.
  - intros p q t Hp Hq Hn Hn'.
    apply ex_node2 in Hn, Hn'; [|done..]. by destruct Hn as [-> ->], Hn' as [-> E].
  - intros p t i Hp Hl Hi Hn%ex_node2; [|done]. destruct Hn as [-> ->].
    rewrite ex_load by done; repeat case_decide; done.
  - intros i c Hi. rewrite ex_child by done. by case_decide.
Qed.

Lemma ex_pte va : 0 <= va < MAXVA ->
  pte_at ex_mem ex_root va = if decide (va / 4096 = 0) then ex_leaf else 0.
Proof.
  intros Hva. unfold pte_at, leaf_table.
  assert (Hin : forall k, 0 <= k -> idx (PX k va)) by (intros; by apply PX_range).
  destruct (node ex_mem ex_root (leaf_path va)) as [t|] eqn:Hn.
  - destruct (ex_node _ _ (leaf_path_ok va) Hn) as [[E ->]|[[E ->]|[E ->]]]; [done..|].
    rewrite ex_load; [|done|by apply Hin]. rewrite (decide_True (P := ex_t0 = ex_t0)) by done.
    rewrite (decide_ext (PX 0 va = 0) (va / 4096 = 0)); [done|].
    change 0 with (0 / 4096) at 2. rewrite <- (same_page_iff 0 va) by (done || by vm_compute).
    rewrite E. change (PX 0 0) with 0. change (leaf_path 0) with [0; 0]. clear Hn. tauto.
  - rewrite decide_False; [done|]. intros E. change (va / 4096 = 0 / 4096) in E.
    apply (same_page_iff 0 va) in E as [E _]; [|by vm_compute|done]. rewrite E in Hn.
    change (leaf_path 0) with [0; 0] in Hn. rewrite ex_node_leaf in Hn. discriminate Hn.
Qed.

Lemma ex_pte_page i : 0 <= i < 67108864 -> pte_at ex_mem ex_root (4096 * i) = if decide (i = 0) then ex_leaf else 0.
Proof.
  intros Hi. rewrite ex_pte by (change MAXVA with (4096 * 67108864); lia). by rewrite div_4096.
Qed.

Lemma ex_leaves : leaves ex_root ex_vm 0 1.
Proof. intros i Hi. simpl. rewrite ex_pte_page by lia. rewrite decide_True by lia. by split. Qed.

Lemma ex_unmapped k n : 1 <= k -> unmapped_range ex_root ex_vm k n.
Proof. intros Hk va Hva Hin. simpl. rewrite ex_pte by done. rewrite decide_False by lia. done. Qed.

Lemma ex_unmapped2 k n : unmapped_range ex_root2 ex_vm k n.
Proof.
  intros va Hva _. unfold pte_at, leaf_table. simpl p_mem.
  destruct (node ex_mem ex_root2 (leaf_path va)) as [t|] eqn:Hn; [|apply is_set_0].
  by destruct (ex_node2 _ _ (leaf_path_ok va) Hn).
Qed.

Lemma ex_user_private : private ex_mem ex_root [ex_free] ex_user.
Proof.
  apply (private_intro ex_vm); [apply ex_vm_ok|by vm_compute|by intros ?%list_elem_of_singleton|].
  intros (p & Hp & Hn%ex_node); [|done]. by destruct Hn as [[_ E]|[[_ E]|[_ E]]].
Qed.

Lemma ex_freeable : freeable ex_root ex_vm [ex_free] 0 1.
Proof.
  split; [|apply NoDup_singleton]. intros i Hi. simpl p_mem. rewrite ex_pte_page by lia.
  rewrite decide_True by lia. change (PTE2PA ex_leaf) with ex_user. unfold returnable.
  change (PTE2PA ex_leaf) with ex_user.
  split; [by vm_compute|]. split; [by intros ?%list_elem_of_singleton|].
  eapply private_not_table, ex_user_private.
Qed.

Lemma ex_upage va : 0 <= va -> upage ex_mem ex_root va = if decide (va / 4096 = 0) then ex_user else 0.
Proof.
  intros Hva. unfold upage. destruct (Z.geb_spec va MAXVA) as [Hge|Hlt].
  - rewrite decide_False; [done|]. intros E. pose proof (Z.div_mod va 4096 ltac:(lia)).
    pose proof (Z.mod_pos_bound va 4096 ltac:(lia)). change MAXVA with (4096 * 67108864) in *. lia.
  - rewrite ex_pte by lia. by case_decide.
Qed.

Lemma ex_user_ok : user_ok ex_mem ex_root [ex_free].
Proof.
  split.
  - intros va Hva. rewrite ex_upage by done. case_decide; [|done]. intros _. apply ex_user_private.
  - intros va va' Hva Hva'. rewrite !ex_upage by done. repeat case_decide; congruence || done.
Qed.

Lemma ex_private2 t : t ∈ [ex_root; ex_t1; ex_t0; ex_user] -> private ex_mem ex_root2 [ex_free] t.
Proof.
  intros Ht.
  assert (Hc : free_page t /\ t <> ex_free /\ t <> ex_root2).
  { rewrite !elem_of_cons, elem_of_nil in Ht. unfold free_page. simpl sym_end.
    unfold ex_free, ex_root, ex_root2, ex_t1, ex_t0, ex_user, PHYSTOP, KERNBASE in *.
    destruct Ht as [->|[->|[->|[->|[]]]]]; (split; [split; [reflexivity|]|]); lia. }
  destruct Hc as (Hf & Hn1 & Hn2). apply (private_intro ex_vm); [apply ex_vm_ok2|done| |].
  - rewrite list_elem_of_singleton. exact Hn1.
  - intros (p & Hp & Hn%ex_node2); [|done]. by destruct Hn.
Qed.

Lemma ex_apart : apart ex_mem ex_root ex_root2 [ex_free] 1.
Proof.
  split.
  - intros p t x Hp Hn%ex_node Hx; [|done]. apply (ex_private2 t); [|done].
    destruct Hn as [[_ ->]|[[_ ->]|[_ ->]]]; set_solver.
  - intros i x Hi. rewrite ex_pte_page by lia. rewrite decide_True by lia.
    change (PTE2PA ex_leaf) with ex_user. apply ex_private2. set_solver.
Qed.

Lemma mappages_correct_witness :
exists w', mappages ex_root 4096 4096 ex_free 2 (ex_world ex_vm) = Ok 0 w' /\
  pte_at (p_mem (w_st w')) ex_root 0 = ex_leaf.
Proof.
destruct (wp_elim _ _ _ (mappages_correct ex_root 4096 4096 ex_free 2 [ex_free] (ex_world ex_vm)
  ex_vm_ok (not_elem_of_nil _) ltac:(lia) ltac:(lia) ltac:(by vm_compute) ltac:(by vm_compute) ltac:(by vm_compute)
  ltac:(lia) (ex_unmapped 1 1 ltac:(lia))))
  as (r & w' & Hr & s' & l' & j & -> & _ & Hm & Hres).
exists (set_st s' (ex_world ex_vm)).
assert (Hc : match mappages ex_root 4096 4096 ex_free 2 (ex_world ex_vm) with Ok r _ => r | _ => 1 end = 0)
  by (vm_compute; reflexivity).
rewrite Hr in Hc. subst r. split; [exact Hr|]; clear Hr. simpl. rewrite Hm by (by vm_compute).
rewrite decide_False by (intros [Hbad _]; by vm_compute in Hbad). rewrite ex_pte by (by vm_compute). reflexivity.
Defined.

Lemma uvmunmap_correct_witness :
exists w', uvmunmap ex_root 0 1 true (ex_world ex_vm) = Ok () w' /\
  pte_at (p_mem (w_st w')) ex_root 0 = 0.
Proof.
destruct (wp_elim _ _ _ (uvmunmap_correct ex_root 0 1 true [ex_free] (ex_world ex_vm)
  ex_vm_ok (not_elem_of_nil _) eq_refl ltac:(lia) ltac:(lia) ltac:(by vm_compute) ex_leaves (fun _ => ex_freeable)))
  as ([] & w' & Hr & s' & f & -> & _ & Hc & _).
eexists. split; [exact Hr|]; clear Hr. simpl. by rewrite Hc.
Defined.

Lemma uvmalloc_correct_witness :
exists r w', uvmalloc ex_root 4096 8192 PTE_W (ex_world ex_vm) = Ok r w' /\
  pte_at (p_mem (w_st w')) ex_root 0 = ex_leaf.
Proof.
destruct (wp_elim _ _ _ (uvmalloc_correct ex_root 4096 8192 PTE_W [ex_free] (ex_world ex_vm)
  ex_vm_ok (not_elem_of_nil _) ltac:(lia) ltac:(by vm_compute) ltac:(by vm_compute)
  (ex_unmapped 1 1 ltac:(lia))))
  as (r & w' & Hr & s' & -> & [(_ & us & tabs & l' & Hlen & Hg)|(_ & tabs & l' & Hg)]);
  exists r, (set_st s' (ex_world ex_vm)); (split; [exact Hr|]; clear Hr); simpl.
- rewrite (g_pte _ _ _ _ _ _ _ _ _ _ Hg) by (by vm_compute).
  rewrite decide_False by (intros [Hbad _]; by vm_compute in Hbad). by rewrite ex_pte.
- rewrite (r_pte _ _ _ _ _ _ _ _ Hg); [by rewrite ex_pte|by vm_compute|].
  intros [Hbad _]. by vm_compute in Hbad.
Defined.

Lemma uvmcopy_correct_witness :
exists r w', uvmcopy ex_root ex_root2 4096 (ex_world ex_vm) = Ok r w' /\ (r = 0 \/ r = -1).
Proof.
destruct (wp_elim _ _ _ (uvmcopy_correct ex_root ex_root2 4096 [ex_free] (ex_world ex_vm)
  ex_vm_ok2 (not_elem_of_nil _) ltac:(by vm_compute) (proj2 ex_vm_ok) ex_apart ex_leaves (ex_unmapped2 _ _)))
  as (r & w' & Hr & s' & -> & [[E _]|[E _]]);
  exists r, (set_st s' (ex_world ex_vm)); (split; [exact Hr|]; clear Hr); [by left|by right].
Defined.

Lemma uvmfree_correct_witness :
exists w' l', uvmfree ex_root 4096 (ex_world ex_vm) = Ok () w' /\ ex_user ∈ l' /\ kmem_ok (w_st w') l'.
Proof.
destruct (wp_elim _ _ _ (uvmfree_correct ex_root 4096 [ex_free] (ex_world ex_vm)
  ex_vm_ok (not_elem_of_nil _) ltac:(by vm_compute) ex_leaves ex_freeable (ex_unmapped 1 67108863 ltac:(lia))))
  as ([] & w' & Hr & s' & l' & -> & Hk & Hp & _).
eexists _, l'. split; [exact Hr|]; clear Hr. split; [|exact Hk]. rewrite Hp, !elem_of_app. right. left.
change (Z.to_nat (PGROUNDUP 4096 / 4096)) with 1%nat. apply list_elem_of_singleton.
simpl. change (4096 * (0 + Z.of_nat 0)) with (4096 * 0). by rewrite ex_pte_page.
Defined.

Lemma copyin_correct_witness :
copyin ex_root 4094 2 (ex_world ex_vm) = Ok (0, [0; 0]) (ex_world ex_vm).
Proof.
pose proof (copyin_correct ex_root 4094 2 [ex_free] (ex_world ex_vm) ex_vm_ok ltac:(lia) ltac:(lia)) as H.
change (Z.to_nat 2) with 2%nat in H. simpl p_mem in H. cbn [uread] in H. unfold ubyte in H.
rewrite !ex_upage in H by lia. exact H.
Defined.

Lemma copyinstr_correct_witness :
copyinstr ex_root 10 5 (ex_world ex_vm) = Ok (0, [0]) (ex_world ex_vm).
Proof.
pose proof (copyinstr_correct ex_root 10 5 [ex_free] (ex_world ex_vm) ex_vm_ok ltac:(lia) ltac:(lia)) as H.
change (Z.to_nat 5) with 5%nat in H. simpl p_mem in H. cbn [ustring] in H. unfold ubyte in H.
rewrite !ex_upage in H by lia. exact H.
Defined.

Lemma copyout_copyin_witness :
exists r w', copyout ex_root 4095 [7; 8] (ex_world ex_vm) = Ok r w' /\ r = -1.
Proof.
destruct (wp_elim _ _ _ (copyout_copyin ex_root 4095 [7; 8] [ex_free] (ex_world ex_vm) ex_vm_ok ex_user_ok
  ltac:(lia))) as (r & w' & Hr & s' & -> & _).
assert (Hc : match copyout ex_root 4095 [7; 8] (ex_world ex_vm) with Ok r _ => r | _ => 1 end = -1)
  by (vm_compute; reflexivity).
rewrite Hr in Hc. eexists _, _. split; [exact Hr|exact Hc].
Defined.
End ex.
