(* ===== verification/UserMem.v ===== *)
(** What the memory system promises to the rest of the kernel: allocation of
    pages, and copies between the kernel and the memory of a process, seen as
    bytes at virtual addresses.  kernel/kalloc.c and kernel/vm.c implement the
    interface. *)

From S2P Require Import Prelude KMonad Kstring Riscv Kalloc Vm VmTable VmSpec VmUser VmCopy.

(** [n] bytes at [va] of the user memory [f]; [None] when one is not mapped. *)
Fixpoint ubytes (f : Z -> option Z) (va : Z) (n : nat) : option (list Z) :=
  match n with
  | O => Some []
  | S n' => b ← f va; bs ← ubytes f (va + 1) n'; Some (b :: bs)
  end.

Lemma ubytes_ext f g va n :
  (forall i, (i < n)%nat -> f (va + Z.of_nat i) = g (va + Z.of_nat i)) -> ubytes f va n = ubytes g va n.
Proof.
  revert va. induction n as [|n IH]; intros va H; cbn [ubytes]; [done|].
  pose proof (H 0%nat ltac:(lia)) as H0. rewrite Z.add_0_r in H0. rewrite H0. destruct (g va); [|done]. simpl.
  rewrite (IH (va + 1)); [done|]. intros i Hi. replace (va + 1 + Z.of_nat i) with (va + Z.of_nat (S i)) by lia.
  apply H. lia.
Qed.

Lemma ubytes_app f n1 : forall va n2,
  ubytes f va (n1 + n2) = (b1 ← ubytes f va n1; b2 ← ubytes f (va + Z.of_nat n1) n2; Some (b1 ++ b2)).
Proof.
  induction n1 as [|n1 IH]; intros va n2; cbn [ubytes Nat.add].
  - rewrite Z.add_0_r. cbn. by destruct (ubytes f va n2).
  - destruct (f va) as [b|]; [|done]. cbn. rewrite IH. replace (va + 1 + Z.of_nat n1) with (va + Z.of_nat (S n1)) by lia.
    destruct (ubytes f (va + 1) n1); [|done]. cbn. by destruct (ubytes f _ n2).
Qed.

Lemma length_ubytes f n : forall va bs, ubytes f va n = Some bs -> length bs = n.
Proof.
  induction n as [|n IH]; intros va bs H; cbn [ubytes] in H; [by injection H as <-|].
  destruct (f va); [|done]. cbn in H. destruct (ubytes f (va + 1) n) eqn:E; [|done]. cbn in H. injection H as <-.
  simpl. f_equal. by eapply IH.
Qed.

Lemma ubytes_lookup f n : forall va bs i, ubytes f va n = Some bs -> (i < n)%nat -> bs !! i = f (va + Z.of_nat i).
Proof.
  induction n as [|n IH]; intros va bs i H Hi; [lia|]. cbn [ubytes] in H.
  destruct (f va) eqn:E1; [|done]. cbn in H. destruct (ubytes f (va + 1) n) eqn:E2; [|done]. cbn in H. injection H as <-.
  destruct i as [|i]; [by rewrite Z.add_0_r|]. simpl. rewrite (IH _ _ _ E2) by lia. f_equal. lia.
Qed.

Lemma ubytes_None f n : forall va, ubytes f va n = None <-> exists i, (i < n)%nat /\ f (va + Z.of_nat i) = None.
Proof.
  induction n as [|n IH]; intros va; cbn [ubytes]; [split; [done|]; intros (i & Hi & _); lia|].
  destruct (f va) as [x|] eqn:E1; cbn.
  2:{ split; [|done]. intros _. exists 0%nat. split; [lia|]. by rewrite Z.add_0_r. }
  trans (ubytes f (va + 1) n = None); [by destruct (ubytes f (va + 1) n)|]. rewrite IH. split.
  - intros (i & Hi & Hn). exists (S i). split; [lia|]. rewrite <- Hn. f_equal. lia.
  - intros (i & Hi & Hn). destruct i as [|i]; [rewrite Z.add_0_r in Hn; congruence|]. exists i. split; [lia|].
    rewrite <- Hn. f_equal. lia.
Qed.

Lemma ubytes_split f va bs n : (n <= length bs)%nat -> ubytes f va (length bs) = Some bs ->
  ubytes f va n = Some (take n bs) /\ ubytes f (va + Z.of_nat n) (length bs - n) = Some (drop n bs).
Proof.
  intros Hn H. replace (length bs) with (n + (length bs - n))%nat in H by lia. rewrite ubytes_app in H.
  destruct (ubytes f va n) as [l|] eqn:E1; [|done]. cbn in H.
  destruct (ubytes f (va + Z.of_nat n) (length bs - n)) as [l'|] eqn:E2; [|done]. cbn in H. injection H as <-.
  apply length_ubytes in E1. by rewrite <- E1, take_app_length, drop_app_length.
Qed.

(** A string of at most [max] bytes, its terminating NUL included. *)
Fixpoint ustr (f : Z -> option Z) (va : Z) (max : nat) : option (list Z) :=
  match max with
  | O => None
  | S max' => b ← f va; if b =? 0 then Some [0] else bs ← ustr f (va + 1) max'; Some (b :: bs)
  end.

(** ** The interface *)

Class UserOps (U : Type) := {
  u_copyin : Z -> Z -> Z -> M U (Z * list Z);
  u_copyout : Z -> Z -> list Z -> M U Z;
  u_copyinstr : Z -> Z -> Z -> M U (Z * list Z);
  u_kalloc : M U Z;
  u_kfree : Z -> M U () }.

Class UserLaws (U : Type) {ops : UserOps U} := {
  (** [root] is a page table of a process; the byte at an address of it. *)
  um_ok : U -> Z -> Prop;
  um_byte : U -> Z -> Z -> option Z;
  um_byte_range s root va b : um_byte s root va = Some b -> 0 <= b < 256;
  um_copyin (root va len : Z) (Q : Z * list Z -> world U -> Prop) w :
    um_ok (w_st w) root -> 0 <= va < 2 ^ 64 -> 0 <= len ->
    match ubytes (um_byte (w_st w) root) va (Z.to_nat len) with
    | Some bs => Q (0, bs) w
    | None => forall bs, Q (-1, bs) w
    end -> wp (u_copyin root va len) Q w;
  um_copyout (root va : Z) (src : list Z) (Q : Z -> world U -> Prop) w :
    um_ok (w_st w) root -> 0 <= va < 2 ^ 64 ->
    (forall r s, um_ok s root ->
       (forall va', 0 <= va' -> is_Some (um_byte s root va') <-> is_Some (um_byte (w_st w) root va')) ->
       (forall va', 0 <= va' -> va' < va \/ va + Z.of_nat (length src) <= va' ->
          um_byte s root va' = um_byte (w_st w) root va') ->
       (r = 0 /\ ubytes (um_byte s root) va (length src) = Some (map u8 src)) \/
       (r = -1 /\ ubytes (um_byte (w_st w) root) va (length src) = None) ->
       Q r (set_st s w)) ->
    wp (u_copyout root va src) Q w;
  um_copyinstr (root va max : Z) (Q : Z * list Z -> world U -> Prop) w :
    um_ok (w_st w) root -> 0 <= va < 2 ^ 64 -> 0 <= max ->
    match ustr (um_byte (w_st w) root) va (Z.to_nat max) with
    | Some bs => Q (0, bs) w
    | None => forall bs, Q (-1, bs) w
    end -> wp (u_copyinstr root va max) Q w }.

(** ** Copies to and from user or kernel memory (kernel/proc.c) *)

(** Where a kernel routine copies to and from: user memory of the caller, or
    a buffer of the kernel. *)
Inductive dest := UserDst (va : Z) | KernDst.
Inductive source := UserSrc (va : Z) | KernSrc (bs : list Z).

Definition dst_add (dst : dest) (m : Z) : dest :=
  match dst with UserDst va => UserDst (u64 (va + m)) | KernDst => KernDst end.
Definition src_add (src : source) (m : Z) : source :=
  match src with UserSrc va => UserSrc (u64 (va + m)) | KernSrc bs => KernSrc (drop (Z.to_nat m) bs) end.

Section either.
Context {U : Type} {uops : UserOps U}.

Definition either_copyout (dst : dest) (bs : list Z) : M U Z :=
  match dst with
  | UserDst va => p ← myproc; u_copyout (my_pagetable p) va bs
  | KernDst => mret 0
  end.
Definition either_copyin (src : source) (len : Z) : M U (Z * list Z) :=
  match src with
  | UserSrc va => p ← myproc; u_copyin (my_pagetable p) va len
  | KernSrc bs => mret (0, take (Z.to_nat len) bs)
  end.

Context {ulaws : UserLaws U}.

(** The bytes [bs] are at [src]. *)
Definition src_has (p : me) (u : U) (src : source) (bs : list Z) : Prop :=
  match src with
  | KernSrc l => take (length bs) l = bs
  | UserSrc va => um_ok u (my_pagetable p) /\ 0 <= va /\ va + Z.of_nat (length bs) < 2 ^ 64 /\
      ubytes (um_byte u (my_pagetable p)) va (length bs) = Some bs
  end.

Lemma wp_either_copyin src bs (m : Z) (Q : Z * list Z -> world U -> Prop) w :
  src_has (w_me w) (w_st w) src bs -> 0 <= m <= Z.of_nat (length bs) ->
  Q (0, take (Z.to_nat m) bs) w -> wp (either_copyin src m) Q w.
Proof.
  intros Hs Hm HQ. destruct src as [va|l]; cbn [either_copyin src_has] in *.
  - destruct Hs as (Hok & Hva & Hlt & Hb). apply wp_bind, wp_myproc, um_copyin; [done|simpl; lia|lia|].
    destruct (ubytes_split _ va bs (Z.to_nat m) ltac:(lia) Hb) as [-> _]. done.
  - apply wp_ret. rewrite <- Hs in HQ. by rewrite take_take, Nat.min_l in HQ by lia.
Qed.

Lemma src_has_add p u src bs m : src_has p u src bs -> 0 <= m <= Z.of_nat (length bs) ->
  src_has p u (src_add src m) (drop (Z.to_nat m) bs).
Proof.
  intros Hs Hm. destruct src as [va|l]; cbn [src_add src_has] in *.
  - destruct Hs as (Hok & Hva & Hlt & Hb). unfold u64. rewrite Z.mod_small by lia. rewrite length_drop.
    split_and!; [done|lia|lia|].
    replace (va + m) with (va + Z.of_nat (Z.to_nat m)) by lia. by apply ubytes_split; [lia|].
  - rewrite <- Hs at 2. rewrite length_drop, skipn_firstn_comm. done.
Qed.

(** The effect of a call on the caller's memory: only [addr, addr + n) may
    change, and no page comes or goes. *)
Record read_frame (u u' : U) (root addr n : Z) : Prop := {
  rf_ok : um_ok u' root;
  rf_mapped : forall va, 0 <= va -> is_Some (um_byte u' root va) <-> is_Some (um_byte u root va);
  rf_other : forall va, 0 <= va -> va < addr \/ addr + n <= va -> um_byte u' root va = um_byte u root va }.

Lemma read_frame_refl u root a n : um_ok u root -> read_frame u u root a n.
Proof. by split. Qed.

(** One byte at [a], then the bytes after it. *)
Lemma read_frame_step u u1 u' root a n x bs : 0 <= a -> 0 <= n ->
  read_frame u u1 root a 1 -> um_byte u1 root a = Some x -> read_frame u1 u' root (a + 1) n ->
  ubytes (um_byte u' root) (a + 1) (length bs) = Some bs ->
  read_frame u u' root a (n + 1) /\ ubytes (um_byte u' root) a (length (x :: bs)) = Some (x :: bs).
Proof.
  intros Ha Hn [F1 F2 F3] Hx [G1 G2 G3] Hb. split.
  - split; [done| |]; intros va Hva; [by rewrite G2, F2|]. intros Hout. rewrite G3 by lia. apply F3; lia.
  - cbn [length ubytes]. rewrite G3 by lia. rewrite Hx. cbn. by rewrite Hb.
Qed.
End either.

(** ** kernel/kalloc.c and kernel/vm.c implement it *)

Section phys.
Context {sy : Symbols} {syok : SymbolsOk sy}.

#[global] Instance phys_user_ops : UserOps phys := {
  u_copyin := copyin;
  u_copyout := copyout;
  u_copyinstr := copyinstr;
  u_kalloc := kalloc;
  u_kfree := kfree }.

Definition phys_ok (s : phys) (root : Z) : Prop := exists l, vm_ok s root l /\ user_ok (p_mem s) root l.
Definition phys_byte (s : phys) (root va : Z) : option Z := rd (p_mem s) <$> ubyte (p_mem s) root va.

Lemma uread_ubytes s root n : forall va, uread (p_mem s) root va n = ubytes (phys_byte s root) va n.
Proof.
  induction n as [|n IH]; intros va; cbn [uread ubytes]; [done|]. rewrite <- IH. unfold phys_byte.
  by destruct (ubyte (p_mem s) root va).
Qed.

Lemma ustring_ustr s root n : forall va, ustring (p_mem s) root va n = ustr (phys_byte s root) va n.
Proof.
  induction n as [|n IH]; intros va; cbn [ustring ustr]; [done|]. rewrite <- IH.
  unfold phys_byte. by destruct (ubyte (p_mem s) root va).
Qed.

#[global] Instance phys_user_laws : UserLaws phys.
Proof.
  refine {| um_ok := phys_ok; um_byte := phys_byte |}.
  - intros s root va b. unfold phys_byte. destruct (ubyte (p_mem s) root va); [|done]. intros [= <-]. apply rd_range.
  - intros root va len Q w [l [[_ Hwf] _]] Hva Hlen HQ. simpl. unfold copyin.
    pose proof (copyin_loop_eq root w (wf_tables_pos _ _ _ Hwf) (S (Z.to_nat len)) va (Z.to_nat len) [] Hva ltac:(lia)) as Hin.
    rewrite Z2Nat.id in Hin by done. rewrite <- uread_ubytes in HQ.
    destruct (uread (p_mem (w_st w)) root va (Z.to_nat len)) as [bs|].
    + by eapply wp_intro.
    + destruct Hin as [bs Hin]. by eapply wp_intro.
  - intros root va src Q w [l [Hok Hu]] Hva HQ. eapply wp_mono; [|apply (wp_copyout_loop root l (S (length src)) va src w); [done..|lia]].
    intros r w' (s' & -> & [H1 H2 H3 H4 H5]).
    assert (Hub : forall va', ubyte (p_mem s') root va' = ubyte (p_mem (w_st w)) root va')
      by (intros va'; unfold ubyte; by rewrite (upage_ext (p_mem (w_st w)))).
    apply HQ.
    + exists l. split; [done|]. by eapply user_ok_frame.
    + intros va' _. unfold phys_byte. rewrite !fmap_is_Some. by rewrite Hub.
    + intros va' Hva' Hout. unfold phys_byte. rewrite Hub. destruct (ubyte (p_mem (w_st w)) root va') as [x|] eqn:E; [|done].
      simpl. f_equal. apply H4. intros i Hi E'.
      pose proof (ubyte_inj _ _ _ va' (va + i) x Hu Hva' ltac:(lia) E E'). lia.
    + destruct H5 as [[-> H5]|(-> & i & Hi & H5)]; [left|right]; (split; [done|]).
      * rewrite <- uread_ubytes. apply uread_spec; [apply length_map|]. intros i Hi.
        destruct (H5 i Hi) as (x & Hx & Hr). exists x. split; [by rewrite Hub|].
        rewrite Hr. change 0 with (u8 0) at 2. by rewrite map_nth.
      * apply ubytes_None. exists (Z.to_nat i). split; [lia|]. rewrite Z2Nat.id by lia. unfold phys_byte. by rewrite H5.
  - intros root va max Q w [l [[_ Hwf] _]] Hva Hlen HQ. simpl. unfold copyinstr.
    pose proof (copyinstr_loop_eq root w (wf_tables_pos _ _ _ Hwf) (S (Z.to_nat max)) va (Z.to_nat max) [] Hva ltac:(lia)) as Hin.
    rewrite Z2Nat.id in Hin by done. rewrite <- ustring_ustr in HQ.
    destruct (ustring (p_mem (w_st w)) root va (Z.to_nat max)) as [bs|].
    + by eapply wp_intro.
    + destruct Hin as [bs Hin]. by eapply wp_intro.
Defined.
End phys.
