(* ===== verification/Ring.v ===== *)
(** Ring buffers indexed by counters that wrap: pipes, console input, uart
    output and the virtio rings. *)

From S2P Require Import Prelude.

(** The [n] elements from index [i] of a buffer of [size] elements. *)
Definition ring (size : Z) (buf : list Z) (i : Z) (n : nat) : list Z :=
  map (fun k => nth (Z.to_nat ((i + Z.of_nat k) mod size)) buf 0) (seq 0 n).

Section ring.
Context (size : Z) (Hsize : 0 < size).

Lemma length_ring buf i n : length (ring size buf i n) = n.
Proof. unfold ring. by rewrite length_map, length_seq. Qed.

Lemma ring_wrap buf i j n : (i - j) mod size = 0 -> ring size buf i n = ring size buf j n.
Proof.
  intros H. unfold ring. apply map_ext. intros k. do 2 f_equal.
  replace (i + Z.of_nat k) with ((i - j) + (j + Z.of_nat k)) by lia. by rewrite <- Zplus_mod_idemp_l, H.
Qed.

Lemma ring_cons buf i n : ring size buf i (S n) = nth (Z.to_nat (i mod size)) buf 0 :: ring size buf (i + 1) n.
Proof.
  unfold ring. cbn [seq map]. rewrite Z.add_0_r. f_equal. rewrite <- seq_shift, map_map. apply map_ext. intros k.
  replace (i + 1 + Z.of_nat k) with (i + Z.of_nat (S k)) by lia. done.
Qed.

Lemma ring_app buf i n m : ring size buf i (n + m) = ring size buf i n ++ ring size buf (i + Z.of_nat n) m.
Proof.
  revert i. induction n as [|n IH]; intros i; cbn [Nat.add]; [by rewrite Z.add_0_r|].
  rewrite !ring_cons, IH. cbn [app]. replace (i + Z.of_nat (S n)) with (i + 1 + Z.of_nat n) by lia. done.
Qed.

Lemma ring_last buf i n : ring size buf i (S n) = ring size buf i n ++ [nth (Z.to_nat ((i + Z.of_nat n) mod size)) buf 0].
Proof. replace (S n) with (n + 1)%nat by lia. rewrite ring_app, ring_cons. done. Qed.

(** Writing outside the range does not change it. *)
Lemma ring_insert buf i n j c : Z.of_nat n <= j - i < size ->
  ring size (<[Z.to_nat (j mod size) := c]> buf) i n = ring size buf i n.
Proof.
  intros Hj. unfold ring. apply map_ext_in. intros k Hk%list_elem_of_In%elem_of_seq. rewrite !nth_lookup. f_equal.
  apply list_lookup_insert_ne.
  assert (Hne : j mod size <> (i + Z.of_nat k) mod size).
  2:{ pose proof (Z.mod_pos_bound j size Hsize). pose proof (Z.mod_pos_bound (i + Z.of_nat k) size Hsize). lia. }
  intros E. assert (E2 : (j - (i + Z.of_nat k)) mod size = 0) by (by rewrite Zminus_mod, E, Z.sub_diag).
  rewrite Z.mod_small in E2; lia.
Qed.

Lemma ring_snoc buf i n c : length buf = Z.to_nat size -> Z.of_nat n < size ->
  ring size (<[Z.to_nat ((i + Z.of_nat n) mod size) := c]> buf) i (S n) = ring size buf i n ++ [c].
Proof.
  intros Hl Hn. rewrite ring_last, ring_insert by lia. do 2 f_equal. rewrite nth_lookup, list_lookup_insert_eq; [done|].
  pose proof (Z.mod_pos_bound (i + Z.of_nat n) size Hsize). lia.
Qed.
End ring.

(** ** Counters modulo [2 ^ w], for a buffer whose size divides it *)

Section counters.
Context (size modulus : Z) (Hsize : 0 < size) (Hmod : modulus mod size = 0) (Hlt : size < modulus).

(** How far counter [w] is ahead of counter [r]. *)
Definition ahead (r w : Z) : Z := (w - r) mod modulus.

Lemma ahead_range r w : 0 <= ahead r w < modulus.
Proof using Hlt Hsize. apply Z.mod_pos_bound. lia. Qed.

Lemma ahead_eq r w : exists k, w = r + ahead r w + modulus * k.
Proof using Hlt Hsize. exists ((w - r) / modulus). unfold ahead. pose proof (Z.div_mod (w - r) modulus). lia. Qed.

Lemma ahead_zero r w : 0 <= r < modulus -> 0 <= w < modulus -> ahead r w = 0 <-> r = w.
Proof using Hlt Hsize.
  intros Hr Hw. split; [|intros ->; unfold ahead; by rewrite Z.sub_diag].
  intros H. destruct (ahead_eq r w) as [k Hk]. rewrite H in Hk. assert (k = 0) as -> by nia. lia.
Qed.

Lemma ahead_w r w : ahead r w < modulus - 1 -> ahead r ((w + 1) mod modulus) = ahead r w + 1.
Proof using Hlt Hsize.
  intros H. pose proof (ahead_range r w). unfold ahead in *. rewrite Zminus_mod_idemp_l.
  replace (w + 1 - r) with (w - r + 1) by lia. rewrite <- Zplus_mod_idemp_l. apply Z.mod_small. lia.
Qed.

Lemma ahead_w_back r w : 0 < ahead r w -> ahead r ((w - 1) mod modulus) = ahead r w - 1.
Proof using Hlt Hsize.
  intros H. pose proof (ahead_range r w). unfold ahead in *. rewrite Zminus_mod_idemp_l.
  replace (w - 1 - r) with (w - r - 1) by lia. rewrite <- Zminus_mod_idemp_l. apply Z.mod_small. lia.
Qed.

Lemma ahead_r r w : 0 < ahead r w -> ahead ((r + 1) mod modulus) w = ahead r w - 1.
Proof using Hlt Hsize.
  intros H. pose proof (ahead_range r w). unfold ahead in *. rewrite Zminus_mod_idemp_r.
  replace (w - (r + 1)) with (w - r - 1) by lia. rewrite <- Zminus_mod_idemp_l. apply Z.mod_small. lia.
Qed.

Lemma ahead_full r w : 0 <= w < modulus -> w = (r + size) mod modulus <-> ahead r w = size.
Proof using Hlt Hsize.
  intros Hw. unfold ahead. split.
  - intros ->. rewrite Zminus_mod_idemp_l. replace (r + size - r) with size by lia. apply Z.mod_small. lia.
  - intros H. destruct (ahead_eq r w) as [k Hk]. unfold ahead in Hk. rewrite H in Hk. rewrite <- (Z.mod_small w modulus) by lia.
    rewrite Hk. by rewrite Z.mul_comm, Z_mod_plus_full.
Qed.

(** A counter and the index it stands for select the same slot. *)
Lemma wrap_mod x : (x mod modulus) mod size = x mod size.
Proof using Hlt Hsize Hmod. apply Z.mod_mod_divide. by apply Z.mod_divide; [lia|]. Qed.

Lemma wrap_diff x : (x mod modulus - x) mod size = 0.
Proof using Hlt Hsize Hmod. by rewrite Zminus_mod, wrap_mod, Z.sub_diag. Qed.

Lemma ahead_slot r w : w mod size = (r + ahead r w) mod size.
Proof using Hlt Hsize Hmod.
  destruct (ahead_eq r w) as [k Hk]. rewrite Hk at 1. apply Z.mod_divide in Hmod as [q Hq]; [|lia].
  replace (modulus * k) with (q * k * size) by (rewrite Hq; lia). apply Z_mod_plus_full.
Qed.

Lemma ahead_add r w e : ahead r w + ahead w e < modulus -> ahead r e = ahead r w + ahead w e.
Proof using Hlt Hsize.
  intros H. pose proof (ahead_range r w). pose proof (ahead_range w e). unfold ahead in *.
  replace (e - r) with ((w - r) + (e - w)) by lia. rewrite Zplus_mod. apply Z.mod_small. lia.
Qed.

(** The range up to [e] is the range up to [w], then the one from it. *)
Lemma ring_split buf r w e : ahead r w + ahead w e < modulus ->
  ring size buf r (Z.to_nat (ahead r e)) = ring size buf r (Z.to_nat (ahead r w)) ++ ring size buf w (Z.to_nat (ahead w e)).
Proof using Hlt Hsize Hmod.
  intros H. pose proof (ahead_range r w). pose proof (ahead_range w e). rewrite (ahead_add r w e), Z2Nat.inj_add, ring_app by lia.
  f_equal. apply ring_wrap. rewrite Z2Nat.id by lia. by rewrite Zminus_mod, (ahead_slot r w), Z.sub_diag.
Qed.

(** [buf[w++ % size] = c] and [buf[r++ % size]]. *)
Lemma ring_push buf r w c : length buf = Z.to_nat size -> ahead r w < size ->
  ring size (<[Z.to_nat (w mod size) := c]> buf) r (Z.to_nat (ahead r ((w + 1) mod modulus))) =
  ring size buf r (Z.to_nat (ahead r w)) ++ [c].
Proof using Hlt Hsize Hmod.
  intros Hl Ha. pose proof (ahead_range r w). rewrite ahead_w by lia.
  replace (Z.to_nat (ahead r w + 1)) with (S (Z.to_nat (ahead r w))) by lia. rewrite ahead_slot with (r := r).
  replace (r + ahead r w) with (r + Z.of_nat (Z.to_nat (ahead r w))) at 1 by lia. apply ring_snoc; [done|done|lia].
Qed.

(** A store at [e] leaves the range before it. *)
Lemma ring_store buf r w e c : ahead r w <= ahead r e < size ->
  ring size (<[Z.to_nat (e mod size) := c]> buf) r (Z.to_nat (ahead r w)) = ring size buf r (Z.to_nat (ahead r w)).
Proof using Hlt Hsize Hmod.
  intros H. pose proof (ahead_range r w). rewrite (ahead_slot r e). apply ring_insert; [done|lia].
Qed.

Lemma ring_unpush buf r w : 0 < ahead r w ->
  ring size buf r (Z.to_nat (ahead r w)) =
  ring size buf r (Z.to_nat (ahead r ((w - 1) mod modulus))) ++ [nth (Z.to_nat (((w - 1) mod modulus) mod size)) buf 0].
Proof using Hlt Hsize Hmod.
  intros H. pose proof (ahead_range r w). rewrite (ahead_slot r ((w - 1) mod modulus)), ahead_w_back by done.
  replace (Z.to_nat (ahead r w)) with (S (Z.to_nat (ahead r w - 1))) by lia. rewrite ring_last.
  by rewrite Z2Nat.id by lia.
Qed.

Lemma ring_pop buf r w : 0 < ahead r w ->
  ring size buf r (Z.to_nat (ahead r w)) =
  nth (Z.to_nat (r mod size)) buf 0 :: ring size buf ((r + 1) mod modulus) (Z.to_nat (ahead ((r + 1) mod modulus) w)).
Proof using Hlt Hsize Hmod.
  intros Ha. pose proof (ahead_range r w). rewrite ahead_r by done.
  replace (Z.to_nat (ahead r w)) with (S (Z.to_nat (ahead r w - 1))) by lia. rewrite ring_cons. f_equal.
  symmetry. apply ring_wrap. apply wrap_diff.
Qed.
End counters.
