(* ===== verification/Pipe.v ===== *)
(** kernel/pipe.c: pipes as ring buffers with 32-bit counters, blocking reads
    and writes, and closing.  [pipealloc] is in File.v, with the file table. *)

From S2P Require Import Prelude KMonad UserMem Ring.

Definition PIPESIZE : Z := 512.

(** [struct pipe], without its lock, which is [L_pipe pi]. *)
Record pipe := Pipe {
  pi_data : list Z;
  nread : Z;
  nwrite : Z;
  readopen : Z;
  writeopen : Z }.

(** The pipes of the kernel, by the address of the page they are in. *)
Record pipest (U : Type) := PipeSt {
  ps_mem : U;
  ps_pipes : gmap Z pipe }.
Arguments PipeSt {U} _ _.
Arguments ps_mem {U} _.
Arguments ps_pipes {U} _.

(** [pi->data[pi->nwrite++ % PIPESIZE] = ch] *)
Definition push (ch : Z) (p : pipe) : pipe :=
  Pipe (<[Z.to_nat (nwrite p mod PIPESIZE) := ch]> (pi_data p)) (nread p) (u32 (nwrite p + 1)) (readopen p) (writeopen p).
(** [ch = pi->data[pi->nread++ % PIPESIZE]] *)
Definition front (p : pipe) : Z := nth (Z.to_nat (nread p mod PIPESIZE)) (pi_data p) 0.
Definition pop (p : pipe) : pipe :=
  Pipe (pi_data p) (u32 (nread p + 1)) (nwrite p) (readopen p) (writeopen p).
Definition close_end (writable : bool) (p : pipe) : pipe :=
  if writable then Pipe (pi_data p) (nread p) (nwrite p) (readopen p) 0
  else Pipe (pi_data p) (nread p) (nwrite p) 0 (writeopen p).

Section pipe.
Context {U : Type} {uops : UserOps U}.

Definition pmem {A} (m : M U A) : M (pipest U) A := zoom ps_mem (fun s u => PipeSt u (ps_pipes s)) m.

Definition getpipe (pi : Z) : M (pipest U) pipe :=
  s ← get;
  match ps_pipes s !! pi with Some p => mret p | None => ub "pipe: not allocated" end.
Definition setpipe (pi : Z) (p : pipe) : M (pipest U) () :=
  modify (fun s => PipeSt (ps_mem s) (<[pi := p]> (ps_pipes s))).

Definition pipeclose (pi : Z) (writable : bool) : M (pipest U) () :=
  acquire (L_pipe pi);;
  p ← getpipe pi;
  setpipe pi (close_end writable p);;
  wakeup (if writable then ChPipeRead pi else ChPipeWrite pi);;
  p ← getpipe pi;
  if (readopen p =? 0) && (writeopen p =? 0) then
    release (L_pipe pi);;
    modify (fun s => PipeSt (ps_mem s) (delete pi (ps_pipes s)));;
    pmem (u_kfree pi)
  else release (L_pipe pi).

(** After the loop of [pipewrite]. *)
Definition pipewrite_end (pi i : Z) : M (pipest U) segment :=
  wakeup (ChPipeRead pi);;
  release (L_pipe pi);;
  mret (Returned i).

(** The loop of [pipewrite] from [i]; [root] is the caller's page table. *)
Fixpoint pipewrite_loop (fuel : nat) (pi root addr n i : Z) : M (pipest U) segment :=
  match fuel with
  | O => ub "pipewrite: fuel"
  | S f =>
      if i <? n then
        p ← getpipe pi;
        stop ← (if readopen p =? 0 then mret true else killed);
        if (stop : bool) then
          release (L_pipe pi);;
          mret (Returned (-1))
        else if nwrite p =? u32 (nread p + PIPESIZE) then
          wakeup (ChPipeRead pi);;
          park (L_pipe pi);;
          mret (Slept (ChPipeWrite pi) i)
        else
          x ← pmem (u_copyin root (u64 (addr + i)) 1);
          match x with
          | (r, ch :: _) =>
              if r =? -1 then pipewrite_end pi i
              else
                setpipe pi (push ch p);;
                pipewrite_loop f pi root addr n (i + 1)
          | (r, []) => if r =? -1 then pipewrite_end pi i else ub "pipewrite: ch"
          end
      else pipewrite_end pi i
  end.

(** From the start ([i = 0]) or from a wakeup: [sleep] takes the lock again. *)
Definition pipewrite_from (pi addr n i : Z) : M (pipest U) segment :=
  pr ← myproc;
  acquire (L_pipe pi);;
  pipewrite_loop (S (Z.to_nat (n - i))) pi (my_pagetable pr) addr n i.

Definition pipewrite (pi addr n : Z) : M (pipest U) segment := pipewrite_from pi addr n 0.

(** The second loop of [piperead], from [i]. *)
Fixpoint piperead_loop (fuel : nat) (pi root addr n i : Z) : M (pipest U) Z :=
  match fuel with
  | O => ub "piperead: fuel"
  | S f =>
      if i <? n then
        p ← getpipe pi;
        if nread p =? nwrite p then mret i
        else
          let ch := front p in
          setpipe pi (pop p);;
          r ← pmem (u_copyout root (u64 (addr + i)) [ch]);
          if r =? -1 then mret i
          else piperead_loop f pi root addr n (i + 1)
      else mret i
  end.

(** A wakeup runs the call from the start: its first loop has no variable. *)
Definition piperead (pi addr n : Z) : M (pipest U) segment :=
  pr ← myproc;
  acquire (L_pipe pi);;
  p ← getpipe pi;
  if (nread p =? nwrite p) && negb (writeopen p =? 0) then
    k ← killed;
    if (k : bool) then
      release (L_pipe pi);;
      mret (Returned (-1))
    else
      park (L_pipe pi);;
      mret (Slept (ChPipeRead pi) 0)
  else
    i ← piperead_loop (S (Z.to_nat n)) pi (my_pagetable pr) addr n 0;
    wakeup (ChPipeWrite pi);;
    release (L_pipe pi);;
    mret (Returned i).
End pipe.

(** ** The ring buffer *)

Definition used (p : pipe) : Z := u32 (nwrite p - nread p).
Definition contents (p : pipe) : list Z := ring PIPESIZE (pi_data p) (nread p) (Z.to_nat (used p)).

Record pipe_ok (p : pipe) : Prop := {
  po_data : length (pi_data p) = Z.to_nat PIPESIZE;
  po_nread : 0 <= nread p < 2 ^ 32;
  po_nwrite : 0 <= nwrite p < 2 ^ 32;
  po_used : used p <= PIPESIZE }.

Lemma length_contents p : length (contents p) = Z.to_nat (used p).
Proof. apply length_ring. Qed.

Lemma used_range p : 0 <= used p < 2 ^ 32.
Proof. apply u32_range. Qed.

Lemma full_iff p : pipe_ok p -> nwrite p = u32 (nread p + PIPESIZE) <-> used p = PIPESIZE.
Proof. intros Hp. by apply (ahead_full PIPESIZE (2 ^ 32)); [..|apply Hp]. Qed.

Lemma empty_iff p : pipe_ok p -> nread p = nwrite p <-> used p = 0.
Proof. intros Hp. symmetry. by apply (ahead_zero PIPESIZE (2 ^ 32)); [..|apply Hp|apply Hp]. Qed.

Lemma used_push ch p : pipe_ok p -> used p < PIPESIZE -> used (push ch p) = used p + 1.
Proof. intros Hp Hlt. apply (ahead_w PIPESIZE (2 ^ 32)); [done..|]. change (used p < 2 ^ 32 - 1). unfold PIPESIZE in *. lia. Qed.

Lemma used_pop p : pipe_ok p -> 0 < used p -> used (pop p) = used p - 1.
Proof. intros Hp Hpos. by apply (ahead_r PIPESIZE (2 ^ 32)). Qed.

Lemma push_ok ch p : pipe_ok p -> used p < PIPESIZE -> pipe_ok (push ch p).
Proof.
  intros Hp Hlt. pose proof (used_push ch p Hp Hlt). destruct Hp. split; simpl; [by rewrite length_insert|done|auto with word|lia].
Qed.

Lemma pop_ok p : pipe_ok p -> 0 < used p -> pipe_ok (pop p).
Proof. intros Hp Hlt. pose proof (used_pop p Hp Hlt). destruct Hp. split; simpl; [done|auto with word|done|lia]. Qed.

Lemma contents_push ch p : pipe_ok p -> used p < PIPESIZE -> contents (push ch p) = contents p ++ [ch].
Proof. intros Hp Hlt. by apply (ring_push PIPESIZE (2 ^ 32)); [..|apply Hp|]. Qed.

Lemma contents_pop p : pipe_ok p -> 0 < used p -> contents p = front p :: contents (pop p).
Proof. intros Hp Hpos. by apply (ring_pop PIPESIZE (2 ^ 32)). Qed.

Lemma contents_empty p : used p = 0 -> contents p = [].
Proof. intros H. unfold contents. by rewrite H. Qed.
