(* ===== verification/PipeSpec.v ===== *)
(** Specifications of [pipewrite], [piperead] and [pipeclose] of kernel/pipe.c
    up to the point where the call returns or goes to sleep. *)

From S2P Require Import Prelude KMonad UserMem Pipe.

Section spec.
Context {U : Type} {uops : UserOps U} {ulaws : UserLaws U}.
Implicit Types (w : world (pipest U)) (u : U) (p : pipe).

Definition is_killed w : bool := negb (my_killed (w_me w) =? 0).
Definition has_pipe w (pi : Z) p : Prop := ps_pipes (w_st w) !! pi = Some p.

(** The pipes after a call on [pi], which leaves it [p]. *)
Definition with_pipe w u (pi : Z) p : pipest U := PipeSt u (<[pi := p]> (ps_pipes (w_st w))).

Lemma wp_getpipe pi p (Q : pipe -> world (pipest U) -> Prop) w : has_pipe w pi p -> Q p w -> wp (getpipe pi) Q w.
Proof. intros Hp HQ. apply wp_bind, wp_get. unfold has_pipe in Hp. by rewrite Hp. Qed.

Lemma wp_setpipe pi p (Q : () -> world (pipest U) -> Prop) w :
  Q () (set_st (with_pipe w (ps_mem (w_st w)) pi p) w) -> wp (setpipe pi p) Q w.
Proof. intros HQ. by apply wp_modify. Qed.

Lemma same_open_push ch p : readopen (push ch p) = readopen p /\ writeopen (push ch p) = writeopen p.
Proof. done. Qed.

(** What is common to the outcomes of a call: the caller's locks are free
    again, and [p] has become [p']. *)
Record seg_frame w w' u' (pi : Z) p p' : Prop := {
  sf_me : w_me w' = w_me w;
  sf_held : w_held w' = [];
  sf_st : w_st w' = with_pipe w u' pi p';
  sf_ok : pipe_ok p';
  sf_open : readopen p' = readopen p /\ writeopen p' = writeopen p }.

(** The outcome of [pipewrite] from [i]: [k] bytes of the caller's memory have
    been appended. *)
Inductive write_out (pi root addr n i : Z) w u p w' p' (bs : list Z) : segment -> Prop :=
| wo_done :
    (n <= i + Z.of_nat (length bs) \/ um_byte u root (addr + i + Z.of_nat (length bs)) = None) ->
    w_evs w' = w_evs w ++ [EvWakeup (ChPipeRead pi)] ->
    write_out pi root addr n i w u p w' p' bs (Returned (i + Z.of_nat (length bs)))
| wo_stop :
    bs = [] -> i < n -> readopen p = 0 \/ is_killed w = true -> w_evs w' = w_evs w ->
    write_out pi root addr n i w u p w' p' bs (Returned (-1))
| wo_full :
    used p' = PIPESIZE -> readopen p <> 0 -> is_killed w = false -> i + Z.of_nat (length bs) < n ->
    w_evs w' = w_evs w ++ [EvWakeup (ChPipeRead pi)] ->
    write_out pi root addr n i w u p w' p' bs (Slept (ChPipeWrite pi) (i + Z.of_nat (length bs))).

Definition write_post (pi root addr n i : Z) w p (seg : segment) w' : Prop :=
  exists p' bs, seg_frame w w' (ps_mem (w_st w)) pi p p' /\
    ubytes (um_byte (ps_mem (w_st w)) root) (addr + i) (length bs) = Some bs /\
    contents p' = contents p ++ bs /\
    (bs <> [] -> i + Z.of_nat (length bs) <= n) /\
    write_out pi root addr n i w (ps_mem (w_st w)) p w' p' bs seg.

Lemma insert_self w pi p : has_pipe w pi p -> with_pipe w (ps_mem (w_st w)) pi p = w_st w.
Proof. intros H. unfold with_pipe. destruct (w_st w) as [u m] eqn:E. unfold has_pipe in H. rewrite E in H. simpl in *. by rewrite insert_id. Qed.

Lemma wp_pipewrite_end pi root addr n i w p :
  has_pipe w pi p -> pipe_ok p -> w_held w = [L_pipe pi] ->
  (n <= i \/ um_byte (ps_mem (w_st w)) root (addr + i) = None) ->
  wp (pipewrite_end pi i) (write_post pi root addr n i w p) w.
Proof.
  intros Hp Hok Hh Hn. unfold pipewrite_end. apply wp_bind, wp_emit.
  eapply wp_bind, wp_release; [exact Hh|apply not_elem_of_nil|]. apply wp_ret. exists p, [].
  split; [split; try done; simpl; by rewrite insert_self|]. split; [done|]. split; [by rewrite app_nil_r|]. split; [done|].
  replace i with (i + Z.of_nat (@length Z [])) at 2 by (simpl; lia). apply wo_done; [|done]. simpl. by rewrite !Z.add_0_r.
Qed.

Lemma write_post_step pi root addr n i w p ch seg w' :
  has_pipe w pi p -> um_byte (ps_mem (w_st w)) root (addr + i) = Some ch -> pipe_ok p -> used p < PIPESIZE -> i < n ->
  readopen p <> 0 -> is_killed w = false ->
  write_post pi root addr n (i + 1) (set_st (with_pipe w (ps_mem (w_st w)) pi (push ch p)) w) (push ch p) seg w' ->
  write_post pi root addr n i w p seg w'.
Proof.
  intros Hp Hb Hok Hlt Hin Ho Hk (p' & bs & [H1 H2 H3 H4 H5] & Hbs & Hc & Hle & Hout). exists p', (ch :: bs). simpl in *.
  split; [split; try done; rewrite H3; unfold with_pipe; simpl; by rewrite insert_insert_eq|].
  replace (addr + (i + 1)) with (addr + i + 1) in Hbs by lia. rewrite Hb. cbn. rewrite Hbs. split; [done|].
  split; [by rewrite Hc, contents_push, <- app_assoc|]. split.
  { intros _. destruct bs as [|b bs]; [simpl; lia|]. specialize (Hle ltac:(done)). simpl in *. lia. }
  assert (E : i + Z.of_nat (length (ch :: bs)) = i + 1 + Z.of_nat (length bs)) by (simpl; lia).
  inversion Hout as [Hd He|Hb0 Hin' Hs He|Hu Ho' Hk' Hlt' He]; subst seg.
  - rewrite <- E. apply wo_done; [|done]. rewrite E. destruct Hd as [Hd|Hd]; [left; lia|right].
    rewrite <- Hd. f_equal. lia.
  - destruct Hs as [Hs|Hs]; [done|]. unfold is_killed in *. simpl in Hs. congruence.
  - rewrite <- E. apply wo_full; try done. by rewrite E.
Qed.

Lemma wp_pipewrite_loop pi root addr n : 0 <= addr -> addr + Z.max 0 n <= 2 ^ 64 -> forall fuel i w p,
  um_ok (ps_mem (w_st w)) root -> has_pipe w pi p -> pipe_ok p -> w_held w = [L_pipe pi] -> 0 <= i ->
  (Z.to_nat (n - i) < fuel)%nat ->
  wp (pipewrite_loop fuel pi root addr n i) (write_post pi root addr n i w p) w.
Proof.
  intros Ha Han. induction fuel as [|fuel IH]; intros i w p Hu Hp Hok Hh Hi Hf; [lia|]. cbn [pipewrite_loop].
  destruct (Z.ltb_spec i n) as [Hin|Hin]; [|by apply wp_pipewrite_end; [..|left]].
  eapply wp_bind, wp_getpipe; [exact Hp|]. apply wp_bind.
  assert (Hstop : wp (if readopen p =? 0 then mret true else killed) (fun b w' => w' = w /\
     b = ((readopen p =? 0) || is_killed w)) w).
  { destruct (readopen p =? 0); [by apply wp_ret|]. apply wp_killed; [|done]. rewrite Hh.
    by intros ?%list_elem_of_singleton. }
  eapply wp_mono; [|exact Hstop]. intros stop w' [-> Hst]. destruct stop.
  { eapply wp_bind, wp_release; [exact Hh|apply not_elem_of_nil|]. apply wp_ret. exists p, []. split.
    { split; try done. simpl. by rewrite insert_self. }
    split; [done|]. split; [by rewrite app_nil_r|]. split; [done|]. apply wo_stop; try done.
    symmetry in Hst. apply orb_true_iff in Hst as [Hst|Hst]; [left; lia|by right]. }
  symmetry in Hst. apply orb_false_iff in Hst as [Ho%Z.eqb_neq Hk].
  destruct (Z.eqb_spec (nwrite p) (u32 (nread p + PIPESIZE))) as [Hful|Hful].
  { apply full_iff in Hful; [|done]. apply wp_bind, wp_emit, wp_bind, wp_park; [done|]. apply wp_ret. exists p, []. split.
    { split; try done. simpl. by rewrite insert_self. }
    split; [done|]. split; [by rewrite app_nil_r|]. split; [done|].
    replace i with (i + Z.of_nat (@length Z [])) at 2 by (simpl; lia). apply wo_full; try done. simpl. lia. }
  rewrite full_iff in Hful by done. assert (Hlt : used p < PIPESIZE) by (destruct Hok; lia).
  assert (Hu64 : u64 (addr + i) = addr + i) by (apply u64_small; lia).
  apply wp_bind, wp_zoom. simpl. apply um_copyin; [done|rewrite Hu64; lia|lia|]. rewrite Hu64. simpl.
  destruct (um_byte (ps_mem (w_st w)) root (addr + i)) as [ch|] eqn:E; cbn.
  - apply wp_bind, wp_setpipe. destruct w as [me h e [u m]]. simpl in *.
    eapply wp_mono; [|apply (IH (i + 1) _ (push ch p)); [done|apply lookup_insert_eq|by apply push_ok|done|lia|lia]].
    intros seg w'. apply (write_post_step pi root addr n i (World me h e (PipeSt u m)) p ch seg w'); try done.
  - intros bs. assert (Hend : wp (pipewrite_end pi i) (write_post pi root addr n i w p) w)
      by (apply wp_pipewrite_end; [done|done|done|by right]).
    destruct w as [me h e [u m]]. by destruct bs.
Qed.

(** *** piperead *)

(** The outcome of the second loop of [piperead] from [i]: the bytes [bs] are
    delivered; a byte that cannot be copied out is lost. *)
Record read_post (pi root addr n i : Z) w p (r : Z) w' u' p' (bs lost : list Z) : Prop := {
  rp_r : r = i + Z.of_nat (length bs);
  rp_me : w_me w' = w_me w;
  rp_held : w_held w' = w_held w;
  rp_evs : w_evs w' = w_evs w;
  rp_st : w_st w' = with_pipe w u' pi p';
  rp_ok : pipe_ok p';
  rp_open : readopen p' = readopen p /\ writeopen p' = writeopen p;
  rp_frame : read_frame (ps_mem (w_st w)) u' root (addr + i) (Z.max 0 (n - i));
  rp_contents : contents p = bs ++ lost ++ contents p';
  rp_bytes : ubytes (um_byte u' root) (addr + i) (length bs) = Some (map u8 bs);
  rp_max : bs <> [] -> r <= n;
  rp_lost : lost = [] /\ (n <= r \/ contents p' = []) \/
    (exists b, lost = [b]) /\ r < n /\ um_byte (ps_mem (w_st w)) root (addr + r) = None }.

Lemma read_post_stop pi root addr n i w p :
  um_ok (ps_mem (w_st w)) root -> has_pipe w pi p -> pipe_ok p -> n <= i \/ contents p = [] ->
  read_post pi root addr n i w p i w (ps_mem (w_st w)) p [] [].
Proof.
  intros Hu Hp Hok Hn. split; try done; [simpl; lia|by rewrite insert_self|by left].
Qed.

Lemma read_post_step pi root addr n i w p u1 r w' u' p' bs lost :
  has_pipe w pi p -> pipe_ok p -> 0 < used p -> 0 <= addr + i -> i < n ->
  read_frame (ps_mem (w_st w)) u1 root (addr + i) 1 -> um_byte u1 root (addr + i) = Some (u8 (front p)) ->
  read_post pi root addr n (i + 1) (set_st (with_pipe w u1 pi (pop p)) w) (pop p) r w' u' p' bs lost ->
  read_post pi root addr n i w p r w' u' p' (front p :: bs) lost.
Proof.
  intros Hp Hok Hpos Hai Hin [F1 F2 F3] Hfirst [R1 R2 R3 R4 R5 R6 R7 [G1 G2 G3] R9 R10 R11 R12]. simpl in *.
  assert (Hother : forall va, 0 <= va -> va < addr + i \/ addr + i + Z.max 0 (n - i) <= va ->
    um_byte u' root va = um_byte (ps_mem (w_st w)) root va).
  { intros va Hva Hout. rewrite G3 by lia. apply F3; lia. }
  split; try done.
  - rewrite R1. simpl. lia.
  - rewrite R5. unfold with_pipe. simpl. by rewrite insert_insert_eq.
  - split; [done| |done]. intros va Hva. by rewrite G2, F2.
  - rewrite (contents_pop p) by done. simpl. by rewrite R9.
  - cbn [length ubytes map]. rewrite G3 by lia. rewrite Hfirst. cbn.
    replace (addr + (i + 1)) with (addr + i + 1) in R10 by lia. by rewrite R10.
  - intros _. destruct bs as [|b bs]; [|by apply R11]. simpl in R1. lia.
  - destruct R12 as [?|(H1 & H2 & H3)]; [by left|right]. split_and!; [done|done|].
    apply eq_None_not_Some. rewrite <- F2 by lia. rewrite H3. by intros [? ?].
Qed.

Lemma wp_piperead_loop pi root addr n : 0 <= addr -> addr + Z.max 0 n <= 2 ^ 64 -> forall fuel i w p,
  um_ok (ps_mem (w_st w)) root -> has_pipe w pi p -> pipe_ok p -> 0 <= i -> (Z.to_nat (n - i) < fuel)%nat ->
  wp (piperead_loop fuel pi root addr n i) (fun r w' => exists u' p' bs lost,
    read_post pi root addr n i w p r w' u' p' bs lost) w.
Proof.
  intros Ha Han. induction fuel as [|fuel IH]; intros i w p Hu Hp Hok Hi Hf; [lia|]. cbn [piperead_loop].
  destruct (Z.ltb_spec i n) as [Hin|Hin].
  2:{ apply wp_ret. do 4 eexists. apply read_post_stop; try done. by left. }
  eapply wp_bind, wp_getpipe; [exact Hp|]. destruct (Z.eqb_spec (nread p) (nwrite p)) as [He|He].
  { apply wp_ret. do 4 eexists. apply read_post_stop; try done. right. by apply contents_empty, empty_iff. }
  rewrite empty_iff in He by done. pose proof (used_range p) as Hur. assert (Hpos : 0 < used p) by lia.
  assert (Hu64 : u64 (addr + i) = addr + i) by (apply u64_small; lia).
  apply wp_bind, wp_setpipe, wp_bind, wp_zoom. simpl. apply um_copyout; [done|rewrite Hu64; lia|]. rewrite Hu64. simpl.
  intros r u1 Hok1 Hm1 Hoth1 Hres. destruct Hres as [[-> Hb]|[-> Hb]]; simpl.
  - destruct (um_byte u1 root (addr + i)) as [x|] eqn:E; [|done]. injection Hb as ->.
    set (w1 := World _ _ _ _). assert (Hw1 : w1 = set_st (with_pipe w u1 pi (pop p)) w) by done. rewrite Hw1. clear w1 Hw1.
    eapply wp_mono; [|apply (IH (i + 1) _ (pop p)); [done|apply lookup_insert_eq|by apply pop_ok|lia|lia]].
    intros r w' (u' & p' & bs & lost & Hpost). exists u', p', (front p :: bs), lost.
    eapply (read_post_step pi root addr n i w p u1); try done; lia.
  - apply wp_ret. exists u1, (pop p), [], [front p]. split; simpl; try done; [lia|by apply pop_ok| |by apply contents_pop|].
    + split; [done|done|]. intros va Hva Hout. apply Hoth1; lia.
    + right. split_and!; [by eexists|done|]. by destruct (um_byte (ps_mem (w_st w)) root (addr + i)).
Qed.

(** *** Whole calls *)

Definition args_ok (addr n : Z) : Prop := 0 <= addr /\ addr + Z.max 0 n <= 2 ^ 64.

Lemma wp_pipewrite_from pi addr n i w p :
  um_ok (ps_mem (w_st w)) (my_pagetable (w_me w)) -> has_pipe w pi p -> pipe_ok p -> w_held w = [] ->
  args_ok addr n -> 0 <= i ->
  wp (pipewrite_from pi addr n i) (write_post pi (my_pagetable (w_me w)) addr n i w p) w.
Proof.
  intros Hu Hp Hok Hh [Ha Hn] Hi. apply wp_bind, wp_myproc, wp_bind, wp_acquire; [rewrite Hh; apply not_elem_of_nil|].
  rewrite Hh. eapply wp_mono; [|eapply (wp_pipewrite_loop pi _ addr n Ha Hn); [done..|lia]].
  intros seg w' (p' & bs & [] & H). exists p', bs. split; [by split|]. split_and!; [apply H..|].
  destruct H as (_ & _ & _ & H). inversion H; [apply wo_done|apply wo_stop|apply wo_full]; done.
Qed.

(** The outcome of [piperead]. *)
Inductive read_out (pi addr n : Z) w p w' : segment -> Prop :=
| ro_killed : w_st w' = w_st w -> is_killed w = true -> contents p = [] -> writeopen p <> 0 -> w_evs w' = w_evs w ->
    read_out pi addr n w p w' (Returned (-1))
| ro_empty : w_st w' = w_st w -> is_killed w = false -> contents p = [] -> writeopen p <> 0 -> w_evs w' = w_evs w ->
    read_out pi addr n w p w' (Slept (ChPipeRead pi) 0)
| ro_done r w1 u' p' bs lost : contents p <> [] \/ writeopen p = 0 ->
    read_post pi (my_pagetable (w_me w)) addr n 0 w p r w1 u' p' bs lost -> w_st w' = w_st w1 ->
    w_evs w' = w_evs w ++ [EvWakeup (ChPipeWrite pi)] ->
    read_out pi addr n w p w' (Returned r).

Lemma wp_piperead pi addr n w p :
  um_ok (ps_mem (w_st w)) (my_pagetable (w_me w)) -> has_pipe w pi p -> pipe_ok p -> w_held w = [] ->
  args_ok addr n ->
  wp (piperead pi addr n) (fun seg w' => w_me w' = w_me w /\ w_held w' = [] /\ read_out pi addr n w p w' seg) w.
Proof.
  intros Hu Hp Hok Hh [Ha Hn]. apply wp_bind, wp_myproc, wp_bind, wp_acquire; [rewrite Hh; apply not_elem_of_nil|].
  rewrite Hh. eapply wp_bind, wp_getpipe; [exact Hp|].
  destruct ((nread p =? nwrite p) && negb (writeopen p =? 0)) eqn:E.
  - apply andb_true_iff in E as [E%Z.eqb_eq Ho%negb_true_iff%Z.eqb_neq].
    assert (Hc : contents p = []) by (by apply contents_empty, empty_iff).
    apply wp_bind, wp_killed; [by intros ?%list_elem_of_singleton|]. fold (is_killed w). simpl. fold (is_killed w).
    destruct (is_killed w) eqn:Hk.
    + eapply wp_bind, wp_release; [done|apply not_elem_of_nil|]. apply wp_ret. split_and!; [done..|]. by apply ro_killed.
    + apply wp_bind, wp_park; [done|]. apply wp_ret. split_and!; [done..|]. by apply ro_empty.
  - eapply wp_bind, wp_mono; [|eapply (wp_piperead_loop pi _ addr n Ha Hn); [done|exact Hp|done|lia|lia]].
    intros r w1 (u' & p' & bs & lost & Hpost). pose proof Hpost as [R1 R2 R3 R4 R5 R6 R7 R8 R9 R10 R11 R12].
    apply wp_bind, wp_emit. eapply wp_bind, wp_release; [simpl; by rewrite R3|apply not_elem_of_nil|]. apply wp_ret.
    split_and!; [done..|]. eapply (ro_done _ _ _ _ _ _ _ (set_held (w_held w) w1)); [| |done|simpl; by rewrite R4].
    + apply andb_false_iff in E as [E%Z.eqb_neq|E%negb_false_iff%Z.eqb_eq]; [left|by right].
      rewrite empty_iff in E by done. intros Hc. pose proof (length_contents p) as Hl. rewrite Hc in Hl. simpl in Hl.
      pose proof (used_range p). lia.
    + by split.
Qed.

(** [pipeclose] of an end whose other end is open only marks it and wakes the
    other side; of the last end, it frees the page. *)
Lemma pipeclose_open pi (wr : bool) w p :
  has_pipe w pi p -> w_held w = [] -> (if wr then readopen p else writeopen p) <> 0 ->
  pipeclose pi wr w = Ok () (World (w_me w) [] (w_evs w ++ [EvWakeup (if wr then ChPipeRead pi else ChPipeWrite pi)])
    (with_pipe w (ps_mem (w_st w)) pi (close_end wr p))).
Proof.
  intros Hp Hh Ho.
  assert (Hwp : wp (pipeclose pi wr) (fun x w' => w' = World (w_me w) []
    (w_evs w ++ [EvWakeup (if wr then ChPipeRead pi else ChPipeWrite pi)])
    (with_pipe w (ps_mem (w_st w)) pi (close_end wr p))) w).
  { apply wp_bind, wp_acquire; [rewrite Hh; apply not_elem_of_nil|]. rewrite Hh. eapply wp_bind, wp_getpipe; [exact Hp|].
    apply wp_bind, wp_setpipe, wp_bind, wp_emit. eapply wp_bind, wp_getpipe; [apply lookup_insert_eq|].
    assert (E : (readopen (close_end wr p) =? 0) && (writeopen (close_end wr p) =? 0) = false)
      by (destruct wr; simpl; rewrite (proj2 (Z.eqb_neq _ _) Ho); done).
    rewrite E. eapply wp_release; [done|apply not_elem_of_nil|]. done. }
  destruct (wp_elim _ _ _ Hwp) as ([] & w' & E & ->). exact E.
Qed.

Lemma pipeclose_last pi (wr : bool) w p :
  has_pipe w pi p -> w_held w = [] -> (if wr then readopen p else writeopen p) = 0 ->
  pipeclose pi wr w = pmem (u_kfree pi) (World (w_me w) [] (w_evs w ++ [EvWakeup (if wr then ChPipeRead pi else ChPipeWrite pi)])
    (PipeSt (ps_mem (w_st w)) (delete pi (ps_pipes (w_st w))))).
Proof.
  intros Hp Hh Ho. apply eq_bind, wp_acquire; [rewrite Hh; apply not_elem_of_nil|]. rewrite Hh.
  eapply eq_bind, wp_getpipe; [exact Hp|]. apply eq_bind, wp_setpipe, eq_bind, wp_emit.
  eapply eq_bind, wp_getpipe; [apply lookup_insert_eq|].
  assert (E : (readopen (close_end wr p) =? 0) && (writeopen (close_end wr p) =? 0) = true)
    by (destruct wr; simpl; by rewrite Ho).
  rewrite E. eapply eq_bind, wp_release; [done|apply not_elem_of_nil|]. apply eq_bind, wp_modify. simpl.
  by rewrite delete_insert_eq.
Qed.
End spec.
