(* ===== verification/PipeProps.v ===== *)
(** Pipes between processes: readers and writers of one pipe as a transition
    system whose steps are runs of [pipewrite] and [piperead] between two
    points where the process may be switched out; bytes come out in the order
    they went in, and no wakeup is lost. *)

From S2P Require Import Prelude KMonad Riscv Kalloc VmProps UserMem Pipe PipeSpec.

(** ** Readers and writers *)

Inductive call :=
| CWrite (addr n i : Z)
| CRead (addr n : Z).

(** A process inside a call; [th_sleep] is the channel it sleeps on. *)
Record thread := Thread {
  th_me : me;
  th_call : call;
  th_sleep : option wchan }.

Definition wake (evs : list event) (th : thread) : thread :=
  match th_sleep th with
  | Some c => if decide (EvWakeup c ∈ evs) then Thread (th_me th) (th_call th) None else th
  | None => th
  end.

Section sys.
Context {U : Type} {uops : UserOps U} {ulaws : UserLaws U} (pi : Z).

Definition run_call (c : call) : M (pipest U) segment :=
  match c with
  | CWrite addr n i => pipewrite_from pi addr n i
  | CRead addr n => piperead pi addr n
  end.

(** Where the process continues when it is woken. *)
Definition resume (c : call) (i : Z) : call :=
  match c with CWrite addr n _ => CWrite addr n i | CRead addr n => CRead addr n end.

Definition settle (t : nat) (th : thread) (seg : segment) (ths : gmap nat thread) : gmap nat thread :=
  match seg with
  | Returned _ => delete t ths
  | Slept c i => <[t := Thread (th_me th) (resume (th_call th) i) (Some c)]> ths
  end.

(** The bytes a run moves: from the caller's memory [u] into the pipe, or out
    of it into the caller's memory [u']. *)
Definition moved_in (u : U) (m : me) (c : call) (seg : segment) : option (list Z) :=
  match c with
  | CWrite addr n i =>
      let i' := match seg with Returned r => if r =? -1 then i else r | Slept _ i' => i' end in
      ubytes (um_byte u (my_pagetable m)) (addr + i) (Z.to_nat (i' - i))
  | CRead _ _ => Some []
  end.
Definition moved_out (u' : U) (m : me) (c : call) (seg : segment) : option (list Z) :=
  match c, seg with
  | CRead addr n, Returned r => ubytes (um_byte u' (my_pagetable m)) addr (Z.to_nat r)
  | _, _ => Some []
  end.

(** The arguments are those of a call that passed the checks of its caller;
    a reader's buffer is mapped. *)
Definition call_ok (u : U) (m : me) (c : call) : Prop :=
  um_ok u (my_pagetable m) /\
  match c with
  | CWrite addr n i => args_ok addr n /\ 0 <= i
  | CRead addr n => args_ok addr n /\
      forall j, 0 <= j < n -> is_Some (um_byte u (my_pagetable m) (addr + j))
  end.

Record sys := Sys {
  sy_pipe : pipe;
  sy_threads : gmap nat thread }.

(** The memory [u] of the processes is arbitrary at each run: user code may
    have changed it since. *)
Inductive sys_step : sys -> list Z -> list Z -> sys -> Prop :=
| step_enter p ths t m c :
    ths !! t = None -> (match c with CWrite _ _ i => i = 0 | _ => True end) ->
    sys_step (Sys p ths) [] [] (Sys p (<[t := Thread m c None]> ths))
| step_run p ths t m c u seg w' u' p' bin bout :
    ths !! t = Some (Thread m c None) -> call_ok u m c ->
    run_call c (World m [] [] (PipeSt u {[pi := p]})) = Ok seg w' ->
    w_st w' = PipeSt u' {[pi := p']} ->
    moved_in u m c seg = Some bin -> moved_out u' m c seg = Some bout ->
    sys_step (Sys p ths) bin bout (Sys p' (settle t (Thread m c None) seg (wake (w_evs w') <$> ths)))
| step_close p ths m u (wr : bool) w' u' p' :
    (if wr then readopen p else writeopen p) <> 0 ->
    pipeclose pi wr (World m [] [] (PipeSt u {[pi := p]})) = Ok () w' ->
    w_st w' = PipeSt u' {[pi := p']} ->
    sys_step (Sys p ths) [] [] (Sys p' (wake (w_evs w') <$> ths)).

Inductive sys_run : sys -> list Z -> list Z -> sys -> Prop :=
| run_nil s : sys_run s [] [] s
| run_cons s1 s2 s3 i1 o1 i2 o2 :
    sys_step s1 i1 o1 s2 -> sys_run s2 i2 o2 s3 -> sys_run s1 (i1 ++ i2) (o1 ++ o2) s3.

(** *** One run *)

Lemma run_call_total u m c p :
  call_ok u m c -> pipe_ok p ->
  exists seg w', run_call c (World m [] [] (PipeSt u {[pi := p]})) = Ok seg w' /\
    exists u' p', w_st w' = PipeSt u' {[pi := p']}.
Proof.
  intros [Hu Hc] Hp. set (w := World m [] [] (PipeSt u {[pi := p]})).
  assert (Hl : has_pipe w pi p) by apply lookup_singleton_eq.
  assert (Hsing : forall u' p', with_pipe w u' pi p' = PipeSt u' {[pi := p']})
    by (intros; unfold with_pipe; simpl; by rewrite insert_singleton_eq).
  destruct c as [addr n i|addr n]; simpl.
  - destruct Hc as [Ha Hi]. destruct (wp_elim _ _ _ (wp_pipewrite_from pi addr n i w p Hu Hl Hp eq_refl Ha Hi))
      as (seg & w' & Hr & p' & bs & [_ _ Hst _ _] & _). exists seg, w'. split; [done|]. do 2 eexists. by rewrite Hst, Hsing.
  - destruct Hc as [Ha _]. destruct (wp_elim _ _ _ (wp_piperead pi addr n w p Hu Hl Hp eq_refl Ha))
      as (seg & w' & Hr & _ & _ & Hout). exists seg, w'. split; [done|].
    destruct Hout as [Hst|Hst|r w1 u' p' bs lost _ Hpost Hst]; [by rewrite Hst; do 2 eexists..|].
    rewrite Hst, (rp_st _ _ _ _ _ _ _ _ _ _ _ _ _ Hpost), Hsing. by do 2 eexists.
Qed.

Definition byte (b : Z) : Prop := 0 <= b < 256.

Lemma ubytes_byte (u : U) root n : forall va bs, ubytes (um_byte u root) va n = Some bs -> Forall byte bs.
Proof.
  intros va bs H. apply Forall_lookup. intros i b Hi. pose proof (lookup_lt_Some _ _ _ Hi) as Hlt.
  rewrite (length_ubytes _ _ _ _ H) in Hlt. rewrite (ubytes_lookup _ _ _ _ _ H Hlt) in Hi. by eapply um_byte_range.
Qed.

Lemma map_u8_bytes bs : Forall byte bs -> map u8 bs = bs.
Proof. induction 1 as [|b bs Hb _ IH]; [done|]. simpl. by rewrite IH, u8_small. Qed.

(** What a process sleeps for. *)
Definition waits_for (p : pipe) (c : wchan) : Prop :=
  (c = ChPipeRead pi /\ contents p = [] /\ writeopen p <> 0) \/
  (c = ChPipeWrite pi /\ used p = PIPESIZE /\ readopen p <> 0).

(** The effect of a run on the pipe and on the sleepers. *)
Record run_effect p p' (evs : list event) (seg : segment) (bin bout : list Z) : Prop := {
  re_ok : pipe_ok p';
  re_bytes : Forall byte (contents p');
  re_fifo : contents p ++ bin = bout ++ contents p';
  re_sleep : match seg with Slept c _ => waits_for p' c | Returned _ => True end;
  re_wakes : forall c, waits_for p c -> waits_for p' c \/ EvWakeup c ∈ evs }.

Lemma same_pipe (w : world (pipest U)) (st : pipest U) u1 u2 p1 p2 :
  st = PipeSt u1 {[pi := p1]} -> st = with_pipe w u2 pi p2 -> p2 = p1.
Proof.
  intros -> H. assert (E : ps_pipes (PipeSt u1 {[pi := p1]}) !! pi = Some p2) by (rewrite H; apply lookup_insert_eq).
  simpl in E. rewrite lookup_singleton_eq in E. congruence.
Qed.

Lemma write_effect u m addr n i p seg w' u' p' bin bout :
  call_ok u m (CWrite addr n i) -> pipe_ok p -> Forall byte (contents p) ->
  run_call (CWrite addr n i) (World m [] [] (PipeSt u {[pi := p]})) = Ok seg w' -> w_st w' = PipeSt u' {[pi := p']} ->
  moved_in u m (CWrite addr n i) seg = Some bin -> moved_out u' m (CWrite addr n i) seg = Some bout ->
  run_effect p p' (w_evs w') seg bin bout.
Proof.
  intros [Hu [Ha Hi]] Hp Hby Hrun Hst Hin Hout. set (w := World m [] [] (PipeSt u {[pi := p]})) in *.
  assert (Hl : has_pipe w pi p) by apply lookup_singleton_eq. injection Hout as <-.
  destruct (wp_elim _ _ _ (wp_pipewrite_from pi addr n i w p Hu Hl Hp eq_refl Ha Hi))
    as (seg2 & w2 & Hr2 & p2 & bs & [_ _ Hst2 Hok2 [Ho1 Ho2]] & Hbs & Hc & Hle & Hres).
  simpl in Hrun. rewrite Hrun in Hr2. injection Hr2 as <- <-.
  assert (p2 = p') as ->.
  { by eapply same_pipe. }
  assert (E : moved_in u m (CWrite addr n i) seg = Some bs).
  { simpl. inversion Hres as [? ?|Hnil ? ? ?|? ? ? ? ?]; subst seg.
    - rewrite (proj2 (Z.eqb_neq _ _)) by lia. replace (Z.to_nat _) with (length bs) by lia. exact Hbs.
    - simpl. by rewrite Z.sub_diag, Hnil.
    - replace (Z.to_nat _) with (length bs) by lia. exact Hbs. }
  rewrite E in Hin. injection Hin as <-.
  assert (Hfull : waits_for p (ChPipeWrite pi) -> bs = []).
  { intros [[? _]|(_ & Hf & _)]; [done|]. apply (f_equal length) in Hc. rewrite length_app, !length_contents in Hc.
    pose proof (po_used _ Hok2). pose proof (used_range p'). apply length_zero_iff_nil. lia. }
  split; [done| |by rewrite Hc| |].
  - rewrite Hc. apply Forall_app. split; [done|by eapply ubytes_byte].
  - inversion Hres; subst seg; [done..|]. right. split_and!; [done|done|by rewrite Ho1].
  - intros c Hw. destruct (decide (bs = [])) as [->|Hne].
    { left. rewrite app_nil_r in Hc. unfold waits_for, used in *. rewrite Ho1, Ho2, Hc.
      pose proof (length_contents p) as L1. pose proof (length_contents p') as L2. rewrite Hc in L2. unfold used in *.
      pose proof (u32_range (nwrite p - nread p)). pose proof (u32_range (nwrite p' - nread p')).
      replace (u32 (nwrite p' - nread p')) with (u32 (nwrite p - nread p)) by lia. done. }
    destruct Hw as [(-> & Hw)|(-> & Hw)]; [right|by rewrite Hfull in Hne; [|right]].
    inversion Hres as [? He|? ? ? ?|? ? ? ? He]; [rewrite He; left|done|rewrite He; left].
Qed.

Lemma read_effect u m addr n p seg w' u' p' bin bout :
  call_ok u m (CRead addr n) -> pipe_ok p -> Forall byte (contents p) ->
  run_call (CRead addr n) (World m [] [] (PipeSt u {[pi := p]})) = Ok seg w' -> w_st w' = PipeSt u' {[pi := p']} ->
  moved_in u m (CRead addr n) seg = Some bin -> moved_out u' m (CRead addr n) seg = Some bout ->
  run_effect p p' (w_evs w') seg bin bout.
Proof.
  intros [Hu [Ha Hmap]] Hp Hby Hrun Hst Hin Hout. set (w := World m [] [] (PipeSt u {[pi := p]})) in *.
  assert (Hl : has_pipe w pi p) by apply lookup_singleton_eq. injection Hin as <-.
  destruct (wp_elim _ _ _ (wp_piperead pi addr n w p Hu Hl Hp eq_refl Ha)) as (seg2 & w2 & Hr2 & _ & _ & Hres).
  simpl in Hrun. rewrite Hrun in Hr2. injection Hr2 as <- <-.
  assert (Hquiet : w_st w' = w_st w -> run_effect p p' (w_evs w') (Returned 0) [] []).
  { intros E. assert (p = p') as <-; [|split; try done; [by rewrite app_nil_r|by intros c; left]].
    eapply (same_pipe w); [exact Hst|]. by rewrite E, (insert_self w pi p). }
  destruct Hres as [E Hk Hc Ho He|E Hk Hc Ho He|r w1 u2 p2 bs lost Hne Hpost E He].
  - injection Hout as <-. by destruct (Hquiet E).
  - injection Hout as <-. destruct (Hquiet E) as [R1 R2 R3 _ R5]. split; try done.
    destruct (R5 (ChPipeRead pi)) as [?|Hev]; [by left|done|]. rewrite He in Hev. by apply elem_of_nil in Hev.
  - destruct Hpost as [R1 R2 R3 R4 R5 R6 [Ho1 Ho2] R8 R9 R10 R11 R12].
    rewrite E in Hst. assert (p2 = p') as -> by (by eapply (same_pipe w)).
    assert (u2 = u') as -> by (rewrite R5 in Hst; by apply (f_equal ps_mem) in Hst).
    simpl in R1. assert (Hlost : lost = []).
    { destruct R12 as [[? _]|(_ & Hlt & Hnone)]; [done|]. destruct (Hmap r) as [x Hx]; [lia|]. simpl in Hnone. congruence. }
    subst lost. simpl in R9. rewrite R9 in Hby. apply Forall_app in Hby as [Hb1 Hb2].
    assert (bout = bs) as ->.
    { simpl in Hout. rewrite Z.add_0_r in R10. replace (Z.to_nat r) with (length bs) in Hout by lia.
      simpl in R10. rewrite R10, map_u8_bytes in Hout by done. by injection Hout. }
    split; try done; [by rewrite app_nil_r|]. intros c [(-> & Hc & Hw)|(-> & _)]; [|right; rewrite He; left].
    destruct Hne as [Hne|Hne]; [by rewrite Hc in Hne|done].
Qed.

(** *** Invariant *)

(** Every process that sleeps has a reason to. *)
Record sys_ok (s : sys) : Prop := {
  so_pipe : pipe_ok (sy_pipe s);
  so_bytes : Forall byte (contents (sy_pipe s));
  so_sleep : forall t th c, sy_threads s !! t = Some th -> th_sleep th = Some c -> waits_for (sy_pipe s) c }.

Lemma wake_sleeps evs th c : th_sleep (wake evs th) = Some c -> th_sleep th = Some c /\ (EvWakeup c ∉ evs).
Proof. unfold wake. destruct (th_sleep th) as [c'|] eqn:E; [|congruence]. case_decide as Hd; simpl; [done|]. rewrite E. intros [= <-]. done. Qed.

(** The sleepers that a run leaves asleep still have their reason. *)
Lemma woken_ok p p' evs (ths : gmap nat thread) t th c :
  (forall c, waits_for p c -> waits_for p' c \/ EvWakeup c ∈ evs) ->
  (forall t th c, ths !! t = Some th -> th_sleep th = Some c -> waits_for p c) ->
  (wake evs <$> ths) !! t = Some th -> th_sleep th = Some c -> waits_for p' c.
Proof.
  intros Hw Hs Ht Hc. rewrite lookup_fmap in Ht. apply fmap_Some in Ht as (th0 & Ht0 & ->).
  apply wake_sleeps in Hc as [Hc Hn]. destruct (Hw c (Hs t th0 c Ht0 Hc)); done.
Qed.

Lemma run_effect_of u m c p seg w' u' p' bin bout :
  call_ok u m c -> pipe_ok p -> Forall byte (contents p) ->
  run_call c (World m [] [] (PipeSt u {[pi := p]})) = Ok seg w' -> w_st w' = PipeSt u' {[pi := p']} ->
  moved_in u m c seg = Some bin -> moved_out u' m c seg = Some bout -> run_effect p p' (w_evs w') seg bin bout.
Proof. destruct c; [apply write_effect|apply read_effect]. Qed.

Lemma close_effect p p' u u' m (wr : bool) w' :
  (if wr then readopen p else writeopen p) <> 0 ->
  pipeclose pi wr (World m [] [] (PipeSt u {[pi := p]})) = Ok () w' -> w_st w' = PipeSt u' {[pi := p']} ->
  p' = close_end wr p /\ forall c, waits_for p c -> waits_for p' c \/ EvWakeup c ∈ w_evs w'.
Proof.
  intros Ho Hrun Hst. set (w := World m [] [] (PipeSt u {[pi := p]})) in *.
  rewrite (pipeclose_open pi wr w p) in Hrun; [|apply lookup_singleton_eq|done|done]. injection Hrun as <-. simpl in Hst.
  assert (close_end wr p = p') as <- by (by eapply (same_pipe w)). split; [done|]. simpl.
  intros c [(-> & Hw)|(-> & Hw)]; destruct wr; simpl; [right; left|left; left|left; right|right; left]; (split; [done|exact Hw]).
Qed.

Lemma sys_step_ok s bin bout s' :
  sys_step s bin bout s' -> sys_ok s ->
  sys_ok s' /\ contents (sy_pipe s) ++ bin = bout ++ contents (sy_pipe s').
Proof.
  intros Hstep [Hp Hb Hs]. destruct Hstep as [p ths t m c Ht Hc|p ths t m c u seg w' u' p' bin bout Ht Hok Hrun Hst Hin Hout
    |p ths m u wr w' u' p' Ho Hrun Hst]; simpl in *.
  - split; [|by rewrite app_nil_r]. split; simpl; try done. intros t' th c' Hl Hsl.
    apply lookup_insert_Some in Hl as [[_ <-]|[_ Hl]]; [done|by eapply Hs].
  - destruct (run_effect_of _ _ _ _ _ _ _ _ _ _ Hok Hp Hb Hrun Hst Hin Hout) as [R1 R2 R3 R4 R5].
    split; [|done]. split; simpl; [done|done|]. intros t' th c' Hl Hsl. unfold settle in Hl. destruct seg as [r|cs i].
    + apply lookup_delete_Some in Hl as [_ Hl]. by eapply woken_ok.
    + apply lookup_insert_Some in Hl as [[_ <-]|[_ Hl]]; [simpl in Hsl; by injection Hsl as <-|by eapply woken_ok].
  - destruct (close_effect _ _ _ _ _ _ _ Ho Hrun Hst) as [-> Hw].
    assert (Hcl : pipe_ok (close_end wr p) /\ contents (close_end wr p) = contents p)
      by (destruct wr; split; try done; by destruct Hp).
    destruct Hcl as [Hok Hc]. split; [|by rewrite app_nil_r, Hc]. split; simpl; [done|by rewrite Hc|].
    intros t th c Hl Hsl. by eapply woken_ok.
Qed.

Lemma sys_run_ok s bin bout s' :
  sys_run s bin bout s' -> sys_ok s -> sys_ok s' /\ contents (sy_pipe s) ++ bin = bout ++ contents (sy_pipe s').
Proof.
  induction 1 as [s|s1 s2 s3 i1 o1 i2 o2 Hstep Hrun IH]; intros Hok; [by rewrite app_nil_r|].
  destruct (sys_step_ok _ _ _ _ Hstep Hok) as [Hok2 H1]. destruct (IH Hok2) as [Hok3 H2]. split; [done|].
  by rewrite app_assoc, H1, <- !app_assoc, H2.
Qed.
End sys.

(** A pipe as [pipealloc] makes it, in a page that holds [data]. *)
Definition fresh_pipe (data : list Z) : pipe := Pipe data 0 0 1 1.

Lemma fresh_ok pi data : length data = Z.to_nat PIPESIZE -> sys_ok pi (Sys (fresh_pipe data) ∅).
Proof.
  intros Hd. assert (Hc : contents (fresh_pipe data) = []) by done.
  split; simpl; [split; [done|vm_compute; done..]|by rewrite Hc|by intros t th c Ht].
Qed.

(** ** Properties *)

Section props.
Context {U : Type} {uops : UserOps U} {ulaws : UserLaws U}.


(** C30: no wakeup is lost and no run gets stuck: in every state such a run
    reaches, a sleeping reader faces an empty pipe that can still be written,
    a sleeping writer a full pipe that can still be read, and every process
    that is awake can run its call, without panic, up to its return or its
    next sleep. *)
Theorem pipe_no_lost_wakeup (pi : Z) data bin bout s :
  length data = Z.to_nat PIPESIZE -> sys_run (U := U) pi (Sys (fresh_pipe data) ∅) bin bout s ->
  (forall t th c, sy_threads s !! t = Some th -> th_sleep th = Some c ->
     (c = ChPipeRead pi /\ contents (sy_pipe s) = [] /\ writeopen (sy_pipe s) <> 0) \/
     (c = ChPipeWrite pi /\ used (sy_pipe s) = PIPESIZE /\ readopen (sy_pipe s) <> 0)) /\
  (forall u m c, call_ok u m c ->
     exists seg w', run_call pi c (World m [] [] (PipeSt u {[pi := sy_pipe s]})) = Ok seg w').
Proof.
  intros Hd Hrun. destruct (sys_run_ok pi _ _ _ _ Hrun (fresh_ok pi data Hd)) as [[Hp _ Hs] _].
  split; [exact Hs|]. intros u m c Hc. destruct (run_call_total pi u m c (sy_pipe s) Hc Hp) as (seg & w' & Hr & _). eauto.
Qed.

(** [piperead] takes a byte out of the buffer before it copies it to the
    reader: when the reader's buffer is not mapped the call returns 0 and the
    byte is lost. *)
Theorem piperead_drops_byte (pi addr n : Z) p (w : world (pipest U)) :
  um_ok (ps_mem (w_st w)) (my_pagetable (w_me w)) -> ps_pipes (w_st w) !! pi = Some p -> pipe_ok p ->
  w_held w = [] -> args_ok addr n -> 0 < n -> contents p <> [] ->
  um_byte (ps_mem (w_st w)) (my_pagetable (w_me w)) addr = None ->
  wp (piperead pi addr n) (fun seg w' => seg = Returned 0 /\ exists b p',
    ps_pipes (w_st w') !! pi = Some p' /\ contents p = b :: contents p') w.
Proof.
  intros Hu Hl Hp Hh Ha Hn Hc Hb. eapply wp_mono, wp_piperead; [|done..].
  intros seg w' (_ & _ & [?|?|r w1 u' p' bs lost _ Hpost E _]); [done..|].
  destruct Hpost as [R1 R2 R3 R4 R5 R6 R7 [_ Hmap _] R9 R10 R11 R12]. simpl in R1. rewrite Z.add_0_r in R10.
  destruct bs as [|b bs].
  - simpl in *. subst r. split; [done|]. destruct R12 as [[-> [?|He]]|((b & ->) & _)]; [lia| |].
    + simpl in R9. congruence.
    + exists b, p'. rewrite E, R5. split; [apply lookup_insert_eq|done].
  - exfalso. cbn [length ubytes] in R10. destruct (um_byte u' (my_pagetable (w_me w)) addr) eqn:E2; [|done].
    destruct Ha. assert (Hs : is_Some (um_byte u' (my_pagetable (w_me w)) addr)) by (by eexists).
    apply Hmap in Hs; [|done]. rewrite Hb in Hs. by destruct Hs.
Qed.
End props.

(** ** Witnesses *)

Section ex.
#[local] Existing Instance ex_symbols.
#[local] Existing Instance ex_symbols_ok.

Definition ex_data : list Z := repeat 0 (Z.to_nat PIPESIZE).
Definition ex_pipe : pipe := push 65 (fresh_pipe ex_data).
Definition ex_pipe_world : world (pipest phys) := World (Me 0 7 ex_root 0) [] [] (PipeSt ex_vm {[1 := ex_pipe]}).

Lemma ex_um_ok : um_ok ex_vm ex_root.
Proof. exists [ex_free]. split; [apply ex_vm_ok|apply ex_user_ok]. Qed.

(** A reader enters, and the writing end is closed. *)
Lemma ex_sys_run : exists s, sys_run (U := phys) 1 (Sys (fresh_pipe ex_data) ∅) [] [] s.
Proof.
  eexists. eapply (run_cons _ _ _ _ [] [] [] []).
  - apply (step_enter _ _ _ 0 (Me 0 7 ex_root 0) (CRead 0 1)); done.
  - eapply (run_cons _ _ _ _ [] [] [] []); [|apply run_nil].
    eapply (step_close 1 _ _ (Me 0 7 ex_root 0) ex_vm true); [done| |].
    + apply pipeclose_open; [apply lookup_singleton_eq|done|done].
    + simpl. unfold with_pipe. simpl. by rewrite insert_singleton_eq.
Qed.


Lemma pipe_no_lost_wakeup_witness :
  exists s, sys_run (U := phys) 1 (Sys (fresh_pipe ex_data) ∅) [] [] s /\
    exists seg w', run_call 1 (CWrite 0 1 0) (World (Me 0 7 ex_root 0) [] [] (PipeSt ex_vm {[1 := sy_pipe s]})) = Ok seg w'.
Proof.
  destruct ex_sys_run as [s Hs]. exists s. split; [exact Hs|].
  apply (proj2 (pipe_no_lost_wakeup 1 ex_data [] [] s eq_refl Hs)).
  split; [apply ex_um_ok|]. split; [split; simpl; lia|lia].
Defined.

Lemma piperead_drops_byte_witness :
  exists w', piperead 1 MAXVA 1 ex_pipe_world = Ok (Returned 0) w'.
Proof.
  destruct (wp_elim _ _ _ (piperead_drops_byte 1 MAXVA 1 ex_pipe ex_pipe_world ex_um_ok (lookup_singleton_eq _ _)
    ltac:(apply push_ok; [split; vm_compute; done|reflexivity]) eq_refl ltac:(split; vm_compute; congruence) ltac:(lia)
    ltac:(unfold ex_pipe; rewrite contents_push; [done|split; vm_compute; done|reflexivity])
    ltac:(reflexivity))) as (seg & w' & Hr & -> & _).
  exists w'. exact Hr.
Defined.
End ex.
