(* ===== verification/Bytes.v ===== *)
(** Byte arrays as lists, and the little-endian integers the C structures on
    disk hold in them. *)

From S2P Require Import Prelude.

(** A C string: the bytes before the NUL. *)
Fixpoint cstr (l : list Z) : list Z :=
  match l with c :: l' => if c =? 0 then [] else c :: cstr l' | [] => [] end.

(** ** Slices *)

Definition slice (bs : list Z) (off n : nat) : list Z := take n (drop off bs).

(** [memmove] of [new] to offset [off] of [bs]. *)
Definition splice (bs : list Z) (off : nat) (new : list Z) : list Z :=
  take off bs ++ new ++ drop (off + length new) bs.

Lemma length_splice bs off new :
  (off + length new <= length bs)%nat -> length (splice bs off new) = length bs.
Proof. intros H. unfold splice. rewrite !length_app, length_take, length_drop. lia. Qed.

Lemma length_slice bs off n : (off + n <= length bs)%nat -> length (slice bs off n) = n.
Proof. intros H. unfold slice. rewrite length_take, length_drop. lia. Qed.

Lemma lookup_slice bs off n i : (i < n)%nat -> slice bs off n !! i = bs !! (off + i)%nat.
Proof. intros H. unfold slice. by rewrite lookup_take_lt, lookup_drop. Qed.

Lemma lookup_splice bs off new i :
  (off + length new <= length bs)%nat ->
  splice bs off new !! i = if decide (off <= i < off + length new)%nat then new !! (i - off)%nat else bs !! i.
Proof.
  intros H. unfold splice. assert (Ht : length (take off bs) = off) by (rewrite length_take; lia).
  case_decide as Hd.
  - rewrite lookup_app_r, Ht by lia. by rewrite lookup_app_l by lia.
  - destruct (decide (i < off)%nat).
    + rewrite lookup_app_l by lia. by rewrite lookup_take_lt.
    + rewrite lookup_app_r, Ht by lia. rewrite lookup_app_r, lookup_drop by lia. f_equal. lia.
Qed.

Lemma slice_splice_same bs off new :
  (off + length new <= length bs)%nat -> slice (splice bs off new) off (length new) = new.
Proof.
  intros H. apply list_eq. intros i. destruct (decide (i < length new)%nat).
  - rewrite lookup_slice, lookup_splice by lia. rewrite decide_True by lia. f_equal. lia.
  - rewrite !lookup_ge_None_2; [done|lia|]. rewrite length_slice; [lia|]. by rewrite length_splice.
Qed.

Lemma slice_splice_other bs off new off' n :
  (off + length new <= length bs)%nat -> (off' + n <= off \/ off + length new <= off')%nat ->
  slice (splice bs off new) off' n = slice bs off' n.
Proof.
  intros H Hd. apply list_eq. intros i. destruct (decide (i < n)%nat).
  - rewrite !lookup_slice, lookup_splice by lia. by rewrite decide_False by lia.
  - rewrite !lookup_ge_None_2; [done|..]; unfold slice; rewrite length_take; lia.
Qed.

Lemma splice_slice bs off n : (off + n <= length bs)%nat -> splice bs off (slice bs off n) = bs.
Proof.
  intros H. apply list_eq. intros i. rewrite lookup_splice by (rewrite length_slice; lia).
  rewrite length_slice by lia. case_decide; [|done]. rewrite lookup_slice by lia. f_equal. lia.
Qed.

(** ** Little-endian integers *)

Fixpoint le_value (bs : list Z) : Z :=
  match bs with
  | [] => 0
  | b :: bs' => u8 b + 256 * le_value bs'
  end.

Definition le_bytes (n : nat) (v : Z) : list Z := map (fun k => byte_at v (Z.of_nat k)) (seq 0 n).

Lemma length_le_bytes n v : length (le_bytes n v) = n.
Proof. unfold le_bytes. by rewrite length_map, length_seq. Qed.

Lemma le_bytes_S n v : le_bytes (S n) v = byte_at v 0 :: le_bytes n (v / 256).
Proof.
  unfold le_bytes. cbn [seq map]. f_equal. rewrite <- seq_shift, map_map. apply map_ext. intros k.
  rewrite <- byte_at_succ by lia. f_equal. lia.
Qed.

Lemma le_value_bytes n v : le_value (le_bytes n v) = v mod 256 ^ Z.of_nat n.
Proof.
  revert v. induction n as [|n IH]; intros v; [simpl; by rewrite Z.mod_1_r|].
  rewrite le_bytes_S. cbn [le_value]. rewrite IH, Nat2Z.inj_succ, Z.pow_succ_r by lia.
  rewrite u8_small by apply byte_at_range. rewrite Z.rem_mul_r by lia.
  unfold byte_at. simpl. by rewrite Z.div_1_r.
Qed.

Lemma le_value_range bs : 0 <= le_value bs < 256 ^ Z.of_nat (length bs).
Proof.
  induction bs as [|b bs IH]; simpl length; [simpl; lia|]. cbn [le_value].
  rewrite Nat2Z.inj_succ, Z.pow_succ_r by lia. pose proof (u8_range b). lia.
Qed.

(** The unsigned integer of [n] bytes at [off], and storing one. *)
Definition get_le (n : nat) (bs : list Z) (off : nat) : Z := le_value (slice bs off n).
Definition put_le (n : nat) (bs : list Z) (off : nat) (v : Z) : list Z := splice bs off (le_bytes n v).

Abbreviation get32 := (get_le 4).
Abbreviation put32 := (put_le 4).
Abbreviation get16 := (get_le 2).
Abbreviation put16 := (put_le 2).

Lemma length_put_le n bs off v : (off + n <= length bs)%nat -> length (put_le n bs off v) = length bs.
Proof. intros H. apply length_splice. by rewrite length_le_bytes. Qed.

Lemma get_put_le_same n bs off v :
  (off + n <= length bs)%nat -> get_le n (put_le n bs off v) off = v mod 256 ^ Z.of_nat n.
Proof.
  intros H. unfold get_le, put_le. pose proof (slice_splice_same bs off (le_bytes n v)) as E.
  rewrite length_le_bytes in E. rewrite E by done. apply le_value_bytes.
Qed.

Lemma get_put_le_other n n' bs off off' v :
  (off + n <= length bs)%nat -> (off' + n' <= off \/ off + n <= off')%nat ->
  get_le n' (put_le n bs off v) off' = get_le n' bs off'.
Proof. intros H Hd. unfold get_le, put_le. by rewrite slice_splice_other by (by rewrite length_le_bytes). Qed.

Lemma get_le_range n bs off : 0 <= get_le n bs off < 256 ^ Z.of_nat n.
Proof.
  unfold get_le. pose proof (le_value_range (slice bs off n)) as H. split; [lia|].
  assert (Hl : (length (slice bs off n) <= n)%nat) by (unfold slice; rewrite length_take; lia).
  apply Z.lt_le_trans with (256 ^ Z.of_nat (length (slice bs off n))); [lia|].
  apply Z.pow_le_mono_r; lia.
Qed.

(** Adjacent stores are one store. *)
Lemma splice_app bs off a b :
  (off + length a + length b <= length bs)%nat ->
  splice (splice bs off a) (off + length a) b = splice bs off (a ++ b).
Proof.
  intros H. apply list_eq. intros i. rewrite lookup_splice by (rewrite length_splice; lia).
  rewrite !lookup_splice by (rewrite ?length_app; lia). rewrite length_app.
  destruct (decide (off + length a <= i < off + length a + length b)%nat).
  - rewrite decide_True by lia. rewrite lookup_app_r by lia. f_equal. lia.
  - destruct (decide (off <= i < off + length a)%nat).
    + rewrite decide_True by lia. by rewrite lookup_app_l by lia.
    + by rewrite decide_False by lia.
Qed.

Lemma get_le_slice n bs off len k : (k + n <= len)%nat -> get_le n bs (off + k) = get_le n (slice bs off len) k.
Proof.
  intros H. unfold get_le, slice. f_equal. rewrite skipn_firstn_comm, drop_drop, take_take. by rewrite Nat.min_l by lia.
Qed.

Lemma get_le_app n a v c : get_le n (a ++ le_bytes n v ++ c) (length a) = v mod 256 ^ Z.of_nat n.
Proof.
  unfold get_le, slice. rewrite drop_app_length. replace n with (length (le_bytes n v)) at 1 by apply length_le_bytes.
  rewrite take_app_length. apply le_value_bytes.
Qed.
