(* ===== verification/Sleeplock.v ===== *)
(** kernel/sleeplock.c: locks held across sleeps.

    A sleeplock sits inside another structure; [g] reads it from the state of
    that structure, [p] writes it back, and [c] is its address, the channel
    its waiters sleep on.  A process that finds it locked goes to sleep and
    runs [acquiresleep] again from the start when it is woken: the loop
    re-tests [lk->locked] after it has taken [lk->lk] again. *)

From S2P Require Import Prelude KMonad.

Record sleeplock := Sleeplock {
  sl_locked : Z;
  sl_name : string;
  sl_pid : Z }.

Definition initsleeplock (name : string) : sleeplock := Sleeplock 0 name 0.

Section ops.
Context {S : Type} (c : wchan) (g : S -> sleeplock) (p : S -> sleeplock -> S).

Definition acquiresleep : M S () :=
  acquire (L_sleep c);;
  lk ← gets g;
  if negb (sl_locked lk =? 0) then sleep c (L_sleep c)
  else
    me ← myproc;
    modify (fun s => p s (Sleeplock 1 (sl_name lk) (my_pid me)));;
    release (L_sleep c).

Definition releasesleep : M S () :=
  acquire (L_sleep c);;
  modify (fun s => p s (Sleeplock 0 (sl_name (g s)) 0));;
  wakeup c;;
  release (L_sleep c).

Definition holdingsleep : M S bool :=
  acquire (L_sleep c);;
  lk ← gets g;
  me ← myproc;
  release (L_sleep c);;
  mret (negb (sl_locked lk =? 0) && (sl_pid lk =? my_pid me)).
End ops.

(** ** Specifications *)

Section spec.
Context {S : Type} (c : wchan) (g : S -> sleeplock) (p : S -> sleeplock -> S).
Implicit Types w : world S.

Lemma wp_acquiresleep (Q : () -> world S -> Prop) w :
  L_sleep c ∉ w_held w -> sl_locked (g (w_st w)) = 0 ->
  Q () (set_st (p (w_st w) (Sleeplock 1 (sl_name (g (w_st w))) (my_pid (w_me w)))) w) ->
  wp (acquiresleep c g p) Q w.
Proof.
  intros Hl H0 HQ. unfold acquiresleep. apply wp_bind, wp_acquire; [done|]. apply wp_bind, wp_gets. simpl.
  rewrite H0. simpl. wp_steps. apply wp_release with (w_held w); done.
Qed.

Lemma wp_releasesleep (Q : () -> world S -> Prop) w :
  L_sleep c ∉ w_held w ->
  Q () (set_st (p (w_st w) (Sleeplock 0 (sl_name (g (w_st w))) 0)) (add_ev (EvWakeup c) w)) ->
  wp (releasesleep c g p) Q w.
Proof.
  intros Hl HQ. unfold releasesleep. apply wp_bind, wp_acquire; [done|]. wp_steps.
  apply wp_release with (w_held w); done.
Qed.

Lemma wp_holdingsleep (Q : bool -> world S -> Prop) w :
  L_sleep c ∉ w_held w ->
  let lk := g (w_st w) in
  Q (negb (sl_locked lk =? 0) && (sl_pid lk =? my_pid (w_me w))) w ->
  wp (holdingsleep c g) Q w.
Proof.
  intros Hl lk HQ. unfold holdingsleep. apply wp_bind, wp_acquire; [done|]. wp_steps.
  eapply wp_release with (w_held w); [done..|]. simpl. wp_steps. by destruct w.
Qed.

(** A process that finds the lock taken sleeps, holding no spinlock. *)
Lemma acquiresleep_sleeps w :
  w_held w = [] -> sl_locked (g (w_st w)) <> 0 ->
  acquiresleep c g p w = Sleep c w.
Proof.
  intros Hh Hne. unfold acquiresleep, acquire, sleep, mbind, M_bind, gets. rewrite Hh.
  rewrite decide_False by apply not_elem_of_nil. simpl.
  rewrite (proj2 (Z.eqb_neq _ _) Hne). simpl. rewrite decide_True by (left; done).
  rewrite decide_True; [by destruct w; simpl in *; subst|]. by rewrite filter_cons_False by naive_solver.
Qed.
End spec.
