(* ===== verification/BlockStore.v ===== *)
(** What the buffer cache promises to its clients (the log and the file
    system): an interface on blocks, without buffers, lists or recycling.

    [store] is the client's view of the cache and the disk.  A block in use
    has a buffer and a reference count; a block that is locked has been
    returned by [bread] and not yet released.  [st_view] is what readers of
    the block see, [st_disk] what the disk holds; [st_writes] lists the disk
    writes in order. *)

From S2P Require Import Prelude KMonad.

Definition BSIZE : Z := 1024.
Definition NBUF : nat := 30.

(** [struct superblock] of kernel/fs.h. *)
Record superblock := Superblock {
  sb_magic : Z;
  sb_size : Z;
  sb_nblocks : Z;
  sb_ninodes : Z;
  sb_nlog : Z;
  sb_logstart : Z;
  sb_inodestart : Z;
  sb_bmapstart : Z }.

Record store := Store {
  st_ref : gmap Z (nat * Z);       (** block -> buffer, reference count *)
  st_lock : gmap Z Z;              (** block -> pid of the process that locks it *)
  st_view : Z -> list Z;
  st_disk : Z -> list Z;
  st_writes : list (Z * list Z) }.

Definition fupd {A} (f : Z -> A) (b : Z) (x : A) : Z -> A :=
  fun k => if decide (k = b) then x else f k.

Lemma fupd_same {A} (f : Z -> A) b x : fupd f b x b = x.
Proof. unfold fupd. by rewrite decide_True. Qed.

Lemma fupd_other {A} (f : Z -> A) b x k : k <> b -> fupd f b x k = f k.
Proof. intros. unfold fupd. by rewrite decide_False. Qed.

(** Worlds of one process that differ in the state and in the wakeups issued. *)
Definition same_ctx {S} (w w' : world S) : Prop :=
  w_me w' = w_me w /\ w_held w' = w_held w.

#[global] Instance same_ctx_refl {S} : Reflexive (@same_ctx S).
Proof. done. Qed.

#[global] Instance same_ctx_trans {S} : Transitive (@same_ctx S).
Proof. intros w1 w2 w3 [H1 H2] [H3 H4]. split; congruence. Qed.

(** The spinlocks the cache takes are free. *)
Definition no_bio_locks (h : list lock) : Prop :=
  (L_bcache ∉ h) /\ (forall i, L_sleep (ChBufLock i) ∉ h).

Class BlockOps (S : Type) := {
  bread : Z -> Z -> M S nat;
  bwrite : nat -> M S ();
  brelse : nat -> M S ();
  bpin : nat -> M S ();
  bunpin : nat -> M S ();
  buf_blockno : nat -> M S Z;
  buf_data : nat -> M S (list Z);
  set_buf_data : nat -> list Z -> M S () }.

(** The laws, for the blocks of device [dev]. *)
Class BlockLaws (S : Type) {ops : BlockOps S} (dev : Z) := {
  bc_rep : S -> store -> Prop;
  bc_bread (a : store) b (Q : nat -> world S -> Prop) w :
    bc_rep (w_st w) a -> no_bio_locks (w_held w) -> 0 <= b < 2 ^ 32 ->
    st_lock a !! b = None ->
    (is_Some (st_ref a !! b) \/ (size (st_ref a) < NBUF)%nat) ->
    (forall i r, st_ref a !! b = Some (i, r) -> r + 1 < 2 ^ 32) ->
    (forall i w', same_ctx w w' ->
       let r := match st_ref a !! b with Some (_, r) => r | None => 0 end in
       (forall j r', st_ref a !! b = Some (j, r') -> i = j) ->
       bc_rep (w_st w') (Store (<[b := (i, r + 1)]> (st_ref a)) (<[b := my_pid (w_me w)]> (st_lock a))
         (st_view a) (st_disk a) (st_writes a)) -> Q i w') ->
    wp (bread dev b) Q w;
  bc_blockno (a : store) b i r (Q : Z -> world S -> Prop) w :
    bc_rep (w_st w) a -> st_ref a !! b = Some (i, r) -> Q b w -> wp (buf_blockno i) Q w;
  bc_data (a : store) b i r (Q : list Z -> world S -> Prop) w :
    bc_rep (w_st w) a -> st_ref a !! b = Some (i, r) -> is_Some (st_lock a !! b) ->
    Q (st_view a b) w -> wp (buf_data i) Q w;
  bc_set_data (a : store) b i r (d : list Z) (Q : () -> world S -> Prop) w :
    bc_rep (w_st w) a -> st_ref a !! b = Some (i, r) -> is_Some (st_lock a !! b) -> length d = Z.to_nat BSIZE ->
    (forall w', same_ctx w w' ->
       bc_rep (w_st w') (Store (st_ref a) (st_lock a) (fupd (st_view a) b d) (st_disk a) (st_writes a)) -> Q () w') ->
    wp (set_buf_data i d) Q w;
  bc_bwrite (a : store) b i r (Q : () -> world S -> Prop) w :
    bc_rep (w_st w) a -> no_bio_locks (w_held w) -> st_ref a !! b = Some (i, r) ->
    st_lock a !! b = Some (my_pid (w_me w)) ->
    (forall w', same_ctx w w' ->
       bc_rep (w_st w') (Store (st_ref a) (st_lock a) (st_view a) (fupd (st_disk a) b (st_view a b))
         (st_writes a ++ [(b, st_view a b)])) -> Q () w') ->
    wp (bwrite i) Q w;
  bc_brelse (a : store) b i r (Q : () -> world S -> Prop) w :
    bc_rep (w_st w) a -> no_bio_locks (w_held w) -> st_ref a !! b = Some (i, r) ->
    st_lock a !! b = Some (my_pid (w_me w)) -> (r = 1 -> st_view a b = st_disk a b) ->
    (forall w', same_ctx w w' ->
       bc_rep (w_st w') (Store (if decide (r = 1) then delete b (st_ref a) else <[b := (i, r - 1)]> (st_ref a))
         (delete b (st_lock a)) (st_view a) (st_disk a) (st_writes a)) -> Q () w') ->
    wp (brelse i) Q w;
  bc_bpin (a : store) b i r (Q : () -> world S -> Prop) w :
    bc_rep (w_st w) a -> no_bio_locks (w_held w) -> st_ref a !! b = Some (i, r) -> r + 1 < 2 ^ 32 ->
    (forall w', same_ctx w w' ->
       bc_rep (w_st w') (Store (<[b := (i, r + 1)]> (st_ref a)) (st_lock a) (st_view a) (st_disk a) (st_writes a)) ->
       Q () w') ->
    wp (bpin i) Q w;
  bc_bunpin (a : store) b i r (Q : () -> world S -> Prop) w :
    bc_rep (w_st w) a -> no_bio_locks (w_held w) -> st_ref a !! b = Some (i, r) -> 2 <= r ->
    (forall w', same_ctx w w' ->
       bc_rep (w_st w') (Store (<[b := (i, r - 1)]> (st_ref a)) (st_lock a) (st_view a) (st_disk a) (st_writes a)) ->
       Q () w') ->
    wp (bunpin i) Q w }.

(** A machine that has blocks and no buffers, and the proof that any block
    cache that keeps the laws of BlockStore.v refines it. *)


(** ** A machine on blocks

    Its state has reference counts, locks, what readers see and what the disk
    holds, by block number.  Each operation names a block. *)

Record blocks := Blocks {
  k_ref : gmap Z Z;
  k_lock : gmap Z Z;
  k_view : Z -> list Z;
  k_disk : Z -> list Z }.

Inductive bop :=
| BRead (b : Z)               (** [bread], and look at the data *)
| BSet (b : Z) (d : list Z)   (** store [d] in the buffer *)
| BWrite (b : Z)              (** [bwrite] *)
| BRelse (b : Z)              (** [brelse] *)
| BPin (b : Z)                (** [bpin] *)
| BUnpin (b : Z)              (** [bunpin] *).

(** One operation of process [pid]; [None] when the client may not call it.
    A read gives the data. *)
Definition blocks_step (pid : Z) (t : blocks) (o : bop) : option (blocks * option (list Z)) :=
  let '(Blocks rf lk vw dk) := t in
  let count b := default 0 (rf !! b) in
  let mine b := bool_decide (lk !! b = Some pid) in
  match o with
  | BRead b =>
      if bool_decide (lk !! b = None) && (bool_decide (is_Some (rf !! b)) || (size rf <? NBUF)%nat) &&
         (0 <=? b) && (b <? 2 ^ 32) && (count b + 1 <? 2 ^ 32)
      then Some (Blocks (<[b := count b + 1]> rf) (<[b := pid]> lk) vw dk, Some (vw b)) else None
  | BSet b d =>
      if mine b && (length d =? Z.to_nat BSIZE)%nat
      then Some (Blocks rf lk (fupd vw b d) dk, None) else None
  | BWrite b => if mine b then Some (Blocks rf lk vw (fupd dk b (vw b)), None) else None
  | BRelse b =>
      if mine b && ((negb (count b =? 1)) || bool_decide (vw b = dk b))
      then Some (Blocks (if decide (count b = 1) then delete b rf else <[b := count b - 1]> rf) (delete b lk) vw dk, None)
      else None
  | BPin b =>
      if mine b && (count b + 1 <? 2 ^ 32) then Some (Blocks (<[b := count b + 1]> rf) lk vw dk, None) else None
  | BUnpin b => if mine b && (2 <=? count b) then Some (Blocks (<[b := count b - 1]> rf) lk vw dk, None) else None
  end.

Fixpoint blocks_run (pid : Z) (t : blocks) (os : list bop) : option (blocks * list (list Z)) :=
  match os with
  | [] => Some (t, [])
  | o :: os' =>
      r ← blocks_step pid t o;
      r' ← blocks_run pid r.1 os';
      Some (r'.1, match r.2 with Some d => d :: r'.2 | None => r'.2 end)
  end.

(** The same operations on a block cache; [hs] are the buffers [bread] gave. *)
Section run.
Context {S : Type} {ops : BlockOps S} (D : Z).

Definition on_buf {A} (hs : gmap Z nat) (b : Z) (k : nat -> M S A) : M S A :=
  match hs !! b with Some i => k i | None => ub "no buffer for the block" end.

Fixpoint cache_run (hs : gmap Z nat) (os : list bop) : M S (list (list Z)) :=
  match os with
  | [] => mret []
  | BRead b :: os' => i ← bread D b; d ← buf_data i; r ← cache_run (<[b := i]> hs) os'; mret (d :: r)
  | BSet b d :: os' => on_buf hs b (fun i => set_buf_data i d;; cache_run hs os')
  | BWrite b :: os' => on_buf hs b (fun i => bwrite i;; cache_run hs os')
  | BRelse b :: os' => on_buf hs b (fun i => brelse i;; cache_run hs os')
  | BPin b :: os' => on_buf hs b (fun i => bpin i;; cache_run hs os')
  | BUnpin b :: os' => on_buf hs b (fun i => bunpin i;; cache_run hs os')
  end.

Context {laws : BlockLaws S D}.

(** Store [a] is the block state [t], and [hs] has the buffer of each locked
    block. *)
Record store_blocks (a : store) (t : blocks) (hs : gmap Z nat) : Prop := {
  sb_ref : k_ref t = snd <$> st_ref a;
  sb_lock : k_lock t = st_lock a;
  sb_view : forall b, k_view t b = st_view a b;
  sb_disk : forall b, k_disk t b = st_disk a b;
  sb_handle : forall b, is_Some (st_lock a !! b) -> exists i r, st_ref a !! b = Some (i, r) /\ hs !! b = Some i }.

Lemma sb_count a t hs b : store_blocks a t hs ->
  default 0 (k_ref t !! b) = match st_ref a !! b with Some (_, r) => r | None => 0 end.
Proof. intros H. rewrite (sb_ref _ _ _ H), lookup_fmap. by destruct (st_ref a !! b) as [[]|]. Qed.

Lemma cache_run_refines os : forall a t t' hs outs w,
  bc_rep (w_st w) a -> no_bio_locks (w_held w) -> store_blocks a t hs ->
  blocks_run (my_pid (w_me w)) t os = Some (t', outs) ->
  wp (cache_run hs os) (fun r w' => r = outs /\ exists a' hs', bc_rep (w_st w') a' /\ store_blocks a' t' hs') w.
Proof.
  induction os as [|o os IH]; intros a t t' hs outs w Hr Hnl Hsb Hrun; cbn [blocks_run] in Hrun.
  { injection Hrun as <- <-. split; [done|]. by exists a, hs. }
  destruct (blocks_step (my_pid (w_me w)) t o) as [[t1 d1]|] eqn:Hstep; [|done]. cbn in Hrun.
  destruct (blocks_run (my_pid (w_me w)) t1 os) as [[t2 outs2]|] eqn:Hrest; [|done]. cbn in Hrun.
  injection Hrun as <- <-.
  assert (Hgo : forall a1 hs1 w1, same_ctx w w1 -> bc_rep (w_st w1) a1 -> store_blocks a1 t1 hs1 ->
    wp (cache_run hs1 os) (fun r w' => r = outs2 /\ exists a' hs', bc_rep (w_st w') a' /\ store_blocks a' t2 hs') w1).
  { intros a1 hs1 w1 [Hm Hh] Hr1 Hsb1. apply (IH a1 t1); [done|by rewrite Hh|done|by rewrite Hm]. }
  assert (Hcount := fun b => sb_count a t hs b Hsb).
  destruct t as [rf lk vw dk]. cbn in Hcount. destruct Hsb as [E1 E2 E3 E4 E5]. cbn in E1, E2, E3, E4.
  assert (Hmine : forall b, bool_decide (lk !! b = Some (my_pid (w_me w))) = true ->
    exists i r, st_ref a !! b = Some (i, r) /\ hs !! b = Some i /\ st_lock a !! b = Some (my_pid (w_me w)) /\
      default 0 (rf !! b) = r).
  { intros b Hb%bool_decide_eq_true. rewrite E2 in Hb. destruct (E5 b) as (i & r & Hi & Hhs); [by eexists|].
    exists i, r. by rewrite Hcount, Hi. }
  destruct o as [b|b d|b|b|b|b]; cbn -[NBUF Z.pow] in Hstep; cbn [cache_run]; unfold on_buf.
  - destruct (_ && _) eqn:Hg; [|done]. injection Hstep as <- <-.
    apply andb_true_iff in Hg as [Hg Hmax%Z.ltb_lt]. apply andb_true_iff in Hg as [Hg Hb2%Z.ltb_lt].
    apply andb_true_iff in Hg as [Hg Hb1%Z.leb_le]. apply andb_true_iff in Hg as [Hlk%bool_decide_eq_true Hav].
    rewrite E2 in Hlk. rewrite Hcount in *.
    eapply wp_bind, (bc_bread a); [done|done|lia|done| | |].
    + apply orb_true_iff in Hav as [Hs%bool_decide_eq_true|Hs%Nat.ltb_lt].
      * left. rewrite E1, lookup_fmap in Hs. by destruct (st_ref a !! b); [|destruct Hs].
      * right. by rewrite E1, map_size_fmap in Hs.
    + intros i r Hi. by rewrite Hi in Hmax.
    + intros i w1 Hc r0 Hj Hr1. eapply wp_bind, bc_data; [exact Hr1|simpl; apply lookup_insert_eq|simpl; rewrite lookup_insert_eq; by eexists|].
      eapply wp_bind, wp_mono; [|eapply (Hgo _ (<[b := i]> hs)); [done|exact Hr1|]].
      * intros r w' [-> Hex]. apply wp_ret. split; [|done]. simpl. by rewrite E3.
      * split; simpl; [by rewrite fmap_insert, E1|by rewrite E2|done|done|].
        intros b' Hb'. destruct (decide (b' = b)) as [->|Hne].
        -- rewrite !lookup_insert_eq. by eexists _, _.
        -- rewrite !lookup_insert_ne in * by done. by apply E5.
  - destruct (_ && _) eqn:Hg; [|done]. injection Hstep as <- <-.
    apply andb_true_iff in Hg as [Hm Hlen%Nat.eqb_eq]. destruct (Hmine b Hm) as (i & r & Hi & -> & Hl & _).
    eapply wp_bind, (bc_set_data a b); [done|done|by eexists|done|]. intros w1 Hc Hr1.
    eapply Hgo; [done|exact Hr1|]. split; simpl; [done..| |done|done].
    intros b'. unfold fupd. destruct (decide (b' = b)); [done|]. apply E3.
  - destruct (bool_decide _) eqn:Hm; [|done]. injection Hstep as <- <-. destruct (Hmine b Hm) as (i & r & Hi & -> & Hl & _).
    eapply wp_bind, (bc_bwrite a b); [done..|]. intros w1 Hc Hr1.
    eapply Hgo; [done|exact Hr1|]. split; simpl; [done..| |done]. intros b'. unfold fupd.
    destruct (decide (b' = b)); [by rewrite E3|apply E4].
  - destruct (_ && _) eqn:Hg; [|done]. injection Hstep as <- <-.
    apply andb_true_iff in Hg as [Hm Hv]. destruct (Hmine b Hm) as (i & r & Hi & -> & Hl & Er). rewrite Er in *.
    eapply wp_bind, (bc_brelse a b); [done..| |].
    { intros ->. by apply orb_true_iff in Hv as [?|Hv%bool_decide_eq_true]; [|rewrite <- E3, <- E4]. }
    intros w1 Hc Hr1. eapply Hgo; [done|exact Hr1|]. split; simpl; [|by rewrite E2|done|done|].
    + case_decide; by rewrite ?fmap_delete, ?fmap_insert, E1.
    + intros b' Hb'. destruct (decide (b' = b)) as [->|Hne]; [rewrite lookup_delete_eq in Hb'; by destruct Hb'|].
      rewrite lookup_delete_ne in Hb' by done. destruct (E5 b' Hb') as (i' & r' & Hi' & Hh').
      exists i', r'. split; [|done]. case_decide; by rewrite ?lookup_delete_ne, ?lookup_insert_ne.
  - destruct (_ && _) eqn:Hg; [|done]. injection Hstep as <- <-.
    apply andb_true_iff in Hg as [Hm Hmax%Z.ltb_lt]. destruct (Hmine b Hm) as (i & r & Hi & Hh & Hl & Er). rewrite Er in *.
    rewrite Hh. eapply wp_bind, (bc_bpin a b); [done..|]. intros w1 Hc Hr1.
    eapply Hgo; [done|exact Hr1|]. split; simpl; [by rewrite fmap_insert, E1|done..|].
    intros b' Hb'. destruct (decide (b' = b)) as [->|Hne]; [rewrite lookup_insert_eq; by eexists _, _|].
    rewrite lookup_insert_ne by done. by apply E5.
  - destruct (_ && _) eqn:Hg; [|done]. injection Hstep as <- <-.
    apply andb_true_iff in Hg as [Hm Hmin%Z.leb_le]. destruct (Hmine b Hm) as (i & r & Hi & Hh & Hl & Er). rewrite Er in *.
    rewrite Hh. eapply wp_bind, (bc_bunpin a b); [done..|]. intros w1 Hc Hr1.
    eapply Hgo; [done|exact Hr1|]. split; simpl; [by rewrite fmap_insert, E1|done..|].
    intros b' Hb'. destruct (decide (b' = b)) as [->|Hne]; [rewrite lookup_insert_eq; by eexists _, _|].
    rewrite lookup_insert_ne by done. by apply E5.
Qed.
End run.

(** What the log promises to the file system inside a transaction: blocks can
    be read, modified, logged and released; nothing reaches their place on
    the disk before the transaction commits. *)


(** [t_view] is what the transaction sees of the disk.  [t_open] are the
    blocks whose buffer the process has locked; the flag tells that the buffer
    was changed and not logged yet.  [t_logged] are the blocks of the
    transaction. *)
Record txst := TxSt {
  t_view : Z -> list Z;
  t_open : gmap Z (nat * bool);
  t_logged : list Z }.

Definition add_block (b : Z) (hs : list Z) : list Z := if decide (b ∈ hs) then hs else hs ++ [b].

Lemma elem_of_add_block x b hs : x ∈ add_block b hs <-> x ∈ hs \/ x = b.
Proof.
  unfold add_block. case_decide as Hd; [naive_solver|]. by rewrite elem_of_app, list_elem_of_singleton.
Qed.

Lemma length_add_block b hs : (length (add_block b hs) <= S (length hs))%nat.
Proof. unfold add_block. case_decide; [lia|]. rewrite length_app. simpl. lia. Qed.

Lemma NoDup_add_block b hs : NoDup hs -> NoDup (add_block b hs).
Proof.
  intros H. unfold add_block. case_decide; [done|]. apply NoDup_app. split_and!; [done| |apply NoDup_singleton].
  intros x Hx ->%list_elem_of_singleton. done.
Qed.

(** The spinlocks the log and the cache take are free. *)
Definition no_tx_locks (h : list lock) : Prop := no_bio_locks h /\ (L_log ∉ h).

Class TxOps (S : Type) := {
  tx_bread : Z -> Z -> M S nat;
  tx_brelse : nat -> M S ();
  tx_log_write : nat -> M S ();
  tx_data : nat -> M S (list Z);
  tx_set_data : nat -> list Z -> M S () }.

(** The laws, for the blocks [home] of device [dev] and a log that takes
    [limit] blocks. *)
Class TxLaws (S : Type) {ops : TxOps S} (dev limit : Z) (home : Z -> Prop) := {
  tc_rep : Z -> S -> txst -> Prop;
  tc_wf p s a b : tc_rep p s a -> length (t_view a b) = Z.to_nat BSIZE;
  tc_bread (a : txst) b (Q : nat -> world S -> Prop) w :
    tc_rep (my_pid (w_me w)) (w_st w) a -> no_tx_locks (w_held w) -> home b -> t_open a !! b = None ->
    (size (t_open a) + length (t_logged a) < NBUF)%nat ->
    (forall i w', same_ctx w w' ->
       tc_rep (my_pid (w_me w)) (w_st w') (TxSt (t_view a) (<[b := (i, false)]> (t_open a)) (t_logged a)) -> Q i w') ->
    wp (tx_bread dev b) Q w;
  tc_data (a : txst) b i m (Q : list Z -> world S -> Prop) w :
    tc_rep (my_pid (w_me w)) (w_st w) a -> t_open a !! b = Some (i, m) ->
    Q (t_view a b) w -> wp (tx_data i) Q w;
  tc_set_data (a : txst) b i m (d : list Z) (Q : () -> world S -> Prop) w :
    tc_rep (my_pid (w_me w)) (w_st w) a -> t_open a !! b = Some (i, m) -> length d = Z.to_nat BSIZE ->
    (forall w', same_ctx w w' ->
       tc_rep (my_pid (w_me w)) (w_st w') (TxSt (fupd (t_view a) b d) (<[b := (i, true)]> (t_open a)) (t_logged a)) ->
       Q () w') ->
    wp (tx_set_data i d) Q w;
  tc_log_write (a : txst) b i m (Q : () -> world S -> Prop) w :
    tc_rep (my_pid (w_me w)) (w_st w) a -> no_tx_locks (w_held w) -> t_open a !! b = Some (i, m) ->
    Z.of_nat (length (t_logged a)) < limit ->
    (forall w', same_ctx w w' ->
       tc_rep (my_pid (w_me w)) (w_st w')
         (TxSt (t_view a) (<[b := (i, false)]> (t_open a)) (add_block b (t_logged a))) -> Q () w') ->
    wp (tx_log_write i) Q w;
  tc_brelse (a : txst) b i (Q : () -> world S -> Prop) w :
    tc_rep (my_pid (w_me w)) (w_st w) a -> no_tx_locks (w_held w) -> t_open a !! b = Some (i, false) ->
    (forall w', same_ctx w w' ->
       tc_rep (my_pid (w_me w)) (w_st w') (TxSt (t_view a) (delete b (t_open a)) (t_logged a)) -> Q () w') ->
    wp (tx_brelse i) Q w }.
