(* ===== verification/Log.v ===== *)
(** kernel/log.c: the write-ahead log, on top of a block cache. *)

From S2P Require Import Prelude KMonad Bytes BlockStore.

Definition MAXOPBLOCKS : Z := 10.
Definition LOGSIZE : Z := MAXOPBLOCKS * 3.

(** [struct log]; [lh_block] is the array [lh.block]. *)
Record log := Log {
  lg_start : Z;
  lg_size : Z;
  lg_outstanding : Z;
  lg_committing : Z;
  lg_dev : Z;
  lh_n : Z;
  lh_block : list Z }.

Record logst (S : Type) := LogSt {
  l_bio : S;
  l_log : log }.
Arguments LogSt {S} _ _.
Arguments l_bio {S} _.
Arguments l_log {S} _.

(** [struct logheader] in a block: [n], then [block[LOGSIZE]]. *)
Definition hdr_n (d : list Z) : Z := i32 (get32 d 0).
Definition hdr_block (d : list Z) (i : nat) : Z := i32 (get32 d (4 + 4 * i)).
Definition sizeof_logheader : Z := 4 + 4 * LOGSIZE.

Definition set_log {S} (g : log) (s : logst S) : logst S := LogSt (l_bio s) g.
Definition set_n (n : Z) (g : log) : log :=
  Log (lg_start g) (lg_size g) (lg_outstanding g) (lg_committing g) (lg_dev g) n (lh_block g).
Definition set_block (i : nat) (b : Z) (g : log) : log :=
  Log (lg_start g) (lg_size g) (lg_outstanding g) (lg_committing g) (lg_dev g) (lh_n g) (<[i := b]> (lh_block g)).
Definition set_outstanding (x : Z) (g : log) : log :=
  Log (lg_start g) (lg_size g) x (lg_committing g) (lg_dev g) (lh_n g) (lh_block g).
Definition set_committing (x : Z) (g : log) : log :=
  Log (lg_start g) (lg_size g) (lg_outstanding g) x (lg_dev g) (lh_n g) (lh_block g).

Section log.
Context {S : Type} {ops : BlockOps S}.

(** A call of the block cache. *)
Definition bio {A} (m : M S A) : M (logst S) A := zoom l_bio (fun s b => LogSt b (l_log s)) m.

Definition getlog : M (logst S) log := gets l_log.
Definition modlog (f : log -> log) : M (logst S) () := modify (fun s => set_log (f (l_log s)) s).

(** [log.lh.block[i]]. *)
Definition lh_get (i : nat) : M (logst S) Z :=
  g ← getlog;
  match lh_block g !! i with Some b => mret b | None => ub "log.lh.block: index" end.
Definition lh_set (i : nat) (b : Z) : M (logst S) () :=
  g ← getlog;
  if (i <? length (lh_block g))%nat then modlog (set_block i b) else ub "log.lh.block: index".

(** The loop of [install_trans] from [tail]; [n] iterations are left. *)
Fixpoint install_loop (n : nat) (tail : nat) (recovering : bool) : M (logst S) () :=
  match n with
  | O => mret ()
  | Datatypes.S n' =>
      g ← getlog;
      lbuf ← bio (bread (lg_dev g) (u32 (lg_start g + Z.of_nat tail + 1)));
      blk ← lh_get tail;
      dbuf ← bio (bread (lg_dev g) (u32 blk));
      d ← bio (buf_data lbuf);
      bio (set_buf_data dbuf d);;
      bio (bwrite dbuf);;
      (if recovering then mret () else bio (bunpin dbuf));;
      bio (brelse lbuf);;
      bio (brelse dbuf);;
      install_loop n' (Datatypes.S tail) recovering
  end.

Definition install_trans (recovering : bool) : M (logst S) () :=
  g ← getlog;
  install_loop (Z.to_nat (lh_n g)) 0 recovering.

(** The loop of [read_head]. *)
Fixpoint read_loop (n : nat) (i : nat) (d : list Z) : M (logst S) () :=
  match n with
  | O => mret ()
  | Datatypes.S n' => lh_set i (hdr_block d i);; read_loop n' (Datatypes.S i) d
  end.

Definition read_head : M (logst S) () :=
  g ← getlog;
  buf ← bio (bread (lg_dev g) (u32 (lg_start g)));
  lh ← bio (buf_data buf);
  modlog (set_n (hdr_n lh));;
  read_loop (Z.to_nat (hdr_n lh)) 0 lh;;
  bio (brelse buf).

(** The loop of [write_head]. *)
Fixpoint write_loop (n : nat) (i : nat) (d : list Z) : M (logst S) (list Z) :=
  match n with
  | O => mret d
  | Datatypes.S n' => b ← lh_get i; write_loop n' (Datatypes.S i) (put32 d (4 + 4 * i) b)
  end.

Definition write_head : M (logst S) () :=
  g ← getlog;
  buf ← bio (bread (lg_dev g) (u32 (lg_start g)));
  hb ← bio (buf_data buf);
  hb ← write_loop (Z.to_nat (lh_n g)) 0 (put32 hb 0 (lh_n g));
  bio (set_buf_data buf hb);;
  bio (bwrite buf);;
  bio (brelse buf).

Definition recover_from_log : M (logst S) () :=
  read_head;;
  install_trans true;;
  modlog (set_n 0);;
  write_head.

Definition initlog (dev : Z) (sb : superblock) : M (logst S) () :=
  if sizeof_logheader >=? BSIZE then panic "initlog: too big logheader"
  else
    modlog (fun g => Log (sb_logstart sb) (sb_nlog sb) (lg_outstanding g) (lg_committing g) dev (lh_n g) (lh_block g));;
    recover_from_log.

(** A process that has to wait goes to sleep on [&log] and runs the loop
    again, with [log.lock] held, when it is woken. *)
Definition begin_op : M (logst S) () :=
  acquire L_log;;
  g ← getlog;
  if negb (lg_committing g =? 0) then sleep ChLog L_log
  else if lh_n g + (lg_outstanding g + 1) * MAXOPBLOCKS >? LOGSIZE then sleep ChLog L_log
  else modlog (fun g => set_outstanding (lg_outstanding g + 1) g);; release L_log.

(** The loop of [write_log]. *)
Fixpoint write_log_loop (n : nat) (tail : nat) : M (logst S) () :=
  match n with
  | O => mret ()
  | Datatypes.S n' =>
      g ← getlog;
      to ← bio (bread (lg_dev g) (u32 (lg_start g + Z.of_nat tail + 1)));
      blk ← lh_get tail;
      from ← bio (bread (lg_dev g) (u32 blk));
      d ← bio (buf_data from);
      bio (set_buf_data to d);;
      bio (bwrite to);;
      bio (brelse from);;
      bio (brelse to);;
      write_log_loop n' (Datatypes.S tail)
  end.

Definition write_log : M (logst S) () :=
  g ← getlog;
  write_log_loop (Z.to_nat (lh_n g)) 0.

Definition commit : M (logst S) () :=
  g ← getlog;
  if lh_n g >? 0 then
    write_log;;
    write_head;;
    install_trans false;;
    modlog (set_n 0);;
    write_head
  else mret ().

Definition end_op : M (logst S) () :=
  acquire L_log;;
  modlog (fun g => set_outstanding (lg_outstanding g - 1) g);;
  g ← getlog;
  if negb (lg_committing g =? 0) then panic "log.committing"
  else if lg_outstanding g =? 0 then
    modlog (set_committing 1);;
    release L_log;;
    commit;;
    acquire L_log;;
    modlog (set_committing 0);;
    wakeup ChLog;;
    release L_log
  else
    wakeup ChLog;;
    release L_log.

(** The loop of [log_write]: the index of [blockno] in the log, or [n]. *)
Fixpoint absorb (l : list Z) (blockno : Z) : nat :=
  match l with
  | [] => O
  | b :: l' => if u32 b =? blockno then O else Datatypes.S (absorb l' blockno)
  end.

Definition log_write (b : nat) : M (logst S) () :=
  acquire L_log;;
  g ← getlog;
  if (lh_n g >=? LOGSIZE) || (lh_n g >=? lg_size g - 1) then panic "too big a transaction"
  else if lg_outstanding g <? 1 then panic "log_write outside of trans"
  else
    blockno ← bio (buf_blockno b);
    let i := absorb (take (Z.to_nat (lh_n g)) (lh_block g)) blockno in
    lh_set i (i32 blockno);;
    (if Z.of_nat i =? lh_n g then
       bio (bpin b);;
       modlog (fun g => set_n (lh_n g + 1) g)
     else mret ());;
    release L_log.
End log.
