(* ===== verification/LogSpec.v ===== *)
(** Specifications of the operations of kernel/log.c, for any block cache
    that keeps the laws of BlockStore.v. *)

From S2P Require Import Prelude KMonad Bytes BlockStore Log.

(** ** Sequences of block writes *)

Definition apply_writes (f : Z -> list Z) (ws : list (Z * list Z)) : Z -> list Z :=
  fold_left (fun f w => fupd f w.1 w.2) ws f.

Lemma apply_writes_cons f b d ws : apply_writes f ((b, d) :: ws) = apply_writes (fupd f b d) ws.
Proof. done. Qed.

Lemma apply_writes_app f ws1 ws2 : apply_writes f (ws1 ++ ws2) = apply_writes (apply_writes f ws1) ws2.
Proof. apply fold_left_app. Qed.

Lemma apply_writes_notin f ws b : b ∉ ws.*1 -> apply_writes f ws b = f b.
Proof.
  revert f. induction ws as [|[b' d] ws IH]; intros f Hb; [done|].
  cbn in Hb. apply not_elem_of_cons in Hb as [Hne Hb]. rewrite apply_writes_cons, IH by done. by apply fupd_other.
Qed.

Lemma apply_writes_in f ws b d : NoDup ws.*1 -> (b, d) ∈ ws -> apply_writes f ws b = d.
Proof.
  revert f. induction ws as [|[b' d'] ws IH]; intros f Hnd Hin; [by apply elem_of_nil in Hin|].
  cbn in Hnd. apply NoDup_cons in Hnd as [Hn Hnd]. rewrite apply_writes_cons. apply elem_of_cons in Hin as [[= <- <-]|Hin].
  - rewrite apply_writes_notin by done. apply fupd_same.
  - by apply IH.
Qed.

(** Solves equations between maps that differ in updates of a few keys. *)
Ltac map_cases :=
  apply map_eq; let k := fresh "k" in intros k;
  repeat match goal with
  | |- context [<[?i := _]> _ !! ?i] => rewrite lookup_insert_eq
  | |- context [delete ?i _ !! ?i] => rewrite lookup_delete_eq
  | |- context [<[?i := _]> _ !! ?j] => destruct (decide (i = j)) as [<-|]; [|rewrite lookup_insert_ne by done]
  | |- context [delete ?i _ !! ?j] => destruct (decide (i = j)) as [<-|]; [|rewrite lookup_delete_ne by done]
  end; try congruence; auto.

Section spec.
Context {S : Type} {ops : BlockOps S} {dev : Z} {laws : BlockLaws S dev}.
Implicit Types (w : world (logst S)) (a : store) (g : log).

(** World [w] holds the store [a] and the log [g]. *)
Definition lw w a g : Prop := bc_rep (l_bio (w_st w)) a /\ l_log (w_st w) = g.

Definition with_bio w (w' : world S) : world (logst S) :=
  World (w_me w') (w_held w') (w_evs w') (LogSt (w_st w') (l_log (w_st w))).
Definition only_bio w : world S := World (w_me w) (w_held w) (w_evs w) (l_bio (w_st w)).

Lemma wp_bio {A} (m : M S A) Q w : wp m (fun x (w' : world S) => Q x (with_bio w w')) (only_bio w) -> wp (bio m) Q w.
Proof. intros H. unfold bio. apply wp_zoom. exact H. Qed.

Lemma with_bio_lw w (w' : world S) a g :
  same_ctx (only_bio w) w' -> bc_rep (w_st w') a -> l_log (w_st w) = g ->
  same_ctx w (with_bio w w') /\ lw (with_bio w w') a g.
Proof. intros [H1 H2] Hr Hg. by repeat split. Qed.

(** *** The calls of the cache *)

Lemma lw_bread a g b (Q : nat -> world (logst S) -> Prop) w :
  lw w a g -> no_bio_locks (w_held w) -> 0 <= b < 2 ^ 32 -> st_lock a !! b = None ->
  (is_Some (st_ref a !! b) \/ (size (st_ref a) < NBUF)%nat) ->
  (forall i r, st_ref a !! b = Some (i, r) -> r + 1 < 2 ^ 32) ->
  (forall i w', same_ctx w w' -> (forall j r, st_ref a !! b = Some (j, r) -> i = j) ->
     lw w' (Store (<[b := (i, match st_ref a !! b with Some (_, r) => r | None => 0 end + 1)]> (st_ref a))
              (<[b := my_pid (w_me w)]> (st_lock a)) (st_view a) (st_disk a) (st_writes a)) g -> Q i w') ->
  wp (bio (bread dev b)) Q w.
Proof.
  intros [Hr Hg] Hnl Hb Hl Hav Hm HQ. apply wp_bio. eapply (bc_bread a); [exact Hr|done..|].
  intros i w' Hc r Hj Hr'. destruct (with_bio_lw w w' _ g Hc Hr' Hg). by apply HQ.
Qed.

Lemma lw_data a g b i r (Q : list Z -> world (logst S) -> Prop) w :
  lw w a g -> st_ref a !! b = Some (i, r) -> is_Some (st_lock a !! b) ->
  Q (st_view a b) w -> wp (bio (buf_data i)) Q w.
Proof.
  intros [Hr Hg] Hb Hl HQ. apply wp_bio. eapply (bc_data a b); [exact Hr|done..|].
  destruct w as [me h e [s l]]. exact HQ.
Qed.

Lemma lw_blockno a g b i r (Q : Z -> world (logst S) -> Prop) w :
  lw w a g -> st_ref a !! b = Some (i, r) -> Q b w -> wp (bio (buf_blockno i)) Q w.
Proof.
  intros [Hr Hg] Hb HQ. apply wp_bio. eapply (bc_blockno a b); [exact Hr|done|].
  destruct w as [me h e [s l]]. exact HQ.
Qed.

Lemma lw_set_data a g b i r d (Q : () -> world (logst S) -> Prop) w :
  lw w a g -> st_ref a !! b = Some (i, r) -> is_Some (st_lock a !! b) -> length d = Z.to_nat BSIZE ->
  (forall w', same_ctx w w' ->
     lw w' (Store (st_ref a) (st_lock a) (fupd (st_view a) b d) (st_disk a) (st_writes a)) g -> Q () w') ->
  wp (bio (set_buf_data i d)) Q w.
Proof.
  intros [Hr Hg] Hb Hl Hd HQ. apply wp_bio. eapply (bc_set_data a b); [exact Hr|done..|].
  intros w' Hc Hr'. destruct (with_bio_lw w w' _ g Hc Hr' Hg). by apply HQ.
Qed.

Lemma lw_bwrite a g b i r (Q : () -> world (logst S) -> Prop) w :
  lw w a g -> no_bio_locks (w_held w) -> st_ref a !! b = Some (i, r) -> st_lock a !! b = Some (my_pid (w_me w)) ->
  (forall w', same_ctx w w' ->
     lw w' (Store (st_ref a) (st_lock a) (st_view a) (fupd (st_disk a) b (st_view a b))
              (st_writes a ++ [(b, st_view a b)])) g -> Q () w') ->
  wp (bio (bwrite i)) Q w.
Proof.
  intros [Hr Hg] Hnl Hb Hl HQ. apply wp_bio. eapply (bc_bwrite a b); [exact Hr|done..|].
  intros w' Hc Hr'. destruct (with_bio_lw w w' _ g Hc Hr' Hg). by apply HQ.
Qed.

Lemma lw_brelse a g b i r (Q : () -> world (logst S) -> Prop) w :
  lw w a g -> no_bio_locks (w_held w) -> st_ref a !! b = Some (i, r) -> st_lock a !! b = Some (my_pid (w_me w)) ->
  (r = 1 -> st_view a b = st_disk a b) ->
  (forall w', same_ctx w w' ->
     lw w' (Store (if decide (r = 1) then delete b (st_ref a) else <[b := (i, r - 1)]> (st_ref a))
              (delete b (st_lock a)) (st_view a) (st_disk a) (st_writes a)) g -> Q () w') ->
  wp (bio (brelse i)) Q w.
Proof.
  intros [Hr Hg] Hnl Hb Hl Hv HQ. apply wp_bio. eapply (bc_brelse a b); [exact Hr|done..|].
  intros w' Hc Hr'. destruct (with_bio_lw w w' _ g Hc Hr' Hg). by apply HQ.
Qed.

Lemma lw_bpin a g b i r (Q : () -> world (logst S) -> Prop) w :
  lw w a g -> no_bio_locks (w_held w) -> st_ref a !! b = Some (i, r) -> r + 1 < 2 ^ 32 ->
  (forall w', same_ctx w w' ->
     lw w' (Store (<[b := (i, r + 1)]> (st_ref a)) (st_lock a) (st_view a) (st_disk a) (st_writes a)) g -> Q () w') ->
  wp (bio (bpin i)) Q w.
Proof.
  intros [Hr Hg] Hnl Hb Hl HQ. apply wp_bio. eapply (bc_bpin a b); [exact Hr|done..|].
  intros w' Hc Hr'. destruct (with_bio_lw w w' _ g Hc Hr' Hg). by apply HQ.
Qed.

Lemma lw_bunpin a g b i r (Q : () -> world (logst S) -> Prop) w :
  lw w a g -> no_bio_locks (w_held w) -> st_ref a !! b = Some (i, r) -> 2 <= r ->
  (forall w', same_ctx w w' ->
     lw w' (Store (<[b := (i, r - 1)]> (st_ref a)) (st_lock a) (st_view a) (st_disk a) (st_writes a)) g -> Q () w') ->
  wp (bio (bunpin i)) Q w.
Proof.
  intros [Hr Hg] Hnl Hb Hl HQ. apply wp_bio. eapply (bc_bunpin a b); [exact Hr|done..|].
  intros w' Hc Hr'. destruct (with_bio_lw w w' _ g Hc Hr' Hg). by apply HQ.
Qed.

Lemma lw_getlog a g (Q : log -> world (logst S) -> Prop) w : lw w a g -> Q g w -> wp getlog Q w.
Proof. intros [_ Hg] HQ. unfold getlog. apply wp_gets. by rewrite Hg. Qed.

Lemma lw_modlog a g f (Q : () -> world (logst S) -> Prop) w :
  lw w a g -> (forall w', same_ctx w w' -> lw w' a (f g) -> Q () w') -> wp (modlog f) Q w.
Proof. intros [Hr Hg] HQ. apply wp_modify, HQ; [done|]. split; [done|]. simpl. by rewrite Hg. Qed.

Lemma lw_lh_get a g i b (Q : Z -> world (logst S) -> Prop) w :
  lw w a g -> lh_block g !! i = Some b -> Q b w -> wp (lh_get i) Q w.
Proof. intros Hw Hb HQ. eapply wp_bind, lw_getlog; [exact Hw|]. by rewrite Hb. Qed.

Lemma lw_lh_set a g i b (Q : () -> world (logst S) -> Prop) w :
  lw w a g -> (i < length (lh_block g))%nat ->
  (forall w', same_ctx w w' -> lw w' a (set_block i b g) -> Q () w') -> wp (lh_set i b) Q w.
Proof.
  intros Hw Hi HQ. eapply wp_bind, lw_getlog; [exact Hw|]. rewrite (proj2 (Nat.ltb_lt _ _)) by done.
  by eapply lw_modlog.
Qed.

(** *** The blocks of the log *)

(** Log block [t], after the header block; home blocks are elsewhere. *)
Definition log_blk g (t : nat) : Z := lg_start g + 1 + Z.of_nat t.

Definition home g (b : Z) : Prop := 0 <= b < 2 ^ 31 /\ ~ (lg_start g <= b < lg_start g + LOGSIZE).

Record geom g : Prop := {
  ge_dev : lg_dev g = dev;
  ge_start : 0 <= lg_start g;
  ge_end : lg_start g + LOGSIZE + 1 < 2 ^ 31 }.

Lemma log_blk_u32 g t : geom g -> (Z.of_nat t < LOGSIZE - 1) ->
  u32 (lg_start g + Z.of_nat t + 1) = log_blk g t /\ 0 <= log_blk g t < 2 ^ 32.
Proof.
  intros [_ H1 H2] Ht. unfold log_blk. rewrite u32_small; [split; lia|lia].
Qed.

Lemma home_not_log g h t : home g h -> Z.of_nat t < LOGSIZE - 1 -> h <> log_blk g t.
Proof. intros [_ H] Ht ->. apply H. unfold log_blk. lia. Qed.

(** The cache holds no block of the log. *)
Definition log_idle g a : Prop :=
  forall b, lg_start g <= b < lg_start g + LOGSIZE -> st_ref a !! b = None.

Lemma log_idle_blk g a t : log_idle g a -> Z.of_nat t < LOGSIZE - 1 -> st_ref a !! log_blk g t = None.
Proof. intros H Ht. apply H. unfold log_blk. lia. Qed.

(** *** write_log *)

(** The writes of [write_log] from log block [t]: the blocks [hs], as [f] has
    them. *)
Fixpoint log_writes g (t : nat) (hs : list Z) (f : Z -> list Z) : list (Z * list Z) :=
  match hs with
  | [] => []
  | h :: hs' => (log_blk g t, f h) :: log_writes g (Datatypes.S t) hs' f
  end.

Lemma log_writes_ext g t hs f f' :
  (forall h, h ∈ hs -> f' h = f h) -> log_writes g t hs f' = log_writes g t hs f.
Proof.
  revert t. induction hs as [|h hs IH]; intros t H; [done|]. cbn [log_writes].
  rewrite H by left. f_equal. apply IH. intros h' Hh. apply H. by right.
Qed.

(** The store after writes, with the cache's references [m]. *)
Definition after a (m : gmap Z (nat * Z)) (ws : list (Z * list Z)) : store :=
  Store m (st_lock a) (apply_writes (st_view a) ws) (apply_writes (st_disk a) ws) (st_writes a ++ ws).

Definition written a m (b : Z) (d : list Z) : store := after a m [(b, d)].

Lemma after_nil a : after a (st_ref a) [] = a.
Proof. destruct a. unfold after. simpl. by rewrite app_nil_r. Qed.

Lemma after_after a m m' ws ws' : after (after a m ws) m' ws' = after a m' (ws ++ ws').
Proof. unfold after. simpl. by rewrite !apply_writes_app, <- app_assoc. Qed.

(** [hs] are the entries of the log header from [t] on. *)
Definition entries_at g (t : nat) (hs : list Z) : Prop :=
  forall j h, hs !! j = Some h -> lh_block g !! (t + j)%nat = Some h.

Lemma entries_at_cons g t h hs :
  entries_at g t (h :: hs) -> lh_block g !! t = Some h /\ entries_at g (Datatypes.S t) hs.
Proof.
  intros H. split; [rewrite <- (Nat.add_0_r t); by apply (H 0%nat)|].
  intros j x Hj. rewrite Nat.add_succ_comm. by apply (H (Datatypes.S j)).
Qed.

(** The log holds the one reference to block [h]. *)
Definition pinned a (h : Z) : Prop := exists i, st_ref a !! h = Some (i, 1).

Lemma store_eq m m' l l' (v v' d d' : Z -> list Z) ws ws' :
  m = m' -> l = l' -> v = v' -> d = d' -> ws = ws' -> Store m l v d ws = Store m' l' v' d' ws'.
Proof. by intros -> -> -> -> ->. Qed.

Lemma lw_eq w a a' g : lw w a g -> a = a' -> lw w a' g.
Proof. by intros ? <-. Qed.

(** One iteration of [write_log]. *)
Lemma wp_write_log_step g a h t n (Q : () -> world (logst S) -> Prop) w :
  geom g -> lw w a g -> no_bio_locks (w_held w) -> st_lock a = ∅ -> log_idle g a -> (size (st_ref a) < NBUF)%nat ->
  Z.of_nat t < LOGSIZE - 1 -> lh_block g !! t = Some h ->
  home g h -> pinned a h -> length (st_view a h) = Z.to_nat BSIZE ->
  (forall w', same_ctx w w' -> lw w' (written a (st_ref a) (log_blk g t) (st_view a h)) g ->
     wp (write_log_loop n (Datatypes.S t)) Q w') ->
  wp (write_log_loop (Datatypes.S n) t) Q w.
Proof.
  intros Hge Hw Hnl Hlk Hidle Hsz Ht Hh0 Hhome [i Hpin] Hlen HQ. cbn [write_log_loop].
  destruct (log_blk_u32 g t Hge) as [Hu Hb]; [lia|].
  pose proof (home_not_log g h t Hhome ltac:(lia)) as Hne.
  pose proof (log_idle_blk g a t Hidle ltac:(lia)) as Hnone. set (L := log_blk g t) in *. clearbody L.
  eapply wp_bind, lw_getlog; [exact Hw|]. rewrite (ge_dev _ Hge), Hu.
  eapply wp_bind, lw_bread; [exact Hw|done|done|by rewrite Hlk|by right|by rewrite Hnone|].
  rewrite Hnone. intros il w1 Hc1 _ Hw1. eapply wp_bind, lw_lh_get; [exact Hw1|done|].
  destruct Hhome as [Hhb Hhl]. rewrite u32_small by lia.
  eapply wp_bind, lw_bread; [exact Hw1|by rewrite (proj2 Hc1)|lia|by simpl; rewrite lookup_insert_ne, Hlk by done
    |left; simpl; rewrite lookup_insert_ne, Hpin by done; by eexists
    |simpl; rewrite lookup_insert_ne, Hpin by done; intros ? ? [= <- <-]; lia|].
  simpl. rewrite lookup_insert_ne, Hpin by done. intros ih w2 Hc2 Hih Hw2. assert (ih = i) as -> by (by eapply Hih).
  assert (Hc12 : same_ctx w w2) by (by etrans).
  eapply wp_bind, lw_data; [exact Hw2|by simpl; rewrite lookup_insert_eq|by simpl; rewrite lookup_insert_eq|]. simpl.
  eapply wp_bind, (lw_set_data _ _ L); [exact Hw2|by simpl; rewrite lookup_insert_ne, lookup_insert_eq
    |by simpl; rewrite lookup_insert_ne, lookup_insert_eq|done|]. simpl. intros w3 Hc3 Hw3.
  assert (Hc13 : same_ctx w w3) by (by etrans). pose proof (proj2 Hc13) as Hh3.
  eapply wp_bind, (lw_bwrite _ _ L); [exact Hw3|by rewrite Hh3|by simpl; rewrite lookup_insert_ne, lookup_insert_eq
    |by simpl; rewrite lookup_insert_ne, lookup_insert_eq, (proj1 Hc13)|]. simpl. rewrite fupd_same. intros w4 Hc4 Hw4.
  assert (Hc14 : same_ctx w w4) by (by etrans).
  eapply wp_bind, (lw_brelse _ _ h); [exact Hw4|by rewrite (proj2 Hc14)|by simpl; rewrite lookup_insert_eq
    |by simpl; rewrite lookup_insert_eq, (proj1 Hc14), (proj1 Hc1)|lia|]. simpl. intros w5 Hc5 Hw5.
  assert (Hc15 : same_ctx w w5) by (by etrans).
  eapply wp_bind, (lw_brelse _ _ L); [exact Hw5|by rewrite (proj2 Hc15)
    |by simpl; rewrite lookup_insert_ne, lookup_insert_ne, lookup_insert_eq
    |by simpl; rewrite lookup_delete_ne, lookup_insert_ne, lookup_insert_eq, (proj1 Hc15)
    |simpl; by rewrite !fupd_same|]. simpl. intros w6 Hc6 Hw6.
  apply HQ; [by etrans|]. eapply lw_eq; [exact Hw6|]. unfold written, after. rewrite Hlk. apply store_eq; [map_cases|map_cases|done..].
Qed.

Lemma wp_write_log_loop g : geom g -> forall hs t a w,
  lw w a g -> no_bio_locks (w_held w) -> st_lock a = ∅ -> log_idle g a -> (size (st_ref a) < NBUF)%nat ->
  Z.of_nat (t + length hs) <= LOGSIZE - 1 -> entries_at g t hs ->
  (forall h, h ∈ hs -> home g h /\ pinned a h /\ length (st_view a h) = Z.to_nat BSIZE) ->
  wp (write_log_loop (length hs) t) (fun _ w' => same_ctx w w' /\
    lw w' (after a (st_ref a) (log_writes g t hs (st_view a))) g) w.
Proof.
  intros Hge. induction hs as [|h hs IH]; intros t a w Hw Hnl Hlk Hidle Hsz Ht Hent Hhs; cbn [length].
  { apply wp_ret. split; [done|]. cbn [log_writes]. by rewrite after_nil. }
  simpl in Ht. destruct (entries_at_cons _ _ _ _ Hent) as [Hh0 Hent'].
  destruct (Hhs h) as (Hhome & Hpin & Hlen); [left|].
  eapply (wp_write_log_step g a h t); try done; [lia|]. intros w' Hc Hw'.
  assert (Hsame : forall x, x ∈ hs -> fupd (st_view a) (log_blk g t) (st_view a h) x = st_view a x).
  { intros x Hx. apply fupd_other, home_not_log; [|lia]. apply Hhs. by right. }
  eapply wp_mono, (IH _ _ w' Hw'); try done; [|by rewrite (proj2 Hc)|lia|].
  - intros _ w2 [Hc2 Hw2]. split; [by etrans|]. cbn [log_writes].
    unfold written in Hw2. rewrite after_after in Hw2. eapply lw_eq; [exact Hw2|]. simpl. do 2 f_equal.
    by apply log_writes_ext.
  - intros x Hx. simpl. rewrite Hsame by done. apply Hhs. by right.
Qed.

(** *** install_trans *)

(** The writes of [install_trans] from log block [t]: home blocks [hs] get
    what [f] has in the log. *)
Fixpoint install_writes g (t : nat) (hs : list Z) (f : Z -> list Z) : list (Z * list Z) :=
  match hs with
  | [] => []
  | h :: hs' => (h, f (log_blk g t)) :: install_writes g (Datatypes.S t) hs' f
  end.

Lemma install_writes_ext g t hs f f' :
  (forall j, (t <= j < t + length hs)%nat -> f' (log_blk g j) = f (log_blk g j)) ->
  install_writes g t hs f' = install_writes g t hs f.
Proof.
  revert t. induction hs as [|h hs IH]; intros t H; [done|]. cbn [install_writes length] in *.
  rewrite H by lia. f_equal. apply IH. intros j Hj. apply H. lia.
Qed.

(** Blocks in the log are on the disk as the cache has them. *)
Definition log_synced g a (n : nat) : Prop :=
  forall j, (j < n)%nat -> st_view a (log_blk g j) = st_disk a (log_blk g j) /\
    length (st_view a (log_blk g j)) = Z.to_nat BSIZE.

(** The home block that [install_trans] writes: pinned by the log, except in
    recovery. *)
Definition installable (rec : bool) a (h : Z) : Prop :=
  if rec then st_ref a !! h = None else pinned a h.

Definition unpin (rec : bool) (m : gmap Z (nat * Z)) (hs : list Z) : gmap Z (nat * Z) :=
  if rec then m else fold_left (fun m h => delete h m) hs m.

Lemma unpin_cons rec m h hs : unpin rec m (h :: hs) = unpin rec (unpin rec m [h]) hs.
Proof. by destruct rec. Qed.

(** One iteration of [install_trans]. *)
Lemma wp_install_step g rec a h t n (Q : () -> world (logst S) -> Prop) w :
  geom g -> lw w a g -> no_bio_locks (w_held w) -> st_lock a = ∅ -> log_idle g a ->
  (size (st_ref a) + Nat.b2n rec < NBUF)%nat -> Z.of_nat t < LOGSIZE - 1 -> lh_block g !! t = Some h ->
  home g h -> installable rec a h -> log_synced g a (Datatypes.S t) ->
  (forall w', same_ctx w w' -> lw w' (written a (unpin rec (st_ref a) [h]) h (st_view a (log_blk g t))) g ->
     wp (install_loop n (Datatypes.S t) rec) Q w') ->
  wp (install_loop (Datatypes.S n) t rec) Q w.
Proof.
  intros Hge Hw Hnl Hlk Hidle Hsz Ht Hh0 Hhome Hin Hsync HQ. cbn [install_loop].
  destruct (log_blk_u32 g t Hge) as [Hu Hb]; [lia|]. destruct (Hsync t) as [Hsy Hlen]; [lia|].
  pose proof (home_not_log g h t Hhome ltac:(lia)) as Hne.
  pose proof (log_idle_blk g a t Hidle ltac:(lia)) as Hnone. set (L := log_blk g t) in *. clearbody L.
  eapply wp_bind, lw_getlog; [exact Hw|]. rewrite (ge_dev _ Hge), Hu.
  eapply wp_bind, lw_bread; [exact Hw|done|done|by rewrite Hlk|right; lia|by rewrite Hnone|].
  rewrite Hnone. intros il w1 Hc1 _ Hw1. eapply wp_bind, lw_lh_get; [exact Hw1|done|].
  destruct Hhome as [Hhb Hhl]. rewrite u32_small by lia.
  assert (Hr : exists r, (match st_ref a !! h with Some (_, r) => r | None => 0 end) = r /\
     r = (if rec then 0 else 1) /\ 0 <= r <= 1).
  { destruct rec; simpl in Hin; [rewrite Hin|destruct Hin as [i ->]]; eexists; split_and!; try done; lia. }
  destruct Hr as (r & Hr & Hrr & Hr01).
  eapply wp_bind, lw_bread; [exact Hw1|by rewrite (proj2 Hc1)|lia|by simpl; rewrite lookup_insert_ne, Hlk by done
    |simpl; rewrite lookup_insert_ne by done; destruct rec; simpl in *;
       [right; rewrite map_size_insert_None by done; lia|left; destruct Hin as [? ->]; by eexists]
    |simpl; rewrite lookup_insert_ne by done; intros ? ? E; rewrite E in Hr; lia|].
  simpl. rewrite lookup_insert_ne, Hr by done. intros i w2 Hc2 _ Hw2.
  assert (Hc12 : same_ctx w w2) by (by etrans).
  eapply wp_bind, (lw_data _ _ L); [exact Hw2|by simpl; rewrite lookup_insert_ne, lookup_insert_eq
    |by simpl; rewrite lookup_insert_ne, lookup_insert_eq|]. simpl.
  eapply wp_bind, (lw_set_data _ _ h); [exact Hw2|by simpl; rewrite lookup_insert_eq
    |by simpl; rewrite lookup_insert_eq|done|]. simpl. intros w3 Hc3 Hw3.
  assert (Hc13 : same_ctx w w3) by (by etrans).
  eapply wp_bind, (lw_bwrite _ _ h); [exact Hw3|by rewrite (proj2 Hc13)|by simpl; rewrite lookup_insert_eq
    |by simpl; rewrite lookup_insert_eq, (proj1 Hc13), (proj1 Hc1)|]. simpl. rewrite fupd_same. intros w4 Hc4 Hw4.
  assert (Hc14 : same_ctx w w4) by (by etrans).
  set (a5 := Store (<[h := (i, 1)]> (<[L := (il, 1)]> (st_ref a)))
     (<[h := my_pid (w_me w)]> (<[L := my_pid (w_me w)]> ∅))
     (fupd (st_view a) h (st_view a L)) (fupd (st_disk a) h (st_view a L)) (st_writes a ++ [(h, st_view a L)])).
  assert (Hrel : forall w5, same_ctx w w5 -> lw w5 a5 g ->
    wp (bio (brelse il);; bio (brelse i);; install_loop n (Datatypes.S t) rec) Q w5).
  { intros w5 Hc5 Hw5. eapply wp_bind, (lw_brelse _ _ L); [exact Hw5|by rewrite (proj2 Hc5)
      |by simpl; rewrite lookup_insert_ne, lookup_insert_eq
      |by simpl; rewrite lookup_insert_ne, lookup_insert_eq, (proj1 Hc5)|simpl; by rewrite !fupd_other|]. simpl.
    intros w6 Hc6 Hw6. assert (Hc16 : same_ctx w w6) by (by etrans).
    eapply wp_bind, (lw_brelse _ _ h); [exact Hw6|by rewrite (proj2 Hc16)
      |by simpl; rewrite lookup_delete_ne, lookup_insert_eq
      |by simpl; rewrite lookup_delete_ne, lookup_insert_eq, (proj1 Hc16)|simpl; by rewrite !fupd_same|]. simpl.
    intros w7 Hc7 Hw7. apply HQ; [by etrans|]. eapply lw_eq; [exact Hw7|]. unfold written, after. rewrite Hlk.
    apply store_eq; [|map_cases|done..]. destruct rec; simpl in *; map_cases. }
  clear Hr Hr01. destruct rec; subst r.
  - eapply wp_bind, wp_ret, Hrel; [done|]. eapply lw_eq; [exact Hw4|]. unfold a5. by rewrite (proj1 Hc1), Hlk.
  - eapply wp_bind, (lw_bunpin _ _ h); [exact Hw4|by rewrite (proj2 Hc14)|by simpl; rewrite lookup_insert_eq|lia|]. simpl.
    intros w5 Hc5 Hw5. apply Hrel; [by etrans|]. eapply lw_eq; [exact Hw5|]. unfold a5. rewrite (proj1 Hc1), Hlk.
    apply store_eq; [map_cases|done..].
Qed.

Lemma wp_install_loop g rec : geom g -> forall hs t a w,
  lw w a g -> no_bio_locks (w_held w) -> st_lock a = ∅ -> log_idle g a -> (size (st_ref a) + Nat.b2n rec < NBUF)%nat ->
  Z.of_nat (t + length hs) <= LOGSIZE - 1 -> entries_at g t hs -> NoDup hs ->
  (forall h, h ∈ hs -> home g h /\ installable rec a h) -> log_synced g a (t + length hs) ->
  wp (install_loop (length hs) t rec) (fun _ w' => same_ctx w w' /\
    lw w' (after a (unpin rec (st_ref a) hs) (install_writes g t hs (st_view a))) g) w.
Proof.
  intros Hge. induction hs as [|h hs IH]; intros t a w Hw Hnl Hlk Hidle Hsz Ht Hent Hnd Hhs Hsync; cbn [length].
  { apply wp_ret. split; [done|]. cbn [install_writes]. destruct rec; simpl; by rewrite after_nil. }
  simpl in Ht, Hsync. destruct (entries_at_cons _ _ _ _ Hent) as [Hh0 Hent'].
  apply NoDup_cons in Hnd as [Hnin Hnd]. destruct (Hhs h) as (Hhome & Hin); [left|].
  eapply (wp_install_step g rec a h t); try done; [lia|intros j Hj; apply Hsync; lia|]. intros w' Hc Hw'.
  set (a' := written a _ h _) in Hw'.
  assert (Hlog : forall j, (j < t + Datatypes.S (length hs))%nat ->
    st_view a' (log_blk g j) = st_view a (log_blk g j) /\ st_disk a' (log_blk g j) = st_disk a (log_blk g j)).
  { intros j Hj. simpl. rewrite !fupd_other; [done|..]; apply not_eq_sym, home_not_log; (done || lia). }
  assert (Hsub : forall k x, st_ref a' !! k = Some x -> st_ref a !! k = Some x).
  { intros k x. simpl. destruct rec; simpl; [done|]. rewrite lookup_delete_Some. by intros [_ ?]. }
  eapply wp_mono, (IH _ a' w' Hw'); try done; [|by rewrite (proj2 Hc)|..|lia| |].
  - intros _ w2 [Hc2 Hw2]. split; [by etrans|]. cbn [install_writes]. unfold a', written in Hw2.
    rewrite after_after in Hw2. rewrite unpin_cons. eapply lw_eq; [exact Hw2|]. f_equal. simpl. f_equal.
    apply install_writes_ext. intros j Hj. apply Hlog. lia.
  - intros b Hb. apply eq_None_not_Some. intros [x Hx]. apply Hsub in Hx. by rewrite Hidle in Hx.
  - assert (size (st_ref a') <= size (st_ref a))%nat; [|lia]. apply map_subseteq_size, map_subseteq_spec. exact Hsub.
  - intros x Hx. destruct (Hhs x) as [Hx1 Hx2]; [by right|]. split; [done|]. assert (h <> x) by (by intros ->).
    destruct rec; simpl in *; [done|]. destruct Hx2 as [i Hi]. exists i. simpl. by rewrite lookup_delete_ne.
  - intros j Hj. destruct (Hlog j) as [-> ->]; [lia|]. apply Hsync. lia.
Qed.

(** *** The header *)

(** The header block [d] with the entries [hs] stored from [i] on. *)
Fixpoint put_blocks (i : nat) (d : list Z) (hs : list Z) : list Z :=
  match hs with
  | [] => d
  | h :: hs' => put_blocks (Datatypes.S i) (put32 d (4 + 4 * i) h) hs'
  end.

(** [struct logheader] with [n] and [hs] over the bytes [d]. *)
Definition header (d : list Z) (hs : list Z) : list Z :=
  put_blocks 0 (put32 d 0 (Z.of_nat (length hs))) hs.

Lemma put_blocks_spec hs : forall i d,
  (4 + 4 * (i + length hs) <= length d)%nat ->
  length (put_blocks i d hs) = length d /\
  (forall off, (off + 4 <= 4 + 4 * i)%nat -> get32 (put_blocks i d hs) off = get32 d off) /\
  (forall j h, hs !! j = Some h -> get32 (put_blocks i d hs) (4 + 4 * (i + j)) = u32 h).
Proof.
  induction hs as [|h hs IH]; intros i d Hd; cbn [put_blocks length] in *; [done|].
  assert (Hl : length (put32 d (4 + 4 * i) h) = length d) by (apply length_put_le; lia).
  destruct (IH (Datatypes.S i) (put32 d (4 + 4 * i) h)) as (H1 & H2 & H3); [rewrite Hl; lia|].
  split_and!.
  - by rewrite H1.
  - intros off Ho. rewrite H2 by lia. apply get_put_le_other; lia.
  - intros [|j] x Hx.
    + simpl in Hx. injection Hx as ->. rewrite H2 by lia. rewrite Nat.add_0_r. apply get_put_le_same. lia.
    + rewrite <- Nat.add_succ_comm. by apply H3.
Qed.

Lemma length_header d hs :
  length d = Z.to_nat BSIZE -> Z.of_nat (length hs) <= LOGSIZE - 1 -> length (header d hs) = Z.to_nat BSIZE.
Proof.
  intros Hd Hn. unfold BSIZE, LOGSIZE, MAXOPBLOCKS in *. unfold header.
  destruct (put_blocks_spec hs 0 (put32 d 0 (Z.of_nat (length hs)))) as [-> _]; rewrite length_put_le; lia.
Qed.

Lemma header_spec d hs :
  length d = Z.to_nat BSIZE -> Z.of_nat (length hs) <= LOGSIZE - 1 ->
  (forall h, h ∈ hs -> 0 <= h < 2 ^ 31) ->
  length (header d hs) = Z.to_nat BSIZE /\ hdr_n (header d hs) = Z.of_nat (length hs) /\
  (forall j h, hs !! j = Some h -> hdr_block (header d hs) j = h).
Proof.
  intros Hd Hn Hhs. unfold header. assert (Hl : length (put32 d 0 (Z.of_nat (length hs))) = length d).
  { apply length_put_le. rewrite Hd. unfold BSIZE. lia. }
  destruct (put_blocks_spec hs 0 (put32 d 0 (Z.of_nat (length hs)))) as (H1 & H2 & H3).
  { rewrite Hl, Hd. unfold BSIZE, LOGSIZE, MAXOPBLOCKS in *. lia. }
  split_and!; [by rewrite H1, Hl|..].
  - unfold hdr_n. rewrite H2 by lia. rewrite get_put_le_same by (rewrite Hd; unfold BSIZE; lia).
    unfold LOGSIZE, MAXOPBLOCKS in *. rewrite Z.mod_small by lia. apply i32_small. lia.
  - intros j h Hj. unfold hdr_block. specialize (H3 j h Hj). rewrite Nat.add_0_l in H3. rewrite H3. pose proof (Hhs h ltac:(by eapply list_elem_of_lookup_2)).
    rewrite u32_small by lia. apply i32_small. lia.
Qed.

Lemma lw_write_loop g a (Q : list Z -> world (logst S) -> Prop) w hs : lw w a g -> forall i d,
  entries_at g i hs -> Q (put_blocks i d hs) w -> wp (write_loop (length hs) i d) Q w.
Proof.
  intros Hw. induction hs as [|h hs IH]; intros i d He HQ; cbn [length write_loop]; [by apply wp_ret|].
  destruct (entries_at_cons _ _ _ _ He) as [Hh He']. eapply wp_bind, lw_lh_get; [exact Hw|done|]. by apply IH.
Qed.

Lemma wp_write_head g a hs w :
  geom g -> lw w a g -> no_bio_locks (w_held w) -> st_lock a = ∅ -> log_idle g a -> (size (st_ref a) < NBUF)%nat ->
  lh_n g = Z.of_nat (length hs) -> Z.of_nat (length hs) <= LOGSIZE - 1 -> entries_at g 0 hs ->
  length (st_view a (lg_start g)) = Z.to_nat BSIZE ->
  wp write_head (fun _ w' => same_ctx w w' /\
    lw w' (written a (st_ref a) (lg_start g) (header (st_view a (lg_start g)) hs)) g) w.
Proof.
  intros Hge Hw Hnl Hlk Hidle Hsz Hn Hmax Hent Hlen. destruct Hge as [Hdev H0 H1]. unfold LOGSIZE, MAXOPBLOCKS in *.
  assert (Hnone : st_ref a !! lg_start g = None) by (apply Hidle; unfold LOGSIZE, MAXOPBLOCKS; lia). unfold write_head.
  eapply wp_bind, lw_getlog; [exact Hw|]. rewrite Hdev, u32_small by lia.
  eapply wp_bind, lw_bread; [exact Hw|done|lia|by rewrite Hlk|by right|by rewrite Hnone|].
  rewrite Hnone. intros i w1 Hc1 _ Hw1.
  eapply wp_bind, lw_data; [exact Hw1|by simpl; rewrite lookup_insert_eq|by simpl; rewrite lookup_insert_eq|]. simpl.
  rewrite Hn, Nat2Z.id. eapply wp_bind, lw_write_loop; [exact Hw1|done|]. fold (header (st_view a (lg_start g)) hs).
  set (H := header _ _). assert (HH : length H = Z.to_nat BSIZE).
  { by apply length_header. }
  eapply wp_bind, (lw_set_data _ _ (lg_start g)); [exact Hw1|by simpl; rewrite lookup_insert_eq
    |by simpl; rewrite lookup_insert_eq|done|]. simpl. intros w2 Hc2 Hw2. assert (Hc12 : same_ctx w w2) by (by etrans).
  eapply wp_bind, (lw_bwrite _ _ (lg_start g)); [exact Hw2|by rewrite (proj2 Hc12)|by simpl; rewrite lookup_insert_eq
    |by simpl; rewrite lookup_insert_eq, (proj1 Hc12)|]. simpl. rewrite fupd_same. intros w3 Hc3 Hw3.
  assert (Hc13 : same_ctx w w3) by (by etrans).
  eapply (lw_brelse _ _ (lg_start g)); [exact Hw3|by rewrite (proj2 Hc13)|by simpl; rewrite lookup_insert_eq
    |by simpl; rewrite lookup_insert_eq, (proj1 Hc13)|by simpl; rewrite !fupd_same|]. simpl. intros w4 Hc4 Hw4.
  split; [by etrans|]. eapply lw_eq; [exact Hw4|]. unfold written, after.
  rewrite Hlk. apply store_eq; [map_cases|map_cases|done..].
Qed.

(** The log with another header in memory. *)
Definition with_head g (n : Z) (bl : list Z) : log :=
  Log (lg_start g) (lg_size g) (lg_outstanding g) (lg_committing g) (lg_dev g) n bl.

Lemma lw_read_loop a d (Q : () -> world (logst S) -> Prop) n : forall i g w,
  lw w a g -> (i + n <= length (lh_block g))%nat ->
  (forall w' bl, same_ctx w w' -> lw w' a (with_head g (lh_n g) bl) -> length bl = length (lh_block g) ->
     (forall j, (j < i)%nat -> bl !! j = lh_block g !! j) ->
     (forall j, (i <= j < i + n)%nat -> bl !! j = Some (hdr_block d j)) -> Q () w') ->
  wp (read_loop n i d) Q w.
Proof.
  induction n as [|n IH]; intros i g w Hw Hi HQ; cbn [read_loop].
  { apply wp_ret. apply (HQ w (lh_block g)); [done| |done..|intros; lia]. destruct Hw as [Hr Hg]. split; [done|].
    rewrite Hg. by destruct g. }
  eapply wp_bind, lw_lh_set; [exact Hw|lia|]. intros w1 Hc1 Hw1.
  eapply (IH _ (set_block i (hdr_block d i) g)); [exact Hw1|simpl; rewrite length_insert; lia|]. simpl.
  intros w2 bl Hc2 Hw2 Hl Hlt Hge. apply (HQ w2 bl); [by etrans|exact Hw2|by rewrite Hl, length_insert|..].
  - intros j Hj. rewrite Hlt by lia. rewrite list_lookup_insert_ne by lia. done.
  - intros j Hj. destruct (decide (j = i)) as [->|]; [|apply Hge; lia].
    rewrite Hlt by lia. apply list_lookup_insert_eq. lia.
Qed.

Lemma wp_read_head g a hs w :
  geom g -> lw w a g -> no_bio_locks (w_held w) -> st_lock a = ∅ -> log_idle g a -> (size (st_ref a) < NBUF)%nat ->
  st_view a (lg_start g) = st_disk a (lg_start g) -> length (lh_block g) = Z.to_nat LOGSIZE ->
  Z.of_nat (length hs) <= LOGSIZE - 1 -> hdr_n (st_view a (lg_start g)) = Z.of_nat (length hs) ->
  (forall j h, hs !! j = Some h -> hdr_block (st_view a (lg_start g)) j = h) ->
  wp read_head (fun _ w' => same_ctx w w' /\ exists bl,
    lw w' a (with_head g (Z.of_nat (length hs)) bl) /\ length bl = Z.to_nat LOGSIZE /\
    entries_at (with_head g (Z.of_nat (length hs)) bl) 0 hs) w.
Proof.
  intros Hge Hw Hnl Hlk Hidle Hsz Hsync Hbl Hmax Hn Hent. destruct Hge as [Hdev H0 H1]. unfold LOGSIZE, MAXOPBLOCKS in *.
  assert (Hnone : st_ref a !! lg_start g = None) by (apply Hidle; unfold LOGSIZE, MAXOPBLOCKS; lia). unfold read_head.
  eapply wp_bind, lw_getlog; [exact Hw|]. rewrite Hdev, u32_small by lia.
  eapply wp_bind, lw_bread; [exact Hw|done|lia|by rewrite Hlk|by right|by rewrite Hnone|].
  rewrite Hnone. intros i w1 Hc1 _ Hw1.
  eapply wp_bind, lw_data; [exact Hw1|by simpl; rewrite lookup_insert_eq|by simpl; rewrite lookup_insert_eq|]. simpl.
  rewrite Hn, Nat2Z.id. eapply wp_bind, lw_modlog; [exact Hw1|]. intros w2 Hc2 Hw2.
  eapply wp_bind, lw_read_loop; [exact Hw2|simpl; lia|]. simpl. intros w3 bl Hc3 Hw3 Hl _ Hread.
  assert (Hc13 : same_ctx w w3) by (etrans; [exact Hc1|by etrans]).
  eapply (lw_brelse _ _ (lg_start g)); [exact Hw3|by rewrite (proj2 Hc13)|by simpl; rewrite lookup_insert_eq
    |by simpl; rewrite lookup_insert_eq, (proj1 Hc13)|by intros _; simpl|]. simpl. intros w4 Hc4 Hw4.
  split; [by etrans|]. exists bl. split_and!; [|by rewrite Hl|].
  - eapply lw_eq; [exact Hw4|]. destruct a as [m l v d ws]. simpl in *. rewrite Hlk. apply store_eq; [map_cases|map_cases|done..].
  - intros j h Hj. simpl. rewrite Hread; [f_equal; by apply Hent|]. apply lookup_lt_Some in Hj. lia.
Qed.
End spec.
