(* ===== verification/LogCrash.v ===== *)
(** Crash safety of kernel/log.c: what a disk recovers to, the effect of every
    prefix of the writes of [commit] and of recovery. *)

From S2P Require Import Prelude KMonad Bytes BlockStore Log LogSpec.

(** ** Disks *)

Section disk.
Implicit Types (g : log) (d v : Z -> list Z) (hs : list Z) (ws : list (Z * list Z)).

Definition wf_disk d : Prop := forall b, length (d b) = Z.to_nat BSIZE.

(** On the disk [d], the log holds a committed transaction on the blocks
    [hs]; installing it gives the home blocks of [v].  With [hs] empty the log
    is empty and the home blocks are those of [v]. *)
Record recoverable g hs d v : Prop := {
  rc_max : Z.of_nat (length hs) <= LOGSIZE - 1;
  rc_nodup : NoDup hs;
  rc_home : forall h, h ∈ hs -> home g h;
  rc_n : hdr_n (d (lg_start g)) = Z.of_nat (length hs);
  rc_block : forall j h, hs !! j = Some h -> hdr_block (d (lg_start g)) j = h;
  rc_log : forall j h, hs !! j = Some h -> d (log_blk g j) = v h;
  rc_rest : forall b, home g b -> b ∉ hs -> d b = v b }.

Definition clean g d v : Prop := recoverable g [] d v.
Definition recovers_to g d v : Prop := exists hs, recoverable g hs d v.

(** Only the start of the log matters, and the home blocks. *)
Lemma recoverable_ext g g' hs d v v' :
  lg_start g' = lg_start g -> (forall b, home g b -> v b = v' b) -> recoverable g hs d v -> recoverable g' hs d v'.
Proof.
  intros Hs Hv []. unfold home, log_blk in *. split; unfold home, log_blk; rewrite ?Hs; try done.
  - intros j h Hj. rewrite <- Hv; [by apply rc_log0|]. apply rc_home0. by eapply list_elem_of_lookup_2.
  - intros b Hb Hn. rewrite <- Hv by done. by apply rc_rest0.
Qed.

Lemma recovers_ext g g' d v v' :
  lg_start g' = lg_start g -> (forall b, home g b -> v b = v' b) -> recovers_to g d v -> recovers_to g' d v'.
Proof. intros Hs Hv [hs Hr]. exists hs. by eapply recoverable_ext, Hr. Qed.

(** Writes to home blocks that the log has, or to log blocks that no
    transaction uses, change nothing for recovery. *)
Lemma recoverable_home_writes g hs d v ws :
  0 <= lg_start g -> recoverable g hs d v -> (forall b, b ∈ ws.*1 -> b ∈ hs) -> recoverable g hs (apply_writes d ws) v.
Proof.
  intros Hs [H1 H2 H3 H4 H5 H6 H7] Hws.
  assert (Hlog : forall b, ~ home g b -> apply_writes d ws b = d b).
  { intros b Hb. apply apply_writes_notin. intros Hin. by apply Hb, H3, Hws. }
  assert (Hst : apply_writes d ws (lg_start g) = d (lg_start g)).
  { apply Hlog. intros [_ Hn]. apply Hn. unfold LOGSIZE, MAXOPBLOCKS. lia. }
  split; try done; rewrite ?Hst; try done.
  - intros j h Hj. rewrite Hlog; [by apply H6|]. intros Hh. apply (home_not_log g _ j Hh); [|done].
    apply lookup_lt_Some in Hj. lia.
  - intros b Hb Hn. rewrite apply_writes_notin; [by apply H7|]. intros Hin. by apply Hn, Hws.
Qed.

Lemma clean_log_writes g d v ws :
  clean g d v -> (forall b, b ∈ ws.*1 -> exists t, b = log_blk g t /\ Z.of_nat t < LOGSIZE - 1) ->
  clean g (apply_writes d ws) v.
Proof.
  intros [H1 H2 H3 H4 H5 H6 H7] Hws.
  assert (Hst : apply_writes d ws (lg_start g) = d (lg_start g)).
  { apply apply_writes_notin. intros (t & Ht & _)%Hws. unfold log_blk in Ht. lia. }
  split; try done; rewrite ?Hst; try done.
  intros b Hb Hn. rewrite apply_writes_notin; [by apply H7|]. intros (t & Ht & Hlt)%Hws. by apply (home_not_log g b t).
Qed.

(** The commit point: the header of [hs] turns a clean disk whose log blocks
    hold the new contents into one that recovers to them. *)
Lemma commit_point g d v v' hs h0 :
  clean g d v -> length h0 = Z.to_nat BSIZE -> NoDup hs -> Z.of_nat (length hs) <= LOGSIZE - 1 ->
  (forall h, h ∈ hs -> home g h) -> (forall j h, hs !! j = Some h -> d (log_blk g j) = v' h) ->
  (forall b, home g b -> b ∉ hs -> v b = v' b) ->
  recoverable g hs (fupd d (lg_start g) (header h0 hs)) v'.
Proof.
  intros Hcl Hl Hnd Hmax Hhome Hlog Hrest.
  destruct (header_spec h0 hs) as (_ & Hn & Hb); [done..|intros h Hh; by apply Hhome|].
  split; rewrite ?fupd_same; try done.
  - intros j h Hj. rewrite fupd_other; [by apply Hlog|]. unfold log_blk. lia.
  - intros b Hb' Hnin. rewrite fupd_other.
    + rewrite <- Hrest by done. apply (rc_rest _ _ _ _ Hcl); [done|apply not_elem_of_nil].
    + intros ->. apply Hb'. unfold LOGSIZE, MAXOPBLOCKS. lia.
Qed.

(** Clearing the header after the home blocks are written. *)
Lemma clear_point g hs d v h0 :
  recoverable g hs d v -> length h0 = Z.to_nat BSIZE -> (forall h, h ∈ hs -> d h = v h) ->
  clean g (fupd d (lg_start g) (header h0 [])) v.
Proof.
  intros Hr Hl Hh. destruct (header_spec h0 []) as (_ & Hn & _); [done|done|intros h Hin; by apply elem_of_nil in Hin|].
  split; rewrite ?fupd_same; try done; [apply NoDup_nil_2|intros h Hin; by apply elem_of_nil in Hin|].
  intros b Hb _. rewrite fupd_other.
  - destruct (decide (b ∈ hs)); [by apply Hh|]. by apply (rc_rest _ _ _ _ Hr).
  - intros ->. apply Hb. unfold LOGSIZE, MAXOPBLOCKS. lia.
Qed.

(** *** The writes of the two loops *)

Lemma log_writes_blocks g hs f : forall t b,
  b ∈ (log_writes g t hs f).*1 -> exists j, b = log_blk g j /\ (t <= j < t + length hs)%nat.
Proof.
  induction hs as [|h hs IH]; intros t b; cbn [log_writes]; [by intros ?%elem_of_nil|].
  cbn. intros [->|Hin]%elem_of_cons; [exists t; split; [done|]; simpl; lia|].
  destruct (IH _ _ Hin) as (j & -> & Hj). exists j. split; [done|]. simpl. lia.
Qed.

Lemma log_blk_inj g i j : log_blk g i = log_blk g j -> i = j.
Proof. unfold log_blk. lia. Qed.

Lemma log_writes_nodup g hs f : forall t, NoDup (log_writes g t hs f).*1.
Proof.
  induction hs as [|h hs IH]; intros t; [apply NoDup_nil_2|]. cbn. apply NoDup_cons. split; [|apply IH].
  intros (j & Hj & Hlt)%log_writes_blocks. apply log_blk_inj in Hj. lia.
Qed.

Lemma log_writes_lookup g hs f : forall t j h,
  hs !! j = Some h -> (log_blk g (t + j), f h) ∈ log_writes g t hs f.
Proof.
  induction hs as [|h0 hs IH]; intros t [|j] h Hj; simpl in Hj; [done..| |].
  - injection Hj as ->. rewrite Nat.add_0_r. left.
  - right. rewrite <- Nat.add_succ_comm. by apply IH.
Qed.

Lemma install_writes_blocks g hs f : forall t, (install_writes g t hs f).*1 = hs.
Proof. induction hs as [|h hs IH]; intros t; [done|]. cbn. by rewrite IH. Qed.

Lemma install_writes_start g g' hs f : forall t,
  lg_start g' = lg_start g -> install_writes g' t hs f = install_writes g t hs f.
Proof.
  induction hs as [|h hs IH]; intros t Hs; [done|]. cbn [install_writes]. rewrite IH by done. unfold log_blk. by rewrite Hs.
Qed.

Lemma install_writes_lookup g hs f : forall t j h,
  hs !! j = Some h -> (h, f (log_blk g (t + j))) ∈ install_writes g t hs f.
Proof.
  induction hs as [|h0 hs IH]; intros t [|j] h Hj; simpl in Hj; [done..| |].
  - injection Hj as ->. rewrite Nat.add_0_r. left.
  - right. rewrite <- Nat.add_succ_comm. by apply IH.
Qed.

(** After [install_trans] the home blocks of the transaction are those of [v]. *)
Lemma installed g hs d v f :
  NoDup hs -> (forall j h, hs !! j = Some h -> f (log_blk g j) = v h) ->
  forall h, h ∈ hs -> apply_writes d (install_writes g 0 hs f) h = v h.
Proof.
  intros Hnd Hf h (j & Hj)%list_elem_of_lookup. rewrite <- (Hf j h Hj).
  apply apply_writes_in; [by rewrite install_writes_blocks|]. by apply (install_writes_lookup g hs f 0).
Qed.

Lemma take_blocks k ws b : b ∈ (take k ws).*1 -> b ∈ ws.*1.
Proof. rewrite fmap_take. intros (i & Hi & _)%elem_of_take. by eapply list_elem_of_lookup_2. Qed.

(** *** Prefixes of a sequence of writes *)

(** [P] holds of the disk after every prefix of [ws], wherever a crash
    happens. *)
Definition always (P : (Z -> list Z) -> Prop) d ws : Prop := forall k, P (apply_writes d (take k ws)).

Lemma always_app P d ws1 ws2 : always P d ws1 -> always P (apply_writes d ws1) ws2 -> always P d (ws1 ++ ws2).
Proof.
  intros H1 H2 k. rewrite take_app, apply_writes_app. destruct (decide (k <= length ws1)%nat).
  - replace (k - length ws1)%nat with 0%nat by lia. rewrite take_0. apply H1.
  - rewrite (take_ge ws1) by lia. apply H2.
Qed.

Lemma always_one (P : (Z -> list Z) -> Prop) d b x : P d -> P (fupd d b x) -> always P d [(b, x)].
Proof. intros H1 H2 [|k]; [done|]. by rewrite take_ge by (simpl; lia). Qed.

Lemma always_mono (P Q : (Z -> list Z) -> Prop) d ws : (forall d, P d -> Q d) -> always P d ws -> always Q d ws.
Proof. intros H HP k. apply H, HP. Qed.

Lemma always_home_writes g hs d v ws :
  0 <= lg_start g -> recoverable g hs d v -> (forall b, b ∈ ws.*1 -> b ∈ hs) ->
  always (fun d => recoverable g hs d v) d ws.
Proof. intros Hs Hr Hws k. apply recoverable_home_writes; [done..|]. intros b Hb%take_blocks. by apply Hws. Qed.

Lemma always_log_writes g d v ws :
  clean g d v -> (forall b, b ∈ ws.*1 -> exists t, b = log_blk g t /\ Z.of_nat t < LOGSIZE - 1) ->
  always (fun d => clean g d v) d ws.
Proof. intros Hc Hws k. apply clean_log_writes; [done|]. intros b Hb%take_blocks. by apply Hws. Qed.

(** Installing a committed transaction and clearing the header. *)
Lemma install_clear_safe g hs d v f h0 :
  0 <= lg_start g -> recoverable g hs d v -> length h0 = Z.to_nat BSIZE ->
  (forall j h, hs !! j = Some h -> f (log_blk g j) = v h) ->
  let ws := install_writes g 0 hs f ++ [(lg_start g, header h0 [])] in
  always (fun d => recovers_to g d v) d ws /\ clean g (apply_writes d ws) v.
Proof.
  intros Hs Hr Hl Hf. set (WI := install_writes g 0 hs f).
  assert (Ha : always (fun d => recoverable g hs d v) d WI).
  { apply always_home_writes; [done..|]. intros b. unfold WI. by rewrite install_writes_blocks. }
  pose proof (Ha (length WI)) as Hend. rewrite take_ge in Hend by lia.
  assert (Hc : clean g (fupd (apply_writes d WI) (lg_start g) (header h0 [])) v).
  { eapply clear_point; [done..|]. apply installed; [apply Hr|done]. }
  cbn zeta. rewrite apply_writes_app. split; [|exact Hc].
  apply always_app; [|apply always_one; [by exists hs|by exists []]].
  eapply always_mono; [|exact Ha]. intros d' Hd. by exists hs.
Qed.
End disk.

(** ** Commit and recovery *)

Section crash.
Context {S : Type} {ops : BlockOps S} {dev : Z} {laws : BlockLaws S dev}.
Implicit Types (w : world (logst S)) (a : store) (g : log).

(** The state in which [commit] runs: no process is in a file system
    operation, the log holds the only references to the blocks [hs] of the
    transaction, and only they differ from the disk. *)
Record committable g a (hs : list Z) : Prop := {
  cm_geom : geom (dev := dev) g;
  cm_lock : st_lock a = ∅;
  cm_idle : log_idle g a;
  cm_size : (size (st_ref a) < NBUF)%nat;
  cm_n : lh_n g = Z.of_nat (length hs);
  cm_max : Z.of_nat (length hs) <= LOGSIZE - 1;
  cm_entries : entries_at g 0 hs;
  cm_nodup : NoDup hs;
  cm_hs : forall h, h ∈ hs -> home g h /\ pinned a h;
  cm_wf : wf_disk (st_view a);
  cm_rest : forall b, home g b -> b ∉ hs -> st_disk a b = st_view a b;
  cm_clean : hdr_n (st_disk a (lg_start g)) = 0 }.

Lemma committable_clean g a hs : committable g a hs -> clean g (st_disk a) (st_disk a).
Proof.
  intros H. split; simpl; try done; [apply NoDup_nil_2|by intros h ?%elem_of_nil|apply H].
Qed.

(** The writes of a commit, up to the commit point. *)
Lemma log_phase_safe g a hs :
  committable g a hs ->
  let v := st_view a in let d := st_disk a in
  let WL := log_writes g 0 hs v in
  let h0 := apply_writes v WL (lg_start g) in
  always (fun d' => recovers_to g d' d \/ recovers_to g d' v) d (WL ++ [(lg_start g, header h0 hs)]) /\
  recoverable g hs (apply_writes d (WL ++ [(lg_start g, header h0 hs)])) v.
Proof.
  intros Hc. cbn zeta. set (WL := log_writes g 0 hs (st_view a)). set (h0 := apply_writes _ WL _).
  assert (Hst : lg_start g ∉ WL.*1).
  { intros (j & Hj & _)%log_writes_blocks. unfold log_blk in Hj. lia. }
  assert (Hl : length h0 = Z.to_nat BSIZE).
  { unfold h0. rewrite apply_writes_notin by done. apply (cm_wf _ _ _ Hc). }
  assert (Ha : always (fun d' => clean g d' (st_disk a)) (st_disk a) WL).
  { apply always_log_writes; [by eapply committable_clean|]. intros b (j & -> & Hj)%log_writes_blocks. exists j.
    split; [done|]. pose proof (cm_max _ _ _ Hc). lia. }
  pose proof (Ha (length WL)) as Hend. rewrite take_ge in Hend by lia.
  assert (Hr : recoverable g hs (fupd (apply_writes (st_disk a) WL) (lg_start g) (header h0 hs)) (st_view a)).
  { eapply commit_point; [exact Hend|done|apply Hc..| |apply Hc].
    intros j h Hj. apply apply_writes_in; [apply log_writes_nodup|]. by apply (log_writes_lookup g hs (st_view a) 0). }
  rewrite apply_writes_app. split; [|exact Hr].
  apply always_app; [|apply always_one; [left; by exists []|right; by exists hs]].
  eapply always_mono; [|exact Ha]. intros d' Hd. left. by exists [].
Qed.

(** The home blocks of the store are not changed by the writes of a commit
    that go to the log. *)
Lemma log_writes_view g a hs b :
  home g b -> Z.of_nat (length hs) <= LOGSIZE - 1 -> forall f, apply_writes f (log_writes g 0 hs (st_view a)) b = f b.
Proof.
  intros Hb Hmax f. apply apply_writes_notin. intros (j & -> & Hj)%log_writes_blocks. eapply home_not_log; [done| |done]. lia.
Qed.

Lemma start_not_home g : ~ home g (lg_start g).
Proof. intros [_ H]. apply H. unfold LOGSIZE, MAXOPBLOCKS. lia. Qed.

(** After the log phase the log blocks hold the transaction. *)
Lemma log_phase_log g a hs h0 f j h :
  hs !! j = Some h ->
  apply_writes f (log_writes g 0 hs (st_view a) ++ [(lg_start g, h0)]) (log_blk g j) = st_view a h.
Proof.
  intros Hj. rewrite apply_writes_app. simpl. rewrite fupd_other by (unfold log_blk; lia).
  apply apply_writes_in; [apply log_writes_nodup|]. by apply (log_writes_lookup g hs (st_view a) 0).
Qed.

(** The whole of the writes leaves the home blocks as the cache has them. *)
Lemma commit_view g a hs h0 h1 f b :
  home g b -> Z.of_nat (length hs) <= LOGSIZE - 1 -> NoDup hs ->
  (forall j h, hs !! j = Some h -> f (log_blk g j) = st_view a h) ->
  apply_writes (st_view a) ((log_writes g 0 hs (st_view a) ++ [(lg_start g, h0)]) ++
    install_writes g 0 hs f ++ [(lg_start g, h1)]) b = st_view a b.
Proof.
  intros Hb Hmax Hnd Hf. assert (Hne : b <> lg_start g) by (intros ->; by eapply start_not_home).
  rewrite !apply_writes_app. simpl. rewrite fupd_other by done. destruct (decide (b ∈ hs)).
  - by apply installed.
  - rewrite apply_writes_notin by (by rewrite install_writes_blocks). rewrite fupd_other by done. by apply log_writes_view.
Qed.

Lemma unpin_sub rec hs : forall (m : gmap Z (nat * Z)), unpin rec m hs ⊆ m.
Proof.
  destruct rec; [done|]. induction hs as [|h hs IH]; intros m; [done|]. simpl. etrans; [apply (IH (delete h m))|].
  apply delete_subseteq.
Qed.

Lemma log_idle_sub g a a' : st_ref a' ⊆ st_ref a -> log_idle g a -> log_idle g a'.
Proof. intros Hs Hi b Hb. eapply lookup_weaken_None; [|exact Hs]. by apply Hi. Qed.

(** Installing the transaction that the log holds and clearing the header,
    the common part of [commit] and recovery. *)
Lemma wp_install_clear g a hs rec w :
  geom (dev := dev) g -> lw w a g -> no_bio_locks (w_held w) -> st_lock a = ∅ -> log_idle g a ->
  (size (st_ref a) + Nat.b2n rec < NBUF)%nat -> lh_n g = Z.of_nat (length hs) -> Z.of_nat (length hs) <= LOGSIZE - 1 ->
  entries_at g 0 hs -> NoDup hs -> (forall h, h ∈ hs -> home g h /\ installable rec a h) ->
  log_synced g a (length hs) -> length (st_view a (lg_start g)) = Z.to_nat BSIZE ->
  wp (install_trans rec;; modlog (set_n 0);; write_head) (fun _ w' => same_ctx w w' /\ exists h0,
    length h0 = Z.to_nat BSIZE /\
    lw w' (after a (unpin rec (st_ref a) hs) (install_writes g 0 hs (st_view a) ++ [(lg_start g, header h0 [])]))
      (set_n 0 g)) w.
Proof.
  intros Hge Hw Hnl Hlk Hidle Hsz Hn Hmax Hent Hnd Hhs Hsync Hst.
  eapply wp_call; [unfold install_trans; eapply wp_bind, lw_getlog; [exact Hw|]; rewrite Hn, Nat2Z.id;
    by apply (wp_install_loop g rec Hge hs 0 a w)|].
  intros _ w1 [Hc1 Hw1]. eapply wp_bind, lw_modlog; [exact Hw1|]. intros w2 Hc2 Hw2.
  set (a1 := after a _ _) in Hw2. assert (Hsub : st_ref a1 ⊆ st_ref a) by apply unpin_sub.
  assert (Hst1 : length (st_view a1 (lg_start g)) = Z.to_nat BSIZE).
  { simpl. rewrite apply_writes_notin; [done|]. rewrite install_writes_blocks. intros Hin. by eapply start_not_home, Hhs. }
  assert (Hc12 : same_ctx w w2) by (by etrans).
  eapply wp_mono, (wp_write_head (set_n 0 g) a1 [] w2); try done.
  - intros _ w3 [Hc3 Hw3]. split; [by etrans|]. eexists. split; [exact Hst1|].
    unfold a1, written in Hw3. by rewrite after_after in Hw3.
  - by destruct Hge.
  - by rewrite (proj2 Hc12).
  - by eapply (log_idle_sub g a).
  - apply map_subseteq_size in Hsub. lia.
Qed.

Definition wf_writes (ws : list (Z * list Z)) : Prop := Forall (fun x => length x.2 = Z.to_nat BSIZE) ws.

Lemma wf_apply_writes d ws : wf_disk d -> wf_writes ws -> wf_disk (apply_writes d ws).
Proof.
  intros Hd Hws. revert d Hd. induction Hws as [|[b x] ws Hx Hws IH]; intros d Hd; [done|]. apply IH. intros b'.
  unfold fupd. case_decide; [done|apply Hd].
Qed.

Lemma wf_install_writes g f hs : wf_disk f -> forall t, wf_writes (install_writes g t hs f).
Proof. intros Hf. induction hs as [|h hs IH]; intros t; constructor; [apply Hf|apply IH]. Qed.

Lemma wf_log_writes g f hs : wf_disk f -> forall t, wf_writes (log_writes g t hs f).
Proof. intros Hf. induction hs as [|h hs IH]; intros t; constructor; [apply Hf|apply IH]. Qed.

(** What [commit] leaves: the transaction is on the disk, the log is empty,
    and a crash after any of its writes loses nothing or all of it. *)
Record commit_post g a hs w w' : Prop := {
  cp_ctx : same_ctx w w';
  cp_ws : exists ws, lw w' (after a (unpin false (st_ref a) hs) ws) (set_n 0 g) /\
    always (fun d => recovers_to g d (st_disk a) \/ recovers_to g d (st_view a)) (st_disk a) ws /\
    clean g (apply_writes (st_disk a) ws) (st_view a) /\
    (forall b, home g b -> apply_writes (st_view a) ws b = st_view a b) /\
    wf_writes ws }.

Lemma wp_commit g a hs w :
  committable g a hs -> lw w a g -> no_bio_locks (w_held w) -> wp commit (fun _ => commit_post g a hs w) w.
Proof.
  intros Hc Hw Hnl. pose proof (log_phase_safe g a hs Hc) as [Hphase Hrec]. pose proof (committable_clean g a hs Hc) as Hcl.
  destruct Hc as [Hge Hlk Hidle Hsz Hn Hmax Hent Hnd Hhs Hwf Hrest Hclean].
  unfold commit. eapply wp_bind, lw_getlog; [exact Hw|]. destruct (Z.gtb_spec (lh_n g) 0) as [Hpos|Hpos].
  2:{ assert (hs = []) as -> by (destruct hs; [done|simpl in Hn; lia]). apply wp_ret. split; [done|]. exists [].
      split_and!; [|by intros [|k]; left; exists []| |done|by apply Forall_nil].
      - simpl. rewrite after_nil. destruct Hw as [Hr Hg]. split; [done|]. rewrite Hg. destruct g. simpl in *. by rewrite Hn.
      - destruct Hcl as [? ? ? ? ? ? _]. by split. }
  set (WL := log_writes g 0 hs (st_view a)) in *. set (h0 := apply_writes (st_view a) WL (lg_start g)) in *.
  assert (Hh0 : length h0 = Z.to_nat BSIZE).
  { unfold h0. rewrite apply_writes_notin; [apply Hwf|]. intros (j & Hj & _)%log_writes_blocks. unfold log_blk in Hj. lia. }
  eapply wp_call; [unfold write_log; eapply wp_bind, lw_getlog; [exact Hw|]; rewrite Hn, Nat2Z.id;
    apply (wp_write_log_loop g Hge hs 0 a w); try done; [intros h Hh; destruct (Hhs h Hh); split_and!; [done|done|apply Hwf]]|].
  intros _ w1 [Hc1 Hw1]. fold WL in Hw1.
  eapply wp_call; [eapply (wp_write_head g _ hs w1 Hge Hw1); try done; by rewrite (proj2 Hc1)|].
  intros _ w2 [Hc2 Hw2]. unfold written in Hw2. rewrite after_after in Hw2. simpl in Hw2. fold h0 in Hw2.
  set (W1 := WL ++ [(lg_start g, header h0 hs)]) in *. assert (Hc12 : same_ctx w w2) by (by etrans).
  set (a2 := after a (st_ref a) W1) in Hw2.
  assert (Hlog : forall f j h, hs !! j = Some h -> apply_writes f W1 (log_blk g j) = st_view a h)
    by (intros; by apply log_phase_log).
  eapply wp_mono, (wp_install_clear g a2 hs false w2); try done.
  - intros _ w3 [Hc3 (h1 & Hh1 & Hw3)]. split; [by etrans|]. unfold a2 in Hw3. rewrite after_after in Hw3. eexists.
    split; [exact Hw3|]. destruct (install_clear_safe g hs _ _ (st_view a2) h1 (ge_start _ Hge) Hrec Hh1) as [Hs1 Hs2];
      [intros j h Hj; by apply Hlog|]. split_and!.
    + apply always_app; [exact Hphase|]. eapply always_mono; [|exact Hs1]. by right.
    + by rewrite apply_writes_app.
    + intros b Hb. apply commit_view; [done..|]. intros j h Hj. by apply Hlog.
    + assert (Hwf1 : wf_writes W1).
      { apply Forall_app. split; [by apply wf_log_writes|]. repeat constructor. by apply length_header. }
      apply Forall_app. split; [exact Hwf1|]. apply Forall_app.
      split; [by apply wf_install_writes, wf_apply_writes|]. repeat constructor. by apply (length_header h1 []).
  - by rewrite (proj2 Hc12).
  - simpl. by rewrite Nat.add_0_r.
  - intros j Hj. destruct (lookup_lt_is_Some_2 hs j Hj) as [h Hh]. simpl. rewrite !(Hlog _ j h Hh). split; [done|apply Hwf].
  - simpl. unfold W1. rewrite apply_writes_app. simpl. rewrite fupd_same. by apply length_header.
Qed.

(** What recovery leaves on a disk [d] that recovers to [v], from an empty
    cache: the home blocks of [v] and an empty log; and a crash after any of
    its writes leaves a disk that still recovers to [v]. *)
Definition recover_post g a v w w' : Prop := same_ctx w w' /\ exists ws bl,
  lw w' (after a ∅ ws) (with_head g 0 bl) /\ length bl = Z.to_nat LOGSIZE /\ wf_writes ws /\
  always (fun d => recovers_to g d v) (st_disk a) ws /\ clean g (apply_writes (st_disk a) ws) v.

Lemma wp_recover g a v w :
  geom (dev := dev) g -> lw w a g -> no_bio_locks (w_held w) -> st_lock a = ∅ -> st_ref a = ∅ ->
  st_view a = st_disk a -> wf_disk (st_disk a) -> length (lh_block g) = Z.to_nat LOGSIZE ->
  recovers_to g (st_disk a) v -> wp recover_from_log (fun _ => recover_post g a v w) w.
Proof.
  intros Hge Hw Hnl Hlk Href Hvd Hwf Hbl [hs Hrec]. pose proof Hrec as [Hmax Hnd Hhome Hn Hb Hlog Hrest].
  assert (Hidle : log_idle g a) by (intros b _; by rewrite Href).
  assert (Hsz : (size (st_ref a) + 1 < NBUF)%nat) by (rewrite Href, map_size_empty; unfold NBUF; lia).
  unfold recover_from_log, recover_post. rewrite <- Hvd in *.
  eapply wp_call; [apply (wp_read_head g a hs w Hge Hw); try done; [lia|by rewrite Hvd]|].
  intros _ w1 [Hc1 (bl & Hw1 & Hl1 & Hent)]. set (g1 := with_head g _ bl) in *.
  eapply wp_mono, (wp_install_clear g1 a hs true w1); try done.
  - intros _ w2 [Hc2 (h0 & Hh0 & Hw2)]. split; [by etrans|]. rewrite Href, (install_writes_start g g1) in Hw2 by done. do 2 eexists. split; [exact Hw2|].
    destruct (install_clear_safe g hs (st_view a) v (st_view a) h0 (ge_start _ Hge) Hrec Hh0 Hlog) as [Ha Hcl].
    split_and!; [done| |exact Ha|exact Hcl]. apply Forall_app. split; [by apply wf_install_writes|].
    repeat constructor. by apply (length_header h0 []).
  - by destruct Hge.
  - by rewrite (proj2 Hc1).
  - intros h Hh. split; [by apply Hhome|]. unfold installable. by rewrite Href.
  - intros j Hj. split; [by rewrite Hvd|]. apply Hwf.
Qed.
End crash.
