(* ===== verification/LogOps.v ===== *)
(** The operations of kernel/log.c that system calls use ([begin_op],
    [log_write], [end_op]), and their refinement of a machine of atomic
    transactions. *)

From S2P Require Import Prelude KMonad Bytes BlockStore Log LogSpec LogCrash.

(** ** The machine of transactions

    [tx_cur] are the blocks as the operations see them, [tx_com] the blocks of
    the last commit; [tx_blocks] are the blocks written since. *)

Record txs := Txs {
  tx_out : Z;
  tx_cur : Z -> list Z;
  tx_com : Z -> list Z;
  tx_blocks : list Z }.

(** What system calls do with the log; [OpWrite b d] stores [d] in block [b]. *)
Inductive txop := OpBegin | OpWrite (b : Z) (d : list Z) | OpEnd.

(** [None]: the operation has to wait, or breaks the protocol. *)
Definition tx_step (size : Z) (t : txs) (o : txop) : option txs :=
  match o with
  | OpBegin =>
      if Z.of_nat (length (tx_blocks t)) + (tx_out t + 1) * MAXOPBLOCKS <=? LOGSIZE
      then Some (Txs (tx_out t + 1) (tx_cur t) (tx_com t) (tx_blocks t)) else None
  | OpWrite b d =>
      if (1 <=? tx_out t) && (Z.of_nat (length (tx_blocks t)) <? size - 1) && bool_decide (length d = Z.to_nat BSIZE)
      then Some (Txs (tx_out t) (fupd (tx_cur t) b d) (tx_com t) (add_block b (tx_blocks t))) else None
  | OpEnd =>
      if tx_out t <? 1 then None
      else if tx_out t =? 1 then Some (Txs 0 (tx_cur t) (tx_cur t) [])
      else Some (Txs (tx_out t - 1) (tx_cur t) (tx_com t) (tx_blocks t))
  end.

Fixpoint tx_run (size : Z) (t : txs) (os : list txop) : option txs :=
  match os with
  | [] => Some t
  | o :: os' => t' ← tx_step size t o; tx_run size t' os'
  end.

Section ops.
Context {S : Type} {ops : BlockOps S} {dev : Z} {laws : BlockLaws S dev}.
Implicit Types (w : world (logst S)) (a : store) (g : log) (hs : list Z) (t : txs).

(** The use of the log that the comment of log_write gives: read a block,
    modify it, log it, release it. *)
Definition log_update (b : Z) (d : list Z) : M (logst S) () :=
  bp ← bio (bread dev b);
  bio (set_buf_data bp d);;
  log_write bp;;
  bio (brelse bp).

Definition do_op (o : txop) : M (logst S) () :=
  match o with
  | OpBegin => begin_op
  | OpWrite b d => log_update b d
  | OpEnd => end_op
  end.

Fixpoint run_ops (os : list txop) : M (logst S) () :=
  match os with
  | [] => mret ()
  | o :: os' => do_op o;; run_ops os'
  end.

(** The state between the operations: the log pins the blocks of the
    transaction and nothing else is in use. *)
Record log_inv g a hs : Prop := {
  li_geom : geom (dev := dev) g;
  li_size : lg_size g <= LOGSIZE;
  li_committing : lg_committing g = 0;
  li_lock : st_lock a = ∅;
  li_ref : forall b, if decide (b ∈ hs) then pinned a b else st_ref a !! b = None;
  li_n : lh_n g = Z.of_nat (length hs);
  li_max : Z.of_nat (length hs) <= Z.max 0 (lg_size g - 1);
  li_blocks : length (lh_block g) = Z.to_nat LOGSIZE;
  li_entries : entries_at g 0 hs;
  li_nodup : NoDup hs;
  li_home : forall h, h ∈ hs -> home g h;
  li_wf : wf_disk (st_view a);
  li_rest : forall b, home g b -> b ∉ hs -> st_disk a b = st_view a b;
  li_clean : hdr_n (st_disk a (lg_start g)) = 0 }.

Lemma log_inv_size g a hs : log_inv g a hs -> size (st_ref a) = length hs.
Proof.
  intros Hi. assert (E : dom (st_ref a) = list_to_set hs).
  { apply set_eq. intros b. rewrite elem_of_dom, elem_of_list_to_set. pose proof (li_ref _ _ _ Hi b) as Hb.
    case_decide as Hd; [destruct Hb as [i Hb]|]; rewrite Hb, is_Some_alt; naive_solver. }
  rewrite <- size_dom, E. apply size_list_to_set, Hi.
Qed.

Lemma log_inv_committable g a hs : log_inv g a hs -> committable (dev := dev) g a hs.
Proof.
  intros Hi. pose proof (log_inv_size g a hs Hi) as Hsz. destruct Hi.
  unfold LOGSIZE, MAXOPBLOCKS, NBUF in *. split; try done.
  - intros b Hb. specialize (li_ref0 b). rewrite decide_False in li_ref0; [done|]. intros Hin. by apply (li_home0 b Hin).
  - rewrite Hsz. unfold NBUF. lia.
  - unfold LOGSIZE, MAXOPBLOCKS. lia.
  - intros h Hh. specialize (li_ref0 h). rewrite decide_True in li_ref0 by done. by split; [apply li_home0|].
Qed.

(** The log refines the machine's state. *)
Record log_txs g a t : Prop := {
  lt_inv : log_inv g a (tx_blocks t);
  lt_out : lg_outstanding g = tx_out t;
  lt_out_nonneg : 0 <= tx_out t;
  lt_cur : forall b, home g b -> st_view a b = tx_cur t b;
  lt_com : forall b, home g b -> st_disk a b = tx_com t b }.

(** *** begin_op *)

Lemma wp_begin_op g a hs w :
  lw w a g -> L_log ∉ w_held w -> lg_committing g = 0 -> lh_n g + (lg_outstanding g + 1) * MAXOPBLOCKS <= LOGSIZE ->
  wp begin_op (fun _ w' => same_ctx w w' /\ lw w' a (set_outstanding (lg_outstanding g + 1) g)) w.
Proof.
  intros Hw Hl Hc Hn. apply wp_bind, wp_acquire; [done|]. eapply wp_bind, lw_getlog; [exact Hw|].
  rewrite Hc. simpl. destruct (Z.gtb_spec (lh_n g + (lg_outstanding g + 1) * MAXOPBLOCKS) LOGSIZE); [lia|].
  eapply wp_bind, (lw_modlog a g); [exact Hw|]. intros w' [Hm Hh] Hw'.
  eapply wp_release; [by rewrite Hh|done|]. split; [split; [exact Hm|done]|exact Hw'].
Qed.

(** A process that finds no room goes to sleep, with nothing changed. *)
Lemma begin_op_sleeps g a w :
  lw w a g -> w_held w = [] ->
  lg_committing g <> 0 \/ lh_n g + (lg_outstanding g + 1) * MAXOPBLOCKS > LOGSIZE -> begin_op w = Sleep ChLog w.
Proof.
  intros [_ Hg] Hl Hc. destruct w as [me h e s]. simpl in *. subst h g.
  assert (E : sleep (A := ()) ChLog L_log (World me [L_log] e s) = Sleep ChLog (World me [] e s)) by reflexivity.
  change (begin_op _) with ((g ← getlog;
    if negb (lg_committing g =? 0) then sleep ChLog L_log
    else if lh_n g + (lg_outstanding g + 1) * MAXOPBLOCKS >? LOGSIZE then sleep ChLog L_log
    else modlog (fun g => set_outstanding (lg_outstanding g + 1) g);; release L_log) (World me [L_log] e s)).
  unfold mbind at 1, M_bind at 1, getlog, gets. cbn [w_st].
  destruct (Z.eqb_spec (lg_committing (l_log s)) 0); [|exact E]. cbn [negb].
  destruct (Z.gtb_spec (lh_n (l_log s) + (lg_outstanding (l_log s) + 1) * MAXOPBLOCKS) LOGSIZE); [exact E|lia].
Qed.

(** *** log_write *)

Lemma absorb_spec hs b :
  (forall h, h ∈ hs -> 0 <= h < 2 ^ 31) ->
  ((b ∈ hs) /\ hs !! absorb hs b = Some b) \/ ((b ∉ hs) /\ absorb hs b = length hs).
Proof.
  induction hs as [|h hs IH]; intros Hh; cbn [absorb]; [right; split; [apply not_elem_of_nil|done]|].
  rewrite u32_small by (pose proof (Hh h ltac:(left)); lia).
  destruct (Z.eqb_spec h b) as [->|Hne]; [left; split; [left|done]|].
  destruct IH as [[Hin Hl]|[Hn Hl]]; [intros x Hx; apply Hh; by right|left|right].
  - split; [by right|done].
  - split; [by apply not_elem_of_cons|]. simpl. by rewrite Hl.
Qed.

Lemma entries_take g hs :
  entries_at g 0 hs -> (length hs <= length (lh_block g))%nat -> take (length hs) (lh_block g) = hs.
Proof.
  intros He Hl. apply list_eq. intros i. destruct (decide (i < length hs)%nat) as [Hi|Hi].
  - rewrite lookup_take_lt by done. destruct (lookup_lt_is_Some_2 hs i Hi) as [h Hh]. rewrite Hh. by apply (He i h).
  - rewrite !lookup_ge_None_2; [done|lia|]. rewrite length_take. lia.
Qed.

Lemma no_bio_log h : no_bio_locks h -> no_bio_locks (L_log :: h).
Proof. intros [H1 H2]. split; [|intros i]; apply not_elem_of_cons; by split. Qed.

(** The log after [log_write] of block [b]. *)
Definition logged g hs (b : Z) : log :=
  with_head g (Z.of_nat (length (add_block b hs))) (if decide (b ∈ hs) then lh_block g else <[length hs := b]> (lh_block g)).

(** [log_write] of a buffer the caller has locked: a block that the log does
    not have yet is added and pinned. *)
Lemma wp_log_write g a hs b i r (Q : () -> world (logst S) -> Prop) w :
  lw w a g -> no_bio_locks (w_held w) -> L_log ∉ w_held w -> st_ref a !! b = Some (i, r) -> 0 <= b < 2 ^ 31 ->
  r + 1 < 2 ^ 32 -> lh_n g = Z.of_nat (length hs) -> length (lh_block g) = Z.to_nat LOGSIZE -> entries_at g 0 hs ->
  (forall h, h ∈ hs -> 0 <= h < 2 ^ 31) ->
  Z.of_nat (length hs) < lg_size g - 1 -> Z.of_nat (length hs) < LOGSIZE -> 1 <= lg_outstanding g ->
  (forall w', same_ctx w w' ->
    lw w' (if decide (b ∈ hs) then a
           else Store (<[b := (i, r + 1)]> (st_ref a)) (st_lock a) (st_view a) (st_disk a) (st_writes a))
      (logged g hs b) -> Q () w') ->
  wp (log_write i) Q w.
Proof.
  intros Hw Hnl Hl Hb Hb31 Hr Hn Hbl Hent Hhs Hsz Hmax Hout HQ. unfold log_write.
  apply wp_bind, wp_acquire; [done|]. set (w1 := set_held _ w). assert (Hw1 : lw w1 a g) by exact Hw.
  eapply wp_bind, lw_getlog; [exact Hw1|].
  destruct (Z.geb_spec (lh_n g) LOGSIZE); [lia|]. destruct (Z.geb_spec (lh_n g) (lg_size g - 1)); [lia|].
  destruct (Z.ltb_spec (lg_outstanding g) 1); [lia|]. cbn [orb].
  eapply wp_bind, lw_blockno; [exact Hw1|exact Hb|]. rewrite Hn, Nat2Z.id, entries_take by (done || lia).
  rewrite i32_small by lia. unfold logged, add_block in HQ.
  destruct (absorb_spec hs b Hhs) as [[Hin Hi]|[Hnin Hi]].
  - pose proof (lookup_lt_Some _ _ _ Hi). eapply wp_bind, lw_lh_set; [exact Hw1|lia|]. intros w2 Hc2 Hw2.
    rewrite (proj2 (Z.eqb_neq _ _)) by lia. eapply wp_bind, wp_ret, wp_release; [by rewrite (proj2 Hc2)|done|].
    apply HQ; [split; [apply Hc2|done]|]. rewrite !decide_True by done. rewrite <- Hn. destruct Hw2 as [Hr2 Hg2]. split; [done|].
    simpl. rewrite Hg2. unfold set_block, with_head. f_equal. apply list_insert_id. by apply (Hent (absorb hs b)).
  - rewrite Hi. eapply wp_bind, lw_lh_set; [exact Hw1|lia|]. intros w2 Hc2 Hw2. rewrite Z.eqb_refl.
    eapply wp_bind, wp_bind, (lw_bpin _ _ b); [exact Hw2|rewrite (proj2 Hc2); by apply no_bio_log|done|done|].
    intros w3 Hc3 Hw3. eapply (lw_modlog _ _ _ _ w3); [exact Hw3|]. intros w4 Hc4 Hw4.
    assert (Hc14 : same_ctx w1 w4) by (etrans; [exact Hc2|by etrans]).
    eapply wp_release; [by rewrite (proj2 Hc14)|done|]. apply HQ; [split; [apply Hc14|done]|].
    rewrite !decide_False by done. destruct Hw4 as [Hr4 Hg4]. split; [done|].
    simpl. rewrite Hg4. unfold set_block, with_head, set_n. simpl. f_equal. rewrite length_app, Hn. simpl. lia.
Qed.

(** The store after [log_update]. *)
Definition updated a (m : gmap Z (nat * Z)) (b : Z) (d : list Z) : store :=
  Store m ∅ (fupd (st_view a) b d) (st_disk a) (st_writes a).

Lemma entries_logged g hs b :
  entries_at g 0 hs -> length (lh_block g) = Z.to_nat LOGSIZE -> Z.of_nat (length hs) < LOGSIZE ->
  entries_at (logged g hs b) 0 (add_block b hs).
Proof.
  intros He Hl Hn. unfold add_block. intros j h Hj. simpl. case_decide as Hd; [by apply He|].
  apply lookup_app_Some in Hj as [Hj|[Hge Hj]].
  - pose proof (lookup_lt_Some _ _ _ Hj). rewrite list_lookup_insert_ne by lia. by apply (He j).
  - apply list_lookup_singleton_Some in Hj as [Hj <-]. replace j with (length hs) by lia.
    apply list_lookup_insert_eq. rewrite Hl. lia.
Qed.

Lemma length_logged g hs b : length (lh_block (logged g hs b)) = length (lh_block g).
Proof. simpl. case_decide; [done|]. by rewrite length_insert. Qed.

Lemma log_inv_update g a hs b d m i :
  log_inv g a hs -> home g b -> length d = Z.to_nat BSIZE -> Z.of_nat (length hs) < lg_size g - 1 ->
  m !! b = Some (i, 1) -> (forall k, k <> b -> m !! k = st_ref a !! k) ->
  log_inv (logged g hs b) (updated a m b d) (add_block b hs).
Proof.
  intros [] Hb Hd Hn Hm1 Hm2. pose proof (length_add_block b hs).
  assert (Hmax : Z.of_nat (length hs) < LOGSIZE) by lia.
  split; simpl; try done; try lia.
  - by destruct li_geom0.
  - intros k. destruct (decide (k = b)) as [->|Hne].
    + rewrite decide_True by (apply elem_of_add_block; by right). by exists i.
    + specialize (li_ref0 k). unfold pinned in *. simpl. rewrite Hm2 by done.
      destruct (decide (k ∈ hs)); [rewrite decide_True|rewrite decide_False]; try done; rewrite elem_of_add_block; naive_solver.
  - etrans; [apply (length_logged g hs b)|done].
  - by apply entries_logged.
  - by apply NoDup_add_block.
  - intros h [Hh| ->]%elem_of_add_block; [by apply li_home0|done].
  - intros k. unfold fupd. case_decide; [done|apply li_wf0].
  - intros k Hk Hnin. rewrite elem_of_add_block in Hnin. rewrite fupd_other by naive_solver. apply li_rest0; naive_solver.
Qed.

Lemma wp_log_update g a hs b d w :
  log_inv g a hs -> lw w a g -> no_bio_locks (w_held w) -> L_log ∉ w_held w -> home g b ->
  length d = Z.to_nat BSIZE -> Z.of_nat (length hs) < lg_size g - 1 -> 1 <= lg_outstanding g ->
  wp (log_update b d) (fun _ w' => same_ctx w w' /\ exists m,
    lw w' (updated a m b d) (logged g hs b) /\ log_inv (logged g hs b) (updated a m b d) (add_block b hs)) w.
Proof.
  intros Hi Hw Hnl Hl Hb Hd Hn Hout. pose proof (log_inv_size _ _ _ Hi) as Hsz.
  pose proof (log_inv_committable _ _ _ Hi) as Hcm. pose proof (li_ref _ _ _ Hi b) as Hrb. pose proof Hb as [Hb31 _].
  assert (Hmax : Z.of_nat (length hs) < LOGSIZE) by (pose proof (li_size _ _ _ Hi); lia).
  assert (Hlk : st_lock a = ∅) by apply Hi. unfold log_update.
  set (r := match st_ref a !! b with Some (_, r) => r | None => 0 end).
  assert (Hr : r = if decide (b ∈ hs) then 1 else 0).
  { unfold r. case_decide; [destruct Hrb as [i ->]|rewrite Hrb]; done. }
  assert (Hr01 : 0 <= r <= 1) by (rewrite Hr; case_decide; lia).
  eapply wp_bind, lw_bread; [exact Hw|done|lia|by rewrite Hlk|right; apply Hcm| |].
  { intros i r' E. unfold r in Hr01. rewrite E in Hr01. lia. }
  fold r. intros i w1 Hc1 _ Hw1. clearbody r.
  eapply wp_bind, (lw_set_data _ _ b); [exact Hw1|simpl; by rewrite lookup_insert_eq|simpl; by rewrite lookup_insert_eq|done|].
  simpl. intros w2 Hc2 Hw2. assert (Hc12 : same_ctx w w2) by (by etrans).
  eapply wp_bind, (wp_log_write g _ hs b); [exact Hw2|by rewrite (proj2 Hc12)|by rewrite (proj2 Hc12)
    |simpl; by rewrite lookup_insert_eq|lia|lia|apply Hi..| |done|done|done|]; [intros h Hh; by apply (li_home _ _ _ Hi)|].
  simpl. intros w3 Hc3 Hw3. assert (Hc13 : same_ctx w w3) by (by etrans).
  eapply (lw_brelse _ _ b i 2); [exact Hw3|by rewrite (proj2 Hc13)|..].
  - rewrite Hr. case_decide; simpl; by rewrite lookup_insert_eq.
  - case_decide; simpl; by rewrite lookup_insert_eq, (proj1 Hc13).
  - lia.
  - simpl. intros w4 Hc4 Hw4. split; [by etrans|]. eexists. split.
    + eapply lw_eq; [exact Hw4|]. unfold updated. apply store_eq; [reflexivity|..]; case_decide; simpl; try done; rewrite Hlk; map_cases.
    + eapply (log_inv_update _ _ _ _ _ _ i); [done..|by rewrite lookup_insert_eq|].
      intros k Hk. rewrite lookup_insert_ne by done. case_decide; simpl; by rewrite !lookup_insert_ne.
Qed.

(** *** end_op *)

Definition idle_log g : log := Log (lg_start g) (lg_size g) 0 0 (lg_dev g) 0 (lh_block g).

(** The last operation commits. *)
Lemma wp_end_op_commit g a hs w :
  log_inv g a hs -> lw w a g -> no_bio_locks (w_held w) -> L_log ∉ w_held w -> lg_outstanding g = 1 ->
  wp end_op (fun _ w' => same_ctx w w' /\ exists ws,
    lw w' (after a (unpin false (st_ref a) hs) ws) (idle_log g) /\
    always (fun d => recovers_to g d (st_disk a) \/ recovers_to g d (st_view a)) (st_disk a) ws /\
    clean g (apply_writes (st_disk a) ws) (st_view a) /\
    (forall b, home g b -> apply_writes (st_view a) ws b = st_view a b) /\ wf_writes ws) w.
Proof.
  intros Hi Hw Hnl Hl Hout. pose proof (li_committing _ _ _ Hi) as Hcom. unfold end_op.
  apply wp_bind, wp_acquire; [done|]. eapply wp_bind, (lw_modlog a g); [exact Hw|]. intros w1 Hc1 Hw1.
  eapply wp_bind, lw_getlog; [exact Hw1|]. simpl. rewrite Hcom, Hout. simpl.
  eapply wp_bind, lw_modlog; [exact Hw1|]. intros w2 Hc2 Hw2.
  assert (Hc12 : same_ctx (set_held (L_log :: w_held w) w) w2) by (by etrans).
  eapply wp_bind, wp_release; [by rewrite (proj2 Hc12)|done|]. set (w3 := set_held _ w2).
  set (g1 := set_committing 1 _) in Hw2. assert (Hcm : committable (dev := dev) g1 a hs).
  { pose proof (log_inv_committable _ _ _ Hi) as []. split; try done. by destruct cm_geom. }
  eapply wp_call; [apply (wp_commit g1 a hs w3 Hcm Hw2 Hnl)|].
  intros _ w4 [Hc4 (ws & Hw4 & Ha & Hcl & Hv & Hwf)]. destruct Hc4 as [Hm4 Hh4].
  apply wp_bind, wp_acquire; [by rewrite Hh4|]. eapply wp_bind, (lw_modlog _ _ _ _ (set_held _ w4)); [exact Hw4|].
  intros w5 Hc5 Hw5. apply wp_bind, wp_emit. eapply wp_release; [simpl; by rewrite (proj2 Hc5)|by rewrite Hh4|].
  split; [split; simpl; [rewrite (proj1 Hc5); simpl; rewrite Hm4; apply Hc12|by rewrite Hh4]|].
  assert (E : set_committing 0 (set_n 0 g1) = idle_log g) by (unfold g1, idle_log; cbn; by rewrite Hout).
  rewrite E in Hw5. exists ws. split_and!; [exact Hw5| |by eapply (recoverable_ext g1), Hcl|exact Hv|exact Hwf].
  eapply always_mono; [|exact Ha]. intros d [Hr|Hr]; [left|right]; by eapply (recovers_ext g1), Hr.
Qed.

(** An operation that ends before others only leaves. *)
Lemma wp_end_op_leave g a w :
  lw w a g -> L_log ∉ w_held w -> lg_committing g = 0 -> 1 < lg_outstanding g ->
  wp end_op (fun _ w' => same_ctx w w' /\ lw w' a (set_outstanding (lg_outstanding g - 1) g)) w.
Proof.
  intros Hw Hl Hcom Hout. unfold end_op.
  apply wp_bind, wp_acquire; [done|]. eapply wp_bind, (lw_modlog a g); [exact Hw|]. intros w1 Hc1 Hw1.
  eapply wp_bind, lw_getlog; [exact Hw1|]. simpl. rewrite Hcom. simpl. rewrite (proj2 (Z.eqb_neq _ _)) by lia.
  apply wp_bind, wp_emit. eapply wp_release; [simpl; by rewrite (proj2 Hc1)|done|].
  split; [split; [apply Hc1|done]|exact Hw1].
Qed.

(** *** Refinement *)

(** The effect of an operation on the disk. *)
Record op_post g a t t' w w' : Prop := {
  op_ctx : same_ctx w w';
  op_res : exists a' g' ws, lw w' a' g' /\ log_txs g' a' t' /\ lg_start g' = lg_start g /\ lg_size g' = lg_size g /\
    st_writes a' = st_writes a ++ ws /\ st_disk a' = apply_writes (st_disk a) ws /\
    wf_writes ws /\ always (fun d => recovers_to g d (tx_com t) \/ recovers_to g d (tx_com t')) (st_disk a) ws }.

Lemma log_txs_recovers g a t : log_txs g a t -> recovers_to g (st_disk a) (tx_com t).
Proof.
  intros []. apply (recovers_ext g g _ (st_disk a)); [done|done|]. exists [].
  by eapply (committable_clean (dev := dev)), log_inv_committable.
Qed.

(** An operation that writes nothing to the disk. *)
Lemma op_post_quiet g a t g' a' t' w w' :
  log_txs g a t -> same_ctx w w' -> lw w' a' g' -> log_txs g' a' t' -> lg_start g' = lg_start g ->
  lg_size g' = lg_size g -> st_writes a' = st_writes a -> st_disk a' = st_disk a -> op_post g a t t' w w'.
Proof.
  intros Ht Hc Hw' Ht' Hs Hz Hws Hd. split; [done|]. exists a', g', []. rewrite app_nil_r. split_and!; try done.
  { by apply Forall_nil. } intros [|k]; left; by apply (log_txs_recovers g a t).
Qed.

Lemma log_inv_out x g a hs : log_inv g a hs -> log_inv (set_outstanding x g) a hs.
Proof. intros []. split; try done. by destruct li_geom0. Qed.

Lemma log_txs_out x g a t :
  log_txs g a t -> 0 <= x -> log_txs (set_outstanding x g) a (Txs x (tx_cur t) (tx_com t) (tx_blocks t)).
Proof. intros [Hi Ho Hn Hcur Hcom] Hx. split; simpl; try done. by apply log_inv_out. Qed.

(** Unpinning the blocks of the transaction empties the cache. *)
Lemma unpin_all g a hs : log_inv g a hs -> unpin false (st_ref a) hs = ∅.
Proof.
  intros Hi. apply map_eq. intros b. rewrite lookup_empty.
  assert (H : forall hs (m : gmap Z (nat * Z)), (b ∈ hs \/ m !! b = None) -> fold_left (fun m h => delete h m) hs m !! b = None).
  { clear. induction hs as [|h hs IH]; intros m Hb; [by destruct Hb as [?%elem_of_nil|]|]. apply IH.
    destruct (decide (h = b)) as [->|Hne]; [right; apply lookup_delete_eq|]. rewrite lookup_delete_ne by done.
    destruct Hb as [[->|?]%elem_of_cons|?]; [done|by left|by right]. }
  apply H. pose proof (li_ref _ _ _ Hi b) as Hb. case_decide; [by left|by right].
Qed.

Lemma log_txs_commit g a t ws :
  log_txs g a t -> clean g (apply_writes (st_disk a) ws) (st_view a) ->
  (forall b, home g b -> apply_writes (st_view a) ws b = st_view a b) -> wf_writes ws ->
  log_txs (idle_log g) (after a (unpin false (st_ref a) (tx_blocks t)) ws) (Txs 0 (tx_cur t) (tx_cur t) []).
Proof.
  intros [Hi Ho Hn Hcur Hcom] [_ _ _ Hhdr _ _ Hhome] Hv Hwf.
  assert (Hd : forall b, home g b -> apply_writes (st_disk a) ws b = st_view a b)
    by (intros b Hb; apply Hhome; [done|apply not_elem_of_nil]).
  rewrite (unpin_all g a _ Hi). split; simpl; try done; [|intros b Hb; rewrite Hv by done; by apply Hcur|intros b Hb; rewrite Hd by done; by apply Hcur].
  destruct Hi. split; simpl; try done; try lia.
  - by destruct li_geom0.
  - apply NoDup_nil_2.
  - by intros h ?%elem_of_nil.
  - by apply wf_apply_writes.
  - intros b Hb _. by rewrite Hd, Hv.
Qed.

Definition op_ok g (o : txop) : Prop := match o with OpWrite b _ => home g b | _ => True end.

Lemma wp_do_op g a t t' o w :
  log_txs g a t -> lw w a g -> no_bio_locks (w_held w) -> L_log ∉ w_held w -> op_ok g o ->
  tx_step (lg_size g) t o = Some t' -> wp (do_op o) (fun _ => op_post g a t t' w) w.
Proof.
  intros Ht Hw Hnl Hl Hok Hstep. pose proof Ht as [Hi Ho Hn Hcur Hcom]. pose proof (li_n _ _ _ Hi) as Hln.
  destruct o as [|b d|]; cbn [tx_step do_op] in *.
  - destruct (Z.leb_spec (Z.of_nat (length (tx_blocks t)) + (tx_out t + 1) * MAXOPBLOCKS) LOGSIZE); [|done].
    injection Hstep as <-. eapply wp_mono, (wp_begin_op g a [] w Hw Hl); [|apply Hi|by rewrite Hln, Ho].
    intros _ w' [Hc Hw']. rewrite Ho in Hw'. eapply op_post_quiet; [done|done|exact Hw'| |done|done|done|done]. apply log_txs_out; [done|lia].
  - case_bool_decide as Hd; [|by rewrite andb_false_r in Hstep].
    destruct (Z.leb_spec 1 (tx_out t)), (Z.ltb_spec (Z.of_nat (length (tx_blocks t))) (lg_size g - 1)); try done.
    injection Hstep as <-. eapply wp_mono, (wp_log_update g a (tx_blocks t) b d w); try done; [|lia].
    intros _ w' [Hc (m & Hw' & Hi')]. eapply op_post_quiet; [done|done|exact Hw'| |done|done|done|done].
    split; simpl; try done. intros k Hk. unfold fupd. case_decide; [done|]. by apply Hcur.
  - destruct (Z.ltb_spec (tx_out t) 1); [done|]. destruct (Z.eqb_spec (tx_out t) 1); injection Hstep as <-.
    + eapply wp_mono, (wp_end_op_commit g a (tx_blocks t) w); try done; [|lia].
      intros _ w' [Hc (ws & Hw' & Ha & Hcl & Hv & Hwf)]. split; [done|].
      do 3 eexists. split; [exact Hw'|]. split; [by apply log_txs_commit|]. split_and!; [done..|].
      eapply always_mono; [|exact Ha]. intros d' [Hr|Hr]; [left|right]; by eapply recovers_ext, Hr.
    + eapply wp_mono, (wp_end_op_leave g a w); try done; [|apply Hi|lia].
      intros _ w' [Hc Hw']. rewrite Ho in Hw'. eapply op_post_quiet; [done|done|exact Hw'| |done|done|done|done]. apply log_txs_out; [done|lia].
Qed.

(** Any sequence of operations, of any processes, that the machine allows
    runs; and after a crash at any point the disk recovers to what the
    machine had committed at some point of the sequence. *)
Definition recovers_along (size : Z) g t (os : list txop) (d : Z -> list Z) : Prop :=
  exists k tk, tx_run size t (take k os) = Some tk /\ recovers_to g d (tx_com tk).

Lemma wp_run_ops os : forall g a t t' w,
  log_txs g a t -> lw w a g -> no_bio_locks (w_held w) -> L_log ∉ w_held w -> Forall (op_ok g) os ->
  tx_run (lg_size g) t os = Some t' ->
  wp (run_ops os) (fun _ w' => same_ctx w w' /\ exists a' g' ws, lw w' a' g' /\ log_txs g' a' t' /\
    lg_start g' = lg_start g /\ lg_size g' = lg_size g /\ st_writes a' = st_writes a ++ ws /\ st_disk a' = apply_writes (st_disk a) ws /\
    wf_writes ws /\ always (recovers_along (lg_size g) g t os) (st_disk a) ws) w.
Proof.
  induction os as [|o os IH]; intros g a t t' w Ht Hw Hnl Hl Hok Hrun; cbn [run_ops tx_run] in *.
  { injection Hrun as <-. apply wp_ret. split; [done|]. exists a, g, []. rewrite app_nil_r. split_and!; try done.
    { by apply Forall_nil. } intros [|k]; exists 0%nat, t; (split; [done|by apply (log_txs_recovers g a t)]). }
  destruct (tx_step (lg_size g) t o) as [t1|] eqn:Hstep; [|done]. simpl in Hrun. apply Forall_cons in Hok as [Ho Hok].
  eapply wp_call; [by apply (wp_do_op g a t t1)|].
  intros _ w1 [Hc1 (a1 & g1 & ws1 & Hw1 & Ht1 & Hs1 & Hz1 & Hws1 & Hd1 & Hwf1 & Ha1)].
  eapply wp_mono, (IH g1 a1 t1 t' w1 Ht1 Hw1); [|by rewrite (proj2 Hc1)|by rewrite (proj2 Hc1)| |by rewrite Hz1].
  2:{ eapply Forall_impl; [exact Hok|]. intros [|b d|]; simpl; [done| |done]. unfold home. by rewrite Hs1. }
  intros _ w2 [Hc2 (a2 & g2 & ws2 & Hw2 & Ht2 & Hs2 & Hz2 & Hws2 & Hd2 & Hwf2 & Ha2)]. split; [by etrans|].
  exists a2, g2, (ws1 ++ ws2). split_and!; [done|done|by rewrite Hs2|by rewrite Hz2|by rewrite Hws2, Hws1, app_assoc
    |by rewrite Hd2, Hd1, apply_writes_app|by apply Forall_app|]. apply always_app.
  - eapply always_mono; [|exact Ha1]. intros d [Hr|Hr]; [exists 0%nat, t|exists 1%nat, t1; simpl; rewrite Hstep]; done.
  - rewrite <- Hd1. eapply always_mono; [|exact Ha2]. intros d (k & tk & Hk & Hr). exists (Datatypes.S k), tk. simpl.
    rewrite Hstep. simpl. rewrite <- Hz1. split; [exact Hk|]. by eapply recovers_ext, Hr.
Qed.

(** [log_write] panics when the log is one block short of full, whether or
    not the block is in it. *)
Lemma log_write_panics g a b w :
  lw w a g -> L_log ∉ w_held w -> lg_size g - 1 <= lh_n g -> log_write b w = Panic "too big a transaction".
Proof.
  intros [_ Hg] Hl Hn. unfold log_write, mbind at 1, M_bind at 1, acquire. rewrite decide_False by done.
  unfold mbind at 1, M_bind at 1, getlog, gets. cbn [w_st set_held]. rewrite Hg.
  destruct (Z.geb_spec (lh_n g) (lg_size g - 1)); [|lia]. by rewrite orb_true_r.
Qed.
End ops.
