(* ===== verification/LogTx.v ===== *)
(** kernel/log.c implements the transaction interface of BlockStore.v. *)

From S2P Require Import Prelude KMonad Bytes BlockStore Log LogSpec LogCrash LogOps.

#[global] Instance log_tx_ops {S} {ops : BlockOps S} : TxOps (logst S) := {
  tx_bread := fun dev b => bio (bread dev b);
  tx_brelse := fun i => bio (brelse i);
  tx_log_write := log_write;
  tx_data := fun i => bio (buf_data i);
  tx_set_data := fun i d => bio (set_buf_data i d) }.

Section tx.
Context {S : Type} {ops : BlockOps S} {dev : Z} {laws : BlockLaws S dev}.
Implicit Types (w : world (logst S)) (a : store) (g : log) (hs : list Z) (t : txst).

(** The blocks outside a log that starts at [start]. *)
Definition home_at (start b : Z) : Prop := 0 <= b < 2 ^ 31 /\ ~ (start <= b < start + LOGSIZE).

(** The references of the cache: one for the process that has the block
    locked, one for the log. *)
Definition ref_ok a t (b : Z) : Prop :=
  match t_open t !! b with
  | Some (i, _) => st_ref a !! b = Some (i, if decide (b ∈ t_logged t) then 2 else 1)
  | None => if decide (b ∈ t_logged t) then pinned a b else st_ref a !! b = None
  end.

(** Inside a transaction of process [p]. *)
Record in_tx (p : Z) g a t : Prop := {
  it_geom : geom (dev := dev) g;
  it_size : lg_size g <= LOGSIZE;
  it_committing : lg_committing g = 0;
  it_out : 1 <= lg_outstanding g;
  it_view : st_view a = t_view t;
  it_lock : forall b, st_lock a !! b = (fun _ => p) <$> t_open t !! b;
  it_ref : forall b, ref_ok a t b;
  it_n : lh_n g = Z.of_nat (length (t_logged t));
  it_max : Z.of_nat (length (t_logged t)) <= Z.max 0 (lg_size g - 1);
  it_blocks : length (lh_block g) = Z.to_nat LOGSIZE;
  it_entries : entries_at g 0 (t_logged t);
  it_nodup : NoDup (t_logged t);
  it_home : forall h, h ∈ t_logged t \/ is_Some (t_open t !! h) -> home g h;
  it_wf : wf_disk (st_view a);
  it_rest : forall b, home g b -> b ∉ t_logged t -> (forall i, t_open t !! b <> Some (i, true)) ->
    st_disk a b = st_view a b;
  it_clean : hdr_n (st_disk a (lg_start g)) = 0 }.

(** Between transactions nothing is open. *)
Lemma log_inv_in_tx p g a hs :
  log_inv (dev := dev) g a hs -> 1 <= lg_outstanding g -> in_tx p g a (TxSt (st_view a) ∅ hs).
Proof.
  intros [] Ho. split; simpl; try done.
  - intros b. by rewrite li_lock, !lookup_empty.
  - intros h [Hh|[x Hx]]; [by apply li_home|by rewrite lookup_empty in Hx].
  - intros b Hb Hn _. by apply li_rest.
Qed.

Lemma in_tx_log_inv p g a t : in_tx p g a t -> t_open t = ∅ -> log_inv (dev := dev) g a (t_logged t).
Proof.
  intros [] Ho. split; try done.
  - apply map_eq. intros b. by rewrite it_lock0, Ho, !lookup_empty.
  - intros b. specialize (it_ref0 b). unfold ref_ok in it_ref0. by rewrite Ho, lookup_empty in it_ref0.
  - intros h Hh. apply it_home0. by left.
  - intros b Hb Hn. apply (it_rest0 b); [done..|]. intros i. by rewrite Ho, lookup_empty.
Qed.

(** The cache has as many buffers in use as blocks are open or logged. *)
Lemma in_tx_size p g a t : in_tx p g a t -> (size (st_ref a) <= size (t_open t) + length (t_logged t))%nat.
Proof.
  intros Hi. assert (E : dom (st_ref a) ⊆ dom (t_open t) ∪ list_to_set (t_logged t)).
  { intros b. rewrite elem_of_union, !elem_of_dom, elem_of_list_to_set. intros [x Hx]. pose proof (it_ref _ _ _ _ Hi b) as Hr.
    unfold ref_ok in Hr. destruct (t_open t !! b) as [[i m]|] eqn:Eo; [by left; eexists|]. right.
    case_decide; [done|congruence]. }
  rewrite <- !size_dom. etrans; [by apply subseteq_size, E|].
  rewrite size_union_alt. rewrite <- (size_list_to_set (C := gset Z) (t_logged t)) by apply Hi.
  apply Nat.add_le_mono_l, subseteq_size. set_solver.
Qed.

(** *** The five operations *)

(** A transaction does not write to the disk. *)
Definition same_disk a a' : Prop := st_disk a' = st_disk a /\ st_writes a' = st_writes a.

Lemma in_tx_bread p g a t b (Q : nat -> world (logst S) -> Prop) w :
  in_tx p g a t -> lw w a g -> p = my_pid (w_me w) -> no_tx_locks (w_held w) -> home g b -> t_open t !! b = None ->
  (size (t_open t) + length (t_logged t) < NBUF)%nat ->
  (forall i w' a', same_ctx w w' -> lw w' a' g -> same_disk a a' ->
     in_tx p g a' (TxSt (t_view t) (<[b := (i, false)]> (t_open t)) (t_logged t)) -> Q i w') ->
  wp (bio (bread dev b)) Q w.
Proof.
  intros Hi Hw Hp [Hnl _] Hb Ho Hsz HQ. pose proof (in_tx_size _ _ _ _ Hi) as Hs. pose proof Hb as [Hb31 _].
  pose proof (it_ref _ _ _ _ Hi b) as Hr. unfold ref_ok in Hr. rewrite Ho in Hr.
  assert (Hr1 : match st_ref a !! b with Some (_, r) => r | None => 0 end = if decide (b ∈ t_logged t) then 1 else 0).
  { case_decide; [destruct Hr as [i ->]|rewrite Hr]; done. }
  eapply lw_bread; [exact Hw|done|lia|by rewrite (it_lock _ _ _ _ Hi), Ho|right; lia| |].
  { intros i r E. rewrite E in Hr1. rewrite Hr1. case_decide; lia. }
  intros i w' Hc _ Hw'. eapply HQ; [done|exact Hw'|done|]. rewrite Hr1 in *. destruct Hi. split; simpl; try done.
  - intros k. rewrite Hp. destruct (decide (b = k)) as [<-|Hne]; [by rewrite !lookup_insert_eq|].
    rewrite !lookup_insert_ne by done. rewrite it_lock0, Hp. done.
  - intros k. specialize (it_ref0 k). unfold ref_ok, pinned in *. simpl.
    destruct (decide (b = k)) as [<-|Hne]; [|by rewrite !lookup_insert_ne].
    rewrite !lookup_insert_eq. by case_decide.
  - intros h [Hh|Hh]; [apply it_home0; by left|]. destruct (decide (b = h)) as [<-|Hne]; [done|].
    rewrite lookup_insert_ne in Hh by done. apply it_home0. by right.
  - intros k Hk Hn Hm. apply it_rest0; [done..|]. intros j Hj. destruct (decide (b = k)) as [<-|Hne]; [congruence|].
    apply (Hm j). by rewrite lookup_insert_ne.
Qed.

Lemma in_tx_set_data p g a t b i m d (Q : () -> world (logst S) -> Prop) w :
  in_tx p g a t -> lw w a g -> t_open t !! b = Some (i, m) -> length d = Z.to_nat BSIZE ->
  (forall w' a', same_ctx w w' -> lw w' a' g -> same_disk a a' ->
     in_tx p g a' (TxSt (fupd (t_view t) b d) (<[b := (i, true)]> (t_open t)) (t_logged t)) -> Q () w') ->
  wp (bio (set_buf_data i d)) Q w.
Proof.
  intros Hi Hw Ho Hd HQ. pose proof (it_ref _ _ _ _ Hi b) as Hr. unfold ref_ok in Hr. rewrite Ho in Hr.
  eapply (lw_set_data _ _ b); [exact Hw|exact Hr|by rewrite (it_lock _ _ _ _ Hi), Ho|done|].
  intros w' Hc Hw'. eapply HQ; [done|exact Hw'|done|]. destruct Hi. split; simpl; try done.
  - by rewrite it_view0.
  - intros k. rewrite it_lock0. destruct (decide (b = k)) as [<-|Hne]; [by rewrite lookup_insert_eq, Ho|].
    by rewrite lookup_insert_ne.
  - intros k. specialize (it_ref0 k). unfold ref_ok, pinned in *. simpl.
    destruct (decide (b = k)) as [<-|Hne]; [|by rewrite lookup_insert_ne]. by rewrite lookup_insert_eq.
  - intros h [Hh|Hh]; [apply it_home0; by left|]. destruct (decide (b = h)) as [<-|Hne]; [apply it_home0; right; by eexists|].
    rewrite lookup_insert_ne in Hh by done. apply it_home0. by right.
  - intros k. unfold fupd. destruct (decide (k = b)); [done|apply it_wf0].
  - intros k Hk Hn Hm. destruct (decide (b = k)) as [<-|Hne]; [exfalso; apply (Hm i), lookup_insert_eq|].
    rewrite fupd_other by done. apply it_rest0; [done..|]. intros j Hj. apply (Hm j). by rewrite lookup_insert_ne.
Qed.

Lemma in_tx_log_write p g a t b i m (Q : () -> world (logst S) -> Prop) w :
  in_tx p g a t -> lw w a g -> no_tx_locks (w_held w) -> t_open t !! b = Some (i, m) ->
  Z.of_nat (length (t_logged t)) < lg_size g - 1 ->
  (forall w' a' g', same_ctx w w' -> lw w' a' g' -> same_disk a a' -> lg_start g' = lg_start g -> lg_size g' = lg_size g ->
     lg_outstanding g' = lg_outstanding g ->
     in_tx p g' a' (TxSt (t_view t) (<[b := (i, false)]> (t_open t)) (add_block b (t_logged t))) -> Q () w') ->
  wp (log_write i) Q w.
Proof.
  intros Hi Hw [Hnl Hl] Ho Hn HQ. pose proof (it_ref _ _ _ _ Hi b) as Hr. unfold ref_ok in Hr. rewrite Ho in Hr.
  assert (Hb : home g b) by (apply (it_home _ _ _ _ Hi); right; by eexists). pose proof Hb as [Hb31 _].
  pose proof (it_size _ _ _ _ Hi) as Hsz.
  eapply (wp_log_write g a (t_logged t) b); [exact Hw|done|done|exact Hr|lia|case_decide; lia|apply Hi..| |done|lia|apply Hi|].
  { intros h Hh. apply (it_home _ _ _ _ Hi). by left. }
  intros w' Hc Hw'. match type of Hw' with lw _ ?x _ => remember x as a' eqn:Ea end.
  assert (Ev : st_view a' = st_view a /\ st_lock a' = st_lock a /\ same_disk a a') by (rewrite Ea; by case_decide).
  assert (Er : st_ref a' !! b = Some (i, 2) /\ forall k, k <> b -> st_ref a' !! k = st_ref a !! k).
  { rewrite Ea. destruct (decide (b ∈ t_logged t)); [done|]. simpl. rewrite lookup_insert_eq. split; [done|].
    intros k Hk. by rewrite lookup_insert_ne. }
  clear Ea. destruct Ev as (Ev & El & Esd), Er as [Er1 Er2].
  pose proof (proj1 Esd) as Ed. eapply HQ; [done|exact Hw'|done|done|done|done|]. pose proof (length_add_block b (t_logged t)).
  destruct Hi. split; simpl; rewrite ?Ev, ?Ed; try done; try lia.
  - by destruct it_geom0.
  - intros k. rewrite El, it_lock0. destruct (decide (b = k)) as [<-|Hne]; [by rewrite lookup_insert_eq, Ho|by rewrite lookup_insert_ne].
  - intros k. specialize (it_ref0 k). unfold ref_ok, pinned in *. simpl.
    assert (E2 : (k ∈ add_block b (t_logged t)) <-> (k ∈ t_logged t \/ k = b)) by apply elem_of_add_block.
    destruct (decide (b = k)) as [<-|Hne]; [rewrite lookup_insert_eq, decide_True by naive_solver; done|].
    rewrite lookup_insert_ne, Er2 by done. destruct (decide (k ∈ t_logged t)); [rewrite !decide_True|rewrite !decide_False]; naive_solver.
  - etrans; [apply (length_logged g (t_logged t) b)|done].
  - apply entries_logged; [done..|lia].
  - by apply NoDup_add_block.
  - intros h Hh. destruct (decide (b = h)) as [<-|Hne]; [exact Hb|]. rewrite elem_of_add_block, lookup_insert_ne in Hh by done.
    apply it_home0. naive_solver.
  - intros k Hk Hn' Hm. rewrite elem_of_add_block in Hn'.
    apply it_rest0; [done|naive_solver|]. intros j Hj. apply (Hm j). rewrite lookup_insert_ne by naive_solver. done.
Qed.

Lemma in_tx_brelse p g a t b i (Q : () -> world (logst S) -> Prop) w :
  in_tx p g a t -> lw w a g -> p = my_pid (w_me w) -> no_tx_locks (w_held w) -> t_open t !! b = Some (i, false) ->
  (forall w' a', same_ctx w w' -> lw w' a' g -> same_disk a a' ->
     in_tx p g a' (TxSt (t_view t) (delete b (t_open t)) (t_logged t)) -> Q () w') ->
  wp (bio (brelse i)) Q w.
Proof.
  intros Hi Hw Hp [Hnl _] Ho HQ. pose proof (it_ref _ _ _ _ Hi b) as Hr. unfold ref_ok in Hr. rewrite Ho in Hr.
  assert (Hb : home g b) by (apply (it_home _ _ _ _ Hi); right; by eexists).
  eapply (lw_brelse _ _ b); [exact Hw|done|exact Hr|by rewrite (it_lock _ _ _ _ Hi), Ho, Hp| |].
  { case_decide; [done|]. intros _. symmetry. apply (it_rest _ _ _ _ Hi); [done..|]. congruence. }
  intros w' Hc Hw'. eapply HQ; [done|exact Hw'|done|]. destruct Hi. split; simpl; try done.
  - intros k. destruct (decide (b = k)) as [<-|Hne]; [by rewrite !lookup_delete_eq|]. by rewrite !lookup_delete_ne.
  - intros k. specialize (it_ref0 k). unfold ref_ok, pinned in *. simpl.
    destruct (decide (b = k)) as [<-|Hne].
    + rewrite lookup_delete_eq. destruct (decide (b ∈ t_logged t)); simpl; [rewrite lookup_insert_eq; by eexists|by rewrite lookup_delete_eq].
    + rewrite lookup_delete_ne by done. destruct (decide (b ∈ t_logged t)); simpl;
        [by rewrite lookup_insert_ne|by rewrite lookup_delete_ne].
  - intros h [Hh|Hh]; [apply it_home0; by left|]. apply it_home0. right. destruct Hh as [x Hx].
    apply lookup_delete_Some in Hx as [_ Hx]. by eexists.
  - intros k Hk Hn Hm. apply it_rest0; [done..|]. intros j Hj. destruct (decide (b = k)) as [<-|Hne]; [congruence|].
    apply (Hm j). by rewrite lookup_delete_ne.
Qed.

(** *** The interface *)

Definition log_tx_rep (start limit out : Z) (d : Z -> list Z) (ws : list (Z * list Z)) (p : Z) (s : logst S) t : Prop :=
  exists g a, bc_rep (l_bio s) a /\ l_log s = g /\ in_tx p g a t /\ lg_start g = start /\ lg_size g - 1 = limit /\
    lg_outstanding g = out /\ st_disk a = d /\ st_writes a = ws.

#[global] Instance log_tx_laws (start limit out : Z) (d : Z -> list Z) (ws : list (Z * list Z)) :
  TxLaws (logst S) dev limit (home_at start).
Proof.
  refine {| tc_rep := log_tx_rep start limit out d ws |}.
  - intros p s a b (g & st & _ & _ & Hi & _). rewrite <- (it_view _ _ _ _ Hi). apply (it_wf _ _ _ _ Hi).
  - intros t b Q w (g & a & Hr & Hg & Hi & Hs & Hl & Hout & Hd & Hws) Hnl Hb Ho Hsz HQ.
    eapply in_tx_bread; [exact Hi|done|done|done|unfold home; by rewrite Hs|done|done|].
    intros i w' a' Hc [Hr' Hg'] [Hd' Hws'] Hi'. apply HQ; [done|]. exists g, a'. split_and!; try done; congruence.
  - intros t b i m Q w (g & a & Hr & Hg & Hi & Hs & Hl & Hout & Hd & Hws) Ho HQ. pose proof (it_ref _ _ _ _ Hi b) as Hb. unfold ref_ok in Hb.
    rewrite Ho in Hb. eapply (lw_data a g b); [done|exact Hb|by rewrite (it_lock _ _ _ _ Hi), Ho|].
    by rewrite (it_view _ _ _ _ Hi).
  - intros t b i m x Q w (g & a & Hr & Hg & Hi & Hs & Hl & Hout & Hd & Hws) Ho Hx HQ. eapply in_tx_set_data; [exact Hi|done|exact Ho|done|].
    intros w' a' Hc [Hr' Hg'] [Hd' Hws'] Hi'. apply HQ; [done|]. exists g, a'. split_and!; try done; congruence.
  - intros t b i m Q w (g & a & Hr & Hg & Hi & Hs & Hl & Hout & Hd & Hws) Hnl Ho Hn HQ.
    eapply in_tx_log_write; [exact Hi|done|done|exact Ho|lia|].
    intros w' a' g' Hc [Hr' Hg'] [Hd' Hws'] Hs' Hz' Hou' Hi'. apply HQ; [done|]. exists g', a'. split_and!; try done; congruence.
  - intros t b i Q w (g & a & Hr & Hg & Hi & Hs & Hl & Hout & Hd & Hws) Hnl Ho HQ. eapply in_tx_brelse; [exact Hi|done|done|done|exact Ho|].
    intros w' a' Hc [Hr' Hg'] [Hd' Hws'] Hi'. apply HQ; [done|]. exists g, a'. split_and!; try done; congruence.
Defined.
End tx.
