(* ===== verification/Bio.v ===== *)
(** kernel/bio.c and kernel/buf.h: the buffer cache.

    A pointer to a buffer is its index; [HEAD] is [&bcache.head].  The list
    of buffers is the code's ring of [prev] and [next] pointers. *)

From S2P Require Import Prelude KMonad Sleeplock BlockStore.

Record buf := Buf {
  b_valid : Z;
  b_dev : Z;
  b_blockno : Z;
  b_lock : sleeplock;
  b_refcnt : Z;
  b_prev : nat;
  b_next : nat;
  b_data : list Z }.

Definition HEAD : nat := NBUF.

(** [bcache], with the disk the driver reads and writes. *)
Record bcache := Bcache {
  bc_bufs : list buf;
  bc_disk : Z -> list Z;
  bc_writes : list (Z * list Z) }.

Definition set_refcnt (x : Z) (b : buf) : buf :=
  Buf (b_valid b) (b_dev b) (b_blockno b) (b_lock b) x (b_prev b) (b_next b) (b_data b).
Definition set_prev (x : nat) (b : buf) : buf :=
  Buf (b_valid b) (b_dev b) (b_blockno b) (b_lock b) (b_refcnt b) x (b_next b) (b_data b).
Definition set_next (x : nat) (b : buf) : buf :=
  Buf (b_valid b) (b_dev b) (b_blockno b) (b_lock b) (b_refcnt b) (b_prev b) x (b_data b).
Definition set_block_lock (x : sleeplock) (b : buf) : buf :=
  Buf (b_valid b) (b_dev b) (b_blockno b) x (b_refcnt b) (b_prev b) (b_next b) (b_data b).
Definition set_data (x : list Z) (b : buf) : buf :=
  Buf (b_valid b) (b_dev b) (b_blockno b) (b_lock b) (b_refcnt b) (b_prev b) (b_next b) x.
Definition set_valid (x : Z) (b : buf) : buf :=
  Buf x (b_dev b) (b_blockno b) (b_lock b) (b_refcnt b) (b_prev b) (b_next b) (b_data b).
Definition recycle (dev blockno : Z) (b : buf) : buf :=
  Buf 0 dev blockno (b_lock b) 1 (b_prev b) (b_next b) (b_data b).

Definition upd_bufs (f : list buf -> list buf) (s : bcache) : bcache :=
  Bcache (f (bc_bufs s)) (bc_disk s) (bc_writes s).

(** [*b] and an assignment to a field of [*b]. *)
Definition load (b : nat) : M bcache buf :=
  bs ← gets bc_bufs;
  match bs !! b with Some x => mret x | None => ub "bio: bad pointer" end.

Definition assign (b : nat) (f : buf -> buf) : M bcache () :=
  _ ← load b;
  modify (upd_bufs (alter f b)).

(** The sleeplock of buffer [b]. *)
Definition null_lock : sleeplock := Sleeplock 0 "buffer" 0.
Definition lock_of (b : nat) (s : bcache) : sleeplock :=
  match bc_bufs s !! b with Some x => b_lock x | None => null_lock end.
Definition set_lock_of (b : nat) (s : bcache) (lk : sleeplock) : bcache :=
  upd_bufs (alter (set_block_lock lk) b) s.

(** One iteration of the loop of [binit]. *)
Definition binit_one (b : nat) : M bcache () :=
  h ← load HEAD;
  assign b (set_next (b_next h));;
  assign b (set_prev HEAD);;
  assign b (set_block_lock (initsleeplock "buffer"));;
  h ← load HEAD;
  assign (b_next h) (set_prev b);;
  assign HEAD (set_next b).

Fixpoint binit_loop (n : nat) (b : nat) : M bcache () :=
  match n with
  | O => mret ()
  | S n' => binit_one b;; binit_loop n' (S b)
  end.

Definition binit : M bcache () :=
  assign HEAD (set_prev HEAD);;
  assign HEAD (set_next HEAD);;
  binit_loop NBUF 0.

(** The first loop of [bget]: along [next] from [b] for a cached block. *)
Fixpoint find_cached (fuel : nat) (b : nat) (dev blockno : Z) : M bcache (option nat) :=
  match fuel with
  | O => ub "bget: fuel"
  | S f =>
      if decide (b = HEAD) then mret None
      else
        x ← load b;
        if (b_dev x =? dev) && (b_blockno x =? blockno) then mret (Some b)
        else find_cached f (b_next x) dev blockno
  end.

(** The second loop: along [prev] for an unused buffer. *)
Fixpoint find_unused (fuel : nat) (b : nat) : M bcache (option nat) :=
  match fuel with
  | O => ub "bget: fuel"
  | S f =>
      if decide (b = HEAD) then mret None
      else
        x ← load b;
        if b_refcnt x =? 0 then mret (Some b) else find_unused f (b_prev x)
  end.

Definition bget (dev blockno : Z) : M bcache nat :=
  acquire L_bcache;;
  h ← load HEAD;
  r ← find_cached (S NBUF) (b_next h) dev blockno;
  match r with
  | Some b =>
      assign b (fun x => set_refcnt (u32 (b_refcnt x + 1)) x);;
      release L_bcache;;
      acquiresleep (ChBufLock b) (lock_of b) (set_lock_of b);;
      mret b
  | None =>
      h ← load HEAD;
      r ← find_unused (S NBUF) (b_prev h);
      match r with
      | Some b =>
          assign b (recycle dev blockno);;
          release L_bcache;;
          acquiresleep (ChBufLock b) (lock_of b) (set_lock_of b);;
          mret b
      | None => panic "bget: no buffers"
      end
  end.

(** [virtio_disk_rw(b, write)] transfers the block of buffer [b]; the driver
    is modelled in Virtio.v. *)
Definition virtio_disk_rw (b : nat) (write : bool) : M bcache () :=
  x ← load b;
  s ← get;
  if write then
    put (Bcache (bc_bufs s) (fupd (bc_disk s) (b_blockno x) (b_data x))
           (bc_writes s ++ [(b_blockno x, b_data x)]))
  else assign b (set_data (bc_disk s (b_blockno x))).

Definition bread (dev blockno : Z) : M bcache nat :=
  b ← bget dev blockno;
  x ← load b;
  (if b_valid x =? 0 then virtio_disk_rw b false;; assign b (set_valid 1) else mret ());;
  mret b.

Definition bwrite (b : nat) : M bcache () :=
  h ← holdingsleep (ChBufLock b) (lock_of b);
  if negb h then panic "bwrite" else virtio_disk_rw b true.

Definition brelse (b : nat) : M bcache () :=
  h ← holdingsleep (ChBufLock b) (lock_of b);
  if negb h then panic "brelse"
  else
    releasesleep (ChBufLock b) (lock_of b) (set_lock_of b);;
    acquire L_bcache;;
    assign b (fun x => set_refcnt (u32 (b_refcnt x - 1)) x);;
    x ← load b;
    (if b_refcnt x =? 0 then
       assign (b_next x) (set_prev (b_prev x));;
       assign (b_prev x) (set_next (b_next x));;
       h ← load HEAD;
       assign b (set_next (b_next h));;
       assign b (set_prev HEAD);;
       h ← load HEAD;
       assign (b_next h) (set_prev b);;
       assign HEAD (set_next b)
     else mret ());;
    release L_bcache.

Definition bpin (b : nat) : M bcache () :=
  acquire L_bcache;;
  assign b (fun x => set_refcnt (u32 (b_refcnt x + 1)) x);;
  release L_bcache.

Definition bunpin (b : nat) : M bcache () :=
  acquire L_bcache;;
  assign b (fun x => set_refcnt (u32 (b_refcnt x - 1)) x);;
  release L_bcache.

#[global] Instance bio_ops : BlockOps bcache := {
  BlockStore.bread := bread;
  BlockStore.bwrite := bwrite;
  BlockStore.brelse := brelse;
  BlockStore.bpin := bpin;
  BlockStore.bunpin := bunpin;
  BlockStore.buf_blockno := fun b => x ← load b; mret (b_blockno x);
  BlockStore.buf_data := fun b => x ← load b; mret (b_data x);
  BlockStore.set_buf_data := fun b d => assign b (set_data d) }.

(** The ring of buffers of kernel/bio.c: [next] and [prev] pointers through
    [HEAD] that visit the buffers in the order of a list, most recently used
    first. *)


(** ** Rings of pointers *)

Definition nupd (f : nat -> nat) (k v : nat) : nat -> nat := fun i => if decide (i = k) then v else f i.

Section ring.
Implicit Types (nx pv : nat -> nat) (l : list nat).

Definition link nx pv (a b : nat) : Prop := nx a = b /\ pv b = a.

(** [p] is linked to the elements of [l] in turn. *)
Fixpoint linked nx pv (p : nat) l : Prop :=
  match l with
  | [] => True
  | x :: l' => link nx pv p x /\ linked nx pv x l'
  end.

Definition ring nx pv (h : nat) l : Prop :=
  linked nx pv h l /\ link nx pv (List.last l h) h.

Lemma last_cons (x p : nat) l : List.last (x :: l) p = List.last l x.
Proof. revert x p. induction l as [|y l IH]; intros x p; [done|]. change (List.last (y :: l) p = List.last (y :: l) x). by rewrite !IH. Qed.

Lemma last_app_cons (l1 : list nat) x l2 p : List.last (l1 ++ x :: l2) p = List.last l2 x.
Proof. revert p. induction l1 as [|y l1 IH]; intros p; [apply last_cons|]. simpl app. by rewrite last_cons. Qed.

Lemma last_in (p : nat) l : List.last l p ∈ p :: l.
Proof.
  revert p. induction l as [|x l IH]; intros p; [left|]. rewrite last_cons. right. apply IH.
Qed.

Lemma linked_app nx pv p l1 x l2 :
  linked nx pv p (l1 ++ x :: l2) <->
  linked nx pv p l1 /\ link nx pv (List.last l1 p) x /\ linked nx pv x l2.
Proof.
  revert p. induction l1 as [|y l1 IH]; intros p; [simpl; tauto|].
  simpl app. cbn [linked]. rewrite IH, last_cons. tauto.
Qed.

Lemma linked_ext nx pv nx' pv' p l :
  NoDup (p :: l) ->
  (forall i, i ∈ p :: l -> i <> List.last l p -> nx' i = nx i) -> (forall i, i ∈ l -> pv' i = pv i) ->
  linked nx pv p l -> linked nx' pv' p l.
Proof.
  revert p. induction l as [|x l IH]; intros p Hnd Hn Hp; [done|]. cbn [linked]. intros [[E1 E2] Hl].
  apply NoDup_cons in Hnd as [Hpx Hnd]. rewrite last_cons in Hn. split.
  - split; [|by rewrite Hp by left]. rewrite Hn; [done|left|]. intros E.
    apply Hpx. rewrite E. apply last_in.
  - apply IH; [done| |by intros i Hi; apply Hp; right|done]. intros i Hi. apply Hn. by right.
Qed.

Lemma ring_next nx pv h l1 x l2 : ring nx pv h (l1 ++ x :: l2) -> nx x = hd h l2.
Proof.
  intros [Hl Hr]. rewrite last_app_cons in Hr. apply linked_app in Hl as (_ & _ & Hl).
  destruct l2 as [|y l2]; [apply Hr|apply Hl].
Qed.

Lemma ring_prev nx pv h l1 x l2 : ring nx pv h (l1 ++ x :: l2) -> pv x = List.last l1 h.
Proof. intros [Hl _]. apply linked_app in Hl as (_ & [_ Hl] & _). done. Qed.

Lemma ring_head nx pv h l : ring nx pv h l -> nx h = hd h l /\ pv h = List.last l h.
Proof. intros [Hl [H1 H2]]. split; [|done]. destruct l as [|x l]; [done|apply Hl]. Qed.

Lemma ring_ext nx pv nx' pv' h l :
  (forall i, i ∈ h :: l -> nx' i = nx i) -> (forall i, i ∈ h :: l -> pv' i = pv i) -> NoDup (h :: l) ->
  ring nx pv h l -> ring nx' pv' h l.
Proof.
  intros Hn Hp Hnd [Hl [H1 H2]]. split.
  - eapply linked_ext; [done|by intros; apply Hn|by intros; apply Hp; right|done].
  - split; [by rewrite Hn by apply last_in|by rewrite Hp by left].
Qed.

(** Unlinking [x]. *)
Lemma ring_remove nx pv h l1 x l2 :
  NoDup (h :: l1 ++ x :: l2) -> ring nx pv h (l1 ++ x :: l2) ->
  ring (nupd nx (pv x) (nx x)) (nupd pv (nx x) (pv x)) h (l1 ++ l2).
Proof.
  intros Hnd Hr. rewrite (ring_next _ _ _ _ _ _ Hr), (ring_prev _ _ _ _ _ _ Hr).
  destruct Hr as [Hl He]. rewrite last_app_cons in He. apply linked_app in Hl as (Hl1 & Hax & Hl2).
  assert (Hin := last_in h l1). set (a := List.last l1 h) in *.
  assert (Hsplit : NoDup (h :: l1) /\ (forall i, i ∈ h :: l1 -> i ∉ x :: l2) /\ NoDup (x :: l2)).
  { change (h :: l1 ++ x :: l2) with ((h :: l1) ++ x :: l2) in Hnd. by apply NoDup_app in Hnd. }
  destruct Hsplit as (Hnd1 & Hdis & Hnd2). apply NoDup_cons in Hnd2 as [Hx2 Hnd2].
  destruct l2 as [|b l2]; simpl hd.
  - rewrite app_nil_r. split.
    + eapply linked_ext; [done| | |done].
      * intros i Hi Hne. unfold nupd. by rewrite decide_False.
      * intros i Hi. unfold nupd. rewrite decide_False; [done|]. intros ->. by apply NoDup_cons in Hnd1 as [? _].
    + split; unfold nupd; [|by rewrite decide_True]. fold a. by rewrite decide_True.
  - assert (Hb1 : b ∉ h :: l1) by (intros H; apply (Hdis b H); right; left).
    cbn [linked] in Hl2. destruct Hl2 as [Hxb Hl2]. rewrite last_cons in He.
    apply NoDup_cons in Hnd2 as [Hb2 Hnd2].
    assert (Hal2 : forall i, i ∈ b :: l2 -> i <> a) by (intros i Hi ->; apply (Hdis a Hin); by right).
    split.
    + apply linked_app. split; [|split].
      * eapply linked_ext; [done| | |done].
        -- intros i Hi Hne. unfold nupd. by rewrite decide_False.
        -- intros i Hi. unfold nupd. rewrite decide_False; [done|]. intros ->. apply Hb1. by right.
      * fold a. split; unfold nupd; by rewrite decide_True.
      * eapply linked_ext; [by constructor| | |done].
        -- intros i Hi _. unfold nupd. by rewrite decide_False by auto.
        -- intros i Hi. unfold nupd. rewrite decide_False; [done|]. by intros ->.
    + rewrite last_app_cons. destruct He as [He1 He2]. split; unfold nupd.
      * by rewrite decide_False by (apply Hal2, last_in).
      * rewrite decide_False; [done|]. intros ->. apply Hb1. left.
Qed.

(** Linking [x] in at the front. *)
Lemma lru_insert nx pv h x l :
  NoDup (h :: l) -> (x ∉ h :: l) -> ring nx pv h l ->
  ring (nupd (nupd nx x (nx h)) h x) (nupd (nupd pv x h) (nx h) x) h (x :: l).
Proof.
  intros Hnd Hx Hr. destruct (ring_head _ _ _ _ Hr) as [Hh _]. rewrite Hh. destruct Hr as [Hl [He1 He2]].
  assert (Hxh : x <> h) by (intros ->; apply Hx; left).
  apply NoDup_cons in Hnd as [Hhl Hnd].
  assert (Hne : forall i, i ∈ l -> i <> h /\ i <> x) by (intros i Hi; split; intros ->; [done|apply Hx; by right]).
  assert (Hch : hd h l <> x) by (destruct l as [|c l]; [done|]; apply (Hne c); left).
  split; cbn [linked].
  - split; [split; unfold nupd|].
    + by rewrite decide_True.
    + rewrite decide_False by done. by rewrite decide_True.
    + destruct l as [|c l]; [done|]. cbn [linked hd] in *. destruct (Hne c) as [Hch' Hcx]; [left|].
      apply NoDup_cons in Hnd as [Hcl Hnd]. split; [split; unfold nupd|].
      * rewrite decide_False by done. by rewrite decide_True.
      * by rewrite decide_True.
      * eapply linked_ext; [by constructor| | |apply Hl].
        -- intros i Hi _. unfold nupd. destruct (Hne i Hi). by rewrite !decide_False.
        -- intros i Hi. unfold nupd. destruct (Hne i); [by right|].
           rewrite !decide_False; [done|done|]. by intros ->.
  - rewrite last_cons. destruct l as [|c l]; simpl hd in *; split; unfold nupd.
    + rewrite decide_False by done. by rewrite decide_True.
    + by rewrite decide_True.
    + rewrite last_cons in *. destruct (Hne (List.last l c)); [apply last_in|]. by rewrite !decide_False.
    + destruct (Hne c); [left|]. rewrite last_cons in *. by rewrite !decide_False.
Qed.
End ring.
