(* ===== verification/BioSpec.v ===== *)
(** The buffer cache of kernel/bio.c implements the interface of
    BlockStore.v. *)

From S2P Require Import Prelude KMonad Sleeplock BlockStore Bio.

(** ** The representation of a block store by the cache *)

Definition nxt (bs : list buf) (i : nat) : nat := match bs !! i with Some x => b_next x | None => i end.
Definition prv (bs : list buf) (i : nat) : nat := match bs !! i with Some x => b_prev x | None => i end.

(** What buffer [i] says about the block it holds. *)
Record buf_ok (D : Z) (a : store) (i : nat) (x : buf) : Prop := {
  bo_ref : 0 <= b_refcnt x < 2 ^ 32;
  bo_other : b_dev x <> D -> b_refcnt x = 0 /\ sl_locked (b_lock x) = 0;
  bo_abs_ref : b_dev x = D ->
    st_ref a !! b_blockno x = if decide (b_refcnt x = 0) then None else Some (i, b_refcnt x);
  bo_abs_lock : b_dev x = D ->
    match st_lock a !! b_blockno x with
    | Some p => sl_locked (b_lock x) = 1 /\ sl_pid (b_lock x) = p /\ b_valid x <> 0
    | None => sl_locked (b_lock x) = 0
    end;
  bo_data : b_dev x = D -> b_valid x <> 0 -> b_data x = st_view a (b_blockno x);
  bo_unused : b_dev x = D -> b_refcnt x = 0 -> st_view a (b_blockno x) = st_disk a (b_blockno x) }.

Record bio_rep_at (D : Z) (s : bcache) (a : store) (order : list nat) : Prop := {
  br_len : length (bc_bufs s) = S NBUF;
  br_perm : order ≡ₚ seq 0 NBUF;
  br_ring : ring (nxt (bc_bufs s)) (prv (bc_bufs s)) HEAD order;
  br_buf : forall i x, (i < NBUF)%nat -> bc_bufs s !! i = Some x -> buf_ok D a i x;
  br_uniq : forall i j x y, (i < NBUF)%nat -> (j < NBUF)%nat -> bc_bufs s !! i = Some x -> bc_bufs s !! j = Some y ->
    b_dev x = D -> b_dev y = D -> b_blockno x = b_blockno y -> i = j;
  br_ref : forall b i r, st_ref a !! b = Some (i, r) -> exists x, (i < NBUF)%nat /\ bc_bufs s !! i = Some x /\
    b_dev x = D /\ b_blockno x = b /\ b_refcnt x = r /\ r <> 0;
  br_lock : forall b p, st_lock a !! b = Some p -> is_Some (st_ref a !! b);
  br_view : forall b, (forall i x, (i < NBUF)%nat -> bc_bufs s !! i = Some x -> b_dev x = D -> b_blockno x = b ->
      b_valid x = 0) -> st_view a b = st_disk a b;
  br_disk : forall b, bc_disk s b = st_disk a b;
  br_writes : bc_writes s = st_writes a }.

Definition bio_rep (D : Z) (s : bcache) (a : store) : Prop := exists order, bio_rep_at D s a order.

(** ** Symbolic execution *)

Lemma wp_load b x (Q : buf -> world bcache -> Prop) w :
  bc_bufs (w_st w) !! b = Some x -> Q x w -> wp (load b) Q w.
Proof. intros Hx HQ. unfold load. apply wp_bind, wp_gets. by rewrite Hx. Qed.

Lemma wp_assign b x f (Q : () -> world bcache -> Prop) w :
  bc_bufs (w_st w) !! b = Some x -> Q () (set_st (upd_bufs (alter f b) (w_st w)) w) -> wp (assign b f) Q w.
Proof. intros Hx HQ. unfold assign. eapply wp_bind, wp_load; [done|]. by apply wp_modify. Qed.

Lemma lookup_alter_eq (f : buf -> buf) i (bs : list buf) x :
  bs !! i = Some x -> alter f i bs !! i = Some (f x).
Proof. intros H. by rewrite list_lookup_alter_eq, H. Qed.

Lemma alter_insert_eq (f : buf -> buf) i (bs : list buf) x :
  bs !! i = Some x -> alter f i bs = <[i := f x]> bs.
Proof.
  intros Hx. apply list_eq. intros j. destruct (decide (i = j)) as [<-|Hne].
  - rewrite list_lookup_alter_eq, Hx, list_lookup_insert_eq; [done|]. by eapply lookup_lt_Some.
  - by rewrite list_lookup_alter_ne, list_lookup_insert_ne.
Qed.

Lemma alter_alter_eq (f g : buf -> buf) i (bs : list buf) :
  alter f i (alter g i bs) = alter (fun x => f (g x)) i bs.
Proof.
  apply list_eq. intros j. destruct (decide (i = j)) as [<-|Hne].
  - rewrite !list_lookup_alter_eq. by destruct (bs !! i).
  - by rewrite !list_lookup_alter_ne.
Qed.

(** Changes that keep the pointers keep the ring. *)
Lemma alter_nxt (f : buf -> buf) i bs j : (forall x, b_next (f x) = b_next x) -> nxt (alter f i bs) j = nxt bs j.
Proof.
  intros Hf. unfold nxt. destruct (decide (i = j)) as [->|Hne].
  - rewrite list_lookup_alter_eq. destruct (bs !! j); [simpl; apply Hf|done].
  - by rewrite list_lookup_alter_ne.
Qed.

Lemma alter_prv (f : buf -> buf) i bs j : (forall x, b_prev (f x) = b_prev x) -> prv (alter f i bs) j = prv bs j.
Proof.
  intros Hf. unfold prv. destruct (decide (i = j)) as [->|Hne].
  - rewrite list_lookup_alter_eq. destruct (bs !! j); [simpl; apply Hf|done].
  - by rewrite list_lookup_alter_ne.
Qed.

Lemma set_next_nxt v i bs j : (i < length bs)%nat -> nxt (alter (set_next v) i bs) j = nupd (nxt bs) i v j.
Proof.
  intros Hi. unfold nxt, nupd. case_decide as Hd.
  - subst j. destruct (lookup_lt_is_Some_2 bs i Hi) as [x Hx]. by rewrite list_lookup_alter_eq, Hx.
  - by rewrite list_lookup_alter_ne.
Qed.

Lemma set_prev_prv v i bs j : (i < length bs)%nat -> prv (alter (set_prev v) i bs) j = nupd (prv bs) i v j.
Proof.
  intros Hi. unfold prv, nupd. case_decide as Hd.
  - subst j. destruct (lookup_lt_is_Some_2 bs i Hi) as [x Hx]. by rewrite list_lookup_alter_eq, Hx.
  - by rewrite list_lookup_alter_ne.
Qed.

Section spec.
Context (D : Z).
Implicit Types (s : bcache) (a : store) (order : list nat) (w : world bcache).

Lemma order_nodup order : order ≡ₚ seq 0 NBUF -> NoDup (HEAD :: order).
Proof.
  intros Hp. apply NoDup_cons. rewrite Hp. split; [|apply NoDup_seq].
  rewrite elem_of_seq. unfold HEAD, NBUF. lia.
Qed.

Lemma order_lt order i : order ≡ₚ seq 0 NBUF -> i ∈ order <-> (i < NBUF)%nat.
Proof. intros Hp. rewrite Hp, elem_of_seq. lia. Qed.

Lemma rep_lookup s a order i : bio_rep_at D s a order -> (i <= NBUF)%nat -> exists x, bc_bufs s !! i = Some x.
Proof. intros Hr Hi. apply lookup_lt_is_Some_2. rewrite (br_len _ _ _ _ Hr). lia. Qed.

(** ** The loops of [bget] *)

Definition holds (bs : list buf) (dev blockno : Z) (i : nat) : bool :=
  match bs !! i with Some x => (b_dev x =? dev) && (b_blockno x =? blockno) | None => false end.

Definition unused (bs : list buf) (i : nat) : bool :=
  match bs !! i with Some x => b_refcnt x =? 0 | None => false end.

Lemma wp_find_cached a order dev b w : forall l pre fuel,
  bio_rep_at D (w_st w) a order -> order = pre ++ l -> (length l < fuel)%nat ->
  wp (find_cached fuel (hd HEAD l) dev b)
     (fun r w' => w' = w /\ r = List.find (holds (bc_bufs (w_st w)) dev b) l) w.
Proof.
  induction l as [|i l IH]; intros pre [|fuel] Hr Ho Hf; simpl in Hf; try lia; cbn [find_cached hd].
  - by rewrite decide_True.
  - assert (Hi : (i < NBUF)%nat).
    { apply (order_lt order); [apply Hr|]. rewrite Ho. apply elem_of_app. right. left. }
    rewrite decide_False by (unfold HEAD; lia).
    destruct (rep_lookup _ _ _ i Hr) as [x Hx]; [lia|].
    eapply wp_bind, wp_load; [exact Hx|]. cbn [List.find].
    assert (Hh : holds (bc_bufs (w_st w)) dev b i = (b_dev x =? dev) && (b_blockno x =? b))
      by (unfold holds; by rewrite Hx).
    rewrite Hh. destruct (_ && _); [done|].
    pose proof (br_ring _ _ _ _ Hr) as Hring. rewrite Ho in Hring. apply ring_next in Hring.
    unfold nxt in Hring. rewrite Hx in Hring. rewrite Hring.
    apply (IH (pre ++ [i])); [done|by rewrite <- app_assoc|lia].
Qed.

Lemma wp_find_unused a order w : forall l post fuel,
  bio_rep_at D (w_st w) a order -> order = rev l ++ post -> (length l < fuel)%nat ->
  wp (find_unused fuel (List.last (rev l) HEAD))
     (fun r w' => w' = w /\ r = List.find (unused (bc_bufs (w_st w))) l) w.
Proof.
  induction l as [|i l IH]; intros post [|fuel] Hr Ho Hf; simpl in Hf; try lia; cbn [find_unused rev].
  - by rewrite decide_True.
  - rewrite last_app_cons. cbn [List.last]. cbn [rev] in Ho. rewrite <- app_assoc in Ho. simpl in Ho.
    assert (Hi : (i < NBUF)%nat).
    { apply (order_lt order); [apply Hr|]. rewrite Ho. apply elem_of_app. right. left. }
    rewrite decide_False by (unfold HEAD; lia).
    destruct (rep_lookup _ _ _ i Hr) as [x Hx]; [lia|].
    eapply wp_bind, wp_load; [exact Hx|]. cbn [List.find].
    assert (Hh : unused (bc_bufs (w_st w)) i = (b_refcnt x =? 0)) by (unfold unused; by rewrite Hx).
    rewrite Hh. destruct (b_refcnt x =? 0); [done|].
    pose proof (br_ring _ _ _ _ Hr) as Hring. rewrite Ho in Hring. apply ring_prev in Hring.
    unfold prv in Hring. rewrite Hx in Hring. rewrite Hring.
    apply (IH (i :: post)); [done|done|lia].
Qed.

(** ** Changing one buffer *)

(** [a] and [a'] differ at most at block [b]. *)
Definition agree_off (b : Z) a a' : Prop :=
  forall k, k <> b -> st_ref a' !! k = st_ref a !! k /\ st_lock a' !! k = st_lock a !! k /\
    st_view a' k = st_view a k /\ st_disk a' k = st_disk a k.

Lemma buf_ok_frame b a a' j z :
  agree_off b a a' -> (b_dev z = D -> b_blockno z <> b) -> buf_ok D a j z -> buf_ok D a' j z.
Proof.
  intros Hag Hne [H1 H2 H3 H4 H5 H6]. split; [done|done|..]; intros Hd;
    destruct (Hag (b_blockno z) (Hne Hd)) as (E1 & E2 & E3 & E4).
  - rewrite E1. by apply H3.
  - rewrite E2. by apply H4.
  - rewrite E3. by apply H5.
  - rewrite E3, E4. by apply H6.
Qed.

(** Buffer [i], which holds block [b] or is unused, changes to hold [b]. *)
Lemma rep_alter s a order i x (f : buf -> buf) b a' s' :
  bio_rep_at D s a order -> (i < NBUF)%nat -> bc_bufs s !! i = Some x ->
  (forall z, b_next (f z) = b_next z) -> (forall z, b_prev (f z) = b_prev z) ->
  b_dev (f x) = D -> b_blockno (f x) = b ->
  (b_dev x = D /\ b_blockno x = b) \/
  (b_refcnt x = 0 /\ forall j, (j < NBUF)%nat -> holds (bc_bufs s) D b j = false) ->
  agree_off b a a' -> buf_ok D a' i (f x) ->
  (is_Some (st_lock a' !! b) -> b_refcnt (f x) <> 0) ->
  (b_valid (f x) = 0 -> st_view a' b = st_disk a' b) ->
  bc_bufs s' = alter f i (bc_bufs s) -> (forall k, bc_disk s' k = st_disk a' k) -> bc_writes s' = st_writes a' ->
  bio_rep_at D s' a' order.
Proof.
  intros Hr Hi Hx Hnx Hpv Hyd Hyb Hcase Hag Hy Hlk Hvw Hbufs Hdk Hwr.
  assert (Hoth : forall j z, j <> i -> (j < NBUF)%nat -> bc_bufs s !! j = Some z -> b_dev z = D -> b_blockno z <> b).
  { intros j z Hne Hj Hz Hd Hb. destruct Hcase as [[Hxd Hxb]|[_ Hno]].
    - apply Hne. eapply (br_uniq _ _ _ _ Hr); [done|done|exact Hz|exact Hx|done|done|congruence].
    - specialize (Hno j Hj). unfold holds in Hno. rewrite Hz, Hd, Hb, !Z.eqb_refl in Hno. done. }
  assert (Hlook : forall j z, bc_bufs s' !! j = Some z -> (j = i /\ z = f x) \/ (j <> i /\ bc_bufs s !! j = Some z)).
  { intros j z Hz. rewrite Hbufs in Hz. destruct (decide (i = j)) as [->|Hne].
    - left. rewrite list_lookup_alter_eq, Hx in Hz. naive_solver.
    - right. rewrite list_lookup_alter_ne in Hz by done. auto. }
  split.
  - rewrite Hbufs, length_alter. apply Hr.
  - apply Hr.
  - eapply ring_ext; [| | |apply Hr].
    + intros j _. rewrite Hbufs. by apply alter_nxt.
    + intros j _. rewrite Hbufs. by apply alter_prv.
    + apply order_nodup, Hr.
  - intros j z Hj [[-> ->]|[Hne Hz]]%Hlook; [done|].
    eapply buf_ok_frame; [done|by apply (Hoth j z)|]. by eapply (br_buf _ _ _ _ Hr).
  - intros j k z y Hj Hk Hz Hk' Hzd Hyd' Heq.
    destruct (Hlook _ _ Hz) as [[-> ->]|[Hne Hz']], (Hlook _ _ Hk') as [[-> ->]|[Hne' Hy']]; [done|..].
    + exfalso. apply (Hoth k y Hne' Hk Hy' Hyd'). congruence.
    + exfalso. apply (Hoth j z Hne Hj Hz' Hzd). congruence.
    + by eapply (br_uniq _ _ _ _ Hr).
  - intros b' k r Hb'. destruct (decide (b' = b)) as [->|Hne].
    + pose proof (bo_abs_ref _ _ _ _ Hy Hyd) as E. rewrite Hyb, Hb' in E.
      case_decide; [done|]. injection E as -> ->. exists (f x). split; [done|].
      split; [by rewrite Hbufs, (lookup_alter_eq f i _ x)|done].
    + rewrite (proj1 (Hag b' Hne)) in Hb'. destruct (br_ref _ _ _ _ Hr b' k r Hb') as (z & Hk & Hz & Hzd & Hzb & Hzr & Hr0).
      exists z. split; [done|]. split; [|done]. rewrite Hbufs, list_lookup_alter_ne; [done|].
      intros ->. rewrite Hx in Hz. injection Hz as ->. destruct Hcase as [[_ Hxb]|[Hx0 _]]; congruence.
  - intros b' p Hp. destruct (decide (b' = b)) as [->|Hne].
    + pose proof (bo_abs_ref _ _ _ _ Hy Hyd) as E. rewrite Hyb in E. rewrite E.
      rewrite decide_False by (apply Hlk; by exists p). by eexists.
    + destruct (Hag b' Hne) as (E1 & E2 & _). rewrite E2 in Hp. rewrite E1. by eapply (br_lock _ _ _ _ Hr).
  - intros b' Hinv. destruct (decide (b' = b)) as [->|Hne].
    + apply Hvw. apply (Hinv i); [done| |done|done]. by rewrite Hbufs, (lookup_alter_eq f i _ x).
    + destruct (Hag b' Hne) as (_ & _ & E3 & E4). rewrite E3, E4.
      assert (Hor : (b_dev x = D /\ b_blockno x = b') \/ ~ (b_dev x = D /\ b_blockno x = b')).
      { destruct (decide (b_dev x = D)), (decide (b_blockno x = b')); tauto. }
      destruct Hor as [[Hxd Hxb]|Hxn].
      * destruct Hcase as [[_ Hxb']|[Hx0 _]]; [congruence|]. rewrite <- Hxb.
        by apply (bo_unused _ _ _ _ (br_buf _ _ _ _ Hr i x Hi Hx)).
      * apply (br_view _ _ _ _ Hr). intros j z Hj Hz Hzd Hzb.
        apply (Hinv j z Hj); [|done|done]. rewrite Hbufs, list_lookup_alter_ne; [done|].
        intros ->. rewrite Hx in Hz. injection Hz as ->. tauto.
  - done.
  - done.
Qed.

(** The buffer of a block in use. *)
Lemma rep_ref s a order b i r :
  bio_rep_at D s a order -> st_ref a !! b = Some (i, r) ->
  exists x, (i < NBUF)%nat /\ bc_bufs s !! i = Some x /\ b_dev x = D /\ b_blockno x = b /\
    b_refcnt x = r /\ r <> 0 /\ buf_ok D a i x.
Proof.
  intros Hr Hb. destruct (br_ref _ _ _ _ Hr b i r Hb) as (x & Hi & Hx & Hd & Hbn & Hrc & H0).
  exists x. repeat (split; [done|]). by eapply (br_buf _ _ _ _ Hr).
Qed.

(** ** bread *)

(** The store after block [b] is returned in buffer [i]. *)
Definition locked_store a (b : Z) (i : nat) (pid : Z) : store :=
  Store (<[b := (i, match st_ref a !! b with Some (_, r) => r | None => 0 end + 1)]> (st_ref a))
    (<[b := pid]> (st_lock a)) (st_view a) (st_disk a) (st_writes a).

Lemma rep_bread s a order i x (f : buf -> buf) b pid s' :
  let r := match st_ref a !! b with Some (_, r) => r | None => 0 end in
  bio_rep_at D s a order -> (i < NBUF)%nat -> bc_bufs s !! i = Some x ->
  (forall z, b_next (f z) = b_next z) -> (forall z, b_prev (f z) = b_prev z) ->
  (b_dev x = D /\ b_blockno x = b) \/
  (b_refcnt x = 0 /\ forall j, (j < NBUF)%nat -> holds (bc_bufs s) D b j = false) ->
  b_dev (f x) = D -> b_blockno (f x) = b -> sl_locked (b_lock (f x)) = 1 -> sl_pid (b_lock (f x)) = pid ->
  b_valid (f x) <> 0 -> b_refcnt (f x) = r + 1 -> 0 <= r -> r + 1 < 2 ^ 32 -> b_data (f x) = st_view a b ->
  bc_bufs s' = alter f i (bc_bufs s) -> bc_disk s' = bc_disk s -> bc_writes s' = bc_writes s ->
  bio_rep_at D s' (locked_store a b i pid) order.
Proof.
  intros r Hr Hi Hx Hnx Hpv Hcase Hd Hb Hl Hp Hv Hrc H0 Hmax Hdata Hbufs Hdk Hwr.
  eapply (rep_alter s a order i x f b); try done.
  - intros k Hk. simpl. by rewrite !lookup_insert_ne by done.
  - split; rewrite ?Hb; simpl.
    + lia.
    + done.
    + intros _. rewrite lookup_insert_eq, Hrc, decide_False by lia. done.
    + intros _. rewrite lookup_insert_eq. done.
    + done.
    + lia.
  - intros _. lia.
  - intros k. rewrite Hdk. apply Hr.
  - rewrite Hwr. apply Hr.
Qed.

Lemma find_holds bs dev b l i :
  List.find (holds bs dev b) l = Some i ->
  exists x, i ∈ l /\ bs !! i = Some x /\ b_dev x = dev /\ b_blockno x = b.
Proof.
  intros [Hin Hh]%find_some. unfold holds in Hh. destruct (bs !! i) as [x|]; [|done].
  apply andb_true_iff in Hh as [Hd%Z.eqb_eq Hb%Z.eqb_eq]. exists x. by rewrite list_elem_of_In.
Qed.

(** A block in use is cached. *)
Lemma not_cached s a order b :
  bio_rep_at D s a order -> (forall j, (j < NBUF)%nat -> holds (bc_bufs s) D b j = false) ->
  st_ref a !! b = None /\ st_view a b = st_disk a b.
Proof.
  intros Hr Hno. split.
  - destruct (st_ref a !! b) as [[i r]|] eqn:Hb; [|done].
    destruct (rep_ref _ _ _ _ _ _ Hr Hb) as (x & Hi & Hx & Hd & Hbn & _).
    specialize (Hno i Hi). unfold holds in Hno. by rewrite Hx, Hd, Hbn, !Z.eqb_refl in Hno.
  - apply (br_view _ _ _ _ Hr). intros i x Hi Hx Hd Hbn. specialize (Hno i Hi).
    unfold holds in Hno. by rewrite Hx, Hd, Hbn, !Z.eqb_refl in Hno.
Qed.

(** While fewer than [NBUF] blocks are in use there is an unused buffer. *)
Lemma unused_exists s a order :
  bio_rep_at D s a order -> (size (st_ref a) < NBUF)%nat ->
  exists i, (i < NBUF)%nat /\ unused (bc_bufs s) i = true.
Proof.
  intros Hr Hsz. destruct (decide (Exists (fun i => unused (bc_bufs s) i = true) (seq 0 NBUF))) as [Hex|Hno].
  { apply Exists_exists in Hex as (i & Hi%elem_of_seq & Hu). exists i. split; [lia|done]. }
  exfalso. set (bn := fun i => match bc_bufs s !! i with Some x => b_blockno x | None => 0 end).
  assert (Hall : forall i, (i < NBUF)%nat -> exists x, bc_bufs s !! i = Some x /\ b_dev x = D /\
    st_ref a !! b_blockno x = Some (i, b_refcnt x)).
  { intros i Hi. destruct (rep_lookup s a order i Hr) as [x Hx]; [lia|]. exists x. split; [done|].
    pose proof (br_buf _ _ _ _ Hr i x Hi Hx) as Hb.
    assert (Hne : b_refcnt x <> 0).
    { intros H0. apply Hno. apply Exists_exists. exists i. split; [apply elem_of_seq; lia|].
      unfold unused. by rewrite Hx, H0. }
    assert (Hd : b_dev x = D).
    { destruct (decide (b_dev x = D)) as [|Hd]; [done|]. by destruct (bo_other _ _ _ _ Hb Hd). }
    split; [done|]. by rewrite (bo_abs_ref _ _ _ _ Hb Hd), decide_False. }
  assert (Hnd : NoDup (bn <$> seq 0 NBUF)).
  { apply NoDup_fmap_2_strong; [|apply NoDup_seq]. intros i j Hi%elem_of_seq Hj%elem_of_seq.
    destruct (Hall i) as (x & Hx & Hxd & _); [lia|]. destruct (Hall j) as (y & Hy & Hyd & _); [lia|].
    unfold bn. rewrite Hx, Hy. apply (br_uniq _ _ _ _ Hr i j x y); [lia|lia|done..]. }
  assert (Hsub : list_to_set (bn <$> seq 0 NBUF) ⊆ dom (st_ref a)).
  { intros b (i & -> & Hi%elem_of_seq)%elem_of_list_to_set%list_elem_of_fmap.
    destruct (Hall i) as (x & Hx & _ & Href); [lia|]. apply elem_of_dom. unfold bn. rewrite Hx. by eexists. }
  apply subseteq_size in Hsub. rewrite size_list_to_set in Hsub by done.
  rewrite length_fmap, length_seq, size_dom in Hsub. lia.
Qed.

Lemma lock_of_bufs s i x : bc_bufs s !! i = Some x -> lock_of i s = b_lock x.
Proof. intros H. unfold lock_of. by rewrite H. Qed.

(** From the point where [bget] has taken its reference: lock the buffer,
    read the block if it is not valid, return. *)
Lemma wp_lock_and_read i x (Q : nat -> world bcache -> Prop) w :
  bc_bufs (w_st w) !! i = Some x -> L_bcache ∈ w_held w -> sl_locked (b_lock x) = 0 ->
  no_bio_locks (filter (fun k => k <> L_bcache) (w_held w)) ->
  let y := Buf (if b_valid x =? 0 then 1 else b_valid x) (b_dev x) (b_blockno x)
    (Sleeplock 1 (sl_name (b_lock x)) (my_pid (w_me w))) (b_refcnt x) (b_prev x) (b_next x)
    (if b_valid x =? 0 then bc_disk (w_st w) (b_blockno x) else b_data x) in
  Q i (World (w_me w) (filter (fun k => k <> L_bcache) (w_held w)) (w_evs w)
         (upd_bufs (<[i := y]>) (w_st w))) ->
  wp (release L_bcache;; acquiresleep (ChBufLock i) (lock_of i) (set_lock_of i);; mret i) (fun b =>
    wp (x ← load b;
        (if b_valid x =? 0 then virtio_disk_rw b false;; assign b (set_valid 1) else mret ());;
        mret b) Q) w.
Proof.
  intros Hx Hin Hunl [_ Hnl] y HQ. apply wp_bind. unfold wp at 1, release. rewrite decide_True by done.
  apply wp_bind, wp_acquiresleep; [apply Hnl|by rewrite (lock_of_bufs _ i x)|]. cbn [w_st set_held set_st w_me].
  rewrite (lock_of_bufs _ i x) by done. apply wp_ret.
  set (lk := Sleeplock 1 (sl_name (b_lock x)) (my_pid (w_me w))) in *.
  assert (Hx1 : alter (set_block_lock lk) i (bc_bufs (w_st w)) !! i = Some (set_block_lock lk x)) by (by apply lookup_alter_eq).
  eapply wp_bind, wp_load; [exact Hx1|]. cbn [set_block_lock b_valid].
  destruct (b_valid x =? 0) eqn:Hv.
  - apply wp_bind, wp_bind. unfold virtio_disk_rw. eapply wp_bind, wp_load; [exact Hx1|].
    apply wp_bind, wp_get. eapply wp_assign; [exact Hx1|].
    eapply wp_assign; [simpl; apply lookup_alter_eq; exact Hx1|]. apply wp_ret.
    unfold set_st, set_held, set_lock_of, upd_bufs. simpl.
    rewrite !alter_alter_eq, (alter_insert_eq _ i _ x Hx). exact HQ.
  - apply wp_bind, wp_ret, wp_ret. unfold set_st, set_held, set_lock_of, upd_bufs. simpl.
    rewrite (alter_insert_eq _ i _ x Hx). exact HQ.
Qed.

(** [bget] chooses buffer [i] for a block that is not cached: the unused one
    that comes last in the list. *)
Definition lru_choice (bs : list buf) order (i : nat) : Prop :=
  exists l1 l2, order = l1 ++ i :: l2 /\ unused bs i = true /\ forall j, j ∈ l2 -> unused bs j = false.

Lemma find_rev_last (p : nat -> bool) l i :
  List.find p (rev l) = Some i ->
  exists l1 l2, l = l1 ++ i :: l2 /\ p i = true /\ forall j, j ∈ l2 -> p j = false.
Proof.
  induction l as [|x l IH] using rev_ind; [done|]. rewrite rev_app_distr. simpl.
  destruct (p x) eqn:E.
  - intros [= ->]. exists l, []. split; [done|]. split; [done|]. by intros j ?%elem_of_nil.
  - intros H. destruct (IH H) as (l1 & l2 & -> & Hi & Hl2). exists l1, (l2 ++ [x]).
    split; [by rewrite <- app_assoc|]. split; [done|].
    intros j [Hj|Hj%list_elem_of_singleton]%elem_of_app; [by apply Hl2|by subst].
Qed.

Lemma held_without h : L_bcache ∉ h -> filter (fun k => k <> L_bcache) (L_bcache :: h) = h.
Proof. intros Hn. rewrite filter_cons_False by naive_solver. by apply filter_neq_notin. Qed.

(** The block is cached in buffer [i]. *)
Lemma wp_bread_hit a order b i x (Q : nat -> world bcache -> Prop) w :
  bio_rep_at D (w_st w) a order -> no_bio_locks (w_held w) -> st_lock a !! b = None ->
  (forall i r, st_ref a !! b = Some (i, r) -> r + 1 < 2 ^ 32) ->
  (i < NBUF)%nat -> bc_bufs (w_st w) !! i = Some x -> b_dev x = D -> b_blockno x = b ->
  (forall w', same_ctx w w' -> (forall j r', st_ref a !! b = Some (j, r') -> i = j) ->
     bio_rep_at D (w_st w') (locked_store a b i (my_pid (w_me w))) order -> Q i w') ->
  wp (assign i (fun x => set_refcnt (u32 (b_refcnt x + 1)) x);;
      release L_bcache;;
      acquiresleep (ChBufLock i) (lock_of i) (set_lock_of i);;
      mret i) (fun b => wp (x ← load b;
        (if b_valid x =? 0 then virtio_disk_rw b false;; assign b (set_valid 1) else mret ());;
        mret b) Q) (set_held (L_bcache :: w_held w) w).
Proof.
  intros Hr Hnl Hlk Hrmax Hi Hx Hd Hb HQ.
  pose proof (br_buf _ _ _ _ Hr i x Hi Hx) as Hok. pose proof (bo_abs_ref _ _ _ _ Hok Hd) as Href.
  pose proof (bo_abs_lock _ _ _ _ Hok Hd) as Hlock. rewrite Hb, Hlk in Hlock. rewrite Hb in Href.
  pose proof (bo_ref _ _ _ _ Hok) as Hrange. pose proof (held_without _ (proj1 Hnl)) as Hfil.
  assert (Hrc : b_refcnt x = match st_ref a !! b with Some (_, r) => r | None => 0 end)
    by (rewrite Href; case_decide; done).
  assert (Hmax : b_refcnt x + 1 < 2 ^ 32).
  { destruct (st_ref a !! b) as [[j r]|] eqn:E; [rewrite Hrc; by eapply Hrmax|rewrite Hrc; lia]. }
  eapply wp_bind, wp_assign; [exact Hx|].
  eapply wp_lock_and_read; [simpl; apply lookup_alter_eq; exact Hx|left|done|cbn [w_held set_st set_held]; by rewrite Hfil|].
  apply HQ; [split; [done|exact Hfil]| |].
  { intros j r' E. rewrite E in Href. case_decide; [done|]. by injection Href. }
  unfold upd_bufs. simpl. rewrite (alter_insert_eq _ i _ x Hx), list_insert_insert_eq, Hd, Hb.
  rewrite u32_small by lia. match goal with |- context [<[i := ?y0]> _] => set (y := y0) end.
  eapply (rep_bread (w_st w) a order i x (fun z => Buf (b_valid y) D b (b_lock y) (b_refcnt y) (b_prev z) (b_next z) (b_data y)));
    [done|done|done|done|done|by left|done|done|done|done| |by simpl; rewrite <- Hrc|rewrite <- Hrc; lia
    |rewrite <- Hrc; lia| |by rewrite (alter_insert_eq _ i _ x Hx)|done|done]; simpl.
  - destruct (Z.eqb_spec (b_valid x) 0); [lia|done].
  - destruct (Z.eqb_spec (b_valid x) 0) as [Hv|Hv]; [|by rewrite (bo_data _ _ _ _ Hok Hd Hv), Hb].
    rewrite (br_disk _ _ _ _ Hr). symmetry. apply (br_view _ _ _ _ Hr). intros j z Hj Hz Hzd Hzb.
    assert (j = i) as -> by (eapply (br_uniq _ _ _ _ Hr); [done|done|exact Hz|exact Hx|done|done|congruence]).
    congruence.
Qed.

(** The block is not cached; buffer [i] is unused. *)
Lemma wp_bread_miss a order b i (Q : nat -> world bcache -> Prop) w :
  bio_rep_at D (w_st w) a order -> no_bio_locks (w_held w) ->
  (forall j, (j < NBUF)%nat -> holds (bc_bufs (w_st w)) D b j = false) ->
  (i < NBUF)%nat -> unused (bc_bufs (w_st w)) i = true ->
  (forall w', same_ctx w w' ->
     bio_rep_at D (w_st w') (locked_store a b i (my_pid (w_me w))) order -> Q i w') ->
  wp (assign i (recycle D b);;
      release L_bcache;;
      acquiresleep (ChBufLock i) (lock_of i) (set_lock_of i);;
      mret i) (fun b => wp (x ← load b;
        (if b_valid x =? 0 then virtio_disk_rw b false;; assign b (set_valid 1) else mret ());;
        mret b) Q) (set_held (L_bcache :: w_held w) w).
Proof.
  intros Hr Hnl Hno Hi Hun HQ. destruct (not_cached _ _ _ _ Hr Hno) as [Hnone Hview].
  pose proof (held_without _ (proj1 Hnl)) as Hfil.
  unfold unused in Hun. destruct (bc_bufs (w_st w) !! i) as [x|] eqn:Hx; [|done].
  apply Z.eqb_eq in Hun. pose proof (br_buf _ _ _ _ Hr i x Hi Hx) as Hok.
  assert (Hunl : sl_locked (b_lock x) = 0).
  { destruct (decide (b_dev x = D)) as [Hd|Hd]; [|by apply (bo_other _ _ _ _ Hok Hd)].
    pose proof (bo_abs_lock _ _ _ _ Hok Hd) as Hl. destruct (st_lock a !! b_blockno x) as [p|] eqn:E; [|done].
    destruct (br_lock _ _ _ _ Hr _ _ E) as [? E2]. rewrite (bo_abs_ref _ _ _ _ Hok Hd), decide_True in E2; done. }
  eapply wp_bind, wp_assign; [exact Hx|].
  eapply wp_lock_and_read; [simpl; apply lookup_alter_eq; exact Hx|left|done|cbn [w_held set_st set_held]; by rewrite Hfil|].
  apply HQ; [split; [done|exact Hfil]|].
  unfold upd_bufs. simpl. rewrite (alter_insert_eq _ i _ x Hx), list_insert_insert_eq.
  eapply (rep_bread (w_st w) a order i x (fun z => Buf 1 D b (Sleeplock 1 (sl_name (b_lock x)) (my_pid (w_me w))) 1
    (b_prev z) (b_next z) (bc_disk (w_st w) b)));
    [done|done|done|done|done|by right|done|done|done|done|done|by rewrite Hnone|by rewrite Hnone|by rewrite Hnone
    |by simpl; rewrite (br_disk _ _ _ _ Hr), Hview|by rewrite (alter_insert_eq _ i _ x Hx)|done|done].
Qed.

Lemma wp_bio_bread a order b (Q : nat -> world bcache -> Prop) w :
  bio_rep_at D (w_st w) a order -> no_bio_locks (w_held w) -> st_lock a !! b = None ->
  (is_Some (st_ref a !! b) \/ (size (st_ref a) < NBUF)%nat) ->
  (forall i r, st_ref a !! b = Some (i, r) -> r + 1 < 2 ^ 32) ->
  (forall i w', same_ctx w w' -> (forall j r', st_ref a !! b = Some (j, r') -> i = j) ->
     ((forall j, (j < NBUF)%nat -> holds (bc_bufs (w_st w)) D b j = false) -> lru_choice (bc_bufs (w_st w)) order i) ->
     bio_rep_at D (w_st w') (locked_store a b i (my_pid (w_me w))) order -> Q i w') ->
  wp (Bio.bread D b) Q w.
Proof.
  intros Hr Hnl Hlk Hav Hrmax HQ. unfold Bio.bread, bget.
  apply wp_bind, wp_bind, wp_acquire; [apply Hnl|]. set (w1 := set_held _ w).
  destruct (rep_lookup (w_st w) a order HEAD Hr) as [h Hh]; [done|].
  destruct (ring_head _ _ _ _ (br_ring _ _ _ _ Hr)) as [Hnx Hpv]. unfold nxt, prv in Hnx, Hpv.
  rewrite Hh in Hnx, Hpv. eapply wp_bind, wp_load; [exact Hh|]. rewrite Hnx.
  assert (Hlen : length order = NBUF) by (rewrite (br_perm _ _ _ _ Hr); apply length_seq).
  assert (Hlt : forall i, i ∈ order <-> (i < NBUF)%nat) by (intros; apply order_lt, Hr).
  eapply wp_bind, wp_mono; [|apply (wp_find_cached a order D b w1 order []); [done|done|lia]].
  intros r w' [-> ->]. change (w_st w1) with (w_st w).
  destruct (List.find (holds (bc_bufs (w_st w)) D b) order) as [i|] eqn:Hfind.
  - destruct (find_holds _ _ _ _ _ Hfind) as (x & Hio & Hx & Hd & Hb). apply Hlt in Hio.
    eapply wp_bread_hit; try done. intros w' Hc Hj Hr'. apply HQ; try done.
    intros Hno. specialize (Hno i Hio). unfold holds in Hno. by rewrite Hx, Hd, Hb, !Z.eqb_refl in Hno.
  - assert (Hno : forall j, (j < NBUF)%nat -> holds (bc_bufs (w_st w)) D b j = false).
    { intros j Hj. apply (find_none _ _ Hfind), list_elem_of_In. by apply Hlt. }
    destruct (not_cached _ _ _ _ Hr Hno) as [Hnone Hview].
    destruct (unused_exists (w_st w) a order Hr) as (u & Hu & Huu).
    { destruct Hav as [[? Hs]|]; [congruence|done]. }
    eapply wp_bind, wp_load; [exact Hh|]. rewrite Hpv.
    pose proof (wp_find_unused a order w1 (rev order) [] (S NBUF)) as Hfu.
    rewrite rev_involutive, app_nil_r, length_rev in Hfu.
    eapply wp_bind, wp_mono; [|apply Hfu; [done|done|lia]]. clear Hfu.
    intros r w' [-> ->]. change (w_st w1) with (w_st w).
    destruct (List.find (unused (bc_bufs (w_st w))) (rev order)) as [i|] eqn:Hfind2.
    + pose proof (find_rev_last _ _ _ Hfind2) as Hlru. apply find_some in Hfind2 as [Hin Hun].
      apply in_rev, list_elem_of_In, Hlt in Hin.
      eapply wp_bread_miss; try done. intros w' Hc Hr'. apply HQ; try done. by rewrite Hnone.
    + exfalso. assert (E : unused (bc_bufs (w_st w)) u = false); [|congruence].
      apply (find_none _ _ Hfind2), in_rev. rewrite rev_involutive. apply list_elem_of_In. by apply Hlt.
Qed.

(** ** Operations on a block in use *)

Lemma wp_bio_data a b i r (Q : list Z -> world bcache -> Prop) w :
  bio_rep D (w_st w) a -> st_ref a !! b = Some (i, r) -> is_Some (st_lock a !! b) ->
  Q (st_view a b) w -> wp (x ← load i; mret (b_data x)) Q w.
Proof.
  intros [order Hr] Hb [p Hl] HQ. destruct (rep_ref _ _ _ _ _ _ Hr Hb) as (x & Hi & Hx & Hd & Hbn & _ & _ & Hok).
  eapply wp_bind, wp_load; [exact Hx|]. apply wp_ret.
  pose proof (bo_abs_lock _ _ _ _ Hok Hd) as Hlk. rewrite Hbn, Hl in Hlk.
  by rewrite (bo_data _ _ _ _ Hok Hd (proj2 (proj2 Hlk))), Hbn.
Qed.

Lemma wp_bio_blockno a b i r (Q : Z -> world bcache -> Prop) w :
  bio_rep D (w_st w) a -> st_ref a !! b = Some (i, r) -> Q b w -> wp (x ← load i; mret (b_blockno x)) Q w.
Proof.
  intros [order Hr] Hb HQ. destruct (rep_ref _ _ _ _ _ _ Hr Hb) as (x & Hi & Hx & Hd & Hbn & _).
  eapply wp_bind, wp_load; [exact Hx|]. apply wp_ret. by rewrite Hbn.
Qed.

Lemma wp_bio_set_data a b i r d (Q : () -> world bcache -> Prop) w :
  bio_rep D (w_st w) a -> st_ref a !! b = Some (i, r) -> is_Some (st_lock a !! b) ->
  (forall w', same_ctx w w' ->
     bio_rep D (w_st w') (Store (st_ref a) (st_lock a) (fupd (st_view a) b d) (st_disk a) (st_writes a)) -> Q () w') ->
  wp (assign i (set_data d)) Q w.
Proof.
  intros [order Hr] Hb [p Hl] HQ. destruct (rep_ref _ _ _ _ _ _ Hr Hb) as (x & Hi & Hx & Hd & Hbn & Hrc & Hr0 & Hok).
  pose proof (bo_abs_lock _ _ _ _ Hok Hd) as Hlk. rewrite Hbn, Hl in Hlk.
  eapply wp_assign; [exact Hx|]. apply HQ; [done|]. exists order.
  eapply (rep_alter (w_st w) a order i x (set_data d) b); try done; simpl; try congruence.
  - by left.
  - intros k Hk. simpl. by rewrite fupd_other.
  - destruct Hok as [H1 H2 H3 H4 H5 H6]. split; simpl; rewrite ?Hbn in *; try done.
    + by rewrite fupd_same.
    + congruence.
  - intros E. by rewrite E in Hlk; destruct Hlk as (_ & _ & ?).
  - apply Hr.
  - apply Hr.
Qed.

Lemma holdingsleep_own a order b i r w :
  bio_rep_at D (w_st w) a order -> st_ref a !! b = Some (i, r) -> st_lock a !! b = Some (my_pid (w_me w)) ->
  negb (sl_locked (lock_of i (w_st w)) =? 0) && (sl_pid (lock_of i (w_st w)) =? my_pid (w_me w)) = true.
Proof.
  intros Hr Hb Hl. destruct (rep_ref _ _ _ _ _ _ Hr Hb) as (x & Hi & Hx & Hd & Hbn & _ & _ & Hok).
  pose proof (bo_abs_lock _ _ _ _ Hok Hd) as Hlk. rewrite Hbn, Hl in Hlk. destruct Hlk as (H1 & H2 & _).
  rewrite (lock_of_bufs _ _ _ Hx), H1, H2. by rewrite Z.eqb_refl.
Qed.

Lemma wp_bio_bwrite a b i r (Q : () -> world bcache -> Prop) w :
  bio_rep D (w_st w) a -> no_bio_locks (w_held w) -> st_ref a !! b = Some (i, r) ->
  st_lock a !! b = Some (my_pid (w_me w)) ->
  (forall w', same_ctx w w' ->
     bio_rep D (w_st w') (Store (st_ref a) (st_lock a) (st_view a) (fupd (st_disk a) b (st_view a b))
       (st_writes a ++ [(b, st_view a b)])) -> Q () w') ->
  wp (Bio.bwrite i) Q w.
Proof.
  intros [order Hr] [_ Hnl] Hb Hl HQ. destruct (rep_ref _ _ _ _ _ _ Hr Hb) as (x & Hi & Hx & Hd & Hbn & Hrc & Hr0 & Hok).
  unfold Bio.bwrite. apply wp_bind, wp_holdingsleep; [apply Hnl|]. cbv zeta.
  rewrite (holdingsleep_own a order b i r) by done. cbn [negb].
  unfold virtio_disk_rw. eapply wp_bind, wp_load; [exact Hx|]. apply wp_bind, wp_get, wp_put.
  pose proof (bo_abs_lock _ _ _ _ Hok Hd) as Hlk. rewrite Hbn, Hl in Hlk. destruct Hlk as (Hlk1 & Hlk2 & Hv).
  pose proof (bo_data _ _ _ _ Hok Hd Hv) as Hdata. rewrite Hbn in Hdata.
  apply HQ; [done|]. exists order.
  eapply (rep_alter (w_st w) a order i x (fun z => z) b); try done; simpl; rewrite ?Hbn, ?Hdata.
  - by left.
  - intros k Hk. simpl. by rewrite fupd_other.
  - destruct Hok as [H1 H2 H3 H4 H5 H6]. split; simpl; rewrite ?Hbn in *; try done. congruence.
  - congruence.
  - by rewrite (alter_insert_eq _ i _ x Hx), list_insert_id.
  - intros k. unfold fupd. case_decide; [done|]. apply Hr.
  - by rewrite (br_writes _ _ _ _ Hr).
Qed.

(** Changing the reference count of a block in use to another positive one. *)
Lemma rep_set_ref s a order b i r r' :
  bio_rep_at D s a order -> st_ref a !! b = Some (i, r) -> 0 < r' < 2 ^ 32 ->
  bio_rep_at D (upd_bufs (alter (set_refcnt r') i) s)
    (Store (<[b := (i, r')]> (st_ref a)) (st_lock a) (st_view a) (st_disk a) (st_writes a)) order.
Proof.
  intros Hr Hb Hr'. destruct (rep_ref _ _ _ _ _ _ Hr Hb) as (x & Hi & Hx & Hd & Hbn & Hrc & Hr0 & Hok).
  eapply (rep_alter s a order i x (set_refcnt r') b); try done; simpl.
  - by left.
  - intros k Hk. simpl. by rewrite lookup_insert_ne.
  - destruct Hok as [H1 H2 H3 H4 H5 H6]. split; simpl; rewrite ?Hbn in *; try done; try lia.
    intros _. rewrite lookup_insert_eq, decide_False by lia. done.
  - lia.
  - intros Hv. apply (br_view _ _ _ _ Hr). intros j z Hj Hz Hzd Hzb.
    assert (j = i) as -> by (eapply (br_uniq _ _ _ _ Hr); [done|done|exact Hz|exact Hx|done|done|congruence]). congruence.
  - apply Hr.
  - apply Hr.
Qed.

Lemma wp_bio_bpin a b i r (Q : () -> world bcache -> Prop) w :
  bio_rep D (w_st w) a -> no_bio_locks (w_held w) -> st_ref a !! b = Some (i, r) -> r + 1 < 2 ^ 32 ->
  (forall w', same_ctx w w' ->
     bio_rep D (w_st w') (Store (<[b := (i, r + 1)]> (st_ref a)) (st_lock a) (st_view a) (st_disk a) (st_writes a)) ->
     Q () w') ->
  wp (Bio.bpin i) Q w.
Proof.
  intros [order Hr] [Hnl _] Hb Hmax HQ. destruct (rep_ref _ _ _ _ _ _ Hr Hb) as (x & Hi & Hx & Hd & Hbn & Hrc & Hr0 & Hok).
  unfold Bio.bpin. apply wp_bind, wp_acquire; [done|]. eapply wp_bind, wp_assign; [exact Hx|].
  eapply wp_release; [done|done|]. apply HQ; [done|]. exists order. simpl.
  pose proof (rep_set_ref _ _ _ _ _ _ (r + 1) Hr Hb) as H.
  pose proof (bo_ref _ _ _ _ Hok). unfold upd_bufs in *. rewrite !(alter_insert_eq _ i _ x Hx) in *. simpl in *.
  rewrite Hrc, u32_small in * by lia. apply H. lia.
Qed.

Lemma wp_bio_bunpin a b i r (Q : () -> world bcache -> Prop) w :
  bio_rep D (w_st w) a -> no_bio_locks (w_held w) -> st_ref a !! b = Some (i, r) -> 2 <= r ->
  (forall w', same_ctx w w' ->
     bio_rep D (w_st w') (Store (<[b := (i, r - 1)]> (st_ref a)) (st_lock a) (st_view a) (st_disk a) (st_writes a)) ->
     Q () w') ->
  wp (Bio.bunpin i) Q w.
Proof.
  intros [order Hr] [Hnl _] Hb Hmin HQ. destruct (rep_ref _ _ _ _ _ _ Hr Hb) as (x & Hi & Hx & Hd & Hbn & Hrc & Hr0 & Hok).
  unfold Bio.bunpin. apply wp_bind, wp_acquire; [done|]. eapply wp_bind, wp_assign; [exact Hx|].
  eapply wp_release; [done|done|]. apply HQ; [done|]. exists order. simpl.
  pose proof (rep_set_ref _ _ _ _ _ _ (r - 1) Hr Hb) as H.
  pose proof (bo_ref _ _ _ _ Hok). unfold upd_bufs in *. rewrite !(alter_insert_eq _ i _ x Hx) in *. simpl in *.
  rewrite Hrc, u32_small in * by lia. apply H. lia.
Qed.

(** ** brelse *)

(** Buffers that differ in their links only. *)
Definition same_but_links (x y : buf) : Prop :=
  b_valid y = b_valid x /\ b_dev y = b_dev x /\ b_blockno y = b_blockno x /\ b_lock y = b_lock x /\
  b_refcnt y = b_refcnt x /\ b_data y = b_data x.

Definition relinked (bs bs' : list buf) : Prop := Forall2 same_but_links bs bs'.

Lemma relinked_refl bs : relinked bs bs.
Proof. induction bs; constructor; [by repeat split|done]. Qed.

Lemma relinked_alter bs bs' (f : buf -> buf) i :
  (forall y, same_but_links y (f y)) -> relinked bs bs' -> relinked bs (alter f i bs').
Proof.
  intros Hf H. apply Forall2_alter_r; [done|]. intros x y _ _ (H1 & H2 & H3 & H4 & H5 & H6).
  destruct (Hf y) as (E1 & E2 & E3 & E4 & E5 & E6). split_and!; congruence.
Qed.

Lemma rep_relink s a order bs' order' :
  bio_rep_at D s a order -> relinked (bc_bufs s) bs' -> order' ≡ₚ order -> ring (nxt bs') (prv bs') HEAD order' ->
  bio_rep_at D (upd_bufs (fun _ => bs') s) a order'.
Proof.
  intros Hr Hre Hp Hring.
  assert (Hback : forall i y, bs' !! i = Some y -> exists x, bc_bufs s !! i = Some x /\ same_but_links x y).
  { intros i y Hy. by eapply Forall2_lookup_r. }
  assert (Hforw : forall i x, bc_bufs s !! i = Some x -> exists y, bs' !! i = Some y /\ same_but_links x y).
  { intros i x Hx. by eapply Forall2_lookup_l. }
  split; simpl.
  - rewrite <- (Forall2_length _ _ _ Hre). apply Hr.
  - rewrite Hp. apply Hr.
  - done.
  - intros i y Hi Hy. destruct (Hback i y Hy) as (x & Hx & (E1 & E2 & E3 & E4 & E5 & E6)).
    destruct (br_buf _ _ _ _ Hr i x Hi Hx) as [H1 H2 H3 H4 H5 H6].
    split; rewrite ?E1, ?E2, ?E3, ?E4, ?E5, ?E6; done.
  - intros i j x y Hi Hj Hx Hy. destruct (Hback i x Hx) as (x' & Hx' & (E1 & E2 & E3 & E4 & E5 & E6)).
    destruct (Hback j y Hy) as (y' & Hy' & (F1 & F2 & F3 & F4 & F5 & F6)). rewrite E2, E3, F2, F3.
    by eapply (br_uniq _ _ _ _ Hr).
  - intros b i r Hb. destruct (br_ref _ _ _ _ Hr b i r Hb) as (x & Hi & Hx & Hd & Hbn & Hrc & H0).
    destruct (Hforw i x Hx) as (y & Hy & (E1 & E2 & E3 & E4 & E5 & E6)). exists y. split_and!; try done; congruence.
  - apply Hr.
  - intros b Hb. apply (br_view _ _ _ _ Hr). intros i x Hi Hx Hd Hbn.
    destruct (Hforw i x Hx) as (y & Hy & (E1 & E2 & E3 & E4 & E5 & E6)). rewrite <- E1. apply (Hb i y); congruence.
  - apply Hr.
  - apply Hr.
Qed.

Lemma wp_assign_lt b f (Q : () -> world bcache -> Prop) w :
  (b < length (bc_bufs (w_st w)))%nat -> Q () (set_st (upd_bufs (alter f b) (w_st w)) w) -> wp (assign b f) Q w.
Proof. intros [x Hx]%lookup_lt_is_Some_2 HQ. by eapply wp_assign. Qed.

Lemma wp_load_lt b (Q : buf -> world bcache -> Prop) w :
  (b < length (bc_bufs (w_st w)))%nat -> (forall x, bc_bufs (w_st w) !! b = Some x -> Q x w) -> wp (load b) Q w.
Proof. intros [x Hx]%lookup_lt_is_Some_2 HQ. eapply wp_load; [exact Hx|by apply HQ]. Qed.

(** The end of [brelse]: buffer [i] moves to the front of the list. *)
Lemma wp_move_to_front a l1 i l2 x (Q : () -> world bcache -> Prop) w :
  bio_rep_at D (w_st w) a (l1 ++ i :: l2) -> bc_bufs (w_st w) !! i = Some x ->
  (forall s', bio_rep_at D s' a (i :: l1 ++ l2) -> Q () (set_st s' w)) ->
  wp (assign (b_next x) (set_prev (b_prev x));;
      assign (b_prev x) (set_next (b_next x));;
      h ← load HEAD;
      assign i (set_next (b_next h));;
      assign i (set_prev HEAD);;
      h ← load HEAD;
      assign (b_next h) (set_prev i);;
      assign HEAD (set_next i)) Q w.
Proof.
  intros Hr Hx HQ. set (bs := bc_bufs (w_st w)) in *.
  pose proof (order_nodup _ (br_perm _ _ _ _ Hr)) as Hnd. pose proof (br_ring _ _ _ _ Hr) as Hring. fold bs in Hring.
  assert (Hnd' : NoDup (i :: HEAD :: l1 ++ l2)).
  { eapply NoDup_Permutation_proper; [|exact Hnd]. by rewrite perm_swap, Permutation_middle. }
  apply NoDup_cons in Hnd' as [Hnin Hnd'].
  assert (Hlen : length bs = S NBUF) by apply Hr.
  assert (Hlt : forall j, j ∈ HEAD :: l1 ++ i :: l2 -> (j < length bs)%nat).
  { intros j [->|Hj]%elem_of_cons; rewrite Hlen; [unfold HEAD; lia|].
    apply (order_lt _ j (br_perm _ _ _ _ Hr)) in Hj. lia. }
  assert (Hxn : b_next x = nxt bs i) by (unfold nxt; by rewrite Hx).
  assert (Hxp : b_prev x = prv bs i) by (unfold prv; by rewrite Hx).
  assert (Hil : (i < length bs)%nat) by (by eapply lookup_lt_Some).
  assert (Hnl : (nxt bs i < length bs)%nat).
  { apply Hlt. rewrite (ring_next _ _ _ _ _ _ Hring). destruct l2 as [|j l2]; simpl; [left|].
    right. apply elem_of_app. right. right. left. }
  assert (Hpl : (prv bs i < length bs)%nat).
  { apply Hlt. rewrite (ring_prev _ _ _ _ _ _ Hring). pose proof (last_in HEAD l1) as Hin.
    apply elem_of_cons in Hin as [->|Hin]; [left|]. right. apply elem_of_app. by left. }
  assert (Hih : i <> HEAD) by (intros ->; apply NoDup_cons in Hnd as [Hn _]; apply Hn, elem_of_app; right; left).
  rewrite Hxn, Hxp.
  apply wp_bind, wp_assign_lt; [done|]. apply wp_bind, wp_assign_lt; [simpl; by rewrite length_alter|].
  set (bs2 := alter (set_next (nxt bs i)) (prv bs i) (alter (set_prev (prv bs i)) (nxt bs i) bs)).
  assert (Hring2 : ring (nxt bs2) (prv bs2) HEAD (l1 ++ l2)).
  { eapply ring_ext; [| | |by apply ring_remove].
    - intros j _. unfold bs2. rewrite set_next_nxt by (by rewrite length_alter). unfold nupd. case_decide; [done|].
      by apply alter_nxt.
    - intros j _. unfold bs2. rewrite alter_prv by done. by apply set_prev_prv.
    - done. }
  apply wp_bind, wp_load_lt; [simpl; rewrite !length_alter; fold bs; rewrite Hlen; unfold HEAD; lia|].
  intros h Hh. cbn in Hh. fold bs bs2 in Hh.
  assert (Hhn : b_next h = nxt bs2 HEAD) by (unfold nxt; by rewrite Hh). rewrite Hhn.
  assert (Hcl : (nxt bs2 HEAD < length bs)%nat).
  { rewrite (proj1 (ring_head _ _ _ _ Hring2)). apply Hlt. destruct l1 as [|j l1]; simpl.
    - destruct l2 as [|j l2]; simpl; [left|]. right. right. left.
    - right. left. }
  apply wp_bind, wp_assign_lt; [simpl; by rewrite !length_alter|].
  apply wp_bind, wp_assign_lt; [simpl; by rewrite !length_alter|].
  apply wp_bind, wp_load_lt; [simpl; rewrite !length_alter; fold bs; rewrite Hlen; unfold HEAD; lia|].
  intros h' Hh'. cbn in Hh'. fold bs bs2 in Hh'. rewrite !list_lookup_alter_ne in Hh' by done.
  assert (h' = h) as -> by congruence. rewrite Hhn.
  apply wp_bind, wp_assign_lt; [simpl; by rewrite !length_alter|].
  apply wp_assign_lt; [simpl; rewrite !length_alter; fold bs; rewrite Hlen; unfold HEAD; lia|].
  simpl. apply HQ.
  change (bio_rep_at D (upd_bufs (fun _ => alter (set_next i) HEAD (alter (set_prev i) (nxt bs2 HEAD)
    (alter (set_prev HEAD) i (alter (set_next (nxt bs2 HEAD)) i bs2)))) (w_st w)) a (i :: l1 ++ l2)).
  assert (Hlen2 : length bs2 = length bs) by (unfold bs2; by rewrite !length_alter).
  assert (Hre2 : relinked bs bs2) by (repeat (apply relinked_alter; [by repeat split|]); apply relinked_refl).
  clearbody bs2. eapply (rep_relink (w_st w) a (l1 ++ i :: l2)); [done| | |].
  - repeat (apply relinked_alter; [by repeat split|]). done.
  - apply Permutation_middle.
  - eapply ring_ext; [| | |apply (lru_insert (nxt bs2) (prv bs2) HEAD i (l1 ++ l2)); [| |done]].
    + intros j _. rewrite set_next_nxt by (rewrite !length_alter, Hlen2, Hlen; unfold HEAD; lia).
      unfold nupd. case_decide; [done|]. rewrite alter_nxt, alter_nxt by done.
      by rewrite set_next_nxt by lia.
    + intros j _. rewrite alter_prv by done. rewrite set_prev_prv by (rewrite !length_alter; lia).
      unfold nupd. case_decide; [done|]. rewrite set_prev_prv by (rewrite !length_alter; lia).
      unfold nupd. case_decide; [done|]. by apply alter_prv.
    + eapply NoDup_Permutation_proper; [|exact Hnd]. apply perm_skip, Permutation_middle.
    + done.
    + done.
Qed.

(** Unlocking a block and dropping a reference to it. *)
Lemma rep_release s a order b i r lk :
  bio_rep_at D s a order -> st_ref a !! b = Some (i, r) -> sl_locked lk = 0 ->
  (r = 1 -> st_view a b = st_disk a b) ->
  bio_rep_at D (upd_bufs (alter (fun x => set_refcnt (r - 1) (set_block_lock lk x)) i) s)
    (Store (if decide (r = 1) then delete b (st_ref a) else <[b := (i, r - 1)]> (st_ref a))
       (delete b (st_lock a)) (st_view a) (st_disk a) (st_writes a)) order.
Proof.
  intros Hr Hb Hlk Hvd. destruct (rep_ref _ _ _ _ _ _ Hr Hb) as (x & Hi & Hx & Hd & Hbn & Hrc & Hr0 & Hok).
  pose proof (bo_ref _ _ _ _ Hok) as Hrange. rewrite Hrc in Hrange.
  eapply (rep_alter s a order i x (fun x => set_refcnt (r - 1) (set_block_lock lk x)) b); try done; simpl.
  - by left.
  - intros k Hk. simpl. rewrite lookup_delete_ne by done. case_decide; by rewrite ?lookup_delete_ne, ?lookup_insert_ne.
  - destruct Hok as [H1 H2 H3 H4 H5 H6]. split; simpl; rewrite ?Hbn in *; try done; try lia.
    + intros _. destruct (decide (r = 1)) as [E|E].
      * rewrite lookup_delete_eq, decide_True by lia. done.
      * rewrite lookup_insert_eq, decide_False by lia. done.
    + intros _. by rewrite lookup_delete_eq.
    + intros _ E. apply Hvd. lia.
  - rewrite lookup_delete_eq. by intros [].
  - intros Hv. apply (br_view _ _ _ _ Hr). intros j z Hj Hz Hzd Hzb.
    assert (j = i) as -> by (eapply (br_uniq _ _ _ _ Hr); [done|done|exact Hz|exact Hx|done|done|congruence]). congruence.
  - apply Hr.
  - apply Hr.
Qed.

Lemma filter_out_mid l1 (i : nat) l2 : NoDup (l1 ++ i :: l2) -> filter (fun j => j <> i) (l1 ++ i :: l2) = l1 ++ l2.
Proof.
  intros Hnd. apply NoDup_app in Hnd as (_ & Hd & Hnd). apply NoDup_cons in Hnd as [Hi _].
  rewrite filter_app, filter_cons_False by naive_solver.
  rewrite !filter_neq_notin; [done|done|]. intros Hin. apply (Hd i Hin). left.
Qed.

Lemma wp_bio_brelse a order b i r (Q : () -> world bcache -> Prop) w :
  bio_rep_at D (w_st w) a order -> no_bio_locks (w_held w) -> st_ref a !! b = Some (i, r) ->
  st_lock a !! b = Some (my_pid (w_me w)) -> (r = 1 -> st_view a b = st_disk a b) ->
  (forall w' order', same_ctx w w' -> order' = (if decide (r = 1) then i :: filter (fun j => j <> i) order else order) ->
     bio_rep_at D (w_st w') (Store (if decide (r = 1) then delete b (st_ref a) else <[b := (i, r - 1)]> (st_ref a))
       (delete b (st_lock a)) (st_view a) (st_disk a) (st_writes a)) order' -> Q () w') ->
  wp (Bio.brelse i) Q w.
Proof.
  intros Hr [Hnb Hnl] Hb Hl Hvd HQ.
  destruct (rep_ref _ _ _ _ _ _ Hr Hb) as (x & Hi & Hx & Hd & Hbn & Hrc & Hr0 & Hok).
  pose proof (bo_ref _ _ _ _ Hok) as Hrange. rewrite Hrc in Hrange.
  unfold Bio.brelse. apply wp_bind, wp_holdingsleep; [apply Hnl|]. cbv zeta.
  rewrite (holdingsleep_own a order b i r) by done. cbn [negb].
  apply wp_bind, wp_releasesleep; [apply Hnl|]. rewrite (lock_of_bufs _ _ _ Hx).
  set (lk := Sleeplock 0 (sl_name (b_lock x)) 0).
  apply wp_bind, wp_acquire; [done|].
  eapply wp_bind, wp_assign; [simpl; apply lookup_alter_eq; exact Hx|].
  set (s1 := upd_bufs (alter (fun x => set_refcnt (r - 1) (set_block_lock lk x)) i) (w_st w)).
  assert (Hs1 : forall f, (forall z, f (set_block_lock lk z) = set_refcnt (u32 (b_refcnt z - 1)) (set_block_lock lk z)) ->
    upd_bufs (alter f i) (set_lock_of i (w_st w) lk) = s1).
  { intros f Hf. unfold s1, set_lock_of, upd_bufs. simpl. f_equal.
    rewrite alter_alter_eq, !(alter_insert_eq _ i _ x Hx), Hf, Hrc, u32_small by lia. done. }
  cbn [w_st set_held set_st add_ev]. rewrite Hs1 by done.
  assert (Hx1 : bc_bufs s1 !! i = Some (set_refcnt (r - 1) (set_block_lock lk x))).
  { unfold s1. simpl. by apply (lookup_alter_eq (fun x => set_refcnt (r - 1) (set_block_lock lk x))). }
  pose proof (rep_release (w_st w) a order b i r lk Hr Hb eq_refl Hvd) as Hr1. fold s1 in Hr1.
  eapply wp_bind, wp_load; [exact Hx1|]. cbn [set_refcnt b_refcnt].
  destruct (Z.eqb_spec (r - 1) 0) as [E|E].
  - assert (Hio : i ∈ order) by (by apply (order_lt order); [apply Hr|]).
    apply list_elem_of_split in Hio as (l1 & l2 & ->).
    eapply wp_bind, (wp_move_to_front _ l1 i l2); [exact Hr1|exact Hx1|].
    intros s' Hr'. eapply wp_release; [done|done|]. apply (HQ _ (i :: l1 ++ l2)); [done| |done].
    rewrite decide_True by lia. f_equal. symmetry. apply filter_out_mid.
    pose proof (order_nodup _ (br_perm _ _ _ _ Hr)) as Hnd. by apply NoDup_cons in Hnd as [_ ?].
  - apply wp_bind, wp_ret. eapply wp_release; [done|done|]. apply (HQ _ order); [done| |done].
    by rewrite decide_False by lia.
Qed.
End spec.

(** The cache implements the interface. *)
#[global] Instance bio_laws (D : Z) : BlockLaws bcache D.
Proof.
  refine {| bc_rep := bio_rep D |}.
  - intros a b Q w [order Hr] Hnl Hb Hl Hav Hmax HQ. eapply wp_bio_bread; [done..|].
    intros i w' Hc Hj _ Hr'. apply HQ; [done..|]. by exists order.
  - intros. by eapply wp_bio_blockno.
  - intros. by eapply wp_bio_data.
  - intros. by eapply wp_bio_set_data.
  - intros. by eapply wp_bio_bwrite.
  - intros a b i r Q w [order Hr] Hnl Hb Hl Hv HQ. eapply wp_bio_brelse; [done..|].
    intros w' order' Hc _ Hr'. apply HQ; [done|]. by exists order'.
  - intros. by eapply wp_bio_bpin.
  - intros. by eapply wp_bio_bunpin.
Defined.
