(* ===== verification/BioProps.v ===== *)
(** Properties of the buffer cache: initialisation, recycling, and refinement
    of a machine that has blocks and no buffers. *)

From S2P Require Import Prelude KMonad Sleeplock BlockStore Bio BioSpec.

(** ** Initialisation *)

(** The cache as the C program starts: static storage is zero. *)
Definition zero_buf : buf := Buf 0 0 0 null_lock 0 0 0 (repeat 0 (Z.to_nat BSIZE)).
Definition zero_cache (disk : Z -> list Z) : bcache := Bcache (repeat zero_buf (S NBUF)) disk [].

(** The store of an empty cache over [disk]. *)
Definition empty_store (disk : Z -> list Z) : store := Store ∅ ∅ disk disk [].

Definition fresh (x : buf) : Prop := b_dev x = 0 /\ b_refcnt x = 0 /\ sl_locked (b_lock x) = 0.

Lemma Forall_alter_fresh (f : buf -> buf) i bs :
  (forall x, fresh x -> fresh (f x)) -> Forall fresh bs -> Forall fresh (alter f i bs).
Proof. intros Hf H. apply Forall_alter; [done|]. intros x _. apply Hf. Qed.

(** Where [binit] has got to: the first [k] buffers are linked. *)
Record linked_up_to (s : bcache) (k : nat) : Prop := {
  lk_len : length (bc_bufs s) = S NBUF;
  lk_fresh : Forall fresh (bc_bufs s);
  lk_ring : ring (nxt (bc_bufs s)) (prv (bc_bufs s)) HEAD (rev (seq 0 k)) }.

Lemma rev_seq_nodup k : (k <= NBUF)%nat -> NoDup (HEAD :: rev (seq 0 k)).
Proof.
  intros Hk. rewrite <- Permutation_rev. apply NoDup_cons. split; [|apply NoDup_seq].
  rewrite elem_of_seq. unfold HEAD. lia.
Qed.

Lemma wp_binit_one k w :
  linked_up_to (w_st w) k -> (k < NBUF)%nat ->
  wp (binit_one k) (fun _ w' => exists bs, w' = set_st (upd_bufs (fun _ => bs) (w_st w)) w /\
    linked_up_to (w_st w') (S k)) w.
Proof.
  intros [Hlen Hfr Hring] Hk. set (bs := bc_bufs (w_st w)) in *.
  assert (Hh : (HEAD < length bs)%nat) by (rewrite Hlen; unfold HEAD; lia).
  assert (Hkh : k <> HEAD) by (unfold HEAD; lia).
  assert (Hc : (nxt bs HEAD < length bs)%nat).
  { rewrite (proj1 (ring_head _ _ _ _ Hring)). destruct (rev (seq 0 k)) as [|c l] eqn:E; [done|]. simpl.
    assert (Hin : c ∈ rev (seq 0 k)) by (rewrite E; left). rewrite <- Permutation_rev, elem_of_seq in Hin. lia. }
  unfold binit_one. apply wp_bind, wp_load_lt; [done|]. intros h Hhd. fold bs in Hhd.
  assert (Hn : b_next h = nxt bs HEAD) by (unfold nxt; by rewrite Hhd). rewrite Hn.
  apply wp_bind, wp_assign_lt; [simpl; fold bs; lia|].
  apply wp_bind, wp_assign_lt; [simpl; rewrite length_alter; fold bs; lia|].
  apply wp_bind, wp_assign_lt; [simpl; rewrite !length_alter; fold bs; lia|].
  apply wp_bind, wp_load_lt; [simpl; by rewrite !length_alter|].
  intros h' Hhd'. cbn in Hhd'. rewrite !list_lookup_alter_ne in Hhd' by done. fold bs in Hhd'.
  assert (h' = h) as -> by congruence. rewrite Hn.
  apply wp_bind, wp_assign_lt; [simpl; by rewrite !length_alter|].
  apply wp_assign_lt; [simpl; by rewrite !length_alter|].
  eexists. split; [reflexivity|]. split; cbn [w_st set_st upd_bufs bc_bufs]; fold bs.
  - by rewrite !length_alter.
  - repeat (apply Forall_alter_fresh; [by intros x (? & ? & ?)|]). done.
  - rewrite seq_S, rev_app_distr. cbn [rev app Nat.add].
    eapply ring_ext; [| | |apply (lru_insert (nxt bs) (prv bs) HEAD k (rev (seq 0 k))); [by apply rev_seq_nodup; lia| |done]].
    + intros j _. rewrite set_next_nxt by (by rewrite !length_alter). unfold nupd. case_decide; [done|].
      rewrite !alter_nxt by done. by rewrite set_next_nxt by lia.
    + intros j _. rewrite alter_prv by done. rewrite set_prev_prv by (by rewrite !length_alter). unfold nupd.
      case_decide; [done|]. rewrite alter_prv by done. rewrite set_prev_prv by (rewrite !length_alter; lia).
      unfold nupd. case_decide; [done|]. by rewrite alter_prv.
    + pose proof (rev_seq_nodup (S k) ltac:(lia)) as Hnd. by rewrite seq_S, rev_app_distr in Hnd.
    + intros [?|Hin]%elem_of_cons; [done|]. rewrite <- Permutation_rev, elem_of_seq in Hin. lia.
Qed.

Lemma wp_binit_loop : forall n k w,
  linked_up_to (w_st w) k -> (k + n = NBUF)%nat ->
  wp (binit_loop n k) (fun _ w' => exists bs, w' = set_st (upd_bufs (fun _ => bs) (w_st w)) w /\
    linked_up_to (w_st w') NBUF) w.
Proof.
  induction n as [|n IH]; intros k w Hl Hk; cbn [binit_loop].
  - replace NBUF with k by lia. apply wp_ret. exists (bc_bufs (w_st w)). by destruct w as [? ? ? []].
  - eapply wp_bind, wp_mono; [|apply wp_binit_one; [done|lia]]. intros [] w' (bs & -> & Hl').
    eapply wp_mono; [|apply IH; [done|lia]]. intros [] w' (bs' & -> & Hl''). exists bs'. done.
Qed.

Lemma linked_rep D s disk :
  D <> 0 -> linked_up_to s NBUF -> bc_disk s = disk -> bc_writes s = [] -> bio_rep D s (empty_store disk).
Proof.
  intros HD [Hlen Hfr Hring] Hd Hw. exists (rev (seq 0 NBUF)). rewrite Forall_lookup in Hfr.
  split; simpl; try done.
  - symmetry. apply Permutation_rev.
  - intros i x Hi Hx. destruct (Hfr i x Hx) as (H1 & H2 & H3). split; try (by intros; congruence); [by rewrite H2|done].
  - intros i j x y Hi Hj Hx Hy Hdx. destruct (Hfr i x Hx) as (H1 & _). congruence.
  - intros b. by rewrite Hd.
Qed.

Lemma wp_binit D disk w :
  D <> 0 -> w_st w = zero_cache disk ->
  wp binit (fun _ w' => same_ctx w w' /\ bio_rep D (w_st w') (empty_store disk) /\ Forall fresh (bc_bufs (w_st w'))) w.
Proof.
  intros HD Hw. unfold binit.
  assert (Hlen : length (bc_bufs (w_st w)) = S NBUF) by (by rewrite Hw).
  apply wp_bind, wp_assign_lt; [rewrite Hlen; unfold HEAD; lia|].
  apply wp_bind, wp_assign_lt; [simpl; rewrite length_alter, Hlen; unfold HEAD; lia|].
  eapply wp_mono; [|apply wp_binit_loop; [|done]].
  - intros [] w' (bs & -> & Hl). split; [done|]. split; [|apply Hl].
    apply (linked_rep D); [done|done|..]; simpl; by rewrite Hw.
  - rewrite Hw. split; [done| |done].
    repeat (apply Forall_alter_fresh; [by intros x (? & ? & ?)|]). apply Forall_forall. by intros x ->%list_elem_of_In%repeat_spec.
Qed.

(** ** Properties *)

(** C3: from the zeroed cache, [binit] followed by any sequence of [bread],
    stores to buffers, [bwrite], [brelse], [bpin] and [bunpin] that the
    machine on blocks allows returns without panic, every [bread] gives the
    data the machine gives, and the final cache represents the machine's
    final state: recycling buffers loses no data, and a block is in at most
    one buffer. *)
Theorem bio_refines_blocks (D : Z) (disk : Z -> list Z) (os : list bop) (t' : blocks) (outs : list (list Z)) w :
  D <> 0 -> w_st w = zero_cache disk -> no_bio_locks (w_held w) ->
  blocks_run (my_pid (w_me w)) (Blocks ∅ ∅ disk disk) os = Some (t', outs) ->
  wp (binit;; cache_run D ∅ os) (fun r w' => r = outs /\
    exists a hs, bio_rep D (w_st w') a /\ store_blocks a t' hs) w.
Proof.
  intros HD Hw Hnl Hrun. eapply wp_bind, wp_mono; [|by apply (wp_binit D disk)].
  intros [] w1 ([Hm Hh] & Hr & _). eapply wp_mono; [|eapply (cache_run_refines D); [exact Hr|by rewrite Hh| |by rewrite Hm]].
  - done.
  - split; simpl; [by rewrite fmap_empty|done..|]. intros b [p Hp]. by rewrite lookup_empty in Hp.
Qed.

(** Replacement is least recently used: a [bread] of a block that is not
    cached takes the unused buffer that comes last in the list, the one whose
    last release is the oldest; a [brelse] that gives up the last reference
    moves the buffer to the front and keeps the order of the others. *)
Theorem bio_lru (D : Z) a order b (i : nat) w :
  bio_rep_at D (w_st w) a order -> no_bio_locks (w_held w) ->
  (st_lock a !! b = None -> (size (st_ref a) < NBUF)%nat ->
   (forall j, (j < NBUF)%nat -> holds (bc_bufs (w_st w)) D b j = false) ->
   wp (bread D b) (fun i w' => lru_choice (bc_bufs (w_st w)) order i /\
     bio_rep_at D (w_st w') (locked_store a b i (my_pid (w_me w))) order) w) /\
  (st_lock a !! b = Some (my_pid (w_me w)) -> st_ref a !! b = Some (i, 1) -> st_view a b = st_disk a b ->
   wp (brelse i) (fun _ w' => exists a', bio_rep_at D (w_st w') a' (i :: filter (fun j => j <> i) order)) w).
Proof.
  intros Hr Hnl. split.
  - intros Hl Hsz Hno. eapply wp_bio_bread; [done..|by right| |].
    + intros j r Hj. destruct (not_cached D _ _ _ _ Hr Hno) as [E _]. congruence.
    + intros j w' _ _ Hlru Hr'. split; [by apply Hlru|done].
  - intros Hl Hi Hv. eapply wp_bio_brelse; [done..|]. intros w' order' _ -> Hr'. by eexists.
Qed.

(** ** Witnesses *)

Definition ex_disk : Z -> list Z := fun b => repeat (b mod 256) (Z.to_nat BSIZE).
Definition ex_cache_world : world bcache := World (Me 0 7 0 0) [] [] (zero_cache ex_disk).

Lemma ex_no_bio_locks : no_bio_locks [].
Proof. split; [apply not_elem_of_nil|]. intros i. apply not_elem_of_nil. Qed.

Lemma bio_refines_blocks_witness :
  exists w', (binit;; cache_run 1 ∅ [BRead 3; BSet 3 (ex_disk 9); BWrite 3; BRelse 3; BRead 3]) ex_cache_world =
    Ok [ex_disk 3; ex_disk 9] w'.
Proof.
  destruct (wp_elim _ _ _ (bio_refines_blocks 1 ex_disk [BRead 3; BSet 3 (ex_disk 9); BWrite 3; BRelse 3; BRead 3]
    _ [ex_disk 3; ex_disk 9] ex_cache_world ltac:(lia) eq_refl ex_no_bio_locks ltac:(reflexivity)))
    as (r & w' & Hrun & -> & _).
  exists w'. exact Hrun.
Defined.

Lemma bio_lru_witness :
  exists w i w', bread 1 5 w = Ok i w' /\ unused (bc_bufs (w_st w)) i = true.
Proof.
  destruct (wp_elim _ _ _ (wp_binit 1 ex_disk ex_cache_world ltac:(lia) eq_refl))
    as ([] & w1 & _ & [_ Hh] & [order Hr] & Hfr).
  assert (Hnl : no_bio_locks (w_held w1)) by (rewrite Hh; apply ex_no_bio_locks).
  destruct (bio_lru 1 (empty_store ex_disk) order 5 0 w1 Hr Hnl) as [Hread _].
  destruct (wp_elim _ _ _ (Hread (lookup_empty _) ltac:(vm_compute; lia)
    ltac:(intros j _; unfold holds; rewrite Forall_lookup in Hfr; destruct (bc_bufs (w_st w1) !! j) as [x|] eqn:E;
          [destruct (Hfr j x E) as (-> & _)|]; reflexivity))) as (i & w' & Hb & (l1 & l2 & _ & Hu & _) & _).
  exists w1, i, w'. split; [exact Hb|exact Hu].
Defined.
