(* ===== verification/LogProps.v ===== *)
(** Properties of the log on the buffer cache of Bio.v: crashes, recovery and
    atomic transactions. *)

From S2P Require Import Prelude KMonad Bytes Sleeplock BlockStore Log LogSpec LogCrash LogOps Bio BioSpec BioProps.

Section boot.
Context (D : Z) (sb : superblock).

(** [struct log] as the C program starts. *)
Definition zero_log : log := Log 0 0 0 0 0 0 (repeat 0 (Z.to_nat LOGSIZE)).

(** The log of the file system, its header empty. *)
Definition fs_log : log := Log (sb_logstart sb) (sb_nlog sb) 0 0 D 0 (repeat 0 (Z.to_nat LOGSIZE)).

(** The file system mkfs makes: the log starts at a block that has a number,
    and does not exceed the header. *)
Record sb_ok : Prop := {
  so_start : 0 <= sb_logstart sb;
  so_end : sb_logstart sb + LOGSIZE + 1 < 2 ^ 31;
  so_nlog : sb_nlog sb <= LOGSIZE }.

(** The kernel at boot, over the disk [d]: all static data is zero. *)
Record boots (d : Z -> list Z) (w : world (logst bcache)) : Prop := {
  bt_dev : D <> 0;
  bt_sb : sb_ok;
  bt_wf : wf_disk d;
  bt_cache : l_bio (w_st w) = zero_cache d;
  bt_log : l_log (w_st w) = zero_log;
  bt_held : no_bio_locks (w_held w) /\ (L_log ∉ w_held w) }.

Definition boot : M (logst bcache) () := bio binit;; initlog D sb.

(** The blocks the disk has been given since boot. *)
Definition written_blocks (w : world (logst bcache)) : list (Z * list Z) := bc_writes (l_bio (w_st w)).

Lemma lw_writes (w : world (logst bcache)) a g : lw (laws := bio_laws D) w a g -> written_blocks w = st_writes a.
Proof. intros [[order Hr] _]. apply Hr. Qed.

Lemma lw_disk (w : world (logst bcache)) a g b :
  lw (laws := bio_laws D) w a g -> 0 <= b < 2 ^ 32 -> bc_disk (l_bio (w_st w)) b = st_disk a b.
Proof. intros [[order Hr] _] Hb. by apply Hr. Qed.

(** Booting on a disk that recovers to [v]: recovery runs to its end, and
    whatever prefix of its writes reaches the disk, the disk still recovers to
    [v]. *)
Lemma wp_boot d v w :
  boots d w -> recovers_to fs_log d v ->
  wp boot (fun _ w' => same_ctx w w' /\ exists a g, lw (laws := bio_laws D) w' a g /\
    log_txs (dev := D) g a (Txs 0 v v []) /\ lg_start g = sb_logstart sb /\ lg_size g = sb_nlog sb /\
    st_disk a = apply_writes d (st_writes a) /\ wf_writes (st_writes a) /\
    always (fun d' => recovers_to fs_log d' v) d (st_writes a) /\ clean fs_log (apply_writes d (st_writes a)) v) w.
Proof.
  intros [HD [Hs He Hz] Hwf Hca Hlg [Hnl Hl]] Hrec. unfold boot.
  apply wp_bind, wp_bio. eapply wp_mono; [|by apply (wp_binit D d)]. intros [] w1 ([Hm1 Hh1] & Hr1 & _). simpl in *.
  unfold initlog. change (sizeof_logheader >=? BSIZE) with false. cbv iota.
  set (w2 := with_bio w w1). assert (Hw2 : lw (laws := bio_laws D) w2 (empty_store d) zero_log) by (by split).
  eapply wp_bind, (lw_modlog (laws := bio_laws D)); [exact Hw2|]. intros w3 Hc3 Hw3.
  change (lw (laws := bio_laws D) w3 (empty_store d) fs_log) in Hw3. assert (Hc13 : same_ctx w w3) by (etrans; [|exact Hc3]; done).
  eapply wp_mono, (wp_recover (laws := bio_laws D) fs_log (empty_store d) v w3); try done.
  - intros [] w4 [Hc4 (ws & bl & Hw4 & Hbl & Hwfs & Ha & Hcl)]. split; [by etrans|]. do 2 eexists. split; [exact Hw4|].
    pose proof Hcl as [_ _ _ Hhdr _ _ Hhome]. simpl in *. split_and!; try done.
    assert (Hv : forall b, home fs_log b -> apply_writes d ws b = v b)
      by (intros b Hb; apply Hhome; [done|apply not_elem_of_nil]).
    split; simpl; try done. split; simpl; try done; try lia; [apply NoDup_nil_2|by intros h ?%elem_of_nil|].
    by apply wf_apply_writes.
  - by rewrite (proj2 Hc13).
Qed.

(** *** Running system calls after boot *)

(** What is known after [boot] and a sequence of operations. *)
Record ran (d v : Z -> list Z) (os : list txop) (t' : txs) (w w' : world (logst bcache)) : Prop := {
  rn_ctx : same_ctx w w';
  rn_state : exists a g, lw (laws := bio_laws D) w' a g /\ log_txs (dev := D) g a t' /\ lg_start g = sb_logstart sb /\
    lg_size g = sb_nlog sb;
  rn_wf : wf_writes (written_blocks w');
  rn_safe : always (recovers_along (sb_nlog sb) fs_log (Txs 0 v v []) os) d (written_blocks w');
  rn_last : recovers_to fs_log (apply_writes d (written_blocks w')) (tx_com t') }.

Lemma wp_boot_run d v os t' w :
  boots d w -> recovers_to fs_log d v -> Forall (op_ok fs_log) os ->
  tx_run (sb_nlog sb) (Txs 0 v v []) os = Some t' ->
  wp (boot;; run_ops (dev := D) os) (fun _ => ran d v os t' w) w.
Proof.
  intros Hb Hrec Hok Hrun. pose proof (bt_held _ _ Hb) as [Hnl Hl].
  eapply wp_call; [by apply (wp_boot d v)|].
  intros _ w1 [Hc1 (a & g & Hw1 & Ht & Hs & Hz & Hd & Hwf1 & Ha & _)].
  assert (Hh : w_held w1 = w_held w) by apply Hc1.
  eapply wp_mono, (wp_run_ops (laws := bio_laws D) os g a _ t' w1 Ht Hw1);
    [|by rewrite Hh|by rewrite Hh| |by rewrite Hz].
  2:{ eapply Forall_impl; [exact Hok|]. intros [|b x|]; simpl; [done| |done]. unfold home. by rewrite Hs. }
  intros _ w2 [Hc2 (a' & g' & ws & Hw2 & Ht' & Hs' & Hz' & Hws & Hd' & Hwf2 & Ha')].
  assert (Hext : forall d0 v0, recovers_to g d0 v0 -> recovers_to fs_log d0 v0)
    by (intros d0 v0 Hr; by eapply recovers_ext, Hr).
  assert (E : written_blocks w2 = st_writes a ++ ws) by (by rewrite (lw_writes _ _ _ Hw2)).
  split; rewrite ?E; [by etrans| | | |].
  - exists a', g'. split_and!; [done|done|by rewrite Hs', Hs|by rewrite Hz', Hz].
  - by apply Forall_app.
  - apply always_app; [|rewrite <- Hd]; [eapply always_mono, Ha|eapply always_mono, Ha'].
    + intros d0 Hr. exists 0%nat, (Txs 0 v v []). by split.
    + intros d0 (k & tk & Hk & Hr). exists k, tk. rewrite <- Hz. split; [done|by apply Hext].
  - rewrite apply_writes_app, <- Hd, <- Hd'. apply Hext. eapply recovers_ext, (log_txs_recovers (dev := D)), Ht'; [|done].
    by rewrite Hs'.
Qed.

(** *** Repeated crashes *)

(** [d'] is the disk after any number of boots from [d], each of which
    crashes after some of its writes. *)
Inductive reboots : (Z -> list Z) -> (Z -> list Z) -> Prop :=
| reboots_done d : reboots d d
| reboots_crash d d' w w' k :
    boots d w -> boot w = Ok () w' -> reboots (apply_writes d (take k (written_blocks w'))) d' -> reboots d d'.

Lemma reboots_recover d d' v : reboots d d' -> recovers_to fs_log d v -> recovers_to fs_log d' v.
Proof.
  intros Hr. induction Hr as [|d d' w w' k Hb Hrun Hr IH]; intros Hrec; [done|]. apply IH.
  destruct (wp_elim _ _ _ (wp_boot d v w Hb Hrec)) as (x & w2 & Hrun2 & _ & a & g & Hw2 & _ & _ & _ & _ & _ & Ha & _).
  assert (w2 = w') as -> by congruence. rewrite (lw_writes _ _ _ Hw2). apply Ha.
Qed.
End boot.

(** ** The bound on operations *)

(** Writes of distinct blocks in the machine. *)
Lemma tx_run_writes size x bs : forall t,
  length x = Z.to_nat BSIZE -> 1 <= tx_out t -> NoDup (tx_blocks t ++ bs) ->
  Z.of_nat (length (tx_blocks t ++ bs)) < size ->
  exists t', tx_run size t (map (fun b => OpWrite b x) bs) = Some t' /\
    tx_out t' = tx_out t /\ tx_blocks t' = tx_blocks t ++ bs.
Proof.
  induction bs as [|b bs IH]; intros t Hx Ho Hnd Hl; cbn [map tx_run].
  { exists t. by rewrite app_nil_r. }
  rewrite length_app in Hl. simpl in Hl. cbn [tx_step]. rewrite (proj2 (Z.leb_le _ _)) by done.
  rewrite (proj2 (Z.ltb_lt _ _)) by lia. rewrite bool_decide_true by done. simpl.
  assert (Hb : add_block b (tx_blocks t) = tx_blocks t ++ [b]).
  { unfold add_block. rewrite decide_False; [done|]. apply NoDup_app in Hnd as (_ & Hd & _). intros Hin.
    apply (Hd b Hin). left. }
  destruct (IH (Txs (tx_out t) (fupd (tx_cur t) b x) (tx_com t) (add_block b (tx_blocks t)))) as (t' & H1 & H2 & H3); try done.
  - simpl. by rewrite Hb, <- app_assoc.
  - simpl. rewrite Hb, !length_app. simpl. lia.
  - exists t'. split_and!; [done..|]. simpl in H3. by rewrite H3, Hb, <- app_assoc.
Qed.

Lemma tx_run_app size os1 : forall t os2, tx_run size t (os1 ++ os2) = (t' ← tx_run size t os1; tx_run size t' os2).
Proof. induction os1 as [|o os1 IH]; intros t os2; [done|]. simpl. destruct (tx_step size t o); [apply IH|done]. Qed.

(** A full log: the next [log_write] panics. *)
Lemma full_log_panics D (g : log) a t b x (w : world (logst bcache)) :
  lw (laws := bio_laws D) w a g -> log_txs (dev := D) g a t -> no_bio_locks (w_held w) -> L_log ∉ w_held w ->
  0 <= b < 2 ^ 32 -> length x = Z.to_nat BSIZE -> lg_size g - 1 <= Z.of_nat (length (tx_blocks t)) ->
  log_update (dev := D) b x w = Panic "too big a transaction".
Proof.
  intros Hw Ht Hnl Hl Hb Hx Hfull. pose proof (lt_inv _ _ _ Ht) as Hi. pose proof (log_inv_committable _ _ _ Hi) as Hcm.
  unfold log_update. apply eq_bind.
  eapply (lw_bread (laws := bio_laws D)); [exact Hw|done|done|by rewrite (li_lock _ _ _ Hi)|right; apply Hcm| |].
  { intros i r Hr. pose proof (li_ref _ _ _ Hi b) as Hp. case_decide; [destruct Hp as [j Hp]|]; rewrite Hp in Hr;
      [injection Hr as <- <-; lia|done]. }
  intros i w1 Hc1 _ Hw1. apply eq_bind.
  eapply (lw_set_data (laws := bio_laws D) _ _ b); [exact Hw1|simpl; by rewrite lookup_insert_eq
    |simpl; by rewrite lookup_insert_eq|done|]. intros w2 Hc2 Hw2. unfold mbind, M_bind.
  rewrite (log_write_panics (laws := bio_laws D) _ _ _ _ Hw2); [done|by rewrite (proj2 Hc2), (proj2 Hc1)|].
  by rewrite (li_n _ _ _ Hi).
Qed.

(** ** Properties *)

(** C1: atomicity and durability of transactions under crashes.  Boot on a
    disk that recovers to [v]; then any sequence of [begin_op], logged block
    updates and [end_op], interleaved in any way the log admits, runs without
    panic.  Whatever prefix of the block writes reaches the disk before a
    crash, the disk recovers to what was committed after some prefix of the
    operations, so each group of transactions is all there or not at all; and
    at the end it recovers to everything committed. *)
Theorem log_crash_atomic (D : Z) (sb : superblock) (d v : Z -> list Z) (os : list txop) (t' : txs) w :
  boots D sb d w -> recovers_to (fs_log D sb) d v -> Forall (op_ok (fs_log D sb)) os ->
  tx_run (sb_nlog sb) (Txs 0 v v []) os = Some t' ->
  wp (boot D sb;; run_ops (dev := D) os) (fun _ w' =>
    (forall k, exists j tj, tx_run (sb_nlog sb) (Txs 0 v v []) (take j os) = Some tj /\
       recovers_to (fs_log D sb) (apply_writes d (take k (written_blocks w'))) (tx_com tj)) /\
    recovers_to (fs_log D sb) (apply_writes d (written_blocks w')) (tx_com t')) w.
Proof.
  intros Hb Hrec Hok Hrun. eapply wp_mono; [|by apply (wp_boot_run D sb d v os t')]. intros x w' Hr.
  split; [|by apply Hr]. intros k. apply (rn_safe _ _ _ _ _ _ _ _ Hr k).
Qed.

(** C10: recovery.  From a disk that recovers to [v], after any number of
    boots that crash at any point of recovery, a boot that completes leaves
    every home block of the disk as [v] has it and an empty log. *)
Theorem recovery_idempotent (D : Z) (sb : superblock) (d d' v : Z -> list Z) w :
  recovers_to (fs_log D sb) d v -> reboots D sb d d' -> boots D sb d' w ->
  wp (boot D sb) (fun _ w' =>
    (forall b, home (fs_log D sb) b -> bc_disk (l_bio (w_st w')) b = v b) /\
    hdr_n (bc_disk (l_bio (w_st w')) (sb_logstart sb)) = 0 /\ lh_n (l_log (w_st w')) = 0) w.
Proof.
  intros Hrec Hr Hb. eapply reboots_recover in Hrec; [|exact Hr]. eapply wp_mono, (wp_boot D sb d' v); [|done..].
  intros _ w' [_ (a & g & Hw' & Ht & Hs & _ & Hd & _ & _ & Hcl)]. destruct (bt_sb _ _ _ _ Hb) as [H1 H2 _].
  destruct Hcl as [_ _ _ Hhdr _ _ Hhome]. split_and!.
  - intros b Hh. rewrite (lw_disk D _ _ _ _ Hw') by (destruct Hh; lia). rewrite Hd. apply Hhome; [done|apply not_elem_of_nil].
  - rewrite (lw_disk D _ _ _ _ Hw') by (unfold LOGSIZE, MAXOPBLOCKS in H2; lia). by rewrite Hd.
  - rewrite (proj2 Hw'). apply (li_n _ _ _ (lt_inv _ _ _ Ht)).
Qed.

(** C38: [begin_op] admits three operations at a time, each entitled to
    MAXOPBLOCKS blocks, but the log of [LOGSIZE] blocks has one less for data:
    when three admitted operations have logged 29 of their 30 blocks, the next
    [log_write] panics. *)
Theorem log_admission_overflow (D : Z) (sb : superblock) (d v : Z -> list Z) (bs : list Z) (b : Z) (x : list Z) w :
  boots D sb d w -> recovers_to (fs_log D sb) d v -> sb_nlog sb = LOGSIZE ->
  NoDup bs -> Z.of_nat (length bs) = 3 * MAXOPBLOCKS - 1 -> Forall (home (fs_log D sb)) (b :: bs) ->
  length x = Z.to_nat BSIZE ->
  exists w', (boot D sb;; run_ops (dev := D) ([OpBegin; OpBegin; OpBegin] ++ map (fun b => OpWrite b x) bs)) w = Ok () w' /\
    log_update (dev := D) b x w' = Panic "too big a transaction".
Proof.
  intros Hb Hrec Hz Hnd Hlen Hhome Hx. apply Forall_cons in Hhome as [Hhb Hhome].
  destruct (tx_run_writes LOGSIZE x bs (Txs 3 v v [])) as (t' & Hrun & _ & Hbl);
    [done|simpl; lia|done|simpl; unfold LOGSIZE; lia|].
  set (os := [OpBegin; OpBegin; OpBegin] ++ map (fun b => OpWrite b x) bs).
  assert (Hos : tx_run (sb_nlog sb) (Txs 0 v v []) os = Some t') by (unfold os; by rewrite Hz, tx_run_app).
  assert (Hok : Forall (op_ok (fs_log D sb)) os).
  { repeat (apply Forall_cons; split; [done|]). apply Forall_map. exact Hhome. }
  destruct (wp_elim _ _ _ (wp_boot_run D sb d v os t' w Hb Hrec Hok Hos)) as ([] & w' & Hw' & Hran).
  exists w'. split; [exact Hw'|]. destruct Hran as [Hc (a & g & Hl & Ht & _ & Hsz) _ _ _]. destruct (bt_held _ _ _ _ Hb).
  eapply full_log_panics; [exact Hl|exact Ht|by rewrite (proj2 Hc)..|destruct Hhb; lia|done|].
  rewrite Hsz, Hz, Hbl. simpl. unfold LOGSIZE. lia.
Qed.

(** ** Witnesses *)

Definition ex_sb : superblock := Superblock 0x10203040 1000 954 200 30 2 32 45.
Definition ex_zero_disk : Z -> list Z := fun _ => repeat 0 (Z.to_nat BSIZE).
Definition ex_boot_world : world (logst bcache) := World (Me 0 1 0 0) [] [] (LogSt (zero_cache ex_zero_disk) zero_log).

Lemma ex_boots : boots 1 ex_sb ex_zero_disk ex_boot_world.
Proof.
  split; [done|split; vm_compute; congruence|by intros b; apply repeat_length|done|done|].
  split; [apply ex_no_bio_locks|apply not_elem_of_nil].
Qed.

Lemma ex_recovers : recovers_to (fs_log 1 ex_sb) ex_zero_disk ex_zero_disk.
Proof.
  exists []. split; try done; [apply NoDup_nil_2|by intros h ?%elem_of_nil].
Qed.

Lemma ex_home b : 32 < b < 1000 -> home (fs_log 1 ex_sb) b.
Proof. intros Hb. split; [lia|]. simpl. unfold LOGSIZE, MAXOPBLOCKS. lia. Qed.

Lemma log_crash_atomic_witness :
  exists w', (boot 1 ex_sb;; run_ops (dev := 1) [OpBegin; OpWrite 50 (repeat 7 (Z.to_nat BSIZE)); OpEnd]) ex_boot_world = Ok () w' /\
    recovers_to (fs_log 1 ex_sb) (apply_writes ex_zero_disk (written_blocks w'))
      (fupd ex_zero_disk 50 (repeat 7 (Z.to_nat BSIZE))).
Proof.
  destruct (wp_elim _ _ _ (log_crash_atomic 1 ex_sb ex_zero_disk ex_zero_disk
    [OpBegin; OpWrite 50 (repeat 7 (Z.to_nat BSIZE)); OpEnd] _ ex_boot_world ex_boots ex_recovers
    ltac:(repeat constructor; apply ex_home; lia) ltac:(reflexivity))) as ([] & w' & Hrun & _ & Hend).
  exists w'. split; [exact Hrun|exact Hend].
Defined.

Lemma recovery_idempotent_witness :
  exists w', boot 1 ex_sb ex_boot_world = Ok () w' /\ bc_disk (l_bio (w_st w')) 50 = ex_zero_disk 50.
Proof.
  destruct (wp_elim _ _ _ (recovery_idempotent 1 ex_sb ex_zero_disk ex_zero_disk ex_zero_disk ex_boot_world
    ex_recovers (reboots_done 1 ex_sb ex_zero_disk) ex_boots)) as ([] & w' & Hrun & Hd & _).
  exists w'. split; [exact Hrun|]. apply Hd, ex_home. lia.
Defined.

Lemma log_admission_overflow_witness :
  exists w', log_update (dev := 1) 100 (ex_zero_disk 0) w' = Panic "too big a transaction".
Proof.
  destruct (log_admission_overflow 1 ex_sb ex_zero_disk ex_zero_disk (map Z.of_nat (seq 50 29)) 100 (ex_zero_disk 0) ex_boot_world
    ex_boots ex_recovers eq_refl ltac:(apply NoDup_fmap_2; [apply _|apply NoDup_seq]) eq_refl
    ltac:(repeat constructor; apply ex_home; lia) ltac:(reflexivity)) as (w' & _ & Hp).
  exists w'. exact Hp.
Defined.
