(* ===== verification/Fs.v ===== *)
(** kernel/fs.c: the block allocator, inodes and their contents, directories
    and path names, on top of a transaction interface. *)

From S2P Require Import Prelude KMonad Kstring Riscv Kalloc Vm UserMem Bytes Sleeplock BlockStore.

(** ** Constants and structures (kernel/fs.h, kernel/file.h, kernel/param.h) *)

Definition ROOTINO : Z := 1.
Definition ROOTDEV : Z := 1.
Definition FSMAGIC : Z := 0x10203040.
Definition NDIRECT : Z := 12.
Definition NINDIRECT : Z := BSIZE / 4.
Definition MAXFILE : Z := NDIRECT + NINDIRECT.
Definition NINODE : nat := 50.
Definition T_DIR : Z := 1.
Definition T_FILE : Z := 2.
Definition T_DEVICE : Z := 3.
Definition DIRSIZ : Z := 14.

Definition sizeof_dinode : Z := 64.
Definition IPB : Z := BSIZE / sizeof_dinode.
Definition IBLOCK (i : Z) (sb : superblock) : Z := u32 (i / IPB + sb_inodestart sb).
Definition BPB : Z := BSIZE * 8.
Definition BBLOCK (b : Z) (sb : superblock) : Z := u32 (b / BPB + sb_bmapstart sb).

(** [struct dinode], 64 bytes of a block. *)
Record dinode := Dinode {
  d_type : Z;
  d_major : Z;
  d_minor : Z;
  d_nlink : Z;
  d_size : Z;
  d_addrs : list Z }.

Definition dinode_at (d : list Z) (off : nat) : dinode :=
  Dinode (i16 (get16 d off)) (i16 (get16 d (off + 2))) (i16 (get16 d (off + 4))) (i16 (get16 d (off + 6)))
    (get32 d (off + 8)) (map (fun k => get32 d (off + 12 + 4 * k)) (seq 0 13)).

Fixpoint put_addrs (d : list Z) (off : nat) (l : list Z) : list Z :=
  match l with
  | [] => d
  | x :: l' => put_addrs (put32 d off x) (off + 4) l'
  end.

Definition put_dinode (d : list Z) (off : nat) (x : dinode) : list Z :=
  let d := put16 d off (d_type x) in
  let d := put16 d (off + 2) (d_major x) in
  let d := put16 d (off + 4) (d_minor x) in
  let d := put16 d (off + 6) (d_nlink x) in
  let d := put32 d (off + 8) (d_size x) in
  put_addrs d (off + 12) (d_addrs x).

(** Where inode [inum] is in its block: [(struct dinode* )bp->data + inum%IPB]. *)
Definition dinode_off (inum : Z) : nat := Z.to_nat (sizeof_dinode * (inum mod IPB)).

(** [struct inode]; an entry of the table is named by its index. *)
Record inode := Inode {
  i_dev : Z;
  i_inum : Z;
  i_ref : Z;
  i_lock : sleeplock;
  i_valid : Z;
  i_type : Z;
  i_major : Z;
  i_minor : Z;
  i_nlink : Z;
  i_size : Z;
  i_addrs : list Z }.

Definition set_iref (x : Z) (i : inode) : inode :=
  Inode (i_dev i) (i_inum i) x (i_lock i) (i_valid i) (i_type i) (i_major i) (i_minor i) (i_nlink i) (i_size i) (i_addrs i).
Definition set_ilock (x : sleeplock) (i : inode) : inode :=
  Inode (i_dev i) (i_inum i) (i_ref i) x (i_valid i) (i_type i) (i_major i) (i_minor i) (i_nlink i) (i_size i) (i_addrs i).
Definition set_ivalid (x : Z) (i : inode) : inode :=
  Inode (i_dev i) (i_inum i) (i_ref i) (i_lock i) x (i_type i) (i_major i) (i_minor i) (i_nlink i) (i_size i) (i_addrs i).
Definition set_itype (x : Z) (i : inode) : inode :=
  Inode (i_dev i) (i_inum i) (i_ref i) (i_lock i) (i_valid i) x (i_major i) (i_minor i) (i_nlink i) (i_size i) (i_addrs i).
Definition set_inlink (x : Z) (i : inode) : inode :=
  Inode (i_dev i) (i_inum i) (i_ref i) (i_lock i) (i_valid i) (i_type i) (i_major i) (i_minor i) x (i_size i) (i_addrs i).
Definition set_isize (x : Z) (i : inode) : inode :=
  Inode (i_dev i) (i_inum i) (i_ref i) (i_lock i) (i_valid i) (i_type i) (i_major i) (i_minor i) (i_nlink i) x (i_addrs i).
Definition set_iaddr (k : nat) (x : Z) (i : inode) : inode :=
  Inode (i_dev i) (i_inum i) (i_ref i) (i_lock i) (i_valid i) (i_type i) (i_major i) (i_minor i) (i_nlink i) (i_size i)
    (<[k := x]> (i_addrs i)).
Definition set_idinode (x : dinode) (i : inode) : inode :=
  Inode (i_dev i) (i_inum i) (i_ref i) (i_lock i) (i_valid i) (d_type x) (d_major x) (d_minor x) (d_nlink x) (d_size x) (d_addrs x).
Definition inode_dinode (i : inode) : dinode :=
  Dinode (i_type i) (i_major i) (i_minor i) (i_nlink i) (i_size i) (i_addrs i).

(** The state of the file system: the log and cache below, the superblock, the
    inode table, and the memory of processes. *)
Record fsst (S U : Type) := FsSt {
  f_tx : S;
  f_sb : superblock;
  f_itable : list inode;
  f_mem : U }.
Arguments FsSt {S U} _ _ _ _.
Arguments f_tx {S U} _.
Arguments f_sb {S U} _.
Arguments f_itable {S U} _.
Arguments f_mem {S U} _.

Section fs.
Context {S U : Type} {tops : TxOps S} {uops : UserOps U}.
Abbreviation fm := (M (fsst S U)).

Definition tx {A} (m : M S A) : fm A := zoom f_tx (fun s x => FsSt x (f_sb s) (f_itable s) (f_mem s)) m.
Definition umem {A} (m : M U A) : fm A := zoom f_mem (fun s x => FsSt (f_tx s) (f_sb s) (f_itable s) x) m.
Definition getsb : fm superblock := gets f_sb.

(** ** Blocks *)

Definition sb_of (d : list Z) : superblock :=
  Superblock (get32 d 0) (get32 d 4) (get32 d 8) (get32 d 12) (get32 d 16) (get32 d 20) (get32 d 24) (get32 d 28).

Definition readsb (dev : Z) : fm () :=
  bp ← tx (tx_bread dev 1);
  d ← tx (tx_data bp);
  modify (fun s => FsSt (f_tx s) (sb_of d) (f_itable s) (f_mem s));;
  tx (tx_brelse bp).

(** [fsinit]; [initlog] is the log's. *)
Definition fsinit (initlog : Z -> superblock -> M S ()) (dev : Z) : fm () :=
  readsb dev;;
  sb ← getsb;
  if negb (sb_magic sb =? FSMAGIC) then panic "invalid file system"
  else tx (initlog dev sb).

Definition bzero (dev bno : Z) : fm () :=
  bp ← tx (tx_bread dev bno);
  tx (tx_set_data bp (repeat 0 (Z.to_nat BSIZE)));;
  tx (tx_log_write bp);;
  tx (tx_brelse bp).

(** Bit [bi] of a block of the free map. *)
Definition bmap_byte (d : list Z) (bi : Z) : Z := nth (Z.to_nat (bi / 8)) d 0.
Definition bmap_mask (bi : Z) : Z := Z.shiftl 1 (bi mod 8).
Definition bit_free (d : list Z) (bi : Z) : bool := Z.land (bmap_byte d bi) (bmap_mask bi) =? 0.
Definition set_bit (d : list Z) (bi : Z) : list Z :=
  <[Z.to_nat (bi / 8) := u8 (Z.lor (bmap_byte d bi) (bmap_mask bi))]> d.
Definition clear_bit (d : list Z) (bi : Z) : list Z :=
  <[Z.to_nat (bi / 8) := u8 (Z.land (bmap_byte d bi) (Z.lnot (bmap_mask bi)))]> d.

(** The inner loop of [balloc], from [bi]: the first free bit. *)
Fixpoint balloc_scan (n : nat) (d : list Z) (b bi size : Z) : option Z :=
  match n with
  | O => None
  | Datatypes.S n' =>
      if b + bi <? size then
        if bit_free d bi then Some bi else balloc_scan n' d b (bi + 1) size
      else None
  end.

Fixpoint balloc_loop (fuel : nat) (dev b : Z) : fm Z :=
  match fuel with
  | O => ub "balloc: fuel"
  | Datatypes.S f =>
      sb ← getsb;
      if b <? sb_size sb then
        bp ← tx (tx_bread dev (BBLOCK b sb));
        d ← tx (tx_data bp);
        match balloc_scan (Z.to_nat BPB) d b 0 (sb_size sb) with
        | Some bi =>
            tx (tx_set_data bp (set_bit d bi));;
            tx (tx_log_write bp);;
            tx (tx_brelse bp);;
            bzero dev (b + bi);;
            mret (b + bi)
        | None =>
            tx (tx_brelse bp);;
            balloc_loop f dev (b + BPB)
        end
      else
        printk "balloc: out of blocks";;
        mret 0
  end.

Definition balloc (dev : Z) : fm Z :=
  sb ← getsb;
  balloc_loop (Datatypes.S (Datatypes.S (Z.to_nat (sb_size sb / BPB)))) dev 0.

Definition bfree (dev b : Z) : fm () :=
  sb ← getsb;
  bp ← tx (tx_bread dev (BBLOCK b sb));
  d ← tx (tx_data bp);
  let bi := b mod BPB in
  if bit_free d bi then panic "freeing free block"
  else
    tx (tx_set_data bp (clear_bit d bi));;
    tx (tx_log_write bp);;
    tx (tx_brelse bp).

(** ** Inodes *)

Definition iload (ip : nat) : fm inode :=
  t ← gets f_itable;
  match t !! ip with Some x => mret x | None => ub "inode: index" end.
Definition iassign (ip : nat) (f : inode -> inode) : fm () :=
  iload ip;;
  modify (fun s => FsSt (f_tx s) (f_sb s) (alter f ip (f_itable s)) (f_mem s)).

Definition no_lock : sleeplock := Sleeplock 0 "inode" 0.
Definition ilock_of (ip : nat) (s : fsst S U) : sleeplock :=
  match f_itable s !! ip with Some x => i_lock x | None => no_lock end.
Definition set_ilock_of (ip : nat) (s : fsst S U) (lk : sleeplock) : fsst S U :=
  FsSt (f_tx s) (f_sb s) (alter (set_ilock lk) ip (f_itable s)) (f_mem s).

Fixpoint iinit_loop (n : nat) (i : nat) : fm () :=
  match n with
  | O => mret ()
  | Datatypes.S n' => iassign i (set_ilock (initsleeplock "inode"));; iinit_loop n' (Datatypes.S i)
  end.
Definition iinit : fm () := iinit_loop NINODE 0.

(** The loop of [iget] from [ip]; [empty] is the first unused entry seen. *)
Fixpoint iget_loop (n : nat) (ip : nat) (dev inum : Z) (empty : option nat) : fm (option nat * option nat) :=
  match n with
  | O => mret (None, empty)
  | Datatypes.S n' =>
      x ← iload ip;
      if (i_ref x >? 0) && (i_dev x =? dev) && (i_inum x =? inum) then mret (Some ip, empty)
      else
        iget_loop n' (Datatypes.S ip) dev inum
          (match empty with Some e => Some e | None => if i_ref x =? 0 then Some ip else None end)
  end.

Definition iget (dev inum : Z) : fm nat :=
  acquire L_itable;;
  r ← iget_loop NINODE 0 dev inum None;
  match r with
  | (Some ip, _) =>
      iassign ip (fun x => set_iref (i_ref x + 1) x);;
      release L_itable;;
      mret ip
  | (None, None) => panic "iget: no inodes"
  | (None, Some ip) =>
      iassign ip (fun x => Inode dev inum 1 (i_lock x) 0 (i_type x) (i_major x) (i_minor x) (i_nlink x) (i_size x) (i_addrs x));;
      release L_itable;;
      mret ip
  end.

(** The loop of [ialloc] from [inum]. *)
Fixpoint ialloc_loop (fuel : nat) (dev inum type : Z) : fm (option nat) :=
  match fuel with
  | O => ub "ialloc: fuel"
  | Datatypes.S f =>
      sb ← getsb;
      if inum <? sb_ninodes sb then
        bp ← tx (tx_bread dev (IBLOCK inum sb));
        d ← tx (tx_data bp);
        if d_type (dinode_at d (dinode_off inum)) =? 0 then
          tx (tx_set_data bp (put_dinode d (dinode_off inum) (Dinode type 0 0 0 0 (repeat 0 13))));;
          tx (tx_log_write bp);;
          tx (tx_brelse bp);;
          ip ← iget dev inum;
          mret (Some ip)
        else
          tx (tx_brelse bp);;
          ialloc_loop f dev (inum + 1) type
      else
        printk "ialloc: no inodes";;
        mret None
  end.

Definition ialloc (dev type : Z) : fm (option nat) :=
  sb ← getsb;
  ialloc_loop (Datatypes.S (Z.to_nat (sb_ninodes sb))) dev 1 type.

Definition iupdate (ip : nat) : fm () :=
  x ← iload ip;
  sb ← getsb;
  bp ← tx (tx_bread (i_dev x) (IBLOCK (i_inum x) sb));
  d ← tx (tx_data bp);
  tx (tx_set_data bp (put_dinode d (dinode_off (i_inum x)) (inode_dinode x)));;
  tx (tx_log_write bp);;
  tx (tx_brelse bp).

Definition idup (ip : nat) : fm nat :=
  acquire L_itable;;
  iassign ip (fun x => set_iref (i_ref x + 1) x);;
  release L_itable;;
  mret ip.

Definition ilock (ip : nat) : fm () :=
  x ← iload ip;
  if i_ref x <? 1 then panic "ilock"
  else
    acquiresleep (ChInodeLock ip) (ilock_of ip) (set_ilock_of ip);;
    x ← iload ip;
    if i_valid x =? 0 then
      sb ← getsb;
      bp ← tx (tx_bread (i_dev x) (IBLOCK (i_inum x) sb));
      d ← tx (tx_data bp);
      iassign ip (set_idinode (dinode_at d (dinode_off (i_inum x))));;
      tx (tx_brelse bp);;
      iassign ip (set_ivalid 1);;
      x ← iload ip;
      if i_type x =? 0 then panic "ilock: no type" else mret ()
    else mret ().

Definition iunlock (ip : nat) : fm () :=
  h ← holdingsleep (ChInodeLock ip) (ilock_of ip);
  if negb h then panic "iunlock"
  else
    x ← iload ip;
    if i_ref x <? 1 then panic "iunlock"
    else releasesleep (ChInodeLock ip) (ilock_of ip) (set_ilock_of ip).

(** ** Inode content *)

(** [ip->addrs[k]]. *)
Definition iaddr (ip : nat) (k : Z) : fm Z :=
  x ← iload ip;
  match i_addrs x !! Z.to_nat k with Some a => mret a | None => ub "inode addrs: index" end.

(** The indirect block of the inode, allocated if necessary. *)
Definition bmap_ind (ip : nat) (x : inode) : fm Z :=
  addr ← iaddr ip NDIRECT;
  if addr =? 0 then
    addr ← balloc (i_dev x);
    if addr =? 0 then mret 0
    else iassign ip (set_iaddr (Z.to_nat NDIRECT) addr);; mret addr
  else mret addr.

(** Entry [bn] of indirect block [ind], allocated if necessary. *)
Definition bmap_entry (dev ind bn : Z) : fm Z :=
  bp ← tx (tx_bread dev ind);
  d ← tx (tx_data bp);
  let addr := get32 d (Z.to_nat (4 * bn)) in
  r ← (if addr =? 0 then
         addr ← balloc dev;
         (if negb (addr =? 0) then
            tx (tx_set_data bp (put32 d (Z.to_nat (4 * bn)) addr));;
            tx (tx_log_write bp)
          else mret ());;
         mret addr
       else mret addr);
  tx (tx_brelse bp);;
  mret r.

Definition bmap (ip : nat) (bn : Z) : fm Z :=
  x ← iload ip;
  if bn <? NDIRECT then
    addr ← iaddr ip bn;
    if addr =? 0 then
      addr ← balloc (i_dev x);
      if addr =? 0 then mret 0
      else
        iassign ip (set_iaddr (Z.to_nat bn) addr);;
        mret addr
    else mret addr
  else
    let bn := bn - NDIRECT in
    if bn <? NINDIRECT then
      ind ← bmap_ind ip x;
      if ind =? 0 then mret 0 else bmap_entry (i_dev x) ind bn
    else panic "bmap: out of range".

(** The first loop of [itrunc]. *)
Fixpoint itrunc_direct (n : nat) (ip : nat) (i : Z) : fm () :=
  match n with
  | O => mret ()
  | Datatypes.S n' =>
      x ← iload ip;
      a ← iaddr ip i;
      (if negb (a =? 0) then bfree (i_dev x) a;; iassign ip (set_iaddr (Z.to_nat i) 0) else mret ());;
      itrunc_direct n' ip (i + 1)
  end.

(** The second loop, over the entries of the indirect block [d]. *)
Fixpoint itrunc_indirect (n : nat) (dev : Z) (d : list Z) (j : Z) : fm () :=
  match n with
  | O => mret ()
  | Datatypes.S n' =>
      let a := get32 d (Z.to_nat (4 * j)) in
      (if negb (a =? 0) then bfree dev a else mret ());;
      itrunc_indirect n' dev d (j + 1)
  end.

Definition itrunc (ip : nat) : fm () :=
  itrunc_direct (Z.to_nat NDIRECT) ip 0;;
  x ← iload ip;
  a ← iaddr ip NDIRECT;
  (if negb (a =? 0) then
     bp ← tx (tx_bread (i_dev x) a);
     d ← tx (tx_data bp);
     itrunc_indirect (Z.to_nat NINDIRECT) (i_dev x) d 0;;
     tx (tx_brelse bp);;
     bfree (i_dev x) a;;
     iassign ip (set_iaddr (Z.to_nat NDIRECT) 0)
   else mret ());;
  iassign ip (set_isize 0);;
  iupdate ip.

Definition iput (ip : nat) : fm () :=
  acquire L_itable;;
  x ← iload ip;
  (if (i_ref x =? 1) && negb (i_valid x =? 0) && (i_nlink x =? 0) then
     acquiresleep (ChInodeLock ip) (ilock_of ip) (set_ilock_of ip);;
     release L_itable;;
     itrunc ip;;
     iassign ip (set_itype 0);;
     iupdate ip;;
     iassign ip (set_ivalid 0);;
     releasesleep (ChInodeLock ip) (ilock_of ip) (set_ilock_of ip);;
     acquire L_itable
   else mret ());;
  iassign ip (fun x => set_iref (i_ref x - 1) x);;
  release L_itable.

Definition iunlockput (ip : nat) : fm () :=
  iunlock ip;;
  iput ip.

(** [struct stat] (kernel/stat.h). *)
Record stat := Stat {
  st_dev : Z;
  st_ino : Z;
  st_type : Z;
  st_nlink : Z;
  st_size : Z }.

Definition stati (ip : nat) : fm stat :=
  x ← iload ip;
  mret (Stat (i32 (i_dev x)) (i_inum x) (i_type x) (i_nlink x) (i_size x)).

(** The loop of [readi]; the result pairs [tot] with the bytes copied. *)
Fixpoint readi_loop (fuel : nat) (ip : nat) (dst : dest) (off n tot : Z) (got : list Z) : fm (Z * list Z) :=
  match fuel with
  | O => ub "readi: fuel"
  | Datatypes.S f =>
      if tot <? n then
        addr ← bmap ip (off / BSIZE);
        if addr =? 0 then mret (tot, got)
        else
          x ← iload ip;
          bp ← tx (tx_bread (i_dev x) addr);
          let m := Z.min (n - tot) (BSIZE - off mod BSIZE) in
          d ← tx (tx_data bp);
          let bs := slice d (Z.to_nat (off mod BSIZE)) (Z.to_nat m) in
          r ← umem (either_copyout dst bs);
          tx (tx_brelse bp);;
          if r =? -1 then mret (-1, got)
          else readi_loop f ip (dst_add dst m) (off + m) n (tot + m) (got ++ bs)
      else mret (tot, got)
  end.

Definition readi (ip : nat) (dst : dest) (off n : Z) : fm (Z * list Z) :=
  x ← iload ip;
  if (off >? i_size x) || (u32 (off + n) <? off) then mret (0, [])
  else
    let n := if u32 (off + n) >? i_size x then u32 (i_size x - off) else n in
    readi_loop (Z.to_nat (n / BSIZE) + 3) ip dst off n 0 [].

(** The loop of [writei]; the result pairs [tot] with [off]. *)
Fixpoint writei_loop (fuel : nat) (ip : nat) (src : source) (off n tot : Z) : fm (Z * Z) :=
  match fuel with
  | O => ub "writei: fuel"
  | Datatypes.S f =>
      if tot <? n then
        addr ← bmap ip (off / BSIZE);
        if addr =? 0 then mret (tot, off)
        else
          x ← iload ip;
          bp ← tx (tx_bread (i_dev x) addr);
          let m := Z.min (n - tot) (BSIZE - off mod BSIZE) in
          d ← tx (tx_data bp);
          c ← umem (either_copyin src m);
          tx (tx_set_data bp (splice d (Z.to_nat (off mod BSIZE)) (snd c)));;
          if fst c =? -1 then
            tx (tx_brelse bp);;
            mret (tot, off)
          else
            tx (tx_log_write bp);;
            tx (tx_brelse bp);;
            writei_loop f ip (src_add src m) (off + m) n (tot + m)
      else mret (tot, off)
  end.

Definition writei (ip : nat) (src : source) (off n : Z) : fm Z :=
  x ← iload ip;
  if (off >? i_size x) || (u32 (off + n) <? off) then mret (-1)
  else if u32 (off + n) >? MAXFILE * BSIZE then mret (-1)
  else
    r ← writei_loop (Z.to_nat (n / BSIZE) + 3) ip src off n 0;
    let '(tot, off) := r in
    x ← iload ip;
    (if off >? i_size x then iassign ip (set_isize off) else mret ());;
    iupdate ip;;
    mret tot.

(** ** Directories *)

(** Two buffers in memory, for the string routines. *)
Definition two_bufs (s t : list Z) : memory :=
  fun a => if a <? 4096 then nth (Z.to_nat a) s 0 else nth (Z.to_nat (a - 4096)) t 0.

Definition namecmp (s t : list Z) : Z := strncmp (two_bufs s t) 0 4096 DIRSIZ.

(** [struct dirent]: a 16-bit inode number and [DIRSIZ] bytes of name. *)
Definition sizeof_dirent : Z := 16.
Definition de_inum (d : list Z) : Z := get16 d 0.
Definition de_name (d : list Z) : list Z := slice d 2 14.
Definition dirent_bytes (inum : Z) (name : list Z) : list Z := le_bytes 2 inum ++ name.

(** The loop of [dirlookup] from [off]. *)
Fixpoint dirlookup_loop (fuel : nat) (dp : nat) (name : list Z) (off : Z) : fm (option (nat * Z)) :=
  match fuel with
  | O => ub "dirlookup: fuel"
  | Datatypes.S f =>
      x ← iload dp;
      if off <? i_size x then
        r ← readi dp KernDst off sizeof_dirent;
        if negb (fst r =? sizeof_dirent) then panic "dirlookup read"
        else if de_inum (snd r) =? 0 then dirlookup_loop f dp name (u32 (off + sizeof_dirent))
        else if namecmp name (de_name (snd r)) =? 0 then
          ip ← iget (i_dev x) (de_inum (snd r));
          mret (Some (ip, off))
        else dirlookup_loop f dp name (u32 (off + sizeof_dirent))
      else mret None
  end.

(** The entry's inode and its offset, [*poff]. *)
Definition dirlookup (dp : nat) (name : list Z) : fm (option (nat * Z)) :=
  x ← iload dp;
  if negb (i_type x =? T_DIR) then panic "dirlookup not DIR"
  else dirlookup_loop (Datatypes.S (Z.to_nat (i_size x))) dp name 0.

(** The loop of [dirlink]: the offset of the first empty entry, and the last
    entry read. *)
Fixpoint dirlink_loop (fuel : nat) (dp : nat) (off : Z) (de : list Z) : fm (Z * list Z) :=
  match fuel with
  | O => ub "dirlink: fuel"
  | Datatypes.S f =>
      x ← iload dp;
      if off <? i_size x then
        r ← readi dp KernDst off sizeof_dirent;
        if negb (fst r =? sizeof_dirent) then panic "dirlink read"
        else if de_inum (snd r) =? 0 then mret (off, snd r)
        else dirlink_loop f dp (off + sizeof_dirent) (snd r)
      else mret (off, de)
  end.

(** [strncpy(de.name, name, DIRSIZ)]. *)
Definition dirent_name (old name : list Z) : list Z := read_bytes (strncpy (two_bufs old name) 0 4096 DIRSIZ) 0 14.

(** [de] is an uninitialised local of [dirlink]: [junk] are its bytes. *)
Definition dirlink (junk : list Z) (dp : nat) (name : list Z) (inum : Z) : fm Z :=
  r ← dirlookup dp name;
  match r with
  | Some (ip, _) =>
      iput ip;;
      mret (-1)
  | None =>
      x ← iload dp;
      r ← dirlink_loop (Datatypes.S (Z.to_nat (i_size x))) dp 0 junk;
      let '(off, de) := r in
      r ← writei dp (KernSrc (dirent_bytes inum (dirent_name (de_name de) name))) off sizeof_dirent;
      if negb (r =? sizeof_dirent) then mret (-1) else mret 0
  end.

(** ** Paths *)

Definition SLASH : Z := 47.

(** A path is the bytes of the C string before its NUL. *)
Fixpoint skip_slashes (path : list Z) : list Z :=
  match path with
  | c :: p => if c =? SLASH then skip_slashes p else path
  | [] => []
  end.

(** The element at the start of [path], and what follows it. *)
Fixpoint take_elem (path : list Z) : list Z * list Z :=
  match path with
  | c :: p => if c =? SLASH then ([], path) else let '(e, r) := take_elem p in (c :: e, r)
  | [] => ([], [])
  end.

(** [name] is the caller's buffer of [DIRSIZ] bytes. *)
Definition skipelem (path name : list Z) : option (list Z * list Z) :=
  match skip_slashes path with
  | [] => None
  | path =>
      let '(s, rest) := take_elem path in
      let len := length s in
      let name :=
        if Z.of_nat len >=? DIRSIZ then splice name 0 (take (Z.to_nat DIRSIZ) s)
        else <[len := 0]> (splice name 0 s) in
      Some (skip_slashes rest, name)
  end.

(** The loop of [namex]; it ends since every element shortens the path. *)
Fixpoint namex_loop (fuel : nat) (ip : nat) (path : list Z) (nameiparent : bool) (name : list Z) :
  fm (option (nat * list Z)) :=
  match fuel with
  | O => ub "namex: fuel"
  | Datatypes.S f =>
      match skipelem path name with
      | Some (path, name) =>
          ilock ip;;
          x ← iload ip;
          if negb (i_type x =? T_DIR) then iunlockput ip;; mret None
          else if nameiparent && bool_decide (path = []) then iunlock ip;; mret (Some (ip, name))
          else
            next ← dirlookup ip name;
            match next with
            | None => iunlockput ip;; mret None
            | Some (next, _) =>
                iunlockput ip;;
                namex_loop f next path nameiparent name
            end
      | None =>
          if nameiparent then iput ip;; mret None
          else mret (Some (ip, name))
      end
  end.

(** [cwd] is [myproc()->cwd]. *)
Definition namex (cwd : nat) (path : list Z) (nameiparent : bool) (name : list Z) : fm (option (nat * list Z)) :=
  ip ← (match path with
        | c :: _ => if c =? SLASH then iget ROOTDEV ROOTINO else idup cwd
        | [] => idup cwd
        end);
  namex_loop (Datatypes.S (length path)) ip path nameiparent name.

Definition namei (junk : list Z) (cwd : nat) (path : list Z) : fm (option nat) :=
  r ← namex cwd path false junk;
  mret (fst <$> r).

Definition nameiparent (cwd : nat) (path name : list Z) : fm (option (nat * list Z)) := namex cwd path true name.

(** A routine on user memory that changes nothing. *)
Lemma wp_umem_same {A} (m : M U A) a (Q : A -> world (fsst S U) -> Prop) w :
  (forall R : A -> world U -> Prop, (forall w', w_me w' = w_me w -> w_held w' = w_held w -> w_evs w' = w_evs w ->
     w_st w' = f_mem (w_st w) -> R a w') -> wp m R (World (w_me w) (w_held w) (w_evs w) (f_mem (w_st w)))) ->
  Q a w -> wp (umem m) Q w.
Proof.
  intros Hm HQ. apply wp_zoom, Hm. intros [me h e u] E1 E2 E3 E4. destruct w as [me' h' e' []]. simpl in *. by subst.
Qed.
End fs.
