(* ===== verification/FsSpec.v ===== *)
(** Symbolic execution of the file system on the transaction interface, and
    the block allocator of kernel/fs.c. *)

From S2P Require Import Prelude KMonad UserMem Bytes Sleeplock BlockStore Fs.

(** ** Bits of the free map *)

Definition bit (d : list Z) (bi : Z) : bool := Z.testbit (bmap_byte d bi) (bi mod 8).

Lemma bit_free_spec d bi : bit_free d bi = negb (bit d bi).
Proof.
  unfold bit_free, bit, bmap_mask. pose proof (Z.mod_pos_bound bi 8 ltac:(lia)) as Hm. rewrite Z.shiftl_1_l.
  destruct (Z.testbit (bmap_byte d bi) (bi mod 8)) eqn:E; simpl.
  - apply Z.eqb_neq. intros H0. apply (f_equal (fun x => Z.testbit x (bi mod 8))) in H0.
    rewrite Z.land_spec, E, Z.pow2_bits_true, Z.bits_0 in H0 by lia. done.
  - apply Z.eqb_eq, Z.bits_inj'. intros n Hn. rewrite Z.land_spec, Z.bits_0.
    destruct (decide (n = bi mod 8)) as [->|Hne]; [by rewrite E|]. by rewrite Z.pow2_bits_false, andb_false_r by lia.
Qed.

(** Two bits of the map: in the same byte, or in different ones. *)
Lemma byte_pos bi bj : 0 <= bi -> 0 <= bj ->
  (Z.to_nat (bi / 8) = Z.to_nat (bj / 8) /\ (bi mod 8 = bj mod 8 <-> bi = bj)) \/ (Z.to_nat (bi / 8) <> Z.to_nat (bj / 8) /\ bi <> bj).
Proof.
  intros Hi Hj. pose proof (Z.div_mod bi 8 ltac:(lia)). pose proof (Z.div_mod bj 8 ltac:(lia)).
  pose proof (Z.div_pos bi 8 Hi ltac:(lia)). pose proof (Z.div_pos bj 8 Hj ltac:(lia)).
  destruct (decide (bi / 8 = bj / 8)) as [E|E]; [left|right]; (split; [lia|]); [split; [lia|by intros ->]|by intros ->].
Qed.

(** Changing one bit of a byte changes that bit of the map. *)
Lemma bit_update d bi bj (v : Z) (b : bool) :
  length d = Z.to_nat BSIZE -> 0 <= bi < BPB -> 0 <= bj ->
  (forall n, 0 <= n < 8 -> Z.testbit v n = if decide (n = bi mod 8) then b else Z.testbit (bmap_byte d bi) n) ->
  bit (<[Z.to_nat (bi / 8) := u8 v]> d) bj = if decide (bj = bi) then b else bit d bj.
Proof.
  intros Hd Hi Hj Hv. unfold bit, bmap_byte. pose proof (Z.mod_pos_bound bj 8 ltac:(lia)) as Hm.
  assert (Hlt : (Z.to_nat (bi / 8) < length d)%nat).
  { rewrite Hd. unfold BPB, BSIZE in *. pose proof (Z.div_lt_upper_bound bi 8 1024 ltac:(lia) ltac:(lia)). lia. }
  destruct (byte_pos bi bj) as [[E1 E2]|[E1 E2]]; [lia|done|..]; rewrite !nth_lookup.
  - rewrite E1, list_lookup_insert_eq by (by rewrite <- E1). simpl.
    unfold u8. rewrite Z.mod_pow2_bits_low by lia. rewrite Hv by lia. unfold bmap_byte. rewrite E1, nth_lookup.
    destruct (decide (bj = bi)) as [->|Hne]; [by rewrite decide_True|]. by rewrite decide_False by naive_solver.
  - rewrite list_lookup_insert_ne by done. by rewrite decide_False by naive_solver.
Qed.

Lemma bit_set d bi bj :
  length d = Z.to_nat BSIZE -> 0 <= bi < BPB -> 0 <= bj ->
  bit (set_bit d bi) bj = if decide (bj = bi) then true else bit d bj.
Proof.
  intros Hd Hi Hj. apply bit_update; [done..|]. intros n Hn. pose proof (Z.mod_pos_bound bi 8 ltac:(lia)).
  unfold bmap_mask. rewrite Z.lor_spec, Z.shiftl_1_l, Z.pow2_bits_eqb by lia.
  destruct (Z.eqb_spec (bi mod 8) n); [rewrite decide_True by done; apply orb_true_r|].
  rewrite decide_False by done. apply orb_false_r.
Qed.

Lemma bit_clear d bi bj :
  length d = Z.to_nat BSIZE -> 0 <= bi < BPB -> 0 <= bj ->
  bit (clear_bit d bi) bj = if decide (bj = bi) then false else bit d bj.
Proof.
  intros Hd Hi Hj. apply bit_update; [done..|]. intros n Hn. pose proof (Z.mod_pos_bound bi 8 ltac:(lia)).
  unfold bmap_mask. rewrite Z.land_spec, Z.lnot_spec, Z.shiftl_1_l, Z.pow2_bits_eqb by lia.
  destruct (Z.eqb_spec (bi mod 8) n); [rewrite decide_True by done; apply andb_false_r|].
  rewrite decide_False by done. apply andb_true_r.
Qed.

Lemma length_set_bit d bi : length (set_bit d bi) = length d.
Proof. apply length_insert. Qed.
Lemma length_clear_bit d bi : length (clear_bit d bi) = length d.
Proof. apply length_insert. Qed.

(** The inner loop of [balloc] finds the first free bit below the size. *)
Lemma balloc_scan_spec n : forall d b bi size,
  match balloc_scan n d b bi size with
  | Some j => bi <= j < bi + Z.of_nat n /\ b + j < size /\ bit d j = false /\ (forall k, bi <= k < j -> bit d k = true)
  | None => forall k, bi <= k < bi + Z.of_nat n -> b + k < size -> bit d k = true
  end.
Proof.
  induction n as [|n IH]; intros d b bi size; cbn [balloc_scan]; [intros; lia|].
  destruct (Z.ltb_spec (b + bi) size) as [Hlt|Hge]; [|intros; lia]. rewrite bit_free_spec.
  destruct (bit d bi) eqn:E; simpl; [|split_and!; [lia..|done|intros; lia]].
  specialize (IH d b (bi + 1) size). destruct (balloc_scan n d b (bi + 1) size) as [j|].
  - destruct IH as (H1 & H2 & H3 & H4). split_and!; [lia..|done|]. intros k Hk.
    destruct (decide (k = bi)) as [->|]; [done|]. apply H4. lia.
  - intros k Hk Hs. destruct (decide (k = bi)) as [->|]; [done|]. apply IH; lia.
Qed.

Section spec.
Context {S U : Type} {tops : TxOps S} {uops : UserOps U} {dev limit : Z} {home : Z -> Prop}
  {laws : TxLaws S dev limit home}.
Implicit Types (w : world (fsst S U)) (t : txst) (sb : superblock) (it : list inode).

(** World [w] is inside a transaction [t]; the superblock, the inode table and
    the memory of processes are [sb], [it] and [u]. *)
Record fsw w t sb it (u : U) : Prop := {
  fw_tx : tc_rep (my_pid (w_me w)) (f_tx (w_st w)) t;
  fw_sb : f_sb (w_st w) = sb;
  fw_it : f_itable (w_st w) = it;
  fw_mem : f_mem (w_st w) = u }.

Lemma fsw_wf w t sb it u b : fsw w t sb it u -> length (t_view t b) = Z.to_nat BSIZE.
Proof. intros []. by eapply tc_wf. Qed.

(** [n] more blocks can be read and logged. *)
Definition room t (n : nat) : Prop :=
  (size (t_open t) + length (t_logged t) + n <= NBUF)%nat /\ Z.of_nat (length (t_logged t) + n) <= limit.

Lemma room_le t n n' : room t n -> (n' <= n)%nat -> room t n'.
Proof. intros [H1 H2] Hn. split; lia. Qed.

(** *** The calls of the log *)

Definition with_tx w (w' : world S) : world (fsst S U) :=
  World (w_me w') (w_held w') (w_evs w') (FsSt (w_st w') (f_sb (w_st w)) (f_itable (w_st w)) (f_mem (w_st w))).
Definition only_tx w : world S := World (w_me w) (w_held w) (w_evs w) (f_tx (w_st w)).

Lemma wp_tx {A} (m : M S A) Q w : wp m (fun x (w' : world S) => Q x (with_tx w w')) (only_tx w) -> wp (tx m) Q w.
Proof. intros H. unfold tx. apply wp_zoom. exact H. Qed.

Lemma with_tx_fsw w (w' : world S) t t' sb it u :
  fsw w t sb it u -> same_ctx (only_tx w) w' -> tc_rep (my_pid (w_me w)) (w_st w') t' ->
  same_ctx w (with_tx w w') /\ fsw (with_tx w w') t' sb it u.
Proof. intros [] [H1 H2] Hr. split; [done|]. split; try done. simpl in *. by rewrite H1. Qed.

Lemma fw_bread t sb it u b (Q : nat -> world (fsst S U) -> Prop) w :
  fsw w t sb it u -> no_tx_locks (w_held w) -> home b -> t_open t !! b = None -> room t 1 ->
  (forall i w', same_ctx w w' -> fsw w' (TxSt (t_view t) (<[b := (i, false)]> (t_open t)) (t_logged t)) sb it u -> Q i w') ->
  wp (tx (tx_bread dev b)) Q w.
Proof.
  intros Hw Hnl Hb Ho [Hr _] HQ. apply wp_tx. eapply (tc_bread t); [apply Hw|done|done|done|lia|].
  intros i w' Hc Hr'. destruct (with_tx_fsw _ _ _ _ _ _ _ Hw Hc Hr'). by apply HQ.
Qed.

Lemma fw_data t sb it u b i m (Q : list Z -> world (fsst S U) -> Prop) w :
  fsw w t sb it u -> t_open t !! b = Some (i, m) -> Q (t_view t b) w -> wp (tx (tx_data i)) Q w.
Proof.
  intros Hw Ho HQ. apply wp_tx. eapply (tc_data t b); [apply Hw|done|]. by destruct w as [? ? ? []].
Qed.

Lemma fw_set_data t sb it u b i m d (Q : () -> world (fsst S U) -> Prop) w :
  fsw w t sb it u -> t_open t !! b = Some (i, m) -> length d = Z.to_nat BSIZE ->
  (forall w', same_ctx w w' -> fsw w' (TxSt (fupd (t_view t) b d) (<[b := (i, true)]> (t_open t)) (t_logged t)) sb it u -> Q () w') ->
  wp (tx (tx_set_data i d)) Q w.
Proof.
  intros Hw Ho Hd HQ. apply wp_tx. eapply (tc_set_data t b); [apply Hw|done|done|].
  intros w' Hc Hr'. destruct (with_tx_fsw _ _ _ _ _ _ _ Hw Hc Hr'). by apply HQ.
Qed.

Lemma fw_log_write t sb it u b i m (Q : () -> world (fsst S U) -> Prop) w :
  fsw w t sb it u -> no_tx_locks (w_held w) -> t_open t !! b = Some (i, m) -> Z.of_nat (length (t_logged t)) < limit ->
  (forall w', same_ctx w w' -> fsw w' (TxSt (t_view t) (<[b := (i, false)]> (t_open t)) (add_block b (t_logged t))) sb it u -> Q () w') ->
  wp (tx (tx_log_write i)) Q w.
Proof.
  intros Hw Hnl Ho Hn HQ. apply wp_tx. eapply (tc_log_write t b); [apply Hw|done|done|done|].
  intros w' Hc Hr'. destruct (with_tx_fsw _ _ _ _ _ _ _ Hw Hc Hr'). by apply HQ.
Qed.

Lemma fw_brelse t sb it u b i (Q : () -> world (fsst S U) -> Prop) w :
  fsw w t sb it u -> no_tx_locks (w_held w) -> t_open t !! b = Some (i, false) ->
  (forall w', same_ctx w w' -> fsw w' (TxSt (t_view t) (delete b (t_open t)) (t_logged t)) sb it u -> Q () w') ->
  wp (tx (tx_brelse i)) Q w.
Proof.
  intros Hw Hnl Ho HQ. apply wp_tx. eapply (tc_brelse t b); [apply Hw|done|done|].
  intros w' Hc Hr'. destruct (with_tx_fsw _ _ _ _ _ _ _ Hw Hc Hr'). by apply HQ.
Qed.

Lemma fw_getsb t sb it u (Q : superblock -> world (fsst S U) -> Prop) w :
  fsw w t sb it u -> Q sb w -> wp getsb Q w.
Proof. intros [] HQ. apply wp_gets. by subst. Qed.

Lemma fw_iload t sb it u ip x (Q : inode -> world (fsst S U) -> Prop) w :
  fsw w t sb it u -> it !! ip = Some x -> Q x w -> wp (iload ip) Q w.
Proof. intros [] Hx HQ. apply wp_bind, wp_gets. by rewrite fw_it0, Hx. Qed.

Lemma fw_iassign t sb it u ip x f (Q : () -> world (fsst S U) -> Prop) w :
  fsw w t sb it u -> it !! ip = Some x ->
  (forall w', same_ctx w w' -> fsw w' t sb (<[ip := f x]> it) u -> Q () w') -> wp (iassign ip f) Q w.
Proof.
  intros Hw Hx HQ. eapply wp_bind, fw_iload; [exact Hw|exact Hx|]. apply wp_modify, HQ; [done|].
  destruct Hw. split; try done. simpl. rewrite fw_it0. apply list_eq. intros j.
  destruct (decide (ip = j)) as [<-|Hne].
  - rewrite list_lookup_alter_eq, Hx, list_lookup_insert_eq; [done|]. by eapply lookup_lt_Some.
  - by rewrite list_lookup_alter_ne, list_lookup_insert_ne.
Qed.

Lemma fw_printk t sb it u s (Q : () -> world (fsst S U) -> Prop) w :
  fsw w t sb it u -> (forall w', same_ctx w w' -> fsw w' t sb it u -> Q () w') -> wp (printk s) Q w.
Proof. intros [] HQ. apply wp_emit, HQ; [done|]. by split. Qed.

(** *** Reading and updating one block *)

(** The transaction after block [b] was given the contents [d] and logged. *)
Definition tx_upd t (b : Z) (d : list Z) : txst := TxSt (fupd (t_view t) b d) (t_open t) (add_block b (t_logged t)).

Lemma room_upd t b d n : room t (Datatypes.S n) -> room (tx_upd t b d) n.
Proof. intros [H1 H2]. pose proof (length_add_block b (t_logged t)). split; simpl; lia. Qed.

Lemma delete_insert2 (m : gmap Z (nat * bool)) b x y : m !! b = None -> delete b (<[b := x]> (<[b := y]> m)) = m.
Proof. intros H. rewrite insert_insert_eq. by apply delete_insert_id. Qed.

Lemma tx_eta t : TxSt (t_view t) (t_open t) (t_logged t) = t.
Proof. by destruct t. Qed.

(** [bread], then [brelse] of the unchanged block. *)
Lemma fw_read {A} t sb it u b (k : nat -> M (fsst S U) A) Q w :
  fsw w t sb it u -> no_tx_locks (w_held w) -> home b -> t_open t !! b = None -> room t 1 ->
  (forall i w', same_ctx w w' -> fsw w' (TxSt (t_view t) (<[b := (i, false)]> (t_open t)) (t_logged t)) sb it u ->
     wp (k i) Q w') -> wp (i ← tx (tx_bread dev b); k i) Q w.
Proof. intros Hw Hnl Hb Ho Hr HQ. eapply wp_bind, fw_bread; done. Qed.

Lemma fw_read_end t sb it u b i (Q : () -> world (fsst S U) -> Prop) w w0 :
  fsw w (TxSt (t_view t) (<[b := (i, false)]> (t_open t)) (t_logged t)) sb it u -> same_ctx w0 w ->
  no_tx_locks (w_held w0) -> t_open t !! b = None ->
  (forall w', same_ctx w0 w' -> fsw w' t sb it u -> Q () w') -> wp (tx (tx_brelse i)) Q w.
Proof.
  intros Hw Hc Hnl Ho HQ. eapply (fw_brelse _ _ _ _ b); [exact Hw|by rewrite (proj2 Hc)|apply lookup_insert_eq|].
  simpl. rewrite delete_insert_id by done. rewrite tx_eta. intros w' Hc' Hw'. apply HQ; [by etrans|done].
Qed.

(** Storing to the block just read, logging and releasing it. *)
Lemma fw_update_last t sb it u b i d (Q : () -> world (fsst S U) -> Prop) w w0 :
  fsw w (TxSt (t_view t) (<[b := (i, false)]> (t_open t)) (t_logged t)) sb it u -> same_ctx w0 w ->
  no_tx_locks (w_held w0) -> t_open t !! b = None -> room t 1 -> length d = Z.to_nat BSIZE ->
  (forall w', same_ctx w0 w' -> fsw w' (tx_upd t b d) sb it u -> Q () w') ->
  wp (tx (tx_set_data i d);; tx (tx_log_write i);; tx (tx_brelse i)) Q w.
Proof.
  intros Hw Hc Hnl Ho [Hr1 Hr2] Hd HQ. eapply wp_bind, (fw_set_data _ _ _ _ b); [exact Hw|apply lookup_insert_eq|done|].
  simpl. intros w1 Hc1 Hw1. rewrite insert_insert_eq in Hw1. assert (Hc01 : same_ctx w0 w1) by (by etrans).
  eapply wp_bind, (fw_log_write _ _ _ _ b); [exact Hw1|by rewrite (proj2 Hc01)|apply lookup_insert_eq|simpl; lia|].
  simpl. intros w2 Hc2 Hw2. rewrite insert_insert_eq in Hw2. assert (Hc02 : same_ctx w0 w2) by (by etrans).
  eapply (fw_brelse _ _ _ _ b); [exact Hw2|by rewrite (proj2 Hc02)|apply lookup_insert_eq|].
  simpl. rewrite delete_insert_id by done. intros w3 Hc3 Hw3. apply HQ; [by etrans|done].
Qed.

Lemma fw_update_end {A} t sb it u b i d (k : M (fsst S U) A) Q w w0 :
  fsw w (TxSt (t_view t) (<[b := (i, false)]> (t_open t)) (t_logged t)) sb it u -> same_ctx w0 w ->
  no_tx_locks (w_held w0) -> t_open t !! b = None -> room t 1 -> length d = Z.to_nat BSIZE ->
  (forall w', same_ctx w0 w' -> fsw w' (tx_upd t b d) sb it u -> wp k Q w') ->
  wp (tx (tx_set_data i d);; tx (tx_log_write i);; tx (tx_brelse i);; k) Q w.
Proof.
  intros Hw Hc Hnl Ho Hr Hd HQ.
  pose proof (fw_update_last t sb it u b i d (fun _ => wp k Q) w w0 Hw Hc Hnl Ho Hr Hd HQ) as H.
  unfold wp, mbind, M_bind in *. destruct (tx (tx_set_data i d) w) as [? w1| | | |]; [|done..].
  destruct (tx (tx_log_write i) w1) as [? w2| | | |]; [|done..]. by destruct (tx (tx_brelse i) w2).
Qed.

(** ** The block allocator *)

(** First block after the free map; the blocks of files start here. *)
Definition data_start sb : Z := sb_bmapstart sb + sb_size sb / BPB + 1.

(** The layout mkfs makes: [ boot | super | log | inodes | free map | data ]. *)
Record layout sb : Prop := {
  la_size : 0 < sb_size sb < 2 ^ 30;
  la_bmap : 0 <= sb_bmapstart sb < 2 ^ 30;
  la_inodes : 0 < sb_inodestart sb /\ sb_inodestart sb + sb_ninodes sb / IPB < sb_bmapstart sb;
  la_ninodes : 0 < sb_ninodes sb < 2 ^ 16;
  la_home : forall b, sb_inodestart sb <= b < sb_size sb -> home b;
  la_data : data_start sb <= sb_size sb }.

(** Block [b] is in use according to the free map. *)
Definition used sb (v : Z -> list Z) (b : Z) : bool := bit (v (BBLOCK b sb)) (b mod BPB).

(** Only data blocks are free. *)
Definition map_ok sb (v : Z -> list Z) : Prop := forall b, 0 <= b < sb_size sb -> used sb v b = false -> data_start sb <= b.

(** Buffers that are open during an allocation are data blocks in use. *)
Definition open_ok sb t : Prop :=
  forall b, is_Some (t_open t !! b) -> data_start sb <= b < sb_size sb /\ used sb (t_view t) b = true.

Lemma bblock_eq sb b : layout sb -> 0 <= b < sb_size sb -> BBLOCK b sb = sb_bmapstart sb + b / BPB.
Proof.
  intros [] Hb. unfold BBLOCK. rewrite u32_small; [lia|]. pose proof (Z.div_pos b BPB ltac:(lia) ltac:(done)).
  pose proof (Z.div_le_upper_bound b BPB b ltac:(done) ltac:(unfold BPB, BSIZE; lia)). lia.
Qed.

Lemma bblock_range sb b : layout sb -> 0 <= b < sb_size sb -> sb_bmapstart sb <= BBLOCK b sb < data_start sb.
Proof.
  intros Hl Hb. rewrite bblock_eq by done. unfold data_start. pose proof (Z.div_pos b BPB ltac:(lia) ltac:(done)).
  pose proof (Z.div_le_mono b (sb_size sb) BPB ltac:(done) ltac:(lia)). lia.
Qed.

Lemma bblock_home sb b : layout sb -> 0 <= b < sb_size sb -> home (BBLOCK b sb).
Proof.
  intros Hl Hb. pose proof (bblock_range sb b Hl Hb). destruct Hl as [H1 H2 [H3 H4] H5 H6 H7]. apply H6.
  pose proof (Z.div_pos (sb_ninodes sb) IPB ltac:(lia) ltac:(done)). lia.
Qed.

Lemma data_home sb b : layout sb -> data_start sb <= b < sb_size sb -> home b.
Proof.
  intros [H1 H2 [H3 H4] H5 H6 H7] Hb. apply H6. unfold data_start in Hb.
  pose proof (Z.div_pos (sb_ninodes sb) IPB ltac:(lia) ltac:(done)).
  pose proof (Z.div_pos (sb_size sb) BPB ltac:(lia) ltac:(done)). lia.
Qed.

Lemma bmap_not_open sb t b : layout sb -> open_ok sb t -> 0 <= b < sb_size sb -> t_open t !! BBLOCK b sb = None.
Proof.
  intros Hl Ho Hb. apply eq_None_not_Some. intros Hs. apply Ho in Hs as [Hd _]. pose proof (bblock_range sb b Hl Hb). lia.
Qed.

(** The effect of allocating block [r]: its bit is set, and it is zeroed. *)
Definition mark_tx sb t (r : Z) : txst := tx_upd t (BBLOCK r sb) (set_bit (t_view t (BBLOCK r sb)) (r mod BPB)).
Definition zero_block : list Z := repeat 0 (Z.to_nat BSIZE).
Definition alloc_tx sb t (r : Z) : txst := tx_upd (mark_tx sb t r) r zero_block.

Lemma wp_bzero t sb it u b (Q : () -> world (fsst S U) -> Prop) w :
  fsw w t sb it u -> no_tx_locks (w_held w) -> home b -> t_open t !! b = None -> room t 1 ->
  (forall w', same_ctx w w' -> fsw w' (tx_upd t b zero_block) sb it u -> Q () w') -> wp (bzero dev b) Q w.
Proof.
  intros Hw Hnl Hb Ho Hr HQ. eapply fw_read; [done..|]. intros i w1 Hc1 Hw1.
  eapply (fw_update_last t sb it u b); [exact Hw1|done..|apply repeat_length|]. done.
Qed.

(** The position of a bit within the map. *)
Lemma bmap_pos sb q bi : layout sb -> 0 <= q -> 0 <= bi < BPB -> BPB * q + bi < sb_size sb ->
  BBLOCK (BPB * q + bi) sb = BBLOCK (BPB * q) sb /\ (BPB * q + bi) mod BPB = bi.
Proof.
  intros Hl Hq Hbi Hs. assert (0 < BPB) by done. assert (0 <= BPB * q) by nia.
  rewrite !bblock_eq by (done || lia). rewrite !(Z.mul_comm BPB q).
  rewrite Z.div_add_l, Z.div_mul, Z.div_small by lia. split; [lia|].
  rewrite Z.add_comm, Z_mod_plus_full. by apply Z.mod_small.
Qed.

Lemma wp_balloc_loop t sb it u (Q : Z -> world (fsst S U) -> Prop) w :
  layout sb -> map_ok sb (t_view t) -> open_ok sb t -> no_tx_locks (w_held w) -> room t 2 ->
  (forall w', same_ctx w w' -> fsw w' t sb it u -> (forall k, 0 <= k < sb_size sb -> used sb (t_view t) k = true) -> Q 0 w') ->
  (forall r w', same_ctx w w' -> fsw w' (alloc_tx sb t r) sb it u -> data_start sb <= r < sb_size sb ->
     used sb (t_view t) r = false -> Q r w') ->
  forall fuel q w1, fsw w1 t sb it u -> same_ctx w w1 -> 0 <= q -> sb_size sb <= BPB * (q + Z.of_nat fuel) ->
    (forall k, 0 <= k < sb_size sb -> k < BPB * q -> used sb (t_view t) k = true) ->
    wp (balloc_loop (Datatypes.S fuel) dev (BPB * q)) Q w1.
Proof.
  intros Hl Hmap Hopen Hnl Hr HQ0 HQ1. assert (HB : 0 < BPB) by done.
  assert (Hnone : forall q w1, fsw w1 t sb it u -> same_ctx w w1 -> sb_size sb <= BPB * q ->
    (forall k, 0 <= k < sb_size sb -> k < BPB * q -> used sb (t_view t) k = true) ->
    wp (printk "balloc: out of blocks";; mret 0) Q w1).
  { intros q w1 Hw1 Hc1 Hge Hlow. eapply wp_bind, fw_printk; [exact Hw1|]. intros w2 Hc2 Hw2.
    apply wp_ret, HQ0; [by etrans|done|]. intros k Hk. apply Hlow; lia. }
  induction fuel as [|fuel IH]; intros q w1 Hw1 Hc1 Hq Hf Hlow.
  { cbn [balloc_loop]. eapply wp_bind, fw_getsb; [exact Hw1|]. destruct (Z.ltb_spec (BPB * q) (sb_size sb)); [lia|].
    by apply (Hnone q). }
  remember (Datatypes.S fuel) as f1 eqn:Ef. cbn [balloc_loop]. eapply wp_bind, fw_getsb; [exact Hw1|].
  destruct (Z.ltb_spec (BPB * q) (sb_size sb)) as [Hlt|Hge]; [|by apply (Hnone q)].
  assert (Hb0 : 0 <= BPB * q) by nia.
  assert (Hno : t_open t !! BBLOCK (BPB * q) sb = None) by (by apply bmap_not_open).
  eapply fw_read; [exact Hw1|by rewrite (proj2 Hc1)|by apply bblock_home|done|by eapply room_le; [exact Hr|lia]|].
  intros i w2 Hc2 Hw2. assert (Hc12 : same_ctx w w2) by (by etrans).
  eapply wp_bind, (fw_data _ _ _ _ (BBLOCK (BPB * q) sb)); [exact Hw2|apply lookup_insert_eq|]. cbn [t_view].
  set (d := t_view t (BBLOCK (BPB * q) sb)).
  pose proof (balloc_scan_spec (Z.to_nat BPB) d (BPB * q) 0 (sb_size sb)) as Hscan.
  destruct (balloc_scan (Z.to_nat BPB) d (BPB * q) 0 (sb_size sb)) as [bi|]; rewrite Z2Nat.id in Hscan by done.
  - destruct Hscan as (Hbi & Hs & Hbit & _). destruct (bmap_pos sb q bi Hl Hq ltac:(lia) Hs) as [E1 E2].
    set (r := BPB * q + bi) in *.
    assert (Hfree : used sb (t_view t) r = false) by (unfold used; by rewrite E1, E2).
    assert (Hdata : data_start sb <= r < sb_size sb) by (split; [apply Hmap; [lia|done]|lia]).
    assert (Hor : t_open t !! r = None).
    { apply eq_None_not_Some. intros [_ Hu]%Hopen. congruence. }
    eapply (fw_update_end t sb it u (BBLOCK (BPB * q) sb)); [exact Hw2|exact Hc12|done|done|by eapply room_le; [exact Hr|lia]
      |by rewrite length_set_bit; eapply (fsw_wf w1)|].
    intros w3 Hc3 Hw3. eapply wp_bind, wp_bzero; [exact Hw3|by rewrite (proj2 Hc3)|by eapply data_home|exact Hor|by apply room_upd|].
    intros w4 Hc4 Hw4. apply wp_ret, HQ1; [by etrans| |done|done].
    unfold alloc_tx, mark_tx. by rewrite E1, E2.
  - eapply wp_bind, (fw_read_end t sb it u (BBLOCK (BPB * q) sb)); [exact Hw2|exact Hc12|done|done|]. intros w3 Hc3 Hw3.
    replace (BPB * q + BPB) with (BPB * (q + 1)) by lia. apply IH; [done|done|lia|lia|].
    intros k Hk Hk2. destruct (decide (k < BPB * q)) as [|Hge2]; [by apply Hlow|].
    destruct (bmap_pos sb q (k - BPB * q) Hl Hq) as [E1 E2]; [lia|lia|].
    replace (BPB * q + (k - BPB * q)) with k in * by lia. unfold used. rewrite E1, E2. apply Hscan; lia.
Qed.

Lemma wp_balloc t sb it u (Q : Z -> world (fsst S U) -> Prop) w :
  layout sb -> map_ok sb (t_view t) -> open_ok sb t -> fsw w t sb it u -> no_tx_locks (w_held w) -> room t 2 ->
  (forall w', same_ctx w w' -> fsw w' t sb it u -> (forall k, 0 <= k < sb_size sb -> used sb (t_view t) k = true) -> Q 0 w') ->
  (forall r w', same_ctx w w' -> fsw w' (alloc_tx sb t r) sb it u -> data_start sb <= r < sb_size sb ->
     used sb (t_view t) r = false -> Q r w') ->
  wp (balloc dev) Q w.
Proof.
  intros Hl Hmap Hopen Hw Hnl Hr HQ0 HQ1. eapply wp_bind, fw_getsb; [exact Hw|].
  replace 0 with (BPB * 0) by lia. eapply (wp_balloc_loop t sb it u Q w); try done; [|intros; lia].
  pose proof (la_size _ Hl). assert (HB : 0 < BPB) by done. pose proof (Z.div_pos (sb_size sb) BPB ltac:(lia) HB).
  pose proof (Z.div_mod (sb_size sb) BPB ltac:(lia)). pose proof (Z.mod_pos_bound (sb_size sb) BPB HB).
  rewrite Nat2Z.inj_succ, Z2Nat.id by done. nia.
Qed.

(** What allocation does to the map: one more block in use. *)
Lemma used_upd_other sb v b d k : layout sb -> 0 <= k < sb_size sb -> data_start sb <= b ->
  used sb (fupd v b d) k = used sb v k.
Proof.
  intros Hl Hk Hb. unfold used. rewrite fupd_other; [done|]. pose proof (bblock_range sb k Hl Hk). lia.
Qed.

Lemma used_bit sb v r k d (val : bool) :
  layout sb -> 0 <= r < sb_size sb -> 0 <= k < sb_size sb ->
  (forall bj, 0 <= bj -> bit d bj = if decide (bj = r mod BPB) then val else bit (v (BBLOCK r sb)) bj) ->
  used sb (fupd v (BBLOCK r sb) d) k = if decide (k = r) then val else used sb v k.
Proof.
  intros Hl Hr Hk Hd. unfold used. pose proof (Z.mod_pos_bound k BPB ltac:(done)).
  assert (Hkr : BBLOCK k sb = BBLOCK r sb -> k mod BPB = r mod BPB -> k = r).
  { rewrite !bblock_eq by done. intros E1 E2. pose proof (Z.div_mod k BPB ltac:(done)). pose proof (Z.div_mod r BPB ltac:(done)). lia. }
  unfold fupd. destruct (decide (BBLOCK k sb = BBLOCK r sb)) as [E|E].
  - rewrite Hd by lia. rewrite E. destruct (decide (k = r)) as [->|Hne]; [by rewrite decide_True|].
    by rewrite decide_False by naive_solver.
  - rewrite decide_False by (by intros ->). done.
Qed.

Lemma used_mark sb v r k :
  layout sb -> (forall b, length (v b) = Z.to_nat BSIZE) -> 0 <= r < sb_size sb -> 0 <= k < sb_size sb ->
  used sb (fupd v (BBLOCK r sb) (set_bit (v (BBLOCK r sb)) (r mod BPB))) k = if decide (k = r) then true else used sb v k.
Proof. intros. apply used_bit; [done..|]. intros bj Hbj. apply bit_set; [done|by apply Z.mod_pos_bound|done]. Qed.

Lemma used_unmark sb v r k :
  layout sb -> (forall b, length (v b) = Z.to_nat BSIZE) -> 0 <= r < sb_size sb -> 0 <= k < sb_size sb ->
  used sb (fupd v (BBLOCK r sb) (clear_bit (v (BBLOCK r sb)) (r mod BPB))) k = if decide (k = r) then false else used sb v k.
Proof. intros. apply used_bit; [done..|]. intros bj Hbj. apply bit_clear; [done|by apply Z.mod_pos_bound|done]. Qed.

Lemma used_alloc sb t r k :
  layout sb -> (forall b, length (t_view t b) = Z.to_nat BSIZE) -> data_start sb <= r < sb_size sb -> 0 <= k < sb_size sb ->
  used sb (t_view (alloc_tx sb t r)) k = if decide (k = r) then true else used sb (t_view t) k.
Proof.
  intros Hl Hwf Hr Hk. unfold alloc_tx. cbn [tx_upd t_view]. rewrite used_upd_other by (done || lia).
  apply used_mark; [done..| |done]. unfold data_start in Hr. destruct Hl.
  pose proof (Z.div_pos (sb_size sb) BPB ltac:(lia) ltac:(done)). lia.
Qed.

(** *** bfree *)

Definition free_tx sb t (b : Z) : txst := tx_upd t (BBLOCK b sb) (clear_bit (t_view t (BBLOCK b sb)) (b mod BPB)).

Lemma wp_bfree t sb it u b (Q : () -> world (fsst S U) -> Prop) w :
  layout sb -> open_ok sb t -> fsw w t sb it u -> no_tx_locks (w_held w) -> room t 1 -> 0 <= b < sb_size sb ->
  used sb (t_view t) b = true ->
  (forall w', same_ctx w w' -> fsw w' (free_tx sb t b) sb it u -> Q () w') -> wp (bfree dev b) Q w.
Proof.
  intros Hl Hopen Hw Hnl Hr Hb Hu HQ. eapply wp_bind, fw_getsb; [exact Hw|].
  eapply fw_read; [exact Hw|done|by apply bblock_home|by apply bmap_not_open|done|]. intros i w1 Hc1 Hw1.
  eapply wp_bind, (fw_data _ _ _ _ (BBLOCK b sb)); [exact Hw1|apply lookup_insert_eq|]. cbn [t_view].
  rewrite bit_free_spec. unfold used in Hu. rewrite Hu. cbn [negb].
  eapply (fw_update_last t sb it u (BBLOCK b sb)); [exact Hw1|exact Hc1|done|by apply bmap_not_open|done| |done].
  rewrite length_clear_bit. by eapply (fsw_wf w).
Qed.

(** Freeing a block that is free panics. *)
Lemma bfree_panics t sb it u b w :
  layout sb -> open_ok sb t -> fsw w t sb it u -> no_tx_locks (w_held w) -> room t 1 -> 0 <= b < sb_size sb ->
  used sb (t_view t) b = false -> bfree (U := U) dev b w = Panic "freeing free block".
Proof.
  intros Hl Hopen Hw Hnl Hr Hb Hu. eapply eq_bind, fw_getsb; [exact Hw|].
  eapply eq_bind, fw_bread; [exact Hw|done|by apply bblock_home|by apply bmap_not_open|done|]. intros i w1 Hc1 Hw1.
  eapply eq_bind, (fw_data _ _ _ _ (BBLOCK b sb)); [exact Hw1|apply lookup_insert_eq|]. cbn [t_view].
  rewrite bit_free_spec. unfold used in Hu. by rewrite Hu.
Qed.
End spec.
