(* ===== verification/FsFile.v ===== *)
(** The content of files: block maps of inodes, [bmap], [readi] and [writei]
    of kernel/fs.c. *)

From S2P Require Import Prelude KMonad UserMem Bytes Sleeplock BlockStore Fs FsSpec.

(** ** The block map of an inode *)

Definition ind_of (x : inode) : Z := nth (Z.to_nat NDIRECT) (i_addrs x) 0.

(** The block that holds block [bn] of the file; 0 when there is none. *)
Definition addr_of (v : Z -> list Z) (x : inode) (bn : Z) : Z :=
  if bn <? NDIRECT then nth (Z.to_nat bn) (i_addrs x) 0
  else if ind_of x =? 0 then 0
  else get32 (v (ind_of x)) (Z.to_nat (4 * (bn - NDIRECT))).

Lemma le_value_zeros l : Forall (eq 0) l -> le_value l = 0.
Proof. induction 1 as [|y l <- _ IH]; [done|]. cbn [le_value]. by rewrite IH. Qed.

Lemma get32_zero off : get32 zero_block off = 0.
Proof.
  apply le_value_zeros. unfold slice. apply Forall_take, Forall_drop. unfold zero_block.
  apply Forall_forall. intros z Hz%list_elem_of_In%repeat_spec. done.
Qed.

Section file.
Context {S U : Type} {tops : TxOps S} {uops : UserOps U} {dev limit : Z} {home : Z -> Prop}
  {laws : TxLaws S dev limit home}.
Implicit Types (w : world (fsst S U)) (t : txst) (sb : superblock) (it : list inode) (v : Z -> list Z) (x : inode).

Definition data_block sb (b : Z) : Prop := data_start sb <= b < sb_size sb.

(** The blocks of a file are data blocks in use, each for one purpose. *)
Record file_ok sb v x : Prop := {
  fo_len : length (i_addrs x) = Z.to_nat (NDIRECT + 1);
  fo_dev : i_dev x = dev;
  fo_addr : forall bn, 0 <= bn < MAXFILE -> addr_of v x bn <> 0 -> data_block sb (addr_of v x bn) /\ used sb v (addr_of v x bn) = true;
  fo_ind : ind_of x <> 0 -> data_block sb (ind_of x) /\ used sb v (ind_of x) = true;
  fo_inj : forall bn bn', 0 <= bn < MAXFILE -> 0 <= bn' < MAXFILE -> addr_of v x bn <> 0 ->
    addr_of v x bn = addr_of v x bn' -> bn = bn';
  fo_ne : forall bn, 0 <= bn < MAXFILE -> addr_of v x bn <> 0 -> addr_of v x bn <> ind_of x }.

(** The parts of an inode other than its block map. *)
Record same_meta x x' : Prop := {
  sm_dev : i_dev x' = i_dev x;
  sm_inum : i_inum x' = i_inum x;
  sm_ref : i_ref x' = i_ref x;
  sm_lock : i_lock x' = i_lock x;
  sm_valid : i_valid x' = i_valid x;
  sm_type : i_type x' = i_type x;
  sm_major : i_major x' = i_major x;
  sm_minor : i_minor x' = i_minor x;
  sm_nlink : i_nlink x' = i_nlink x;
  sm_size : i_size x' = i_size x }.

#[global] Instance same_meta_refl : Reflexive same_meta.
Proof. by split. Qed.
#[global] Instance same_meta_trans : Transitive same_meta.
Proof. intros x y z [] []. split; congruence. Qed.

(** The file has grown by free blocks that are now in use and zeroed; no other
    block in use has changed, but the free map and the indirect block. *)
Record file_ext sb t x t' x' : Prop := {
  fe_ok : file_ok sb (t_view t') x';
  fe_meta : same_meta x x';
  fe_addr : forall bn, 0 <= bn < MAXFILE -> addr_of (t_view t) x bn <> 0 ->
    addr_of (t_view t') x' bn = addr_of (t_view t) x bn;
  fe_new : forall bn, 0 <= bn < MAXFILE -> addr_of (t_view t) x bn = 0 -> addr_of (t_view t') x' bn <> 0 ->
    used sb (t_view t) (addr_of (t_view t') x' bn) = false /\ t_view t' (addr_of (t_view t') x' bn) = zero_block;
  fe_ind : ind_of x' = ind_of x \/ (ind_of x = 0 /\ used sb (t_view t) (ind_of x') = false);
  fe_data : forall b, data_block sb b -> used sb (t_view t) b = true -> b <> ind_of x -> t_view t' b = t_view t b;
  fe_used : forall b, 0 <= b < sb_size sb -> used sb (t_view t) b = true -> used sb (t_view t') b = true;
  fe_low : forall b, b < sb_bmapstart sb -> t_view t' b = t_view t b;
  fe_map : map_ok sb (t_view t');
  fe_open : t_open t' = t_open t }.

Lemma file_ext_refl sb t x : file_ok sb (t_view t) x -> map_ok sb (t_view t) -> file_ext sb t x t x.
Proof. intros Hf Hm. split; try done. by left. Qed.

Lemma data_block_pos sb b : layout (home := home) sb -> data_block sb b -> 0 < b < sb_size sb.
Proof.
  intros [H1 H2 [H3 H4] H5 H6 H7] Hb. unfold data_block, data_start in Hb.
  pose proof (Z.div_pos (sb_size sb) BPB ltac:(lia) ltac:(done)). lia.
Qed.

Lemma file_ext_trans sb t x t1 x1 t2 x2 :
  layout (home := home) sb -> file_ok sb (t_view t) x -> file_ext sb t x t1 x1 -> file_ext sb t1 x1 t2 x2 -> file_ext sb t x t2 x2.
Proof.
  intros Hl Hf [A1 A2 A3 A4 A5 A6 A7 A8 A9 A10] [B1 B2 B3 B4 B5 B6 B7 B8 B9 B10].
  assert (Hback : forall b, 0 <= b < sb_size sb -> used sb (t_view t1) b = false -> used sb (t_view t) b = false).
  { intros b Hb Hu. destruct (used sb (t_view t) b) eqn:E; [|done]. by rewrite A7 in Hu. }
  assert (Hind : forall b, data_block sb b -> used sb (t_view t) b = true -> b <> ind_of x -> b <> ind_of x1).
  { intros b Hb Hu Hne ->. destruct A5 as [E|[E1 E2]]; [congruence|congruence]. }
  split; try done.
  - by etrans.
  - intros bn Hbn Hne. rewrite B3; [by apply A3|done|]. by rewrite A3.
  - intros bn Hbn H0 Hne. destruct (decide (addr_of (t_view t1) x1 bn = 0)) as [E|E].
    + destruct (B4 bn Hbn E Hne) as [Hu Hz]. split; [|done]. apply Hback; [|done].
      destruct (fo_addr _ _ _ B1 bn Hbn Hne) as [Hd _]. pose proof (data_block_pos _ _ Hl Hd). lia.
    + rewrite B3 by done. destruct (A4 bn Hbn H0 E) as [Hu Hz]. split; [done|].
      destruct (fo_addr _ _ _ A1 bn Hbn E) as [Hd Hu1]. rewrite B6; [done|done|done|]. by apply (fo_ne _ _ _ A1).
  - destruct B5 as [->|[E1 E2]]; [done|]. right. split; [by destruct A5 as [<-|[E _]]|].
    apply Hback; [|done]. destruct (decide (ind_of x2 = 0)) as [->|E0]; [destruct Hl; lia|].
    destruct (fo_ind _ _ _ B1 E0) as [Hd _]. pose proof (data_block_pos _ _ Hl Hd). lia.
  - intros b Hb Hu Hne. rewrite B6; [by apply A6|done| |by apply Hind].
    apply A7; [|done]. pose proof (data_block_pos _ _ Hl Hb). lia.
  - intros b Hb Hu. apply B7; [done|]. by apply A7.
  - intros b Hb. rewrite B8 by done. by apply A8.
  - by rewrite B10.
Qed.

(** One more block: [r], free before, becomes block [bn] of the file, or its
    indirect block. *)
Lemma grow_ext sb t x t' x' r (bn : option Z) :
  layout (home := home) sb -> map_ok sb (t_view t) -> file_ok sb (t_view t) x ->
  data_block sb r -> used sb (t_view t) r = false -> t_view t' r = zero_block ->
  (forall b, b <> r -> b <> BBLOCK r sb -> (ind_of x <> 0 -> b <> ind_of x) -> t_view t' b = t_view t b) ->
  (forall k, 0 <= k < sb_size sb -> used sb (t_view t') k = if decide (k = r) then true else used sb (t_view t) k) ->
  same_meta x x' -> length (i_addrs x') = length (i_addrs x) ->
  (forall k, 0 <= k < MAXFILE -> addr_of (t_view t') x' k = if decide (bn = Some k) then r else addr_of (t_view t) x k) ->
  (forall k, bn = Some k -> addr_of (t_view t) x k = 0) ->
  (ind_of x' = ind_of x \/ (ind_of x = 0 /\ ind_of x' = r /\ bn = None)) ->
  t_open t' = t_open t -> file_ext sb t x t' x'.
Proof.
  intros Hl Hmap Hf Hr Hfree Hz Hview Hused Hmeta Hlen Haddr Hbn Hind Hopen.
  pose proof (data_block_pos _ _ Hl Hr) as Hrpos.
  assert (Hu : forall b, data_block sb b -> used sb (t_view t) b = true -> used sb (t_view t') b = true).
  { intros b Hb Hub. pose proof (data_block_pos _ _ Hl Hb). rewrite Hused by lia. by case_decide. }
  assert (Hne : forall b, used sb (t_view t) b = true -> b <> r) by (intros b Hb ->; congruence).
  destruct Hf as [F1 F2 F3 F4 F5 F6]. split; try done.
  - split.
    + by rewrite Hlen.
    + destruct Hmeta. congruence.
    + intros k Hk. rewrite Haddr by done. case_decide as Hd.
      * intros _. split; [done|]. rewrite Hused by lia. by rewrite decide_True.
      * intros Hn. destruct (F3 k Hk Hn). split; [done|by apply Hu].
    + destruct Hind as [->|(E1 & -> & E3)]; intros Hn.
      * destruct (F4 Hn). split; [done|by apply Hu].
      * split; [done|]. rewrite Hused by lia. by rewrite decide_True.
    + intros k k' Hk Hk'. rewrite !Haddr by done. case_decide as Hd; case_decide as Hd'; intros Hn He; try congruence.
      * exfalso. assert (Hn' : addr_of (t_view t) x k' <> 0) by lia. destruct (F3 k' Hk' Hn') as [_ Hx]. by apply Hne in Hx.
      * exfalso. destruct (F3 k Hk Hn) as [_ Hx]. by apply Hne in Hx.
      * by apply F5.
    + intros k Hk. rewrite Haddr by done. case_decide as Hd; intros Hn.
      * destruct Hind as [->|(E1 & -> & E3)]; [|congruence]. intros ->. destruct (F4 Hn) as [_ Hx]. congruence.
      * destruct (F3 k Hk Hn) as [_ Hx]. destruct Hind as [->|(E1 & -> & E3)]; [by apply F6|by apply Hne].
  - intros k Hk Hn. rewrite Haddr by done. case_decide as Hd; [|done]. by apply Hbn in Hd.
  - intros k Hk H0. rewrite Haddr by done. case_decide as Hd; [by intros _|done].
  - destruct Hind as [->|(E1 & -> & E3)]; [by left|by right].
  - intros b Hb Hub Hni. apply Hview; [by apply Hne| |done]. pose proof (bblock_range sb r Hl ltac:(lia)).
    unfold data_block in Hb. lia.
  - intros b Hb Hub. rewrite Hused by done. by case_decide.
  - intros b Hb. pose proof (bblock_range sb r Hl ltac:(lia)).
    assert (Hbelow : forall c, data_block sb c -> b <> c).
    { intros c Hc. unfold data_block, data_start in Hc. pose proof (Z.div_pos (sb_size sb) BPB ltac:(lia) ltac:(done)). lia. }
    apply Hview; [by apply Hbelow|lia|]. intros Hn. apply Hbelow. by destruct (F4 Hn).
  - intros b Hb. rewrite Hused by done. case_decide; [done|]. by apply Hmap.
Qed.

(** *** The three ways [bmap] grows a file *)

Lemma alloc_view sb t r b : b <> r -> b <> BBLOCK r sb -> t_view (alloc_tx sb t r) b = t_view t b.
Proof. intros H1 H2. unfold alloc_tx, mark_tx. cbn [tx_upd t_view]. by rewrite !fupd_other. Qed.

Lemma alloc_view_new sb t r : t_view (alloc_tx sb t r) r = zero_block.
Proof. unfold alloc_tx. cbn [tx_upd t_view]. apply fupd_same. Qed.

Lemma bblock_not_data sb r b : layout (home := home) sb -> 0 <= r < sb_size sb -> data_block sb b -> b <> BBLOCK r sb.
Proof. intros Hl Hr Hb. pose proof (bblock_range sb r Hl Hr). unfold data_block in Hb. lia. Qed.

Lemma set_iaddr_meta x k a : same_meta x (set_iaddr k a x).
Proof. by split. Qed.

Lemma nth_set_iaddr x k a j : (k < length (i_addrs x))%nat ->
  nth j (i_addrs (set_iaddr k a x)) 0 = if decide (j = k) then a else nth j (i_addrs x) 0.
Proof.
  intros Hk. simpl. rewrite !nth_lookup. case_decide as Hd; [subst; by rewrite list_lookup_insert_eq|].
  by rewrite list_lookup_insert_ne.
Qed.

Lemma grow_direct sb t x r bn :
  layout (home := home) sb -> map_ok sb (t_view t) -> (forall b, length (t_view t b) = Z.to_nat BSIZE) ->
  file_ok sb (t_view t) x -> data_block sb r -> used sb (t_view t) r = false ->
  0 <= bn < NDIRECT -> addr_of (t_view t) x bn = 0 ->
  file_ext sb t x (alloc_tx sb t r) (set_iaddr (Z.to_nat bn) r x) /\
  addr_of (t_view (alloc_tx sb t r)) (set_iaddr (Z.to_nat bn) r x) bn = r.
Proof.
  intros Hl Hmap Hwf Hf Hr Hfree Hbn H0. pose proof (data_block_pos _ _ Hl Hr) as Hrp. unfold NDIRECT in *.
  assert (Hlen : length (i_addrs x) = 13%nat) by apply (fo_len _ _ _ Hf).
  assert (Hind : ind_of (set_iaddr (Z.to_nat bn) r x) = ind_of x).
  { unfold ind_of, NDIRECT. rewrite nth_set_iaddr by lia. by rewrite decide_False by lia. }
  assert (Haddr : forall k, 0 <= k < MAXFILE ->
    addr_of (t_view (alloc_tx sb t r)) (set_iaddr (Z.to_nat bn) r x) k =
    if decide (Some bn = Some k) then r else addr_of (t_view t) x k).
  { intros k Hk. unfold addr_of. rewrite Hind. unfold NDIRECT. destruct (Z.ltb_spec k 12).
    - rewrite nth_set_iaddr by lia. destruct (decide (Some bn = Some k)) as [E|E]; [injection E as ->; by rewrite decide_True|].
      rewrite decide_False; [done|]. intros E2. apply E. f_equal. lia.
    - rewrite decide_False by (intros [= ->]; lia). destruct (Z.eqb_spec (ind_of x) 0) as [|Hn]; [done|].
      destruct (fo_ind _ _ _ Hf Hn) as [Hd Hu]. rewrite alloc_view; [done|intros E; congruence|by apply bblock_not_data; [|lia|]]. }
  split; [|rewrite Haddr by (change MAXFILE with 268; lia); by rewrite decide_True].
  eapply (grow_ext _ _ _ _ _ r (Some bn)); try done.
  - apply alloc_view_new.
  - intros b H1 H2 _. by apply alloc_view.
  - intros k Hk. by eapply used_alloc.
  - simpl. by rewrite length_insert.
  - intros k [= ->]. done.
  - by left.
Qed.

Lemma grow_indirect sb t x r :
  layout (home := home) sb -> map_ok sb (t_view t) -> (forall b, length (t_view t b) = Z.to_nat BSIZE) ->
  file_ok sb (t_view t) x -> data_block sb r -> used sb (t_view t) r = false -> ind_of x = 0 ->
  file_ext sb t x (alloc_tx sb t r) (set_iaddr (Z.to_nat NDIRECT) r x).
Proof.
  intros Hl Hmap Hwf Hf Hr Hfree H0. pose proof (data_block_pos _ _ Hl Hr) as Hrp.
  assert (Hlen : length (i_addrs x) = 13%nat) by apply (fo_len _ _ _ Hf).
  assert (Hind : ind_of (set_iaddr (Z.to_nat NDIRECT) r x) = r).
  { unfold ind_of. rewrite nth_set_iaddr by (unfold NDIRECT; lia). by rewrite decide_True. }
  eapply (grow_ext _ _ _ _ _ r None); try done.
  - apply alloc_view_new.
  - intros b H1 H2 _. by apply alloc_view.
  - intros k Hk. by eapply used_alloc.
  - simpl. by rewrite length_insert.
  - intros k Hk. rewrite decide_False by done. unfold addr_of. rewrite Hind, H0. destruct (Z.ltb_spec k NDIRECT).
    + rewrite nth_set_iaddr by (unfold NDIRECT; lia). rewrite decide_False; [done|]. unfold NDIRECT in *. lia.
    + rewrite (proj2 (Z.eqb_neq r 0)) by lia. rewrite alloc_view_new. apply get32_zero.
  - right. done.
Qed.

Lemma grow_entry sb t x r bn :
  layout (home := home) sb -> map_ok sb (t_view t) -> (forall b, length (t_view t b) = Z.to_nat BSIZE) ->
  file_ok sb (t_view t) x -> data_block sb r -> used sb (t_view t) r = false -> ind_of x <> 0 ->
  NDIRECT <= bn < MAXFILE -> addr_of (t_view t) x bn = 0 ->
  let t' := tx_upd (alloc_tx sb t r) (ind_of x) (put32 (t_view t (ind_of x)) (Z.to_nat (4 * (bn - NDIRECT))) r) in
  file_ext sb t x t' x /\ addr_of (t_view t') x bn = r.
Proof.
  intros Hl Hmap Hwf Hf Hr Hfree Hn Hbn H0 t'. pose proof (data_block_pos _ _ Hl Hr) as Hrp.
  destruct (fo_ind _ _ _ Hf Hn) as [Hdi Hui]. assert (Hir : ind_of x <> r) by (intros E; congruence).
  change MAXFILE with 268 in *. unfold NDIRECT in Hbn.
  assert (Hoff : forall k, 12 <= k < 268 -> (Z.to_nat (4 * (k - 12)) + 4 <= length (t_view t (ind_of x)))%nat)
    by (intros k Hk; rewrite Hwf; unfold BSIZE; lia).
  assert (Haddr : forall k, 0 <= k < MAXFILE -> addr_of (t_view t') x k = if decide (Some bn = Some k) then r else addr_of (t_view t) x k).
  { intros k Hk.
    unfold addr_of, NDIRECT. destruct (Z.ltb_spec k 12); [by rewrite decide_False by (intros [= ->]; lia)|].
    rewrite (proj2 (Z.eqb_neq _ 0) Hn). unfold t'. cbn [tx_upd t_view]. rewrite fupd_same. unfold NDIRECT.
    destruct (decide (Some bn = Some k)) as [[= ->]|E].
    - rewrite get_put_le_same by (apply Hoff; lia). apply Z.mod_small. destruct Hl. simpl. lia.
    - apply get_put_le_other; [apply Hoff; lia|]. assert (bn <> k) by congruence. lia. }
  assert (Hview : forall b, b <> ind_of x -> t_view t' b = t_view (alloc_tx sb t r) b).
  { intros b Hb. unfold t'. cbn [tx_upd t_view]. by rewrite fupd_other. }
  split; [|rewrite Haddr by (change MAXFILE with 268; lia); by rewrite decide_True].
  eapply (grow_ext _ _ _ _ _ r (Some bn)); try done.
  - rewrite Hview by done. apply alloc_view_new.
  - intros b H1 H2 H3. rewrite Hview by (by apply H3). by apply alloc_view.
  - intros k Hk. unfold t'. cbn [tx_upd t_view]. rewrite (used_upd_other (home := home)) by (done || apply Hdi). by eapply used_alloc.
  - intros k [= ->]. done.
  - by left.
Qed.

(** *** bmap *)

Lemma fw_iaddr t sb it u ip x k (Q : Z -> world (fsst S U) -> Prop) w :
  fsw w t sb it u -> it !! ip = Some x -> (Z.to_nat k < length (i_addrs x))%nat ->
  Q (nth (Z.to_nat k) (i_addrs x) 0) w -> wp (iaddr ip k) Q w.
Proof.
  intros Hw Hx Hk HQ. eapply wp_bind, fw_iload; [exact Hw|exact Hx|].
  destruct (lookup_lt_is_Some_2 _ _ Hk) as [a Ha]. rewrite Ha. rewrite nth_lookup, Ha in HQ. exact HQ.
Qed.

Definition map_block sb (b : Z) : Prop := sb_bmapstart sb <= b < data_start sb.

(** The log of [t'] is that of [t] with blocks of the free map and [l]. *)
Definition logs sb t t' (l : list Z) : Prop :=
  forall b, b ∈ t_logged t' -> b ∈ t_logged t \/ map_block sb b \/ b ∈ l.

(** The outcome of a call that may have grown file [x], entry [ip] of the
    table, and logged the blocks [l] and those of the free map. *)
Record grown sb it t x ip u w t' x' w' (l : list Z) (n : nat) : Prop := {
  gr_ctx : same_ctx w w';
  gr_fsw : fsw (laws := laws) w' t' sb (<[ip := x']> it) u;
  gr_ext : file_ext sb t x t' x';
  gr_logs : logs sb t t' l;
  gr_nodup : NoDup (t_logged t) -> NoDup (t_logged t');
  gr_len : (length (t_logged t') <= length (t_logged t) + n)%nat }.

Lemma grown_same sb it t x ip u w w' l n :
  file_ok sb (t_view t) x -> map_ok sb (t_view t) -> it !! ip = Some x -> same_ctx w w' -> fsw (laws := laws) w' t sb it u ->
  grown sb it t x ip u w t x w' l n.
Proof.
  intros Hf Hm Hx Hc Hw. split; [done| |by apply file_ext_refl|by left|done|lia]. by rewrite list_insert_id.
Qed.

Lemma grown_trans sb it t x ip u w t1 x1 w1 l1 n1 t2 x2 w2 l2 n2 l :
  layout (home := home) sb -> file_ok sb (t_view t) x ->
  grown sb it t x ip u w t1 x1 w1 l1 n1 -> grown sb (<[ip := x1]> it) t1 x1 ip u w1 t2 x2 w2 l2 n2 ->
  (forall b, b ∈ l1 -> b ∈ l) -> (forall b, b ∈ l2 -> b ∈ l) ->
  grown sb it t x ip u w t2 x2 w2 l (n1 + n2).
Proof.
  intros Hl Hf [A1 A2 A3 A4 A5 A6] [B1 B2 B3 B4 B5 B6] Hs1 Hs2. split.
  - by etrans.
  - by rewrite list_insert_insert_eq in B2.
  - by eapply file_ext_trans.
  - intros b [[Hb|[Hb|Hb]]%A4|[Hb|Hb]]%B4; auto.
  - auto.
  - lia.
Qed.

Lemma alloc_logs sb t r l : layout (home := home) sb -> data_block sb r -> r ∈ l -> logs sb t (alloc_tx sb t r) l.
Proof.
  intros Hl Hr Hi b [[Hb| ->]%elem_of_add_block| ->]%elem_of_add_block; [by left| |by right; right].
  right. left. pose proof (data_block_pos _ _ Hl Hr).
  by apply (bblock_range (home := home)); [|lia].
Qed.

Definition nonzero (a : Z) : list Z := if a =? 0 then [] else [a].

Lemma nonzero_self a : a <> 0 -> a ∈ nonzero a.
Proof. intros H. unfold nonzero. rewrite (proj2 (Z.eqb_neq _ _)) by done. by apply list_elem_of_singleton. Qed.

Lemma elem_of_nonzero a b : b ∈ nonzero a -> b = a /\ a <> 0.
Proof.
  unfold nonzero. destruct (Z.eqb_spec a 0) as [|Hn]; [by intros ?%elem_of_nil|]. by intros ->%list_elem_of_singleton.
Qed.

Lemma alloc_nodup sb t r : NoDup (t_logged t) -> NoDup (t_logged (alloc_tx sb t r)).
Proof. intros H. by apply NoDup_add_block, NoDup_add_block. Qed.

Lemma length_alloc sb t r : (length (t_logged (alloc_tx sb t r)) <= length (t_logged t) + 2)%nat.
Proof.
  unfold alloc_tx, mark_tx. simpl. etrans; [apply length_add_block|].
  pose proof (length_add_block (BBLOCK r sb) (t_logged t)). lia.
Qed.

Definition full sb v : Prop := forall k, 0 <= k < sb_size sb -> used sb v k = true.

Lemma file_ext_full sb t x t' x' : file_ext sb t x t' x' -> full sb (t_view t) -> full sb (t_view t').
Proof. intros He Hf k Hk. by apply (fe_used _ _ _ _ _ He), Hf. Qed.

Lemma wp_bmap_direct t sb it u ip x bn (Q : Z -> world (fsst S U) -> Prop) w :
  layout (home := home) sb -> map_ok sb (t_view t) -> file_ok sb (t_view t) x ->
  fsw (laws := laws) w t sb it u -> it !! ip = Some x -> t_open t = ∅ -> no_tx_locks (w_held w) -> room (limit := limit) t 2 ->
  0 <= bn < NDIRECT ->
  (forall w' t' x', grown sb it t x ip u w t' x' w' (nonzero (addr_of (t_view t') x' bn)) 2 ->
     (addr_of (t_view t') x' bn = 0 -> full sb (t_view t')) -> Q (addr_of (t_view t') x' bn) w') ->
  wp (bmap ip bn) Q w.
Proof.
  intros Hl Hm Hf Hw Hx Ho Hnl Hr Hbn HQ.
  assert (Hlen : length (i_addrs x) = 13%nat) by apply (fo_len _ _ _ Hf).
  assert (Hwf : forall b, length (t_view t b) = Z.to_nat BSIZE) by (intros; by eapply fsw_wf).
  assert (Hopen0 : open_ok sb t) by (intros b [y Hy]; by rewrite Ho in Hy).
  assert (Ha : addr_of (t_view t) x bn = nth (Z.to_nat bn) (i_addrs x) 0)
    by (unfold addr_of; by rewrite (proj2 (Z.ltb_lt _ _)) by lia).
  unfold bmap. eapply wp_bind, fw_iload; [exact Hw|exact Hx|]. rewrite (fo_dev _ _ _ Hf).
  rewrite (proj2 (Z.ltb_lt _ _)) by lia.
  eapply wp_bind, fw_iaddr; [exact Hw|exact Hx|unfold NDIRECT in *; lia|]. rewrite <- Ha.
  destruct (Z.eqb_spec (addr_of (t_view t) x bn) 0) as [E|E].
  2:{ apply wp_ret, (HQ w t x); [by apply grown_same|done]. }
  eapply wp_bind, wp_balloc; [done..| |].
  - intros w1 Hc1 Hw1 Hfull. apply wp_ret. rewrite <- E. apply (HQ w1 t x); [by apply grown_same|done].
  - intros r w1 Hc1 Hw1 Hdr Hfree. pose proof (data_block_pos _ _ Hl Hdr).
    rewrite (proj2 (Z.eqb_neq r 0)) by lia. eapply wp_bind, fw_iassign; [exact Hw1|exact Hx|]. intros w2 Hc2 Hw2.
    destruct (grow_direct sb t x r bn) as [Hext Hadr]; try done.
    eapply wp_ret. rewrite <- Hadr at 1. apply (HQ w2 (alloc_tx sb t r) (set_iaddr (Z.to_nat bn) r x)); [|rewrite Hadr; lia].
    split; [by etrans|exact Hw2|done| |apply alloc_nodup|apply length_alloc].
    rewrite Hadr. apply alloc_logs; [done..|apply nonzero_self; lia].
Qed.

Lemma wp_bmap_ind t sb it u ip x (Q : Z -> world (fsst S U) -> Prop) w :
  layout (home := home) sb -> map_ok sb (t_view t) -> file_ok sb (t_view t) x ->
  fsw (laws := laws) w t sb it u -> it !! ip = Some x -> t_open t = ∅ -> no_tx_locks (w_held w) -> room (limit := limit) t 2 ->
  (forall w' t' x', grown sb it t x ip u w t' x' w' (nonzero (ind_of x')) 2 ->
     (ind_of x' = 0 -> full sb (t_view t')) -> Q (ind_of x') w') ->
  wp (bmap_ind ip x) Q w.
Proof.
  intros Hl Hm Hf Hw Hx Ho Hnl Hr HQ.
  assert (Hlen : length (i_addrs x) = 13%nat) by apply (fo_len _ _ _ Hf).
  assert (Hwf : forall b, length (t_view t b) = Z.to_nat BSIZE) by (intros; by eapply fsw_wf).
  assert (Hopen0 : open_ok sb t) by (intros b [y Hy]; by rewrite Ho in Hy).
  unfold bmap_ind. rewrite (fo_dev _ _ _ Hf).
  eapply wp_bind, fw_iaddr; [exact Hw|exact Hx|rewrite Hlen; unfold NDIRECT; lia|]. fold (ind_of x).
  destruct (Z.eqb_spec (ind_of x) 0) as [E|E].
  2:{ apply wp_ret, (HQ w t x); [by apply grown_same|done]. }
  eapply wp_bind, wp_balloc; [done..| |].
  - intros w1 Hc1 Hw1 Hfull. apply wp_ret. rewrite <- E. apply (HQ w1 t x); [by apply grown_same|done].
  - intros r w1 Hc1 Hw1 Hdr Hfree. pose proof (data_block_pos _ _ Hl Hdr).
    rewrite (proj2 (Z.eqb_neq r 0)) by lia. eapply wp_bind, fw_iassign; [exact Hw1|exact Hx|]. intros w2 Hc2 Hw2.
    assert (Hi : ind_of (set_iaddr (Z.to_nat NDIRECT) r x) = r)
      by (unfold ind_of; rewrite nth_set_iaddr by (rewrite Hlen; unfold NDIRECT; lia); by rewrite decide_True).
    eapply wp_ret. rewrite <- Hi at 1. apply (HQ w2 (alloc_tx sb t r) (set_iaddr (Z.to_nat NDIRECT) r x)); [|rewrite Hi; lia].
    split; [by etrans|exact Hw2|by apply grow_indirect| |apply alloc_nodup|apply length_alloc].
    rewrite Hi. apply alloc_logs; [done..|apply nonzero_self; lia].
Qed.

Lemma wp_bmap_entry t sb it u ip x bn (Q : Z -> world (fsst S U) -> Prop) w :
  layout (home := home) sb -> map_ok sb (t_view t) -> file_ok sb (t_view t) x ->
  fsw (laws := laws) w t sb it u -> it !! ip = Some x -> t_open t = ∅ -> no_tx_locks (w_held w) -> room (limit := limit) t 3 ->
  (length (t_logged t) + 4 <= NBUF)%nat -> NDIRECT <= bn < MAXFILE -> ind_of x <> 0 ->
  (forall w' t', grown sb it t x ip u w t' x w' (nonzero (ind_of x) ++ nonzero (addr_of (t_view t') x bn)) 3 ->
     (addr_of (t_view t') x bn = 0 -> full sb (t_view t')) -> Q (addr_of (t_view t') x bn) w') ->
  wp (bmap_entry dev (ind_of x) (bn - NDIRECT)) Q w.
Proof.
  intros Hl Hm Hf Hw Hx Ho Hnl Hr HN Hbn Hn HQ. set (b := ind_of x) in *.
  assert (Hwf : forall b, length (t_view t b) = Z.to_nat BSIZE) by (intros; by eapply fsw_wf).
  destruct (fo_ind _ _ _ Hf Hn) as [Hdi Hui]. fold b in Hdi, Hui.
  assert (Hnone : t_open t !! b = None) by (by rewrite Ho).
  unfold bmap_entry.
  eapply fw_read; [done|done|by eapply data_home|done|by eapply room_le; [exact Hr|lia]|]. intros i w1 Hc1 Hw1.
  eapply wp_bind, (fw_data _ _ _ _ b); [exact Hw1|apply lookup_insert_eq|]. cbn [t_view].
  assert (Ha : addr_of (t_view t) x bn = get32 (t_view t b) (Z.to_nat (4 * (bn - NDIRECT)))).
  { unfold addr_of. rewrite (proj2 (Z.ltb_ge _ _)) by lia. by rewrite (proj2 (Z.eqb_neq _ _)) by done. }
  rewrite <- Ha. apply wp_bind. destruct (Z.eqb_spec (addr_of (t_view t) x bn) 0) as [E|E].
  2:{ apply wp_ret. eapply wp_bind, (fw_read_end t); [exact Hw1|exact Hc1|done|done|]. intros w2 Hc2 Hw2.
      apply wp_ret, (HQ w2 t); [by apply grown_same|done]. }
  set (t1 := TxSt (t_view t) (<[b := (i, false)]> (t_open t)) (t_logged t)) in *.
  assert (Hnl1 : no_tx_locks (w_held w1)) by (by rewrite (proj2 Hc1)).
  assert (Hroom1 : room (limit := limit) t1 2).
  { destruct Hr as [R1 R2]. split; simpl; [rewrite map_size_insert_None by done; rewrite Ho, map_size_empty|]; lia. }
  eapply wp_bind, (wp_balloc t1); [done|done| |exact Hw1|done|done| |].
  { intros k [y Hy]. simpl in Hy. rewrite Ho in Hy. apply lookup_insert_Some in Hy as [[<- _]|[_ Hy]]; [|done]. done. }
  - intros w2 Hc2 Hw2 Hfull. apply wp_bind, wp_ret, wp_ret. assert (Hc02 : same_ctx w w2) by (by etrans).
    eapply wp_bind, (fw_read_end t); [exact Hw2|exact Hc02|done|done|]. intros w3 Hc3 Hw3.
    apply wp_ret. rewrite <- E. apply (HQ w3 t); [by apply grown_same|done].
  - intros r w2 Hc2 Hw2 Hdr Hfree. pose proof (data_block_pos _ _ Hl Hdr). rewrite (proj2 (Z.eqb_neq r 0)) by lia.
    assert (Hc02 : same_ctx w w2) by (by etrans).
    eapply wp_bind, wp_bind, (fw_set_data _ _ _ _ b); [exact Hw2|apply lookup_insert_eq| |].
    { assert (Ho4 : (Z.to_nat (4 * (bn - NDIRECT)) + 4 <= length (t_view t b))%nat)
        by (rewrite Hwf; change MAXFILE with 268 in *; unfold BSIZE, NDIRECT in *; lia).
      by rewrite length_put_le, Hwf. }
    cbn [t_view t_open t_logged alloc_tx mark_tx tx_upd t1]. rewrite insert_insert_eq. intros w3 Hc3 Hw3.
    eapply (fw_log_write _ _ _ _ b); [exact Hw3|by rewrite (proj2 Hc3), (proj2 Hc02)|apply lookup_insert_eq| |].
    { pose proof (length_alloc sb t r) as Hal. destruct Hr as [_ Hr2]. cbn [t_logged alloc_tx mark_tx tx_upd] in *. lia. }
    cbn [t_view t_open t_logged]. rewrite insert_insert_eq. intros w4 Hc4 Hw4. apply wp_ret.
    destruct (grow_entry sb t x r bn) as [Hext Hadr]; try done.
    set (t' := tx_upd (alloc_tx sb t r) (ind_of x) (put32 (t_view t (ind_of x)) (Z.to_nat (4 * (bn - NDIRECT))) r)) in *.
    eapply wp_bind, (fw_read_end t' _ _ _ b i _ _ w); [exact Hw4| |done|done|].
    { etrans; [exact Hc02|]. by etrans. }
    intros w5 Hc5 Hw5. apply wp_ret. rewrite <- Hadr at 1. apply (HQ w5 t').
    + split; [done|by rewrite list_insert_id|done| | |].
      * rewrite Hadr. intros c. unfold t'. cbn [tx_upd t_logged]. fold b.
        intros [Hc| ->]%elem_of_add_block; [|right; right; apply elem_of_app; left; by apply nonzero_self].
        apply (alloc_logs sb t r (nonzero b ++ nonzero r)) in Hc; [done|done..|]. apply elem_of_app. right. apply nonzero_self. lia.
      * intros Hnd. by apply NoDup_add_block, alloc_nodup.
      * pose proof (length_alloc sb t r). unfold t'. cbn [tx_upd t_logged]. fold b.
        pose proof (length_add_block b (t_logged (alloc_tx sb t r))). lia.
    + rewrite Hadr. lia.
Qed.

Lemma wp_bmap t sb it u ip x bn (Q : Z -> world (fsst S U) -> Prop) w :
  layout (home := home) sb -> map_ok sb (t_view t) -> file_ok sb (t_view t) x ->
  fsw (laws := laws) w t sb it u -> it !! ip = Some x -> t_open t = ∅ -> no_tx_locks (w_held w) -> room (limit := limit) t 5 ->
  (length (t_logged t) + 6 <= NBUF)%nat -> 0 <= bn < MAXFILE ->
  (forall w' t' x', grown sb it t x ip u w t' x' w' (nonzero (ind_of x') ++ nonzero (addr_of (t_view t') x' bn)) 5 ->
     (addr_of (t_view t') x' bn = 0 -> full sb (t_view t')) -> Q (addr_of (t_view t') x' bn) w') ->
  wp (bmap ip bn) Q w.
Proof.
  intros Hl Hm Hf Hw Hx Ho Hnl Hr HN Hbn HQ. destruct (decide (bn < NDIRECT)) as [Hd|Hd].
  { eapply wp_bmap_direct; [done..|by eapply room_le; [exact Hr|lia]|lia|]. intros w' t' x' [] ?. apply (HQ w' t' x'); [|done].
    split; try done; [|lia]. intros b [Hb|[Hb|Hb]]%gr_logs0; auto. right. right. apply elem_of_app. by right. }
  unfold bmap. eapply wp_bind, fw_iload; [exact Hw|exact Hx|]. rewrite (proj2 (Z.ltb_ge _ _)) by lia.
  rewrite (proj2 (Z.ltb_lt _ _)) by (change MAXFILE with 268 in *; unfold NDIRECT in *; change NINDIRECT with 256; lia).
  eapply wp_bind, wp_bmap_ind; [done..|by eapply room_le; [exact Hr|lia]|].
  intros w1 t1 x1 Hg1 Hfull. pose proof Hg1 as [Hc1 Hw1 He1 _ _ Hl1]. pose proof (fe_ok _ _ _ _ _ He1) as Hf1.
  assert (Hx1 : <[ip := x1]> it !! ip = Some x1) by (apply list_lookup_insert_eq; by eapply lookup_lt_Some).
  destruct (Z.eqb_spec (ind_of x1) 0) as [E|E].
  { assert (Ha : addr_of (t_view t1) x1 bn = 0)
      by (unfold addr_of; rewrite (proj2 (Z.ltb_ge _ _)) by lia; by rewrite E).
    apply wp_ret. rewrite <- Ha. apply (HQ w1 t1 x1); [|auto]. destruct Hg1. split; try done; [|lia].
    intros b [Hb|[Hb|Hb]]%gr_logs0; auto. right. right. apply elem_of_app. by left. }
  rewrite (fo_dev _ _ _ Hf).
  eapply (wp_bmap_entry t1 sb _ u ip x1); [done|by apply (fe_map _ _ _ _ _ He1)|done|exact Hw1|exact Hx1|by rewrite (fe_open _ _ _ _ _ He1)
    |by rewrite (proj2 Hc1)| |lia|lia|done|].
  { destruct Hr as [R1 R2]. split; [rewrite (fe_open _ _ _ _ _ He1)|]; lia. }
  intros w2 t2 Hg2 Hfull2. apply (HQ w2 t2 x1); [|done]. change 5%nat with (2 + 3)%nat.
  eapply grown_trans; [done|done|exact Hg1|exact Hg2| |done].
  intros b Hb. apply elem_of_app. by left.
Qed.

(** The block is there: nothing changes. *)
Lemma wp_bmap_hit t sb it u ip x bn (Q : Z -> world (fsst S U) -> Prop) w :
  layout (home := home) sb -> file_ok sb (t_view t) x ->
  fsw (laws := laws) w t sb it u -> it !! ip = Some x -> t_open t = ∅ -> no_tx_locks (w_held w) -> room (limit := limit) t 1 ->
  0 <= bn < MAXFILE -> addr_of (t_view t) x bn <> 0 ->
  (forall w', same_ctx w w' -> fsw (laws := laws) w' t sb it u -> Q (addr_of (t_view t) x bn) w') -> wp (bmap ip bn) Q w.
Proof.
  intros Hl Hf Hw Hx Ho Hnl Hr Hbn Ha HQ.
  assert (Hlen : length (i_addrs x) = 13%nat) by apply (fo_len _ _ _ Hf).
  unfold bmap. eapply wp_bind, fw_iload; [exact Hw|exact Hx|]. rewrite (fo_dev _ _ _ Hf).
  unfold addr_of in *. destruct (Z.ltb_spec bn NDIRECT) as [Hd|Hd].
  { eapply wp_bind, fw_iaddr; [exact Hw|exact Hx|unfold NDIRECT in *; lia|].
    rewrite (proj2 (Z.eqb_neq _ 0)) by done. by apply wp_ret, HQ. }
  rewrite (proj2 (Z.ltb_lt _ NINDIRECT)) by (change MAXFILE with 268 in *; unfold NDIRECT in *; change NINDIRECT with 256; lia).
  destruct (Z.eqb_spec (ind_of x) 0) as [|Hn]; [done|]. destruct (fo_ind _ _ _ Hf Hn) as [Hdi Hui].
  eapply wp_bind, wp_bind, fw_iaddr; [exact Hw|exact Hx|rewrite Hlen; unfold NDIRECT; lia|]. fold (ind_of x).
  rewrite (proj2 (Z.eqb_neq _ 0)) by done. apply wp_ret. rewrite (proj2 (Z.eqb_neq _ 0)) by done.
  eapply fw_read; [done|done|by eapply data_home|by rewrite Ho|done|]. intros i w1 Hc1 Hw1.
  eapply wp_bind, (fw_data _ _ _ _ (ind_of x)); [exact Hw1|apply lookup_insert_eq|]. cbn [t_view].
  rewrite (proj2 (Z.eqb_neq _ 0)) by done. apply wp_bind, wp_ret.
  eapply wp_bind, (fw_read_end t); [exact Hw1|exact Hc1|done|by rewrite Ho|]. intros w2 Hc2 Hw2. by apply wp_ret, HQ.
Qed.
End file.
