(* ===== verification/FsInode.v ===== *)
(** Inodes on the disk: [struct dinode] as bytes, [iupdate] and the part of
    [ilock] that reads an inode (kernel/fs.c, kernel/fs.h). *)

From S2P Require Import Prelude KMonad UserMem Bytes Sleeplock BlockStore Fs FsSpec FsFile.

(** ** The encoding of a dinode *)

Definition dinode_bytes (x : dinode) : list Z :=
  le_bytes 2 (d_type x) ++ le_bytes 2 (d_major x) ++ le_bytes 2 (d_minor x) ++ le_bytes 2 (d_nlink x) ++
  le_bytes 4 (d_size x) ++ concat (map (le_bytes 4) (d_addrs x)).

(** The fields fit their C types. *)
Record dinode_ok (x : dinode) : Prop := {
  do_type : - 2 ^ 15 <= d_type x < 2 ^ 15;
  do_major : - 2 ^ 15 <= d_major x < 2 ^ 15;
  do_minor : - 2 ^ 15 <= d_minor x < 2 ^ 15;
  do_nlink : - 2 ^ 15 <= d_nlink x < 2 ^ 15;
  do_size : 0 <= d_size x < 2 ^ 32;
  do_addrs : Forall (fun a => 0 <= a < 2 ^ 32) (d_addrs x);
  do_len : length (d_addrs x) = 13%nat }.

Lemma length_addr_bytes l : length (concat (map (le_bytes 4) l)) = (4 * length l)%nat.
Proof. induction l as [|y l IH]; [done|]. cbn [map concat]. rewrite length_app, length_le_bytes, IH. simpl. lia. Qed.

Lemma length_dinode_bytes x : length (d_addrs x) = 13%nat -> length (dinode_bytes x) = Z.to_nat sizeof_dinode.
Proof. intros H. unfold dinode_bytes. rewrite !length_app, !length_le_bytes, length_addr_bytes, H. done. Qed.

Lemma put_addrs_splice l : forall d off, (off + 4 * length l <= length d)%nat ->
  put_addrs d off l = splice d off (concat (map (le_bytes 4) l)).
Proof.
  induction l as [|y l IH]; intros d off H; cbn [put_addrs map concat].
  - unfold splice. cbn [length app]. by rewrite Nat.add_0_r, take_drop.
  - cbn [length] in H. rewrite IH by (rewrite length_put_le; lia).
    pose proof (splice_app d off (le_bytes 4 y) (concat (map (le_bytes 4) l))) as E. rewrite length_le_bytes in E.
    apply E. rewrite length_addr_bytes. lia.
Qed.

Lemma put_dinode_splice d off x : length (d_addrs x) = 13%nat -> (off + Z.to_nat sizeof_dinode <= length d)%nat ->
  put_dinode d off x = splice d off (dinode_bytes x).
Proof.
  intros Hl H. change (Z.to_nat sizeof_dinode) with 64%nat in H. unfold put_dinode, dinode_bytes.
  rewrite put_addrs_splice by (repeat rewrite length_put_le; rewrite ?Hl; lia). unfold put_le.
  assert (Hc : length (concat (map (le_bytes 4) (d_addrs x))) = 52%nat) by (by rewrite length_addr_bytes, Hl).
  assert (Hstep : forall a b n o, o = (off + length a)%nat -> length b = n -> (length a + n <= 64)%nat ->
    splice (splice d off a) o b = splice d off (a ++ b)).
  { intros a b n o -> <- Hn. apply splice_app. lia. }
  rewrite (Hstep _ _ 2%nat), (Hstep _ _ 2%nat), (Hstep _ _ 2%nat), (Hstep _ _ 4%nat), (Hstep _ _ 52%nat);
    rewrite <- ?app_assoc, ?length_app, ?length_le_bytes; try (done || lia).
Qed.

Lemma i16_le y : - 2 ^ 15 <= y < 2 ^ 15 -> i16 (y mod 256 ^ Z.of_nat 2) = y.
Proof.
  intros H. change (256 ^ Z.of_nat 2) with (2 ^ 16). unfold i16, u16. rewrite Zmod_mod. destruct (decide (0 <= y)).
  - rewrite Z.mod_small by lia. by rewrite (proj2 (Z.ltb_lt _ _)) by lia.
  - assert (y mod 2 ^ 16 = y + 2 ^ 16) as -> by (symmetry; apply (Z.mod_unique _ _ (-1)); lia).
    rewrite (proj2 (Z.ltb_ge _ _)) by lia. lia.
Qed.

Lemma get_addr_bytes l : forall k y, l !! k = Some y -> 0 <= y < 2 ^ 32 ->
  get32 (concat (map (le_bytes 4) l)) (4 * k) = y.
Proof.
  induction l as [|z l IH]; intros [|k] y Hk Hy; [done|done| |]; cbn [map concat].
  - injection Hk as ->. pose proof (get_le_app 4 [] y (concat (map (le_bytes 4) l))) as E. cbn [app length] in E.
    rewrite Nat.mul_0_r, E. by apply Z.mod_small.
  - rewrite <- (IH k y Hk Hy). unfold get_le, slice. replace (4 * Datatypes.S k)%nat with (length (le_bytes 4 z) + 4 * k)%nat
      by (rewrite length_le_bytes; lia). by rewrite drop_app_add.
Qed.

Lemma dinode_at_bytes x : dinode_ok x -> dinode_at (dinode_bytes x) 0 = x.
Proof.
  intros [H1 H2 H3 H4 H5 H6 H7]. destruct x as [ty ma mi nl sz ad]. cbn [d_type d_major d_minor d_nlink d_size d_addrs] in *.
  unfold dinode_at, dinode_bytes. cbn [d_type d_major d_minor d_nlink d_size d_addrs].
  assert (Hg : forall n a v c k, k = length a -> get_le n (a ++ le_bytes n v ++ c) k = v mod 256 ^ Z.of_nat n)
    by (intros n a v c k ->; apply get_le_app).
  f_equal.
  - etrans; [|by apply i16_le]. f_equal. by apply (Hg 2%nat []).
  - rewrite (Hg 2%nat (le_bytes 2 ty)) by (by rewrite length_le_bytes). by apply i16_le.
  - rewrite (app_assoc (le_bytes 2 ty)). rewrite (Hg 2%nat) by (by rewrite !length_app, !length_le_bytes). by apply i16_le.
  - rewrite (app_assoc (le_bytes 2 ma)), (app_assoc (le_bytes 2 ty)).
    rewrite (Hg 2%nat) by (by rewrite !length_app, !length_le_bytes). by apply i16_le.
  - rewrite (app_assoc (le_bytes 2 mi)), (app_assoc (le_bytes 2 ma)), (app_assoc (le_bytes 2 ty)).
    rewrite (Hg 4%nat) by (by rewrite !length_app, !length_le_bytes). by apply Z.mod_small.
  - rewrite !app_assoc. set (pre := (((le_bytes 2 ty ++ _) ++ _) ++ _) ++ _).
    assert (Hpre : length pre = 12%nat) by (unfold pre; by rewrite !length_app, !length_le_bytes).
    apply list_eq. intros k. rewrite list_lookup_fmap. destruct (decide (k < 13)%nat) as [Hk|Hk].
    + rewrite lookup_seq_lt by done. destruct (lookup_lt_is_Some_2 ad k) as [y Hy]; [lia|]. cbn [fmap option_fmap option_map]. rewrite Hy. f_equal.
      rewrite <- (get_addr_bytes ad k y Hy) by (by eapply Forall_lookup_1 in H6). unfold get_le, slice.
      replace (0 + 12 + 4 * (0 + k))%nat with (length pre + 4 * k)%nat by lia. by rewrite drop_app_add.
    + rewrite !lookup_ge_None_2; [done|lia|]. rewrite length_seq. lia.
Qed.

Lemma dinode_at_slice d off : dinode_at d off = dinode_at (slice d off (Z.to_nat sizeof_dinode)) 0.
Proof.
  change (Z.to_nat sizeof_dinode) with 64%nat. unfold dinode_at. cbn [Nat.add].
  rewrite <- !(get_le_slice _ d off 64) by lia. rewrite Nat.add_0_r. f_equal.
  apply map_ext_in. intros k Hk%in_seq. rewrite <- Nat.add_assoc. by rewrite (get_le_slice _ d off 64) by lia.
Qed.

Lemma dinode_at_put_same d off x : dinode_ok x -> (off + Z.to_nat sizeof_dinode <= length d)%nat ->
  dinode_at (put_dinode d off x) off = x.
Proof.
  intros Hx H. pose proof (length_dinode_bytes x (do_len _ Hx)) as Hl.
  rewrite dinode_at_slice, put_dinode_splice by (done || apply Hx). rewrite <- Hl, slice_splice_same by (by rewrite Hl).
  by apply dinode_at_bytes.
Qed.

Lemma dinode_at_put_other d off off' x : length (d_addrs x) = 13%nat -> (off + Z.to_nat sizeof_dinode <= length d)%nat ->
  (off' + Z.to_nat sizeof_dinode <= off \/ off + Z.to_nat sizeof_dinode <= off')%nat ->
  dinode_at (put_dinode d off x) off' = dinode_at d off'.
Proof.
  intros Hx H Ho. pose proof (length_dinode_bytes x Hx) as Hl.
  rewrite dinode_at_slice, put_dinode_splice by done. rewrite slice_splice_other by (by rewrite Hl).
  by rewrite <- dinode_at_slice.
Qed.

(** ** iupdate *)

Section inode.
Context {S U : Type} {tops : TxOps S} {uops : UserOps U} {dev limit : Z} {home : Z -> Prop}
  {laws : TxLaws S dev limit home}.
Implicit Types (w : world (fsst S U)) (t : txst) (sb : superblock) (it : list inode) (v : Z -> list Z) (x : inode).

(** Inode [inum] as it is on the disk. *)
Definition disk_dinode sb v (inum : Z) : dinode := dinode_at (v (IBLOCK inum sb)) (dinode_off inum).

Lemma iblock_range sb inum : layout (home := home) sb -> 0 <= inum < sb_ninodes sb ->
  IBLOCK inum sb = inum / IPB + sb_inodestart sb /\ sb_inodestart sb <= IBLOCK inum sb < sb_bmapstart sb.
Proof.
  intros [H1 H2 [H3 H4] H5 H6 H7] Hi. assert (HI : 0 < IPB) by done. pose proof (Z.div_pos inum IPB ltac:(lia) HI).
  pose proof (Z.div_le_mono inum (sb_ninodes sb) IPB HI ltac:(lia)).
  assert (E : IBLOCK inum sb = inum / IPB + sb_inodestart sb) by (unfold IBLOCK, u32; apply Z.mod_small; lia). lia.
Qed.

Lemma iblock_home sb inum : layout (home := home) sb -> 0 <= inum < sb_ninodes sb -> home (IBLOCK inum sb).
Proof.
  intros Hl Hi. destruct (iblock_range sb inum Hl Hi) as [_ H]. pose proof (la_home _ Hl) as Hh. apply Hh.
  pose proof (la_data _ Hl) as Hd. pose proof (la_size _ Hl). unfold data_start in Hd.
  pose proof (Z.div_pos (sb_size sb) BPB ltac:(lia) ltac:(done)). lia.
Qed.

Lemma dinode_off_bound inum : (dinode_off inum + Z.to_nat sizeof_dinode <= Z.to_nat BSIZE)%nat.
Proof. unfold dinode_off. pose proof (Z.mod_pos_bound inum IPB ltac:(done)). change IPB with 16 in *. unfold sizeof_dinode, BSIZE. lia. Qed.

(** The transaction after [iupdate] of [x]. *)
Definition inode_tx sb t x : txst :=
  tx_upd t (IBLOCK (i_inum x) sb) (put_dinode (t_view t (IBLOCK (i_inum x) sb)) (dinode_off (i_inum x)) (inode_dinode x)).

Lemma length_put_dinode d off y : length (d_addrs y) = 13%nat -> (off + Z.to_nat sizeof_dinode <= length d)%nat ->
  length (put_dinode d off y) = length d.
Proof. intros Hl H. rewrite put_dinode_splice by done. apply length_splice. by rewrite length_dinode_bytes. Qed.

Lemma wp_iupdate t sb it u ip x (Q : () -> world (fsst S U) -> Prop) w :
  layout (home := home) sb -> 0 <= i_inum x < sb_ninodes sb -> i_dev x = dev -> length (i_addrs x) = 13%nat ->
  fsw (laws := laws) w t sb it u -> it !! ip = Some x -> t_open t !! IBLOCK (i_inum x) sb = None ->
  no_tx_locks (w_held w) -> room (limit := limit) t 1 ->
  (forall w', same_ctx w w' -> fsw (laws := laws) w' (inode_tx sb t x) sb it u -> Q () w') -> wp (iupdate ip) Q w.
Proof.
  intros Hl Hi Hd Hlen Hw Hx Ho Hnl Hr HQ. eapply wp_bind, fw_iload; [exact Hw|exact Hx|].
  eapply wp_bind, fw_getsb; [exact Hw|]. rewrite Hd.
  eapply fw_read; [exact Hw|done|by apply iblock_home|done|done|]. intros i w1 Hc1 Hw1.
  eapply wp_bind, (fw_data _ _ _ _ (IBLOCK (i_inum x) sb)); [exact Hw1|apply lookup_insert_eq|]. cbn [t_view].
  eapply (fw_update_last t sb it u (IBLOCK (i_inum x) sb)); [exact Hw1|exact Hc1|done..| |done].
  pose proof (dinode_off_bound (i_inum x)). rewrite length_put_dinode; [by eapply fsw_wf|done|].
  by rewrite (fsw_wf _ _ _ _ _ _ Hw).
Qed.

Lemma inode_tx_same sb t x : (forall b, length (t_view t b) = Z.to_nat BSIZE) -> dinode_ok (inode_dinode x) ->
  disk_dinode sb (t_view (inode_tx sb t x)) (i_inum x) = inode_dinode x.
Proof.
  intros Hwf Hok. unfold disk_dinode, inode_tx. cbn [tx_upd t_view]. rewrite fupd_same. apply dinode_at_put_same; [done|].
  rewrite Hwf. apply dinode_off_bound.
Qed.

Lemma inode_tx_other sb t x inum : layout (home := home) sb -> (forall b, length (t_view t b) = Z.to_nat BSIZE) ->
  length (i_addrs x) = 13%nat -> 0 <= i_inum x < sb_ninodes sb -> 0 <= inum < sb_ninodes sb -> inum <> i_inum x ->
  disk_dinode sb (t_view (inode_tx sb t x)) inum = disk_dinode sb (t_view t) inum.
Proof.
  intros Hl Hwf Hlen Hi Hj Hne. unfold disk_dinode, inode_tx. cbn [tx_upd t_view].
  destruct (decide (IBLOCK inum sb = IBLOCK (i_inum x) sb)) as [E|E]; [|by rewrite fupd_other].
  rewrite E, fupd_same. apply dinode_at_put_other; [done|rewrite Hwf; apply dinode_off_bound|].
  destruct (iblock_range sb inum Hl Hj) as [E1 _], (iblock_range sb (i_inum x) Hl Hi) as [E2 _].
  pose proof (Z.div_mod inum IPB ltac:(done)). pose proof (Z.div_mod (i_inum x) IPB ltac:(done)).
  pose proof (Z.mod_pos_bound inum IPB ltac:(done)). pose proof (Z.mod_pos_bound (i_inum x) IPB ltac:(done)).
  unfold dinode_off. change IPB with 16 in *. unfold sizeof_dinode. lia.
Qed.

Lemma inode_tx_view sb t x b : b <> IBLOCK (i_inum x) sb -> t_view (inode_tx sb t x) b = t_view t b.
Proof. intros H. unfold inode_tx. cbn [tx_upd t_view]. by rewrite fupd_other. Qed.
End inode.

(** Reading and writing files: [readi], [writei] and [iupdate] of kernel/fs.c
    against the file as a sequence of bytes. *)


(** ** A file as a sequence of bytes *)

Definition fbyte (v : Z -> list Z) (x : inode) (i : Z) : Z :=
  nth (Z.to_nat (i mod BSIZE)) (v (addr_of v x (i / BSIZE))) 0.

Definition fbytes (v : Z -> list Z) (x : inode) (off : Z) (n : nat) : list Z :=
  map (fun k => fbyte v x (off + Z.of_nat k)) (seq 0 n).

Lemma length_fbytes v x off n : length (fbytes v x off n) = n.
Proof. unfold fbytes. by rewrite length_map, length_seq. Qed.

Lemma lookup_fbytes v x off n i : (i < n)%nat -> fbytes v x off n !! i = Some (fbyte v x (off + Z.of_nat i)).
Proof. intros Hi. unfold fbytes. rewrite list_lookup_fmap, lookup_seq_lt by done. done. Qed.

Lemma fbytes_app v x off n m : fbytes v x off (n + m) = fbytes v x off n ++ fbytes v x (off + Z.of_nat n) m.
Proof.
  apply list_eq. intros i. destruct (decide (i < n)%nat) as [Hi|Hi].
  - rewrite lookup_app_l by (by rewrite length_fbytes). by rewrite !lookup_fbytes by lia.
  - rewrite lookup_app_r by (rewrite length_fbytes; lia). rewrite length_fbytes.
    destruct (decide (i < n + m)%nat) as [Hi2|Hi2].
    + rewrite !lookup_fbytes by lia. do 2 f_equal. lia.
    + rewrite !lookup_ge_None_2; [done|rewrite length_fbytes; lia..].
Qed.

Lemma fbyte_pos q k : 0 <= k < BSIZE -> (BSIZE * q + k) / BSIZE = q /\ (BSIZE * q + k) mod BSIZE = k.
Proof.
  intros Hk. rewrite (Z.mul_comm BSIZE), (Z.add_comm _ k). rewrite Z.div_add, Z.mod_add by done.
  rewrite Z.div_small, Z.mod_small by done. lia.
Qed.

(** Part of one block. *)
Lemma slice_fbytes v x off m :
  length (v (addr_of v x (off / BSIZE))) = Z.to_nat BSIZE -> off mod BSIZE + Z.of_nat m <= BSIZE ->
  slice (v (addr_of v x (off / BSIZE))) (Z.to_nat (off mod BSIZE)) m = fbytes v x off m.
Proof.
  intros Hlen Hm. pose proof (Z.mod_pos_bound off BSIZE ltac:(done)). apply list_eq. intros i.
  destruct (decide (i < m)%nat) as [Hi|Hi].
  - rewrite lookup_slice, lookup_fbytes by done. unfold fbyte.
    pose proof (Z.div_mod off BSIZE ltac:(done)) as E.
    destruct (fbyte_pos (off / BSIZE) (off mod BSIZE + Z.of_nat i)) as [E1 E2]; [lia|].
    replace (off + Z.of_nat i) with (BSIZE * (off / BSIZE) + (off mod BSIZE + Z.of_nat i)) by lia. rewrite E1, E2.
    rewrite nth_lookup. destruct (lookup_lt_is_Some_2 (v (addr_of v x (off / BSIZE))) (Z.to_nat (off mod BSIZE) + i)) as [y Hy];
      [rewrite Hlen; lia|].
    replace (Z.to_nat (off mod BSIZE + Z.of_nat i)) with (Z.to_nat (off mod BSIZE) + i)%nat by lia. by rewrite Hy.
  - rewrite !lookup_ge_None_2; [done|rewrite length_fbytes; lia|]. rewrite length_slice; [lia|]. rewrite Hlen. lia.
Qed.

(** The first [n] bytes have blocks. *)
Definition nohole v x (n : Z) : Prop := forall bn, 0 <= bn -> bn * BSIZE < n -> addr_of v x bn <> 0.

(** Enough iterations for [r] bytes from [off]. *)
Definition enough (fuel : nat) (off r : Z) : Prop :=
  (1 <= fuel)%nat /\ (0 < r -> r + off mod BSIZE <= (Z.of_nat fuel - 1) * BSIZE).

Lemma enough_init off n : 0 <= off -> 0 <= n -> enough (Z.to_nat (n / BSIZE) + 3) off n.
Proof.
  intros Ho Hn. split; [lia|]. intros _. pose proof (Z.mod_pos_bound off BSIZE ltac:(done)).
  pose proof (Z.div_mod n BSIZE ltac:(done)). pose proof (Z.mod_pos_bound n BSIZE ltac:(done)).
  pose proof (Z.div_pos n BSIZE ltac:(lia) ltac:(done)). unfold BSIZE in *. lia.
Qed.

Lemma enough_step fuel off r : 0 <= off -> 0 < r -> enough (Datatypes.S fuel) off r ->
  let m := Z.min r (BSIZE - off mod BSIZE) in 0 < m <= r /\ off mod BSIZE + m <= BSIZE /\ enough fuel (off + m) (r - m).
Proof.
  intros Ho Hr [_ H] m. specialize (H Hr). pose proof (Z.mod_pos_bound off BSIZE ltac:(done)) as Hb.
  assert (Hf : (1 <= fuel)%nat) by (unfold BSIZE in *; lia).
  split_and!; [unfold m, BSIZE in *; lia..|]. split; [done|]. intros Hr'.
  assert (E : m = BSIZE - off mod BSIZE) by (unfold m in *; lia). pose proof (Z.div_mod off BSIZE ltac:(done)).
  replace (off + m) with ((off / BSIZE + 1) * BSIZE) by lia. rewrite Z.mod_mul by done. unfold BSIZE in *. lia.
Qed.

Section rw.
Context {S U : Type} {tops : TxOps S} {uops : UserOps U} {dev limit : Z} {home : Z -> Prop}
  {laws : TxLaws S dev limit home}.
Implicit Types (w : world (fsst S U)) (t : txst) (sb : superblock) (it : list inode) (v : Z -> list Z) (x : inode).

(** ** readi *)

Lemma wp_readi_loop t sb it u ip x :
  layout (home := home) sb -> file_ok (dev := dev) sb (t_view t) x -> it !! ip = Some x -> t_open t = ∅ ->
  room (limit := limit) t 1 -> i_size x <= MAXFILE * BSIZE -> nohole (t_view t) x (i_size x) ->
  forall fuel off n tot got (Q : Z * list Z -> world (fsst S U) -> Prop) w,
  fsw (laws := laws) w t sb it u -> no_tx_locks (w_held w) -> 0 <= off -> 0 <= tot <= n -> off + (n - tot) <= i_size x ->
  enough fuel off (n - tot) ->
  (forall w', same_ctx w w' -> fsw (laws := laws) w' t sb it u -> Q (n, got ++ fbytes (t_view t) x off (Z.to_nat (n - tot))) w') ->
  wp (readi_loop fuel ip KernDst off n tot got) Q w.
Proof.
  intros Hl Hf Hx Ho Hr Hsz Hnh. induction fuel as [|fuel IH]; intros off n tot got Q w Hw Hnl Hoff Htot Hle Hen HQ; [destruct Hen; lia|].
  cbn [readi_loop]. destruct (Z.ltb_spec tot n) as [Hlt|Hge].
  2:{ assert (n = tot) as -> by lia. apply wp_ret. rewrite Z.sub_diag in HQ. cbn [Z.to_nat fbytes seq map] in HQ.
      rewrite app_nil_r in HQ. by apply HQ. }
  destruct (enough_step fuel off (n - tot) Hoff ltac:(lia) Hen) as (Hm & Hm2 & Hen'). set (m := Z.min (n - tot) (BSIZE - off mod BSIZE)) in *.
  pose proof (Z.div_mod off BSIZE ltac:(done)). pose proof (Z.mod_pos_bound off BSIZE ltac:(done)).
  pose proof (Z.div_pos off BSIZE ltac:(lia) ltac:(done)).
  assert (Hbn : 0 <= off / BSIZE < MAXFILE) by (change MAXFILE with 268 in *; unfold BSIZE in *; lia).
  assert (Ha : addr_of (t_view t) x (off / BSIZE) <> 0) by (apply Hnh; [lia|unfold BSIZE in *; lia]).
  destruct (fo_addr _ _ _ Hf _ Hbn Ha) as [Hd _].
  eapply wp_bind, wp_bmap_hit; [done|done|exact Hw|exact Hx|done..|]. intros w1 Hc1 Hw1.
  rewrite (proj2 (Z.eqb_neq _ 0)) by done. eapply wp_bind, fw_iload; [exact Hw1|exact Hx|]. rewrite (fo_dev _ _ _ Hf).
  eapply fw_read; [exact Hw1|by rewrite (proj2 Hc1)|by eapply data_home|by rewrite Ho|done|]. intros i w2 Hc2 Hw2.
  eapply wp_bind, (fw_data _ _ _ _ (addr_of (t_view t) x (off / BSIZE))); [exact Hw2|apply lookup_insert_eq|].
  cbn [t_view either_copyout]. apply wp_bind, (wp_umem_same _ 0); [intros R HR; by apply wp_ret, HR|].
  eapply wp_bind, (fw_read_end t _ _ _ _ i _ _ w); [exact Hw2|by etrans|done|by rewrite Ho|]. intros w3 Hc3 Hw3.
  cbn [Z.eqb dst_add]. apply IH; [done|by rewrite (proj2 Hc3)|lia|lia|lia| |].
  { by replace (n - (tot + m)) with (n - tot - m) by lia. }
  intros w4 Hc4 Hw4. rewrite slice_fbytes by (by eapply fsw_wf || lia). rewrite <- app_assoc.
  replace (off + m) with (off + Z.of_nat (Z.to_nat m)) by lia. rewrite <- fbytes_app.
  replace (Z.to_nat m + Z.to_nat (n - (tot + m)))%nat with (Z.to_nat (n - tot)) by lia. apply HQ; [by etrans|done].
Qed.

(** The number of bytes a read of [n] bytes at [off] returns. *)
Definition readi_len x (off n : Z) : Z :=
  if (i_size x <? off) || (u32 (off + n) <? off) then 0 else Z.min n (i_size x - off).

Lemma wp_readi t sb it u ip x off n (Q : Z * list Z -> world (fsst S U) -> Prop) w :
  layout (home := home) sb -> file_ok (dev := dev) sb (t_view t) x -> it !! ip = Some x -> t_open t = ∅ ->
  room (limit := limit) t 1 -> 0 <= i_size x <= MAXFILE * BSIZE -> nohole (t_view t) x (i_size x) ->
  fsw (laws := laws) w t sb it u -> no_tx_locks (w_held w) -> 0 <= off < 2 ^ 32 -> 0 <= n < 2 ^ 32 ->
  (forall w', same_ctx w w' -> fsw (laws := laws) w' t sb it u ->
     Q (readi_len x off n, fbytes (t_view t) x off (Z.to_nat (readi_len x off n))) w') ->
  wp (readi ip KernDst off n) Q w.
Proof.
  intros Hl Hf Hx Ho Hr Hsz Hnh Hw Hnl Hoff Hn HQ. eapply wp_bind, fw_iload; [exact Hw|exact Hx|].
  rewrite Z.gtb_ltb. unfold readi_len in HQ. destruct ((i_size x <? off) || (u32 (off + n) <? off)) eqn:E.
  { apply wp_ret. by apply HQ. }
  apply orb_false_iff in E as [E1%Z.ltb_ge E2%Z.ltb_ge]. change (MAXFILE * BSIZE) with 274432 in *.
  assert (Hu : u32 (off + n) = off + n).
  { unfold u32 in *. destruct (decide (off + n < 2 ^ 32)); [apply Z.mod_small; lia|].
    assert ((off + n) mod 2 ^ 32 = off + n - 2 ^ 32) as Em; [|lia].
    symmetry. apply (Z.mod_unique _ _ 1); lia. }
  rewrite Hu. assert (Hn' : (if off + n >? i_size x then u32 (i_size x - off) else n) = Z.min n (i_size x - off)).
  { rewrite Z.gtb_ltb. destruct (Z.ltb_spec (i_size x) (off + n)); [|lia]. unfold u32. rewrite Z.mod_small; lia. }
  rewrite Hn'. apply (wp_readi_loop t sb it u ip x); try done; [change (MAXFILE * BSIZE) with 274432; lia|lia..| |].
  - rewrite Z.sub_0_r. apply enough_init; lia.
  - intros w' Hc' Hw'. rewrite Z.sub_0_r. by apply HQ.
Qed.
End rw.
