(* ===== verification/FsWrite.v ===== *)
(** Writing files: [writei] of kernel/fs.c stores bytes of the file, grows it,
    and leaves every other file alone; how many blocks it logs. *)

From S2P Require Import Prelude KMonad UserMem Bytes Sleeplock BlockStore Fs FsSpec FsFile FsInode.

Section write.
Context {S U : Type} {tops : TxOps S} {uops : UserOps U} {dev limit : Z} {home : Z -> Prop}
  {laws : TxLaws S dev limit home}.
Implicit Types (w : world (fsst S U)) (t : txst) (sb : superblock) (it : list inode) (v : Z -> list Z) (x : inode).

(** [bs] has been stored at [off] of file [x]: the transaction went from [t]
    to [t'], the inode from [x] to [x'] (but for its size). *)
Record written sb t x (off : Z) (bs : list Z) t' x' : Prop := {
  wr_ok : file_ok (dev := dev) sb (t_view t') x';
  wr_map : map_ok sb (t_view t');
  wr_meta : same_meta x x';
  wr_open : t_open t' = ∅;
  wr_addr : forall bn, 0 <= bn < MAXFILE -> addr_of (t_view t) x bn <> 0 -> addr_of (t_view t') x' bn = addr_of (t_view t) x bn;
  wr_new : forall bn, 0 <= bn < MAXFILE -> addr_of (t_view t) x bn = 0 -> addr_of (t_view t') x' bn <> 0 ->
    used sb (t_view t) (addr_of (t_view t') x' bn) = false;
  wr_ind : ind_of x' = ind_of x \/ (ind_of x = 0 /\ used sb (t_view t) (ind_of x') = false);
  wr_there : forall i, off <= i < off + Z.of_nat (length bs) -> addr_of (t_view t') x' (i / BSIZE) <> 0;
  wr_bytes : forall i, off <= i < off + Z.of_nat (length bs) -> fbyte (t_view t') x' i = nth (Z.to_nat (i - off)) bs 0;
  wr_rest : forall i, 0 <= i < MAXFILE * BSIZE -> ~ (off <= i < off + Z.of_nat (length bs)) ->
    addr_of (t_view t) x (i / BSIZE) <> 0 -> fbyte (t_view t') x' i = fbyte (t_view t) x i;
  wr_frame : forall b, data_block sb b -> used sb (t_view t) b = true -> b <> ind_of x ->
    (forall bn, 0 <= bn < MAXFILE -> addr_of (t_view t) x bn <> b) -> t_view t' b = t_view t b;
  wr_used : forall b, 0 <= b < sb_size sb -> used sb (t_view t) b = true -> used sb (t_view t') b = true;
  wr_low : forall b, b < sb_bmapstart sb -> t_view t' b = t_view t b }.

(** The blocks logged meanwhile are of the free map, the indirect block, or
    hold part of the [n] bytes from [off]. *)
Definition wlogs sb t (off n : Z) t' x' : Prop :=
  (NoDup (t_logged t) -> NoDup (t_logged t')) /\
  forall b, b ∈ t_logged t' -> b ∈ t_logged t \/ map_block sb b \/ b ∈ nonzero (ind_of x') \/
    exists bn, 0 < n /\ off / BSIZE <= bn /\ bn * BSIZE < off + n /\ b ∈ nonzero (addr_of (t_view t') x' bn).

Lemma written_nil sb t x off : file_ok (dev := dev) sb (t_view t) x -> map_ok sb (t_view t) -> t_open t = ∅ ->
  written sb t x off [] t x.
Proof. intros Hf Hm Ho. split; try done; simpl; try (intros; lia); by left. Qed.

(** *** Growing the file by [bmap] *)

Lemma div_maxfile i : 0 <= i < MAXFILE * BSIZE -> 0 <= i / BSIZE < MAXFILE.
Proof.
  intros H. split; [apply Z.div_pos; [lia|done]|]. apply Z.div_lt_upper_bound; [done|lia].
Qed.

Lemma ext_fbyte sb t x t' x' i : file_ok (dev := dev) sb (t_view t) x -> file_ext (dev := dev) sb t x t' x' ->
  0 <= i < MAXFILE * BSIZE -> addr_of (t_view t) x (i / BSIZE) <> 0 -> fbyte (t_view t') x' i = fbyte (t_view t) x i.
Proof.
  intros Hf He Hi Ha. apply div_maxfile in Hi. unfold fbyte. rewrite (fe_addr _ _ _ _ _ He) by done.
  destruct (fo_addr _ _ _ Hf _ Hi Ha) as [Hd Hu]. rewrite (fe_data _ _ _ _ _ He); [done..|]. by apply (fo_ne _ _ _ Hf).
Qed.

Lemma written_ext sb t x off bs t1 x1 t2 x2 :
  layout (home := home) sb -> 0 <= off -> off + Z.of_nat (length bs) <= MAXFILE * BSIZE ->
  written sb t x off bs t1 x1 -> file_ext (dev := dev) sb t1 x1 t2 x2 ->
  written sb t x off bs t2 x2.
Proof.
  intros Hl Hoff Hmax [W1 W2 W3 W4 W5 W6 W7 W8 W9 W10 W11 W12 W13] He.
  pose proof He as [E1 E2 E3 E4 E5 E6 E7 E8 E9 E10].
  assert (Hback : forall b, 0 <= b < sb_size sb -> used sb (t_view t1) b = false -> used sb (t_view t) b = false).
  { intros b Hb Hu. destruct (used sb (t_view t) b) eqn:E; [|done]. by rewrite W12 in Hu. }
  assert (Hpos : forall i, off <= i < off + Z.of_nat (length bs) -> 0 <= i < MAXFILE * BSIZE) by lia.
  split; try done.
  - by etrans.
  - by rewrite E10.
  - intros bn Hbn Hn. rewrite E3; [by apply W5|done|]. by rewrite W5.
  - intros bn Hbn H0 Hn. destruct (decide (addr_of (t_view t1) x1 bn = 0)) as [E|E].
    + apply Hback; [|by apply E4]. destruct (fo_addr _ _ _ E1 bn Hbn Hn) as [Hd _]. pose proof (data_block_pos _ _ Hl Hd). lia.
    + rewrite E3 by done. by apply W6.
  - destruct E5 as [->|[Ea Eb]]; [done|]. right. split; [by destruct W7 as [<-|[? _]]|].
    destruct (decide (ind_of x2 = 0)) as [E0|E0]; [rewrite E0 in *; apply Hback; [destruct Hl; lia|done]|].
    destruct (fo_ind _ _ _ E1 E0) as [Hd _]. pose proof (data_block_pos _ _ Hl Hd). apply Hback; [lia|done].
  - intros i Hi. rewrite E3; [by apply W8|by apply div_maxfile, Hpos|by apply W8].
  - intros i Hi. rewrite (ext_fbyte sb t1 x1); [by apply W9|done|done|by apply Hpos|by apply W8].
  - intros i Hi Hni Ha. rewrite (ext_fbyte sb t1 x1); [by apply W10|done|done|done|].
    rewrite W5; [done|by apply div_maxfile|done].
  - intros b Hb Hu Hni Hna. pose proof (data_block_pos _ _ Hl Hb). rewrite E6; [by apply W11|done|apply W12; [lia|done]|].
    intros ->. destruct W7 as [?|[_ ?]]; congruence.
  - intros b Hb Hu. by apply E7, W12.
  - intros b Hb. rewrite E8 by done. by apply W13.
Qed.

Lemma wlogs_ext sb t off n t1 x1 t2 x2 n' l :
  layout (home := home) sb -> 0 <= off -> n <= n' -> off + n <= MAXFILE * BSIZE ->
  wlogs sb t off n t1 x1 -> file_ext (dev := dev) sb t1 x1 t2 x2 -> logs sb t1 t2 (nonzero (ind_of x2) ++ l) ->
  (NoDup (t_logged t1) -> NoDup (t_logged t2)) ->
  (forall b, b ∈ l -> exists bn, 0 < n' /\ off / BSIZE <= bn /\ bn * BSIZE < off + n' /\ b ∈ nonzero (addr_of (t_view t2) x2 bn)) ->
  wlogs sb t off n' t2 x2.
Proof.
  intros Hl Hoff Hn Hmax [W1 W2] [E1 E2 E3 E4 E5 E6 E7 E8 E9 E10] Hlg Hnd Hnew. split; [auto|].
  intros b [Hb|[Hb|[Hb|Hb]%elem_of_app]]%Hlg; [|auto|auto|right; right; right; by apply Hnew].
  apply W2 in Hb as [Hb|[Hb|[[-> Hz]%elem_of_nonzero|(bn & Hb0 & Hb1 & Hb2 & [-> Hz]%elem_of_nonzero)]]]; [auto|auto| |].
  - destruct E5 as [E|[Ea _]]; [|done]. right. right. left. rewrite E. by apply nonzero_self.
  - right. right. right. exists bn. split_and!; [lia|done|lia|]. rewrite E3; [by apply nonzero_self| |done].
    pose proof (Z.div_pos off BSIZE ltac:(lia) ltac:(done)). change (MAXFILE * BSIZE) with 274432 in *. change MAXFILE with 268.
    unfold BSIZE in *. lia.
Qed.

(** *** Storing to a block of the file *)

Lemma addr_of_upd t x a d k : a <> ind_of x -> addr_of (t_view (tx_upd t a d)) x k = addr_of (t_view t) x k.
Proof. intros H. unfold addr_of. cbn [tx_upd t_view]. by rewrite fupd_other by done. Qed.

Lemma file_ok_upd sb t x a d : layout (home := home) sb -> file_ok (dev := dev) sb (t_view t) x -> data_block sb a -> a <> ind_of x ->
  file_ok (dev := dev) sb (t_view (tx_upd t a d)) x.
Proof.
  intros Hl [F1 F2 F3 F4 F5 F6] Ha Hne.
  assert (Hu : forall b, data_block sb b -> used sb (t_view (tx_upd t a d)) b = used sb (t_view t) b).
  { intros b Hb. cbn [tx_upd t_view]. pose proof (data_block_pos _ _ Hl Hb). apply (used_upd_other (home := home)); [done|lia|apply Ha]. }
  split; try done.
  - intros bn Hbn. rewrite addr_of_upd by done. intros Hn. destruct (F3 bn Hbn Hn). by rewrite Hu.
  - intros Hn. destruct (F4 Hn). by rewrite Hu.
  - intros bn bn' Hb Hb'. rewrite !addr_of_upd by done. by apply F5.
  - intros bn Hb. rewrite addr_of_upd by done. by apply F6.
Qed.

(** The bytes of the file after part of block [bn] was replaced. *)
Lemma fbyte_upd sb t x bn o ch i :
  file_ok (dev := dev) sb (t_view t) x -> 0 <= bn < MAXFILE -> addr_of (t_view t) x bn <> 0 ->
  length (t_view t (addr_of (t_view t) x bn)) = Z.to_nat BSIZE -> 0 <= o -> o + Z.of_nat (length ch) <= BSIZE ->
  0 <= i < MAXFILE * BSIZE ->
  fbyte (t_view (tx_upd t (addr_of (t_view t) x bn) (splice (t_view t (addr_of (t_view t) x bn)) (Z.to_nat o) ch))) x i =
  if decide (bn * BSIZE + o <= i < bn * BSIZE + o + Z.of_nat (length ch)) then nth (Z.to_nat (i - (bn * BSIZE + o))) ch 0
  else fbyte (t_view t) x i.
Proof.
  intros Hf Hbn Ha Hlen Ho Hch Hi. pose proof (div_maxfile i Hi) as Hq. unfold fbyte.
  rewrite addr_of_upd by (by apply (fo_ne _ _ _ Hf)). cbn [tx_upd t_view].
  pose proof (Z.div_mod i BSIZE ltac:(done)) as Ei. pose proof (Z.mod_pos_bound i BSIZE ltac:(done)) as Em.
  destruct (decide (i / BSIZE = bn)) as [Eq|Hq2].
  - rewrite Eq, fupd_same. rewrite !nth_lookup, lookup_splice by (rewrite Hlen; lia).
    destruct (decide (bn * BSIZE + o <= i < bn * BSIZE + o + Z.of_nat (length ch))).
    + rewrite decide_True by lia. do 2 f_equal. lia.
    + by rewrite decide_False by lia.
  - rewrite decide_False.
    2:{ intros Hr. apply Hq2. symmetry. apply (Z.div_unique i BSIZE bn (i - BSIZE * bn)); lia. }
    rewrite fupd_other; [done|]. intros E. apply Hq2. symmetry. by apply (fo_inj _ _ _ Hf).
Qed.

Lemma written_store sb t x off bs t2 x2 ch :
  layout (home := home) sb -> (forall b, length (t_view t2 b) = Z.to_nat BSIZE) -> 0 <= off ->
  written sb t x off bs t2 x2 ->
  let o := off + Z.of_nat (length bs) in let a := addr_of (t_view t2) x2 (o / BSIZE) in
  a <> 0 -> o mod BSIZE + Z.of_nat (length ch) <= BSIZE -> o + Z.of_nat (length ch) <= MAXFILE * BSIZE -> o < MAXFILE * BSIZE ->
  written sb t x off (bs ++ ch) (tx_upd t2 a (splice (t_view t2 a) (Z.to_nat (o mod BSIZE)) ch)) x2.
Proof.
  intros Hl Hwf Hoff [W1 W2 W3 W4 W5 W6 W7 W8 W9 W10 W11 W12 W13] o a Ha Hch Hmax Ho.
  assert (Hq : 0 <= o / BSIZE < MAXFILE) by (apply div_maxfile; lia). destruct (fo_addr _ _ _ W1 _ Hq Ha) as [Hd Hu].
  assert (Hni : a <> ind_of x2) by (by apply (fo_ne _ _ _ W1)).
  pose proof (Z.div_mod o BSIZE ltac:(done)) as Eo. pose proof (Z.mod_pos_bound o BSIZE ltac:(done)) as Em.
  assert (Hused : forall b, 0 <= b < sb_size sb -> forall d, used sb (t_view (tx_upd t2 a d)) b = used sb (t_view t2) b).
  { intros b Hb d. apply (used_upd_other (home := home)); [done..|apply Hd]. }
  assert (Hbyte : forall i, 0 <= i < MAXFILE * BSIZE ->
    fbyte (t_view (tx_upd t2 a (splice (t_view t2 a) (Z.to_nat (o mod BSIZE)) ch))) x2 i =
    if decide (o <= i < o + Z.of_nat (length ch)) then nth (Z.to_nat (i - o)) ch 0 else fbyte (t_view t2) x2 i).
  { intros i Hi. unfold a. rewrite (fbyte_upd sb) by (done || lia || apply Hwf).
    replace (o / BSIZE * BSIZE + o mod BSIZE) with o by lia. done. }
  assert (Hin : forall i, o <= i < o + Z.of_nat (length ch) -> i / BSIZE = o / BSIZE).
  { intros i Hi. symmetry. apply (Z.div_unique i BSIZE _ (i - BSIZE * (o / BSIZE))); lia. }
  split; try done; rewrite ?length_app, ?Nat2Z.inj_add, ?Z.add_assoc; fold o.
  - by apply file_ok_upd.
  - intros b Hb. rewrite Hused by done. by apply W2.
  - intros bn Hbn Hn. rewrite addr_of_upd by done. by apply W5.
  - intros bn Hbn Hn. rewrite addr_of_upd by done. by apply W6.
  - intros i Hi. rewrite addr_of_upd by done. destruct (decide (i < o)); [apply W8; fold o; lia|]. by rewrite Hin by lia.
  - intros i Hi. rewrite Hbyte by lia. destruct (decide (o <= i < o + Z.of_nat (length ch))).
    + rewrite app_nth2 by lia. f_equal. lia.
    + rewrite app_nth1 by lia. apply W9. fold o. lia.
  - intros i Hi Hr Hn. rewrite Hbyte by lia. rewrite decide_False by lia. apply W10; [done|fold o; lia|done].
  - intros b Hb Hub Hi Hna. cbn [tx_upd t_view]. rewrite fupd_other; [by apply W11|]. intros ->.
    destruct (decide (addr_of (t_view t) x (o / BSIZE) = 0)) as [E|E].
    + apply (W6 _ Hq E) in Ha. unfold a in Hub. congruence.
    + apply (Hna (o / BSIZE) Hq). symmetry. by apply W5.
  - intros b Hb Hub. rewrite Hused by done. by apply W12.
  - intros b Hb. cbn [tx_upd t_view]. rewrite fupd_other; [by apply W13|].
    unfold data_block, data_start in Hd. pose proof (la_size _ Hl). pose proof (Z.div_pos (sb_size sb) BPB ltac:(lia) ltac:(done)). lia.
Qed.

(** *** How many blocks are logged *)

Definition nmap sb : nat := Z.to_nat (sb_size sb / BPB + 1).
(** Blocks touched by [n] bytes from [off]. *)
Definition nblocks (off n : Z) : nat := if n =? 0 then 0%nat else Z.to_nat ((off + n + BSIZE - 1) / BSIZE - off / BSIZE).

Lemma wlogs_length sb t off n t' x' : 0 <= off -> 0 <= n -> NoDup (t_logged t) -> wlogs sb t off n t' x' ->
  (length (t_logged t') <= length (t_logged t) + nmap sb + 1 + nblocks off n)%nat.
Proof.
  intros Hoff Hn Hnd [W1 W2].
  set (l := t_logged t ++ seqZ (sb_bmapstart sb) (Z.of_nat (nmap sb)) ++ [ind_of x'] ++
            map (addr_of (t_view t') x') (seqZ (off / BSIZE) (Z.of_nat (nblocks off n)))).
  assert (Hl : length l = (length (t_logged t) + nmap sb + 1 + nblocks off n)%nat).
  { unfold l. rewrite !length_app, length_map, !length_seqZ, !Nat2Z.id. simpl. lia. }
  rewrite <- Hl. apply NoDup_incl_length; [by apply NoDup_ListNoDup, W1|]. intros b Hb%list_elem_of_In.
  apply list_elem_of_In. unfold l. rewrite !elem_of_app. apply W2 in Hb as [Hb|[Hb|[Hb|(bn & Hb0 & Hb1 & Hb2 & Hb3)]]].
  - by left.
  - right. left. apply elem_of_seqZ. unfold map_block, data_start in Hb. unfold nmap. lia.
  - right. right. left. apply elem_of_nonzero in Hb as [-> _]. by apply list_elem_of_singleton.
  - right. right. right. apply elem_of_nonzero in Hb3 as [-> _]. apply list_elem_of_fmap. exists bn. split; [done|].
    apply elem_of_seqZ. unfold nblocks. rewrite (proj2 (Z.eqb_neq _ _)) by lia. assert (bn + 1 <= (off + n + BSIZE - 1) / BSIZE); [|lia].
    apply Z.div_le_lower_bound; [done|]. unfold BSIZE in *. lia.
Qed.

(** *** Sources *)

Context {ulaws : UserLaws U}.

(** *** The loop *)

(** The log and the cache have room for a write of [n] bytes at [off]. *)
Definition wbudget sb t (off n : Z) : Prop :=
  (length (t_logged t) + nmap sb + nblocks off n + 6 <= NBUF)%nat /\
  Z.of_nat (length (t_logged t) + nmap sb + nblocks off n + 5) <= limit.

Lemma nblocks_mono off n n' : 0 <= off -> 0 <= n <= n' -> (nblocks off n <= nblocks off n')%nat.
Proof.
  intros Ho Hn. unfold nblocks. destruct (Z.eqb_spec n 0); [lia|]. rewrite (proj2 (Z.eqb_neq n' 0)) by lia.
  pose proof (Z.div_le_mono (off + n + BSIZE - 1) (off + n' + BSIZE - 1) BSIZE ltac:(done) ltac:(lia)). lia.
Qed.

(** Between two blocks there is one more block to come. *)
Lemma nblocks_between off n n' : 0 <= off -> 0 <= n < n' -> n = 0 \/ (off + n) mod BSIZE = 0 ->
  (nblocks off n + 1 <= nblocks off n')%nat.
Proof.
  intros Ho Hn Hal. unfold nblocks. rewrite (proj2 (Z.eqb_neq n' 0)) by lia.
  assert (HB : 0 < BSIZE) by done.
  assert (H1 : off / BSIZE + 1 <= (off + n' + BSIZE - 1) / BSIZE).
  { replace (off / BSIZE + 1) with ((off + 1 * BSIZE) / BSIZE) by (by rewrite Z.div_add). apply Z.div_le_mono; lia. }
  destruct (Z.eqb_spec n 0) as [|Hn0]; [lia|]. destruct Hal as [|Hal]; [done|].
  assert (E1 : (off + n + BSIZE - 1) / BSIZE = (off + n) / BSIZE).
  { pose proof (Z.div_mod (off + n) BSIZE ltac:(lia)) as E. symmetry.
    apply (Z.div_unique _ _ _ (BSIZE - 1)); unfold BSIZE in *; lia. }
  assert (H2 : (off + n) / BSIZE + 1 <= (off + n' + BSIZE - 1) / BSIZE).
  { replace ((off + n) / BSIZE + 1) with ((off + n + 1 * BSIZE) / BSIZE) by (by rewrite Z.div_add). apply Z.div_le_mono; lia. }
  pose proof (Z.div_le_mono off (off + n) BSIZE HB ltac:(lia)). lia.
Qed.

Lemma wlogs_upd sb t off n t2 x2 bn d :
  addr_of (t_view t2) x2 bn <> ind_of x2 -> 0 < n -> off / BSIZE <= bn -> bn * BSIZE < off + n -> addr_of (t_view t2) x2 bn <> 0 ->
  wlogs sb t off n t2 x2 -> wlogs sb t off n (tx_upd t2 (addr_of (t_view t2) x2 bn) d) x2.
Proof.
  intros Hni Hn H1 H2 Ha [W1 W2]. split; [intros Hnd; by apply NoDup_add_block, W1|].
  intros b [Hb| ->]%elem_of_add_block.
  - apply W2 in Hb as [Hb|[Hb|[Hb|(k & Hk0 & Hk1 & Hk2 & Hk3)]]]; [auto..|]. right. right. right. exists k.
    by rewrite addr_of_upd.
  - right. right. right. exists bn. rewrite addr_of_upd by done. split_and!; [done..|]. by apply nonzero_self.
Qed.

(** What the loop leaves behind after storing [k] of the bytes [bs]. *)
Record wdone sb it u t x ip off (bs : list Z) w (k : nat) t' x' w' : Prop := {
  wd_k : (k <= length bs)%nat;
  wd_ctx : same_ctx w w';
  wd_fsw : fsw (laws := laws) w' t' sb (<[ip := x']> it) u;
  wd_written : written sb t x off (take k bs) t' x';
  wd_logs : wlogs sb t off (Z.of_nat k) t' x';
  wd_full : (k < length bs)%nat -> full sb (t_view t') }.

(** Copying [m] bytes of the source into block [a] of the file. *)
Lemma wp_write_block sb it u t x ip src rest a (m o : Z) (fail : nat -> M (fsst S U) (Z * Z)) (next : M (fsst S U) (Z * Z)) Q w :
  layout (home := home) sb -> fsw (laws := laws) w t sb it u -> no_tx_locks (w_held w) -> it !! ip = Some x -> i_dev x = dev ->
  t_open t = ∅ -> room (limit := limit) t 1 -> data_block sb a -> src_has (w_me w) u src rest ->
  0 <= m <= Z.of_nat (length rest) -> 0 <= o -> o + m <= BSIZE ->
  (forall w', same_ctx w w' ->
     fsw (laws := laws) w' (tx_upd t a (splice (t_view t a) (Z.to_nat o) (take (Z.to_nat m) rest))) sb it u -> wp next Q w') ->
  wp (x ← iload ip;
      bp ← tx (tx_bread (i_dev x) a);
      d ← tx (tx_data bp);
      c ← umem (either_copyin src m);
      tx (tx_set_data bp (splice d (Z.to_nat o) (snd c)));;
      if fst c =? -1 then fail bp
      else tx (tx_log_write bp);; tx (tx_brelse bp);; next) Q w.
Proof.
  intros Hl Hw Hnl Hx Hdev Ho Hr Hd Hs Hm Hoo Hom HK. eapply wp_bind, fw_iload; [exact Hw|exact Hx|]. rewrite Hdev.
  eapply fw_read; [exact Hw|done|by eapply data_home|by rewrite Ho|done|]. intros i w1 Hc1 Hw1.
  eapply wp_bind, (fw_data _ _ _ _ a); [exact Hw1|apply lookup_insert_eq|]. cbn [t_view].
  eapply wp_bind, wp_umem_same; [intros R HR; apply (wp_either_copyin src rest); [|done|by apply HR]|].
  { rewrite (fw_mem _ _ _ _ _ Hw1), (proj1 Hc1). done. }
  cbn [fst snd Z.eqb]. eapply (fw_update_end t sb it u a); [exact Hw1|exact Hc1|done|by rewrite Ho|done| |done].
  rewrite length_splice; [by eapply fsw_wf|]. rewrite length_take, (fsw_wf _ _ _ _ _ _ Hw). lia.
Qed.

Lemma wp_writei_loop sb it u t x ip off0 bs w0 :
  layout (home := home) sb -> file_ok (dev := dev) sb (t_view t) x -> it !! ip = Some x -> NoDup (t_logged t) ->
  0 <= off0 -> off0 + Z.of_nat (length bs) <= MAXFILE * BSIZE -> wbudget sb t off0 (Z.of_nat (length bs)) ->
  no_tx_locks (w_held w0) ->
  forall fuel k src t1 x1 (Q : Z * Z -> world (fsst S U) -> Prop) w,
  wdone sb it u t x ip off0 (take k bs) w0 k t1 x1 w -> (k <= length bs)%nat ->
  src_has (w_me w) u src (drop k bs) ->
  k = 0%nat \/ (off0 + Z.of_nat k) mod BSIZE = 0 \/ k = length bs ->
  enough fuel (off0 + Z.of_nat k) (Z.of_nat (length bs) - Z.of_nat k) ->
  (forall k' t' x' w', wdone sb it u t x ip off0 bs w0 k' t' x' w' -> Q (Z.of_nat k', off0 + Z.of_nat k') w') ->
  wp (writei_loop fuel ip src (off0 + Z.of_nat k) (Z.of_nat (length bs)) (Z.of_nat k)) Q w.
Proof.
  intros Hl Hf Hx Hnd Hoff Hmax [HB1 HB2] Hnl. induction fuel as [|fuel IH]; intros k src t1 x1 Q w Hd Hk Hs Hal Hen HQ;
    [destruct Hen; lia|].
  cbn [writei_loop]. destruct Hd as [_ Hc Hw Hwr Hlg _]. rewrite take_take, Nat.min_id in Hwr.
  destruct (Z.ltb_spec (Z.of_nat k) (Z.of_nat (length bs))) as [Hlt|Hge].
  2:{ apply wp_ret, (HQ k t1 x1 w). split; [lia|done..|lia]. }
  set (off := off0 + Z.of_nat k) in *. set (n := Z.of_nat (length bs)) in *.
  destruct (enough_step fuel off (n - Z.of_nat k) ltac:(lia) ltac:(lia) Hen) as (Hm & Hm2 & Hen').
  set (m := Z.min (n - Z.of_nat k) (BSIZE - off mod BSIZE)) in *.
  assert (Hlk : length (take k bs) = k) by (rewrite length_take; lia).
  assert (Hal' : Z.of_nat k = 0 \/ off mod BSIZE = 0) by (destruct Hal as [?|[?|?]]; [left|right|]; lia).
  assert (Hlen1 : (length (t_logged t1) <= length (t_logged t) + nmap sb + nblocks off0 n)%nat).
  { pose proof (wlogs_length sb t off0 (Z.of_nat k) t1 x1 Hoff ltac:(lia) Hnd Hlg).
    pose proof (nblocks_between off0 (Z.of_nat k) n Hoff ltac:(lia) Hal'). lia. }
  assert (Hip : (ip < length it)%nat) by (by eapply lookup_lt_Some).
  eapply wp_bind, wp_bmap; [done|apply Hwr|apply Hwr|exact Hw|by apply list_lookup_insert_eq|apply Hwr|by rewrite (proj2 Hc)| |lia|apply div_maxfile; lia|].
  { split; [rewrite (wr_open _ _ _ _ _ _ _ Hwr), map_size_empty|]; lia. }
  intros w2 t2 x2 [Hc2 Hw2 He2 Hlg2 Hnd2 _] Hfull2. rewrite list_insert_insert_eq in Hw2.
  assert (Hwr2 : written sb t x off0 (take k bs) t2 x2) by (eapply written_ext; [done|done| |exact Hwr|done]; rewrite Hlk; lia).
  assert (Hc02 : same_ctx w0 w2) by (by etrans).
  destruct (Z.eqb_spec (addr_of (t_view t2) x2 (off / BSIZE)) 0) as [E|Ha].
  { apply wp_ret, (HQ k t2 x2 w2). split; [lia|done..| |auto].
    eapply (wlogs_ext _ _ _ _ _ _ _ _ _ (nonzero 0)); [done|done| | |exact Hlg|done|by rewrite E in Hlg2|done|by intros b ?%elem_of_nil]; lia. }
  assert (Hq : 0 <= off / BSIZE < MAXFILE) by (apply div_maxfile; lia).
  destruct (fo_addr _ _ _ (fe_ok _ _ _ _ _ He2) _ Hq Ha) as [Hda _].
  pose proof (fo_ne _ _ _ (fe_ok _ _ _ _ _ He2) _ Hq Ha) as Hni.
  pose proof (Z.div_mod off BSIZE ltac:(done)) as Eoff. pose proof (Z.mod_pos_bound off BSIZE ltac:(done)).
  assert (Hbn : off0 / BSIZE <= off / BSIZE) by (apply Z.div_le_mono; [done|lia]).
  assert (Hwl2 : wlogs sb t off0 (Z.of_nat k + m) t2 x2).
  { eapply (wlogs_ext _ _ _ _ _ _ _ _ _ (nonzero (addr_of (t_view t2) x2 (off / BSIZE)))); [done|done| | |exact Hlg|done..|]; [lia|lia|].
    intros b Hb. exists (off / BSIZE). split_and!; [lia|lia|lia|done]. }
  assert (Hlen2 : (length (t_logged t2) <= length (t_logged t) + nmap sb + 1 + nblocks off0 n)%nat).
  { pose proof (wlogs_length sb t off0 (Z.of_nat k + m) t2 x2 Hoff ltac:(lia) Hnd Hwl2).
    pose proof (nblocks_mono off0 (Z.of_nat k + m) n Hoff ltac:(lia)). lia. }
  eapply (wp_write_block sb _ u t2 x2 ip src (drop k bs)); [done|exact Hw2|by rewrite (proj2 Hc02)|by apply list_lookup_insert_eq
    |apply Hwr2|apply Hwr2| |done|by rewrite (proj1 Hc2)|rewrite length_drop; fold m; lia|lia|fold m; lia|].
  { split; [rewrite (wr_open _ _ _ _ _ _ _ Hwr2), map_size_empty|]; lia. }
  intros w3 Hc3 Hw3.
  replace (off + m) with (off0 + Z.of_nat (k + Z.to_nat m)) by lia.
  replace (Z.of_nat k + m) with (Z.of_nat (k + Z.to_nat m)) by lia.
  eapply IH; [|lia| | | |exact HQ].
  - split; [rewrite length_take; lia|by etrans|exact Hw3| | |rewrite length_take; lia].
    + rewrite take_take, Nat.min_id. rewrite <- take_take_drop.
      pose proof (written_store sb t x off0 (take k bs) t2 x2 (take (Z.to_nat m) (drop k bs)) Hl) as Hst. rewrite Hlk in Hst.
      apply Hst; [by intros; eapply fsw_wf|done|done|done|rewrite length_take, length_drop; fold off; lia..|fold off; lia].
    + replace (Z.of_nat (k + Z.to_nat m)) with (Z.of_nat k + m) by lia. by apply wlogs_upd; [| |lia|lia| |]; try lia.
  - rewrite <- drop_drop. rewrite (proj1 Hc3), (proj1 Hc2). apply src_has_add; [done|]. rewrite length_drop. lia.
  - right. destruct (decide (m = n - Z.of_nat k)); [right; lia|left].
    replace (off0 + Z.of_nat (k + Z.to_nat m)) with ((off / BSIZE + 1) * BSIZE) by lia. by apply Z.mod_mul.
  - replace (off0 + Z.of_nat (k + Z.to_nat m)) with (off + m) by lia. fold n.
    by replace (n - Z.of_nat (k + Z.to_nat m)) with (n - Z.of_nat k - m) by lia.
Qed.

(** *** writei *)

(** What a file is does not depend on the blocks below the free map. *)
Definition same_data sb v v' : Prop := forall b, sb_bmapstart sb <= b -> v' b = v b.

Lemma data_above sb b : layout (home := home) sb -> data_block sb b -> sb_bmapstart sb <= b.
Proof.
  intros Hl Hb. unfold data_block, data_start in Hb. pose proof (la_size _ Hl).
  pose proof (Z.div_pos (sb_size sb) BPB ltac:(lia) ltac:(done)). lia.
Qed.

Lemma used_same sb v v' b : layout (home := home) sb -> same_data sb v v' -> 0 <= b < sb_size sb -> used sb v' b = used sb v b.
Proof. intros Hl Hs Hb. unfold used. rewrite Hs; [done|]. apply (bblock_range sb b Hl Hb). Qed.

Lemma addr_of_same sb v v' x bn : layout (home := home) sb -> same_data sb v v' -> file_ok (dev := dev) sb v x ->
  addr_of v' x bn = addr_of v x bn.
Proof.
  intros Hl Hs Hf. unfold addr_of. destruct (bn <? NDIRECT); [done|]. destruct (Z.eqb_spec (ind_of x) 0) as [|Hn]; [done|].
  destruct (fo_ind _ _ _ Hf Hn) as [Hd _]. by rewrite Hs by (by apply data_above).
Qed.

Lemma file_ok_same sb v v' x : layout (home := home) sb -> same_data sb v v' -> file_ok (dev := dev) sb v x ->
  file_ok (dev := dev) sb v' x.
Proof.
  intros Hl Hs Hf. pose proof Hf as [F1 F2 F3 F4 F5 F6].
  assert (Hu : forall b, data_block sb b -> used sb v b = true -> used sb v' b = true).
  { intros b Hb Hub. pose proof (data_block_pos _ _ Hl Hb). rewrite (used_same sb v v') by (done || lia). done. }
  assert (Ha : forall bn, addr_of v' x bn = addr_of v x bn) by (intros; by apply (addr_of_same sb)). split; try done.
  - intros bn Hbn. rewrite Ha. intros Hn. destruct (F3 bn Hbn Hn). auto.
  - intros Hn. destruct (F4 Hn). auto.
  - intros bn bn' H1 H2. rewrite !Ha. by apply F5.
  - intros bn H1. rewrite Ha. by apply F6.
Qed.

Lemma fbyte_same sb v v' x i : layout (home := home) sb -> same_data sb v v' -> file_ok (dev := dev) sb v x ->
  0 <= i < MAXFILE * BSIZE -> addr_of v x (i / BSIZE) <> 0 -> fbyte v' x i = fbyte v x i.
Proof.
  intros Hl Hs Hf Hi Ha. unfold fbyte. rewrite (addr_of_same sb v) by done.
  destruct (fo_addr _ _ _ Hf _ (div_maxfile i Hi) Ha) as [Hd _]. by rewrite Hs by (by apply data_above).
Qed.

(** The size an inode has does not matter for its blocks. *)
Lemma file_ok_size sb v x n : file_ok (dev := dev) sb v x -> file_ok (dev := dev) sb v (set_isize n x).
Proof. intros [F1 F2 F3 F4 F5 F6]. by split. Qed.

Lemma file_addrs_range sb v x : layout (home := home) sb -> file_ok (dev := dev) sb v x -> Forall (fun a => 0 <= a < 2 ^ 32) (i_addrs x).
Proof.
  intros Hl Hf. pose proof (la_size _ Hl). assert (Hd : forall b, data_block sb b -> 0 <= b < 2 ^ 32).
  { intros b Hb. pose proof (data_block_pos _ _ Hl Hb). lia. }
  assert (Hlen : length (i_addrs x) = 13%nat) by apply (fo_len _ _ _ Hf).
  apply Forall_lookup. intros k a Ha. assert (Hn : nth k (i_addrs x) 0 = a) by (by rewrite nth_lookup, Ha).
  apply lookup_lt_Some in Ha. destruct (decide (a = 0)); [lia|]. apply Hd. destruct (decide (k = 12%nat)) as [->|].
  - assert (Ei : ind_of x = a) by done. rewrite <- Ei in *. by apply (fo_ind _ _ _ Hf).
  - assert (Ea : addr_of v x (Z.of_nat k) = a).
    { unfold addr_of. rewrite (proj2 (Z.ltb_lt _ _)) by (unfold NDIRECT; lia). by rewrite Nat2Z.id. }
    rewrite <- Ea in *. apply (fo_addr _ _ _ Hf); [change MAXFILE with 268; lia|done].
Qed.

(** [k] bytes of [bs] are stored at [off] of file [x], now [x'], and its inode
    is written back. *)
Record wrote sb t x (off : Z) (bs : list Z) (k : nat) t' x' : Prop := {
  wo_k : (k <= length bs)%nat;
  wo_ok : file_ok (dev := dev) sb (t_view t') x';
  wo_map : map_ok sb (t_view t');
  wo_size : i_size x' = Z.max (i_size x) (off + Z.of_nat k);
  wo_meta : same_meta x (set_isize (i_size x) x');
  wo_hole : nohole (t_view t') x' (i_size x');
  wo_bytes : fbytes (t_view t') x' off k = take k bs;
  wo_rest : forall i, 0 <= i < i_size x -> ~ (off <= i < off + Z.of_nat k) -> fbyte (t_view t') x' i = fbyte (t_view t) x i;
  wo_disk : disk_dinode sb (t_view t') (i_inum x) = inode_dinode x';
  wo_inodes : forall inum, 0 <= inum < sb_ninodes sb -> inum <> i_inum x ->
    disk_dinode sb (t_view t') inum = disk_dinode sb (t_view t) inum;
  wo_frame : forall b, data_block sb b -> used sb (t_view t) b = true -> b <> ind_of x ->
    (forall bn, 0 <= bn < MAXFILE -> addr_of (t_view t) x bn <> b) -> t_view t' b = t_view t b;
  wo_used : forall b, 0 <= b < sb_size sb -> used sb (t_view t) b = true -> used sb (t_view t') b = true;
  wo_open : t_open t' = ∅;
  wo_len : NoDup (t_logged t) -> (length (t_logged t') <= length (t_logged t) + nmap sb + nblocks off (Z.of_nat k) + 2)%nat;
  wo_full : (k < length bs)%nat -> full sb (t_view t') }.

(** A file the calls work on. *)
Record file_inv sb v x : Prop := {
  fi_ok : file_ok (dev := dev) sb v x;
  fi_map : map_ok sb v;
  fi_inum : 0 <= i_inum x < sb_ninodes sb;
  fi_dinode : dinode_ok (inode_dinode x);
  fi_size : 0 <= i_size x <= MAXFILE * BSIZE;
  fi_hole : nohole v x (i_size x) }.

(** Writing back the inode after the loop. *)
Lemma written_wrote sb t x off bs k t1 x1 :
  layout (home := home) sb -> file_inv sb (t_view t) x -> (forall b, length (t_view t1 b) = Z.to_nat BSIZE) ->
  0 <= off <= i_size x -> (k <= length bs)%nat -> off + Z.of_nat k <= MAXFILE * BSIZE ->
  written sb t x off (take k bs) t1 x1 -> wlogs sb t off (Z.of_nat k) t1 x1 ->
  ((k < length bs)%nat -> full sb (t_view t1)) ->
  let x' := if i_size x1 <? off + Z.of_nat k then set_isize (off + Z.of_nat k) x1 else x1 in
  wrote sb t x off bs k (inode_tx sb t1 x') x'.
Proof.
  intros Hl [F1 F2 F3 F4 F5 F6] Hwf Hoff Hk Hmax Hw Hlg Hfull x'. set (n := Z.max (i_size x) (off + Z.of_nat k)).
  pose proof Hw as [W1 W2 W3 W4 W5 W6 W7 W8 W9 W10 W11 W12 W13].
  assert (Hlk : length (take k bs) = k) by (rewrite length_take; lia). rewrite Hlk in *.
  assert (Ex : x' = set_isize n x1).
  { unfold x', n. pose proof (sm_size _ _ W3) as Es. destruct (Z.ltb_spec (i_size x1) (off + Z.of_nat k)); [f_equal; lia|].
    destruct x1. simpl in *. unfold set_isize. simpl. f_equal. lia. }
  rewrite Ex. clear x' Ex. set (x' := set_isize n x1).
  assert (Hinum : i_inum x' = i_inum x) by apply W3.
  assert (Hok1 : file_ok (dev := dev) sb (t_view t1) x') by (by apply file_ok_size).
  assert (Hsame : same_data sb (t_view t1) (t_view (inode_tx sb t1 x'))).
  { intros b Hb. apply inode_tx_view. rewrite Hinum. destruct (iblock_range sb (i_inum x) Hl F3). lia. }
  assert (Hdi : dinode_ok (inode_dinode x')).
  { destruct F4. split; simpl; try (rewrite ?(sm_type _ _ W3), ?(sm_major _ _ W3), ?(sm_minor _ _ W3), ?(sm_nlink _ _ W3); done).
    - change (MAXFILE * BSIZE) with 274432 in *. unfold n. lia.
    - by eapply file_addrs_range.
    - apply (fo_len _ _ _ W1). }
  assert (Hthere : nohole (t_view t1) x' n).
  { intros bn Hbn Hlt. assert (Hm : 0 <= bn < MAXFILE) by (change (MAXFILE * BSIZE) with 274432 in *; change MAXFILE with 268; unfold n, BSIZE in *; lia).
    destruct (decide (bn * BSIZE < i_size x)) as [Hs|Hs].
    - change (addr_of (t_view t1) x1 bn <> 0). rewrite W5; [by apply F6|done|by apply F6].
    - pose proof (W8 (bn * BSIZE) ltac:(unfold n in *; lia)) as H8. by rewrite Z.div_mul in H8 by done. }
  assert (Hfb : forall i, 0 <= i < n -> fbyte (t_view (inode_tx sb t1 x')) x' i = fbyte (t_view t1) x1 i).
  { intros i Hi. assert (Hm : 0 <= i < MAXFILE * BSIZE) by (unfold n in *; lia).
    rewrite (fbyte_same sb (t_view t1)); [done|done|done|done|done|]. apply Hthere; [by apply div_maxfile|].
    pose proof (Z.div_mod i BSIZE ltac:(done)). pose proof (Z.mod_pos_bound i BSIZE ltac:(done)). lia. }
  split; try done.
  - by eapply file_ok_same.
  - intros b Hb. rewrite (used_same sb (t_view t1)) by done. by apply W2.
  - destruct W3. split; try done; simpl; congruence.
  - intros bn Hbn Hlt. rewrite (addr_of_same sb (t_view t1)) by done. by apply Hthere.
  - apply list_eq. intros i. destruct (decide (i < k)%nat) as [Hi|Hi].
    + rewrite lookup_fbytes by done. rewrite Hfb, W9 by (unfold n; lia).
      replace (Z.to_nat (off + Z.of_nat i - off)) with i by lia. rewrite nth_lookup.
      destruct (lookup_lt_is_Some_2 (take k bs) i) as [y Hy]; [lia|]. by rewrite Hy.
    + rewrite !lookup_ge_None_2; [done|lia|rewrite length_fbytes; lia].
  - intros i Hi Hr. rewrite Hfb by (unfold n; lia). apply W10; [lia|done|]. apply F6; [apply Z.div_pos; [lia|done]|].
    pose proof (Z.div_mod i BSIZE ltac:(done)). pose proof (Z.mod_pos_bound i BSIZE ltac:(done)). lia.
  - rewrite <- Hinum. by apply inode_tx_same.
  - intros inum Hi Hne. rewrite (inode_tx_other (home := home)); [|done|done|apply Hdi|by rewrite Hinum|done|by rewrite Hinum].
    unfold disk_dinode. rewrite W13; [done|]. by apply (iblock_range (home := home)).
  - intros b Hb Hu Hi Ha. rewrite Hsame by (by apply data_above). by apply W11.
  - intros b Hb Hu. rewrite (used_same sb (t_view t1)) by done. by apply W12.
  - intros Hnd. unfold inode_tx. cbn [tx_upd t_logged]. pose proof (length_add_block (IBLOCK (i_inum x') sb) (t_logged t1)).
    pose proof (wlogs_length sb t off (Z.of_nat k) t1 x1 ltac:(lia) ltac:(lia) Hnd Hlg). lia.
  - intros Hlt b Hb. rewrite (used_same sb (t_view t1)) by done. by apply Hfull.
Qed.

Lemma u32_wrap off n : 0 <= off < 2 ^ 32 -> 0 <= n < 2 ^ 32 -> (u32 (off + n) <? off) = (2 ^ 32 <=? off + n).
Proof.
  intros Ho Hn. unfold u32. destruct (Z.leb_spec (2 ^ 32) (off + n)).
  - apply Z.ltb_lt. assert ((off + n) mod 2 ^ 32 = off + n - 2 ^ 32) as ->; [|lia]. symmetry. apply (Z.mod_unique _ _ 1); lia.
  - apply Z.ltb_ge. rewrite Z.mod_small; lia.
Qed.

Lemma wp_writei sb it u t x ip src off bs (Q : Z -> world (fsst S U) -> Prop) w :
  layout (home := home) sb -> file_inv sb (t_view t) x -> fsw (laws := laws) w t sb it u -> it !! ip = Some x ->
  t_open t = ∅ -> no_tx_locks (w_held w) -> NoDup (t_logged t) -> src_has (w_me w) u src bs ->
  0 <= off < 2 ^ 32 -> Z.of_nat (length bs) < 2 ^ 32 ->
  wbudget sb t off (Z.of_nat (length bs)) ->
  (i_size x < off \/ MAXFILE * BSIZE < off + Z.of_nat (length bs) -> Q (-1) w) ->
  (forall k t' x' w', off <= i_size x -> off + Z.of_nat (length bs) <= MAXFILE * BSIZE ->
     wrote sb t x off bs k t' x' -> same_ctx w w' -> fsw (laws := laws) w' t' sb (<[ip := x']> it) u -> Q (Z.of_nat k) w') ->
  wp (writei ip src off (Z.of_nat (length bs))) Q w.
Proof.
  intros Hl Hfi Hw Hx Ho Hnl Hnd Hs Hoff Hlen Hbud Herr HQ. set (n := Z.of_nat (length bs)) in *.
  assert (Hf : file_ok (dev := dev) sb (t_view t) x) by apply Hfi.
  eapply wp_bind, fw_iload; [exact Hw|exact Hx|]. rewrite Z.gtb_ltb, u32_wrap by lia.
  destruct (Z.ltb_spec (i_size x) off) as [|Hs1]; [apply wp_ret, Herr; by left|]. cbn [orb].
  pose proof (fi_size _ _ _ Hfi) as Hsz. assert (HM : MAXFILE * BSIZE = 274432) by done.
  destruct (Z.leb_spec (2 ^ 32) (off + n)) as [|Hs2]; [apply wp_ret, Herr; right; lia|].
  unfold u32. rewrite Z.mod_small by lia. rewrite Z.gtb_ltb.
  destruct (Z.ltb_spec (MAXFILE * BSIZE) (off + n)) as [|Hs3]; [apply wp_ret, Herr; by right|].
  apply wp_bind. replace off with (off + Z.of_nat 0) by lia.
  eapply (wp_writei_loop sb it u t x ip off bs w Hl Hf Hx Hnd) with (t1 := t) (x1 := x); [lia|done|done|done| |lia|by rewrite drop_0|by left
    |rewrite Z.add_0_r, Z.sub_0_r; apply enough_init; lia|].
  { rewrite take_0. split; [done|done|by rewrite list_insert_id| | |simpl; lia].
    - apply written_nil; [done|apply Hfi|done].
    - split; [done|]. intros b Hb. by left. }
  intros k t1 x1 w1 [Hk Hc1 Hw1 Hwr Hlg Hfull].
  assert (Hwf : forall b, length (t_view t1 b) = Z.to_nat BSIZE) by (intros; by eapply fsw_wf).
  assert (Hip : <[ip := x1]> it !! ip = Some x1) by (apply list_lookup_insert_eq; by eapply lookup_lt_Some).
  pose proof (written_wrote sb t x off bs k t1 x1 Hl Hfi Hwf ltac:(lia) Hk ltac:(lia) Hwr Hlg Hfull) as Hwo. cbn zeta in Hwo.
  eapply wp_bind, fw_iload; [exact Hw1|exact Hip|]. rewrite Z.gtb_ltb.
  set (x' := if i_size x1 <? off + Z.of_nat k then set_isize (off + Z.of_nat k) x1 else x1) in *.
  eapply wp_bind. apply (wp_mono _ (fun _ w2 => same_ctx w w2 /\ fsw (laws := laws) w2 t1 sb (<[ip := x']> it) u)).
  2:{ unfold x'. destruct (i_size x1 <? off + Z.of_nat k).
      - eapply fw_iassign; [exact Hw1|exact Hip|]. intros w2 Hc2 Hw2. split; [by etrans|]. by rewrite list_insert_insert_eq in Hw2.
      - by apply wp_ret. }
  intros [] w2 [Hc2 Hw2]. pose proof (wo_meta _ _ _ _ _ _ _ _ Hwo) as Hmeta.
  assert (Hinum : i_inum x' = i_inum x) by apply (sm_inum _ _ Hmeta).
  assert (Hop : t_open t1 = ∅) by apply Hwr.
  eapply wp_bind, wp_iupdate; [done| | | |exact Hw2|apply list_lookup_insert_eq; by eapply lookup_lt_Some|by rewrite Hop|by rewrite (proj2 Hc2)| |].
  - rewrite Hinum. apply Hfi.
  - apply (fo_dev _ _ _ (wo_ok _ _ _ _ _ _ _ _ Hwo)).
  - apply (fo_len _ _ _ (wo_ok _ _ _ _ _ _ _ _ Hwo)).
  - destruct Hbud as [B1 B2]. pose proof (wlogs_length sb t off (Z.of_nat k) t1 x1 ltac:(lia) ltac:(lia) Hnd Hlg).
    pose proof (nblocks_mono off (Z.of_nat k) n ltac:(lia) ltac:(lia)). split; [rewrite Hop, map_size_empty|]; lia.
  - intros w3 Hc3 Hw3. apply wp_ret, (HQ k (inode_tx sb t1 x') x'); [lia|lia|done|by etrans|done].
Qed.
End write.
