(* ===== verification/FsProps.v ===== *)
(** File-system operations as transactions: [begin_op], the operation,
    [end_op], on the log of Log.v; what a crash leaves of it. *)

From S2P Require Import Prelude KMonad Kalloc Vm UserMem Bytes Sleeplock BlockStore Log LogSpec LogCrash LogOps LogTx Bio BioSpec BioProps LogProps Fs FsSpec FsFile FsInode FsWrite.

Section atomic.
Context {S U : Type} {ops : BlockOps S} {uops : UserOps U} {dev : Z} {laws : BlockLaws S dev}.
Implicit Types (w : world (fsst (logst S) U)) (a : store) (g : log) (t : txst) (sb : superblock) (it : list inode) (u : U).

(** How system calls run an operation of the file system. *)
Definition fs_op {A} (m : M (fsst (logst S) U) A) : M (fsst (logst S) U) A :=
  tx begin_op;; r ← m; tx end_op;; mret r.

(** No operation is running: the log is empty and the disk is what the cache
    shows. *)
Record idle w g a sb it u : Prop := {
  id_bio : bc_rep (l_bio (f_tx (w_st w))) a;
  id_log : l_log (f_tx (w_st w)) = g;
  id_inv : log_inv (dev := dev) g a [];
  id_out : lg_outstanding g = 0;
  id_sb : f_sb (w_st w) = sb;
  id_it : f_itable (w_st w) = it;
  id_mem : f_mem (w_st w) = u }.

Lemma idle_recovers w g a sb it u : idle w g a sb it u -> recovers_to g (st_disk a) (st_view a).
Proof.
  intros []. apply (log_txs_recovers (dev := dev) g a (Txs 0 (st_view a) (st_view a) [])).
  split; try done. intros b Hb. simpl. apply (li_rest _ _ _ id_inv0); [done|apply not_elem_of_nil].
Qed.

(** The transaction interface of an operation that starts in [a]. *)
Abbreviation op_laws g a := (log_tx_laws (dev := dev) (lg_start g) (lg_size g - 1) 1 (st_disk a) (st_writes a)).

Lemma wp_begin_fs w g a sb it u (Q : () -> world (fsst (logst S) U) -> Prop) :
  idle w g a sb it u -> L_log ∉ w_held w ->
  (forall w', same_ctx w w' -> fsw (laws := op_laws g a) w' (TxSt (st_view a) ∅ []) sb it u -> Q () w') ->
  wp (tx begin_op) Q w.
Proof.
  intros [Hr Hg Hi Ho Hsb Hit Hu] Hl HQ. apply wp_tx.
  eapply wp_mono, (wp_begin_op (laws := laws) g a [] (only_tx w)); [|by split|done|apply Hi|].
  2:{ rewrite (li_n _ _ _ Hi), Ho. done. }
  intros [] w' [[Hc1 Hc2] [Hr' Hg']]. rewrite Ho in Hg'. apply HQ; [done|]. split; [|done..]. cbn [with_tx w_st f_tx w_me].
  exists (set_outstanding 1 g), a. split_and!; try done. apply log_inv_in_tx; [by apply log_inv_out|done].
Qed.

(** What a crash during [end_op], or before it, leaves of an operation. *)
Record committed g a t (w' : world (fsst (logst S) U)) (ws : list (Z * list Z)) : Prop := {
  cm_always : always (fun d => recovers_to g d (st_view a) \/ recovers_to g d (t_view t)) (st_disk a) ws;
  cm_last : recovers_to g (apply_writes (st_disk a) ws) (t_view t);
  cm_idle : forall sb it u, f_sb (w_st w') = sb -> f_itable (w_st w') = it -> f_mem (w_st w') = u ->
    exists g' a', idle w' g' a' sb it u /\ lg_start g' = lg_start g /\ lg_size g' = lg_size g /\
      (forall b, home g b -> st_view a' b = t_view t b) /\
      st_disk a' = apply_writes (st_disk a) ws /\ st_writes a' = st_writes a ++ ws }.

Lemma wp_end_fs w0 w g a t sb it u (Q : () -> world (fsst (logst S) U) -> Prop) :
  idle w0 g a sb it u ->
  forall it' u', fsw (laws := op_laws g a) w t sb it' u' -> t_open t = ∅ -> no_tx_locks (w_held w) ->
  (forall w' ws, same_ctx w w' -> f_sb (w_st w') = sb -> f_itable (w_st w') = it' -> f_mem (w_st w') = u' ->
     committed g a t w' ws -> Q () w') ->
  wp (tx end_op) Q w.
Proof.
  intros Hid it' u' [(g1 & a1 & Hr & Hg & Hin & Hs & Hz & Hout & Hd & Hws) Hsb Hit Hu] Ho [Hnl Hl] HQ. apply wp_tx.
  pose proof (in_tx_log_inv _ _ _ _ Hin Ho) as Hi. pose proof (it_view _ _ _ _ Hin) as Hv.
  eapply wp_mono, (wp_end_op_commit (laws := laws) g1 a1 (t_logged t) (only_tx w)); [|done|by split|done..].
  intros [] w1 [Hc (ws & Hw1 & Ha & Hcl & Hhome & Hwf)]. apply (HQ (with_tx w w1) ws); [done..|].
  assert (Hview : forall b, home g b -> st_view a b = st_disk a b).
  { intros b Hb. destruct Hid. symmetry. apply (li_rest _ _ _ id_inv0); [done|apply not_elem_of_nil]. }
  assert (Hext : forall d v, recovers_to g1 d v -> recovers_to g d v) by (intros d v Hrc; by eapply recovers_ext, Hrc).
  rewrite Hd in *. rewrite Hv in *. split.
  - eapply always_mono; [|exact Ha]. intros d [Hrc|Hrc]; [left|right]; apply Hext; [|done].
    eapply recovers_ext, Hrc; [done|]. intros b Hb. symmetry. apply Hview. unfold home in *. by rewrite <- Hs.
  - apply Hext. exists []. exact Hcl.
  - intros sb2 it2 u2 <- <- <-. destruct Hw1 as [Hr1 Hg1]. exists (idle_log g1), (after a1 (unpin false (st_ref a1) (t_logged t)) ws).
    assert (Htx : log_txs (dev := dev) g1 a1 (Txs 1 (st_view a1) (st_disk a1) (t_logged t))) by (by split).
    pose proof (log_txs_commit (dev := dev) g1 a1 _ ws Htx) as Hcm. rewrite Hd, Hv in Hcm. specialize (Hcm Hcl Hhome Hwf). simpl in Hcm.
    split_and!; [split; try done; apply Hcm|done|simpl; lia| | |].
    + intros b Hb. simpl. rewrite Hv. apply Hhome. unfold home in *. by rewrite Hs.
    + simpl. by rewrite Hd.
    + simpl. by rewrite Hws.
Qed.

(** An operation is all there after a crash, or not at all. *)
Lemma wp_fs_op {A} (m : M (fsst (logst S) U) A) w g a sb it u (Q : A -> world (fsst (logst S) U) -> Prop)
    (R : A -> txst -> list inode -> U -> Prop) :
  idle w g a sb it u -> no_tx_locks (w_held w) ->
  (forall w1, same_ctx w w1 -> fsw (laws := op_laws g a) w1 (TxSt (st_view a) ∅ []) sb it u ->
     wp m (fun r w2 => same_ctx w1 w2 /\ exists t it' u',
       fsw (laws := op_laws g a) w2 t sb it' u' /\ t_open t = ∅ /\ R r t it' u') w1) ->
  (forall r w' t it' u' ws, same_ctx w w' -> f_sb (w_st w') = sb -> f_itable (w_st w') = it' -> f_mem (w_st w') = u' ->
     committed g a t w' ws -> R r t it' u' -> Q r w') ->
  wp (fs_op m) Q w.
Proof.
  intros Hid Hnl Hm HQ. eapply wp_bind, wp_begin_fs; [done|apply Hnl|]. intros w1 Hc1 Hw1.
  eapply wp_call; [by apply Hm|]. intros r w2 [Hc2 (t & it' & u' & Hw2 & Ho & HR)].
  assert (Hc02 : same_ctx w w2) by (by etrans).
  eapply wp_bind, wp_end_fs; [exact Hid|exact Hw2|done|by rewrite (proj2 Hc02)|].
  intros w3 ws Hc3 H1 H2 H3 Hcm. apply wp_ret. eapply HQ; [|exact H1|done|done|exact Hcm|done].
  by etrans.
Qed.
End atomic.

(** Properties of file contents: allocation of blocks, writing and reading
    back, and writes that survive crashes or leave no trace. *)


Section props.
Context {S U : Type} {tops : TxOps S} {uops : UserOps U} {dev limit : Z} {home : Z -> Prop}
  {laws : TxLaws S dev limit home} {ulaws : UserLaws U}.

(** C13: what is written is read back.  Storing [bs] at [off] of a file (from
    the kernel or from user memory) stores the first [k] bytes of it, all of
    them unless the disk is full, and reading [k] bytes at [off] returns them. *)
Theorem writei_readi sb it u t x ip src off bs w :
  layout (home := home) sb -> file_inv (dev := dev) sb (t_view t) x -> fsw (laws := laws) w t sb it u -> it !! ip = Some x ->
  t_open t = ∅ -> no_tx_locks (w_held w) -> NoDup (t_logged t) -> src_has (w_me w) u src bs ->
  0 <= off <= i_size x -> off + Z.of_nat (length bs) <= MAXFILE * BSIZE ->
  wbudget (limit := limit) sb t off (Z.of_nat (length bs)) ->
  wp (k ← writei ip src off (Z.of_nat (length bs)); r ← readi ip KernDst off k; mret (k, r))
    (fun p w' => exists k t' x', (k <= length bs)%nat /\ p = (Z.of_nat k, (Z.of_nat k, take k bs)) /\
       fsw (laws := laws) w' t' sb (<[ip := x']> it) u /\
       ((k < length bs)%nat -> forall b, 0 <= b < sb_size sb -> used sb (t_view t') b = true)) w.
Proof.
  intros Hl Hfi Hw Hx Ho Hnl Hnd Hs Hoff Hmax Hbud. assert (HM : MAXFILE * BSIZE = 274432) by done.
  pose proof (fi_size _ _ _ Hfi) as Hsz.
  eapply wp_bind, (wp_writei sb it u t x ip src off bs); try done; [lia|lia|intros [?|?]; lia|].
  intros k t' x' w1 _ _ Hwo Hc1 Hw1. pose proof Hwo as [W1 W2 W3 W4 W5 W6 W7 W8 W9 W10 W11 W12 W13 W14 W15].
  eapply wp_bind, (wp_readi t' sb _ u ip x'); [done|done| |done| |lia|done|exact Hw1|by rewrite (proj2 Hc1)|lia|lia|].
  - apply list_lookup_insert_eq. by eapply lookup_lt_Some.
  - specialize (W14 Hnd). destruct Hbud as [B1 B2]. pose proof (nblocks_mono off (Z.of_nat k) (Z.of_nat (length bs)) ltac:(lia) ltac:(lia)).
    split; [rewrite W13, map_size_empty|]; lia.
  - intros w2 Hc2 Hw2. apply wp_ret. exists k, t', x'. split_and!; [done| |done|exact W15].
    assert (Hrl : readi_len x' off (Z.of_nat k) = Z.of_nat k).
    { unfold readi_len. rewrite W4, (proj2 (Z.ltb_ge _ _)) by lia. rewrite u32_wrap by lia.
      rewrite (proj2 (Z.leb_gt _ _)) by lia. simpl. lia. }
    by rewrite Hrl, Nat2Z.id, W7.
Qed.

(** C31: the block allocator.  [balloc] returns a data block that was free and
    is now in use and zeroed, or 0 when every block is in use; the free map
    is otherwise the same, and so is every other block.  Freeing the block
    gives back the free map as it was, and freeing it once more panics. *)
Theorem balloc_bfree sb it (u : U) t (w : world (fsst S U)) :
  layout (home := home) sb -> map_ok sb (t_view t) -> open_ok sb t -> fsw (laws := laws) w t sb it u -> no_tx_locks (w_held w) ->
  room (limit := limit) t 4 ->
  wp (balloc dev) (fun r w' => exists t', fsw (laws := laws) w' t' sb it u /\
    ((r = 0 /\ t' = t /\ forall b, 0 <= b < sb_size sb -> used sb (t_view t) b = true) \/
     (data_start sb <= r < sb_size sb /\ used sb (t_view t) r = false /\ t_view t' r = zero_block /\
      (forall b, b <> r -> b <> BBLOCK r sb -> t_view t' b = t_view t b) /\
      (forall b, 0 <= b < sb_size sb -> used sb (t_view t') b = (used sb (t_view t) b || bool_decide (b = r))) /\
      wp (bfree dev r) (fun _ w2 => exists t2, fsw (laws := laws) w2 t2 sb it u /\
        (forall b, 0 <= b < sb_size sb -> used sb (t_view t2) b = used sb (t_view t) b) /\
        bfree dev r w2 = Panic "freeing free block") w'))) w.
Proof.
  intros Hl Hm Ho Hw Hnl Hr. assert (Hwf : forall b, length (t_view t b) = Z.to_nat BSIZE) by (intros; by eapply fsw_wf).
  eapply wp_balloc; [done|done|done|exact Hw|done|by eapply room_le; [exact Hr|lia]| |].
  { intros w1 Hc1 Hw1 Hfull. exists t. split; [done|]. by left. }
  intros r w1 Hc1 Hw1 Hd Hfree. exists (alloc_tx sb t r). split; [done|]. right.
  assert (Hrange : 0 <= r < sb_size sb) by (pose proof (data_block_pos sb r Hl Hd); lia).
  assert (Hua : forall b, 0 <= b < sb_size sb -> used sb (t_view (alloc_tx sb t r)) b = used sb (t_view t) b || bool_decide (b = r)).
  { intros b Hb. rewrite (used_alloc (home := home)) by done. case_decide as E; [subst|].
    - by rewrite bool_decide_true, orb_true_r.
    - by rewrite bool_decide_false, orb_false_r. }
  split_and!; [lia|lia|done|apply alloc_view_new|intros; by apply alloc_view|done|].
  assert (Hopen : forall t', t_open t' = t_open t -> (forall b, 0 <= b < sb_size sb -> used sb (t_view t) b = true -> used sb (t_view t') b = true) ->
    open_ok sb t').
  { intros t' Eo Hu b Hb. rewrite Eo in Hb. destruct (Ho b Hb) as [Hb1 Hb2]. split; [done|]. apply Hu; [|done].
    pose proof (data_block_pos sb b Hl Hb1). lia. }
  assert (Hroom : room (limit := limit) (alloc_tx sb t r) 2) by (by apply room_upd, room_upd).
  eapply wp_bfree; [done| |exact Hw1|by rewrite (proj2 Hc1)|by eapply room_le; [exact Hroom|lia]|done| |].
  { apply Hopen; [done|]. intros b Hb Hu. by rewrite Hua, Hu. }
  { rewrite Hua by done. by rewrite bool_decide_true, orb_true_r. }
  intros w2 Hc2 Hw2. exists (free_tx sb (alloc_tx sb t r) r). split; [done|].
  assert (Huf : forall b, 0 <= b < sb_size sb -> used sb (t_view (free_tx sb (alloc_tx sb t r) r)) b = used sb (t_view t) b).
  { intros b Hb. unfold free_tx. cbn [tx_upd t_view]. rewrite (used_unmark (home := home)); [|done|by intros; eapply fsw_wf|done|done].
    rewrite Hua by done. case_decide as E; [by subst|]. by rewrite bool_decide_false, orb_false_r. }
  split; [done|]. eapply (bfree_panics _ sb it u); [done| |exact Hw2|by rewrite (proj2 Hc2), (proj2 Hc1)| |done|by rewrite Huf].
  - apply Hopen; [done|]. intros b Hb Hu. by rewrite Huf.
  - by apply room_upd.
Qed.
End props.

Section crash.
Context {U : Type} {uops : UserOps U} {ulaws : UserLaws U} (D : Z).

(** The block writes the disk has been given. *)
Definition fs_writes (w : world (fsst (logst bcache) U)) : list (Z * list Z) := bc_writes (l_bio (f_tx (w_st w))).

Lemma fs_writes_rep (w : world (fsst (logst bcache) U)) a :
  bc_rep (BlockLaws := bio_laws D) (l_bio (f_tx (w_st w))) a -> fs_writes w = st_writes a.
Proof. intros [order Hr]. apply Hr. Qed.

(** [filewrite] splits writes into chunks of at most three blocks. *)
Lemma chunk_blocks off n : 0 <= off -> 0 <= n <= 3 * BSIZE -> (nblocks off n <= 4)%nat.
Proof.
  intros Ho Hn. unfold nblocks. destruct (n =? 0); [lia|].
  assert ((off + n + BSIZE - 1) / BSIZE < off / BSIZE + 5); [|lia]. apply Z.div_lt_upper_bound; [done|].
  pose proof (Z.div_mod off BSIZE ltac:(done)). pose proof (Z.mod_pos_bound off BSIZE ltac:(done)). unfold BSIZE in *. lia.
Qed.

Lemma one_map_block sb : 0 < sb_size sb < BPB -> nmap sb = 1%nat.
Proof. intros H. unfold nmap. by rewrite Z.div_small by lia. Qed.

Lemma chunk_budget sb v g off n :
  0 <= off -> 0 <= n <= 3 * BSIZE -> 0 < sb_size sb < BPB -> lg_size g = LOGSIZE ->
  wbudget (limit := lg_size g - 1) sb (TxSt v ∅ []) off n.
Proof.
  intros Ho Hn Hsz Hlg. unfold wbudget. cbn [t_logged length]. rewrite Hlg, one_map_block by done.
  pose proof (chunk_blocks off n Ho Hn). unfold LOGSIZE, MAXOPBLOCKS, NBUF. lia.
Qed.

(** C2: crash-atomic writes.  A write of at most three blocks, as a
    transaction on the log and the cache, does not panic; it stores the first
    [k] bytes, grows the file, writes back its inode, and leaves every other
    inode and every block of other files alone; and whichever of its block
    writes reach the disk before a crash, recovery gives the file system
    before the write or the one after it, the latter when the call has
    returned.  It logs at most MAXOPBLOCKS blocks. *)
Theorem write_crash_atomic g a sb it u x ip src off bs (w : world (fsst (logst bcache) U)) :
  idle (laws := bio_laws D) w g a sb it u -> no_tx_locks (w_held w) -> lg_size g = LOGSIZE ->
  layout (home := home_at (lg_start g)) sb -> sb_size sb < BPB ->
  file_inv (dev := D) sb (st_view a) x -> it !! ip = Some x -> src_has (w_me w) u src bs ->
  0 <= off <= i_size x -> off + Z.of_nat (length bs) <= MAXFILE * BSIZE -> Z.of_nat (length bs) <= 3 * BSIZE ->
  wp (fs_op (writei ip src off (Z.of_nat (length bs)))) (fun r w' => exists k t' x' ws,
    r = Z.of_nat k /\ wrote (dev := D) sb (TxSt (st_view a) ∅ []) x off bs k t' x' /\ f_itable (w_st w') = <[ip := x']> it /\
    Z.of_nat (length (t_logged t')) <= MAXOPBLOCKS /\
    fs_writes w' = st_writes a ++ ws /\
    (forall j, recovers_to g (apply_writes (st_disk a) (take j ws)) (st_view a) \/
               recovers_to g (apply_writes (st_disk a) (take j ws)) (t_view t')) /\
    recovers_to g (apply_writes (st_disk a) ws) (t_view t')) w.
Proof.
  intros Hid Hnl Hlg Hl Hsb Hfi Hx Hs Hoff Hmax Hn. assert (HM : MAXFILE * BSIZE = 274432) by done.
  pose proof (fi_size _ _ _ Hfi) as Hsz. pose proof (la_size _ Hl) as Hlsz.
  apply (wp_fs_op _ _ _ _ _ _ _ _ (fun r t' it' u' => exists k x', r = Z.of_nat k /\ it' = <[ip := x']> it /\
    wrote (dev := D) sb (TxSt (st_view a) ∅ []) x off bs k t' x') Hid Hnl).
  - intros w1 Hc1 Hw1. eapply (wp_writei sb it u (TxSt (st_view a) ∅ []) x ip src off bs); [exact Hl|exact Hfi|exact Hw1|exact Hx|reflexivity|by rewrite (proj2 Hc1)|apply NoDup_nil_2
      |by rewrite (proj1 Hc1)|lia|lia|apply chunk_budget; (done || lia)|intros [?|?]; lia|].
    intros k t' x' w2 _ _ Hwo Hc2 Hw2. split; [done|]. exists t', (<[ip := x']> it), u. split_and!; [done|apply Hwo|]. by exists k, x'.
  - intros r w' t' it' u' ws Hc Hsb' Hit' Hu' [Hal Hlast Hnext] (k & x' & -> & -> & Hwo). exists k, t', x', ws.
    destruct (Hnext _ _ _ Hsb' Hit' Hu') as (g' & a' & Hid' & _ & _ & _ & _ & Hws).
    split_and!; try done.
    + pose proof (wo_len _ _ _ _ _ _ _ _ Hwo (NoDup_nil_2)) as Hlen. cbn [t_logged length] in Hlen.
      rewrite one_map_block in Hlen by lia. pose proof (wo_k _ _ _ _ _ _ _ _ Hwo).
      pose proof (chunk_blocks off (Z.of_nat k) ltac:(lia) ltac:(lia)). unfold MAXOPBLOCKS. lia.
    + rewrite <- Hws. apply fs_writes_rep, Hid'.
Qed.
End crash.

(** ** Witnesses: a file system of 1000 blocks with an empty file *)

Definition ex_map : list Z := repeat 255 8 ++ repeat 0 1016.
Definition ex_fs_disk : Z -> list Z := fun b => if b =? 45 then ex_map else zero_block.
Definition ex_fs_boot : world (logst bcache) := World (Me 0 1 0 0) [] [] (LogSt (zero_cache ex_fs_disk) zero_log).
Definition ex_file : inode := Inode 1 1 1 (Sleeplock 1 "inode" 1) 1 T_FILE 0 0 1 0 (repeat 0 13).

Lemma ex_fs_wf : wf_disk ex_fs_disk.
Proof. intros b. unfold ex_fs_disk. by destruct (b =? 45). Qed.

(** After boot. *)
Lemma ex_idle : exists w g a, idle (U := phys) (laws := bio_laws 1) w g a ex_sb [ex_file] ex_phys /\
  w_held w = [] /\ lg_start g = 2 /\ lg_size g = 30 /\ (forall b, 32 <= b < 1000 -> st_view a b = ex_fs_disk b).
Proof.
  assert (Hb : boots 1 ex_sb ex_fs_disk ex_fs_boot).
  { split; [done|split; vm_compute; congruence|apply ex_fs_wf|done|done|].
    split; [apply ex_no_bio_locks|apply not_elem_of_nil]. }
  assert (Hr : recovers_to (fs_log 1 ex_sb) ex_fs_disk ex_fs_disk).
  { exists []. split; try done; [apply NoDup_nil_2|by intros h ?%elem_of_nil]. }
  destruct (wp_elim _ _ _ (wp_boot 1 ex_sb ex_fs_disk ex_fs_disk ex_fs_boot Hb Hr))
    as ([] & w1 & _ & [Hm Hh] & a & g & [Hbio Hlog] & Ht & Hs & Hz & _).
  exists (World (w_me w1) (w_held w1) (w_evs w1) (FsSt (w_st w1) ex_sb [ex_file] ex_phys)), g, a.
  split_and!; [|by rewrite Hh|by rewrite Hs|by rewrite Hz|].
  - destruct Ht as [Hi Ho _ _ _]. by split.
  - intros b Hb2. apply (lt_cur _ _ _ Ht). split; [lia|]. rewrite Hs. simpl. unfold LOGSIZE, MAXOPBLOCKS. lia.
Qed.

Lemma ex_layout start : start = 2 -> layout (home := home_at start) ex_sb.
Proof.
  intros ->. split; [by vm_compute..| |by vm_compute]. intros b Hb. simpl in Hb. split; [lia|].
  unfold LOGSIZE, MAXOPBLOCKS. lia.
Qed.

Lemma ex_map_ok v : (forall b, 32 <= b < 1000 -> v b = ex_fs_disk b) -> map_ok ex_sb v.
Proof.
  intros Hv b Hb Hu. change (data_start ex_sb) with 46. destruct (decide (46 <= b)); [done|]. exfalso. revert Hu. simpl in Hb.
  assert (Eb : BBLOCK b ex_sb = 45) by (unfold BBLOCK, u32; simpl; rewrite Z.div_small by (change BPB with 8192; lia); done).
  unfold used. rewrite Eb, Hv by lia. assert (Em : b mod BPB = b) by (apply Z.mod_small; change BPB with 8192; lia). rewrite Em.
  clear Eb Em Hv. assert (H : forall i, (i < 46)%nat -> bit (ex_fs_disk 45) (Z.of_nat i) <> false).
  { intros i Hi. do 46 (destruct i as [|i]; [by vm_compute|]). lia. }
  specialize (H (Z.to_nat b) ltac:(lia)). by rewrite Z2Nat.id in H by lia.
Qed.

Lemma ex_file_inv v : (forall b, 32 <= b < 1000 -> v b = ex_fs_disk b) -> file_inv (dev := 1) ex_sb v ex_file.
Proof.
  intros Hv. assert (Ha : forall bn, 0 <= bn < MAXFILE -> addr_of v ex_file bn = 0).
  { intros bn Hbn. unfold addr_of. destruct (Z.ltb_spec bn NDIRECT) as [H|H]; [|done]. unfold NDIRECT in H.
    apply (nth_repeat 0 13). }
  split; [|by apply ex_map_ok|simpl; lia| |change (MAXFILE * BSIZE) with 274432; simpl; lia|].
  - split; [done|done|..].
    + intros bn Hbn Hn. by rewrite Ha in Hn.
    + done.
    + intros bn bn' Hbn _ Hn. by rewrite Ha in Hn.
    + intros bn Hbn Hn. by rewrite Ha in Hn.
  - split; simpl; unfold T_FILE; try lia. repeat (apply Forall_cons; split; [lia|]). by apply Forall_nil.
  - intros bn Hbn Hlt. simpl in Hlt. unfold BSIZE in Hlt. lia.
Qed.

Lemma ex_src p u : src_has (U := phys) (ulaws := @phys_user_laws ex_symbols ex_symbols_ok) p u (KernSrc [104; 105]) [104; 105].
Proof. done. Qed.

Lemma ex_no_tx_locks : no_tx_locks [].
Proof. split; [apply ex_no_bio_locks|apply not_elem_of_nil]. Qed.

Lemma write_crash_atomic_witness :
  exists w k w', fs_op (U := phys) (writei (uops := @phys_user_ops ex_symbols) 0 (KernSrc [104; 105]) 0 2) w = Ok k w' /\
    f_itable (w_st w) = [ex_file].
Proof.
  destruct ex_idle as (w & g & a & Hid & Hh & Hs & Hz & Hv).
  destruct (wp_elim _ _ _ (write_crash_atomic (ulaws := @phys_user_laws ex_symbols ex_symbols_ok) 1 g a ex_sb [ex_file] ex_phys
    ex_file 0 (KernSrc [104; 105]) 0 [104; 105] w Hid ltac:(rewrite Hh; apply ex_no_tx_locks) Hz (ex_layout _ Hs)
    ltac:(by vm_compute) (ex_file_inv _ Hv) eq_refl (ex_src _ _) ltac:(by vm_compute) ltac:(by vm_compute) ltac:(by vm_compute)))
    as (k & w' & Hrun & _).
  exists w, k, w'. split; [exact Hrun|apply Hid].
Defined.

(** Inside a transaction. *)
Abbreviation ex_laws g a := (log_tx_laws (laws := bio_laws 1) (lg_start g) (lg_size g - 1) 1 (st_disk a) (st_writes a)).

Lemma ex_in_tx : exists g a w, fsw (U := phys) (laws := ex_laws g a) w (TxSt (st_view a) ∅ []) ex_sb [ex_file] ex_phys /\
  w_held w = [] /\ lg_start g = 2 /\ lg_size g = 30 /\ (forall b, 32 <= b < 1000 -> st_view a b = ex_fs_disk b).
Proof.
  destruct ex_idle as (w & g & a & Hid & Hh & Hs & Hz & Hv).
  destruct (wp_elim _ _ _ (wp_begin_fs w g a ex_sb [ex_file] ex_phys
    (fun _ w' => same_ctx w w' /\ fsw (laws := ex_laws g a) w' (TxSt (st_view a) ∅ []) ex_sb [ex_file] ex_phys)
    Hid ltac:(rewrite Hh; apply not_elem_of_nil) (fun w' Hc Hw => conj Hc Hw))) as ([] & w1 & _ & Hc & Hw).
  exists g, a, w1. split_and!; try done. by rewrite (proj2 Hc).
Qed.

Lemma writei_readi_witness :
  exists w p w', (k ← writei (uops := @phys_user_ops ex_symbols) (S := logst bcache) 0 (KernSrc [104; 105]) 0 2;
     r ← readi (uops := @phys_user_ops ex_symbols) 0 KernDst 0 k; mret (k, r)) w = Ok p w' /\ snd (snd p) = take (Z.to_nat (fst p)) [104; 105].
Proof.
  destruct ex_in_tx as (g & a & w & Hw & Hh & Hs & Hz & Hv).
  destruct (wp_elim _ _ _ (writei_readi (ulaws := @phys_user_laws ex_symbols ex_symbols_ok) ex_sb [ex_file] ex_phys
    (TxSt (st_view a) ∅ []) ex_file 0 (KernSrc [104; 105]) 0 [104; 105] w (ex_layout _ Hs) (ex_file_inv _ Hv) Hw eq_refl eq_refl
    ltac:(rewrite Hh; apply ex_no_tx_locks) (NoDup_nil_2) (ex_src _ _) ltac:(by vm_compute) ltac:(by vm_compute)
    ltac:(apply chunk_budget; [done|done|done|exact Hz]))) as (p & w' & Hrun & k & t' & x' & Hk & -> & _).
  exists w, (Z.of_nat k, (Z.of_nat k, take k [104; 105])), w'. split; [exact Hrun|]. simpl. by rewrite Nat2Z.id.
Defined.

Lemma balloc_bfree_witness :
  exists w r w', balloc (S := logst bcache) (U := phys) 1 w = Ok r w' /\ (r = 0 \/ 46 <= r < 1000).
Proof.
  destruct ex_in_tx as (g & a & w & Hw & Hh & Hs & Hz & Hv).
  destruct (wp_elim _ _ _ (balloc_bfree ex_sb [ex_file] ex_phys
    (TxSt (st_view a) ∅ []) w (ex_layout _ Hs) (ex_map_ok _ Hv) ltac:(by intros b [y Hy]) Hw
    ltac:(rewrite Hh; apply ex_no_tx_locks) ltac:(split; cbn [t_open t_logged length]; [rewrite map_size_empty; unfold NBUF; lia|rewrite Hz; lia])))
    as (r & w' & Hrun & t' & _ & [(-> & _)|(Hr & _)]).
  - exists w, 0, w'. split; [exact Hrun|by left].
  - exists w, r, w'. split; [exact Hrun|by right].
Defined.
