(* ===== verification/File.v ===== *)
(** kernel/file.c and [pipealloc] of kernel/pipe.c: the table of open files,
    and reading, writing and closing what a descriptor names. *)

From S2P Require Import Prelude KMonad UserMem Pipe Bytes Sleeplock BlockStore Log LogTx Fs.

Definition NFILE : nat := 100.
Definition NOFILE : nat := 16.
Definition NDEV : Z := 10.
Definition CONSOLE : Z := 1.

Inductive ftype := FD_NONE | FD_PIPE | FD_INODE | FD_DEVICE.

#[global] Instance ftype_eq_dec : EqDecision ftype.
Proof. solve_decision. Defined.

(** [struct file] *)
Record file := File {
  f_type : ftype;
  f_ref : Z;
  f_readable : Z;
  f_writable : Z;
  f_pipe : Z;
  f_ip : nat;
  f_off : Z;
  f_major : Z }.

Definition set_fref (x : Z) (f : file) : file :=
  File (f_type f) x (f_readable f) (f_writable f) (f_pipe f) (f_ip f) (f_off f) (f_major f).
Definition set_ftype (x : ftype) (f : file) : file :=
  File x (f_ref f) (f_readable f) (f_writable f) (f_pipe f) (f_ip f) (f_off f) (f_major f).
Definition set_foff (x : Z) (f : file) : file :=
  File (f_type f) (f_ref f) (f_readable f) (f_writable f) (f_pipe f) (f_ip f) x (f_major f).
Definition set_fmajor (x : Z) (f : file) : file :=
  File (f_type f) (f_ref f) (f_readable f) (f_writable f) (f_pipe f) (f_ip f) (f_off f) x.
Definition set_fip (x : nat) (f : file) : file :=
  File (f_type f) (f_ref f) (f_readable f) (f_writable f) (f_pipe f) x (f_off f) (f_major f).
Definition set_fmode (r w : Z) (f : file) : file :=
  File (f_type f) (f_ref f) r w (f_pipe f) (f_ip f) (f_off f) (f_major f).
Definition set_fpipe (x : Z) (f : file) : file :=
  File (f_type f) (f_ref f) (f_readable f) (f_writable f) x (f_ip f) (f_off f) (f_major f).

(** What the system calls on files work on: the file system, the pipes, the
    file table, and of the calling process its descriptors, its current
    directory, its size and the argument registers of its trapframe.  A
    pointer to a file or an inode is an index of its table. *)
Record kst (S U : Type) := KSt {
  k_fs : fsst (logst S) U;
  k_pipes : gmap Z pipe;
  k_ftable : list file;
  k_ofile : list (option nat);
  k_cwd : nat;
  k_sz : Z;
  k_args : list Z }.
Arguments KSt {S U} _ _ _ _ _ _ _.
Arguments k_fs {S U} _.
Arguments k_pipes {S U} _.
Arguments k_ftable {S U} _.
Arguments k_ofile {S U} _.
Arguments k_cwd {S U} _.
Arguments k_sz {S U} _.
Arguments k_args {S U} _.

(** [struct devsw]: the functions of a device, if it has them. *)
Record devsw (S U : Type) := Devsw {
  d_read : option (Z -> Z -> M (kst S U) segment);
  d_write : option (Z -> Z -> M (kst S U) segment) }.
Arguments Devsw {S U} _ _.
Arguments d_read {S U} _.
Arguments d_write {S U} _.

(** [struct stat] in memory: 24 bytes, four of them padding. *)
Definition stat_bytes (pad : list Z) (s : stat) : list Z :=
  le_bytes 4 (st_dev s) ++ le_bytes 4 (st_ino s) ++ le_bytes 2 (st_type s) ++ le_bytes 2 (st_nlink s) ++ pad ++
  le_bytes 8 (st_size s).

Section file.
Context {S U : Type} {ops : BlockOps S} {uops : UserOps U}.
Abbreviation km := (M (kst S U)).

Definition kfs {A} (m : M (fsst (logst S) U) A) : km A :=
  zoom k_fs (fun s x => KSt x (k_pipes s) (k_ftable s) (k_ofile s) (k_cwd s) (k_sz s) (k_args s)) m.
Definition kmem {A} (m : M U A) : km A := kfs (umem m).
Definition kpipe {A} (m : M (pipest U) A) : km A :=
  zoom (fun s => PipeSt (f_mem (k_fs s)) (k_pipes s))
    (fun s x => KSt (FsSt (f_tx (k_fs s)) (f_sb (k_fs s)) (f_itable (k_fs s)) (ps_mem x)) (ps_pipes x)
                  (k_ftable s) (k_ofile s) (k_cwd s) (k_sz s) (k_args s)) m.
Definition kbegin_op : km () := kfs (tx begin_op).
Definition kend_op : km () := kfs (tx end_op).

Definition set_ftable (x : list file) (s : kst S U) : kst S U :=
  KSt (k_fs s) (k_pipes s) x (k_ofile s) (k_cwd s) (k_sz s) (k_args s).
Definition set_ofile (x : list (option nat)) (s : kst S U) : kst S U :=
  KSt (k_fs s) (k_pipes s) (k_ftable s) x (k_cwd s) (k_sz s) (k_args s).
Definition set_cwd (x : nat) (s : kst S U) : kst S U :=
  KSt (k_fs s) (k_pipes s) (k_ftable s) (k_ofile s) x (k_sz s) (k_args s).

Definition fload (f : nat) : km file :=
  t ← gets k_ftable;
  match t !! f with Some x => mret x | None => ub "file: index" end.
Definition fassign (f : nat) (g : file -> file) : km () :=
  modify (fun s => set_ftable (alter g f (k_ftable s)) s).

(** The loop of [filealloc], from [f]. *)
Fixpoint filealloc_loop (n f : nat) : km (option nat) :=
  match n with
  | O =>
      release L_ftable;;
      mret None
  | Datatypes.S n' =>
      x ← fload f;
      if f_ref x =? 0 then
        fassign f (set_fref 1);;
        release L_ftable;;
        mret (Some f)
      else filealloc_loop n' (Datatypes.S f)
  end.

Definition filealloc : km (option nat) :=
  acquire L_ftable;;
  filealloc_loop NFILE 0.

Definition filedup (f : nat) : km nat :=
  acquire L_ftable;;
  x ← fload f;
  if f_ref x <? 1 then panic "filedup"
  else
    fassign f (set_fref (f_ref x + 1));;
    release L_ftable;;
    mret f.

Definition fileclose (f : nat) : km () :=
  acquire L_ftable;;
  x ← fload f;
  if f_ref x <? 1 then panic "fileclose"
  else
    fassign f (set_fref (f_ref x - 1));;
    if f_ref x - 1 >? 0 then release L_ftable
    else
      ff ← fload f;
      fassign f (fun x => set_ftype FD_NONE (set_fref 0 x));;
      release L_ftable;;
      match f_type ff with
      | FD_PIPE => kpipe (pipeclose (f_pipe ff) (negb (f_writable ff =? 0)))
      | FD_INODE | FD_DEVICE =>
          kbegin_op;;
          kfs (iput (f_ip ff));;
          kend_op
      | FD_NONE => mret ()
      end.

(** [pad] is what the stack holds in the padding of [st]. *)
Definition filestat (pad : list Z) (f : nat) (addr : Z) : km Z :=
  p ← myproc;
  x ← fload f;
  match f_type x with
  | FD_INODE | FD_DEVICE =>
      kfs (ilock (f_ip x));;
      st ← kfs (stati (f_ip x));
      kfs (iunlock (f_ip x));;
      r ← kmem (u_copyout (my_pagetable p) addr (stat_bytes pad st));
      mret (if r <? 0 then -1 else 0)
  | _ => mret (-1)
  end.

Section devices.
Variable devs : Z -> devsw S U.

Definition fileread (f : nat) (addr n : Z) : km segment :=
  x ← fload f;
  if f_readable x =? 0 then mret (Returned (-1))
  else
    match f_type x with
    | FD_PIPE => kpipe (piperead (f_pipe x) addr n)
    | FD_DEVICE =>
        if (f_major x <? 0) || (f_major x >=? NDEV) then mret (Returned (-1))
        else match d_read (devs (f_major x)) with
             | None => mret (Returned (-1))
             | Some rd => rd addr n
             end
    | FD_INODE =>
        kfs (ilock (f_ip x));;
        p ← kfs (readi (f_ip x) (UserDst addr) (f_off x) (u32 n));
        (if fst p >? 0 then fassign f (fun x => set_foff (u32 (f_off x + fst p)) x) else mret ());;
        kfs (iunlock (f_ip x));;
        mret (Returned (fst p))
    | FD_NONE => panic "fileread"
    end.

(** The loop of [filewrite] on an inode, from [i]; it returns [i]. *)
Fixpoint filewrite_loop (fuel : nat) (f : nat) (addr n i : Z) : km Z :=
  match fuel with
  | O => ub "filewrite: fuel"
  | Datatypes.S fuel' =>
      if i <? n then
        let max := (MAXOPBLOCKS - 1 - 1 - 2) / 2 * BSIZE in
        let n1 := if n - i >? max then max else n - i in
        kbegin_op;;
        x ← fload f;
        kfs (ilock (f_ip x));;
        r ← kfs (writei (f_ip x) (UserSrc (u64 (addr + i))) (f_off x) n1);
        (if r >? 0 then fassign f (fun x => set_foff (u32 (f_off x + r)) x) else mret ());;
        kfs (iunlock (f_ip x));;
        kend_op;;
        if negb (r =? n1) then mret i
        else filewrite_loop fuel' f addr n (i + r)
      else mret i
  end.

Definition filewrite (f : nat) (addr n : Z) : km segment :=
  x ← fload f;
  if f_writable x =? 0 then mret (Returned (-1))
  else
    match f_type x with
    | FD_PIPE => kpipe (pipewrite (f_pipe x) addr n)
    | FD_DEVICE =>
        if (f_major x <? 0) || (f_major x >=? NDEV) then mret (Returned (-1))
        else match d_write (devs (f_major x)) with
             | None => mret (Returned (-1))
             | Some wr => wr addr n
             end
    | FD_INODE =>
        i ← filewrite_loop (Datatypes.S (Z.to_nat n)) f addr n 0;
        mret (Returned (if i =? n then n else -1))
    | FD_NONE => panic "filewrite"
    end.
End devices.

(** [pipealloc] of kernel/pipe.c: a pipe in a fresh page, which [kalloc] has
    filled with 5, and a file for either end. *)
Definition pipealloc_bad (pi : Z) (f0 f1 : option nat) : km (option (nat * nat)) :=
  (if negb (pi =? 0) then kmem (u_kfree pi) else mret ());;
  (match f0 with Some f => fileclose f | None => mret () end);;
  (match f1 with Some f => fileclose f | None => mret () end);;
  mret None.

Definition pipealloc : km (option (nat * nat)) :=
  f0 ← filealloc;
  match f0 with
  | None => pipealloc_bad 0 None None
  | Some f0 =>
      f1 ← filealloc;
      match f1 with
      | None => pipealloc_bad 0 (Some f0) None
      | Some f1 =>
          pi ← kmem u_kalloc;
          if pi =? 0 then pipealloc_bad 0 (Some f0) (Some f1)
          else
            kpipe (setpipe pi (Pipe (repeat 5 (Z.to_nat PIPESIZE)) 0 0 1 1));;
            fassign f0 (fun x => set_fpipe pi (set_fmode 1 0 (set_ftype FD_PIPE x)));;
            fassign f1 (fun x => set_fpipe pi (set_fmode 0 1 (set_ftype FD_PIPE x)));;
            mret (Some (f0, f1))
      end
  end.
End file.
