(* ===== verification/Sysfile.v ===== *)
(** kernel/sysfile.c: the system calls on files; and the functions of
    kernel/syscall.c that fetch their arguments. *)

From S2P Require Import Prelude KMonad Kstring UserMem Pipe Bytes Sleeplock BlockStore Log LogTx Fs File.

Definition MAXPATH : Z := 128.
Definition MAXARG : nat := 32.
Definition O_RDONLY : Z := 0x000.
Definition O_WRONLY : Z := 0x001.
Definition O_RDWR : Z := 0x002.
Definition O_CREATE : Z := 0x200.
Definition O_TRUNC : Z := 0x400.

Section sysfile.
Context {S U : Type} {ops : BlockOps S} {uops : UserOps U}.
Abbreviation km := (M (kst S U)).

(** ** Arguments (kernel/syscall.c) *)

(** [strlen] of a buffer. *)
Fixpoint strlen_bytes (bs : list Z) : Z :=
  match bs with
  | [] => 0
  | c :: bs' => if c =? 0 then 0 else 1 + strlen_bytes bs'
  end.

(** The word at [addr], or [None] for -1. *)
Definition fetchaddr (addr : Z) : km (option Z) :=
  p ← myproc;
  sz ← gets k_sz;
  if (addr >=? sz) || (u64 (addr + 8) >? sz) then mret None
  else
    c ← kmem (u_copyin (my_pagetable p) addr 8);
    mret (if negb (fst c =? 0) then None else Some (le_value (snd c))).

(** The result and the buffer. *)
Definition fetchstr (addr max : Z) : km (Z * list Z) :=
  p ← myproc;
  c ← kmem (u_copyinstr (my_pagetable p) addr max);
  mret (if fst c <? 0 then (-1, snd c) else (strlen_bytes (snd c), snd c)).

Definition argraw (n : nat) : km Z :=
  a ← gets k_args;
  match a !! n with Some x => mret x | None => panic "argraw" end.

Definition argint (n : nat) : km Z := x ← argraw n; mret (i32 x).
Definition argaddr (n : nat) : km Z := argraw n.
Definition argstr (n : nat) (max : Z) : km (Z * list Z) :=
  addr ← argaddr n;
  fetchstr addr max.

(** ** Descriptors *)

(** The descriptor and its file, or [None] for -1. *)
Definition argfd (n : nat) : km (option (nat * nat)) :=
  fd ← argint n;
  if (fd <? 0) || (fd >=? Z.of_nat NOFILE) then mret None
  else
    o ← gets k_ofile;
    match o !! Z.to_nat fd with
    | Some (Some f) => mret (Some (Z.to_nat fd, f))
    | Some None => mret None
    | None => ub "ofile: index"
    end.

Fixpoint fdalloc_loop (n fd f : nat) : km Z :=
  match n with
  | O => mret (-1)
  | Datatypes.S n' =>
      o ← gets k_ofile;
      match o !! fd with
      | Some None =>
          modify (fun s => set_ofile (<[fd := Some f]> (k_ofile s)) s);;
          mret (Z.of_nat fd)
      | Some (Some _) => fdalloc_loop n' (Datatypes.S fd) f
      | None => ub "ofile: index"
      end
  end.

Definition fdalloc (f : nat) : km Z := fdalloc_loop NOFILE 0 f.

Definition sys_dup : km Z :=
  a ← argfd 0;
  match a with
  | None => mret (-1)
  | Some (_, f) =>
      fd ← fdalloc f;
      if fd <? 0 then mret (-1)
      else filedup f;; mret fd
  end.

Section devices.
Variable devs : Z -> devsw S U.

Definition sys_read : km segment :=
  p ← argaddr 1;
  n ← argint 2;
  a ← argfd 0;
  match a with
  | None => mret (Returned (-1))
  | Some (_, f) => fileread devs f p n
  end.

Definition sys_write : km segment :=
  p ← argaddr 1;
  n ← argint 2;
  a ← argfd 0;
  match a with
  | None => mret (Returned (-1))
  | Some (_, f) => filewrite devs f p n
  end.
End devices.

Definition sys_close : km Z :=
  a ← argfd 0;
  match a with
  | None => mret (-1)
  | Some (fd, f) =>
      modify (fun s => set_ofile (<[fd := None]> (k_ofile s)) s);;
      fileclose f;;
      mret 0
  end.

Definition sys_fstat (pad : list Z) : km Z :=
  st ← argaddr 1;
  a ← argfd 0;
  match a with
  | None => mret (-1)
  | Some (_, f) => filestat pad f st
  end.

(** ** Names

    [name0] is what the stack holds in the [name] buffer of a call, [de0] in
    the directory entry of [dirlink]. *)
Section names.
Variables name0 de0 : list Z.

(** [path] is a buffer with a C string in it. *)
Definition knamei (path : list Z) : km (option nat) :=
  cwd ← gets k_cwd; kfs (namei name0 cwd (cstr path)).
Definition knameiparent (path : list Z) : km (option (nat * list Z)) :=
  cwd ← gets k_cwd; kfs (nameiparent cwd (cstr path) name0).

Definition dot : list Z := [46; 0].
Definition dotdot : list Z := [46; 46; 0].

Definition sys_link_bad (ip : nat) : km Z :=
  kfs (ilock ip);;
  kfs (iassign ip (fun x => set_inlink (i16 (i_nlink x - 1)) x));;
  kfs (iupdate ip);;
  kfs (iunlockput ip);;
  kend_op;;
  mret (-1).

Definition sys_link : km Z :=
  a ← argstr 0 MAXPATH;
  if fst a <? 0 then mret (-1)
  else
    b ← argstr 1 MAXPATH;
    if fst b <? 0 then mret (-1)
    else
      kbegin_op;;
      r ← knamei (snd a);
      match r with
      | None => kend_op;; mret (-1)
      | Some ip =>
          kfs (ilock ip);;
          x ← kfs (iload ip);
          if i_type x =? T_DIR then
            kfs (iunlockput ip);;
            kend_op;;
            mret (-1)
          else
            kfs (iassign ip (fun x => set_inlink (i16 (i_nlink x + 1)) x));;
            kfs (iupdate ip);;
            kfs (iunlock ip);;
            r ← knameiparent (snd b);
            match r with
            | None => sys_link_bad ip
            | Some (dp, name) =>
                kfs (ilock dp);;
                y ← kfs (iload dp);
                x ← kfs (iload ip);
                l ← (if negb (i_dev y =? i_dev x) then mret (-1) else kfs (dirlink de0 dp name (i_inum x)));
                kfs (iunlockput dp);;
                if l <? 0 then sys_link_bad ip
                else
                  kfs (iput ip);;
                  kend_op;;
                  mret 0
            end
      end.

(** The loop of [isdirempty], from [off]. *)
Fixpoint isdirempty_loop (fuel : nat) (dp : nat) (off : Z) : km bool :=
  match fuel with
  | O => ub "isdirempty: fuel"
  | Datatypes.S f =>
      x ← kfs (iload dp);
      if off <? i_size x then
        p ← kfs (readi dp KernDst off sizeof_dirent);
        if negb (fst p =? sizeof_dirent) then panic "isdirempty: readi"
        else if negb (de_inum (snd p) =? 0) then mret false
        else isdirempty_loop f dp (off + sizeof_dirent)
      else mret true
  end.

Definition isdirempty (dp : nat) : km bool :=
  x ← kfs (iload dp);
  isdirempty_loop (Datatypes.S (Z.to_nat (i_size x))) dp (2 * sizeof_dirent).

Definition sys_unlink_bad (dp : nat) : km Z :=
  kfs (iunlockput dp);;
  kend_op;;
  mret (-1).

Definition sys_unlink : km Z :=
  a ← argstr 0 MAXPATH;
  if fst a <? 0 then mret (-1)
  else
    kbegin_op;;
    r ← knameiparent (snd a);
    match r with
    | None => kend_op;; mret (-1)
    | Some (dp, name) =>
        kfs (ilock dp);;
        if (namecmp name dot =? 0) || (namecmp name dotdot =? 0) then sys_unlink_bad dp
        else
          r ← kfs (dirlookup dp name);
          match r with
          | None => sys_unlink_bad dp
          | Some (ip, off) =>
              kfs (ilock ip);;
              x ← kfs (iload ip);
              if i_nlink x <? 1 then panic "unlink: nlink < 1"
              else
                full ← (if i_type x =? T_DIR then (e ← isdirempty ip; mret (negb e)) else mret false);
                if (full : bool) then
                  kfs (iunlockput ip);;
                  sys_unlink_bad dp
                else
                  n ← kfs (writei dp (KernSrc (repeat 0 (Z.to_nat sizeof_dirent))) off sizeof_dirent);
                  if negb (n =? sizeof_dirent) then panic "unlink: writei"
                  else
                    (if i_type x =? T_DIR then
                       kfs (iassign dp (fun y => set_inlink (i16 (i_nlink y - 1)) y));;
                       kfs (iupdate dp)
                     else mret ());;
                    kfs (iunlockput dp);;
                    kfs (iassign ip (fun y => set_inlink (i16 (i_nlink y - 1)) y));;
                    kfs (iupdate ip);;
                    kfs (iunlockput ip);;
                    kend_op;;
                    mret 0
          end
    end.

Definition create_fail (ip dp : nat) : km (option nat) :=
  kfs (iassign ip (set_inlink 0));;
  kfs (iupdate ip);;
  kfs (iunlockput ip);;
  kfs (iunlockput dp);;
  mret None.

(** The fields [create] sets in a new inode. *)
Definition init_inode (major minor : Z) (x : inode) : inode :=
  Inode (i_dev x) (i_inum x) (i_ref x) (i_lock x) (i_valid x) (i_type x) (i16 major) (i16 minor) 1 (i_size x) (i_addrs x).

(** The inode, locked, or [None] for 0. *)
Definition create (path : list Z) (type major minor : Z) : km (option nat) :=
  r ← knameiparent path;
  match r with
  | None => mret None
  | Some (dp, name) =>
      kfs (ilock dp);;
      r ← kfs (dirlookup dp name);
      match r with
      | Some (ip, _) =>
          kfs (iunlockput dp);;
          kfs (ilock ip);;
          x ← kfs (iload ip);
          if (type =? T_FILE) && ((i_type x =? T_FILE) || (i_type x =? T_DEVICE)) then mret (Some ip)
          else
            kfs (iunlockput ip);;
            mret None
      | None =>
          y ← kfs (iload dp);
          r ← kfs (ialloc (i_dev y) type);
          match r with
          | None =>
              kfs (iunlockput dp);;
              mret None
          | Some ip =>
              kfs (ilock ip);;
              kfs (iassign ip (init_inode major minor));;
              kfs (iupdate ip);;
              x ← kfs (iload ip);
              l ← (if type =? T_DIR then
                     l ← kfs (dirlink de0 ip dot (i_inum x));
                     if l <? 0 then mret l else kfs (dirlink de0 ip dotdot (i_inum y))
                   else mret 0);
              if l <? 0 then create_fail ip dp
              else
                l ← kfs (dirlink de0 dp name (i_inum x));
                if l <? 0 then create_fail ip dp
                else
                  (if type =? T_DIR then
                     kfs (iassign dp (fun y => set_inlink (i16 (i_nlink y + 1)) y));;
                     kfs (iupdate dp)
                   else mret ());;
                  kfs (iunlockput dp);;
                  mret (Some ip)
          end
      end
  end.

(** The inode [sys_open] works on, locked; [None] when the call fails. *)
Definition open_inode (path : list Z) (omode : Z) : km (option nat) :=
  if negb (Z.land omode O_CREATE =? 0) then create path T_FILE 0 0
  else
    r ← knamei path;
    match r with
    | None => mret None
    | Some ip =>
        kfs (ilock ip);;
        x ← kfs (iload ip);
        if (i_type x =? T_DIR) && negb (omode =? O_RDONLY) then
          kfs (iunlockput ip);;
          mret None
        else mret (Some ip)
    end.

Definition open_fail (ip : nat) : km Z :=
  kfs (iunlockput ip);;
  kend_op;;
  mret (-1).

Definition b2z (b : bool) : Z := if b then 1 else 0.

Definition sys_open : km Z :=
  omode ← argint 1;
  a ← argstr 0 MAXPATH;
  if fst a <? 0 then mret (-1)
  else
    kbegin_op;;
    r ← open_inode (snd a) omode;
    match r with
    | None => kend_op;; mret (-1)
    | Some ip =>
        x ← kfs (iload ip);
        if (i_type x =? T_DEVICE) && ((i_major x <? 0) || (i_major x >=? NDEV)) then open_fail ip
        else
          f ← filealloc;
          match f with
          | None => open_fail ip
          | Some f =>
              fd ← fdalloc f;
              if fd <? 0 then
                fileclose f;;
                open_fail ip
              else
                (if i_type x =? T_DEVICE then
                   fassign f (fun y => set_fmajor (i_major x) (set_ftype FD_DEVICE y))
                 else fassign f (fun y => set_foff 0 (set_ftype FD_INODE y)));;
                fassign f (fun y => set_fmode (b2z (Z.land omode O_WRONLY =? 0))
                  (b2z (negb (Z.land omode O_WRONLY =? 0) || negb (Z.land omode O_RDWR =? 0))) (set_fip ip y));;
                (if negb (Z.land omode O_TRUNC =? 0) && (i_type x =? T_FILE) then kfs (itrunc ip) else mret ());;
                kfs (iunlock ip);;
                kend_op;;
                mret fd
          end
    end.

Definition sys_mkdir : km Z :=
  kbegin_op;;
  a ← argstr 0 MAXPATH;
  r ← (if fst a <? 0 then mret None else create (snd a) T_DIR 0 0);
  match r with
  | None => kend_op;; mret (-1)
  | Some ip =>
      kfs (iunlockput ip);;
      kend_op;;
      mret 0
  end.

Definition sys_mknod : km Z :=
  kbegin_op;;
  major ← argint 1;
  minor ← argint 2;
  a ← argstr 0 MAXPATH;
  r ← (if fst a <? 0 then mret None else create (snd a) T_DEVICE (i16 major) (i16 minor));
  match r with
  | None => kend_op;; mret (-1)
  | Some ip =>
      kfs (iunlockput ip);;
      kend_op;;
      mret 0
  end.

Definition sys_chdir : km Z :=
  kbegin_op;;
  a ← argstr 0 MAXPATH;
  r ← (if fst a <? 0 then mret None else knamei (snd a));
  match r with
  | None => kend_op;; mret (-1)
  | Some ip =>
      kfs (ilock ip);;
      x ← kfs (iload ip);
      if negb (i_type x =? T_DIR) then
        kfs (iunlockput ip);;
        kend_op;;
        mret (-1)
      else
        kfs (iunlock ip);;
        cwd ← gets k_cwd;
        kfs (iput cwd);;
        kend_op;;
        modify (set_cwd ip);;
        mret 0
  end.
End names.

(** ** exec and pipe *)

(** [kfree] of the argument pages. *)
Fixpoint free_args (argv : list (Z * list Z)) : km () :=
  match argv with
  | [] => mret ()
  | (pg, _) :: argv' => kmem (u_kfree pg);; free_args argv'
  end.

(** The loop of [sys_exec] with [left] entries of [argv] left: the pages and
    strings so far, and whether the loop was left by [break]. *)
Fixpoint sys_exec_loop (left i : nat) (uargv : Z) (argv : list (Z * list Z)) : km (bool * list (Z * list Z)) :=
  match left with
  | O => mret (false, argv)
  | Datatypes.S left' =>
      w ← fetchaddr (u64 (uargv + 8 * Z.of_nat i));
      match w with
      | None => mret (false, argv)
      | Some uarg =>
          if uarg =? 0 then mret (true, argv)
          else
            pg ← kmem u_kalloc;
            if pg =? 0 then mret (false, argv)
            else
              c ← fetchstr uarg 4096;
              if fst c <? 0 then mret (false, argv ++ [(pg, snd c)])
              else sys_exec_loop left' (Datatypes.S i) uargv (argv ++ [(pg, snd c)])
      end
  end.

(** [exec] is the function of kernel/exec.c.  It works on the process table
    as well: [T] is the whole state, [lift] runs a part of the call in it. *)
Definition sys_exec {T} (lift : forall A, km A -> M T A) (exec : list Z -> list (list Z) -> M T Z) : M T Z :=
  uargv ← lift _ (argaddr 1);
  a ← lift _ (argstr 0 MAXPATH);
  if fst a <? 0 then mret (-1)
  else
    r ← lift _ (sys_exec_loop MAXARG 0 uargv []);
    let '(ok, argv) := r in
    if (ok : bool) then
      ret ← exec (cstr (snd a)) (map (fun x => cstr (snd x)) argv);
      lift _ (free_args argv);;
      mret ret
    else
      lift _ (free_args argv);;
      mret (-1).

Definition clear_fd (fd : Z) : km () := modify (fun s => set_ofile (<[Z.to_nat fd := None]> (k_ofile s)) s).

Definition sys_pipe : km Z :=
  p ← myproc;
  fdarray ← argaddr 0;
  r ← pipealloc;
  match r with
  | None => mret (-1)
  | Some (rf, wf) =>
      fd0 ← fdalloc rf;
      fd1 ← (if fd0 <? 0 then mret (-1) else fdalloc wf);
      if (fd0 <? 0) || (fd1 <? 0) then
        (if fd0 >=? 0 then clear_fd fd0 else mret ());;
        fileclose rf;;
        fileclose wf;;
        mret (-1)
      else
        c ← kmem (u_copyout (my_pagetable p) fdarray (le_bytes 4 fd0));
        c ← (if c <? 0 then mret c else kmem (u_copyout (my_pagetable p) (u64 (fdarray + 4)) (le_bytes 4 fd1)));
        if c <? 0 then
          clear_fd fd0;;
          clear_fd fd1;;
          fileclose rf;;
          fileclose wf;;
          mret (-1)
        else mret 0
  end.
End sysfile.
