(* ===== verification/Sh.v ===== *)
(** user/sh.c: the parser of the shell, on the buffer that holds the command
    line and a heap of command nodes. *)

From S2P Require Import Prelude Sysfile.

(** ** Commands

    A node is what [malloc] returned for one of the [struct ...cmd]; a
    pointer to it is its index in the heap.  Pointers into the buffer are
    positions. *)

Definition MAXARGS : nat := 10.

Inductive node :=
| EXEC (argv eargv : list (option nat))
| REDIR (cmd file efile : nat) (mode fd : Z)
| PIPE (left right : nat)
| LIST (left right : nat)
| BACK (cmd : nat).

Abbreviation heap := (list node).

(** The parser returns, or exits with a message, or has undefined behaviour,
    or runs out of fuel. *)
Inductive presult (A : Type) :=
| POk (a : A) (h : heap)
| PPanic (msg : string)
| PBad (what : string)
| PFuel.
Arguments POk {A} _ _.
Arguments PPanic {A} _.
Arguments PBad {A} _.
Arguments PFuel {A}.

Definition P (A : Type) : Type := heap -> presult A.

#[global] Instance P_ret : MRet P := fun A a h => POk a h.
#[global] Instance P_bind : MBind P := fun A B f m h =>
  match m h with
  | POk a h' => f a h'
  | PPanic msg => PPanic msg
  | PBad what => PBad what
  | PFuel => PFuel
  end.

Definition ppanic {A} (msg : string) : P A := fun _ => PPanic msg.
Definition pfuel {A} : P A := fun _ => PFuel.
Definition pmalloc (n : node) : P nat := fun h => POk (length h) (h ++ [n]).

(** ** Constructors *)

Definition execcmd : P nat := pmalloc (EXEC (repeat None MAXARGS) (repeat None MAXARGS)).
Definition redircmd (subcmd file efile : nat) (mode fd : Z) : P nat := pmalloc (REDIR subcmd file efile mode fd).
Definition pipecmd (left right : nat) : P nat := pmalloc (PIPE left right).
Definition listcmd (left right : nat) : P nat := pmalloc (LIST left right).
Definition backcmd (subcmd : nat) : P nat := pmalloc (BACK subcmd).

(** [cmd->argv[argc] = q; cmd->eargv[argc] = eq] *)
Definition set_arg (cmd argc : nat) (q eq : option nat) : P () := fun h =>
  match h !! cmd with
  | Some (EXEC argv eargv) =>
      if (argc <? MAXARGS)%nat then POk () (<[cmd := EXEC (<[argc := q]> argv) (<[argc := eq]> eargv)]> h)
      else PBad "argv: out of bounds"
  | _ => PBad "argv: not an execcmd"
  end.

(** ** Tokens *)

Definition whitespace : list Z := [32; 9; 13; 10; 11].
Definition symbols : list Z := [60; 124; 62; 38; 59; 40; 41].

(** [strchr(s, c)]: a NUL is in no string. *)
Definition strchr (s : list Z) (c : Z) : bool := bool_decide (c ∈ s).

Section parse.
(** The buffer, NUL-terminated at [es]. *)
Variables (buf : list Z) (es : nat).

Definition at_ (s : nat) : Z := nth s buf 0.

Fixpoint skip (n : nat) (stop : Z -> bool) (s : nat) : nat :=
  match n with
  | O => s
  | S n' => if (s <? es)%nat && negb (stop (at_ s)) then skip n' stop (S s) else s
  end.

(** [while(s < es && strchr(whitespace, *s)) s++] *)
Definition skip_ws (s : nat) : nat := skip (es - s) (fun c => negb (strchr whitespace c)) s.
(** [while(s < es && !strchr(whitespace, *s) && !strchr(symbols, *s)) s++] *)
Definition skip_word (s : nat) : nat := skip (es - s) (fun c => strchr whitespace c || strchr symbols c) s.

(** Characters. *)
Definition cLT : Z := 60.
Definition cGT : Z := 62.
Definition cBAR : Z := 124.
Definition cAMP : Z := 38.
Definition cSEMI : Z := 59.
Definition cLP : Z := 40.
Definition cRP : Z := 41.
Definition cPLUS : Z := 43.
Definition cA : Z := 97.

(** The token at [s] and where it ends. *)
Definition token (s : nat) : Z * nat :=
  let c := at_ s in
  if c =? 0 then (0, s)
  else if strchr [cBAR; cLP; cRP; cSEMI; cAMP; cLT] c then (c, S s)
  else if c =? cGT then
    if at_ (S s) =? cGT then (cPLUS, S (S s)) else (cGT, S s)
  else (cA, skip_word s).

(** [ret], [*q], [*eq] and [*ps]. *)
Definition gettoken (s : nat) : Z * nat * nat * nat :=
  let q := skip_ws s in
  let '(ret, e) := token q in
  (ret, q, e, skip_ws e).

(** The result and [*ps]. *)
Definition peek (s : nat) (toks : list Z) : bool * nat :=
  let s := skip_ws s in
  (negb (at_ s =? 0) && strchr toks (at_ s), s).

(** ** The parser

    Each function returns the command and [*ps]. *)

Fixpoint parseredirs (fuel : nat) (cmd s : nat) : P (nat * nat) :=
  match fuel with
  | O => pfuel
  | S f =>
      let '(b, s) := peek s [cLT; cGT] in
      if b then
        let '(tok, _, _, s) := gettoken s in
        let '(t, q, eq, s) := gettoken s in
        if negb (t =? cA) then ppanic "missing file for redirection"
        else
          cmd ← (if tok =? cLT then redircmd cmd q eq O_RDONLY 0
                 else if tok =? cGT then redircmd cmd q eq (Z.lor (Z.lor O_WRONLY O_CREATE) O_TRUNC) 1
                 else if tok =? cPLUS then redircmd cmd q eq (Z.lor O_WRONLY O_CREATE) 1
                 else mret cmd);
          parseredirs f cmd s
      else mret (cmd, s)
  end.

(** The loop of [parseexec]: [cmd] is the execcmd, [ret] the command with its
    redirections so far. *)
Fixpoint parseexec_loop (fuel : nat) (cmd ret argc s : nat) : P (nat * nat * nat) :=
  match fuel with
  | O => pfuel
  | S f =>
      let '(b, s) := peek s [cBAR; cRP; cAMP; cSEMI] in
      if b then mret (ret, argc, s)
      else
        let '(tok, q, eq, s) := gettoken s in
        if tok =? 0 then mret (ret, argc, s)
        else if negb (tok =? cA) then ppanic "syntax"
        else
          set_arg cmd argc (Some q) (Some eq);;
          if (MAXARGS <=? S argc)%nat then ppanic "too many args"
          else
            r ← parseredirs (S es) ret s;
            let '(ret, s) := r in
            parseexec_loop f cmd ret (S argc) s
  end.

(** [parseexec] of a command that is not a block. *)
Definition parsesimple (s : nat) : P (nat * nat) :=
  cmd ← execcmd;
  r ← parseredirs (S es) cmd s;
  let '(ret, s) := r in
  r ← parseexec_loop (S es) cmd ret 0 s;
  let '(ret, argc, s) := r in
  set_arg cmd argc None None;;
  mret (ret, s).

(** [while(peek(ps, es, "&")){ gettoken(ps, es, 0, 0); cmd = backcmd(cmd); }] *)
Fixpoint parsebacks (fuel : nat) (cmd s : nat) : P (nat * nat) :=
  match fuel with
  | O => pfuel
  | S f =>
      let '(b, s) := peek s [cAMP] in
      if b then
        let '(_, _, _, s) := gettoken s in
        cmd ← backcmd cmd;
        parsebacks f cmd s
      else mret (cmd, s)
  end.

Fixpoint parseline (fuel : nat) (s : nat) : P (nat * nat) :=
  match fuel with
  | O => pfuel
  | S f =>
      r ← parsepipe f s;
      let '(cmd, s) := r in
      r ← parsebacks (S es) cmd s;
      let '(cmd, s) := r in
      let '(b, s) := peek s [cSEMI] in
      if b then
        let '(_, _, _, s) := gettoken s in
        r ← parseline f s;
        let '(rcmd, s) := r in
        cmd ← listcmd cmd rcmd;
        mret (cmd, s)
      else mret (cmd, s)
  end
with parsepipe (fuel : nat) (s : nat) : P (nat * nat) :=
  match fuel with
  | O => pfuel
  | S f =>
      r ← parseexec f s;
      let '(cmd, s) := r in
      let '(b, s) := peek s [cBAR] in
      if b then
        let '(_, _, _, s) := gettoken s in
        r ← parsepipe f s;
        let '(rcmd, s) := r in
        cmd ← pipecmd cmd rcmd;
        mret (cmd, s)
      else mret (cmd, s)
  end
with parseexec (fuel : nat) (s : nat) : P (nat * nat) :=
  match fuel with
  | O => pfuel
  | S f =>
      let '(b, s) := peek s [cLP] in
      if b then parseblock f s else parsesimple s
  end
with parseblock (fuel : nat) (s : nat) : P (nat * nat) :=
  match fuel with
  | O => pfuel
  | S f =>
      let '(b, s) := peek s [cLP] in
      if negb b then ppanic "parseblock"
      else
        let '(_, _, _, s) := gettoken s in
        r ← parseline f s;
        let '(cmd, s) := r in
        let '(b, s) := peek s [cRP] in
        if negb b then ppanic "syntax - missing )"
        else
          let '(_, _, _, s) := gettoken s in
          parseredirs (S es) cmd s
  end.

(** [parsecmd] up to [nulterminate]. *)
Definition parsetree : P nat :=
  r ← parseline (4 * S es) 0;
  let '(cmd, s) := r in
  let '(_, s) := peek s [] in
  if negb (s =? es)%nat then ppanic "syntax" else mret cmd.
End parse.

(** ** NUL-terminating the strings *)

(** [for(i=0; ecmd->argv[i]; i++) *ecmd->eargv[i] = 0], on the rest of the
    arrays. *)
Fixpoint nul_args (argv eargv : list (option nat)) (buf : list Z) : option (list Z) :=
  match argv, eargv with
  | Some _ :: argv', Some e :: eargv' => nul_args argv' eargv' (<[e := 0]> buf)
  | None :: _, _ => Some buf
  | _, _ => None
  end.

(** [None]: a pointer that is not a node, or an array without its end. *)
Fixpoint nulterminate (fuel : nat) (h : heap) (cmd : nat) (buf : list Z) : option (list Z) :=
  match fuel with
  | O => None
  | S f =>
      match h !! cmd with
      | None => None
      | Some (EXEC argv eargv) => nul_args argv eargv buf
      | Some (REDIR c _ efile _ _) => buf ← nulterminate f h c buf; Some (<[efile := 0]> buf)
      | Some (PIPE l r) | Some (LIST l r) => buf ← nulterminate f h l buf; nulterminate f h r buf
      | Some (BACK c) => nulterminate f h c buf
      end
  end.

(** The command, the heap and the buffer that [parsecmd(s)] leaves; the
    message it exits with. *)
Inductive parsed :=
| Parsed (cmd : nat) (h : heap) (buf : list Z)
| Failed (msg : string)
| Stuck.

Definition parsecmd (buf : list Z) : parsed :=
  match parsetree buf (Z.to_nat (strlen_bytes buf)) [] with
  | POk cmd h =>
      match nulterminate (S cmd) h cmd buf with
      | Some buf' => Parsed cmd h buf'
      | None => Stuck
      end
  | PPanic msg => Failed msg
  | PBad _ | PFuel => Stuck
  end.

(** ** Running a command *)

(** The system calls the shell makes; the strings are NUL-terminated in the
    buffer. *)
Inductive scall :=
| SFork
| SWait
| SExec (path : list Z) (argv : list (list Z))
| SOpen (path : list Z) (mode : Z)
| SClose (fd : Z)
| SDup (fd : Z)
| SPipe
| SFprintf (fd : Z) (fmt : string) (arg : list Z).

(** A process: it exits, or makes a call and goes on with its result; [pipe]
    also returns the two descriptors. *)
Inductive prog :=
| Exit (status : Z)
| Sys (c : scall) (k : Z * Z * Z -> prog).

Definition sys (c : scall) (k : Z -> prog) : prog := Sys c (fun r => k (fst (fst r))).
Definition spanic (s : string) : prog := sys (SFprintf 2 s []) (fun _ => Exit 1).
Definition fork1 (k : Z -> prog) : prog :=
  sys SFork (fun pid => if pid =? -1 then spanic "fork" else k pid).

(** The C string at position [q]. *)
Definition cstring (buf : list Z) (q : nat) : list Z := take (Z.to_nat (strlen_bytes (drop q buf))) (drop q buf).

Fixpoint argv_strings (buf : list Z) (argv : list (option nat)) : list (list Z) :=
  match argv with
  | Some q :: argv' => cstring buf q :: argv_strings buf argv'
  | _ => []
  end.

Section run.
Variables (h : heap) (buf : list Z).

Fixpoint runcmd (fuel : nat) (cmd : nat) : prog :=
  match fuel with
  | O => spanic "runcmd"
  | S f =>
      match h !! cmd with
      | None => spanic "runcmd"
      | Some (EXEC argv _) =>
          match argv_strings buf argv with
          | [] => Exit 1
          | a0 :: _ =>
              sys (SExec a0 (argv_strings buf argv)) (fun _ =>
              sys (SFprintf 2 "exec %s failed" a0) (fun _ =>
              Exit 0))
          end
      | Some (REDIR c file _ mode fd) =>
          sys (SClose fd) (fun _ =>
          sys (SOpen (cstring buf file) mode) (fun r =>
            if r <? 0 then sys (SFprintf 2 "open %s failed" (cstring buf file)) (fun _ => Exit 1)
            else runcmd f c))
      | Some (LIST l r) =>
          fork1 (fun pid => if pid =? 0 then runcmd f l else sys SWait (fun _ => runcmd f r))
      | Some (PIPE l r) =>
          Sys SPipe (fun p =>
            let '(ret, p0, p1) := p in
            if ret <? 0 then spanic "pipe"
            else
              fork1 (fun pid =>
                if pid =? 0 then
                  sys (SClose 1) (fun _ => sys (SDup p1) (fun _ => sys (SClose p0) (fun _ => sys (SClose p1) (fun _ => runcmd f l))))
                else
                  fork1 (fun pid =>
                    if pid =? 0 then
                      sys (SClose 0) (fun _ => sys (SDup p0) (fun _ => sys (SClose p0) (fun _ => sys (SClose p1) (fun _ => runcmd f r))))
                    else
                      sys (SClose p0) (fun _ => sys (SClose p1) (fun _ => sys SWait (fun _ => sys SWait (fun _ => Exit 0)))))))
      | Some (BACK c) =>
          fork1 (fun pid => if pid =? 0 then runcmd f c else Exit 0)
      end
  end.
End run.
