(* ===== verification/ShSpec.v ===== *)
(** The parser of user/sh.c is total, stays inside the buffer and builds a
    tree of words. *)

From S2P Require Import Prelude Bytes Sysfile Sh.

(** ** Computations of the parser *)

(** [m] returns and [Q] holds, or exits with a message; it has no undefined
    behaviour and does not run out of fuel. *)
Definition pwp {A} (m : P A) (Q : A -> heap -> Prop) (h : heap) : Prop :=
  match m h with
  | POk a h' => Q a h'
  | PPanic _ => True
  | _ => False
  end.

Lemma pwp_ret {A} (a : A) (Q : A -> heap -> Prop) h : Q a h -> pwp (mret a) Q h.
Proof. done. Qed.
Lemma pwp_panic {A} msg (Q : A -> heap -> Prop) h : pwp (ppanic msg) Q h.
Proof. done. Qed.
Lemma pwp_bind {A B} (m : P A) (f : A -> P B) Q h : pwp m (fun a => pwp (f a) Q) h -> pwp (m ≫= f) Q h.
Proof. unfold pwp, mbind, P_bind. by destruct (m h). Qed.
Lemma pwp_mono {A} (m : P A) (Q R : A -> heap -> Prop) h : (forall a h', Q a h' -> R a h') -> pwp m Q h -> pwp m R h.
Proof. unfold pwp. destruct (m h); auto. Qed.
Lemma pwp_malloc n (Q : nat -> heap -> Prop) h : Q (length h) (h ++ [n]) -> pwp (pmalloc n) Q h.
Proof. done. Qed.

(** ** Tokens *)

Section tokens.
Context (buf : list Z) (es : nat).
Hypothesis (Hend : at_ buf es = 0) (Hnul : forall i, (i < es)%nat -> at_ buf i <> 0).

(** A character of a word. *)
Definition wordchar (c : Z) : bool := negb (c =? 0) && negb (strchr whitespace c || strchr symbols c).

(** A word: a maximal run of word characters. *)
Record is_word (q e : nat) : Prop := {
  iw_ne : (q < e <= es)%nat;
  iw_in : forall i, (q <= i < e)%nat -> wordchar (at_ buf i) = true;
  iw_end : wordchar (at_ buf e) = false }.

Lemma skip_spec stop n : forall s, (s <= es)%nat -> (es - s <= n)%nat ->
  let r := skip buf es n stop s in
  (s <= r <= es)%nat /\ (forall i, (s <= i < r)%nat -> stop (at_ buf i) = false) /\ (r = es \/ stop (at_ buf r) = true).
Proof.
  induction n as [|n IH]; intros s Hs Hn; cbn [skip].
  { split_and!; [lia|lia|intros; lia|left; lia]. }
  destruct (Nat.ltb_spec s es) as [Hlt|Hge]; cbn [andb]; [|split_and!; [lia|lia|intros; lia|left; lia]].
  destruct (stop (at_ buf s)) eqn:E; cbn [negb]; [split_and!; [lia|lia|intros; lia|by right]|].
  destruct (IH (S s) ltac:(lia) ltac:(lia)) as (H1 & H2 & H3). split_and!; [lia|lia| |done].
  intros i Hi. destruct (decide (i = s)) as [->|]; [done|]. apply H2. lia.
Qed.

Lemma skip_ws_spec s : (s <= es)%nat ->
  (s <= skip_ws buf es s <= es)%nat /\ strchr whitespace (at_ buf (skip_ws buf es s)) = false.
Proof.
  intros Hs. destruct (skip_spec (fun c => negb (strchr whitespace c)) (es - s) s Hs ltac:(lia)) as (H1 & _ & H3).
  unfold skip_ws. split; [done|]. destruct H3 as [->|H3]; [by rewrite Hend|]. by apply negb_true_iff in H3.
Qed.

Lemma skip_ws_id s : (s <= es)%nat -> strchr whitespace (at_ buf s) = false -> skip_ws buf es s = s.
Proof.
  intros Hs Hw. unfold skip_ws. destruct (es - s)%nat; [done|]. cbn [skip]. rewrite Hw. cbn [negb]. by rewrite andb_false_r.
Qed.

Lemma peek_spec s toks : (s <= es)%nat ->
  let '(b, s') := peek buf es s toks in
  (s <= s' <= es)%nat /\ strchr whitespace (at_ buf s') = false /\ (b = true -> (s' < es)%nat /\ at_ buf s' ∈ toks).
Proof.
  intros Hs. unfold peek. destruct (skip_ws_spec s Hs) as [H1 H2]. split_and!; [lia|lia|done|].
  intros [Ha Hb]%andb_true_iff. apply negb_true_iff, Z.eqb_neq in Ha. unfold strchr in Hb. apply bool_decide_eq_true in Hb.
  split; [|done]. destruct (decide (skip_ws buf es s = es)) as [E|]; [by rewrite E, Hend in Ha|lia].
Qed.

(** What [gettoken] returns: the token is not empty unless the end of the
    buffer is reached; the token ['a'] is a word. *)
Lemma gettoken_spec s : (s <= es)%nat ->
  let '(t, q, e, s') := gettoken buf es s in
  (s <= q <= e)%nat /\ (e <= s' <= es)%nat /\ (t <> 0 -> (q < e)%nat) /\ (at_ buf q <> 0 -> t <> 0) /\ (t = cA -> is_word q e) /\
  q = skip_ws buf es s.
Proof.
  intros Hs. unfold gettoken. destruct (skip_ws_spec s Hs) as [H1 H2]. set (q := skip_ws buf es s) in *. unfold token.
  assert (Hlt : at_ buf q <> 0 -> (q < es)%nat) by (intros Hne; destruct (decide (q = es)) as [E|]; [by rewrite E, Hend in Hne|lia]).
  destruct (Z.eqb_spec (at_ buf q) 0) as [E0|E0].
  { destruct (skip_ws_spec q ltac:(lia)). split_and!; try lia; try done. }
  specialize (Hlt E0). destruct (strchr [cBAR; cLP; cRP; cSEMI; cAMP; cLT] (at_ buf q)) eqn:Es.
  { destruct (skip_ws_spec (S q) ltac:(lia)). split_and!; try lia; try done. intros Ea. rewrite Ea in Es. done. }
  destruct (Z.eqb_spec (at_ buf q) cGT) as [Eg|Eg].
  - destruct (Z.eqb_spec (at_ buf (S q)) cGT) as [Eg2|_].
    + assert (S q < es)%nat by (destruct (decide (S q = es)) as [E|]; [by rewrite E, Hend in Eg2|lia]).
      destruct (skip_ws_spec (S (S q)) ltac:(lia)). by split_and!; try lia.
    + destruct (skip_ws_spec (S q) ltac:(lia)). by split_and!; try lia.
  - destruct (skip_spec (fun c => strchr whitespace c || strchr symbols c) (es - q) q ltac:(lia) ltac:(lia)) as (G1 & G2 & G3).
    fold (skip_word buf es q) in *. destruct (skip_ws_spec (skip_word buf es q) ltac:(lia)) as [W1 _].
    assert (Hsym : strchr symbols (at_ buf q) = false).
    { unfold strchr, symbols in *. apply bool_decide_eq_false in Es. apply bool_decide_eq_false. unfold cGT, cBAR, cLP, cRP, cSEMI, cAMP, cLT in *. set_solver. }
    assert (Hq : skip_word buf es q <> q).
    { intros Eq. destruct G3 as [G3|G3]; [lia|]. rewrite Eq, H2, Hsym in G3. done. }
    split_and!; try lia; try done. intros _. split; [lia| |].
    + intros i Hi. unfold wordchar. rewrite (G2 i Hi). rewrite andb_true_r. apply negb_true_iff, Z.eqb_neq, Hnul. lia.
    + unfold wordchar. destruct G3 as [->|G3]; [by rewrite Hend|]. by rewrite G3, andb_false_r.
Qed.

(** ** The heap *)

(** Entry [k] of the argument arrays after [l] was stored. *)
Definition args_of (l : list nat) : list (option nat) := map Some l ++ repeat None (MAXARGS - length l).

(** A node: its pointers are to older nodes, its strings are words. *)
Definition node_ok (i : nat) (n : node) : Prop :=
  match n with
  | EXEC argv eargv => exists qs eqs, argv = args_of qs /\ eargv = args_of eqs /\ Forall2 is_word qs eqs /\ (length qs < MAXARGS)%nat
  | REDIR c q eq _ fd => (c < i)%nat /\ is_word q eq /\ (fd = 0 \/ fd = 1)
  | PIPE l r | LIST l r => (l < i)%nat /\ (r < i)%nat
  | BACK c => (c < i)%nat
  end.

Definition heap_ok (h : heap) : Prop := forall i n, h !! i = Some n -> node_ok i n.

Lemma heap_ok_app h n : heap_ok h -> node_ok (length h) n -> heap_ok (h ++ [n]).
Proof.
  intros Hh Hn i m Hi. apply lookup_app_Some in Hi as [Hi|[Hge Hi]]; [by apply Hh|].
  apply list_lookup_singleton_Some in Hi as [Hi <-]. by replace i with (length h) by lia.
Qed.

(** A call of the parser returned: [*ps] moved on, to a character that is not
    white space. *)
Record step (h : heap) (s : nat) (r : nat * nat) (h' : heap) : Prop := {
  st_pos : (s <= snd r <= es)%nat;
  st_cmd : (fst r < length h')%nat;
  st_heap : heap_ok h';
  st_len : (length h <= length h')%nat }.

Lemma step_trans h s r h' s' r' h'' : step h s r h' -> (snd r <= s')%nat -> step h' s' r' h'' -> step h s r' h''.
Proof. intros [] Hs []. split; (lia || done). Qed.

(** [malloc] of a node over what was parsed. *)
Lemma pwp_node n h s c s' h1 (Q : nat * nat -> heap -> Prop) :
  step h s (c, s') h1 -> node_ok (length h1) n -> (forall h2, step h s (length h1, s') h2 -> h2 = h1 ++ [n] -> Q (length h1, s') h2) ->
  pwp (c ← pmalloc n; mret (c, s')) Q h1.
Proof.
  intros [H1 H2 H3 H4] Hn HQ. apply pwp_bind, pwp_malloc, pwp_ret, HQ; [|done]. simpl in *.
  split; simpl; [lia|rewrite length_app; simpl; lia|by apply heap_ok_app|rewrite length_app; simpl; lia].
Qed.

(** A [gettoken] of the token that [peek] saw moves on. *)
Lemma gettoken_moves s : (s < es)%nat -> strchr whitespace (at_ buf s) = false ->
  let '(t, q, e, s') := gettoken buf es s in (s < s' <= es)%nat.
Proof.
  intros Hs Hw. pose proof (gettoken_spec s ltac:(lia)) as H. destruct (gettoken buf es s) as [[[t q] e] s'].
  destruct H as (H1 & H2 & H3 & H4 & _ & ->). rewrite skip_ws_id in * by (done || lia).
  assert (t <> 0) by (by apply H4, Hnul). specialize (H3 H). lia.
Qed.

Lemma pwp_parseredirs fuel : forall cmd s h, (s <= es)%nat -> (es - s < fuel)%nat -> heap_ok h -> (cmd < length h)%nat ->
  pwp (parseredirs buf es fuel cmd s) (fun r h' => step h s r h' /\ exists ext, h' = h ++ ext) h.
Proof.
  induction fuel as [|fuel IH]; intros cmd s h Hs Hf Hh Hc; [lia|]. cbn [parseredirs].
  pose proof (peek_spec s [cLT; cGT] Hs) as Hp. destruct (peek buf es s [cLT; cGT]) as [b s1]. destruct Hp as (P1 & P2 & P3).
  destruct b; [|apply pwp_ret; split; [split; simpl; (lia || done)|exists []; by rewrite app_nil_r]].
  destruct (P3 eq_refl) as [P4 _]. pose proof (gettoken_moves s1 P4 P2) as G1. destruct (gettoken buf es s1) as [[[tok q1] e1] s2].
  pose proof (gettoken_spec s2 ltac:(lia)) as G2. destruct (gettoken buf es s2) as [[[t q] e] s3].
  destruct G2 as (G2 & G3 & _ & _ & G4 & _). destruct (Z.eqb_spec t cA) as [Et|Et]; cbn [negb]; [|apply pwp_panic].
  assert (Hnext : forall mode fd, fd = 0 \/ fd = 1 -> pwp (c ← redircmd cmd q e mode fd; parseredirs buf es fuel c s3)
    (fun r h' => step h s r h' /\ exists ext, h' = h ++ ext) h).
  { intros mode fd Hfd. apply pwp_bind, pwp_malloc. eapply pwp_mono; [|apply IH]; [|lia|lia| |rewrite length_app; simpl; lia].
    - intros r h' [[A1 A2 A3 A4] [ext Eh]]. rewrite length_app in A4. split; [split; [lia|done|done|lia]|].
      exists ([REDIR cmd q e mode fd] ++ ext). by rewrite app_assoc.
    - apply heap_ok_app; [done|]. split; [done|auto]. }
  destruct (tok =? cLT); [apply Hnext; auto|]. destruct (tok =? cGT); [apply Hnext; auto|]. destruct (tok =? cPLUS); [apply Hnext; auto|].
  apply pwp_bind, pwp_ret. eapply pwp_mono; [|apply IH; [lia|lia|done|done]]. intros r h' [[A1 A2 A3 A4] He]. split; [split; [lia|done..]|done].
Qed.

Lemma args_of_snoc l q : (length l < MAXARGS)%nat -> <[length l := Some q]> (args_of l) = args_of (l ++ [q]).
Proof.
  intros Hl. unfold args_of. rewrite map_app, length_app. cbn [map length]. rewrite <- app_assoc.
  replace (length l) with (length (map Some l) + 0)%nat at 1 by (rewrite length_map; lia). rewrite insert_app_r. f_equal.
  replace (MAXARGS - length l)%nat with (S (MAXARGS - (length l + 1))) by lia. done.
Qed.

Lemma args_of_end l : (length l < MAXARGS)%nat -> <[length l := None]> (args_of l) = args_of l.
Proof.
  intros Hl. apply list_insert_id. unfold args_of. rewrite lookup_app_r by (rewrite length_map; lia). rewrite length_map, Nat.sub_diag.
  destruct (MAXARGS - length l)%nat eqn:E; [lia|done].
Qed.

Lemma heap_ok_insert h i n : heap_ok h -> node_ok i n -> heap_ok (<[i := n]> h).
Proof.
  intros Hh Hn j m Hj. apply list_lookup_insert_Some in Hj as [(<- & <- & _)|[_ Hj]]; [done|by apply Hh].
Qed.

(** The execcmd being filled. *)
Record filling (h : heap) (cmd argc : nat) : Prop := {
  fl_args : exists qs eqs, h !! cmd = Some (EXEC (args_of qs) (args_of eqs)) /\ Forall2 is_word qs eqs /\ length qs = argc;
  fl_lt : (argc < MAXARGS)%nat }.

Lemma pwp_set_arg h cmd argc q e (Q : () -> heap -> Prop) :
  heap_ok h -> filling h cmd argc -> is_word q e ->
  (forall h', length h' = length h -> (S argc < MAXARGS)%nat -> heap_ok h' /\ filling h' cmd (S argc) -> Q () h') ->
  ((MAXARGS <= S argc)%nat -> forall h', Q () h') ->
  pwp (set_arg cmd argc (Some q) (Some e)) Q h.
Proof.
  intros Hh [(qs & eqs & Hc & Hw & Ha) Hlt] Hq HQ Hfull. unfold pwp, set_arg. rewrite Hc, (proj2 (Nat.ltb_lt _ _)) by done.
  destruct (decide (S argc < MAXARGS)%nat) as [Hl|Hl]; [|apply Hfull; lia].
  pose proof (Forall2_length _ _ _ Hw) as Hlen.
  assert (E1 : <[argc := Some q]> (args_of qs) = args_of (qs ++ [q])) by (rewrite <- Ha; apply args_of_snoc; lia).
  assert (E2 : <[argc := Some e]> (args_of eqs) = args_of (eqs ++ [e])) by (rewrite <- Ha, Hlen; apply args_of_snoc; lia).
  rewrite E1, E2. assert (Hw' : Forall2 is_word (qs ++ [q]) (eqs ++ [e])) by (apply Forall2_app; [done|by apply Forall2_cons_2, Forall2_nil_2]).
  apply HQ; [apply length_insert|done|]. split.
  - apply heap_ok_insert; [done|]. exists (qs ++ [q]), (eqs ++ [e]). split_and!; [done..|]. rewrite length_app. simpl. lia.
  - split; [|done]. exists (qs ++ [q]), (eqs ++ [e]). split_and!; [|done|rewrite length_app; simpl; lia].
    apply list_lookup_insert_eq. by eapply lookup_lt_Some.
Qed.

Lemma pwp_set_end h cmd argc (Q : () -> heap -> Prop) :
  filling h cmd argc -> Q () h -> pwp (set_arg cmd argc None None) Q h.
Proof.
  intros [(qs & eqs & Hc & Hw & Ha) Hlt] HQ. unfold pwp, set_arg. rewrite Hc, (proj2 (Nat.ltb_lt _ _)) by done.
  pose proof (Forall2_length _ _ _ Hw) as Hlen.
  rewrite <- Ha at 1. rewrite args_of_end by lia. rewrite <- Ha, Hlen, args_of_end by lia. by rewrite list_insert_id.
Qed.

Lemma filling_app h ext cmd argc : filling h cmd argc -> filling (h ++ ext) cmd argc.
Proof.
  intros [(qs & eqs & Hc & Hw & Ha) Hlt]. split; [|done]. exists qs, eqs. split_and!; [|done..].
  by apply lookup_app_l_Some.
Qed.

Lemma pwp_parseexec_loop fuel : forall cmd ret argc s h,
  (s <= es)%nat -> (es - s < fuel)%nat -> heap_ok h -> (ret < length h)%nat -> filling h cmd argc ->
  pwp (parseexec_loop buf es fuel cmd ret argc s)
    (fun r h' => step h s (fst (fst r), snd r) h' /\ filling h' cmd (snd (fst r))) h.
Proof.
  induction fuel as [|fuel IH]; intros cmd ret argc s h Hs Hf Hh Hr Hfl; [lia|]. cbn [parseexec_loop].
  pose proof (peek_spec s [cBAR; cRP; cAMP; cSEMI] Hs) as Hp. destruct (peek buf es s [cBAR; cRP; cAMP; cSEMI]) as [b s1].
  destruct Hp as (P1 & P2 & _). destruct b; [apply pwp_ret; split; [split; simpl; (lia || done)|done]|].
  pose proof (gettoken_spec s1 ltac:(lia)) as G. destruct (gettoken buf es s1) as [[[tok q] e] s2].
  destruct G as (G1 & G2 & G3 & _ & G4 & _). destruct (Z.eqb_spec tok 0) as [E0|E0].
  { apply pwp_ret. split; [split; simpl; (lia || done)|done]. }
  specialize (G3 E0). destruct (Z.eqb_spec tok cA) as [Et|Et]; cbn [negb]; [|apply pwp_panic].
  apply pwp_bind, (pwp_set_arg h cmd argc q e); [done|done|auto| |].
  2:{ intros Hl h'. rewrite (proj2 (Nat.leb_le _ _)) by done. apply pwp_panic. }
  intros h1 Hl1 Hlt [Hh1 Hfl1]. rewrite (proj2 (Nat.leb_gt _ _)) by done. apply pwp_bind.
  eapply pwp_mono; [|apply pwp_parseredirs; [lia|lia|done|lia]]. intros [ret2 s3] h2 [[A1 A2 A3 A4] [ext ->]]. simpl in A1, A2.
  eapply pwp_mono; [|apply IH; [lia|lia|done|done|by apply filling_app]].
  intros [[ret3 argc3] s4] h3 [[B1 B2 B3 B4] B5]. simpl in *. split; [split; simpl; (lia || done)|done].
Qed.

Lemma pwp_parsesimple s h : (s <= es)%nat -> heap_ok h -> pwp (parsesimple buf es s) (step h s) h.
Proof.
  intros Hs Hh. unfold parsesimple. apply pwp_bind, pwp_malloc.
  set (h0 := h ++ [_]). assert (Hf0 : filling h0 (length h) 0).
  { split; [|unfold MAXARGS; lia]. exists [], []. split_and!; [|constructor|done]. unfold h0. by rewrite lookup_app_r, Nat.sub_diag by lia. }
  assert (Hh0 : heap_ok h0).
  { apply heap_ok_app; [done|]. exists [], []. split_and!; [done..|constructor|unfold MAXARGS; simpl; lia]. }
  assert (Hl0 : length h0 = S (length h)) by (unfold h0; rewrite length_app; simpl; lia). clearbody h0.
  apply pwp_bind. eapply pwp_mono; [|apply pwp_parseredirs; [done|lia|done|lia]].
  intros [ret s1] h1 [[A1 A2 A3 A4] [ext ->]]. simpl in A1, A2.
  apply pwp_bind. eapply pwp_mono; [|apply pwp_parseexec_loop; [|lia|done|done|by apply filling_app]]; [|lia].
  intros [[ret2 argc] s2] h2 [[B1 B2 B3 B4] B5]. simpl in *. apply pwp_bind, pwp_set_end; [done|]. apply pwp_ret.
  split; simpl; (lia || done).
Qed.

Lemma pwp_parsebacks fuel : forall cmd s h, (s <= es)%nat -> (es - s < fuel)%nat -> heap_ok h -> (cmd < length h)%nat ->
  pwp (parsebacks buf es fuel cmd s) (step h s) h.
Proof.
  induction fuel as [|fuel IH]; intros cmd s h Hs Hf Hh Hc; [lia|]. cbn [parsebacks].
  pose proof (peek_spec s [cAMP] Hs) as Hp. destruct (peek buf es s [cAMP]) as [b s1]. destruct Hp as (P1 & P2 & P3).
  destruct b; [|apply pwp_ret; split; simpl; (lia || done)]. destruct (P3 eq_refl) as [P4 _].
  pose proof (gettoken_moves s1 P4 P2) as G1. destruct (gettoken buf es s1) as [[[tok q1] e1] s2].
  apply pwp_bind, pwp_malloc. eapply pwp_mono; [|apply IH; [lia|lia|by apply heap_ok_app|rewrite length_app; simpl; lia]].
  intros r h' [A1 A2 A3 A4]. rewrite length_app in A4. split; (lia || done).
Qed.

(** The four functions, with the fuel each needs. *)
Lemma pwp_parse fuel : forall s h, (s <= es)%nat -> heap_ok h ->
  ((4 * (es - s) + 3 < fuel)%nat -> pwp (parseline buf es fuel s) (step h s) h) /\
  ((4 * (es - s) + 2 < fuel)%nat -> pwp (parsepipe buf es fuel s) (step h s) h) /\
  ((4 * (es - s) + 1 < fuel)%nat -> pwp (parseexec buf es fuel s) (step h s) h) /\
  ((4 * (es - s) < fuel)%nat -> pwp (parseblock buf es fuel s) (step h s) h).
Proof.
  induction fuel as [|fuel IH]; intros s h Hs Hh; [split_and!; intros; lia|].
  split_and!; intros Hf; cbn [parseline parsepipe parseexec parseblock].
  - apply pwp_bind. eapply pwp_mono; [|apply (IH s h Hs Hh); lia]. intros [c1 s1] h1 [A1 A2 A3 A4]. simpl in A1, A2.
    apply pwp_bind. eapply pwp_mono; [|apply pwp_parsebacks; [lia|lia|done|done]]. intros [c2 s2] h2 [B1 B2 B3 B4]. simpl in B1, B2.
    pose proof (peek_spec s2 [cSEMI] ltac:(lia)) as Hp. destruct (peek buf es s2 [cSEMI]) as [b s3]. destruct Hp as (P1 & P2 & P3).
    destruct b; [|apply pwp_ret; split; simpl; (lia || done)]. destruct (P3 eq_refl) as [P4 _].
    pose proof (gettoken_moves s3 P4 P2) as G1. destruct (gettoken buf es s3) as [[[tok q] e] s4].
    apply pwp_bind. eapply pwp_mono; [|apply (IH s4 h2 ltac:(lia) B3); lia]. intros [c5 s5] h5 [C1 C2 C3 C4]. simpl in C1, C2.
    eapply (pwp_node _ h s c5); [split; simpl; (lia || done)|split; lia|by intros]. 
  - apply pwp_bind. eapply pwp_mono; [|apply (IH s h Hs Hh); lia]. intros [c1 s1] h1 [A1 A2 A3 A4]. simpl in A1, A2.
    pose proof (peek_spec s1 [cBAR] ltac:(lia)) as Hp. destruct (peek buf es s1 [cBAR]) as [b s3]. destruct Hp as (P1 & P2 & P3).
    destruct b; [|apply pwp_ret; split; simpl; (lia || done)]. destruct (P3 eq_refl) as [P4 _].
    pose proof (gettoken_moves s3 P4 P2) as G1. destruct (gettoken buf es s3) as [[[tok q] e] s4].
    apply pwp_bind. eapply pwp_mono; [|apply (IH s4 h1 ltac:(lia) A3); lia]. intros [c5 s5] h5 [C1 C2 C3 C4]. simpl in C1, C2.
    eapply (pwp_node _ h s c5); [split; simpl; (lia || done)|split; lia|by intros]. 
  - pose proof (peek_spec s [cLP] Hs) as Hp. destruct (peek buf es s [cLP]) as [b s1]. destruct Hp as (P1 & P2 & P3).
    destruct b; (eapply pwp_mono; [|first [apply (IH s1 h ltac:(lia) Hh); lia|apply pwp_parsesimple; [lia|done]]]);
      intros r h' [A1 A2 A3 A4]; split; (lia || done).
  - pose proof (peek_spec s [cLP] Hs) as Hp. destruct (peek buf es s [cLP]) as [b s1]. destruct Hp as (P1 & P2 & P3).
    destruct b; [|apply pwp_panic]. cbn [negb]. destruct (P3 eq_refl) as [P4 _].
    pose proof (gettoken_moves s1 P4 P2) as G1. destruct (gettoken buf es s1) as [[[tok q] e] s2].
    apply pwp_bind. eapply pwp_mono; [|apply (IH s2 h ltac:(lia) Hh); lia]. intros [c3 s3] h3 [A1 A2 A3 A4]. simpl in A1, A2.
    pose proof (peek_spec s3 [cRP] ltac:(lia)) as Hp. destruct (peek buf es s3 [cRP]) as [b s4]. destruct Hp as (R1 & R2 & R3).
    destruct b; [|apply pwp_panic]. cbn [negb]. destruct (R3 eq_refl) as [R4 _].
    pose proof (gettoken_moves s4 R4 R2) as G2. destruct (gettoken buf es s4) as [[[tok2 q2] e2] s5].
    eapply pwp_mono; [|apply pwp_parseredirs; [lia|lia|done|done]]. intros r h' [[B1 B2 B3 B4] _]. split; (lia || done).
Qed.

Lemma pwp_parsetree : pwp (parsetree buf es) (fun cmd h => (cmd < length h)%nat /\ heap_ok h) [].
Proof.
  unfold parsetree. apply pwp_bind. eapply pwp_mono; [|apply (pwp_parse _ 0 []); [lia|by intros i n|lia]].
  intros [cmd s] h [A1 A2 A3 A4]. simpl in A1, A2. destruct (peek buf es s []) as [b s1].
  destruct (s1 =? es)%nat; cbn [negb]; [by apply pwp_ret|apply pwp_panic].
Qed.

(** ** The strings of a command *)

Definition nul_all (l : list nat) (b : list Z) : list Z := fold_left (fun b e => <[e := 0]> b) l b.

Lemma nul_args_spec qs : forall eqs b, length qs = length eqs -> (length qs < MAXARGS)%nat ->
  nul_args (args_of qs) (args_of eqs) b = Some (nul_all eqs b).
Proof.
  assert (H : forall qs eqs b k, length qs = length eqs ->
    nul_args (map Some qs ++ repeat None (S k)) (map Some eqs ++ repeat None (S k)) b = Some (nul_all eqs b)).
  { clear. induction qs as [|q qs IH]; intros [|e eqs] b k Hl; try done. cbn [map app nul_args]. rewrite IH; [done|by injection Hl]. }
  intros eqs b Hl Hlt. unfold args_of. rewrite <- Hl. destruct (MAXARGS - length qs)%nat as [|k] eqn:E; [lia|]. by apply H.
Qed.

Fixpoint arg_words (argv eargv : list (option nat)) : list (nat * nat) :=
  match argv, eargv with
  | Some q :: argv', Some e :: eargv' => (q, e) :: arg_words argv' eargv'
  | _, _ => []
  end.

(** The words of the command, as [nulterminate] finds them. *)
Fixpoint words (fuel : nat) (h : heap) (cmd : nat) : list (nat * nat) :=
  match fuel with
  | O => []
  | S f =>
      match h !! cmd with
      | None => []
      | Some (EXEC argv eargv) => arg_words argv eargv
      | Some (REDIR c q e _ _) => words f h c ++ [(q, e)]
      | Some (PIPE l r) | Some (LIST l r) => words f h l ++ words f h r
      | Some (BACK c) => words f h c
      end
  end.

Lemma arg_words_args qs eqs : length qs = length eqs -> arg_words (args_of qs) (args_of eqs) = zip qs eqs.
Proof.
  assert (H : forall qs eqs k, length qs = length eqs ->
    arg_words (map Some qs ++ repeat None k) (map Some eqs ++ repeat None k) = zip qs eqs).
  { clear. induction qs as [|q qs IH]; intros [|e eqs] k Hl; try done; [by destruct k|]. cbn. f_equal. apply IH. by injection Hl. }
  intros Hl. unfold args_of. rewrite <- Hl. by apply H.
Qed.

Lemma nul_all_app l1 l2 b : nul_all (l1 ++ l2) b = nul_all l2 (nul_all l1 b).
Proof. apply fold_left_app. Qed.

Lemma nulterminate_spec fuel : forall h cmd b, heap_ok h -> (cmd < length h)%nat -> (cmd < fuel)%nat ->
  nulterminate fuel h cmd b = Some (nul_all (map snd (words fuel h cmd)) b) /\
  Forall (fun p => is_word (fst p) (snd p)) (words fuel h cmd).
Proof.
  induction fuel as [|fuel IH]; intros h cmd b Hh Hc Hf; [lia|]. cbn [nulterminate words].
  destruct (lookup_lt_is_Some_2 h cmd Hc) as [n Hn]. rewrite Hn. pose proof (Hh _ _ Hn) as Hok.
  destruct n as [argv eargv|c q e mode fd|l r|l r|c]; cbn [node_ok] in Hok.
  - destruct Hok as (qs & eqs & -> & -> & Hw & Hl). pose proof (Forall2_length _ _ _ Hw) as Hlen.
    rewrite nul_args_spec, arg_words_args by lia. split.
    + do 2 f_equal. rewrite snd_zip by lia. done.
    + apply Forall2_same_length_lookup in Hw as [_ Hw]. apply Forall_lookup. intros i [q e] Hi. simpl.
      apply lookup_zip_with_Some in Hi as (q' & e' & [= <- <-] & H1 & H2). by eapply Hw.
  - destruct Hok as (Hlt & Hw & _). destruct (IH h c b Hh ltac:(lia) ltac:(lia)) as [-> Hf1]. cbn. split.
    + by rewrite map_app, nul_all_app.
    + apply Forall_app. split; [done|]. by apply Forall_singleton.
  - destruct Hok as [Hl Hr]. destruct (IH h l b Hh ltac:(lia) ltac:(lia)) as [-> Hf1]. cbn.
    destruct (IH h r (nul_all (map snd (words fuel h l)) b) Hh ltac:(lia) ltac:(lia)) as [-> Hf2].
    split; [by rewrite map_app, nul_all_app|]. by apply Forall_app.
  - destruct Hok as [Hl Hr]. destruct (IH h l b Hh ltac:(lia) ltac:(lia)) as [-> Hf1]. cbn.
    destruct (IH h r (nul_all (map snd (words fuel h l)) b) Hh ltac:(lia) ltac:(lia)) as [-> Hf2].
    split; [by rewrite map_app, nul_all_app|]. by apply Forall_app.
  - apply IH; [done|lia|lia].
Qed.

Lemma length_nul_all l : forall b, length (nul_all l b) = length b.
Proof. induction l as [|e l IH]; intros b; [done|]. cbn. rewrite IH. apply length_insert. Qed.

Lemma nul_all_other l i : forall b, i ∉ l -> nul_all l b !! i = b !! i.
Proof.
  induction l as [|e l IH]; intros b Hi; [done|]. cbn. apply not_elem_of_cons in Hi as [H1 H2].
  rewrite IH by done. by apply list_lookup_insert_ne.
Qed.

Lemma nul_all_in l i : forall b, i ∈ l -> (i < length b)%nat -> nul_all l b !! i = Some 0.
Proof.
  induction l as [|e l IH]; intros b Hi Hl; [by apply elem_of_nil in Hi|]. cbn.
  destruct (decide (i ∈ l)) as [H|H]; [apply IH; [done|by rewrite length_insert]|].
  apply elem_of_cons in Hi as [->|Hi]; [|done]. rewrite nul_all_other by done. by apply list_lookup_insert_eq.
Qed.
End tokens.

(** ** C strings *)

Lemma strlen_bytes_spec b : 0 ∈ b ->
  let es := Z.to_nat (strlen_bytes b) in at_ b es = 0 /\ (forall i, (i < es)%nat -> at_ b i <> 0) /\ (es < length b)%nat /\ 0 <= strlen_bytes b.
Proof.
  induction b as [|c b IH]; intros Hin; [by apply elem_of_nil in Hin|]. cbn [strlen_bytes].
  destruct (Z.eqb_spec c 0) as [->|Hc]; [split_and!; [done|intros; lia|simpl; lia|lia]|].
  apply elem_of_cons in Hin as [Hin|Hin]; [done|]. destruct (IH Hin) as (H1 & H2 & H3 & H4).
  replace (Z.to_nat (1 + strlen_bytes b)) with (S (Z.to_nat (strlen_bytes b))) by lia. split_and!; [done| |simpl; lia|lia].
  intros [|i] Hi; [done|]. apply H2. lia.
Qed.

(** A run of [n] bytes that are not NUL, then a NUL. *)
Lemma strlen_run b n : (forall i, (i < n)%nat -> exists c, b !! i = Some c /\ c <> 0) -> b !! n = Some 0 ->
  strlen_bytes b = Z.of_nat n.
Proof.
  revert b. induction n as [|n IH]; intros b Hr Hn; destruct b as [|c b]; try done; cbn [strlen_bytes].
  - injection Hn as ->. done.
  - destruct (Hr 0%nat ltac:(lia)) as (c' & [= <-] & Hc). rewrite (proj2 (Z.eqb_neq _ _)) by done.
    rewrite (IH b); [lia| |done]. intros i Hi. apply (Hr (S i)). lia.
Qed.

Lemma cstring_run b q e : (q <= e)%nat -> (forall i, (q <= i < e)%nat -> exists c, b !! i = Some c /\ c <> 0) -> b !! e = Some 0 ->
  cstring b q = slice b q (e - q).
Proof.
  intros Hle Hr He. unfold cstring. rewrite (strlen_run _ (e - q)); [by rewrite Nat2Z.id| |].
  - intros i Hi. rewrite lookup_drop. apply Hr. lia.
  - rewrite lookup_drop, <- He. f_equal. lia.
Qed.
