(* ===== verification/ShProps.v ===== *)
(** Running a command: [runcmd] of user/sh.c as a process, against what the
    redirections and pipes of the command mean. *)

From S2P Require Import Prelude Bytes File Sysfile Sh ShSpec.

(** ** The descriptors of a process *)

(** What a descriptor names. *)
Inductive obj :=
| ObInherited (n : nat)
| ObFile (path : list Z) (mode : Z)
| ObPipeR (id : nat)
| ObPipeW (id : nat).

Abbreviation fdtable := (list (option obj)).

(** The lowest free descriptor. *)
Fixpoint lowest (fds : fdtable) : option nat :=
  match fds with
  | [] => None
  | None :: _ => Some 0%nat
  | Some _ :: fds' => S <$> lowest fds'
  end.

(** What can be seen of a process of the shell: it becomes a program, with
    these arguments and descriptors, or it waits for a child and holds these
    descriptors meanwhile. *)
Inductive event :=
| Started (argv : list (list Z)) (fds : fdtable)
| Waits (fds : fdtable).

(** ** Running a process

    Calls that can succeed do: [fork] and [exec] succeed, [open] when there
    is a descriptor.  The child of a [fork] runs first.  The result are the
    events of all processes; pipes are numbered from [np]. *)
Fixpoint run (p : prog) (fds : fdtable) (np : nat) : list event * nat :=
  match p with
  | Exit _ => ([], np)
  | Sys c k =>
      let ret (x : Z) := k (x, 0, 0) in
      match c with
      | SFork =>
          let '(e1, np1) := run (ret 0) fds np in
          let '(e2, np2) := run (ret 1) fds np1 in
          (e1 ++ e2, np2)
      | SWait =>
          let '(e, np1) := run (ret 1) fds np in
          (Waits fds :: e, np1)
      | SExec path argv => ([Started argv fds], np)
      | SOpen path mode =>
          match lowest fds with
          | Some n => run (ret (Z.of_nat n)) (<[n := Some (ObFile path mode)]> fds) np
          | None => run (ret (-1)) fds np
          end
      | SClose fd => run (ret 0) (<[Z.to_nat fd := None]> fds) np
      | SDup fd =>
          match lowest fds, fds !! Z.to_nat fd with
          | Some n, Some (Some o) => run (ret (Z.of_nat n)) (<[n := Some o]> fds) np
          | _, _ => run (ret (-1)) fds np
          end
      | SPipe =>
          match lowest fds with
          | Some n =>
              let fds1 := <[n := Some (ObPipeR np)]> fds in
              match lowest fds1 with
              | Some m => run (k (0, Z.of_nat n, Z.of_nat m)) (<[m := Some (ObPipeW np)]> fds1) (S np)
              | None => run (ret (-1)) fds np
              end
          | None => run (ret (-1)) fds np
          end
      | SFprintf _ _ _ => run (ret 0) fds np
      end
  end.

(** ** What a command means *)

Inductive acmd :=
| AExec (argv : list (list Z))
| ARedir (c : acmd) (file : list Z) (mode : Z) (fd : nat)
| APipe (l r : acmd)
| AList (l r : acmd)
| ABack (c : acmd).

(** The tree of nodes below [cmd]. *)
Fixpoint tree (fuel : nat) (h : heap) (buf : list Z) (cmd : nat) : acmd :=
  match fuel with
  | O => AExec []
  | S f =>
      match h !! cmd with
      | None => AExec []
      | Some (EXEC argv _) => AExec (argv_strings buf argv)
      | Some (REDIR c file _ mode fd) => ARedir (tree f h buf c) (cstring buf file) mode (Z.to_nat fd)
      | Some (PIPE l r) => APipe (tree f h buf l) (tree f h buf r)
      | Some (LIST l r) => AList (tree f h buf l) (tree f h buf r)
      | Some (BACK c) => ABack (tree f h buf c)
      end
  end.

(** What a command does: a redirection replaces one descriptor, the two sides
    of a pipe get its ends as standard output and standard input, no other
    descriptor changes, and who waits for them holds neither end, so that the
    reader sees the end of the input once the writer is done. *)
Fixpoint meaning (c : acmd) (fds : fdtable) (np : nat) : list event * nat :=
  match c with
  | AExec [] => ([], np)
  | AExec argv => ([Started argv fds], np)
  | ARedir c file mode fd => meaning c (<[fd := Some (ObFile file mode)]> fds) np
  | APipe l r =>
      let '(e1, np1) := meaning l (<[1%nat := Some (ObPipeW np)]> fds) (S np) in
      let '(e2, np2) := meaning r (<[0%nat := Some (ObPipeR np)]> fds) np1 in
      (e1 ++ e2 ++ [Waits fds; Waits fds], np2)
  | AList l r =>
      let '(e1, np1) := meaning l fds np in
      let '(e2, np2) := meaning r fds np1 in
      (e1 ++ Waits fds :: e2, np2)
  | ABack c => let '(e1, np1) := meaning c fds np in (e1 ++ [], np1)
  end.

(** Standard input and output are open, two more descriptors are free. *)
Record fds_ok (fds : fdtable) : Prop := {
  fd_in : exists o, fds !! 0%nat = Some (Some o);
  fd_out : exists o, fds !! 1%nat = Some (Some o);
  fd_free : exists n m, (n < m)%nat /\ lowest fds = Some n /\ forall o, lowest (<[n := Some o]> fds) = Some m }.

Lemma lowest_spec fds n : lowest fds = Some n -> fds !! n = Some None /\ forall i, (i < n)%nat -> exists o, fds !! i = Some (Some o).
Proof.
  revert n. induction fds as [|[o|] fds IH]; intros n H; cbn [lowest] in H; [done| |].
  - destruct (lowest fds) as [m|]; [|done]. injection H as <-. destruct (IH m eq_refl) as [H1 H2]. split; [done|].
    intros [|i] Hi; [by exists o|]. apply H2. lia.
  - injection H as <-. split; [done|]. intros i Hi. lia.
Qed.

Lemma lowest_intro fds n : fds !! n = Some None -> (forall i, (i < n)%nat -> exists o, fds !! i = Some (Some o)) -> lowest fds = Some n.
Proof.
  revert n. induction fds as [|x fds IH]; intros n H1 H2; [done|]. destruct n as [|n].
  - injection H1 as ->. done.
  - destruct (H2 0%nat ltac:(lia)) as [o [= ->]]. cbn [lowest]. rewrite (IH n); [done|done|].
    intros i Hi. apply (H2 (S i)). lia.
Qed.

(** The free descriptors are not standard input or output. *)
Lemma fds_ok_pipe fds : fds_ok fds -> exists n m, (1 < n < m)%nat /\ fds !! n = Some None /\ fds !! m = Some None /\
  lowest fds = Some n /\ forall o, lowest (<[n := Some o]> fds) = Some m.
Proof.
  intros [[i Hi] [j Hj] (n & m & Hlt & Hn & Hm)]. exists n, m. destruct (lowest_spec _ _ Hn) as [H1 _].
  destruct (lowest_spec _ _ (Hm (ObInherited 0))) as [H2 _]. rewrite list_lookup_insert_ne in H2 by lia.
  split_and!; try done. destruct n as [|[|n]]; [congruence|congruence|lia].
Qed.

Lemma fds_ok_insert fds i o : fds_ok fds -> (i < 2)%nat -> fds_ok (<[i := Some o]> fds).
Proof.
  intros Hf Hi. destruct (fds_ok_pipe fds Hf) as (n & m & Hnm & Hn & Hm & Ln & Lm). destruct Hf as [[a Ha] [b Hb] _].
  assert (Hl : (i < length fds)%nat) by (apply lookup_lt_Some in Hb; lia).
  assert (Hopen : forall k, (exists x, fds !! k = Some (Some x)) -> exists x, <[i := Some o]> fds !! k = Some (Some x)).
  { intros k [x Hx]. destruct (decide (i = k)) as [<-|]; [rewrite list_lookup_insert_eq by done; eauto|].
    rewrite list_lookup_insert_ne by done. eauto. }
  split; [eauto|eauto|]. exists n, m. split; [lia|]. split.
  - apply lowest_intro; [by rewrite list_lookup_insert_ne by lia|]. intros k Hk. apply Hopen. by apply (lowest_spec _ _ Ln).
  - intros o'. apply lowest_intro; [by rewrite !list_lookup_insert_ne by lia|]. intros k Hk.
    destruct (proj2 (lowest_spec _ _ (Lm o')) k Hk) as [x Hx].
    destruct (decide (k = n)) as [->|Hne].
    + rewrite list_lookup_insert_eq; [eauto|]. rewrite length_insert. by eapply lookup_lt_Some.
    + rewrite list_lookup_insert_ne in Hx |- * by done. apply Hopen. eauto.
Qed.

(** [close(fd); ...] of a standard descriptor makes it the lowest free one. *)
Lemma lowest_close fds fd : fds_ok fds -> (fd < 2)%nat -> lowest (<[fd := None]> fds) = Some fd.
Proof.
  intros [[a Ha] [b Hb] _] Hfd. assert (Hl : (fd < length fds)%nat) by (apply lookup_lt_Some in Hb; lia).
  apply lowest_intro; [by rewrite list_lookup_insert_eq|]. intros i Hi. assert (i = 0%nat /\ fd = 1%nat) as [-> ->] by lia.
  rewrite list_lookup_insert_ne by lia. eauto.
Qed.

(** The child of a pipe: one end becomes descriptor [fd], both are closed. *)
Lemma child_fds fds n m fd r w o : fds_ok fds -> (fd < 2)%nat -> (1 < n < m)%nat -> fds !! n = Some None -> fds !! m = Some None ->
  <[m := None]> (<[n := None]> (<[fd := Some o]> (<[fd := None]> (<[m := Some w]> (<[n := Some r]> fds))))) = <[fd := Some o]> fds.
Proof.
  intros Hf Hfd Hnm Hn Hm. apply list_eq. intros i.
  pose proof (lookup_lt_Some _ _ _ Hn). pose proof (lookup_lt_Some _ _ _ Hm).
  destruct (decide (i = m)) as [->|].
  { rewrite list_lookup_insert_eq by (by rewrite !length_insert). by rewrite list_lookup_insert_ne by lia. }
  rewrite list_lookup_insert_ne by done. destruct (decide (i = n)) as [->|].
  { rewrite list_lookup_insert_eq by (by rewrite !length_insert). by rewrite list_lookup_insert_ne by lia. }
  rewrite list_lookup_insert_ne by done. destruct (decide (i = fd)) as [->|].
  { rewrite !list_lookup_insert_eq by (rewrite ?length_insert; lia). done. }
  by rewrite !list_lookup_insert_ne by done.
Qed.

(** The parent of a pipe closes both ends. *)
Lemma parent_fds (fds : fdtable) n m r w : (n < m)%nat -> fds !! n = Some None -> fds !! m = Some None ->
  <[m := None]> (<[n := None]> (<[m := Some w]> (<[n := Some r]> fds))) = fds.
Proof.
  intros Hnm Hn Hm. rewrite (list_insert_insert_ne (<[n := Some r]> fds)) by lia.
  rewrite !list_insert_insert_eq.
  by rewrite (list_insert_id fds n), (list_insert_id fds m).
Qed.

Lemma run_child h buf f c fds n m fd (src : nat) o r w np :
  fds_ok fds -> (fd < 2)%nat -> (1 < n < m)%nat -> fds !! n = Some None -> fds !! m = Some None ->
  (src = n /\ o = r) \/ (src = m /\ o = w) ->
  run (sys (SClose (Z.of_nat fd)) (fun _ => sys (SDup (Z.of_nat src)) (fun _ => sys (SClose (Z.of_nat n)) (fun _ =>
       sys (SClose (Z.of_nat m)) (fun _ => runcmd h buf f c))))) (<[m := Some w]> (<[n := Some r]> fds)) np =
  run (runcmd h buf f c) (<[fd := Some o]> fds) np.
Proof.
  intros Hf Hfd Hnm Hn Hm Hsrc. pose proof (lookup_lt_Some _ _ _ Hn). pose proof (lookup_lt_Some _ _ _ Hm).
  unfold sys. cbn [run fst]. rewrite !Nat2Z.id.
  set (fds1 := <[m := Some w]> (<[n := Some r]> fds)).
  assert (Hl : lowest (<[fd := None]> fds1) = Some fd).
  { destruct Hf as [[a Ha] [b Hb] _]. apply lowest_intro; [apply list_lookup_insert_eq; unfold fds1; rewrite !length_insert; lia|].
    intros i Hi. assert (i = 0%nat /\ fd = 1%nat) as [-> ->] by lia. unfold fds1. rewrite !list_lookup_insert_ne by lia. eauto. }
  assert (Ho : <[fd := None]> fds1 !! src = Some (Some o)).
  { rewrite list_lookup_insert_ne by lia. unfold fds1. destruct Hsrc as [[-> ->]|[-> ->]].
    - rewrite list_lookup_insert_ne by lia. apply list_lookup_insert_eq. lia.
    - apply list_lookup_insert_eq. rewrite length_insert. lia. }
  rewrite Hl, Ho. unfold fds1. by rewrite child_fds.
Qed.

Lemma run_meaning fuel : forall h line es buf cmd fds np, heap_ok line es h -> (cmd < length h)%nat -> (cmd < fuel)%nat -> fds_ok fds ->
  run (runcmd h buf fuel cmd) fds np = meaning (tree fuel h buf cmd) fds np.
Proof.
  intros h line es buf. induction fuel as [|fuel IH]; intros cmd fds np Hh Hc Hf Hfd; [lia|]. cbn [runcmd tree].
  destruct (lookup_lt_is_Some_2 h cmd Hc) as [n Hn]. rewrite Hn. pose proof (Hh _ _ Hn) as Hok.
  destruct n as [argv eargv|c q e mode fd|l r|l r|c]; cbn [node_ok] in Hok; cbn [meaning].
  - by destruct (argv_strings buf argv).
  - destruct Hok as (Hlt & _ & Hfd01). unfold sys. cbn [run fst].
    assert (Hz : (Z.to_nat fd < 2)%nat) by (destruct Hfd01; subst; lia). rewrite lowest_close by done.
    rewrite (proj2 (Z.ltb_ge _ _)) by lia. rewrite list_insert_insert_eq. apply IH; [done|lia|lia|by apply fds_ok_insert].
  - destruct Hok as [Hl Hr]. destruct (fds_ok_pipe fds Hfd) as (n & m & Hnm & En & Em & Ln & Lm). cbn [run]. rewrite Ln, Lm.
    cbn [Z.ltb Z.compare]. unfold fork1 at 1. unfold sys at 1. cbn [run fst]. cbn [Z.eqb].
    change 1 with (Z.of_nat 1) at 1. rewrite (run_child h buf fuel l fds n m 1 m (ObPipeW np)) by (done || lia || by right).
    rewrite IH by (done || lia || by apply fds_ok_insert; [|lia]).
    destruct (meaning (tree fuel h buf l) (<[1%nat:=Some (ObPipeW np)]> fds) (S np)) as [e1 np1].
    unfold fork1, sys at 1. cbn [run fst Z.eqb].
    change 0 with (Z.of_nat 0) at 1. rewrite (run_child h buf fuel r fds n m 0 n (ObPipeR np)) by (done || lia || by left).
    rewrite IH by (done || lia || by apply fds_ok_insert; [|lia]).
    destruct (meaning (tree fuel h buf r) (<[0%nat:=Some (ObPipeR np)]> fds) np1) as [e2 np2]. unfold sys.
    cbn [run fst Z.eqb]. rewrite !Nat2Z.id, parent_fds by (done || lia). done.
  - destruct Hok as [Hl Hr]. unfold fork1, sys. cbn [run fst Z.eqb]. rewrite !IH by (done || lia).
    destruct (meaning (tree fuel h buf l) fds np) as [e1 np1]. rewrite IH by (done || lia).
    by destruct (meaning (tree fuel h buf r) fds np1).
  - unfold fork1, sys. cbn [run fst Z.eqb]. rewrite IH by (done || lia). by destruct (meaning (tree fuel h buf c) fds np).
Qed.

(** Properties of the shell. *)


(** What [parsecmd] does on a NUL-terminated buffer. *)
Lemma parsecmd_cases buf : 0 ∈ buf ->
  let es := Z.to_nat (strlen_bytes buf) in
  (exists msg, parsecmd buf = Failed msg) \/
  (exists cmd h, parsecmd buf = Parsed cmd h (nul_all (map snd (words (S cmd) h cmd)) buf) /\ (cmd < length h)%nat /\
     heap_ok buf es h /\ Forall (fun p => is_word buf es (fst p) (snd p)) (words (S cmd) h cmd)).
Proof.
  intros Hin es. destruct (strlen_bytes_spec buf Hin) as (H1 & H2 & H3 & _).
  pose proof (pwp_parsetree buf es H1 H2) as Hp. unfold pwp in Hp. unfold parsecmd. fold es.
  destruct (parsetree buf es []) as [cmd h|msg|what|]; [|by left; exists msg|done|done].
  destruct Hp as [Hc Hh]. right. exists cmd, h. destruct (nulterminate_spec buf es (S cmd) h cmd buf Hh Hc ltac:(lia)) as [-> Hw].
  done.
Qed.

(** C28: the parser of the shell is total.  Whatever the command line, a
    NUL-terminated buffer, [parsecmd] returns a command or exits with a
    message: the recursion ends, no argument is stored past the end of the
    argument arrays, and [nulterminate] meets only nodes of the heap. *)
Theorem parsecmd_total buf : 0 ∈ buf ->
  (exists cmd h buf', parsecmd buf = Parsed cmd h buf') \/ (exists msg, parsecmd buf = Failed msg).
Proof.
  intros Hin. destruct (parsecmd_cases buf Hin) as [[msg ->]|(cmd & h & -> & _)]; [right; eauto|left; eauto].
Qed.

(** The strings of a parsed command.  Every argument and file name of the
    command is, after [nulterminate], the C string of a maximal run of
    characters of the line that are neither white space nor symbols; and
    [nulterminate] writes inside the line only. *)
Theorem parsecmd_words buf cmd h buf' : 0 ∈ buf -> parsecmd buf = Parsed cmd h buf' ->
  length buf' = length buf /\
  (forall i, (Z.to_nat (strlen_bytes buf) < i)%nat -> buf' !! i = buf !! i) /\
  forall q e, (q, e) ∈ words (S cmd) h cmd ->
    is_word buf (Z.to_nat (strlen_bytes buf)) q e /\ cstring buf' q = slice buf q (e - q).
Proof.
  intros Hin Hp. destruct (strlen_bytes_spec buf Hin) as (H1 & H2 & H3 & _).
  destruct (parsecmd_cases buf Hin) as [[msg Hm]|(c & h' & Hm & Hc & Hh & Hw)]; rewrite Hm in Hp; [done|].
  injection Hp as <- <- <-. set (es := Z.to_nat (strlen_bytes buf)) in *. set (l := words (S c) h' c) in *.
  assert (Hends : forall i, i ∈ map snd l -> wordchar (at_ buf i) = false /\ (i <= es)%nat).
  { intros i ([q e] & -> & Hi)%list_elem_of_fmap. eapply Forall_forall in Hw; [|exact Hi]. destruct Hw as [W1 W2 W3]. simpl in *. split; [done|lia]. }
  split_and!; [apply length_nul_all| |].
  - intros i Hi. apply nul_all_other. intros Hi2%Hends. lia.
  - intros q e Hqe. eapply Forall_forall in Hw; [|exact Hqe]. simpl in Hw. split; [done|]. destruct Hw as [W1 W2 W3].
    assert (Hin2 : forall i, (q <= i < e)%nat -> nul_all (map snd l) buf !! i = buf !! i).
    { intros i Hi. apply nul_all_other. intros [Hi2 _]%Hends. by rewrite W2 in Hi2. }
    rewrite (cstring_run _ q e); [| lia| |].
    + apply list_eq. intros j. destruct (decide (j < e - q)%nat).
      * rewrite !lookup_slice by done. apply Hin2. lia.
      * rewrite !lookup_ge_None_2; [done|rewrite length_slice; [lia|]..]; rewrite ?length_nul_all; lia.
    + intros i Hi. rewrite Hin2 by done. specialize (H2 i ltac:(lia)). unfold at_ in H2. rewrite nth_lookup in H2.
      destruct (lookup_lt_is_Some_2 buf i) as [x Hx]; [lia|]. exists x. rewrite Hx in *. done.
    + apply nul_all_in; [|lia]. apply list_elem_of_fmap. by exists (q, e).
Qed.

(** C14: the shell runs what it parsed.  The process [runcmd] describes starts
    exactly the programs the command means, each with the descriptors the
    redirections and pipes around it ask for and no descriptor of a pipe
    besides, and while the shell waits it holds no end of a pipe it made. *)
Theorem runcmd_meaning buf cmd h buf' fds np : 0 ∈ buf -> parsecmd buf = Parsed cmd h buf' -> fds_ok fds ->
  run (runcmd h buf' (S cmd) cmd) fds np = meaning (tree (S cmd) h buf' cmd) fds np.
Proof.
  intros Hin Hp Hfd. destruct (parsecmd_cases buf Hin) as [[msg Hm]|(c & h' & Hm & Hc & Hh & _)]; rewrite Hm in Hp; [done|].
  injection Hp as <- <- _. eapply run_meaning; [exact Hh|done|lia|done].
Qed.

(** ** Witnesses: the line [a x|b>c] *)

Definition ex_line : list Z := [97; 32; 120; 124; 98; 62; 99; 10; 0].
Definition ex_fds : list (option obj) := map (fun n => Some (ObInherited n)) (seq 0 3) ++ repeat None 13.

Lemma ex_line_nul : 0 ∈ ex_line.
Proof. apply (bool_decide_unpack _). by vm_compute. Qed.

Definition ex_heap : heap := Eval vm_compute in match parsecmd ex_line with Parsed _ h _ => h | _ => [] end.
Definition ex_buf : list Z := Eval vm_compute in match parsecmd ex_line with Parsed _ _ b => b | _ => [] end.

Lemma ex_parse : parsecmd ex_line = Parsed 3 ex_heap ex_buf.
Proof. by vm_compute. Qed.

Lemma parsecmd_total_witness : exists cmd h buf', parsecmd ex_line = Parsed cmd h buf'.
Proof.
  destruct (parsecmd_total ex_line ex_line_nul) as [H|[msg H]]; [exact H|]. rewrite ex_parse in H. discriminate H.
Defined.

Lemma parsecmd_words_witness : cstring ex_buf 2 = slice ex_line 2 1.
Proof.
  destruct (parsecmd_words ex_line 3 ex_heap ex_buf ex_line_nul ex_parse) as (_ & _ & H).
  destruct (H 2%nat 3%nat) as [_ E]; [apply (bool_decide_unpack _); by vm_compute|exact E].
Defined.

Lemma runcmd_meaning_witness :
  fst (run (runcmd ex_heap ex_buf 4 3) ex_fds 0) =
  [Started [[97]; [120]] (<[1%nat := Some (ObPipeW 0)]> ex_fds);
   Started [[98]] (<[1%nat := Some (ObFile [99] 0x601)]> (<[0%nat := Some (ObPipeR 0)]> ex_fds));
   Waits ex_fds; Waits ex_fds].
Proof.
  rewrite (runcmd_meaning ex_line 3 ex_heap ex_buf ex_fds 0 ex_line_nul ex_parse); [by vm_compute|].
  split; [by eexists|by eexists|]. exists 3%nat, 4%nat. split; [lia|]. by split.
Defined.
