(* ===== verification/Ulib.v ===== *)
(** user/ulib.c: the C library of user programs. *)

From S2P Require Import Prelude Kstring.

(** ** Strings and memory

    Searches for a NUL are bounded by [fuel]; [None] means that there is none
    in that many bytes. *)

(** Copy up to and including the NUL. *)
Fixpoint strcpy (fuel : nat) (m : memory) (s t : Z) : option memory :=
  match fuel with
  | O => None
  | S f =>
      let c := rd m t in
      let m' := wr m s c in
      if c =? 0 then Some m' else strcpy f m' (s + 1) (t + 1)
  end.

(** Skip equal characters; the difference of the first that differ. *)
Fixpoint strcmp (fuel : nat) (m : memory) (p q : Z) : option Z :=
  match fuel with
  | O => None
  | S f =>
      if negb (rd m p =? 0) && (rd m p =? rd m q) then strcmp f m (p + 1) (q + 1)
      else Some (rd m p - rd m q)
  end.

(** [for(n = 0; s[n]; n++);] *)
Fixpoint ustrlen_loop (fuel : nat) (m : memory) (s n : Z) : option Z :=
  match fuel with
  | O => None
  | S f => if rd m (s + n) =? 0 then Some n else ustrlen_loop f m s (n + 1)
  end.
Definition ustrlen (fuel : nat) (m : memory) (s : Z) : option Z := ustrlen_loop fuel m s 0.

Fixpoint umemset_loop (n : nat) (m : memory) (dst c i : Z) : memory :=
  match n with
  | O => m
  | S n' => umemset_loop n' (wr m (dst + i) c) dst c (i + 1)
  end.
Definition umemset (m : memory) (dst c n : Z) : memory := umemset_loop (Z.to_nat n) m dst c 0.

(** The address of the first [c], or 0. *)
Fixpoint ustrchr (fuel : nat) (m : memory) (s c : Z) : option Z :=
  match fuel with
  | O => None
  | S f =>
      if rd m s =? 0 then Some 0
      else if rd m s =? c then Some s
      else ustrchr f m (s + 1) c
  end.

(** [memmove]: forwards when [src > dst], else backwards. *)
Fixpoint move_forward (n : nat) (m : memory) (dst src : Z) : memory :=
  match n with
  | O => m
  | S n' => move_forward n' (wr m dst (rd m src)) (dst + 1) (src + 1)
  end.
Fixpoint move_backward (n : nat) (m : memory) (dst src : Z) : memory :=
  match n with
  | O => m
  | S n' => move_backward n' (wr m (dst - 1) (rd m (src - 1))) (dst - 1) (src - 1)
  end.
Definition umemmove (m : memory) (vdst vsrc n : Z) : memory :=
  if vsrc >? vdst then move_forward (Z.to_nat n) m vdst vsrc
  else move_backward (Z.to_nat n) m (vdst + n) (vsrc + n).

Fixpoint umemcmp_loop (n : nat) (m : memory) (p1 p2 : Z) : Z :=
  match n with
  | O => 0
  | S n' =>
      if negb (rd m p1 =? rd m p2) then rd m p1 - rd m p2
      else umemcmp_loop n' m (p1 + 1) (p2 + 1)
  end.
Definition umemcmp (m : memory) (s1 s2 n : Z) : Z := umemcmp_loop (Z.to_nat n) m s1 s2.

Definition umemcpy (m : memory) (dst src n : Z) : memory := umemmove m dst src n.

(** ** Numbers *)

(** The digits at the start of a string, in decimal. *)
Fixpoint atoi_loop (s : list Z) (n : Z) : Z :=
  match s with
  | c :: s' => if (48 <=? c) && (c <=? 57) then atoi_loop s' (i32 (n * 10 + c - 48)) else n
  | [] => n
  end.
Definition atoi (s : list Z) : Z := atoi_loop s 0.

(** ** The routines agree with those of the kernel *)

Lemma move_forward_up n : forall m d s, move_forward n m d s = move_up m d s n.
Proof. induction n as [|n IH]; intros; [done|]. apply IH. Qed.
Lemma move_backward_down n : forall m d s, move_backward n m d s = move_down m d s n.
Proof. induction n as [|n IH]; intros; [done|]. apply IH. Qed.

(** The two [memmove]s choose their direction differently; on every memory
    they leave the same bytes, overlapping or not. *)
Lemma umemmove_rd m dst src n x : 0 <= n -> rd (umemmove m dst src n) x = rd (memmove m dst src n) x.
Proof.
  intros Hn. rewrite memmove_rd by done. unfold umemmove. destruct (Z.gtb_spec src dst).
  - rewrite move_forward_up, move_up_rd by lia. by rewrite Z2Nat.id.
  - rewrite move_backward_down, move_down_rd by lia. rewrite Z2Nat.id by done.
    replace (dst + n - n) with dst by lia. destruct (_ && _); [f_equal; lia|done].
Qed.
