(* ===== verification/Printf.v ===== *)
(** Formatted output: user/printf.c and kernel/printf.c.  The output is the
    list of characters given to [putc] or [consputc]. *)

From S2P Require Import Prelude Ulib.

(** ** Numbers *)

(** [do { buf[i++] = digits[x % base]; } while((x /= base) != 0)]: the digits
    of [x], the lowest first.  [x] is a [uint], so 32 steps are enough. *)
Fixpoint digit_loop (fuel : nat) (digits : list Z) (x base : Z) : list Z :=
  match fuel with
  | O => []
  | S f =>
      nth (Z.to_nat (x mod base)) digits 0 ::
      (if x / base =? 0 then [] else digit_loop f digits (x / base) base)
  end.

(** [printint(xx, base, sign)], the same in both files: the characters of
    [buf] from the last to the first. *)
Definition printint (digits : list Z) (xx base sgn : Z) : list Z :=
  let neg := negb (sgn =? 0) && (i32 xx <? 0) in
  let x := if neg then u32 (- i32 xx) else u32 xx in
  rev (digit_loop 32 digits x base ++ (if neg then [45] else [])).

(** [printptr]: two characters, then 16 digits from the top. *)
Fixpoint ptr_loop (n : nat) (digits : list Z) (x : Z) : list Z :=
  match n with
  | O => []
  | S n' => nth (Z.to_nat (Z.shiftr x 60)) digits 0 :: ptr_loop n' digits (u64 (Z.shiftl x 4))
  end.
Definition printptr (digits : list Z) (x : Z) : list Z := [48; 120] ++ ptr_loop 16 digits (u64 x).

(** String literals. *)
Fixpoint ascii_bytes (s : string) : list Z :=
  match s with
  | EmptyString => []
  | String c s' => Z.of_N (Ascii.N_of_ascii c) :: ascii_bytes s'
  end.

(** A string literal that ends in a newline. *)
Definition text_line (s : string) : list Z := ascii_bytes s ++ [10].

(** An argument of a variadic call: a word, or a pointer to a string, [None]
    for the null pointer. *)
Inductive varg :=
| VWord (x : Z)
| VStr (s : option (list Z)).

Definition null_string : list Z := [40; 110; 117; 108; 108; 41].

(** The result: the output, or undefined behaviour when an argument is
    missing or of the wrong type. *)
Definition emit_word (args : list varg) (f : Z -> list Z) : option (list Z * list varg) :=
  match args with VWord x :: args' => Some (f x, args') | _ => None end.
Definition emit_str (args : list varg) : option (list Z * list varg) :=
  match args with VStr s :: args' => Some (default null_string s, args') | _ => None end.

(** ** user/printf.c *)

Definition udigits : list Z := [48; 49; 50; 51; 52; 53; 54; 55; 56; 57; 65; 66; 67; 68; 69; 70].

(** The conversion [%c]. *)
Definition uconv (c : Z) (args : list varg) : option (list Z * list varg) :=
  if c =? 100 then emit_word args (fun x => printint udigits x 10 1)
  else if c =? 108 then emit_word args (fun x => printint udigits x 10 0)
  else if c =? 120 then emit_word args (fun x => printint udigits x 16 0)
  else if c =? 112 then emit_word args (fun x => printptr udigits x)
  else if c =? 115 then emit_str args
  else if c =? 99 then emit_word args (fun x => [u8 x])
  else if c =? 37 then Some ([c], args)
  else Some ([37; c], args).

(** The loop of [vprintf]; [pct] is [state == '%']. *)
Fixpoint vprintf (fmt : list Z) (pct : bool) (args : list varg) : option (list Z) :=
  match fmt with
  | [] => Some []
  | c :: fmt' =>
      if c =? 0 then Some []
      else if pct then
        r ← uconv c args;
        rest ← vprintf fmt' false (snd r);
        Some (fst r ++ rest)
      else if c =? 37 then vprintf fmt' true args
      else rest ← vprintf fmt' false args; Some (c :: rest)
  end.

Definition uprintf (fmt : list Z) (args : list varg) : option (list Z) := vprintf fmt false args.

(** ** kernel/printf.c *)

Definition kdigits : list Z := [48; 49; 50; 51; 52; 53; 54; 55; 56; 57; 97; 98; 99; 100; 101; 102].

Definition kconv (c : Z) (args : list varg) : option (list Z * list varg) :=
  if c =? 100 then emit_word args (fun x => printint kdigits x 10 1)
  else if c =? 120 then emit_word args (fun x => printint kdigits x 16 1)
  else if c =? 112 then emit_word args (fun x => printptr kdigits x)
  else if c =? 115 then emit_str args
  else if c =? 37 then Some ([37], args)
  else Some ([37; c], args).

(** The loop of [printf]. *)
Fixpoint kprintf_loop (fmt : list Z) (args : list varg) : option (list Z) :=
  match fmt with
  | [] => Some []
  | c :: fmt' =>
      if c =? 0 then Some []
      else if negb (c =? 37) then rest ← kprintf_loop fmt' args; Some (c :: rest)
      else
        match fmt' with
        | [] => Some []
        | c :: fmt'' =>
            if c =? 0 then Some []
            else
              r ← kconv c args;
              rest ← kprintf_loop fmt'' (snd r);
              Some (fst r ++ rest)
        end
  end.

(** ** The digits of a number *)

Definition digit_val (d : Z) : Z := d - 48.

(** The value of decimal digits, the lowest first. *)
Fixpoint dec_value (l : list Z) : Z :=
  match l with
  | [] => 0
  | d :: l' => digit_val d + 10 * dec_value l'
  end.

Definition is_digit (c : Z) : Prop := 48 <= c <= 57.

(** Both tables begin with the decimal digits. *)
Definition decimal_table (digits : list Z) : Prop := forall k, (k < 10)%nat -> nth k digits 0 = 48 + Z.of_nat k.

Lemma udigits_decimal : decimal_table udigits.
Proof. intros k Hk. do 10 (destruct k as [|k]; [done|]). lia. Qed.
Lemma kdigits_decimal : decimal_table kdigits.
Proof. intros k Hk. do 10 (destruct k as [|k]; [done|]). lia. Qed.

Lemma digit_loop_dec digits fuel : decimal_table digits -> forall x, 0 <= x < 2 ^ Z.of_nat fuel ->
  Forall is_digit (digit_loop fuel digits x 10) /\ dec_value (digit_loop fuel digits x 10) = x.
Proof.
  intros Hd. induction fuel as [|fuel IH]; intros x Hx.
  { change (2 ^ Z.of_nat 0) with 1 in Hx. split; [constructor|]. simpl. lia. }
  cbn [digit_loop]. pose proof (Z.mod_pos_bound x 10 ltac:(lia)) as Hm. pose proof (Z.div_mod x 10 ltac:(lia)) as Edm.
  assert (Hn : nth (Z.to_nat (x mod 10)) digits 0 = 48 + x mod 10) by (rewrite Hd by lia; lia).
  assert (Hq : 0 <= x / 10 < 2 ^ Z.of_nat fuel).
  { split; [apply Z.div_pos; lia|]. rewrite Nat2Z.inj_succ, Z.pow_succ_r in Hx by lia. apply Z.div_lt_upper_bound; lia. }
  destruct (IH _ Hq) as [H1 H2]. rewrite Hn. destruct (Z.eqb_spec (x / 10) 0) as [E|E].
  - split; [apply Forall_singleton; unfold is_digit; lia|]. cbn. unfold digit_val. lia.
  - split; [apply Forall_cons; split; [unfold is_digit; lia|done]|]. cbn [dec_value]. rewrite H2. unfold digit_val. lia.
Qed.

Lemma digit_loop_length digits base fuel : forall x, 2 <= base -> 0 <= x < 2 ^ Z.of_nat fuel ->
  forall n, (0 < n)%nat -> x < base ^ Z.of_nat n -> (length (digit_loop fuel digits x base) <= n)%nat.
Proof.
  induction fuel as [|fuel IH]; intros x Hb Hx n Hn Hlt; [simpl; lia|]. cbn [digit_loop].
  destruct (Z.eqb_spec (x / base) 0) as [E|E]; [simpl; lia|]. cbn [length].
  destruct n as [|[|n]]; [lia| |].
  - exfalso. apply E. apply Z.div_small. change (Z.of_nat 1) with 1 in Hlt. rewrite Z.pow_1_r in Hlt. lia.
  - apply le_n_S, IH; [done| |lia|].
    + split; [apply Z.div_pos; lia|]. rewrite Nat2Z.inj_succ, Z.pow_succ_r in Hx by lia. apply Z.div_lt_upper_bound; nia.
    + apply Z.div_lt_upper_bound; [lia|]. rewrite (Nat2Z.inj_succ (S n)), Z.pow_succ_r in Hlt by lia. lia.
Qed.

(** [atoi] reads digits from the highest; the value must fit an [int]. *)
Lemma atoi_loop_digits l : forall n, Forall is_digit l -> 0 <= n -> n * 10 ^ Z.of_nat (length l) + dec_value (rev l) < 2 ^ 31 ->
  forall rest, (forall c, head rest = Some c -> ~ is_digit c) -> atoi_loop (l ++ rest) n = n * 10 ^ Z.of_nat (length l) + dec_value (rev l).
Proof.
  assert (Happ : forall a b, dec_value (a ++ b) = dec_value a + 10 ^ Z.of_nat (length a) * dec_value b).
  { induction a as [|x a IH]; intros b; [change (10 ^ Z.of_nat (length (@nil Z))) with 1; cbn [app dec_value]; lia|].
    cbn [app dec_value length]. rewrite IH, Nat2Z.inj_succ, Z.pow_succ_r by lia. lia. }
  assert (Hpos : forall a, Forall is_digit a -> 0 <= dec_value a).
  { induction 1 as [|x a Hx _ IH]; cbn [dec_value]; [lia|]. unfold is_digit, digit_val in *. lia. }
  induction l as [|c l IH]; intros n Hl Hn Hlt rest Hrest; cbn [app].
  - change (10 ^ Z.of_nat (length (@nil Z))) with 1. cbn [rev dec_value]. destruct rest as [|c rest]; cbn [atoi_loop]; [lia|].
    specialize (Hrest c eq_refl). unfold is_digit in Hrest.
    destruct (Z.leb_spec 48 c), (Z.leb_spec c 57); cbn [andb]; lia.
  - apply Forall_cons in Hl as [Hc Hl]. unfold is_digit in Hc. cbn [atoi_loop].
    rewrite (proj2 (Z.leb_le 48 c)), (proj2 (Z.leb_le c 57)) by lia. cbn [andb].
    cbn [rev length] in *. rewrite Happ, length_rev in *. cbn [dec_value] in *. unfold digit_val in *.
    rewrite Nat2Z.inj_succ, Z.pow_succ_r in * by lia.
    pose proof (Hpos (rev l) ltac:(by apply Forall_rev)) as Hr. pose proof (Z.pow_pos_nonneg 10 (Z.of_nat (length l)) ltac:(lia) ltac:(lia)) as Hp.
    set (P10 := 10 ^ Z.of_nat (length l)) in *. set (R := dec_value (rev l)) in *.
    assert (Hb : 0 <= n * 10 + c - 48 < 2 ^ 31) by nia. rewrite i32_small by lia.
    rewrite IH; [fold P10 R; nia|done|lia|fold P10 R; nia|done].
Qed.

(** ** Properties *)

(** Decimal output.  [%d] of an [int], in the kernel and in user programs,
    prints its decimal digits after a minus sign when it is negative, the
    smallest [int] included, within the 16 characters of the buffer; and
    [atoi] reads what [%d] printed. *)
Theorem printint_decimal digits xx : decimal_table digits -> - 2 ^ 31 <= xx < 2 ^ 31 ->
  exists ds, printint digits xx 10 1 = (if xx <? 0 then [45] else []) ++ ds /\ Forall is_digit ds /\
    dec_value (rev ds) = Z.abs xx /\ (length (printint digits xx 10 1) <= 16)%nat /\
    (0 <= xx -> atoi (printint digits xx 10 1 ++ [0]) = xx).
Proof.
  intros Hd Hx. unfold printint. rewrite i32_small by lia. cbn [Z.eqb negb andb].
  set (x := if xx <? 0 then u32 (- xx) else u32 xx).
  assert (Ex : x = Z.abs xx).
  { unfold x. clear x. destruct (Z.ltb_spec xx 0); rewrite u32_small by lia; lia. }
  destruct (digit_loop_dec digits 32 Hd x) as [H1 H2]; [change (2 ^ Z.of_nat 32) with 4294967296; lia|].
  assert (H3 : (length (digit_loop 32 digits x 10) <= 10)%nat).
  { apply (digit_loop_length digits 10 32 x); [lia|change (2 ^ Z.of_nat 32) with 4294967296; lia|lia|].
    change (10 ^ Z.of_nat 10) with 10000000000. lia. }
  set (dl := digit_loop 32 digits x 10) in *. clearbody dl. exists (rev dl). rewrite rev_app_distr. split_and!.
  - by destruct (xx <? 0).
  - by apply Forall_rev.
  - by rewrite rev_involutive, H2.
  - rewrite length_app, !length_rev. destruct (xx <? 0); simpl; lia.
  - intros Hpos. rewrite (proj2 (Z.ltb_ge _ _)) by lia. cbn [rev app]. unfold atoi.
    rewrite (atoi_loop_digits (rev dl) 0);
      rewrite ?rev_involutive, ?H2; [lia|by apply Forall_rev|lia|lia|].
    intros c [= <-]. unfold is_digit. lia.
Qed.

Lemma printint_decimal_witness : exists ds, printint udigits (-2147483648) 10 1 = 45 :: ds /\ dec_value (rev ds) = 2147483648.
Proof.
  destruct (printint_decimal udigits (-2147483648) udigits_decimal ltac:(lia)) as (ds & H1 & _ & H2 & _).
  exists ds. split; [exact H1|exact H2].
Defined.

(** [%l] of the user [printf] takes a 64-bit argument and passes it to
    [printint(int, int, int, int)]: the upper 32 bits are lost. *)
Theorem uprintf_l_truncates x : uprintf [37; 108; 0] [VWord x] = uprintf [37; 108; 0] [VWord (u32 x)].
Proof.
  assert (H : forall y, uprintf [37; 108; 0] [VWord y] = Some (printint udigits y 10 0 ++ [])) by done.
  rewrite !H. do 2 f_equal. unfold printint. rewrite Z.eqb_refl. simpl (negb true && _). cbv iota.
  by rewrite (u32_small (u32 x)) by apply u32_range.
Qed.
