(* ===== verification/Uprog.v ===== *)
(** User programs as trees of system calls: the routines of user/ulib.c and
    user/printf.c that make calls, what the kernel answers to the calls on
    files, and the total correctness of a program against those answers. *)

From S2P Require Import Prelude Sysfile Ulib Printf.

(** ** Programs *)

Inductive ucall :=
| UOpen (path : list Z) (mode : Z)
| UClose (fd : Z)
| URead (fd n : Z)
| UWrite (fd : Z) (bytes : list Z)
| UFstat (fd : Z)
| UFork
| UWait
| UExec (path : list Z) (argv : list (list Z))
| UDup (fd : Z)
| UPipe
| UMknod (path : list Z) (major minor : Z)
| ULink (old new : list Z)
| UMkdir (path : list Z)
| UUnlink (path : list Z)
| UChdir (path : list Z)
| UKill (pid : Z)
| USleep (n : Z).

(** What a call returns in a0, and the bytes the kernel stores for it. *)
Record ures := Ures { ur_ret : Z; ur_data : list Z }.

(** A program returns, exits, makes a call, has undefined behaviour, or is cut
    off after the number of rounds its loops were given. *)
Inductive uprog (A : Type) :=
| URet (a : A)
| UExit (status : Z)
| UCall (c : ucall) (k : ures -> uprog A)
| UBad
| UFuel.
Arguments URet {A} _.
Arguments UExit {A} _.
Arguments UCall {A} _ _.
Arguments UBad {A}.
Arguments UFuel {A}.

#[global] Instance uprog_ret : MRet uprog := @URet.
Fixpoint ubind {A B} (f : A -> uprog B) (m : uprog A) : uprog B :=
  match m with
  | URet a => f a
  | UExit s => UExit s
  | UCall c k => UCall c (fun r => ubind f (k r))
  | UBad => UBad
  | UFuel => UFuel
  end.
#[global] Instance uprog_bind : MBind uprog := fun A B f m => ubind f m.

Definition call (c : ucall) : uprog ures := UCall c URet.
Definition call1 (c : ucall) : uprog Z := UCall c (fun r => URet (ur_ret r)).

(** ** user/printf.c *)

Definition putc (fd c : Z) : uprog () := UCall (UWrite fd [c]) (fun _ => URet ()).
Fixpoint putcs (fd : Z) (l : list Z) : uprog () :=
  match l with
  | [] => mret ()
  | c :: l' => putc fd c;; putcs fd l'
  end.

(** The bytes of [uprintf], one call of [putc] each. *)
Definition fprintf (fd : Z) (fmt : list Z) (args : list varg) : uprog () :=
  match uprintf fmt args with
  | Some l => putcs fd l
  | None => UBad
  end.
Definition printf (fmt : list Z) (args : list varg) : uprog () := fprintf 1 fmt args.

(** ** user/ulib.c *)

Definition _main (main : uprog ()) : uprog () := main;; UExit 0.

(** [stat]: the result, and the bytes of the struct when the calls succeed. *)
Definition ustat (n : list Z) : uprog (Z * list Z) :=
  fd ← call1 (UOpen n O_RDONLY);
  if fd <? 0 then mret (-1, [])
  else
    r ← call (UFstat fd);
    call1 (UClose fd);;
    mret (ur_ret r, ur_data r).

(** [gets(buf, max)]: the bytes before the NUL it stores; [n] more fit. *)
Fixpoint gets_loop (n : nat) : uprog (list Z) :=
  match n with
  | O => mret []
  | S n' =>
      r ← call (URead 0 1);
      if ur_ret r <? 1 then mret []
      else
        let c := nth 0 (ur_data r) 0 in
        if (c =? 10) || (c =? 13) then mret [c]
        else l ← gets_loop n'; mret (c :: l)
  end.
Definition ugets (max : Z) : uprog (list Z) := gets_loop (Z.to_nat (max - 1)).

(** ** What the kernel answers

    The files by path, the unread bytes of each open descriptor, and what was
    written to descriptors 1 and 2.  A read returns any non-empty part of what
    is unread, up to the count asked for, and nothing at the end only.  When
    [u_faulty], reads of files and writes to descriptor 1 may fail.  [u_forks]
    counts the children, and [u_dirs] are the directories [chdir] went to. *)
Record ust := Ust {
  u_files : gmap (list Z) (list Z);
  u_fd : gmap Z (list Z);
  u_out : list Z;
  u_err : list Z;
  u_faulty : bool;
  u_forks : nat;
  u_dirs : list (list Z) }.

Definition u_set_fd (s : ust) (m : gmap Z (list Z)) : ust := Ust (u_files s) m (u_out s) (u_err s) (u_faulty s) (u_forks s) (u_dirs s).
Definition u_add_out (s : ust) (l : list Z) : ust := Ust (u_files s) (u_fd s) (u_out s ++ l) (u_err s) (u_faulty s) (u_forks s) (u_dirs s).
Definition u_add_err (s : ust) (l : list Z) : ust := Ust (u_files s) (u_fd s) (u_out s) (u_err s ++ l) (u_faulty s) (u_forks s) (u_dirs s).
Definition u_forked (s : ust) : ust := Ust (u_files s) (u_fd s) (u_out s) (u_err s) (u_faulty s) (S (u_forks s)) (u_dirs s).
Definition u_went (s : ust) (d : list Z) : ust := Ust (u_files s) (u_fd s) (u_out s) (u_err s) (u_faulty s) (u_forks s) (u_dirs s ++ [d]).

Inductive ustep : ucall -> ust -> ures -> ust -> Prop :=
| step_open path mode data fd s : mode = O_RDONLY \/ mode = O_RDWR ->
    u_files s !! path = Some data -> 3 <= fd -> u_fd s !! fd = None ->
    ustep (UOpen path mode) s (Ures fd []) (u_set_fd s (<[fd := data]> (u_fd s)))
| step_open_missing path mode s : u_files s !! path = None ->
    ustep (UOpen path mode) s (Ures (-1) []) s
| step_close fd data s : u_fd s !! fd = Some data ->
    ustep (UClose fd) s (Ures 0 []) (u_set_fd s (delete fd (u_fd s)))
| step_read fd n got rest s : u_fd s !! fd = Some (got ++ rest) -> Z.of_nat (length got) <= n ->
    (0 < n -> got = [] -> rest = []) ->
    ustep (URead fd n) s (Ures (Z.of_nat (length got)) got) (u_set_fd s (<[fd := rest]> (u_fd s)))
| step_read_fault fd n s : u_faulty s = true ->
    ustep (URead fd n) s (Ures (-1) []) s
| step_write_out bytes s :
    ustep (UWrite 1 bytes) s (Ures (Z.of_nat (length bytes)) []) (u_add_out s bytes)
| step_write_fault bytes s : u_faulty s = true ->
    ustep (UWrite 1 bytes) s (Ures (-1) []) s
| step_write_err bytes s :
    ustep (UWrite 2 bytes) s (Ures (Z.of_nat (length bytes)) []) (u_add_err s bytes)
| step_fork pid s : 0 < pid ->
    ustep UFork s (Ures pid []) (u_forked s)
| step_wait pid s :
    ustep UWait s (Ures pid []) s
| step_chdir path s :
    ustep (UChdir path) s (Ures 0 []) (u_went s path).

(** ** Total correctness

    [uwp R p Q s]: from [s], whatever the kernel answers, the program ends, by
    returning [inl a] or exiting with [inr status], in a state of [Q]; every
    call it makes has an answer, and the [n]th child it forks runs a program of
    [R n]. *)
Fixpoint uwp {A} (R : nat -> uprog A -> Prop) (p : uprog A) (Q : A + Z -> ust -> Prop) (s : ust) : Prop :=
  match p with
  | URet a => Q (inl a) s
  | UExit z => Q (inr z) s
  | UCall c k =>
      (exists r s', ustep c s r s') /\
      (c = UFork -> R (u_forks s) (k (Ures 0 []))) /\
      forall r s', ustep c s r s' -> uwp R (k r) Q s'
  | UBad | UFuel => False
  end.

(** Programs that fork no child. *)
Definition no_child {A} (n : nat) (p : uprog A) : Prop := False.

Lemma uwp_mono {A} R (p : uprog A) : forall (Q Q' : A + Z -> ust -> Prop) s,
  (forall x t, Q x t -> Q' x t) -> uwp R p Q s -> uwp R p Q' s.
Proof.
  induction p as [a|z|c k IH| |]; intros Q Q' s HQ; cbn [uwp]; [by apply HQ|by apply HQ| |done|done].
  intros (H1 & H2 & H3). split_and!; [done|done|]. intros r s' Hs. eapply IH; [done|by apply H3].
Qed.

(** What follows the first part. *)
Definition after {A B} (R : nat -> uprog B -> Prop) (f : A -> uprog B) (Q : B + Z -> ust -> Prop) (x : A + Z) (s : ust) : Prop :=
  match x with
  | inl a => uwp R (f a) Q s
  | inr z => Q (inr z) s
  end.

Lemma uwp_bind {A B} R (m : uprog A) (f : A -> uprog B) Q : forall s,
  uwp (fun n c => R n (ubind f c)) m (after R f Q) s -> uwp R (m ≫= f) Q s.
Proof.
  unfold mbind, uprog_bind. induction m as [a|z|c k IH| |]; intros s; cbn [uwp ubind]; [done|done| |done|done].
  intros (H1 & H2 & H3). split_and!; [done|done|]. intros r s' Hs. by apply IH, H3.
Qed.

(** A first part that forks no child. *)
Lemma uwp_child {A} (R R' : nat -> uprog A -> Prop) p Q : forall s,
  (forall n c, R n c -> R' n c) -> uwp R p Q s -> uwp R' p Q s.
Proof.
  induction p as [a|z|c k IH| |]; intros s HR; cbn [uwp]; [done|done| |done|done].
  intros (H1 & H2 & H3). split_and!; [done|by eauto|]. intros r s' Hs. apply IH; [done|by apply H3].
Qed.

Lemma uwp_seq {A B} R (m : uprog A) (f : A -> uprog B) Q Q' s :
  uwp no_child m Q' s -> (forall x t, Q' x t -> after R f Q x t) -> uwp R (ubind f m) Q s.
Proof. intros Hm HQ. apply uwp_bind. eapply uwp_child; [|eapply uwp_mono; [exact HQ|exact Hm]]. by intros n c []. Qed.

(** ** The calls *)

(** Bring the next call to the head. *)
Ltac next_call := cbv [mbind uprog_bind mret uprog_ret call call1]; cbn [ubind ur_ret ur_data].

Lemma uwp_write_out {A} R bytes (k : ures -> uprog A) Q s :
  uwp R (k (Ures (Z.of_nat (length bytes)) [])) Q (u_add_out s bytes) ->
  (u_faulty s = true -> uwp R (k (Ures (-1) [])) Q s) -> uwp R (UCall (UWrite 1 bytes) k) Q s.
Proof.
  intros H1 H2. cbn [uwp]. split_and!; [eexists _, _; apply step_write_out|done|]. intros r s' Hs. inversion Hs; subst; [done|by apply H2].
Qed.

Lemma uwp_write_err {A} R bytes (k : ures -> uprog A) Q s :
  uwp R (k (Ures (Z.of_nat (length bytes)) [])) Q (u_add_err s bytes) -> uwp R (UCall (UWrite 2 bytes) k) Q s.
Proof. intros H1. cbn [uwp]. split_and!; [eexists _, _; apply step_write_err|done|]. intros r s' Hs. by inversion Hs; subst. Qed.

Lemma uwp_read {A} R fd n data (k : ures -> uprog A) Q s : u_fd s !! fd = Some data -> 0 <= n ->
  (forall got rest, data = got ++ rest -> Z.of_nat (length got) <= n -> (0 < n -> got = [] -> rest = []) ->
    uwp R (k (Ures (Z.of_nat (length got)) got)) Q (u_set_fd s (<[fd := rest]> (u_fd s)))) ->
  (u_faulty s = true -> uwp R (k (Ures (-1) [])) Q s) -> uwp R (UCall (URead fd n) k) Q s.
Proof.
  intros Hfd Hn H1 H2. cbn [uwp]. split_and!; [|done|].
  - eexists _, _. apply (step_read fd n (take (Z.to_nat n) data) (drop (Z.to_nat n) data)); [by rewrite take_drop|rewrite length_take; lia|].
    intros Hp Ht. destruct data as [|b data]; [by rewrite drop_nil|]. by destruct (Z.to_nat n) as [|m] eqn:E; [lia|].
  - intros r s' Hs. inversion Hs; subst; [|by apply H2]. simplify_eq. by apply H1.
Qed.

(** There is always a free descriptor. *)
Lemma free_fd (m : gmap Z (list Z)) : exists fd, 3 <= fd /\ m !! fd = None.
Proof.
  set (X := set_map (D := gset nat) (fun z => Z.to_nat (z - 3)) (dom m)).
  exists (3 + Z.of_nat (fresh X)). split; [lia|]. apply not_elem_of_dom. intros Hin.
  apply (is_fresh X). apply elem_of_map. exists (3 + Z.of_nat (fresh X)). split; [lia|done].
Qed.

Lemma uwp_open {A} R path mode data (k : ures -> uprog A) Q s :
  mode = O_RDONLY \/ mode = O_RDWR -> u_files s !! path = Some data ->
  (forall fd, 3 <= fd -> u_fd s !! fd = None -> uwp R (k (Ures fd [])) Q (u_set_fd s (<[fd := data]> (u_fd s)))) ->
  uwp R (UCall (UOpen path mode) k) Q s.
Proof.
  intros Hm Hp H1. cbn [uwp]. split_and!; [|done|].
  - destruct (free_fd (u_fd s)) as (fd & F1 & F2). eexists _, _. by apply (step_open path mode data fd).
  - intros r s' Hs. inversion Hs; subst; [|congruence]. simplify_eq. by apply H1.
Qed.

Lemma uwp_open_missing {A} R path mode (k : ures -> uprog A) Q s : u_files s !! path = None ->
  uwp R (k (Ures (-1) [])) Q s -> uwp R (UCall (UOpen path mode) k) Q s.
Proof.
  intros Hp H1. cbn [uwp]. split_and!; [eexists _, _; by apply step_open_missing|done|].
  intros r s' Hs. inversion Hs; subst; [congruence|done].
Qed.

Lemma uwp_close {A} R fd data (k : ures -> uprog A) Q s : u_fd s !! fd = Some data ->
  uwp R (k (Ures 0 [])) Q (u_set_fd s (delete fd (u_fd s))) -> uwp R (UCall (UClose fd) k) Q s.
Proof.
  intros Hp H1. cbn [uwp]. split_and!; [eexists _, _; by eapply step_close|done|].
  intros r s' Hs. by inversion Hs; subst.
Qed.

Lemma uwp_fork {A} R (k : ures -> uprog A) Q s : R (u_forks s) (k (Ures 0 [])) ->
  (forall pid, 0 < pid -> uwp R (k (Ures pid [])) Q (u_forked s)) -> uwp R (UCall UFork k) Q s.
Proof.
  intros H1 H2. cbn [uwp]. split_and!; [eexists _, _; by apply (step_fork 1)|done|].
  intros r s' Hs. inversion Hs; subst. by apply H2.
Qed.

Lemma uwp_wait {A} R (k : ures -> uprog A) Q s : (forall pid, uwp R (k (Ures pid [])) Q s) -> uwp R (UCall UWait k) Q s.
Proof.
  intros H1. cbn [uwp]. split_and!; [eexists _, _; by apply (step_wait 1)|done|].
  intros r s' Hs. inversion Hs; subst. by apply H1.
Qed.

Lemma uwp_chdir {A} R path (k : ures -> uprog A) Q s : uwp R (k (Ures 0 [])) Q (u_went s path) -> uwp R (UCall (UChdir path) k) Q s.
Proof.
  intros H1. cbn [uwp]. split_and!; [eexists _, _; by apply step_chdir|done|]. intros r s' Hs. by inversion Hs; subst.
Qed.

(** ** Output *)

Lemma u_add_out_nil s : u_add_out s [] = s.
Proof. destruct s. unfold u_add_out. simpl. by rewrite app_nil_r. Qed.
Lemma u_add_out_app s l l' : u_add_out (u_add_out s l) l' = u_add_out s (l ++ l').
Proof. unfold u_add_out. simpl. by rewrite app_assoc. Qed.
Lemma u_add_err_nil s : u_add_err s [] = s.
Proof. destruct s. unfold u_add_err. simpl. by rewrite app_nil_r. Qed.
Lemma u_add_err_app s l l' : u_add_err (u_add_err s l) l' = u_add_err s (l ++ l').
Proof. unfold u_add_err. simpl. by rewrite app_assoc. Qed.
Lemma u_set_fd_twice s m m' : u_set_fd (u_set_fd s m) m' = u_set_fd s m'.
Proof. done. Qed.
Lemma u_set_fd_same s : u_set_fd s (u_fd s) = s.
Proof. by destruct s. Qed.

Lemma putcs_err R l Q : forall s, Q (inl ()) (u_add_err s l) -> uwp R (putcs 2 l) Q s.
Proof.
  induction l as [|c l IH]; intros s HQ; cbn [putcs]; [by rewrite u_add_err_nil in HQ|].
  apply (uwp_write_err R [c] (fun _ => putcs 2 l)), IH. by rewrite u_add_err_app.
Qed.

Lemma putcs_out R l Q : forall s, u_faulty s = false -> Q (inl ()) (u_add_out s l) -> uwp R (putcs 1 l) Q s.
Proof.
  induction l as [|c l IH]; intros s Hf HQ; cbn [putcs]; [by rewrite u_add_out_nil in HQ|].
  apply (uwp_write_out R [c] (fun _ => putcs 1 l)); [|congruence]. apply IH; [done|]. by rewrite u_add_out_app.
Qed.

Lemma fprintf_err R fmt args l Q s : uprintf fmt args = Some l -> Q (inl ()) (u_add_err s l) -> uwp R (fprintf 2 fmt args) Q s.
Proof. unfold fprintf. intros ->. apply putcs_err. Qed.
Lemma printf_out R fmt args l Q s : uprintf fmt args = Some l -> u_faulty s = false -> Q (inl ()) (u_add_out s l) ->
  uwp R (printf fmt args) Q s.
Proof. unfold printf, fprintf. intros ->. apply putcs_out. Qed.

(** ** Programs that handle the files their arguments name *)

(** The loop over the arguments of cat, wc and grep: [f] handles an open file,
    [err] reports one that cannot be opened. *)
Fixpoint each_file (f : Z -> list Z -> uprog ()) (err : list Z -> uprog ()) (args : list (list Z)) : uprog () :=
  match args with
  | [] => mret ()
  | a :: args' =>
      fd ← call1 (UOpen a 0);
      if fd <? 0 then
        err a;;
        UExit 1
      else
        f fd a;;
        call1 (UClose fd);;
        each_file f err args'
  end.

Definition contents (s : ust) (a : list Z) : list Z := default [] (u_files s !! a).

Section each_file.
Variables (f : Z -> list Z -> uprog ()) (err : list Z -> uprog ()).
Variable ok : list Z -> Prop.
Variable out : list Z -> list Z -> list Z.

(** [f] writes [out] of the file's name and contents, and reads the file. *)
Hypothesis f_spec : forall fd a data s (Q : () + Z -> ust -> Prop), u_fd s !! fd = Some data -> u_faulty s = false -> ok data ->
  (forall rest, Q (inl ()) (u_set_fd (u_add_out s (out a data)) (<[fd := rest]> (u_fd s)))) ->
  uwp no_child (f fd a) Q s.

Definition outs (s : ust) (args : list (list Z)) : list Z := concat (map (fun a => out a (contents s a)) args).

Definition all_ok (s : ust) (args : list (list Z)) : Prop :=
  Forall (fun a => exists data, u_files s !! a = Some data /\ ok data) args.

Lemma each_file_app pre post Q : forall s, u_faulty s = false -> all_ok s pre ->
  uwp no_child (each_file f err post) Q (u_add_out s (outs s pre)) ->
  uwp no_child (each_file f err (pre ++ post)) Q s.
Proof using f_spec.
  unfold outs. induction pre as [|a pre IH]; intros s Hs Hok HQ; cbn [map concat app] in *; [by rewrite u_add_out_nil in HQ|].
  apply Forall_cons in Hok as [(data & Ha & Hd) Hok]. cbn [each_file].
  next_call. apply (uwp_open _ a 0 data _ _ s (or_introl eq_refl) Ha). intros fd F1 F2. next_call. rewrite (proj2 (Z.ltb_ge fd 0)) by lia.
  eapply uwp_seq; [eapply f_spec; [apply lookup_insert_eq|exact Hs|exact Hd|]|].
  { intros rest. instantiate (1 := fun x t => x = inl () /\ exists rest, t = u_set_fd (u_add_out s (out a data)) (<[fd := rest]> (u_fd s))).
    split; [done|]. exists rest. unfold u_set_fd, u_add_out. cbn. by rewrite insert_insert_eq. }
  intros x t [-> (rest & ->)]. cbn [after]. eapply (uwp_close _ fd rest); [apply lookup_insert_eq|]. cbn [u_fd u_set_fd].
  rewrite delete_insert_id by done.
  replace (u_set_fd _ _) with (u_add_out s (out a data)) by (by destruct s).
  apply IH; [done|done|]. rewrite u_add_out_app. unfold contents in HQ |- *. cbn [u_files u_add_out] in *. by rewrite Ha in HQ.
Qed.

(** All the files are there. *)
Lemma each_file_all args (Q : () + Z -> ust -> Prop) s : u_faulty s = false -> all_ok s args ->
  Q (inl ()) (u_add_out s (outs s args)) -> uwp no_child (each_file f err args) Q s.
Proof using f_spec.
  intros Hs Hok HQ. rewrite <- (app_nil_r args). by apply each_file_app.
Qed.

(** One is missing: those before it are handled, and the program ends. *)
Lemma each_file_missing pre a post (Q : () + Z -> ust -> Prop) s : u_faulty s = false -> all_ok s pre -> u_files s !! a = None ->
  uwp no_child (err a) (fun x t => x = inl () /\ Q (inr 1) t) (u_add_out s (outs s pre)) ->
  uwp no_child (each_file f err (pre ++ a :: post)) Q s.
Proof using f_spec.
  intros Hs Hok Ha HQ. apply each_file_app; [done|done|]. cbn [each_file].
  next_call. apply uwp_open_missing; [done|]. next_call. eapply uwp_seq; [exact HQ|]. by intros x t [-> HQ'].
Qed.
End each_file.
