(* ===== verification/Grep.v ===== *)
(** user/grep.c: the regular-expression matcher and the loop over lines. *)

From S2P Require Import Prelude Ulib Printf Uprog.

(** ** The matcher

    A pattern and a text are C strings; here the bytes before the NUL. *)

Definition cSTAR : Z := 42.
Definition cDOT : Z := 46.
Definition cDOLLAR : Z := 36.
Definition cCARET : Z := 94.
Definition cNL : Z := 10.

(** [matchhere], with [matchstar] inside: it calls [matchhere] on the rest of
    the pattern at each position of the text. *)
Fixpoint matchhere (re text : list Z) {struct re} : bool :=
  match re with
  | [] => true
  | c :: re1 =>
      let step := match text with
                  | t :: text' => ((c =? cDOT) || (c =? t)) && matchhere re1 text'
                  | [] => false
                  end in
      match re1 with
      | d :: re2 =>
          if d =? cSTAR then
            (fix matchstar (text : list Z) : bool :=
               if matchhere re2 text then true
               else match text with
                    | t :: text' => if (t =? c) || (c =? cDOT) then matchstar text' else false
                    | [] => false
                    end) text
          else step
      | [] => if c =? cDOLLAR then bool_decide (text = []) else step
      end
  end.

(** The [do ... while] loop of [match]. *)
Fixpoint match_loop (re text : list Z) : bool :=
  matchhere re text || match text with _ :: text' => match_loop re text' | [] => false end.

Definition rmatch (re text : list Z) : bool :=
  match re with
  | c :: re' => if c =? cCARET then matchhere re' text else match_loop re text
  | [] => match_loop re text
  end.

(** ** The loop over lines *)

Definition GREP_BUF : nat := 1024.

(** [strchr(p, '\n')]: the bytes before the newline, and after it. *)
Fixpoint cut (p : list Z) : option (list Z * list Z) :=
  match p with
  | [] => None
  | c :: p' =>
      if c =? 0 then None
      else if c =? cNL then Some ([], p')
      else '(l, rest) ← cut p'; Some (c :: l, rest)
  end.

(** [while((q = strchr(p, '\n')) != 0)]: the lines that match are written; the
    result is [p] after it. *)
Fixpoint grep_scan (fuel : nat) (pattern p : list Z) : uprog (list Z) :=
  match fuel with
  | O => UFuel
  | S f =>
      match cut p with
      | None => mret p
      | Some (l, rest) =>
          if rmatch pattern l then
            call1 (UWrite 1 (l ++ [cNL]));;
            grep_scan f pattern rest
          else grep_scan f pattern rest
      end
  end.

(** The loop of [grep(pattern, fd)], with [m] bytes [buf] kept. *)
Fixpoint grep_loop (fuel : nat) (pattern : list Z) (fd : Z) (buf : list Z) : uprog () :=
  match fuel with
  | O => UFuel
  | S f =>
      r ← call (URead fd (Z.of_nat GREP_BUF - Z.of_nat (length buf) - 1));
      if ur_ret r >? 0 then
        let p := buf ++ take (Z.to_nat (ur_ret r)) (ur_data r) in
        p ← grep_scan (S (length p)) pattern p;
        grep_loop f pattern fd p
      else mret ()
  end.
Definition grep (fuel : nat) (pattern : list Z) (fd : Z) : uprog () := grep_loop fuel pattern fd [].

(** [main]; [argv] with the name of the program. *)
Definition grep_main (fuel : nat) (argv : list (list Z)) : uprog () :=
  match argv with
  | _ :: pattern :: files =>
      match files with
      | [] => grep fuel pattern 0;; UExit 0
      | _ =>
          each_file (fun fd _ => grep fuel pattern fd)
            (fun a => printf (text_line "grep: cannot open %s") [VStr (Some a)]) files;;
          UExit 0
      end
  | _ =>
      fprintf 2 (text_line "usage: grep pattern [file ...]") [];;
      UExit 1
  end.

(** ** What a pattern means *)

(** [Match re t]: a prefix of [t] is in the language of [re].  A star binds
    the character before it; a dollar is special at the end. *)
Inductive Match : list Z -> list Z -> Prop :=
| Match_nil t : Match [] t
| Match_star0 c re t : Match re t -> Match (c :: cSTAR :: re) t
| Match_star1 c re x t : c = cDOT \/ c = x -> Match (c :: cSTAR :: re) t -> Match (c :: cSTAR :: re) (x :: t)
| Match_end : Match [cDOLLAR] []
| Match_char c re x t : c = cDOT \/ c = x -> head re <> Some cSTAR -> ~ (c = cDOLLAR /\ re = []) ->
    Match re t -> Match (c :: re) (x :: t).

(** A pattern that does not start with a caret matches anywhere. *)
Definition Matches (re text : list Z) : Prop :=
  match re with
  | c :: re' => if c =? cCARET then Match re' text else exists k, Match re (drop k text)
  | [] => exists k, Match re (drop k text)
  end.

Lemma chr_spec c x : (c =? cDOT) || (c =? x) = true <-> c = cDOT \/ c = x.
Proof. rewrite orb_true_iff, !Z.eqb_eq. done. Qed.

Lemma matchhere_char c re x t : head re <> Some cSTAR -> ~ (c = cDOLLAR /\ re = []) ->
  matchhere (c :: re) (x :: t) = ((c =? cDOT) || (c =? x)) && matchhere re t.
Proof.
  intros Hs Hd. cbn [matchhere]. destruct re as [|d re].
  - destruct (Z.eqb_spec c cDOLLAR); [naive_solver|done].
  - destruct (Z.eqb_spec d cSTAR) as [->|]; [done|done].
Qed.

Lemma matchhere_star c re t : matchhere (c :: cSTAR :: re) t =
  matchhere re t || match t with x :: t' => ((x =? c) || (c =? cDOT)) && matchhere (c :: cSTAR :: re) t' | [] => false end.
Proof.
  cbn [matchhere]. rewrite Z.eqb_refl. destruct t as [|x t]; [by destruct (matchhere re [])|].
  destruct (matchhere re (x :: t)); [done|]. cbn [orb]. by destruct ((x =? c) || (c =? cDOT)).
Qed.

Lemma Match_matchhere re t : Match re t -> matchhere re t = true.
Proof.
  induction 1 as [t|c re t _ IH|c re x t Hc _ IH| |c re x t Hc Hs Hd _ IH]; [done| | |done|].
  - by rewrite matchhere_star, IH.
  - rewrite matchhere_star, IH. destruct Hc as [->| ->]; [by rewrite orb_true_r, orb_true_r|by rewrite Z.eqb_refl, orb_true_r].
  - rewrite matchhere_char by done. rewrite IH, andb_true_r. by apply chr_spec.
Qed.

Lemma matchhere_Match n : forall re t, (length re + length t <= n)%nat -> matchhere re t = true -> Match re t.
Proof.
  induction n as [|n IH]; intros re t Hn H.
  { destruct re; [constructor|simpl in Hn; lia]. }
  destruct re as [|c re]; [constructor|]. destruct (decide (head re = Some cSTAR)) as [Hs|Hs].
  - destruct re as [|d re]; [done|]. injection Hs as ->. rewrite matchhere_star in H. simpl in Hn.
    apply orb_true_iff in H as [H|H]; [apply Match_star0, IH; [lia|done]|]. destruct t as [|x t]; [done|].
    apply andb_true_iff in H as [Hc H]. apply Match_star1; [|apply IH; [simpl in *; lia|done]].
    apply orb_true_iff in Hc as [E%Z.eqb_eq|E%Z.eqb_eq]; auto.
  - destruct (decide (c = cDOLLAR /\ re = [])) as [[-> ->]|Hd].
    + cbn in H. apply bool_decide_eq_true in H as ->. constructor.
    + destruct t as [|x t].
      * exfalso. cbn [matchhere] in H. destruct re as [|d re].
        -- destruct (Z.eqb_spec c cDOLLAR); [naive_solver|done].
        -- destruct (Z.eqb_spec d cSTAR) as [->|]; done.
      * rewrite matchhere_char in H by done. apply andb_true_iff in H as [Hc H]. simpl in Hn.
        apply Match_char; [by apply chr_spec|done|done|]. apply IH; [lia|done].
Qed.

Lemma matchhere_spec re t : matchhere re t = true <-> Match re t.
Proof. split; [by apply (matchhere_Match (length re + length t))|apply Match_matchhere]. Qed.

Lemma match_loop_spec re t : match_loop re t = true <-> exists k, Match re (drop k t).
Proof.
  induction t as [|x t IH]; cbn [match_loop]; rewrite orb_true_iff, matchhere_spec.
  - split; [intros [H|H]; [by exists 0%nat|done]|]. intros [k H]. left. by rewrite drop_nil in H.
  - rewrite IH. split.
    + intros [H|[k H]]; [by exists 0%nat|by exists (S k)].
    + intros [[|k] H]; [by left|right; by exists k].
Qed.

(** ** What the loop prints *)

(** The complete lines of a text, without their newline. *)
Fixpoint text_lines (t : list Z) : list (list Z) :=
  match t with
  | [] => []
  | c :: t' =>
      if c =? cNL then [] :: text_lines t'
      else match text_lines t' with
           | l :: ls => (c :: l) :: ls
           | [] => []
           end
  end.

Lemma text_lines_none t : cNL ∉ t -> text_lines t = [].
Proof.
  induction t as [|c t IH]; intros Hn; [done|]. apply not_elem_of_cons in Hn as [H1 H2]. cbn [text_lines].
  rewrite (proj2 (Z.eqb_neq c cNL)) by congruence. by rewrite IH.
Qed.

Lemma text_lines_line l rest : cNL ∉ l -> text_lines (l ++ cNL :: rest) = l :: text_lines rest.
Proof.
  induction l as [|c l IH]; intros Hn; [done|]. apply not_elem_of_cons in Hn as [H1 H2]. cbn [text_lines app].
  rewrite (proj2 (Z.eqb_neq c cNL)) by congruence. by rewrite IH.
Qed.

Lemma cut_spec p : 0 ∉ p ->
  match cut p with
  | Some (l, rest) => p = l ++ cNL :: rest /\ cNL ∉ l
  | None => cNL ∉ p
  end.
Proof.
  induction p as [|c p IH]; intros Hn; [apply not_elem_of_nil|]. apply not_elem_of_cons in Hn as [H1 H2]. cbn [cut].
  rewrite (proj2 (Z.eqb_neq c 0)) by congruence. destruct (Z.eqb_spec c cNL) as [->|Hc]; [split; [done|apply not_elem_of_nil]|].
  specialize (IH H2). destruct (cut p) as [[l rest]|]; cbn.
  - destruct IH as [-> IH]. split; [done|]. by apply not_elem_of_cons.
  - by apply not_elem_of_cons.
Qed.

(** The lines of [ls] that the pattern matches. *)
Definition selected (pattern : list Z) (ls : list (list Z)) : list Z :=
  concat (map (fun l => if rmatch pattern l then l ++ [cNL] else []) ls).

(** [p'] is what follows the last newline of [p]. *)
Definition remains (p p' : list Z) : Prop :=
  (cNL ∉ p') /\ (0 ∉ p') /\ (length p' <= length p)%nat /\ forall q, text_lines (p ++ q) = text_lines p ++ text_lines (p' ++ q).

Lemma grep_scan_spec fuel pattern Q : forall p s, (length p < fuel)%nat -> 0 ∉ p -> u_faulty s = false ->
  (forall p', remains p p' -> Q (inl p') (u_add_out s (selected pattern (text_lines p)))) ->
  uwp no_child (grep_scan fuel pattern p) Q s.
Proof.
  induction fuel as [|fuel IH]; intros p s Hl Hn Hs HQ; [lia|]. cbn [grep_scan]. pose proof (cut_spec p Hn) as Hc.
  destruct (cut p) as [[l rest]|].
  - destruct Hc as [-> Hnl]. rewrite length_app in Hl. simpl in Hl. rewrite elem_of_app, elem_of_cons in Hn.
    rewrite text_lines_line in HQ by done. unfold selected in HQ. cbn [map concat] in HQ.
    assert (HQ' : forall p', remains rest p' ->
      Q (inl p') (u_add_out (u_add_out s (if rmatch pattern l then l ++ [cNL] else [])) (selected pattern (text_lines rest)))).
    { intros p' (H1 & H2 & H3 & H4). rewrite u_add_out_app. apply HQ. split_and!; [done|done| |].
      - rewrite length_app. simpl. lia.
      - intros q. rewrite <- app_assoc. cbn [app]. rewrite !text_lines_line by done. cbn [app]. by rewrite H4. }
    destruct (rmatch pattern l); [|rewrite u_add_out_nil in HQ'; apply IH; [lia|tauto|done|exact HQ']].
    next_call. apply uwp_write_out; [|congruence]. next_call. apply IH; [lia|tauto|done|exact HQ'].
  - rewrite text_lines_none in HQ by done. unfold selected in HQ. cbn [map concat] in HQ. specialize (HQ p).
    rewrite u_add_out_nil in HQ. apply HQ. split_and!; [done|done|lia|]. by rewrite text_lines_none.
Qed.

(** When [read] returns nothing, no complete line is left. *)
Lemma no_line_left buf got rest : got = [] -> (length buf < GREP_BUF - 1 -> got = [] -> rest = [])%nat ->
  (length buf < GREP_BUF)%nat -> 0 ∉ buf ++ got ++ rest -> cNL ∉ buf ->
  Forall (fun l => (length l < GREP_BUF - 1)%nat) (text_lines (buf ++ got ++ rest)) -> text_lines (buf ++ got ++ rest) = [].
Proof.
  intros -> Hend Hb Hn Hnl Hlines. cbn [app] in *. destruct (decide (length buf < GREP_BUF - 1)%nat) as [Hlt|Hfull].
  { rewrite Hend, app_nil_r by done. by apply text_lines_none. }
  pose proof (cut_spec (buf ++ rest) Hn) as Hc. destruct (cut (buf ++ rest)) as [[l rest']|]; [|by apply text_lines_none].
  exfalso. destruct Hc as [Eq Hl]. rewrite Eq, text_lines_line in Hlines by done. apply Forall_cons in Hlines as [Hlen _].
  apply Hnl. assert (Hx : (buf ++ rest) !! length l = Some cNL) by (rewrite Eq; by apply list_lookup_middle).
  rewrite lookup_app_l in Hx by lia. by eapply list_elem_of_lookup_2.
Qed.

Lemma grep_loop_spec pattern fd fuel Q : forall input buf s, u_fd s !! fd = Some input -> u_faulty s = false ->
  (length input < fuel)%nat -> (length buf < GREP_BUF)%nat -> 0 ∉ buf ++ input -> cNL ∉ buf ->
  Forall (fun l => (length l < GREP_BUF - 1)%nat) (text_lines (buf ++ input)) ->
  (forall rest, Q (inl ()) (u_set_fd (u_add_out s (selected pattern (text_lines (buf ++ input)))) (<[fd := rest]> (u_fd s)))) ->
  uwp no_child (grep_loop fuel pattern fd buf) Q s.
Proof.
  induction fuel as [|fuel IH]; intros input buf s Hfd Hs Hf Hb Hn Hnl Hlines HQ; [lia|]. cbn [grep_loop]. next_call.
  apply (uwp_read _ fd _ input); [done|lia| |congruence]. intros got rest -> Hle Hend. next_call.
  destruct got as [|b got].
  { cbn. rewrite no_line_left in HQ; [|done| |done|done|done|done]; [unfold selected in HQ; cbn [map concat] in HQ; rewrite u_add_out_nil in HQ; apply HQ|].
    intros Hlt _. apply Hend; [|done]. unfold GREP_BUF in *. lia. }
  set (g := b :: got) in *. rewrite (proj2 (Z.gtb_gt _ 0)) by (subst g; simpl; lia).
  rewrite Nat2Z.id, firstn_all. assert (Hsplit : buf ++ g ++ rest = (buf ++ g) ++ rest) by (by rewrite <- app_assoc).
  rewrite Hsplit, elem_of_app in Hn.
  eapply uwp_seq; [apply (grep_scan_spec _ _ (fun x t => exists p', x = inl p' /\ remains (buf ++ g) p' /\
    t = u_add_out (u_set_fd s (<[fd := rest]> (u_fd s))) (selected pattern (text_lines (buf ++ g)))));
    [lia|tauto|done|by eauto]|].
  intros x t (p' & -> & (S1 & S2 & S3 & S4) & ->). cbn [after]. rewrite Hsplit, S4 in Hlines, HQ.
  apply Forall_app in Hlines as [_ Hlines]. apply (IH rest); [apply lookup_insert_eq|done| | | |done|done|].
  - rewrite length_app in Hf. subst g. simpl in Hf. lia.
  - rewrite length_app in S3. unfold GREP_BUF in *. lia.
  - rewrite elem_of_app. tauto.
  - intros rest'. specialize (HQ rest'). cbn. rewrite insert_insert_eq. unfold selected in HQ. rewrite map_app, concat_app in HQ.
    rewrite <- u_add_out_app in HQ. exact HQ.
Qed.

(** ** Properties *)

(** C37: the matcher of grep.  [match(re, text)] returns true exactly when the
    pattern, read as a regular expression with [^], [.], [*] and [$], matches
    somewhere in the text. *)
Theorem grep_match_correct re text : rmatch re text = true <-> Matches re text.
Proof.
  unfold rmatch, Matches. destruct re as [|c re]; [apply match_loop_spec|].
  destruct (c =? cCARET); [apply matchhere_spec|apply match_loop_spec].
Qed.

(** Text without NUL whose lines fit in the buffer, for [fuel] rounds. *)
Definition greppable (fuel : nat) (data : list Z) : Prop :=
  (length data < fuel)%nat /\ (0 ∉ data) /\ Forall (fun l => (length l < 1023)%nat) (text_lines data).

Lemma grep_spec fuel pattern fd (a data : list Z) s (Q : () + Z -> ust -> Prop) :
  u_fd s !! fd = Some data -> u_faulty s = false -> greppable fuel data ->
  (forall rest, Q (inl ()) (u_set_fd (u_add_out s (selected pattern (text_lines data))) (<[fd := rest]> (u_fd s)))) ->
  uwp no_child (grep fuel pattern fd) Q s.
Proof.
  intros Hfd Hs (H1 & H2 & H3) HQ. apply (grep_loop_spec pattern fd fuel Q data []); try done.
  - unfold GREP_BUF. simpl. lia.
  - apply not_elem_of_nil.
Qed.

(** C36: grep prints the lines that match.  However the kernel splits the files
    into reads, and when no line is longer than the buffer, grep writes the
    lines of each file that the pattern matches, in order, each with its
    newline, and exits with 0; text after the last newline is not searched.  At
    the first file that cannot be opened it reports the name and exits
    with 1. *)
Theorem grep_prints_matches fuel prog pattern files s : u_faulty s = false -> files <> [] ->
  all_ok (greppable fuel) s files ->
  let matching := outs (fun _ data => selected pattern (text_lines data)) s files in
  uwp no_child (grep_main fuel (prog :: pattern :: files)) (fun x t => x = inr 0 /\ t = u_add_out s matching) s /\
  forall a more, u_files s !! a = None ->
    uwp no_child (grep_main fuel (prog :: pattern :: files ++ a :: more))
      (fun x t => x = inr 1 /\ t = u_add_out s (matching ++ ascii_bytes "grep: cannot open " ++ a ++ [10])) s.
Proof.
  intros Hs Hne Hok matching. assert (Hf := grep_spec fuel pattern). destruct files as [|f0 files]; [done|]. split.
  - cbn [grep_main]. eapply uwp_seq.
    + apply (each_file_all (fun fd _ => grep fuel pattern fd) _ (greppable fuel) (fun _ data => selected pattern (text_lines data)) Hf (f0 :: files)
        (fun x t => x = inl () /\ t = u_add_out s matching)); done.
    + by intros x t [-> ->].
  - intros a more Ha. cbn [grep_main app]. eapply uwp_seq.
    + apply (each_file_missing (fun fd _ => grep fuel pattern fd) _ (greppable fuel) (fun _ data => selected pattern (text_lines data)) Hf (f0 :: files) a more
        (fun x t => x = inr 1 /\ t = u_add_out s (matching ++ ascii_bytes "grep: cannot open " ++ a ++ [10]))); [done|done|done|].
      eapply printf_out; [reflexivity|done|]. split_and!; [done|done|]. by rewrite u_add_out_app.
    + by intros x t [-> ->].
Qed.

(** ** Witness *)

Definition ex_files : ust := Ust {[ [102] := [120; 97; 98; 10; 99; 10; 98] ]} ∅ [] [] false 0 [].

Lemma grep_prints_matches_witness :
  uwp no_child (grep_main 8 [[103]; [97; 42; 98; 36]; [102]]) (fun x t => x = inr 0 /\ u_out t = [120; 97; 98; 10]) ex_files.
Proof.
  destruct (grep_prints_matches 8 [103] [97; 42; 98; 36] [[102]] ex_files) as [H _]; [done|done| |].
  - apply Forall_singleton. exists [120; 97; 98; 10; 99; 10; 98]. unfold greppable. split_and!; [done|simpl; lia| |].
    + apply (bool_decide_unpack _). by vm_compute.
    + repeat (apply Forall_cons; split; [simpl; lia|]). by apply Forall_nil.
  - eapply uwp_mono; [|exact H]. intros x t [-> ->]. by vm_compute.
Defined.
