(* ===== verification/User.v ===== *)
(** The user programs cat, echo, init, kill, ln, ls, mkdir, rm, wc and zombie
    and the main loop of sh, as trees of system calls, and what cat, wc and the
    shell do. *)

From S2P Require Import Prelude Bytes Fs Sysfile File Sh Ulib Printf Uprog.

(** ** Programs that make a few calls; [argv] with the name of the program *)

Fixpoint echo_loop (args : list (list Z)) : uprog () :=
  match args with
  | [] => mret ()
  | a :: args' =>
      call1 (UWrite 1 a);;
      (match args' with [] => call1 (UWrite 1 [10]) | _ => call1 (UWrite 1 [32]) end);;
      echo_loop args'
  end.
Definition echo_main (argv : list (list Z)) : uprog () := echo_loop (drop 1 argv);; UExit 0.

Fixpoint kill_args (args : list (list Z)) : uprog () :=
  match args with
  | [] => mret ()
  | a :: args' => call1 (UKill (atoi a));; kill_args args'
  end.
Definition kill_main (argv : list (list Z)) : uprog () :=
  if (length argv <? 2)%nat then
    fprintf 2 (text_line "usage: kill pid...") [];;
    UExit 1
  else
    kill_args (drop 1 argv);;
    UExit 0.

Definition ln_main (argv : list (list Z)) : uprog () :=
  if negb (length argv =? 3)%nat then
    fprintf 2 (text_line "Usage: ln old new") [];;
    UExit 1
  else
    r ← call1 (ULink (nth 1 argv []) (nth 2 argv []));
    (if r <? 0 then fprintf 2 (text_line "link %s %s: failed") [VStr (Some (nth 1 argv [])); VStr (Some (nth 2 argv []))] else mret ());;
    UExit 0.

(** The loops of mkdir and rm end at the first failure. *)
Fixpoint each_or_stop (f : list Z -> ucall) (msg : list Z) (args : list (list Z)) : uprog () :=
  match args with
  | [] => mret ()
  | a :: args' =>
      r ← call1 (f a);
      if r <? 0 then fprintf 2 msg [VStr (Some a)]
      else each_or_stop f msg args'
  end.
Definition mkdir_main (argv : list (list Z)) : uprog () :=
  if (length argv <? 2)%nat then
    fprintf 2 (text_line "Usage: mkdir files...") [];;
    UExit 1
  else
    each_or_stop UMkdir (text_line "mkdir: %s failed to create") (drop 1 argv);;
    UExit 0.
Definition rm_main (argv : list (list Z)) : uprog () :=
  if (length argv <? 2)%nat then
    fprintf 2 (text_line "Usage: rm files...") [];;
    UExit 1
  else
    each_or_stop UUnlink (text_line "rm: %s failed to delete") (drop 1 argv);;
    UExit 0.

Definition zombie_main : uprog () :=
  pid ← call1 UFork;
  (if pid >? 0 then call1 (USleep 5) else mret 0);;
  UExit 0.

(** ** cat and wc *)

Fixpoint cat (fuel : nat) (fd : Z) : uprog () :=
  match fuel with
  | O => UFuel
  | S f =>
      r ← call (URead fd 512);
      let n := ur_ret r in
      if n >? 0 then
        k ← call1 (UWrite 1 (take (Z.to_nat n) (ur_data r)));
        if negb (k =? n) then
          fprintf 2 (text_line "cat: write error") [];;
          UExit 1
        else cat f fd
      else if n <? 0 then
        fprintf 2 (text_line "cat: read error") [];;
        UExit 1
      else mret ()
  end.

Definition cat_main (fuel : nat) (argv : list (list Z)) : uprog () :=
  if (length argv <=? 1)%nat then cat fuel 0;; UExit 0
  else
    each_file (fun fd _ => cat fuel fd) (fun a => fprintf 2 (text_line "cat: cannot open %s") [VStr (Some a)]) (drop 1 argv);;
    UExit 0.

(** The counters l, w, c and the flag inword. *)
Record wcst := Wcst { wc_l : Z; wc_w : Z; wc_c : Z; wc_in : bool }.
Definition wc_space (b : Z) : bool := bool_decide (b ∈ [32; 13; 9; 10; 11]).
Definition wc_byte (s : wcst) (b : Z) : wcst :=
  let c := i32 (wc_c s + 1) in
  let l := if b =? 10 then i32 (wc_l s + 1) else wc_l s in
  if wc_space b then Wcst l (wc_w s) c false
  else if negb (wc_in s) then Wcst l (i32 (wc_w s + 1)) c true
  else Wcst l (wc_w s) c (wc_in s).

Fixpoint wc_loop (fuel : nat) (fd : Z) (s : wcst) (name : list Z) : uprog () :=
  match fuel with
  | O => UFuel
  | S f =>
      r ← call (URead fd 512);
      let n := ur_ret r in
      if n >? 0 then wc_loop f fd (fold_left wc_byte (take (Z.to_nat n) (ur_data r)) s) name
      else if n <? 0 then
        printf (text_line "wc: read error") [];;
        UExit 1
      else printf (text_line "%d %d %d %s") [VWord (wc_l s); VWord (wc_w s); VWord (wc_c s); VStr (Some name)]
  end.
Definition wc (fuel : nat) (fd : Z) (name : list Z) : uprog () := wc_loop fuel fd (Wcst 0 0 0 false) name.
Definition wc_main (fuel : nat) (argv : list (list Z)) : uprog () :=
  if (length argv <=? 1)%nat then wc fuel 0 [];; UExit 0
  else
    each_file (wc fuel) (fun a => printf (text_line "wc: cannot open %s") [VStr (Some a)]) (drop 1 argv);;
    UExit 0.

(** ** ls *)

(** [for(p=path+strlen(path); p >= path && *p != '/'; p--)], from the end. *)
Fixpoint after_slash (r name : list Z) : list Z :=
  match r with
  | [] => name
  | c :: r' => if c =? 47 then name else after_slash r' (c :: name)
  end.
Definition fmtname (path : list Z) : list Z :=
  let p := after_slash (reverse path) [] in
  if DIRSIZ <=? Z.of_nat (length p) then p
  else p ++ repeat 32 (Z.to_nat DIRSIZ - length p).

(** The struct that [fstat] stored. *)
Definition stat_of (b : list Z) : stat :=
  Stat (i32 (le_value (take 4 b))) (le_value (take 4 (drop 4 b))) (i16 (le_value (take 2 (drop 8 b))))
    (i16 (le_value (take 2 (drop 10 b)))) (le_value (take 8 (drop 16 b))).

Definition ls_line (fmt path : list Z) (st : stat) : uprog () :=
  printf fmt [VStr (Some (fmtname path)); VWord (st_type st); VWord (st_ino st); VWord (st_size st)].

(** The loop over the entries of a directory open at [fd]. *)
Fixpoint ls_entries (fuel : nat) (fd : Z) (path : list Z) : uprog () :=
  match fuel with
  | O => UFuel
  | S f =>
      r ← call (URead fd 16);
      if negb (ur_ret r =? 16) then mret ()
      else if le_value (take 2 (ur_data r)) =? 0 then ls_entries f fd path
      else
        let buf := path ++ [47] ++ cstring (take 14 (drop 2 (ur_data r)) ++ [0]) 0 in
        st ← ustat buf;
        (if fst st <? 0 then printf (text_line "ls: cannot stat %s") [VStr (Some buf)]
         else ls_line (text_line "%s %d %d %d") buf (stat_of (snd st)));;
        ls_entries f fd path
  end.

Definition ls (fuel : nat) (path : list Z) : uprog () :=
  fd ← call1 (UOpen path 0);
  if fd <? 0 then fprintf 2 (text_line "ls: cannot open %s") [VStr (Some path)]
  else
    r ← call (UFstat fd);
    if ur_ret r <? 0 then
      fprintf 2 (text_line "ls: cannot stat %s") [VStr (Some path)];;
      call1 (UClose fd);;
      mret ()
    else
      let st := stat_of (ur_data r) in
      (if (st_type st =? T_DEVICE) || (st_type st =? T_FILE) then ls_line (text_line "%s %d %d %l") path st
       else if st_type st =? T_DIR then
         if Z.of_nat (length path) + 1 + DIRSIZ + 1 >? 512 then printf (text_line "ls: path too long") []
         else ls_entries fuel fd path
       else mret ());;
      call1 (UClose fd);;
      mret ().

Fixpoint ls_args (fuel : nat) (args : list (list Z)) : uprog () :=
  match args with
  | [] => mret ()
  | a :: args' => ls fuel a;; ls_args fuel args'
  end.
Definition ls_main (fuel : nat) (argv : list (list Z)) : uprog () :=
  if (length argv <? 2)%nat then ls fuel [46];; UExit 0
  else ls_args fuel (drop 1 argv);; UExit 0.

(** ** init *)

(** The inner loop: wait for the shell. *)
Fixpoint init_wait (fuel : nat) (pid : Z) : uprog () :=
  match fuel with
  | O => UFuel
  | S f =>
      wpid ← call1 UWait;
      if wpid =? pid then mret ()
      else if wpid <? 0 then
        printf (text_line "init: wait returned an error") [];;
        UExit 1
      else init_wait f pid
  end.
Fixpoint init_loop (fuel : nat) : uprog () :=
  match fuel with
  | O => UFuel
  | S f =>
      printf (text_line "init: starting sh") [];;
      pid ← call1 UFork;
      if pid <? 0 then
        printf (text_line "init: fork failed") [];;
        UExit 1
      else if pid =? 0 then
        call1 (UExec (ascii_bytes "sh") [ascii_bytes "sh"]);;
        printf (text_line "init: exec sh failed") [];;
        UExit 1
      else
        init_wait f pid;;
        init_loop f
  end.
Definition init_main (fuel : nat) : uprog () :=
  fd ← call1 (UOpen (ascii_bytes "console") O_RDWR);
  (if fd <? 0 then
     call1 (UMknod (ascii_bytes "console") CONSOLE 0);;
     call1 (UOpen (ascii_bytes "console") O_RDWR)
   else mret 0);;
  call1 (UDup 0);;
  call1 (UDup 0);;
  init_loop fuel.

(** ** sh *)

(** The process that [runcmd] describes. *)
Fixpoint of_prog (p : prog) : uprog () :=
  match p with
  | Exit status => UExit status
  | Sys c k =>
      let plain u := UCall u (fun r => of_prog (k (ur_ret r, 0, 0))) in
      match c with
      | SFork => plain UFork
      | SWait => plain UWait
      | SExec path argv => plain (UExec path argv)
      | SOpen path mode => plain (UOpen path mode)
      | SClose fd => plain (UClose fd)
      | SDup fd => plain (UDup fd)
      | SPipe => UCall UPipe (fun r => of_prog (k (ur_ret r, i32 (le_value (take 4 (ur_data r))), i32 (le_value (take 4 (drop 4 (ur_data r)))))))
      | SFprintf fd fmt arg => fprintf fd (text_line fmt) [VStr (Some arg)];; of_prog (k (0, 0, 0))
      end
  end.

(** What [parsecmd] prints before it panics: the text after the command. *)
Definition leftovers (buf : list Z) : uprog () :=
  let es := Z.to_nat (strlen_bytes buf) in
  match parseline buf es (4 * S es) 0 [] with
  | POk (_, s) _ =>
      let '(_, s) := peek buf es s [] in
      if negb (s =? es)%nat then fprintf 2 (text_line "leftovers: %s") [VStr (Some (cstring buf s))] else mret ()
  | _ => mret ()
  end.

(** [runcmd(parsecmd(buf))] *)
Definition run_line (buf : list Z) : uprog () :=
  match parsecmd buf with
  | Parsed cmd h buf' => of_prog (runcmd h buf' (S cmd) cmd)
  | Failed msg =>
      leftovers buf;;
      fprintf 2 (text_line "%s") [VStr (Some (ascii_bytes msg))];;
      UExit 1
  | Stuck => UBad
  end.

(** [getcmd(buf, nbuf)]: the buffer, when it returns 0. *)
Definition getcmd (nbuf : nat) : uprog (option (list Z)) :=
  call1 (UWrite 2 [36; 32]);;
  l ← ugets (Z.of_nat nbuf);
  let buf := l ++ repeat 0 (nbuf - length l) in
  if nth 0 buf 0 =? 0 then mret None else mret (Some buf).

Fixpoint open_console (fuel : nat) : uprog () :=
  match fuel with
  | O => UFuel
  | S f =>
      fd ← call1 (UOpen (ascii_bytes "console") O_RDWR);
      if fd <? 0 then mret ()
      else if fd >=? 3 then call1 (UClose fd);; mret ()
      else open_console f
  end.

Definition is_cd (buf : list Z) : bool := (nth 0 buf 0 =? 99) && (nth 1 buf 0 =? 100) && (nth 2 buf 0 =? 32).

(** [chop]: the buffer after [buf[strlen(buf)-1] = 0]. *)
Definition chop (buf : list Z) : list Z := <[Z.to_nat (strlen_bytes buf - 1) := 0]> buf.

Fixpoint sh_loop (fuel : nat) : uprog () :=
  match fuel with
  | O => UFuel
  | S f =>
      b ← getcmd 100;
      match b with
      | None => UExit 0
      | Some buf =>
          if is_cd buf then
            let dir := cstring (chop buf) 3 in
            r ← call1 (UChdir dir);
            (if r <? 0 then fprintf 2 (text_line "cannot cd %s") [VStr (Some dir)] else mret ());;
            sh_loop f
          else
            pid ← call1 UFork;
            if pid =? -1 then
              fprintf 2 (text_line "%s") [VStr (Some (ascii_bytes "fork"))];;
              UExit 1
            else if pid =? 0 then run_line buf
            else
              call1 UWait;;
              sh_loop f
      end
  end.
Definition sh_main (fuel : nat) : uprog () := open_console fuel;; sh_loop fuel.

(** ** What cat does *)

Definition cat_faults : list (list Z) := [text_line "cat: write error"; text_line "cat: read error"].

(** The file is copied, or a call fails and what was copied is a prefix of it. *)
Lemma cat_spec fd fuel (Q : () + Z -> ust -> Prop) : forall data s, u_fd s !! fd = Some data -> (length data < fuel)%nat ->
  Q (inl ()) (u_set_fd (u_add_out s data) (<[fd := []]> (u_fd s))) ->
  (u_faulty s = true -> forall pre post m msg, data = pre ++ post -> msg ∈ cat_faults ->
    Q (inr 1) (u_add_err (u_set_fd (u_add_out s pre) m) msg)) ->
  uwp no_child (cat fuel fd) Q s.
Proof.
  induction fuel as [|fuel IH]; intros data s Hfd Hf H1 H2; [lia|]. cbn [cat]. next_call.
  apply (uwp_read _ fd _ data); [done|lia| |].
  - intros got rest -> Hle Hend. next_call. destruct got as [|b got].
    { rewrite Hend in H1 by (done || lia). cbn. rewrite u_add_out_nil in H1. by rewrite Hend by (done || lia). }
    assert (Hg : (0 < length (b :: got))%nat) by (simpl; lia). set (g := b :: got) in *. clearbody g.
    rewrite (proj2 (Z.gtb_gt _ 0)), Nat2Z.id, firstn_all by lia. apply uwp_write_out; next_call.
    + rewrite Z.eqb_refl. cbn [negb]. apply (IH rest); [apply lookup_insert_eq| | |].
      * rewrite length_app in Hf. lia.
      * unfold u_set_fd, u_add_out in *. cbn in H1 |- *. by rewrite insert_insert_eq, <- app_assoc.
      * intros Hs pre post m msg -> Hm. unfold u_set_fd, u_add_out, u_add_err in *. cbn in H2 |- *. rewrite <- app_assoc. apply (H2 Hs (g ++ pre) post m msg); [by rewrite app_assoc|done].
    + intros Hs. rewrite (proj2 (Z.eqb_neq _ _)) by lia. cbn [negb]. eapply uwp_seq.
      * eapply (fprintf_err _ _ _ _ (fun x t => x = inl () /\ t = _)); [reflexivity|by split].
      * intros x t [-> ->]. cbn [after uwp]. specialize (H2 Hs [] (g ++ rest) (<[fd := rest]> (u_fd s)) (text_line "cat: write error") eq_refl).
        rewrite u_add_out_nil in H2. apply H2. by left.
  - intros Hs. next_call. cbn. eapply uwp_seq.
    + eapply (fprintf_err _ _ _ _ (fun x t => x = inl () /\ t = _)); [reflexivity|by split].
    + intros x t [-> ->]. cbn [after uwp]. specialize (H2 Hs [] data (u_fd s) (text_line "cat: read error") eq_refl).
      rewrite u_add_out_nil, u_set_fd_same in H2. apply H2. right. by left.
Qed.

(** The contents of the files up to the first that is missing, and its name. *)
Fixpoint copied (s : ust) (files : list (list Z)) : list Z * option (list Z) :=
  match files with
  | [] => ([], None)
  | a :: files' =>
      match u_files s !! a with
      | Some data => (data ++ fst (copied s files'), snd (copied s files'))
      | None => ([], Some a)
      end
  end.

(** How cat ends: everything is copied; or a file is missing, and those before
    it are copied; or a call failed, and a prefix of that is copied. *)
Inductive cat_ends (s : ust) (files : list (list Z)) : () + Z -> ust -> Prop :=
| ends_ok : snd (copied s files) = None -> cat_ends s files (inl ()) (u_add_out s (fst (copied s files)))
| ends_missing a : snd (copied s files) = Some a ->
    cat_ends s files (inr 1) (u_add_err (u_add_out s (fst (copied s files))) (ascii_bytes "cat: cannot open " ++ a ++ [10]))
| ends_fault pre post m msg : u_faulty s = true -> fst (copied s files) = pre ++ post -> msg ∈ cat_faults ->
    cat_ends s files (inr 1) (u_add_err (u_set_fd (u_add_out s pre) m) msg).

Lemma cat_ends_cons s a files data x t : u_files s !! a = Some data -> cat_ends (u_add_out s data) files x t -> cat_ends s (a :: files) x t.
Proof.
  intros Ha. assert (Ec : copied (u_add_out s data) files = copied s files) by (clear; induction files as [|b fs IH]; cbn in *; by rewrite ?IH).
  assert (E : copied s (a :: files) = (data ++ fst (copied s files), snd (copied s files))) by (cbn; by rewrite Ha).
  intros [H|b H|pre post m msg H H' Hm]; rewrite ?Ec in *; rewrite ?u_add_out_app.
  - pose proof (ends_ok s (a :: files)) as G. rewrite E in G. by apply G.
  - pose proof (ends_missing s (a :: files) b) as G. rewrite E in G. by apply G.
  - apply (ends_fault s (a :: files) (data ++ pre) post); [done|rewrite E; cbn; by rewrite H', app_assoc|done].
Qed.

Lemma cat_files fuel files : forall s, (forall a data, u_files s !! a = Some data -> length data < fuel)%nat ->
  uwp no_child (each_file (fun fd _ => cat fuel fd) (fun a => fprintf 2 (text_line "cat: cannot open %s") [VStr (Some a)]) files)
    (cat_ends s files) s.
Proof.
  induction files as [|a files IH]; intros s Hf; cbn [each_file].
  { pose proof (ends_ok s [] eq_refl) as H. cbn in H. rewrite u_add_out_nil in H. exact H. }
  next_call. destruct (u_files s !! a) as [data|] eqn:Ha.
  - apply (uwp_open _ a 0 data _ _ s (or_introl eq_refl) Ha). intros fd F1 F2. next_call. rewrite (proj2 (Z.ltb_ge fd 0)) by lia.
    eapply uwp_seq; [apply (cat_spec fd fuel (fun x t => x = inl () /\ t = u_set_fd (u_add_out s data) (<[fd := []]> (u_fd s)) \/
      exists pre post m msg, x = inr 1 /\ u_faulty s = true /\ data = pre ++ post /\ msg ∈ cat_faults /\
        t = u_add_err (u_set_fd (u_add_out s pre) m) msg) data); [apply lookup_insert_eq|by eapply Hf| |]|].
    + left. unfold u_set_fd, u_add_out. cbn. by rewrite insert_insert_eq.
    + intros Hs pre post m msg Hd Hm. right. by exists pre, post, m, msg.
    + intros x t [[-> ->]|(pre & post & m & msg & -> & Hs & -> & Hm & ->)]; cbn [after].
      * eapply (uwp_close _ fd []); [apply lookup_insert_eq|]. cbn [u_fd u_set_fd]. rewrite delete_insert_id by done.
        replace (u_set_fd _ _) with (u_add_out s data) by (by destruct s).
        eapply uwp_mono; [|apply IH; exact Hf]. intros x t. by apply cat_ends_cons.
      * apply (ends_fault s (a :: files) pre (post ++ fst (copied s files))); [done| |done]. cbn. by rewrite Ha, app_assoc.
  - apply uwp_open_missing; [done|]. next_call. eapply uwp_seq.
    + eapply (fprintf_err _ _ _ _ (fun x t => x = inl () /\ t = _)); [reflexivity|by split].
    + intros x t [-> ->]. cbn [after uwp]. pose proof (ends_missing s (a :: files) a) as H. cbn in H. rewrite Ha in H. cbn in H.
      rewrite u_add_out_nil in H. by apply H.
Qed.

(** C35: cat copies files.  However the kernel splits the files into reads, cat
    writes the contents of its arguments in order and exits with 0; at the
    first file that cannot be opened it reports the name and exits with 1,
    having copied those before it; and when a read or a write fails it reports
    that and exits with 1, having copied a prefix. *)
Theorem cat_copies fuel prog files s : files <> [] ->
  (forall a data, u_files s !! a = Some data -> length data < fuel)%nat ->
  uwp no_child (cat_main fuel (prog :: files))
    (fun x t => x = inr 0 /\ cat_ends s files (inl ()) t \/ x = inr 1 /\ cat_ends s files x t) s.
Proof.
  intros Hne Hf. unfold cat_main. destruct files as [|a files]; [done|]. cbn [length Nat.leb drop].
  eapply uwp_seq; [by apply cat_files|]. intros [[]|z] t Ht; cbn [after uwp]; [by left|].
  right. split; [|done]. by inversion Ht.
Qed.

(** ** What wc counts *)

(** A text cut at every blank; its words are the parts that are not empty. *)
Fixpoint fields (l : list Z) : list (list Z) :=
  match l with
  | [] => [[]]
  | c :: l' =>
      if wc_space c then [] :: fields l'
      else match fields l' with
           | f :: fs => (c :: f) :: fs
           | [] => [[c]]
           end
  end.
Definition words (l : list Z) : list (list Z) := filter (fun f => f <> []) (fields l).
Definition newlines (l : list Z) : list Z := filter (fun c => c = 10) l.

(** With [inw], a word that began before is not counted again. *)
Definition words_more (inw : bool) (l : list Z) : nat :=
  match fields l with
  | f :: fs => length (filter (fun f => f <> []) ((if inw then [] else f) :: fs))
  | [] => 0
  end.

Lemma fields_cons l : exists f fs, fields l = f :: fs.
Proof. destruct l as [|c l]; cbn; [by eexists _, _|]. destruct (wc_space c); [by eexists _, _|]. destruct (fields l); by eexists _, _. Qed.

Lemma words_more_cons inw c l :
  words_more inw (c :: l) =
  if wc_space c then words_more false l else ((if inw then 0 else 1) + words_more true l)%nat.
Proof.
  unfold words_more. cbn [fields]. destruct (fields_cons l) as (f & fs & ->). destruct (wc_space c).
  - by destruct inw.
  - destruct inw; [done|]. cbn [app Nat.add]. rewrite filter_cons_True, filter_cons_False by (done || congruence). by cbn.
Qed.

Lemma wc_fold data : forall l w c inw,
  0 <= l -> 0 <= w -> 0 <= c -> l + Z.of_nat (length data) < 2 ^ 31 -> w + Z.of_nat (length data) < 2 ^ 31 ->
  c + Z.of_nat (length data) < 2 ^ 31 ->
  exists inw', fold_left wc_byte data (Wcst l w c inw) =
    Wcst (l + Z.of_nat (length (newlines data))) (w + Z.of_nat (words_more inw data)) (c + Z.of_nat (length data)) inw'.
Proof.
  induction data as [|b data IH]; intros l w c inw Hl Hw Hc Bl Bw Bc.
  { exists inw. assert (E : words_more inw [] = 0%nat) by (by destruct inw). rewrite E. cbn. f_equal; lia. }
  cbn [length] in *. cbn [fold_left]. unfold wc_byte at 2. cbn [wc_l wc_w wc_c wc_in].
  rewrite words_more_cons, !i32_small by lia.
  assert (En : Z.of_nat (length (newlines (b :: data))) = (if b =? 10 then 1 else 0) + Z.of_nat (length (newlines data))).
  { unfold newlines. destruct (Z.eqb_spec b 10); [rewrite filter_cons_True by done|rewrite filter_cons_False by done]; cbn [length]; lia. }
  set (l' := if b =? 10 then l + 1 else l).
  assert (Hl' : l' = l + (if b =? 10 then 1 else 0)) by (subst l'; destruct (b =? 10); lia).
  assert (B : 0 <= l' /\ l' <= l + 1) by (subst l'; destruct (b =? 10); lia).
  destruct (wc_space b); [|destruct inw]; cbn [negb].
  1: destruct (IH l' w (c + 1) false) as (i' & ->); try lia.
  2: destruct (IH l' w (c + 1) true) as (i' & ->); try lia.
  3: destruct (IH l' (w + 1) (c + 1) true) as (i' & ->); try lia.
  all: exists i'; rewrite En; f_equal; lia.
Qed.

(** The line that wc prints for a file. *)
Definition wc_line (a data : list Z) : list Z :=
  printint udigits (Z.of_nat (length (newlines data))) 10 1 ++ [32] ++
  printint udigits (Z.of_nat (length (words data))) 10 1 ++ [32] ++
  printint udigits (Z.of_nat (length data)) 10 1 ++ [32] ++ a ++ [10].

Definition countable (fuel : nat) (data : list Z) : Prop :=
  (length data < fuel)%nat /\ Z.of_nat (length data) < 2 ^ 31.

Lemma wc_loop_spec fd a fuel (Q : () + Z -> ust -> Prop) : forall data st s, u_fd s !! fd = Some data -> u_faulty s = false ->
  (length data < fuel)%nat ->
  (let st' := fold_left wc_byte data st in
   Q (inl ()) (u_set_fd (u_add_out s (printint udigits (wc_l st') 10 1 ++ [32] ++ printint udigits (wc_w st') 10 1 ++ [32] ++
     printint udigits (wc_c st') 10 1 ++ [32] ++ a ++ [10])) (<[fd := []]> (u_fd s)))) ->
  uwp no_child (wc_loop fuel fd st a) Q s.
Proof.
  induction fuel as [|fuel IH]; intros data st s Hfd Hs Hf HQ; [lia|]. cbn [wc_loop]. next_call.
  apply (uwp_read _ fd _ data); [done|lia| |congruence]. intros got rest -> Hle Hend. next_call. destruct got as [|b got].
  { rewrite (Hend ltac:(lia) eq_refl) in HQ |- *. cbn [length Z.of_nat Z.gtb Z.ltb Z.compare].
    eapply printf_out; [reflexivity|done|]. exact HQ. }
  assert (Hg : (0 < length (b :: got))%nat) by (simpl; lia). set (g := b :: got) in *. clearbody g.
  rewrite (proj2 (Z.gtb_gt _ 0)), Nat2Z.id, firstn_all by lia. rewrite fold_left_app, length_app in *.
  apply (IH rest); [apply lookup_insert_eq|done|lia|]. cbv zeta in HQ |- *. unfold u_set_fd, u_add_out in *. cbn [u_files u_fd u_out u_err u_faulty u_forks u_dirs] in *.
  by rewrite insert_insert_eq.
Qed.

Lemma wc_spec fuel fd a data s (Q : () + Z -> ust -> Prop) : u_fd s !! fd = Some data -> u_faulty s = false -> countable fuel data ->
  (forall rest, Q (inl ()) (u_set_fd (u_add_out s (wc_line a data)) (<[fd := rest]> (u_fd s)))) ->
  uwp no_child (wc fuel fd a) Q s.
Proof.
  intros Hfd Hs [Hf Hb] HQ. apply (wc_loop_spec fd a fuel Q data); [done|done|done|].
  destruct (wc_fold data 0 0 0 false) as (i & ->); [lia..|]. cbv zeta. cbn [wc_l wc_w wc_c]. rewrite !Z.add_0_l.
  assert (Ew : words_more false data = length (words data)).
  { unfold words_more, words. by destruct (fields_cons data) as (f & fs & ->). }
  rewrite Ew. apply HQ.
Qed.

(** Wc counts.  However the kernel splits the files into reads, wc prints
    for each argument the number of its newlines, of its words (the maximal
    runs of bytes that are no blanks) and of its bytes, and exits with 0; at the
    first file that cannot be opened it reports the name and exits with 1. *)
Theorem wc_counts fuel prog files s : u_faulty s = false -> files <> [] -> all_ok (countable fuel) s files ->
  uwp no_child (wc_main fuel (prog :: files)) (fun x t => x = inr 0 /\ t = u_add_out s (outs wc_line s files)) s /\
  forall a more, u_files s !! a = None ->
    uwp no_child (wc_main fuel (prog :: files ++ a :: more))
      (fun x t => x = inr 1 /\ t = u_add_out s (outs wc_line s files ++ ascii_bytes "wc: cannot open " ++ a ++ [10])) s.
Proof.
  intros Hs Hne Hok. assert (Hf := wc_spec fuel). destruct files as [|f0 files]; [done|].
  unfold wc_main. cbn [length app Nat.leb drop]. split.
  - eapply uwp_seq.
    + apply (each_file_all (wc fuel) _ (countable fuel) wc_line Hf (f0 :: files) (fun x t => x = inl () /\ t = u_add_out s (outs wc_line s (f0 :: files)))); done.
    + by intros x t [-> ->].
  - intros a more Ha. eapply uwp_seq.
    + apply (each_file_missing (wc fuel) _ (countable fuel) wc_line Hf (f0 :: files) a more
        (fun x t => x = inr 1 /\ t = u_add_out s (outs wc_line s (f0 :: files) ++ ascii_bytes "wc: cannot open " ++ a ++ [10]))); [done|done|done|].
      eapply printf_out; [reflexivity|done|]. split_and!; [done|done|]. by rewrite u_add_out_app.
    + by intros x t [-> ->].
Qed.

(** ** What the shell does with its input *)

(** A line that fits in the buffer. *)
Definition line_ok (b : list Z) : Prop := Forall (fun c => c <> 10 /\ c <> 13 /\ c <> 0) b /\ (length b <= 98)%nat.

(** The buffer that [getcmd] leaves for it. *)
Definition line_buf (b : list Z) : list Z := (b ++ [10]) ++ repeat 0 (100 - length (b ++ [10])).

Lemma gets_line R rest (Q : list Z + Z -> ust -> Prop) b : forall n s, u_faulty s = false -> u_fd s !! 0 = Some (b ++ 10 :: rest) ->
  Forall (fun c => c <> 10 /\ c <> 13 /\ c <> 0) b -> (length b < n)%nat ->
  Q (inl (b ++ [10])) (u_set_fd s (<[0 := rest]> (u_fd s))) -> uwp R (gets_loop n) Q s.
Proof.
  revert R Q. induction b as [|c b IH]; intros R Q [|n] s Hs Hfd Hb Hn HQ; cbn [length] in Hn; [lia| |lia|]; cbn [gets_loop]; next_call;
    apply (uwp_read _ 0 1 _ _ _ _ Hfd ltac:(lia)); [|congruence| |congruence]; intros got more Heq Hle Hend;
    (destruct got as [|g [|g' got]]; [|cbn [app] in Heq; injection Heq as <- <-|cbn in Hle; lia]; [rewrite Hend in Heq by (done || lia); done|]); next_call.
  - exact HQ.
  - apply Forall_cons in Hb as [(C1 & C2 & C3) Hb]. cbn [length Z.of_nat nth]. change (1 <? 1) with false. cbv iota.
    rewrite (proj2 (Z.eqb_neq c 10)), (proj2 (Z.eqb_neq c 13)) by done. cbn [orb].
    apply uwp_bind, IH; [done|apply lookup_insert_eq|done|lia|]. cbn. unfold u_set_fd in *. cbn. by rewrite insert_insert_eq.
Qed.

Lemma gets_end R n (Q : list Z + Z -> ust -> Prop) s : u_faulty s = false -> u_fd s !! 0 = Some [] -> (0 < n)%nat ->
  Q (inl []) s -> uwp R (gets_loop n) Q s.
Proof.
  intros Hs Hfd Hn HQ. destruct n as [|n]; [lia|]. cbn [gets_loop]. next_call.
  apply (uwp_read _ 0 1 _ _ _ _ Hfd ltac:(lia)); [|congruence]. intros got more Heq _ _. destruct got; [|done]. cbn in Heq. subst more.
  cbn. unfold u_set_fd. rewrite insert_id by done. by destruct s.
Qed.

Lemma getcmd_line R b rest (Q : option (list Z) + Z -> ust -> Prop) s : u_faulty s = false -> u_fd s !! 0 = Some (b ++ 10 :: rest) -> line_ok b ->
  Q (inl (Some (line_buf b))) (u_set_fd (u_add_err s [36; 32]) (<[0 := rest]> (u_fd s))) -> uwp R (getcmd 100) Q s.
Proof.
  intros Hs Hfd [Hb Hl] HQ. unfold getcmd. next_call. apply uwp_write_err. next_call. apply uwp_bind.
  eapply gets_line; [done|exact Hfd|done|change (Z.to_nat (Z.of_nat 100 - 1)) with 99%nat; lia|]. cbn [after].
  rewrite (proj2 (Z.eqb_neq _ 0)); [exact HQ|]. destruct b as [|c b]; [done|]. cbn. apply Forall_cons in Hb as [? _]. tauto.
Qed.

Lemma getcmd_end R (Q : option (list Z) + Z -> ust -> Prop) s : u_faulty s = false -> u_fd s !! 0 = Some [] ->
  Q (inl None) (u_add_err s [36; 32]) -> uwp R (getcmd 100) Q s.
Proof.
  intros Hs Hfd HQ. unfold getcmd. next_call. apply uwp_write_err. next_call. apply uwp_bind.
  apply gets_end; [done|done|change (Z.to_nat (Z.of_nat 100 - 1)) with 99%nat; lia|]. exact HQ.
Qed.

Lemma is_cd_line b : is_cd (line_buf b) = is_cd b.
Proof.
  unfold is_cd, line_buf. destruct b as [|x [|y [|z b]]]; cbn; [done| | |done]; by destruct (x =? 99); [|done]; rewrite ?andb_false_r.
Qed.

Lemma strlen_prefix b l : Forall (fun c => c <> 0) b -> strlen_bytes (b ++ 0 :: l) = Z.of_nat (length b).
Proof.
  induction b as [|c b IH]; intros Hb; [done|]. apply Forall_cons in Hb as [Hc Hb]. cbn [strlen_bytes app length].
  rewrite (proj2 (Z.eqb_neq c 0)), IH by done. lia.
Qed.

(** The directory that a cd command names. *)
Lemma cd_dir b : line_ok b -> is_cd b = true -> cstring (chop (line_buf b)) 3 = drop 3 b.
Proof.
  intros [Hb Hl] Hcd. assert (Hz : Forall (fun c => c <> 0) b) by (eapply Forall_impl; [exact Hb|]; cbn; tauto).
  assert (Hk : exists k, line_buf b = (b ++ [10]) ++ 0 :: repeat 0 k).
  { unfold line_buf. rewrite length_app. cbn [length]. exists (99 - (length b + 1))%nat. by replace (100 - (length b + 1))%nat with (S (99 - (length b + 1))) by lia. }
  destruct Hk as (k & Hk). unfold chop. rewrite Hk, strlen_prefix by (apply Forall_app; split; [done|by apply Forall_singleton]).
  rewrite length_app. cbn [length]. replace (Z.to_nat _) with (length b + 0)%nat by lia.
  rewrite <- app_assoc, insert_app_r. cbn [app].
  destruct b as [|x [|y [|z b]]]; [done|unfold is_cd in Hcd; cbn in Hcd; by rewrite !andb_false_r in Hcd..|].
  cbn [drop]. unfold cstring. cbn. rewrite drop_0. do 3 apply Forall_cons in Hz as [_ Hz].
  rewrite strlen_prefix, Nat2Z.id by done. by rewrite take_app_length.
Qed.

(** The commands of a script, and the directories of its cd commands. *)
Definition commands (lines : list (list Z)) : list (list Z) := filter (fun b => is_cd b = false) lines.
Definition directories (lines : list (list Z)) : list (list Z) := map (drop 3) (filter (fun b => is_cd b = true) lines).

Lemma commands_cons b lines : commands (b :: lines) = if is_cd b then commands lines else b :: commands lines.
Proof. unfold commands. destruct (is_cd b) eqn:E; [by rewrite filter_cons_False by congruence|by rewrite filter_cons_True]. Qed.
Lemma directories_cons b lines : directories (b :: lines) = if is_cd b then drop 3 b :: directories lines else directories lines.
Proof. unfold directories. destruct (is_cd b) eqn:E; [by rewrite filter_cons_True|by rewrite filter_cons_False by congruence]. Qed.

Definition prompts (n : nat) : list Z := concat (repeat [36; 32] n).

(** The state at the end of the input. *)
Definition script_done (s : ust) (lines : list (list Z)) : ust :=
  Ust (u_files s) (<[0 := []]> (u_fd s)) (u_out s) (u_err s ++ prompts (S (length lines))) (u_faulty s)
    (u_forks s + length (commands lines)) (u_dirs s ++ directories lines).

(** One line of it. *)
Lemma script_done_cons s b lines m :
  script_done s (b :: lines) =
  script_done ((if is_cd b then fun s => u_went s (drop 3 b) else u_forked) (u_set_fd (u_add_err s [36; 32]) (<[0 := m]> (u_fd s)))) lines.
Proof.
  unfold script_done. rewrite commands_cons, directories_cons. destruct (is_cd b); cbn [u_files u_fd u_out u_err u_faulty u_forks u_dirs u_went u_forked u_set_fd u_add_err length];
    rewrite insert_insert_eq; f_equal; rewrite <- ?app_assoc; (done || lia).
Qed.

Definition script (lines : list (list Z)) : list Z := concat (map (fun b => b ++ [10]) lines).

Lemma sh_loop_script (R : nat -> uprog () -> Prop) lines : forall fuel s, u_faulty s = false -> u_fd s !! 0 = Some (script lines) ->
  Forall line_ok lines -> (length lines < fuel)%nat ->
  (forall i b, commands lines !! i = Some b -> R (u_forks s + i)%nat (run_line (line_buf b))) ->
  uwp R (sh_loop fuel) (fun x t => x = inr 0 /\ t = script_done s lines) s.
Proof.
  induction lines as [|b lines IH]; intros [|fuel] s Hs Hfd Hok Hf HR; cbn [length] in *; [lia| |lia|]; cbn [sh_loop]; apply uwp_bind.
  { apply getcmd_end; [done|done|]. split; [done|]. unfold script_done, u_add_err. cbn.
    rewrite insert_id, Nat.add_0_r, app_nil_r by done. done. }
  apply Forall_cons in Hok as [Hb Hok].
  unfold script in Hfd. cbn [map concat] in Hfd. rewrite <- app_assoc in Hfd. cbn [app] in Hfd.
  eapply getcmd_line; [done|exact Hfd|done|]. cbn [after]. rewrite is_cd_line. destruct (is_cd b) eqn:Hcd.
  - next_call. rewrite cd_dir by done. apply uwp_chdir. next_call. cbn [Z.ltb Z.compare ubind].
    eapply uwp_mono; [|apply IH; [done|apply lookup_insert_eq|done|lia|]].
    + intros x t [-> ->]. split; [done|]. rewrite (script_done_cons _ _ _ (script lines)), Hcd. done.
    + intros i c Hi. apply HR. by rewrite commands_cons, Hcd.
  - next_call. apply uwp_fork.
    + cbn. specialize (HR 0%nat b). rewrite Nat.add_0_r in HR. apply HR. by rewrite commands_cons, Hcd.
    + intros pid Hpid. next_call. rewrite (proj2 (Z.eqb_neq pid (-1))), (proj2 (Z.eqb_neq pid 0)) by lia. next_call.
      apply uwp_wait. intros wpid. next_call. eapply uwp_mono; [|apply IH; [done|apply lookup_insert_eq|done|lia|]].
      * intros x t [-> ->]. split; [done|]. rewrite (script_done_cons _ _ _ (script lines)), Hcd. done.
      * intros i c Hi. cbn. replace (S (u_forks s + i)) with (u_forks s + S i)%nat by lia. apply HR.
        by rewrite commands_cons, Hcd.
Qed.


(** ** What echo prints *)

Fixpoint joined (args : list (list Z)) : list Z :=
  match args with
  | [] => []
  | [a] => a ++ [10]
  | a :: args' => a ++ [32] ++ joined args'
  end.

(** echo prints its arguments with blanks between them and a newline. *)
Theorem echo_prints prog args s : u_faulty s = false ->
  uwp no_child (echo_main (prog :: args)) (fun x t => x = inr 0 /\ t = u_add_out s (joined args)) s.
Proof.
  intros Hs. unfold echo_main. cbn [drop]. eapply (uwp_seq _ _ _ _ (fun x t => x = inl () /\ t = u_add_out s (joined args))); [|by intros x t [-> ->]].
  revert s Hs. induction args as [|a args IH]; intros s Hs; cbn [echo_loop]; [by rewrite u_add_out_nil|].
  next_call. apply uwp_write_out; [|congruence]. destruct args as [|a' args]; next_call; (apply uwp_write_out; [|cbn; congruence]); next_call.
  - cbn [echo_loop]. by rewrite u_add_out_app.
  - eapply uwp_mono; [|by apply IH]. intros x t [-> ->]. split; [done|]. by rewrite !u_add_out_app.
Qed.

(** ** Witnesses *)

Definition ex_user : ust := Ust {[ [102] := [97; 98; 32; 99; 10]; [103] := [32; 100]; ascii_bytes "console" := [] ]} {[ 0 := [97; 10; 99; 100; 32; 100; 10] ]} [] [] false 0 [].

Lemma ex_user_small a data : u_files ex_user !! a = Some data -> (length data < 6)%nat.
Proof.
  intros H. apply elem_of_map_to_list in H. revert H. 
  assert (F : Forall (fun p => (length (snd p) < 6)%nat) (map_to_list (u_files ex_user))) by (apply (bool_decide_unpack _); by vm_compute).
  intros H. rewrite Forall_forall in F. by apply (F (a, data)).
Qed.

Lemma cat_copies_witness :
  uwp no_child (cat_main 6 [[99]; [102]; [103]; [104]]) (fun x t => x = inr 1 /\ u_out t = [97; 98; 32; 99; 10; 32; 100]) ex_user.
Proof.
  eapply uwp_mono; [|exact (cat_copies 6 [99] [[102]; [103]; [104]] ex_user ltac:(done) ex_user_small)].
  intros x t [[-> H]|[-> H]].
  - exfalso. inversion H as [Hm| |]. discriminate Hm.
  - split; [done|]. inversion H as [|a Hm|pre post m msg Hm]; [done|discriminate Hm].
Defined.

Lemma wc_counts_witness :
  uwp no_child (wc_main 6 [[119]; [102]]) (fun x t => x = inr 0 /\ u_out t = [49; 32; 50; 32; 53; 32; 102; 10]) ex_user.
Proof.
  destruct (wc_counts 6 [119] [[102]] ex_user) as [H _]; [done|done| |].
  - apply Forall_singleton. exists [97; 98; 32; 99; 10]. unfold countable. split_and!; [done|simpl; lia|simpl; lia].
  - eapply uwp_mono; [|exact H]. intros x t [-> ->]. by vm_compute.
Defined.

