(* ===== verification/Uart.v ===== *)
(** kernel/uart.c: the driver of the 16550a UART, its output buffer and its
    registers. *)

From S2P Require Import Prelude KMonad Ring.

(** ** Registers *)

Definition RHR : Z := 0.
Definition THR : Z := 0.
Definition IER : Z := 1.
Definition IER_RX_ENABLE : Z := Z.shiftl 1 0.
Definition IER_TX_ENABLE : Z := Z.shiftl 1 1.
Definition FCR : Z := 2.
Definition FCR_FIFO_ENABLE : Z := Z.shiftl 1 0.
Definition FCR_FIFO_CLEAR : Z := Z.shiftl 3 1.
Definition LCR : Z := 3.
Definition LCR_EIGHT_BITS : Z := Z.shiftl 3 0.
Definition LCR_BAUD_LATCH : Z := Z.shiftl 1 7.
Definition LSR : Z := 5.
Definition LSR_RX_READY : Z := Z.shiftl 1 0.
Definition LSR_TX_IDLE : Z := Z.shiftl 1 5.

(** The device: what a read of a register returns, and the effect of reads and
    writes on it.  [polls d] is how often the driver may have to look at the
    status register before the device in state [d] is ready. *)
Class UartDev (D : Type) := {
  reg_read : Z -> D -> Z * D;
  reg_write : Z -> Z -> D -> D;
  polls : D -> nat }.

(** The behaviour of a 16550: [sent] are the bytes it was given to transmit,
    [pending] the received bytes the driver has not read. *)
Class UartLaws (D : Type) {dev : UartDev D} := {
  sent : D -> list Z;
  pending : D -> list Z;
  pending_bytes d : Forall (fun c => 0 <= c < 256) (pending d);
  pending_polls d : (length (pending d) < polls d)%nat;
  lsr_sent d : sent (snd (reg_read LSR d)) = sent d;
  lsr_pending d : pending (snd (reg_read LSR d)) = pending d;
  lsr_ready d : Z.land (fst (reg_read LSR d)) LSR_RX_READY = 0 <-> pending d = [];
  rhr_read d c cs : pending d = c :: cs ->
    fst (reg_read RHR d) = c /\ pending (snd (reg_read RHR d)) = cs /\ sent (snd (reg_read RHR d)) = sent d;
  thr_write d c : Z.land (fst (reg_read LSR d)) LSR_TX_IDLE <> 0 ->
    sent (reg_write THR c (snd (reg_read LSR d))) = sent d ++ [u8 c] /\
    pending (reg_write THR c (snd (reg_read LSR d))) = pending d;
  idle_soon d : exists k, (k < polls d)%nat /\
    Z.land (fst (reg_read LSR (Nat.iter k (fun d => snd (reg_read LSR d)) d))) LSR_TX_IDLE <> 0 }.

(** ** The driver *)

Definition UART_TX_BUF_SIZE : Z := 32.

Record uart (D : Type) := Uart {
  u_dev : D;
  panicked : Z;
  uart_tx_buf : list Z;
  uart_tx_w : Z;
  uart_tx_r : Z }.
Arguments Uart {D} _ _ _ _ _.
Arguments u_dev {D} _.
Arguments panicked {D} _.
Arguments uart_tx_buf {D} _.
Arguments uart_tx_w {D} _.
Arguments uart_tx_r {D} _.

Section uart.
Context {D : Type} {dev : UartDev D}.
Abbreviation um := (M (uart D)).

Definition set_dev (d : D) (u : uart D) : uart D :=
  Uart d (panicked u) (uart_tx_buf u) (uart_tx_w u) (uart_tx_r u).

Definition ReadReg (reg : Z) : um Z :=
  u ← get;
  let '(v, d) := reg_read reg (u_dev u) in
  put (set_dev d u);;
  mret v.
Definition WriteReg (reg v : Z) : um () := modify (fun u => set_dev (reg_write reg (u8 v) (u_dev u)) u).

Definition uartinit : um () :=
  WriteReg IER 0x00;;
  WriteReg LCR LCR_BAUD_LATCH;;
  WriteReg 0 0x03;;
  WriteReg 1 0x00;;
  WriteReg LCR LCR_EIGHT_BITS;;
  WriteReg FCR (Z.lor FCR_FIFO_ENABLE FCR_FIFO_CLEAR);;
  WriteReg IER (Z.lor IER_TX_ENABLE IER_RX_ENABLE).

(** The loop of [uartstart]; every round takes a byte from the buffer. *)
Fixpoint uartstart_loop (fuel : nat) : um () :=
  match fuel with
  | O => ub "uartstart: fuel"
  | S f =>
      u ← get;
      if uart_tx_w u =? uart_tx_r u then mret ()
      else
        v ← ReadReg LSR;
        if Z.land v LSR_TX_IDLE =? 0 then mret ()
        else
          let c := nth (Z.to_nat (uart_tx_r u mod UART_TX_BUF_SIZE)) (uart_tx_buf u) 0 in
          modify (fun u => Uart (u_dev u) (panicked u) (uart_tx_buf u) (uart_tx_w u) (u64 (uart_tx_r u + 1)));;
          wakeup ChUartTxR;;
          WriteReg THR c;;
          uartstart_loop f
  end.

Definition uartstart : um () :=
  u ← get;
  uartstart_loop (S (Z.to_nat (u64 (uart_tx_w u - uart_tx_r u)))).

(** From the test of the loop of [uartputc] to its end, or to the next sleep. *)
Definition uartputc_loop (c : Z) : um segment :=
  u ← get;
  if uart_tx_w u =? u64 (uart_tx_r u + UART_TX_BUF_SIZE) then
    park L_uart;;
    mret (Slept ChUartTxR 0)
  else
    modify (fun u => Uart (u_dev u) (panicked u)
      (<[Z.to_nat (uart_tx_w u mod UART_TX_BUF_SIZE) := u8 c]> (uart_tx_buf u)) (u64 (uart_tx_w u + 1)) (uart_tx_r u));;
    uartstart;;
    release L_uart;;
    mret (Returned 0).

Definition uartputc (c : Z) : um segment :=
  acquire L_uart;;
  u ← get;
  if negb (panicked u =? 0) then spin "uartputc" else uartputc_loop c.

(** After a wakeup: [sleep] takes the lock again. *)
Definition uartputc_resume (c : Z) : um segment :=
  acquire L_uart;;
  uartputc_loop c.

(** [while((ReadReg(LSR) & LSR_TX_IDLE) == 0);] *)
Fixpoint wait_idle (n : nat) : um () :=
  match n with
  | O => spin "uartputc_sync"
  | S n' =>
      v ← ReadReg LSR;
      if Z.land v LSR_TX_IDLE =? 0 then wait_idle n' else mret ()
  end.

(** [push_off] and [pop_off] around it are in Spinlock.v. *)
Definition uartputc_sync (c : Z) : um () :=
  u ← get;
  if negb (panicked u =? 0) then spin "uartputc_sync"
  else
    wait_idle (polls (u_dev u));;
    WriteReg THR c.

Definition uartgetc : um Z :=
  v ← ReadReg LSR;
  if negb (Z.land v 0x01 =? 0) then ReadReg RHR else mret (-1).

(** The second half of [uartintr]. *)
Definition uart_send : um () :=
  acquire L_uart;;
  uartstart;;
  release L_uart.
End uart.

(** ** Specifications *)

Section spec.
Context {D : Type} {dev : UartDev D} {laws : UartLaws D}.
Implicit Types (w : world (uart D)) (u : uart D).

(** The bytes waiting in the buffer. *)
Definition unsent u : Z := u64 (uart_tx_w u - uart_tx_r u).
Definition queue u : list Z := ring UART_TX_BUF_SIZE (uart_tx_buf u) (uart_tx_r u) (Z.to_nat (unsent u)).

Record uart_ok u : Prop := {
  uo_buf : length (uart_tx_buf u) = Z.to_nat UART_TX_BUF_SIZE;
  uo_bytes : Forall (fun c => 0 <= c < 256) (uart_tx_buf u);
  uo_w : 0 <= uart_tx_w u < 2 ^ 64;
  uo_r : 0 <= uart_tx_r u < 2 ^ 64;
  uo_unsent : unsent u <= UART_TX_BUF_SIZE }.

Lemma wp_ReadReg r (Q : Z -> world (uart D) -> Prop) w :
  Q (fst (reg_read r (u_dev (w_st w)))) (set_st (set_dev (snd (reg_read r (u_dev (w_st w)))) (w_st w)) w) ->
  wp (ReadReg r) Q w.
Proof. intros HQ. apply wp_bind, wp_get. destruct (reg_read r (u_dev (w_st w))). by apply wp_bind, wp_put. Qed.

Lemma unsent_range u : 0 <= unsent u < 2 ^ 64.
Proof. apply u64_range. Qed.

Lemma queue_pop u d : uart_ok u -> uart_tx_w u <> uart_tx_r u ->
  let u' := Uart d (panicked u) (uart_tx_buf u) (uart_tx_w u) (u64 (uart_tx_r u + 1)) in
  uart_ok u' /\ unsent u' = unsent u - 1 /\
  queue u = nth (Z.to_nat (uart_tx_r u mod UART_TX_BUF_SIZE)) (uart_tx_buf u) 0 :: queue u'.
Proof.
  intros Hu Hne u'. assert (Hpos : 0 < unsent u).
  { pose proof (unsent_range u). destruct (decide (unsent u = 0)) as [E|]; [|lia].
    destruct Hne. symmetry. by apply (ahead_zero UART_TX_BUF_SIZE (2 ^ 64)); [..|apply Hu|apply Hu|]. }
  assert (Hl : unsent u' = unsent u - 1) by (by apply (ahead_r UART_TX_BUF_SIZE (2 ^ 64))).
  split; [|split; [done|by apply (ring_pop UART_TX_BUF_SIZE (2 ^ 64))]].
  destruct Hu. split; simpl; [done|done|done|auto with word|lia].
Qed.

Lemma queue_push u c : uart_ok u -> 0 <= c < 256 -> uart_tx_w u <> u64 (uart_tx_r u + UART_TX_BUF_SIZE) ->
  let u' := Uart (u_dev u) (panicked u) (<[Z.to_nat (uart_tx_w u mod UART_TX_BUF_SIZE) := c]> (uart_tx_buf u))
              (u64 (uart_tx_w u + 1)) (uart_tx_r u) in
  uart_ok u' /\ queue u' = queue u ++ [c].
Proof.
  intros Hu Hc Hne u'. assert (Hlt : unsent u < UART_TX_BUF_SIZE).
  { destruct (decide (unsent u = UART_TX_BUF_SIZE)) as [E|]; [|destruct Hu; lia].
    destruct Hne. by apply (ahead_full UART_TX_BUF_SIZE (2 ^ 64)); [..|apply Hu|]. }
  split; [|by apply (ring_push UART_TX_BUF_SIZE (2 ^ 64)); [..|apply Hu|]].
  assert (Hl : unsent u' = unsent u + 1).
  { apply (ahead_w UART_TX_BUF_SIZE (2 ^ 64)); [done..|]. change (unsent u < 2 ^ 64 - 1). unfold UART_TX_BUF_SIZE in *. lia. }
  destruct Hu. split; simpl; [by rewrite length_insert|by apply Forall_insert|auto with word|done|lia].
Qed.

(** The device was busy when the driver last looked. *)
Definition stalled u : Prop := exists d, u_dev u = snd (reg_read LSR d) /\ Z.land (fst (reg_read LSR d)) LSR_TX_IDLE = 0.

(** All bytes the driver was given: those sent, then those waiting. *)
Definition output u : list Z := sent (u_dev u) ++ queue u.

(** What [uartstart] does: [k] bytes go from the buffer to the device. *)
Record started w w' : Prop := {
  st_me : w_me w' = w_me w;
  st_held : w_held w' = w_held w;
  st_evs : exists k, w_evs w' = w_evs w ++ repeat (EvWakeup ChUartTxR) k;
  st_ok : uart_ok (w_st w');
  st_panicked : panicked (w_st w') = panicked (w_st w);
  st_output : output (w_st w') = output (w_st w);
  st_pending : pending (u_dev (w_st w')) = pending (u_dev (w_st w));
  st_end : queue (w_st w') = [] \/ stalled (w_st w') }.

Lemma queue_set_dev d u : queue (set_dev d u) = queue u.
Proof. done. Qed.

Lemma wp_uartstart_loop fuel : forall w, uart_ok (w_st w) -> (Z.to_nat (unsent (w_st w)) < fuel)%nat ->
  wp (uartstart_loop fuel) (fun _ => started w) w.
Proof.
  induction fuel as [|fuel IH]; intros w Hu Hf; [lia|]. cbn [uartstart_loop]. apply wp_bind, wp_get.
  destruct (Z.eqb_spec (uart_tx_w (w_st w)) (uart_tx_r (w_st w))) as [E|E].
  { apply wp_ret. split; try done; [by exists 0%nat; rewrite app_nil_r|]. left. unfold queue, unsent. by rewrite E, Z.sub_diag. }
  apply wp_bind, wp_ReadReg. set (d := u_dev (w_st w)) in *.
  destruct (Z.eqb_spec (Z.land (fst (reg_read LSR d)) LSR_TX_IDLE) 0) as [Ei|Ei].
  { apply wp_ret. split; try done.
    - by exists 0%nat; rewrite app_nil_r.
    - by destruct Hu.
    - unfold output. simpl. rewrite queue_set_dev. by rewrite lsr_sent.
    - apply lsr_pending.
    - right. by exists d. }
  destruct (queue_pop (w_st w) d Hu E) as (Hu' & Hl & Hq). set (c := nth _ (uart_tx_buf _) 0) in *.
  apply wp_bind, wp_modify, wp_bind, wp_emit, wp_bind, wp_modify. destruct (thr_write d (u8 c) Ei) as [Hs Hp].
  pose proof (unsent_range (w_st w)).
  match goal with |- wp _ _ ?v => set (w1 := v) end.
  assert (Hu2 : uart_ok (w_st w1)) by (by destruct Hu').
  assert (Hf2 : unsent (w_st w1) = unsent (w_st w) - 1) by exact Hl.
  pose proof (unsent_range (w_st w1)) as Hr2.
  eapply wp_mono; [|apply (IH w1 Hu2 ltac:(lia))]. unfold w1. intros _ w' [H1 H2 [k H3] H4 H5 H6 H7 H8]. split; try done.
  - exists (S k). rewrite H3. simpl. by rewrite <- app_assoc.
  - rewrite H6. unfold output. cbn [w_st set_st add_ev u_dev set_dev]. rewrite Hs, Hq, <- app_assoc. cbn [app]. do 2 f_equal.
    rewrite u8_idem. apply u8_small. unfold c. rewrite nth_lookup. destruct (_ !! _) as [x|] eqn:Ex; simpl; [|lia].
    by apply (proj1 (Forall_lookup _ _) (uo_bytes _ Hu) _ _ Ex).
  - rewrite H7. exact Hp.
Qed.

Lemma wp_uartstart w : uart_ok (w_st w) -> wp uartstart (fun _ => started w) w.
Proof. intros Hu. apply wp_bind, wp_get, wp_uartstart_loop; [done|]. unfold unsent. lia. Qed.

Lemma wp_wait_idle n k (Q : () -> world (uart D) -> Prop) : forall w, (k < n)%nat ->
  Z.land (fst (reg_read LSR (Nat.iter k (fun d => snd (reg_read LSR d)) (u_dev (w_st w))))) LSR_TX_IDLE <> 0 ->
  (forall d, sent d = sent (u_dev (w_st w)) -> pending d = pending (u_dev (w_st w)) -> 
     Z.land (fst (reg_read LSR d)) LSR_TX_IDLE <> 0 -> Q () (set_st (set_dev (snd (reg_read LSR d)) (w_st w)) w)) ->
  wp (wait_idle n) Q w.
Proof.
  revert k. induction n as [|n IH]; intros k w Hk Hi HQ; [lia|]. cbn [wait_idle]. apply wp_bind, wp_ReadReg.
  destruct (Z.eqb_spec (Z.land (fst (reg_read LSR (u_dev (w_st w)))) LSR_TX_IDLE) 0) as [E|E].
  - destruct k as [|k]; [done|]. rewrite Nat.iter_succ_r in Hi. apply (IH k); [lia|done|]. cbn [w_st set_st u_dev set_dev].
    rewrite lsr_sent, lsr_pending. intros d H1 H2 H3. by apply HQ.
  - apply wp_ret. by apply HQ.
Qed.

Lemma wp_uartputc_sync c (Q : () -> world (uart D) -> Prop) w : panicked (w_st w) = 0 ->
  (forall d, sent d = sent (u_dev (w_st w)) ++ [u8 c] -> pending d = pending (u_dev (w_st w)) -> Q () (set_st (set_dev d (w_st w)) w)) ->
  wp (uartputc_sync c) Q w.
Proof.
  intros Hp HQ. unfold uartputc_sync. apply wp_bind, wp_get. rewrite Hp. cbn [negb Z.eqb].
  destruct (idle_soon (u_dev (w_st w))) as (k & Hk & Hi). eapply wp_bind, wp_wait_idle; [exact Hk|exact Hi|]. intros d H1 H2 H3.
  apply wp_modify. cbn [w_st set_st u_dev set_dev]. destruct (thr_write d (u8 c) H3) as [H4 H5]. rewrite H1, u8_idem in H4.
  rewrite H2 in H5. destruct w as [me h e []]. by apply HQ.
Qed.

(** [uartputc], the first time and after a wakeup. *)
Definition put_post c w (seg : segment) w' : Prop :=
  w_me w' = w_me w /\ w_held w' = w_held w /\ uart_ok (w_st w') /\ panicked (w_st w') = panicked (w_st w) /\
  match seg with
  | Returned r => r = 0 /\ output (w_st w') = output (w_st w) ++ [u8 c] /\ (queue (w_st w') = [] \/ stalled (w_st w'))
  | Slept ch i => ch = ChUartTxR /\ i = 0 /\ w_st w' = w_st w /\ length (queue (w_st w)) = Z.to_nat UART_TX_BUF_SIZE
  end.

Lemma wp_uartputc_resume c w : uart_ok (w_st w) -> w_held w = [] -> wp (uartputc_resume c) (put_post c w) w.
Proof.
  intros Hu Hh. apply wp_bind, wp_acquire; [by rewrite Hh; apply not_elem_of_nil|]. rewrite Hh. unfold uartputc_loop.
  apply wp_bind, wp_get. cbn [w_st set_held]. destruct (Z.eqb_spec (uart_tx_w (w_st w)) (u64 (uart_tx_r (w_st w) + UART_TX_BUF_SIZE))) as [E|E].
  - apply wp_bind, wp_park; [done|]. apply wp_ret. split_and!; try done. unfold queue. rewrite length_ring. f_equal.
    by apply (ahead_full UART_TX_BUF_SIZE (2 ^ 64)); [..|apply Hu|].
  - destruct (queue_push (w_st w) (u8 c) Hu (u8_range c) E) as [Hu' Hq]. apply wp_bind, wp_modify. cbn [w_st set_held].
    match goal with |- wp _ _ ?v => eapply wp_bind, wp_mono; [|apply (wp_uartstart v); done] end.
    intros _ w' [H1 H2 H3 H4 H5 H6 H7 H8]. eapply wp_bind, wp_release; [exact H2|apply not_elem_of_nil|]. apply wp_ret.
    split_and!; try done. cbn [w_st set_held]. rewrite H6. unfold output. cbn [w_st set_st set_held u_dev]. rewrite Hq.
    apply app_assoc.
Qed.
End spec.
