(* ===== verification/Console.v ===== *)
(** kernel/console.c, and [uartintr] of kernel/uart.c which calls it: the line
    discipline of the console, and reading and writing it; and [printf] and
    [panic] of kernel/printf.c, which print on it. *)

From S2P Require Import Prelude KMonad Ring UserMem Printf Uart.

Definition BACKSPACE : Z := 0x100.
(** [C('P')] and the like. *)
Definition ctrl (x : Z) : Z := x - 64.
Definition C_P : Z := ctrl 80.
Definition C_U : Z := ctrl 85.
Definition C_H : Z := ctrl 72.
Definition C_D : Z := ctrl 68.
Definition DEL : Z := 127.
Definition NL : Z := 10.
Definition CR : Z := 13.

Definition INPUT_BUF_SIZE : Z := 128.

(** [cons] *)
Record cons_t := Cons {
  c_buf : list Z;
  c_r : Z;
  c_w : Z;
  c_e : Z }.

Record const (D U : Type) := ConsSt {
  cs_cons : cons_t;
  cs_uart : uart D;
  cs_mem : U }.
Arguments ConsSt {D U} _ _ _.
Arguments cs_cons {D U} _.
Arguments cs_uart {D U} _.
Arguments cs_mem {D U} _.

(** The console with [pr.locking] of kernel/printf.c. *)
Record prst (D U : Type) := PrSt {
  pr_console : const D U;
  pr_locking : Z }.
Arguments PrSt {D U} _ _.
Arguments pr_console {D U} _.
Arguments pr_locking {D U} _.

Section console.
Context {D U : Type} {dev : UartDev D} {uops : UserOps U}.
Abbreviation cm := (M (const D U)).

Definition cuart {A} (m : M (uart D) A) : cm A := zoom cs_uart (fun s x => ConsSt (cs_cons s) x (cs_mem s)) m.
Definition cmem {A} (m : M U A) : cm A := zoom cs_mem (fun s x => ConsSt (cs_cons s) (cs_uart s) x) m.
Definition getc : cm cons_t := gets cs_cons.
Definition setc (f : cons_t -> cons_t) : cm () := modify (fun s => ConsSt (f (cs_cons s)) (cs_uart s) (cs_mem s)).

Definition set_r (x : Z) (c : cons_t) : cons_t := Cons (c_buf c) (u32 x) (c_w c) (c_e c).
Definition set_w (x : Z) (c : cons_t) : cons_t := Cons (c_buf c) (c_r c) (u32 x) (c_e c).
Definition set_e (x : Z) (c : cons_t) : cons_t := Cons (c_buf c) (c_r c) (c_w c) (u32 x).

Definition consputc (c : Z) : cm () :=
  if c =? BACKSPACE then
    cuart (uartputc_sync 8);; cuart (uartputc_sync 32);; cuart (uartputc_sync 8)
  else cuart (uartputc_sync c).

(** The loop of [consolewrite] from [i]. *)
Fixpoint consolewrite_loop (fuel : nat) (src : source) (n i : Z) : cm segment :=
  match fuel with
  | O => ub "consolewrite: fuel"
  | S f =>
      if i <? n then
        x ← cmem (either_copyin (src_add src i) 1);
        match x with
        | (r, c :: _) =>
            if r =? -1 then mret (Returned i)
            else
              s ← cuart (uartputc c);
              match s with
              | Returned _ => consolewrite_loop f src n (i + 1)
              | Slept ch _ => mret (Slept ch i)
              end
        | (r, []) => if r =? -1 then mret (Returned i) else ub "consolewrite: c"
        end
      else mret (Returned i)
  end.

Definition consolewrite (src : source) (n : Z) : cm segment := consolewrite_loop (S (Z.to_nat n)) src n 0.

(** After a wakeup inside [uartputc(c)] at [i]; the byte was fetched before it
    slept. *)
Definition consolewrite_resume (src : source) (n i c : Z) : cm segment :=
  s ← cuart (uartputc_resume c);
  match s with
  | Returned _ => consolewrite_loop (S (Z.to_nat n)) src n (i + 1)
  | Slept ch _ => mret (Slept ch i)
  end.

(** After the loop of [consoleread]; [got] are the bytes it copied. *)
Definition consoleread_end (target n : Z) (got : list Z) : cm (segment * list Z) :=
  release L_cons;;
  mret (Returned (i32 (target - n)), got).

(** The loop of [consoleread]: it returns, or sleeps with [n] bytes to go. *)
Fixpoint consoleread_loop (fuel : nat) (dst : dest) (n target : Z) (got : list Z) : cm (segment * list Z) :=
  match fuel with
  | O => ub "consoleread: fuel"
  | S f =>
      if n >? 0 then
        s ← getc;
        if c_r s =? c_w s then
          k ← killed;
          if (k : bool) then
            release L_cons;;
            mret (Returned (-1), got)
          else
            park L_cons;;
            mret (Slept ChConsR n, got)
        else
          let c := nth (Z.to_nat (c_r s mod INPUT_BUF_SIZE)) (c_buf s) 0 in
          setc (fun s => set_r (c_r s + 1) s);;
          if c =? C_D then
            (if u32 n <? target then setc (fun s => set_r (c_r s - 1) s) else mret ());;
            consoleread_end target n got
          else
            x ← cmem (either_copyout dst [c]);
            if x =? -1 then consoleread_end target n got
            else if c =? NL then consoleread_end target (n - 1) (got ++ [c])
            else consoleread_loop f (dst_add dst 1) (n - 1) target (got ++ [c])
      else consoleread_end target n got
  end.

(** A call, [n = target], or what is left of it after a wakeup. *)
Definition consoleread_from (dst : dest) (n target : Z) : cm (segment * list Z) :=
  acquire L_cons;;
  consoleread_loop (S (Z.to_nat n)) (dst_add dst (target - n)) n target [].

Definition consoleread (dst : dest) (n : Z) : cm (segment * list Z) := consoleread_from dst n (u32 n).

(** [case C('U')]: the loop over the line. *)
Fixpoint kill_line (fuel : nat) : cm () :=
  match fuel with
  | O => ub "consoleintr: fuel"
  | S f =>
      s ← getc;
      if negb (c_e s =? c_w s) && negb (nth (Z.to_nat (u32 (c_e s - 1) mod INPUT_BUF_SIZE)) (c_buf s) 0 =? NL) then
        setc (fun s => set_e (c_e s - 1) s);;
        consputc BACKSPACE;;
        kill_line f
      else mret ()
  end.

(** Output of [printf], one [consputc] a byte. *)
Fixpoint consputs (l : list Z) : cm () :=
  match l with
  | [] => mret ()
  | c :: l' => consputc c;; consputs l'
  end.

(** [procdump] prints the bytes [dump] with [consputc]. *)
Definition procdump_to (dump : list Z) : cm () := consputs dump.

Definition consoleintr (dump : list Z) (c : Z) : cm () :=
  acquire L_cons;;
  (if c =? C_P then procdump_to dump
   else if c =? C_U then
     s ← getc;
     kill_line (S (Z.to_nat (u32 (c_e s - c_w s))))
   else if (c =? C_H) || (c =? DEL) then
     s ← getc;
     if negb (c_e s =? c_w s) then
       setc (fun s => set_e (c_e s - 1) s);;
       consputc BACKSPACE
     else mret ()
   else
     s ← getc;
     if negb (c =? 0) && (u32 (c_e s - c_r s) <? INPUT_BUF_SIZE) then
       let c := if c =? CR then NL else c in
       consputc c;;
       setc (fun s => set_e (c_e s + 1) (Cons (<[Z.to_nat (c_e s mod INPUT_BUF_SIZE) := u8 c]> (c_buf s)) (c_r s) (c_w s) (c_e s)));;
       s ← getc;
       if (c =? NL) || (c =? C_D) || (u32 (c_e s - c_r s) =? INPUT_BUF_SIZE) then
         setc (fun s => set_w (c_e s) s);;
         wakeup ChConsR
       else mret ()
     else mret ());;
  release L_cons.

(** The first loop of [uartintr]. *)
Fixpoint uartintr_loop (fuel : nat) (dump : list Z) : cm () :=
  match fuel with
  | O => spin "uartintr"
  | S f =>
      c ← cuart uartgetc;
      if c =? -1 then mret () else consoleintr dump c;; uartintr_loop f dump
  end.

Definition uartintr (dump : list Z) : cm () :=
  s ← get;
  uartintr_loop (polls (u_dev (cs_uart s))) dump;;
  cuart uart_send.

Definition consoleinit : cm () := cuart uartinit.

(** ** printf *)

Definition on_console {A} (m : cm A) : M (prst D U) A := zoom pr_console (fun s x => PrSt x (pr_locking s)) m.
Definition set_locking (x : Z) : M (prst D U) () := modify (fun s => PrSt (pr_console s) x).

Definition kprintf (fmt : option (list Z)) (args : list varg) : M (prst D U) () :=
  locking ← gets pr_locking;
  (if negb (locking =? 0) then acquire L_pr else mret ());;
  match fmt with
  | None => panic "null fmt"
  | Some fmt =>
      (match kprintf_loop fmt args with
       | Some l => on_console (consputs l)
       | None => ub "printf: arguments"
       end);;
      (if negb (locking =? 0) then release L_pr else mret ())
  end.

Definition printfinit : M (prst D U) () := set_locking 1.

(** [panic] up to its endless loop. *)
Definition panic_print (s : list Z) : M (prst D U) () :=
  set_locking 0;;
  kprintf (Some (ascii_bytes "panic: ")) [];;
  kprintf (Some s) [];;
  kprintf (Some [10]) [];;
  on_console (cuart (modify (fun u => Uart (u_dev u) 1 (uart_tx_buf u) (uart_tx_w u) (uart_tx_r u)))).
Definition kpanic (s : list Z) : M (prst D U) () := panic_print s;; spin "panic".
End console.

(** ** The line discipline *)

(** Input that readers can have, and the line being edited. *)
Record line := Line {
  ready : list Z;
  editing : list Z }.

(** What a key does, and whether readers are woken. *)
Definition key (c : Z) (l : line) : line * bool :=
  if c =? C_P then (l, false)
  else if c =? C_U then (Line (ready l) [], false)
  else if (c =? C_H) || (c =? DEL) then (Line (ready l) (removelast (editing l)), false)
  else if negb (c =? 0) && bool_decide (length (ready l ++ editing l) < 128)%nat then
    let c := if c =? CR then NL else c in
    let e := editing l ++ [c] in
    if (c =? NL) || (c =? C_D) || bool_decide (length (ready l ++ e) = 128%nat) then (Line (ready l ++ e) [], true)
    else (Line (ready l) e, false)
  else (l, false).

(** What a read of [n] bytes delivers, what it leaves, and whether it ends;
    [first] holds when nothing was delivered before.  Control-D ends the
    read, and stays for the next one when bytes were delivered. *)
Fixpoint take_line (n : nat) (first : bool) (rdy : list Z) : list Z * list Z * bool :=
  match n, rdy with
  | O, _ => ([], rdy, true)
  | _, [] => ([], [], false)
  | S n', c :: rest =>
      if c =? C_D then ([], if first then rest else rdy, true)
      else if c =? NL then ([c], rest, true)
      else let '(got, rest, fin) := take_line n' false rest in (c :: got, rest, fin)
  end.
