(* ===== verification/ConsoleSpec.v ===== *)
(** The console of kernel/console.c implements its line discipline, and its
    output reaches the device in order. *)

From S2P Require Import Prelude KMonad Ring UserMem Uart Console.

(** ** The input buffer *)

Abbreviation gap := (ahead (2 ^ 32)).

(** The buffer holds the line [l]. *)
Record line_rep (c : cons_t) (l : line) : Prop := {
  lr_buf : length (c_buf c) = Z.to_nat INPUT_BUF_SIZE;
  lr_r : 0 <= c_r c < 2 ^ 32;
  lr_w : 0 <= c_w c < 2 ^ 32;
  lr_e : 0 <= c_e c < 2 ^ 32;
  lr_room : gap (c_r c) (c_w c) + gap (c_w c) (c_e c) <= INPUT_BUF_SIZE;
  lr_ready : ready l = ring INPUT_BUF_SIZE (c_buf c) (c_r c) (Z.to_nat (gap (c_r c) (c_w c)));
  lr_editing : editing l = ring INPUT_BUF_SIZE (c_buf c) (c_w c) (Z.to_nat (gap (c_w c) (c_e c)));
  lr_nonl : NL ∉ editing l }.

Lemma gap_range r w : 0 <= gap r w < 2 ^ 32.
Proof. by apply (ahead_range INPUT_BUF_SIZE). Qed.

Lemma gap_refl r : gap r r = 0.
Proof. unfold ahead. by rewrite Z.sub_diag. Qed.

Lemma lr_total c l : line_rep c l -> gap (c_r c) (c_e c) = gap (c_r c) (c_w c) + gap (c_w c) (c_e c) /\
  Z.of_nat (length (ready l ++ editing l)) = gap (c_r c) (c_e c).
Proof.
  intros H. pose proof (lr_room _ _ H) as Hr. unfold INPUT_BUF_SIZE in Hr.
  pose proof (gap_range (c_r c) (c_w c)). pose proof (gap_range (c_w c) (c_e c)).
  assert (E : gap (c_r c) (c_e c) = gap (c_r c) (c_w c) + gap (c_w c) (c_e c)) by (apply (ahead_add INPUT_BUF_SIZE); [done..|lia]).
  split; [done|]. rewrite length_app, (lr_ready _ _ H), (lr_editing _ _ H), !length_ring. lia.
Qed.

Lemma lr_editing_nil c l : line_rep c l -> editing l = [] <-> c_e c = c_w c.
Proof.
  intros H. rewrite (lr_editing _ _ H). pose proof (gap_range (c_w c) (c_e c)).
  assert (E : c_e c = c_w c <-> gap (c_w c) (c_e c) = 0).
  { rewrite (ahead_zero INPUT_BUF_SIZE); [split; congruence|done|done|apply H|apply H]. }
  rewrite E. split; [|intros ->; done]. intros Hn. apply (f_equal length) in Hn. rewrite length_ring in Hn. simpl in Hn. lia.
Qed.

Lemma lr_ready_nil c l : line_rep c l -> ready l = [] <-> c_r c = c_w c.
Proof.
  intros H. rewrite (lr_ready _ _ H). pose proof (gap_range (c_r c) (c_w c)).
  rewrite <- (ahead_zero INPUT_BUF_SIZE (2 ^ 32)); [|done|done|apply H|apply H].
  split; [|intros ->; done]. intros Hn. apply (f_equal length) in Hn. rewrite length_ring in Hn. simpl in Hn. lia.
Qed.

Lemma rep_store c l x : line_rep c l -> gap (c_r c) (c_e c) < INPUT_BUF_SIZE ->
  let c' := set_e (c_e c + 1) (Cons (<[Z.to_nat (c_e c mod INPUT_BUF_SIZE) := x]> (c_buf c)) (c_r c) (c_w c) (c_e c)) in
  ready l = ring INPUT_BUF_SIZE (c_buf c') (c_r c') (Z.to_nat (gap (c_r c') (c_w c'))) /\
  editing l ++ [x] = ring INPUT_BUF_SIZE (c_buf c') (c_w c') (Z.to_nat (gap (c_w c') (c_e c'))) /\
  gap (c_r c') (c_w c') + gap (c_w c') (c_e c') = gap (c_r c) (c_e c) + 1.
Proof.
  intros H Hlt c'. destruct (lr_total _ _ H) as [E _]. pose proof (gap_range (c_r c) (c_w c)). pose proof (gap_range (c_w c) (c_e c)).
  unfold INPUT_BUF_SIZE in Hlt. simpl. split_and!.
  - rewrite (lr_ready _ _ H). symmetry. apply (ring_store INPUT_BUF_SIZE (2 ^ 32)); [done..|unfold INPUT_BUF_SIZE; lia].
  - rewrite (lr_editing _ _ H). symmetry. apply (ring_push INPUT_BUF_SIZE (2 ^ 32)); [done..|apply H|unfold INPUT_BUF_SIZE; lia].
  - rewrite E. unfold u32. rewrite (ahead_w INPUT_BUF_SIZE); [lia|done|done|lia].
Qed.

Lemma rep_push c l x : line_rep c l -> gap (c_r c) (c_e c) < INPUT_BUF_SIZE -> x <> NL ->
  line_rep (set_e (c_e c + 1) (Cons (<[Z.to_nat (c_e c mod INPUT_BUF_SIZE) := x]> (c_buf c)) (c_r c) (c_w c) (c_e c)))
    (Line (ready l) (editing l ++ [x])).
Proof.
  intros H Hlt Hx. destruct (rep_store c l x H Hlt) as (H1 & H2 & H3).
  split; [by simpl; rewrite length_insert, (lr_buf _ _ H)|apply H|apply H|by simpl; auto with word|lia|done|done|].
  simpl. rewrite elem_of_app, list_elem_of_singleton. intros [?|?]; [by apply (lr_nonl _ _ H)|done].
Qed.

(** [cons.w = cons.e] after a store. *)
Lemma rep_commit c l x : line_rep c l -> gap (c_r c) (c_e c) < INPUT_BUF_SIZE ->
  let c' := set_e (c_e c + 1) (Cons (<[Z.to_nat (c_e c mod INPUT_BUF_SIZE) := x]> (c_buf c)) (c_r c) (c_w c) (c_e c)) in
  line_rep (set_w (c_e c') c') (Line (ready l ++ editing l ++ [x]) []).
Proof.
  intros H Hlt c'. destruct (rep_store c l x H Hlt) as (H1 & H2 & H3). fold c' in H1, H2, H3.
  pose proof (gap_range (c_r c') (c_w c')). pose proof (gap_range (c_w c') (c_e c')).
  assert (Hb : gap (c_r c') (c_w c') + gap (c_w c') (c_e c') < 2 ^ 32) by (unfold INPUT_BUF_SIZE in *; lia).
  assert (E : u32 (c_e c') = c_e c') by (apply u32_small, u32_range).
  split; cbn [set_w c_buf c_r c_w c_e ready editing]; rewrite ?E.
  - simpl. by rewrite length_insert, (lr_buf _ _ H).
  - apply H.
  - apply u32_range.
  - apply u32_range.
  - rewrite (ahead_add INPUT_BUF_SIZE (2 ^ 32) eq_refl eq_refl (c_r c') (c_w c') (c_e c') Hb), gap_refl. lia.
  - rewrite H1, H2. symmetry. by apply (ring_split INPUT_BUF_SIZE (2 ^ 32)).
  - by rewrite gap_refl.
  - apply not_elem_of_nil.
Qed.

(** [cons.e--] *)
Lemma rep_back c l : line_rep c l -> c_e c <> c_w c ->
  line_rep (set_e (c_e c - 1) c) (Line (ready l) (removelast (editing l))) /\
  last (editing l) = Some (nth (Z.to_nat (u32 (c_e c - 1) mod INPUT_BUF_SIZE)) (c_buf c) 0).
Proof.
  intros H Hne. assert (Hpos : 0 < gap (c_w c) (c_e c)).
  { pose proof (gap_range (c_w c) (c_e c)). destruct (decide (gap (c_w c) (c_e c) = 0)) as [E|]; [|lia]. destruct Hne.
    symmetry. by apply (ahead_zero INPUT_BUF_SIZE (2 ^ 32)); [..|apply H|apply H|]. }
  pose proof (ring_unpush INPUT_BUF_SIZE (2 ^ 32) eq_refl eq_refl eq_refl (c_buf c) _ _ Hpos) as Hu.
  rewrite <- (lr_editing _ _ H) in Hu. split; [|by rewrite Hu, last_snoc]. rewrite Hu, removelast_last.
  pose proof (lr_room _ _ H). pose proof (ahead_w_back INPUT_BUF_SIZE (2 ^ 32) eq_refl eq_refl _ _ Hpos) as Hg.
  split; cbn [set_e c_buf c_r c_w c_e ready editing]; unfold u32; rewrite ?Hg; try apply H; [by apply Z.mod_pos_bound|lia|done|].
  pose proof (lr_nonl _ _ H) as Hn. rewrite Hu in Hn. intros ?. apply Hn, elem_of_app. rewrite Hg. by left.
Qed.

(** [cons.buf[cons.r++ % INPUT_BUF_SIZE]] *)
Lemma rep_pop c l : line_rep c l -> c_r c <> c_w c -> exists x rest, ready l = x :: rest /\
  nth (Z.to_nat (c_r c mod INPUT_BUF_SIZE)) (c_buf c) 0 = x /\ line_rep (set_r (c_r c + 1) c) (Line rest (editing l)) /\
  set_r (c_r (set_r (c_r c + 1) c) - 1) (set_r (c_r c + 1) c) = c.
Proof.
  intros H Hne. assert (Hpos : 0 < gap (c_r c) (c_w c)).
  { pose proof (gap_range (c_r c) (c_w c)). destruct (decide (gap (c_r c) (c_w c) = 0)) as [E|]; [|lia]. destruct Hne.
    by apply (ahead_zero INPUT_BUF_SIZE (2 ^ 32)); [..|apply H|apply H|]. }
  pose proof (ring_pop INPUT_BUF_SIZE (2 ^ 32) eq_refl eq_refl eq_refl (c_buf c) _ _ Hpos) as Hu.
  rewrite <- (lr_ready _ _ H) in Hu. eexists _, _. split; [exact Hu|]. split; [done|].
  pose proof (lr_room _ _ H). pose proof (ahead_r INPUT_BUF_SIZE (2 ^ 32) eq_refl eq_refl _ _ Hpos) as Hg. split.
  - split; cbn [set_r c_buf c_r c_w c_e ready editing]; unfold u32; rewrite ?Hg; try apply H; [by apply Z.mod_pos_bound|lia|done].
  - destruct c as [buf r w e]. unfold set_r. simpl. f_equal. unfold u32. rewrite Zminus_mod_idemp_l.
    replace (r + 1 - 1) with r by lia. apply Z.mod_small, H.
Qed.

(** ** Keys *)

Section spec.
Context {D U : Type} {dev : UartDev D} {dlaws : UartLaws D} {uops : UserOps U} {ulaws : UserLaws U}.
Implicit Types (w : world (const D U)) (l : line).

(** What the echo of [c] sends. *)
Definition echo_of (c : Z) : list Z := if c =? BACKSPACE then [8; 32; 8] else [u8 c].

(** The console is [c]; the device has been sent [out] more, the rest is the
    same. *)
Record echoed w w' (c : cons_t) (out : list Z) : Prop := {
  ec_me : w_me w' = w_me w;
  ec_held : w_held w' = w_held w;
  ec_evs : w_evs w' = w_evs w;
  ec_mem : cs_mem (w_st w') = cs_mem (w_st w);
  ec_cons : cs_cons (w_st w') = c;
  ec_panicked : panicked (cs_uart (w_st w')) = panicked (cs_uart (w_st w));
  ec_queue : queue (cs_uart (w_st w')) = queue (cs_uart (w_st w));
  ec_uart : uart_ok (cs_uart (w_st w)) -> uart_ok (cs_uart (w_st w'));
  ec_sent : sent (u_dev (cs_uart (w_st w'))) = sent (u_dev (cs_uart (w_st w))) ++ out;
  ec_pending : pending (u_dev (cs_uart (w_st w'))) = pending (u_dev (cs_uart (w_st w))) }.

Lemma echoed_refl w : echoed w w (cs_cons (w_st w)) [].
Proof. split; try done. by rewrite app_nil_r. Qed.

Lemma echoed_trans w w1 w2 c1 c2 o1 o2 : echoed w w1 c1 o1 -> echoed w1 w2 c2 o2 -> echoed w w2 c2 (o1 ++ o2).
Proof.
  intros [] []. split; try (by etrans); [|].
  - intros H. auto.
  - rewrite app_assoc. congruence.
Qed.

Lemma wp_putc_sync c (Q : () -> world (const D U) -> Prop) w : panicked (cs_uart (w_st w)) = 0 ->
  (forall w', echoed w w' (cs_cons (w_st w)) [u8 c] -> Q () w') -> wp (cuart (uartputc_sync c)) Q w.
Proof.
  intros Hp HQ. apply wp_zoom, wp_uartputc_sync; [done|]. intros d H1 H2. apply HQ. split; try done. intros []. by split.
Qed.

Lemma wp_consputc c (Q : () -> world (const D U) -> Prop) w : panicked (cs_uart (w_st w)) = 0 ->
  (forall w', echoed w w' (cs_cons (w_st w)) (echo_of c) -> Q () w') -> wp (consputc c) Q w.
Proof.
  intros Hp HQ. unfold consputc, echo_of in *. destruct (c =? BACKSPACE); [|by apply wp_putc_sync].
  apply wp_bind, wp_putc_sync; [done|]. intros w1 H1. apply wp_bind, wp_putc_sync; [by rewrite (ec_panicked _ _ _ _ H1)|].
  intros w2 H2. apply wp_putc_sync; [by rewrite (ec_panicked _ _ _ _ H2), (ec_panicked _ _ _ _ H1)|]. intros w3 H3. apply HQ.
  rewrite (ec_cons _ _ _ _ H2), (ec_cons _ _ _ _ H1) in H3.
  pose proof (echoed_trans _ _ _ _ _ _ _ (echoed_trans _ _ _ _ _ _ _ H1 H2) H3) as H. exact H.
Qed.

Lemma wp_consputs dump (Q : () -> world (const D U) -> Prop) : forall w, panicked (cs_uart (w_st w)) = 0 ->
  (forall w', echoed w w' (cs_cons (w_st w)) (concat (map echo_of dump)) -> Q () w') -> wp (consputs dump) Q w.
Proof.
  induction dump as [|c dump IH]; intros w Hp HQ; cbn [consputs].
  { apply wp_ret, HQ, echoed_refl. }
  apply wp_bind, wp_consputc; [done|]. intros w1 H1. apply IH; [by rewrite (ec_panicked _ _ _ _ H1)|]. intros w2 H2.
  apply HQ. cbn [map concat]. rewrite (ec_cons _ _ _ _ H1) in H2. by eapply echoed_trans.
Qed.

Lemma wp_setc f (Q : () -> world (const D U) -> Prop) w :
  (forall w', echoed w w' (f (cs_cons (w_st w))) [] -> Q () w') -> wp (setc f) Q w.
Proof. intros HQ. apply wp_modify, HQ. split; try done. by rewrite app_nil_r. Qed.

(** The bytes a key sends to the screen. *)
Definition echo (dump : list Z) (c : Z) l : list Z :=
  if c =? C_P then concat (map echo_of dump)
  else if c =? C_U then concat (map (fun _ => echo_of BACKSPACE) (editing l))
  else if (c =? C_H) || (c =? DEL) then match editing l with [] => [] | _ => echo_of BACKSPACE end
  else if negb (c =? 0) && bool_decide (length (ready l ++ editing l) < 128)%nat then echo_of (if c =? CR then NL else c)
  else [].

Lemma wp_kill_line fuel : forall w l (Q : () -> world (const D U) -> Prop),
  panicked (cs_uart (w_st w)) = 0 -> line_rep (cs_cons (w_st w)) l -> (length (editing l) < fuel)%nat ->
  (forall w' c, echoed w w' c (concat (map (fun _ => echo_of BACKSPACE) (editing l))) -> line_rep c (Line (ready l) []) -> Q () w') ->
  wp (kill_line fuel) Q w.
Proof.
  induction fuel as [|fuel IH]; intros w l Q Hp Hl Hf HQ; [lia|]. cbn [kill_line]. apply wp_bind, wp_gets.
  pose proof (lr_editing_nil _ _ Hl) as Hnil. destruct (Z.eqb_spec (c_e (cs_cons (w_st w))) (c_w (cs_cons (w_st w)))) as [E|E].
  { simpl. apply wp_ret. apply Hnil in E. destruct l as [rd ed]. simpl in *. subst ed. eapply HQ; [apply echoed_refl|done]. }
  destruct (rep_back _ _ Hl E) as [Hl' Hlast]. clear Hnil.
  assert (Hin : nth (Z.to_nat (u32 (c_e (cs_cons (w_st w)) - 1) mod INPUT_BUF_SIZE)) (c_buf (cs_cons (w_st w))) 0 ∈ editing l).
  { apply last_Some in Hlast as [l' ->]. apply elem_of_app. right. left. }
  destruct (Z.eqb_spec (nth (Z.to_nat (u32 (c_e (cs_cons (w_st w)) - 1) mod INPUT_BUF_SIZE)) (c_buf (cs_cons (w_st w))) 0) NL) as [En|En].
  { destruct (lr_nonl _ _ Hl). by rewrite <- En. }
  cbn [negb andb]. apply wp_bind, wp_setc. intros w1 H1. apply wp_bind, wp_consputc; [by rewrite (ec_panicked _ _ _ _ H1)|].
  intros w2 H2. rewrite (ec_cons _ _ _ _ H1) in H2. pose proof (echoed_trans _ _ _ _ _ _ _ H1 H2) as H12.
  assert (Hlen : length (editing l) = S (length (removelast (editing l)))).
  { apply last_Some in Hlast as [l' ->]. rewrite removelast_last, length_app. simpl. lia. }
  eapply IH; [by rewrite (ec_panicked _ _ _ _ H12)|by rewrite (ec_cons _ _ _ _ H12)|simpl; lia|]. intros w' c H3 Hc.
  eapply HQ; [|exact Hc]. pose proof (echoed_trans _ _ _ _ _ _ _ H12 H3) as H. cbn [app editing] in H.
  apply last_Some in Hlast as [l' El]. rewrite El in H |- *. rewrite removelast_last in H. rewrite map_app, concat_app.
  cbn [map concat]. rewrite app_nil_r. clear -H. generalize dependent (echo_of BACKSPACE). intros b H.
  replace (concat (map (λ _ : Z, b) l') ++ b) with (b ++ concat (map (λ _ : Z, b) l')); [done|].
  clear. induction l'; cbn [map concat]; [by rewrite app_nil_r|]. rewrite <- app_assoc. by rewrite <- IHl'.
Qed.

(** The effect of a key, up to the locks. *)
Definition key_post dump (c : Z) l w w' : Prop :=
  exists c', echoed w (World (w_me w') (w_held w') (w_evs w) (w_st w')) c' (echo dump c l) /\
    line_rep c' (fst (key c l)) /\
    w_evs w' = w_evs w ++ (if snd (key c l) then [EvWakeup ChConsR] else []).

Lemma key_post_intro dump c l w w' c' l' : echoed w w' c' (echo dump c l) -> key c l = (l', false) -> line_rep c' l' ->
  key_post dump c l w w'.
Proof.
  intros H Hk Hl. exists c'. rewrite Hk. split; [|split; [done|by rewrite app_nil_r, (ec_evs _ _ _ _ H)]]. by destruct H.
Qed.

(** The default case of the switch. *)
Lemma wp_store_key dump c l w (Q : () -> world (const D U) -> Prop) :
  panicked (cs_uart (w_st w)) = 0 -> line_rep (cs_cons (w_st w)) l -> 0 <= c < 256 ->
  c <> C_P -> c <> C_U -> c <> C_H -> c <> DEL ->
  (forall w', key_post dump c l w w' -> Q () w') ->
  wp (s ← getc;
      if negb (c =? 0) && (u32 (c_e s - c_r s) <? INPUT_BUF_SIZE) then
        let c := if c =? CR then NL else c in
        consputc c;;
        setc (fun s => set_e (c_e s + 1) (Cons (<[Z.to_nat (c_e s mod INPUT_BUF_SIZE) := u8 c]> (c_buf s)) (c_r s) (c_w s) (c_e s)));;
        s ← getc;
        if (c =? NL) || (c =? C_D) || (u32 (c_e s - c_r s) =? INPUT_BUF_SIZE) then
          setc (fun s => set_w (c_e s) s);;
          wakeup ChConsR
        else mret ()
      else mret ()) Q w.
Proof.
  intros Hp Hl Hc HP HU HH HD HQ. apply wp_bind, wp_gets. change (u32 (c_e ?a - c_r ?b)) with (gap (c_r b) (c_e a)).
  set (co := cs_cons (w_st w)) in *. destruct (lr_total _ _ Hl) as [_ Ht].
  assert (Hb : (gap (c_r co) (c_e co) <? INPUT_BUF_SIZE) = bool_decide (length (ready l ++ editing l) < 128)%nat).
  { unfold INPUT_BUF_SIZE. destruct (Z.ltb_spec (gap (c_r co) (c_e co)) 128); symmetry; [apply bool_decide_eq_true|apply bool_decide_eq_false]; lia. }
  assert (Hkey : key c l = (if negb (c =? 0) && bool_decide (length (ready l ++ editing l) < 128)%nat then
      let c := if c =? CR then NL else c in
      let e := editing l ++ [c] in
      if (c =? NL) || (c =? C_D) || bool_decide (length (ready l ++ e) = 128%nat) then (Line (ready l ++ e) [], true)
      else (Line (ready l) e, false) else (l, false)) /\
      echo dump c l = if negb (c =? 0) && bool_decide (length (ready l ++ editing l) < 128)%nat then echo_of (if c =? CR then NL else c) else []).
  { unfold key, echo. by rewrite (proj2 (Z.eqb_neq c C_P)), (proj2 (Z.eqb_neq c C_U)), (proj2 (Z.eqb_neq c C_H)), (proj2 (Z.eqb_neq c DEL)) by done. }
  destruct Hkey as [Hkey Hecho]. rewrite Hb.
  destruct (negb (c =? 0) && bool_decide (length (ready l ++ editing l) < 128)%nat) eqn:Econd.
  2:{ apply wp_ret, HQ. eapply key_post_intro; [rewrite Hecho; apply echoed_refl|done|done]. }
  apply andb_true_iff in Econd as [_ Hlt%bool_decide_eq_true]. set (x := if c =? CR then NL else c) in *.
  assert (Hx : 0 <= x < 256) by (unfold x, NL; destruct (c =? CR); lia).
  cbv zeta. apply wp_bind, wp_consputc; [done|]. intros w1 H1. apply wp_bind, wp_setc. intros w2 H2.
  rewrite (ec_cons _ _ _ _ H1), (u8_small x Hx) in H2. fold co in H2. pose proof (echoed_trans _ _ _ _ _ _ _ H1 H2) as H12.
  rewrite app_nil_r, <- Hecho in H12.
  assert (Hroom : gap (c_r co) (c_e co) < INPUT_BUF_SIZE) by (unfold INPUT_BUF_SIZE; lia).
  destruct (rep_store co l x Hl Hroom) as (_ & _ & Hsum).
  assert (Hfull : gap (c_r co) (u32 (c_e co + 1)) = Z.of_nat (length (ready l ++ editing l ++ [x]))).
  { unfold u32. rewrite (ahead_w INPUT_BUF_SIZE); [|done|done|unfold INPUT_BUF_SIZE in *; lia].
    rewrite app_assoc, length_app. simpl. lia. }
  apply wp_bind, wp_gets. rewrite (ec_cons _ _ _ _ H2). cbn [set_e c_e c_r].
  change (u32 (u32 (c_e co + 1) - c_r co)) with (gap (c_r co) (u32 (c_e co + 1))). rewrite Hfull.
  replace (Z.of_nat (length (ready l ++ editing l ++ [x])) =? INPUT_BUF_SIZE)
    with (bool_decide (length (ready l ++ editing l ++ [x]) = 128%nat)).
  2:{ unfold INPUT_BUF_SIZE. destruct (Z.eqb_spec (Z.of_nat (length (ready l ++ editing l ++ [x]))) 128);
        [apply bool_decide_eq_true|apply bool_decide_eq_false]; lia. }
  destruct ((x =? NL) || (x =? C_D) || _) eqn:Ecom.
  - apply wp_bind, wp_setc. intros w3 H3. rewrite (ec_cons _ _ _ _ H2) in H3. pose proof (echoed_trans _ _ _ _ _ _ _ H12 H3) as H13.
    rewrite app_nil_r in H13. apply wp_emit, HQ. eexists. split; [by destruct H13|]. rewrite Hkey. cbv zeta. rewrite Ecom.
    split; [by apply rep_commit|]. simpl. by rewrite (ec_evs _ _ _ _ H13).
  - apply wp_ret, HQ. eapply key_post_intro; [exact H12| |apply rep_push; [done|done|]].
    + rewrite Hkey. cbv zeta. by rewrite Ecom.
    + intros ->. done.
Qed.

Lemma wp_consoleintr dump c l w : panicked (cs_uart (w_st w)) = 0 -> line_rep (cs_cons (w_st w)) l -> 0 <= c < 256 ->
  L_cons ∉ w_held w -> wp (consoleintr dump c) (fun _ => key_post dump c l w) w.
Proof.
  intros Hp Hl Hc Hh. apply wp_bind, wp_acquire; [done|]. set (w1 := set_held _ w).
  assert (Hend : forall m : M (const D U) (), (forall Q : () -> world (const D U) -> Prop, (forall w', key_post dump c l w1 w' -> Q () w') -> wp m Q w1) ->
    wp (m;; release L_cons) (fun _ => key_post dump c l w) w1).
  { intros m Hm. apply wp_bind, Hm. intros w' (c' & H & Hl' & He). pose proof (ec_held _ _ _ _ H) as Hh'. simpl in Hh'.
    eapply wp_release; [exact Hh'|done|]. exists c'. split; [by destruct H|done]. }
  apply Hend. intros Q HQ. destruct (Z.eqb_spec c C_P) as [->|HP].
  { apply wp_consputs; [done|]. intros w' H. eapply HQ, key_post_intro; [exact H|done|done]. }
  destruct (Z.eqb_spec c C_U) as [->|HU].
  { apply wp_bind, wp_gets. destruct (lr_total _ _ Hl) as [_ Ht].
    eapply wp_kill_line; [done|exact Hl| |].
    - rewrite (lr_editing _ _ Hl), length_ring. unfold w1. simpl. unfold ahead, u32. lia.
    - intros w' c' H Hc'. eapply HQ, key_post_intro; [exact H|done|done]. }
  destruct ((c =? C_H) || (c =? DEL)) eqn:Eb.
  - apply wp_bind, wp_gets. pose proof (lr_editing_nil _ _ Hl) as Hnil. unfold w1 in *. cbn [w_st set_held] in *.
    assert (Hk : key c l = (Line (ready l) (removelast (editing l)), false) /\
       echo dump c l = match editing l with [] => [] | _ => echo_of BACKSPACE end).
    { unfold key, echo. by rewrite (proj2 (Z.eqb_neq c C_P)), (proj2 (Z.eqb_neq c C_U)), Eb by done. }
    destruct Hk as [Hk He].
    destruct (Z.eqb_spec (c_e (cs_cons (w_st w))) (c_w (cs_cons (w_st w)))) as [E|E]; cbn [negb].
    + apply wp_ret, HQ. apply Hnil in E. rewrite E in He, Hk. destruct l as [rd ed]. simpl in E. subst ed.
      eapply key_post_intro; [rewrite He; apply echoed_refl|exact Hk|done].
    + destruct (rep_back _ _ Hl E) as [Hl' Hlast]. apply wp_bind, wp_setc. intros w2 H2.
      apply wp_consputc; [by rewrite (ec_panicked _ _ _ _ H2)|]. intros w3 H3. rewrite (ec_cons _ _ _ _ H2) in H3.
      eapply HQ, key_post_intro; [|exact Hk|exact Hl']. rewrite He.
      destruct (editing l); [done|]. apply (echoed_trans _ _ _ _ _ _ _ H2 H3).
  - apply orb_false_iff in Eb as [HH%Z.eqb_neq HD%Z.eqb_neq]. by apply wp_store_key with (dump := dump) (l := l).
Qed.

(** ** Reads *)

(** The [n] bytes at [va] of the process can be written. *)
Definition mapped_to (u : U) (root va n : Z) : Prop :=
  um_ok u root /\ 0 <= va /\ va + n <= 2 ^ 64 /\ forall i, 0 <= i < n -> is_Some (um_byte u root (va + i)).

Record read_post w l (va n target : Z) (got : list Z) (res : segment * list Z) w' : Prop := {
  rd_me : w_me w' = w_me w;
  rd_held : w_held w' = [];
  rd_evs : w_evs w' = w_evs w;
  rd_uart : cs_uart (w_st w') = cs_uart (w_st w);
  rd_mem : exists bs rest fin, take_line (Z.to_nat n) (negb (n <? target)) (ready l) = (bs, rest, fin) /\
    line_rep (cs_cons (w_st w')) (Line rest (editing l)) /\
    read_frame (cs_mem (w_st w)) (cs_mem (w_st w')) (my_pagetable (w_me w)) va n /\
    ubytes (um_byte (cs_mem (w_st w')) (my_pagetable (w_me w))) va (length bs) = Some (map u8 bs) /\
    res = (if fin then Returned (target - n + Z.of_nat (length bs)) else Slept ChConsR (n - Z.of_nat (length bs)), got ++ bs) }.

Lemma wp_consoleread_end target n got w (Q : segment * list Z -> world (const D U) -> Prop) :
  w_held w = [L_cons] -> 0 <= target - n < 2 ^ 31 -> Q (Returned (target - n), got) (set_held [] w) ->
  wp (consoleread_end target n got) Q w.
Proof.
  intros Hh Hn HQ. eapply wp_bind, wp_release; [exact Hh|apply not_elem_of_nil|]. apply wp_ret. by rewrite i32_small by lia.
Qed.

(** One byte delivered, then the rest of the call. *)
Lemma cons_read_post_step w l (va n target : Z) (got : list Z) x rest u1 res w' :
  ready l = x :: rest -> x <> C_D -> x <> NL -> 0 <= va -> 0 < n <= target ->
  read_frame (cs_mem (w_st w)) u1 (my_pagetable (w_me w)) va 1 -> um_byte u1 (my_pagetable (w_me w)) va = Some (u8 x) ->
  read_post (set_st (ConsSt (set_r (c_r (cs_cons (w_st w)) + 1) (cs_cons (w_st w))) (cs_uart (w_st w)) u1) w)
    (Line rest (editing l)) (va + 1) (n - 1) target (got ++ [x]) res w' ->
  read_post w l va n target got res w'.
Proof.
  intros Hr HD HN Hva Hn Hf Hb [H1 H2 H3 H4 (bs & rest' & fin & Htl & Hl & Hfr & Hby & Hres)]. split; try done.
  exists (x :: bs), rest', fin. cbn [w_me w_st cs_mem set_st ready editing] in *.
  rewrite <- (length_map u8) in Hby. destruct (read_frame_step _ _ _ _ va (n - 1) _ _ Hva ltac:(lia) Hf Hb Hfr Hby) as [G1 G2].
  split_and!; [|done|by replace n with (n - 1 + 1) by lia|by rewrite <- (length_map u8)|].
  - rewrite Hr. replace (Z.to_nat n) with (S (Z.to_nat (n - 1))) by lia. cbn [take_line].
    rewrite (proj2 (Z.eqb_neq _ _) HD), (proj2 (Z.eqb_neq _ _) HN).
    assert (E : negb (n - 1 <? target) = false) by (apply negb_false_iff, Z.ltb_lt; lia). rewrite E in Htl. by rewrite Htl.
  - rewrite Hres, <- app_assoc. cbn [app length]. f_equal. destruct fin; f_equal; lia.
Qed.

Lemma wp_consoleread_loop fuel : forall va n target got l w,
  w_held w = [L_cons] -> my_killed (w_me w) = 0 -> line_rep (cs_cons (w_st w)) l -> 0 <= n <= target -> target < 2 ^ 31 ->
  mapped_to (cs_mem (w_st w)) (my_pagetable (w_me w)) va n -> (Z.to_nat n < fuel)%nat ->
  wp (consoleread_loop fuel (UserDst va) n target got) (read_post w l va n target got) w.
Proof.
  induction fuel as [|fuel IH]; intros va n target got l w Hh Hk Hl Hn Ht Hm Hf; [lia|]. cbn [consoleread_loop].
  destruct Hm as (Hok & Hva & Hlim & Hmap). set (root := my_pagetable (w_me w)) in *.
  destruct (Z.gtb_spec n 0) as [Hpos|Hz].
  2:{ assert (n = 0) as -> by lia. apply wp_consoleread_end; [done|lia|]. split; try done.
      exists [], (ready l), true. split_and!; [done|by destruct l|by apply read_frame_refl|done|]. f_equal; [|by rewrite app_nil_r].
      simpl. f_equal. lia. }
  replace (Z.to_nat n) with (S (Z.to_nat (n - 1))) in * by lia.
  apply wp_bind, wp_gets. destruct (Z.eqb_spec (c_r (cs_cons (w_st w))) (c_w (cs_cons (w_st w)))) as [E|E].
  { apply (lr_ready_nil _ _ Hl) in E. apply wp_bind, wp_killed; [rewrite Hh; by intros ?%list_elem_of_singleton|].
    rewrite Hk. cbn [negb Z.eqb]. apply wp_bind, wp_park; [done|]. apply wp_ret. split; try done. exists [], [], false.
    split_and!; [|by destruct l; simpl in E; subst|by apply read_frame_refl|done|].
    - rewrite E. by replace (Z.to_nat n) with (S (Z.to_nat (n - 1))) by lia.
    - rewrite app_nil_r. do 2 f_equal. simpl. lia. }
  destruct (rep_pop _ _ Hl E) as (x & rest & Hready & Hx & Hl' & Hback). rewrite Hx. apply wp_bind, wp_modify.
  set (co := cs_cons (w_st w)) in *.
  assert (Htl : take_line (Z.to_nat n) (negb (n <? target)) (ready l) =
    if x =? C_D then ([], if negb (n <? target) then rest else x :: rest, true)
    else if x =? NL then ([x], rest, true)
    else let '(got, rest, fin) := take_line (Z.to_nat (n - 1)) false rest in (x :: got, rest, fin)).
  { rewrite Hready. by replace (Z.to_nat n) with (S (Z.to_nat (n - 1))) by lia. }
  destruct (Z.eqb_spec x C_D) as [->|HD].
  { assert (Hfin : forall c l', line_rep c l' -> l' = Line (if negb (n <? target) then rest else C_D :: rest) (editing l) ->
      wp (consoleread_end target n got) (read_post w l va n target got) (set_st (ConsSt c (cs_uart (w_st w)) (cs_mem (w_st w))) w)).
    { intros c l' Hc ->. apply wp_consoleread_end; [done|lia|]. split; try done. do 3 eexists.
      split_and!; [exact Htl|done|by apply read_frame_refl|done|]. rewrite app_nil_r. simpl. do 2 f_equal. lia. }
    rewrite u32_small by lia. apply wp_bind. destruct (n <? target); [apply wp_modify|apply wp_ret].
    - cbn [w_st set_st cs_cons]. rewrite Hback. eapply Hfin; [exact Hl|]. simpl. rewrite <- Hready. by destruct l.
    - by eapply Hfin. }
  apply wp_bind, wp_zoom. cbn [either_copyout]. apply wp_bind, wp_myproc, um_copyout; [done|simpl; lia|].
  cbn [w_me w_st set_st cs_mem length]. fold root. intros r u1 Hok1 Hm1 Ho1 Hres.
  assert (Hb1 : r = 0 /\ um_byte u1 root va = Some (u8 x)).
  { destruct (Hmap 0 ltac:(lia)) as [b0 Hb0]. rewrite Z.add_0_r in Hb0. cbn [ubytes map] in Hres. rewrite Hb0 in Hres. cbn in Hres.
    destruct Hres as [[-> Hb]|[_ ?]]; [|done]. split; [done|]. destruct (um_byte u1 root va); [by injection Hb as ->|done]. }
  destruct Hb1 as [-> Hb1]. assert (Hfr : read_frame (cs_mem (w_st w)) u1 root va 1) by (by split). cbn [Z.eqb].
  destruct (Z.eqb_spec x NL) as [->|HN].
  - apply wp_consoleread_end; [done|lia|]. split; try done. do 3 eexists. split_and!; [exact Htl|exact Hl'| | |].
    + destruct Hfr as [F1 F2 F3]. split; [done|done|]. intros va' Hva' Hout. apply F3; simpl in *; lia.
    + cbn [length ubytes map w_st set_held set_st cs_mem]. fold root. by rewrite Hb1.
    + simpl. do 2 f_equal. lia.
  - cbn [dst_add]. assert (E1 : consoleread_loop (D := D) (U := U) fuel (UserDst (u64 (va + 1))) (n - 1) target (got ++ [x]) =
        consoleread_loop fuel (UserDst (va + 1)) (n - 1) target (got ++ [x])).
    { destruct (decide (n = 1)) as [->|]; [by destruct fuel|]. by rewrite u64_small by lia. }
    rewrite E1. eapply wp_mono; [|apply (IH _ _ _ _ (Line rest (editing l))); [done|done|done|lia|done| |lia]].
    + intros res w' Hpost. apply (cons_read_post_step w l va n target got x rest u1); [done..|lia|done|done|]. exact Hpost.
    + split_and!; [done|lia|lia|]. intros i Hi. cbn [w_st cs_mem]. apply Hm1; [lia|]. replace (va + 1 + i) with (va + (i + 1)) by lia.
      apply Hmap. lia.
Qed.

Lemma wp_consoleread_from va n target l w :
  w_held w = [] -> my_killed (w_me w) = 0 -> line_rep (cs_cons (w_st w)) l -> 0 <= n <= target -> target < 2 ^ 31 ->
  mapped_to (cs_mem (w_st w)) (my_pagetable (w_me w)) va target ->
  wp (consoleread_from (UserDst va) n target) (read_post w l (va + (target - n)) n target []) w.
Proof.
  intros Hh Hk Hl Hn Ht (Hok & Hva & Hlim & Hmap). apply wp_bind, wp_acquire; [rewrite Hh; apply not_elem_of_nil|]. rewrite Hh.
  assert (E1 : consoleread_loop (D := D) (U := U) (S (Z.to_nat n)) (dst_add (UserDst va) (target - n)) n target [] =
     consoleread_loop (S (Z.to_nat n)) (UserDst (va + (target - n))) n target []).
  { cbn [dst_add]. destruct (decide (n = 0)) as [->|]; [done|]. by rewrite u64_small by lia. }
  rewrite E1. eapply wp_mono; [|apply (wp_consoleread_loop _ _ _ _ _ l); [done|done|done|done|done| |lia]].
  - intros res w' [H1 H2 H3 H4 H5]. by split.
  - split_and!; [done|lia|lia|]. intros i Hi. replace (va + (target - n) + i) with (va + (target - n + i)) by lia. apply Hmap. lia.
Qed.

(** ** Writes *)

Lemma set_world_id w : World (w_me w) (w_held w) (w_evs w) (ConsSt (cs_cons (w_st w)) (cs_uart (w_st w)) (cs_mem (w_st w))) = w.
Proof. by destruct w as [? ? ? []]. Qed.

(** The uart accepted [bs]; nothing else changed. *)
Record wrote_out w w' (bs : list Z) : Prop := {
  wo_me : w_me w' = w_me w;
  wo_held : w_held w' = w_held w;
  wo_cons : cs_cons (w_st w') = cs_cons (w_st w);
  wo_mem : cs_mem (w_st w') = cs_mem (w_st w);
  wo_ok : uart_ok (cs_uart (w_st w'));
  wo_panicked : panicked (cs_uart (w_st w')) = panicked (cs_uart (w_st w));
  wo_output : output (cs_uart (w_st w')) = output (cs_uart (w_st w)) ++ bs }.

Lemma wrote_out_trans w w1 w2 b1 b2 : wrote_out w w1 b1 -> wrote_out w1 w2 b2 -> wrote_out w w2 (b1 ++ b2).
Proof. intros [] []. split; try (by etrans); [done|]. rewrite app_assoc. congruence. Qed.

Lemma wp_cuart_put (first : bool) c w (Q : segment -> world (const D U) -> Prop) :
  uart_ok (cs_uart (w_st w)) -> panicked (cs_uart (w_st w)) = 0 -> w_held w = [] -> 0 <= c < 256 ->
  (forall w', wrote_out w w' [c] -> Q (Returned 0) w') ->
  (forall w', wrote_out w w' [] -> Q (Slept ChUartTxR 0) w') ->
  wp (cuart (if first then uartputc c else uartputc_resume c)) Q w.
Proof.
  intros Hu Hp Hh Hc HR HS. apply wp_zoom.
  pose proof (wp_uartputc_resume c (World (w_me w) (w_held w) (w_evs w) (cs_uart (w_st w))) Hu Hh) as H.
  assert (E : (if first then uartputc c else uartputc_resume c) (World (w_me w) (w_held w) (w_evs w) (cs_uart (w_st w))) =
              uartputc_resume c (World (w_me w) (w_held w) (w_evs w) (cs_uart (w_st w)))).
  { destruct first; [|done]. unfold uartputc, uartputc_resume, mbind, M_bind. rewrite Hh. unfold KMonad.acquire.
    rewrite decide_False by apply not_elem_of_nil. cbn. by rewrite Hp. }
  unfold wp in *. rewrite E. destruct (uartputc_resume c _) as [seg w'| | | |] eqn:Er; [|done..].
  destruct H as (H1 & H2 & H3 & H4 & H5). simpl in *. destruct seg as [r|ch i].
  - destruct H5 as (-> & H5 & _).
    apply HR. split; try done. simpl. by rewrite H5, u8_small.
  - destruct H5 as (-> & -> & H5 & _).
    apply HS. split; try done. simpl. by rewrite H5, app_nil_r.
Qed.

(** The outcome of a write of the bytes [bs] from byte [i]. *)
Definition write_post (bs : list Z) (i : nat) w (seg : segment) w' : Prop :=
  match seg with
  | Returned r => r = Z.of_nat (length bs) /\ wrote_out w w' (drop i bs)
  | Slept ch j => ch = ChUartTxR /\ exists k, j = Z.of_nat k /\ (i <= k < length bs)%nat /\ wrote_out w w' (take (k - i) (drop i bs))
  end.

Lemma cons_write_post_step bs i x w w1 seg w' : bs !! i = Some x -> wrote_out w w1 [x] -> write_post bs (S i) w1 seg w' ->
  write_post bs i w seg w'.
Proof.
  intros Hx H1 H. pose proof (drop_S bs x i Hx) as Hd. destruct seg as [r|ch j]; cbn [write_post] in *.
  - destruct H as [-> H]. split; [done|]. rewrite Hd. by eapply (wrote_out_trans w w1 w' [x]).
  - destruct H as (-> & k & -> & Hk & H). split; [done|]. exists k. split; [done|]. split; [lia|]. rewrite Hd.
    replace (k - i)%nat with (S (k - S i)) by lia. by eapply (wrote_out_trans w w1 w' [x]).
Qed.

Lemma wrote_out_refl w : uart_ok (cs_uart (w_st w)) -> wrote_out w w [].
Proof. intros. split; try done. by rewrite app_nil_r. Qed.

Lemma src_byte_range u root va bs : ubytes (um_byte u root) va (length bs) = Some bs -> Forall (fun c => 0 <= c < 256) bs.
Proof.
  intros H. apply Forall_lookup. intros i x Hx. pose proof (lookup_lt_Some _ _ _ Hx) as Hi.
  rewrite (ubytes_lookup _ _ _ _ _ H Hi) in Hx. by eapply um_byte_range.
Qed.

Lemma wp_consolewrite_loop va bs fuel : forall i w,
  w_held w = [] -> uart_ok (cs_uart (w_st w)) -> panicked (cs_uart (w_st w)) = 0 ->
  src_has (w_me w) (cs_mem (w_st w)) (UserSrc va) bs -> (i <= length bs)%nat -> (length bs - i < fuel)%nat ->
  wp (consolewrite_loop fuel (UserSrc va) (Z.of_nat (length bs)) (Z.of_nat i)) (write_post bs i w) w.
Proof.
  induction fuel as [|fuel IH]; intros i w Hh Hu Hp Hs Hi Hf; [lia|]. cbn [consolewrite_loop].
  destruct (Z.ltb_spec (Z.of_nat i) (Z.of_nat (length bs))) as [Hlt|Hge].
  2:{ apply wp_ret. assert (i = length bs) as -> by lia. split; [done|]. rewrite drop_all. by apply wrote_out_refl. }
  destruct (lookup_lt_is_Some_2 bs i ltac:(lia)) as [x Hx]. pose proof (src_has_add _ _ _ _ (Z.of_nat i) Hs ltac:(lia)) as Hs1.
  rewrite Nat2Z.id in Hs1. assert (Hby : 0 <= x < 256).
  { destruct Hs as (_ & _ & _ & Hb). by apply (proj1 (Forall_lookup _ _) (src_byte_range _ _ _ _ Hb) i). }
  apply wp_bind, wp_zoom. apply (wp_either_copyin _ (drop i bs)); [done|rewrite length_drop; lia|].
  rewrite (drop_S bs x i Hx). cbn [take Z.to_nat Pos.to_nat Pos.iter_op]. simpl take. cbn [Z.eqb].
  cbn [w_me w_held w_evs w_st]. rewrite set_world_id. apply wp_bind, (wp_cuart_put true x); [done..| |].
  - intros w1 H1. replace (Z.of_nat i + 1) with (Z.of_nat (S i)) by lia.
    eapply wp_mono; [|apply (IH (S i) w1); [by rewrite (wo_held _ _ _ H1)|apply H1|by rewrite (wo_panicked _ _ _ H1)| |lia|lia]].
    + intros seg w'. by apply cons_write_post_step with (x := x).
    + by rewrite (wo_me _ _ _ H1), (wo_mem _ _ _ H1).
  - intros w1 H1. apply wp_ret. split; [done|]. exists i. rewrite Nat.sub_diag. split_and!; [done|lia|lia|done].
Qed.
End spec.
