(* ===== verification/ConsoleProps.v ===== *)
(** What the console of kernel/console.c and kernel/uart.c promises to the
    processes that read and write it. *)

From S2P Require Import Prelude KMonad Ring Riscv Kalloc Vm VmTable VmSpec VmUser VmCopy VmProps UserMem Printf Uart Console ConsoleSpec.

Section props.
Context {D U : Type} {dev : UartDev D} {dlaws : UartLaws D} {uops : UserOps U} {ulaws : UserLaws U}.
Implicit Types (w : world (const D U)).

(** ** Input *)

(** Keys typed at the keyboard, and calls of [consoleread] of a process: a
    call of [target] bytes with [n] still to read. *)
Inductive cop :=
| OKey (c : Z)
| ORead (va n target : Z).

Definition cop_run (dump : list Z) (o : cop) : M (const D U) (option (segment * list Z)) :=
  match o with
  | OKey c => consoleintr dump c;; mret None
  | ORead va n target => r ← consoleread_from (UserDst va) n target; mret (Some r)
  end.

Fixpoint console_run (dump : list Z) (ops : list cop) : M (const D U) (list (option (segment * list Z))) :=
  match ops with
  | [] => mret []
  | o :: ops' => r ← cop_run dump o; rs ← console_run dump ops'; mret (r :: rs)
  end.

(** The same on the line discipline, with the wakeups. *)
Definition cop_spec (o : cop) (l : line) : option (segment * list Z) * list event * line :=
  match o with
  | OKey c => (None, if snd (key c l) then [EvWakeup ChConsR] else [], fst (key c l))
  | ORead va n target =>
      let '(bs, rest, fin) := take_line (Z.to_nat n) (negb (n <? target)) (ready l) in
      (Some (if fin then Returned (target - n + Z.of_nat (length bs)) else Slept ChConsR (n - Z.of_nat (length bs)), bs),
       [], Line rest (editing l))
  end.

Fixpoint console_spec (ops : list cop) (l : line) : list (option (segment * list Z)) * list event * line :=
  match ops with
  | [] => ([], [], l)
  | o :: ops' =>
      let '(r, e, l1) := cop_spec o l in
      let '(rs, es, l2) := console_spec ops' l1 in (r :: rs, e ++ es, l2)
  end.

Definition cop_ok (u : U) (root : Z) (o : cop) : Prop :=
  match o with
  | OKey c => 0 <= c < 256
  | ORead va n target => 0 <= n <= target /\ target < 2 ^ 31 /\ mapped_to u root va target
  end.

(** A console at rest, holding the line [l]. *)
Record cons_idle w (l : line) : Prop := {
  ci_held : w_held w = [];
  ci_killed : my_killed (w_me w) = 0;
  ci_panicked : panicked (cs_uart (w_st w)) = 0;
  ci_line : line_rep (cs_cons (w_st w)) l }.

Lemma cop_ok_frame u u' root va n o : read_frame u u' root va n -> cop_ok u root o -> cop_ok u' root o.
Proof.
  intros [F1 F2 F3]. destruct o as [c|va' n' target]; [done|]. intros (H1 & H2 & _ & H4 & H5 & H6). split; [done|]. split; [done|].
  split; [done|]. split; [done|]. split; [done|]. intros i Hi. apply F2; [lia|]. by apply H6.
Qed.

Lemma wp_cop_run dump o l w (Q : option (segment * list Z) -> world (const D U) -> Prop) :
  cons_idle w l -> cop_ok (cs_mem (w_st w)) (my_pagetable (w_me w)) o ->
  (forall w', w_me w' = w_me w -> cons_idle w' (snd (cop_spec o l)) ->
     (forall o', cop_ok (cs_mem (w_st w)) (my_pagetable (w_me w)) o' -> cop_ok (cs_mem (w_st w')) (my_pagetable (w_me w)) o') ->
     w_evs w' = w_evs w ++ snd (fst (cop_spec o l)) -> Q (fst (fst (cop_spec o l))) w') ->
  wp (cop_run dump o) Q w.
Proof.
  intros [H1 H2 H3 H4] Ho HQ. destruct o as [c|va n target]; cbn [cop_run].
  - eapply wp_bind, wp_mono; [|apply (wp_consoleintr dump c l); [done|done|done|by rewrite H1; apply not_elem_of_nil]].
    intros _ w' (c' & [E1 E2 E3 E4 E5 E6 E7 E8 E9 E10] & Hl & He). apply wp_ret, HQ; [done| |by simpl in *; rewrite E4|done].
    simpl in *. split; simpl; congruence.
  - destruct Ho as (Hn & Ht & Hm).
    eapply wp_bind, wp_mono; [|by apply (wp_consoleread_from va n target l)].
    intros res w' [E1 E2 E3 E4 (bs & rest & fin & Htl & Hl & Hf & Hby & ->)]. apply wp_ret.
    cbn [cop_spec] in HQ. rewrite Htl in HQ. cbn [fst snd app] in *. apply HQ; [done| | |by rewrite app_nil_r].
    + split; simpl; congruence.
    + intros o'. by apply (cop_ok_frame _ _ _ _ _ _ Hf).
Qed.

(** C16: the line discipline.  Whatever keys are typed and whenever processes
    read, [consoleintr] and [consoleread] behave as the line discipline says:
    keys edit the current line, a newline, control-D or a full buffer hands it
    to the readers and wakes them, reads get the characters in the order
    typed, at most a line at a time, and a reader sleeps only when no line is
    there.  The 32-bit indices may wrap. *)
Theorem console_line_discipline dump ops l w :
  cons_idle w l -> Forall (cop_ok (cs_mem (w_st w)) (my_pagetable (w_me w))) ops ->
  wp (console_run dump ops) (fun rs w' =>
    rs = fst (fst (console_spec ops l)) /\ cons_idle w' (snd (console_spec ops l)) /\
    w_evs w' = w_evs w ++ snd (fst (console_spec ops l))) w.
Proof.
  revert l w. induction ops as [|o ops IH]; intros l w Hi Hok; cbn [console_run].
  { apply wp_ret. simpl. by rewrite app_nil_r. }
  apply Forall_cons in Hok as [Ho Hok]. eapply wp_bind, wp_cop_run; [exact Hi|exact Ho|]. intros w1 Hme Hi1 Hmono He1.
  cbn [console_spec]. destruct (cop_spec o l) as [[r e] l1]. cbn [fst snd] in *.
  eapply wp_bind, wp_mono; [|apply (IH l1 w1 Hi1)].
  - intros rs w2 (-> & Hi2 & He2). apply wp_ret. destruct (console_spec ops l1) as [[rs es] l2]. cbn [fst snd] in *.
    split_and!; [done|done|]. by rewrite He2, He1, app_assoc.
  - rewrite Hme. eapply Forall_impl; [exact Hok|]. apply Hmono.
Qed.

(** ** Output *)

(** A process that writes [bs] at [va] to the console: it runs, or a transmit
    interrupt arrives. *)
Inductive wop := WGo | WIntr.
Inductive wstate := WStart | WBlocked (i : nat) | WDone (r : Z).

Definition after (s : segment) : wstate :=
  match s with Returned r => WDone r | Slept _ i => WBlocked (Z.to_nat i) end.

Definition wop_run (va : Z) (bs : list Z) (o : wop) (st : wstate) : M (const D U) wstate :=
  match o, st with
  | WIntr, _ => cuart uart_send;; mret st
  | WGo, WStart => s ← consolewrite (UserSrc va) (Z.of_nat (length bs)); mret (after s)
  | WGo, WBlocked i => s ← consolewrite_resume (UserSrc va) (Z.of_nat (length bs)) (Z.of_nat i) (nth i bs 0); mret (after s)
  | WGo, WDone r => mret (WDone r)
  end.

Fixpoint write_run (va : Z) (bs : list Z) (ops : list wop) (st : wstate) : M (const D U) wstate :=
  match ops with
  | [] => mret st
  | o :: ops' => st ← wop_run va bs o st; write_run va bs ops' st
  end.

(** How many bytes the call has handed to the driver. *)
Definition progress (bs : list Z) (st : wstate) : nat :=
  match st with WStart => 0 | WBlocked i => i | WDone _ => length bs end.

Definition wstate_ok (bs : list Z) (st : wstate) : Prop :=
  match st with
  | WStart => True
  | WBlocked i => (i < length bs)%nat
  | WDone r => r = Z.of_nat (length bs)
  end.

(** From [st] to [st'] the driver got the bytes between. *)
Definition advanced (bs : list Z) (st : wstate) w (st' : wstate) w' : Prop :=
  wstate_ok bs st' /\ (progress bs st <= progress bs st' <= length bs)%nat /\
  wrote_out w w' (take (progress bs st' - progress bs st) (drop (progress bs st) bs)).

Lemma write_post_advanced bs st i w seg w' : progress bs st = i -> (i <= length bs)%nat -> write_post bs i w seg w' ->
  advanced bs st w (after seg) w'.
Proof.
  intros Hi Hle H. unfold advanced. rewrite Hi. destruct seg as [r|ch j]; cbn [write_post after progress wstate_ok] in *.
  - destruct H as [-> H]. split_and!; [done|lia|lia|]. by rewrite take_ge by (rewrite length_drop; lia).
  - destruct H as (-> & k & -> & Hk & H). rewrite Nat2Z.id. split_and!; [lia..|done].
Qed.

Lemma advanced_trans bs st st1 st2 w w1 w2 : advanced bs st w st1 w1 -> advanced bs st1 w1 st2 w2 -> advanced bs st w st2 w2.
Proof.
  intros (H1 & H2 & H3) (H4 & H5 & H6). split; [done|]. split; [lia|].
  pose proof (wrote_out_trans _ _ _ _ _ H3 H6) as H. set (a := progress bs st) in *. set (b := progress bs st1) in *.
  set (c := progress bs st2) in *. replace (c - a)%nat with ((b - a) + (c - b))%nat by lia.
  replace (drop b bs) with (drop (b - a) (drop a bs)) in H by (rewrite drop_drop; f_equal; lia).
  by rewrite <- take_take_drop.
Qed.

Lemma wp_wop_run va bs o st w : w_held w = [] -> uart_ok (cs_uart (w_st w)) -> panicked (cs_uart (w_st w)) = 0 ->
  src_has (w_me w) (cs_mem (w_st w)) (UserSrc va) bs -> wstate_ok bs st ->
  wp (wop_run va bs o st) (advanced bs st w) w.
Proof.
  intros Hh Hu Hp Hs Hst.
  assert (Hsame : advanced bs st w st w).
  { split; [done|]. split; [destruct st; simpl in *; lia|]. rewrite Nat.sub_diag. by apply wrote_out_refl. }
  destruct o; [destruct st as [|i|r]|]; cbn [wop_run].
  - eapply wp_bind, wp_mono; [|by apply (wp_consolewrite_loop va bs _ 0 w); [..|lia|lia]].
    intros seg w' H. apply wp_ret. apply (write_post_advanced bs WStart 0); [done|lia|exact H].
  - destruct (lookup_lt_is_Some_2 bs i Hst) as [x Hx]. rewrite (nth_lookup_Some bs i 0 x Hx).
    assert (Hby : 0 <= x < 256) by (destruct Hs as (_ & _ & _ & Hb); by apply (proj1 (Forall_lookup _ _) (src_byte_range _ _ _ _ Hb) i)).
    simpl in Hst. assert (Hgo : wp (consolewrite_resume (UserSrc va) (Z.of_nat (length bs)) (Z.of_nat i) x) (write_post bs i w) w).
    { apply wp_bind, (wp_cuart_put false x); [done..| |].
      - intros w1 H1. replace (Z.of_nat i + 1) with (Z.of_nat (S i)) by lia.
        eapply wp_mono; [|apply (wp_consolewrite_loop va bs _ (S i) w1); [by rewrite (wo_held _ _ _ H1)|apply H1|by rewrite (wo_panicked _ _ _ H1)| |lia|lia]].
        + intros seg w'. by apply cons_write_post_step with (x := x).
        + by rewrite (wo_me _ _ _ H1), (wo_mem _ _ _ H1).
      - intros w1 H1. apply wp_ret. split; [done|]. exists i. rewrite Nat.sub_diag. split_and!; [done|lia|lia|done]. }
    eapply wp_bind, wp_mono; [|exact Hgo]. intros seg w' H. apply wp_ret.
    apply (write_post_advanced bs (WBlocked i) i); [done|lia|exact H].
  - by apply wp_ret.
  - apply wp_bind, wp_zoom. apply wp_bind, wp_acquire; [simpl; rewrite Hh; apply not_elem_of_nil|]. simpl. rewrite Hh.
    match goal with |- wp _ _ ?v => eapply wp_bind, wp_mono; [|by apply (wp_uartstart v)] end.
    intros _ w' [H1 H2 H3 H4 H5 H6 H7 H8]. eapply wp_release; [exact H2|apply not_elem_of_nil|]. apply wp_ret.
    destruct Hsame as (S1 & S2 & S3). split; [done|]. split; [done|]. rewrite Nat.sub_diag. split; try done. simpl. by rewrite app_nil_r.
Qed.

Lemma write_run_advanced va bs ops : forall st w,
  w_held w = [] -> uart_ok (cs_uart (w_st w)) -> panicked (cs_uart (w_st w)) = 0 ->
  src_has (w_me w) (cs_mem (w_st w)) (UserSrc va) bs -> wstate_ok bs st ->
  wp (write_run va bs ops st) (advanced bs st w) w.
Proof.
  induction ops as [|o ops IH]; intros st w Hh Hu Hp Hs Hst; cbn [write_run].
  { apply wp_ret. split; [done|]. split; [destruct st; simpl in *; lia|]. rewrite Nat.sub_diag. by apply wrote_out_refl. }
  eapply wp_bind, wp_mono; [|by apply wp_wop_run]. intros st1 w1 H1. pose proof H1 as (Hst1 & _ & [E1 E2 E3 E4 E5 E6 E7]).
  eapply wp_mono; [|apply IH; [by rewrite E2|done|by rewrite E6|by rewrite E1, E4|done]].
  intros st2 w2 H2. by eapply advanced_trans.
Qed.

(** C33: console output.  A process that writes a buffer to the console gets it
    to the driver byte for byte and in order: however transmit interrupts and
    wakeups fall, what the device was sent and what waits in the buffer is the
    earlier output followed by the part of the buffer written so far, which is
    all of it when the call returns; the call returns its length. *)
Theorem console_write_in_order va bs ops w :
  w_held w = [] -> uart_ok (cs_uart (w_st w)) -> panicked (cs_uart (w_st w)) = 0 ->
  src_has (w_me w) (cs_mem (w_st w)) (UserSrc va) bs ->
  wp (write_run va bs ops WStart) (fun st w' =>
    output (cs_uart (w_st w')) = output (cs_uart (w_st w)) ++ take (progress bs st) bs /\
    match st with WDone r => r = Z.of_nat (length bs) | _ => True end /\
    uart_ok (cs_uart (w_st w'))) w.
Proof.
  intros Hh Hu Hp Hs. eapply wp_mono; [|by apply write_run_advanced]. intros st w' (H1 & H2 & [E1 E2 E3 E4 E5 E6 E7]).
  cbn [progress] in E7. rewrite Nat.sub_0_r, drop_0 in E7. split; [done|]. split; [by destruct st|done].
Qed.
(** ** printf and panic *)

Abbreviation uart_of w := (cs_uart (pr_console (w_st w))).
Definition bytes_of (l : list Z) : Prop := Forall (fun c => 0 <= c < 256) l.

(** The device was sent [out], and nothing else of the console changed. *)
Record printed (w w' : world (prst D U)) (out : list Z) : Prop := {
  pd_me : w_me w' = w_me w;
  pd_held : w_held w' = w_held w;
  pd_evs : w_evs w' = w_evs w;
  pd_mem : cs_mem (pr_console (w_st w')) = cs_mem (pr_console (w_st w));
  pd_cons : cs_cons (pr_console (w_st w')) = cs_cons (pr_console (w_st w));
  pd_locking : pr_locking (w_st w') = pr_locking (w_st w);
  pd_panicked : panicked (uart_of w') = panicked (uart_of w);
  pd_queue : queue (uart_of w') = queue (uart_of w);
  pd_sent : sent (u_dev (uart_of w')) = sent (u_dev (uart_of w)) ++ out }.

Lemma echo_bytes l : bytes_of l -> concat (map echo_of l) = l.
Proof.
  induction 1 as [|c l Hc Hl IH]; [done|]. cbn [map concat]. rewrite IH. unfold echo_of, BACKSPACE.
  rewrite (proj2 (Z.eqb_neq c 256)) by lia. cbn. by rewrite u8_small.
Qed.

(** printf prints the formatted text.  The bytes of the format with its
    arguments go to the device in order; the lock around them is free again
    afterwards, and without [locking] it is not touched. *)
Theorem kprintf_prints fmt args l (w : world (prst D U)) (Q : () -> world (prst D U) -> Prop) :
  kprintf_loop fmt args = Some l -> bytes_of l -> panicked (uart_of w) = 0 ->
  (pr_locking (w_st w) <> 0 -> L_pr ∉ w_held w) ->
  (forall w' : world (prst D U), printed w w' l -> Q () w') -> wp (kprintf (Some fmt) args) Q w.
Proof.
  intros Hl Hb Hp Hlock HQ. unfold kprintf. rewrite Hl. apply wp_bind, wp_gets, wp_bind.
  destruct (Z.eqb_spec (pr_locking (w_st w)) 0) as [E|E]; cbn [negb].
  - apply wp_ret, wp_bind, wp_zoom, wp_consputs; [done|]. intros w' [] . apply wp_ret, HQ.
    rewrite echo_bytes in * by done. by split.
  - apply wp_acquire; [by apply Hlock|]. apply wp_bind, wp_zoom, wp_consputs; [done|]. intros w' [].
    rewrite echo_bytes in * by done. eapply wp_release; [exact ec_held|by apply Hlock|]. apply HQ. by split.
Qed.

(** panic reports on the console.  Whatever locks the CPU holds, also that of
    printf, panic prints its message and then stops the uart for all CPUs: a
    CPU that prints or writes to the console afterwards spins. *)
Theorem panic_reports s l (w : world (prst D U)) : kprintf_loop s [] = Some l -> bytes_of l -> panicked (uart_of w) = 0 ->
  wp (panic_print s) (fun _ (w' : world (prst D U)) =>
    sent (u_dev (uart_of w')) = sent (u_dev (uart_of w)) ++ ascii_bytes "panic: " ++ l ++ [10] /\
    w_held w' = w_held w /\
    forall c w2, cs_uart (w_st w2) = uart_of w' -> L_uart ∉ w_held w2 ->
      consputc c w2 = Spin "uartputc_sync" /\ cuart (uartputc c) w2 = Spin "uartputc") w.
Proof.
  intros Hl Hb Hp. unfold panic_print. apply wp_bind, wp_modify, wp_bind.
  eapply kprintf_prints; [reflexivity|apply (bool_decide_unpack _); by vm_compute|done|done|]. intros w1 P1. apply wp_bind.
  eapply kprintf_prints; [done|done|by rewrite (pd_panicked _ _ _ P1)|by rewrite (pd_locking _ _ _ P1)|]. intros w2 P2. apply wp_bind.
  eapply kprintf_prints; [reflexivity|apply Forall_singleton; lia|by rewrite (pd_panicked _ _ _ P2), (pd_panicked _ _ _ P1)|by rewrite (pd_locking _ _ _ P2), (pd_locking _ _ _ P1)|].
  intros w3 P3. apply wp_zoom, wp_zoom, wp_modify. cbn. split_and!.
  - rewrite (pd_sent _ _ _ P3), (pd_sent _ _ _ P2), (pd_sent _ _ _ P1), <- !app_assoc. done.
  - by rewrite (pd_held _ _ _ P3), (pd_held _ _ _ P2), (pd_held _ _ _ P1).
  - intros c w4 H4 Hu.
    assert (E : panicked (cs_uart (w_st w4)) = 1) by (by rewrite H4). split.
    + unfold consputc, cuart, zoom, uartputc_sync, get. cbn. destruct (c =? BACKSPACE); cbv [mbind M_bind zoom]; cbn; by rewrite E.
    + unfold cuart, zoom, uartputc. cbv [mbind M_bind acquire get]. cbn. rewrite decide_False by done. cbn. by rewrite E.
Qed.
End props.

(** ** Witnesses *)

(** A uart that is always ready to send. *)
Definition ex_dev : Type := list Z * list Z.

#[local] Instance ex_uart_dev : UartDev ex_dev := {
  reg_read r d :=
    if r =? LSR then (match d.2 with [] => LSR_TX_IDLE | _ => Z.lor LSR_TX_IDLE LSR_RX_READY end, d)
    else match d.2 with c :: cs => (u8 c, (d.1, cs)) | [] => (0, d) end;
  reg_write r v d := if r =? THR then (d.1 ++ [u8 v], d.2) else d;
  polls d := S (length d.2) }.

#[local] Instance ex_uart_laws : UartLaws ex_dev.
Proof.
  refine {| sent d := d.1; pending d := map u8 d.2 |}.
  - intros d. apply Forall_map, Forall_true. intros c. apply u8_range.
  - intros d. cbn. rewrite length_map. lia.
  - done.
  - done.
  - intros [s [|c cs]]; cbn; split; done.
  - intros [s [|c' cs']] c cs; cbn; [done|]. by intros [= -> ->].
  - done.
  - intros [s p]. exists 0%nat. split; [cbn; lia|]. by destruct p.
Defined.

Section ex.
#[local] Existing Instance ex_symbols.
#[local] Existing Instance ex_symbols_ok.

Definition ex_uart : uart ex_dev := Uart ([], []) 0 (repeat 0 32) (2 ^ 64 - 1) (2 ^ 64 - 1).
(** The console right before its indices wrap. *)
Definition ex_cons : cons_t := Cons (repeat 0 128) (2 ^ 32 - 1) (2 ^ 32 - 1) (2 ^ 32 - 1).
Definition ex_cons_world : world (const ex_dev phys) := World (Me 0 7 ex_root 0) [] [] (ConsSt ex_cons ex_uart ex_vm).

Lemma ex_cons_idle : cons_idle ex_cons_world (Line [] []).
Proof. split; [done..|]. split; try done; try (vm_compute; split; congruence). apply not_elem_of_nil. Qed.

Lemma ex_uart_ok : uart_ok ex_uart.
Proof.
  split; [done|by repeat (apply Forall_cons; split; [lia|]); apply Forall_nil|vm_compute; split; congruence..|vm_compute; congruence].
Qed.

Lemma ex_console_um : um_ok ex_vm ex_root.
Proof. exists [ex_free]. split; [apply ex_vm_ok|apply ex_user_ok]. Qed.

Lemma ex_user_byte i : 0 <= i < 4096 -> um_byte ex_vm ex_root i = Some (rd ex_mem (ex_user + i)).
Proof.
  intros Hi. change (um_byte ex_vm ex_root i) with (rd ex_mem <$> ubyte ex_mem ex_root i). unfold ubyte.
  rewrite ex_upage by lia. rewrite decide_True by (apply Z.div_small; lia). by rewrite Z.mod_small by lia.
Qed.

(** "lz", a backspace, "s" and a return are typed before the read. *)
Definition ex_ops : list cop := [OKey 108; OKey 122; OKey 8; OKey 115; OKey 13; ORead 0 16 16; ORead 0 16 16].

Lemma console_line_discipline_witness :
  exists w', console_run [] ex_ops ex_cons_world =
    Ok [None; None; None; None; None; Some (Returned 3, [108; 115; 10]); Some (Slept ChConsR 16, [])] w'.
Proof.
  assert (Hr : cop_ok ex_vm ex_root (ORead 0 16 16)).
  { split; [lia|]. split; [lia|]. split; [apply ex_console_um|]. split; [lia|]. split; [lia|]. intros i Hi.
    rewrite ex_user_byte by lia. by eexists. }
  destruct (wp_elim _ _ _ (console_line_discipline [] ex_ops (Line [] []) ex_cons_world ex_cons_idle
    ltac:(repeat (apply Forall_cons; split; [first [exact Hr | cbn; lia]|]); by apply Forall_nil)))
    as (rs & w' & Hrun & -> & _).
  exists w'. exact Hrun.
Defined.

Lemma console_write_in_order_witness :
  exists st w', write_run 0 [rd ex_mem ex_user] [WIntr; WGo] WStart ex_cons_world = Ok st w' /\
    output (cs_uart (w_st w')) = take (progress [rd ex_mem ex_user] st) [rd ex_mem ex_user].
Proof.
  destruct (wp_elim _ _ _ (console_write_in_order 0 [rd ex_mem ex_user] [WIntr; WGo] ex_cons_world eq_refl
    ex_uart_ok eq_refl
    ltac:(split; [apply ex_console_um|]; split; [lia|]; split; [simpl; lia|]; cbn [ubytes length]; rewrite ex_user_byte by lia; by rewrite Z.add_0_r)))
    as (st & w' & Hrun & Hout & _).
  exists st, w'. split; [exact Hrun|exact Hout].
Defined.
End ex.
