(* ===== verification/Umalloc.v ===== *)
(** user/umalloc.c: the allocator of user programs, with its circular list of
    free blocks threaded through user memory. *)

From S2P Require Import Prelude.

(** A pointer is the address of a [Header] of sixteen bytes: the field [ptr]
    and, eight bytes on, the field [size], in units of a header. *)
Definition sizeof_Header : Z := 16.

Definition hptr (m : memory) (p : Z) : Z := load64 m p.
Definition hsize (m : memory) (p : Z) : Z := load32 m (p + 8).
Definition set_hptr (m : memory) (p v : Z) : memory := store64 m p v.
Definition set_hsize (m : memory) (p v : Z) : memory := store32 m (p + 8) v.

(** [p + n] for a pointer to a header. *)
Definition hplus (p n : Z) : Z := u64 (p + sizeof_Header * n).

(** The system call [sbrk]: its result, the memory and the system after it. *)
Class SbrkOps (O : Type) := { sbrk : Z -> memory -> O -> Z * memory * O }.

(** [brk] is the end of the memory of the process.  A call with a positive
    argument moves it up and returns where it was, or returns -1 and does
    nothing.  A process has less than 64 GB, the machine has 128 MB. *)
Class SbrkLaws (O : Type) {ops : SbrkOps O} := {
  brk : O -> Z;
  brk_range o : 0 <= brk o < 2 ^ 36;
  sbrk_grows n m o : 0 < n < 2 ^ 31 ->
    let '(p, m', o') := sbrk n m o in
    (p = -1 /\ m' = m /\ o' = o) \/
    (p = brk o /\ brk o' = brk o + n /\ forall a, a < brk o -> rd m' a = rd m a) }.

(** The variables of the allocator and the memory of the program. *)
Record uheap (O : Type) := UHeap {
  h_mem : memory;
  h_freep : Z;
  h_os : O }.
Arguments UHeap {O} _ _ _.
Arguments h_mem {O} _.
Arguments h_freep {O} _.
Arguments h_os {O} _.

Section umalloc.
Context {O : Type} {ops : SbrkOps O}.

(** [&base]. *)
Variable base : Z.

(** The loop of [free] that looks for the place of [bp]. *)
Fixpoint free_search (fuel : nat) (m : memory) (bp p : Z) : option Z :=
  match fuel with
  | 0%nat => None
  | S f =>
      if (bp >? p) && (bp <? hptr m p) then Some p
      else if (p >=? hptr m p) && ((bp >? p) || (bp <? hptr m p)) then Some p
      else free_search f m bp (hptr m p)
  end.

(** [bp] joins the block above it, then the block below. *)
Definition join_above (m : memory) (p bp : Z) : memory :=
  if hplus bp (hsize m bp) =? hptr m p then
    let m := set_hsize m bp (u32 (hsize m bp + hsize m (hptr m p))) in
    set_hptr m bp (hptr m (hptr m p))
  else set_hptr m bp (hptr m p).
Definition join_below (m : memory) (p bp : Z) : memory :=
  if hplus p (hsize m p) =? bp then
    let m := set_hsize m p (u32 (hsize m p + hsize m bp)) in
    set_hptr m p (hptr m bp)
  else set_hptr m p bp.

Definition free (fuel : nat) (ap : Z) (h : uheap O) : option (uheap O) :=
  let bp := ap - sizeof_Header in
  p ← free_search fuel (h_mem h) bp (h_freep h);
  Some (UHeap (join_below (join_above (h_mem h) p bp) p bp) p (h_os h)).

(** 0 is the null pointer. *)
Definition morecore (fuel : nat) (nu : Z) (h : uheap O) : option (Z * uheap O) :=
  let nu := if nu <? 4096 then 4096 else nu in
  let '(p, m, o) := sbrk (i32 (nu * sizeof_Header)) (h_mem h) (h_os h) in
  if p =? -1 then Some (0, UHeap m (h_freep h) o)
  else
    h ← free fuel (hplus p 1) (UHeap (set_hsize m p nu) (h_freep h) o);
    Some (h_freep h, h).

(** The block [p], behind [prevp], is large enough: it is taken, or its tail. *)
Definition malloc_take (nunits prevp p : Z) (h : uheap O) : Z * uheap O :=
  let m := h_mem h in
  if hsize m p =? nunits then
    (hplus p 1, UHeap (set_hptr m prevp (hptr m p)) prevp (h_os h))
  else
    let m := set_hsize m p (u32 (hsize m p - nunits)) in
    let p := hplus p (hsize m p) in
    let m := set_hsize m p nunits in
    (hplus p 1, UHeap m prevp (h_os h)).

(** The loop of [malloc] at [p], behind [prevp]. *)
Fixpoint malloc_loop (fuel : nat) (nunits prevp p : Z) (h : uheap O) : option (Z * uheap O) :=
  match fuel with
  | 0%nat => None
  | S f =>
      if hsize (h_mem h) p >=? nunits then Some (malloc_take nunits prevp p h)
      else if p =? h_freep h then
        r ← morecore f nunits h;
        let '(p, h) := r in
        if p =? 0 then Some (0, h) else malloc_loop f nunits p (hptr (h_mem h) p) h
      else malloc_loop f nunits p (hptr (h_mem h) p) h
  end.

Definition nunits_of (nbytes : Z) : Z := u32 ((nbytes + sizeof_Header - 1) / sizeof_Header + 1).

Definition malloc (fuel : nat) (nbytes : Z) (h : uheap O) : option (Z * uheap O) :=
  let nunits := nunits_of nbytes in
  let h :=
    if h_freep h =? 0 then
      let m := set_hptr (h_mem h) base base in
      UHeap (set_hsize m base 0) base (h_os h)
    else h in
  let prevp := h_freep h in
  malloc_loop fuel nunits prevp (hptr (h_mem h) prevp) h.
End umalloc.
