(* ===== verification/UmallocSpec.v ===== *)
(** The free list of the user allocator: its shape in memory, and what [free]
    and [malloc] do to it. *)

From S2P Require Import Prelude Umalloc.

(** ** Headers in memory *)

Lemma hptr_ext m m' a : (forall x, a <= x < a + 16 -> rd m' x = rd m x) -> hptr m' a = hptr m a.
Proof. intros H. apply load_le_ext. intros x Hx. apply H. lia. Qed.

Lemma hsize_ext m m' a : (forall x, a <= x < a + 16 -> rd m' x = rd m x) -> hsize m' a = hsize m a.
Proof. intros H. apply load_le_ext. intros x Hx. apply H. lia. Qed.

Lemma rd_set_hptr m p v x : ~ (p <= x < p + 16) -> rd (set_hptr m p v) x = rd m x.
Proof. intros. apply rd_store_le_out. lia. Qed.

Lemma rd_set_hsize m p v x : ~ (p <= x < p + 16) -> rd (set_hsize m p v) x = rd m x.
Proof. intros. apply rd_store_le_out. lia. Qed.

Lemma hptr_set_hptr m p v : 0 <= v < 2 ^ 64 -> hptr (set_hptr m p v) p = v.
Proof. apply load64_store64_same. Qed.

Lemma hsize_set_hsize m p v : 0 <= v < 2 ^ 32 -> hsize (set_hsize m p v) p = v.
Proof.
  intros. unfold hsize, set_hsize, load32, store32. change 4 with (Z.of_nat 4) at 1. rewrite load_store_le. apply Z.mod_small. lia.
Qed.

Lemma hsize_set_hptr m p v : hsize (set_hptr m p v) p = hsize m p.
Proof. apply load_le_ext. intros x Hx. apply rd_store_le_out. lia. Qed.

Lemma hptr_set_hsize m p v : hptr (set_hsize m p v) p = hptr m p.
Proof. apply load_le_ext. intros x Hx. apply rd_store_le_out. lia. Qed.

Lemma hsize_range m p : 0 <= hsize m p < 2 ^ 32.
Proof. apply (load_le_range m (p + 8) 4). Qed.

(** ** Blocks

    A block is its address and its size in units. *)

Abbreviation block := (Z * Z)%type.
Implicit Types (l : list block) (m : memory).

Definition first l (z : Z) : Z := match l with [] => z | (a, _) :: _ => a end.

(** The headers of [l] in memory, linked, the last one to [z]. *)
Fixpoint links m l (z : Z) : Prop :=
  match l with
  | [] => True
  | (a, n) :: l' => hsize m a = n /\ hptr m a = first l' z /\ links m l' z
  end.

(** In the order of addresses, with gaps, from [e] on. *)
Fixpoint spaced (e : Z) l : Prop :=
  match l with
  | [] => True
  | (a, n) :: l' => e < a /\ 1 <= n /\ spaced (a + 16 * n) l'
  end.

Definition covered l (x : Z) : Prop := exists a n, (a, n) ∈ l /\ a <= x < a + 16 * n.

Lemma first_app l1 l2 z : first (l1 ++ l2) z = first l1 (first l2 z).
Proof. by destruct l1 as [|[]]. Qed.

Lemma links_app m l1 l2 z : links m (l1 ++ l2) z <-> links m l1 (first l2 z) /\ links m l2 z.
Proof.
  induction l1 as [|[a n] l1 IH]; cbn [app links]; [naive_solver|]. rewrite IH, first_app. naive_solver.
Qed.

Lemma links_in m l z a n : links m l z -> (a, n) ∈ l -> hsize m a = n.
Proof.
  induction l as [|[b k] l IH]; cbn [links]; [by intros _ ?%elem_of_nil|].
  intros (H1 & _ & H3) [[= -> ->]|Hin]%elem_of_cons; [done|by apply IH].
Qed.

Lemma links_ext m m' l z :
  links m l z -> (forall a n x, (a, n) ∈ l -> a <= x < a + 16 -> rd m' x = rd m x) -> links m' l z.
Proof.
  induction l as [|[a n] l IH]; cbn [links]; [done|]. intros (H1 & H2 & H3) Hx.
  assert (Ha : forall x, a <= x < a + 16 -> rd m' x = rd m x) by (intros; eapply Hx; [left|done]).
  rewrite (hsize_ext m m' a Ha), (hptr_ext m m' a Ha). split_and!; [done|done|]. apply IH; [done|].
  intros b k x Hb. apply (Hx b k). by right.
Qed.

(** Where the last block ends, and the address before the end of the list. *)
Fixpoint top (e : Z) l : Z := match l with [] => e | (a, n) :: l' => top (a + 16 * n) l' end.
Fixpoint prev_of (z : Z) l : Z := match l with [] => z | (a, _) :: l' => prev_of a l' end.

Lemma spaced_app e l1 l2 : spaced e (l1 ++ l2) <-> spaced e l1 /\ spaced (top e l1) l2.
Proof.
  revert e. induction l1 as [|[a n] l1 IH]; intros e; cbn [app spaced top]; [naive_solver|]. rewrite IH. naive_solver.
Qed.

Lemma top_app e l1 l2 : top e (l1 ++ l2) = top (top e l1) l2.
Proof. revert e. induction l1 as [|[a n] l1 IH]; intros e; cbn [app top]; [done|apply IH]. Qed.

Lemma prev_of_app z l1 l2 : prev_of z (l1 ++ l2) = prev_of (prev_of z l1) l2.
Proof. revert z. induction l1 as [|[a n] l1 IH]; intros z; cbn [app prev_of]; [done|apply IH]. Qed.

Lemma spaced_in e l a n : spaced e l -> (a, n) ∈ l -> e < a /\ 1 <= n.
Proof.
  revert e. induction l as [|[b k] l IH]; intros e; cbn [spaced]; [by intros _ ?%elem_of_nil|].
  intros (H1 & H2 & H3) [[= -> ->]|Hin]%elem_of_cons; [done|]. destruct (IH _ H3 Hin). lia.
Qed.

Lemma spaced_last e l p k a j : spaced e (l ++ [(p, k)]) -> (a, j) ∈ l -> 1 <= j /\ a + 16 * j < p.
Proof.
  revert e. induction l as [|[b i] l IH]; intros e; cbn [app spaced]; [by intros _ ?%elem_of_nil|].
  intros (_ & Hi & Hs) [[= -> ->]|Ha]%elem_of_cons; [|by eapply IH]. split; [done|].
  apply (spaced_in _ _ p k Hs), elem_of_app. right. left.
Qed.

Lemma spaced_weaken e e' l : spaced e l -> (forall a n, (a, n) ∈ l -> e' < a) -> spaced e' l.
Proof. destruct l as [|[a n] l]; cbn [spaced]; [done|]. intros (H1 & H2 & H3) H. split_and!; [|done|done]. apply (H a n). left. Qed.

(** Apart from [base], whose block has no size, a header has room. *)
Lemma ring_sep base l A q j B :
  spaced (base + 15) l -> (base, 0) :: l = A ++ (q, j) :: B ->
  (forall a k, (a, k) ∈ A -> a + 16 <= q) /\ (forall a k, (a, k) ∈ B -> q + 16 <= a /\ q + 16 * j <= a).
Proof.
  intros Hs E. destruct A as [|b A]; cbn [app] in E.
  - injection E as <- <- <-. split; [by intros ? ? ?%elem_of_nil|]. intros a k Ha. destruct (spaced_in _ _ _ _ Hs Ha). lia.
  - injection E as <- ->. split; intros a k Ha.
    + apply elem_of_cons in Ha as [[= -> _]|Ha].
      * pose proof (spaced_in _ _ q j Hs ltac:(apply elem_of_app; right; left)). lia.
      * rewrite cons_middle, app_assoc in Hs. apply spaced_app in Hs as [Hs _]. destruct (spaced_last _ _ _ _ _ _ Hs Ha). lia.
    + apply spaced_app in Hs as [_ Hs]. cbn [spaced] in Hs. destruct Hs as (_ & Hj & Hs). destruct (spaced_in _ _ _ _ Hs Ha). lia.
Qed.

Lemma covered_app l1 l2 x : covered (l1 ++ l2) x <-> covered l1 x \/ covered l2 x.
Proof. unfold covered. setoid_rewrite elem_of_app. naive_solver. Qed.

Lemma covered_cons a n l x : covered ((a, n) :: l) x <-> a <= x < a + 16 * n \/ covered l x.
Proof. unfold covered. setoid_rewrite elem_of_cons. naive_solver. Qed.

Lemma covered_nil x : ~ covered [] x.
Proof. intros (a & n & ?%elem_of_nil & _). done. Qed.

Lemma spaced_covered e l x : spaced e l -> covered l x -> e < x.
Proof. intros H (a & n & Hin & Hx). destruct (spaced_in _ _ _ _ H Hin). lia. Qed.

(** Ascending addresses. *)
Fixpoint incr (e : Z) l : Prop := match l with [] => True | (a, _) :: l' => e < a /\ incr a l' end.

Lemma spaced_incr e l : spaced e l -> incr e l.
Proof.
  revert e. induction l as [|[a n] l IH]; intros e; cbn [spaced incr]; [done|]. intros (H1 & H2 & H3). split; [done|].
  apply IH. eapply spaced_weaken; [done|]. intros b k Hb. destruct (spaced_in _ _ _ _ H3 Hb). lia.
Qed.

Lemma incr_app e l1 l2 : incr e (l1 ++ l2) <-> incr e l1 /\ incr (prev_of e l1) l2.
Proof. revert e. induction l1 as [|[a n] l1 IH]; intros e; cbn [app incr prev_of]; [naive_solver|]. rewrite IH. naive_solver. Qed.

Lemma incr_in e l a k : incr e l -> (a, k) ∈ l -> e < a.
Proof.
  revert e. induction l as [|[b j] l IH]; intros e; cbn [incr]; [by intros _ ?%elem_of_nil|].
  intros [He Hi] [[= -> ->]|Ha]%elem_of_cons; [done|]. specialize (IH b Hi Ha). lia.
Qed.

(** ** The search of [free] *)

Section search.
Context (base : Z) (m : memory) (bp : Z).

Lemma free_search_mono f f' p r : free_search f m bp p = Some r -> (f <= f')%nat -> free_search f' m bp p = Some r.
Proof.
  revert f' p. induction f as [|f IH]; intros f' p; [done|]. destruct f' as [|f']; [lia|]. cbn [free_search]. intros H Hf.
  destruct (_ && _); [done|]. destruct (_ && _); [done|]. apply IH; [done|lia].
Qed.

(** Below [bp] the search goes up. *)
Lemma search_below l p n l2 f e :
  links m (l ++ (p, n) :: l2) base -> incr e (l ++ (p, n) :: l2) -> (forall a k, (a, k) ∈ l -> a < bp) -> p < bp ->
  free_search (length l + f) m bp (first l p) = free_search f m bp p.
Proof.
  revert e. induction l as [|[a k] l IH]; intros e Hl Hi Ha Hp; [done|]. cbn [app links incr] in Hl, Hi.
  destruct Hl as (_ & Hptr & Hl), Hi as [_ Hi]. cbn [length Nat.add free_search first]. rewrite Hptr, first_app. cbn [first].
  assert (Hnx : a < first l p < bp).
  { destruct l as [|[b k'] l']; cbn [app incr first] in *; [lia|]. split; [lia|]. apply (Ha b k'). right. left. }
  rewrite (proj2 (Z.ltb_ge bp _)), andb_false_r by lia. rewrite Z.geb_leb, (proj2 (Z.leb_gt _ _)) by lia. cbn [andb].
  apply (IH a); [done|done| |done]. intros b k' Hb. apply (Ha b k'). by right.
Qed.

(** Above [bp] it goes on to the end and starts over. *)
Lemma search_above l f e :
  links m l base -> incr e l -> (forall a k, (a, k) ∈ l -> bp < a) -> base < bp ->
  free_search (length l + f) m bp (first l base) = free_search f m bp base.
Proof.
  revert e. induction l as [|[a k] l IH]; intros e Hl Hi Ha Hb; [done|]. cbn [links incr] in Hl, Hi.
  destruct Hl as (_ & Hptr & Hl), Hi as [_ Hi]. cbn [length Nat.add free_search first]. rewrite Hptr.
  assert (Hlt : bp < a) by (apply (Ha a k); left).
  rewrite Z.gtb_ltb, (proj2 (Z.ltb_ge _ bp)) by lia. cbn [andb orb].
  replace ((a >=? first l base) && (bp <? first l base)) with false; [apply (IH a); [done|done| |done]; intros b k' Hk; apply (Ha b k'); by right|].
  symmetry. apply andb_false_iff. destruct l as [|[b k'] l']; cbn [incr first] in *; [right; apply Z.ltb_ge; lia|].
  left. rewrite Z.geb_leb. apply Z.leb_gt. lia.
Qed.

Lemma search_here p n l2 f :
  links m ((p, n) :: l2) base -> p < bp -> base < bp -> (forall a k, (a, k) ∈ l2 -> bp < a) -> base <= p ->
  free_search (S f) m bp p = Some p.
Proof.
  intros Hl Hp Hb Ha Hbp. cbn [links] in Hl. destruct Hl as (_ & Hptr & _). cbn [free_search]. rewrite Hptr, Z.gtb_ltb, (proj2 (Z.ltb_lt _ _)) by done. cbn [andb orb].
  destruct l2 as [|[a k] l2]; cbn [first].
  - rewrite (proj2 (Z.ltb_ge bp base)) by lia. by rewrite Z.geb_leb, (proj2 (Z.leb_le _ _)) by lia.
  - by rewrite (proj2 (Z.ltb_lt bp a)) by (apply (Ha a k); left).
Qed.

Lemma prev_of_split z n0 l : exists l0 n, (z, n0) :: l = l0 ++ [(prev_of z l, n)].
Proof.
  revert z n0. induction l as [|[a k] l IH]; intros z n0; [by exists [], n0|]. destruct (IH a k) as (l0 & n & E).
  exists ((z, n0) :: l0), n. cbn [prev_of app]. by rewrite E.
Qed.

(** From anywhere in the list the search finds the place of [bp]. *)
Lemma free_search_ok l1 l2 fp fuel :
  links m ((base, 0) :: l1 ++ l2) base -> incr base (l1 ++ l2) -> base < bp ->
  (forall a k, (a, k) ∈ l1 -> a < bp) -> (forall a k, (a, k) ∈ l2 -> bp < a) ->
  fp ∈ base :: (fst <$> l1 ++ l2) -> (2 * length (l1 ++ l2) + 3 <= fuel)%nat ->
  free_search fuel m bp fp = Some (prev_of base l1).
Proof.
  intros Hl Hi Hb H1 H2 Hfp Hf. destruct (prev_of_split base 0 l1) as (l0 & n & E). set (p := prev_of base l1) in *.
  assert (E2 : (base, 0) :: l1 ++ l2 = l0 ++ (p, n) :: l2) by (rewrite app_comm_cons, E, <- app_assoc; done).
  assert (Hi' : incr (base - 1) (l0 ++ (p, n) :: l2)) by (rewrite <- E2; split; [lia|done]). rewrite E2 in Hl.
  assert (Hlow : forall a k, (a, k) ∈ l0 ++ [(p, n)] -> base <= a < bp).
  { intros a k Ha. rewrite <- E in Ha. apply elem_of_cons in Ha as [[= -> _]|Ha]; [lia|].
    split; [|by apply (H1 a k)]. apply incr_app in Hi as [Hi _]. apply Z.lt_le_incl. by eapply incr_in. }
  assert (Hlow0 : forall a k, (a, k) ∈ l0 -> a < bp) by (intros a k Ha; apply (Hlow a k), elem_of_app; by left).
  assert (Hp : base <= p < bp) by (apply (Hlow p n), elem_of_app; right; left).
  assert (Hlen : length l0 = length l1) by (apply (f_equal length) in E; rewrite length_app in E; simpl in E; lia).
  rewrite length_app in Hf. pose proof Hl as Hl'. apply links_app in Hl' as [_ Hlp].
  assert (Hhere : forall f, free_search (S f) m bp p = Some p) by (intros f; eapply search_here; [exact Hlp|lia|lia|exact H2|lia]).
  assert (Hfrom : forall lo hi, l0 = lo ++ hi -> free_search (length hi + 1) m bp (first hi p) = Some p).
  { intros lo hi Eh. rewrite Eh, <- app_assoc in Hl, Hi'. apply links_app in Hl as [_ Hl]. apply incr_app in Hi' as [_ Hi'].
    rewrite (search_below hi p n l2 1 _ Hl Hi'); [apply Hhere| |lia]. intros a k Ha. apply (Hlow0 a k). rewrite Eh. set_solver. }
  assert (Hfp' : (exists k, (fp, k) ∈ l0 ++ (p, n) :: l2)).
  { rewrite <- E2. apply elem_of_cons in Hfp as [->|Hfp]; [exists 0; left|]. apply list_elem_of_fmap in Hfp as ([a k] & -> & Ha). exists k. by right. }
  destruct Hfp' as [k [Hk|[[= -> _]|Hk]%elem_of_cons]%elem_of_app].
  - apply list_elem_of_split in Hk as (lo & hi & Eh). eapply free_search_mono; [exact (Hfrom lo ((fp, k) :: hi) Eh)|].
    apply (f_equal length) in Eh. rewrite length_app in Eh. simpl in *. lia.
  - eapply free_search_mono; [apply (Hhere 0%nat)|lia].
  - apply list_elem_of_split in Hk as (lo & hi & Eh). cbn [links] in Hlp. destruct Hlp as (_ & _ & Hl2). rewrite Eh in Hl2.
    apply links_app in Hl2 as [_ Hl2]. rewrite Eh in Hi. rewrite !incr_app in Hi. destruct Hi as (_ & _ & Hi).
    assert (Hab : forall a k', (a, k') ∈ (fp, k) :: hi -> bp < a) by (intros a k' Ha; apply (H2 a k'); rewrite Eh; set_solver).
    assert (Hz : base = first l0 p) by (destruct l0 as [|[c j] l0']; cbn [app first] in *; by injection E2).
    pose proof (search_above ((fp, k) :: hi) (length l0 + 1) _ Hl2 Hi Hab Hb) as Hs. cbn [first] in Hs.
    rewrite Hz in Hs at 1. rewrite (Hfrom [] l0 eq_refl) in Hs. eapply free_search_mono; [exact Hs|].
    apply (f_equal length) in Eh. rewrite length_app in Eh. simpl in *. lia.
Qed.
End search.

(** ** [free] puts a block in its place *)

Lemma hplus_small p n : 0 <= p + 16 * n < 2 ^ 64 -> hplus p n = p + 16 * n.
Proof. apply u64_small. Qed.

Lemma first_in l z : l <> [] -> exists n, (first l z, n) ∈ l.
Proof. destruct l as [|[a n] l]; [done|]. intros _. exists n. left. Qed.

Lemma rd_out2 m p v w x : ~ (p <= x < p + 16) -> rd (set_hptr (set_hsize m p v) p w) x = rd m x.
Proof. intros. by rewrite rd_set_hptr, rd_set_hsize. Qed.

Section free_mem.
Context (base : Z) (m : memory) (l1 l2 : list block) (bp n : Z).
Context (Hl : links m ((base, 0) :: l1 ++ l2) base) (Hsp : spaced (base + 15) (l1 ++ l2)).
Context (Hn : hsize m bp = n) (Hn1 : 1 <= n) (Hbase : 0 <= base) (Hbp : base + 16 <= bp).
Context (H1 : forall a k, (a, k) ∈ l1 -> a + 16 * k <= bp) (H2 : forall a k, (a, k) ∈ l2 -> bp + 16 * n <= a).
Context (Hend : bp + 16 * n <= 2 ^ 36) (Hend2 : forall a k, (a, k) ∈ l2 -> a + 16 * k <= 2 ^ 36).

Let p := prev_of base l1.

Lemma links_l2 : links m l2 base /\ hptr m p = first l2 base.
Proof using Hl.
  destruct (prev_of_split base 0 l1) as (l0 & k & E). rewrite app_comm_cons, E in Hl. fold p in Hl. rewrite <- app_assoc in Hl.
  apply links_app in Hl as [_ Hl']. cbn [app links] in Hl'. destruct Hl' as (_ & Hq & Hl'). by split.
Qed.

Lemma prev_below : base <= p /\ p + 16 <= bp /\ p + 16 * hsize m p <= bp.
Proof using Hl Hsp Hbp H1.
  destruct (prev_of_split base 0 l1) as (l0 & k & E). fold p in E. pose proof Hl as Hl'.
  assert (Hp : (p, k) ∈ (base, 0) :: l1) by (rewrite E; apply elem_of_app; right; left).
  rewrite (links_in _ _ _ p k Hl) by (rewrite app_comm_cons; apply elem_of_app; by left).
  apply elem_of_cons in Hp as [[= -> ->]|Hp]; [lia|]. apply spaced_app in Hsp as [Hs1 _].
  destruct (spaced_in _ _ _ _ Hs1 Hp). specialize (H1 _ _ Hp). lia.
Qed.

(** What [bp] becomes when it has joined the block above. *)
Lemma join_above_ok : exists n' l2', let m1 := join_above m p bp in
  hsize m1 bp = n' /\ hptr m1 bp = first l2' base /\ (forall x, ~ (bp <= x < bp + 16) -> rd m1 x = rd m x) /\
  links m l2' base /\ spaced (bp + 16 * n') l2' /\ (forall x, x ∈ l2' -> x ∈ l2) /\
  (forall x, bp <= x < bp + 16 * n' \/ covered l2' x <-> bp <= x < bp + 16 * n \/ covered l2 x) /\
  n <= n' /\ bp + 16 * n' <= 2 ^ 36 /\ (length l2' <= length l2)%nat.
Proof using Hl Hsp Hn Hn1 Hbase Hbp H1 H2 Hend Hend2.
  destruct links_l2 as [Hl2 Hp], prev_below as (Hp0 & Hp1 & _). unfold join_above. rewrite Hn, Hp, hplus_small by lia. apply spaced_app in Hsp as [_ Hs2].
  destruct (Z.eqb_spec (bp + 16 * n) (first l2 base)) as [E|E].
  - destruct l2 as [|[q k] l2']; [cbn [first] in E; lia|]. cbn [first links spaced] in *.
    destruct Hl2 as (Hq & Hqp & Hl2), Hs2 as (_ & Hk & Hs2). pose proof (Hend2 _ _ ltac:(left)) as Hek. rewrite Hq.
    rewrite u32_small by lia. exists (n + k), l2'. cbv zeta. rewrite (hptr_ext m _ p) by (intros; apply rd_set_hsize; lia). rewrite Hp. rewrite hsize_set_hptr, hsize_set_hsize, hptr_set_hptr by (try apply load64_range; lia).
    split_and!; try done; try lia.
    + rewrite <- Hqp. apply hptr_ext. intros x Hx. apply rd_set_hsize. lia.
    + intros x Hx. by apply rd_out2.
    + by replace (bp + 16 * (n + k)) with (q + 16 * k) by lia.
    + intros x Hx. by right.
    + intros x. rewrite covered_cons. assert (bp <= x < bp + 16 * (n + k) <-> bp <= x < bp + 16 * n \/ q <= x < q + 16 * k) by lia. tauto.
    + cbn [length]. lia.
  - exists n, l2. cbv zeta. rewrite hsize_set_hptr, hptr_set_hptr; [|rewrite <- Hp; apply load64_range]. split_and!; try done; try lia.
    + intros x Hx. by apply rd_set_hptr.
    + eapply spaced_weaken; [exact Hs2|]. intros a k Ha. pose proof (H2 a k Ha).
      destruct l2 as [|[q j] l2']; [by apply elem_of_nil in Ha|]. cbn [first spaced] in *.
      pose proof (H2 q j ltac:(left)). apply elem_of_cons in Ha as [[= -> ->]|Ha]; [lia|].
      destruct Hs2 as (_ & Hj & Hs2). destruct (spaced_in _ _ _ _ Hs2 Ha). lia.
Qed.
(** The links that neither [p] nor [bp] holds are kept. *)
Lemma relink m2 l0 k l2' :
  (base, 0) :: l1 = l0 ++ [(p, k)] -> links m l2' base -> (forall x, x ∈ l2' -> x ∈ l2) ->
  (forall x, ~ (p <= x < p + 16) -> ~ (bp <= x < bp + 16) -> rd m2 x = rd m x) ->
  links m2 l0 p /\ links m2 l2' base.
Proof using Hl Hsp Hn Hn1 Hbp H1 H2.
  intros E Hl2 Hsub Hrd. destruct prev_below as (Hp0 & Hp1 & _). apply spaced_app in Hsp as [Hs1 Hs2]. split.
  - assert (Hl0 : links m l0 p).
    { rewrite app_comm_cons, E, <- app_assoc in Hl. apply links_app in Hl as [Hl0 _]. done. }
    eapply links_ext; [exact Hl0|]. intros a j x Ha Hx.
    destruct (ring_sep _ _ l0 p k [] Hs1 E) as [Hsep _]. specialize (Hsep _ _ Ha). apply Hrd; lia.
  - eapply links_ext; [exact Hl2|]. intros a j x Ha Hx. specialize (H2 _ _ (Hsub _ Ha)). apply Hrd; lia.
Qed.

(** The free list when [free] has put the block into its place. *)
Lemma join_ok : exists l', let m2 := join_below (join_above m p bp) p bp in
  links m2 ((base, 0) :: l') base /\ spaced (base + 15) l' /\
  (forall x, covered l' x <-> covered (l1 ++ l2) x \/ bp <= x < bp + 16 * n) /\
  p ∈ base :: (fst <$> l') /\ (length l' <= length (l1 ++ l2) + 1)%nat /\
  (forall x, ~ (base <= x < base + 16) -> ~ covered (l1 ++ l2) x -> ~ (bp <= x < bp + 16) -> rd m2 x = rd m x).
Proof using All.
  destruct join_above_ok as (n' & l2' & Hs & Hq & Hrd1 & Hl2' & Hsp2 & Hsub & Hcov & Hnn & He & Hlen). cbv zeta in *.
  set (m1 := join_above m p bp) in *. destruct prev_below as (Hp0 & Hp1 & Hp2), (prev_of_split base 0 l1) as (l0 & k & E). fold p in E.
  assert (Hin : (p, k) ∈ (base, 0) :: l1) by (rewrite E; apply elem_of_app; right; left).
  assert (Hk : hsize m p = k) by (eapply links_in; [exact Hl|]; rewrite app_comm_cons; apply elem_of_app; by left).
  rewrite Hk in Hp2. assert (Hk1 : hsize m1 p = k) by (rewrite <- Hk; apply hsize_ext; intros; apply Hrd1; lia).
  pose proof (hsize_range m p) as Hkr. rewrite Hk in Hkr.
  assert (Hfr : forall m2, (forall x, ~ (p <= x < p + 16) -> ~ (bp <= x < bp + 16) -> rd m2 x = rd m x) ->
    forall x, ~ (base <= x < base + 16) -> ~ covered (l1 ++ l2) x -> ~ (bp <= x < bp + 16) -> rd m2 x = rd m x).
  { intros m2 Hm2 x Hx1 Hx2 Hx3. apply Hm2; [|done]. intros Hx4. apply elem_of_cons in Hin as [[= Ep _]|Hin]; [lia|].
    apply Hx2, covered_app. left. exists p, k. split; [done|]. apply spaced_app in Hsp as [Hs1 _]. destruct (spaced_in _ _ _ _ Hs1 Hin). lia. }
  pose proof Hsp as [Hs1 _]%spaced_app. unfold join_below. rewrite Hk1, Hs, hplus_small by lia.
  destruct (Z.eqb_spec (p + 16 * k) bp) as [Ej|Ej].
  - destruct l0 as [|b l0]; [injection E as ? ?; lia|]. cbn [app] in E. injection E as <- E.
    assert (Hpb : base + 15 < p) by (eapply spaced_in; [exact Hs1|]; rewrite E; apply elem_of_app; right; left).
    rewrite u32_small by lia. rewrite (hptr_ext m1 _ bp) by (intros; apply rd_set_hsize; lia).
    set (m2 := set_hptr _ _ _).
    assert (Hm2 : forall x, ~ (p <= x < p + 16) -> ~ (bp <= x < bp + 16) -> rd m2 x = rd m x).
    { intros x Hx1 Hx2. unfold m2. rewrite rd_out2 by done. by apply Hrd1. }
    destruct (relink m2 ((base, 0) :: l0) k l2') as [Hl0 Hl2]; [by rewrite E|done|done|done|].
    exists (l0 ++ (p, k + n') :: l2'). cbv zeta. split_and!; [| | | | |by apply Hfr].
    + rewrite app_comm_cons. apply links_app. split; [exact Hl0|]. cbn [links]. split_and!; [| |done]; unfold m2.
      * rewrite hsize_set_hptr. apply hsize_set_hsize. lia.
      * rewrite <- Hq. apply hptr_set_hptr, load64_range.
    + rewrite E in Hs1. apply spaced_app in Hs1 as [Hs0 Hs1]. apply spaced_app. cbn [spaced] in *. split_and!; [done|lia|lia|].
      by replace (p + 16 * (k + n')) with (bp + 16 * n') by lia.
    + intros x. specialize (Hcov x). rewrite E, !covered_app, !covered_cons.
      assert (p <= x < p + 16 * (k + n') <-> p <= x < p + 16 * k \/ bp <= x < bp + 16 * n') by lia.
      pose proof (covered_nil x). tauto.
    + right. apply list_elem_of_fmap. exists (p, k + n'). split; [done|]. apply elem_of_app. right. left.
    + rewrite E, !length_app. cbn [length]. lia.
  - set (m2 := set_hptr _ _ _).
    assert (Hm2 : forall x, ~ (p <= x < p + 16) -> rd m2 x = rd m1 x) by (intros; by apply rd_set_hptr).
    destruct (relink m2 l0 k l2') as [Hl0 Hl2]; [done|done|done| |].
    { intros x Hx1 Hx2. rewrite Hm2 by done. by apply Hrd1. }
    exists (l1 ++ (bp, n') :: l2'). cbv zeta. split_and!; [| | | | |apply Hfr; intros x Hx1 Hx2; rewrite Hm2 by done; by apply Hrd1].
    + rewrite app_comm_cons, E, <- app_assoc. apply links_app. cbn [app first links]. split_and!; [done| | | | |done].
      * unfold m2. by rewrite hsize_set_hptr.
      * apply hptr_set_hptr. lia.
      * rewrite <- Hs. apply hsize_ext. intros x Hx. apply Hm2. lia.
      * rewrite <- Hq. apply hptr_ext. intros x Hx. apply Hm2. lia.
    + apply spaced_app. cbn [spaced]. split_and!; [done| |lia|done].
      destruct l0 as [|b l0]; cbn [app] in E.
      * injection E as _ _ E. rewrite E. cbn [top]. lia.
      * injection E as _ E. rewrite E, top_app. cbn [top]. lia.
    + intros x. specialize (Hcov x). rewrite !covered_app, covered_cons. tauto.
    + apply elem_of_cons in Hin as [[= -> _]|Hin]; [left|right]. apply list_elem_of_fmap. exists (p, k). split; [done|]. apply elem_of_app. by left.
    + rewrite !length_app. cbn [length]. lia.
Qed.
End free_mem.
