(* ===== verification/UmallocHeap.v ===== *)
(** The heap of a user program: free and live blocks, and what [free],
    [morecore] and [malloc] do to them. *)

From S2P Require Import Prelude Umalloc UmallocSpec.

Implicit Types (l al : list block) (m : memory).

(** Blocks that do not overlap. *)
Fixpoint apart l : Prop :=
  match l with
  | [] => True
  | (a, n) :: l' => (forall x, a <= x < a + 16 * n -> ~ covered l' x) /\ apart l'
  end.

Lemma apart_split l1 l2 a n : apart (l1 ++ (a, n) :: l2) <-> apart ((a, n) :: l1 ++ l2).
Proof.
  induction l1 as [|[b k] l1 IH]; [done|]. cbn [app apart] in *. rewrite IH. setoid_rewrite covered_cons. setoid_rewrite covered_app.
  setoid_rewrite covered_cons. naive_solver.
Qed.

Lemma spaced_apart e l : spaced e l -> apart l.
Proof.
  revert e. induction l as [|[a n] l IH]; intros e; cbn [spaced apart]; [done|]. intros (_ & _ & Hs). split; [|by eapply IH].
  intros x Hx Hc. pose proof (spaced_covered _ _ _ Hs Hc). lia.
Qed.

(** A block that the list does not cover has its place in the list. *)
Lemma spaced_split e l bp n :
  spaced e l -> 1 <= n -> (forall x, bp <= x < bp + 16 * n -> ~ covered l x) ->
  exists l1 l2, l = l1 ++ l2 /\ (forall a k, (a, k) ∈ l1 -> a + 16 * k <= bp) /\ (forall a k, (a, k) ∈ l2 -> bp + 16 * n <= a).
Proof.
  intros Hs Hn. revert e Hs. induction l as [|[a k] l IH]; intros e Hs Hc; [by exists [], []; split_and!; [|intros ? ? ?%elem_of_nil..]|].
  cbn [spaced] in Hs. destruct Hs as (He & Hk & Hs). destruct (Z.le_gt_cases (bp + 16 * n) a) as [Hle|Hgt].
  - exists [], ((a, k) :: l). split_and!; [done|by intros ? ? ?%elem_of_nil|]. intros b j [[= -> ->]|Hb]%elem_of_cons; [done|].
    destruct (spaced_in _ _ _ _ Hs Hb). lia.
  - assert (Hak : a + 16 * k <= bp).
    { apply Z.nlt_ge. intros Hlt. apply (Hc (Z.max a bp)); [lia|]. apply covered_cons. left. lia. }
    destruct (IH _ Hs) as (l1 & l2 & -> & H1 & H2); [intros x Hx Hc'; apply (Hc x Hx), covered_cons; by right|].
    exists ((a, k) :: l1), l2. split_and!; [done| |done]. intros b j [[= -> ->]|Hb]%elem_of_cons; [done|by apply H1].
Qed.

(** A range that the list covers is within one block: the blocks have gaps. *)
Lemma spaced_one_block e l s t :
  spaced e l -> s < t -> (forall x, s <= x < t -> covered l x) -> exists a n, (a, n) ∈ l /\ a <= s /\ t <= a + 16 * n.
Proof.
  intros Hs Hst. revert e Hs. induction l as [|[a k] l IH]; intros e Hs Hc; [by destruct (covered_nil s); apply Hc; lia|].
  cbn [spaced] in Hs. destruct Hs as (He & Hk & Hs).
  assert (Hup : forall x, covered l x -> a + 16 * k < x) by (intros x; by apply spaced_covered).
  destruct (Z.lt_ge_cases s (a + 16 * k)) as [Hlt|Hge].
  - exists a, k. split; [left|]. pose proof (Hc s ltac:(lia)) as [H|H%Hup]%covered_cons; [|lia]. split; [lia|].
    apply Z.nlt_ge. intros Hlt'. pose proof (Hc (a + 16 * k) ltac:(lia)) as [H'|H'%Hup]%covered_cons; lia.
  - destruct (IH _ Hs) as (b & n & Hb & H1 & H2); [|exists b, n; split; [by right|done]].
    intros x Hx. apply Hc in Hx as Hx'. apply covered_cons in Hx' as [?|?]; [lia|done].
Qed.

Section heap.
Context {O : Type} {ops : SbrkOps O} {laws : SbrkLaws O}.
Context (base start : Z) (Hbase : 0 < base) (Hstart : base + 16 <= start).

(** [l] is the free list and [al] the blocks in use; together they are the
    memory the allocator has got, from [start] on. *)
Record heap_ok (h : uheap O) l al : Prop := {
  hk_links : links (h_mem h) ((base, 0) :: l) base;
  hk_spaced : spaced (base + 15) l;
  hk_freep : h_freep h ∈ base :: (fst <$> l);
  hk_live a n : (a, n) ∈ al -> hsize (h_mem h) a = n /\ 1 <= n;
  hk_apart : apart al;
  hk_disj x : covered al x -> ~ covered l x;
  hk_all x : covered l x \/ covered al x <-> start <= x < brk (h_os h);
  hk_brk : start <= brk (h_os h) }.

Lemma block_bounds h l al a n : heap_ok h l al -> (a, n) ∈ l \/ (a, n) ∈ al -> 1 <= n -> start <= a /\ a + 16 * n <= brk (h_os h) < 2 ^ 36.
Proof using Hbase Hstart.
  intros K Hin Hn. pose proof (brk_range (h_os h)).
  assert (Hc : forall x, a <= x < a + 16 * n -> start <= x < brk (h_os h)).
  { intros x Hx. apply (hk_all _ _ _ K). destruct Hin; [left|right]; by exists a, n. }
  pose proof (Hc a ltac:(lia)). pose proof (Hc (a + 16 * n - 1) ltac:(lia)). lia.
Qed.

(** [free] gives the block back and leaves the other live blocks alone. *)
Lemma free_ok h l al1 al2 a n fuel :
  heap_ok h l (al1 ++ (a, n) :: al2) -> (2 * length l + 3 <= fuel)%nat ->
  exists h' l', free fuel (a + 16) h = Some h' /\ heap_ok h' l' (al1 ++ al2) /\ h_os h' = h_os h /\
    (length l' <= length l + 1)%nat /\ (forall x, covered (al1 ++ al2) x -> rd (h_mem h') x = rd (h_mem h) x) /\
    (forall x, a <= x < a + 16 * n -> covered l' x).
Proof using Hbase Hstart.
  intros K Hf. pose proof K as [Hl Hs Hfp Hlive Hap Hdis Hall Hbrk]. apply apart_split in Hap. cbn [apart] in Hap. destruct Hap as [Ha Hap].
  assert (Hin : (a, n) ∈ al1 ++ (a, n) :: al2) by (apply elem_of_app; right; left). destruct (Hlive _ _ Hin) as [Hn Hn1].
  destruct (block_bounds _ _ _ a n K (or_intror Hin) Hn1) as [Hb1 Hb2].
  assert (Hdis' : forall x, a <= x < a + 16 * n -> ~ covered l x) by (intros x Hx; apply Hdis; by exists a, n).
  destruct (spaced_split _ _ a n Hs Hn1 Hdis') as (l1 & l2 & -> & H1 & H2).
  pose proof (spaced_incr _ _ Hs) as Hi. assert (Hi' : incr base (l1 ++ l2)).
  { destruct (l1 ++ l2) as [|[]]; cbn [incr] in *; [done|]. split; [lia|apply Hi]. }
  assert (Hsz : forall b k, (b, k) ∈ l1 ++ l2 -> 1 <= k) by (intros b k Hb; by destruct (spaced_in _ _ _ _ Hs Hb)).
  pose proof (free_search_ok base (h_mem h) a l1 l2 (h_freep h) fuel Hl Hi' ltac:(lia)) as Hsearch.
  destruct (join_ok base (h_mem h) l1 l2 a n) as (l' & Hl' & Hs' & Hc' & Hp' & Hlen & Hrd); try done; try lia.
  { intros b k Hb. assert (Hbl : (b, k) ∈ l1 ++ l2) by (apply elem_of_app; by right).
    destruct (block_bounds _ _ _ b k K (or_introl Hbl)); [by eapply Hsz|lia]. }
  set (m2 := join_below _ _ _) in *. exists (UHeap m2 (prev_of base l1) (h_os h)), l'. unfold free.
  replace (a + 16 - sizeof_Header) with a by (unfold sizeof_Header; lia). rewrite Hsearch; [|..|done|done].
  2: { intros b k Hb. pose proof (H1 _ _ Hb). pose proof (Hsz b k ltac:(apply elem_of_app; by left)). lia. }
  2: { intros b k Hb. pose proof (H2 _ _ Hb). lia. }
  assert (Hother : forall x, covered (al1 ++ al2) x -> covered (al1 ++ (a, n) :: al2) x).
  { intros x. rewrite !covered_app, covered_cons. tauto. }
  assert (Hkeep : forall x, covered (al1 ++ al2) x -> rd m2 x = rd (h_mem h) x).
  { intros x Hx. pose proof (proj1 (Hall x) (or_intror (Hother x Hx))). apply Hrd; [lia|by apply Hdis, Hother|].
    intros Hx'. apply (Ha x); [lia|done]. }
  split_and!; [done| |done|done|done|intros x Hx; apply Hc'; by right].
  split; cbn [h_mem h_freep h_os]; try done.
  - intros b k Hb. assert (Hb' : (b, k) ∈ al1 ++ (a, n) :: al2) by set_solver. destruct (Hlive _ _ Hb') as [Hbn Hbk].
    split; [|done]. rewrite <- Hbn. apply hsize_ext. intros x Hx. apply Hkeep. exists b, k. split; [done|lia].
  - intros x Hx. rewrite Hc'. intros [Hx'|Hx']; [by apply (Hdis x); [apply Hother|]|by apply (Ha x)].
  - intros x. rewrite <- Hall, Hc', !covered_app, covered_cons. tauto.
Qed.

(** ** Taking a block *)

Lemma in_ring l q : q ∈ base :: (fst <$> l) -> exists A j B, (base, 0) :: l = A ++ (q, j) :: B.
Proof.
  intros [->|([a k] & -> & Ha)%list_elem_of_fmap]%elem_of_cons; [by exists [], 0, l|].
  apply list_elem_of_split in Ha as (A & B & ->). by exists ((base, 0) :: A), k, B.
Qed.

(** The block behind [q] in the ring. *)
Lemma ring_behind m l q p :
  links m ((base, 0) :: l) base -> q ∈ base :: (fst <$> l) -> hptr m q = p -> p <> base ->
  exists l1 A j B, (base, 0) :: l1 = A ++ [(q, j)] /\ l = l1 ++ (p, hsize m p) :: B.
Proof.
  intros Hl Hq Hp Hpb. destruct (in_ring l q Hq) as (A & j & B & E). rewrite E in Hl. apply links_app in Hl as [_ Hl].
  cbn [links] in Hl. destruct Hl as (_ & Hptr & Hl). rewrite Hp in Hptr. destruct B as [|[b k] B]; cbn [first] in Hptr; [done|]. subst b.
  cbn [links] in Hl. destruct Hl as (-> & _ & _). destruct A as [|c A]; cbn [app] in E; injection E; intros; subst.
  - by exists [], [], 0, B.
  - exists (A ++ [(q, j)]), ((base, 0) :: A), j, B. by rewrite <- app_assoc.
Qed.

(** The list without the block, or with what is left of it. *)
Lemma spaced_shrink e A p n B n' : spaced e (A ++ (p, n) :: B) -> 1 <= n' <= n -> spaced e (A ++ (p, n') :: B).
Proof.
  rewrite !spaced_app. cbn [spaced]. intros (HA & Hp & Hn & HB) Hn'. split_and!; [done|done|lia|].
  eapply spaced_weaken; [done|]. intros b k Hb. destruct (spaced_in _ _ _ _ HB Hb). lia.
Qed.

Lemma spaced_drop e A p n B : spaced e (A ++ (p, n) :: B) -> spaced e (A ++ B).
Proof.
  rewrite !spaced_app. cbn [spaced]. intros (HA & Hp & Hn & HB). split; [done|].
  eapply spaced_weaken; [done|]. intros b k Hb. destruct (spaced_in _ _ _ _ HB Hb). lia.
Qed.

(** A free block, or the tail of one, becomes a live block. *)
Lemma heap_taken h l al m' q l' b nu :
  heap_ok h l al -> links m' ((base, 0) :: l') base -> spaced (base + 15) l' -> q ∈ base :: (fst <$> l') ->
  hsize m' b = nu -> 1 <= nu -> (forall x, covered l x <-> b <= x < b + 16 * nu \/ covered l' x) ->
  (forall x, b <= x < b + 16 * nu -> ~ covered l' x) -> (forall x, covered al x -> rd m' x = rd (h_mem h) x) ->
  heap_ok (UHeap m' q (h_os h)) l' ((b, nu) :: al).
Proof.
  intros [Hl Hs Hfp Hlive Hap Hdis Hall Hbrk] Hl' Hs' Hq Hnu Hnu1 Hc Hb Hrd. split; cbn [h_mem h_freep h_os]; try done.
  - intros a n [[= -> ->]|Ha]%elem_of_cons; [done|]. destruct (Hlive _ _ Ha) as [Hn Hn1]. split; [|done].
    rewrite <- Hn. apply hsize_ext. intros x Hx. apply Hrd. exists a, n. split; [done|lia].
  - split; [|done]. intros x Hx Hx'. apply (Hdis x Hx'), Hc. by left.
  - intros x [Hx|Hx]%covered_cons; [by apply Hb|]. intros Hx'. apply (Hdis x Hx), Hc. by right.
  - intros x. rewrite <- Hall, Hc, covered_cons. tauto.
Qed.

(** A header of the ring is not in a live block. *)
Lemma ring_header h l al q x : heap_ok h l al -> q ∈ base :: (fst <$> l) -> covered al x -> ~ (q <= x < q + 16).
Proof using Hbase Hstart.
  intros K Hq Hx Hqx. pose proof (proj1 (hk_all _ _ _ K x) (or_intror Hx)).
  apply elem_of_cons in Hq as [->|([a k] & -> & Ha)%list_elem_of_fmap]; [lia|].
  destruct (spaced_in _ _ _ _ (hk_spaced _ _ _ K) Ha). apply (hk_disj _ _ _ K x Hx). exists a, k. cbn [fst] in Hqx. split; [done|lia].
Qed.

Definition taken (h : uheap O) l al nu (r : Z * uheap O) : Prop := exists b l',
  r.1 = b + 16 /\ heap_ok r.2 l' ((b, nu) :: al) /\ h_os r.2 = h_os h /\
  (forall x, covered al x -> rd (h_mem r.2) x = rd (h_mem h) x).

Lemma take_all_ok h l al q p :
  heap_ok h l al -> q ∈ base :: (fst <$> l) -> hptr (h_mem h) q = p -> p <> base ->
  taken h l al (hsize (h_mem h) p) (malloc_take (hsize (h_mem h) p) q p h).
Proof using Hbase Hstart.
  intros K Hq Hp Hpb. pose proof K as [Hl Hs Hfp Hlive Hap Hdis Hall Hbrk]. destruct (ring_behind _ _ _ _ Hl Hq Hp Hpb) as (l1 & A & j & B & E & El).
  set (m := h_mem h) in *. set (n := hsize m p) in *.
  assert (Hin : (p, n) ∈ l) by (rewrite El; set_solver). destruct (spaced_in _ _ _ _ Hs Hin) as [Hp1 Hn1].
  destruct (block_bounds _ _ _ _ _ K (or_introl Hin) Hn1) as [Hpl Hph].
  assert (ER : (base, 0) :: l = A ++ (q, j) :: (p, n) :: B) by (rewrite El, app_comm_cons, E, <- app_assoc; done).
  destruct (ring_sep _ _ _ _ _ _ Hs ER) as [HsA HsB]. rewrite ER in Hl. apply links_app in Hl as [HlA HlB].
  cbn [links] in HlB. destruct HlB as (Hj & _ & _ & Hpp & HlB).
  unfold malloc_take. fold m n. rewrite Z.eqb_refl. cbn zeta. exists p, (l1 ++ B). cbn [fst snd h_os h_mem].
  set (m' := set_hptr m q (hptr m p)). assert (Hm' : forall x, ~ (q <= x < q + 16) -> rd m' x = rd m x) by (intros; by apply rd_set_hptr).
  assert (Hkeep : forall x, covered al x -> rd m' x = rd m x) by (intros x Hx; by eapply Hm', ring_header).
  split_and!; [apply hplus_small; lia| |done|done]. apply (heap_taken h l al m' q (l1 ++ B)); try done.
  - rewrite app_comm_cons, E, <- app_assoc. cbn [app]. apply links_app. split; [|cbn [links]; split_and!].
    + eapply links_ext; [exact HlA|]. intros a k x Ha Hx. apply Hm'. specialize (HsA _ _ Ha). lia.
    + unfold m'. by rewrite hsize_set_hptr.
    + rewrite <- Hpp. apply hptr_set_hptr, load64_range.
    + eapply links_ext; [exact HlB|]. intros a k x Ha Hx. apply Hm'. pose proof (HsB a k ltac:(by right)). lia.
  - rewrite El in Hs. by apply spaced_drop in Hs.
  - assert (Hqj : (q, j) ∈ (base, 0) :: l1) by (rewrite E; set_solver). apply elem_of_cons in Hqj as [[= -> _]|Hqj]; [left|right].
    apply list_elem_of_fmap. exists (q, j). set_solver.
  - apply hsize_ext. intros x Hx. apply Hm'. pose proof (HsB p n ltac:(left)). lia.
  - intros x. rewrite El, !covered_app, covered_cons. tauto.
  - rewrite El in Hs. apply spaced_apart, apart_split in Hs. apply Hs.
Qed.

(** The other case: the tail of the block. *)
Lemma take_tail_ok h l al q p nu :
  heap_ok h l al -> q ∈ base :: (fst <$> l) -> hptr (h_mem h) q = p -> p <> base -> 1 <= nu < hsize (h_mem h) p ->
  taken h l al nu (malloc_take nu q p h).
Proof using Hbase Hstart.
  intros K Hq Hp Hpb Hnu. pose proof K as [Hl Hs Hfp Hlive Hap Hdis Hall Hbrk]. destruct (ring_behind _ _ _ _ Hl Hq Hp Hpb) as (l1 & A & j & B & E & El).
  set (m := h_mem h) in *. set (n := hsize m p) in *.
  assert (Hin : (p, n) ∈ l) by (rewrite El; set_solver). destruct (spaced_in _ _ _ _ Hs Hin) as [Hp1 Hn1].
  destruct (block_bounds _ _ _ _ _ K (or_introl Hin) Hn1) as [Hpl Hph].
  assert (ER : (base, 0) :: l = ((base, 0) :: l1) ++ (p, n) :: B) by (by rewrite El).
  destruct (ring_sep _ _ _ _ _ _ Hs ER) as [HsA HsB]. rewrite ER in Hl. apply links_app in Hl as [HlA HlB].
  cbn [links] in HlB. destruct HlB as (_ & Hpp & HlB).
  unfold malloc_take. fold m n. pose proof (hsize_range m p) as Hr. fold n in Hr. rewrite (proj2 (Z.eqb_neq n nu)) by lia. cbn zeta. rewrite u32_small, hsize_set_hsize, (hplus_small p) by lia.
  set (b := p + 16 * (n - nu)). set (m' := set_hsize (set_hsize m p (n - nu)) b nu). rewrite hplus_small by lia.
  exists b, (l1 ++ (p, n - nu) :: B). cbn [fst snd h_os h_mem].
  assert (Hm' : forall x, ~ (p <= x < p + 16 * n) -> rd m' x = rd m x) by (intros; unfold m'; by rewrite !rd_set_hsize by lia).
  assert (Hkeep : forall x, covered al x -> rd m' x = rd m x).
  { intros x Hx. apply Hm'. intros Hx'. apply (Hdis x Hx). by exists p, n. }
  split_and!; [lia| |done|done]. apply (heap_taken h l al m' q (l1 ++ (p, n - nu) :: B)); try done; try lia.
  - rewrite app_comm_cons. apply links_app. cbn [first]. split; [|cbn [links]; split_and!].
    + eapply links_ext; [exact HlA|]. intros a k x Ha Hx. apply Hm'. specialize (HsA _ _ Ha). lia.
    + unfold m'. rewrite (hsize_ext (set_hsize m p (n - nu))) by (intros; apply rd_set_hsize; lia). apply hsize_set_hsize. lia.
    + rewrite <- Hpp. unfold m'. rewrite (hptr_ext (set_hsize m p (n - nu))) by (intros; apply rd_set_hsize; lia). by rewrite hptr_set_hsize.
    + eapply links_ext; [exact HlB|]. intros a k x Ha Hx. apply Hm'. specialize (HsB _ _ Ha). lia.
  - rewrite El in Hs. eapply spaced_shrink; [exact Hs|lia].
  - rewrite El in Hq. by rewrite fmap_app in Hq |- *.
  - apply hsize_set_hsize. lia.
  - intros x. rewrite El, !covered_app, !covered_cons.
    assert (p <= x < p + 16 * n <-> p <= x < p + 16 * (n - nu) \/ b <= x < b + 16 * nu) by lia. tauto.
  - intros x Hx. rewrite El in Hs. apply spaced_apart, apart_split in Hs as [Hs _]. specialize (Hs x ltac:(lia)).
    rewrite covered_app in Hs. rewrite covered_app, covered_cons. assert (~ (p <= x < p + 16 * (n - nu))) by lia. tauto.
Qed.

(** ** More memory *)

(** What [sbrk] added is a block, which [morecore] then frees. *)
Lemma heap_grow h l al m' o' nu :
  heap_ok h l al -> 1 <= nu -> brk o' = brk (h_os h) + 16 * nu -> (forall x, x < brk (h_os h) -> rd m' x = rd (h_mem h) x) ->
  heap_ok (UHeap (set_hsize m' (brk (h_os h)) nu) (h_freep h) o') l ((brk (h_os h), nu) :: al).
Proof using Hbase Hstart.
  intros [Hl Hs Hfp Hlive Hap Hdis Hall Hbrk] Hnu Ho Hm. set (p := brk (h_os h)) in *.
  pose proof (brk_range o'). assert (Hm' : forall x, x < p -> rd (set_hsize m' p nu) x = rd (h_mem h) x).
  { intros x Hx. rewrite rd_set_hsize by lia. by apply Hm. }
  assert (Hcl : forall x, covered l x -> x < p) by (intros x Hx; apply (Hall x); by left).
  assert (Hca : forall x, covered al x -> x < p) by (intros x Hx; apply (Hall x); by right).
  split; cbn [h_mem h_freep h_os]; try done; [| | | | |lia].
  - eapply links_ext; [exact Hl|]. intros a n x [[= -> ->]|Ha]%elem_of_cons Hx; apply Hm'; [lia|].
    destruct (spaced_in _ _ _ _ Hs Ha). apply Hcl. exists a, n. split; [done|lia].
  - intros a n [[= -> ->]|Ha]%elem_of_cons; [split; [|done]; apply hsize_set_hsize; lia|].
    destruct (Hlive _ _ Ha) as [Hn Hn1]. split; [|done]. rewrite <- Hn. apply hsize_ext. intros x Hx. apply Hm', Hca.
    exists a, n. split; [done|lia].
  - split; [|done]. intros x Hx Hx'%Hca. lia.
  - intros x [Hx|Hx]%covered_cons; [intros Hx'%Hcl; lia|by apply Hdis].
  - intros x. rewrite covered_cons, Ho. specialize (Hall x).
    assert (start <= x < p + 16 * nu <-> start <= x < p \/ p <= x < p + 16 * nu) by lia. tauto.
Qed.

Definition room nu l : Prop := exists a n, (a, n) ∈ l /\ nu <= n.

Lemma morecore_ok h l al nu fuel :
  heap_ok h l al -> 1 <= nu < 2 ^ 27 -> (2 * length l + 3 <= fuel)%nat ->
  morecore fuel nu h = Some (0, h) \/
  exists h' l', morecore fuel nu h = Some (h_freep h', h') /\ heap_ok h' l' al /\ (length l' <= length l + 1)%nat /\
    (forall x, covered al x -> rd (h_mem h') x = rd (h_mem h) x) /\ room nu l'.
Proof using Hbase Hstart.
  intros K Hnu Hf. unfold morecore. set (nu' := if nu <? 4096 then 4096 else nu).
  assert (Hnu' : nu <= nu' < 2 ^ 27) by (unfold nu'; destruct (Z.ltb_spec nu 4096); lia).
  replace (i32 (nu' * sizeof_Header)) with (16 * nu') by (rewrite i32_small; unfold sizeof_Header; lia).
  pose proof (sbrk_grows (16 * nu') (h_mem h) (h_os h) ltac:(lia)) as Hsb. destruct (sbrk _ _ _) as [[p m'] o'].
  destruct Hsb as [(-> & -> & ->)|(-> & Ho & Hm)]; [left; by destruct h|right].
  pose proof (brk_range (h_os h)). pose proof (brk_range o'). rewrite (proj2 (Z.eqb_neq _ (-1))) by lia. rewrite hplus_small, Z.mul_1_r by lia.
  pose proof (heap_grow h l al m' o' nu' K ltac:(lia) Ho Hm) as K1.
  destruct (free_ok _ l [] al _ _ fuel K1 Hf) as (h' & l' & -> & K' & _ & Hlen & Hrd & Hc). exists h', l'. split_and!; try done.
  - intros x Hx. rewrite Hrd by done. assert (Hb : x < brk (h_os h)) by (apply (hk_all _ _ _ K); by right). cbn [h_mem]. rewrite rd_set_hsize by lia. by apply Hm.
  - assert (Hlt : brk (h_os h) < brk (h_os h) + 16 * nu') by (clear - Hnu Hnu'; lia).
    destruct (spaced_one_block _ _ _ _ (hk_spaced _ _ _ K') Hlt Hc) as (a & n & Ha & H1 & H2). exists a, n. split; [done|lia].
Qed.

(** ** The walk of [malloc] *)

(** From [q] the links lead through [v]. *)
Fixpoint path m (q : Z) (v : list block) : Prop :=
  match v with
  | [] => True
  | (a, n) :: v' => hptr m q = a /\ hsize m a = n /\ path m a v'
  end.

Lemma path_app m q v w : path m q (v ++ w) <-> path m q v /\ path m (prev_of q v) w.
Proof. revert q. induction v as [|[a n] v IH]; intros q; cbn [app path prev_of]; [naive_solver|]. rewrite IH. naive_solver. Qed.

Lemma links_path m q k l z n : links m ((q, k) :: l) z -> hsize m z = n -> path m q (l ++ [(z, n)]).
Proof.
  revert q k. induction l as [|[a j] l IH]; intros q k; cbn [links app path first]; [naive_solver|].
  intros (_ & Hq & Hl) Hz. split_and!; [done|apply Hl|]. by eapply IH.
Qed.

(** Around the ring, from [q] back to [q]. *)
Lemma ring_path m l q :
  links m ((base, 0) :: l) base -> q ∈ base :: (fst <$> l) ->
  exists v k, path m q (v ++ [(q, k)]) /\ (q, k) :: v ≡ₚ (base, 0) :: l.
Proof.
  intros Hl Hq. destruct (in_ring l q Hq) as (A & k & B & E). rewrite E in Hl |- *. pose proof Hl as [HA HB]%links_app. cbn [first] in HA.
  destruct A as [|b A]; cbn [app] in E.
  - injection E as <- <- <-. exists l, 0. split; [|done]. eapply links_path; [exact HB|]. apply HB.
  - injection E as <- ->. exists (B ++ (base, 0) :: A), k. split; [|solve_Permutation].
    replace ((B ++ (base, 0) :: A) ++ [(q, k)]) with ((B ++ [(base, 0)]) ++ (A ++ [(q, k)])) by (by rewrite <- !app_assoc).
    apply path_app. split.
    + eapply links_path; [exact HB|]. apply HA.
    + rewrite prev_of_app. cbn [prev_of app]. eapply links_path; [exact HA|]. apply HB.
Qed.

Lemma loop_walk v q h fuel nu :
  path (h_mem h) q v -> (forall a n, (a, n) ∈ v -> n < nu /\ a <> h_freep h) ->
  malloc_loop (length v + fuel) nu q (hptr (h_mem h) q) h =
  malloc_loop fuel nu (prev_of q v) (hptr (h_mem h) (prev_of q v)) h.
Proof.
  revert q. induction v as [|[a n] v IH]; intros q; cbn [path]; [done|]. intros (Hq & Hn & Hv) Hs.
  destruct (Hs a n ltac:(left)) as [Hlt Hne]. cbn [length Nat.add malloc_loop prev_of].
  rewrite Hq, Hn, Z.geb_leb, (proj2 (Z.leb_gt _ _)), (proj2 (Z.eqb_neq _ _)) by done.
  apply IH; [done|]. intros b k Hb. apply (Hs b k). by right.
Qed.

(** The first block that is large enough. *)
Lemma first_fit (v : list block) nu :
  (forall a n, (a, n) ∈ v -> n < nu) \/
  exists v1 a n v2, v = v1 ++ (a, n) :: v2 /\ nu <= n /\ forall b k, (b, k) ∈ v1 -> k < nu.
Proof.
  induction v as [|[a n] v IH]; [left; by intros ? ? ?%elem_of_nil|]. destruct (Z.lt_ge_cases n nu) as [Hlt|Hge].
  - destruct IH as [IH|(v1 & b & k & v2 & -> & Hk & H1)].
    + left. intros b k [[= -> ->]|Hb]%elem_of_cons; [done|by eapply IH].
    + right. exists ((a, n) :: v1), b, k, v2. split_and!; [done|done|]. intros c j [[= -> ->]|Hc]%elem_of_cons; [done|by eapply H1].
  - right. exists [], a, n, v. split_and!; [done|lia|]. by intros ? ? ?%elem_of_nil.
Qed.

Lemma incr_NoDup e (l : list block) : incr e l -> NoDup (fst <$> l).
Proof.
  revert e. induction l as [|[a n] l IH]; intros e; cbn [incr]; [intros; apply NoDup_nil_2|]. intros [_ Hi]. rewrite fmap_cons. apply NoDup_cons_2; [|by eapply IH].
  intros ([b k] & Hb & Hin)%list_elem_of_fmap. cbn [fst] in Hb. subst b. pose proof (incr_in _ _ _ _ Hi Hin). lia.
Qed.

(** All around the ring from [freep], which comes last. *)
Lemma freep_path h l al : heap_ok h l al ->
  exists v k, path (h_mem h) (h_freep h) (v ++ [(h_freep h, k)]) /\ (h_freep h, k) :: v ≡ₚ (base, 0) :: l /\
    (forall a n, (a, n) ∈ v -> a <> h_freep h).
Proof.
  intros [Hl Hs Hfp _ _ _ _ _]. destruct (ring_path _ _ _ Hl Hfp) as (v & k & Hp & Hperm). exists v, k. split_and!; [done|done|].
  assert (Hnd : NoDup (fst <$> (base, 0) :: l)).
  { apply (incr_NoDup (base - 1)). split; [lia|]. apply spaced_incr in Hs. destruct l as [|[]]; cbn [incr] in *; [done|]. split; [lia|apply Hs]. }
  rewrite <- Hperm, fmap_cons in Hnd. apply NoDup_cons in Hnd as [Hnd _]. intros a n Ha ->. apply Hnd, list_elem_of_fmap. by exists (h_freep h, n).
Qed.

Lemma loop_found h l al nu fuel :
  heap_ok h l al -> 1 <= nu -> room nu l -> (length l + 1 <= fuel)%nat ->
  exists r, malloc_loop fuel nu (h_freep h) (hptr (h_mem h) (h_freep h)) h = Some r /\ taken h l al nu r.
Proof using Hbase Hstart.
  intros K Hnu (a & n & Ha & Hn) Hf. destruct (freep_path _ _ _ K) as (v & k & Hp & Hperm & Hne).
  assert (Hin : forall x, x ∈ v ++ [(h_freep h, k)] <-> x ∈ (base, 0) :: l) by (intros x; rewrite <- Hperm; set_solver).
  destruct (first_fit (v ++ [(h_freep h, k)]) nu) as [Hno|(v1 & p & j & v2 & E & Hj & Hv1)].
  { pose proof (Hno a n). rewrite Hin in H. pose proof (H ltac:(by right)). lia. }
  assert (Hlen : (length v1 <= length l)%nat).
  { apply (f_equal length) in E. apply Permutation_length in Hperm. rewrite !length_app in E. simpl in *. lia. }
  assert (Hsub : forall x, x ∈ v1 -> x ∈ v).
  { intros x Hx. destruct v2 as [|y v2 _] using rev_ind; [by apply app_inj_tail in E as [-> _]|].
    rewrite app_comm_cons, app_assoc in E. apply app_inj_tail in E as [-> _]. set_solver. }
  rewrite E in Hp. apply path_app in Hp as [Hp1 Hp2]. cbn [path] in Hp2. destruct Hp2 as (Hq & Hjs & _). set (q := prev_of (h_freep h) v1) in *.
  replace fuel with (length v1 + S (fuel - length v1 - 1))%nat by lia. rewrite loop_walk; [|done|].
  2: { intros b i Hb. split; [by eapply Hv1|]. by eapply Hne, Hsub. }
  fold q. rewrite Hq. cbn [malloc_loop]. rewrite Hjs, Z.geb_leb, (proj2 (Z.leb_le _ _)) by done. eexists. split; [done|].
  assert (Hpl : (p, j) ∈ (base, 0) :: l) by (apply Hin; rewrite E; apply elem_of_app; right; left).
  assert (Hpb : p <> base). { intros ->. pose proof (hk_links _ _ _ K) as [Hz _]. lia. }
  assert (Hqr : q ∈ base :: (fst <$> l)).
  { change (base :: (fst <$> l)) with (fst <$> (base, 0) :: l). destruct (prev_of_split (h_freep h) k v1) as (l0 & i & E0). fold q in E0.
    apply list_elem_of_fmap. exists (q, i). split; [done|]. apply Hin. assert (Hqi : (q, i) ∈ (h_freep h, k) :: v1) by (rewrite E0; apply elem_of_app; right; left).
    apply elem_of_app. apply elem_of_cons in Hqi as [->|Hqi]; [right; left|left; by apply Hsub]. }
  destruct (Z.eq_dec nu j) as [->|]; [rewrite <- Hjs; by apply take_all_ok|apply take_tail_ok; try done; lia].
Qed.

Lemma loop_full h l al nu fuel :
  heap_ok h l al -> 1 <= nu -> ~ room nu l ->
  malloc_loop (length l + S fuel) nu (h_freep h) (hptr (h_mem h) (h_freep h)) h =
  (r ← morecore fuel nu h; let '(p, h') := r in if p =? 0 then Some (0, h') else malloc_loop fuel nu p (hptr (h_mem h') p) h').
Proof.
  intros K Hnu Hno. destruct (freep_path _ _ _ K) as (v & k & Hp & Hperm & Hne).
  assert (Hsm : forall a n, (a, n) ∈ (h_freep h, k) :: v -> n < nu).
  { intros a n Ha. rewrite Hperm in Ha. apply elem_of_cons in Ha as [[= -> ->]|Ha]; [lia|]. apply Z.nle_gt. intros Hn. apply Hno. by exists a, n. }
  apply path_app in Hp as [Hp1 Hp2]. cbn [path] in Hp2. destruct Hp2 as (Hq & Hk & _).
  replace (length l) with (length v) by (apply Permutation_length in Hperm; simpl in Hperm; lia). rewrite loop_walk; [|done|].
  2: { intros b i Hb. split; [eapply Hsm; by right|by eapply Hne]. }
  rewrite Hq. cbn [malloc_loop]. rewrite Hk, Z.geb_leb, (proj2 (Z.leb_gt _ _)), Z.eqb_refl by (eapply Hsm; left). done.
Qed.

Lemma nunits_range nbytes : 0 <= nbytes <= 2 ^ 31 - 32 ->
  nunits_of nbytes = (nbytes + 15) / 16 + 1 /\ 1 <= nunits_of nbytes < 2 ^ 27 /\ nbytes <= 16 * (nunits_of nbytes - 1).
Proof.
  intros Hn. unfold nunits_of, sizeof_Header. replace (nbytes + 16 - 1) with (nbytes + 15) by lia.
  pose proof (Z.div_mod (nbytes + 15) 16 ltac:(lia)). pose proof (Z.mod_pos_bound (nbytes + 15) 16 ltac:(lia)). rewrite u32_small; lia.
Qed.

(** Before the first call there is nothing. *)
Lemma heap_init (h : uheap O) : brk (h_os h) = start -> heap_ok (UHeap (set_hsize (set_hptr (h_mem h) base base) base 0) base (h_os h)) [] [].
Proof using Hbase Hstart.
  intros Hb. pose proof (brk_range (h_os h)). split; cbn [h_mem h_freep h_os]; try done.
  - cbn [links first]. split_and!; [apply hsize_set_hsize; lia| |done]. rewrite hptr_set_hsize. apply hptr_set_hptr. lia.
  - left.
  - intros a n Ha%elem_of_nil. done.
  - intros x Hx. by destruct (covered_nil x).
  - intros x. rewrite Hb. pose proof (covered_nil x). split; [tauto|lia].
  - lia.
Qed.

(** The result of [malloc]: the null pointer when no block is large enough
    and [sbrk] gives nothing, otherwise a new live block. *)
Definition malloced (h : uheap O) l al nu (r : Z * uheap O) : Prop :=
  (r = (0, h) /\ ~ room nu l) \/
  (exists b l', r.1 = b + 16 /\ heap_ok r.2 l' ((b, nu) :: al) /\ (room nu l -> h_os r.2 = h_os h) /\
    (forall x, covered al x -> rd (h_mem r.2) x = rd (h_mem h) x)).

Lemma room_dec nu l : room nu l \/ ~ room nu l.
Proof.
  destruct (first_fit l nu) as [H|(v1 & a & n & v2 & -> & Hn & _)]; [right|left; exists a, n; set_solver].
  intros (a & n & Ha & Hn). specialize (H a n Ha). lia.
Qed.

Lemma heap_freep h l al : heap_ok h l al -> h_freep h <> 0.
Proof using Hbase.
  intros K. pose proof (hk_freep _ _ _ K) as [->|([a k] & -> & Ha)%list_elem_of_fmap]%elem_of_cons; [lia|].
  destruct (spaced_in _ _ _ _ (hk_spaced _ _ _ K) Ha). cbn [fst]. lia.
Qed.

Lemma malloc_loop_ok h l al nu fuel :
  heap_ok h l al -> 1 <= nu < 2 ^ 27 -> (3 * length l + 4 <= fuel)%nat ->
  exists r, malloc_loop fuel nu (h_freep h) (hptr (h_mem h) (h_freep h)) h = Some r /\ malloced h l al nu r.
Proof using Hbase Hstart.
  intros K Hnu Hf. destruct (room_dec nu l) as [Hr|Hr].
  - destruct (loop_found h l al nu fuel K) as (r & -> & b & l' & H1 & H2 & H3 & H4); [lia|done|lia|].
    exists r. split; [done|]. right. by exists b, l'.
  - replace fuel with (length l + S (fuel - length l - 1))%nat by lia. rewrite (loop_full h l al) by (done || lia).
    destruct (morecore_ok h l al nu (fuel - length l - 1) K Hnu ltac:(lia)) as [->|(h' & l' & -> & K' & Hlen & Hrd & Hr')].
    + exists (0, h). split; [done|]. by left.
    + cbn [mbind option_bind]. rewrite (proj2 (Z.eqb_neq _ _)) by (by eapply heap_freep).
      destruct (loop_found h' l' al nu (fuel - length l - 1) K') as (r & -> & b & l'' & H1 & H2 & H3 & H4); [lia|done|lia|].
      exists r. split; [done|]. right. exists b, l''. split_and!; [done|done|done|]. intros x Hx. rewrite H4 by done. by apply Hrd.
Qed.

Lemma malloc_ok h l al nbytes fuel :
  heap_ok h l al -> 0 <= nbytes <= 2 ^ 31 - 32 -> (3 * length l + 4 <= fuel)%nat ->
  exists r, malloc base fuel nbytes h = Some r /\ malloced h l al (nunits_of nbytes) r.
Proof using Hbase Hstart.
  intros K Hn Hf. destruct (nunits_range _ Hn) as (_ & Hnu & _). unfold malloc. rewrite (proj2 (Z.eqb_neq _ 0)) by (by eapply heap_freep).
  by apply malloc_loop_ok.
Qed.
End heap.
