(* ===== verification/UmallocProps.v ===== *)
(** The promises of the user allocator to a program. *)

From S2P Require Import Prelude Umalloc UmallocSpec UmallocHeap.

(** ** Fuel *)

Section fuel.
Context {O : Type} {ops : SbrkOps O}.

Lemma free_mono f f' ap (h h' : uheap O) : free f ap h = Some h' -> (f <= f')%nat -> free f' ap h = Some h'.
Proof.
  unfold free. intros H Hf. destruct (free_search f _ _ _) as [p|] eqn:E; [|done]. by rewrite (free_search_mono _ _ _ _ _ _ E Hf).
Qed.

Lemma morecore_mono f f' nu (h : uheap O) r : morecore f nu h = Some r -> (f <= f')%nat -> morecore f' nu h = Some r.
Proof.
  unfold morecore. intros H Hf. destruct (sbrk _ _ _) as [[p m] o]. destruct (_ =? _); [done|].
  destruct (free f _ _) as [h1|] eqn:E; [|done]. by rewrite (free_mono _ _ _ _ _ E Hf).
Qed.

Lemma malloc_loop_mono f f' nu q p (h : uheap O) r : malloc_loop f nu q p h = Some r -> (f <= f')%nat -> malloc_loop f' nu q p h = Some r.
Proof.
  revert f' q p h. induction f as [|f IH]; intros f' q p h; [done|]. destruct f' as [|f']; [lia|]. cbn [malloc_loop]. intros H Hf.
  destruct (_ >=? _); [done|]. destruct (_ =? _); [|apply IH; [done|lia]].
  destruct (morecore f _ _) as [[p1 h1]|] eqn:E; [|done]. rewrite (morecore_mono f f' _ _ _ E) by lia. cbn [mbind option_bind] in *.
  destruct (_ =? _); [done|]. apply IH; [done|lia].
Qed.

Lemma malloc_mono base f f' nbytes (h : uheap O) r : malloc base f nbytes h = Some r -> (f <= f')%nat -> malloc base f' nbytes h = Some r.
Proof. apply malloc_loop_mono. Qed.
End fuel.

(** ** A program that uses the allocator

    The program holds the objects [al], pointers with the sizes it asked
    for.  It allocates, frees an object it holds and writes to its objects. *)

Section client.
Context {O : Type} {ops : SbrkOps O} {laws : SbrkLaws O}.
Context (base start : Z).

Definition payload (al : list (Z * Z)) (x : Z) : Prop := exists p n, (p, n) ∈ al /\ p <= x < p + n.

Inductive ustep : uheap O * list (Z * Z) -> uheap O * list (Z * Z) -> Prop :=
| us_malloc fuel nbytes h al p h' :
    0 <= nbytes <= 2 ^ 31 - 32 -> malloc base fuel nbytes h = Some (p, h') ->
    ustep (h, al) (h', if p =? 0 then al else (p, nbytes) :: al)
| us_free fuel h al1 p n al2 h' :
    free fuel p h = Some h' -> ustep (h, al1 ++ (p, n) :: al2) (h', al1 ++ al2)
| us_store h al x v :
    payload al x -> ustep (h, al) (UHeap (wr (h_mem h) x v) (h_freep h) (h_os h), al).

(** The block of an object. *)
Definition holds (b : block) (o : Z * Z) : Prop := o.1 = b.1 + 16 /\ 0 <= o.2 <= 16 * (b.2 - 1).

(** Before the first call of [malloc], or after it. *)
Definition client_ok (s : uheap O * list (Z * Z)) : Prop :=
  (h_freep s.1 = 0 /\ s.2 = [] /\ brk (h_os s.1) = start) \/
  (exists l bl, heap_ok base start s.1 l bl /\ Forall2 holds bl s.2).

Lemma holds_payload bl al x : Forall2 holds bl al -> payload al x -> covered bl x.
Proof.
  intros HF (p & n & Hin & Hx). apply list_elem_of_lookup in Hin as [i Hi]. destruct (Forall2_lookup_r _ _ _ _ _ HF Hi) as ([a k] & Ha & Hp & Hn).
  cbn [fst snd] in *. exists a, k. split; [by eapply list_elem_of_lookup_2|lia].
Qed.

Lemma apart_lookup (l : list block) i j a n b k :
  apart l -> l !! i = Some (a, n) -> l !! j = Some (b, k) -> i <> j -> 1 <= n -> 1 <= k -> a + 16 * n <= b \/ b + 16 * k <= a.
Proof.
  intros Hap Hi Hj Hne Hn Hk.
  assert (Hd : forall x, a <= x < a + 16 * n -> ~ (b <= x < b + 16 * k)).
  { intros x Hx Hx'. pose proof (take_drop_middle _ _ _ Hi) as E. rewrite <- E in Hap. apply apart_split in Hap as [Hap _].
    apply (Hap x Hx). exists b, k. split; [|done]. apply (list_elem_of_lookup_2 _ (if decide (i < j)%nat then j - 1 else j)%nat).
    rewrite <- delete_take_drop. destruct (decide (i < j)%nat).
    - rewrite list_lookup_delete_ge by lia. by replace (S (j - 1)) with j by lia.
    - by rewrite list_lookup_delete_lt by lia. }
  destruct (Z.le_gt_cases (a + 16 * n) b); [by left|]. destruct (Z.le_gt_cases (b + 16 * k) a); [by right|].
  destruct (Hd (Z.max a b)); lia.
Qed.

Context (Hbase : 0 < base) (Hstart : base + 16 <= start).

(** [malloc] in a state of the program. *)
Lemma malloc_client h al nbytes : client_ok (h, al) -> 0 <= nbytes <= 2 ^ 31 - 32 ->
  exists F p h', (forall fuel, (F <= fuel)%nat -> malloc base fuel nbytes h = Some (p, h')) /\
    client_ok (h', if p =? 0 then al else (p, nbytes) :: al) /\
    (forall x, payload al x -> rd (h_mem h') x = rd (h_mem h) x) /\
    (p <> 0 -> forall x, p <= x < p + nbytes -> ~ payload al x).
Proof using Hbase Hstart.
  intros K Hn. destruct (nunits_range _ Hn) as (_ & Hnu & Hnb).
  assert (Hcase : exists h1 l bl, heap_ok base start h1 l bl /\ Forall2 holds bl al /\
    (forall fuel, malloc base fuel nbytes h = malloc_loop fuel (nunits_of nbytes) (h_freep h1) (hptr (h_mem h1) (h_freep h1)) h1) /\
    (forall x, payload al x -> rd (h_mem h1) x = rd (h_mem h) x)).
  { destruct K as [(Hf & Hal & Hb)|(l & bl & K & HF)]; cbn [fst snd] in *.
    - eexists _, [], []. split_and!; [by apply (heap_init base start Hbase Hstart h)|by rewrite Hal| |].
      + intros fuel. unfold malloc. rewrite Hf. done.
      + intros x (p & n & Hin & _). rewrite Hal in Hin. by apply elem_of_nil in Hin.
    - exists h, l, bl. split_and!; [done|done| |done]. intros fuel. unfold malloc. by rewrite (proj2 (Z.eqb_neq _ 0)) by (by eapply heap_freep). }
  destruct Hcase as (h1 & l & bl & K1 & HF & Heq & Hrd).
  destruct (malloc_loop_ok base start Hbase Hstart h1 l bl _ (3 * length l + 4) K1 Hnu) as ([p h'] & Hm & Hr); [lia|].
  exists (3 * length l + 4)%nat, p, h'. split; [intros fuel Hf; rewrite Heq; by eapply malloc_loop_mono|].
  destruct Hr as [[[= -> ->] _]|(b & l' & Hp & K' & _ & Hk)]; cbn [fst snd] in *.
  - split_and!; [right; by exists l, bl|done|done].
  - assert (Hb : (b, nunits_of nbytes) ∈ (b, nunits_of nbytes) :: bl) by left.
    destruct (block_bounds base start Hbase Hstart _ _ _ _ _ K' (or_intror Hb)) as [Hb1 _]; [lia|].
    rewrite (proj2 (Z.eqb_neq p 0)) by lia. split_and!.
    + right. exists l', ((b, nunits_of nbytes) :: bl). split; [done|]. constructor; [|done]. split; cbn [fst snd]; lia.
    + intros x Hx. rewrite Hk by (by eapply holds_payload). by apply Hrd.
    + intros _ x Hx Hpl. pose proof (hk_apart _ _ _ _ _ K') as [Hap _]. apply (Hap x); [lia|by eapply holds_payload].
Qed.

Lemma free_client h al1 p n al2 : client_ok (h, al1 ++ (p, n) :: al2) ->
  exists F h', (forall fuel, (F <= fuel)%nat -> free fuel p h = Some h') /\ client_ok (h', al1 ++ al2) /\
    (forall x, payload (al1 ++ al2) x -> rd (h_mem h') x = rd (h_mem h) x).
Proof using Hbase Hstart.
  intros [(_ & Hal & _)|(l & bl & K & HF)]; cbn [fst snd] in *; [by destruct al1|].
  apply Forall2_app_inv_r in HF as (bl1 & bl' & HF1 & HF2 & ->). apply Forall2_cons_inv_r in HF2 as ([a k] & bl2 & [Hp _] & HF2 & ->). cbn [fst snd] in Hp. subst p.
  destruct (free_ok base start Hbase Hstart h l bl1 bl2 a k (2 * length l + 3) K) as (h' & l' & Hf & K' & _ & _ & Hrd & _); [lia|].
  exists (2 * length l + 3)%nat, h'. split; [intros fuel Hfu; by eapply free_mono|].
  assert (HF : Forall2 holds (bl1 ++ bl2) (al1 ++ al2)) by (by apply Forall2_app). split; [right; by exists l', (bl1 ++ bl2)|].
  intros x Hx. by eapply Hrd, holds_payload.
Qed.

(** An object is no part of a header. *)
Lemma store_client h al x v : client_ok (h, al) -> payload al x -> client_ok (UHeap (wr (h_mem h) x v) (h_freep h) (h_os h), al).
Proof using Hbase Hstart.
  intros [(_ & Hal & _)|(l & bl & K & HF)] Hx; cbn [fst snd] in *; [destruct Hx as (p & n & Hin & _); rewrite Hal in Hin; by apply elem_of_nil in Hin|].
  right. exists l, bl. split; [|done]. pose proof K as [Hl Hs Hfp Hlive Hap Hdis Hall Hbrk]. pose proof (holds_payload _ _ _ HF Hx) as Hc.
  assert (Hwr : forall y, y <> x -> rd (wr (h_mem h) x v) y = rd (h_mem h) y) by (intros y Hy; by apply rd_wr_other).
  split; cbn [h_mem h_freep h_os]; try done.
  - eapply links_ext; [exact Hl|]. intros a n y Ha Hy. apply Hwr. intros ->.
    eapply (ring_header base start Hbase Hstart h l bl a x); [done| |done|done].
    apply elem_of_cons in Ha as [[= -> _]|Ha]; [left|right]. apply list_elem_of_fmap. by exists (a, n).
  - intros a n Ha. destruct (Hlive _ _ Ha) as [Hn Hn1]. split; [|done]. rewrite <- Hn. apply hsize_ext. intros y Hy. apply Hwr. intros ->.
    destruct Hx as (p & k & Hin & Hx). apply list_elem_of_lookup in Hin as [i Hi]. destruct (Forall2_lookup_r _ _ _ _ _ HF Hi) as ([b j] & Hb & Hp & Hk).
    cbn [fst snd] in *. apply list_elem_of_lookup in Ha as [i' Hi']. destruct (decide (i = i')) as [->|Hne]; [rewrite Hb in Hi'; injection Hi' as -> ->; lia|].
    destruct (Hlive b j) as [_ Hj]; [by eapply list_elem_of_lookup_2|]. destruct (apart_lookup bl i i' _ _ _ _ Hap Hb Hi' Hne Hj Hn1); lia.
Qed.

Lemma client_ok_step s s' : client_ok s -> ustep s s' -> client_ok s'.
Proof using Hbase Hstart.
  intros K Hst. destruct Hst as [fuel nbytes h al p h' Hn Hm|fuel h al1 p n al2 h' Hf|h al x v Hx].
  - destruct (malloc_client _ _ _ K Hn) as (F & p' & h1 & Hall & K' & _). pose proof (malloc_mono base _ (F + fuel) _ _ _ Hm ltac:(lia)) as Hm'.
    rewrite Hall in Hm' by lia. by injection Hm' as -> ->.
  - destruct (free_client _ _ _ _ _ K) as (F & h1 & Hall & K' & _). pose proof (free_mono _ (F + fuel) _ _ _ Hf ltac:(lia)) as Hf'.
    rewrite Hall in Hf' by lia. by injection Hf' as ->.
  - by apply store_client.
Qed.

Lemma client_ok_reachable h0 s : h_freep h0 = 0 -> brk (h_os h0) = start -> rtc ustep (h0, []) s -> client_ok s.
Proof using Hbase Hstart.
  intros Hf Hb Hr. assert (K : client_ok (h0, [])) by (by left). remember (h0, @nil (Z * Z)) as s0 eqn:E. clear E.
  induction Hr as [|s1 s2 s3 Hst _ IH]; [done|]. by eapply IH, client_ok_step.
Qed.

Lemma client_bounds h al p n : client_ok (h, al) -> (p, n) ∈ al -> start <= p /\ 0 <= n /\ p + n <= brk (h_os h).
Proof using Hbase Hstart.
  intros [(_ & Hal & _)|(l & bl & K & HF)] Hin; cbn [fst snd] in *; [rewrite Hal in Hin; by apply elem_of_nil in Hin|].
  apply list_elem_of_lookup in Hin as [i Hi]. destruct (Forall2_lookup_r _ _ _ _ _ HF Hi) as ([a k] & Ha & Hp & Hn). cbn [fst snd] in *.
  apply list_elem_of_lookup_2 in Ha. destruct (block_bounds base start Hbase Hstart _ _ _ _ _ K (or_intror Ha)); lia.
Qed.

Lemma client_apart h al i j p n q k :
  client_ok (h, al) -> al !! i = Some (p, n) -> al !! j = Some (q, k) -> i <> j -> p + n <= q \/ q + k <= p.
Proof.
  intros [(_ & Hal & _)|(l & bl & K & HF)] Hi Hj Hne; cbn [fst snd] in *; [by rewrite Hal in Hi|].
  destruct (Forall2_lookup_r _ _ _ _ _ HF Hi) as ([a u] & Ha & Hp & Hn), (Forall2_lookup_r _ _ _ _ _ HF Hj) as ([b w] & Hb & Hq & Hk). cbn [fst snd] in *.
  destruct (apart_lookup bl i j a u b w (hk_apart _ _ _ _ _ K) Ha Hb Hne); lia.
Qed.
End client.

(** C17: a program that only frees what it holds and only writes to its
    objects can never break the allocator: its objects are always disjoint
    and inside its memory, and with enough fuel, that is without looping,
    [malloc] and [free] return, the new object is disjoint from the others,
    and no byte of an object the program keeps changes. *)
Theorem umalloc_safe {O : Type} {ops : SbrkOps O} {laws : SbrkLaws O} (base : Z) (h0 h : uheap O) (al : list (Z * Z)) :
  0 < base -> base + 16 <= brk (h_os h0) -> h_freep h0 = 0 -> rtc (ustep base) (h0, []) (h, al) ->
  (forall i j p n q k, al !! i = Some (p, n) -> al !! j = Some (q, k) -> i <> j -> p + n <= q \/ q + k <= p) /\
  (forall p n, (p, n) ∈ al -> brk (h_os h0) <= p /\ p + n <= brk (h_os h)) /\
  (forall nbytes, 0 <= nbytes <= 2 ^ 31 - 32 -> exists F p h', (forall fuel, (F <= fuel)%nat -> malloc base fuel nbytes h = Some (p, h')) /\
    (forall x, payload al x -> rd (h_mem h') x = rd (h_mem h) x) /\
    (p <> 0 -> p + nbytes <= brk (h_os h') /\ forall x, p <= x < p + nbytes -> ~ payload al x)) /\
  (forall al1 p n al2, al = al1 ++ (p, n) :: al2 -> exists F h', (forall fuel, (F <= fuel)%nat -> free fuel p h = Some h') /\
    (forall x, payload (al1 ++ al2) x -> rd (h_mem h') x = rd (h_mem h) x)).
Proof.
  intros Hbase Hstart Hf Hr. pose proof (client_ok_reachable base _ Hbase Hstart h0 _ Hf eq_refl Hr) as K. split_and!.
  - intros i j p n q k. by eapply client_apart.
  - intros p n Hin. destruct (client_bounds base _ Hbase Hstart _ _ _ _ K Hin). lia.
  - intros nbytes Hn. destruct (malloc_client base _ Hbase Hstart _ _ _ K Hn) as (F & p & h' & Hm & K' & Hrd & Hd).
    exists F, p, h'. split_and!; [done|done|]. intros Hp. split; [|by apply Hd]. rewrite (proj2 (Z.eqb_neq p 0)) in K' by done.
    destruct (client_bounds base _ Hbase Hstart _ _ p nbytes K' ltac:(left)). lia.
  - intros al1 p n al2 ->. destruct (free_client base _ Hbase Hstart _ _ _ _ _ K) as (F & h' & Hm & _ & Hrd). by exists F, h'.
Qed.

(** C18: when everything has been freed the memory that the allocator got is
    one block again: an object of any size that fits is allocated without a
    call of [sbrk]. *)
Theorem umalloc_coalesces {O : Type} {ops : SbrkOps O} {laws : SbrkLaws O} (base : Z) (h0 h : uheap O) (nbytes : Z) :
  0 < base -> base + 16 <= brk (h_os h0) -> h_freep h0 = 0 -> rtc (ustep base) (h0, []) (h, []) ->
  0 <= nbytes <= 2 ^ 31 - 32 -> 16 * nunits_of nbytes <= brk (h_os h) - brk (h_os h0) ->
  exists F p h', (forall fuel, (F <= fuel)%nat -> malloc base fuel nbytes h = Some (p, h')) /\ p <> 0 /\ h_os h' = h_os h.
Proof.
  intros Hbase Hstart Hf Hr Hn Hfit. destruct (nunits_range _ Hn) as (_ & Hnu & _).
  destruct (client_ok_reachable base _ Hbase Hstart h0 _ Hf eq_refl Hr) as [(_ & _ & Hb)|(l & bl & K & HF)]; cbn [fst snd] in *; [lia|].
  apply Forall2_nil_inv_r in HF as ->.
  destruct (malloc_ok base _ Hbase Hstart h l [] nbytes (3 * length l + 4) K Hn) as ([p h'] & Hm & Hres); [lia|].
  assert (Hroom : room (nunits_of nbytes) l).
  { destruct (spaced_one_block _ l (brk (h_os h0)) (brk (h_os h)) (hk_spaced _ _ _ _ _ K)) as (a & n & Ha & H1 & H2); [lia| |].
    - intros x Hx. apply (hk_all _ _ _ _ _ K) in Hx as [|Hx]; [done|]. by destruct (covered_nil x).
    - destruct (spaced_in _ _ _ _ (hk_spaced _ _ _ _ _ K) Ha).
      destruct (block_bounds base _ Hbase Hstart _ _ _ _ _ K (or_introl Ha)); [done|]. exists a, n. split; [done|lia]. }
  destruct Hres as [[_ Hno]|(b & l' & Hp & K' & Hos & _)]; [done|]. cbn [fst snd] in *.
  exists (3 * length l + 4)%nat, p, h'. split_and!; [intros fuel Hfu; by eapply malloc_mono| |by apply Hos].
  assert (Hb : (b, nunits_of nbytes) ∈ [(b, nunits_of nbytes)]) by left.
  destruct (block_bounds base _ Hbase Hstart _ _ _ _ _ K' (or_intror Hb)); lia.
Qed.

(** [free] when the ring is only [base]. *)
Lemma free_single {O : Type} (base bp n : Z) m (o : O) f :
  0 < base -> base + 16 <= bp -> 1 <= n -> bp + 16 * n < 2 ^ 64 ->
  hptr m base = base -> hsize m base = 0 -> hsize m bp = n ->
  exists m', free (S f) (bp + 16) (UHeap m base o) = Some (UHeap m' base o) /\ hptr m' base = bp /\ hsize m' bp = n.
Proof.
  intros Hbase Hbp Hn Hend Hp Hz Hs. unfold free. replace (bp + 16 - sizeof_Header) with bp by (unfold sizeof_Header; lia).
  cbn [h_mem h_freep h_os free_search]. rewrite Hp, Z.gtb_ltb, (proj2 (Z.ltb_lt base bp)), (proj2 (Z.ltb_ge bp base)) by lia.
  rewrite Z.geb_leb, Z.leb_refl. cbn [andb orb mbind option_bind].
  unfold join_above. rewrite Hs, Hp, hplus_small, (proj2 (Z.eqb_neq _ base)) by lia. set (m1 := set_hptr m bp base).
  unfold join_below. rewrite (hsize_ext m m1 base) by (intros; apply rd_set_hptr; lia). rewrite Hz, hplus_small, (proj2 (Z.eqb_neq _ bp)) by lia.
  eexists. split_and!; [done|apply hptr_set_hptr; lia|]. rewrite (hsize_ext m1) by (intros; apply rd_set_hptr; lia).
  unfold m1. by rewrite hsize_set_hptr.
Qed.

(** [morecore] of more units than an [int] can count bytes. *)
Lemma morecore_truncated {O : Type} {ops : SbrkOps O} {laws : SbrkLaws O} (base : Z) (h : uheap O) f :
  0 < base -> heap_ok base (brk (h_os h)) h [] [] -> base + 16 <= brk (h_os h) -> (sbrk 16 (h_mem h) (h_os h)).1.1 <> -1 ->
  exists m o, morecore (S f) (2 ^ 28 + 1) h = Some (base, UHeap m base o) /\ brk o = brk (h_os h) + 16 /\
    hptr m base = brk (h_os h) /\ hsize m (brk (h_os h)) = 2 ^ 28 + 1.
Proof.
  intros Hbase K Hb Hs. destruct (hk_links _ _ _ _ _ K) as (Hz & Hp & _). pose proof (hk_freep _ _ _ _ _ K) as Hfp.
  apply elem_of_cons in Hfp as [Hfp|Hfp]; [|by apply elem_of_nil in Hfp]. unfold morecore.
  change (2 ^ 28 + 1 <? 4096) with false. cbn iota zeta. change (i32 ((2 ^ 28 + 1) * sizeof_Header)) with 16.
  pose proof (sbrk_grows 16 (h_mem h) (h_os h) ltac:(lia)) as Hg. destruct (sbrk 16 _ _) as [[p m'] o']. cbn [fst] in Hs.
  destruct Hg as [(-> & _)|(-> & Ho & Hm)]; [done|]. pose proof (brk_range (h_os h)). rewrite (proj2 (Z.eqb_neq _ (-1))), hplus_small, Z.mul_1_r by lia.
  assert (Hlow : forall x, base <= x < base + 16 -> rd (set_hsize m' (brk (h_os h)) (2 ^ 28 + 1)) x = rd (h_mem h) x).
  { intros x Hx. rewrite rd_set_hsize by lia. apply Hm. lia. }
  rewrite Hfp. destruct (free_single base (brk (h_os h)) (2 ^ 28 + 1) (set_hsize m' (brk (h_os h)) (2 ^ 28 + 1)) o' f) as (m2 & -> & Hp2 & Hs2); try lia.
  - by rewrite (hptr_ext _ _ _ Hlow).
  - by rewrite (hsize_ext _ _ _ Hlow).
  - apply hsize_set_hsize. lia.
  - by exists m2, o'.
Qed.

(** C40: [malloc] of more than two gigabytes.  The size that [morecore] asks
    for is computed in 64 bits and then passed as an [int]: a request for
    2^32 - 1 bytes grows the process by 16 bytes and still returns a pointer,
    to an object that is almost entirely outside the memory of the process. *)
Theorem malloc_size_truncated {O : Type} {ops : SbrkOps O} {laws : SbrkLaws O} (base : Z) (h : uheap O) :
  0 < base -> base + 16 <= brk (h_os h) -> h_freep h = 0 ->
  (forall m, (sbrk 16 m (h_os h)).1.1 <> -1) ->
  exists h', malloc base 3 (2 ^ 32 - 1) h = Some (brk (h_os h) + 16, h') /\ brk (h_os h') = brk (h_os h) + 16.
Proof.
  intros Hbase Hb Hf Hs. pose proof (heap_init base (brk (h_os h)) Hbase Hb h eq_refl) as K.
  unfold malloc. rewrite Hf, Z.eqb_refl. change (nunits_of (2 ^ 32 - 1)) with (2 ^ 28 + 1). set (h1 := UHeap _ base _) in *.
  change 3%nat with (length (@nil block) + 3)%nat. rewrite (loop_full base (brk (h_os h)) h1 [] []) by (done || intros (a & n & Ha%elem_of_nil & _); done).
  destruct (morecore_truncated base h1 1 Hbase K Hb (Hs _)) as (m & o & -> & Ho & Hp & Hz). cbn [mbind option_bind h_mem].
  rewrite (proj2 (Z.eqb_neq base 0)) by lia. pose proof (brk_range (h_os h)). change (h_os h1) with (h_os h) in *. rewrite Hp.
  cbn [malloc_loop h_mem]. rewrite Hz. change (2 ^ 28 + 1 >=? 2 ^ 28 + 1) with true. cbn iota. unfold malloc_take. cbn [h_mem h_os].
  rewrite Hz, Z.eqb_refl, hplus_small, Z.mul_1_r by lia. by eexists.
Qed.

(** ** A concrete system

    The program ends at [brk]; it can grow to a megabyte. *)

Definition demo_sbrk : SbrkOps Z :=
  {| sbrk := fun n m o => if (0 <? n) && (0 <=? o) && (o + n <=? 2 ^ 20) then (o, m, o + n) else (-1, m, o) |}.

Lemma demo_range (o : Z) : 0 <= Z.max 0 (Z.min o (2 ^ 20)) < 2 ^ 36.
Proof. lia. Qed.

Lemma demo_grows n (m : memory) (o : Z) : 0 < n < 2 ^ 31 ->
  let '(p, m', o') := sbrk (SbrkOps := demo_sbrk) n m o in
  (p = -1 /\ m' = m /\ o' = o) \/
  (p = Z.max 0 (Z.min o (2 ^ 20)) /\ Z.max 0 (Z.min o' (2 ^ 20)) = Z.max 0 (Z.min o (2 ^ 20)) + n /\
   forall a, a < Z.max 0 (Z.min o (2 ^ 20)) -> rd m' a = rd m a).
Proof.
  intros Hn. unfold sbrk, demo_sbrk. destruct (Z.ltb_spec 0 n), (Z.leb_spec 0 o), (Z.leb_spec (o + n) (2 ^ 20)); cbn [andb]; try (by left). right. split_and!; try done; lia.
Qed.

Definition demo_laws : SbrkLaws Z (ops := demo_sbrk) :=
  {| brk := fun o => Z.max 0 (Z.min o (2 ^ 20)); brk_range := demo_range; sbrk_grows := demo_grows |}.

Definition demo_heap : uheap Z := UHeap (fun _ => 0) 0 4096.

(** Two objects are allocated, the first is freed. *)
Definition demo_get (r : option (Z * uheap Z)) : uheap Z := match r with Some (_, h) => h | None => demo_heap end.
Definition demo_heap1 : uheap Z := demo_get (malloc (ops := demo_sbrk) 1000 3 100 demo_heap).
Definition demo_heap2 : uheap Z := demo_get (malloc (ops := demo_sbrk) 1000 3 50 demo_heap1).
Definition demo_heap3 : uheap Z := default demo_heap (free 3 69520 demo_heap2).
Definition demo_heap4 : uheap Z := default demo_heap (free 3 69440 demo_heap3).

Lemma demo_run : rtc (ustep (ops := demo_sbrk) 1000) (demo_heap, []) (demo_heap3, [(69440, 50)]).
Proof.
  eapply rtc_l; [apply (us_malloc (ops := demo_sbrk) 1000 3 100 _ _ 69520 demo_heap1); [lia|reflexivity]|].
  eapply rtc_l; [apply (us_malloc (ops := demo_sbrk) 1000 3 50 _ _ 69440 demo_heap2); [lia|reflexivity]|].
  eapply rtc_l; [|apply rtc_refl]. apply (us_free (ops := demo_sbrk) 1000 3 _ [(69440, 50)] 69520 100 [] demo_heap3). reflexivity.
Qed.

Lemma umalloc_safe_witness :
  4096 <= 69440 /\ exists F h', (forall fuel, (F <= fuel)%nat -> free fuel 69440 demo_heap3 = Some h').
Proof.
  destruct (umalloc_safe (laws := demo_laws) 1000 demo_heap demo_heap3 [(69440, 50)]) as (_ & Hin & _ & Hfree); [lia|vm_compute; discriminate|reflexivity|exact demo_run|].
  split; [apply (Hin 69440 50); left|]. destruct (Hfree [] 69440 50 [] eq_refl) as (F & h' & Hf & _). by exists F, h'.
Defined.

Lemma umalloc_coalesces_witness :
  exists F p h', (forall fuel, (F <= fuel)%nat -> malloc (ops := demo_sbrk) 1000 fuel 65000 demo_heap4 = Some (p, h')) /\ p <> 0 /\ h_os h' = h_os demo_heap4.
Proof.
  apply (umalloc_coalesces (laws := demo_laws) 1000 demo_heap demo_heap4 65000); [lia|vm_compute; discriminate|reflexivity| |lia|vm_compute; discriminate].
  eapply rtc_r; [exact demo_run|]. apply (us_free (ops := demo_sbrk) 1000 3 _ [] 69440 50 [] demo_heap4). reflexivity.
Defined.

Lemma malloc_size_truncated_witness :
  exists h', malloc (ops := demo_sbrk) 1000 3 (2 ^ 32 - 1) demo_heap = Some (4112, h') /\ brk (SbrkLaws := demo_laws) (h_os h') = 4112.
Proof.
  apply (malloc_size_truncated (laws := demo_laws) 1000 demo_heap); [lia|vm_compute; discriminate|reflexivity|]. intros m. vm_compute. discriminate.
Defined.
