(* ===== verification/Virtio.v ===== *)
(** kernel/virtio_disk.c and kernel/virtio.h: the disk driver, its descriptor
    table and rings, and the device behind them. *)

From S2P Require Import Prelude KMonad Kstring Riscv Kalloc Ring BlockStore.

(** ** Registers and constants *)

Definition VIRTIO_MMIO_MAGIC_VALUE : Z := 0x000.
Definition VIRTIO_MMIO_VERSION : Z := 0x004.
Definition VIRTIO_MMIO_DEVICE_ID : Z := 0x008.
Definition VIRTIO_MMIO_VENDOR_ID : Z := 0x00c.
Definition VIRTIO_MMIO_DEVICE_FEATURES : Z := 0x010.
Definition VIRTIO_MMIO_DRIVER_FEATURES : Z := 0x020.
Definition VIRTIO_MMIO_QUEUE_SEL : Z := 0x030.
Definition VIRTIO_MMIO_QUEUE_NUM_MAX : Z := 0x034.
Definition VIRTIO_MMIO_QUEUE_NUM : Z := 0x038.
Definition VIRTIO_MMIO_QUEUE_READY : Z := 0x044.
Definition VIRTIO_MMIO_QUEUE_NOTIFY : Z := 0x050.
Definition VIRTIO_MMIO_INTERRUPT_STATUS : Z := 0x060.
Definition VIRTIO_MMIO_INTERRUPT_ACK : Z := 0x064.
Definition VIRTIO_MMIO_STATUS : Z := 0x070.
Definition VIRTIO_MMIO_QUEUE_DESC_LOW : Z := 0x080.
Definition VIRTIO_MMIO_QUEUE_DESC_HIGH : Z := 0x084.
Definition VIRTIO_MMIO_DRIVER_DESC_LOW : Z := 0x090.
Definition VIRTIO_MMIO_DRIVER_DESC_HIGH : Z := 0x094.
Definition VIRTIO_MMIO_DEVICE_DESC_LOW : Z := 0x0a0.
Definition VIRTIO_MMIO_DEVICE_DESC_HIGH : Z := 0x0a4.

Definition VIRTIO_CONFIG_S_ACKNOWLEDGE : Z := 1.
Definition VIRTIO_CONFIG_S_DRIVER : Z := 2.
Definition VIRTIO_CONFIG_S_DRIVER_OK : Z := 4.
Definition VIRTIO_CONFIG_S_FEATURES_OK : Z := 8.

Definition VIRTIO_BLK_F_RO : Z := 5.
Definition VIRTIO_BLK_F_SCSI : Z := 7.
Definition VIRTIO_BLK_F_CONFIG_WCE : Z := 11.
Definition VIRTIO_BLK_F_MQ : Z := 12.
Definition VIRTIO_F_ANY_LAYOUT : Z := 27.
Definition VIRTIO_RING_F_INDIRECT_DESC : Z := 28.
Definition VIRTIO_RING_F_EVENT_IDX : Z := 29.

Definition NUM : Z := 8.
Definition VRING_DESC_F_NEXT : Z := 1.
Definition VRING_DESC_F_WRITE : Z := 2.
Definition VIRTIO_BLK_T_IN : Z := 0.
Definition VIRTIO_BLK_T_OUT : Z := 1.

(** ** The queue in memory

    An address in a descriptor is null or points to a command header, the
    data of a buffer or a status byte. *)

Inductive daddr :=
| ANull
| AOps (i : Z)       (** [&disk.ops[i]] *)
| AData (b : nat)    (** [bcache.buf[b].data] *)
| AStatus (i : Z)    (** [&disk.info[i].status] *).

#[global] Instance daddr_eq_dec : EqDecision daddr.
Proof. solve_decision. Defined.

Record virtq_desc := Desc {
  d_addr : daddr;
  d_len : Z;
  d_flags : Z;
  d_next : Z }.

Record virtio_blk_req := Req {
  rq_type : Z;
  rq_reserved : Z;
  rq_sector : Z }.

Record dinfo := Info {
  in_b : option nat;
  in_status : Z }.

(** [struct disk]; the tables [desc], [avail] and [used] point to are written
    out, [pages] are their addresses.  An entry of the used ring is the pair
    of its [id] and [len]. *)
Record vdisk := Disk {
  desc : list virtq_desc;
  avail_idx : Z;
  avail_ring : list Z;
  dev_used_idx : Z;
  used_ring : list (Z * Z);
  dfree : list Z;
  used_idx : Z;
  info : list dinfo;
  ops : list virtio_blk_req;
  pages : Z * Z * Z }.

(** The fields of [struct buf] the driver uses. *)
Record vbuf := Vbuf {
  vb_blockno : Z;
  vb_data : list Z;
  vb_disk : Z }.

Definition set_desc (f : list virtq_desc -> list virtq_desc) (q : vdisk) : vdisk :=
  Disk (f (desc q)) (avail_idx q) (avail_ring q) (dev_used_idx q) (used_ring q) (dfree q) (used_idx q) (info q) (ops q) (pages q).
Definition set_avail (i : Z) (r : list Z) (q : vdisk) : vdisk :=
  Disk (desc q) i r (dev_used_idx q) (used_ring q) (dfree q) (used_idx q) (info q) (ops q) (pages q).
Definition set_used (i : Z) (r : list (Z * Z)) (q : vdisk) : vdisk :=
  Disk (desc q) (avail_idx q) (avail_ring q) i r (dfree q) (used_idx q) (info q) (ops q) (pages q).
Definition set_dfree (f : list Z -> list Z) (q : vdisk) : vdisk :=
  Disk (desc q) (avail_idx q) (avail_ring q) (dev_used_idx q) (used_ring q) (f (dfree q)) (used_idx q) (info q) (ops q) (pages q).
Definition set_used_idx (i : Z) (q : vdisk) : vdisk :=
  Disk (desc q) (avail_idx q) (avail_ring q) (dev_used_idx q) (used_ring q) (dfree q) i (info q) (ops q) (pages q).
Definition set_info (f : list dinfo -> list dinfo) (q : vdisk) : vdisk :=
  Disk (desc q) (avail_idx q) (avail_ring q) (dev_used_idx q) (used_ring q) (dfree q) (used_idx q) (f (info q)) (ops q) (pages q).
Definition set_ops (f : list virtio_blk_req -> list virtio_blk_req) (q : vdisk) : vdisk :=
  Disk (desc q) (avail_idx q) (avail_ring q) (dev_used_idx q) (used_ring q) (dfree q) (used_idx q) (info q) (f (ops q)) (pages q).
Definition set_pages (p : Z * Z * Z) (q : vdisk) : vdisk :=
  Disk (desc q) (avail_idx q) (avail_ring q) (dev_used_idx q) (used_ring q) (dfree q) (used_idx q) (info q) (ops q) p.

Definition set_vdisk (x : Z) (b : vbuf) : vbuf := Vbuf (vb_blockno b) (vb_data b) x.
Definition set_vdata (d : list Z) (b : vbuf) : vbuf := Vbuf (vb_blockno b) d (vb_disk b).

Definition at_idx {A} (l : list A) (i : Z) : option A := if i <? 0 then None else l !! Z.to_nat i.

(** ** The device

    A device is its registers and the steps it takes by itself on the queue
    and the buffers in memory. *)

Class VirtioDev (D : Type) := {
  reg_read : Z -> D -> Z * D;
  reg_write : Z -> Z -> D -> D;
  dev_step : D -> vdisk -> list vbuf -> D -> vdisk -> list vbuf -> Prop }.

(** What the specification of virtio block devices says of it: how far it has
    read the available ring, the chains it has taken and not answered, the
    interrupt it signals, and its sectors, [dv_capacity] of them. *)
Record dview := View {
  dv_seen : Z;
  dv_pending : list Z;
  dv_irq : bool;
  dv_sectors : Z -> list Z;
  dv_capacity : Z }.

(** A request as the device finds it behind the descriptor [h]: three
    descriptors for the command, the data and the status. *)
Record request := Request {
  r_write : bool;
  r_sector : Z;
  r_buf : nat;
  r_status : Z }.

Definition request_at (q : vdisk) (h : Z) : option request :=
  d0 ← at_idx (desc q) h;
  d1 ← at_idx (desc q) (d_next d0);
  d2 ← at_idx (desc q) (d_next d1);
  match d_addr d0, d_addr d1, d_addr d2 with
  | AOps i, AData b, AStatus k =>
      c ← at_idx (ops q) i;
      if (d_len d0 =? 16) && (d_flags d0 =? VRING_DESC_F_NEXT) && (d_len d1 =? BSIZE) &&
         (d_len d2 =? 1) && (d_flags d2 =? VRING_DESC_F_WRITE)
      then
        if (rq_type c =? VIRTIO_BLK_T_OUT) && (d_flags d1 =? VRING_DESC_F_NEXT)
        then Some (Request true (rq_sector c) b k)
        else if (rq_type c =? VIRTIO_BLK_T_IN) && (d_flags d1 =? Z.lor VRING_DESC_F_WRITE VRING_DESC_F_NEXT)
        then Some (Request false (rq_sector c) b k)
        else None
      else None
  | _, _, _ => None
  end.

(** The two sectors of a block. *)
Definition get_sectors (f : Z -> list Z) (s : Z) : list Z := f s ++ f (s + 1).
Definition put_sectors (f : Z -> list Z) (s : Z) (d : list Z) : Z -> list Z :=
  fupd (fupd f s (take 512 d)) (s + 1) (drop 512 d).

Definition set_status (k : Z) (x : Z) : list dinfo -> list dinfo :=
  alter (fun i => Info (in_b i) x) (Z.to_nat k).

(** The device is done with the request of chain [h]: the sectors or the
    buffer hold the data, the status is 0 and the chain is on the used ring. *)
Definition served (r : request) (h len : Z) (q : vdisk) : vdisk :=
  set_used (u16 (dev_used_idx q + 1)) (<[Z.to_nat (dev_used_idx q mod NUM) := (h, len)]> (used_ring q))
    (set_info (set_status (r_status r) 0) q).
Definition served_bufs (r : request) (f : Z -> list Z) (bs : list vbuf) : list vbuf :=
  if r_write r then bs else alter (set_vdata (get_sectors f (r_sector r))) (r_buf r) bs.
Definition served_sectors (r : request) (bs : list vbuf) (f : Z -> list Z) : Z -> list Z :=
  if r_write r then
    match bs !! r_buf r with Some b => put_sectors f (r_sector r) (vb_data b) | None => f end
  else f.

(** The steps a device may take: it may signal an interrupt at any time, take
    the next chain, or answer one it has taken, in any order.  Nothing is known
    about what it does with a malformed chain or a sector it does not have. *)
Inductive dev_may (v : dview) (q : vdisk) (bs : list vbuf) : dview -> vdisk -> list vbuf -> Prop :=
| may_idle i : (dv_irq v = true -> i = true) ->
    dev_may v q bs (View (dv_seen v) (dv_pending v) i (dv_sectors v) (dv_capacity v)) q bs
| may_take : dv_seen v <> avail_idx q ->
    dev_may v q bs
      (View (u16 (dv_seen v + 1)) (dv_pending v ++ [nth (Z.to_nat (dv_seen v mod NUM)) (avail_ring q) 0])
         (dv_irq v) (dv_sectors v) (dv_capacity v)) q bs
| may_serve l1 h l2 r len :
    dv_pending v = l1 ++ h :: l2 -> request_at q h = Some r -> 0 <= r_sector r -> r_sector r + 2 <= dv_capacity v ->
    dev_may v q bs
      (View (dv_seen v) (l1 ++ l2) true (served_sectors r bs (dv_sectors v)) (dv_capacity v))
      (served r h len q) (served_bufs r (dv_sectors v) bs)
| may_anything h v' q' bs' :
    h ∈ dv_pending v ->
    (match request_at q h with Some r => ~ (0 <= r_sector r /\ r_sector r + 2 <= dv_capacity v) | None => True end) ->
    dev_may v q bs v' q' bs'.

Class VirtioLaws (D : Type) {dev : VirtioDev D} := {
  view : D -> dview;
  seen_range d : 0 <= dv_seen (view d) < 2 ^ 16;
  sector_size d s : length (dv_sectors (view d) s) = 512%nat;
  read_view r d : view (snd (reg_read r d)) = view d;
  isr_read d : Z.testbit (fst (reg_read VIRTIO_MMIO_INTERRUPT_STATUS d)) 0 = dv_irq (view d);
  ack_write x d : view (reg_write VIRTIO_MMIO_INTERRUPT_ACK x d) =
    View (dv_seen (view d)) (dv_pending (view d)) (dv_irq (view d) && negb (Z.testbit x 0))
      (dv_sectors (view d)) (dv_capacity (view d));
  reset_write d : view (reg_write VIRTIO_MMIO_STATUS 0 d) =
    View 0 [] false (dv_sectors (view d)) (dv_capacity (view d));
  other_write r x d : r <> VIRTIO_MMIO_INTERRUPT_ACK -> (r = VIRTIO_MMIO_STATUS -> x <> 0) ->
    view (reg_write r x d) = view d;
  step_spec d q bs d' q' bs' : dev_step d q bs d' q' bs' -> dev_may (view d) q bs (view d') q' bs' }.

(** ** The driver *)

Record vst (D : Type) := Vst {
  v_disk : vdisk;
  v_bufs : list vbuf;
  v_dev : D;
  v_phys : phys }.
Arguments Vst {D} _ _ _ _.
Arguments v_disk {D} _.
Arguments v_bufs {D} _.
Arguments v_dev {D} _.
Arguments v_phys {D} _.

Section virtio.
Context {sy : Symbols} {D : Type} {dev : VirtioDev D}.
Abbreviation vm := (M (vst D)).

Definition upd_disk (f : vdisk -> vdisk) (s : vst D) : vst D := Vst (f (v_disk s)) (v_bufs s) (v_dev s) (v_phys s).
Definition upd_dev (f : D -> D) (s : vst D) : vst D := Vst (v_disk s) (v_bufs s) (f (v_dev s)) (v_phys s).

(** [*R(r)] and an assignment to it. *)
Definition R_read (r : Z) : vm Z :=
  s ← get;
  let '(x, d) := reg_read r (v_dev s) in
  put (upd_dev (fun _ => d) s);;
  mret (u32 x).
Definition R_write (r x : Z) : vm () := modify (upd_dev (reg_write r (u32 x))).

Definition vkalloc : vm Z :=
  zoom v_phys (fun s p => Vst (v_disk s) (v_bufs s) (v_dev s) p) kalloc.
Definition vmemset (pa : Z) : vm () :=
  modify (fun s => Vst (v_disk s) (v_bufs s) (v_dev s) (upd_mem (fun m => memset m pa 0 PGSIZE) (v_phys s))).

Definition zero_desc : virtq_desc := Desc ANull 0 0 0.

Definition clear_feature (k features : Z) : Z := Z.land features (Z.lnot (Z.shiftl 1 k)).

(** One of the tests that find the device. *)
Definition find_disk (r x : Z) : vm () :=
  v ← R_read r;
  if v =? x then mret () else panic "could not find virtio disk".

(** The first part of [virtio_disk_init], up to the choice of the queue; it
    returns [status]. *)
Definition virtio_negotiate : vm Z :=
  find_disk VIRTIO_MMIO_MAGIC_VALUE 0x74726976;;
  find_disk VIRTIO_MMIO_VERSION 2;;
  find_disk VIRTIO_MMIO_DEVICE_ID 2;;
  find_disk VIRTIO_MMIO_VENDOR_ID 0x554d4551;;
  let status := 0 in
  R_write VIRTIO_MMIO_STATUS status;;
  let status := Z.lor status VIRTIO_CONFIG_S_ACKNOWLEDGE in
  R_write VIRTIO_MMIO_STATUS status;;
  let status := Z.lor status VIRTIO_CONFIG_S_DRIVER in
  R_write VIRTIO_MMIO_STATUS status;;
  features ← R_read VIRTIO_MMIO_DEVICE_FEATURES;
  let features := clear_feature VIRTIO_BLK_F_RO features in
  let features := clear_feature VIRTIO_BLK_F_SCSI features in
  let features := clear_feature VIRTIO_BLK_F_CONFIG_WCE features in
  let features := clear_feature VIRTIO_BLK_F_MQ features in
  let features := clear_feature VIRTIO_F_ANY_LAYOUT features in
  let features := clear_feature VIRTIO_RING_F_EVENT_IDX features in
  let features := clear_feature VIRTIO_RING_F_INDIRECT_DESC features in
  R_write VIRTIO_MMIO_DRIVER_FEATURES features;;
  let status := Z.lor status VIRTIO_CONFIG_S_FEATURES_OK in
  R_write VIRTIO_MMIO_STATUS status;;
  status ← R_read VIRTIO_MMIO_STATUS;
  if Z.land status VIRTIO_CONFIG_S_FEATURES_OK =? 0 then panic "virtio disk FEATURES_OK unset"
  else mret status.

(** [for(int i = 0; i < NUM; i++) disk.free[i] = 1;] *)
Fixpoint init_free (n i : nat) : vm () :=
  match n with
  | O => mret ()
  | S n' => modify (upd_disk (set_dfree (fun l => <[i := 1]> l)));; init_free n' (S i)
  end.

Definition virtio_disk_init : vm () :=
  status ← virtio_negotiate;
  R_write VIRTIO_MMIO_QUEUE_SEL 0;;
  ready ← R_read VIRTIO_MMIO_QUEUE_READY;
  if negb (ready =? 0) then panic "virtio disk should not be ready"
  else
    max ← R_read VIRTIO_MMIO_QUEUE_NUM_MAX;
    if max =? 0 then panic "virtio disk has no queue 0"
    else if max <? NUM then panic "virtio disk max queue too short"
    else
      desc ← vkalloc;
      avail ← vkalloc;
      used ← vkalloc;
      modify (upd_disk (set_pages (desc, avail, used)));;
      if (desc =? 0) || (avail =? 0) || (used =? 0) then panic "virtio disk kalloc"
      else
        vmemset desc;;
        vmemset avail;;
        vmemset used;;
        modify (upd_disk (fun q =>
          set_desc (fun _ => repeat zero_desc (Z.to_nat NUM))
            (set_avail 0 (repeat 0 (Z.to_nat NUM)) (set_used 0 (repeat (0, 0) (Z.to_nat NUM)) q))));;
        R_write VIRTIO_MMIO_QUEUE_NUM NUM;;
        R_write VIRTIO_MMIO_QUEUE_DESC_LOW desc;;
        R_write VIRTIO_MMIO_QUEUE_DESC_HIGH (Z.shiftr desc 32);;
        R_write VIRTIO_MMIO_DRIVER_DESC_LOW avail;;
        R_write VIRTIO_MMIO_DRIVER_DESC_HIGH (Z.shiftr avail 32);;
        R_write VIRTIO_MMIO_DEVICE_DESC_LOW used;;
        R_write VIRTIO_MMIO_DEVICE_DESC_HIGH (Z.shiftr used 32);;
        R_write VIRTIO_MMIO_QUEUE_READY 0x1;;
        init_free (Z.to_nat NUM) 0;;
        R_write VIRTIO_MMIO_STATUS (Z.lor status VIRTIO_CONFIG_S_DRIVER_OK).

Definition array {A} (l : list A) (i : Z) : vm A :=
  match at_idx l i with Some x => mret x | None => ub "virtio: index" end.

(** The loop of [alloc_desc] over the [n] descriptors from [i]. *)
Fixpoint alloc_desc_loop (n : nat) (i : Z) : vm Z :=
  match n with
  | O => mret (-1)
  | S n' =>
      s ← get;
      c ← array (dfree (v_disk s)) i;
      if negb (c =? 0) then
        modify (upd_disk (set_dfree (fun l => <[Z.to_nat i := 0]> l)));;
        mret i
      else alloc_desc_loop n' (i + 1)
  end.
Definition alloc_desc : vm Z := alloc_desc_loop (Z.to_nat NUM) 0.

Definition free_desc (i : Z) : vm () :=
  if i >=? NUM then panic "free_desc 1"
  else
    s ← get;
    c ← array (dfree (v_disk s)) i;
    if negb (c =? 0) then panic "free_desc 2"
    else
      modify (upd_disk (set_desc (fun l => <[Z.to_nat i := zero_desc]> l)));;
      modify (upd_disk (set_dfree (fun l => <[Z.to_nat i := 1]> l)));;
      wakeup ChDiskFree.

(** The loop of [free_chain]; [free_desc] frees a descriptor once, so it ends
    within [NUM] rounds. *)
Fixpoint free_chain_loop (fuel : nat) (i : Z) : vm () :=
  match fuel with
  | O => ub "free_chain: fuel"
  | S f =>
      s ← get;
      d ← array (desc (v_disk s)) i;
      free_desc i;;
      if negb (Z.land (d_flags d) VRING_DESC_F_NEXT =? 0) then free_chain_loop f (d_next d) else mret ()
  end.
Definition free_chain (i : Z) : vm () := free_chain_loop (S (Z.to_nat NUM)) i.

Fixpoint free_descs (idx : list Z) : vm () :=
  match idx with
  | [] => mret ()
  | i :: idx' => free_desc i;; free_descs idx'
  end.

(** [alloc3_desc] with [n] descriptors to go and [idx] filled so far; it
    returns the result and [idx]. *)
Fixpoint alloc3_loop (n : nat) (idx : list Z) : vm (Z * list Z) :=
  match n with
  | O => mret (0, idx)
  | S n' =>
      i ← alloc_desc;
      if i <? 0 then free_descs idx;; mret (-1, idx)
      else alloc3_loop n' (idx ++ [i])
  end.
Definition alloc3_desc : vm (Z * list Z) := alloc3_loop 3 [].

Definition vload (b : nat) : vm vbuf :=
  s ← get;
  match v_bufs s !! b with Some x => mret x | None => ub "virtio: buf" end.
Definition vassign (b : nat) (f : vbuf -> vbuf) : vm () :=
  _ ← vload b;
  modify (fun s => Vst (v_disk s) (alter f b (v_bufs s)) (v_dev s) (v_phys s)).

(** The chain of [virtio_disk_rw] for buffer [b], with the assignments to
    [b->disk] and [disk.info], and the entry in the available ring. *)
Definition rw_format (b : nat) (write : bool) (i0 i1 i2 : Z) : vm () :=
  x ← vload b;
  let sector := u32 (vb_blockno x * (BSIZE / 512)) in
  modify (upd_disk (set_ops (fun l =>
    <[Z.to_nat i0 := Req (if write then VIRTIO_BLK_T_OUT else VIRTIO_BLK_T_IN) 0 sector]> l)));;
  modify (upd_disk (set_desc (fun l => <[Z.to_nat i0 := Desc (AOps i0) 16 VRING_DESC_F_NEXT i1]> l)));;
  modify (upd_disk (set_desc (fun l =>
    <[Z.to_nat i1 := Desc (AData b) BSIZE (Z.lor (if write then 0 else VRING_DESC_F_WRITE) VRING_DESC_F_NEXT) i2]> l)));;
  modify (upd_disk (set_info (set_status i0 0xff)));;
  modify (upd_disk (set_desc (fun l => <[Z.to_nat i2 := Desc (AStatus i0) 1 VRING_DESC_F_WRITE 0]> l)));;
  vassign b (set_vdisk 1);;
  modify (upd_disk (set_info (alter (fun y => Info (Some b) (in_status y)) (Z.to_nat i0))));;
  modify (upd_disk (fun q =>
    set_avail (avail_idx q) (<[Z.to_nat (avail_idx q mod NUM) := i0]> (avail_ring q)) q)).

(** [virtio_disk_rw] with the lock held, up to the first barrier: it sleeps
    when there are no descriptors, and returns the three it took otherwise. *)
Definition rw_try (b : nat) (write : bool) : vm (option (Z * Z * Z)) :=
  r ← alloc3_desc;
  match r with
  | (ret, idx) =>
      if ret =? 0 then
        match idx with
        | [i0; i1; i2] => rw_format b write i0 i1 i2;; mret (Some (i0, i1, i2))
        | _ => ub "virtio_disk_rw: idx"
        end
      else park L_disk;; mret None
  end.

(** The end of [virtio_disk_rw], from the loop that waits for the buffer. *)
Definition rw_wait (b : nat) (i0 : Z) : vm segment :=
  x ← vload b;
  if vb_disk x =? 1 then
    park L_disk;;
    mret (Slept (ChDiskBuf b) i0)
  else
    modify (upd_disk (set_info (alter (fun y => Info None (in_status y)) (Z.to_nat i0))));;
    free_chain i0;;
    release L_disk;;
    mret (Returned 0).

(** From the first barrier: the chain is made available. *)
Definition rw_publish (b : nat) (i0 : Z) : vm segment :=
  modify (upd_disk (fun q => set_avail (u16 (avail_idx q + 1)) (avail_ring q) q));;
  R_write VIRTIO_MMIO_QUEUE_NOTIFY 0;;
  rw_wait b i0.

(** [virtio_disk_rw(b, write)] up to where it sleeps; after [sleep] on
    [disk.free] it starts over with the allocation, after [sleep] on the buffer
    it continues with [rw_wait]. *)
Definition virtio_disk_rw (b : nat) (write : bool) : vm segment :=
  acquire L_disk;;
  r ← rw_try b write;
  match r with
  | Some (i0, _, _) => rw_publish b i0
  | None => mret (Slept ChDiskFree 0)
  end.

(** [virtio_disk_intr]: the acknowledgement, and one round of its loop, which
    returns whether there is another. *)
Definition intr_status : vm Z :=
  acquire L_disk;;
  R_read VIRTIO_MMIO_INTERRUPT_STATUS.
Definition intr_ack (v : Z) : vm () := R_write VIRTIO_MMIO_INTERRUPT_ACK (Z.land v 0x3).
Definition intr_round : vm bool :=
  s ← get;
  let q := v_disk s in
  if negb (used_idx q =? dev_used_idx q) then
    e ← array (used_ring q) (used_idx q mod NUM);
    x ← array (info q) (i32 (fst e));
    if negb (in_status x =? 0) then panic "virtio_disk_intr status"
    else
      match in_b x with
      | None => ub "virtio_disk_intr: null buf"
      | Some b =>
          vassign b (set_vdisk 0);;
          wakeup (ChDiskBuf b);;
          modify (upd_disk (fun q => set_used_idx (u16 (used_idx q + 1)) q));;
          mret true
      end
  else
    release L_disk;;
    mret false.

Fixpoint intr_loop (fuel : nat) : vm () :=
  match fuel with
  | O => ub "virtio_disk_intr: fuel"
  | S f => more ← intr_round; if (more : bool) then intr_loop f else mret ()
  end.

(** The whole handler when the device adds nothing meanwhile. *)
Definition virtio_disk_intr : vm () :=
  v ← intr_status;
  intr_ack v;;
  s ← get;
  intr_loop (S (Z.to_nat (u16 (dev_used_idx (v_disk s) - used_idx (v_disk s))))).
End virtio.
