(* ===== verification/VirtioSpec.v ===== *)
(** Specifications of the routines of the disk driver: the descriptor table,
    the chains in it, and what each routine does to them. *)

From S2P Require Import Prelude KMonad Riscv Kalloc Ring BlockStore Virtio.

(** ** The table of descriptors *)

Lemma at_idx_inside {A} (l : list A) i : 0 <= i -> at_idx l i = l !! Z.to_nat i.
Proof. intros Hi. unfold at_idx. by rewrite (proj2 (Z.ltb_ge _ _) Hi). Qed.

(** [ds] are the descriptors in use, the others are free. *)
Record in_use (fr : list Z) (ds : list Z) : Prop := {
  iu_length : length fr = 8%nat;
  iu_range : Forall (fun i => 0 <= i < 8) ds;
  iu_nodup : NoDup ds;
  iu_free i : 0 <= i < 8 -> fr !! Z.to_nat i = Some (if decide (i ∈ ds) then 0 else 1) }.

#[global] Instance in_use_proper fr : Proper ((≡ₚ) ==> iff) (in_use fr).
Proof.
  assert (H : forall ds ds', ds ≡ₚ ds' -> in_use fr ds -> in_use fr ds').
  { intros ds ds' E [H1 H2 H3 H4]. split; [done|by rewrite <- E|by rewrite <- E|].
    intros i Hi. rewrite H4 by done. f_equal. apply decide_ext. by rewrite E. }
  intros ds ds' E. split; by apply H.
Qed.

Lemma in_use_alloc fr ds i : in_use fr ds -> 0 <= i < 8 -> i ∉ ds -> in_use (<[Z.to_nat i := 0]> fr) (i :: ds).
Proof.
  intros [H1 H2 H3 H4] Hi Hn. split; [by rewrite length_insert|by constructor|by constructor|].
  intros j Hj. destruct (decide (j = i)) as [->|Hne].
  - rewrite list_lookup_insert_eq by lia. by rewrite decide_True by left.
  - rewrite list_lookup_insert_ne, H4 by lia. f_equal. apply decide_ext. rewrite elem_of_cons. naive_solver.
Qed.

Lemma in_use_free fr ds i : in_use fr (i :: ds) -> in_use (<[Z.to_nat i := 1]> fr) ds.
Proof.
  intros [H1 [Hi H2]%Forall_cons [Hn H3]%NoDup_cons H4]. split; [by rewrite length_insert|done|done|].
  intros j Hj. destruct (decide (j = i)) as [->|Hne].
  - rewrite list_lookup_insert_eq by lia. by rewrite decide_False.
  - rewrite list_lookup_insert_ne, H4 by lia. f_equal. apply decide_ext. rewrite elem_of_cons. naive_solver.
Qed.

Lemma in_use_in fr ds i : in_use fr ds -> i ∈ ds -> 0 <= i < 8.
Proof. intros [_ H _ _]. rewrite Forall_forall in H. apply H. Qed.

Lemma in_use_bound fr ds : in_use fr ds -> (length ds <= 8)%nat.
Proof.
  intros [_ H2 H3 _]. rewrite Forall_forall in H2. change 8%nat with (length (seqZ 0 8)).
  apply submseteq_length, NoDup_submseteq; [done|]. intros i Hi. apply elem_of_seqZ. specialize (H2 i Hi). lia.
Qed.

Lemma in_use_full fr ds : in_use fr ds -> (forall i, 0 <= i < 8 -> i ∈ ds) -> length ds = 8%nat.
Proof.
  intros Hu Hall. pose proof (in_use_bound _ _ Hu). enough (8 <= length ds)%nat by lia.
  change 8%nat with (length (seqZ 0 8)). apply submseteq_length, NoDup_submseteq; [apply NoDup_seqZ|].
  intros i Hi%elem_of_seqZ. apply Hall. lia.
Qed.

(** The driver's part of the queue: descriptors and the table of free ones. *)
Definition with_tables (q : vdisk) (de : list virtq_desc) (fr : list Z) : vdisk :=
  set_desc (fun _ => de) (set_dfree (fun _ => fr) q).

(** The descriptors in use are the same in both tables. *)
Definition same_desc (ds : list Z) (l l' : list virtq_desc) : Prop :=
  length l' = length l /\ forall i, i ∈ ds -> l' !! Z.to_nat i = l !! Z.to_nat i.

#[global] Instance same_desc_proper : Proper ((≡ₚ) ==> eq ==> eq ==> iff) same_desc.
Proof. intros ds ds' E l ? <- l' ? <-. unfold same_desc. by setoid_rewrite E. Qed.

Lemma same_desc_refl ds l : same_desc ds l l.
Proof. done. Qed.

Lemma same_desc_trans ds l1 l2 l3 : same_desc ds l1 l2 -> same_desc ds l2 l3 -> same_desc ds l1 l3.
Proof. intros [H1 H2] [H3 H4]. split; [congruence|]. intros i Hi. by rewrite H4, H2. Qed.

Lemma same_desc_insert ds l i x : 0 <= i -> Forall (fun j => 0 <= j) ds -> i ∉ ds -> same_desc ds l (<[Z.to_nat i := x]> l).
Proof.
  intros Hi Hds Hn. rewrite Forall_forall in Hds. split; [by rewrite length_insert|]. intros j Hj.
  apply list_lookup_insert_ne. assert (j <> i) by naive_solver. specialize (Hds j Hj). lia.
Qed.

Section spec.
Context {sy : Symbols} {D : Type} {dev : VirtioDev D}.
Implicit Types (w : world (vst D)) (q : vdisk).

(** The world after a routine that changed the queue to [q'] and issued the
    wakeups [evs]. *)
Definition wq w (evs : list event) q' : world (vst D) :=
  World (w_me w) (w_held w) (w_evs w ++ evs) (upd_disk (fun _ => q') (w_st w)).

Lemma wq_nil w : wq w [] (v_disk (w_st w)) = w.
Proof. destruct w as [m h e [q bs d p]]. unfold wq. simpl. by rewrite app_nil_r. Qed.

Lemma wq_wq w e1 q1 e2 q2 : wq (wq w e1 q1) e2 q2 = wq w (e1 ++ e2) q2.
Proof. unfold wq. simpl. by rewrite app_assoc. Qed.

Lemma wq_disk w e q' : v_disk (w_st (wq w e q')) = q'.
Proof. done. Qed.

Lemma with_tables_twice q de fr de' fr' : with_tables (with_tables q de fr) de' fr' = with_tables q de' fr'.
Proof. done. Qed.

Lemma wp_array {A} (l : list A) i x (Q : A -> world (vst D) -> Prop) w :
  at_idx l i = Some x -> Q x w -> wp (array l i) Q w.
Proof. intros H HQ. unfold array. by rewrite H. Qed.

Lemma wp_alloc_desc_loop n i ds w (Q : Z -> world (vst D) -> Prop) :
  let q := v_disk (w_st w) in
  in_use (dfree q) ds -> 0 <= i -> i + Z.of_nat n = 8 ->
  (forall j, 0 <= j < 8 -> j ∉ ds -> Q j (wq w [] (with_tables q (desc q) (<[Z.to_nat j := 0]> (dfree q))))) ->
  ((forall j, i <= j < 8 -> j ∈ ds) -> Q (-1) w) ->
  wp (alloc_desc_loop n i) Q w.
Proof.
  intros q Hu. revert i. induction n as [|n IH]; intros i Hi Hn HQ1 HQ2; cbn [alloc_desc_loop].
  { apply wp_ret, HQ2. lia. }
  apply wp_bind, wp_get, wp_bind. eapply wp_array.
  { rewrite at_idx_inside by done. apply (iu_free _ _ Hu). lia. }
  case_decide as Hin; cbn [Z.eqb negb].
  - apply IH; [lia|lia|done|]. intros Hall. apply HQ2. intros j Hj. destruct (decide (j = i)) as [->|]; [done|]. apply Hall. lia.
  - apply wp_bind, wp_modify, wp_ret. specialize (HQ1 i ltac:(lia) Hin). destruct w as [m h e [q0 bs d p]].
    unfold wq in HQ1. simpl in HQ1. rewrite app_nil_r in HQ1. by destruct q0.
Qed.

Lemma wp_alloc_desc ds w (Q : Z -> world (vst D) -> Prop) :
  let q := v_disk (w_st w) in
  in_use (dfree q) ds ->
  (forall j, 0 <= j < 8 -> j ∉ ds -> Q j (wq w [] (with_tables q (desc q) (<[Z.to_nat j := 0]> (dfree q))))) ->
  ((forall j, 0 <= j < 8 -> j ∈ ds) -> Q (-1) w) ->
  wp alloc_desc Q w.
Proof. intros q Hu HQ1 HQ2. by apply (wp_alloc_desc_loop 8 0 ds). Qed.

Lemma wp_free_desc i ds w (Q : () -> world (vst D) -> Prop) :
  let q := v_disk (w_st w) in
  in_use (dfree q) (i :: ds) ->
  Q () (wq w [EvWakeup ChDiskFree] (with_tables q (<[Z.to_nat i := zero_desc]> (desc q)) (<[Z.to_nat i := 1]> (dfree q)))) ->
  wp (free_desc i) Q w.
Proof.
  intros q Hu HQ. assert (Hi : 0 <= i < 8) by (eapply in_use_in; [done|left]).
  unfold free_desc. rewrite Z.geb_leb, (proj2 (Z.leb_gt _ _)) by (unfold NUM; lia).
  apply wp_bind, wp_get, wp_bind. eapply wp_array.
  { rewrite at_idx_inside by lia. by apply (iu_free _ _ Hu). }
  rewrite decide_True by left. cbn [Z.eqb negb]. wp_steps. destruct w as [m h e [q0 bs d p]]. by destruct q0.
Qed.

(** Freeing all of [idx]: the descriptors still in use keep their contents. *)
Lemma wp_free_descs idx ds w (Q : () -> world (vst D) -> Prop) :
  let q := v_disk (w_st w) in
  in_use (dfree q) (idx ++ ds) ->
  (forall de fr evs, in_use fr ds -> same_desc ds (desc q) de -> Q () (wq w evs (with_tables q de fr))) ->
  wp (free_descs idx) Q w.
Proof.
  revert w. induction idx as [|i idx IH]; intros w q Hu HQ; cbn [free_descs].
  { apply wp_ret. specialize (HQ (desc q) (dfree q) [] Hu (same_desc_refl _ _)). subst q.
    rewrite <- (wq_nil w). destruct w as [m h e [q0 bs d p]]. by destruct q0. }
  cbn [app] in Hu. apply wp_bind. eapply wp_free_desc; [done|]. apply IH; [by apply in_use_free|].
  intros de fr evs Hfr Hde. rewrite wq_wq, wq_disk, with_tables_twice. apply HQ; [done|]. eapply same_desc_trans; [|done]. cbn.
  apply same_desc_insert.
  - eapply in_use_in; [exact Hu|left].
  - eapply Forall_impl; [apply (iu_range _ _ Hfr)|]. simpl. lia.
  - pose proof (iu_nodup _ _ Hu) as [Hn _]%NoDup_cons. set_solver.
Qed.

(** [alloc3_desc] with [idx] taken already. *)
Lemma wp_alloc3_loop n idx ds w (Q : Z * list Z -> world (vst D) -> Prop) :
  let q := v_disk (w_st w) in
  in_use (dfree q) (idx ++ ds) -> (length idx + n = 3)%nat ->
  (forall idx' fr, length idx' = 3%nat -> in_use fr (idx' ++ ds) -> Q (0, idx') (wq w [] (with_tables q (desc q) fr))) ->
  (forall idx' de fr evs, (6 <= length ds)%nat -> in_use fr ds -> same_desc ds (desc q) de ->
     Q (-1, idx') (wq w evs (with_tables q de fr))) ->
  wp (alloc3_loop n idx) Q w.
Proof.
  revert idx w. induction n as [|n IH]; intros idx w q Hu Hn HQ1 HQ2; cbn [alloc3_loop].
  { apply wp_ret. specialize (HQ1 idx (dfree q) ltac:(lia) Hu). subst q. rewrite <- (wq_nil w).
    destruct w as [m h e [q0 bs d p]]. by destruct q0. }
  apply wp_bind. eapply wp_alloc_desc; [done| |].
  - intros j Hj Hnj. rewrite (proj2 (Z.ltb_ge _ _)) by lia.
    assert (E : (idx ++ [j]) ++ ds ≡ₚ j :: idx ++ ds) by (rewrite <- app_assoc; cbn [app]; by rewrite Permutation_middle).
    apply IH; rewrite ?wq_disk.
    + cbn [dfree with_tables set_desc set_dfree]. rewrite E. by apply in_use_alloc.
    + rewrite length_app. simpl. lia.
    + intros idx' fr Hl Hfr. rewrite wq_wq, with_tables_twice. by apply HQ1.
    + intros idx' de fr evs Hl Hfr Hde. rewrite wq_wq, with_tables_twice. by apply HQ2.
  - intros Hall. rewrite (proj2 (Z.ltb_lt _ _)) by lia. apply wp_bind. eapply wp_free_descs; [done|].
    intros de fr evs Hfr Hde. apply wp_ret, HQ2; [|done|done].
    pose proof (in_use_full _ _ Hu Hall) as Hl. rewrite length_app in Hl. lia.
Qed.

Lemma wp_alloc3_desc ds w (Q : Z * list Z -> world (vst D) -> Prop) :
  let q := v_disk (w_st w) in
  in_use (dfree q) ds ->
  (forall i0 i1 i2 fr, in_use fr (i0 :: i1 :: i2 :: ds) -> Q (0, [i0; i1; i2]) (wq w [] (with_tables q (desc q) fr))) ->
  (forall idx' de fr evs, (6 <= length ds)%nat -> in_use fr ds -> same_desc ds (desc q) de ->
     Q (-1, idx') (wq w evs (with_tables q de fr))) ->
  wp alloc3_desc Q w.
Proof.
  intros q Hu HQ1 HQ2. apply (wp_alloc3_loop 3 [] ds); [done|done| |done].
  intros [|i0 [|i1 [|i2 [|]]]] fr Hl Hfr; try done. by apply HQ1.
Qed.

(** ** Chains *)

(** A request of the driver: its buffer, direction and descriptors. *)
Record chain := Chain {
  c_buf : nat;
  c_write : bool;
  c_0 : Z;
  c_1 : Z;
  c_2 : Z }.

Definition c_descs (c : chain) : list Z := [c_0 c; c_1 c; c_2 c].

(** The chain is in the table, with the command for its buffer. *)
Record chain_ok (q : vdisk) (bs : list vbuf) (c : chain) : Prop := {
  co_0 : desc q !! Z.to_nat (c_0 c) = Some (Desc (AOps (c_0 c)) 16 VRING_DESC_F_NEXT (c_1 c));
  co_1 : desc q !! Z.to_nat (c_1 c) =
    Some (Desc (AData (c_buf c)) BSIZE (Z.lor (if c_write c then 0 else VRING_DESC_F_WRITE) VRING_DESC_F_NEXT) (c_2 c));
  co_2 : desc q !! Z.to_nat (c_2 c) = Some (Desc (AStatus (c_0 c)) 1 VRING_DESC_F_WRITE 0);
  co_op : exists x, bs !! c_buf c = Some x /\
    ops q !! Z.to_nat (c_0 c) = Some (Req (if c_write c then VIRTIO_BLK_T_OUT else VIRTIO_BLK_T_IN) 0 (2 * vb_blockno x));
  co_info : exists st, info q !! Z.to_nat (c_0 c) = Some (Info (Some (c_buf c)) st) }.

(** The queue after [rw_format]. *)
Definition formatted (q : vdisk) (c : chain) (sector : Z) : vdisk :=
  Disk
    (<[Z.to_nat (c_2 c) := Desc (AStatus (c_0 c)) 1 VRING_DESC_F_WRITE 0]>
       (<[Z.to_nat (c_1 c) := Desc (AData (c_buf c)) BSIZE
            (Z.lor (if c_write c then 0 else VRING_DESC_F_WRITE) VRING_DESC_F_NEXT) (c_2 c)]>
          (<[Z.to_nat (c_0 c) := Desc (AOps (c_0 c)) 16 VRING_DESC_F_NEXT (c_1 c)]> (desc q))))
    (avail_idx q) (<[Z.to_nat (avail_idx q mod NUM) := c_0 c]> (avail_ring q))
    (dev_used_idx q) (used_ring q) (dfree q) (used_idx q)
    (alter (fun _ => Info (Some (c_buf c)) 0xff) (Z.to_nat (c_0 c)) (info q))
    (<[Z.to_nat (c_0 c) := Req (if c_write c then VIRTIO_BLK_T_OUT else VIRTIO_BLK_T_IN) 0 sector]> (ops q))
    (pages q).

Lemma wp_rw_format c x w (Q : () -> world (vst D) -> Prop) :
  let s := w_st w in
  v_bufs s !! c_buf c = Some x -> 0 <= vb_blockno x < 2 ^ 31 ->
  Q () (set_st (Vst (formatted (v_disk s) c (2 * vb_blockno x)) (alter (set_vdisk 1) (c_buf c) (v_bufs s)) (v_dev s) (v_phys s)) w) ->
  wp (rw_format (c_buf c) (c_write c) (c_0 c) (c_1 c) (c_2 c)) Q w.
Proof.
  intros s Hx Hb HQ. destruct w as [m h e [[de ai ar di ur fr ui io op pg] bs d p]]. subst s. simpl in Hx, HQ.
  unfold rw_format, vassign, vload. wp_step. wp_steps. rewrite Hx. wp_step.
  change (BSIZE / 512) with 2. rewrite (u32_small (vb_blockno x * 2)) by lia. rewrite (Z.mul_comm (vb_blockno x) 2).
  wp_steps. rewrite Hx. wp_steps.
  cbv beta iota delta [set_st upd_disk set_avail set_info set_desc set_ops set_status v_disk v_bufs v_dev v_phys desc avail_idx
    avail_ring dev_used_idx used_ring dfree used_idx info ops pages w_me w_held w_evs].
  rewrite list_alter_alter_eq. exact HQ.
Qed.

(** The device finds the request. *)
Lemma request_at_chain q bs c x :
  chain_ok q bs c -> 0 <= c_0 c -> 0 <= c_1 c -> 0 <= c_2 c -> bs !! c_buf c = Some x ->
  request_at q (c_0 c) = Some (Request (c_write c) (2 * vb_blockno x) (c_buf c) (c_0 c)).
Proof.
  intros [H0 H1 H2 (y & Hy & H3) _] ? ? ? Hx. assert (y = x) as -> by congruence. unfold request_at, mbind, option_bind.
  rewrite at_idx_inside, H0 by done. cbn [d_next d_addr].
  rewrite at_idx_inside, H1 by done. cbn [d_next d_addr].
  rewrite at_idx_inside, H2 by done. cbn [d_next d_addr].
  rewrite at_idx_inside, H3 by done. by destruct (c_write c).
Qed.

(** [free_chain] frees the three descriptors of a chain. *)
Lemma wp_free_chain c q0 bs ds w (Q : () -> world (vst D) -> Prop) :
  let q := v_disk (w_st w) in
  chain_ok q0 bs c -> desc q = desc q0 -> in_use (dfree q) (c_descs c ++ ds) ->
  (forall de fr, in_use fr ds -> same_desc ds (desc q) de ->
     Q () (wq w [EvWakeup ChDiskFree; EvWakeup ChDiskFree; EvWakeup ChDiskFree] (with_tables q de fr))) ->
  wp (free_chain (c_0 c)) Q w.
Proof.
  intros q Hc Hq Hu HQ. unfold c_descs in Hu. cbn [app] in Hu.
  assert (Hr : forall i, i ∈ [c_0 c; c_1 c; c_2 c] -> 0 <= i < 8)
    by (intros i Hi; eapply in_use_in; [done|set_solver]).
  pose proof (iu_nodup _ _ Hu) as [N0 [N1 [N2 _]%NoDup_cons]%NoDup_cons]%NoDup_cons.
  assert (R0 : 0 <= c_0 c < 8) by (apply Hr; set_solver). assert (R1 : 0 <= c_1 c < 8) by (apply Hr; set_solver).
  assert (R2 : 0 <= c_2 c < 8) by (apply Hr; set_solver). clear Hr.
  assert (E01 : c_0 c <> c_1 c) by set_solver. assert (E02 : c_0 c <> c_2 c) by set_solver. assert (E12 : c_1 c <> c_2 c) by set_solver.
  unfold free_chain. cbn [free_chain_loop].
  apply wp_bind, wp_get, wp_bind. eapply wp_array; [fold q; rewrite Hq, at_idx_inside by lia; apply Hc|].
  apply wp_bind. eapply wp_free_desc; [done|]. change (negb (Z.land _ _ =? 0)) with true at 1. cbn [free_chain_loop].
  apply wp_bind, wp_get, wp_bind. eapply wp_array.
  { rewrite wq_disk, at_idx_inside by (cbn; lia). cbn. rewrite list_lookup_insert_ne by lia. fold q. rewrite Hq. apply Hc. }
  apply wp_bind. eapply wp_free_desc; [rewrite wq_disk; by apply in_use_free|].
  assert (Hf : negb (Z.land (Z.lor (if c_write c then 0 else VRING_DESC_F_WRITE) VRING_DESC_F_NEXT) VRING_DESC_F_NEXT =? 0) = true)
    by (by destruct (c_write c)).
  cbn [d_flags d_next]. rewrite Hf. cbn [free_chain_loop].
  apply wp_bind, wp_get, wp_bind. eapply wp_array.
  { rewrite !wq_disk, at_idx_inside by (cbn; lia). cbn. rewrite !list_lookup_insert_ne by lia. fold q. rewrite Hq. apply Hc. }
  apply wp_bind. eapply wp_free_desc; [rewrite !wq_disk; by apply in_use_free, in_use_free|].
  cbn [d_flags]. change (negb (Z.land VRING_DESC_F_WRITE VRING_DESC_F_NEXT =? 0)) with false. cbv iota. apply wp_ret. rewrite !wq_wq, !wq_disk, !with_tables_twice. cbn [desc dfree with_tables set_desc set_dfree].
  apply HQ; [by apply in_use_free, in_use_free, in_use_free|].
  assert (Hp : Forall (fun j => 0 <= j) ds).
  { pose proof (iu_range _ _ Hu) as HF. do 3 apply Forall_inv_tail in HF. eapply Forall_impl; [exact HF|]. simpl. lia. }
  eapply same_desc_trans; [|eapply same_desc_trans]; apply same_desc_insert; try lia; try done; set_solver.
Qed.
End spec.
