(* ===== verification/VirtioSys.v ===== *)
(** Processes that transfer blocks, the interrupt handler and the device as a
    transition system, and its invariant. *)

From S2P Require Import Prelude KMonad Riscv Kalloc Ring BlockStore Virtio VirtioSpec.

(** ** States *)

(** A process: not in the driver; asleep (or woken, [awake]) for descriptors;
    before the first barrier, with the lock; asleep (or woken) for its buffer.
    The descriptors are its local array [idx]. *)
Inductive thr :=
| TIdle
| TFree (b : nat) (wr awake : bool)
| TPub (c : chain)
| TWait (c : chain) (awake : bool).

(** The handler: not running, before the acknowledgement with the status it
    read, and in its loop; it holds the lock in between. *)
Inductive handler := HIdle | HRead (v : Z) | HLoop.

Record vsys (D : Type) := Vsys {
  vs_st : vst D;
  vs_thr : list thr;
  vs_h : handler }.
Arguments Vsys {D} _ _ _.
Arguments vs_st {D} _.
Arguments vs_thr {D} _.
Arguments vs_h {D} _.

Definition wake (evs : list event) (th : thr) : thr :=
  match th with
  | TFree b wr false => TFree b wr (bool_decide (EvWakeup ChDiskFree ∈ evs))
  | TWait c false => TWait c (bool_decide (EvWakeup (ChDiskBuf (c_buf c)) ∈ evs))
  | _ => th
  end.

Definition buf_of (th : thr) : option nat :=
  match th with TIdle => None | TFree b _ _ => Some b | TPub c => Some (c_buf c) | TWait c _ => Some (c_buf c) end.
Definition chain_of (th : thr) : option chain :=
  match th with TPub c => Some c | TWait c _ => Some c | _ => None end.
Definition wait_of (th : thr) : option chain :=
  match th with TWait c _ => Some c | _ => None end.
Definition pub_of (th : thr) : option chain :=
  match th with TPub c => Some c | _ => None end.

(** The lock is held by the handler or by a process about to publish. *)
Definition pubs (ths : list thr) : list chain := omap pub_of ths.
Definition unlocked {D} (s : vsys D) : bool :=
  match vs_h s, pubs (vs_thr s) with HIdle, [] => true | _, _ => false end.
Definition busy {D} (s : vsys D) (b : nat) : bool := bool_decide (b ∈ omap buf_of (vs_thr s)).

(** ** Steps *)

(** The driver runs: a process calls [virtio_disk_rw], tries again for
    descriptors, publishes its chain, looks at its buffer again; the handler
    reads the status, acknowledges, does a round of its loop. *)
Inductive action :=
| ACall (t b : nat) (wr : bool)
| ARetry (t : nat)
| APublish (t : nat)
| AResume (t : nat)
| AIntr
| AAck
| ARound.

Section sys.
Context {sy : Symbols} {D : Type} {dev : VirtioDev D}.
Abbreviation vm := (M (vst D)).

(** What process [t] becomes; the handler's state. *)
Abbreviation result := (option (nat * thr) * handler)%type.

Definition tried (b : nat) (wr : bool) (r : option (Z * Z * Z)) : thr :=
  match r with
  | None => TFree b wr false
  | Some (i0, i1, i2) => TPub (Chain b wr i0 i1 i2)
  end.
Definition waited (c : chain) (seg : segment) : thr :=
  match seg with Returned _ => TIdle | Slept _ _ => TWait c false end.

(** The locks held before an action, and the code it runs. *)
Definition act (a : action) (s : vsys D) : option (list lock * vm result) :=
  let ths := vs_thr s in
  let h := vs_h s in
  match a with
  | ACall t b wr =>
      match ths !! t with
      | Some TIdle =>
          if unlocked s && negb (busy s b) && bool_decide (is_Some (v_bufs (vs_st s) !! b))
          then Some ([], acquire L_disk;; r ← rw_try b wr; mret (Some (t, tried b wr r), h))
          else None
      | _ => None
      end
  | ARetry t =>
      match ths !! t with
      | Some (TFree b wr true) =>
          if unlocked s then Some ([], acquire L_disk;; r ← rw_try b wr; mret (Some (t, tried b wr r), h)) else None
      | _ => None
      end
  | APublish t =>
      match ths !! t with
      | Some (TPub c) => Some ([L_disk], r ← rw_publish (c_buf c) (c_0 c); mret (Some (t, waited c r), h))
      | _ => None
      end
  | AResume t =>
      match ths !! t with
      | Some (TWait c true) =>
          if unlocked s then
            Some ([], acquire L_disk;; r ← rw_wait (c_buf c) (c_0 c); mret (Some (t, waited c r), h))
          else None
      | _ => None
      end
  | AIntr => if unlocked s then Some ([], v ← intr_status; mret (None, HRead v)) else None
  | AAck => match h with HRead v => Some ([L_disk], intr_ack v;; mret (None, HLoop)) | _ => None end
  | ARound =>
      match h with
      | HLoop => Some ([L_disk], more ← intr_round; mret (None, if (more : bool) then HLoop else HIdle))
      | _ => None
      end
  end.

(** Wakeups reach the processes asleep before the process of the action goes
    to sleep itself. *)
Definition settle (evs : list event) (r : option (nat * thr)) (ths : list thr) : list thr :=
  let ths := wake evs <$> ths in
  match r with Some (t, th) => <[t := th]> ths | None => ths end.

(** A block number the disk has, and a full block of data. *)
Definition block_ok (capacity blockno : Z) : Prop := 0 <= blockno < 2 ^ 31 /\ 2 * blockno + 2 <= capacity.

Context {laws : VirtioLaws D}.

Inductive vstep (m : me) : vsys D -> vsys D -> Prop :=
| v_act s a held p r h w' :
    act a s = Some (held, p) -> p (World m held [] (vs_st s)) = Ok (r, h) w' ->
    vstep m s (Vsys (w_st w') (settle (w_evs w') r (vs_thr s)) h)
| v_device q bs d ph ths h d' q' bs' :
    dev_step d q bs d' q' bs' ->
    vstep m (Vsys (Vst q bs d ph) ths h) (Vsys (Vst q' bs' d' ph) ths h)
| v_client q bs d ph ths h b blockno data :
    busy (Vsys (Vst q bs d ph) ths h) b = false -> is_Some (bs !! b) ->
    block_ok (dv_capacity (view d)) blockno -> length data = Z.to_nat BSIZE ->
    vstep m (Vsys (Vst q bs d ph) ths h)
      (Vsys (Vst q (alter (fun x => Vbuf blockno data (vb_disk x)) b bs) d ph) ths h)
| v_wakeup st ths h evs :
    vstep m (Vsys st ths h) (Vsys st (wake evs <$> ths) h).

(** ** The invariant *)

Definition flagged (bs : list vbuf) (c : chain) : Prop := exists x, bs !! c_buf c = Some x /\ vb_disk x = 1.
#[global] Instance flagged_dec bs c : Decision (flagged bs c).
Proof.
  unfold flagged. destruct (bs !! c_buf c) as [x|].
  - destruct (decide (vb_disk x = 1)); [left; eauto|right; naive_solver].
  - right. naive_solver.
Defined.

Definition gap16 (r w : Z) : nat := Z.to_nat (ahead (2 ^ 16) r w).

(** Chains made available and not taken, and chains answered and not seen by
    the handler. *)
Definition offered (q : vdisk) (v : dview) : list Z :=
  ring NUM (avail_ring q) (dv_seen v) (gap16 (dv_seen v) (avail_idx q)).
Definition answered (q : vdisk) : list Z :=
  ring NUM (fst <$> used_ring q) (used_idx q) (gap16 (used_idx q) (dev_used_idx q)).
Definition unserved (q : vdisk) (v : dview) : list Z := offered q v ++ dv_pending v.

Record queue_ok (q : vdisk) : Prop := {
  qk_desc : length (desc q) = 8%nat;
  qk_avail : length (avail_ring q) = 8%nat;
  qk_used : length (used_ring q) = 8%nat;
  qk_info : length (info q) = 8%nat;
  qk_ops : length (ops q) = 8%nat;
  qk_avail_idx : 0 <= avail_idx q < 2 ^ 16;
  qk_used_idx : 0 <= used_idx q < 2 ^ 16;
  qk_dev_used_idx : 0 <= dev_used_idx q < 2 ^ 16 }.

Record inv_on (q : vdisk) (bs : list vbuf) (v : dview) (ths : list thr) (h : handler) : Prop := {
  i_queue : queue_ok q;
  i_use : in_use (dfree q) (omap chain_of ths ≫= c_descs);
  i_chains : Forall (chain_ok q bs) (omap chain_of ths);
  i_bufs : NoDup (omap buf_of ths);
  i_bufs_in b : b ∈ omap buf_of ths -> is_Some (bs !! b);
  i_blocks b x : bs !! b = Some x -> block_ok (dv_capacity v) (vb_blockno x) /\ length (vb_data x) = Z.to_nat BSIZE;
  i_lock : (length (pubs ths) <= 1)%nat;
  i_lock_h : (0 < length (pubs ths))%nat -> h = HIdle;
  i_pubs : Forall (fun c => flagged bs c /\ nth (Z.to_nat (avail_idx q mod NUM)) (avail_ring q) 0 = c_0 c) (pubs ths);
  i_flight : c_0 <$> filter (flagged bs) (omap wait_of ths) ≡ₚ unserved q v ++ answered q;
  i_status k : k ∈ answered q -> exists ob, info q !! Z.to_nat k = Some (Info ob 0);
  i_asleep c : TWait c false ∈ ths -> flagged bs c;
  i_starved b wr : TFree b wr false ∈ ths -> (2 <= length (omap chain_of ths))%nat;
  i_irq : h = HIdle -> answered q <> [] -> dv_irq v = true }.

Definition inv (s : vsys D) : Prop :=
  inv_on (v_disk (vs_st s)) (v_bufs (vs_st s)) (view (v_dev (vs_st s))) (vs_thr s) (vs_h s).
End sys.
