(* ===== verification/VirtioInv.v ===== *)
(** The invariant of the disk driver is kept by the driver, the device and the
    owners of the buffers. *)

From S2P Require Import Prelude KMonad Riscv Kalloc Ring BlockStore Virtio VirtioSpec VirtioSys.

(** ** Lists *)

Lemma NoDup_fmap_eq {A B} (f : A -> B) l x y : NoDup (f <$> l) -> x ∈ l -> y ∈ l -> f x = f y -> x = y.
Proof.
  induction l as [|z l IH]; [by intros _ ?%elem_of_nil|]. rewrite fmap_cons, NoDup_cons, !elem_of_cons.
  intros [Hz Hn] [->|Hx] [->|Hy] E; [done| | |by apply IH].
  - destruct Hz. rewrite E. by apply list_elem_of_fmap_2.
  - destruct Hz. rewrite <- E. by apply list_elem_of_fmap_2.
Qed.

Lemma NoDup_bind_eq {A B} (f : A -> list B) l x y i :
  NoDup (l ≫= f) -> x ∈ l -> y ∈ l -> i ∈ f x -> i ∈ f y -> x = y.
Proof.
  induction l as [|z l IH]; [by intros _ ?%elem_of_nil|]. rewrite bind_cons, NoDup_app, !elem_of_cons.
  intros (_ & Hd & Hn) [->|Hx] [->|Hy] Hi Hj; [done| | |by apply IH].
  - destruct (Hd i Hi). apply list_elem_of_bind. eauto.
  - destruct (Hd i Hj). apply list_elem_of_bind. eauto.
Qed.

Lemma omap_cons {A B} (f : A -> option B) x l :
  omap f (x :: l) = match f x with Some y => y :: omap f l | None => omap f l end.
Proof. done. Qed.

Lemma length_descs cs : length (cs ≫= c_descs) = (3 * length cs)%nat.
Proof. induction cs as [|c cs IH]; [done|]. rewrite bind_cons, length_app, IH. simpl. lia. Qed.

(** ** Permutations and wakeups *)

Lemma inv_on_perm q bs v ths ths' h : ths ≡ₚ ths' -> inv_on q bs v ths h -> inv_on q bs v ths' h.
Proof.
  intros E [H1 H2 H3 H4 H5 H6 H7 H8 H9 H10 H11 H12 H13 H14]. unfold pubs in *.
  split; unfold pubs; try setoid_rewrite <- E; done.
Qed.

#[global] Instance inv_on_proper q bs v : Proper ((≡ₚ) ==> eq ==> iff) (inv_on q bs v).
Proof. intros ths ths' E h ? <-. split; apply inv_on_perm; [done|by symmetry]. Qed.

(** The same process, asleep or woken. *)
Definition woken (a b : thr) : Prop := exists evs, b = wake evs a.

Lemma woken_refl th : woken th th.
Proof. exists []. by destruct th as [|? ? []| |? []]. Qed.

Lemma Forall2_woken evs ths : Forall2 woken ths (wake evs <$> ths).
Proof. apply Forall2_fmap_r, Forall_Forall2_diag, Forall_forall. intros th _. by exists evs. Qed.

Lemma woken_same {A} (f : thr -> option A) ths ths' :
  (forall evs th, f (wake evs th) = f th) -> Forall2 woken ths ths' -> omap f ths' = omap f ths.
Proof. intros Hf. induction 1 as [|a b l l' [evs ->] _ IH]; [done|]. by rewrite !omap_cons, Hf, IH. Qed.

Lemma wake_chain evs th : chain_of (wake evs th) = chain_of th.
Proof. by destruct th as [|? ? []| |? []]. Qed.
Lemma wake_buf evs th : buf_of (wake evs th) = buf_of th.
Proof. by destruct th as [|? ? []| |? []]. Qed.
Lemma wake_wait evs th : wait_of (wake evs th) = wait_of th.
Proof. by destruct th as [|? ? []| |? []]. Qed.
Lemma wake_pub evs th : pub_of (wake evs th) = pub_of th.
Proof. by destruct th as [|? ? []| |? []]. Qed.

(** Who is still asleep was asleep, and the wakeup was for others. *)
Lemma wake_asleep_wait evs th c : wake evs th = TWait c false -> th = TWait c false /\ EvWakeup (ChDiskBuf (c_buf c)) ∉ evs.
Proof.
  destruct th as [|? ? []| |? []]; simpl; try discriminate. intros [= -> H]. split; [done|]. by apply bool_decide_eq_false in H.
Qed.
Lemma wake_asleep_free evs th b wr : wake evs th = TFree b wr false -> th = TFree b wr false /\ EvWakeup ChDiskFree ∉ evs.
Proof.
  destruct th as [|? ? []| |? []]; simpl; try discriminate. intros [= -> -> H]. split; [done|]. by apply bool_decide_eq_false in H.
Qed.

Lemma inv_woken q bs v ths ths' h : Forall2 woken ths ths' -> inv_on q bs v ths h -> inv_on q bs v ths' h.
Proof.
  intros Hw [H1 H2 H3 H4 H5 H6 H7 H8 H9 H10 H11 H12 H13 H14]. unfold pubs in *.
  assert (Hin : forall th, (forall evs a, wake evs a = th -> a = th) -> th ∈ ths' -> th ∈ ths).
  { intros th Hth [i Hi]%list_elem_of_lookup. destruct (Forall2_lookup_r _ _ _ _ _ Hw Hi) as (a & Ha & evs & E).
    rewrite (Hth evs a (eq_sym E)) in Ha. by eapply list_elem_of_lookup_2. }
  split; unfold pubs; rewrite ?(woken_same chain_of _ _ wake_chain Hw), ?(woken_same buf_of _ _ wake_buf Hw),
    ?(woken_same wait_of _ _ wake_wait Hw), ?(woken_same pub_of _ _ wake_pub Hw); try done.
  - intros c Hc. apply H12, Hin; [|done]. intros evs a E. by apply wake_asleep_wait in E as [].
  - intros b wr Hc. apply (H13 b wr), Hin; [|done]. intros evs a E. by apply wake_asleep_free in E as [].
Qed.

(** ** Facts of the invariant *)

Lemma wait_chain (ths : list thr) c : c ∈ omap wait_of ths -> c ∈ omap chain_of ths.
Proof. rewrite !list_elem_of_omap. intros (th & Hin & E). exists th. split; [done|]. by destruct th. Qed.

Lemma pub_chain (ths : list thr) c : c ∈ pubs ths -> c ∈ omap chain_of ths.
Proof. unfold pubs. rewrite !list_elem_of_omap. intros (th & Hin & E). exists th. split; [done|]. by destruct th. Qed.

Lemma chain_buf (ths : list thr) c : c ∈ omap chain_of ths -> c_buf c ∈ omap buf_of ths.
Proof.
  rewrite !list_elem_of_omap. intros (th & Hin & E). exists th. split; [done|]. destruct th; simpl in *; congruence.
Qed.

Lemma length_waits (ths : list thr) : (length (omap wait_of ths) + length (pubs ths) = length (omap chain_of ths))%nat.
Proof. unfold pubs. induction ths as [|[] l IH]; rewrite ?omap_cons; simpl; lia. Qed.

Lemma NoDup_chain_bufs (ths : list thr) : NoDup (omap buf_of ths) -> NoDup (c_buf <$> omap chain_of ths).
Proof.
  induction ths as [|th l IH]; [constructor|]. rewrite !omap_cons. intros Hn.
  assert (Hc : forall c, c_buf c ∉ omap buf_of l -> NoDup (omap buf_of l) -> NoDup (c_buf <$> c :: omap chain_of l)).
  { intros c Hb Hl. rewrite fmap_cons. constructor; [|by apply IH].
    intros (c' & E & Hc)%list_elem_of_fmap. apply Hb. rewrite E. by apply chain_buf. }
  destruct th; cbn [buf_of chain_of] in *; [by apply IH| | |]; apply NoDup_cons in Hn as [Hb Hn]; [by apply IH|by apply Hc..].
Qed.

Section facts.
Context {q : vdisk} {bs : list vbuf} {v : dview} {ths : list thr} {h : handler} (I : inv_on q bs v ths h).

Lemma chain_range c i : c ∈ omap chain_of ths -> i ∈ c_descs c -> 0 <= i < 8.
Proof using I. intros Hc Hi. eapply in_use_in; [apply (i_use _ _ _ _ _ I)|]. apply list_elem_of_bind. eauto. Qed.

Lemma head_range c : c ∈ omap chain_of ths -> 0 <= c_0 c < 8.
Proof using I. intros Hc. by apply (chain_range c); [|left]. Qed.

Lemma chain_desc_eq c c' i : c ∈ omap chain_of ths -> c' ∈ omap chain_of ths -> i ∈ c_descs c -> i ∈ c_descs c' -> c = c'.
Proof using I. intros. eapply NoDup_bind_eq; [apply (iu_nodup _ _ (i_use _ _ _ _ _ I))|done..]. Qed.

Lemma chain_buf_eq c c' : c ∈ omap chain_of ths -> c' ∈ omap chain_of ths -> c_buf c = c_buf c' -> c = c'.
Proof using I. apply NoDup_fmap_eq, NoDup_chain_bufs, I. Qed.

Lemma few_chains : (length (omap chain_of ths) <= 2)%nat.
Proof using I. pose proof (in_use_bound _ _ (i_use _ _ _ _ _ I)) as H. rewrite length_descs in H. lia. Qed.

(** A chain in flight belongs to a process that waits for it. *)
Lemma flight_in k : k ∈ unserved q v ++ answered q -> exists c, c ∈ omap wait_of ths /\ flagged bs c /\ c_0 c = k.
Proof using I.
  rewrite <- (i_flight _ _ _ _ _ I). intros (c & -> & Hc)%list_elem_of_fmap.
  apply list_elem_of_filter in Hc as [Hf Hc]. eauto.
Qed.

Lemma flight_of c : c ∈ omap wait_of ths -> flagged bs c -> c_0 c ∈ unserved q v ++ answered q.
Proof using I.
  intros Hc Hf. rewrite <- (i_flight _ _ _ _ _ I). apply list_elem_of_fmap_2, list_elem_of_filter. done.
Qed.

Lemma flight_few : (length (unserved q v) + length (answered q) + length (pubs ths) <= 2)%nat.
Proof using I.
  rewrite <- length_app, <- (i_flight _ _ _ _ _ I), length_fmap. pose proof few_chains. pose proof (length_waits ths).
  pose proof (length_filter (flagged bs) (omap wait_of ths)). lia.
Qed.

Lemma gap_offered : ahead (2 ^ 16) (dv_seen v) (avail_idx q) = Z.of_nat (length (offered q v)).
Proof. unfold offered, gap16. rewrite length_ring, Z2Nat.id; [done|]. by apply (ahead_range NUM). Qed.
Lemma gap_answered : ahead (2 ^ 16) (used_idx q) (dev_used_idx q) = Z.of_nat (length (answered q)).
Proof. unfold answered, gap16. rewrite length_ring, Z2Nat.id; [done|]. by apply (ahead_range NUM). Qed.
End facts.

(** Different processes have different chains. *)
Lemma nodup_chains q bs v ths h t t' c c' i :
  inv_on q bs v ths h -> chain_of <$> ths !! t = Some (Some c) -> chain_of <$> ths !! t' = Some (Some c') ->
  i ∈ c_descs c -> i ∈ c_descs c' -> t = t'.
Proof.
  intros I Ht Ht' Hi Hi'. destruct (decide (t = t')) as [|Hne]; [done|exfalso].
  destruct (ths !! t) as [th|] eqn:E; [|done]. injection Ht as Ht. destruct (ths !! t') as [th'|] eqn:E'; [|done]. injection Ht' as Ht'.
  pose proof (iu_nodup _ _ (i_use _ _ _ _ _ I)) as Hn.
  rewrite (delete_Permutation ths t th E), omap_cons, Ht, bind_cons in Hn. apply NoDup_app in Hn as (_ & Hn & _).
  apply (Hn i Hi). apply list_elem_of_bind. exists c'. split; [done|]. apply list_elem_of_omap. exists th'. split; [|done].
  rewrite delete_take_drop. apply elem_of_app. destruct (decide (t' < t)%nat).
  - left. apply list_elem_of_lookup. exists t'. by rewrite lookup_take_lt.
  - right. apply list_elem_of_lookup. exists (t' - S t)%nat. rewrite lookup_drop. rewrite <- E'. f_equal. lia.
Qed.

(** ** What the steps leave alone *)

Lemma chain_ok_ext q bs q' bs' c :
  chain_ok q bs c -> (forall i, i ∈ c_descs c -> desc q' !! Z.to_nat i = desc q !! Z.to_nat i) ->
  ops q' !! Z.to_nat (c_0 c) = ops q !! Z.to_nat (c_0 c) ->
  in_b <$> info q' !! Z.to_nat (c_0 c) = in_b <$> info q !! Z.to_nat (c_0 c) ->
  vb_blockno <$> bs' !! c_buf c = vb_blockno <$> bs !! c_buf c ->
  chain_ok q' bs' c.
Proof.
  intros [H0 H1 H2 (x & Hx & H3) [st H4]] Hd Ho Hi Hb. rewrite Hx in Hb. rewrite H4 in Hi. split.
  - rewrite Hd; [done|]. by left.
  - rewrite Hd; [done|]. by right; left.
  - rewrite Hd; [done|]. by do 2 right; left.
  - destruct (bs' !! c_buf c) as [y|] eqn:Hy; [|done]. simpl in Hb. injection Hb as Hb. exists y. by rewrite Ho, Hb.
  - destruct (info q' !! _) as [[ob st']|]; [|done]. simpl in Hi. injection Hi as ->. by exists st'.
Qed.

Lemma lookup_alter_field {A B} (g : A -> B) (f : A -> A) (l : list A) i j :
  (forall x, g (f x) = g x) -> g <$> alter f i l !! j = g <$> l !! j.
Proof.
  intros Hf. destruct (decide (i = j)) as [<-|].
  - rewrite list_lookup_alter_eq. destruct (l !! i); simpl; [|done]. by rewrite Hf.
  - by rewrite list_lookup_alter_ne.
Qed.

Lemma flagged_alter_ne f b bs c : c_buf c <> b -> flagged (alter f b bs) c <-> flagged bs c.
Proof. intros Hne. unfold flagged. by rewrite list_lookup_alter_ne. Qed.

Lemma filter_flagged_ext bs bs' (cs : list chain) :
  (forall c, c ∈ cs -> flagged bs' c <-> flagged bs c) -> filter (flagged bs') cs = filter (flagged bs) cs.
Proof.
  induction cs as [|c cs IH]; intros H; [done|]. rewrite !filter_cons, IH by (intros; apply H; by right).
  destruct (decide (flagged bs c)) as [Hf|Hf].
  - rewrite decide_True; [done|]. apply H; [left|done].
  - rewrite decide_False; [done|]. rewrite H; [done|left].
Qed.

(** A process that may ask for descriptors for buffer [b]. *)
Inductive asks (bs : list vbuf) (b : nat) (wr : bool) (rest : list thr) : thr -> Prop :=
| asks_first : b ∉ omap buf_of rest -> is_Some (bs !! b) -> asks bs b wr rest TIdle
| asks_again : asks bs b wr rest (TFree b wr true).

Ltac norm := unfold pubs in *; rewrite ?omap_cons in *; cbn [chain_of buf_of wait_of pub_of c_buf] in *.

(** The process that asks and the others. *)
Lemma inv_asks q bs v th rest h b wr : inv_on q bs v (th :: rest) h -> asks bs b wr rest th ->
  inv_on q bs v rest h /\ NoDup (b :: omap buf_of rest) /\ is_Some (bs !! b).
Proof.
  intros [H1 H2 H3 H4 H5 H6 H7 H8 H9 H10 H11 H12 H13 H14] Ha.
  assert (Hin : forall th', th' ∈ rest -> th' ∈ th :: rest) by (intros; by right).
  destruct Ha as [Hb Hs|]; norm; (split; [|split]).
  - split; unfold pubs; auto. intros b' wr' Hf. by apply (H13 b' wr'), Hin.
  - by constructor.
  - done.
  - split; unfold pubs; auto.
    + by apply NoDup_cons in H4 as [].
    + intros b' Hb'. apply H5. by right.
    + intros b' wr' Hf. by apply (H13 b' wr'), Hin.
  - done.
  - apply H5. by left.
Qed.

Lemma inv_try_fail q bs v th rest h b wr de fr :
  let ds := omap chain_of rest ≫= c_descs in
  inv_on q bs v (th :: rest) h -> asks bs b wr rest th ->
  (6 <= length ds)%nat -> in_use fr ds -> same_desc ds (desc q) de ->
  inv_on (with_tables q de fr) bs v (TFree b wr false :: rest) h.
Proof.
  intros ds I0 Ha Hl Hu Hd. destruct (inv_asks _ _ _ _ _ _ _ _ I0 Ha) as (I & Hn & Hb). clear I0.
  pose proof I as [H1 H2 H3 H4 H5 H6 H7 H8 H9 H10 H11 H12 H13 H14].
  split; norm; auto.
  - destruct H1. split; simpl; try done. by rewrite (proj1 Hd).
  - apply Forall_forall. intros c Hc. rewrite Forall_forall in H3. eapply chain_ok_ext; [by apply H3|..]; try done.
    intros i Hi. apply (proj2 Hd). apply list_elem_of_bind. eauto.
  - intros b' [->|Hb']%elem_of_cons; [done|by apply H5].
  - intros c [?|Hc]%elem_of_cons; [done|by apply H12].
  - intros b' wr' _. unfold ds in Hl. rewrite length_descs in Hl. lia.
Qed.

(** ** A process takes descriptors and fills them in *)

Lemma lookup_formatted q c sector i :
  NoDup (c_descs c) -> Forall (fun i => 0 <= i < 8) (c_descs c) -> length (desc q) = 8%nat -> 0 <= i ->
  desc (formatted q c sector) !! Z.to_nat i =
  if decide (i = c_0 c) then Some (Desc (AOps (c_0 c)) 16 VRING_DESC_F_NEXT (c_1 c))
  else if decide (i = c_1 c) then
    Some (Desc (AData (c_buf c)) BSIZE (Z.lor (if c_write c then 0 else VRING_DESC_F_WRITE) VRING_DESC_F_NEXT) (c_2 c))
  else if decide (i = c_2 c) then Some (Desc (AStatus (c_0 c)) 1 VRING_DESC_F_WRITE 0)
  else desc q !! Z.to_nat i.
Proof.
  intros Hn Hr Hl Hi. unfold c_descs in *. rewrite !Forall_cons in Hr. destruct Hr as (R0 & R1 & R2 & _).
  apply NoDup_cons in Hn as [N0 [N1 _]%NoDup_cons]. assert (c_0 c <> c_1 c) by set_solver.
  assert (c_0 c <> c_2 c) by set_solver. assert (c_1 c <> c_2 c) by set_solver. cbn [desc formatted].
  repeat case_decide; subst; repeat first
    [rewrite list_lookup_insert_eq by (rewrite ?length_insert; lia)|rewrite list_lookup_insert_ne by lia]; done.
Qed.

Lemma chain_ok_formatted q bs c x :
  NoDup (c_descs c) -> Forall (fun i => 0 <= i < 8) (c_descs c) -> queue_ok q -> bs !! c_buf c = Some x ->
  chain_ok (formatted q c (2 * vb_blockno x)) bs c.
Proof.
  intros Hn Hr Hq Hx. pose proof Hr as Hr'. unfold c_descs in Hr'. rewrite !Forall_cons in Hr'. destruct Hr' as (R0 & R1 & R2 & _).
  pose proof Hn as Hn'. apply NoDup_cons in Hn' as [N0 [N1 _]%NoDup_cons].
  split; rewrite ?(lookup_formatted q c _ _ Hn Hr (qk_desc _ Hq)) by lia.
  - by rewrite decide_True.
  - by rewrite decide_False, decide_True by set_solver.
  - by rewrite !decide_False, decide_True by set_solver.
  - exists x. split; [done|]. cbn [ops formatted]. rewrite list_lookup_insert_eq by (rewrite (qk_ops _ Hq); lia). done.
  - cbn [info formatted]. rewrite list_lookup_alter_eq.
    destruct (lookup_lt_is_Some_2 (info q) (Z.to_nat (c_0 c))) as [y ->]; [rewrite (qk_info _ Hq); lia|]. by eexists.
Qed.

Lemma formatted_other q bs c c' sector f :
  NoDup (c_descs c) -> Forall (fun i => 0 <= i < 8) (c_descs c) -> queue_ok q ->
  (forall i, i ∈ c_descs c' -> (i ∉ c_descs c) /\ 0 <= i) -> c_buf c' <> c_buf c ->
  chain_ok q bs c' -> chain_ok (formatted q c sector) (alter f (c_buf c) bs) c'.
Proof.
  intros Hn Hr Hq Hd Hb Hc. assert (H0 : c_0 c' <> c_0 c /\ 0 <= c_0 c').
  { destruct (Hd (c_0 c')) as [H1 H2]; [left|]. split; [|done]. intros E. apply H1. rewrite E. left. }
  assert (0 <= c_0 c) by (eapply Forall_inv, proj1 in Hr; done).
  eapply chain_ok_ext; [done| | | |].
  - intros i Hi. destruct (Hd i Hi) as [Hni Hpos]. rewrite lookup_formatted by (done || apply Hq).
    by rewrite !decide_False by (intros ->; apply Hni; set_solver).
  - cbn [ops formatted]. by rewrite list_lookup_insert_ne by lia.
  - cbn [info formatted]. by rewrite list_lookup_alter_ne by lia.
  - by rewrite list_lookup_alter_ne by done.
Qed.

Lemma offered_store q v i : (Z.of_nat (length (offered q v)) < NUM) ->
  ring NUM (<[Z.to_nat (avail_idx q mod NUM) := i]> (avail_ring q)) (dv_seen v) (gap16 (dv_seen v) (avail_idx q)) = offered q v.
Proof.
  intros H. unfold offered, gap16. apply (ring_store NUM (2 ^ 16)); [done..|]. rewrite gap_offered. lia.
Qed.

Lemma queue_ok_formatted q c sector : queue_ok q -> queue_ok (formatted q c sector).
Proof. intros []. split; cbn; rewrite ?length_insert, ?length_alter; done. Qed.

Lemma inv_try_ok q bs v th rest fr c x :
  inv_on q bs v (th :: rest) HIdle -> asks bs (c_buf c) (c_write c) rest th -> pubs rest = [] ->
  bs !! c_buf c = Some x -> in_use fr (c_descs c ++ (omap chain_of rest ≫= c_descs)) ->
  inv_on (formatted (with_tables q (desc q) fr) c (2 * vb_blockno x)) (alter (set_vdisk 1) (c_buf c) bs) v (TPub c :: rest) HIdle.
Proof.
  intros I0 Ha Hp Hx Hu. destruct (inv_asks _ _ _ _ _ _ _ _ I0 Ha) as (I & Hn & Hb). clear I0 Ha.
  pose proof (flight_few I) as Hfew. pose proof I as [H1 H2 H3 H4 H5 H6 H7 H8 H9 H10 H11 H12 H13 H14].
  set (q0 := with_tables q (desc q) fr). assert (Hq0 : queue_ok q0) by (by destruct H1; split).
  pose proof (iu_nodup _ _ Hu) as (N1 & N2 & N3)%NoDup_app. pose proof (iu_range _ _ Hu) as [R1 R2]%Forall_app.
  apply NoDup_cons in Hn as [Hcb Hn].
  assert (Hne : forall c', c' ∈ omap chain_of rest -> c_buf c' <> c_buf c).
  { intros c' Hc' E. apply Hcb. rewrite <- E. by apply chain_buf. }
  assert (Hnd : forall c' i, c' ∈ omap chain_of rest -> i ∈ c_descs c' -> (i ∉ c_descs c) /\ 0 <= i).
  { intros c' i Hc' Hi. assert (Hin : i ∈ omap chain_of rest ≫= c_descs) by (apply list_elem_of_bind; eauto).
    split; [|rewrite Forall_forall in R2; by apply R2]. intros Hic. by apply (N2 i). }
  assert (Hfl : forall c', c' ∈ omap chain_of rest -> flagged (alter (set_vdisk 1) (c_buf c) bs) c' <-> flagged bs c').
  { intros c' Hc'. by apply flagged_alter_ne, Hne. }
  assert (Hoff : offered (formatted q0 c (2 * vb_blockno x)) v = offered q v).
  { apply (offered_store q v). unfold unserved in Hfew. rewrite length_app in Hfew. unfold NUM. lia. }
  split; unfold pubs in *; rewrite ?omap_cons; cbn [chain_of buf_of wait_of pub_of]; rewrite ?Hp; auto.
  - by apply queue_ok_formatted.
  - constructor.
    + apply (chain_ok_formatted q0 _ c (set_vdisk 1 x)); [done|done|done|]. by rewrite list_lookup_alter_eq, Hx.
    + apply Forall_forall. intros c' Hc'. apply formatted_other; [done|done|done|intros i; by apply Hnd|by apply Hne|].
      rewrite Forall_forall in H3. by eapply chain_ok_ext; [by apply H3|..].
  - by constructor.
  - intros b Hb'. destruct (decide (b = c_buf c)) as [->|]; [by rewrite list_lookup_alter_eq, Hx|].
    rewrite list_lookup_alter_ne by done. apply elem_of_cons in Hb' as [?|?]; [done|by apply H5].
  - intros b y. destruct (decide (b = c_buf c)) as [->|].
    + rewrite list_lookup_alter_eq, Hx. intros [= <-]. exact (H6 (c_buf c) x Hx).
    + rewrite list_lookup_alter_ne by done. apply H6.
  - constructor; [|done]. split; [exists (set_vdisk 1 x); by rewrite list_lookup_alter_eq, Hx|].
    cbn [avail_idx avail_ring formatted q0 with_tables set_desc set_dfree]. rewrite nth_lookup, list_lookup_insert_eq; [done|].
    rewrite (qk_avail _ H1). pose proof (Z.mod_pos_bound (avail_idx q) NUM). unfold NUM in *. lia.
  - rewrite (filter_flagged_ext bs) by (intros; by apply Hfl, wait_chain). unfold unserved in *. by rewrite Hoff.
  - intros k Hk. destruct (H11 k Hk) as [ob Hob]. exists ob. cbn [info formatted q0 with_tables set_desc set_dfree].
    destruct (flight_in I k) as (c' & Hc' & _ & <-); [apply elem_of_app; by right|]. apply wait_chain in Hc'.
    destruct (Hnd c' (c_0 c') Hc') as [Hni Hpos]; [left|]. rewrite list_lookup_alter_ne; [done|].
    assert (c_0 c <> c_0 c') by (intros E; apply Hni; rewrite <- E; left). rewrite Forall_forall in R1.
    specialize (R1 (c_0 c) ltac:(left)). lia.
  - intros c' [?|Hc']%elem_of_cons; [done|]. apply Hfl; [|by apply H12]. apply list_elem_of_omap. by exists (TWait c' false).
  - intros b wr [?|Hf]%elem_of_cons; [done|]. simpl. specialize (H13 b wr Hf). lia.
Qed.

(** ** A process publishes its chain *)

Definition published (q : vdisk) : vdisk := set_avail (u16 (avail_idx q + 1)) (avail_ring q) q.

Lemma offered_published q v : length (avail_ring q) = 8%nat -> Z.of_nat (length (offered q v)) < NUM ->
  offered (published q) v = offered q v ++ [nth (Z.to_nat (avail_idx q mod NUM)) (avail_ring q) 0].
Proof.
  intros Hl H. unfold offered, gap16, published. cbn [avail_ring avail_idx set_avail]. unfold u16.
  set (x := nth _ (avail_ring q) 0). rewrite <- (ring_push NUM (2 ^ 16) eq_refl eq_refl eq_refl (avail_ring q) _ _ x).
  - f_equal. symmetry. apply list_insert_id. unfold x. pose proof (Z.mod_pos_bound (avail_idx q) NUM eq_refl).
    rewrite nth_lookup. destruct (lookup_lt_is_Some_2 (avail_ring q) (Z.to_nat (avail_idx q mod NUM))) as [y ->]; [|done].
    unfold NUM in *. lia.
  - done.
  - by rewrite gap_offered.
Qed.

Lemma inv_offered q bs v c rest h : inv_on q bs v (TPub c :: rest) h -> offered (published q) v = offered q v ++ [c_0 c].
Proof.
  intros I. pose proof (flight_few I) as Hfew. pose proof I as [H1 _ _ _ _ _ _ _ H9 _ _ _ _ _]. norm.
  apply Forall_cons in H9 as [[Hf Hnth] H9].
  rewrite offered_published, Hnth; [done|apply H1|]. unfold unserved in Hfew. rewrite length_app in Hfew. unfold NUM. lia.
Qed.

Lemma inv_publish q bs v c rest h :
  inv_on q bs v (TPub c :: rest) h -> inv_on (published q) bs v (TWait c false :: rest) h.
Proof.
  intros I. pose proof I as [H1 H2 H3 H4 H5 H6 H7 H8 H9 H10 H11 H12 H13 H14]. norm. simpl in H7. apply Forall_cons in H9 as [[Hf Hnth] H9].
  assert (Hp : omap pub_of rest = []) by (destruct (omap pub_of rest); [done|simpl in H7; lia]).
  pose proof (inv_offered _ _ _ _ _ _ I) as Hoff.
  split; norm; rewrite ?Hp; auto.
  - destruct H1. split; try done. cbn. apply Z.mod_pos_bound. lia.
  - eapply Forall_impl; [exact H3|]. intros c' Hc'. by eapply chain_ok_ext.
  - simpl. lia.
  - unfold unserved in *. rewrite Hoff, filter_cons_True, fmap_cons, H10 by done. change (answered (published q)) with (answered q).
    rewrite <- !app_assoc. apply Permutation_middle.
  - intros c' [[= ->]|Hc']%elem_of_cons; [done|]. apply H12. by right.
  - intros b wr [?|Hc']%elem_of_cons; [done|]. apply (H13 b wr). by right.
Qed.

(** ** A process looks at its buffer *)

Lemma inv_sleep q bs v c aw rest h :
  inv_on q bs v (TWait c aw :: rest) h -> flagged bs c -> inv_on q bs v (TWait c false :: rest) h.
Proof.
  intros [H1 H2 H3 H4 H5 H6 H7 H8 H9 H10 H11 H12 H13 H14] Hf. norm. split; norm; auto.
  - intros c' [[= ->]|Hc']%elem_of_cons; [done|]. apply H12. by right.
  - intros b wr [?|Hc']%elem_of_cons; [done|]. apply (H13 b wr). by right.
Qed.

(** The queue after the request is over. *)
Definition finished (q : vdisk) (c : chain) (de : list virtq_desc) (fr : list Z) : vdisk :=
  with_tables (set_info (alter (fun y => Info None (in_status y)) (Z.to_nat (c_0 c))) q) de fr.

Lemma inv_return q bs v c aw rest h de fr evs :
  let ds := omap chain_of rest ≫= c_descs in
  inv_on q bs v (TWait c aw :: rest) h -> ~ flagged bs c -> in_use fr ds -> same_desc ds (desc q) de ->
  EvWakeup ChDiskFree ∈ evs ->
  inv_on (finished q c de fr) bs v (TIdle :: (wake evs <$> rest)) h.
Proof.
  intros ds I Hf Hu Hd Hev. pose proof I as [H1 H2 H3 H4 H5 H6 H7 H8 H9 H10 H11 H12 H13 H14].
  pose proof (Forall2_woken evs rest) as Hw.
  assert (Hnd : forall c', c' ∈ omap chain_of rest -> c_0 c' <> c_0 c /\ 0 <= c_0 c' /\ 0 <= c_0 c).
  { intros c' Hc'. pose proof (iu_nodup _ _ H2) as Hn. norm. rewrite bind_cons in Hn. apply NoDup_app in Hn as (_ & Hn & _).
    split; [|split; eapply (head_range I); norm; [by right|by left]].
    intros E. apply (Hn (c_0 c)); [left|]. rewrite <- E. apply list_elem_of_bind. exists c'. split; [left|done]. }
  norm. rewrite filter_cons_False in H10 by done. apply NoDup_cons in H4 as [_ H4]. apply Forall_cons in H3 as [_ H3].
  split; norm; rewrite ?(woken_same chain_of _ _ wake_chain Hw), ?(woken_same buf_of _ _ wake_buf Hw),
    ?(woken_same wait_of _ _ wake_wait Hw), ?(woken_same pub_of _ _ wake_pub Hw); auto.
  - destruct H1. split; simpl; rewrite ?length_alter; try done. by rewrite (proj1 Hd).
  - apply Forall_forall. intros c' Hc'. rewrite Forall_forall in H3. eapply chain_ok_ext; [by apply H3|..]; try done.
    + intros i Hi. apply (proj2 Hd). apply list_elem_of_bind. eauto.
    + cbn. destruct (Hnd c' Hc'). by rewrite list_lookup_alter_ne by lia.
  - intros b Hb. apply H5. by right.
  - intros k Hk. destruct (H11 k Hk) as [ob Hob]. exists ob. cbn.
    assert (Hin : k ∈ unserved q v ++ answered q) by (apply elem_of_app; by right).
    rewrite <- H10 in Hin. apply list_elem_of_fmap in Hin as (c' & -> & [_ Hc']%list_elem_of_filter).
    apply wait_chain in Hc'. destruct (Hnd c' Hc'). by rewrite list_lookup_alter_ne by lia.
  - intros c' [?|(th & E & Hth)%list_elem_of_fmap]%elem_of_cons; [done|]. symmetry in E. apply wake_asleep_wait in E as [-> _].
    apply H12. by right.
  - intros b wr [?|(th & E & Hth)%list_elem_of_fmap]%elem_of_cons; [done|]. symmetry in E. by apply wake_asleep_free in E as [_ []].
Qed.

(** ** The interrupt handler *)

Definition seen_one (q : vdisk) : vdisk := set_used_idx (u16 (used_idx q + 1)) q.

Lemma answered_pop q : queue_ok q -> used_idx q <> dev_used_idx q ->
  answered q = nth (Z.to_nat (used_idx q mod NUM)) (fst <$> used_ring q) 0 :: answered (seen_one q).
Proof.
  intros [] Hne. unfold answered, gap16. apply (ring_pop NUM (2 ^ 16) eq_refl eq_refl eq_refl).
  change (dev_used_idx (seen_one q)) with (dev_used_idx q).
  pose proof (ahead_range NUM (2 ^ 16) eq_refl eq_refl (used_idx q) (dev_used_idx q)).
  destruct (decide (ahead (2 ^ 16) (used_idx q) (dev_used_idx q) = 0)) as [E|]; [|lia].
  destruct Hne. by apply (ahead_zero NUM (2 ^ 16) eq_refl eq_refl).
Qed.

Lemma answered_nil q : queue_ok q -> used_idx q = dev_used_idx q -> answered q = [].
Proof. intros _ E. unfold answered, gap16. rewrite E. unfold ahead. by rewrite Z.sub_diag. Qed.

Lemma chains_split (ths : list thr) : omap chain_of ths ≡ₚ omap wait_of ths ++ pubs ths.
Proof.
  unfold pubs. induction ths as [|[] l IH]; rewrite ?omap_cons; simpl; [done|done|done| |].
  - by rewrite IH, Permutation_middle.
  - by rewrite IH.
Qed.

Lemma NoDup_heads cs : NoDup (cs ≫= c_descs) -> NoDup (c_0 <$> cs).
Proof.
  induction cs as [|c cs IH]; [constructor|]. rewrite bind_cons. intros (_ & Hd & Hn)%NoDup_app. rewrite fmap_cons.
  constructor; [|by apply IH]. intros (c' & E & Hc')%list_elem_of_fmap. apply (Hd (c_0 c)); [left|].
  apply list_elem_of_bind. exists c'. split; [rewrite E; left|done].
Qed.

(** A chain is in flight once. *)
Lemma flight_nodup q bs v ths h : inv_on q bs v ths h -> NoDup (unserved q v ++ answered q).
Proof.
  intros I. rewrite <- (i_flight _ _ _ _ _ I). pose proof (NoDup_heads _ (iu_nodup _ _ (i_use _ _ _ _ _ I))) as Hn.
  rewrite chains_split, fmap_app in Hn. apply NoDup_app in Hn as [Hn _].
  eapply sublist_NoDup; [exact Hn|apply fmap_sublist, sublist_filter].
Qed.

(** The waiting chains without the one of buffer [b]. *)
Lemma waits_without q bs v ths h c : inv_on q bs v ths h -> c ∈ omap wait_of ths ->
  exists cs, omap wait_of ths ≡ₚ c :: cs /\ forall c', c' ∈ cs -> c_buf c' <> c_buf c.
Proof.
  intros I Hc. destruct (proj1 (elem_of_Permutation (omap wait_of ths) c) Hc) as [cs E]. exists cs. split; [done|].
  pose proof (NoDup_chain_bufs _ (i_bufs _ _ _ _ _ I)) as Hn. rewrite chains_split, E in Hn. cbn [app] in Hn.
  rewrite fmap_cons, fmap_app in Hn. apply NoDup_cons in Hn as [Hn _]. intros c' Hc' Eb. apply Hn, elem_of_app. left.
  rewrite <- Eb. by apply list_elem_of_fmap_2.
Qed.

Lemma inv_round q bs v ths h k l : inv_on q bs v ths h -> h <> HIdle -> answered q = k :: l -> answered (seen_one q) = l ->
  exists c, info q !! Z.to_nat k = Some (Info (Some (c_buf c)) 0) /\ 0 <= k < 8 /\ is_Some (bs !! c_buf c) /\
    inv_on (seen_one q) (alter (set_vdisk 0) (c_buf c) bs) v (wake [EvWakeup (ChDiskBuf (c_buf c))] <$> ths) h.
Proof.
  intros I Hh Hk Hl. destruct (flight_in I k) as (c & Hc & Hf & Ek); [rewrite Hk; set_solver|]. exists c.
  pose proof I as [H1 H2 H3 H4 H5 H6 H7 H8 H9 H10 H11 H12 H13 H14]. pose proof (wait_chain _ _ Hc) as Hcc.
  assert (Hp : pubs ths = []) by (destruct (pubs ths) eqn:E; [done|]; destruct Hh; apply H8; simpl; lia).
  split; [|split; [rewrite <- Ek; by apply (head_range I)|split; [by apply H5, chain_buf|]]].
  { destruct (H11 k) as [ob Hob]; [rewrite Hk; left|]. rewrite Forall_forall in H3.
    destruct (co_info _ _ _ (H3 c Hcc)) as [st Hst]. rewrite Ek in Hst. congruence. }
  set (bs' := alter (set_vdisk 0) (c_buf c) bs). set (evs := [EvWakeup (ChDiskBuf (c_buf c))]).
  pose proof (Forall2_woken evs ths) as Hw.
  assert (Hnf : ~ flagged bs' c).
  { intros (x & Hx & Hd). unfold bs' in Hx. rewrite list_lookup_alter_eq in Hx. destruct (bs !! c_buf c); [|done]. injection Hx as <-. done. }
  split; unfold pubs in *; rewrite ?(woken_same chain_of _ _ wake_chain Hw), ?(woken_same buf_of _ _ wake_buf Hw),
    ?(woken_same wait_of _ _ wake_wait Hw), ?(woken_same pub_of _ _ wake_pub Hw), ?Hp; simpl; try lia; auto.
  - destruct H1. split; try done. apply Z.mod_pos_bound. lia.
  - eapply Forall_impl; [exact H3|]. intros c' Hc'. eapply chain_ok_ext; [done..|]. by apply lookup_alter_field.
  - intros b Hb. apply lookup_lt_is_Some. unfold bs'. rewrite length_alter. by apply lookup_lt_is_Some, H5.
  - intros b x Hx. destruct (decide (b = c_buf c)) as [->|]; [|unfold bs' in Hx; rewrite list_lookup_alter_ne in Hx by done; by apply (H6 b)].
    unfold bs' in Hx. rewrite list_lookup_alter_eq in Hx. destruct (bs !! c_buf c) as [y|] eqn:Hy; [|done].
    injection Hx as <-. exact (H6 _ y Hy).
  - destruct (waits_without _ _ _ _ _ c I Hc) as (cs & E & Hne). rewrite E, filter_cons_True, fmap_cons, Hk in H10 by done.
    rewrite E, filter_cons_False by done. rewrite Ek in H10. apply Permutation_cons_app_inv in H10.
    rewrite (filter_flagged_ext bs) by (intros; by apply flagged_alter_ne, Hne). by rewrite Hl.
  - intros k' Hk'. apply H11. rewrite Hk. right. by rewrite Hl in Hk'.
  - intros c' (th & E & Hth)%list_elem_of_fmap. symmetry in E. apply wake_asleep_wait in E as [-> Hne].
    apply flagged_alter_ne; [|by apply H12]. intros E. apply Hne. unfold evs. rewrite E. left.
  - intros b wr (th & E & Hth)%list_elem_of_fmap. symmetry in E. apply wake_asleep_free in E as [-> _]. by apply (H13 b wr).
Qed.

(** The handler takes the lock, and gives it back when nothing is left. *)
Lemma inv_handler q bs v ths h h' : inv_on q bs v ths h -> pubs ths = [] -> (h' = HIdle -> answered q = []) -> inv_on q bs v ths h'.
Proof.
  intros [H1 H2 H3 H4 H5 H6 H7 H8 H9 H10 H11 H12 H13 H14] Hp Hh. split; auto.
  rewrite Hp. intros H. simpl in H. lia.
Qed.

(** The acknowledgement. *)
Lemma inv_irq q bs v ths h i : inv_on q bs v ths h -> (h = HIdle -> dv_irq v = true -> i = true) ->
  inv_on q bs (View (dv_seen v) (dv_pending v) i (dv_sectors v) (dv_capacity v)) ths h.
Proof. intros [H1 H2 H3 H4 H5 H6 H7 H8 H9 H10 H11 H12 H13 H14] Hi. split; auto. Qed.

(** ** The device *)

Lemma offered_pop q v : queue_ok q -> 0 <= dv_seen v < 2 ^ 16 -> dv_seen v <> avail_idx q ->
  offered q v = nth (Z.to_nat (dv_seen v mod NUM)) (avail_ring q) 0 ::
    ring NUM (avail_ring q) (u16 (dv_seen v + 1)) (gap16 (u16 (dv_seen v + 1)) (avail_idx q)).
Proof.
  intros [] Hs Hne. unfold offered, gap16, u16. apply (ring_pop NUM (2 ^ 16) eq_refl eq_refl eq_refl).
  pose proof (ahead_range NUM (2 ^ 16) eq_refl eq_refl (dv_seen v) (avail_idx q)).
  destruct (decide (ahead (2 ^ 16) (dv_seen v) (avail_idx q) = 0)) as [E|]; [|lia].
  destruct Hne. by apply (ahead_zero NUM (2 ^ 16) eq_refl eq_refl).
Qed.

Lemma inv_take q bs v ths h : inv_on q bs v ths h -> 0 <= dv_seen v < 2 ^ 16 -> dv_seen v <> avail_idx q ->
  inv_on q bs (View (u16 (dv_seen v + 1)) (dv_pending v ++ [nth (Z.to_nat (dv_seen v mod NUM)) (avail_ring q) 0])
                 (dv_irq v) (dv_sectors v) (dv_capacity v)) ths h.
Proof.
  intros [H1 H2 H3 H4 H5 H6 H7 H8 H9 H10 H11 H12 H13 H14] Hs Hne. split; auto.
  rewrite H10. unfold unserved. rewrite offered_pop by done. apply Permutation_app_tail.
  unfold offered. cbn [dv_seen dv_pending app]. rewrite app_assoc. by rewrite <- Permutation_cons_append.
Qed.

(** The chains the device has taken are requests for blocks of the disk. *)
Lemma inv_request q bs v ths h k : inv_on q bs v ths h -> k ∈ dv_pending v ->
  exists c x, c ∈ omap wait_of ths /\ flagged bs c /\ c_0 c = k /\ bs !! c_buf c = Some x /\
    request_at q k = Some (Request (c_write c) (2 * vb_blockno x) (c_buf c) k) /\
    0 <= 2 * vb_blockno x /\ 2 * vb_blockno x + 2 <= dv_capacity v.
Proof.
  intros I Hk. destruct (flight_in I k) as (c & Hc & Hf & <-); [unfold unserved; set_solver|].
  pose proof (wait_chain _ _ Hc) as Hcc. destruct Hf as (x & Hx & Hd).
  exists c, x. destruct (i_blocks _ _ _ _ _ I _ _ Hx) as [[Hb Hcap] _]. split_and!; try done; [by exists x| |lia].
  pose proof (i_chains _ _ _ _ _ I) as HF. rewrite Forall_forall in HF.
  assert (Hr : forall i, i ∈ c_descs c -> 0 <= i) by (intros i Hi; by apply (chain_range I c i Hcc Hi)).
  apply request_at_chain with bs; [by apply HF|apply Hr; set_solver..|done].
Qed.

Lemma answered_served q r k len : queue_ok q -> Z.of_nat (length (answered q)) < NUM ->
  answered (served r k len q) = answered q ++ [k].
Proof.
  intros [] Hl. unfold answered, gap16. cbn [used_ring used_idx dev_used_idx served set_used]. rewrite list_fmap_insert.
  apply (ring_push NUM (2 ^ 16) eq_refl eq_refl eq_refl); [by rewrite length_fmap|by rewrite gap_answered].
Qed.

Lemma served_bufs_field {B} (g : vbuf -> B) r f bs b : (forall d x, g (set_vdata d x) = g x) ->
  g <$> served_bufs r f bs !! b = g <$> bs !! b.
Proof. intros Hg. unfold served_bufs. destruct (r_write r); [done|]. by apply lookup_alter_field. Qed.

Lemma served_flagged r f bs c : flagged (served_bufs r f bs) c <-> flagged bs c.
Proof.
  pose proof (served_bufs_field vb_disk r f bs (c_buf c) ltac:(done)) as E. unfold flagged. split; intros (x & Hx & Hd); rewrite Hx in E.
  - destruct (bs !! c_buf c) as [y|]; [|done]. injection E as E. exists y. by rewrite <- E.
  - destruct (served_bufs r f bs !! c_buf c) as [y|]; [|done]. injection E as E. exists y. by rewrite E.
Qed.

Lemma inv_serve q bs v ths h l1 k l2 r len :
  inv_on q bs v ths h -> (forall s, length (dv_sectors v s) = 512%nat) -> dv_pending v = l1 ++ k :: l2 -> request_at q k = Some r ->
  inv_on (served r k len q) (served_bufs r (dv_sectors v) bs)
    (View (dv_seen v) (l1 ++ l2) true (served_sectors r bs (dv_sectors v)) (dv_capacity v)) ths h.
Proof.
  intros I Hsec Hp Hr. destruct (inv_request _ _ _ _ _ k I) as (c & x & Hc & Hf & Ek & Hx & Hr' & _); [rewrite Hp; set_solver|].
  assert (Er : r_status r = k) by (rewrite Hr' in Hr; by injection Hr as <-). clear Hr Hr'.
  pose proof (flight_few I) as Hfew. pose proof I as [H1 H2 H3 H4 H5 H6 H7 H8 H9 H10 H11 H12 H13 H14].
  assert (Ha : answered (served r k len q) = answered q ++ [k]) by (apply answered_served; [done|unfold NUM; lia]).
  split; auto.
  - destruct H1. split; cbn; unfold set_status; rewrite ?length_insert, ?length_alter; try done. apply Z.mod_pos_bound. lia.
  - eapply Forall_impl; [exact H3|]. intros c' Hc'. eapply chain_ok_ext; [done..| |by apply served_bufs_field].
    by apply lookup_alter_field.
  - intros b Hb. destruct (H5 b Hb) as [y Hy]. pose proof (served_bufs_field vb_disk r (dv_sectors v) bs b ltac:(done)) as E.
    rewrite Hy in E. by destruct (served_bufs r (dv_sectors v) bs !! b).
  - intros b y Hy. unfold served_bufs in Hy. destruct (r_write r); [by apply (H6 b)|].
    destruct (decide (b = r_buf r)) as [->|]; [|rewrite list_lookup_alter_ne in Hy by done; by apply (H6 b)].
    rewrite list_lookup_alter_eq in Hy. destruct (bs !! r_buf r) as [z|] eqn:Hz; [|done]. injection Hy as <-.
    split; [apply (H6 _ _ Hz)|]. cbn. unfold get_sectors. by rewrite length_app, !Hsec.
  - eapply Forall_impl; [exact H9|]. intros c' [Hf' Hn]. split; [by apply served_flagged|done].
  - rewrite (filter_flagged_ext bs) by (intros; apply served_flagged). rewrite H10, Ha. unfold unserved. rewrite Hp.
    unfold offered. cbn [dv_pending dv_seen avail_ring avail_idx served set_used set_info]. rewrite <- !app_assoc. do 2 apply Permutation_app_head.
    cbn [app]. rewrite app_assoc. apply Permutation_cons_append.
  - intros k'. rewrite Ha. intros [Hk'|Hk']%elem_of_app; cbn; unfold set_status; rewrite Er.
    + destruct (H11 k' Hk') as [ob Hob]. destruct (decide (Z.to_nat k = Z.to_nat k')) as [E|].
      * rewrite E, list_lookup_alter_eq, Hob. by exists ob.
      * rewrite list_lookup_alter_ne by done. by exists ob.
    + apply list_elem_of_singleton in Hk' as ->. rewrite list_lookup_alter_eq.
      destruct (lookup_lt_is_Some_2 (info q) (Z.to_nat k)) as [y ->]; [|by eexists].
      rewrite (qk_info _ H1). pose proof (head_range I c (wait_chain _ _ Hc)). lia.
  - intros c' Hc'. apply served_flagged, H12. done.
Qed.

(** ** The owner of a buffer changes it *)

Lemma inv_client q bs v ths h b blockno data :
  inv_on q bs v ths h -> b ∉ omap buf_of ths -> block_ok (dv_capacity v) blockno -> length data = Z.to_nat BSIZE ->
  inv_on q (alter (fun x => Vbuf blockno data (vb_disk x)) b bs) v ths h.
Proof.
  intros [H1 H2 H3 H4 H5 H6 H7 H8 H9 H10 H11 H12 H13 H14] Hb Hbn Hd.
  assert (Hne : forall c, c ∈ omap chain_of ths -> c_buf c <> b) by (intros c Hc <-; by apply Hb, chain_buf).
  split; auto.
  - rewrite Forall_forall in H3 |- *. intros c Hc. eapply chain_ok_ext; [by apply H3|done..|].
    rewrite list_lookup_alter_ne; [done|]. by apply not_eq_sym, Hne.
  - intros b' Hb'. apply lookup_lt_is_Some. rewrite length_alter. by apply lookup_lt_is_Some, H5.
  - intros b' x Hx. destruct (decide (b = b')) as [<-|]; [|rewrite list_lookup_alter_ne in Hx by done; by apply (H6 b')].
    rewrite list_lookup_alter_eq in Hx. destruct (bs !! b); [|done]. by injection Hx as <-.
  - rewrite Forall_forall in H9 |- *. intros c Hc. destruct (H9 c Hc) as [Hf ?]. split; [|done].
    by apply flagged_alter_ne; [apply Hne, pub_chain|].
  - rewrite (filter_flagged_ext bs); [done|]. intros c Hc. by apply flagged_alter_ne, Hne, wait_chain.
  - intros c Hc. apply flagged_alter_ne; [|by apply H12]. apply Hne, list_elem_of_omap. by exists (TWait c false).
Qed.
