(* ===== verification/VirtioBoot.v ===== *)
(** What the disk driver promises: processes ask for transfers of blocks, each
    of which happens at once, some time before the request returns. *)

From S2P Require Import Prelude KMonad Riscv Kalloc Ring BlockStore Bio Virtio VirtioSpec VirtioSys VirtioInv.

(** ** The promise *)

(** A process: it has not asked for a transfer, it has asked, it has been
    served. *)
Inductive sthr :=
| SIdle
| SAsked (b : nat) (wr : bool)
| SServed (b : nat) (wr : bool).

(** The blocks of the disk, the block numbers and data of the buffers, and the
    processes. *)
Record spec := Spec {
  sp_blocks : Z -> list Z;
  sp_bufs : list (Z * list Z);
  sp_thr : list sthr }.

Definition sbuf_of (th : sthr) : option nat :=
  match th with SIdle => None | SAsked b _ => Some b | SServed b _ => Some b end.

(** One transfer between buffer [b] and its block. *)
Definition transfer (wr : bool) (b : nat) (k : Z -> list Z) (bufs : list (Z * list Z)) : (Z -> list Z) * list (Z * list Z) :=
  match bufs !! b with
  | Some (n, d) => if wr then (fupd k n d, bufs) else (k, <[b := (n, k n)]> bufs)
  | None => (k, bufs)
  end.

Inductive spec_step : spec -> spec -> Prop :=
| sp_ask k bf ths t b wr :
    ths !! t = Some SIdle -> b ∉ omap sbuf_of ths ->
    spec_step (Spec k bf ths) (Spec k bf (<[t := SAsked b wr]> ths))
| sp_transfer k bf ths t b wr k' :
    ths !! t = Some (SAsked b wr) -> (forall n, k' n = fst (transfer wr b k bf) n) ->
    spec_step (Spec k bf ths) (Spec k' (snd (transfer wr b k bf)) (<[t := SServed b wr]> ths))
| sp_return k bf ths t b wr :
    ths !! t = Some (SServed b wr) ->
    spec_step (Spec k bf ths) (Spec k bf (<[t := SIdle]> ths))
| sp_client k bf ths b x :
    b ∉ omap sbuf_of ths ->
    spec_step (Spec k bf ths) (Spec k (<[b := x]> bf) ths).

(** The cache uses the driver as one transfer. *)
Lemma bio_transfer (w : world bcache) b x wr : bc_bufs (w_st w) !! b = Some x ->
  wp (Bio.virtio_disk_rw b wr) (fun _ w' =>
    let t := transfer wr b (bc_disk (w_st w)) ((fun x => (b_blockno x, b_data x)) <$> bc_bufs (w_st w)) in
    bc_disk (w_st w') = fst t /\ ((fun x => (b_blockno x, b_data x)) <$> bc_bufs (w_st w')) = snd t) w.
Proof.
  intros Hx. unfold Bio.virtio_disk_rw, load, assign, transfer. wp_steps. rewrite Hx. wp_steps. rewrite list_lookup_fmap, Hx. simpl.
  destruct wr; wp_steps; [done|]. unfold load. wp_steps. rewrite Hx. wp_steps. split; [done|].
  apply list_eq. intros i. rewrite list_lookup_fmap. destruct (decide (i = b)) as [->|].
  - rewrite list_lookup_alter_eq, Hx, list_lookup_insert_eq; [done|]. rewrite length_fmap. by eapply lookup_lt_Some.
  - by rewrite list_lookup_alter_ne, list_lookup_insert_ne, list_lookup_fmap.
Qed.

(** ** The states of the driver as states of the promise *)

Definition bufdata (x : vbuf) : Z * list Z := (vb_blockno x, vb_data x).
Definition blocks (v : dview) (n : Z) : list Z := get_sectors (dv_sectors v) (2 * n).

(** [u] are the chains that wait for the device. *)
Definition abs_thr (u : list Z) (th : thr) : sthr :=
  match th with
  | TIdle => SIdle
  | TFree b wr _ => SAsked b wr
  | TPub c => SAsked (c_buf c) (c_write c)
  | TWait c _ => if decide (c_0 c ∈ u) then SAsked (c_buf c) (c_write c) else SServed (c_buf c) (c_write c)
  end.

Lemma abs_thr_buf u (ths : list thr) : omap sbuf_of (abs_thr u <$> ths) = omap buf_of ths.
Proof.
  induction ths as [|th ths IH]; [done|]. rewrite fmap_cons, !omap_cons, IH. destruct th; simpl; try done. by case_decide.
Qed.

Lemma abs_thr_wake u evs (ths : list thr) : abs_thr u <$> (wake evs <$> ths) = abs_thr u <$> ths.
Proof. rewrite <- list_fmap_compose. apply list_fmap_ext. intros _ th _. by destruct th as [|? ? []| |? []]. Qed.

Lemma abs_thr_ext u u' (ths : list thr) : (forall c, c ∈ omap wait_of ths -> c_0 c ∈ u' <-> c_0 c ∈ u) -> abs_thr u' <$> ths = abs_thr u <$> ths.
Proof.
  intros H. apply list_fmap_ext. intros i th Hi. destruct th as [| | |c aw]; try done. simpl.
  assert (E : c_0 c ∈ u' <-> c_0 c ∈ u).
  { apply H, list_elem_of_omap. exists (TWait c aw). split; [by eapply list_elem_of_lookup_2|done]. }
  repeat case_decide; naive_solver.
Qed.

Lemma bufdata_alter f b (bs : list vbuf) : (forall x, bufdata (f x) = bufdata x) -> bufdata <$> alter f b bs = bufdata <$> bs.
Proof.
  intros Hf. apply list_eq. intros i. rewrite !list_lookup_fmap. by apply lookup_alter_field.
Qed.

Section abs.
Context {D : Type} {dev : VirtioDev D} {laws : VirtioLaws D}.
Implicit Types (s : vsys D).

Definition waiting s : list Z := unserved (v_disk (vs_st s)) (view (v_dev (vs_st s))).
Definition abs s : spec :=
  Spec (blocks (view (v_dev (vs_st s)))) (bufdata <$> v_bufs (vs_st s)) (abs_thr (waiting s) <$> vs_thr s).

(** At most one step of the promise. *)
Definition simulates s s' : Prop := abs s' = abs s \/ spec_step (abs s) (abs s').

(** What happened to a process. *)
Inductive moved s : sthr -> sthr -> Prop :=
| moved_not x : moved s x x
| moved_ask b wr : b ∉ omap buf_of (vs_thr s) -> moved s SIdle (SAsked b wr)
| moved_return b wr : moved s (SServed b wr) SIdle.

(** A step of the driver that changes process [t] only. *)
Lemma simulates_settle s st' evs t th th' h :
  let v' := view (v_dev st') in
  vs_thr s !! t = Some th ->
  dv_sectors v' = dv_sectors (view (v_dev (vs_st s))) -> bufdata <$> v_bufs st' = bufdata <$> v_bufs (vs_st s) ->
  (forall c, c ∈ omap wait_of (vs_thr s) -> c_0 c ∈ unserved (v_disk st') v' <-> c_0 c ∈ waiting s) ->
  moved s (abs_thr (waiting s) th) (abs_thr (unserved (v_disk st') v') th') ->
  simulates s (Vsys st' (settle evs (Some (t, th')) (vs_thr s)) h).
Proof.
  intros v' Ht Hs Hb Hu Hm. unfold simulates, abs, waiting. cbn [vs_st vs_thr vs_h settle]. fold v'. unfold settle.
  rewrite list_fmap_insert, abs_thr_wake, (abs_thr_ext _ _ _ Hu), Hb.
  replace (blocks v') with (blocks (view (v_dev (vs_st s)))) by (unfold blocks; by rewrite Hs). fold (waiting s).
  assert (Ht' : (abs_thr (waiting s) <$> vs_thr s) !! t = Some (abs_thr (waiting s) th)) by (by rewrite list_lookup_fmap, Ht).
  inversion Hm as [x E1 E2|b wr Hn E1 E2|b wr E1 E2].
  - left. by rewrite list_insert_id.
  - right. apply sp_ask; [by rewrite Ht', <- E1|]. by rewrite abs_thr_buf.
  - right. eapply sp_return. by rewrite Ht', <- E1.
Qed.

(** A step that the promise does not see. *)
Lemma simulates_same s st' ths' h :
  dv_sectors (view (v_dev st')) = dv_sectors (view (v_dev (vs_st s))) -> bufdata <$> v_bufs st' = bufdata <$> v_bufs (vs_st s) ->
  (exists evs, ths' = wake evs <$> vs_thr s) ->
  (forall c, c ∈ omap wait_of (vs_thr s) -> c_0 c ∈ unserved (v_disk st') (view (v_dev st')) <-> c_0 c ∈ waiting s) ->
  simulates s (Vsys st' ths' h).
Proof.
  intros Hs Hb [evs ->] Hu. left. unfold abs, waiting. cbn [vs_st vs_thr vs_h]. rewrite abs_thr_wake, (abs_thr_ext _ _ _ Hu), Hb.
  f_equal. unfold blocks. by rewrite Hs.
Qed.
End abs.

(** [virtio_disk_init] sets up an empty queue. *)


(** The static variable [disk] before the kernel runs: all bytes are zero. *)
Record bss_disk (q : vdisk) : Prop := {
  bss_free : length (dfree q) = 8%nat;
  bss_info : length (info q) = 8%nat;
  bss_ops : length (ops q) = 8%nat;
  bss_used_idx : used_idx q = 0 }.

Definition empty_queue (q : vdisk) (pg : Z * Z * Z) : vdisk :=
  Disk (repeat zero_desc 8) 0 (repeat 0 8) 0 (repeat (0, 0) 8) (repeat 1 8) 0 (info q) (ops q) pg.

Section boot.
Context {sy : Symbols} {D : Type} {dev : VirtioDev D} {laws : VirtioLaws D}.
Implicit Types (w : world (vst D)).

(** Code that does not change the queue, the buffers or what can be seen of
    the device. *)
Definition quiet w w' : Prop :=
  v_disk (w_st w') = v_disk (w_st w) /\ v_bufs (w_st w') = v_bufs (w_st w) /\ view (v_dev (w_st w')) = view (v_dev (w_st w)).
Definition quiets {A} (m : M (vst D) A) : Prop := forall w, wlp m (fun _ w' => quiet w w') w.

Lemma quiet_refl w : quiet w w.
Proof. done. Qed.
Lemma quiet_trans w1 w2 w3 : quiet w1 w2 -> quiet w2 w3 -> quiet w1 w3.
Proof. intros (E1 & E2 & E3) (F1 & F2 & F3). split_and!; congruence. Qed.

Lemma wlp_quiet {A B} (m : M (vst D) A) (f : A -> M (vst D) B) Q w :
  quiets m -> (forall a w', quiet w w' -> wlp (f a) Q w') -> wlp (m ≫= f) Q w.
Proof. intros Hm Hf. apply wlp_bind. eapply wlp_mono; [|apply Hm]. intros a w' H. by apply Hf. Qed.

Lemma quiets_bind {A B} (m : M (vst D) A) (f : A -> M (vst D) B) : quiets m -> (forall a, quiets (f a)) -> quiets (m ≫= f).
Proof.
  intros Hm Hf w. apply wlp_quiet; [done|]. intros a w1 H1. eapply wlp_mono; [|apply Hf]. intros b w2 H2. by eapply quiet_trans.
Qed.
Lemma quiets_ret {A} (a : A) : quiets (mret a).
Proof. intros w. apply quiet_refl. Qed.
Lemma quiets_panic {A} s : quiets (A := A) (panic s).
Proof. done. Qed.
Lemma quiets_R_read r : quiets (R_read r).
Proof.
  intros w. unfold R_read. apply wlp_bind, wlp_get. pose proof (read_view r (v_dev (w_st w))) as Hv.
  destruct (reg_read r (v_dev (w_st w))) as [x d]. apply wlp_bind, wlp_put, wlp_ret. by split_and!.
Qed.
Lemma quiets_R_write r x : r <> VIRTIO_MMIO_INTERRUPT_ACK -> (r = VIRTIO_MMIO_STATUS -> u32 x <> 0) -> quiets (R_write r x).
Proof. intros H1 H2 w. apply wlp_modify. split_and!; [done|done|]. cbn. by rewrite other_write. Qed.
Lemma quiets_vkalloc : quiets vkalloc.
Proof. intros w. unfold wlp, vkalloc, zoom. by destruct (kalloc _). Qed.
Lemma quiets_vmemset pa : quiets (vmemset pa).
Proof. done. Qed.
Lemma quiets_find_disk r x : quiets (find_disk r x).
Proof. apply quiets_bind; [apply quiets_R_read|]. intros v. destruct (v =? x); [apply quiets_ret|apply quiets_panic]. Qed.

Lemma wlp_quiets {A} (m : M (vst D) A) (Q : A -> world (vst D) -> Prop) w :
  quiets m -> (forall a w', quiet w w' -> Q a w') -> wlp m Q w.
Proof. intros Hm HQ. eapply wlp_mono; [|apply Hm]. apply HQ. Qed.

Ltac quiets :=
  repeat (intros; lazymatch goal with
    | |- quiets (mbind _ _) => apply quiets_bind
    | |- quiets (if ?b then _ else _) => destruct b
    | |- quiets (mret _) => apply quiets_ret
    | |- quiets (panic _) => apply quiets_panic
    | |- quiets (R_read _) => apply quiets_R_read
    | |- quiets (R_write _ _) => apply quiets_R_write
    | |- quiets vkalloc => apply quiets_vkalloc
    | |- quiets (vmemset _) => apply quiets_vmemset
    | |- quiets (find_disk _ _) => apply quiets_find_disk
    end).

(** The device is reset. *)
Definition reset w w' : Prop :=
  let v := view (v_dev (w_st w)) in
  v_disk (w_st w') = v_disk (w_st w) /\ v_bufs (w_st w') = v_bufs (w_st w) /\
  view (v_dev (w_st w')) = View 0 [] false (dv_sectors v) (dv_capacity v).

Lemma reset_quiet w w1 w2 : reset w w1 -> quiet w1 w2 -> reset w w2.
Proof. intros (E1 & E2 & E3) (F1 & F2 & F3). split_and!; congruence. Qed.

Lemma wlp_negotiate w : wlp virtio_negotiate (fun _ => reset w) w.
Proof.
  unfold virtio_negotiate. do 4 (apply wlp_quiet; [apply quiets_find_disk|]; intros [] ? ?).
  apply wlp_bind, wlp_modify. cbn [Z.lor]. eapply wlp_quiets; [quiets; done|]. intros st wf Hq. eapply reset_quiet; [|exact Hq].
  assert (Ht : quiet w w'2) by (by repeat (eapply quiet_trans; [eassumption|])). destruct Ht as (E1 & E2 & E3).
  split_and!; [done|done|]. cbn. change (u32 0) with 0. by rewrite reset_write, E3.
Qed.

Lemma wlp_init_free q0 n i w :
  v_disk (w_st w) = q0 -> wlp (init_free n i) (fun _ w' =>
    v_bufs (w_st w') = v_bufs (w_st w) /\ v_dev (w_st w') = v_dev (w_st w) /\
    v_disk (w_st w') = set_dfree (fun l => foldl (fun l i => <[i := 1]> l) l (seq i n)) q0) w.
Proof.
  revert i w q0. induction n as [|n IH]; intros i w q0 E; cbn [init_free seq foldl].
  - apply wlp_ret. subst q0. by destruct (v_disk (w_st w)).
  - apply wlp_bind, wlp_modify. eapply wlp_mono; [|by apply IH]. cbn. intros _ w' (H1 & H2 & H3). split_and!; [done|done|].
    rewrite H3, E. done.
Qed.

(** After [virtio_disk_init] the queue is empty and the device idle. *)
Lemma wlp_virtio_disk_init w : bss_disk (v_disk (w_st w)) ->
  wlp virtio_disk_init (fun _ w' =>
    let v := view (v_dev (w_st w)) in
    (exists pg, v_disk (w_st w') = empty_queue (v_disk (w_st w)) pg) /\ v_bufs (w_st w') = v_bufs (w_st w) /\
    view (v_dev (w_st w')) = View 0 [] false (dv_sectors v) (dv_capacity v)) w.
Proof.
  intros Hb. unfold virtio_disk_init. apply wlp_bind. eapply wlp_mono; [|apply wlp_negotiate]. intros status w1 H1.
  apply wlp_quiet; [by apply quiets_R_write|]. intros [] w2 H2. apply wlp_quiet; [apply quiets_R_read|]. intros ready w3 H3.
  destruct (negb (ready =? 0)); [done|]. apply wlp_quiet; [apply quiets_R_read|]. intros max w4 H4.
  destruct (max =? 0); [done|]. destruct (max <? NUM); [done|].
  apply wlp_quiet; [apply quiets_vkalloc|]. intros pd w5 H5. apply wlp_quiet; [apply quiets_vkalloc|]. intros pa w6 H6.
  apply wlp_quiet; [apply quiets_vkalloc|]. intros pu w7 H7.
  assert (R7 : reset w w7) by (eapply reset_quiet; [exact H1|]; by repeat (eapply quiet_trans; [eassumption|])). clear H1 H2 H3 H4 H5 H6 H7.
  apply wlp_bind, wlp_modify. destruct (_ || _ || _); [done|].
  apply wlp_quiet; [apply quiets_vmemset|]. intros [] w8 H8. apply wlp_quiet; [apply quiets_vmemset|]. intros [] w9 H9.
  apply wlp_quiet; [apply quiets_vmemset|]. intros [] w10 H10. pose proof (quiet_trans _ _ _ H8 (quiet_trans _ _ _ H9 H10)) as Hq. clear H8 H9 H10.
  apply wlp_bind, wlp_modify. do 8 (apply wlp_quiet; [by apply quiets_R_write|]; intros [] ? ?).
  set (w11 := set_st _ w10) in *. assert (Hq2 : quiet w11 w'6) by (by repeat (eapply quiet_trans; [eassumption|])).
  apply wlp_bind. eapply wlp_mono; [|by eapply wlp_init_free]. intros _ w12 (F1 & F2 & F3).
  eapply wlp_quiets; [apply quiets_R_write; [done|]|].
  { intros _ E. apply (f_equal (fun x => Z.testbit x 2)) in E. unfold u32 in E. rewrite Z.mod_pow2_bits_low, Z.lor_spec in E by lia.
    cbn in E. by rewrite orb_true_r in E. }
  intros [] wf (G1 & G2 & G3). destruct Hq2 as (Q1 & Q2 & Q3), Hq as (P1 & P2 & P3), R7 as (E1 & E2 & E3). split_and!.
  - exists (pd, pa, pu). rewrite G1, F3, Q1. cbn. rewrite P1. cbn. rewrite E1. destruct Hb as [B1 B2 B3 B4].
    destruct (v_disk (w_st w)) as [de ai ar di ur fr ui io op pg]. cbn in *. subst ui. unfold empty_queue. cbn. f_equal.
    destruct fr as [|? [|? [|? [|? [|? [|? [|? [|? [|]]]]]]]]]; done.
  - rewrite G2, F1, Q2. cbn. rewrite P2. cbn. exact E2.
  - rewrite G3, F2, Q3. cbn. rewrite P3. cbn. exact E3.
Qed.

(** *** The initialisation returns *)

(** The registers of a disk that [virtio_disk_init] can use. *)
Definition usable_disk : Prop := forall d,
  u32 (fst (reg_read VIRTIO_MMIO_MAGIC_VALUE d)) = 0x74726976 /\
  u32 (fst (reg_read VIRTIO_MMIO_VERSION d)) = 2 /\
  u32 (fst (reg_read VIRTIO_MMIO_DEVICE_ID d)) = 2 /\
  u32 (fst (reg_read VIRTIO_MMIO_VENDOR_ID d)) = 0x554d4551 /\
  Z.land (u32 (fst (reg_read VIRTIO_MMIO_STATUS d))) VIRTIO_CONFIG_S_FEATURES_OK <> 0 /\
  u32 (fst (reg_read VIRTIO_MMIO_QUEUE_READY d)) = 0 /\
  NUM <= u32 (fst (reg_read VIRTIO_MMIO_QUEUE_NUM_MAX d)).

Lemma wp_reg_read r m h e q bs d ph (Q : Z -> world (vst D) -> Prop) :
  (forall d', Q (u32 (fst (reg_read r d))) (World m h e (Vst q bs d' ph))) -> wp (R_read r) Q (World m h e (Vst q bs d ph)).
Proof. intros HQ. unfold R_read. apply wp_bind, wp_get. cbn. destruct (reg_read r d) as [x d']. apply (HQ d'). Qed.

Lemma wp_reg_write r x m h e q bs d ph (Q : () -> world (vst D) -> Prop) :
  (forall d', Q () (World m h e (Vst q bs d' ph))) -> wp (R_write r x) Q (World m h e (Vst q bs d ph)).
Proof. intros HQ. apply wp_modify, HQ. Qed.

Lemma wp_find_disk r x m h e q bs d ph (Q : () -> world (vst D) -> Prop) :
  u32 (fst (reg_read r d)) = x -> (forall d', Q () (World m h e (Vst q bs d' ph))) ->
  wp (find_disk r x) Q (World m h e (Vst q bs d ph)).
Proof. intros Hx HQ. apply wp_bind, wp_reg_read. intros d'. rewrite Hx, Z.eqb_refl. apply wp_ret, HQ. Qed.

Lemma wp_negotiate m h e q bs d ph (Q : Z -> world (vst D) -> Prop) : usable_disk ->
  (forall status d', Q status (World m h e (Vst q bs d' ph))) -> wp virtio_negotiate Q (World m h e (Vst q bs d ph)).
Proof.
  intros Hd HQ. unfold virtio_negotiate. do 4 (apply wp_bind, wp_find_disk; [apply Hd|]; intros ?).
  do 3 (apply wp_bind, wp_reg_write; intros ?). apply wp_bind, wp_reg_read. intros ?.
  do 2 (apply wp_bind, wp_reg_write; intros ?). apply wp_bind, wp_reg_read. intros ?.
  rewrite (proj2 (Z.eqb_neq _ _)) by apply Hd. apply wp_ret, HQ.
Qed.

Lemma wp_vkalloc {syok : SymbolsOk sy} p l m e q bs d ph (Q : Z -> world (vst D) -> Prop) :
  kmem_ok ph (p :: l) -> (forall ph', 0 < p -> kmem_ok ph' l -> Q p (World m [] e (Vst q bs d ph'))) ->
  wp vkalloc Q (World m [] e (Vst q bs d ph)).
Proof.
  intros Hk HQ. apply wp_zoom. eapply wp_kalloc; [exact Hk|set_solver|done|]. intros p' l' s' [= <- <-] Hp _ Hk' _ _. cbn.
  apply HQ; [by apply free_page_pos|done].
Qed.

Lemma wp_init_free n i m h e q bs d ph (Q : () -> world (vst D) -> Prop) :
  (forall q', Q () (World m h e (Vst q' bs d ph))) -> wp (init_free n i) Q (World m h e (Vst q bs d ph)).
Proof.
  revert i q. induction n as [|n IH]; intros i q HQ; cbn [init_free]; [by apply wp_ret|]. apply wp_bind, wp_modify, IH, HQ.
Qed.

Lemma virtio_disk_init_returns {syok : SymbolsOk sy} m q bs d ph pd pa pu l :
  usable_disk -> kmem_ok ph (pd :: pa :: pu :: l) ->
  exists w, virtio_disk_init (World m [] [] (Vst q bs d ph)) = Ok () w.
Proof.
  intros Hd Hk. cut (wp virtio_disk_init (fun _ _ => True) (World m [] [] (Vst q bs d ph))).
  { intros ([] & w & H & _)%wp_elim. by exists w. }
  unfold virtio_disk_init. apply wp_bind, wp_negotiate; [done|]. intros status d1. apply wp_bind, wp_reg_write. intros d2.
  apply wp_bind, wp_reg_read. intros d3. destruct (Hd d2) as (_ & _ & _ & _ & _ & -> & _). cbn [Z.eqb negb].
  apply wp_bind, wp_reg_read. intros d4. destruct (Hd d3) as (_ & _ & _ & _ & _ & _ & Hmax).
  rewrite (proj2 (Z.eqb_neq _ 0)), (proj2 (Z.ltb_ge _ NUM)) by (unfold NUM in *; lia).
  eapply wp_bind, wp_vkalloc; [exact Hk|]. intros ph1 P1 Hk1. eapply wp_bind, wp_vkalloc; [exact Hk1|]. intros ph2 P2 Hk2.
  eapply wp_bind, wp_vkalloc; [exact Hk2|]. intros ph3 P3 Hk3. apply wp_bind, wp_modify.
  rewrite !(proj2 (Z.eqb_neq _ 0)) by lia. cbn [orb]. do 4 apply wp_bind, wp_modify. cbn.
  do 8 (apply wp_bind, wp_reg_write; intros ?). apply wp_bind, wp_init_free. intros q'. by apply wp_reg_write.
Qed.
End boot.

(** The empty queue satisfies the invariant. *)
Lemma inv_boot q pg bs v n :
  bss_disk q -> dv_seen v = 0 -> dv_pending v = [] ->
  (forall b x, bs !! b = Some x -> block_ok (dv_capacity v) (vb_blockno x) /\ length (vb_data x) = Z.to_nat BSIZE) ->
  inv_on (empty_queue q pg) bs v (replicate n TIdle) HIdle.
Proof.
  intros [B1 B2 B3 B4] Hs Hp Hb.
  assert (Ho : forall A (f : thr -> option A), f TIdle = None -> omap f (replicate n TIdle) = []).
  { intros A f Hf. induction n as [|n IH]; [done|]. cbn [replicate]. by rewrite omap_cons, Hf. }
  assert (Hin : forall th, th ∈ replicate n TIdle -> th = TIdle) by (intros th H; by apply elem_of_replicate in H as []).
  split; unfold pubs; rewrite ?Ho by done; try done; try (simpl; lia).
  - split; [done|constructor|constructor|]. intros i Hi.
    assert (i = 0 \/ i = 1 \/ i = 2 \/ i = 3 \/ i = 4 \/ i = 5 \/ i = 6 \/ i = 7) as Hc by lia.
    by destruct Hc as [->|[->|[->|[->|[->|[->|[->| ->]]]]]]].
  - constructor.
  - intros b ?%elem_of_nil. done.
  - unfold unserved, offered. rewrite Hs, Hp. done.
  - intros k ?%elem_of_nil. done.
  - intros c H%Hin. done.
  - intros b wr H%Hin. done.
Qed.
