(* ===== verification/VirtioProps.v ===== *)
(** Properties of the disk driver: it never panics, a request that returns has
    transferred its block, and nobody sleeps for ever. *)

From S2P Require Import Prelude KMonad Riscv Kalloc Ring BlockStore Bio Virtio VirtioSpec VirtioSys VirtioInv VirtioBoot.

(** One of the processes is replaced and the others see the wakeups. *)
Lemma settle_perm t th ths : ths !! t = Some th ->
  exists rest, ths ≡ₚ th :: rest /\ forall evs th', settle evs (Some (t, th')) ths ≡ₚ th' :: (wake evs <$> rest).
Proof.
  intros Ht. exists (delete t ths). split; [by apply delete_Permutation|]. intros evs th'. unfold settle.
  rewrite (delete_Permutation _ t th') by (apply list_lookup_insert_eq; rewrite length_fmap; by eapply lookup_lt_Some).
  f_equiv. rewrite list_fmap_delete, !delete_take_drop. by rewrite take_insert_ge, drop_insert_lt by lia.
Qed.

Lemma wake_nil (ths : list thr) : wake [] <$> ths = ths.
Proof. induction ths as [|th ths IH]; [done|]. rewrite fmap_cons, IH. by destruct th as [|? ? []| |? []]. Qed.

Section steps.
Context {sy : Symbols} {D : Type} {dev : VirtioDev D} {laws : VirtioLaws D}.
Implicit Types (w : world (vst D)) (s : vsys D).

(** ** The routines of the driver *)

Lemma wp_rw_try b wr ds x w (Q : option (Z * Z * Z) -> world (vst D) -> Prop) :
  let s := w_st w in
  let q := v_disk s in
  w_held w = [L_disk] -> in_use (dfree q) ds -> v_bufs s !! b = Some x -> 0 <= vb_blockno x < 2 ^ 31 ->
  (forall i0 i1 i2 fr, let c := Chain b wr i0 i1 i2 in in_use fr (c_descs c ++ ds) ->
     Q (Some (i0, i1, i2))
       (set_st (Vst (formatted (with_tables q (desc q) fr) c (2 * vb_blockno x)) (alter (set_vdisk 1) b (v_bufs s)) (v_dev s) (v_phys s)) w)) ->
  (forall de fr evs, (6 <= length ds)%nat -> in_use fr ds -> same_desc ds (desc q) de ->
     Q None (set_held [] (wq w evs (with_tables q de fr)))) ->
  wp (rw_try b wr) Q w.
Proof.
  intros s q Hh Hu Hx Hb HQ1 HQ2. unfold rw_try. apply wp_bind. eapply wp_alloc3_desc; [done| |].
  - intros i0 i1 i2 fr Hfr. cbn [Z.eqb]. apply wp_bind.
    eapply (wp_rw_format (Chain b wr i0 i1 i2) x); [done|done|]. apply wp_ret.
    specialize (HQ1 i0 i1 i2 fr Hfr). destruct w as [m h e [q0 bs d p]]. unfold wq. simpl in *. by rewrite app_nil_r.
  - intros idx de fr evs Hl Hfr Hde. cbn [Z.eqb]. apply wp_bind, wp_park; [done|]. by apply wp_ret, HQ2.
Qed.

Lemma wp_rw_wait c ds x w (Q : segment -> world (vst D) -> Prop) :
  let s := w_st w in
  let q := v_disk s in
  w_held w = [L_disk] -> in_use (dfree q) (c_descs c ++ ds) -> chain_ok q (v_bufs s) c -> v_bufs s !! c_buf c = Some x ->
  (vb_disk x = 1 -> Q (Slept (ChDiskBuf (c_buf c)) (c_0 c)) (set_held [] w)) ->
  (forall de fr, vb_disk x <> 1 -> in_use fr ds -> same_desc ds (desc q) de ->
     Q (Returned 0) (set_held [] (wq w [EvWakeup ChDiskFree; EvWakeup ChDiskFree; EvWakeup ChDiskFree] (finished q c de fr)))) ->
  wp (rw_wait (c_buf c) (c_0 c)) Q w.
Proof.
  intros s q Hh Hu Hc Hx HQ1 HQ2. unfold rw_wait, vload. apply wp_bind, wp_bind, wp_get. fold s. rewrite Hx. apply wp_ret.
  destruct (Z.eqb_spec (vb_disk x) 1) as [E|E].
  - apply wp_bind, wp_park; [done|]. by apply wp_ret, HQ1.
  - apply wp_bind, wp_modify, wp_bind. eapply (wp_free_chain c q (v_bufs s) ds).
    + exact Hc.
    + done.
    + exact Hu.
    + intros de fr Hfr Hde. eapply wp_bind, (wp_release L_disk []); [exact Hh|set_solver|]. by apply wp_ret, HQ2.
Qed.

(** A round of the handler's loop. *)
Lemma wp_intr_round k b x w (Q : bool -> world (vst D) -> Prop) :
  let s := w_st w in
  let q := v_disk s in
  queue_ok q -> used_idx q <> dev_used_idx q -> k = nth (Z.to_nat (used_idx q mod NUM)) (fst <$> used_ring q) 0 -> 0 <= k < 8 ->
  info q !! Z.to_nat k = Some (Info (Some b) 0) -> v_bufs s !! b = Some x ->
  Q true (add_ev (EvWakeup (ChDiskBuf b)) (set_st (Vst (seen_one q) (alter (set_vdisk 0) b (v_bufs s)) (v_dev s) (v_phys s)) w)) ->
  wp intr_round Q w.
Proof.
  intros s q Hq Hne -> Hk Hi Hb HQ. unfold intr_round. apply wp_bind, wp_get. fold s q. rewrite (proj2 (Z.eqb_neq _ _) Hne).
  cbn [negb]. pose proof (Z.mod_pos_bound (used_idx q) NUM eq_refl) as Hm.
  destruct (lookup_lt_is_Some_2 (used_ring q) (Z.to_nat (used_idx q mod NUM))) as [e He].
  { rewrite (qk_used _ Hq). unfold NUM in *. lia. }
  rewrite nth_lookup, list_lookup_fmap, He in Hi, Hk. cbn in Hi, Hk.
  apply wp_bind. eapply wp_array; [by rewrite at_idx_inside by lia|]. apply wp_bind.
  rewrite i32_small by lia. eapply wp_array; [rewrite at_idx_inside by lia; exact Hi|]. cbn [in_status in_b Z.eqb negb].
  unfold vassign, vload. wp_steps. fold s. rewrite Hb. apply wp_ret. wp_steps. destruct w as [m h ev [q0 bs d p]]. exact HQ.
Qed.

(** ** Every action returns and keeps the invariant *)

Definition kept s (r : option (nat * thr) * handler) w : Prop :=
  let s' := Vsys (w_st w) (settle (w_evs w) (fst r) (vs_thr s)) (snd r) in
  inv s' /\ simulates s s'.

Lemma unlocked_true s : unlocked s = true -> vs_h s = HIdle /\ pubs (vs_thr s) = [].
Proof. unfold unlocked. by destruct (vs_h s), (pubs (vs_thr s)). Qed.

Lemma pubs_rest th (ths rest : list thr) : ths ≡ₚ th :: rest -> pubs ths = [] -> pubs rest = [].
Proof.
  unfold pubs. intros E H. pose proof (Permutation_length (omap_Permutation pub_of _ _ E)) as Hl. rewrite H, omap_cons in Hl.
  apply nil_length_inv. destruct (pub_of th); simpl in *; lia.
Qed.

Lemma kept_perm s t th th' rest h w :
  let v' := view (v_dev (w_st w)) in
  vs_thr s !! t = Some th -> settle (w_evs w) (Some (t, th')) (vs_thr s) ≡ₚ th' :: rest ->
  dv_sectors v' = dv_sectors (view (v_dev (vs_st s))) -> bufdata <$> v_bufs (w_st w) = bufdata <$> v_bufs (vs_st s) ->
  (forall c, c ∈ omap wait_of (vs_thr s) -> c_0 c ∈ unserved (v_disk (w_st w)) v' <-> c_0 c ∈ waiting s) ->
  moved s (abs_thr (waiting s) th) (abs_thr (unserved (v_disk (w_st w)) v') th') ->
  inv_on (v_disk (w_st w)) (v_bufs (w_st w)) v' (th' :: rest) h ->
  kept s (Some (t, th'), h) w.
Proof.
  intros v' Ht E Hs Hb Hu Hm H. split; [|by eapply simulates_settle]. unfold inv. cbn [fst snd vs_st vs_thr vs_h]. by rewrite E.
Qed.

(** [ACall] and [ARetry]. *)
Lemma try_kept m s t th b wr rest :
  inv s -> unlocked s = true -> vs_thr s !! t = Some th -> vs_thr s ≡ₚ th :: rest ->
  (forall evs th', settle evs (Some (t, th')) (vs_thr s) ≡ₚ th' :: (wake evs <$> rest)) ->
  asks (v_bufs (vs_st s)) b wr rest th ->
  wp (acquire L_disk;; r ← rw_try b wr; mret (Some (t, tried b wr r), vs_h s)) (kept s) (World m [] [] (vs_st s)).
Proof.
  intros I Hun Ht E Hset Ha. destruct (unlocked_true s Hun) as [Hh Hp]. unfold inv in I. rewrite Hh in I.
  pose proof (flight_few I) as Hfew. apply (inv_on_perm _ _ _ _ _ _ E) in I.
  destruct (inv_asks _ _ _ _ _ _ _ _ I Ha) as (I' & _ & [x Hx]). apply wp_bind, wp_acquire; [set_solver|].
  assert (Hm : moved s (abs_thr (waiting s) th) (SAsked b wr)).
  { destruct Ha as [Hn Hb|]; [|constructor]. apply moved_ask. by rewrite E. }
  apply wp_bind. eapply (wp_rw_try b wr (omap chain_of rest ≫= c_descs) x); [done|apply I'|done| | |].
  - apply (i_blocks _ _ _ _ _ I _ _ Hx).
  - intros i0 i1 i2 fr c Hfr. apply wp_ret. rewrite Hh. eapply kept_perm; [exact Ht|apply Hset|done| | |exact Hm|].
    + by apply bufdata_alter.
    + intros c' _. unfold waiting, unserved. cbn -[view offered]. unfold offered at 1. cbn [avail_ring avail_idx formatted with_tables set_desc set_dfree].
      rewrite offered_store; [done|]. unfold unserved in Hfew. rewrite length_app in Hfew. unfold NUM. lia.
    + eapply inv_woken; [constructor; [apply woken_refl|apply Forall2_woken]|].
      by apply (inv_try_ok _ _ _ th rest fr c x); [done|done|eapply pubs_rest|..].
  - intros de fr evs Hl Hfr Hde. apply wp_ret. rewrite Hh. eapply kept_perm; [exact Ht|apply Hset|done|done|done|exact Hm|].
    eapply inv_woken; [constructor; [apply woken_refl|apply Forall2_woken]|]. by eapply inv_try_fail.
Qed.

Lemma publish_kept m s t c : inv s -> vs_thr s !! t = Some (TPub c) ->
  wp (r ← rw_publish (c_buf c) (c_0 c); mret (Some (t, waited c r), vs_h s)) (kept s) (World m [L_disk] [] (vs_st s)).
Proof.
  intros I0 Ht. unfold rw_publish. apply wp_bind, wp_bind, wp_modify, wp_bind, wp_modify.
  destruct (settle_perm t _ _ Ht) as (rest & E & Hset). pose proof I0 as I. unfold inv in I. apply (inv_on_perm _ _ _ _ _ _ E) in I.
  pose proof (inv_publish _ _ _ _ _ _ I) as I'. pose proof I' as [H1 H2 H3 _ _ _ _ _ _ _ _ H12 _ _].
  rewrite omap_cons in H2, H3. cbn [chain_of] in H2, H3. rewrite bind_cons in H2. apply Forall_inv in H3.
  destruct (H12 c ltac:(left)) as (x & Hx & Hd).
  assert (Hoff : unserved (published (v_disk (vs_st s))) (view (v_dev (vs_st s))) =
    (offered (v_disk (vs_st s)) (view (v_dev (vs_st s))) ++ [c_0 c]) ++ dv_pending (view (v_dev (vs_st s)))).
  { unfold unserved. f_equal. apply (inv_offered _ _ _ _ _ _ I). }
  eapply (wp_rw_wait c (omap chain_of rest ≫= c_descs) x); [done|exact H2|exact H3|exact Hx| |by intros].
  intros _. apply wp_ret. eapply kept_perm; [exact Ht|apply Hset|..]; cbn -[view unserved]; rewrite ?other_write by done; [done|done| | |].
  - intros c' Hc'. fold (published (v_disk (vs_st s))). rewrite Hoff. unfold waiting, unserved. rewrite !elem_of_app, list_elem_of_singleton.
    assert (c_0 c' <> c_0 c); [|naive_solver]. intros Eh.
    apply list_elem_of_omap in Hc' as (th' & [t' Ht']%list_elem_of_lookup & Hth'). destruct th' as [| | |c'' aw]; try done.
    injection Hth' as ->. assert (t' = t) as ->; [|congruence].
    apply (nodup_chains _ _ _ _ _ t' t c' c (c_0 c) I0); rewrite ?Ht, ?Ht'; try done; [rewrite <- Eh|]; left.
  - fold (published (v_disk (vs_st s))). rewrite Hoff, decide_True by set_solver. constructor.
  - eapply inv_woken; [constructor; [apply woken_refl|apply Forall2_woken]|]. exact I'.
Qed.

Lemma resume_kept m s t c : inv s -> unlocked s = true -> vs_thr s !! t = Some (TWait c true) ->
  wp (acquire L_disk;; r ← rw_wait (c_buf c) (c_0 c); mret (Some (t, waited c r), vs_h s)) (kept s) (World m [] [] (vs_st s)).
Proof.
  intros I0 Hun Ht. apply wp_bind, wp_acquire; [set_solver|]. apply wp_bind.
  destruct (settle_perm t _ _ Ht) as (rest & E & Hset). pose proof I0 as I. unfold inv in I. apply (inv_on_perm _ _ _ _ _ _ E) in I.
  pose proof I as [H1 H2 H3 _ H5 _ _ _ _ _ _ _ _ _]. rewrite omap_cons in H2, H3. cbn [chain_of] in H2, H3.
  rewrite bind_cons in H2. apply Forall_inv in H3. destruct (H5 (c_buf c)) as [x Hx]; [rewrite omap_cons; left|].
  eapply (wp_rw_wait c (omap chain_of rest ≫= c_descs) x); [done|exact H2|exact H3|exact Hx| |].
  - intros Hd. apply wp_ret. eapply kept_perm; [exact Ht|apply Hset|done|done|done|apply moved_not|].
    eapply inv_woken; [constructor; [apply woken_refl|apply Forall2_woken]|]. eapply inv_sleep; [exact I|by exists x].
  - intros de fr Hd Hfr Hde. assert (Hnf : ~ flagged (v_bufs (vs_st s)) c).
    { intros (y & Hy & Hy1). pose proof (eq_trans (eq_sym Hx) Hy) as [= ->]. done. }
    apply wp_ret. eapply kept_perm; [exact Ht|apply Hset|done|done|done| |].
    + cbn [waited abs_thr]. rewrite decide_False; [constructor|]. intros Hin.
      destruct (flight_in I0 (c_0 c)) as (c' & Hc' & Hf' & Eh); [by apply elem_of_app; left|].
      assert (c' = c) as ->; [|done]. apply (chain_desc_eq I0 c' c (c_0 c)); [by apply wait_chain| |rewrite <- Eh; left|left].
      apply list_elem_of_omap. exists (TWait c true). split; [by eapply list_elem_of_lookup_2|done].
    + eapply inv_return; [exact I|exact Hnf|exact Hfr|exact Hde|left].
Qed.

(** The handler. *)
Lemma wp_R_read r w (Q : Z -> world (vst D) -> Prop) :
  (forall d, view d = view (v_dev (w_st w)) -> Q (u32 (fst (reg_read r (v_dev (w_st w))))) (set_st (upd_dev (fun _ => d) (w_st w)) w)) ->
  wp (R_read r) Q w.
Proof.
  intros HQ. unfold R_read. apply wp_bind, wp_get. specialize (HQ (snd (reg_read r (v_dev (w_st w)))) (read_view _ _)).
  destruct (reg_read r (v_dev (w_st w))) as [x d]. by apply wp_bind, wp_put, wp_ret.
Qed.

Lemma kept_none s h w :
  let v' := view (v_dev (w_st w)) in
  inv_on (v_disk (w_st w)) (v_bufs (w_st w)) v' (wake (w_evs w) <$> vs_thr s) h ->
  dv_sectors v' = dv_sectors (view (v_dev (vs_st s))) -> bufdata <$> v_bufs (w_st w) = bufdata <$> v_bufs (vs_st s) ->
  unserved (v_disk (w_st w)) v' = waiting s ->
  kept s (None, h) w.
Proof.
  intros v' H Hs Hb Hu. split; [done|]. apply simulates_same; [done|done|by eexists|]. intros c _. cbn [w_st]. fold v'. by rewrite Hu.
Qed.

Lemma intr_kept m s : inv s -> unlocked s = true ->
  wp (v ← intr_status; mret (None, HRead v)) (kept s) (World m [] [] (vs_st s)).
Proof.
  intros I Hun. destruct (unlocked_true s Hun) as [Hh Hp]. apply wp_bind. unfold intr_status.
  apply wp_bind, wp_acquire; [set_solver|]. apply wp_R_read. intros d Hd. apply wp_ret, kept_none; cbn -[view unserved] in *; rewrite ?Hd; try done.
  eapply inv_woken; [apply Forall2_woken|]. by eapply inv_handler.
Qed.

Lemma ack_kept m s v : inv s -> vs_h s = HRead v ->
  wp (intr_ack v;; mret (None, HLoop)) (kept s) (World m [L_disk] [] (vs_st s)).
Proof.
  intros I Hh. apply wp_bind, wp_modify, wp_ret, kept_none; cbn -[view unserved]; rewrite ?ack_write; try done.
  eapply inv_woken; [apply Forall2_woken|]. unfold inv in I. rewrite Hh in I. apply inv_irq; [|done]. eapply inv_handler; [exact I| |done].
  destruct (pubs (vs_thr s)) eqn:E; [done|]. pose proof (i_lock_h _ _ _ _ _ I) as H. rewrite E in H. by specialize (H ltac:(simpl; lia)).
Qed.

Lemma round_kept m s : inv s -> vs_h s = HLoop ->
  wp (more ← intr_round; mret (None, if (more : bool) then HLoop else HIdle)) (kept s) (World m [L_disk] [] (vs_st s)).
Proof.
  intros I Hh. unfold inv in I. rewrite Hh in I. apply wp_bind. pose proof (i_queue _ _ _ _ _ I) as Hq.
  destruct (decide (used_idx (v_disk (vs_st s)) = dev_used_idx (v_disk (vs_st s)))) as [E|E].
  - unfold intr_round. apply wp_bind, wp_get. cbn [w_st]. rewrite E, Z.eqb_refl. cbn [negb].
    eapply wp_bind, (wp_release L_disk []); [done|set_solver|]. apply wp_ret, wp_ret, kept_none; try done.
    eapply inv_woken; [apply Forall2_woken|]. eapply inv_handler; [exact I| |by intros; apply answered_nil].
    destruct (pubs (vs_thr s)) eqn:Ep; [done|]. pose proof (i_lock_h _ _ _ _ _ I) as H. rewrite Ep in H. by specialize (H ltac:(simpl; lia)).
  - pose proof (answered_pop _ Hq E) as Ha.
    destruct (inv_round _ _ _ _ _ _ _ I ltac:(done) Ha eq_refl) as (c & Hi & Hk & [x Hx] & I').
    eapply (wp_intr_round _ (c_buf c) x); [done|done|done|done|done|done|]. apply wp_ret, kept_none; [exact I'|done|by apply bufdata_alter|done].
Qed.

Lemma act_kept m s a held p : inv s -> act a s = Some (held, p) -> wp p (kept s) (World m held [] (vs_st s)).
Proof.
  intros I. destruct a as [t b wr|t|t|t| | |]; cbn [act].
  - destruct (vs_thr s !! t) as [[| | |]|] eqn:Ht; try done. destruct (unlocked s) eqn:Hun; [|done].
    destruct (busy s b) eqn:Hb; [done|]. case_bool_decide as Hin; [|done]. intros [= <- <-].
    destruct (settle_perm t _ _ Ht) as (rest & E & Hset). eapply try_kept; [done|done|done|done|done|].
    constructor; [|done]. unfold busy in Hb. apply bool_decide_eq_false in Hb. by rewrite E in Hb.
  - destruct (vs_thr s !! t) as [[|b wr []| |]|] eqn:Ht; try done. destruct (unlocked s) eqn:Hun; [|done]. intros [= <- <-].
    destruct (settle_perm t _ _ Ht) as (rest & E & Hset). eapply try_kept; [done|done|done|done|done|]. constructor.
  - destruct (vs_thr s !! t) as [[| | c|]|] eqn:Ht; try done. intros [= <- <-]. by apply publish_kept.
  - destruct (vs_thr s !! t) as [[| | |c []]|] eqn:Ht; try done. destruct (unlocked s) eqn:Hun; [|done]. intros [= <- <-].
    by apply resume_kept.
  - destruct (unlocked s) eqn:Hun; [|done]. intros [= <- <-]. by apply intr_kept.
  - destruct (vs_h s) as [|v|] eqn:Hh; try done. intros [= <- <-]. by apply ack_kept.
  - destruct (vs_h s) eqn:Hh; try done. intros [= <- <-]. by apply round_kept.
Qed.

(** ** The device *)

Lemma device_kept d q bs d' q' bs' ths h :
  dev_step d q bs d' q' bs' -> inv_on q bs (view d) ths h -> inv_on q' bs' (view d') ths h.
Proof.
  intros Hd%step_spec I. inversion Hd as [i Hi Ev|Hne Ev|l1 k l2 r len Hp Hr Hs1 Hs2 Ev|k v' q0 bs0 Hk Hm]; subst.
  - by apply inv_irq.
  - apply inv_take; [done|apply seen_range|done].
  - eapply inv_serve; [done|apply sector_size|done|done].
  - destruct (inv_request _ _ _ _ _ k I Hk) as (c & x & _ & _ & _ & _ & Hr & Hb & Hc). rewrite Hr in Hm. destruct Hm. by split.
Qed.

Lemma vstep_inv m s s' : vstep m s s' -> inv s -> inv s'.
Proof.
  intros Hst I. destruct Hst as [s a held p r h w' Ha Hp|q bs d ph ths h d' q' bs' Hd|q bs d ph ths h b blockno data Hb Hin Hok Hl|st ths h evs].
  - pose proof (act_kept m s a held p I Ha) as Hk. unfold wp in Hk. rewrite Hp in Hk. apply Hk.
  - eapply device_kept; [exact Hd|exact I].
  - apply inv_client; [exact I| |done|done]. by apply bool_decide_eq_false in Hb.
  - eapply inv_woken; [apply Forall2_woken|exact I].
Qed.

(** ** The device answers a request *)

Lemma blocks_put f n d m : length d = Z.to_nat BSIZE ->
  get_sectors (put_sectors f (2 * n) d) (2 * m) = fupd (fun k => get_sectors f (2 * k)) n d m.
Proof.
  intros Hd. unfold get_sectors, put_sectors. destruct (decide (m = n)) as [->|Hne].
  - rewrite !fupd_same, (fupd_other _ (2 * n + 1) _ (2 * n)), fupd_same by lia. apply take_drop.
  - by rewrite !fupd_other by lia.
Qed.

(** The process whose chain is answered has been served, for the others
    nothing changes. *)
Lemma served_thr q bs v ths h l1 l2 t c aw u' :
  inv_on q bs v ths h -> dv_pending v = l1 ++ c_0 c :: l2 -> ths !! t = Some (TWait c aw) ->
  u' = offered q v ++ l1 ++ l2 ->
  abs_thr u' <$> ths = <[t := SServed (c_buf c) (c_write c)]> (abs_thr (unserved q v) <$> ths).
Proof.
  intros I Hp Ht ->. pose proof (flight_nodup _ _ _ _ _ I) as [Hn _]%NoDup_app. unfold unserved in *. rewrite Hp in *.
  assert (E : offered q v ++ l1 ++ c_0 c :: l2 ≡ₚ c_0 c :: offered q v ++ l1 ++ l2).
  { rewrite !app_assoc. symmetry. apply Permutation_middle. }
  rewrite E in Hn. apply NoDup_cons in Hn as [Hni _]. apply list_eq. intros i. destruct (decide (i = t)) as [->|Hne].
  - rewrite list_lookup_insert_eq by (rewrite length_fmap; by eapply lookup_lt_Some).
    rewrite list_lookup_fmap, Ht. cbn. by rewrite decide_False.
  - rewrite list_lookup_insert_ne, !list_lookup_fmap by done. destruct (ths !! i) as [th|] eqn:Hi; [|done]. cbn. f_equal.
    destruct th as [| | |c' aw']; try done. cbn. assert (c_0 c' <> c_0 c).
    { intros Eh. apply Hne. apply (nodup_chains _ _ _ _ _ i t c' c (c_0 c) I); rewrite ?Hi, ?Ht; try done; [rewrite <- Eh|]; left. }
    assert (Hiff : c_0 c' ∈ offered q v ++ l1 ++ l2 <-> c_0 c' ∈ offered q v ++ l1 ++ c_0 c :: l2)
      by (rewrite E, (elem_of_cons _ (c_0 c')); naive_solver).
    repeat case_decide; naive_solver.
Qed.

Lemma serve_simulates q bs v ths h l1 k l2 r len :
  inv_on q bs v ths h -> dv_pending v = l1 ++ k :: l2 -> request_at q k = Some r ->
  let v' := View (dv_seen v) (l1 ++ l2) true (served_sectors r bs (dv_sectors v)) (dv_capacity v) in
  spec_step (Spec (blocks v) (bufdata <$> bs) (abs_thr (unserved q v) <$> ths))
    (Spec (blocks v') (bufdata <$> served_bufs r (dv_sectors v) bs) (abs_thr (unserved (served r k len q) v') <$> ths)).
Proof.
  intros I Hp Hr v'. destruct (inv_request _ _ _ _ _ k I) as (c & x & Hc & Hf & Ek & Hx & Hr' & _); [rewrite Hp; set_solver|].
  rewrite Hr' in Hr. injection Hr as <-. apply list_elem_of_omap in Hc as (th & [t Ht]%list_elem_of_lookup & Hth).
  destruct th as [| | |c' aw]; try done. injection Hth as ->.
  assert (Hthr : abs_thr (unserved (served (Request (c_write c) (2 * vb_blockno x) (c_buf c) k) k len q) v') <$> ths =
    <[t := SServed (c_buf c) (c_write c)]> (abs_thr (unserved q v) <$> ths)).
  { subst k. eapply (served_thr q bs v ths h l1 l2); [exact I|exact Hp|exact Ht|reflexivity]. }
  rewrite Hthr.
  assert (Htr : bufdata <$> served_bufs (Request (c_write c) (2 * vb_blockno x) (c_buf c) k) (dv_sectors v) bs =
    snd (transfer (c_write c) (c_buf c) (blocks v) (bufdata <$> bs))).
  { unfold served_bufs, transfer. rewrite list_lookup_fmap, Hx. cbn [fmap option_fmap option_map bufdata r_write r_buf r_sector].
    destruct (c_write c); [done|]. cbn [snd]. apply list_eq. intros i. rewrite list_lookup_fmap. destruct (decide (i = c_buf c)) as [->|].
    - rewrite list_lookup_alter_eq, Hx, list_lookup_insert_eq; [done|]. rewrite length_fmap. by eapply lookup_lt_Some.
    - by rewrite list_lookup_alter_ne, list_lookup_insert_ne, list_lookup_fmap. }
  rewrite Htr. apply sp_transfer.
  - rewrite list_lookup_fmap, Ht. cbn. rewrite decide_True; [done|]. rewrite Ek. unfold unserved. rewrite Hp. set_solver.
  - intros n. unfold transfer. rewrite list_lookup_fmap, Hx. cbn. unfold served_sectors. cbn. rewrite Hx. destruct (c_write c); [|done].
    cbn. unfold blocks at 1. cbn. apply blocks_put. apply (i_blocks _ _ _ _ _ I _ _ Hx).
Qed.
Lemma device_simulates d q bs d' q' bs' ph ths h :
  dev_step d q bs d' q' bs' -> inv_on q bs (view d) ths h ->
  simulates (Vsys (Vst q bs d ph) ths h) (Vsys (Vst q' bs' d' ph) ths h).
Proof.
  intros Hd%step_spec I. remember (view d') as v' eqn:Hv'.
  inversion Hd as [i Hi Ev|Hne Ev|l1 k l2 r len Hp Hr Hs1 Hs2 Ev|k v0 q0 bs0 Hk Hm]; subst q' bs'.
  - apply simulates_same; cbn; rewrite <- ?Hv', <- ?Ev; try done. by exists []; rewrite wake_nil.
  - apply simulates_same; cbn; rewrite <- ?Hv', <- ?Ev; try done; [by exists []; rewrite wake_nil|].
    intros c _. unfold waiting, unserved. cbn. rewrite (offered_pop q (view d)) by (apply I || apply seen_range || done).
    unfold offered. cbn. set_solver.
  - right. unfold abs, waiting. cbn. rewrite <- Hv', <- Ev. by eapply serve_simulates.
  - destruct (inv_request _ _ _ _ _ k I Hk) as (c & x & _ & _ & _ & _ & Hr & Hb & Hc). rewrite Hr in Hm. destruct Hm. by split.
Qed.

Lemma vstep_simulates m s s' : vstep m s s' -> inv s -> simulates s s'.
Proof.
  intros Hst I. destruct Hst as [s a held p r h w' Ha Hp|q bs d ph ths h d' q' bs' Hd|q bs d ph ths h b blockno data Hb [x Hx] Hok Hl|st ths h evs].
  - pose proof (act_kept m s a held p I Ha) as Hk. unfold wp in Hk. rewrite Hp in Hk. apply Hk.
  - by apply device_simulates.
  - right. unfold abs, waiting. cbn. replace (bufdata <$> alter _ b bs) with (<[b := (blockno, data)]> (bufdata <$> bs)).
    + apply sp_client. rewrite abs_thr_buf. by apply bool_decide_eq_false in Hb.
    + apply list_eq. intros i. rewrite list_lookup_fmap. destruct (decide (i = b)) as [->|].
      * rewrite list_lookup_alter_eq, Hx, list_lookup_insert_eq; [done|]. rewrite length_fmap. by eapply lookup_lt_Some.
      * by rewrite list_lookup_alter_ne, list_lookup_insert_ne, list_lookup_fmap.
  - apply simulates_same; [done|done|by exists evs|done].
Qed.

(** All steps of a run. *)
Lemma run_refines m s s' : rtc (vstep m) s s' -> inv s -> inv s' /\ rtc spec_step (abs s) (abs s').
Proof.
  induction 1 as [s|s s1 s2 Hst _ IH]; intros I; [by split|].
  destruct (IH (vstep_inv m s s1 Hst I)) as [I2 Hr]. split; [done|].
  destruct (vstep_simulates m s s1 Hst I) as [E|Hs]; [by rewrite <- E|by eapply rtc_l].
Qed.

(** The states the system can reach after [virtio_disk_init], with [n]
    processes. *)
Definition reachable (m : me) (st0 : vst D) (n : nat) s : Prop :=
  bss_disk (v_disk st0) /\
  (forall b x, v_bufs st0 !! b = Some x ->
     block_ok (dv_capacity (view (v_dev st0))) (vb_blockno x) /\ length (vb_data x) = Z.to_nat BSIZE) /\
  exists w, virtio_disk_init (World m [] [] st0) = Ok () w /\
    rtc (vstep m) (Vsys (w_st w) (replicate n TIdle) HIdle) s.

Definition initial (st0 : vst D) (n : nat) : spec :=
  Spec (blocks (view (v_dev st0))) (bufdata <$> v_bufs st0) (replicate n SIdle).

Lemma reachable_inv m st0 n s : reachable m st0 n s -> inv s /\ rtc spec_step (initial st0 n) (abs s).
Proof.
  intros (Hb & Hbs & w & Hw & Hrun). pose proof (wlp_elim _ _ _ _ _ (wlp_virtio_disk_init (World m [] [] st0) Hb) Hw) as ([pg Hq] & Hbufs & Hv).
  cbn [w_st] in *. destruct (run_refines m _ s Hrun) as [I Hr].
  - unfold inv. cbn [vs_st vs_thr vs_h]. rewrite Hq, Hbufs, Hv. by apply inv_boot.
  - split; [done|]. replace (initial st0 n) with (abs (Vsys (w_st w) (replicate n TIdle) HIdle)); [done|].
    unfold abs, initial, blocks. cbn [vs_st vs_thr]. rewrite Hbufs, Hv. f_equal. by rewrite fmap_replicate.
Qed.


(** Work that is left for the handler or the device. *)
Definition device_busy s : Prop :=
  dv_pending (view (v_dev (vs_st s))) <> [] \/ dv_seen (view (v_dev (vs_st s))) <> avail_idx (v_disk (vs_st s)).
Definition handler_due s : Prop := vs_h s <> HIdle \/ dv_irq (view (v_dev (vs_st s))) = true.

Definition runnable (th : thr) : Prop :=
  match th with TFree _ _ aw => aw = true | TPub _ => True | TWait _ aw => aw = true | TIdle => False end.

Lemma inv_waits s c : inv s -> TWait c false ∈ vs_thr s -> device_busy s \/ handler_due s.
Proof.
  intros I Hin. pose proof (i_asleep _ _ _ _ _ I c Hin) as Hf.
  assert (Hc : c ∈ omap wait_of (vs_thr s)) by (apply list_elem_of_omap; by exists (TWait c false)).
  pose proof (flight_of I c Hc Hf) as [[Ho|Hp]%elem_of_app|Ha]%elem_of_app.
  - left. right. intros E. unfold offered, gap16 in Ho. rewrite E in Ho. unfold ahead in Ho. rewrite Z.sub_diag in Ho.
    cbn in Ho. by apply elem_of_nil in Ho.
  - left. left. intros E. rewrite E in Hp. by apply elem_of_nil in Hp.
  - right. destruct (vs_h s) eqn:Hh; [|by left; rewrite Hh|by left; rewrite Hh]. right. apply (i_irq _ _ _ _ _ I); [done|].
    intros E. rewrite E in Ha. by apply elem_of_nil in Ha.
Qed.

(** C29: nobody sleeps for ever in the disk driver.  When a process sleeps, for
    its buffer or for descriptors, the device has a request to work on, the
    handler is running or its interrupt is signalled, or another process of
    the driver can run.  In particular no interrupt is lost between the
    acknowledgement and the end of the handler's loop. *)
Theorem virtio_no_lost_wakeup m st0 n s t th :
  reachable m st0 n s -> vs_thr s !! t = Some th -> th <> TIdle ->
  device_busy s \/ handler_due s \/ exists t' th', vs_thr s !! t' = Some th' /\ runnable th'.
Proof.
  intros [I _]%reachable_inv Ht Hne.
  assert (Hch : forall th', th' ∈ vs_thr s -> is_Some (chain_of th') ->
    device_busy s \/ handler_due s \/ exists t' th', vs_thr s !! t' = Some th' /\ runnable th').
  { intros th' Hin [c Hc]. pose proof Hin as [t' Ht']%list_elem_of_lookup. destruct th' as [|?|c'|c' []]; try done.
    - right. right. by exists t', (TPub c').
    - right. right. by exists t', (TWait c' true).
    - destruct (inv_waits s c' I Hin); auto. }
  destruct th as [|b wr []|c|c aw]; [done| | | |].
  - right. right. by exists t, (TFree b wr true).
  - pose proof (i_starved _ _ _ _ _ I b wr ltac:(by eapply list_elem_of_lookup_2)) as Hl.
    destruct (omap chain_of (vs_thr s)) as [|c cs] eqn:E; [simpl in Hl; lia|].
    assert (Hc : c ∈ omap chain_of (vs_thr s)) by (rewrite E; left). apply list_elem_of_omap in Hc as (th' & Hin & Hth').
    by apply (Hch th').
  - apply (Hch (TPub c)); [by eapply list_elem_of_lookup_2|done].
  - apply (Hch (TWait c aw)); [by eapply list_elem_of_lookup_2|done].
Qed.
End steps.

(** ** Witnesses: a device that answers at once *)

#[local] Existing Instance ex_symbols.
#[local] Existing Instance ex_symbols_ok.

Definition ex_view (d : dview) : dview :=
  View (u16 (dv_seen d)) (dv_pending d) (dv_irq d)
    (fun s => if decide (length (dv_sectors d s) = 512%nat) then dv_sectors d s else repeat 0 512) (dv_capacity d).

#[local] Instance ex_disk : VirtioDev dview := {
  reg_read r d :=
    (if r =? VIRTIO_MMIO_MAGIC_VALUE then 0x74726976
     else if r =? VIRTIO_MMIO_VERSION then 2
     else if r =? VIRTIO_MMIO_DEVICE_ID then 2
     else if r =? VIRTIO_MMIO_VENDOR_ID then 0x554d4551
     else if r =? VIRTIO_MMIO_STATUS then VIRTIO_CONFIG_S_FEATURES_OK
     else if r =? VIRTIO_MMIO_QUEUE_NUM_MAX then 1024
     else if r =? VIRTIO_MMIO_INTERRUPT_STATUS then (if dv_irq d then 1 else 0)
     else 0, d);
  reg_write r x d :=
    if r =? VIRTIO_MMIO_INTERRUPT_ACK then
      View (dv_seen d) (dv_pending d) (dv_irq d && negb (Z.testbit x 0)) (dv_sectors d) (dv_capacity d)
    else if (r =? VIRTIO_MMIO_STATUS) && (x =? 0) then View 0 [] false (dv_sectors d) (dv_capacity d)
    else d;
  dev_step d q bs d' q' bs' := dev_may (ex_view d) q bs (ex_view d') q' bs' }.

#[local] Instance ex_disk_laws : VirtioLaws dview.
Proof.
  refine {| view := ex_view |}.
  - intros d. apply Z.mod_pos_bound. lia.
  - intros d s. unfold ex_view. cbn [dv_sectors]. by case_decide; [|rewrite repeat_length].
  - done.
  - intros d. cbn. by destruct (dv_irq d).
  - done.
  - done.
  - intros r x d Hr Hs. cbn. rewrite (proj2 (Z.eqb_neq _ _) Hr). destruct (Z.eqb_spec r VIRTIO_MMIO_STATUS) as [->|]; [|done].
    by rewrite (proj2 (Z.eqb_neq _ _) (Hs eq_refl)).
  - done.
Defined.

(** A machine with three free pages and one buffer, for block 7. *)
Definition ex_page (k : Z) : Z := PHYSTOP - k * 4096.
Definition ex_mem3 : memory := store64 (store64 (fun _ => 0) (ex_page 1) (ex_page 2)) (ex_page 2) (ex_page 3).
Definition ex_queue : vdisk :=
  Disk [] 0 [] 0 [] (repeat 0 8) 0 (repeat (Info None 0) 8) (repeat (Req 0 0 0) 8) (0, 0, 0).
Definition ex_data : list Z := repeat 3 1024.
Definition ex_st : vst dview :=
  Vst ex_queue [Vbuf 7 ex_data 0] (View 5 [3] true (fun s => repeat s 512) 2000) (Phys ex_mem3 (ex_page 1)).

Lemma ex_kmem3 : kmem_ok (v_phys ex_st) [ex_page 1; ex_page 2; ex_page 3].
Proof.
  split; [|apply (bool_decide_unpack _); by vm_compute].
  repeat (split; [by vm_compute|split; [repeat split; by vm_compute|]]). by vm_compute.
Qed.

Lemma ex_usable : usable_disk (D := dview).
Proof. intros d. split_and!; by vm_compute. Qed.

Lemma ex_blocks b x : v_bufs ex_st !! b = Some x ->
  block_ok (dv_capacity (view (v_dev ex_st))) (vb_blockno x) /\ length (vb_data x) = Z.to_nat BSIZE.
Proof.
  destruct b as [|[|b]]; cbn [v_bufs ex_st lookup list_lookup]; [|discriminate|discriminate]. intros [= <-]. split.
  - unfold block_ok. cbn [vb_blockno v_dev ex_st view dv_capacity ex_disk_laws ex_view]. lia.
  - apply repeat_length.
Qed.

(** After the initialisation a process has called [virtio_disk_rw]. *)
Lemma ex_reachable : exists s th, reachable (Me 0 1 0 0) ex_st 1 s /\ vs_thr s !! 0%nat = Some th /\ th <> TIdle.
Proof.
  set (m := Me 0 1 0 0).
  destruct (virtio_disk_init_returns m ex_queue (v_bufs ex_st) (v_dev ex_st) (v_phys ex_st) (ex_page 1) (ex_page 2) (ex_page 3) []
    ex_usable ex_kmem3) as [w Hw].
  assert (Hb : bss_disk ex_queue) by (by split).
  assert (Hbs : forall b x, v_bufs ex_st !! b = Some x ->
    block_ok (dv_capacity (view (v_dev ex_st))) (vb_blockno x) /\ length (vb_data x) = Z.to_nat BSIZE)
    by exact ex_blocks.
  set (s0 := Vsys (w_st w) [TIdle] HIdle). assert (R0 : reachable m ex_st 1 s0) by (split; [done|split; [done|exists w; by split]]).
  pose proof (wlp_elim _ _ _ _ _ (wlp_virtio_disk_init (World m [] [] ex_st) Hb) Hw) as (_ & Hbufs & _). cbn [w_st] in Hbufs.
  assert (Ha : act (ACall 0 0 true) s0 = Some ([], acquire L_disk;; r ← rw_try 0 true; mret (Some (0%nat, tried 0 true r), HIdle))).
  { cbn -[rw_try]. by rewrite Hbufs. }
  destruct (wp_elim _ _ _ (act_kept m s0 _ _ _ (proj1 (reachable_inv _ _ _ _ R0)) Ha)) as ([r h] & w' & Hr & _).
  assert (Hres : wlp (acquire L_disk;; r ← rw_try 0 true; mret (Some (0%nat, tried 0 true r), HIdle))
    (fun r _ => exists x, fst r = Some (0%nat, tried 0 true x)) (World m [] [] (vs_st s0))).
  { apply wlp_bind, wlp_acquire, wlp_bind. unfold wlp. destruct (rw_try 0 true _); [by eexists|done..]. }
  destruct (wlp_elim _ _ _ _ _ Hres Hr) as [x Hx]. cbn in Hx. subst r.
  exists (Vsys (w_st w') (settle (w_evs w') (Some (0%nat, tried 0 true x)) [TIdle]) h), (tried 0 true x). split_and!; [|done|by destruct x as [[[]]|]].
  split; [done|split; [done|exists w; split; [done|]]]. eapply rtc_l; [|apply rtc_refl]. exact (v_act m s0 _ _ _ _ _ _ Ha Hr).
Qed.


Lemma virtio_no_lost_wakeup_witness : exists s, reachable (Me 0 1 0 0) ex_st 1 s /\
  (device_busy s \/ handler_due s \/ exists t' th', vs_thr s !! t' = Some th' /\ runnable th').
Proof.
  destruct ex_reachable as (s & th & Hs & Ht & Hne). exists s. split; [exact Hs|].
  exact (virtio_no_lost_wakeup (Me 0 1 0 0) ex_st 1 s 0 th Hs Ht Hne).
Defined.
