(* ===== verification/Proc.v ===== *)
(** kernel/proc.c: the process table, creating and ending processes, sleeping
    and waking, and the page tables of processes.  [kvmmake] of kernel/vm.c is
    here too, since it maps the kernel stacks.

    The code gives up the CPU in [sched].  A routine that calls it is modelled
    by two definitions: the part up to the switch, and the part after the
    process was chosen again. *)

From S2P Require Import Prelude Bytes KMonad Kstring Riscv Kalloc Vm Fs Printf.

Definition NPROC : nat := 64.
Definition PROC_NOFILE : nat := 16.
Definition NAMELEN : nat := 16.

(** Addresses of kernel code the process structures refer to. *)
Class TextSyms := {
  sym_forkret : Z;
  sym_usertrap : Z;
  sym_kernelvec : Z;
  sym_uservec : Z;
  sym_userret : Z }.

Inductive procstate := UNUSED | USED | SLEEPING | RUNNABLE | RUNNING | ZOMBIE.

#[global] Instance procstate_eq_dec : EqDecision procstate.
Proof. solve_decision. Defined.

(** [struct proc]; its lock is [L_proc p] for the entry [p] of the table.  A
    null pointer to a process, a file or an inode is [None]. *)
Record proc := Proc {
  pr_state : procstate;
  pr_chan : option wchan;
  pr_killed : Z;
  pr_xstate : Z;
  pr_pid : Z;
  pr_parent : option nat;
  pr_kstack : Z;
  pr_sz : Z;
  pr_pagetable : Z;
  pr_trapframe : Z;
  pr_context : list Z;
  pr_ofile : list (option nat);
  pr_cwd : option nat;
  pr_name : list Z }.

Definition set_state (x : procstate) (p : proc) : proc :=
  Proc x (pr_chan p) (pr_killed p) (pr_xstate p) (pr_pid p) (pr_parent p) (pr_kstack p) (pr_sz p) (pr_pagetable p)
    (pr_trapframe p) (pr_context p) (pr_ofile p) (pr_cwd p) (pr_name p).
Definition set_chan (x : option wchan) (p : proc) : proc :=
  Proc (pr_state p) x (pr_killed p) (pr_xstate p) (pr_pid p) (pr_parent p) (pr_kstack p) (pr_sz p) (pr_pagetable p)
    (pr_trapframe p) (pr_context p) (pr_ofile p) (pr_cwd p) (pr_name p).
Definition set_killed (x : Z) (p : proc) : proc :=
  Proc (pr_state p) (pr_chan p) x (pr_xstate p) (pr_pid p) (pr_parent p) (pr_kstack p) (pr_sz p) (pr_pagetable p)
    (pr_trapframe p) (pr_context p) (pr_ofile p) (pr_cwd p) (pr_name p).
Definition set_xstate (x : Z) (p : proc) : proc :=
  Proc (pr_state p) (pr_chan p) (pr_killed p) x (pr_pid p) (pr_parent p) (pr_kstack p) (pr_sz p) (pr_pagetable p)
    (pr_trapframe p) (pr_context p) (pr_ofile p) (pr_cwd p) (pr_name p).
Definition set_pid (x : Z) (p : proc) : proc :=
  Proc (pr_state p) (pr_chan p) (pr_killed p) (pr_xstate p) x (pr_parent p) (pr_kstack p) (pr_sz p) (pr_pagetable p)
    (pr_trapframe p) (pr_context p) (pr_ofile p) (pr_cwd p) (pr_name p).
Definition set_parent (x : option nat) (p : proc) : proc :=
  Proc (pr_state p) (pr_chan p) (pr_killed p) (pr_xstate p) (pr_pid p) x (pr_kstack p) (pr_sz p) (pr_pagetable p)
    (pr_trapframe p) (pr_context p) (pr_ofile p) (pr_cwd p) (pr_name p).
Definition set_kstack (x : Z) (p : proc) : proc :=
  Proc (pr_state p) (pr_chan p) (pr_killed p) (pr_xstate p) (pr_pid p) (pr_parent p) x (pr_sz p) (pr_pagetable p)
    (pr_trapframe p) (pr_context p) (pr_ofile p) (pr_cwd p) (pr_name p).
Definition set_sz (x : Z) (p : proc) : proc :=
  Proc (pr_state p) (pr_chan p) (pr_killed p) (pr_xstate p) (pr_pid p) (pr_parent p) (pr_kstack p) x (pr_pagetable p)
    (pr_trapframe p) (pr_context p) (pr_ofile p) (pr_cwd p) (pr_name p).
Definition set_pagetable (x : Z) (p : proc) : proc :=
  Proc (pr_state p) (pr_chan p) (pr_killed p) (pr_xstate p) (pr_pid p) (pr_parent p) (pr_kstack p) (pr_sz p) x
    (pr_trapframe p) (pr_context p) (pr_ofile p) (pr_cwd p) (pr_name p).
Definition set_trapframe (x : Z) (p : proc) : proc :=
  Proc (pr_state p) (pr_chan p) (pr_killed p) (pr_xstate p) (pr_pid p) (pr_parent p) (pr_kstack p) (pr_sz p) (pr_pagetable p)
    x (pr_context p) (pr_ofile p) (pr_cwd p) (pr_name p).
Definition set_context (x : list Z) (p : proc) : proc :=
  Proc (pr_state p) (pr_chan p) (pr_killed p) (pr_xstate p) (pr_pid p) (pr_parent p) (pr_kstack p) (pr_sz p) (pr_pagetable p)
    (pr_trapframe p) x (pr_ofile p) (pr_cwd p) (pr_name p).
Definition set_fds (x : list (option nat)) (p : proc) : proc :=
  Proc (pr_state p) (pr_chan p) (pr_killed p) (pr_xstate p) (pr_pid p) (pr_parent p) (pr_kstack p) (pr_sz p) (pr_pagetable p)
    (pr_trapframe p) (pr_context p) x (pr_cwd p) (pr_name p).
Definition set_pcwd (x : option nat) (p : proc) : proc :=
  Proc (pr_state p) (pr_chan p) (pr_killed p) (pr_xstate p) (pr_pid p) (pr_parent p) (pr_kstack p) (pr_sz p) (pr_pagetable p)
    (pr_trapframe p) (pr_context p) (pr_ofile p) x (pr_name p).
Definition set_name (x : list Z) (p : proc) : proc :=
  Proc (pr_state p) (pr_chan p) (pr_killed p) (pr_xstate p) (pr_pid p) (pr_parent p) (pr_kstack p) (pr_sz p) (pr_pagetable p)
    (pr_trapframe p) (pr_context p) (pr_ofile p) (pr_cwd p) x.

(** [struct trapframe]: byte offsets of its fields in the trapframe page. *)
Definition tf_kernel_satp : Z := 0.
Definition tf_kernel_sp : Z := 8.
Definition tf_kernel_trap : Z := 16.
Definition tf_epc : Z := 24.
Definition tf_kernel_hartid : Z := 32.
Definition tf_sp : Z := 48.
Definition tf_a0 : Z := 112.
Definition tf_a1 : Z := 120.
Definition tf_a7 : Z := 168.
Definition sizeof_trapframe : Z := 288.

(** What the process code needs of memory, files and the file system. *)
Class FileOps (E : Type) := {
  e_mem : E -> phys;
  e_set_mem : E -> phys -> E;
  e_filedup : nat -> M E nat;
  e_fileclose : nat -> M E ();
  e_idup : nat -> M E nat;
  e_iput : nat -> M E ();
  e_begin_op : M E ();
  e_end_op : M E ();
  e_namei : list Z -> M E (option nat);
  e_fsinit : Z -> M E () }.

Record pst (E : Type) := PSt {
  pt_env : E;
  pt_procs : list proc;
  pt_nextpid : Z;
  pt_initproc : option nat;
  pt_first : Z }.
Arguments PSt {E} _ _ _ _ _.
Arguments pt_env {E} _.
Arguments pt_procs {E} _.
Arguments pt_nextpid {E} _.
Arguments pt_initproc {E} _.
Arguments pt_first {E} _.

(** [strncpy]-like copies into [p->name]: [safestrcpy(name, s, sizeof(name))]. *)
Definition name_copy (old s : list Z) : list Z :=
  read_bytes (safestrcpy (two_bufs old (s ++ [0])) 0 4096 (Z.of_nat NAMELEN)) 0 NAMELEN.

Section kvm.
Context {sy : Symbols}.

(** ** The kernel page table *)

Fixpoint proc_mapstacks_loop (n : nat) (kpgtbl p : Z) : M phys () :=
  match n with
  | O => mret ()
  | S n' =>
      pa ← kalloc;
      if pa =? 0 then panic "kalloc"
      else
        kvmmap kpgtbl (KSTACK p) pa PGSIZE (Z.lor PTE_R PTE_W);;
        proc_mapstacks_loop n' kpgtbl (p + 1)
  end.
Definition proc_mapstacks (kpgtbl : Z) : M phys () := proc_mapstacks_loop NPROC kpgtbl 0.

Definition kvmmake : M phys Z :=
  kpgtbl ← kalloc;
  modify (upd_mem (fun m => memset m kpgtbl 0 PGSIZE));;
  kvmmap kpgtbl UART0 UART0 PGSIZE (Z.lor PTE_R PTE_W);;
  kvmmap kpgtbl VIRTIO0 VIRTIO0 PGSIZE (Z.lor PTE_R PTE_W);;
  kvmmap kpgtbl PLIC PLIC 0x400000 (Z.lor PTE_R PTE_W);;
  kvmmap kpgtbl KERNBASE KERNBASE (sym_etext - KERNBASE) (Z.lor PTE_R PTE_X);;
  kvmmap kpgtbl sym_etext sym_etext (PHYSTOP - sym_etext) (Z.lor PTE_R PTE_W);;
  kvmmap kpgtbl TRAMPOLINE sym_trampoline PGSIZE (Z.lor PTE_R PTE_X);;
  proc_mapstacks kpgtbl;;
  mret kpgtbl.

(** ** The page table of a process *)

(** [trapframe] is [p->trapframe]. *)
Definition proc_pagetable (trapframe : Z) : M phys Z :=
  pagetable ← uvmcreate;
  if pagetable =? 0 then mret 0
  else
    r ← mappages pagetable TRAMPOLINE PGSIZE sym_trampoline (Z.lor PTE_R PTE_X);
    if r <? 0 then
      uvmfree pagetable 0;;
      mret 0
    else
      r ← mappages pagetable TRAPFRAME PGSIZE trapframe (Z.lor PTE_R PTE_W);
      if r <? 0 then
        uvmunmap pagetable TRAMPOLINE 1 false;;
        uvmfree pagetable 0;;
        mret 0
      else mret pagetable.

Definition proc_freepagetable (pagetable sz : Z) : M phys () :=
  uvmunmap pagetable TRAMPOLINE 1 false;;
  uvmunmap pagetable TRAPFRAME 1 false;;
  uvmfree pagetable sz.
End kvm.

Section proc.
Context {sy : Symbols} {ts : TextSyms} {E : Type} {eops : FileOps E}.
Abbreviation pm := (M (pst E)).

Definition env {A} (m : M E A) : pm A :=
  zoom pt_env (fun s x => PSt x (pt_procs s) (pt_nextpid s) (pt_initproc s) (pt_first s)) m.
Definition emem {A} (m : M phys A) : pm A := env (zoom e_mem e_set_mem m).
Definition tf_store (tf off v : Z) : pm () := emem (modify (upd_mem (fun m => store64 m (tf + off) v))).

Definition pload (p : nat) : pm proc :=
  t ← gets pt_procs;
  match t !! p with Some x => mret x | None => ub "proc: null or bad pointer" end.
Definition passign (p : nat) (f : proc -> proc) : pm () :=
  pload p;;
  modify (fun s => PSt (pt_env s) (alter f p (pt_procs s)) (pt_nextpid s) (pt_initproc s) (pt_first s)).
(** [myproc() - proc] *)
Definition mypid : pm nat := p ← myproc; mret (my_idx p).

Fixpoint procinit_loop (n p : nat) : pm () :=
  match n with
  | O => mret ()
  | S n' =>
      passign p (fun x => set_kstack (KSTACK (Z.of_nat p)) (set_state UNUSED x));;
      procinit_loop n' (S p)
  end.
Definition procinit : pm () := procinit_loop NPROC 0.

Definition allocpid : pm Z :=
  acquire L_pid;;
  pid ← gets pt_nextpid;
  modify (fun s => PSt (pt_env s) (pt_procs s) (i32 (pid + 1)) (pt_initproc s) (pt_first s));;
  release L_pid;;
  mret pid.

Definition freeproc (p : nat) : pm () :=
  x ← pload p;
  (if negb (pr_trapframe x =? 0) then emem (kfree (pr_trapframe x)) else mret ());;
  passign p (set_trapframe 0);;
  (if negb (pr_pagetable x =? 0) then emem (proc_freepagetable (pr_pagetable x) (pr_sz x)) else mret ());;
  passign p (fun x => set_pagetable 0 (set_sz 0 (set_pid 0 (set_parent None (set_name (<[0%nat := 0]> (pr_name x)) x)))));;
  passign p (fun x => set_state UNUSED (set_xstate 0 (set_killed 0 (set_chan None x)))).

(** The loop of [allocproc]: an unused entry, with its lock held. *)
Fixpoint find_unused_proc (n p : nat) : pm (option nat) :=
  match n with
  | O => mret None
  | S n' =>
      acquire (L_proc p);;
      x ← pload p;
      if decide (pr_state x = UNUSED) then mret (Some p)
      else
        release (L_proc p);;
        find_unused_proc n' (S p)
  end.

(** The part of [allocproc] after the label [found]. *)
Definition allocproc_found (p : nat) : pm (option nat) :=
  pid ← allocpid;
  passign p (fun x => set_state USED (set_pid pid x));;
  tf ← emem kalloc;
  passign p (set_trapframe tf);;
  if tf =? 0 then
    freeproc p;;
    release (L_proc p);;
    mret None
  else
    pagetable ← emem (proc_pagetable tf);
    passign p (set_pagetable pagetable);;
    if pagetable =? 0 then
      freeproc p;;
      release (L_proc p);;
      mret None
    else
      passign p (fun x => set_context (<[1%nat := u64 (pr_kstack x + PGSIZE)]> (<[0%nat := sym_forkret]> (repeat 0 14))) x);;
      mret (Some p).

Definition allocproc : pm (option nat) :=
  r ← find_unused_proc NPROC 0;
  match r with
  | None => mret None
  | Some p => allocproc_found p
  end.

Definition initcode : list Z :=
  [0x17; 0x05; 0x00; 0x00; 0x13; 0x05; 0x45; 0x02;
   0x97; 0x05; 0x00; 0x00; 0x93; 0x85; 0x35; 0x02;
   0x93; 0x08; 0x70; 0x00; 0x73; 0x00; 0x00; 0x00;
   0x93; 0x08; 0x20; 0x00; 0x73; 0x00; 0x00; 0x00;
   0xef; 0xf0; 0x9f; 0xff; 0x2f; 0x69; 0x6e; 0x69;
   0x74; 0x00; 0x00; 0x24; 0x00; 0x00; 0x00; 0x00;
   0x00; 0x00; 0x00; 0x00].
(** The string "initcode". *)
Definition initcode_name : list Z := [105; 110; 105; 116; 99; 111; 100; 101].

Definition userinit : pm () :=
  r ← allocproc;
  modify (fun s => PSt (pt_env s) (pt_procs s) (pt_nextpid s) r (pt_first s));;
  match r with
  | None => ub "userinit: null process"
  | Some p =>
      x ← pload p;
      emem (uvmfirst (pr_pagetable x) initcode);;
      passign p (set_sz PGSIZE);;
      tf_store (pr_trapframe x) tf_epc 0;;
      tf_store (pr_trapframe x) tf_sp PGSIZE;;
      passign p (fun x => set_name (name_copy (pr_name x) initcode_name) x);;
      cwd ← env (e_namei [SLASH]);
      passign p (set_pcwd cwd);;
      passign p (set_state RUNNABLE);;
      release (L_proc p)
  end.

Definition growproc (n : Z) : pm Z :=
  p ← mypid;
  x ← pload p;
  let sz := pr_sz x in
  if n >? 0 then
    sz ← emem (uvmalloc (pr_pagetable x) sz (u64 (sz + n)) PTE_W);
    if sz =? 0 then mret (-1)
    else
      passign p (set_sz sz);;
      mret 0
  else if n <? 0 then
    sz ← emem (uvmdealloc (pr_pagetable x) sz (u64 (sz + n)));
    passign p (set_sz sz);;
    mret 0
  else
    passign p (set_sz sz);;
    mret 0.

(** The loop of [fork] over the open files, from [i]. *)
Fixpoint fork_files (n : nat) (p np i : nat) : pm () :=
  match n with
  | O => mret ()
  | S n' =>
      x ← pload p;
      (match pr_ofile x !! i with
       | Some (Some f) =>
           f' ← env (e_filedup f);
           passign np (fun y => set_fds (<[i := Some f']> (pr_ofile y)) y)
       | _ => mret ()
       end);;
      fork_files n' p np (S i)
  end.

Definition fork : pm Z :=
  p ← mypid;
  r ← allocproc;
  match r with
  | None => mret (-1)
  | Some np =>
      x ← pload p;
      y ← pload np;
      r ← emem (uvmcopy (pr_pagetable x) (pr_pagetable y) (pr_sz x));
      if r <? 0 then
        freeproc np;;
        release (L_proc np);;
        mret (-1)
      else
        passign np (set_sz (pr_sz x));;
        emem (modify (upd_mem (fun m => memmove m (pr_trapframe y) (pr_trapframe x) sizeof_trapframe)));;
        tf_store (pr_trapframe y) tf_a0 0;;
        fork_files PROC_NOFILE p np 0;;
        (match pr_cwd x with
         | Some ip => ip' ← env (e_idup ip); passign np (set_pcwd (Some ip'))
         | None => ub "fork: cwd"
         end);;
        passign np (fun y => set_name (name_copy (pr_name y) (pr_name x)) y);;
        y ← pload np;
        let pid := pr_pid y in
        release (L_proc np);;
        acquire L_wait;;
        passign np (set_parent (Some p));;
        release L_wait;;
        acquire (L_proc np);;
        passign np (set_state RUNNABLE);;
        release (L_proc np);;
        mret pid
  end.

(** ** Scheduling *)

(** [sched], up to the switch to the scheduler, which releases [p->lock].
    Interrupts are off while a spinlock is held. *)
Definition sched : pm () :=
  p ← mypid;
  h ← holding (L_proc p);
  if negb h then panic "sched p->lock"
  else fun w =>
    if decide (length (w_held w) <> 1%nat) then Panic "sched locks"
    else
      (x ← pload p;
       if decide (pr_state x = RUNNING) then panic "sched running"
       else fun w => Ok () (set_held [] w)) w.

(** One entry of the loop of [scheduler]: true when it switches to process
    [p], which then holds its lock. *)
Definition scheduler_try (p : nat) : pm bool :=
  acquire (L_proc p);;
  x ← pload p;
  if decide (pr_state x = RUNNABLE) then
    passign p (set_state RUNNING);;
    mret true
  else
    release (L_proc p);;
    mret false.

(** The loop over the table from [p]: the process it switches to. *)
Fixpoint scheduler_loop (n p : nat) : pm (option nat) :=
  match n with
  | O => mret None
  | S n' => b ← scheduler_try p; if (b : bool) then mret (Some p) else scheduler_loop n' (S p)
  end.

Definition yield : pm () :=
  p ← mypid;
  acquire (L_proc p);;
  passign p (set_state RUNNABLE);;
  sched.
Definition yield_resume : pm () := p ← mypid; release (L_proc p).

(** [sleep(chan, lk)] up to the switch, and after it. *)
Definition psleep (c : wchan) (lk : lock) : pm () :=
  p ← mypid;
  acquire (L_proc p);;
  release lk;;
  passign p (fun x => set_state SLEEPING (set_chan (Some c) x));;
  sched.
Definition psleep_resume (lk : lock) : pm () :=
  p ← mypid;
  passign p (set_chan None);;
  release (L_proc p);;
  acquire lk.

(** The loop of [wakeup] from [p]; [cur] is [myproc()]. *)
Fixpoint wakeup_loop (n p cur : nat) (c : option wchan) : pm () :=
  match n with
  | O => mret ()
  | S n' =>
      (if decide (p = cur) then mret ()
       else
         acquire (L_proc p);;
         x ← pload p;
         (if decide (pr_state x = SLEEPING /\ pr_chan x = c) then passign p (set_state RUNNABLE) else mret ());;
         release (L_proc p));;
      wakeup_loop n' (S p) cur c
  end.
Definition pwakeup (c : option wchan) : pm () := cur ← mypid; wakeup_loop NPROC 0 cur c.

(** The loop of [kill] from [p]. *)
Fixpoint kill_loop (n p : nat) (pid : Z) : pm Z :=
  match n with
  | O => mret (-1)
  | S n' =>
      acquire (L_proc p);;
      x ← pload p;
      if pr_pid x =? pid then
        passign p (set_killed 1);;
        (if decide (pr_state x = SLEEPING) then passign p (set_state RUNNABLE) else mret ());;
        release (L_proc p);;
        mret 0
      else
        release (L_proc p);;
        kill_loop n' (S p) pid
  end.
Definition kill (pid : Z) : pm Z := kill_loop NPROC 0 pid.

Definition setkilled (p : nat) : pm () :=
  acquire (L_proc p);;
  passign p (set_killed 1);;
  release (L_proc p).

Definition pkilled (p : nat) : pm Z :=
  acquire (L_proc p);;
  x ← pload p;
  release (L_proc p);;
  mret (pr_killed x).

(** ** Exit and wait *)

(** The loop of [reparent] from [pp]. *)
Fixpoint reparent_loop (n pp p : nat) : pm () :=
  match n with
  | O => mret ()
  | S n' =>
      x ← pload pp;
      (if decide (pr_parent x = Some p) then
         ip ← gets pt_initproc;
         passign pp (set_parent ip);;
         pwakeup (ChProc <$> ip)
       else mret ());;
      reparent_loop n' (S pp) p
  end.
Definition reparent (p : nat) : pm () := reparent_loop NPROC 0 p.

(** The loop of [exit] over the open files, from [fd]. *)
Fixpoint close_files (n fd p : nat) : pm () :=
  match n with
  | O => mret ()
  | S n' =>
      x ← pload p;
      (match pr_ofile x !! fd with
       | Some (Some f) =>
           env (e_fileclose f);;
           passign p (fun x => set_fds (<[fd := None]> (pr_ofile x)) x)
       | _ => mret ()
       end);;
      close_files n' (S fd) p
  end.

(** [exit], up to the switch it does not come back from. *)
Definition pexit (status : Z) : pm () :=
  p ← mypid;
  ip ← gets pt_initproc;
  if decide (ip = Some p) then panic "init exiting"
  else
    close_files PROC_NOFILE 0 p;;
    env e_begin_op;;
    x ← pload p;
    (match pr_cwd x with Some ip => env (e_iput ip) | None => ub "exit: cwd" end);;
    env e_end_op;;
    passign p (set_pcwd None);;
    acquire L_wait;;
    reparent p;;
    x ← pload p;
    pwakeup (ChProc <$> pr_parent x);;
    acquire (L_proc p);;
    passign p (set_xstate status);;
    passign p (set_state ZOMBIE);;
    release L_wait;;
    sched.

(** One scan of the table by [wait], from [pp]: a return value, or whether the
    caller has children. *)
Fixpoint wait_scan (n pp p : nat) (addr : Z) (havekids : bool) : pm (Z + bool) :=
  match n with
  | O => mret (inr havekids)
  | S n' =>
      x ← pload pp;
      if decide (pr_parent x = Some p) then
        acquire (L_proc pp);;
        x ← pload pp;
        if decide (pr_state x = ZOMBIE) then
          me ← pload p;
          r ← (if negb (addr =? 0) then emem (copyout (pr_pagetable me) addr (le_bytes 4 (pr_xstate x))) else mret 0);
          if negb (addr =? 0) && (r <? 0) then
            release (L_proc pp);;
            release L_wait;;
            mret (inl (-1))
          else
            freeproc pp;;
            release (L_proc pp);;
            release L_wait;;
            mret (inl (pr_pid x))
        else
          release (L_proc pp);;
          wait_scan n' (S pp) p addr true
      else wait_scan n' (S pp) p addr havekids
  end.

(** [wait]: one round of its loop, which returns or goes to sleep. *)
Definition wait_round (addr : Z) : pm segment :=
  p ← mypid;
  r ← wait_scan NPROC 0 p addr false;
  match r with
  | inl v => mret (Returned v)
  | inr havekids =>
      k ← (if (havekids : bool) then pkilled p else mret 0);
      if negb havekids || negb (k =? 0) then
        release L_wait;;
        mret (Returned (-1))
      else
        psleep (ChProc p) L_wait;;
        mret (Slept (ChProc p) 0)
  end.

Definition pwait (addr : Z) : pm segment :=
  acquire L_wait;;
  wait_round addr.
Definition pwait_resume (addr : Z) : pm segment :=
  psleep_resume L_wait;;
  wait_round addr.

(** [forkret]: the first switch to a process ends here; [usertrapret] follows. *)
Definition forkret : pm () :=
  p ← mypid;
  release (L_proc p);;
  first ← gets pt_first;
  if negb (first =? 0) then
    modify (fun s => PSt (pt_env s) (pt_procs s) (pt_nextpid s) (pt_initproc s) 0);;
    env (e_fsinit ROOTDEV)
  else mret ().

(** ** procdump *)

Definition state_name (s : procstate) : list Z :=
  match s with
  | UNUSED => [117; 110; 117; 115; 101; 100]
  | USED => [117; 115; 101; 100]
  | SLEEPING => [115; 108; 101; 101; 112; 32]
  | RUNNABLE => [114; 117; 110; 98; 108; 101]
  | RUNNING => [114; 117; 110; 32; 32; 32]
  | ZOMBIE => [122; 111; 109; 98; 105; 101]
  end.

(** The bytes [procdump] prints: [printf("%d %s %s", p->pid, state, p->name)]
    for every process. *)
Definition dump_format : list Z := [37; 100; 32; 37; 115; 32; 37; 115].
Definition procdump_line (x : proc) : list Z :=
  if decide (pr_state x = UNUSED) then []
  else default [] (kprintf_loop dump_format [VWord (pr_pid x); VStr (Some (state_name (pr_state x))); VStr (Some (cstr (pr_name x)))]) ++ [10].
Definition procdump (procs : list proc) : list Z := 10 :: concat (map procdump_line procs).
End proc.
