(* ===== verification/ProcSpec.v ===== *)
(** How the routines of kernel/proc.c change the process table, whatever
    memory and the file system do. *)

From S2P Require Import Prelude KMonad Kstring Riscv Kalloc Vm Fs Printf Proc.

Section vm.
Context {sy : Symbols}.

Lemma keeps_kfree pa : keeps_me (kfree pa).
Proof. unfold kfree. keeps. Qed.
Lemma keeps_kalloc : keeps_me kalloc.
Proof. unfold kalloc. keeps. Qed.
#[local] Hint Resolve keeps_kfree keeps_kalloc : keeps.

Lemma keeps_load_pte a : keeps_me (load_pte a).
Proof. unfold load_pte. keeps. Qed.
Lemma keeps_store_pte a v : keeps_me (store_pte a v).
Proof. unfold store_pte. keeps. Qed.
#[local] Hint Resolve keeps_load_pte keeps_store_pte : keeps.

Lemma keeps_walk_level level : forall pt va alloc, keeps_me (walk_level level pt va alloc).
Proof. induction level as [|l IH]; intros pt va alloc; cbn [walk_level]; keeps. Qed.
#[local] Hint Resolve keeps_walk_level : keeps.
Lemma keeps_walk pt va alloc : keeps_me (walk pt va alloc).
Proof. unfold walk. keeps. Qed.
#[local] Hint Resolve keeps_walk : keeps.
Lemma keeps_walkaddr pt va : keeps_me (walkaddr pt va).
Proof. unfold walkaddr. keeps. Qed.
#[local] Hint Resolve keeps_walkaddr : keeps.

Lemma keeps_mappages_loop fuel : forall pt a last pa perm, keeps_me (mappages_loop fuel pt a last pa perm).
Proof. induction fuel as [|f IH]; intros; cbn [mappages_loop]; keeps. Qed.
#[local] Hint Resolve keeps_mappages_loop : keeps.
Lemma keeps_mappages pt va size pa perm : keeps_me (mappages pt va size pa perm).
Proof. unfold mappages. keeps. Qed.
#[local] Hint Resolve keeps_mappages : keeps.

Lemma keeps_uvmunmap_loop fuel : forall pt a last df, keeps_me (uvmunmap_loop fuel pt a last df).
Proof. induction fuel as [|f IH]; intros; cbn [uvmunmap_loop]; keeps. Qed.
#[local] Hint Resolve keeps_uvmunmap_loop : keeps.
Lemma keeps_uvmunmap pt va n df : keeps_me (uvmunmap pt va n df).
Proof. unfold uvmunmap. keeps. Qed.
#[local] Hint Resolve keeps_uvmunmap : keeps.

Lemma keeps_freewalk_loop rec : (forall x, keeps_me (rec x)) -> forall n pt i, keeps_me (freewalk_loop rec n pt i).
Proof. intros Hr n. induction n as [|n IH]; intros; cbn [freewalk_loop]; keeps. Qed.
Lemma keeps_freewalk depth : forall pt, keeps_me (freewalk depth pt).
Proof. induction depth as [|d IH]; intros pt; cbn [freewalk]; keeps. by apply keeps_freewalk_loop. Qed.
#[local] Hint Resolve keeps_freewalk : keeps.
Lemma keeps_uvmfree pt sz : keeps_me (uvmfree pt sz).
Proof. unfold uvmfree. keeps. Qed.
Lemma keeps_uvmcreate : keeps_me uvmcreate.
Proof. unfold uvmcreate. keeps. Qed.
#[local] Hint Resolve keeps_uvmfree keeps_uvmcreate : keeps.

Lemma keeps_uvmcopy_loop fuel : forall old new i sz, keeps_me (uvmcopy_loop fuel old new i sz).
Proof. induction fuel as [|f IH]; intros; cbn [uvmcopy_loop]; keeps. Qed.
#[local] Hint Resolve keeps_uvmcopy_loop : keeps.
Lemma keeps_uvmcopy old new sz : keeps_me (uvmcopy old new sz).
Proof. unfold uvmcopy. keeps. Qed.

Lemma keeps_copyout_loop fuel : forall pt va src, keeps_me (copyout_loop fuel pt va src).
Proof. induction fuel as [|f IH]; intros; cbn [copyout_loop]; keeps. Qed.
#[local] Hint Resolve keeps_copyout_loop : keeps.
Lemma keeps_copyout pt va src : keeps_me (copyout pt va src).
Proof. unfold copyout. keeps. Qed.

Lemma keeps_proc_pagetable tf : keeps_me (proc_pagetable tf).
Proof. unfold proc_pagetable. keeps. Qed.
Lemma keeps_proc_freepagetable pt sz : keeps_me (proc_freepagetable pt sz).
Proof. unfold proc_freepagetable. keeps. Qed.
End vm.
#[export] Hint Resolve keeps_kfree keeps_kalloc keeps_uvmcopy keeps_copyout keeps_proc_pagetable keeps_proc_freepagetable : keeps.

(** ** The process table *)

Lemma list_alter_insert {A} (f : A -> A) (l : list A) i x : l !! i = Some x -> alter f i l = <[i := f x]> l.
Proof.
  intros H. apply list_eq. intros j. destruct (decide (i = j)) as [<-|Hne].
  - rewrite list_lookup_alter_eq, H, list_lookup_insert_eq by (by eapply lookup_lt_Some). done.
  - by rewrite list_lookup_alter_ne, list_lookup_insert_ne.
Qed.

(** Files and the file system do not change which process runs. *)
Class FileLaws (E : Type) {eops : FileOps E} : Prop := {
  fl_filedup f : keeps_me (e_filedup f);
  fl_fileclose f : keeps_me (e_fileclose f);
  fl_idup ip : keeps_me (e_idup ip);
  fl_iput ip : keeps_me (e_iput ip);
  fl_begin_op : keeps_me e_begin_op;
  fl_end_op : keeps_me e_end_op;
  fl_namei path : keeps_me (e_namei path);
  fl_fsinit dev : keeps_me (e_fsinit dev) }.
#[export] Hint Resolve fl_filedup fl_fileclose fl_idup fl_iput fl_begin_op fl_end_op fl_namei fl_fsinit : keeps.

Section table.
Context {sy : Symbols} {ts : TextSyms} {E : Type} {eops : FileOps E} {elaws : FileLaws E}.
Implicit Types (w : world (pst E)) (T : list proc) (x y : proc).

Definition procs w : list proc := pt_procs (w_st w).

(** The running process, the pid counter and the initial process stay. *)
Record same_but_procs w w' : Prop := {
  sp_me : w_me w' = w_me w;
  sp_nextpid : pt_nextpid (w_st w') = pt_nextpid (w_st w);
  sp_init : pt_initproc (w_st w') = pt_initproc (w_st w) }.

#[global] Instance same_but_procs_refl : Reflexive same_but_procs.
Proof. by split. Qed.
#[global] Instance same_but_procs_trans : Transitive same_but_procs.
Proof. intros ??? [] []. split; by etrans. Qed.

(** A step of the table from [w]: the processes are now [T]. *)
Definition to_procs w (T : list proc) w' : Prop := same_but_procs w w' /\ procs w' = T.

Lemma to_procs_refl w : to_procs w (procs w) w.
Proof. by split. Qed.

Lemma to_procs_trans w T1 w1 T2 w2 : to_procs w T1 w1 -> to_procs w1 T2 w2 -> to_procs w T2 w2.
Proof. intros [H1 _] [H2 H3]. split; [by etrans|done]. Qed.

Lemma wlp_env {A} (m : M E A) (Q : A -> world (pst E) -> Prop) w : keeps_me m ->
  (forall a w', to_procs w (procs w) w' -> Q a w') -> wlp (env m) Q w.
Proof.
  intros H HQ. unfold wlp, env, zoom. specialize (H (World (w_me w) (w_held w) (w_evs w) (pt_env (w_st w)))). unfold wlp in H.
  destruct (m _); try done. by apply HQ.
Qed.

Lemma wlp_emem {A} (m : M phys A) (Q : A -> world (pst E) -> Prop) w : keeps_me m ->
  (forall a w', to_procs w (procs w) w' -> Q a w') -> wlp (emem m) Q w.
Proof. intros H. by apply wlp_env, keeps_zoom. Qed.

Lemma wlp_tf_store tf off v (Q : () -> world (pst E) -> Prop) w :
  (forall w', to_procs w (procs w) w' -> Q () w') -> wlp (tf_store tf off v) Q w.
Proof. intros HQ. apply wlp_emem; [auto with keeps|]. intros []. apply HQ. Qed.

Lemma wlp_pload p (Q : proc -> world (pst E) -> Prop) w :
  (forall x, procs w !! p = Some x -> Q x w) -> wlp (pload p) Q w.
Proof. intros HQ. apply wlp_bind, wlp_gets. unfold procs in HQ. destruct (pt_procs (w_st w) !! p); [by apply HQ|done]. Qed.

Lemma wlp_passign p f (Q : () -> world (pst E) -> Prop) w :
  (forall x w', procs w !! p = Some x -> to_procs w (<[p := f x]> (procs w)) w' -> Q () w') -> wlp (passign p f) Q w.
Proof.
  intros HQ. apply wlp_bind, wlp_pload. intros x Hx. apply wlp_modify. apply (HQ x); [done|]. split; [done|].
  unfold procs. simpl. by apply list_alter_insert.
Qed.

Lemma wlp_mypid (Q : nat -> world (pst E) -> Prop) w : Q (my_idx (w_me w)) w -> wlp mypid Q w.
Proof. done. Qed.

Lemma wlp_lock l (Q : () -> world (pst E) -> Prop) w :
  (forall w', to_procs w (procs w) w' -> Q () w') -> wlp (acquire l) Q w.
Proof. intros HQ. apply wlp_acquire, HQ. by split. Qed.

Lemma wlp_unlock l (Q : () -> world (pst E) -> Prop) w :
  (forall w', to_procs w (procs w) w' -> Q () w') -> wlp (release l) Q w.
Proof. intros HQ. apply wlp_release, HQ. by split. Qed.

(** [freeproc]: the entry after it. *)
Definition freed x : proc :=
  Proc UNUSED None 0 0 0 None (pr_kstack x) 0 0 0 (pr_context x) (pr_ofile x) (pr_cwd x) (<[0%nat := 0]> (pr_name x)).

Lemma wlp_freeproc p (Q : () -> world (pst E) -> Prop) w :
  (forall x w', procs w !! p = Some x -> to_procs w (<[p := freed x]> (procs w)) w' -> Q () w') -> wlp (freeproc p) Q w.
Proof.
  intros HQ. apply wlp_bind, wlp_pload. intros x Hx.
  assert (Hmem : forall (b : bool) (m : M phys ()) (R : () -> world (pst E) -> Prop) v, keeps_me m ->
    (forall v', to_procs v (procs v) v' -> R () v') -> wlp (if b then emem m else mret ()) R v).
  { intros [] m R v Hm HR; [|by apply wlp_ret, HR]. apply wlp_emem; [done|]. intros []. apply HR. }
  apply wlp_bind, Hmem; [auto with keeps|]. intros w1 H1. apply wlp_bind, wlp_passign. intros x2 w2 Hx2 H2.
  apply wlp_bind, Hmem; [auto with keeps|]. intros w3 H3. apply wlp_bind, wlp_passign. intros x4 w4 Hx4 H4.
  apply wlp_passign. intros x5 w5 Hx5 H5. apply (HQ x); [done|].
  rewrite (proj2 H4) in Hx5, H5. rewrite (proj2 H3) in Hx4, Hx5, H4, H5. rewrite (proj2 H2) in Hx4, Hx5, H4, H5.
  rewrite (proj2 H1) in Hx2, Hx4, Hx5, H4, H5, H2.
  pose proof (lookup_lt_Some _ _ _ Hx) as Hlt. rewrite Hx in Hx2. injection Hx2 as <-.
  rewrite list_lookup_insert_eq in Hx4 by done. injection Hx4 as <-.
  rewrite list_lookup_insert_eq in Hx5 by (by rewrite length_insert). injection Hx5 as <-.
  rewrite !list_insert_insert_eq in H5.
  eapply to_procs_trans; [exact H1|]. eapply to_procs_trans; [exact H2|]. eapply to_procs_trans; [exact H3|].
  by eapply to_procs_trans.
Qed.

(** *** Scheduling *)

Lemma wlp_sched (Q : () -> world (pst E) -> Prop) w :
  (forall w', to_procs w (procs w) w' -> Q () w') -> wlp sched Q w.
Proof.
  intros HQ. apply wlp_bind, wlp_mypid, wlp_bind. unfold wlp at 1, holding. cbn beta iota.
  destruct (bool_decide _); [|done]. cbn [negb]. unfold wlp. destruct (decide _); [done|].
  fold (wlp (x ← pload (my_idx (w_me w));
     if decide (pr_state x = RUNNING) then panic "sched running" else fun w => Ok () (set_held [] w)) Q w).
  apply wlp_bind, wlp_pload. intros x Hx. destruct (decide _); [done|]. by apply HQ.
Qed.

(** What [wakeup(c)] called by [cur] does to entry [i]. *)
Definition wake (cur : nat) (c : option wchan) (i : nat) x : proc :=
  if decide (i <> cur /\ pr_state x = SLEEPING /\ pr_chan x = c) then set_state RUNNABLE x else x.

Lemma wlp_wakeup_loop cur c n : forall p w (Q : () -> world (pst E) -> Prop),
  (forall w', to_procs w (imap (fun i x => if decide (p <= i < p + n)%nat then wake cur c i x else x) (procs w)) w' -> Q () w') ->
  wlp (wakeup_loop n p cur c) Q w.
Proof.
  induction n as [|n IH]; intros p w Q HQ; cbn [wakeup_loop].
  { apply wlp_ret, HQ. split; [done|]. apply list_eq. intros i. rewrite list_lookup_imap.
    destruct (procs w !! i); simpl; [|done]. by rewrite decide_False by lia. }
  apply wlp_bind.
  assert (Hone : wlp (if decide (p = cur) then mret ()
       else acquire (L_proc p);;
         x ← pload p;
         (if decide (pr_state x = SLEEPING /\ pr_chan x = c) then passign p (set_state RUNNABLE) else mret ());;
         release (L_proc p))
       (fun _ w' => to_procs w (imap (fun i x => if decide (i = p) then wake cur c i x else x) (procs w)) w') w).
  { assert (Hid : forall x, procs w !! p = Some x -> wake cur c p x = x ->
      procs w = imap (fun i x => if decide (i = p) then wake cur c i x else x) (procs w)).
    { intros x Hx Ew. apply list_eq. intros i. rewrite list_lookup_imap. destruct (procs w !! i) eqn:Ei; simpl; [|done].
      destruct (decide (i = p)) as [->|]; [|done]. congruence. }
    destruct (decide (p = cur)) as [->|Hne].
    - apply wlp_ret. split; [done|]. destruct (procs w !! cur) as [x|] eqn:Hx.
      + apply (Hid x eq_refl). unfold wake. by rewrite decide_False by naive_solver.
      + apply list_eq. intros i. rewrite list_lookup_imap. destruct (procs w !! i) eqn:Ei; simpl; [|done].
        rewrite decide_False; [done|]. intros ->. congruence.
    - apply wlp_bind, wlp_lock. intros w1 H1. apply wlp_bind, wlp_pload. rewrite (proj2 H1). intros x Hx. apply wlp_bind.
      destruct (decide (pr_state x = SLEEPING /\ pr_chan x = c)) as [Hc|Hc].
      + apply wlp_passign. rewrite (proj2 H1). intros x2 w2 Hx2 H2. rewrite Hx in Hx2. injection Hx2 as <-. apply wlp_unlock.
        intros w3 H3. rewrite (proj2 H2) in H3. eapply to_procs_trans; [exact H1|]. eapply to_procs_trans; [exact H2|].
        destruct H3 as [H3 E3]. split; [done|]. rewrite E3. apply list_eq. intros i. rewrite list_lookup_imap.
        destruct (decide (i = p)) as [->|Hi].
        * rewrite list_lookup_insert_eq by (by eapply lookup_lt_Some). rewrite Hx. simpl. unfold wake. by rewrite decide_True by naive_solver.
        * rewrite list_lookup_insert_ne by done. by destruct (procs w !! i).
      + apply wlp_ret, wlp_unlock. intros w2 H2. rewrite (proj2 H1) in H2. eapply to_procs_trans; [exact H1|].
        destruct H2 as [H2 E2]. split; [done|]. rewrite E2. apply (Hid x Hx). unfold wake. by rewrite decide_False by naive_solver. }
  eapply wlp_mono; [|exact Hone]. intros [] w1 H1. apply IH. intros w2 [H2 E2]. apply HQ. eapply to_procs_trans; [exact H1|].
  split; [done|]. rewrite E2, (proj2 H1). apply list_eq. intros i. rewrite !list_lookup_imap.
  destruct (procs w !! i) as [x|]; simpl; [|done]. f_equal.
  destruct (decide (S p <= i < S (p + n))%nat), (decide (i = p)), (decide (p <= i < p + S n)%nat); lia || done.
Qed.

Lemma wlp_pwakeup c w (Q : () -> world (pst E) -> Prop) : (length (procs w) <= NPROC)%nat ->
  (forall w', to_procs w (imap (wake (my_idx (w_me w)) c) (procs w)) w' -> Q () w') -> wlp (pwakeup c) Q w.
Proof.
  intros Hl HQ. apply wlp_bind, wlp_mypid, wlp_wakeup_loop. intros w' [H1 H2]. apply HQ. split; [done|]. rewrite H2.
  apply list_eq. intros i. rewrite !list_lookup_imap. destruct (procs w !! i) as [x|] eqn:Ei; simpl; [|done].
  apply lookup_lt_Some in Ei. by rewrite decide_True by lia.
Qed.
End table.
