(* ===== verification/ProcTree.v ===== *)
(** The tree of processes: parents, zombies, and processes asleep in [wait].
    Every routine of kernel/proc.c keeps it in order. *)

From S2P Require Import Prelude KMonad Kstring Riscv Kalloc Vm Fs Printf Proc ProcSpec.

(** ** The invariant *)

Definition live (x : proc) : Prop := pr_state x <> UNUSED /\ pr_state x <> ZOMBIE.

(** [x] is entry [i] and sleeps in [wait]. *)
Definition waiting (i : nat) (x : proc) : Prop := pr_state x = SLEEPING /\ pr_chan x = Some (ChProc i).

Record tree_ok (T : list proc) (init : option nat) (nextpid : Z) : Prop := {
  to_length : length T = NPROC;
  (** the initial process is there *)
  to_init : exists i x, init = Some i /\ T !! i = Some x /\ live x /\ pr_parent x = None;
  (** every other process has a live parent *)
  to_parent : forall i x, T !! i = Some x -> pr_state x <> UNUSED -> init <> Some i ->
    exists q y, pr_parent x = Some q /\ q <> i /\ T !! q = Some y /\ live y;
  to_unused : forall i x, T !! i = Some x -> pr_state x = UNUSED -> pr_parent x = None;
  (** nobody sleeps in [wait] while a child is a zombie *)
  to_wait : forall i x j y, T !! i = Some x -> waiting i x -> T !! j = Some y -> pr_parent y = Some i -> pr_state y <> ZOMBIE;
  to_chan : forall i x k, T !! i = Some x -> pr_state x = SLEEPING -> pr_chan x = Some (ChProc k) -> k = i;
  (** process ids are used once *)
  to_pid : forall i x, T !! i = Some x -> pr_state x <> UNUSED -> 0 < pr_pid x < nextpid;
  to_pids : forall i j x y, T !! i = Some x -> T !! j = Some y -> pr_state x <> UNUSED -> pr_state y <> UNUSED ->
    pr_pid x = pr_pid y -> i = j }.

(** ** Changes of one entry *)

Lemma insert_cases (T : list proc) p x i y : <[p := x]> T !! i = Some y -> (i = p /\ y = x) \/ (i <> p /\ T !! i = Some y).
Proof.
  intros Hy. destruct (decide (i = p)) as [->|Hne]; [left|right; by rewrite list_lookup_insert_ne in Hy].
  pose proof (lookup_lt_Some _ _ _ Hy) as Hlt. rewrite length_insert in Hlt. rewrite list_lookup_insert_eq in Hy by done.
  by injection Hy as <-.
Qed.

Lemma insert_other (T : list proc) p x i y : i <> p -> T !! i = Some y -> <[p := x]> T !! i = Some y.
Proof. intros. by rewrite list_lookup_insert_ne. Qed.

(** [x'] is [x] in another state of a live process, or a change of fields the
    tree does not look at. *)
Record tame (i : nat) (x x' : proc) : Prop := {
  tm_parent : pr_parent x' = pr_parent x;
  tm_pid : pr_pid x' = pr_pid x;
  tm_live : live x -> live x';
  tm_unused : pr_state x = UNUSED <-> pr_state x' = UNUSED;
  tm_zombie : pr_state x' = ZOMBIE -> pr_state x = ZOMBIE;
  tm_chan : pr_state x' = SLEEPING -> forall k, pr_chan x' = Some (ChProc k) -> pr_state x = SLEEPING /\ pr_chan x = Some (ChProc k) }.

Lemma tame_refl i x : tame i x x.
Proof. by split. Qed.

Lemma tame_trans i x y z : tame i x y -> tame i y z -> tame i x z.
Proof. intros [] []. split; [congruence|congruence|tauto|tauto|tauto|naive_solver]. Qed.

(** Entries are changed one by one, each tamely. *)
Definition tamed (T T' : list proc) : Prop := length T' = length T /\ forall i x', T' !! i = Some x' -> exists x, T !! i = Some x /\ tame i x x'.

Lemma tamed_refl T : tamed T T.
Proof. split; [done|]. intros i x H. exists x. split; [done|apply tame_refl]. Qed.

Lemma tamed_trans T1 T2 T3 : tamed T1 T2 -> tamed T2 T3 -> tamed T1 T3.
Proof.
  intros [L1 H1] [L2 H2]. split; [congruence|]. intros i z Hz. destruct (H2 _ _ Hz) as (y & Hy & T23).
  destruct (H1 _ _ Hy) as (x & Hx & T12). exists x. split; [done|]. by eapply tame_trans.
Qed.

Lemma tamed_lookup T T' i x : tamed T T' -> T !! i = Some x -> exists x', T' !! i = Some x' /\ tame i x x'.
Proof.
  intros [L H] Hx. destruct (lookup_lt_is_Some_2 T' i) as [x' Hx']; [rewrite L; by eapply lookup_lt_Some|].
  exists x'. split; [done|]. destruct (H _ _ Hx') as (x2 & Hx2 & Ht). congruence.
Qed.

Lemma tamed_insert T p x x' : T !! p = Some x -> tame p x x' -> tamed T (<[p := x']> T).
Proof.
  intros Hx Ht. split; [apply length_insert|]. intros i y Hy. destruct (decide (i = p)) as [->|Hne].
  - rewrite list_lookup_insert_eq in Hy by (by eapply lookup_lt_Some). injection Hy as <-. by exists x.
  - rewrite list_lookup_insert_ne in Hy by done. exists y. split; [done|apply tame_refl].
Qed.

Lemma tame_state i x s : pr_state x <> UNUSED -> pr_state x <> ZOMBIE -> s = RUNNABLE \/ s = RUNNING -> tame i x (set_state s x).
Proof.
  intros H1 H2 Hs. split; simpl; try done; [|destruct Hs as [->| ->]; split; done|destruct Hs as [->| ->]; done|destruct Hs as [->| ->]; done].
  intros _. destruct Hs as [->| ->]; by split.
Qed.

Lemma tame_wake cur c i x : tame i x (wake cur c i x).
Proof.
  unfold wake. destruct (decide _) as [(_ & Hs & _)|]; [|apply tame_refl]. apply tame_state; [by rewrite Hs|by rewrite Hs|by left].
Qed.

Lemma tamed_wake cur c T : tamed T (imap (wake cur c) T).
Proof.
  split; [apply length_imap|]. intros i x'. rewrite list_lookup_imap. destruct (T !! i) as [x|]; simpl; [|done].
  intros [= <-]. exists x. split; [done|apply tame_wake].
Qed.

Lemma tree_tamed T T' init np : tree_ok T init np -> tamed T T' -> tree_ok T' init np.
Proof.
  intros [H1 H2 H3 H4 H5 H6 H7 H8] HT. pose proof HT as [L H]. split.
  - congruence.
  - destruct H2 as (i & x & -> & Hx & Hl & Hp). destruct (tamed_lookup _ _ _ _ HT Hx) as (x' & Hx' & []). exists i, x'.
    split_and!; [done|done|by auto|congruence].
  - intros i x' Hx' Hs Hi. destruct (H _ _ Hx') as (x & Hx & Ht). destruct (H3 _ _ Hx) as (q & y & Hp & Hq & Hy & Hl); [by rewrite (tm_unused _ _ _ Ht)|done|].
    destruct (tamed_lookup _ _ _ _ HT Hy) as (y' & Hy' & Hty). exists q, y'. split_and!; [by rewrite (tm_parent _ _ _ Ht)|done|done|by apply (tm_live _ _ _ Hty)].
  - intros i x' Hx' Hs. destruct (H _ _ Hx') as (x & Hx & Ht). rewrite (tm_parent _ _ _ Ht). eapply H4; [done|by apply (tm_unused _ _ _ Ht)].
  - intros i x' j y' Hx' [Hw1 Hw2] Hy' Hp Hz. destruct (H _ _ Hx') as (x & Hx & Ht). destruct (H _ _ Hy') as (y & Hy & Hty).
    eapply (H5 i x j y Hx); [by eapply (tm_chan _ _ _ Ht)|done|by rewrite <- (tm_parent _ _ _ Hty)|by apply (tm_zombie _ _ _ Hty)].
  - intros i x' k Hx' Hs Hc. destruct (H _ _ Hx') as (x & Hx & Ht). destruct (tm_chan _ _ _ Ht Hs k Hc). by eapply H6.
  - intros i x' Hx' Hs. destruct (H _ _ Hx') as (x & Hx & Ht). rewrite (tm_pid _ _ _ Ht). eapply H7; [done|]. by rewrite (tm_unused _ _ _ Ht).
  - intros i j x' y' Hx' Hy' Hs1 Hs2 Hp. destruct (H _ _ Hx') as (x & Hx & Ht). destruct (H _ _ Hy') as (y & Hy & Hty).
    eapply (H8 i j x y); [done|done|by rewrite (tm_unused _ _ _ Ht)|by rewrite (tm_unused _ _ _ Hty)|].
    by rewrite <- (tm_pid _ _ _ Ht), <- (tm_pid _ _ _ Hty).
Qed.

(** Process [i] is not asleep in [wait]. *)
Definition awake (i : nat) (T : list proc) : Prop := forall x, T !! i = Some x -> ~ waiting i x.

Lemma awake_tamed i T T' : awake i T -> tamed T T' -> awake i T'.
Proof.
  intros Ha [_ H] x' Hx' [Hs Hc]. destruct (H _ _ Hx') as (x & Hx & Ht). by apply (Ha x Hx), (tm_chan _ _ _ Ht).
Qed.

Lemma awake_wake cur i T : i <> cur -> awake i (imap (wake cur (Some (ChProc i))) T).
Proof.
  intros Hne x'. rewrite list_lookup_imap. destruct (T !! i) as [x|]; simpl; [|done]. intros [= <-] [Hs Hc]. unfold wake in *.
  destruct (decide _) as [|Hd]; [done|]. by apply Hd.
Qed.

(** ** Exit *)

(** Between [T] and [T'] the children of [p] among the entries from [lo] to
    [hi] were given to [init]. *)
Definition adopt (lo hi p : nat) (init : option nat) (T T' : list proc) : Prop :=
  length T' = length T /\ forall i x', T' !! i = Some x' -> exists x, T !! i = Some x /\
    tame i x (set_parent (pr_parent x) x') /\
    pr_parent x' = if decide (lo <= i < hi /\ pr_parent x = Some p)%nat then init else pr_parent x.

Lemma adopt_tamed lo hi p init T T' : (forall i, ~ (lo <= i < hi)%nat) \/ (forall i x, T !! i = Some x -> (lo <= i < hi)%nat -> pr_parent x <> Some p) ->
  tamed T T' -> adopt lo hi p init T T'.
Proof.
  intros Hno [L H]. split; [done|]. intros i x' Hx'. destruct (H _ _ Hx') as (x & Hx & Ht). exists x. split; [done|].
  rewrite decide_False by (destruct Hno as [Hno|Hno]; [naive_solver|intros [? ?]; by eapply Hno]).
  split; [|apply Ht]. destruct Ht. by split.
Qed.

Lemma tame_set_parent i x y q : tame i x (set_parent (pr_parent x) y) -> tame i x (set_parent (pr_parent x) (set_parent q y)).
Proof. by intros []. Qed.

Lemma adopt_trans lo mid hi p init T T1 T2 : (lo <= mid <= hi)%nat ->
  adopt lo mid p init T T1 -> adopt mid hi p init T1 T2 -> adopt lo hi p init T T2.
Proof.
  intros Hm [L1 H1] [L2 H2]. split; [congruence|]. intros i x2 Hx2. destruct (H2 _ _ Hx2) as (x1 & Hx1 & Ht2 & Hp2).
  destruct (H1 _ _ Hx1) as (x & Hx & Ht1 & Hp1). exists x. split; [done|]. split.
  - eapply tame_trans; [exact Ht1|]. destruct Ht2. by split.
  - rewrite Hp2, Hp1. destruct (decide (pr_parent x = Some p)) as [E|E].
    + destruct (decide (lo <= i < mid /\ pr_parent x = Some p)%nat) as [Hd|Hd].
      * rewrite (decide_True (P := (lo <= i < hi /\ _)%nat)) by (split; [lia|done]). by rewrite decide_False by lia.
      * assert (Hn1 : ~ (lo <= i < mid)%nat) by tauto.
        destruct (decide (mid <= i < hi /\ pr_parent x = Some p)%nat) as [[Hd2 _]|Hd2]; [by rewrite decide_True by (split; [lia|done])|].
        assert (Hn2 : ~ (mid <= i < hi)%nat) by tauto. by rewrite decide_False by lia.
    + rewrite (decide_False (P := (lo <= i < mid /\ _)%nat)) by naive_solver. by rewrite !decide_False by naive_solver.
Qed.

Lemma tree_adopt p init np T T' : tree_ok T init np -> init <> Some p -> adopt 0 NPROC p init T T' ->
  (forall k, init = Some k -> (exists i x, T !! i = Some x /\ pr_parent x = Some p) -> awake k T') ->
  tree_ok T' init np /\ forall i x', T' !! i = Some x' -> pr_parent x' <> Some p.
Proof.
  intros [H1 H2 H3 H4 H5 H6 H7 H8] Hip [L H] Haw.
  assert (Hrange : forall i x, T !! i = Some x -> (0 <= i < NPROC)%nat) by (intros i x Hx; apply lookup_lt_Some in Hx; lia).
  assert (Hfwd : forall i x, T !! i = Some x -> exists x', T' !! i = Some x' /\ tame i x (set_parent (pr_parent x) x') /\
    pr_parent x' = if decide (pr_parent x = Some p) then init else pr_parent x).
  { intros i x Hx. destruct (lookup_lt_is_Some_2 T' i) as [x' Hx']; [rewrite L; by eapply lookup_lt_Some|]. exists x'. split; [done|].
    destruct (H _ _ Hx') as (x0 & Hx0 & Ht & Hp). assert (x0 = x) as -> by congruence. split; [done|]. rewrite Hp.
    pose proof (Hrange _ _ Hx). apply decide_ext. tauto. }
  assert (Hbwd : forall i x', T' !! i = Some x' -> exists x, T !! i = Some x /\ tame i x (set_parent (pr_parent x) x') /\
    pr_parent x' = if decide (pr_parent x = Some p) then init else pr_parent x).
  { intros i x' Hx'. destruct (H _ _ Hx') as (x & Hx & Ht & Hp). exists x. split; [done|]. split; [done|]. rewrite Hp.
    pose proof (Hrange _ _ Hx). apply decide_ext. tauto. }
  clear H. destruct H2 as (k & xi & -> & Hxi & Hli & Hpi). split.
  2:{ intros i x' Hx'. destruct (Hbwd _ _ Hx') as (x & Hx & _ & ->). by case_decide. }
  split.
  - congruence.
  - destruct (Hfwd _ _ Hxi) as (xi' & Hxi' & Ht & Hp). exists k, xi'. rewrite Hpi in Hp. rewrite decide_False in Hp by done.
    split_and!; [done|done|by apply (tm_live _ _ _ Ht)|done].
  - intros i x' Hx' Hs Hi. destruct (Hbwd _ _ Hx') as (x & Hx & Ht & Hp).
    assert (Hs0 : pr_state x <> UNUSED) by (rewrite (tm_unused _ _ _ Ht); done). case_decide as Hc.
    + destruct (Hfwd _ _ Hxi) as (xi' & Hxi' & Hti & _). exists k, xi'. split_and!; [done|by intros ->|done|by apply (tm_live _ _ _ Hti)].
    + destruct (H3 _ _ Hx Hs0 Hi) as (q & y & Hq & Hqi & Hy & Hl). destruct (Hfwd _ _ Hy) as (y' & Hy' & Hty & _). exists q, y'.
      split_and!; [congruence|done|done|by apply (tm_live _ _ _ Hty)].
  - intros i x' Hx' Hs. destruct (Hbwd _ _ Hx') as (x & Hx & Ht & Hp). rewrite Hp.
    rewrite (H4 i x Hx) by (by apply (tm_unused _ _ _ Ht)). by rewrite decide_False.
  - intros i x' j y' Hx' [Hw1 Hw2] Hy' Hpy Hz. destruct (Hbwd _ _ Hx') as (x & Hx & Ht & _). destruct (Hbwd _ _ Hy') as (y & Hy & Hty & Hp).
    rewrite Hp in Hpy. case_decide as Hc.
    + injection Hpy as <-. by apply (Haw k eq_refl ltac:(by exists j, y) x' Hx').
    + eapply (H5 i x j y Hx); [by eapply (tm_chan _ _ _ Ht)|done|done|by apply (tm_zombie _ _ _ Hty)].
  - intros i x' k' Hx' Hs Hc. destruct (Hbwd _ _ Hx') as (x & Hx & Ht & _). destruct (tm_chan _ _ _ Ht Hs k' Hc). by eapply H6.
  - intros i x' Hx' Hs. destruct (Hbwd _ _ Hx') as (x & Hx & Ht & _).
    pose proof (tm_pid _ _ _ Ht) as Ep. simpl in Ep. rewrite Ep. eapply H7; [done|]. by rewrite (tm_unused _ _ _ Ht).
  - intros i j x' y' Hx' Hy' Hs1 Hs2 Hp. destruct (Hbwd _ _ Hx') as (x & Hx & Ht & _). destruct (Hbwd _ _ Hy') as (y & Hy & Hty & _).
    eapply (H8 i j x y); [done|done|by rewrite (tm_unused _ _ _ Ht)|by rewrite (tm_unused _ _ _ Hty)|].
    pose proof (tm_pid _ _ _ Ht) as E1. pose proof (tm_pid _ _ _ Hty) as E2. simpl in *. congruence.
Qed.

Lemma tree_zombie p x q init np T : tree_ok T init np -> init <> Some p -> T !! p = Some x -> live x ->
  (forall i y, T !! i = Some y -> pr_parent y <> Some p) -> pr_parent x = Some q -> awake q T ->
  tree_ok (<[p := set_state ZOMBIE x]> T) init np.
Proof.
  intros [H1 H2 H3 H4 H5 H6 H7 H8] Hip Hx Hl Hch Hq Haw. pose proof (lookup_lt_Some _ _ _ Hx) as Hlt.
  split.
  - by rewrite length_insert.
  - destruct H2 as (i & xi & -> & Hxi & ?). exists i, xi. split; [done|]. split; [apply insert_other; [congruence|done]|done].
  - intros i y [[-> ->]|[Hne Hy]]%insert_cases Hs Hi.
    + destruct (H3 _ _ Hx ltac:(apply Hl) Hi) as (q' & z & Hp & Hqi & Hz & Hlz). exists q', z. split_and!; [done|done|by apply insert_other|apply Hlz..].
    + destruct (H3 _ _ Hy Hs Hi) as (q' & z & Hp & Hqi & Hz & Hlz). exists q', z.
      split_and!; [done|done|apply insert_other; [|done]|apply Hlz..]. intros ->. by apply (Hch i y).
  - intros i y [[-> ->]|[Hne Hy]]%insert_cases Hs; [done|by eapply H4].
  - intros i y j z [[-> ->]|[Hne Hy]]%insert_cases Hw Hz Hp; [by destruct Hw|]. apply insert_cases in Hz as [[-> ->]|[Hne' Hz]].
    + simpl in Hp. rewrite Hq in Hp. injection Hp as ->. by destruct (Haw y Hy).
    + by eapply (H5 i y j z).
  - intros i y k [[-> ->]|[Hne Hy]]%insert_cases Hs Hc; [done|by eapply H6].
  - intros i y [[-> ->]|[Hne Hy]]%insert_cases Hs; [apply (H7 p x Hx), Hl|by eapply H7].
  - intros i j y z [[-> ->]|[Hne Hy]]%insert_cases [[-> ->]|[Hne' Hz]]%insert_cases Hs1 Hs2 Hp; [done| | |by eapply (H8 i j y z)].
    + by eapply (H8 p j x z); [..|apply Hl| |].
    + by eapply (H8 i p y x); [..|apply Hl|].
Qed.

(** ** Wait and fork *)

Lemma tree_free p x init np T : tree_ok T init np -> T !! p = Some x -> pr_state x = ZOMBIE \/ pr_state x = UNUSED ->
  tree_ok (<[p := freed x]> T) init np.
Proof.
  intros [H1 H2 H3 H4 H5 H6 H7 H8] Hx Hs. assert (Hnl : ~ live x) by (intros [? ?]; destruct Hs; done). split.
  - by rewrite length_insert.
  - destruct H2 as (i & xi & -> & Hxi & Hl & ?). exists i, xi. split; [done|]. split; [apply insert_other; [congruence|done]|done].
  - intros i y [[-> ->]|[Hne Hy]]%insert_cases Hu Hi; [done|].
    destruct (H3 _ _ Hy Hu Hi) as (q' & z & Hp & Hqi & Hz & Hlz). exists q', z.
    split_and!; [done|done|apply insert_other; [|done]|apply Hlz..]. intros ->. congruence.
  - intros i y [[-> ->]|[Hne Hy]]%insert_cases Hu; [done|by eapply H4].
  - intros i y j z [[-> ->]|[Hne Hy]]%insert_cases Hw Hz Hp; [by destruct Hw|]. apply insert_cases in Hz as [[-> ->]|[Hne' Hz]]; [done|].
    by eapply (H5 i y j z).
  - intros i y k [[-> ->]|[Hne Hy]]%insert_cases Hu Hc; [done|by eapply H6].
  - intros i y [[-> ->]|[Hne Hy]]%insert_cases Hu; [done|by eapply H7].
  - intros i j y z [[-> ->]|[Hne Hy]]%insert_cases [[-> ->]|[Hne' Hz]]%insert_cases Hs1 Hs2 Hp; [done..|by eapply (H8 i j y z)].
Qed.

(** A process with children, none of them a zombie, goes to sleep in [wait]. *)
Lemma tree_sleep p x init np T : tree_ok T init np -> T !! p = Some x -> live x ->
  (forall i y, T !! i = Some y -> pr_parent y = Some p -> pr_state y <> ZOMBIE) ->
  tree_ok (<[p := set_state SLEEPING (set_chan (Some (ChProc p)) x)]> T) init np.
Proof.
  intros [H1 H2 H3 H4 H5 H6 H7 H8] Hx Hl Hch. pose proof (lookup_lt_Some _ _ _ Hx) as Hlt. split.
  - by rewrite length_insert.
  - destruct H2 as (i & xi & -> & Hxi & Hli & ?). exists i. destruct (decide (i = p)) as [->|].
    + eexists. rewrite list_lookup_insert_eq by done. split; [done|]. split; [done|]. split; [by split|]. simpl. congruence.
    + exists xi. split; [done|]. split; [by apply insert_other|done].
  - assert (Hlive : forall q z, T !! q = Some z -> live z -> exists z', <[p := set_state SLEEPING (set_chan (Some (ChProc p)) x)]> T !! q = Some z' /\ live z').
    { intros q z Hz Hlz. destruct (decide (q = p)) as [->|]; [|exists z; split; [by apply insert_other|done]].
      eexists. rewrite list_lookup_insert_eq by done. split; [done|]. by split. }
    intros i y [[-> ->]|[Hne Hy]]%insert_cases Hu Hi.
    + destruct (H3 _ _ Hx ltac:(apply Hl) Hi) as (q & z & Hp & Hqi & Hz & Hlz). destruct (Hlive _ _ Hz Hlz) as (z' & ? & ?). by exists q, z'.
    + destruct (H3 _ _ Hy Hu Hi) as (q & z & Hp & Hqi & Hz & Hlz). destruct (Hlive _ _ Hz Hlz) as (z' & ? & ?). by exists q, z'.
  - intros i y [[-> ->]|[Hne Hy]]%insert_cases Hu; [done|by eapply H4].
  - intros i y j z [[-> ->]|[Hne Hy]]%insert_cases Hw Hz Hp; apply insert_cases in Hz as [[-> ->]|[Hne' Hz]]; [done|by eapply Hch|done|].
    by eapply (H5 i y j z).
  - intros i y k [[-> ->]|[Hne Hy]]%insert_cases Hu Hc; [by injection Hc as <-|by eapply H6].
  - intros i y [[-> ->]|[Hne Hy]]%insert_cases Hu; [apply (H7 p x Hx), Hl|by eapply H7].
  - intros i j y z [[-> ->]|[Hne Hy]]%insert_cases [[-> ->]|[Hne' Hz]]%insert_cases Hs1 Hs2 Hp; [done| | |by eapply (H8 i j y z)].
    + by eapply (H8 p j x z); [..|apply Hl| |].
    + by eapply (H8 i p y x); [..|apply Hl|].
Qed.

(** A new process takes an unused entry. *)
Lemma tree_fork p c x xp y init np T : tree_ok T init np -> T !! c = Some x -> pr_state x = UNUSED ->
  T !! p = Some xp -> live xp -> pr_state y = RUNNABLE -> pr_parent y = Some p -> pr_pid y = np -> 0 < np ->
  tree_ok (<[c := y]> T) init (np + 1).
Proof.
  intros [H1 H2 H3 H4 H5 H6 H7 H8] Hx Hu Hxp Hlp Hy1 Hy2 Hy3 Hnp. pose proof (lookup_lt_Some _ _ _ Hx) as Hlt.
  assert (Hnc : forall i z, T !! i = Some z -> live z -> i <> c) by (intros i z Hz [Hl _] ->; congruence).
  split.
  - by rewrite length_insert.
  - destruct H2 as (i & xi & -> & Hxi & Hli & ?). exists i, xi. split; [done|]. split; [apply insert_other; [by eapply Hnc|done]|done].
  - intros i z [[-> ->]|[Hne Hz]]%insert_cases Hs Hi.
    + exists p, xp. split_and!; [done|by eapply Hnc|apply insert_other; [by eapply Hnc|done]|apply Hlp..].
    + destruct (H3 _ _ Hz Hs Hi) as (q & z' & Hp & Hqi & Hz' & Hlz). exists q, z'.
      split_and!; [done|done|apply insert_other; [by eapply Hnc|done]|apply Hlz..].
  - intros i z [[-> ->]|[Hne Hz]]%insert_cases Hs; [congruence|by eapply H4].
  - intros i z j z' [[-> ->]|[Hne Hz]]%insert_cases Hw Hz' Hp; [destruct Hw; congruence|].
    apply insert_cases in Hz' as [[-> ->]|[Hne' Hz']]; [by rewrite Hy1|]. by eapply (H5 i z j z').
  - intros i z k [[-> ->]|[Hne Hz]]%insert_cases Hs Hc; [congruence|by eapply H6].
  - intros i z [[-> ->]|[Hne Hz]]%insert_cases Hs; [lia|]. specialize (H7 i z Hz Hs). lia.
  - intros i j z z' [[-> ->]|[Hne Hz]]%insert_cases [[-> ->]|[Hne' Hz']]%insert_cases Hs1 Hs2 Hp; [done| | |by eapply (H8 i j z z')].
    + specialize (H7 j z' Hz' Hs2). lia.
    + specialize (H7 i z Hz Hs1). lia.
Qed.

Lemma tree_pid_mono T init np np' : tree_ok T init np -> np <= np' -> tree_ok T init np'.
Proof. intros [] Hle. split; try done. intros i x Hx Hs. specialize (to_pid0 i x Hx Hs). lia. Qed.
