(* ===== verification/ProcSteps.v ===== *)
(** The routines of kernel/proc.c keep the tree of processes in order. *)

From S2P Require Import Prelude Bytes KMonad Kstring Riscv Kalloc Vm Fs Printf Proc ProcSpec ProcTree.

Section steps.
Context {sy : Symbols} {ts : TextSyms} {E : Type} {eops : FileOps E} {elaws : FileLaws E}.
Implicit Types (w : world (pst E)) (x y : proc).

Definition init w : option nat := pt_initproc (w_st w).
Definition cur w : nat := my_idx (w_me w).
Definition tree w : Prop := tree_ok (procs w) (init w) (pt_nextpid (w_st w)).

(** The running process is [x] of the table. *)
Definition running w x : Prop := procs w !! cur w = Some x /\ pr_state x = RUNNING.

Lemma running_live w x : running w x -> live x.
Proof. intros [_ H]. by split; rewrite H. Qed.

Lemma tree_to w T w' : to_procs w T w' -> tree_ok T (init w) (pt_nextpid (w_st w)) -> tree w'.
Proof. intros [[H1 H2 H3] E']. unfold tree, init in *. by rewrite E', H2, H3. Qed.

(** ** Exit *)

Lemma adopt_one pp p ini T T' x : T !! pp = Some x -> pr_parent x = Some p -> tamed (<[pp := set_parent ini x]> T) T' ->
  adopt pp (S pp) p ini T T'.
Proof.
  intros Hx Hp [L H]. split; [by rewrite L, length_insert|]. intros i y' Hy'. destruct (H _ _ Hy') as (y & Hy & Ht).
  apply insert_cases in Hy as [[-> ->]|[Hne Hy]].
  - exists x. split; [done|]. rewrite decide_True by (split; [lia|done]). split; [|by rewrite (tm_parent _ _ _ Ht)].
    destruct Ht. by split.
  - exists y. split; [done|]. rewrite decide_False by lia. split; [|apply Ht]. destruct Ht. by split.
Qed.

Lemma wlp_reparent_loop p n : forall pp w (Q : () -> world (pst E) -> Prop), (length (procs w) <= NPROC)%nat ->
  (forall w', same_but_procs w w' -> adopt pp (pp + n) p (init w) (procs w) (procs w') ->
     (forall k, init w = Some k -> k <> cur w ->
        (exists i x, (pp <= i < pp + n)%nat /\ procs w !! i = Some x /\ pr_parent x = Some p) -> awake k (procs w')) -> Q () w') ->
  wlp (reparent_loop n pp p) Q w.
Proof.
  induction n as [|n IH]; intros pp w Q Hl HQ; cbn [reparent_loop].
  { apply wlp_ret, HQ; [done| |].
    - apply adopt_tamed; [left; lia|apply tamed_refl].
    - intros k _ _ (i & x & Hi & _). lia. }
  apply wlp_bind, wlp_pload. intros x Hx. apply wlp_bind. destruct (decide (pr_parent x = Some p)) as [Hp|Hp].
  - apply wlp_bind, wlp_gets, wlp_bind, wlp_passign. intros x' w1 Hx' H1. assert (x' = x) as -> by congruence. clear Hx'.
    assert (Hl1 : length (procs w1) = length (procs w)) by (by rewrite (proj2 H1), length_insert).
    apply wlp_pwakeup; [lia|]. intros w2 H2. fold (init w) in *.
    assert (Ha : adopt pp (S pp) p (init w) (procs w) (procs w2)).
    { apply (adopt_one _ _ _ _ _ x); [done|done|]. rewrite <- (proj2 H1), (proj2 H2). apply tamed_wake. }
    pose proof (to_procs_trans _ _ _ _ _ H1 H2) as [[E1 E2 E3] _].
    apply IH; [by rewrite (proj2 H2), length_imap, Hl1|]. intros w3 S3 Ha3 Haw3. apply HQ.
    + by etrans; [|exact S3].
    + replace (pp + S n)%nat with (S pp + n)%nat by lia. unfold init in *. rewrite E3 in Ha3. by eapply (adopt_trans _ (S pp)); [lia|..].
    + intros k Hk Hne _. assert (Hak : awake k (procs w2)).
      { rewrite (proj2 H2). rewrite Hk. replace (my_idx (w_me w1)) with (cur w) by (unfold cur; by rewrite (sp_me _ _ (proj1 H1))).
        by apply awake_wake. }
      clear -Ha3 Hak. intros z' Hz' [Hs Hc]. destruct Ha3 as [_ Ha3]. destruct (Ha3 _ _ Hz') as (z & Hz & Ht & _).
      apply (Hak z Hz). by apply (tm_chan _ _ _ Ht).
  - apply wlp_ret, IH; [done|]. intros w3 S3 Ha3 Haw3. apply HQ; [done| |].
    + replace (pp + S n)%nat with (S pp + n)%nat by lia. eapply (adopt_trans _ (S pp)); [lia| |exact Ha3].
      apply adopt_tamed; [right|apply tamed_refl]. intros i y Hy Hi. assert (i = pp) as -> by lia. congruence.
    + intros k Hk Hne (i & y & Hi & Hy & Hpy). apply Haw3; [done|done|]. exists i, y. split; [|done].
      assert (i <> pp) by (intros ->; congruence). lia.
Qed.

Lemma wlp_close_files n : forall fd w (Q : () -> world (pst E) -> Prop),
  (forall w', same_but_procs w w' -> tamed (procs w) (procs w') -> 
     (forall x, running w x -> exists x', running w' x') -> Q () w') -> wlp (close_files n fd (cur w)) Q w.
Proof.
  induction n as [|n IH]; intros fd w Q HQ; cbn [close_files].
  { apply wlp_ret, HQ; [done|apply tamed_refl|by eauto]. }
  apply wlp_bind, wlp_pload. intros x Hx. apply wlp_bind.
  assert (Hskip : wlp (close_files n (S fd) (cur w)) Q w) by (apply IH; intros; by apply HQ).
  destruct (pr_ofile x !! fd) as [[f|]|]; [|by apply wlp_ret..]. clear Hskip.
  apply wlp_bind, wlp_env; [auto with keeps|]. intros [] w1 H1. apply wlp_passign. rewrite (proj2 H1). intros x2 w2 Hx2 H2.
  assert (x2 = x) as -> by congruence. pose proof (to_procs_trans _ _ _ _ _ H1 H2) as [S12 T12].
  replace (cur w) with (cur w2) by (unfold cur; by rewrite (sp_me _ _ S12)). apply IH. intros w3 S3 T3 R3.
  assert (Ht : tamed (procs w) (procs w2)) by (rewrite T12; apply (tamed_insert _ _ x); [done|by split]).
  apply HQ; [by etrans|by eapply tamed_trans|]. intros y [Hy Hyr]. eapply R3. split; [|].
  - rewrite T12. replace (cur w2) with (cur w) by (unfold cur; by rewrite (sp_me _ _ S12)).
    apply list_lookup_insert_eq. by eapply lookup_lt_Some.
  - simpl. congruence.
Qed.

(** The end of [exit], once the children are gone. *)
Lemma wlp_exit_end status x w : tree w -> procs w !! cur w = Some x -> live x -> init w <> Some (cur w) ->
  (forall i y, procs w !! i = Some y -> pr_parent y <> Some (cur w)) ->
  wlp (x ← pload (cur w);
       pwakeup (ChProc <$> pr_parent x);;
       acquire (L_proc (cur w));;
       passign (cur w) (set_xstate status);;
       passign (cur w) (set_state ZOMBIE);;
       release L_wait;;
       sched) (fun _ w' => tree w' /\ w_me w' = w_me w) w.
Proof.
  intros Ht Hx Hl Hip Hch. apply wlp_bind, wlp_pload. intros x' Hx'. assert (x' = x) as -> by congruence. clear Hx'.
  destruct (to_parent _ _ _ Ht _ _ Hx ltac:(apply Hl) Hip) as (q & yq & Hq & Hqc & _). rewrite Hq. cbn [fmap option_fmap option_map].
  apply wlp_bind, wlp_pwakeup; [by rewrite (to_length _ _ _ Ht)|]. intros w1 H1. fold (cur w) in H1.
  pose proof (tree_tamed _ _ _ _ Ht (tamed_wake (cur w) (Some (ChProc q)) (procs w))) as Ht1.
  pose proof (awake_wake (cur w) q (procs w) Hqc) as Haw.
  destruct (tamed_lookup _ _ _ _ (tamed_wake (cur w) (Some (ChProc q)) (procs w)) Hx) as (x1 & Hx1 & T1).
  set (T := imap (wake (cur w) (Some (ChProc q))) (procs w)) in *.
  apply wlp_bind, wlp_lock. intros w2 H2. apply wlp_bind, wlp_passign. intros x3 w3 Hx3 H3. apply wlp_bind, wlp_passign.
  intros x4 w4 Hx4 H4. apply wlp_bind, wlp_unlock. intros w5 H5. apply wlp_sched. intros w6 H6.
  rewrite (proj2 H2), (proj2 H1) in Hx3, H3. assert (x3 = x1) as -> by congruence. rewrite (proj2 H3) in Hx4, H4.
  rewrite list_lookup_insert_eq in Hx4 by (by eapply lookup_lt_Some). injection Hx4 as <-. rewrite (proj2 H4) in H5.
  rewrite (proj2 H5) in H6.
  pose proof (to_procs_trans _ _ _ _ _ H1 (to_procs_trans _ _ _ _ _ H2 (to_procs_trans _ _ _ _ _ H3 (to_procs_trans _ _ _ _ _ H4
    (to_procs_trans _ _ _ _ _ H5 H6))))) as H. clear H1 H2 H3 H4 H5 H6. split; [|apply H].
  eapply tree_to; [exact H|].
  assert (T2 : tamed T (<[cur w := set_xstate status x1]> T)) by (apply (tamed_insert _ _ x1); [done|by split]).
  apply (tree_zombie _ _ q); [by eapply tree_tamed|done|apply list_lookup_insert_eq; by eapply lookup_lt_Some|by apply (tm_live _ _ _ T1)| | |].
  - intros i y' Hy'. destruct (tamed_trans _ _ _ (tamed_wake (cur w) (Some (ChProc q)) (procs w)) T2) as [_ HT].
    destruct (HT _ _ Hy') as (y & Hy & Ty). rewrite (tm_parent _ _ _ Ty). by eapply Hch.
  - simpl. by rewrite (tm_parent _ _ _ T1).
  - by eapply awake_tamed.
Qed.

Lemma wlp_pexit status x w : tree w -> running w x -> wlp (pexit status) (fun _ w' => tree w' /\ w_me w' = w_me w) w.
Proof.
  intros Ht Hr. apply wlp_bind, wlp_mypid, wlp_bind, wlp_gets. fold (init w) (cur w).
  destruct (decide (init w = Some (cur w))) as [|Hip]; [apply wlp_panic|].
  apply wlp_bind, wlp_close_files. intros w1 S1 T1 R1. destruct (R1 _ Hr) as [x1 [Hx1 Hs1]].
  apply wlp_bind, wlp_env; [auto with keeps|]. intros [] w2 H2. apply wlp_bind, wlp_pload. intros x2' _. apply wlp_bind.
  assert (Hiput : forall (R : () -> world (pst E) -> Prop), (forall w', to_procs w2 (procs w2) w' -> R () w') ->
     wlp (match pr_cwd x2' with Some ip => env (e_iput ip) | None => ub "exit: cwd" end) R w2).
  { intros R HR. destruct (pr_cwd x2'); [|apply wlp_ub]. apply wlp_env; [auto with keeps|]. intros []. apply HR. }
  apply Hiput. intros w3 H3. clear Hiput x2'. apply wlp_bind, wlp_env; [auto with keeps|]. intros [] w4 H4.
  apply wlp_bind, wlp_passign. intros x5 w5 Hx5 H5. apply wlp_bind, wlp_lock. intros w6 H6.
  rewrite (proj2 H4), (proj2 H3), (proj2 H2) in Hx5, H5.
  assert (Ec1 : cur w1 = cur w) by (unfold cur; by rewrite (sp_me _ _ S1)). rewrite Ec1 in Hx1.
  assert (x5 = x1) as -> by congruence. rewrite (proj2 H5) in H6.
  pose proof (to_procs_trans _ _ _ _ _ H2 (to_procs_trans _ _ _ _ _ H3 (to_procs_trans _ _ _ _ _ H4
    (to_procs_trans _ _ _ _ _ H5 H6)))) as [S16 E6]. clear H2 H3 H4 H5 H6 Hx5 w2 w3 w4 w5.
  assert (S06 : same_but_procs w w6) by (by etrans). assert (T06 : tamed (procs w) (procs w6)).
  { eapply tamed_trans; [exact T1|]. rewrite E6. apply (tamed_insert _ _ x1); [done|by split]. }
  assert (Ei6 : init w6 = init w) by apply S06. assert (Ec6 : cur w6 = cur w) by (unfold cur; by rewrite (sp_me _ _ S06)).
  pose proof (tree_tamed _ _ _ _ Ht T06) as Ht6. pose proof (to_length _ _ _ Ht6) as Hl6.
  apply wlp_bind, wlp_reparent_loop; [lia|]. intros w7 S7 A7 W7. rewrite Ei6, Ec6 in *.
  destruct (tree_adopt (cur w) (init w) (pt_nextpid (w_st w)) (procs w6) (procs w7) Ht6 Hip A7) as [Ht7 Hch7].
  { intros k Hk (i & y & Hy & Hp). apply (W7 k Hk); [congruence|]. exists i, y. split; [|done]. apply lookup_lt_Some in Hy. lia. }
  destruct (lookup_lt_is_Some_2 (procs w7) (cur w)) as [x7 Hx7].
  { rewrite (proj1 A7), Hl6, <- (to_length _ _ _ Ht). by eapply lookup_lt_Some, (proj1 Hr). }
  assert (Hl7 : live x7).
  { destruct A7 as [_ A7]. destruct (A7 _ _ Hx7) as (x6 & Hx6 & T67 & _). apply (tm_live _ _ _ T67). rewrite E6 in Hx6.
    rewrite list_lookup_insert_eq in Hx6 by (by eapply lookup_lt_Some). injection Hx6 as <-. split; simpl; congruence. }
  assert (S07 : same_but_procs w w7) by (by etrans).
  assert (Ec7 : cur w7 = cur w) by (unfold cur; by rewrite (sp_me _ _ S07)). rewrite <- Ec7.
  eapply wlp_mono; [|apply (wlp_exit_end status x7 w7)].
  - intros _ w' [? ?]. split; [done|]. rewrite <- (sp_me _ _ S07). done.
  - unfold tree, init. rewrite (sp_init _ _ S07), (sp_nextpid _ _ S07). exact Ht7.
  - by rewrite Ec7.
  - done.
  - unfold init. rewrite (sp_init _ _ S07), Ec7. done.
  - rewrite Ec7. exact Hch7.
Qed.

(** ** Wait *)

Lemma wlp_psleep c lk w (Q : () -> world (pst E) -> Prop) :
  (forall x w', procs w !! cur w = Some x ->
     to_procs w (<[cur w := set_state SLEEPING (set_chan (Some c) x)]> (procs w)) w' -> Q () w') -> wlp (psleep c lk) Q w.
Proof.
  intros HQ. apply wlp_bind, wlp_mypid, wlp_bind, wlp_lock. intros w1 H1. apply wlp_bind, wlp_unlock. intros w2 H2.
  rewrite (proj2 H1) in H2. apply wlp_bind, wlp_passign. rewrite (proj2 H2). intros x w3 Hx H3. apply wlp_sched. intros w4 H4.
  rewrite (proj2 H3) in H4. apply (HQ x); [done|].
  exact (to_procs_trans _ _ _ _ _ H1 (to_procs_trans _ _ _ _ _ H2 (to_procs_trans _ _ _ _ _ H3 H4))).
Qed.

Lemma wlp_wait_scan p addr n : forall pp hk w (Q : Z + bool -> world (pst E) -> Prop),
  (forall w', to_procs w (procs w) w' -> Q (inl (-1)) w') ->
  (forall i x w', procs w !! i = Some x -> pr_parent x = Some p -> pr_state x = ZOMBIE ->
     to_procs w (<[i := freed x]> (procs w)) w' -> Q (inl (pr_pid x)) w') ->
  (forall b w', to_procs w (procs w) w' ->
     (forall i x, (pp <= i < pp + n)%nat -> procs w !! i = Some x -> pr_parent x = Some p -> pr_state x <> ZOMBIE) -> Q (inr b) w') ->
  wlp (wait_scan n pp p addr hk) Q w.
Proof.
  induction n as [|n IH]; intros pp hk w Q HQ1 HQ2 HQ3; cbn [wait_scan].
  { apply wlp_ret, HQ3; [apply to_procs_refl|lia]. }
  apply wlp_bind, wlp_pload. intros x Hx.
  assert (Hnext : forall hk w1, to_procs w (procs w) w1 -> (pr_parent x = Some p -> pr_state x <> ZOMBIE) ->
    wlp (wait_scan n (S pp) p addr hk) Q w1).
  { intros hk' w1 H1 Hz. pose proof (proj2 H1) as E1. apply IH; rewrite ?E1.
    - intros w' H. apply HQ1. by eapply to_procs_trans.
    - intros i y w' Hy Hp Hs H. eapply (HQ2 i); [done|done|done|]. by eapply to_procs_trans.
    - intros b w' H Hno. apply HQ3; [by eapply to_procs_trans|]. intros i y Hi Hy Hp.
      destruct (decide (i = pp)) as [->|]; [|eapply (Hno i); [lia|done|done]]. assert (y = x) as -> by congruence. by apply Hz. }
  destruct (decide (pr_parent x = Some p)) as [Hp|Hp]; [|by apply Hnext; [apply to_procs_refl|]].
  apply wlp_bind, wlp_lock. intros w1 H1. apply wlp_bind, wlp_pload. rewrite (proj2 H1). intros x' Hx'. assert (x' = x) as -> by congruence.
  destruct (decide (pr_state x = ZOMBIE)) as [Hz|Hz].
  2:{ apply wlp_bind, wlp_unlock. intros w2 H2. rewrite (proj2 H1) in H2. apply Hnext; [by eapply to_procs_trans|done]. }
  apply wlp_bind, wlp_pload. intros me _. apply wlp_bind.
  assert (Hcp : forall (R : Z -> world (pst E) -> Prop), (forall r w', to_procs w1 (procs w1) w' -> R r w') ->
    wlp (if negb (addr =? 0) then emem (copyout (pr_pagetable me) addr (le_bytes 4 (pr_xstate x))) else mret 0) R w1).
  { intros R HR. destruct (negb (addr =? 0)); [apply wlp_emem; [auto with keeps|exact HR]|apply wlp_ret, HR, to_procs_refl]. }
  apply Hcp. intros r w2 H2. clear Hcp. rewrite (proj2 H1) in H2. destruct (negb (addr =? 0) && (r <? 0)).
  - apply wlp_bind, wlp_unlock. intros w3 H3. apply wlp_bind, wlp_unlock. intros w4 H4. rewrite (proj2 H3), (proj2 H2) in H4. rewrite (proj2 H2) in H3.
    apply wlp_ret, HQ1. exact (to_procs_trans _ _ _ _ _ H1 (to_procs_trans _ _ _ _ _ H2 (to_procs_trans _ _ _ _ _ H3 H4))).
  - apply wlp_bind, wlp_freeproc. rewrite (proj2 H2). intros x3 w3 Hx3 H3. assert (x3 = x) as -> by congruence.
    apply wlp_bind, wlp_unlock. intros w4 H4. apply wlp_bind, wlp_unlock. intros w5 H5. rewrite (proj2 H4), (proj2 H3) in H5. rewrite (proj2 H3) in H4.
    apply wlp_ret. apply (HQ2 pp); [done|done|done|].
    exact (to_procs_trans _ _ _ _ _ H1 (to_procs_trans _ _ _ _ _ H2 (to_procs_trans _ _ _ _ _ H3 (to_procs_trans _ _ _ _ _ H4 H5)))).
Qed.

(** What [wait] gives back: it reaped a zombie child, or failed, or went to
    sleep. *)
Definition wait_result w (seg : segment) w' : Prop :=
  w_me w' = w_me w /\ tree w' /\
  match seg with
  | Returned v =>
      (v = -1 /\ procs w' = procs w) \/
      exists i x, procs w !! i = Some x /\ pr_parent x = Some (cur w) /\ pr_state x = ZOMBIE /\
        v = pr_pid x /\ procs w' = <[i := freed x]> (procs w)
  | Slept c _ => c = ChProc (cur w) /\ exists x, procs w' !! cur w = Some x /\ waiting (cur w) x
  end.

Lemma wlp_wait_round addr x w : tree w -> running w x -> wlp (wait_round addr) (wait_result w) w.
Proof.
  intros Ht [Hx Hr]. apply wlp_bind, wlp_mypid, wlp_bind. fold (cur w). apply wlp_wait_scan.
  - intros w' H. apply wlp_ret. split; [apply H|]. split; [by eapply tree_to|]. left. split; [done|apply H].
  - intros i y w' Hy Hp Hz H. apply wlp_ret. split; [apply H|]. split.
    + eapply tree_to; [exact H|]. apply tree_free; [done|done|by left].
    + right. exists i, y. split_and!; [done..|apply H].
  - intros hk w1 H1 Hno. apply wlp_bind.
    assert (Hk : forall (R : Z -> world (pst E) -> Prop), (forall k w', to_procs w1 (procs w1) w' -> R k w') ->
      wlp (if hk then pkilled (cur w) else mret 0) R w1).
    { intros R HR. destruct hk; [|apply wlp_ret, HR, to_procs_refl]. apply wlp_bind, wlp_lock. intros w2 H2.
      apply wlp_bind, wlp_pload. intros y _. apply wlp_bind, wlp_unlock. intros w3 H3. apply wlp_ret, HR. rewrite (proj2 H2) in H3.
      by eapply to_procs_trans. }
    apply Hk. intros k w2 H2. clear Hk. rewrite (proj2 H1) in H2. pose proof (to_procs_trans _ _ _ _ _ H1 H2) as H12.
    destruct (negb hk || negb (k =? 0)).
    + apply wlp_bind, wlp_unlock. intros w3 H3. rewrite (proj2 H2) in H3. apply wlp_ret.
      pose proof (to_procs_trans _ _ _ _ _ H12 H3) as H. split; [apply H|]. split; [by eapply tree_to|]. left. split; [done|apply H].
    + assert (Ec : cur w2 = cur w) by (unfold cur; by rewrite (sp_me _ _ (proj1 H12))). rewrite <- Ec.
      apply wlp_bind, wlp_psleep. rewrite Ec, (proj2 H2). intros y w3 Hy H3. assert (y = x) as -> by congruence. apply wlp_ret.
      pose proof (to_procs_trans _ _ _ _ _ H12 H3) as H. split; [apply H|]. split.
      * eapply tree_to; [exact H|]. apply tree_sleep; [done|done|by split; rewrite Hr|]. intros i z Hz. apply (Hno i); [|done].
        apply lookup_lt_Some in Hz. rewrite (to_length _ _ _ Ht) in Hz. lia.
      * split; [done|]. eexists. rewrite (proj2 H), list_lookup_insert_eq by (by eapply lookup_lt_Some). split; [done|]. by split.
Qed.

Lemma wlp_pwait addr x w : tree w -> running w x -> wlp (pwait addr) (wait_result w) w.
Proof.
  intros Ht Hr. apply wlp_bind, wlp_lock. intros w1 H1. pose proof (tree_to _ _ _ H1 Ht) as Ht1.
  assert (Ec : cur w1 = cur w) by (unfold cur; by rewrite (sp_me _ _ (proj1 H1))).
  eapply wlp_mono; [|apply (wlp_wait_round addr x w1 Ht1)].
  - unfold wait_result. rewrite Ec, (proj2 H1), (sp_me _ _ (proj1 H1)). done.
  - unfold running. by rewrite Ec, (proj2 H1).
Qed.

(** ** Fork *)

(** [find_unused_proc] leaves the table. *)
Lemma wlp_find_unused n : forall p w (Q : option nat -> world (pst E) -> Prop),
  (forall w', to_procs w (procs w) w' -> Q None w') ->
  (forall i x w', procs w !! i = Some x -> pr_state x = UNUSED -> to_procs w (procs w) w' -> Q (Some i) w') ->
  wlp (find_unused_proc n p) Q w.
Proof.
  induction n as [|n IH]; intros p w Q HN HS; cbn [find_unused_proc]; [by apply wlp_ret, HN|].
  apply wlp_bind, wlp_lock. intros w1 H1. apply wlp_bind, wlp_pload. rewrite (proj2 H1). intros x Hx.
  destruct (decide (pr_state x = UNUSED)) as [Hu|Hu]; [by apply wlp_ret, (HS p x)|].
  apply wlp_bind, wlp_unlock. intros w2 H2. rewrite (proj2 H1) in H2. pose proof (to_procs_trans _ _ _ _ _ H1 H2) as H.
  apply IH; rewrite (proj2 H); intros; [apply HN|eapply HS; [done|done|]]; by eapply to_procs_trans.
Qed.

(** The table and the pid counter after [allocproc]: [y] took the unused
    entry [c], or it was given back. *)
Definition allocated w (c : nat) y w' : Prop :=
  w_me w' = w_me w /\ init w' = init w /\ pt_nextpid (w_st w') = i32 (pt_nextpid (w_st w) + 1) /\
  procs w' = <[c := y]> (procs w) /\ exists x, procs w !! c = Some x /\ pr_state x = UNUSED.

Lemma allocated_to w c y w1 y' w2 : allocated w c y w1 -> to_procs w1 (<[c := y']> (procs w1)) w2 -> allocated w c y' w2.
Proof.
  intros (A1 & A2 & A3 & A4 & A5) [[B1 B2 B3] B4]. unfold allocated, init in *. split_and!; [by etrans|by etrans|by etrans| |done].
  by rewrite B4, A4, list_insert_insert_eq.
Qed.

Lemma allocated_same w c y w1 w2 : allocated w c y w1 -> to_procs w1 (procs w1) w2 -> allocated w c y w2.
Proof.
  intros (A1 & A2 & A3 & A4 & A5) [[B1 B2 B3] B4]. unfold allocated, init in *. split_and!; [by etrans|by etrans|by etrans| |done].
  by rewrite B4, A4.
Qed.

Lemma allocated_lookup w c y w1 : allocated w c y w1 -> procs w1 !! c = Some y.
Proof.
  intros (_ & _ & _ & A4 & x & Hx & _). rewrite A4. apply list_lookup_insert_eq. by eapply lookup_lt_Some.
Qed.

Lemma wlp_assign_alloc w c y w1 f (Q : () -> world (pst E) -> Prop) : allocated w c y w1 ->
  (forall w', allocated w c (f y) w' -> Q () w') -> wlp (passign c f) Q w1.
Proof.
  intros HA HQ. apply wlp_passign. intros x w' Hx H. rewrite (allocated_lookup _ _ _ _ HA) in Hx. injection Hx as <-.
  apply HQ. by eapply allocated_to.
Qed.

Lemma wlp_freeproc_alloc w c y w1 (Q : () -> world (pst E) -> Prop) : allocated w c y w1 ->
  (forall w', allocated w c (freed y) w' -> Q () w') -> wlp (freeproc c) Q w1.
Proof.
  intros HA HQ. apply wlp_freeproc. intros x w' Hx H. rewrite (allocated_lookup _ _ _ _ HA) in Hx. injection Hx as <-.
  apply HQ. by eapply allocated_to.
Qed.

Lemma wlp_allocproc w (Q : option nat -> world (pst E) -> Prop) : tree w ->
  (forall w', to_procs w (procs w) w' -> Q None w') ->
  (forall c y w', allocated w c (freed y) w' -> Q None w') ->
  (forall c y w', allocated w c y w' -> pr_state y = USED -> pr_pid y = pt_nextpid (w_st w) -> pr_parent y = None -> Q (Some c) w') ->
  wlp allocproc Q w.
Proof.
  intros Ht HQ1 HQ2 HQ3. apply wlp_bind, wlp_find_unused; [by intros w1 H1; apply wlp_ret, HQ1|]. intros c x w1 Hx Hu H1.
  apply wlp_bind, wlp_bind, wlp_lock. intros w2 H2. rewrite (proj2 H1) in H2. pose proof (to_procs_trans _ _ _ _ _ H1 H2) as H.
  apply wlp_bind, wlp_gets, wlp_bind, wlp_modify, wlp_bind, wlp_unlock. intros w3 H3. apply wlp_ret.
  assert (A3 : allocated w c x w3).
  { pose proof (proj1 H) as [B1 B2 B3]. pose proof (proj1 H3) as [C1 C2 C3]. unfold allocated, init in *. simpl in *.
    split_and!; [by etrans|by etrans|rewrite C2; by rewrite B2| |by exists x]. rewrite (proj2 H3), list_insert_id; [apply H|done]. }
  rewrite (sp_nextpid _ _ (proj1 H)). clear H1 H2 H3 H w1 w2.
  apply wlp_bind, (wlp_assign_alloc w c x w3); [done|]. intros w4 A4. apply wlp_bind, wlp_emem; [auto with keeps|]. intros tf w5 H5.
  pose proof (allocated_same _ _ _ _ _ A4 H5) as A5. apply wlp_bind, (wlp_assign_alloc w c _ w5 _ _ A5). intros w6 A6.
  assert (Hfail : forall y v, allocated w c y v -> wlp (freeproc c;; release (L_proc c);; mret None) Q v).
  { intros y v A. apply wlp_bind, (wlp_freeproc_alloc w c y v _ A). intros v1 A1. apply wlp_bind, wlp_unlock. intros v2 H2.
    apply wlp_ret. eapply HQ2. by eapply allocated_same. }
  destruct (tf =? 0); [by eapply Hfail|]. apply wlp_bind, wlp_emem; [auto with keeps|]. intros pt w7 H7.
  pose proof (allocated_same _ _ _ _ _ A6 H7) as A7. apply wlp_bind, (wlp_assign_alloc w c _ w7 _ _ A7). intros w8 A8.
  destruct (pt =? 0); [by eapply Hfail|]. apply wlp_bind, (wlp_assign_alloc w c _ w8 _ _ A8). intros w9 A9. apply wlp_ret.
  eapply HQ3; [exact A9|done|done|]. simpl. by eapply (to_unused _ _ _ Ht).
Qed.

(** Entry [y'] is [y] as far as the tree is concerned. *)
Definition same_node y y' : Prop := pr_state y' = pr_state y /\ pr_pid y' = pr_pid y /\ pr_parent y' = pr_parent y.

Lemma wlp_fork_files w c n : forall i p w1 y (Q : () -> world (pst E) -> Prop), allocated w c y w1 ->
  (forall y' w', allocated w c y' w' -> same_node y y' -> Q () w') -> wlp (fork_files n p c i) Q w1.
Proof.
  induction n as [|n IH]; intros i p w1 y Q HA HQ; cbn [fork_files]; [by apply wlp_ret, (HQ y)|].
  apply wlp_bind, wlp_pload. intros x _. apply wlp_bind.
  assert (Hskip : wlp (fork_files n p c (S i)) Q w1) by (by apply (IH _ _ _ y)).
  destruct (pr_ofile x !! i) as [[f|]|]; [|by apply wlp_ret..]. clear Hskip.
  apply wlp_bind, wlp_env; [auto with keeps|]. intros f' w2 H2. pose proof (allocated_same _ _ _ _ _ HA H2) as A2.
  apply (wlp_assign_alloc w c _ w2 _ _ A2). intros w3 A3. eapply IH; [exact A3|]. intros y' w' A' (N1 & N2 & N3). apply (HQ y'); [done|].
  by split_and!.
Qed.

(** What [fork] does to the table. *)
Definition fork_result w (v : Z) w' : Prop :=
  w_me w' = w_me w /\ tree w' /\
  (v = -1 \/ v = pt_nextpid (w_st w) /\ exists c y, procs w' = <[c := y]> (procs w) /\ procs w' !! c = Some y /\ 
     pr_state y = RUNNABLE /\ pr_parent y = Some (cur w) /\ pr_pid y = v).

Lemma fork_fails w c y w' : tree w -> 0 < pt_nextpid (w_st w) < 2 ^ 31 - 1 -> allocated w c (freed y) w' -> fork_result w (-1) w'.
Proof.
  intros Ht Hn (A1 & A2 & A3 & A4 & x & Hx & Hu). split; [done|]. split; [|by left]. unfold tree. rewrite A2, A3, A4, i32_small by lia.
  apply (tree_pid_mono _ _ (pt_nextpid (w_st w))); [|lia].
  assert (E1 : tamed (<[c := freed x]> (procs w)) (<[c := freed y]> (procs w))).
  { replace (<[c := freed y]> (procs w)) with (<[c := freed y]> (<[c := freed x]> (procs w))) by apply list_insert_insert_eq.
    apply (tamed_insert _ _ (freed x)); [|by split]. apply list_lookup_insert_eq. by eapply lookup_lt_Some. }
  eapply tree_tamed; [|exact E1]. apply tree_free; [done|done|by right].
Qed.

Lemma wlp_fork x w : tree w -> running w x -> 0 < pt_nextpid (w_st w) < 2 ^ 31 - 1 -> wlp fork (fork_result w) w.
Proof.
  intros Ht Hr Hn. apply wlp_bind, wlp_mypid, wlp_bind. fold (cur w). apply wlp_allocproc; [done| | |].
  { intros w' H. apply wlp_ret. split; [apply H|]. split; [by eapply tree_to|by left]. }
  { intros c y w' A. apply wlp_ret. by eapply fork_fails. }
  intros c y w1 A1 Hy1 Hy2 Hy3. apply wlp_bind, wlp_pload. intros x' Hx'. apply wlp_bind, wlp_pload. intros y' Hy'.
  rewrite (allocated_lookup _ _ _ _ A1) in Hy'. injection Hy' as <-. apply wlp_bind, wlp_emem; [auto with keeps|]. intros r w2 H2.
  pose proof (allocated_same _ _ _ _ _ A1 H2) as A2. destruct (r <? 0).
  { apply wlp_bind, (wlp_freeproc_alloc w c y w2 _ A2). intros w3 A3. apply wlp_bind, wlp_unlock. intros w4 H4. apply wlp_ret.
    eapply fork_fails; [done|done|]. by eapply allocated_same. }
  apply wlp_bind, (wlp_assign_alloc w c y w2 _ _ A2). intros w3 A3.
  apply wlp_bind, wlp_emem; [auto with keeps|]. intros [] w4 H4. pose proof (allocated_same _ _ _ _ _ A3 H4) as A4.
  apply wlp_bind, wlp_tf_store. intros w5 H5. pose proof (allocated_same _ _ _ _ _ A4 H5) as A5.
  eapply wlp_bind, (wlp_fork_files w c); [exact A5|]. intros y6 w6 A6 (N1 & N2 & N3). apply wlp_bind.
  assert (Hcwd : forall (R : () -> world (pst E) -> Prop), (forall y' w', allocated w c y' w' -> same_node y6 y' -> R () w') ->
    wlp (match pr_cwd x' with Some ip => ip' ← env (e_idup ip); passign c (set_pcwd (Some ip')) | None => ub "fork: cwd" end) R w6).
  { intros R HR. destruct (pr_cwd x'); [|apply wlp_ub]. apply wlp_bind, wlp_env; [auto with keeps|]. intros ip' v H.
    pose proof (allocated_same _ _ _ _ _ A6 H) as A'. apply (wlp_assign_alloc w c _ v _ _ A'). intros v' A''. by eapply HR. }
  apply Hcwd. intros y7 w7 A7 (N4 & N5 & N6). clear Hcwd. apply wlp_bind, (wlp_assign_alloc w c _ w7 _ _ A7). intros w8 A8.
  apply wlp_bind, wlp_pload. intros y8 Hy8. rewrite (allocated_lookup _ _ _ _ A8) in Hy8. injection Hy8 as <-.
  apply wlp_bind, wlp_unlock. intros w9 H9. pose proof (allocated_same _ _ _ _ _ A8 H9) as A9.
  apply wlp_bind, wlp_lock. intros w10 H10. pose proof (allocated_same _ _ _ _ _ A9 H10) as A10.
  apply wlp_bind, (wlp_assign_alloc w c _ w10 _ _ A10). intros w11 A11.
  apply wlp_bind, wlp_unlock. intros w12 H12. pose proof (allocated_same _ _ _ _ _ A11 H12) as A12.
  apply wlp_bind, wlp_lock. intros w13 H13. pose proof (allocated_same _ _ _ _ _ A12 H13) as A13.
  apply wlp_bind, (wlp_assign_alloc w c _ w13 _ _ A13). intros w14 A14.
  apply wlp_bind, wlp_unlock. intros w15 H15. pose proof (allocated_same _ _ _ _ _ A14 H15) as A15. apply wlp_ret.
  clear -A15 Ht Hr Hn Hy1 Hy2 Hy3 N1 N2 N3 N4 N5 N6 elaws. simpl in *.
  pose proof (allocated_lookup _ _ _ _ A15) as Hlk. destruct A15 as (B1 & B2 & B3 & B4 & z & Hz & Hzu).
  split; [done|]. split.
  - unfold tree. rewrite B2, B3, B4, i32_small by lia.
    eapply (tree_fork (cur w) c z x); [exact Ht|done|done|apply Hr|by eapply running_live|done|done| |lia]. simpl. congruence.
  - right. split; [congruence|]. eexists c, _. split_and!; [exact B4|done|done|done|done].
Qed.

(** ** Routines that change one process *)

(** The routine leaves a tame table. *)
Definition tames {A} (m : M (pst E) A) w : Prop :=
  wlp m (fun _ w' => same_but_procs w w' /\ tamed (procs w) (procs w')) w.

Lemma tames_tree {A} (m : M (pst E) A) w : tree w -> tames m w -> wlp m (fun _ w' => tree w' /\ w_me w' = w_me w) w.
Proof.
  intros Ht Hm. eapply wlp_mono; [|exact Hm]. intros a w' [[H1 H2 H3] HT]. split; [|done]. unfold tree, init in *.
  rewrite H2, H3. by eapply tree_tamed.
Qed.

Lemma tamed_step w T w' : to_procs w T w' -> tamed (procs w) T -> same_but_procs w w' /\ tamed (procs w) (procs w').
Proof. intros [H1 ->] H2. by split. Qed.

Lemma tames_pwakeup c w : tree w -> tames (pwakeup c) w.
Proof.
  intros Ht. apply wlp_pwakeup; [by rewrite (to_length _ _ _ Ht)|]. intros w' H. eapply tamed_step; [exact H|apply tamed_wake].
Qed.

Lemma tames_kill_loop pid n : forall p w, tames (kill_loop n p pid) w.
Proof.
  induction n as [|n IH]; intros p w; unfold tames; cbn [kill_loop]; [apply wlp_ret; split; [done|apply tamed_refl]|].
  apply wlp_bind, wlp_lock. intros w1 H1. apply wlp_bind, wlp_pload. rewrite (proj2 H1). intros x Hx. destruct (pr_pid x =? pid).
  - apply wlp_bind, wlp_passign. rewrite (proj2 H1). intros x' w2 Hx' H2. assert (x' = x) as -> by congruence. apply wlp_bind.
    assert (Hk : tame p x (set_killed 1 x)) by (by split).
    destruct (decide (pr_state x = SLEEPING)) as [Hs|Hs].
    + apply wlp_passign. rewrite (proj2 H2). intros x3 w3 Hx3 H3. rewrite list_lookup_insert_eq in Hx3 by (by eapply lookup_lt_Some).
      injection Hx3 as <-. rewrite list_insert_insert_eq in H3. apply wlp_bind, wlp_unlock. intros w4 H4. rewrite (proj2 H3) in H4. apply wlp_ret.
      eapply tamed_step; [exact (to_procs_trans _ _ _ _ _ H1 (to_procs_trans _ _ _ _ _ H2 (to_procs_trans _ _ _ _ _ H3 H4)))|].
      apply (tamed_insert _ _ x); [done|]. eapply tame_trans; [exact Hk|]. apply tame_state; simpl; [congruence|congruence|by left].
    + apply wlp_ret, wlp_bind, wlp_unlock. intros w3 H3. rewrite (proj2 H2) in H3. apply wlp_ret.
      eapply tamed_step; [exact (to_procs_trans _ _ _ _ _ H1 (to_procs_trans _ _ _ _ _ H2 H3))|]. by apply (tamed_insert _ _ x).
  - apply wlp_bind, wlp_unlock. intros w2 H2. rewrite (proj2 H1) in H2. pose proof (to_procs_trans _ _ _ _ _ H1 H2) as [S2 T2].
    eapply wlp_mono; [|apply (IH (S p) w2)]. intros a w3 [S3 T3]. rewrite T2 in T3. split; [by etrans|done].
Qed.

Lemma tames_setkilled p w : tames (setkilled p) w.
Proof.
  apply wlp_bind, wlp_lock. intros w1 H1. apply wlp_bind, wlp_passign. rewrite (proj2 H1). intros x w2 Hx H2.
  apply wlp_unlock. intros w3 H3. rewrite (proj2 H2) in H3.
  eapply tamed_step; [exact (to_procs_trans _ _ _ _ _ H1 (to_procs_trans _ _ _ _ _ H2 H3))|]. apply (tamed_insert _ _ x); [done|by split].
Qed.

Lemma tames_yield x w : running w x -> tames yield w.
Proof.
  intros [Hx Hr]. apply wlp_bind, wlp_mypid, wlp_bind, wlp_lock. intros w1 H1. apply wlp_bind, wlp_passign. rewrite (proj2 H1).
  fold (cur w). intros x' w2 Hx' H2. assert (x' = x) as -> by congruence. apply wlp_sched. intros w3 H3. rewrite (proj2 H2) in H3.
  eapply tamed_step; [exact (to_procs_trans _ _ _ _ _ H1 (to_procs_trans _ _ _ _ _ H2 H3))|]. apply (tamed_insert _ _ x); [done|].
  apply tame_state; [by rewrite Hr|by rewrite Hr|by left].
Qed.

Lemma tames_psleep c lk x w : running w x -> (forall k, c <> ChProc k) -> tames (psleep c lk) w.
Proof.
  intros [Hx Hr] Hc. apply wlp_psleep. intros x' w' Hx' H. assert (x' = x) as -> by congruence. eapply tamed_step; [exact H|].
  apply (tamed_insert _ _ x); [done|]. split; simpl; try done.
  - by rewrite Hr.
  - intros _ k [= E']. by destruct (Hc k).
Qed.

Lemma tames_psleep_resume lk w : tames (psleep_resume lk) w.
Proof.
  apply wlp_bind, wlp_mypid, wlp_bind, wlp_passign. intros x w1 Hx H1. apply wlp_bind, wlp_unlock. intros w2 H2.
  apply wlp_lock. intros w3 H3. rewrite (proj2 H2), (proj2 H1) in H3. rewrite (proj2 H1) in H2.
  eapply tamed_step; [exact (to_procs_trans _ _ _ _ _ H1 (to_procs_trans _ _ _ _ _ H2 H3))|]. apply (tamed_insert _ _ x); [done|].
  by split.
Qed.

Lemma tames_scheduler_try p w : tames (scheduler_try p) w.
Proof.
  apply wlp_bind, wlp_lock. intros w1 H1. apply wlp_bind, wlp_pload. rewrite (proj2 H1). intros x Hx.
  destruct (decide (pr_state x = RUNNABLE)) as [Hs|Hs].
  - apply wlp_bind, wlp_passign. rewrite (proj2 H1). intros x' w2 Hx' H2. assert (x' = x) as -> by congruence. apply wlp_ret.
    eapply tamed_step; [exact (to_procs_trans _ _ _ _ _ H1 H2)|]. apply (tamed_insert _ _ x); [done|].
    apply tame_state; [by rewrite Hs|by rewrite Hs|by right].
  - apply wlp_bind, wlp_unlock. intros w2 H2. rewrite (proj2 H1) in H2. apply wlp_ret.
    eapply tamed_step; [exact (to_procs_trans _ _ _ _ _ H1 H2)|apply tamed_refl].
Qed.

Lemma wlp_pwait_resume addr x w : tree w -> running w x -> wlp (pwait_resume addr) (fun _ w' => tree w' /\ w_me w' = w_me w) w.
Proof.
  intros Ht [Hx Hr]. apply wlp_bind, wlp_bind, wlp_mypid, wlp_bind, wlp_passign. fold (cur w). intros x' w1 Hx' H1.
  assert (x' = x) as -> by congruence. apply wlp_bind, wlp_unlock. intros w2 H2. apply wlp_lock. intros w3 H3.
  rewrite (proj2 H2), (proj2 H1) in H3. rewrite (proj2 H1) in H2.
  pose proof (to_procs_trans _ _ _ _ _ H1 (to_procs_trans _ _ _ _ _ H2 H3)) as H. clear H1 H2 H3.
  assert (Ht3 : tree w3).
  { eapply tree_to; [exact H|]. eapply tree_tamed; [exact Ht|]. apply (tamed_insert _ _ x); [done|by split]. }
  eapply wlp_mono; [|apply (wlp_wait_round addr (set_chan None x) w3 Ht3)].
  - intros seg w' (E1 & ? & _). split; [done|]. rewrite E1. apply H.
  - split; [|done]. rewrite (proj2 H). replace (cur w3) with (cur w) by (unfold cur; by rewrite (sp_me _ _ (proj1 H))).
    apply list_lookup_insert_eq. by eapply lookup_lt_Some.
Qed.
End steps.
