(* ===== verification/ProcProps.v ===== *)
(** What kernel/proc.c promises of the process table, in every order in which
    processes run. *)

From S2P Require Import Prelude Bytes KMonad Kstring Riscv Kalloc Vm Fs Printf Proc ProcSpec ProcTree ProcSteps.

Section props.
Context {sy : Symbols} {ts : TextSyms} {E : Type} {eops : FileOps E} {elaws : FileLaws E}.

Implicit Types (w : world (pst E)).

(** ** Runs *)

(** What a process does in the kernel, up to its next switch. *)
Inductive pcall :=
| CFork
| CExit (status : Z)
| CWait (addr : Z)
| CWaitResume (addr : Z)
| CKill (pid : Z)
| CSetkilled (p : nat)
| CYield
| CSleep (c : wchan) (lk : lock)
| CSleepResume (lk : lock).

Definition run_pcall (c : pcall) : M (pst E) () :=
  match c with
  | CFork => fork;; mret ()
  | CExit status => pexit status
  | CWait addr => pwait addr;; mret ()
  | CWaitResume addr => pwait_resume addr;; mret ()
  | CKill pid => kill pid;; mret ()
  | CSetkilled p => setkilled p
  | CYield => yield
  | CSleep c lk => psleep c lk
  | CSleepResume lk => psleep_resume lk
  end.

(** Only [wait] sleeps on a process; process ids do not wrap. *)
Definition pcall_ok (s : pst E) (c : pcall) : Prop :=
  match c with
  | CFork => 0 < pt_nextpid s < 2 ^ 31 - 1
  | CSleep c lk => forall k, c <> ChProc k
  | _ => True
  end.

(** A running process makes a call; a CPU chooses a process; an interrupt
    handler or a process wakes a channel. *)
Inductive pstep : pst E -> pst E -> Prop :=
| step_call s c m h e x w' :
    pt_procs s !! my_idx m = Some x -> pr_state x = RUNNING -> pcall_ok s c ->
    run_pcall c (World m h e s) = Ok () w' -> pstep s (w_st w')
| step_sched s p m h e w' : scheduler_try p (World m h e s) = Ok true w' -> pstep s (w_st w')
| step_wakeup s c m h e w' : pwakeup (Some c) (World m h e s) = Ok () w' -> pstep s (w_st w').

(** The table when the first process was made: entry [i], the others unused. *)
Definition booted (s : pst E) : Prop :=
  length (pt_procs s) = NPROC /\
  exists i x, pt_initproc s = Some i /\ pt_procs s !! i = Some x /\ pr_state x = RUNNABLE /\ pr_parent x = None /\
    0 < pr_pid x < pt_nextpid s /\
    forall j y, j <> i -> pt_procs s !! j = Some y -> pr_state y = UNUSED /\ pr_parent y = None.

Lemma booted_tree s : booted s -> tree_ok (pt_procs s) (pt_initproc s) (pt_nextpid s).
Proof.
  intros (Hl & i & x & Hi & Hx & Hs & Hp & Hpid & Ho). rewrite Hi.
  assert (Hone : forall j y, pt_procs s !! j = Some y -> pr_state y <> UNUSED -> j = i /\ y = x).
  { intros j y Hy Hu. destruct (decide (j = i)) as [->|Hne]; [split; congruence|]. by destruct (Ho j y Hne Hy). }
  assert (Hpar : forall j y, pt_procs s !! j = Some y -> pr_parent y = None).
  { intros j y Hy. destruct (decide (j = i)) as [->|Hne]; [congruence|]. by destruct (Ho j y Hne Hy). }
  split.
  - done.
  - exists i, x. split_and!; [done|done|split; by rewrite Hs|done].
  - intros j y Hy Hu Hj. by destruct (Hone j y Hy Hu) as [-> _].
  - intros j y Hy _. by eapply Hpar.
  - intros j y k z Hy Hw Hz Hpz. by rewrite (Hpar k z Hz) in Hpz.
  - intros j y k Hy Hsl. destruct (Hone j y Hy) as [-> ->]; [by rewrite Hsl|]. congruence.
  - intros j y Hy Hu. by destruct (Hone j y Hy Hu) as [-> ->].
  - intros j k y z Hy Hz Hu1 Hu2 _. destruct (Hone j y Hy Hu1) as [-> _]. by destruct (Hone k z Hz Hu2) as [-> _].
Qed.

Lemma wlp_run_pcall c x w : tree w -> running w x -> pcall_ok (w_st w) c -> wlp (run_pcall c) (fun _ w' => tree w') w.
Proof.
  intros Ht Hr Hok. assert (Hfst : forall (m : M (pst E) ()), wlp m (fun _ w' => tree w' /\ w_me w' = w_me w) w -> wlp m (fun _ w' => tree w') w).
  { intros m H. eapply wlp_mono; [|exact H]. by intros ? ? [? _]. }
  destruct c as [|status|addr|addr|pid|p| |c lk|lk]; cbn [run_pcall pcall_ok] in *.
  - apply wlp_bind. eapply wlp_mono; [|by apply (wlp_fork x w)]. intros v w' (_ & ? & _). by apply wlp_ret.
  - by apply Hfst, (wlp_pexit status x).
  - apply wlp_bind. eapply wlp_mono; [|by apply (wlp_pwait addr x w)]. intros v w' (_ & ? & _). by apply wlp_ret.
  - apply wlp_bind. eapply wlp_mono; [|by apply (wlp_pwait_resume addr x w)]. intros v w' (? & _). by apply wlp_ret.
  - apply wlp_bind. eapply wlp_mono; [|apply (tames_tree _ w Ht), tames_kill_loop]. intros v w' (? & _). by apply wlp_ret.
  - apply Hfst, tames_tree; [done|apply tames_setkilled].
  - apply Hfst, tames_tree; [done|by eapply tames_yield].
  - apply Hfst, tames_tree; [done|by eapply tames_psleep].
  - apply Hfst, tames_tree; [done|apply tames_psleep_resume].
Qed.

Lemma pstep_tree s s' : tree_ok (pt_procs s) (pt_initproc s) (pt_nextpid s) -> pstep s s' ->
  tree_ok (pt_procs s') (pt_initproc s') (pt_nextpid s').
Proof.
  intros Ht. destruct 1 as [s c m h e x w' Hx Hr Hok Hrun|s p m h e w' Hrun|s c m h e w' Hrun].
  - apply (wlp_elim _ _ (World m h e s) _ _ (wlp_run_pcall c x (World m h e s) Ht (conj Hx Hr) Hok) Hrun).
  - apply (wlp_elim _ _ _ _ _ (tames_tree _ (World m h e s) Ht (tames_scheduler_try p _)) Hrun).
  - apply (wlp_elim _ _ _ _ _ (tames_tree _ (World m h e s) Ht (tames_pwakeup (Some c) (World m h e s) Ht)) Hrun).
Qed.

(** ** Process ids of unused entries *)

Lemma wp_kill_loop_first pid i x n : forall p w, w_held w = [] -> (p <= i < p + n)%nat -> procs w !! i = Some x -> pr_pid x = pid ->
  (forall j y, (p <= j < i)%nat -> procs w !! j = Some y -> pr_pid y <> pid) -> pr_state x <> SLEEPING ->
  wp (kill_loop n p pid) (fun v w' => v = 0 /\ w_held w' = [] /\ w_me w' = w_me w /\
    procs w' = <[i := set_killed 1 x]> (procs w)) w.
Proof.
  induction n as [|n IH]; intros p w Hh Hi Hx Hp Hno Hs; [lia|]. cbn [kill_loop].
  assert (Hpl : forall (Q : proc -> world (pst E) -> Prop) v y, procs v !! p = Some y -> Q y v -> wp (pload p) Q v).
  { intros Q v y Hy HQ. apply wp_bind, wp_gets. unfold procs in Hy. by rewrite Hy. }
  destruct (lookup_lt_is_Some_2 (procs w) p) as [y Hy]; [apply lookup_lt_Some in Hx; lia|].
  apply wp_bind, wp_acquire; [rewrite Hh; apply not_elem_of_nil|]. rewrite Hh. eapply wp_bind, Hpl; [exact Hy|].
  destruct (decide (p = i)) as [->|Hne].
  - assert (y = x) as -> by congruence. rewrite (proj2 (Z.eqb_eq _ _) Hp).
    eapply wp_bind, wp_bind, Hpl; [exact Hy|]. apply wp_modify, wp_bind. rewrite decide_False by done. apply wp_ret.
    eapply wp_bind, wp_release; [done|apply not_elem_of_nil|]. apply wp_ret. split_and!; [done|done|done|].
    unfold procs. simpl. by apply list_alter_insert.
  - rewrite (proj2 (Z.eqb_neq (pr_pid y) pid)) by (eapply (Hno p y); [lia|done]).
    eapply wp_bind, wp_release; [done|apply not_elem_of_nil|].
    eapply wp_mono; [|apply (IH (S p)); [done|lia|done|done| |done]]; [done|]. intros j z Hj. apply Hno. lia.
Qed.

Lemma wlp_find_first_unused i x n : forall p w (Q : option nat -> world (pst E) -> Prop), (p <= i < p + n)%nat ->
  procs w !! i = Some x -> pr_state x = UNUSED -> (forall j y, (p <= j < i)%nat -> procs w !! j = Some y -> pr_state y <> UNUSED) ->
  (forall w', to_procs w (procs w) w' -> Q (Some i) w') -> wlp (find_unused_proc n p) Q w.
Proof.
  induction n as [|n IH]; intros p w Q Hi Hx Hu Hno HQ; [lia|]. cbn [find_unused_proc]. apply wlp_bind, wlp_lock. intros w1 H1.
  apply wlp_bind, wlp_pload. rewrite (proj2 H1). intros y Hy. destruct (decide (p = i)) as [->|Hne].
  - assert (y = x) as -> by congruence. rewrite decide_True by done. by apply wlp_ret, HQ.
  - rewrite decide_False by (apply (Hno p); [lia|done]). apply wlp_bind, wlp_unlock. intros w2 H2. rewrite (proj2 H1) in H2.
    pose proof (to_procs_trans _ _ _ _ _ H1 H2) as H. apply IH; rewrite ?(proj2 H); [lia|done|done| |].
    + intros j z Hj. apply Hno. lia.
    + intros w' H'. apply HQ. by eapply to_procs_trans.
Qed.

(** Entry [i] is marked killed. *)
Definition marked (i : nat) w : Prop := exists y, procs w !! i = Some y /\ pr_killed y = 1.

Lemma marked_to i w T w' : to_procs w T w' -> T = procs w -> marked i w -> marked i w'.
Proof. intros [_ H] HT (y & Hy & Hk). exists y. by rewrite H, HT. Qed.

Lemma wlp_assign_marked i f (Q : () -> world (pst E) -> Prop) w : marked i w -> (forall y, pr_killed (f y) = pr_killed y) ->
  (forall w', marked i w' -> Q () w') -> wlp (passign i f) Q w.
Proof.
  intros (y & Hy & Hk) Hf HQ. apply wlp_passign. intros y' w' Hy' H. assert (y' = y) as -> by congruence. apply HQ. exists (f y).
  rewrite (proj2 H), list_lookup_insert_eq by (by eapply lookup_lt_Some). by rewrite Hf.
Qed.

Lemma wlp_allocproc_marked i w : marked i w -> wlp (allocproc_found i) (fun r w' => match r with Some c => c = i /\ marked i w' | None => True end) w.
Proof.
  intros Hm. apply wlp_bind, wlp_bind, wlp_lock. intros w1 H1. apply wlp_bind, wlp_gets, wlp_bind, wlp_modify, wlp_bind, wlp_unlock.
  intros w2 H2. apply wlp_ret.
  assert (Hm2 : marked i w2).
  { eapply marked_to; [exact H2|done|]. destruct (marked_to _ _ _ _ H1 eq_refl Hm) as (y & Hy & Hk). by exists y. }
  apply wlp_bind, wlp_assign_marked; [done|done|]. intros w3 Hm3. apply wlp_bind, wlp_emem; [auto with keeps|]. intros tf w4 H4.
  pose proof (marked_to _ _ _ _ H4 eq_refl Hm3) as Hm4. apply wlp_bind, wlp_assign_marked; [done|done|]. intros w5 Hm5.
  assert (Hfail : forall v, wlp (freeproc i;; release (L_proc i);; mret None)
    (fun r w' => match r with Some c => c = i /\ marked i w' | None => True end) v).
  { intros v. apply wlp_bind, wlp_freeproc. intros z v1 _ _. apply wlp_bind, wlp_unlock. intros v2 _. by apply wlp_ret. }
  destruct (tf =? 0); [apply Hfail|]. apply wlp_bind, wlp_emem; [auto with keeps|]. intros pt w6 H6.
  pose proof (marked_to _ _ _ _ H6 eq_refl Hm5) as Hm6. apply wlp_bind, wlp_assign_marked; [done|done|]. intros w7 Hm7.
  destruct (pt =? 0); [apply Hfail|]. apply wlp_bind, wlp_assign_marked; [done|done|]. intros w8 Hm8. by apply wlp_ret.
Qed.

(** ** Properties *)

(** C6: the process table.  However fork, exit, wait, kill, sleep, wakeup,
    yield and the scheduler follow each other after the first process was
    made: every process but the first has a live parent, so that each zombie
    can be reaped; no process sleeps in [wait] while one of its children is a
    zombie, so that no exit is missed; unused entries have no parent; and no
    two processes have the same id. *)
Theorem process_tree s0 s : booted s0 -> rtc pstep s0 s -> tree_ok (pt_procs s) (pt_initproc s) (pt_nextpid s).
Proof.
  intros Hb Hrun. apply booted_tree in Hb. induction Hrun as [s|s1 s2 s3 Hs _ IH]; [done|]. by apply IH, (pstep_tree s1).
Qed.

(** C39: [kill(0)].  Unused entries have process id 0, so [kill(0)] finds the
    first of them, marks it killed and returns 0 as if there were such a
    process; [allocproc] takes that entry next and does not clear the mark, so
    that the new process is killed before it runs. *)
Theorem kill_zero_marks_next_process w i x : w_held w = [] -> procs w !! i = Some x -> (i < NPROC)%nat ->
  pr_state x = UNUSED -> pr_pid x = 0 ->
  (forall j y, (j < i)%nat -> procs w !! j = Some y -> pr_pid y <> 0 /\ pr_state y <> UNUSED) ->
  wp (kill 0) (fun v w1 => v = 0 /\ procs w1 = <[i := set_killed 1 x]> (procs w) /\
    forall c w2, allocproc w1 = Ok (Some c) w2 -> c = i /\ exists y, procs w2 !! i = Some y /\ pr_killed y = 1) w.
Proof.
  intros Hh Hx Hi Hu Hp Hno. eapply wp_mono; [|apply (wp_kill_loop_first 0 i x NPROC 0 w Hh); [lia|done|done| |by rewrite Hu]].
  2:{ intros j y Hj. intros Hy. apply (Hno j y); [lia|done]. }
  intros v w1 (-> & Hh1 & Hme & E1). split; [done|]. split; [done|]. intros c w2 Hrun.
  pose proof (lookup_lt_Some _ _ _ Hx) as Hlt.
  assert (Hx1 : procs w1 !! i = Some (set_killed 1 x)) by (by rewrite E1, list_lookup_insert_eq).
  refine (wlp_elim allocproc (fun r w2 => match r with Some c => c = i /\ marked i w2 | None => True end) w1 _ _ _ Hrun).
  apply wlp_bind, (wlp_find_first_unused i (set_killed 1 x)); [lia|done|done| |].
  { intros j y Hj. rewrite E1, list_lookup_insert_ne by lia. intros Hy. apply (Hno j y); [lia|done]. }
  intros w3 H3. apply wlp_allocproc_marked. eapply marked_to; [exact H3|done|]. by eexists.
Qed.
End props.

(** ** Witness *)

Section ex.
#[local] Existing Instance ex_symbols.
#[local] Instance ex_text : TextSyms := {|
  sym_forkret := 0; sym_usertrap := 0; sym_kernelvec := 0; sym_uservec := 0; sym_userret := 0 |}.

(** Files that do nothing. *)
#[local] Instance ex_files : FileOps phys := {
  e_mem s := s;
  e_set_mem _ s := s;
  e_filedup f := mret f;
  e_fileclose _ := mret ();
  e_idup ip := mret ip;
  e_iput _ := mret ();
  e_begin_op := mret ();
  e_end_op := mret ();
  e_namei _ := mret None;
  e_fsinit _ := mret () }.

#[local] Instance ex_file_laws : FileLaws phys.
Proof. split; intros; apply keeps_ret. Qed.

Definition ex_unused : proc := Proc UNUSED None 0 0 0 None 0 0 0 0 (repeat 0 14) (repeat None 16) None (repeat 0 16).
Definition ex_init : proc := Proc RUNNABLE None 0 0 1 None 0 0 0 0 (repeat 0 14) (repeat None 16) (Some 0%nat) (repeat 0 16).
Definition ex_boot : pst phys := PSt ex_phys (ex_init :: repeat ex_unused 63) 2 (Some 0%nat) 0.

Lemma ex_booted : booted ex_boot.
Proof.
  split; [done|]. exists 0%nat, ex_init. split_and!; try done. intros j y Hj Hy. destruct j as [|j]; [done|].
  change (repeat ex_unused 63 !! j = Some y) in Hy. apply list_elem_of_lookup_2, list_elem_of_In, repeat_spec in Hy. by subst.
Qed.

Lemma kill_zero_marks_next_process_witness :
  exists w1, kill 0 (World (Me 0 1 0 0) [] [] ex_boot) = Ok 0 w1 /\ pr_killed <$> procs w1 !! 1%nat = Some 1.
Proof.
  destruct (wp_elim _ _ _ (kill_zero_marks_next_process (World (Me 0 1 0 0) [] [] ex_boot) 1 ex_unused eq_refl eq_refl
    ltac:(unfold NPROC; lia) eq_refl eq_refl
    ltac:(intros j y Hj Hy; destruct j; [injection Hy as <-; done|lia]))) as (v & w1 & Hrun & -> & Hp & _).
  exists w1. split; [exact Hrun|]. rewrite Hp. reflexivity.
Defined.

(** The first process is chosen, and waits: it has no children. *)
Lemma process_tree_witness :
  exists s, rtc pstep ex_boot s /\ tree_ok (pt_procs s) (pt_initproc s) (pt_nextpid s).
Proof.
  assert (Hrun : exists s, rtc pstep ex_boot s).
  { eexists. eapply rtc_l; [|eapply rtc_l; [|apply rtc_refl]].
    - apply (step_sched ex_boot 0 (Me 0 1 0 0) [] []). reflexivity.
    - eapply (step_call _ (CWait 0) (Me 0 1 0 0) [] []); [reflexivity|reflexivity|done|]. by vm_compute. }
  destruct Hrun as [s Hs]. exists s. split; [exact Hs|]. exact (process_tree ex_boot s ex_booted Hs).
Defined.
End ex.
