(* ===== verification/Kernel.v ===== *)
(** What a routine leaves alone.  The block cache, the log and the file system
    change neither the running process nor, unless they copy to a user
    address, the memory of processes, and they leave the lock of the page
    allocator free. *)

From S2P Require Import Prelude KMonad Riscv Kalloc Vm UserMem Pipe Bytes Sleeplock BlockStore Log LogTx Bio Fs File Sysfile Proc ProcSpec.

(** [g] is the part of the state that stays. *)
Definition quiet {S A X} (g : S -> X) (m : M S A) : Prop := forall w, wlp m (fun _ w' =>
  w_me w' = w_me w /\ g (w_st w') = g (w_st w) /\ (L_kmem ∉ w_held w -> L_kmem ∉ w_held w')) w.

(** Nothing of the state stays. *)
Definition none {S} (s : S) : unit := ().

Create HintDb quiet discriminated.
#[export] Hint Constants Opaque : quiet.
#[export] Hint Variables Opaque : quiet.

Section quiet.
Context {S X : Type} (g : S -> X).

Lemma quiet_bind {A B} (m : M S A) (f : A -> M S B) : quiet g m -> (forall a, quiet g (f a)) -> quiet g (m ≫= f).
Proof.
  intros H1 H2 w. apply wlp_bind. eapply wlp_mono; [|apply H1]. intros a w' (E1 & E2 & E3). eapply wlp_mono; [|apply H2].
  intros b w'' (F1 & F2 & F3). split_and!; [congruence|congruence|auto].
Qed.
Lemma quiet_ret {A} (a : A) : quiet g (mret a).
Proof. done. Qed.
Lemma quiet_gets {A} (f : S -> A) : quiet g (gets f).
Proof. done. Qed.
Lemma quiet_get : quiet g get.
Proof. done. Qed.
Lemma quiet_panic {A} s : quiet g (A := A) (panic s).
Proof. done. Qed.
Lemma quiet_ub {A} s : quiet g (A := A) (ub s).
Proof. done. Qed.
Lemma quiet_myproc : quiet g myproc.
Proof. done. Qed.
Lemma quiet_emit e : quiet g (emit e).
Proof. done. Qed.
Lemma quiet_sleep {A} c l : quiet g (A := A) (sleep c l).
Proof. intros w. unfold wlp, sleep. by repeat case_decide. Qed.
Lemma quiet_release l : quiet g (release l).
Proof.
  intros w. apply wlp_release. split_and!; [done..|]. cbn. intros Hw Hin. apply Hw. by apply list_elem_of_filter in Hin as [_ ?].
Qed.
Lemma quiet_acquire l : l <> L_kmem -> quiet g (acquire l).
Proof. intros Hl w. apply wlp_acquire. split_and!; [done..|]. cbn. intros Hw. apply not_elem_of_cons. by split. Qed.
Lemma quiet_modify (f : S -> S) : (forall s, g (f s) = g s) -> quiet g (modify f).
Proof. intros H w. apply wlp_modify. split_and!; [done|apply H|done]. Qed.

(** A component that has no part in what stays, and one that is part of it. *)
Lemma quiet_zoom {T A} (get : S -> T) (put : S -> T -> S) (m : M T A) :
  quiet none m -> (forall s x, g (put s x) = g s) -> quiet g (zoom get put m).
Proof.
  intros H Hp w. unfold wlp, zoom. specialize (H (World (w_me w) (w_held w) (w_evs w) (get (w_st w)))). unfold wlp in H.
  destruct (m _); [|done..]. destruct H as (H1 & _ & H3). split_and!; [done|apply Hp|done].
Qed.
Lemma quiet_zoom_in {T A} (get : S -> T) (put : S -> T -> S) (m : M T A) :
  quiet id m -> (forall s, put s (get s) = s) -> quiet g (zoom get put m).
Proof.
  intros H Hp w. unfold wlp, zoom. specialize (H (World (w_me w) (w_held w) (w_evs w) (get (w_st w)))). unfold wlp in H.
  destruct (m _) as [a w'| | | |]; [|done..]. destruct H as (H1 & H2 & H3). cbn in *. split_and!; [done| |done]. f_equal. by rewrite H2.
Qed.

Lemma quiet_keeps {A} (m : M S A) : quiet g m -> keeps_me m.
Proof. intros H w. eapply wlp_mono; [|apply H]. by intros a w' [? _]. Qed.
End quiet.
#[export] Hint Resolve quiet_ret quiet_gets quiet_get quiet_panic quiet_ub quiet_myproc quiet_emit quiet_sleep quiet_release : quiet.
#[export] Hint Extern 1 (quiet _ (acquire _)) => apply quiet_acquire; discriminate : quiet.
#[export] Hint Extern 1 (quiet _ (wakeup _)) => apply quiet_emit : quiet.
#[export] Hint Extern 1 (quiet _ (printk _)) => apply quiet_emit : quiet.
#[export] Hint Extern 1 (quiet _ (modify _)) => apply quiet_modify; reflexivity : quiet.
#[export] Hint Extern 1 (quiet none (put _)) => intros ?; repeat split; done : quiet.

(** Take a program apart into routines that are quiet. *)
Ltac quiet :=
  repeat (intros; lazymatch goal with
    | |- quiet _ (mbind _ _) => apply quiet_bind
    | |- quiet _ (if ?b then _ else _) => destruct b
    | |- quiet _ (match ?x with _ => _ end) => destruct x
    | IH : forall _, _ |- quiet _ _ => first [solve [auto with quiet nocore] | simple apply IH]
    | |- quiet _ _ => solve [auto with quiet nocore]
    end).

(** ** Sleep locks *)

Section sleeplock.
Context {S X : Type} (k : S -> X) (c : wchan) (g : S -> sleeplock) (p : S -> sleeplock -> S).
Context (Hp : forall s x, k (p s x) = k s).

Lemma quiet_acquiresleep : quiet k (acquiresleep c g p).
Proof using Hp. unfold acquiresleep. quiet. apply quiet_modify. intros. apply Hp. Qed.
Lemma quiet_releasesleep : quiet k (releasesleep c g p).
Proof using Hp. unfold releasesleep. quiet. apply quiet_modify. intros. apply Hp. Qed.
Lemma quiet_holdingsleep : quiet k (holdingsleep c g).
Proof. unfold holdingsleep. quiet. Qed.
End sleeplock.
#[export] Hint Extern 1 (quiet _ (acquiresleep _ _ _)) => apply quiet_acquiresleep; reflexivity : quiet.
#[export] Hint Extern 1 (quiet _ (releasesleep _ _ _)) => apply quiet_releasesleep; reflexivity : quiet.
#[export] Hint Extern 1 (quiet _ (holdingsleep _ _)) => apply quiet_holdingsleep : quiet.

(** ** The block cache *)

Class QuietBlocks (S : Type) {ops : BlockOps S} : Prop := {
  qb_bread dev b : quiet none (BlockStore.bread dev b);
  qb_bwrite i : quiet none (BlockStore.bwrite i);
  qb_brelse i : quiet none (BlockStore.brelse i);
  qb_bpin i : quiet none (BlockStore.bpin i);
  qb_bunpin i : quiet none (BlockStore.bunpin i);
  qb_blockno i : quiet none (buf_blockno i);
  qb_data i : quiet none (buf_data i);
  qb_set_data i d : quiet none (set_buf_data i d) }.
#[export] Hint Resolve qb_bread qb_bwrite qb_brelse qb_bpin qb_bunpin qb_blockno qb_data qb_set_data : quiet.

Lemma quiet_bload b : quiet none (load b).
Proof. unfold load. quiet. Qed.
#[export] Hint Resolve quiet_bload : quiet.
Lemma quiet_assign b f : quiet none (assign b f).
Proof. unfold assign. quiet. Qed.
#[export] Hint Resolve quiet_assign : quiet.
Lemma quiet_find_cached fuel : forall b dev blk, quiet none (find_cached fuel b dev blk).
Proof. induction fuel as [|f IH]; intros; cbn [find_cached]; quiet. Qed.
Lemma quiet_find_unused fuel : forall b, quiet none (find_unused fuel b).
Proof. induction fuel as [|f IH]; intros; cbn [find_unused]; quiet. Qed.
#[export] Hint Resolve quiet_find_cached quiet_find_unused : quiet.
Lemma quiet_bget dev b : quiet none (bget dev b).
Proof. unfold bget. quiet. Qed.
Lemma quiet_disk_rw b wr : quiet none (virtio_disk_rw b wr).
Proof. unfold virtio_disk_rw. quiet. Qed.
#[export] Hint Resolve quiet_bget quiet_disk_rw : quiet.

#[global] Instance quiet_bio : QuietBlocks bcache.
Proof.
  split; intros; cbn [BlockStore.bread BlockStore.bwrite BlockStore.brelse BlockStore.bpin BlockStore.bunpin buf_blockno buf_data set_buf_data bio_ops];
    unfold bread, bwrite, brelse, bpin, bunpin; quiet.
Qed.

(** ** The log *)

Class QuietTx (S : Type) {ops : TxOps S} : Prop := {
  qt_bread dev b : quiet none (tx_bread dev b);
  qt_brelse i : quiet none (tx_brelse i);
  qt_log_write i : quiet none (tx_log_write i);
  qt_data i : quiet none (tx_data i);
  qt_set_data i d : quiet none (tx_set_data i d) }.
#[export] Hint Resolve qt_bread qt_brelse qt_log_write qt_data qt_set_data : quiet.

Section log.
Context {S : Type} {ops : BlockOps S} {q : QuietBlocks S}.

Lemma quiet_bio_call {A} (m : M S A) : quiet none m -> quiet none (bio m).
Proof. intros H. by apply quiet_zoom. Qed.
#[local] Hint Resolve quiet_bio_call : quiet.
Lemma quiet_getlog : quiet none (getlog (S := S)).
Proof. apply quiet_gets. Qed.
Lemma quiet_modlog f : quiet none (modlog (S := S) f).
Proof. by apply quiet_modify. Qed.
#[local] Hint Resolve quiet_getlog quiet_modlog : quiet.
Lemma quiet_lh_get i : quiet none (lh_get (S := S) i).
Proof. unfold lh_get. quiet. Qed.
Lemma quiet_lh_set i b : quiet none (lh_set (S := S) i b).
Proof. unfold lh_set. quiet. Qed.
#[local] Hint Resolve quiet_lh_get quiet_lh_set : quiet.

Lemma quiet_install_loop n : forall tail r, quiet none (install_loop n tail r).
Proof using q. induction n as [|n IH]; intros; cbn [install_loop]; quiet. Qed.
#[local] Hint Resolve quiet_install_loop : quiet.
Lemma quiet_install_trans r : quiet none (install_trans r).
Proof using q. unfold install_trans. quiet. Qed.
Lemma quiet_read_loop n : forall i d, quiet none (read_loop (S := S) n i d).
Proof. induction n as [|n IH]; intros; cbn [read_loop]; quiet. Qed.
Lemma quiet_write_loop n : forall i d, quiet none (write_loop (S := S) n i d).
Proof. induction n as [|n IH]; intros; cbn [write_loop]; quiet. Qed.
#[local] Hint Resolve quiet_install_trans quiet_read_loop quiet_write_loop : quiet.
Lemma quiet_read_head : quiet none read_head.
Proof using q. unfold read_head. quiet. Qed.
Lemma quiet_write_head : quiet none write_head.
Proof using q. unfold write_head. quiet. Qed.
#[local] Hint Resolve quiet_read_head quiet_write_head : quiet.
Lemma quiet_initlog dev sb : quiet none (initlog dev sb).
Proof using q. unfold initlog, recover_from_log. quiet. Qed.
Lemma quiet_begin_op : quiet none (begin_op (S := S)).
Proof. unfold begin_op. quiet. Qed.
Lemma quiet_write_log_loop n : forall tail, quiet none (write_log_loop n tail).
Proof using q. induction n as [|n IH]; intros; cbn [write_log_loop]; quiet. Qed.
#[local] Hint Resolve quiet_write_log_loop : quiet.
Lemma quiet_commit : quiet none commit.
Proof using q. unfold commit, write_log. quiet. Qed.
#[local] Hint Resolve quiet_commit : quiet.
Lemma quiet_end_op : quiet none end_op.
Proof using q. unfold end_op. quiet. Qed.

#[global] Instance quiet_log_tx : QuietTx (logst S).
Proof using q.
  split; intros; cbn [tx_bread tx_brelse tx_log_write tx_data tx_set_data log_tx_ops]; [quiet..|quiet|quiet].
  unfold log_write. quiet.
Qed.
End log.
#[export] Hint Resolve quiet_log_tx quiet_bio quiet_initlog quiet_begin_op quiet_end_op : quiet.

(** ** The file system *)

Section fs.
Context {S U : Type} {tops : TxOps S} {q : QuietTx S} {uops : UserOps U}.
Abbreviation fquiet := (quiet (@f_mem S U)).

Lemma quiet_tx {A} (m : M S A) : quiet none m -> fquiet (tx m).
Proof. intros H. by apply quiet_zoom. Qed.
#[local] Hint Resolve quiet_tx : quiet.
Lemma quiet_getsb : fquiet getsb.
Proof. apply quiet_gets. Qed.
#[local] Hint Resolve quiet_getsb : quiet.
Lemma quiet_fsinit init dev : (forall d sb, quiet none (init d sb)) -> fquiet (fsinit init dev).
Proof using q. intros Hi. unfold fsinit, readsb. quiet. Qed.
Lemma quiet_bzero dev b : fquiet (bzero dev b).
Proof using q. unfold bzero. quiet. Qed.
#[local] Hint Resolve quiet_bzero : quiet.
Lemma quiet_balloc_loop fuel : forall dev b, fquiet (balloc_loop fuel dev b).
Proof using q. induction fuel as [|f IH]; intros; cbn [balloc_loop]; quiet. Qed.
#[local] Hint Resolve quiet_balloc_loop : quiet.
Lemma quiet_balloc dev : fquiet (balloc dev).
Proof using q. unfold balloc. quiet. Qed.
Lemma quiet_bfree dev b : fquiet (bfree dev b).
Proof using q. unfold bfree. quiet. Qed.
Lemma quiet_iload ip : fquiet (iload ip).
Proof. unfold iload. quiet. Qed.
#[local] Hint Resolve quiet_balloc quiet_bfree quiet_iload : quiet.
Lemma quiet_iassign ip f : fquiet (iassign ip f).
Proof. unfold iassign. quiet. Qed.
#[local] Hint Resolve quiet_iassign : quiet.
Lemma quiet_iget_loop n : forall ip dev inum e, fquiet (iget_loop n ip dev inum e).
Proof. induction n as [|n IH]; intros; cbn [iget_loop]; quiet. Qed.
#[local] Hint Resolve quiet_iget_loop : quiet.
Lemma quiet_iget dev inum : fquiet (iget dev inum).
Proof. unfold iget. quiet. Qed.
Lemma quiet_iupdate ip : fquiet (iupdate ip).
Proof using q. unfold iupdate. quiet. Qed.
Lemma quiet_idup ip : fquiet (idup ip).
Proof. unfold idup. quiet. Qed.
#[local] Hint Resolve quiet_iget quiet_iupdate quiet_idup : quiet.
Lemma quiet_ilock ip : fquiet (ilock ip).
Proof using q. unfold ilock. quiet. Qed.
Lemma quiet_iunlock ip : fquiet (iunlock ip).
Proof. unfold iunlock. quiet. Qed.
Lemma quiet_iaddr ip k : fquiet (iaddr ip k).
Proof. unfold iaddr. quiet. Qed.
#[local] Hint Resolve quiet_ilock quiet_iunlock quiet_iaddr : quiet.
Lemma quiet_bmap_ind ip x : fquiet (bmap_ind ip x).
Proof using q. unfold bmap_ind. quiet. Qed.
Lemma quiet_bmap_entry dev ind bn : fquiet (bmap_entry dev ind bn).
Proof using q. unfold bmap_entry. quiet. Qed.
#[local] Hint Resolve quiet_bmap_ind quiet_bmap_entry : quiet.
Lemma quiet_bmap ip bn : fquiet (bmap ip bn).
Proof using q. unfold bmap. quiet. Qed.
#[local] Hint Resolve quiet_bmap : quiet.
Lemma quiet_itrunc_direct n : forall ip i, fquiet (itrunc_direct n ip i).
Proof using q. induction n as [|n IH]; intros; cbn [itrunc_direct]; quiet. Qed.
Lemma quiet_itrunc_indirect n : forall dev d j, fquiet (itrunc_indirect n dev d j).
Proof using q. induction n as [|n IH]; intros; cbn [itrunc_indirect]; quiet. Qed.
#[local] Hint Resolve quiet_itrunc_direct quiet_itrunc_indirect : quiet.
Lemma quiet_itrunc ip : fquiet (itrunc ip).
Proof using q. unfold itrunc. quiet. Qed.
#[local] Hint Resolve quiet_itrunc : quiet.
Lemma quiet_iput ip : fquiet (iput ip).
Proof using q. unfold iput. quiet. Qed.
#[local] Hint Resolve quiet_iput : quiet.
Lemma quiet_iunlockput ip : fquiet (iunlockput ip).
Proof using q. unfold iunlockput. quiet. Qed.
#[local] Hint Resolve quiet_iunlockput : quiet.

(** Reading into a buffer of the kernel. *)
Lemma quiet_kern_copyout bs : fquiet (umem (either_copyout KernDst bs)).
Proof. apply quiet_zoom_in; [apply quiet_ret|by intros []]. Qed.
#[local] Hint Resolve quiet_kern_copyout : quiet.
Lemma quiet_readi_loop fuel : forall ip off n tot got, fquiet (readi_loop fuel ip KernDst off n tot got).
Proof using q. induction fuel as [|f IH]; intros; cbn [readi_loop dst_add]; quiet. Qed.
#[local] Hint Resolve quiet_readi_loop : quiet.
Lemma quiet_readi ip off n : fquiet (readi ip KernDst off n).
Proof using q. unfold readi. quiet. Qed.
#[local] Hint Resolve quiet_readi : quiet.
Lemma quiet_dirlookup_loop fuel : forall dp name off, fquiet (dirlookup_loop fuel dp name off).
Proof using q. induction fuel as [|f IH]; intros; cbn [dirlookup_loop]; quiet. Qed.
#[local] Hint Resolve quiet_dirlookup_loop : quiet.
Lemma quiet_dirlookup dp name : fquiet (dirlookup dp name).
Proof using q. unfold dirlookup. quiet. Qed.
#[local] Hint Resolve quiet_dirlookup : quiet.
Lemma quiet_namex_loop fuel : forall ip path np name, fquiet (namex_loop fuel ip path np name).
Proof using q. induction fuel as [|f IH]; intros; cbn [namex_loop]; quiet. Qed.
#[local] Hint Resolve quiet_namex_loop : quiet.
Lemma quiet_namei junk cwd path : fquiet (namei junk cwd path).
Proof using q. unfold namei, namex. quiet. Qed.
End fs.
#[export] Hint Resolve quiet_tx quiet_fsinit quiet_iload quiet_ilock quiet_iunlock quiet_iput quiet_iunlockput quiet_idup quiet_readi quiet_namei : quiet.

(** The file system, the pipes and the file table as the environment of the
    process table: the interface that kernel/proc.c and kernel/exec.c use is
    implemented by kernel/file.c, kernel/fs.c and kernel/log.c. *)


(** What processes share besides the process table. *)
Record kenv (S : Type) := KEnv {
  en_fs : fsst (logst S) phys;
  en_pipes : gmap Z pipe;
  en_ftable : list file }.
Arguments KEnv {S} _ _ _.
Arguments en_fs {S} _.
Arguments en_pipes {S} _.
Arguments en_ftable {S} _.

(** What kernel/exec.c needs of the file system besides [FileOps]; the
    destination of [x_readi] is memory of the kernel. *)
Class ExecOps (E : Type) := {
  x_namei : nat -> list Z -> M E (option nat);
  x_ilock : nat -> M E ();
  x_iunlockput : nat -> M E ();
  x_readi : nat -> Z -> Z -> M E (Z * list Z) }.

Section kernel.
Context {sy : Symbols} {S : Type} {ops : BlockOps S}.

Definition en_mem (e : kenv S) : phys := f_mem (en_fs e).
Definition en_set_mem (e : kenv S) (m : phys) : kenv S :=
  KEnv (FsSt (f_tx (en_fs e)) (f_sb (en_fs e)) (f_itable (en_fs e)) m) (en_pipes e) (en_ftable e).

(** A routine of kernel/fs.c, and one of kernel/file.c, which here uses
    nothing of a process. *)
Definition efs {A} (m : M (fsst (logst S) phys) A) : M (kenv S) A :=
  zoom en_fs (fun e x => KEnv x (en_pipes e) (en_ftable e)) m.
Definition efile {A} (m : M (kst S phys) A) : M (kenv S) A :=
  zoom (fun e => KSt (en_fs e) (en_pipes e) (en_ftable e) [] 0 0 []) (fun e k => KEnv (k_fs k) (k_pipes k) (k_ftable k)) m.

(** [name0] is the [name] buffer on the stack of [namei]. *)
Definition no_name : list Z := repeat 0 14.

#[global] Instance kernel_files : FileOps (kenv S) := {
  e_mem := en_mem;
  e_set_mem := en_set_mem;
  e_filedup := fun f => efile (filedup f);
  e_fileclose := fun f => efile (fileclose f);
  e_idup := fun ip => efs (idup ip);
  e_iput := fun ip => efs (iput ip);
  e_begin_op := efs (tx begin_op);
  e_end_op := efs (tx end_op);
  e_namei := fun path => efs (namei no_name 0 path);
  e_fsinit := fun dev => efs (fsinit initlog dev) }.

#[global] Instance kernel_exec : ExecOps (kenv S) := {
  x_namei := fun cwd path => efs (namei no_name cwd path);
  x_ilock := fun ip => efs (ilock ip);
  x_iunlockput := fun ip => efs (iunlockput ip);
  x_readi := fun ip off n => efs (readi ip KernDst off n) }.

Context {q : QuietBlocks S}.

Lemma quiet_efs {A} (m : M (fsst (logst S) phys) A) : quiet f_mem m -> quiet en_mem (efs m).
Proof.
  intros H w. unfold wlp, efs, zoom. specialize (H (World (w_me w) (w_held w) (w_evs w) (en_fs (w_st w)))). unfold wlp in H.
  destruct (m _); [|done..]. done.
Qed.
#[local] Hint Resolve quiet_efs : quiet.

Lemma keeps_efs {A} (m : M (fsst (logst S) phys) A) : quiet f_mem m -> keeps_me (efs m).
Proof. intros H. by eapply quiet_keeps, quiet_efs. Qed.

Lemma keeps_kfs {A} (m : M (fsst (logst S) phys) A) : quiet f_mem m -> keeps_me (kfs m).
Proof. intros H. by eapply keeps_zoom, quiet_keeps. Qed.

Lemma keeps_fload f : keeps_me (fload (S := S) (U := phys) f).
Proof. unfold fload. keeps. Qed.
Lemma keeps_fassign f g : keeps_me (fassign (S := S) (U := phys) f g).
Proof. unfold fassign. keeps. Qed.
#[local] Hint Resolve keeps_fload keeps_fassign : keeps.
Lemma keeps_filedup f : keeps_me (filedup (S := S) (U := phys) f).
Proof. unfold filedup. keeps. Qed.

Lemma keeps_getpipe pi : keeps_me (getpipe (U := phys) pi).
Proof. unfold getpipe. keeps. Qed.
Lemma keeps_setpipe pi p : keeps_me (setpipe (U := phys) pi p).
Proof. unfold setpipe. keeps. Qed.
#[local] Hint Resolve keeps_getpipe keeps_setpipe : keeps.
Lemma keeps_pipeclose pi wr : keeps_me (pipeclose pi wr).
Proof. unfold pipeclose, wakeup, pmem, u_kfree, phys_user_ops. keeps. Qed.
#[local] Hint Resolve keeps_pipeclose : keeps.
Lemma keeps_fileclose f : keeps_me (fileclose (S := S) f).
Proof using q.
  unfold fileclose, kpipe, kbegin_op, kend_op. keeps; intros; apply keeps_kfs; auto with quiet.
Qed.

#[global] Instance kernel_file_laws : FileLaws (kenv S).
Proof using q.
  split; intros; [by eapply keeps_zoom, keeps_filedup|by eapply keeps_zoom, keeps_fileclose|..]; apply keeps_efs; auto with quiet.
Qed.
End kernel.
