(* ===== verification/Exec.v ===== *)
(** kernel/exec.c: loading a program.  The files come from the interface
    [ExecOps], page tables from kernel/vm.c. *)

From S2P Require Import Prelude KMonad Kstring Riscv Kalloc Vm Bytes Fs Sysfile Proc Kernel.

(** ** kernel/elf.h *)

Definition ELF_MAGIC : Z := 0x464C457F.
Definition ELF_PROG_LOAD : Z := 1.

Definition get64 (d : list Z) (off : nat) : Z := get_le 8 d off.

Record elfhdr := Elfhdr {
  elf_magic : Z; elf_elf : list Z; elf_type : Z; elf_machine : Z; elf_version : Z; elf_entry : Z; elf_phoff : Z; elf_shoff : Z;
  elf_flags : Z; elf_ehsize : Z; elf_phentsize : Z; elf_phnum : Z; elf_shentsize : Z; elf_shnum : Z; elf_shstrndx : Z }.
Definition sizeof_elfhdr : Z := 64.
Definition elfhdr_of (d : list Z) : elfhdr :=
  Elfhdr (get32 d 0) (slice d 4 12) (get16 d 16) (get16 d 18) (get32 d 20) (get64 d 24) (get64 d 32) (get64 d 40)
    (get32 d 48) (get16 d 52) (get16 d 54) (get16 d 56) (get16 d 58) (get16 d 60) (get16 d 62).

Record proghdr := Proghdr {
  ph_type : Z; ph_flags : Z; ph_off : Z; ph_vaddr : Z; ph_paddr : Z; ph_filesz : Z; ph_memsz : Z; ph_align : Z }.
Definition sizeof_proghdr : Z := 56.
Definition proghdr_of (d : list Z) : proghdr :=
  Proghdr (get32 d 0) (get32 d 4) (get64 d 8) (get64 d 16) (get64 d 24) (get64 d 32) (get64 d 40) (get64 d 48).

(** ** kernel/exec.c *)

Definition flags2perm (flags : Z) : Z :=
  let perm := if negb (Z.land flags 1 =? 0) then PTE_X else 0 in
  if negb (Z.land flags 2 =? 0) then Z.lor perm PTE_W else perm.

(** The part of [path] behind its last slash. *)
Fixpoint last_elem (last s : list Z) : list Z :=
  match s with
  | [] => last
  | c :: s' => last_elem (if c =? SLASH then s' else last) s'
  end.

Section exec.
Context {sy : Symbols} {ts : TextSyms} {E : Type} {eops : FileOps E} {xops : ExecOps E}.
Abbreviation pm := (M (pst E)).

(** The loop of [loadseg] from [i]. *)
Fixpoint loadseg_loop (fuel : nat) (pagetable va : Z) (ip : nat) (offset sz i : Z) : pm Z :=
  match fuel with
  | O => ub "loadseg: fuel"
  | S f =>
      if i <? sz then
        pa ← emem (walkaddr pagetable (u64 (va + i)));
        if pa =? 0 then panic "loadseg: address should exist"
        else
          let n := if sz - i <? PGSIZE then sz - i else PGSIZE in
          r ← env (x_readi ip (u32 (offset + i)) n);
          emem (modify (upd_mem (fun m => write_bytes m pa (snd r))));;
          if negb (u32 (fst r) =? n) then mret (-1)
          else loadseg_loop f pagetable va ip offset sz (u32 (i + PGSIZE))
      else mret 0
  end.

Definition loadseg (pagetable va : Z) (ip : nat) (offset sz : Z) : pm Z :=
  loadseg_loop (S (S (Z.to_nat (sz / PGSIZE)))) pagetable va ip offset sz 0.

(** The label [bad]: [pagetable] and [ip] may be null. *)
Definition exec_bad (pagetable sz : Z) (ip : option nat) : pm Z :=
  (if negb (pagetable =? 0) then emem (proc_freepagetable pagetable sz) else mret ());;
  (match ip with
   | Some ip =>
       env (x_iunlockput ip);;
       env e_end_op
   | None => mret ()
   end);;
  mret (-1).

(** The loop over the program headers, [n] of them left: the size of the
    image, and whether the loop was left by [goto bad]. *)
Fixpoint exec_load (n : nat) (pagetable : Z) (ip : nat) (off sz : Z) : pm (Z * bool) :=
  match n with
  | O => mret (sz, true)
  | S n' =>
      r ← env (x_readi ip (u32 off) sizeof_proghdr);
      if negb (fst r =? sizeof_proghdr) then mret (sz, false)
      else
        let ph := proghdr_of (snd r) in
        if negb (ph_type ph =? ELF_PROG_LOAD) then exec_load n' pagetable ip (i32 (off + sizeof_proghdr)) sz
        else if ph_memsz ph <? ph_filesz ph then mret (sz, false)
        else if u64 (ph_vaddr ph + ph_memsz ph) <? ph_vaddr ph then mret (sz, false)
        else if negb (ph_vaddr ph mod PGSIZE =? 0) then mret (sz, false)
        else
          sz1 ← emem (uvmalloc pagetable sz (u64 (ph_vaddr ph + ph_memsz ph)) (flags2perm (ph_flags ph)));
          if sz1 =? 0 then mret (sz, false)
          else
            r ← loadseg pagetable (ph_vaddr ph) ip (u32 (ph_off ph)) (u32 (ph_filesz ph));
            if r <? 0 then mret (sz1, false)
            else exec_load n' pagetable ip (i32 (off + sizeof_proghdr)) sz1
  end.

(** The loop that pushes the argument strings: the stack pointer and the
    addresses of the strings so far, [None] for [goto bad]. *)
Fixpoint exec_args (pagetable stackbase : Z) (argv : list (list Z)) (sp : Z) (ustack : list Z) : pm (option (Z * list Z)) :=
  match argv with
  | [] => mret (Some (sp, ustack))
  | s :: argv' =>
      if (MAXARG <=? length ustack)%nat then mret None
      else
        let sp := u64 (sp - (Z.of_nat (length s) + 1)) in
        let sp := sp - sp mod 16 in
        if sp <? stackbase then mret None
        else
          r ← emem (copyout pagetable sp (s ++ [0]));
          if r <? 0 then mret None
          else exec_args pagetable stackbase argv' sp (ustack ++ [sp])
  end.

(** The process gets another page table. *)
Definition set_mypagetable (pagetable : Z) : pm () := fun w =>
  Ok () (World (Me (my_idx (w_me w)) (my_pid (w_me w)) pagetable (my_killed (w_me w))) (w_held w) (w_evs w) (w_st w)).

(** From [p->trapframe->a1 = sp] on. *)
Definition exec_commit (path : list Z) (pagetable sz sp entry oldsz argc : Z) : pm Z :=
  p ← mypid;
  x ← pload p;
  tf_store (pr_trapframe x) tf_a1 sp;;
  passign p (fun x => set_name (name_copy (pr_name x) (last_elem path path)) x);;
  passign p (fun x => set_sz sz (set_pagetable pagetable x));;
  set_mypagetable pagetable;;
  tf_store (pr_trapframe x) tf_epc entry;;
  tf_store (pr_trapframe x) tf_sp sp;;
  emem (proc_freepagetable (pr_pagetable x) oldsz);;
  mret argc.

(** The stack, from the second [p = myproc()] on. *)
Definition exec_stack (path : list Z) (argv : list (list Z)) (pagetable sz entry : Z) : pm Z :=
  p ← mypid;
  x ← pload p;
  let oldsz := pr_sz x in
  let sz := PGROUNDUP sz in
  sz1 ← emem (uvmalloc pagetable sz (u64 (sz + 2 * PGSIZE)) PTE_W);
  if sz1 =? 0 then exec_bad pagetable sz None
  else
    let sz := sz1 in
    emem (uvmclear pagetable (sz - 2 * PGSIZE));;
    let stackbase := sz - PGSIZE in
    r ← exec_args pagetable stackbase argv sz [];
    match r with
    | None => exec_bad pagetable sz None
    | Some (sp, ustack) =>
        if (MAXARG <=? length ustack)%nat then ub "ustack: index"
        else
          let argc := Z.of_nat (length ustack) in
          let sp := u64 (sp - (argc + 1) * 8) in
          let sp := sp - sp mod 16 in
          if sp <? stackbase then exec_bad pagetable sz None
          else
            r ← emem (copyout pagetable sp (concat (map (le_bytes 8) (ustack ++ [0]))));
            if r <? 0 then exec_bad pagetable sz None
            else exec_commit path pagetable sz sp entry oldsz argc
    end.

(** With the inode [ip] locked. *)
Definition exec_file (path : list Z) (argv : list (list Z)) (ip : nat) : pm Z :=
  p ← mypid;
  x ← pload p;
  r ← env (x_readi ip 0 sizeof_elfhdr);
  if negb (fst r =? sizeof_elfhdr) then exec_bad 0 0 (Some ip)
  else
    let elf := elfhdr_of (snd r) in
    if negb (elf_magic elf =? ELF_MAGIC) then exec_bad 0 0 (Some ip)
    else
      pagetable ← emem (proc_pagetable (pr_trapframe x));
      if pagetable =? 0 then exec_bad 0 0 (Some ip)
      else
        r ← exec_load (Z.to_nat (elf_phnum elf)) pagetable ip (i32 (elf_phoff elf)) 0;
        let '(sz, ok) := r in
        if negb ok then exec_bad pagetable sz (Some ip)
        else
          env (x_iunlockput ip);;
          env e_end_op;;
          exec_stack path argv pagetable sz (elf_entry elf).

Definition exec (path : list Z) (argv : list (list Z)) : pm Z :=
  p ← mypid;
  x ← pload p;
  env e_begin_op;;
  match pr_cwd x with
  | None => ub "exec: cwd"
  | Some cwd =>
      r ← env (x_namei cwd path);
      match r with
      | None =>
          env e_end_op;;
          mret (-1)
      | Some ip =>
          env (x_ilock ip);;
          exec_file path argv ip
      end
  end.
End exec.
