(* ===== verification/VmSpace.v ===== *)
(** The address space of a process: user pages from address 0 on, and the
    trapframe and trampoline pages at the top.  How the operations of
    kernel/vm.c, and [proc_pagetable] and [proc_freepagetable] of
    kernel/proc.c, build one, change it and give it back. *)

From S2P Require Import Prelude KMonad Kstring Riscv Kalloc Vm VmTable VmSpec VmUser VmFree VmCopy Proc.

Section space.
Context {sy : Symbols} {syok : SymbolsOk sy}.
Implicit Types (s : phys) (m : memory) (root va tf : Z) (l us : list Z) (w : world phys).

(** The page numbers of the trapframe and of the trampoline. *)
Definition NTF : Z := 67108862.
Definition NTRAMP : Z := 67108863.

Lemma MAXVA_pages : MAXVA = 4096 * 67108864.
Proof. done. Qed.

Definition tf_pte tf : Z := mk_pte tf (Z.lor PTE_R PTE_W).
Definition tramp_pte : Z := mk_pte sym_trampoline (Z.lor PTE_R PTE_X).

(** The entry of a user page: valid and readable. *)
Definition user_leaf (v : Z) : Prop := is_set v PTE_V = true /\ is_set v PTE_R = true.

Lemma is_set_bit v k : 0 <= k -> is_set v (Z.shiftl 1 k) = Z.testbit v k.
Proof.
  intros Hk. unfold is_set. rewrite Z.shiftl_1_l. destruct (Z.testbit v k) eqn:E.
  - apply negb_true_iff, Z.eqb_neq. intros H0. apply (f_equal (fun z => Z.testbit z k)) in H0.
    rewrite Z.land_spec, E, Z.pow2_bits_true, Z.bits_0 in H0 by lia. done.
  - apply negb_false_iff, Z.eqb_eq. apply Z.bits_inj'. intros i Hi. rewrite Z.land_spec, Z.bits_0.
    destruct (decide (i = k)) as [->|]; [by rewrite E|]. by rewrite Z.pow2_bits_false, andb_false_r by lia.
Qed.

Lemma flag_bit v k : 0 <= k < 10 -> Z.testbit (PTE_FLAGS v) k = Z.testbit v k.
Proof. intros Hk. rewrite PTE_FLAGS_eq. change 1024 with (2 ^ 10). by rewrite Z.mod_pow2_bits_low by lia. Qed.

Lemma user_leaf_leaf v : user_leaf v -> is_leaf v.
Proof.
  intros [Hv Hr]. split; [done|]. intros E. change PTE_R with (Z.shiftl 1 1) in Hr. rewrite is_set_bit in Hr by lia.
  rewrite <- flag_bit, E in Hr by lia. done.
Qed.

(** [us] are the user pages, in the order of their addresses. *)
Record aspace tf s root l us : Prop := {
  as_ok : vm_ok s root l;
  as_us : pages_of (p_mem s) root 0 (length us) = us;
  as_leaves : forall i, 0 <= i < Z.of_nat (length us) -> user_leaf (pte_at (p_mem s) root (4096 * i));
  as_private : Forall (private (p_mem s) root l) us;
  as_nodup : NoDup us;
  as_top : Z.of_nat (length us) <= NTF;
  as_gap : unmapped_range root s (Z.of_nat (length us)) (NTF - Z.of_nat (length us));
  as_tf : pte_at (p_mem s) root TRAPFRAME = tf_pte tf;
  as_tramp : pte_at (p_mem s) root TRAMPOLINE = tramp_pte }.

(** Address [x] is in none of the pages; memory outside them is the same. *)
Definition outside l (x : Z) : Prop := forall q, q ∈ l -> ~ in_page q x.
Definition frame l m m' : Prop := forall x, outside l x -> rd m' x = rd m x.

(** The pages of an address space. *)
Definition owned m root us : list Z := table_pages m root ++ us.

(** The address space was built, since the state [s0] with the free pages
    [l0], from free pages only. *)
Record built tf s0 l0 s root l us : Prop := {
  bt_as : aspace tf s root l us;
  bt_own : l0 ≡ₚ owned (p_mem s) root us ++ l;
  bt_frame : frame l0 (p_mem s0) (p_mem s) }.

Lemma frame_refl l m : frame l m m.
Proof. done. Qed.
Lemma frame_trans l m1 m2 m3 : frame l m1 m2 -> frame l m2 m3 -> frame l m1 m3.
Proof. intros H1 H2 x Hx. rewrite H2 by done. by apply H1. Qed.
Lemma outside_sub l l' x : (forall q, q ∈ l' -> q ∈ l) -> outside l x -> outside l' x.
Proof. intros H Hx q Hq. by apply Hx, H. Qed.
Lemma frame_sub l l' m m' : (forall q, q ∈ l' -> q ∈ l) -> frame l' m m' -> frame l m m'.
Proof. intros H Hf x Hx. by apply Hf, (outside_sub l). Qed.

Lemma outside_untouched m root l us x : outside (owned m root us ++ l) x -> untouched m root l x.
Proof.
  unfold owned. intros Hx. split; [intros p t Hp Ht|intros q Hq]; apply Hx; rewrite !elem_of_app; [left; left|by right].
  apply table_pages_spec. by exists p.
Qed.

(** ** The two pages at the top *)

Lemma tramp_page : page_addr sym_trampoline.
Proof using syok.
  pose proof tramp_base. pose proof tramp_etext. pose proof etext_end. pose proof end_phystop. pose proof tramp_aligned.
  assert (Hk : KERNBASE = 2147483648) by done. assert (Hp : PHYSTOP = 2281701376) by done. assert (Hg : PGSIZE = 4096) by done. split; [done|]. lia.
Qed.

Lemma mk_pte_leaf pa perm : page_addr pa -> 0 <= perm < 1024 -> Z.lor perm PTE_V <> PTE_V -> is_leaf (mk_pte pa perm).
Proof. intros Hpa Hp Hv. split; [by apply mk_pte_valid|]. by rewrite mk_pte_flags. Qed.

Lemma tf_leaf tf : page_addr tf -> is_leaf (tf_pte tf).
Proof. intros H. apply (mk_pte_leaf tf (Z.lor PTE_R PTE_W)); [exact H|by vm_compute|by vm_compute]. Qed.
Lemma tramp_leaf : is_leaf tramp_pte.
Proof using syok. apply (mk_pte_leaf sym_trampoline (Z.lor PTE_R PTE_X)); [apply tramp_page|by vm_compute|by vm_compute]. Qed.

(** Unmapping one of them. *)
Lemma wp_unmap_top root l k w :
  vm_ok (w_st w) root l -> L_kmem ∉ w_held w -> 0 <= k -> 4096 * (k + 1) <= MAXVA ->
  is_leaf (pte_at (p_mem (w_st w)) root (4096 * k)) ->
  wp (uvmunmap root (4096 * k) 1 false) (fun _ w' => exists s', w' = set_st s' w /\
    shrink root (w_st w) l s' [] /\ cleared root (w_st w) s' k 1) w.
Proof using syok.
  intros Hok Hl Hk Hmax Hleaf. eapply wp_mono; [|apply (wp_uvmunmap root (4096 * k) 1 false l); try done; try lia].
  - intros [] w' (s' & freed & -> & Hsh & Hcl & Hf). apply Permutation_nil_r in Hf as ->. rewrite div_4096 in Hcl. by exists s'.
  - rewrite Z.mul_comm. apply Z.mod_mul. lia.
  - rewrite div_4096. intros i Hi. replace i with k by lia. done.
Qed.

(** ** Giving an address space back *)

Lemma table_pages_nodup s root l : vm_ok s root l -> NoDup (table_pages (p_mem s) root).
Proof using syok. intros H. destruct (table_pages_free _ _ _ H) as [_ Hnd]. by apply NoDup_app in Hnd as [? _]. Qed.

Lemma wp_proc_freepagetable tf root sz l us w :
  aspace tf (w_st w) root l us -> page_addr tf -> L_kmem ∉ w_held w -> 0 <= sz <= MAXVA -> PGROUNDUP sz / 4096 = Z.of_nat (length us) ->
  wp (proc_freepagetable root sz) (fun _ w' => exists s' l', w' = set_st s' w /\ kmem_ok s' l' /\
    l' ≡ₚ owned (p_mem (w_st w)) root us ++ l /\ frame l' (p_mem (w_st w)) (p_mem s')) w.
Proof using syok.
  intros [Hok Hus Hlv Hpr Hnd Htop Hgap Htf Htr] Htfp Hl Hsz Hn. unfold proc_freepagetable.
  change TRAMPOLINE with (4096 * NTRAMP) in *. change TRAPFRAME with (4096 * NTF) in *.
  eapply wp_call; [apply (wp_unmap_top root l NTRAMP); try done; rewrite Htr; apply tramp_leaf|].
  intros [] w1 (s1 & -> & Hsh1 & Hcl1). cbn [set_st w_st] in *.
  assert (Hpte1 : pte_at (p_mem s1) root (4096 * NTF) = tf_pte tf) by (rewrite Hcl1 by (by vm_compute); rewrite decide_False by (rewrite div_4096; unfold NTF, NTRAMP; lia); done).
  eapply wp_call; [apply (wp_unmap_top root l NTF (set_st s1 w)); [apply Hsh1|done|done|done|cbn; rewrite Hpte1; by apply tf_leaf]|].
  intros [] w2 (s2 & -> & Hsh2 & Hcl2). cbn [set_st w_st] in *.
  pose proof (shrink_trans _ _ _ _ _ _ _ Hsh1 Hsh2) as Hsh. cbn [app] in Hsh.
  assert (Hpte : forall i, 0 <= i < Z.of_nat (length us) -> pte_at (p_mem s2) root (4096 * i) = pte_at (p_mem (w_st w)) root (4096 * i)).
  { intros i Hi. unfold NTF, NTRAMP in *. assert (Hr : 0 <= 4096 * i < MAXVA) by (rewrite MAXVA_pages; lia).
    rewrite Hcl2, decide_False by (try done; rewrite div_4096; lia). rewrite Hcl1, decide_False by (try done; rewrite div_4096; lia). done. }
  assert (Hnode : forall p, path_ok p -> node (p_mem s2) root p = node (p_mem (w_st w)) root p) by apply (k_node _ _ _ _ _ Hsh).
  assert (Htab : forall t, table_page (p_mem s2) root t <-> table_page (p_mem (w_st w)) root t).
  { intros t. unfold table_page. split; intros (p & Hp & Ht); exists p; (split; [done|]); [by rewrite <- Hnode|by rewrite Hnode]. }
  assert (Htabs : table_pages (p_mem s2) root ≡ₚ table_pages (p_mem (w_st w)) root).
  { apply NoDup_Permutation; [|by apply table_pages_nodup in Hok|intros t; by rewrite !table_pages_spec].
    eapply table_pages_nodup, Hsh. }
  assert (Hpages : pages_of (p_mem s2) root 0 (length us) = us).
  { rewrite (pages_of_ext (p_mem (w_st w))); [done|]. intros i Hi. apply Hpte. lia. }
  eapply wp_mono; [|apply (wp_uvmfree root sz l (set_st s2 w)); [apply Hsh|done|done|..]]; cbn [w_st set_st]; rewrite ?Hn, ?Nat2Z.id.
  - intros [] w' (s' & l' & -> & Hk & Hl' & Hfr). rewrite Hpages in Hl'. cbn [w_st set_st] in *. exists s', l'. split_and!; [done|done| |].
    + rewrite Hl'. unfold owned. rewrite <- app_assoc. apply Permutation_app_tail, Htabs.
    + intros x Hx. rewrite Hfr by done. apply (k_rest _ _ _ _ _ Hsh), (outside_untouched _ _ _ us). eapply outside_sub; [|exact Hx].
      intros q Hq. rewrite Hl', app_assoc, Htabs. done.
  - intros i Hi. rewrite Hpte by lia. apply user_leaf_leaf, Hlv. lia.
  - split; [|by rewrite Hpages]. intros i Hi. rewrite Hpte by lia. rewrite Forall_forall in Hpr.
    assert (Hin : PTE2PA (pte_at (p_mem (w_st w)) root (4096 * i)) ∈ us) by (rewrite <- Hus; apply pages_of_in; lia).
    specialize (Hpr _ Hin). split_and!; [apply Hpr|by eapply private_not_free|rewrite Htab; by eapply private_not_table].
  - intros va Hva Hin. rewrite Hcl2 by done. case_decide; [apply is_set_0|]. rewrite Hcl1 by done. case_decide; [apply is_set_0|].
    apply Hgap; [done|]. rewrite MAXVA_pages in Hin. rewrite Z.mul_comm, Z.div_mul in Hin by lia. unfold NTF, NTRAMP in *. lia.
Qed.

(** ** Table pages *)

Lemma tables_plus root s l s' l' tabs :
  vm_ok s root l -> vm_ok s' root l' -> NoDup tabs -> (forall t, t ∈ tabs -> t ∈ l) ->
  (forall p t, path_ok p -> node (p_mem s) root p = Some t -> node (p_mem s') root p = Some t) ->
  Forall (table_page (p_mem s') root) tabs ->
  (forall t, table_page (p_mem s') root t -> table_page (p_mem s) root t \/ t ∈ tabs) ->
  table_pages (p_mem s') root ≡ₚ tabs ++ table_pages (p_mem s) root.
Proof using syok.
  intros Hok Hok' Hnd Hsub Hnode Htabs Hnew. apply NoDup_Permutation; [by eapply table_pages_nodup| |].
  - apply NoDup_app. split_and!; [done| |by eapply table_pages_nodup]. intros t Ht Hin. apply table_pages_spec in Hin as (p & Hp & Hn).
    destruct (wf_page _ _ _ (proj2 Hok) p t Hp Hn) as [_ Hl]. by apply Hl, Hsub.
  - intros t. rewrite elem_of_app, !table_pages_spec. split.
    + intros Ht. destruct (Hnew t Ht); [by right|by left].
    + intros [Ht|(p & Hp & Ht)]; [by rewrite Forall_forall in Htabs; apply Htabs|]. exists p. split; [done|]. by apply Hnode.
Qed.

Lemma ext_tables root s l s' l' : vm_ok s root l -> ext root s l s' l' ->
  exists tabs, l = tabs ++ l' /\ table_pages (p_mem s') root ≡ₚ tabs ++ table_pages (p_mem s) root.
Proof using syok.
  intros Hok Hx. destruct (x_used _ _ _ _ _ Hx) as (tabs & Hl & Ht). exists tabs. split; [done|].
  pose proof (proj2 (proj1 Hok)) as Hnd. rewrite Hl in Hnd. apply NoDup_app in Hnd as (Hnd1 & _ & _).
  apply (tables_plus root s l s' l'); try done; [apply Hx|intros t Hin; rewrite Hl; set_solver|apply Hx|].
  intros t (p & Hp & Hn). destruct (x_new _ _ _ _ _ Hx p t Hp Hn) as [Hold|Hin]; [left; by exists p|right].
  rewrite Hl in Hin. apply elem_of_app in Hin as [|Hin]; [done|]. by destruct (wf_page _ _ _ (proj2 (x_ok _ _ _ _ _ Hx)) p t Hp Hn).
Qed.

(** The same for the loops of [uvmalloc]: a page that is neither an old table
    page nor a free page does not become a table page. *)
Lemma rest_tables root s l s' l' us tabs :
  vm_ok s root l -> vm_ok s' root l' -> l ≡ₚ us ++ tabs ++ l' ->
  (forall p t, path_ok p -> node (p_mem s) root p = Some t -> node (p_mem s') root p = Some t) ->
  (forall x, untouched (p_mem s) root l x -> untouched (p_mem s') root l' x) ->
  Forall (table_page (p_mem s') root) tabs -> Forall (private (p_mem s') root l') us ->
  table_pages (p_mem s') root ≡ₚ tabs ++ table_pages (p_mem s) root.
Proof using syok.
  intros Hok Hok' Hl Hnode Hrest Htabs Hus. pose proof (proj2 (proj1 Hok)) as Hnd. rewrite Hl in Hnd.
  apply NoDup_app in Hnd as (_ & _ & Hnd). apply NoDup_app in Hnd as (Hnd & _ & _).
  apply (tables_plus root s l s' l'); try done; [intros t Hin; rewrite Hl; set_solver|]. intros t Ht.
  destruct (decide (t ∈ table_pages (p_mem s) root)) as [Hold|Hno]; [left; by apply table_pages_spec|right].
  pose proof Ht as (p & Hp & Hn). destruct (wf_page _ _ _ (proj2 Hok') p t Hp Hn) as [Hfp Hl'].
  destruct (decide (t ∈ l)) as [Hin|Hnin].
  - rewrite Hl in Hin. apply elem_of_app in Hin as [Hin|[|]%elem_of_app]; [|done|done].
    rewrite Forall_forall in Hus. by destruct (private_not_table _ _ _ _ (Hus t Hin)).
  - exfalso. destruct (private_intro s root l t Hok Hfp Hnin) as [_ Hu]; [by rewrite <- table_pages_spec|].
    destruct (Hrest t (Hu t (base_in_page t))) as [Hunt _]. by apply (Hunt p t Hp Hn), base_in_page.
Qed.

(** ** More user pages *)

Lemma pages_of_app m root k n1 n2 : pages_of m root k (n1 + n2) = pages_of m root k n1 ++ pages_of m root (k + Z.of_nat n1) n2.
Proof.
  revert k. induction n1 as [|n1 IH]; intros k; [by rewrite Z.add_0_r|]. cbn [Nat.add]. rewrite !pages_of_cons, IH.
  cbn [app]. do 3 f_equal. lia.
Qed.

Lemma top_va k : NTF <= k <= NTRAMP -> 0 <= 4096 * k < MAXVA.
Proof. rewrite MAXVA_pages. unfold NTF, NTRAMP. lia. Qed.

Lemma built_step tf s0 l0 s root l us s' l' us' tabs :
  built tf s0 l0 s root l us -> vm_ok s' root l' -> l ≡ₚ us' ++ tabs ++ l' ->
  Forall (table_page (p_mem s') root) tabs -> Forall (private (p_mem s') root l') us' ->
  (forall p t, path_ok p -> node (p_mem s) root p = Some t -> node (p_mem s') root p = Some t) ->
  (forall x, untouched (p_mem s) root l x -> rd (p_mem s') x = rd (p_mem s) x /\ untouched (p_mem s') root l' x) ->
  let k := Z.of_nat (length us) in
  (forall va, 0 <= va < MAXVA -> va / 4096 < k \/ NTF <= va / 4096 -> pte_at (p_mem s') root va = pte_at (p_mem s) root va) ->
  pages_of (p_mem s') root k (length us') = us' ->
  (forall i, k <= i < k + Z.of_nat (length us') -> user_leaf (pte_at (p_mem s') root (4096 * i))) ->
  k + Z.of_nat (length us') <= NTF -> unmapped_range root s' (k + Z.of_nat (length us')) (NTF - (k + Z.of_nat (length us'))) ->
  built tf s0 l0 s' root l' (us ++ us').
Proof using syok.
  intros [[Hok Hus Hlv Hpr Hnd Htop Hgap Htf Htr] Hown Hfr] Hok' Hl Htabs Hpr' Hnode Hrest k Hpte Hpg Hlv' Htop' Hgap'.
  assert (Hlow : forall i, 0 <= i < k -> pte_at (p_mem s') root (4096 * i) = pte_at (p_mem s) root (4096 * i)).
  { intros i Hi. apply Hpte; [rewrite MAXVA_pages; unfold NTF in *; lia|]. rewrite div_4096. lia. }
  assert (Hhigh : forall i, NTF <= i <= NTRAMP -> pte_at (p_mem s') root (4096 * i) = pte_at (p_mem s) root (4096 * i)).
  { intros i Hi. apply Hpte; [by apply top_va|]. rewrite div_4096. lia. }
  pose proof (rest_tables root s l s' l' us' tabs Hok Hok' Hl Hnode (fun x Hx => proj2 (Hrest x Hx)) Htabs Hpr') as Htp.
  split; [split|..]; rewrite ?length_app, ?Nat2Z.inj_add; [exact Hok'| | | | |exact Htop'|exact Hgap'|..].
  - rewrite pages_of_app. fold k. rewrite Z.add_0_l, Hpg. f_equal. rewrite <- Hus at 2. apply pages_of_ext. intros i Hi. apply Hlow. lia.
  - intros i Hi. destruct (Z.lt_ge_cases i k); [rewrite Hlow by lia; apply Hlv; lia|apply Hlv'; lia].
  - apply Forall_app. split; [|done]. eapply Forall_impl; [exact Hpr|]. intros u [Hu Hx]. split; [done|]. intros x Hin. by apply Hrest, Hx.
  - apply NoDup_app. split_and!; [done| |].
    + intros u Hu Hu'. rewrite Forall_forall in Hpr. apply (private_not_free _ _ _ _ (Hpr u Hu)). rewrite Hl. set_solver.
    + pose proof (proj2 (proj1 Hok)) as Hnl. rewrite Hl in Hnl. by apply NoDup_app in Hnl as [? _].
  - change TRAPFRAME with (4096 * NTF) in *. rewrite Hhigh; [exact Htf|unfold NTF, NTRAMP; lia].
  - change TRAMPOLINE with (4096 * NTRAMP) in *. rewrite Hhigh; [exact Htr|unfold NTF, NTRAMP; lia].
  - unfold owned in *. rewrite Hown, Hl, Htp. generalize (table_pages (p_mem s) root). clear. intros T. solve_Permutation.
  - intros x Hx. rewrite <- Hfr by done. apply Hrest. eapply outside_untouched. eapply outside_sub; [|exact Hx]. intros q Hq. by rewrite Hown.
Qed.

(** How many pages there are. *)
Lemma pages_bound l : NoDup l -> Forall free_page l -> Z.of_nat (length l) <= 32768.
Proof using syok.
  intros Hnd Hf. assert (Hsub : l ⊆+ (Z.mul 4096 <$> seqZ 524288 32768)).
  { apply NoDup_submseteq; [done|]. intros q Hq. rewrite Forall_forall in Hf. destruct (Hf q Hq) as [Hal Hr].
    pose proof tramp_base. pose proof tramp_etext. pose proof etext_end. assert (Hk : KERNBASE = 2147483648) by done.
    assert (Hp : PHYSTOP = 2281701376) by done. assert (Hg : PGSIZE = 4096) by done. pose proof (Z.div_mod q 4096 ltac:(lia)).
    apply list_elem_of_fmap. exists (q / 4096). split; [lia|]. apply elem_of_seqZ. lia. }
  apply submseteq_length in Hsub. rewrite length_fmap, length_seqZ in Hsub. lia.
Qed.

(** Distinct pages of the allocator. *)
Definition pages_ok l : Prop := NoDup l /\ Forall free_page l.

Lemma kmem_pages s l : kmem_ok s l -> pages_ok l.
Proof. intros [Hrep Hnd]. split; [done|]. by eapply free_rep_pages. Qed.

Lemma built_bound tf s0 l0 s root l us : pages_ok l0 -> built tf s0 l0 s root l us -> Z.of_nat (length us + length l) <= 32768.
Proof using syok.
  intros [Hnd Hf] [_ Hown _]. pose proof (pages_bound l0 Hnd Hf). apply Permutation_length in Hown. unfold owned in Hown. rewrite !length_app in Hown. lia.
Qed.

(** A request that reaches beyond the space for user pages runs out of
    memory first. *)
Lemma wp_uvmalloc_loop_big root s l k xperm newsz : forall (f fuel : nat) us tabs l1 w,
  0 <= k -> 0 <= xperm < 1024 -> NoDup l ->
  let n := NTF - k in
  unmapped_range root s k n ->
  grown root s l k (fun _ => ualloc_perm xperm) (fun _ _ => 0) (w_st w) us tabs l1 ->
  L_kmem ∉ w_held w -> (length l - length us <= f)%nat -> (f < fuel)%nat -> k + Z.of_nat (length l) < NTF -> 4096 * NTF < newsz ->
  wp (uvmalloc_loop fuel root (4096 * (k + Z.of_nat (length us))) (4096 * k) newsz xperm) (fun r w' =>
    exists s' tabs' l', w' = set_st s' w /\ r = 0 /\ rolled_back root s l k n s' tabs' l') w.
Proof using syok.
  assert (Hlen : forall s' us tabs l', grown root s l k (fun _ => ualloc_perm xperm) (fun _ _ => 0) s' us tabs l' -> (length us <= length l)%nat).
  { intros s' us tabs l' Hg. pose proof (Permutation_length (g_pages _ _ _ _ _ _ _ _ _ _ Hg)) as E. rewrite !length_app in E. lia. }
  pose proof MAXVA_u64 as Hm64. induction f as [|f IH]; intros fuel us tabs l1 w Hk Hx Hnd n Hun Hg Hl Hf Hfu Hroom Hbig;
    (destruct fuel as [|fuel]; [lia|]); cbn [uvmalloc_loop]; pose proof (Hlen _ _ _ _ Hg) as Hus;
    rewrite (proj2 (Z.ltb_lt _ newsz)) by (unfold NTF in *; lia);
    (eapply (wp_add_page root s l k (fun _ => ualloc_perm xperm) (fun _ _ => 0) n us tabs l1 (fun pg m => memset m pg 0 PGSIZE));
      [done|by apply ualloc_perm_ok|done|done|unfold n; lia|unfold n; rewrite MAXVA_pages; unfold NTF; lia|done|intros; apply memset_same_outside|..]).
  all: try (intros; apply memset_rd_in; unfold PGSIZE; lia).
  all: try (intros s' tabs' l' Hg'; eapply wp_bind, wp_mono;
      [|eapply (wp_rollback root s l k (fun _ => ualloc_perm xperm) (fun _ _ => 0) n us tabs' l' (set_st s' w)); try done;
        [by apply ualloc_perm_ok|unfold n; lia|rewrite MAXVA_pages; unfold NTF in *; lia]];
    intros _ w' (s2 & l2 & -> & Hr); apply wp_ret; exists s2, tabs', l2; done).
  - intros s' pg tabs' l' Hg'. pose proof (Hlen _ _ _ _ Hg') as E. rewrite length_app in E. simpl in E. lia.
  - intros s' pg tabs' l' Hg'. unfold PGSIZE. rewrite u64_small by (unfold NTF in *; lia).
    replace (4096 * (k + Z.of_nat (length us)) + 4096) with (4096 * (k + Z.of_nat (length (us ++ [pg])))) by (rewrite length_app; simpl; lia).
    eapply wp_mono; [|eapply (IH fuel (us ++ [pg]) tabs' l' (set_st s' w)); try done; rewrite ?length_app; simpl; lia].
    intros r w' (s2 & tabs2 & l2 & -> & H). by exists s2, tabs2, l2.
Qed.

Lemma ualloc_leaf xperm u : 0 <= xperm < 1024 -> free_page u -> user_leaf (mk_pte u (ualloc_perm xperm)).
Proof using syok.
  intros Hx Hu. apply free_page_addr in Hu. destruct (ualloc_perm_ok xperm 0 1 Hx 0) as [Hp _]; [lia|].
  split; [by apply mk_pte_valid|]. change PTE_R with (Z.shiftl 1 1). rewrite is_set_bit by lia.
  rewrite <- flag_bit, mk_pte_flags by (done || lia). unfold ualloc_perm. rewrite !Z.lor_spec. done.
Qed.

Lemma built_grown tf s0 l0 s root l us xperm s' us' tabs l' :
  built tf s0 l0 s root l us -> 0 <= xperm < 1024 ->
  grown root s l (Z.of_nat (length us)) (fun _ => ualloc_perm xperm) (fun _ _ => 0) s' us' tabs l' ->
  Z.of_nat (length us) + Z.of_nat (length us') <= NTF -> built tf s0 l0 s' root l' (us ++ us').
Proof using syok.
  intros B Hx Hg Htop. pose proof MAXVA_pages as HM. unfold NTF in *.
  assert (Hp : perm_ok (Z.of_nat (length us)) (fun _ => ualloc_perm xperm) (Z.of_nat (length us'))) by (by apply ualloc_perm_ok).
  apply (built_step tf s0 l0 s root l us s' l' us' tabs B); try apply Hg; try done.
  - intros va Hva Hout. rewrite (g_pte _ _ _ _ _ _ _ _ _ _ Hg) by done. rewrite decide_False by (unfold NTF in *; lia). done.
  - eapply grown_pages_of; [|exact Hp|exact Hg|..]; lia.
  - intros i Hi. rewrite (g_pte _ _ _ _ _ _ _ _ _ _ Hg) by lia. rewrite div_4096, decide_True by lia. apply ualloc_leaf; [done|].
    pose proof (g_private _ _ _ _ _ _ _ _ _ _ Hg) as Hpv. rewrite Forall_forall in Hpv. apply Hpv, list_elem_of_In, nth_In. lia.
  - intros va Hva Hin. rewrite (g_pte _ _ _ _ _ _ _ _ _ _ Hg) by done. rewrite decide_False by lia.
    apply (as_gap _ _ _ _ _ (bt_as _ _ _ _ _ _ _ B)); [done|]. unfold NTF in *. lia.
Qed.

Lemma built_rolled_back tf s0 l0 s root l us n s' tabs l' :
  built tf s0 l0 s root l us -> 0 <= n -> Z.of_nat (length us) + n <= NTF ->
  rolled_back root s l (Z.of_nat (length us)) n s' tabs l' -> built tf s0 l0 s' root l' us.
Proof using syok.
  intros B Hn Htop Hr. rewrite <- (app_nil_r us). pose proof (as_gap _ _ _ _ _ (bt_as _ _ _ _ _ _ _ B)) as Hgap.
  apply (built_step tf s0 l0 s root l us s' l' [] tabs B); try apply Hr; try done; cbn [length]; rewrite ?Z.add_0_r.
  - intros va Hva Hout. apply (r_pte _ _ _ _ _ _ _ _ Hr); [done|]. lia.
  - intros i Hi. cbn in Hi. lia.
  - lia.
  - intros va Hva Hin. destruct (decide (Z.of_nat (length us) <= va / 4096 < Z.of_nat (length us) + n)).
    + by apply (r_unmapped _ _ _ _ _ _ _ _ Hr).
    + rewrite (r_pte _ _ _ _ _ _ _ _ Hr) by done. apply Hgap; [done|lia].
Qed.

(** The first [n] pages are accessible to the user. *)
Definition users m root (n : nat) : Prop := forall i, 0 <= i < Z.of_nat n -> is_set (pte_at m root (4096 * i)) PTE_U = true.

Lemma ualloc_user xperm u : 0 <= xperm < 1024 -> free_page u -> is_set (mk_pte u (ualloc_perm xperm)) PTE_U = true.
Proof using syok.
  intros Hx Hu. apply free_page_addr in Hu. destruct (ualloc_perm_ok xperm 0 1 Hx 0) as [Hp _]; [lia|].
  change PTE_U with (Z.shiftl 1 4). rewrite is_set_bit by lia.
  rewrite <- flag_bit, mk_pte_flags by (done || lia). unfold ualloc_perm. rewrite !Z.lor_spec. change (Z.testbit PTE_U 4) with true.
  by rewrite !orb_true_r.
Qed.

Lemma users_grown s root l us xperm s' us' tabs l' :
  0 <= xperm < 1024 -> Z.of_nat (length us) + Z.of_nat (length us') <= NTF ->
  grown root s l (Z.of_nat (length us)) (fun _ => ualloc_perm xperm) (fun _ _ => 0) s' us' tabs l' ->
  users (p_mem s) root (length us) -> users (p_mem s') root (length (us ++ us')).
Proof using syok.
  intros Hx Htop Hg Hu i Hi. pose proof MAXVA_pages as HM. unfold NTF in *. rewrite length_app, Nat2Z.inj_add in Hi.
  rewrite (g_pte _ _ _ _ _ _ _ _ _ _ Hg) by lia. rewrite div_4096. case_decide; [|apply Hu; lia]. apply ualloc_user; [done|].
  pose proof (g_private _ _ _ _ _ _ _ _ _ _ Hg) as Hpv. rewrite Forall_forall in Hpv. apply Hpv, list_elem_of_In, nth_In. lia.
Qed.

Lemma users_rolled_back s root l us n s' tabs l' : Z.of_nat (length us) <= NTF ->
  rolled_back root s l (Z.of_nat (length us)) n s' tabs l' -> users (p_mem s) root (length us) -> users (p_mem s') root (length us).
Proof using syok.
  intros Htop Hr Hu i Hi. pose proof MAXVA_pages as HM. unfold NTF in *.
  rewrite (r_pte _ _ _ _ _ _ _ _ Hr); [by apply Hu|lia|]. rewrite div_4096. lia.
Qed.

(** ** The contents of the user pages *)

(** Where the user address [va] is. *)
Definition upos us va : Z := nth (Z.to_nat (va / 4096)) us 0 + va mod 4096.

(** The user pages hold the bytes of [img], a memory that is indexed by user
    addresses and is 0 behind them. *)
Record holds m us (img : memory) : Prop := {
  ho_in : forall va, 0 <= va < 4096 * Z.of_nat (length us) -> rd m (upos us va) = rd img va;
  ho_out : forall va, 4096 * Z.of_nat (length us) <= va -> rd img va = 0 }.

Lemma upos_page us va : 0 <= va < 4096 * Z.of_nat (length us) ->
  nth (Z.to_nat (va / 4096)) us 0 ∈ us /\ in_page (nth (Z.to_nat (va / 4096)) us 0) (upos us va).
Proof.
  intros Hva. pose proof (Z.div_mod va 4096 ltac:(lia)). pose proof (Z.mod_pos_bound va 4096 ltac:(lia)).
  split; [apply list_elem_of_In, nth_In; lia|]. unfold in_page, upos. lia.
Qed.

Lemma holds_keep m m' us img : (forall u x, u ∈ us -> in_page u x -> rd m' x = rd m x) -> holds m us img -> holds m' us img.
Proof.
  intros Hk [Hi Ho]. split; [|done]. intros va Hva. destruct (upos_page us va Hva) as [Hu Hp]. rewrite (Hk _ _ Hu Hp). by apply Hi.
Qed.

Lemma holds_grow m m' us us' img :
  (forall u x, u ∈ us -> in_page u x -> rd m' x = rd m x) ->
  (forall i o, (i < length us')%nat -> 0 <= o < 4096 -> rd m' (nth i us' 0 + o) = 0) -> holds m us img -> holds m' (us ++ us') img.
Proof.
  intros Hk Hz [Hi Ho]. split; [|intros va Hva; apply Ho; rewrite length_app in Hva; lia]. intros va Hva. rewrite length_app, Nat2Z.inj_add in Hva.
  pose proof (Z.div_mod va 4096 ltac:(lia)). pose proof (Z.mod_pos_bound va 4096 ltac:(lia)). unfold upos.
  destruct (Z.lt_ge_cases va (4096 * Z.of_nat (length us))) as [Hlt|Hge].
  - rewrite app_nth1 by lia. rewrite <- Hi by lia. destruct (upos_page us va ltac:(lia)) as [Hu Hp]. exact (Hk _ _ Hu Hp).
  - rewrite app_nth2 by lia. rewrite Hz by lia. symmetry. by apply Ho.
Qed.

Lemma holds_grown s root l us xperm s' us' tabs l' img :
  Forall (private (p_mem s) root l) us ->
  grown root s l (Z.of_nat (length us)) (fun _ => ualloc_perm xperm) (fun _ _ => 0) s' us' tabs l' ->
  holds (p_mem s) us img -> holds (p_mem s') (us ++ us') img.
Proof.
  intros Hp Hg. apply holds_grow; [|apply Hg]. intros u x Hu Hx. rewrite Forall_forall in Hp. apply (g_rest _ _ _ _ _ _ _ _ _ _ Hg). by apply (Hp u Hu).
Qed.

Lemma holds_rolled_back s root l us k n s' tabs l' img :
  Forall (private (p_mem s) root l) us -> rolled_back root s l k n s' tabs l' -> holds (p_mem s) us img -> holds (p_mem s') us img.
Proof.
  intros Hp Hr. apply holds_keep. intros u x Hu Hx. rewrite Forall_forall in Hp. apply (r_rest _ _ _ _ _ _ _ _ Hr). by apply (Hp u Hu).
Qed.

(** [uvmalloc] on an address space, for sizes of any magnitude. *)
Lemma wp_space_alloc tf s0 l0 root oldsz newsz xperm l us w :
  pages_ok l0 -> built tf s0 l0 (w_st w) root l us -> L_kmem ∉ w_held w -> 0 <= xperm < 1024 ->
  0 <= oldsz <= newsz -> newsz < 2 ^ 64 -> PGROUNDUP oldsz / 4096 = Z.of_nat (length us) -> oldsz <= 4096 * NTF ->
  wp (uvmalloc root oldsz newsz xperm) (fun r w' => exists s' l' us', w' = set_st s' w /\ built tf s0 l0 s' root l' (us ++ us') /\
    (users (p_mem (w_st w)) root (length us) -> users (p_mem s') root (length (us ++ us'))) /\
    (forall img, holds (p_mem (w_st w)) us img -> holds (p_mem s') (us ++ us') img) /\
    ((r = newsz /\ newsz <= 4096 * NTF /\ PGROUNDUP newsz / 4096 = Z.of_nat (length (us ++ us'))) \/ (r = 0 /\ us' = []))) w.
Proof using syok.
  intros Hk0 B Hl Hx Hsz H64 Hold Hotop. pose proof (bt_as _ _ _ _ _ _ _ B) as A. pose proof (as_ok _ _ _ _ _ A) as Hok.
  pose proof (as_gap _ _ _ _ _ A) as Hgap. pose proof (as_top _ _ _ _ _ A) as Htop. pose proof (as_private _ _ _ _ _ A) as Hpv. pose proof (built_bound _ _ _ _ _ _ _ Hk0 B) as Hbd.
  pose proof MAXVA_pages as HM. pose proof MAXVA_u64.
  destruct (Z.le_gt_cases newsz (4096 * NTF)) as [Hle|Hgt].
  - destruct (pgroundup_bounds newsz) as [Ha Hb]; [unfold NTF in *; lia..|]. destruct (pgroundup_bounds oldsz) as [Ha' Hb']; [unfold NTF in *; lia..|].
    pose proof (Z.div_mod (PGROUNDUP newsz) 4096 ltac:(lia)). pose proof (Z.div_mod (PGROUNDUP oldsz) 4096 ltac:(lia)).
    set (n := PGROUNDUP newsz / 4096 - Z.of_nat (length us)).
    assert (Hn : 0 <= n /\ Z.of_nat (length us) + n <= NTF) by (unfold n, NTF in *; lia).
    eapply wp_mono; [|apply (wp_uvmalloc root oldsz newsz xperm l); try done; [unfold NTF in *; lia|]]; cbv zeta; rewrite ?Hold; fold n.
    + intros r w' (s' & -> & [(-> & us' & tabs & l' & Hn' & Hg)|(-> & tabs & l' & Hr)]).
      * exists s', l', us'. split_and!; [done|eapply built_grown; [done| |exact Hg|]; [done|lia]|eapply users_grown; [| |exact Hg]; [done|lia]|intros img; by eapply holds_grown, Hg|]. left. rewrite length_app, Nat2Z.inj_add. split_and!; [done|done|]. unfold n in *. lia.
      * exists s', l', []. rewrite app_nil_r. split_and!; [done|eapply built_rolled_back; [done| | |exact Hr]; lia|eapply users_rolled_back; [|exact Hr]; lia|intros img; by eapply holds_rolled_back, Hr|]. by right.
    + intros va Hva Hin. apply Hgap; [done|]. lia.
  - unfold uvmalloc. rewrite (proj2 (Z.ltb_ge _ _)) by lia. destruct (pgroundup_bounds oldsz) as [Ha' Hb']; [unfold NTF in *; lia..|].
    pose proof (Z.div_mod (PGROUNDUP oldsz) 4096 ltac:(lia)) as Hdm. rewrite Hold, Ha', Z.add_0_r in Hdm. rewrite Hdm. set (fuel := S (S _)).
    pose proof (wp_uvmalloc_loop_big root (w_st w) l (Z.of_nat (length us)) xperm newsz (length l) fuel [] [] l w) as Hbig.
    cbn [length Z.of_nat] in Hbig. rewrite Z.add_0_r, Nat.sub_0_r in Hbig. eapply wp_mono; [|apply Hbig]; try done.
    + intros r w' (s' & tabs' & l' & -> & -> & Hr). exists s', l', []. rewrite app_nil_r.
      split_and!; [done|eapply built_rolled_back; [done| | |exact Hr]; lia|eapply users_rolled_back; [|exact Hr]; lia|intros img; by eapply holds_rolled_back, Hr|]. by right.
    + lia.
    + apply Hok.
    + by apply grown_nil.
    + unfold fuel, PGSIZE, NTF in *. assert (Z.of_nat (length l) <= (newsz - 4096 * Z.of_nat (length us)) / 4096); [|lia].
      apply Z.div_le_lower_bound; lia.
    + unfold NTF in *. lia.
Qed.

(** ** A new address space *)

(** Free pages, as before and in no other place. *)
Definition given_back s0 l0 s l : Prop := kmem_ok s l /\ l ≡ₚ l0 /\ frame l0 (p_mem s0) (p_mem s).

Lemma zero_page_children m q i : filled q 0 m -> idx i -> child m q i = None.
Proof.
  intros Hz Hi. unfold child. replace (load64 m (q + 8 * i)) with 0; [done|]. symmetry.
  transitivity (load64 (fun _ => 0) (q + 8 * i)); [|done]. apply load_le_ext. intros x Hx. rewrite Hz; [done|]. unfold in_page, idx in *. lia.
Qed.

Lemma zero_page_nodes m q p t : filled q 0 m -> path_ok p -> node m q p = Some t -> p = [] /\ t = q.
Proof.
  intros Hz [_ Hp]. destruct p as [|i p]; cbn [node]; [by intros [= ->]|]. apply Forall_cons in Hp as [Hi _].
  by rewrite zero_page_children.
Qed.

Lemma zero_table s q l :
  kmem_ok s l -> free_page q -> q ∉ l -> filled q 0 (p_mem s) ->
  vm_ok s q l /\ table_pages (p_mem s) q ≡ₚ [q] /\ forall va, pte_at (p_mem s) q va = 0.
Proof using syok.
  intros Hk Hq Hql Hz. assert (Hn := fun p t => zero_page_nodes (p_mem s) q p t Hz).
  assert (Hok : vm_ok s q l).
  { split; [done|]. split.
    - intros p t Hp Ht. by destruct (Hn p t Hp Ht) as [_ ->].
    - intros p p' t Hp Hp' Ht Ht'. destruct (Hn p t Hp Ht) as [-> _], (Hn p' t Hp' Ht') as [-> _]. done.
    - intros p t i Hp _ Hi Ht Hv. destruct (Hn p t Hp Ht) as [_ ->].
      pose proof (zero_page_children _ _ _ Hz Hi) as Hc. unfold child in Hc. by rewrite Hv in Hc.
    - intros i c Hi Hc. by rewrite zero_page_children in Hc. }
  split_and!; [done| |].
  - apply NoDup_Permutation; [by eapply table_pages_nodup|apply NoDup_singleton|]. intros t. rewrite table_pages_spec, list_elem_of_singleton.
    split; [intros (p & Hp & Ht); by destruct (Hn p t Hp Ht) as [_ ->]|intros ->]. exists []. split; [apply path_ok_nil|done].
  - intros va. unfold pte_at, leaf_table. destruct (node (p_mem s) q (leaf_path va)) as [t|] eqn:E; [|done].
    by destruct (Hn _ t (leaf_path_ok va) E) as [E' _].
Qed.

Lemma wp_uvmcreate l (Q : Z -> world phys -> Prop) w :
  kmem_ok (w_st w) l -> L_kmem ∉ w_held w -> (l = [] -> Q 0 w) ->
  (forall q l' s', l = q :: l' -> q <> 0 -> vm_ok s' q l' -> table_pages (p_mem s') q ≡ₚ [q] ->
     (forall va, pte_at (p_mem s') q va = 0) -> same_outside q (p_mem (w_st w)) (p_mem s') -> Q q (set_st s' w)) ->
  wp uvmcreate Q w.
Proof using syok.
  intros Hk Hl H0 HQ. unfold uvmcreate. apply wp_bind. eapply wp_kalloc; [done|done|intros ->; by apply H0|].
  intros q l' s1 -> Hq Hql Hk1 _ Hs1. pose proof (free_page_pos q Hq). rewrite (proj2 (Z.eqb_neq q 0)) by lia.
  apply wp_bind, wp_modify, wp_ret. cbn [w_st set_st]. 
  pose proof (kmem_ok_write s1 l' q (fun m => memset m q 0 PGSIZE) Hk1 Hq Hql (fun m => memset_same_outside q 0 m)) as Hk2.
  assert (Hz : filled q 0 (memset (p_mem s1) q 0 PGSIZE)) by (intros x Hx; apply memset_rd_in; unfold in_page, PGSIZE in *; lia).
  assert (Hs2 := memset_same_outside q 0 (p_mem s1)).
  change (memset (p_mem s1) q 0 PGSIZE) with (p_mem (upd_mem (fun m => memset m q 0 PGSIZE) s1)) in Hz, Hs2.
  set (s2 := upd_mem _ s1) in *. change (Q q (set_st s2 w)). clearbody s2.
  destruct (zero_table s2 q l' Hk2 Hq Hql Hz) as (Hok & Htp & Hpte). apply (HQ q l' s2); try done; [lia|].
  intros x Hx. rewrite Hs2 by done. by apply Hs1.
Qed.

(** A table that was built from free pages and maps no user page yet. *)
Record table s0 l0 s root l : Prop := {
  tb_ok : vm_ok s root l;
  tb_own : l0 ≡ₚ table_pages (p_mem s) root ++ l;
  tb_frame : frame l0 (p_mem s0) (p_mem s) }.

Lemma wp_map_top s0 l0 root l k pa perm w :
  table s0 l0 (w_st w) root l -> L_kmem ∉ w_held w -> NTF <= k <= NTRAMP -> page_addr pa -> pa + 4096 <= 2 ^ 56 -> 0 <= perm < 1024 ->
  is_set (pte_at (p_mem (w_st w)) root (4096 * k)) PTE_V = false ->
  wp (mappages root (4096 * k) PGSIZE pa perm) (fun r w' => exists s' l', w' = set_st s' w /\ table s0 l0 s' root l' /\
    ((r = 0 /\ mapped root (w_st w) s' k 1 pa perm) \/ (r = -1 /\ mapped root (w_st w) s' k 0 pa perm))) w.
Proof using syok.
  intros [Hok Hown Hfr] Hl Hk Hpa Hpa2 Hperm Hun. pose proof MAXVA_pages as HM. unfold NTF, NTRAMP in *.
  assert (Ek : (4096 * k + PGSIZE - 1) / 4096 - 4096 * k / 4096 + 1 = 1) by (apply mapped_page; lia).
  eapply wp_mono; [|apply (wp_mappages root (4096 * k) PGSIZE pa perm l); try done; rewrite ?Ek; try done; unfold PGSIZE; try lia].
  - intros r w' (s' & l' & j & -> & Hx & Hmap & Hres). rewrite Ek, div_4096 in *. exists s', l'.
    destruct (ext_tables _ _ _ _ _ Hok Hx) as (tabs & Hl' & Htp). split_and!; [done|split|].
    + apply Hx.
    + rewrite Hown, Hl', Htp. generalize (table_pages (p_mem (w_st w)) root). clear. intros T. solve_Permutation.
    + intros x Hxo. rewrite <- Hfr by done. apply (x_rest _ _ _ _ _ Hx), (outside_untouched _ _ _ []). eapply outside_sub; [|exact Hxo].
      intros q Hq. unfold owned in Hq. rewrite app_nil_r in Hq. by rewrite Hown.
    + destruct Hres as [[-> ->]|(-> & Hj & _)]; [by left|right]. by replace j with 0 in Hmap by lia.
  - rewrite div_4096. intros va Hva Hin. rewrite (same_page_pte _ _ (4096 * k) va) by (try done; rewrite ?div_4096; lia). done.
Qed.

(** It is given back when nothing is mapped. *)
Lemma wp_table_free s0 l0 root l w :
  table s0 l0 (w_st w) root l -> L_kmem ∉ w_held w -> unmapped_range root (w_st w) 0 (MAXVA / 4096) ->
  wp (uvmfree root 0) (fun _ w' => exists s' l', w' = set_st s' w /\ given_back s0 l0 s' l') w.
Proof using syok.
  intros [Hok Hown Hfr] Hl Hun. eapply wp_mono; [|apply (wp_uvmfree root 0 l)]; try done.
  - intros [] w' (s' & l' & -> & Hk & Hl' & Hf). exists s', l'. split; [done|]. cbn in Hl'. split_and!; [done|by rewrite Hown|].
    intros x Hx. rewrite <- Hfr by done. apply Hf. intros q Hq. apply Hx. rewrite Hown, <- Hl'. done.
  - intros i Hi. change (PGROUNDUP 0 / 4096) with 0 in Hi. lia.
  - split; [intros i Hi; change (PGROUNDUP 0 / 4096) with 0 in Hi; lia|apply NoDup_nil_2].
Qed.

Lemma table_shrink s0 l0 s root l s' : table s0 l0 s root l -> shrink root s l s' [] -> table s0 l0 s' root l.
Proof using syok.
  intros [Hok Hown Hfr] Hsh. split; [apply Hsh| |].
  - rewrite Hown. apply Permutation_app_tail, NoDup_Permutation; [by eapply table_pages_nodup|eapply table_pages_nodup, Hsh|].
    intros t. rewrite !table_pages_spec. unfold table_page.
    split; intros (p & Hp & Ht); exists p; (split; [done|]); [by rewrite (k_node _ _ _ _ _ Hsh)|by rewrite <- (k_node _ _ _ _ _ Hsh)].
  - intros x Hx. rewrite <- Hfr by done. apply (k_rest _ _ _ _ _ Hsh), (outside_untouched _ _ _ []). eapply outside_sub; [|exact Hx].
    intros q Hq. unfold owned in Hq. rewrite app_nil_r in Hq. by rewrite Hown.
Qed.

Lemma wp_proc_pagetable tf l w :
  kmem_ok (w_st w) l -> L_kmem ∉ w_held w -> page_addr tf -> tf + 4096 <= 2 ^ 56 ->
  wp (proc_pagetable tf) (fun r w' => exists s' l', w' = set_st s' w /\
    ((r = 0 /\ given_back (w_st w) l s' l') \/ (r <> 0 /\ built tf (w_st w) l s' r l' []))) w.
Proof using syok.
  intros Hk Hl Htf Htf2. unfold proc_pagetable. set (Q := fun (r : Z) w' => _). apply wp_bind, (wp_uvmcreate l); [done|done|..].
  { intros ->. apply wp_ret. exists (w_st w), []. split; [by destruct w|]. by left. }
  intros q l1 s1 -> Hq Hok Htp Hpte Hout. rewrite (proj2 (Z.eqb_neq q 0)) by done.
  change TRAMPOLINE with (4096 * NTRAMP). change TRAPFRAME with (4096 * NTF).
  assert (T1 : table (w_st w) (q :: l1) s1 q l1).
  { split; [done|by rewrite Htp|]. intros x Hx. apply Hout, Hx. left. }
  pose proof tramp_page as Htr. assert (Htr2 : sym_trampoline + 4096 <= 2 ^ 56).
  { pose proof tramp_etext. pose proof etext_end. pose proof end_phystop. assert (Hp : PHYSTOP = 2281701376) by done. assert (Hg : PGSIZE = 4096) by done. lia. }
  assert (Hfail : forall s2 l2, table (w_st w) (q :: l1) s2 q l2 -> (forall va, 0 <= va < MAXVA -> pte_at (p_mem s2) q va = 0) ->
    wp (uvmfree q 0;; mret 0) Q (set_st s2 w)).
  { intros s2 l2 T2 Hz. eapply wp_call; [apply (wp_table_free _ _ q l2 (set_st s2 w) T2 Hl)|].
    - intros va Hva _. cbn [w_st set_st]. rewrite Hz by done. apply is_set_0.
    - intros [] w' (s' & l' & -> & G). apply wp_ret. exists s', l'. split; [done|]. by left. }
  eapply wp_call; [apply (wp_map_top (w_st w) (q :: l1) q l1 NTRAMP sym_trampoline _ (set_st s1 w)); try done; cbn; rewrite Hpte; apply is_set_0|].
  intros r w2 (s2 & l2 & -> & T2 & Hres). cbn [w_st set_st] in *. destruct Hres as [[-> Hm]|[-> Hm]].
  2:{ apply (Hfail s2 l2 T2). intros va Hva. rewrite Hm by done. rewrite decide_False by lia. apply Hpte. }
  change (0 <? 0) with false. cbn iota.
  assert (Hp2 : forall va, 0 <= va < MAXVA -> va / 4096 <> NTRAMP -> pte_at (p_mem s2) q va = 0).
  { intros va Hva Hne. rewrite Hm by done. rewrite decide_False by lia. apply Hpte. }
  eapply wp_call; [apply (wp_map_top (w_st w) (q :: l1) q l2 NTF tf _ (set_st s2 w)); try done; cbn; rewrite Hp2;
    [apply is_set_0|by apply top_va|by rewrite div_4096]|].
  intros r w3 (s3 & l3 & -> & T3 & Hres). cbn [w_st set_st] in *. destruct Hres as [[-> Hm3]|[-> Hm3]].
  - change (0 <? 0) with false. cbn iota. apply wp_ret. exists s3, l3. split; [done|]. right. split; [done|].
    destruct T3 as [Hok3 Hown3 Hfr3]. split; [split|by unfold owned; rewrite app_nil_r|done]; try done; cbn [length].
    + intros i Hi. cbn in Hi. lia.
    + apply NoDup_nil_2.
    + intros va Hva Hin. rewrite Hm3 by done. rewrite decide_False by (unfold NTF in *; lia). rewrite Hp2; [apply is_set_0|done|unfold NTF, NTRAMP in *; lia].
    + change TRAPFRAME with (4096 * NTF). rewrite Hm3 by (by apply top_va). rewrite div_4096, decide_True by lia. unfold tf_pte. do 2 f_equal. lia.
    + change TRAMPOLINE with (4096 * NTRAMP). rewrite Hm3 by (by apply top_va). rewrite div_4096, decide_False by (unfold NTF, NTRAMP; lia).
      rewrite Hm by (by apply top_va). rewrite div_4096, decide_True by lia. unfold tramp_pte. do 2 f_equal. lia.
  - change (-1 <? 0) with true. cbn iota.
    assert (Htrp : pte_at (p_mem s3) q (4096 * NTRAMP) = tramp_pte).
    { rewrite Hm3 by (by apply top_va). rewrite decide_False by lia. rewrite Hm by (by apply top_va). rewrite div_4096, decide_True by lia. unfold tramp_pte. do 2 f_equal. lia. }
    eapply wp_call; [apply (wp_unmap_top q l3 NTRAMP (set_st s3 w)); [apply T3|done|done|done|cbn [w_st set_st]; rewrite Htrp; apply tramp_leaf]|].
    intros [] w4 (s4 & -> & Hsh & Hcl). apply (Hfail s4 l3); [by eapply table_shrink|]. cbn [w_st set_st] in *.
    intros va Hva. rewrite Hcl by done. case_decide as Hd; [done|]. rewrite Hm3 by done. rewrite decide_False by lia. apply Hp2; [done|lia].
Qed.
End space.
