(* ===== verification/VmImage.v ===== *)
(** Reading and writing the user pages of an address space, and what changes
    elsewhere in memory leave alone. *)

From S2P Require Import Prelude KMonad Kstring Riscv Kalloc Vm VmTable VmSpec VmUser VmFree VmCopy Proc VmSpace.

Section image.
Context {sy : Symbols} {syok : SymbolsOk sy}.
Implicit Types (s : phys) (m : memory) (root va tf : Z) (l us : list Z) (w : world phys).

Lemma built_nodup tf s0 l0 s root l us : kmem_ok s0 l0 -> built tf s0 l0 s root l us -> NoDup (owned (p_mem s) root us ++ l).
Proof. intros [_ Hnd] B. by rewrite (bt_own _ _ _ _ _ _ _ B) in Hnd. Qed.

(** A change that keeps the table pages and what is outside the pages [l0];
    the entries of user pages may get other flags. *)
Lemma built_retag tf s0 l0 s root l us s' :
  built tf s0 l0 s root l us -> vm_ok s' root l ->
  (forall p, path_ok p -> node (p_mem s') root p = node (p_mem s) root p) ->
  (forall va, 0 <= va < MAXVA -> Z.of_nat (length us) <= va / 4096 -> pte_at (p_mem s') root va = pte_at (p_mem s) root va) ->
  (forall i, 0 <= i < Z.of_nat (length us) -> PTE2PA (pte_at (p_mem s') root (4096 * i)) = PTE2PA (pte_at (p_mem s) root (4096 * i)) /\
     (user_leaf (pte_at (p_mem s) root (4096 * i)) -> user_leaf (pte_at (p_mem s') root (4096 * i)))) ->
  frame l0 (p_mem s) (p_mem s') -> built tf s0 l0 s' root l us.
Proof using syok.
  intros [[Hok Hus Hlv Hpr Hnd Htop Hgap Htf Htr] Hown Hfr] Hok' Hnode Hpte Hlow Hfr'.
  assert (Htab : forall t, table_page (p_mem s') root t <-> table_page (p_mem s) root t).
  { intros t. unfold table_page. split; intros (p & Hp & Ht); exists p; (split; [done|]); [by rewrite <- Hnode|by rewrite Hnode]. }
  assert (Hhigh : forall k, NTF <= k <= NTRAMP -> pte_at (p_mem s') root (4096 * k) = pte_at (p_mem s) root (4096 * k)).
  { intros k Hk. apply Hpte; [by apply top_va|]. rewrite div_4096. lia. }
  split; [split|..]; try done.
  - rewrite <- Hus at 2. unfold pages_of. apply map_ext_in. intros i Hi. apply in_seq in Hi. apply Hlow. lia.
  - intros i Hi. by apply Hlow, Hlv.
  - eapply Forall_impl; [exact Hpr|]. intros u [Hu Hx]. split; [done|]. intros x Hin. eapply untouched_ext; [exact Hnode|]. by apply Hx.
  - intros va Hva Hin. rewrite Hpte by (done || lia). by apply Hgap.
  - change TRAPFRAME with (4096 * NTF) in *. rewrite Hhigh; [exact Htf|unfold NTF, NTRAMP; lia].
  - change TRAMPOLINE with (4096 * NTRAMP) in *. rewrite Hhigh; [exact Htr|unfold NTF, NTRAMP; lia].
  - rewrite Hown. unfold owned. apply Permutation_app_tail, Permutation_app_tail, NoDup_Permutation; [by eapply table_pages_nodup|by eapply table_pages_nodup|].
    intros t. by rewrite !table_pages_spec, Htab.
  - by eapply frame_trans.
Qed.

Lemma built_data tf s0 l0 s root l us s' :
  built tf s0 l0 s root l us -> vm_ok s' root l ->
  (forall p, path_ok p -> node (p_mem s') root p = node (p_mem s) root p) ->
  (forall va, pte_at (p_mem s') root va = pte_at (p_mem s) root va) ->
  frame l0 (p_mem s) (p_mem s') -> built tf s0 l0 s' root l us.
Proof using syok. intros B Hok Hnode Hpte Hfr. apply (built_retag _ _ _ s); try done. intros i Hi. by rewrite Hpte. Qed.

(** ** User addresses *)

Lemma pages_of_nth m root n i : (i < n)%nat -> nth i (pages_of m root 0 n) 0 = PTE2PA (pte_at m root (4096 * Z.of_nat i)).
Proof.
  intros Hi. unfold pages_of. rewrite (nth_indep _ 0 (PTE2PA (pte_at m root (4096 * (0 + Z.of_nat 0))))) by (by rewrite length_map, length_seq).
  rewrite (map_nth (fun i => PTE2PA (pte_at m root (4096 * (0 + Z.of_nat i))))), seq_nth by done. by rewrite Z.add_0_l.
Qed.

Lemma no_user pa perm : page_addr pa -> 0 <= perm < 1024 -> Z.testbit perm 4 = false -> is_set (mk_pte pa perm) PTE_U = false.
Proof.
  intros Hpa Hp Hb. change PTE_U with (Z.shiftl 1 4). rewrite is_set_bit by lia. rewrite <- flag_bit, mk_pte_flags by (done || lia).
  rewrite Z.lor_spec, Hb. done.
Qed.

Lemma space_upage tf s root l us va :
  aspace tf s root l us -> page_addr tf -> 0 <= va -> upage (p_mem s) root va <> 0 ->
  exists i, (i < length us)%nat /\ va / 4096 = Z.of_nat i /\ upage (p_mem s) root va = nth i us 0.
Proof using syok.
  intros A Htf Hva. unfold upage. rewrite Z.geb_leb. destruct (Z.leb_spec MAXVA va) as [|Hmax]; [done|].
  destruct (is_set (pte_at (p_mem s) root va) PTE_V) eqn:Ev; [|done]. destruct (is_set (pte_at (p_mem s) root va) PTE_U) eqn:Eu; [|done].
  intros _. cbn [andb]. pose proof MAXVA_pages as HM. pose proof (Z.div_mod va 4096 ltac:(lia)). pose proof (Z.mod_pos_bound va 4096 ltac:(lia)).
  pose proof (as_top _ _ _ _ _ A). assert (Hpg : forall k, va / 4096 = k -> pte_at (p_mem s) root va = pte_at (p_mem s) root (4096 * k)).
  { intros k Hk. apply same_page_pte; [lia|lia|]. by rewrite div_4096. }
  destruct (Z.lt_ge_cases (va / 4096) (Z.of_nat (length us))) as [Hlt|Hge].
  - exists (Z.to_nat (va / 4096)). split_and!; [lia|lia|]. rewrite (Hpg (va / 4096)) by done. rewrite <- (as_us _ _ _ _ _ A) at 1.
    rewrite pages_of_nth by lia. by rewrite Z2Nat.id by lia.
  - exfalso. destruct (Z.lt_ge_cases (va / 4096) NTF) as [Hg|Hg].
    + rewrite (as_gap _ _ _ _ _ A va) in Ev; [done|lia|lia].
    + assert (Hc : va / 4096 = NTF \/ va / 4096 = NTRAMP) by (unfold NTF, NTRAMP in *; lia). destruct Hc as [E|E]; rewrite (Hpg _ E) in Eu.
      * change (4096 * NTF) with TRAPFRAME in Eu. rewrite (as_tf _ _ _ _ _ A) in Eu. unfold tf_pte in Eu. rewrite (no_user tf (Z.lor PTE_R PTE_W) Htf) in Eu; [discriminate|by vm_compute|by vm_compute].
      * change (4096 * NTRAMP) with TRAMPOLINE in Eu. rewrite (as_tramp _ _ _ _ _ A) in Eu. unfold tramp_pte in Eu. rewrite (no_user _ (Z.lor PTE_R PTE_X) tramp_page) in Eu; [discriminate|by vm_compute|by vm_compute].
Qed.

Lemma space_user_ok tf s root l us : aspace tf s root l us -> page_addr tf -> user_ok (p_mem s) root l.
Proof using syok.
  intros A Htf. split.
  - intros va Hva Hu. destruct (space_upage _ _ _ _ _ _ A Htf Hva Hu) as (i & Hi & _ & ->).
    pose proof (as_private _ _ _ _ _ A) as Hp. rewrite Forall_forall in Hp. apply Hp, list_elem_of_In, nth_In. done.
  - intros va va' Hva Hva' Hu E. destruct (space_upage _ _ _ _ _ _ A Htf Hva Hu) as (i & Hi & Ei & Hui). rewrite <- E in Hu.
    destruct (space_upage _ _ _ _ _ _ A Htf Hva' Hu) as (j & Hj & Ej & Huj). rewrite Hui, Huj in E. rewrite Ei, Ej. f_equal.
    pose proof (as_nodup _ _ _ _ _ A) as Hnd. rewrite NoDup_ListNoDup in Hnd. by apply (proj1 (NoDup_nth us 0) Hnd).
Qed.

(** The byte of a user address is in a page of the space. *)
Lemma space_ubyte tf s root l us va x :
  aspace tf s root l us -> page_addr tf -> 0 <= va -> ubyte (p_mem s) root va = Some x -> va < 4096 * Z.of_nat (length us) /\ x = upos us va.
Proof using syok.
  intros A Htf Hva. unfold ubyte. destruct (Z.eqb_spec (upage (p_mem s) root va) 0) as [|Hne]; [done|]. intros [= <-].
  destruct (space_upage _ _ _ _ _ _ A Htf Hva Hne) as (i & Hi & Ei & ->). unfold upos. rewrite Ei, Nat2Z.id.
  pose proof (Z.div_mod va 4096 ltac:(lia)). pose proof (Z.mod_pos_bound va 4096 ltac:(lia)). split; [lia|done].
Qed.

(** A page that the user may access. *)
Lemma space_user_page tf s root l us k :
  aspace tf s root l us -> users (p_mem s) root (length us) -> (k < length us)%nat ->
  upage (p_mem s) root (4096 * Z.of_nat k) = nth k us 0 /\ nth k us 0 ∈ us /\ free_page (nth k us 0).
Proof using syok.
  intros A Hu Hk. pose proof MAXVA_pages as HM. pose proof (as_top _ _ _ _ _ A) as Htop. unfold NTF in *.
  assert (Hin : nth k us 0 ∈ us) by (apply list_elem_of_In, nth_In; done). split_and!; [|done|].
  - unfold upage. rewrite Z.geb_leb, (proj2 (Z.leb_gt _ _)) by lia. destruct (as_leaves _ _ _ _ _ A (Z.of_nat k) ltac:(lia)) as [-> _].
    rewrite Hu by lia. cbn [andb]. rewrite <- (as_us _ _ _ _ _ A) at 1. by rewrite pages_of_nth.
  - pose proof (as_private _ _ _ _ _ A) as Hp. rewrite Forall_forall in Hp. by apply Hp.
Qed.

Lemma upos_inj us va va' :
  NoDup us -> Forall free_page us -> 0 <= va < 4096 * Z.of_nat (length us) -> 0 <= va' < 4096 * Z.of_nat (length us) ->
  upos us va = upos us va' -> va = va'.
Proof.
  intros Hnd Hf Hva Hva' E. destruct (upos_page us va Hva) as [Hu Hp], (upos_page us va' Hva') as [Hu' Hp']. rewrite <- E in Hp'.
  rewrite Forall_forall in Hf. pose proof (aligned_disjoint _ _ _ (proj1 (Hf _ Hu)) (proj1 (Hf _ Hu')) Hp Hp') as En.
  pose proof (Z.div_mod va 4096 ltac:(lia)). pose proof (Z.mod_pos_bound va 4096 ltac:(lia)).
  pose proof (Z.div_mod va' 4096 ltac:(lia)). pose proof (Z.mod_pos_bound va' 4096 ltac:(lia)). unfold upos in E. rewrite <- En in E.
  rewrite NoDup_ListNoDup in Hnd. apply (proj1 (NoDup_nth us 0) Hnd) in En; lia.
Qed.

Lemma space_pages tf s root l us : aspace tf s root l us -> Forall free_page us.
Proof. intros A. eapply Forall_impl; [apply A|]. by intros u [? _]. Qed.

Lemma built_user_page tf s0 l0 s root l us u : built tf s0 l0 s root l us -> u ∈ us -> u ∈ l0.
Proof. intros B Hu. rewrite (bt_own _ _ _ _ _ _ _ B). unfold owned. set_solver. Qed.

(** ** Writing user pages *)

Lemma built_write tf s0 l0 s root l us u (f : memory -> memory) :
  built tf s0 l0 s root l us -> u ∈ us -> (forall m, same_outside u m (f m)) -> built tf s0 l0 (upd_mem f s) root l us.
Proof using syok.
  intros B Hu Hf. pose proof (bt_as _ _ _ _ _ _ _ B) as A. pose proof (as_private _ _ _ _ _ A) as Hp. rewrite Forall_forall in Hp.
  destruct (write_private s root l u f (as_ok _ _ _ _ _ A) (Hp u Hu) Hf) as (Hok & Hnode & Hpte).
  apply (built_data _ _ _ s); try done. intros x Hx. apply Hf, Hx. by eapply built_user_page.
Qed.

Lemma wp_space_copyout tf s0 l0 root l us va src w :
  built tf s0 l0 (w_st w) root l us -> page_addr tf -> 0 <= va < 2 ^ 64 ->
  wp (copyout root va src) (fun r w' => exists s', w' = set_st s' w /\ built tf s0 l0 s' root l us /\ copied_out root l (w_st w) s' va src r) w.
Proof using syok.
  intros B Htf Hva. pose proof (bt_as _ _ _ _ _ _ _ B) as A.
  eapply wp_mono; [|apply (wp_copyout_loop root l (S (length src)) va src w); [apply A|by eapply space_user_ok|done|lia]].
  intros r w' (s' & -> & C). exists s'. split_and!; [done| |done]. apply (built_data _ _ _ (w_st w)); try apply C; [done|].
  intros x Hx. apply (co_other _ _ _ _ _ _ _ C). intros i Hi Hu. destruct (space_ubyte _ _ _ _ _ (va + i) _ A Htf ltac:(lia) Hu) as [Hlt ->].
  destruct (upos_page us (va + i) ltac:(lia)) as [Hin Hp]. exact (Hx _ (built_user_page _ _ _ _ _ _ _ _ B Hin) Hp).
Qed.

(** Copying out, and writing to one page, change the contents. *)
Lemma holds_copied tf s root l us s' va src img :
  aspace tf s root l us -> page_addr tf -> 0 <= va -> copied_out root l s s' va src 0 ->
  holds (p_mem s) us img -> holds (p_mem s') us (write_bytes img va src).
Proof using syok.
  intros A Htf Hva C [Hi Ho]. destruct (co_result _ _ _ _ _ _ _ C) as [[_ H]|[? _]]; [|done].
  assert (Hc : forall i, 0 <= i < Z.of_nat (length src) -> va + i < 4096 * Z.of_nat (length us) /\ rd (p_mem s') (upos us (va + i)) = u8 (nth (Z.to_nat i) src 0)).
  { intros i Hin. destruct (H (Z.to_nat i) ltac:(lia)) as (x & Hx & Hr). rewrite Z2Nat.id in Hx by lia.
    destruct (space_ubyte _ _ _ _ _ (va + i) _ A Htf ltac:(lia) Hx) as [? ->]. done. }
  split; intros va' Hva'; rewrite rd_write_bytes.
  - destruct ((va <=? va') && (va' <? va + Z.of_nat (length src))) eqn:Ein.
    + apply andb_true_iff in Ein as [H1%Z.leb_le H2%Z.ltb_lt]. destruct (Hc (va' - va) ltac:(lia)) as [_ Hr].
      by replace (va + (va' - va)) with va' in Hr by lia.
    + apply andb_false_iff in Ein. rewrite Z.leb_gt, Z.ltb_ge in Ein. rewrite <- Hi by lia. apply (co_other _ _ _ _ _ _ _ C). intros j Hj Hx.
      destruct (space_ubyte _ _ _ _ _ (va + j) _ A Htf ltac:(lia) Hx) as [Hlt E].
      apply upos_inj in E; [lia|apply A|by eapply space_pages|lia|lia].
  - destruct (Z.leb_spec va va'), (Z.ltb_spec va' (va + Z.of_nat (length src))); cbn [andb]; [|by apply Ho..].
    destruct (Hc (va' - va) ltac:(lia)) as [? _]. lia.
Qed.

Lemma holds_write us m img k bs :
  NoDup us -> Forall free_page us -> (k < length us)%nat -> Z.of_nat (length bs) <= 4096 ->
  holds m us img -> holds (write_bytes m (nth k us 0) bs) us (write_bytes img (4096 * Z.of_nat k) bs).
Proof.
  intros Hnd Hf Hk Hbs [Hi Ho]. assert (Hpos : nth k us 0 = upos us (4096 * Z.of_nat k)) by (unfold upos; rewrite div_4096, Nat2Z.id, (Z.mul_comm 4096), Z.mod_mul by lia; lia).
  split; intros va Hva; rewrite !rd_write_bytes.
  - pose proof (Z.div_mod va 4096 ltac:(lia)) as Hd. pose proof (Z.mod_pos_bound va 4096 ltac:(lia)) as Hm.
    destruct (decide (va / 4096 = Z.of_nat k)) as [Ek|Ek].
    + unfold upos. rewrite Ek, Nat2Z.id. replace (4096 * Z.of_nat k) with (va - va mod 4096) by lia.
      replace (nth k us 0 + va mod 4096 - nth k us 0) with (va - (va - va mod 4096)) by lia. rewrite <- Hi by done. unfold upos. rewrite Ek, Nat2Z.id.
      destruct (Z.leb_spec (nth k us 0) (nth k us 0 + va mod 4096)), (Z.leb_spec (va - va mod 4096) va); try lia.
      destruct (Z.ltb_spec (nth k us 0 + va mod 4096) (nth k us 0 + Z.of_nat (length bs))), (Z.ltb_spec va (va - va mod 4096 + Z.of_nat (length bs))); try lia; done.
    + destruct (upos_page us va Hva) as [Hu Hp]. rewrite Forall_forall in Hf.
      assert (Hne : ~ in_page (nth k us 0) (upos us va)).
      { intros Hin. assert (Hk' : nth k us 0 ∈ us) by (apply list_elem_of_In, nth_In; done).
        pose proof (aligned_disjoint _ _ _ (proj1 (Hf _ Hu)) (proj1 (Hf _ Hk')) Hp Hin) as En.
        rewrite NoDup_ListNoDup in Hnd. apply (proj1 (NoDup_nth us 0) Hnd) in En; lia. }
      unfold in_page in Hne. rewrite (proj2 (andb_false_iff _ _)), (proj2 (andb_false_iff _ _)), Hi; [done|done| |];
        rewrite Z.leb_gt, Z.ltb_ge; lia.
  - rewrite (proj2 (andb_false_iff _ _)), Ho; [done|done|]. rewrite Z.leb_gt, Z.ltb_ge. lia.
Qed.

(** ** Clearing the user bit of a page *)

Definition no_u (v : Z) : Z := Z.land v (Z.lnot PTE_U).

Lemma no_u_bit v i : 0 <= i -> i <> 4 -> Z.testbit (no_u v) i = Z.testbit v i.
Proof.
  intros Hi Hne. unfold no_u. change PTE_U with (2 ^ 4). rewrite Z.land_spec, Z.lnot_spec, Z.pow2_bits_false by lia. by rewrite andb_true_r.
Qed.

Lemma no_u_clear v : is_set (no_u v) PTE_U = false.
Proof.
  unfold no_u. change PTE_U with (Z.shiftl 1 4). rewrite is_set_bit by lia. rewrite Z.land_spec, Z.lnot_spec by lia.
  change (Z.testbit (Z.shiftl 1 4) 4) with true. apply andb_false_r.
Qed.

Lemma no_u_pa v : PTE2PA (no_u v) = PTE2PA v.
Proof.
  assert (E : Z.shiftr (no_u v) 10 = Z.shiftr v 10).
  { apply Z.bits_inj'. intros i Hi. rewrite !Z.shiftr_spec by lia. apply no_u_bit; lia. }
  unfold PTE2PA. by rewrite E.
Qed.

Lemma no_u_leaf v : user_leaf v -> user_leaf (no_u v).
Proof.
  unfold user_leaf. change PTE_V with (Z.shiftl 1 0). change PTE_R with (Z.shiftl 1 1). by rewrite !is_set_bit, !no_u_bit by lia.
Qed.

Lemma no_u_range v : 0 <= v < 2 ^ 64 -> 0 <= no_u v < 2 ^ 64.
Proof.
  intros Hv. assert (H0 : 0 <= no_u v) by (apply Z.land_nonneg; lia). split; [done|].
  assert (E : no_u v mod 2 ^ 64 = no_u v).
  { apply Z.bits_inj'. intros i Hi. destruct (Z.lt_ge_cases i 64); [by rewrite Z.mod_pow2_bits_low by lia|].
    rewrite Z.mod_pow2_bits_high by lia. rewrite no_u_bit by lia. symmetry. rewrite <- (Z.mod_small v (2 ^ 64)) by lia. by apply Z.mod_pow2_bits_high. }
  rewrite <- E. apply Z.mod_pos_bound. lia.
Qed.

Lemma pte_at_range m root va : 0 <= pte_at m root va < 2 ^ 64.
Proof. unfold pte_at. destruct (leaf_table m root va); [apply load64_range|lia]. Qed.

Lemma wp_space_clear tf s0 l0 root l us i w :
  built tf s0 l0 (w_st w) root l us -> 0 <= i < Z.of_nat (length us) ->
  wp (uvmclear root (4096 * i)) (fun _ w' => exists s', w' = set_st s' w /\ built tf s0 l0 s' root l us /\
    is_set (pte_at (p_mem s') root (4096 * i)) PTE_U = false /\ forall img, holds (p_mem (w_st w)) us img -> holds (p_mem s') us img) w.
Proof using syok.
  intros B Hi. pose proof (bt_as _ _ _ _ _ _ _ B) as A. pose proof (as_ok _ _ _ _ _ A) as Hok. pose proof (as_top _ _ _ _ _ A) as Htop.
  pose proof MAXVA_pages as HM. assert (Hva : 0 <= 4096 * i < MAXVA) by (unfold NTF in *; lia).
  destruct (as_leaves _ _ _ _ _ A i Hi) as [Hv Hr]. destruct (pte_at_leaf _ _ _ Hv) as (t & Ht & Ep).
  destruct (walk_ro_some root (4096 * i) l w t Hok Hva Ht) as [Ew Hne]. unfold uvmclear. apply wp_bind. unfold wp at 1. rewrite Ew.
  rewrite (proj2 (Z.eqb_neq _ 0)) by done. apply wp_bind, wp_load_pte, wp_store_pte. rewrite <- Ep. fold (no_u (pte_at (p_mem (w_st w)) root (4096 * i))).
  set (v := pte_at (p_mem (w_st w)) root (4096 * i)) in *. pose proof (no_u_range v (pte_at_range _ _ _)) as Hnu.
  destruct (ext_set_leaf root (w_st w) l (4096 * i) (no_u v) t Hok Ht Hva Hnu) as [Hx Hpte].
  assert (Hnode := set_leaf_node (p_mem (w_st w)) root l (4096 * i) (no_u v) t (proj2 Hok) Ht Hnu).
  change (store64 (p_mem (w_st w)) (t + 8 * PX 0 (4096 * i)) (no_u v)) with (p_mem (upd_mem (fun m => store64 m (t + 8 * PX 0 (4096 * i)) (no_u v)) (w_st w))) in Hnode.
  set (s' := upd_mem _ _) in *. clearbody s'.
  assert (Hpte' : forall k, 0 <= k <= NTRAMP -> pte_at (p_mem s') root (4096 * k) = if decide (k = i) then no_u v else pte_at (p_mem (w_st w)) root (4096 * k)).
  { intros k Hk. rewrite Hpte by (unfold NTRAMP in *; lia). by rewrite !div_4096. }
  exists s'. split_and!; [done| |by rewrite Hpte', decide_True, no_u_clear by (unfold NTF, NTRAMP in *; lia)|].
  2:{ intros img. apply holds_keep. intros u x Hu Hin. apply (x_rest _ _ _ _ _ Hx). pose proof (as_private _ _ _ _ _ A) as Hp.
    rewrite Forall_forall in Hp. by apply (Hp u Hu). }
  apply (built_retag _ _ _ (w_st w)); try done; try apply Hx.
  - intros va Hva' Hge. rewrite Hpte by done. rewrite decide_False; [done|]. rewrite div_4096. lia.
  - intros k Hk. rewrite Hpte' by (unfold NTF, NTRAMP in *; lia). case_decide as Hd; [|done]. subst k. split; [apply no_u_pa|]. intros _. apply no_u_leaf. by split.
  - intros x Hxo. apply (x_rest _ _ _ _ _ Hx), (outside_untouched _ _ _ us). eapply outside_sub; [|exact Hxo]. intros q Hq. by rewrite (bt_own _ _ _ _ _ _ _ B).
Qed.

(** ** Changes elsewhere *)

Lemma page_outside lf t x : Forall free_page lf -> free_page t -> t ∉ lf -> in_page t x -> outside lf x.
Proof.
  intros Hf [Ht _] Hn Hx q Hq Hx'. apply Hn. rewrite Forall_forall in Hf. destruct (Hf q Hq) as [Hq' _].
  by rewrite (aligned_disjoint t q x).
Qed.

(** Memory changed only in pages that the space does not own. *)
Lemma move_tables s root l us lf m' :
  vm_ok s root l -> Forall free_page lf -> (forall q, q ∈ lf -> q ∉ owned (p_mem s) root us) -> frame lf (p_mem s) m' ->
  (forall p t, path_ok p -> node (p_mem s) root p = Some t -> free_page t /\ t ∉ lf) /\ same_tables (p_mem s) m' root.
Proof using syok.
  intros Hok Hf Hdis Hfr.
  assert (Htabs : forall p t, path_ok p -> node (p_mem s) root p = Some t -> free_page t /\ t ∉ lf).
  { intros p t Hp Ht. split; [by apply (wf_page _ _ _ (proj2 Hok) p t)|]. intros Hin. apply (Hdis t Hin). unfold owned. apply elem_of_app. left.
    apply table_pages_spec. by exists p. }
  split; [done|]. intros p t x Hp Ht Hx. apply Hfr. destruct (Htabs p t Hp Ht). by eapply page_outside.
Qed.

(** Memory changed only in the pages [lf], which the space does not own, and
    the pages that are free now are among them. *)
Lemma aspace_move tf s root l us s' l' lf :
  aspace tf s root l us -> kmem_ok s' l' -> Forall free_page lf -> (forall q, q ∈ lf -> q ∉ owned (p_mem s) root us) ->
  frame lf (p_mem s) (p_mem s') -> (forall q, q ∈ l' -> q ∈ lf) -> aspace tf s' root l' us.
Proof using syok.
  intros [Hok Hus Hlv Hpr Hnd Htop Hgap Htf Htr] Hk Hf Hdis Hfr Hsub.
  destruct (move_tables _ _ _ _ lf (p_mem s') Hok Hf Hdis Hfr) as [Htabs Hst].
  assert (Hnode := fun p => node_frame (p_mem s) (p_mem s') root p Hst).
  assert (Hpte := fun va => pte_at_frame (p_mem s) (p_mem s') root va Hst).
  assert (Hwf : pt_wf (p_mem s') root l').
  { apply (pt_wf_frame _ _ _ _ Hst). destruct (proj2 Hok) as [H1 H2 H3 H4]. split; try done. intros p t Hp Ht.
    destruct (Htabs p t Hp Ht) as [Hft Hn]. split; [done|]. intros Hin. by apply Hn, Hsub. }
  split; try done.
  - by rewrite (pages_of_ext (p_mem s)).
  - intros i Hi. rewrite Hpte. by apply Hlv.
  - rewrite Forall_forall in Hpr |- *. intros u Hu. destruct (Hpr u Hu) as [Hfu Hun]. split; [done|]. intros x Hx.
    split; [intros p t Hp Ht; rewrite Hnode in Ht by done; exact (proj1 (Hun x Hx) p t Hp Ht)|].
    apply (outside_sub lf); [done|]. apply (page_outside lf u x Hf Hfu); [|done]. intros Hin. apply (Hdis u Hin). unfold owned. set_solver.
  - intros va Hva Hin. rewrite Hpte. by apply Hgap.
  - by rewrite Hpte.
  - by rewrite Hpte.
Qed.

(** The pages and their contents are the same then. *)
Lemma owned_move s root l us s' l' lf tf :
  aspace tf s root l us -> kmem_ok s' l' -> Forall free_page lf -> (forall q, q ∈ lf -> q ∉ owned (p_mem s) root us) ->
  frame lf (p_mem s) (p_mem s') -> (forall q, q ∈ l' -> q ∈ lf) -> owned (p_mem s') root us ≡ₚ owned (p_mem s) root us.
Proof using syok.
  intros A Hk Hf Hdis Hfr Hsub. pose proof (aspace_move _ _ _ _ _ _ _ _ A Hk Hf Hdis Hfr Hsub) as A'. unfold owned.
  apply Permutation_app_tail, NoDup_Permutation; [eapply table_pages_nodup, A'|eapply table_pages_nodup, A|].
  intros t. rewrite !table_pages_spec. unfold table_page.
  destruct (move_tables _ _ _ _ lf (p_mem s') (as_ok _ _ _ _ _ A) Hf Hdis Hfr) as [_ Hst].
  split; intros (p & Hp & Ht); exists p; (split; [done|]); [by rewrite <- (node_frame (p_mem s) (p_mem s'))|by rewrite (node_frame (p_mem s) (p_mem s'))].
Qed.

Lemma holds_move s root us m' lf img :
  Forall free_page lf -> Forall free_page us -> (forall q, q ∈ lf -> q ∉ owned (p_mem s) root us) ->
  frame lf (p_mem s) m' -> holds (p_mem s) us img -> holds m' us img.
Proof.
  intros Hf Hu Hdis Hfr. apply holds_keep. intros u x Hin Hx. apply Hfr. rewrite Forall_forall in Hu. apply (page_outside lf u x Hf); [by apply Hu| |done].
  intros Hq. apply (Hdis u Hq). unfold owned. set_solver.
Qed.

(** ** Growing to any size, and giving back *)

Lemma wp_space_grow tf s0 l0 root oldsz newsz xperm l us w :
  pages_ok l0 -> built tf s0 l0 (w_st w) root l us -> L_kmem ∉ w_held w -> 0 <= xperm < 1024 ->
  0 <= oldsz -> 0 <= newsz < 2 ^ 64 -> PGROUNDUP oldsz / 4096 = Z.of_nat (length us) -> oldsz <= 4096 * NTF ->
  wp (uvmalloc root oldsz newsz xperm) (fun r w' => exists s' l' us', w' = set_st s' w /\ built tf s0 l0 s' root l' (us ++ us') /\
    (users (p_mem (w_st w)) root (length us) -> users (p_mem s') root (length (us ++ us'))) /\
    (forall img, holds (p_mem (w_st w)) us img -> holds (p_mem s') (us ++ us') img) /\
    ((r = Z.max oldsz newsz /\ r <= 4096 * NTF /\ PGROUNDUP r / 4096 = Z.of_nat (length (us ++ us'))) \/ (r = 0 /\ us' = []))) w.
Proof using syok.
  intros Hk B Hl Hx Ho Hn Hsz Htop. destruct (Z.lt_ge_cases newsz oldsz) as [Hlt|Hge].
  - unfold uvmalloc. rewrite (proj2 (Z.ltb_lt _ _)) by done. apply wp_ret. exists (w_st w), l, []. rewrite app_nil_r, Z.max_l by lia.
    split_and!; [by destruct w|done..|by left].
  - eapply wp_mono; [|apply (wp_space_alloc tf s0 l0 root oldsz newsz xperm l us w); try done; lia].
    intros r w' (s' & l' & us' & -> & B' & Hu & Hh & Hr). rewrite Z.max_r by lia. exists s', l', us'. split_and!; [done..|].
    destruct Hr as [(-> & ? & ?)|[-> ->]]; [by left|by right].
Qed.

Lemma wp_built_free tf s0 l0 root sz l us w :
  built tf s0 l0 (w_st w) root l us -> page_addr tf -> L_kmem ∉ w_held w -> 0 <= sz <= MAXVA -> PGROUNDUP sz / 4096 = Z.of_nat (length us) ->
  wp (proc_freepagetable root sz) (fun _ w' => exists s' l', w' = set_st s' w /\ given_back s0 l0 s' l') w.
Proof using syok.
  intros B Htf Hl Hsz Hus. eapply wp_mono; [|apply (wp_proc_freepagetable tf root sz l us w (bt_as _ _ _ _ _ _ _ B)); done].
  intros [] w' (s' & l' & -> & Hk & Hp & Hfr). exists s', l'. split; [done|]. rewrite <- (bt_own _ _ _ _ _ _ _ B) in Hp.
  split_and!; [done|done|]. eapply frame_trans; [apply B|]. intros x Hx. apply Hfr. intros q Hq. apply Hx. by rewrite <- Hp.
Qed.

(** An address space that was built and whose user pages, all of them
    accessible, hold [img]. *)
Record image tf s0 l0 s root l us (img : memory) : Prop := {
  im_built : built tf s0 l0 s root l us;
  im_users : users (p_mem s) root (length us);
  im_holds : holds (p_mem s) us img }.

Lemma write_bytes_page u bs m : Z.of_nat (length bs) <= 4096 -> same_outside u m (write_bytes m u bs).
Proof.
  intros Hl x Hx. rewrite rd_write_bytes, (proj2 (andb_false_iff _ _)); [done|]. unfold in_page in Hx. rewrite Z.leb_gt, Z.ltb_ge. lia.
Qed.

Lemma image_write tf s0 l0 s root l us img k bs :
  image tf s0 l0 s root l us img -> (k < length us)%nat -> Z.of_nat (length bs) <= 4096 ->
  image tf s0 l0 (upd_mem (fun m => write_bytes m (nth k us 0) bs) s) root l us (write_bytes img (4096 * Z.of_nat k) bs).
Proof using syok.
  intros [B Hu Hh] Hk Hl. pose proof (bt_as _ _ _ _ _ _ _ B) as A. destruct (space_user_page _ _ _ _ _ _ A Hu Hk) as (_ & Hin & Hf).
  assert (Hw := fun m => write_bytes_page (nth k us 0) bs m Hl).
  pose proof (as_private _ _ _ _ _ A) as Hp. rewrite Forall_forall in Hp. split.
  - by apply (built_write _ _ _ _ _ _ _ (nth k us 0)).
  - destruct (write_private s root l (nth k us 0) _ (as_ok _ _ _ _ _ A) (Hp _ Hin) Hw) as (_ & _ & Hpte). intros i Hi. rewrite Hpte. by apply Hu.
  - apply holds_write; [apply A|by eapply space_pages|done..].
Qed.

Lemma wp_image_grow tf s0 l0 root oldsz newsz xperm l us img w :
  kmem_ok s0 l0 -> image tf s0 l0 (w_st w) root l us img -> L_kmem ∉ w_held w -> 0 <= xperm < 1024 ->
  0 <= oldsz -> 0 <= newsz < 2 ^ 64 -> PGROUNDUP oldsz / 4096 = Z.of_nat (length us) -> oldsz <= 4096 * NTF ->
  wp (uvmalloc root oldsz newsz xperm) (fun r w' => exists s', w' = set_st s' w /\ exists l' us', image tf s0 l0 s' root l' (us ++ us') img /\
    ((r = Z.max oldsz newsz /\ r <= 4096 * NTF /\ PGROUNDUP r / 4096 = Z.of_nat (length (us ++ us'))) \/ (r = 0 /\ us' = []))) w.
Proof using syok.
  intros Hk%kmem_pages [B Hu Hh] **. eapply wp_mono; [|by apply (wp_space_grow tf s0 l0 root oldsz newsz xperm l us w)].
  intros r w' (s' & l' & us' & -> & B' & Hu' & Hh' & Hr). exists s'. split; [done|]. exists l', us'. split; [split; auto|done].
Qed.

(** ** One address space for another *)

(** The process has the address space [root0]; [root1] was built; the
    trapframe page was written. *)
Section swap.
Context (tf root0 root1 : Z) (s0 s1 s2 : phys) (l0 l1 us0 us1 : list Z).
Context (Hk0 : kmem_ok s0 l0) (A0 : aspace tf s0 root0 l0 us0) (B : built tf s0 l0 s1 root1 l1 us1).
Context (Htf : free_page tf) (Htl : tf ∉ l0) (Hto : tf ∉ owned (p_mem s0) root0 us0).
Context (Hk2 : kmem_ok s2 l1) (Hw : same_outside tf (p_mem s1) (p_mem s2)).

Lemma swap_free : forall q, q ∈ tf :: l0 -> q ∉ owned (p_mem s0) root0 us0.
Proof using All.
  intros q Hq. apply elem_of_cons in Hq as [->|Hq]; [done|]. unfold owned. rewrite elem_of_app. intros [Ht|Hu].
  - apply table_pages_spec in Ht as (p & Hp & Ht). by apply (wf_page _ _ _ (proj2 (as_ok _ _ _ _ _ A0)) p q Hp Ht).
  - pose proof (as_private _ _ _ _ _ A0) as Hp. rewrite Forall_forall in Hp. by eapply private_not_free, Hq; apply Hp.
Qed.

Lemma swap_pages : Forall free_page (tf :: l0).
Proof using All. constructor; [done|]. destruct Hk0. by eapply free_rep_pages. Qed.

Lemma swap_sub q : q ∈ l1 -> q ∈ tf :: l0.
Proof using All. intros Hq. right. rewrite (bt_own _ _ _ _ _ _ _ B). apply elem_of_app. by right. Qed.

Lemma swap_frame : frame (tf :: l0) (p_mem s0) (p_mem s2).
Proof using All.
  intros x Hx. rewrite Hw by (apply Hx; left). apply (bt_frame _ _ _ _ _ _ _ B). intros q Hq. apply Hx. by right.
Qed.

Lemma swap_old : aspace tf s2 root0 l1 us0 /\ owned (p_mem s2) root0 us0 ≡ₚ owned (p_mem s0) root0 us0.
Proof using All.
  split; [eapply aspace_move|eapply owned_move]; eauto using swap_free, swap_pages, swap_sub, swap_frame.
Qed.

(** The old one has been given back. *)
Context (s3 : phys) (l3 : list Z) (Hk3 : kmem_ok s3 l3).
Context (Hl3 : l3 ≡ₚ owned (p_mem s2) root0 us0 ++ l1) (Hf3 : frame l3 (p_mem s2) (p_mem s3)).

Lemma swap_new_free : forall q, q ∈ tf :: l3 -> q ∉ owned (p_mem s1) root1 us1.
Proof using All.
  intros q Hq Hin. assert (Hq0 : q ∈ l0) by (rewrite (bt_own _ _ _ _ _ _ _ B); apply elem_of_app; by left).
  apply elem_of_cons in Hq as [->|Hq]; [done|]. rewrite Hl3, (proj2 swap_old), elem_of_app in Hq. destruct Hq as [Hq|Hq].
  - apply (swap_free q); [by right|done].
  - pose proof (built_nodup _ _ _ _ _ _ _ Hk0 B) as Hnd. apply NoDup_app in Hnd as (_ & Hnd & _). by apply (Hnd q).
Qed.

Lemma swap_new_pages : Forall free_page (tf :: l3).
Proof using All. constructor; [done|]. destruct Hk3. by eapply free_rep_pages. Qed.

Lemma swap_new_frame : frame (tf :: l3) (p_mem s1) (p_mem s3).
Proof using All. intros x Hx. rewrite Hf3 by (intros q Hq; apply Hx; by right). apply Hw, Hx. left. Qed.

Lemma swap_new_sub q : q ∈ l3 -> q ∈ tf :: l3.
Proof. by right. Qed.

Lemma swap_new : aspace tf s3 root1 l3 us1.
Proof using All. eapply aspace_move; eauto using swap_new_free, swap_new_pages, swap_new_sub, swap_new_frame. apply B. Qed.

Lemma swap_holds img : holds (p_mem s1) us1 img -> holds (p_mem s3) us1 img.
Proof using All.
  eapply (holds_move s1 root1 us1 (p_mem s3) (tf :: l3)); eauto using swap_new_free, swap_new_pages, swap_new_frame. eapply space_pages, B.
Qed.

Lemma swap_owned : owned (p_mem s3) root1 us1 ++ l3 ≡ₚ owned (p_mem s0) root0 us0 ++ l0.
Proof using All.
  assert (E : owned (p_mem s3) root1 us1 ≡ₚ owned (p_mem s1) root1 us1).
  { eapply owned_move; eauto using swap_new_free, swap_new_pages, swap_new_sub, swap_new_frame. apply B. }
  rewrite E, Hl3, (proj2 swap_old), (bt_own _ _ _ _ _ _ _ B).
  generalize (owned (p_mem s1) root1 us1) (owned (p_mem s0) root0 us0). clear. intros T U. solve_Permutation.
Qed.

Lemma swap_pte va : pte_at (p_mem s3) root1 va = pte_at (p_mem s1) root1 va.
Proof using All.
  pose proof (bt_as _ _ _ _ _ _ _ B) as A. apply pte_at_frame.
  eapply (move_tables s1 root1 l1 us1 (tf :: l3)); eauto using swap_new_free, swap_new_pages, swap_new_frame. apply A.
Qed.
End swap.
End image.

(** Growing and shrinking the memory of a process in place. *)


(** The contents below [n]. *)
Definition cut (n : Z) (img : memory) : memory := fun a => if a <? n then img a else 0.

Lemma NoDup_halves {A} (k : nat) (l : list A) : NoDup l -> NoDup (take k l) /\ (forall x, x ∈ take k l -> x ∉ drop k l) /\ NoDup (drop k l).
Proof. intros H. rewrite <- (take_drop k l) in H. by apply NoDup_app. Qed.

Section break.
Context {sy : Symbols} {syok : SymbolsOk sy}.
Implicit Types (s : phys) (m : memory) (root va tf : Z) (l us : list Z) (w : world phys).

(** An address space as built from its own pages and the free ones. *)
Lemma space_pages_ok tf s root l us : aspace tf s root l us -> pages_ok (owned (p_mem s) root us ++ l).
Proof using syok.
  intros A. pose proof (as_ok _ _ _ _ _ A) as Hok. pose proof (as_private _ _ _ _ _ A) as Hp. rewrite Forall_forall in Hp.
  assert (Hl : Forall free_page l) by (eapply free_rep_pages, Hok).
  assert (Ht : forall q, q ∈ table_pages (p_mem s) root -> free_page q /\ (q ∉ l) /\ (q ∉ us)).
  { intros q Hq. pose proof Hq as (p & Hpo & Hn)%table_pages_spec. destruct (wf_page _ _ _ (proj2 Hok) p q Hpo Hn) as [? ?]. split_and!; [done..|].
    intros Hu. by apply (private_not_table _ _ _ _ (Hp q Hu)), table_pages_spec. }
  split.
  - unfold owned. rewrite <- app_assoc. apply NoDup_app. split_and!; [eapply table_pages_nodup, A|intros q Hq; apply Ht in Hq; set_solver|].
    apply NoDup_app. split_and!; [apply A| |apply Hok]. intros q Hq. by eapply private_not_free, Hp.
  - unfold owned. rewrite !Forall_app. split_and!; [|by eapply space_pages|done]. apply Forall_forall. intros q Hq. by apply Ht.
Qed.

Lemma space_built tf s root l us : aspace tf s root l us -> built tf s (owned (p_mem s) root us ++ l) s root l us.
Proof. intros A. by split. Qed.

(** The pages from [k] on were unmapped and freed. *)
Lemma built_shrunk tf s0 l0 s root l us s' freed (k : nat) :
  built tf s0 l0 s root l us -> (k <= length us)%nat -> shrink root s l s' freed ->
  cleared root s s' (Z.of_nat k) (Z.of_nat (length us - k)) -> freed ≡ₚ drop k us -> built tf s0 l0 s' root (freed ++ l) (take k us).
Proof using syok.
  intros [A Hown Hfr] Hk Hsh Hcl Hfreed. pose proof (as_private _ _ _ _ _ A) as Hp. rewrite Forall_forall in Hp. pose proof (as_top _ _ _ _ _ A) as Ht.
  pose proof MAXVA_pages as HM. assert (Hlen : length (take k us) = k) by (rewrite length_take; lia). pose proof (k_node _ _ _ _ _ Hsh) as Hnode.
  assert (Htab : forall t, table_page (p_mem s') root t <-> table_page (p_mem s) root t).
  { intros t. unfold table_page. split; intros (p & Hpo & Hn); exists p; (split; [done|]); [by rewrite <- Hnode|by rewrite Hnode]. }
  assert (Hpte : forall i, 0 <= i <= NTRAMP -> ~ Z.of_nat k <= i < Z.of_nat (length us) -> pte_at (p_mem s') root (4096 * i) = pte_at (p_mem s) root (4096 * i)).
  { intros i Hi Ho. rewrite Hcl by (unfold NTRAMP in *; lia). rewrite div_4096, decide_False by lia. done. }
  assert (Hin : forall u, u ∈ take k us -> u ∈ us /\ u ∉ freed).
  { intros u Hu. split; [rewrite <- (take_drop k us); apply elem_of_app; by left|]. rewrite Hfreed. intros Hd. by eapply (NoDup_halves k us); [apply A|..]. }
  split; [split; rewrite ?Hlen|..].
  - apply Hsh.
  - pose proof (as_us _ _ _ _ _ A) as Hus. rewrite <- (take_drop k us), length_app, Hlen, pages_of_app in Hus. apply app_inj_1 in Hus as [Hus _].
    + etrans; [|exact Hus]. apply pages_of_ext. intros i Hi. apply Hpte; unfold NTF, NTRAMP in *; lia.
    + unfold pages_of. by rewrite length_map, length_seq, Hlen.
  - intros i Hi. rewrite Hpte by (unfold NTF, NTRAMP in *; lia). apply (as_leaves _ _ _ _ _ A). lia.
  - apply Forall_forall. intros u Hu. destruct (Hin u Hu) as [Hu' Hnf]. apply private_intro; [apply Hsh|by apply Hp| |].
    + rewrite elem_of_app. intros [?|Hl]; [done|]. by eapply private_not_free, Hl; apply Hp.
    + rewrite Htab. eapply private_not_table. by apply Hp.
  - by apply (NoDup_halves k us), A.
  - lia.
  - intros va Hva Hr. rewrite Hcl by done. case_decide as Hd; [apply is_set_0|]. apply (as_gap _ _ _ _ _ A); [done|lia].
  - change TRAPFRAME with (4096 * NTF). rewrite Hpte by (unfold NTF, NTRAMP in *; lia). apply A.
  - change TRAMPOLINE with (4096 * NTRAMP). rewrite Hpte by (unfold NTF, NTRAMP in *; lia). apply A.
  - assert (Etab : table_pages (p_mem s') root ≡ₚ table_pages (p_mem s) root).
    { apply NoDup_Permutation; [eapply table_pages_nodup, Hsh|eapply table_pages_nodup, A|]. intros t. by rewrite !table_pages_spec. }
    rewrite Hown. unfold owned. rewrite Etab, Hfreed. rewrite <- (take_drop k us) at 1. generalize (table_pages (p_mem s) root). clear. intros T. solve_Permutation.
  - intros x Hx. rewrite <- Hfr by done. apply (k_rest _ _ _ _ _ Hsh), (outside_untouched _ _ _ us). eapply outside_sub; [|exact Hx].
    intros q Hq. rewrite Hown. apply elem_of_app. apply elem_of_app in Hq as [?|Hq]; [by left|]. apply elem_of_app in Hq as [Hq|?]; [left|by right].
    unfold owned. apply elem_of_app. right. rewrite Hfreed in Hq. rewrite <- (take_drop k us). apply elem_of_app. by right.
Qed.

Lemma holds_cut m m' us img (k : nat) : (k <= length us)%nat -> (forall u x, u ∈ take k us -> in_page u x -> rd m' x = rd m x) ->
  holds m us img -> holds m' (take k us) (cut (4096 * Z.of_nat k) img).
Proof.
  intros Hk Hm [Hi Ho]. assert (Hlen : length (take k us) = k) by (rewrite length_take; lia). split; rewrite Hlen; intros va Hva.
  - destruct (upos_page (take k us) va) as [Hu Hp]; [by rewrite Hlen|]. rewrite (Hm _ _ Hu Hp).
    assert (E : upos (take k us) va = upos us va).
    { unfold upos. f_equal. rewrite <- (firstn_skipn k us) at 2. pose proof (Z.div_mod va 4096 ltac:(lia)). pose proof (Z.mod_pos_bound va 4096 ltac:(lia)).
      rewrite app_nth1; [done|]. change firstn with (@take Z). rewrite Hlen. lia. }
    rewrite E, Hi by lia. unfold cut, rd. by rewrite (proj2 (Z.ltb_lt _ _)) by lia.
  - unfold cut, rd. by rewrite (proj2 (Z.ltb_ge _ _)) by lia.
Qed.

(** [uvmdealloc] on an address space. *)
Lemma wp_space_dealloc tf s0 l0 root oldsz newsz l us w :
  built tf s0 l0 (w_st w) root l us -> L_kmem ∉ w_held w -> 0 <= newsz <= oldsz -> oldsz <= 4096 * NTF ->
  PGROUNDUP oldsz / 4096 = Z.of_nat (length us) ->
  let us' := take (Z.to_nat (PGROUNDUP newsz / 4096)) us in
  wp (uvmdealloc root oldsz newsz) (fun r w' => exists s' l', w' = set_st s' w /\ r = newsz /\ built tf s0 l0 s' root l' us' /\
    PGROUNDUP newsz / 4096 = Z.of_nat (length us') /\
    forall img, holds (p_mem (w_st w)) us img -> holds (p_mem s') us' (cut (PGROUNDUP newsz) img)) w.
Proof using syok.
  intros B Hl Hsz Htop Hus us'. pose proof (bt_as _ _ _ _ _ _ _ B) as A. pose proof (as_ok _ _ _ _ _ A) as Hok.
  pose proof (as_private _ _ _ _ _ A) as Hp. rewrite Forall_forall in Hp. pose proof MAXVA_pages as HM. pose proof (as_top _ _ _ _ _ A) as Ht.
  destruct (pgroundup_bounds newsz) as [Ha Hb]; [unfold NTF in *; lia..|]. destruct (pgroundup_bounds oldsz) as [Ha' Hb']; [unfold NTF in *; lia..|].
  pose proof (Z.div_mod (PGROUNDUP newsz) 4096 ltac:(lia)). pose proof (Z.div_mod (PGROUNDUP oldsz) 4096 ltac:(lia)).
  unfold us'. set (k := Z.to_nat (PGROUNDUP newsz / 4096)) in *. assert (Hk : (k <= length us)%nat) by lia.
  assert (En : Z.to_nat ((PGROUNDUP oldsz - PGROUNDUP newsz) / 4096) = (length us - k)%nat).
  { replace (PGROUNDUP oldsz - PGROUNDUP newsz) with (4096 * Z.of_nat (length us - k)) by lia. rewrite div_4096. lia. }
  assert (Ek : PGROUNDUP newsz / 4096 = Z.of_nat k) by lia. assert (Hlen : length (take k us) = k) by (rewrite length_take; lia).
  assert (Hpg : pages_of (p_mem (w_st w)) root (Z.of_nat k) (length us - k) = drop k us).
  { pose proof (as_us _ _ _ _ _ A) as E. replace (length us) with (k + (length us - k))%nat in E by lia. rewrite pages_of_app in E.
    rewrite Z.add_0_l in E. assert (E2 := eq_trans E (eq_sym (take_drop k us))). apply app_inj_1 in E2 as [_ E2]; [exact E2|].
    unfold pages_of. by rewrite length_map, length_seq, Hlen. }
  assert (Hdrop : forall u, u ∈ drop k us -> u ∈ us) by (intros u Hu; rewrite <- (take_drop k us); apply elem_of_app; by right).
  eapply wp_mono; [|apply (wp_uvmdealloc root oldsz newsz l w); try done; [unfold NTF in *; lia|..]]; cbv zeta; rewrite ?En, ?Ek.
  - intros r w' (-> & s' & freed & -> & Hsh & Hcl & Hfr). rewrite Hpg in Hfr. exists s', (freed ++ l). split_and!; [done|done|by eapply built_shrunk|by rewrite Hlen|].
    intros img Hh. replace (PGROUNDUP newsz) with (4096 * Z.of_nat k) by lia. apply (holds_cut (p_mem (w_st w))); [done| |done].
    intros u x Hu Hx. apply (k_rest _ _ _ _ _ Hsh). assert (Hu' : u ∈ us) by (rewrite <- (take_drop k us); apply elem_of_app; by left).
    destruct (Hp u Hu') as [Hfu Hun]. split; [apply (Hun x Hx)|]. intros q Hq Hxq. apply elem_of_app in Hq as [Hq|Hq]; [|by apply (proj2 (Hun x Hx) q)].
    rewrite Hfr in Hq. destruct (NoDup_halves k us (as_nodup _ _ _ _ _ A)) as (_ & Hnd & _).
    apply (Hnd u Hu). destruct (Hp q (Hdrop q Hq)) as [Hfq _]. by rewrite (aligned_disjoint u q x (proj1 Hfu) (proj1 Hfq) Hx Hxq).
  - intros i Hi. apply user_leaf_leaf, (as_leaves _ _ _ _ _ A). lia.
  - split; [|rewrite Hpg; by apply (NoDup_halves k us), A]. intros i Hi.
    assert (Hin : PTE2PA (pte_at (p_mem (w_st w)) root (4096 * i)) ∈ us) by (rewrite <- (as_us _ _ _ _ _ A); apply pages_of_in; lia).
    specialize (Hp _ Hin). split_and!; [apply Hp|by eapply private_not_free|by eapply private_not_table].
Qed.
End break.
