(* ===== verification/ExecSpec.v ===== *)
(** Reasoning about routines that work on the memory of the calling process
    and on its entry of the process table. *)

From S2P Require Import Prelude KMonad Kstring Riscv Kalloc Vm VmTable VmSpec VmUser VmFree VmCopy Bytes Fs Sysfile Proc ProcSpec Kernel Exec VmSpace VmImage.

(** [m] returns in a state that satisfies [Q]; where [b] is false it may also
    not return, as a routine of the file system that waits or panics. *)
Definition run (b : bool) {S A} (m : M S A) (Q : A -> world S -> Prop) (w : world S) : Prop :=
  match m w with Ok a w' => Q a w' | _ => b = false end.

Section run.
Context {b : bool} {S : Type}.
Implicit Types w : world S.

Lemma run_wp {A} (m : M S A) (Q : A -> world S -> Prop) w : wp m Q w -> run b m Q w.
Proof. unfold wp, run. by destruct (m w). Qed.
Lemma run_mono {A} (m : M S A) (Q R : A -> world S -> Prop) w :
  (forall a w', Q a w' -> R a w') -> run b m Q w -> run b m R w.
Proof. unfold run. destruct (m w); naive_solver. Qed.
Lemma run_ret {A} (a : A) (Q : A -> world S -> Prop) w : Q a w -> run b (mret a) Q w.
Proof. done. Qed.
Lemma run_bind {A B} (m : M S A) (f : A -> M S B) Q w : run b m (fun a => run b (f a) Q) w -> run b (mbind f m) Q w.
Proof. unfold run, mbind, M_bind. by destruct (m w). Qed.
Lemma run_call {A B} (m : M S A) (f : A -> M S B) (P : A -> world S -> Prop) Q w :
  run b m P w -> (forall a w', P a w' -> run b (f a) Q w') -> run b (mbind f m) Q w.
Proof. intros H1 H2. apply run_bind. eapply run_mono, H1. apply H2. Qed.
Lemma run_zoom {T A} (g : S -> T) (p : S -> T -> S) (m : M T A) (Q : A -> world S -> Prop) w :
  run b m (fun a (w' : world T) => Q a (World (w_me w') (w_held w') (w_evs w') (p (w_st w) (w_st w'))))
     (World (w_me w) (w_held w) (w_evs w) (g (w_st w))) ->
  run b (zoom g p m) Q w.
Proof. unfold run, zoom. by destruct (m _). Qed.
End run.

Lemma run_total {S A} (m : M S A) Q (w : world S) : run true m Q w <-> wp m Q w.
Proof. unfold run, wp. by destruct (m w). Qed.
Lemma run_partial {S A} (m : M S A) Q (w : world S) : run false m Q w <-> wlp m Q w.
Proof. unfold run, wlp. by destruct (m w). Qed.


(** The memory of processes is a part of what they share. *)
Class MemLaws (E : Type) {eops : FileOps E} : Prop := { mem_set (e : E) m : e_mem (e_set_mem e m) = m }.

Section here.
Context {sy : Symbols} {ts : TextSyms} {E : Type} {eops : FileOps E} {mlaws : MemLaws E} {b : bool}.
Implicit Types (w : world (pst E)) (s : phys) (root : Z).

(** The process and the process table are as in [w0], memory is [s]. *)
Record here w0 w s : Prop := {
  h_me : w_me w = w_me w0;
  h_free : L_kmem ∉ w_held w;
  h_mem : e_mem (pt_env (w_st w)) = s;
  h_procs : pt_procs (w_st w) = pt_procs (w_st w0);
  h_nextpid : pt_nextpid (w_st w) = pt_nextpid (w_st w0);
  h_initproc : pt_initproc (w_st w) = pt_initproc (w_st w0);
  h_first : pt_first (w_st w) = pt_first (w_st w0) }.

(** A routine on memory. *)
Lemma here_emem {A} (m : M phys A) (P : A -> phys -> Prop) w0 w s :
  (forall v, w_st v = s -> L_kmem ∉ w_held v -> wp m (fun a v' => exists s', v' = set_st s' v /\ P a s') v) ->
  here w0 w s -> run b (emem m) (fun a w' => exists s', here w0 w' s' /\ P a s') w.
Proof using mlaws.
  intros Hm [H1 H2 H3 H4 H5 H6 H7]. apply run_zoom, run_zoom, run_wp. eapply wp_mono; [|by apply Hm].
  intros a w' (s' & -> & Ha). exists s'. split; [|done]. split; cbn; try done. apply mem_set.
Qed.

Lemma run_emem {A B} (m : M phys A) (P : A -> phys -> Prop) (f : A -> M (pst E) B) (Q : B -> world (pst E) -> Prop) w0 w s :
  (forall v, w_st v = s -> L_kmem ∉ w_held v -> wp m (fun a v' => exists s', v' = set_st s' v /\ P a s') v) ->
  here w0 w s -> (forall a s' w', here w0 w' s' -> P a s' -> run b (f a) Q w') -> run b (a ← emem m; f a) Q w.
Proof using mlaws. intros Hm Hw Hf. eapply run_call; [by eapply here_emem|]. intros a w' (s' & ? & ?). by eapply Hf. Qed.

(** ** The process table and the trapframe *)

Lemma run_mypid {B} (f : nat -> M (pst E) B) (Q : B -> world (pst E) -> Prop) w1 w s :
  here w1 w s -> run b (f (my_idx (w_me w1))) Q w -> run b (p ← mypid; f p) Q w.
Proof using Type. intros [H1 _ _ _ _ _ _] H. unfold run, mypid, myproc, mbind, M_bind, mret, M_ret in *. by rewrite H1. Qed.

Lemma run_pload {B} p x (f : proc -> M (pst E) B) (Q : B -> world (pst E) -> Prop) w1 w s :
  here w1 w s -> pt_procs (w_st w1) !! p = Some x -> run b (f x) Q w -> run b (y ← pload p; f y) Q w.
Proof using Type.
  intros [_ _ _ H4 _ _ _] Hx H. unfold run, pload, gets, mbind, M_bind in *. by rewrite H4, Hx.
Qed.

(** The world with another process table, and with another page table of
    the process. *)
Definition with_procs (T : list proc) (w : world (pst E)) : world (pst E) :=
  set_st (PSt (pt_env (w_st w)) T (pt_nextpid (w_st w)) (pt_initproc (w_st w)) (pt_first (w_st w))) w.
Definition with_root (root : Z) (w : world (pst E)) : world (pst E) :=
  World (Me (my_idx (w_me w)) (my_pid (w_me w)) root (my_killed (w_me w))) (w_held w) (w_evs w) (w_st w).

Lemma run_passign {B} p x g (f : () -> M (pst E) B) (Q : B -> world (pst E) -> Prop) w1 w s :
  here w1 w s -> pt_procs (w_st w1) !! p = Some x ->
  (forall w', here (with_procs (<[p := g x]> (pt_procs (w_st w1))) w1) w' s -> run b (f ()) Q w') -> run b (y ← passign p g; f y) Q w.
Proof using Type.
  intros [H1 H2 H3 H4 H5 H6 H7] Hx H. unfold run, passign, pload, gets, modify, mbind, M_bind in *. rewrite H4, Hx. cbn. apply H.
  split; try done. cbn. rewrite H4. by apply list_alter_insert.
Qed.

Lemma run_set_mypagetable {B} root (f : () -> M (pst E) B) (Q : B -> world (pst E) -> Prop) w1 w s :
  here w1 w s -> (forall w', here (with_root root w1) w' s -> run b (f ()) Q w') -> run b (y ← set_mypagetable root; f y) Q w.
Proof using Type.
  intros [H1 H2 H3 H4 H5 H6 H7] H. unfold run, set_mypagetable, mbind, M_bind in *. apply H. split; try done. cbn. by rewrite H1.
Qed.

Lemma run_tf_store {B} t off v (f : () -> M (pst E) B) (Q : B -> world (pst E) -> Prop) w1 w s :
  here w1 w s -> (forall w', here w1 w' (upd_mem (fun m => store64 m (t + off) v) s) -> run b (f ()) Q w') -> run b (y ← tf_store t off v; f y) Q w.
Proof using mlaws.
  intros Hw H. eapply (run_emem _ (fun _ s' => s' = upd_mem (fun m => store64 m (t + off) v) s)); [|exact Hw|].
  - intros u Hu _. apply wp_modify. exists (upd_mem (fun m => store64 m (t + off) v) s). by rewrite Hu.
  - intros [] s' w' Hw' ->. by apply H.
Qed.
End here.

(** Specification of [exec]: what it needs of the file system, and what its
    parts do to the address space that is being built. *)


(** ** The file system as [exec] uses it *)

Section laws.
Context {E : Type} {eops : FileOps E} {xops : ExecOps E}.

(** A call leaves the process, the memory of processes and the lock of the
    allocator alone. *)
Definition calm (b : bool) {A} (R : A -> Prop) (m : M E A) : Prop := forall w, L_kmem ∉ w_held w ->
  run b m (fun a w' => w_me w' = w_me w /\ e_mem (w_st w') = e_mem (w_st w) /\ (L_kmem ∉ w_held w') /\ R a) w.

(** [reads ip off n r]: [r] is a possible result of reading. *)
Class ExecLaws (b : bool) (reads : nat -> Z -> Z -> Z * list Z -> Prop) : Prop := {
  xl_mem :: MemLaws E;
  xl_begin_op : calm b (fun _ => True) e_begin_op;
  xl_end_op : calm b (fun _ => True) e_end_op;
  xl_namei cwd path : calm b (fun _ => True) (x_namei cwd path);
  xl_ilock ip : calm b (fun _ => True) (x_ilock ip);
  xl_iunlockput ip : calm b (fun _ => True) (x_iunlockput ip);
  xl_readi ip off n : 0 <= off < 2 ^ 32 -> 0 <= n < 2 ^ 32 -> calm b (reads ip off n) (x_readi ip off n);
  xl_length ip off n r : reads ip off n r -> Z.of_nat (length (snd r)) <= n }.
End laws.
Arguments ExecLaws E {eops xops} b reads.

Section spec.
Context {sy : Symbols} {syok : SymbolsOk sy} {ts : TextSyms} {E : Type} {eops : FileOps E} {xops : ExecOps E}.
Context {b : bool} {reads : nat -> Z -> Z -> Z * list Z -> Prop} {xlaws : ExecLaws E b reads}.
Implicit Types (w : world (pst E)) (s : phys) (root sz tf : Z) (l us : list Z).

Lemma here_env {A} (m : M E A) R w0 w s : calm b R m -> here w0 w s -> run b (env m) (fun a w' => here w0 w' s /\ R a) w.
Proof using syok.
  intros Hm [H1 H2 H3 H4 H5 H6 H7]. apply run_zoom. eapply run_mono; [|by apply Hm].
  intros a w' (Hme & Hmem & Hl & Ha). cbn in *. split; [|done]. split; cbn; try done; congruence.
Qed.

Lemma run_env {A B} (m : M E A) R (f : A -> M (pst E) B) (Q : B -> world (pst E) -> Prop) w0 w s :
  calm b R m -> here w0 w s -> (forall a w', here w0 w' s -> R a -> run b (f a) Q w') -> run b (a ← env m; f a) Q w.
Proof using syok. intros Hm Hw Hf. eapply run_call; [by eapply here_env|]. intros a w' [? ?]. by apply Hf. Qed.

(** ** What a program puts into memory *)

(** The bytes of a segment from page [i] on. *)
Inductive seg_loaded (ip : nat) (va offset sz : Z) : Z -> memory -> memory -> Prop :=
| seg_done i img : sz <= i -> seg_loaded ip va offset sz i img img
| seg_page i img img' r : i < sz -> reads ip (u32 (offset + i)) (Z.min (sz - i) PGSIZE) r -> u32 (fst r) = Z.min (sz - i) PGSIZE ->
    seg_loaded ip va offset sz (i + PGSIZE) (write_bytes img (va + i) (snd r)) img' -> seg_loaded ip va offset sz i img img'.

(** The program headers, [n] of them, from offset [off] on. *)
Inductive prog_loaded (ip : nat) : nat -> Z -> Z -> memory -> Z -> memory -> Prop :=
| prog_done off sz img : prog_loaded ip 0 off sz img sz img
| prog_skip n off sz img r sz' img' :
    reads ip (u32 off) sizeof_proghdr r -> fst r = sizeof_proghdr -> ph_type (proghdr_of (snd r)) <> ELF_PROG_LOAD ->
    prog_loaded ip n (i32 (off + sizeof_proghdr)) sz img sz' img' -> prog_loaded ip (S n) off sz img sz' img'
| prog_seg n off sz img r img1 sz' img' :
    reads ip (u32 off) sizeof_proghdr r -> fst r = sizeof_proghdr ->
    let ph := proghdr_of (snd r) in
    ph_type ph = ELF_PROG_LOAD -> ph_filesz ph <= ph_memsz ph -> ph_vaddr ph + ph_memsz ph < 2 ^ 64 -> ph_vaddr ph mod PGSIZE = 0 ->
    seg_loaded ip (ph_vaddr ph) (u32 (ph_off ph)) (u32 (ph_filesz ph)) 0 img img1 ->
    prog_loaded ip n (i32 (off + sizeof_proghdr)) (Z.max sz (ph_vaddr ph + ph_memsz ph)) img1 sz' img' ->
    prog_loaded ip (S n) off sz img sz' img'.

(** The size [sz] goes with the user pages [us]. *)
Definition fits sz us : Prop := 0 <= sz <= 4096 * NTF /\ PGROUNDUP sz / 4096 = Z.of_nat (length us).

Lemma flags2perm_range f : 0 <= flags2perm f < 1024.
Proof. unfold flags2perm. repeat destruct (negb _); by vm_compute. Qed.

Section load.
Context (tf : Z) (s0 : phys) (l0 : list Z) (w0 : world (pst E)) (Hk0 : kmem_ok s0 l0) (Htf : page_addr tf).

Lemma run_loadseg_loop root va ip offset sz l us : forall fuel i img w s,
  here w0 w s -> image tf s0 l0 s root l us img -> 0 <= va -> va mod 4096 = 0 -> 0 <= i -> i mod 4096 = 0 ->
  va + sz <= 4096 * Z.of_nat (length us) -> sz - i <= 4096 * (Z.of_nat fuel - 1) -> (0 < fuel)%nat ->
  run b (loadseg_loop fuel root va ip offset sz i) (fun r w' => exists s', here w0 w' s' /\
    ((r = 0 /\ exists img', seg_loaded ip va offset sz i img img' /\ image tf s0 l0 s' root l us img') \/ (r = -1 /\ built tf s0 l0 s' root l us))) w.
Proof using All.
  induction fuel as [|fuel IH]; intros i img w s Hw I Hva Hva' Hi Hi' Hsz Hfuel Hpos; [lia|]. cbn [loadseg_loop].
  destruct (Z.ltb_spec i sz) as [Hlt|Hge]; [|apply run_ret; exists s; split; [done|]; left; split; [done|]; exists img; split; [by apply seg_done|done]].
  pose proof (built_bound _ _ _ _ _ _ _ (kmem_pages _ _ Hk0) (im_built _ _ _ _ _ _ _ _ I)) as Hbd. pose proof (bt_as _ _ _ _ _ _ _ (im_built _ _ _ _ _ _ _ _ I)) as A.
  set (k := Z.to_nat ((va + i) / 4096)).
  pose proof (Z.div_mod va 4096 ltac:(lia)). pose proof (Z.div_mod i 4096 ltac:(lia)).
  assert (Hvi : va + i = 4096 * Z.of_nat k) by (unfold k; replace (va + i) with (4096 * (va / 4096 + i / 4096)) by lia; rewrite div_4096; lia).
  assert (Hk : (k < length us)%nat) by lia. destruct (space_user_page _ _ _ _ _ _ A (im_users _ _ _ _ _ _ _ _ I) Hk) as (Hup & Hin & Hfp).
  rewrite (u64_small (va + i)) by lia. rewrite Hvi.
  eapply (run_emem _ (fun pa s' => pa = nth k us 0 /\ s' = s)); [|exact Hw|].
  { intros v Hv _. unfold wp. rewrite walkaddr_eq, Hv, Hup; [exists s; by destruct v; cbn in *; subst|by rewrite Hv; eapply wf_tables_pos, A|lia]. }
  intros pa ? w1 Hw1 [-> ->]. pose proof (free_page_pos _ Hfp). rewrite (proj2 (Z.eqb_neq _ 0)) by lia.
  assert (En : (if sz - i <? PGSIZE then sz - i else PGSIZE) = Z.min (sz - i) PGSIZE) by (unfold PGSIZE; destruct (Z.ltb_spec (sz - i) 4096); lia).
  rewrite En. assert (Hn : 0 <= Z.min (sz - i) PGSIZE <= 4096) by (unfold PGSIZE; lia).
  eapply run_env; [apply xl_readi; [apply u32_range|lia]|exact Hw1|]. intros r w2 Hw2 Hr. pose proof (xl_length _ _ _ _ Hr).
  eapply (run_emem _ (fun _ s' => s' = upd_mem (fun m => write_bytes m (nth k us 0) (snd r)) s)); [|exact Hw2|].
  { intros v Hv _. apply wp_modify. exists (upd_mem (fun m => write_bytes m (nth k us 0) (snd r)) s). by rewrite Hv. }
  intros [] ? w3 Hw3 ->. pose proof (image_write _ _ _ _ _ _ _ _ k (snd r) I Hk ltac:(lia)) as I'. rewrite <- Hvi in I'.
  set (s' := upd_mem _ s) in *. clearbody s'.
  destruct (Z.eqb_spec (u32 (fst r)) (Z.min (sz - i) PGSIZE)) as [Er|Er]; cbn [negb].
  2:{ apply run_ret. exists s'. split; [done|]. right. split; [done|]. apply I'. }
  unfold PGSIZE in *. rewrite u32_small by lia. eapply run_mono; [|apply (IH (i + 4096) _ w3 s' Hw3 I'); try lia].
  - intros r' w' (s'' & Hw' & [(-> & img' & Hl & I'')|[-> B]]); exists s''; (split; [done|]); [left|by right]. split; [done|]. exists img'. split; [|done].
    by eapply seg_page.
  - rewrite <- Z.add_mod_idemp_l, Hi' by lia. done.
Qed.

Lemma fits_below sz us x : fits sz us -> x <= sz -> x <= 4096 * Z.of_nat (length us).
Proof using syok.
  intros [Hs Hp] Hx. destruct (pgroundup_bounds sz) as [Ha Hb]; [unfold NTF in *; lia..|].
  pose proof (Z.div_mod (PGROUNDUP sz) 4096 ltac:(lia)). lia.
Qed.

Lemma run_loadseg root va ip offset sz l us img w s :
  here w0 w s -> image tf s0 l0 s root l us img -> 0 <= va -> va mod 4096 = 0 -> 0 <= sz -> va + sz <= 4096 * Z.of_nat (length us) ->
  run b (loadseg root va ip offset sz) (fun r w' => exists s', here w0 w' s' /\
    ((r = 0 /\ exists img', seg_loaded ip va offset sz 0 img img' /\ image tf s0 l0 s' root l us img') \/ (r = -1 /\ built tf s0 l0 s' root l us))) w.
Proof using All.
  intros Hw I Hva Hm Hsz Hle. apply (run_loadseg_loop _ _ _ _ _ _ _ _ _ _ _ s); try done; [|lia].
  unfold PGSIZE. pose proof (Z.div_mod sz 4096 ltac:(lia)). pose proof (Z.mod_pos_bound sz 4096 ltac:(lia)). lia.
Qed.

Lemma run_exec_load root ip : forall n off sz l us img w s,
  here w0 w s -> image tf s0 l0 s root l us img -> fits sz us ->
  run b (exec_load n root ip off sz) (fun r w' => exists s' l' us', here w0 w' s' /\ fits (fst r) us' /\
    if snd r then exists img', prog_loaded ip n off sz img (fst r) img' /\ image tf s0 l0 s' root l' us' img' else built tf s0 l0 s' root l' us') w.
Proof using All.
  induction n as [|n IH]; intros off sz l us img w s Hw I Hfit; cbn [exec_load].
  { apply run_ret. exists s, l, us. split_and!; [done|done|]. exists img. split; [by constructor|done]. }
  assert (Hbad : forall w' s' sz' l' us', here w0 w' s' -> built tf s0 l0 s' root l' us' -> fits sz' us' ->
    run b (mret (M := M (pst E)) (sz', false)) (fun r w' => exists s' l' us', here w0 w' s' /\ fits (fst r) us' /\
      if snd r then exists img', prog_loaded ip (S n) off sz img (fst r) img' /\ image tf s0 l0 s' root l' us' img' else built tf s0 l0 s' root l' us') w').
  { intros w' s' sz' l' us' ? ? ?. apply run_ret. by exists s', l', us'. }
  eapply run_env; [apply xl_readi; [apply u32_range|done]|exact Hw|]. intros r w1 Hw1 Hr.
  destruct (Z.eqb_spec (fst r) sizeof_proghdr) as [Er|]; cbn [negb]; [|by eapply Hbad, Hfit; [|apply I]]. cbv zeta.
  set (ph := proghdr_of (snd r)) in *.
  destruct (Z.eqb_spec (ph_type ph) ELF_PROG_LOAD) as [Et|Et]; cbn [negb].
  2:{ eapply run_mono; [|by eapply IH]. intros r' w' (s' & l' & us' & Hw' & Hf & H). exists s', l', us'. split_and!; [done|done|].
    destruct (snd r'); [|done]. destruct H as (img' & Hp & I'). exists img'. split; [|done]. by eapply prog_skip. }
  destruct (Z.ltb_spec (ph_memsz ph) (ph_filesz ph)) as [|Hmf]; [by eapply Hbad, Hfit; [|apply I]|].
  assert (Hv : 0 <= ph_vaddr ph < 2 ^ 64) by apply (get_le_range 8). assert (Hms : 0 <= ph_memsz ph < 2 ^ 64) by apply (get_le_range 8).
  assert (Hfs : 0 <= ph_filesz ph < 2 ^ 64) by apply (get_le_range 8).
  destruct (Z.ltb_spec (u64 (ph_vaddr ph + ph_memsz ph)) (ph_vaddr ph)) as [|Hno]; [by eapply Hbad, Hfit; [|apply I]|].
  assert (Hsum : ph_vaddr ph + ph_memsz ph < 2 ^ 64).
  { destruct (Z.lt_ge_cases (ph_vaddr ph + ph_memsz ph) (2 ^ 64)) as [|Hge]; [done|]. unfold u64 in Hno.
    rewrite <- (Z.mod_add _ (-1)), Z.mod_small in Hno by lia. lia. }
  rewrite u64_small by lia.
  destruct (Z.eqb_spec (ph_vaddr ph mod PGSIZE) 0) as [Ha|]; cbn [negb]; [|by eapply Hbad, Hfit; [|apply I]].
  eapply run_emem; [|exact Hw1|].
  { intros v Hv' Hl. apply (wp_image_grow tf s0 l0 root sz _ _ l us img); try done; [by rewrite Hv'|apply flags2perm_range|apply Hfit|lia|apply Hfit|apply Hfit]. }
  intros sz1 s2 w2 Hw2 (l2 & us2 & I2 & Hres). destruct Hres as [(Esz & Htop & Hus)|[-> ->]].
  2:{ rewrite app_nil_r in I2. by eapply Hbad, Hfit; [|apply I2]. }
  destruct (Z.eqb_spec sz1 0) as [E0|Hne].
  { eapply Hbad; [done|apply I2|]. split; [destruct Hfit; lia|]. rewrite <- Hus, E0. f_equal. f_equal. destruct Hfit. lia. }
  assert (Hfit2 : fits sz1 (us ++ us2)) by (split; [destruct Hfit; lia|done]).
  pose proof (fits_below sz1 _ (ph_vaddr ph + ph_memsz ph) Hfit2 ltac:(lia)) as Hbel.
  assert (Hu32 : 0 <= u32 (ph_filesz ph) <= ph_filesz ph) by (unfold u32; split; [apply Z.mod_pos_bound; lia|apply Z.mod_le; lia]).
  eapply run_call; [apply (run_loadseg root (ph_vaddr ph) ip _ (u32 (ph_filesz ph)) l2 (us ++ us2) img w2 s2); try done; lia|].
  intros r2 w3 (s3 & Hw3 & [(-> & img1 & Hseg & I3)|[-> B3]]).
  - change (0 <? 0) with false. cbn iota. eapply run_mono; [|by eapply IH]. intros r' w' (s' & l' & us' & Hw' & Hf & H).
    exists s', l', us'. split_and!; [done|done|]. destruct (snd r'); [|done]. destruct H as (img' & Hp & I'). exists img'. split; [|done].
    eapply (prog_seg ip n off sz img r); fold ph; try done. by rewrite <- Esz.
  - change (-1 <? 0) with true. cbn iota. by eapply Hbad.
Qed.
End load.
End spec.

(** The user stack that [exec] builds: the argument strings and the array of
    pointers to them, as [main(argc, argv)] finds them. *)


(** ** Contents *)

Definition bytes_at (img : memory) (a : Z) (bs : list Z) : Prop :=
  forall i, (i < length bs)%nat -> rd img (a + Z.of_nat i) = u8 (nth i bs 0).

(** The arguments: [argv[i]] points to string [i], and a null pointer ends
    the array at [sp]. *)
Definition argv_at (img : memory) (sp : Z) (argv : list (list Z)) : Prop :=
  load64 img (sp + 8 * Z.of_nat (length argv)) = 0 /\
  forall i s, argv !! i = Some s -> bytes_at img (load64 img (sp + 8 * Z.of_nat i)) (s ++ [0]).

Lemma bytes_write img a bs : bytes_at (write_bytes img a bs) a bs.
Proof.
  intros i Hi. rewrite rd_write_bytes, (proj2 (Z.leb_le _ _)), (proj2 (Z.ltb_lt _ _)) by lia. cbn [andb]. do 2 f_equal. lia.
Qed.

Lemma bytes_ext img img' a bs : (forall x, a <= x < a + Z.of_nat (length bs) -> rd img' x = rd img x) -> bytes_at img a bs -> bytes_at img' a bs.
Proof. intros H Hb i Hi. rewrite H by lia. by apply Hb. Qed.

Lemma write_below img va bs x : x < va -> rd (write_bytes img va bs) x = rd img x.
Proof. intros Hx. rewrite rd_write_bytes, (proj2 (Z.leb_gt _ _)) by lia. done. Qed.
Lemma write_above img va bs x : va + Z.of_nat (length bs) <= x -> rd (write_bytes img va bs) x = rd img x.
Proof. intros Hx. rewrite rd_write_bytes, (proj2 (Z.ltb_ge _ _)), andb_false_r by lia. done. Qed.

Lemma write_app img a b1 b2 x : rd (write_bytes (write_bytes img a b1) (a + Z.of_nat (length b1)) b2) x = rd (write_bytes img a (b1 ++ b2)) x.
Proof.
  rewrite !rd_write_bytes, length_app, Nat2Z.inj_add.
  destruct (Z.lt_ge_cases x a); [by rewrite !(proj2 (Z.leb_gt _ _)) by lia|].
  destruct (Z.lt_ge_cases x (a + Z.of_nat (length b1))).
  - rewrite (proj2 (Z.leb_gt (a + _) x)), (proj2 (Z.leb_le a x)), !(proj2 (Z.ltb_lt x _)) by lia. cbn [andb]. by rewrite app_nth1 by lia.
  - rewrite !(proj2 (Z.leb_le _ x)), (proj2 (Z.ltb_ge x (a + Z.of_nat (length b1)))), Z.add_assoc by lia. cbn [andb].
    destruct (x <? _); [|done]. rewrite app_nth2 by lia. do 2 f_equal. lia.
Qed.

Lemma slice_split bs o n m : slice bs o (n + m) = slice bs o n ++ slice bs (o + n) m.
Proof. unfold slice. rewrite <- (firstn_skipn n (take (n + m) (drop o bs))), take_take, Nat.min_l, skipn_firstn_comm, drop_drop by lia. by replace (n + m - n)%nat with m by lia. Qed.

(** When reading gives the bytes of a file, a segment is a part of it. *)
Lemma seg_loaded_file reads ip (file : list Z) va offset sz :
  (forall off n r, 0 <= off -> 0 <= n -> reads ip off n r -> u32 (fst r) = n ->
     off + n <= Z.of_nat (length file) /\ snd r = slice file (Z.to_nat off) (Z.to_nat n)) ->
  0 <= offset -> offset + sz < 2 ^ 32 ->
  forall i img img', seg_loaded (reads := reads) ip va offset sz i img img' -> 0 <= i ->
  forall x, rd img' x = rd (write_bytes img (va + i) (slice file (Z.to_nat (offset + i)) (Z.to_nat (sz - i)))) x.
Proof.
  intros Hreads Hoff Hsz i img img'. induction 1 as [i img Hge|i img img' r Hlt Hr Hn Hl IH]; intros Hi x.
  - replace (Z.to_nat (sz - i)) with 0%nat by lia. change (slice file _ 0) with (@nil Z). symmetry.
    destruct (Z.lt_ge_cases x (va + i)); [by apply write_below|by apply write_above; cbn; lia].
  - unfold PGSIZE in *. rewrite u32_small in Hr by lia. set (n := Z.min (sz - i) 4096) in *.
    destruct (Hreads (offset + i) n r ltac:(lia) ltac:(lia) Hr Hn) as [Hlen E]. rewrite IH by lia. rewrite E.
    replace (Z.to_nat (sz - i)) with (Z.to_nat n + Z.to_nat (sz - i - n))%nat by lia. rewrite slice_split, <- write_app, length_slice, Z2Nat.id by lia.
    destruct (decide (n = 4096)) as [En|En].
    + rewrite En. replace (va + (i + 4096)) with (va + i + 4096) by lia. replace (sz - (i + 4096)) with (sz - i - 4096) by lia.
      by replace (Z.to_nat (offset + (i + 4096))) with (Z.to_nat (offset + i) + Z.to_nat 4096)%nat by lia.
    + replace (Z.to_nat (sz - (i + 4096))) with 0%nat by lia. replace (Z.to_nat (sz - i - n)) with 0%nat by lia. unfold slice. cbn [take].
      rewrite !(rd_write_bytes _ _ []). cbn [length]. rewrite !Z.add_0_r. clear. destruct (Z.leb_spec (va + (i + 4096)) x), (Z.ltb_spec x (va + (i + 4096))), (Z.leb_spec (va + i + n) x), (Z.ltb_spec x (va + i + n)); try done; lia.
Qed.

Definition words (vs : list Z) : list Z := concat (map (le_bytes 8) vs).

Lemma length_words vs : length (words vs) = (8 * length vs)%nat.
Proof. unfold words. induction vs as [|v vs IH]; [done|]. cbn [map concat]. rewrite length_app, length_le_bytes, IH. cbn [length]. lia. Qed.

Lemma nth_words vs : forall i v k, vs !! i = Some v -> (k < 8)%nat -> nth (8 * i + k) (words vs) 0 = byte_at v (Z.of_nat k).
Proof.
  unfold words. induction vs as [|v' vs IH]; intros i v k Hi Hk; [done|]. cbn [map concat]. destruct i as [|i]; cbn in Hi.
  - injection Hi as ->. rewrite app_nth1 by (rewrite length_le_bytes; lia). replace (8 * 0 + k)%nat with k by lia. unfold le_bytes.
    rewrite (nth_indep _ 0 (byte_at v (Z.of_nat 0))) by (rewrite length_map, length_seq; lia).
    by rewrite (map_nth (fun k => byte_at v (Z.of_nat k))), seq_nth by lia.
  - rewrite app_nth2 by (rewrite length_le_bytes; lia). rewrite length_le_bytes. replace (8 * S i + k - 8)%nat with (8 * i + k)%nat by lia. by apply IH.
Qed.

Lemma load_words img a vs i v : vs !! i = Some v -> 0 <= v < 2 ^ 64 -> load64 (write_bytes img a (words vs)) (a + 8 * Z.of_nat i) = v.
Proof.
  intros Hi Hv. unfold load64. rewrite (load_le_bytes _ v); [by apply Z.mod_small|]. intros k Hk. pose proof (lookup_lt_Some _ _ _ Hi) as Hl.
  rewrite rd_write_bytes, length_words, (proj2 (Z.leb_le _ _)), (proj2 (Z.ltb_lt _ _)) by lia. cbn [andb].
  replace (Z.to_nat (a + 8 * Z.of_nat i + k - a)) with (8 * i + Z.to_nat k)%nat by lia. rewrite (nth_words vs i v) by (done || lia).
  rewrite Z2Nat.id by lia. unfold u8, byte_at. by rewrite Z.mod_mod by lia.
Qed.

(** The strings [argv] were pushed at the addresses [ustack], all of them
    from [sp] on. *)
Definition pushed (img : memory) (sp top : Z) : list (list Z) -> list Z -> Prop :=
  Forall2 (fun s a => sp <= a <= top /\ bytes_at img a (s ++ [0])).

Lemma pushed_write img sp top va bs argv ustack : va + Z.of_nat (length bs) <= sp -> pushed img sp top argv ustack ->
  pushed (write_bytes img va bs) va top argv ustack.
Proof.
  intros Hva Hp. eapply Forall2_impl; [exact Hp|]. intros s a [Ha Hb]. split; [lia|]. eapply bytes_ext; [|exact Hb]. intros x Hx. apply write_above. lia.
Qed.

Lemma argv_pushed img sp top argv ustack sp' :
  pushed img sp top argv ustack -> 0 <= sp -> top < 2 ^ 64 -> sp' + 8 * (Z.of_nat (length ustack) + 1) <= sp ->
  argv_at (write_bytes img sp' (words (ustack ++ [0]))) sp' argv.
Proof.
  intros Hp Hsp Htop Hle. pose proof (Forall2_length _ _ _ Hp) as Hlen. split.
  - rewrite Hlen. apply load_words; [|lia]. by rewrite lookup_app_r, Nat.sub_diag by lia.
  - intros i s Hs. destruct (Forall2_lookup_l _ _ _ _ _ Hp Hs) as (a & Ha & Hr & Hb).
    rewrite (load_words _ _ _ i a); [|by apply lookup_app_l_Some|lia]. eapply bytes_ext; [|exact Hb].
    intros x Hx. apply write_above. rewrite length_words, length_app. cbn [length]. lia.
Qed.

(** ** Pushing *)

Section stack.
Context {sy : Symbols} {syok : SymbolsOk sy} {ts : TextSyms} {E : Type} {eops : FileOps E} {xops : ExecOps E}.
Context {b : bool} {reads : nat -> Z -> Z -> Z * list Z -> Prop} {xlaws : ExecLaws E b reads}.
Context (tf : Z) (s0 : phys) (l0 : list Z) (w0 : world (pst E)) (Hk0 : kmem_ok s0 l0) (Htf : page_addr tf).

(** The stack page is the last of [us], the page below it is the guard. *)
Record stacked s root l us (img : memory) : Prop := {
  st_built : built tf s0 l0 s root l us;
  st_holds : holds (p_mem s) us img;
  st_guard : is_set (pte_at (p_mem s) root (4096 * (Z.of_nat (length us) - 2))) PTE_U = false }.

Lemma run_push {B} root l us img va bs (f : Z -> M (pst E) B) (Q : B -> world (pst E) -> Prop) w s :
  here w0 w s -> stacked s root l us img -> 0 <= va < 2 ^ 64 ->
  (forall w' s', here w0 w' s' -> built tf s0 l0 s' root l us -> run b (f (-1)) Q w') ->
  (forall w' s', here w0 w' s' -> stacked s' root l us (write_bytes img va bs) -> run b (f 0) Q w') ->
  run b (r ← emem (copyout root va bs); f r) Q w.
Proof using syok Htf xlaws.
  intros Hw [B0 Hh Hg] Hva H1 H2.
  eapply (run_emem _ (fun r s' => built tf s0 l0 s' root l us /\ copied_out root l s s' va bs r)); [|exact Hw|].
  { intros v Hv _. eapply wp_mono; [|apply (wp_space_copyout tf s0 l0 root l us va bs v)]; by rewrite ?Hv. }
  intros r s' w' Hw' [B1 C]. destruct (co_result _ _ _ _ _ _ _ C) as [[-> _]|[-> _]]; [|by eapply H1].
  eapply H2; [exact Hw'|]. split; [done| |by rewrite (co_pte _ _ _ _ _ _ _ C)].
  apply (holds_copied tf s root l us s' va bs img); try done; [apply B0|lia].
Qed.

Lemma run_exec_args root l us stackbase top : forall argv sp ustack done img w s,
  here w0 w s -> stacked s root l us img -> pushed img sp top done ustack ->
  4096 <= stackbase <= sp -> sp <= top -> top < 2 ^ 64 -> Forall (fun a => Z.of_nat (length a) < 4096) argv -> (length ustack + length argv < MAXARG)%nat ->
  run b (exec_args root stackbase argv sp ustack) (fun r w' => exists s', here w0 w' s' /\
    match r with
    | None => built tf s0 l0 s' root l us
    | Some (sp', ustack') => exists img', stacked s' root l us img' /\ pushed img' sp' top (done ++ argv) ustack' /\
        stackbase <= sp' <= top /\ forall x, x < stackbase -> rd img' x = rd img x
    end) w.
Proof using All.
  induction argv as [|a argv IH]; intros sp ustack dn img w s Hw St Hp Hsb Hsp Htop Hlen Hn; cbn [exec_args].
  { apply run_ret. exists s. split; [done|]. exists img. rewrite app_nil_r. split_and!; try done; lia. }
  apply Forall_cons in Hlen as [Ha Hlen]. cbn [length] in Hn. rewrite (proj2 (Nat.leb_gt _ _)) by lia. cbv zeta.
  rewrite u64_small by lia. set (sp1 := sp - (Z.of_nat (length a) + 1)). pose proof (Z.mod_pos_bound sp1 16 ltac:(lia)) as Hm.
  set (sp2 := sp1 - sp1 mod 16) in *. destruct (Z.ltb_spec sp2 stackbase) as [|Hge].
  { apply run_ret. exists s. split; [done|]. apply St. }
  eapply run_push; [exact Hw|exact St|lia|..]; intros w' s' Hw'; [change (-1 <? 0) with true|change (0 <? 0) with false]; cbn iota.
  { intros B. apply run_ret. by exists s'. }
  intros St'. assert (Hll : Z.of_nat (length (a ++ [0])) = Z.of_nat (length a) + 1) by (rewrite length_app; cbn; lia).
  eapply run_mono; [|apply (IH sp2 (ustack ++ [sp2]) (dn ++ [a]) _ w' s' Hw' St'); try done; try lia].
  - intros r w'' (s'' & Hw'' & H). exists s''. split; [done|]. destruct r as [[sp' ust']|]; [|done].
    destruct H as (img' & St'' & Hp' & Hr & Hx). exists img'. rewrite <- app_assoc in Hp'. split_and!; try done; try lia.
    intros x Hxl. rewrite Hx by done. apply write_below. lia.
  - apply Forall2_app; [apply (pushed_write _ sp); [lia|done]|]. constructor; [|done]. split; [lia|apply bytes_write].
  - rewrite length_app. cbn. lia.
Qed.
End stack.
