(* ===== verification/ExecProps.v ===== *)
(** Correctness of [exec]: it replaces the image of the process by that of
    the program, or changes nothing. *)

From S2P Require Import Prelude KMonad Kstring Riscv Kalloc Vm VmTable VmSpec VmUser VmFree VmCopy UserMem Bytes Sleeplock BlockStore Log LogTx Bio Fs Sysfile Proc ProcSpec ProcProps Kernel Exec VmSpace VmImage ExecSpec.

Section exec.
Context {sy : Symbols} {syok : SymbolsOk sy} {ts : TextSyms} {E : Type} {eops : FileOps E} {xops : ExecOps E}.
Context {b : bool} {reads : nat -> Z -> Z -> Z * list Z -> Prop} {xlaws : ExecLaws E b reads}.
Implicit Types (s : phys) (x : proc) (w : world (pst E)).

Lemma free_page_56 q : free_page q -> q + 4096 <= 2 ^ 56.
Proof. intros H. pose proof (free_page_top q H). assert (Ht : PHYSTOP = 2281701376) by done. lia. Qed.

(** The process [x] has the address space of the pages [us] and a trapframe
    page of its own; the pages [l] are free. *)
Record process w x s l us : Prop := {
  pc_here : here w w s;
  pc_proc : pt_procs (w_st w) !! my_idx (w_me w) = Some x;
  pc_space : aspace (pr_trapframe x) s (pr_pagetable x) l us;
  pc_size : 0 <= pr_sz x <= MAXVA /\ PGROUNDUP (pr_sz x) / 4096 = Z.of_nat (length us);
  pc_tf : free_page (pr_trapframe x);
  pc_tf_free : pr_trapframe x ∉ l;
  pc_tf_owned : pr_trapframe x ∉ owned (p_mem s) (pr_pagetable x) us }.

(** [exec] failed: the process is as it was, and so is memory but for what
    the free pages hold. *)
Definition exec_failed w s l w' : Prop := exists s' l', here w w' s' /\ given_back s l s' l'.

(** The words of the trapframe that [exec] sets. *)
Definition tf_word (tf y : Z) : Prop := exists off, off ∈ [tf_epc; tf_sp; tf_a1] /\ tf + off <= y < tf + off + 8.

(** Three stores to the trapframe. *)
Definition tf_stores tf sp entry s : phys :=
  upd_mem (fun m => store64 m (tf + tf_sp) sp) (upd_mem (fun m => store64 m (tf + tf_epc) entry) (upd_mem (fun m => store64 m (tf + tf_a1) sp) s)).

Lemma tf_store_page tf off v m : 0 <= off <= 4088 -> same_outside tf m (store64 m (tf + off) v).
Proof. intros Ho y Hy. apply rd_store_le_out. unfold in_page in Hy. lia. Qed.

Lemma tf_stores_page tf sp entry s : same_outside tf (p_mem s) (p_mem (tf_stores tf sp entry s)).
Proof. intros y Hy. cbn. rewrite !tf_store_page by (done || (unfold tf_sp, tf_epc, tf_a1; lia)). done. Qed.

Lemma tf_stores_other tf sp entry s y : ~ tf_word tf y -> rd (p_mem (tf_stores tf sp entry s)) y = rd (p_mem s) y.
Proof.
  intros Hy. assert (H : forall off, off ∈ [tf_epc; tf_sp; tf_a1] -> y < tf + off \/ tf + off + 8 <= y).
  { intros off Ho. destruct (Z.lt_ge_cases y (tf + off)) as [|Hge]; [by left|]. right. destruct (Z.lt_ge_cases y (tf + off + 8)); [|done].
    exfalso. apply Hy. exists off. split; [done|lia]. }
  cbn. unfold store64. rewrite !rd_store_le_out; [done|..]; apply H; set_solver.
Qed.

Lemma tf_stores_kmem tf sp entry s l : free_page tf -> kmem_ok s l -> (tf ∉ l) -> kmem_ok (tf_stores tf sp entry s) l.
Proof.
  intros Hf Hk Hl. unfold tf_stores.
  repeat (apply kmem_ok_write with tf; [|done|done|intros m; apply tf_store_page; unfold tf_sp, tf_epc, tf_a1; lia]). done.
Qed.

(** The process [x] runs the image [img] of [sz] bytes now. *)
Record exec_done path argv w x s l us w' root sz entry sp (img : memory) s' l' us' : Prop := {
  ed_here : here (with_root root (with_procs (<[my_idx (w_me w) :=
    set_sz sz (set_pagetable root (set_name (name_copy (pr_name x) (last_elem path path)) x))]> (pt_procs (w_st w))) w)) w' s';
  ed_space : aspace (pr_trapframe x) s' root l' us';
  ed_size : fits sz us';
  ed_image : holds (p_mem s') us' img;
  ed_argv : argv_at img sp argv;
  ed_sp : sz - 4096 <= sp < sz /\ sp mod 16 = 0;
  ed_guard : is_set (pte_at (p_mem s') root (sz - 8192)) PTE_U = false;
  ed_pages : owned (p_mem s') root us' ++ l' ≡ₚ owned (p_mem s) (pr_pagetable x) us ++ l;
  ed_epc : load64 (p_mem s') (pr_trapframe x + tf_epc) = entry;
  ed_usp : load64 (p_mem s') (pr_trapframe x + tf_sp) = sp;
  ed_a1 : load64 (p_mem s') (pr_trapframe x + tf_a1) = sp;
  ed_rest : forall y, outside (owned (p_mem s) (pr_pagetable x) us ++ l) y -> ~ tf_word (pr_trapframe x) y -> rd (p_mem s') y = rd (p_mem s) y }.

Section process.
Context (path : list Z) (argv : list (list Z)) (w0 : world (pst E)) (x : proc) (s0 : phys) (l0 us0 : list Z) (P : process w0 x s0 l0 us0).
Abbreviation tf := (pr_trapframe x).
Abbreviation p := (my_idx (w_me w0)).

Lemma exec_kmem : kmem_ok s0 l0.
Proof using P. apply (as_ok _ _ _ _ _ (pc_space _ _ _ _ _ P)). Qed.

(** ** The commit *)

Lemma run_exec_commit root sz entry sp argc img w s1 l1 us1 :
  here w0 w s1 -> stacked tf s0 l0 s1 root l1 us1 img -> sz = 4096 * Z.of_nat (length us1) -> fits sz us1 -> argv_at img sp argv ->
  sz - 4096 <= sp < sz -> sp mod 16 = 0 -> 0 <= sp < 2 ^ 64 -> 0 <= entry < 2 ^ 64 ->
  run b (exec_commit path root sz sp entry (pr_sz x) argc) (fun r w' => r = argc /\
    exists s' l', exec_done path argv w0 x s0 l0 us0 w' root sz entry sp img s' l' us1) w.
Proof using P syok xlaws.
  intros Hw [B Hh Hg] Hsz Hfit Hargv Hsp Hal Hspr Hent. pose proof exec_kmem as Hk0. destruct P as [Hh0 Hp A0 Hsz0 Htf Htl Hto].
  pose proof (lookup_lt_Some _ _ _ Hp) as Hlt. unfold exec_commit. eapply run_mypid; [exact Hw|]. eapply run_pload; [exact Hw|exact Hp|].
  eapply run_tf_store; [exact Hw|]. clear w Hw. intros w Hw. eapply run_passign; [exact Hw|exact Hp|]. clear w Hw. intros w Hw.
  eapply run_passign; [exact Hw|cbn; by rewrite list_lookup_insert_eq|]. clear w Hw. intros w Hw.
  eapply run_set_mypagetable; [exact Hw|]. clear w Hw. intros w Hw. eapply run_tf_store; [exact Hw|]. clear w Hw. intros w Hw.
  eapply run_tf_store; [exact Hw|]. clear w Hw. intros w Hw. cbn [with_procs set_st w_st pt_procs] in Hw. rewrite list_insert_insert_eq in Hw.
  fold (tf_stores tf sp entry s1) in Hw. set (s2 := tf_stores tf sp entry s1) in *.
  assert (Hl1 : tf ∉ l1) by (intros Hin; apply Htl; rewrite (bt_own _ _ _ _ _ _ _ B); apply elem_of_app; by right).
  assert (Hk2 : kmem_ok s2 l1) by (apply tf_stores_kmem; [done|apply (as_ok _ _ _ _ _ (bt_as _ _ _ _ _ _ _ B))|done]).
  pose proof (tf_stores_page tf sp entry s1) as Hw2. fold s2 in Hw2.
  destruct (swap_old _ _ _ _ _ _ _ _ _ _ Hk0 A0 B Htf Htl Hto Hk2 Hw2) as [A2 Eo].
  eapply (run_emem _ (fun _ s' => exists l', kmem_ok s' l' /\ l' ≡ₚ owned (p_mem s2) (pr_pagetable x) us0 ++ l1 /\ frame l' (p_mem s2) (p_mem s'))); [|exact Hw|].
  { intros v Hv Hl. eapply wp_mono; [|apply (wp_proc_freepagetable tf (pr_pagetable x) (pr_sz x) l1 us0 v)]; rewrite ?Hv; try done; try apply Hsz0.
    - intros [] v' (s' & l' & -> & H). exists s'. split; [done|]. by exists l'.
    - by apply free_page_addr. }
  intros [] s3 w3 Hw3 (l3 & Hk3 & Hl3 & Hf3). apply run_ret. split; [done|]. exists s3, l3.
  assert (Hload : forall off, 0 <= off <= 4088 -> load64 (p_mem s3) (tf + off) = load64 (p_mem s2) (tf + off)).
  { intros off Ho. apply load_le_ext. intros y Hy. apply Hf3. eapply (page_outside l3 tf); [destruct Hk3; by eapply free_rep_pages|done| |unfold in_page; lia].
    rewrite Hl3, Eo, elem_of_app. by intros [?|?]. }
  split; try done.
  - by eapply (swap_new tf _ root s0 s1 s2 l0 l1 us0 us1).
  - by eapply (swap_holds tf _ root s0 s1 s2 l0 l1 us0 us1).
  - rewrite (swap_pte tf (pr_pagetable x) root s0 s1 s2 l0 l1 us0 us1 Hk0 A0 B Htf Htl Hto Hk2 Hw2 s3 l3 Hk3 Hl3 Hf3).
    replace (sz - 8192) with (4096 * (Z.of_nat (length us1) - 2)) by lia. done.
  - by eapply (swap_owned tf _ root s0 s1 s2 l0 l1 us0 us1).
  - rewrite Hload by done. unfold s2, tf_stores, upd_mem. cbn [p_mem]. rewrite load64_store64_other by (unfold tf_sp, tf_epc; lia). by apply load64_store64_same.
  - rewrite Hload by done. unfold s2, tf_stores, upd_mem. cbn [p_mem]. by apply load64_store64_same.
  - rewrite Hload by done. unfold s2, tf_stores, upd_mem. cbn [p_mem]. rewrite !load64_store64_other by (unfold tf_sp, tf_epc, tf_a1; lia). by apply load64_store64_same.
  - intros y Hy Hny. rewrite Hf3; [unfold s2; rewrite (tf_stores_other _ _ _ _ _ Hny); apply (bt_frame _ _ _ _ _ _ _ B)|];
      (eapply outside_sub; [|exact Hy]); intros q Hq; apply elem_of_app; [by right|].
    rewrite Hl3, Eo, elem_of_app in Hq. destruct Hq as [?|?]; [by left|right]. rewrite (bt_own _ _ _ _ _ _ _ B). apply elem_of_app. by right.
Qed.

Lemma exec_tf_page : page_addr tf.
Proof using P syok. apply free_page_addr, P. Qed.

Lemma run_exec_bad root sz ip l us w s :
  here w0 w s -> built tf s0 l0 s root l us -> fits sz us -> root <> 0 ->
  run b (exec_bad root sz ip) (fun r w' => r = -1 /\ exec_failed w0 s0 l0 w') w.
Proof using P syok xlaws.
  intros Hw B Hfit Hr. unfold exec_bad. rewrite (proj2 (Z.eqb_neq root 0)) by done. cbn [negb].
  eapply (run_emem _ (fun _ s' => exists l', given_back s0 l0 s' l')); [|exact Hw|].
  { intros v Hv Hl. eapply wp_mono; [|apply (wp_built_free tf s0 l0 root sz l us v)]; rewrite ?Hv; try done.
    - intros [] v' (s' & l' & -> & H). exists s'. split; [done|]. by exists l'.
    - apply exec_tf_page.
    - destruct Hfit as [Hf _]. rewrite MAXVA_pages. unfold NTF in Hf. lia.
    - apply Hfit. }
  intros [] s' w' Hw' (l' & G). destruct ip as [ip|]; [|apply run_bind, run_ret, run_ret; split; [done|]; by exists s', l'].
  apply run_bind. eapply run_env; [apply xl_iunlockput|exact Hw'|]. intros [] w2 Hw2 _.
  eapply run_mono; [|eapply here_env; [apply xl_end_op|exact Hw2]]. intros [] w3 [Hw3 _]. apply run_ret. split; [done|]. by exists s', l'.
Qed.

(** Nothing was allocated yet. *)
Lemma run_exec_bad_null ip w l :
  (exists s', here w0 w s' /\ given_back s0 l0 s' l) -> run b (exec_bad 0 0 (Some ip)) (fun r w' => r = -1 /\ exec_failed w0 s0 l0 w') w.
Proof using P syok xlaws.
  intros (s' & Hw & G). unfold exec_bad. change (negb (0 =? 0)) with false. cbn iota. apply run_bind, run_ret, run_bind.
  eapply run_env; [apply xl_iunlockput|exact Hw|]. intros [] w2 Hw2 _.
  eapply run_mono; [|eapply here_env; [apply xl_end_op|exact Hw2]]. intros [] w3 [Hw3 _]. apply run_ret. split; [done|]. by exists s', l.
Qed.

(** ** The stack *)

Context (Hargc : (length argv < MAXARG)%nat) (Hargs : Forall (fun a => Z.of_nat (length a) < 4096) argv).

(** The new image: that of the program, and the stack above it. *)
Definition new_image szp entry (prog : memory) w' : Prop := exists root sp img s' l' us',
  exec_done path argv w0 x s0 l0 us0 w' root (PGROUNDUP szp + 8192) entry sp img s' l' us' /\
  forall y, y < PGROUNDUP szp + 4096 -> rd img y = rd prog y.

Lemma fits_round sz us : fits sz us -> PGROUNDUP sz = 4096 * Z.of_nat (length us) /\ fits (PGROUNDUP sz) us.
Proof using Type.
  clear. intros [Hs Hp]. destruct (pgroundup_bounds sz) as [Ha Hb]; [unfold NTF in *; lia..|].
  pose proof (Z.div_mod (PGROUNDUP sz) 4096 ltac:(lia)) as Hd.
  assert (E : PGROUNDUP sz = 4096 * Z.of_nat (length us)) by lia. split; [done|].
  assert (Hle : Z.of_nat (length us) <= NTF) by (unfold NTF in *; lia).
  destruct (pgroundup_bounds (PGROUNDUP sz)) as [Ha' Hb']; [unfold NTF in *; lia..|].
  pose proof (Z.div_mod (PGROUNDUP (PGROUNDUP sz)) 4096 ltac:(lia)). split; lia.
Qed.

Lemma run_exec_stack root szp entry prog w s l us :
  here w0 w s -> image tf s0 l0 s root l us prog -> fits szp us -> root <> 0 -> 0 <= entry < 2 ^ 64 ->
  run b (exec_stack path argv root szp entry) (fun r w' =>
    (r = -1 /\ exec_failed w0 s0 l0 w') \/ (r = Z.of_nat (length argv) /\ new_image szp entry prog w')) w.
Proof using All.
  intros Hw I Hfit Hroot Hent. destruct (fits_round _ _ Hfit) as [Esz Hfr]. pose proof (proj1 Hfr) as Hszr. unfold NTF in Hszr.
  unfold exec_stack. eapply run_mypid; [exact Hw|]. eapply run_pload; [exact Hw|apply P|]. cbv zeta.
  set (sz := PGROUNDUP szp) in *. set (Q := fun (r : Z) w' => _).
  assert (Hbad : forall sz' l' us' w' s', here w0 w' s' -> built tf s0 l0 s' root l' us' -> fits sz' us' -> run b (exec_bad root sz' None) Q w').
  { intros sz' l' us' w' s' Hw' B' Hf'. eapply run_mono; [|by eapply run_exec_bad]. intros r w'' H. by left. }
  unfold PGSIZE. rewrite u64_small by lia. eapply run_emem; [|exact Hw|].
  { intros v Hv Hl. apply (wp_image_grow tf s0 l0 root sz _ _ l us prog); try done; [apply exec_kmem|by rewrite Hv|lia|lia|apply Hfr|unfold NTF; lia]. }
  intros sz1 s2 w2 Hw2 (l2 & us2 & I2 & Hres). destruct Hres as [(Esz1 & Htop & Hus)|[-> ->]].
  2:{ rewrite app_nil_r in I2. by eapply Hbad; [|apply I2|]. }
  rewrite Z.max_r in Esz1 by lia. subst sz1. rewrite (proj2 (Z.eqb_neq _ 0)) by lia.
  set (us' := us ++ us2) in *. clearbody us'. assert (Hfit2 : fits (sz + 2 * 4096) us') by (split; [lia|done]).
  destruct (fits_round _ _ Hfit2) as [Esz2 _]. assert (Esz3 : sz + 2 * 4096 = 4096 * Z.of_nat (length us')).
  { rewrite <- Esz2, Esz. replace (4096 * Z.of_nat (length us) + 2 * 4096) with (4096 * (Z.of_nat (length us) + 2)) by lia. symmetry. apply pgroundup_aligned; [lia|lia|rewrite Z.mul_comm; by apply Z.mod_mul]. }
  replace (sz + 2 * 4096 - 2 * 4096) with (4096 * (Z.of_nat (length us') - 2)) by lia. rewrite Esz3 in Hfit2 |- *.
  eapply (run_emem _ (fun _ s' => stacked tf s0 l0 s' root l2 us' prog)); [|exact Hw2|].
  { intros v Hv Hl. eapply wp_mono; [|apply (wp_space_clear tf s0 l0 root l2 us' (Z.of_nat (length us') - 2) v)]; [|rewrite Hv; apply I2|lia].
    intros [] v' (s' & -> & B & Hg & Hh). exists s'. split; [done|]. split; [done|apply Hh; rewrite Hv; apply I2|done]. }
  intros [] s3 w3 Hw3 St. assert (Hn2 : 2 <= Z.of_nat (length us')) by lia.
  eapply run_call; [apply (run_exec_args tf s0 l0 w0 exec_kmem exec_tf_page root l2 us' _ (4096 * Z.of_nat (length us')) argv _ [] [] prog w3 s3 Hw3 St);
    try done; [constructor|lia..]|].
  intros [[sp ust]|] w4 (s4 & Hw4 & H); [|by eapply Hbad].
  destruct H as (img & St4 & Hp & Hsp & Hx). cbn [app] in Hp. pose proof (Forall2_length _ _ _ Hp) as Hlen.
  rewrite (proj2 (Nat.leb_gt _ _)) by lia. unfold MAXARG in *. rewrite u64_small by lia.
  set (sp1 := sp - (Z.of_nat (length ust) + 1) * 8). pose proof (Z.mod_pos_bound sp1 16 ltac:(lia)) as Hm. pose proof (Z.div_mod sp1 16 ltac:(lia)) as Hd.
  set (sp2 := sp1 - sp1 mod 16) in *. destruct (Z.ltb_spec sp2 (4096 * Z.of_nat (length us') - 4096)) as [|Hge]; [by eapply Hbad; [|apply St4|]|].
  fold (words (ust ++ [0])). eapply run_push; [apply exec_tf_page|exact Hw4|exact St4|lia|..]; intros w5 s5 Hw5 St5;
    [change (-1 <? 0) with true; cbn iota; by eapply Hbad|change (0 <? 0) with false; cbn iota].
  eapply run_mono; [|eapply (run_exec_commit root (4096 * Z.of_nat (length us')) entry sp2 _ _ w5 s5 l2 us' Hw5 St5)]; try done; try lia.
  - intros r w6 (-> & s' & l' & D). right. split; [lia|]. exists root, sp2, (write_bytes img sp2 (words (ust ++ [0]))), s', l', us'. rewrite <- Esz3 in D.
    split; [exact D|]. fold sz. intros y Hy. rewrite write_below by lia. apply Hx. lia.
  - by eapply argv_pushed; [exact Hp|lia..].
  - replace sp2 with (sp1 / 16 * 16) by lia. apply Z.mod_mul. lia.
Qed.

(** ** The whole of it *)

(** The result: -1 and the old image, or the number of arguments and the
    image of a program that was read from an inode. *)
Definition exec_post (r : Z) w' : Prop :=
  (r = -1 /\ exec_failed w0 s0 l0 w') \/
  (r = Z.of_nat (length argv) /\ exists ip h szp prog, reads ip 0 sizeof_elfhdr h /\ fst h = sizeof_elfhdr /\
     let elf := elfhdr_of (snd h) in
     elf_magic elf = ELF_MAGIC /\
     prog_loaded (reads := reads) ip (Z.to_nat (elf_phnum elf)) (i32 (elf_phoff elf)) 0 (fun _ => 0) szp prog /\
     new_image szp (elf_entry elf) prog w').

Lemma run_exec_file ip w : here w0 w s0 -> run b (exec_file path argv ip) exec_post w.
Proof using All.
  intros Hw. pose proof exec_kmem as Hk. pose proof exec_tf_page as Htf. assert (G0 : given_back s0 l0 s0 l0) by done.
  assert (Hnull : forall w' s', here w0 w' s' -> (exists l', given_back s0 l0 s' l') -> run b (exec_bad 0 0 (Some ip)) exec_post w').
  { intros w' s' Hw' (l' & G). eapply run_mono; [|eapply run_exec_bad_null; by exists s']. intros r w'' H. by left. }
  unfold exec_file. eapply run_mypid; [exact Hw|]. eapply run_pload; [exact Hw|apply P|].
  eapply run_env; [by apply xl_readi|exact Hw|]. intros h w1 Hw1 Hh.
  destruct (Z.eqb_spec (fst h) sizeof_elfhdr) as [Eh|]; cbn [negb]; [|by eapply Hnull; [|exists l0]]. cbv zeta.
  destruct (Z.eqb_spec (elf_magic (elfhdr_of (snd h))) ELF_MAGIC) as [Em|]; cbn [negb]; [|by eapply Hnull; [|exists l0]].
  eapply (run_emem _ (fun r s' => exists l', (r = 0 /\ given_back s0 l0 s' l') \/ (r <> 0 /\ built tf s0 l0 s' r l' []))); [|exact Hw1|].
  { intros v Hv Hl. eapply wp_mono; [|apply (wp_proc_pagetable tf l0 v)]; rewrite ?Hv; try done.
    - intros r v' (s' & l' & -> & H). exists s'. split; [done|]. by exists l'.
    - apply free_page_56, P. }
  intros root s2 w2 Hw2 (l2 & [[-> G]|[Hr B]]); [by eapply Hnull; [|exists l2]|]. rewrite (proj2 (Z.eqb_neq root 0)) by done.
  assert (I : image tf s0 l0 s2 root l2 [] (fun _ => 0)) by (split; [done|intros i Hi; cbn in Hi; lia|split; [intros va Hva; cbn in Hva; lia|done]]).
  eapply run_call; [apply (run_exec_load tf s0 l0 w0 Hk Htf root ip _ _ 0 l2 [] (fun _ => 0) w2 s2 Hw2 I); by split|].
  intros [szp ok] w3 (s3 & l3 & us3 & Hw3 & Hf & H). cbn [fst snd] in *. destruct ok; cbn [negb].
  2:{ eapply run_mono; [|by eapply run_exec_bad]. intros r w' H'. by left. }
  destruct H as (prog & Hprog & I3). eapply run_env; [apply xl_iunlockput|exact Hw3|]. intros [] w4 Hw4 _.
  eapply run_env; [apply xl_end_op|exact Hw4|]. intros [] w5 Hw5 _.
  eapply run_mono; [|eapply (run_exec_stack root szp (elf_entry (elfhdr_of (snd h)))); try done; apply (get_le_range 8)].
  intros r w' [H|[-> H]]; [by left|right]. split; [done|]. by exists ip, h, szp, prog.
Qed.

Lemma run_exec cwd : pr_cwd x = Some cwd -> run b (exec path argv) exec_post w0.
Proof using All.
  intros Hc. pose proof (pc_here _ _ _ _ _ P) as Hw. unfold exec. eapply run_mypid; [exact Hw|]. eapply run_pload; [exact Hw|apply P|].
  eapply run_env; [apply xl_begin_op|exact Hw|]. intros [] w1 Hw1 _. rewrite Hc. eapply run_env; [apply xl_namei|exact Hw1|].
  intros [ip|] w2 Hw2 _.
  - eapply run_env; [apply xl_ilock|exact Hw2|]. intros [] w3 Hw3 _. by apply run_exec_file.
  - eapply run_env; [apply xl_end_op|exact Hw2|]. intros [] w3 Hw3 _. apply run_ret. left. split; [done|]. exists s0, l0. pose proof exec_kmem. done.
Qed.
End process.
End exec.

(** ** Theorems *)

Section props.
Context {sy : Symbols} {syok : SymbolsOk sy} {ts : TextSyms}.

(** C8: where the calls of the file system return, [exec] returns.  When it
    returns -1, the process has its old image, every page that was taken is
    free again and no other memory has changed.  Otherwise the file is an ELF
    file, its segments are at their addresses, the arguments are on the stack
    the way [main(argc, argv)] expects them, below the stack is a page that
    the user cannot access, the trapframe starts the program at its entry with
    that stack, the pages of the old image are free and nothing else has
    changed. *)
Theorem exec_correct {E : Type} {eops : FileOps E} {xops : ExecOps E} reads {xlaws : ExecLaws E true reads}
    path argv (w : world (pst E)) x s l us cwd :
  process w x s l us -> pr_cwd x = Some cwd ->
  (length argv < MAXARG)%nat -> Forall (fun a => Z.of_nat (length a) < 4096) argv ->
  wp (exec path argv) (exec_post (reads := reads) path argv w x s l us) w.
Proof using syok ts. intros. apply run_total. by eapply run_exec. Qed.

(** The file system of kernel/fs.c: it may wait or panic, and [readi] gives
    at most the bytes that were asked for. *)
Context {S : Type} {ops : BlockOps S} {q : QuietBlocks S}.

Definition at_most (ip : nat) (off n : Z) (r : Z * list Z) : Prop := Z.of_nat (length (snd r)) <= n.

Lemma wlp_readi_loop_length fuel : forall ip off n tot got (w : world (fsst (logst S) phys)),
  Z.of_nat (length got) <= tot -> tot <= n ->
  wlp (readi_loop fuel ip KernDst off n tot got) (fun r _ => Z.of_nat (length (snd r)) <= n) w.
Proof using Type.
  induction fuel as [|fuel IH]; intros ip off n tot got w Hg Ht; cbn [readi_loop]; [done|].
  destruct (Z.ltb_spec tot n) as [Hlt|]; [|apply wlp_ret; cbn; lia].
  assert (Hany : forall {A B} (m : M (fsst (logst S) phys) A) (f : A -> M _ B) Q v,
    (forall a v', wlp (f a) Q v') -> wlp (mbind f m) Q v).
  { intros A B m f Q v H. apply wlp_bind. unfold wlp. destruct (m v); [apply H|done..]. }
  apply Hany. intros addr v1. destruct (addr =? 0); [apply wlp_ret; cbn; lia|]. apply Hany. intros x v2. apply Hany. intros bp v3.
  apply Hany. intros d v4. apply Hany. intros r v5. apply Hany. intros [] v6. destruct (r =? -1); [apply wlp_ret; cbn; lia|].
  pose proof (Z.mod_pos_bound off BSIZE ltac:(done)). unfold BSIZE in *.
  apply IH; [|lia]. rewrite length_app. unfold slice. rewrite length_take. lia.
Qed.

Lemma wlp_readi_length ip off n (w : world (fsst (logst S) phys)) : 0 <= off < 2 ^ 32 -> 0 <= n < 2 ^ 32 ->
  wlp (readi ip KernDst off n) (fun r _ => Z.of_nat (length (snd r)) <= n) w.
Proof using Type.
  intros Ho Hn. unfold readi. apply wlp_bind. unfold wlp at 1. destruct (iload ip w) as [x w1| | | |]; [|done..].
  rewrite Z.gtb_ltb. destruct (Z.ltb_spec (i_size x) off) as [|Hs], (Z.ltb_spec (u32 (off + n)) off) as [|Hno]; cbn [orb]; try (apply wlp_ret; cbn; lia).
  assert (E : u32 (off + n) = off + n).
  { unfold u32 in *. destruct (Z.lt_ge_cases (off + n) (2 ^ 32)); [by apply Z.mod_small; lia|]. rewrite <- (Z.mod_add _ (-1)), Z.mod_small in Hno by lia. lia. }
  rewrite E, Z.gtb_ltb. destruct (Z.ltb_spec (i_size x) (off + n)) as [Hlt|]; [|apply wlp_readi_loop_length; cbn; lia].
  rewrite u32_small by lia. eapply wlp_mono; [|apply wlp_readi_loop_length; cbn; lia]. cbv beta. intros r w2. lia.
Qed.

Lemma quiet_calm {A} (m : M (fsst (logst S) phys) A) (R : A -> Prop) :
  quiet f_mem m -> (forall w, wlp m (fun a _ => R a) w) -> calm false R (efs m).
Proof using Type.
  intros Hq HR w Hl. apply run_zoom, run_partial. set (w1 := World _ _ _ _). specialize (Hq w1). specialize (HR w1). unfold wlp in *.
  destruct (m w1) as [a w'| | | |]; [|done..]. destruct Hq as (H1 & H2 & H3). split_and!; [done|exact H2|by apply H3|done].
Qed.

#[global] Instance kernel_exec_laws : ExecLaws (kenv S) false at_most.
Proof using q.
  assert (Ht : forall A (m : M (fsst (logst S) phys) A) w, wlp m (fun _ _ => True) w) by (intros A m w; unfold wlp; by destruct (m w)).
  split; try done; intros; apply quiet_calm; auto with quiet. intros w. by apply wlp_readi_length.
Qed.

End props.

(** ** Witness *)

Section ex.
(** Sixteen pages: the first is the trapframe, the others are free. *)
#[local] Instance ex_exec_symbols : Symbols := {|
  sym_end := PHYSTOP - 17 * 4096 + 16;
  sym_etext := KERNBASE + 4096;
  sym_trampoline := KERNBASE |}.
#[local] Instance ex_exec_symbols_ok : SymbolsOk ex_exec_symbols.
Proof. split; by vm_compute. Qed.
#[local] Existing Instance ex_text.
#[local] Existing Instance ex_files.

Definition ex_page (k : Z) : Z := PHYSTOP - 16 * 4096 + 4096 * k.
Definition ex_links : memory := fun a =>
  let k := (a - ex_page 0) / 4096 in
  if (1 <=? k) && (k <? 15) && (a mod 4096 <? 8) then byte_at (ex_page (k + 1)) (a mod 4096) else 0.
Definition ex_exec_phys : phys := Phys ex_links (ex_page 1).
Definition ex_exec_free : list Z := ex_page <$> seqZ 1 15.

(** A program of four bytes. *)
Definition ex_elf : list Z :=
  le_bytes 4 ELF_MAGIC ++ repeat 0 20 ++ le_bytes 8 0 ++ le_bytes 8 64 ++ repeat 0 16 ++ le_bytes 2 1 ++ repeat 0 6 ++
  le_bytes 4 ELF_PROG_LOAD ++ le_bytes 4 5 ++ le_bytes 8 120 ++ le_bytes 8 0 ++ le_bytes 8 0 ++ le_bytes 8 4 ++ le_bytes 8 4 ++ le_bytes 8 0 ++
  [0x73; 0; 0; 0].
Definition ex_readi (off n : Z) : Z * list Z :=
  let d := take (Z.to_nat n) (drop (Z.to_nat off) ex_elf) in (Z.of_nat (length d), d).

#[local] Instance ex_exec_ops : ExecOps phys := {
  x_namei _ _ := mret (Some 0%nat);
  x_ilock _ := mret ();
  x_iunlockput _ := mret ();
  x_readi _ off n := mret (ex_readi off n) }.

#[local] Instance ex_exec_laws : ExecLaws phys true (fun _ off n r => 0 <= n /\ r = ex_readi off n).
Proof.
  split; try done.
  - intros ip off n Ho Hn w Hl. split_and!; [done|done|done|lia|done].
  - intros ip off n r [Hn ->]. cbn [ex_readi snd]. rewrite length_take. lia.
Qed.

Definition ex_exec_root : Z := ex_page 1.
Definition ex_exec_mem : phys := match proc_pagetable (ex_page 0) (ex_world ex_exec_phys) with Ok _ w => w_st w | _ => ex_exec_phys end.
Definition ex_exec_proc : proc :=
  Proc RUNNING None 0 0 1 None 0 0 ex_exec_root (ex_page 0) (repeat 0 14) (repeat None 16) (Some 0%nat) (repeat 0 16).
Definition ex_exec_world {E} (e : E) : world (pst E) := World (Me 0 1 ex_exec_root 0) [] [] (PSt e [ex_exec_proc] 2 (Some 0%nat) 0).

Lemma ex_exec_kmem : kmem_ok ex_exec_phys ex_exec_free.
Proof.
  split; [|apply (NoDup_fmap_2_strong ex_page); [intros i j _ _; unfold ex_page; lia|apply NoDup_seqZ]].
  change ex_exec_free with (ex_page <$> [1; 2; 3; 4; 5; 6; 7; 8; 9; 10; 11; 12; 13; 14; 15]). repeat (split; [by vm_compute|]). by vm_compute.
Qed.

Lemma ex_exec_tf : free_page (ex_page 0) /\ ex_page 0 ∉ ex_exec_free.
Proof.
  split; [by vm_compute|]. unfold ex_exec_free. rewrite list_elem_of_fmap. intros (i & Hi & Hin). apply elem_of_seqZ in Hin. unfold ex_page in Hi. lia.
Qed.

Lemma ex_exec_table : match proc_pagetable (ex_page 0) (ex_world ex_exec_phys) with Ok r _ => r | _ => 0 end = ex_exec_root.
Proof. by vm_compute. Qed.

Lemma ex_exec_process {E} {eops : FileOps E} (e : E) : e_mem e = ex_exec_mem ->
  exists l, process (ex_exec_world e) ex_exec_proc ex_exec_mem l [].
Proof.
  intros He. destruct ex_exec_tf as [Htf Hno].
  destruct (wp_elim _ _ _ (wp_proc_pagetable (ex_page 0) ex_exec_free (ex_world ex_exec_phys) ex_exec_kmem (not_elem_of_nil _)
    (free_page_addr _ Htf) (free_page_56 _ Htf))) as (r & w & Hrun & s & l & -> & H).
  pose proof ex_exec_table as Hr. rewrite Hrun in Hr. assert (Hs : ex_exec_mem = s) by (unfold ex_exec_mem; rewrite Hrun; reflexivity).
  rewrite Hs in He |- *. clear Hrun Hs. destruct H as [[E0 _]|[_ B]]; [rewrite E0 in Hr; discriminate Hr|]. rewrite Hr in B. clear Hr.
  assert (Hown : forall q, q ∈ owned (p_mem s) ex_exec_root [] ++ l -> q ∈ ex_exec_free) by (intros q Hq; by rewrite (bt_own _ _ _ _ _ _ _ B)).
  exists l. split; cbn [ex_exec_proc pr_trapframe pr_pagetable pr_sz].
  - split; try done. apply not_elem_of_nil.
  - done.
  - apply B.
  - done.
  - done.
  - intros Hin. apply Hno, Hown, elem_of_app. by right.
  - intros Hin. apply Hno, Hown, elem_of_app. by left.
Qed.

Lemma ex_files_mem (s : phys) : e_mem s = s.
Proof. done. Qed.

(** [exec("a", {"ab", "c"})] *)
Lemma exec_correct_witness : exists l, process (ex_exec_world ex_exec_mem) ex_exec_proc ex_exec_mem l [] /\
  wp (exec [97] [[97; 98]; [99]]) (exec_post (reads := fun _ off n r => 0 <= n /\ r = ex_readi off n) [97] [[97; 98]; [99]]
    (ex_exec_world ex_exec_mem) ex_exec_proc ex_exec_mem l []) (ex_exec_world ex_exec_mem).
Proof.
  destruct (ex_exec_process ex_exec_mem (ex_files_mem _)) as [l P]. exists l. split; [exact P|].
  apply (exec_correct _ [97] [[97; 98]; [99]] _ _ _ l [] 0%nat); [exact P|reflexivity|unfold MAXARG; cbn; lia|].
  repeat constructor; cbn; lia.
Defined.

(** The same over a block cache, with nothing cached. *)
Definition ex_kenv (m : phys) : kenv bcache :=
  KEnv (FsSt (LogSt (Bcache [] (fun _ => []) []) (Log 0 0 0 0 0 0 [])) (Superblock 0 0 0 0 0 0 0 0) [] m) ∅ [].

Lemma ex_kenv_mem m : e_mem (ex_kenv m) = m.
Proof. done. Qed.

End ex.
