(* ===== verification/Syscall.v ===== *)
(** kernel/syscall.c and kernel/sysproc.c: the system calls of processes, and
    the dispatch of all of them. *)

From S2P Require Import Prelude KMonad Riscv Kalloc Vm UserMem Pipe Bytes Sleeplock BlockStore Log LogTx Fs File Sysfile Proc Kernel Exec.

(** kernel/syscall.h *)
Definition SYS_fork : Z := 1.
Definition SYS_exit : Z := 2.
Definition SYS_wait : Z := 3.
Definition SYS_pipe : Z := 4.
Definition SYS_read : Z := 5.
Definition SYS_kill : Z := 6.
Definition SYS_exec : Z := 7.
Definition SYS_fstat : Z := 8.
Definition SYS_chdir : Z := 9.
Definition SYS_dup : Z := 10.
Definition SYS_getpid : Z := 11.
Definition SYS_sbrk : Z := 12.
Definition SYS_sleep : Z := 13.
Definition SYS_uptime : Z := 14.
Definition SYS_open : Z := 15.
Definition SYS_write : Z := 16.
Definition SYS_mknod : Z := 17.
Definition SYS_unlink : Z := 18.
Definition SYS_link : Z := 19.
Definition SYS_mkdir : Z := 20.
Definition SYS_close : Z := 21.

(** The process table with what processes share, and [ticks] of trap.c. *)
Record kern (S : Type) := Kern { kn_ps : pst (kenv S); kn_ticks : Z }.
Arguments Kern {S} _ _.
Arguments kn_ps {S} _.
Arguments kn_ticks {S} _.

(** How a system call ends: with a value, asleep in its loop, or never. *)
Inductive sysres :=
| SysRet (r : Z)
| SysSleep (c : wchan) (i : Z)
| SysExit.

Definition of_segment (s : segment) : sysres :=
  match s with Returned r => SysRet r | Slept c i => SysSleep c i end.

(** The registers a0 to a5 in a trapframe. *)
Definition tf_args (m : memory) (tf : Z) : list Z := map (fun i => load64 m (tf + tf_a0 + 8 * Z.of_nat i)) (seq 0 6).

Section syscall.
Context {sy : Symbols} {ts : TextSyms} {S : Type} {ops : BlockOps S}.
Abbreviation km := (M (kst S phys)).
Abbreviation pm := (M (pst (kenv S))).
Abbreviation kn := (M (kern S)).

Definition kps {A} (m : pm A) : kn A := zoom kn_ps (fun s x => Kern x (kn_ticks s)) m.

(** A routine of kernel/file.c or kernel/sysfile.c for the calling process,
    which has entry [x] at index [p] and current directory [cwd]. *)
Definition ksys {A} (m : km A) : pm A :=
  p ← mypid;
  x ← pload p;
  match pr_cwd x with
  | None => ub "process without a directory"
  | Some cwd =>
      zoom (fun s => let e := pt_env s in
              KSt (en_fs e) (en_pipes e) (en_ftable e) (pr_ofile x) cwd (pr_sz x) (tf_args (p_mem (en_mem e)) (pr_trapframe x)))
           (fun s k => PSt (KEnv (k_fs k) (k_pipes k) (k_ftable k))
              (alter (fun x => set_fds (k_ofile k) (set_pcwd (Some (k_cwd k)) x)) p (pt_procs s)) (pt_nextpid s) (pt_initproc s) (pt_first s)) m
  end.

(** ** kernel/sysproc.c *)

Definition sys_exit : pm () :=
  n ← ksys (argint 0);
  pexit n.

Definition sys_getpid : pm Z := p ← mypid; x ← pload p; mret (pr_pid x).

Definition sys_fork : pm Z := fork.

Definition sys_wait : pm segment :=
  p ← ksys (argaddr 0);
  pwait p.
Definition sys_wait_resume (p : Z) : pm segment := pwait_resume p.

Definition sys_sbrk : pm Z :=
  n ← ksys (argint 0);
  p ← mypid;
  x ← pload p;
  let addr := pr_sz x in
  r ← growproc n;
  if r <? 0 then mret (-1) else mret addr.

(** One round of the loop of [sys_sleep]; [ticks - ticks0 < n] compares
    unsigned numbers. *)
Definition sleep_round (ticks0 n : Z) : kn segment :=
  t ← gets kn_ticks;
  if u32 (t - ticks0) <? u32 n then
    p ← kps mypid;
    k ← kps (pkilled p);
    if negb (k =? 0) then
      release L_ticks;;
      mret (Returned (-1))
    else
      kps (psleep ChTicks L_ticks);;
      mret (Slept ChTicks ticks0)
  else
    release L_ticks;;
    mret (Returned 0).

Definition sys_sleep : kn segment :=
  n ← kps (ksys (argint 0));
  acquire L_ticks;;
  ticks0 ← gets kn_ticks;
  sleep_round ticks0 n.
Definition sys_sleep_resume (n ticks0 : Z) : kn segment :=
  kps (psleep_resume L_ticks);;
  sleep_round ticks0 n.

Definition sys_kill : pm Z :=
  pid ← ksys (argint 0);
  kill pid.

Definition sys_uptime : kn Z :=
  acquire L_ticks;;
  xticks ← gets kn_ticks;
  release L_ticks;;
  mret xticks.

(** kernel/trap.c *)
Definition clockintr : kn () :=
  acquire L_ticks;;
  modify (fun s => Kern (kn_ps s) (u32 (kn_ticks s + 1)));;
  kps (pwakeup (Some ChTicks));;
  release L_ticks.

(** ** kernel/syscall.c *)

(** The device table, the padding of a [struct stat], and what the stack
    holds in the buffers of names and directory entries. *)
Variables (devs : Z -> devsw S phys) (pad name0 de0 : list Z).

Definition ret {A} (m : kn A) (f : A -> sysres) : kn sysres := r ← m; mret (f r).

(** [syscalls[num]], for a number that has an entry. *)
Definition syscalls (num : Z) : option (kn sysres) :=
  if num =? SYS_fork then Some (ret (kps sys_fork) SysRet)
  else if num =? SYS_exit then Some (ret (kps sys_exit) (fun _ => SysExit))
  else if num =? SYS_wait then Some (ret (kps sys_wait) of_segment)
  else if num =? SYS_pipe then Some (ret (kps (ksys sys_pipe)) SysRet)
  else if num =? SYS_read then Some (ret (kps (ksys (sys_read devs))) of_segment)
  else if num =? SYS_kill then Some (ret (kps sys_kill) SysRet)
  else if num =? SYS_exec then Some (ret (kps (sys_exec (fun _ => ksys) exec)) SysRet)
  else if num =? SYS_fstat then Some (ret (kps (ksys (sys_fstat pad))) SysRet)
  else if num =? SYS_chdir then Some (ret (kps (ksys (sys_chdir name0))) SysRet)
  else if num =? SYS_dup then Some (ret (kps (ksys sys_dup)) SysRet)
  else if num =? SYS_getpid then Some (ret (kps sys_getpid) SysRet)
  else if num =? SYS_sbrk then Some (ret (kps sys_sbrk) SysRet)
  else if num =? SYS_sleep then Some (ret sys_sleep of_segment)
  else if num =? SYS_uptime then Some (ret sys_uptime SysRet)
  else if num =? SYS_open then Some (ret (kps (ksys (sys_open name0 de0))) SysRet)
  else if num =? SYS_write then Some (ret (kps (ksys (sys_write devs))) of_segment)
  else if num =? SYS_mknod then Some (ret (kps (ksys (sys_mknod name0 de0))) SysRet)
  else if num =? SYS_unlink then Some (ret (kps (ksys (sys_unlink name0))) SysRet)
  else if num =? SYS_link then Some (ret (kps (ksys (sys_link name0 de0))) SysRet)
  else if num =? SYS_mkdir then Some (ret (kps (ksys (sys_mkdir name0 de0))) SysRet)
  else if num =? SYS_close then Some (ret (kps (ksys sys_close)) SysRet)
  else None.

(** A register of the trapframe of the caller. *)
Definition tf_load (off : Z) : pm Z :=
  p ← mypid;
  x ← pload p;
  gets (fun s => load64 (p_mem (en_mem (pt_env s))) (pr_trapframe x + off)).
Definition set_a0 (v : Z) : pm () :=
  p ← mypid;
  x ← pload p;
  tf_store (pr_trapframe x) tf_a0 (u64 v).

Definition syscall : kn sysres :=
  a7 ← kps (tf_load tf_a7);
  let num := i32 a7 in
  match (if num >? 0 then syscalls num else None) with
  | Some f =>
      r ← f;
      (match r with SysRet v => kps (set_a0 v) | _ => mret () end);;
      mret r
  | None =>
      printk "unknown sys call";;
      kps (set_a0 (-1));;
      mret (SysRet (-1))
  end.
End syscall.
