(* ===== verification/SyscallProps.v ===== *)
(** Properties of the system calls of processes. *)

From S2P Require Import Prelude KMonad Kstring Riscv Kalloc Vm VmTable VmSpec VmUser VmFree VmCopy UserMem Pipe Bytes Sleeplock BlockStore Log LogTx Bio Fs File Sysfile Proc ProcSpec ProcProps Kernel Exec VmSpace VmImage ExecSpec ExecProps Syscall.

(** ** sbrk *)

Section sbrk.
Context {sy : Symbols} {syok : SymbolsOk sy} {ts : TextSyms} {E : Type} {eops : FileOps E} {mlaws : MemLaws E}.
Implicit Types (s : phys) (x : proc) (w : world (pst E)) (l us : list Z).

(** The process has [sz'] bytes of memory now: pages were added or removed at
    the end and what remains holds what it held. *)
Record resized w x s l us w' (sz' : Z) s' l' us' : Prop := {
  rz_here : here (with_procs (<[my_idx (w_me w) := set_sz sz' x]> (pt_procs (w_st w))) w) w' s';
  rz_space : aspace (pr_trapframe x) s' (pr_pagetable x) l' us';
  rz_size : fits sz' us';
  rz_pages : owned (p_mem s') (pr_pagetable x) us' ++ l' ≡ₚ owned (p_mem s) (pr_pagetable x) us ++ l;
  rz_image : forall img, holds (p_mem s) us img -> holds (p_mem s') us' (cut (PGROUNDUP sz') img);
  rz_rest : frame (owned (p_mem s) (pr_pagetable x) us ++ l) (p_mem s) (p_mem s') }.

Lemma cut_holds m us img : holds m us img -> holds m us (cut (4096 * Z.of_nat (length us)) img).
Proof.
  intros [Hi Ho]. split; intros va Hva; unfold cut, rd.
  - rewrite (proj2 (Z.ltb_lt _ _)) by lia. by apply Hi.
  - by rewrite (proj2 (Z.ltb_ge _ _)) by lia.
Qed.

Lemma process_fits w x s l us : process w x s l us -> fits (pr_sz x) us.
Proof using syok.
  intros P. destruct (pc_size _ _ _ _ _ P) as [Hs Hp]. split; [|done]. pose proof (as_top _ _ _ _ _ (pc_space _ _ _ _ _ P)).
  pose proof MAXVA_pages. unfold NTF in *. destruct (pgroundup_bounds (pr_sz x)) as [Ha Hb]; [lia..|].
  pose proof (Z.div_mod (PGROUNDUP (pr_sz x)) 4096 ltac:(lia)). lia.
Qed.

(** A space that was built from the pages of the process. *)
Lemma built_resized w x s l us w' sz' s' l' us' :
  built (pr_trapframe x) s (owned (p_mem s) (pr_pagetable x) us ++ l) s' (pr_pagetable x) l' us' -> fits sz' us' ->
  (forall img, holds (p_mem s) us img -> holds (p_mem s') us' (cut (PGROUNDUP sz') img)) ->
  here (with_procs (<[my_idx (w_me w) := set_sz sz' x]> (pt_procs (w_st w))) w) w' s' -> resized w x s l us w' sz' s' l' us'.
Proof. intros [A Hown Hfr] Hfit Hh Hw. split; try done. Qed.

Lemma same_size w x w' s : here w w' s -> pt_procs (w_st w) !! my_idx (w_me w) = Some x ->
  here (with_procs (<[my_idx (w_me w) := set_sz (pr_sz x) x]> (pt_procs (w_st w))) w) w' s.
Proof.
  intros [H1 H2 H3 H4 H5 H6 H7] Hx. split; try done. cbn. assert (E0 : set_sz (pr_sz x) x = x) by (by destruct x).
  by rewrite E0, list_insert_id.
Qed.

(** The size after [growproc(n)]. *)
Definition grown_size (sz n : Z) : Z := if sz + n <? 0 then sz else sz + n.

Lemma fits_cut (m : memory) us' img sz' : fits sz' us' -> holds m us' img -> holds m us' (cut (PGROUNDUP sz') img).
Proof. intros Hf Hh. rewrite (proj1 (fits_round _ _ Hf)). by apply cut_holds. Qed.

(** What [growproc] leaves. *)
Definition grow_post n w x s l us (r : Z) w' : Prop := exists sz' s' l' us', resized w x s l us w' sz' s' l' us' /\
  ((r = 0 /\ sz' = grown_size (pr_sz x) n) \/ (r = -1 /\ 0 < n /\ sz' = pr_sz x)).

Lemma run_grow n w x s l us : process w x s l us -> 0 < n < 2 ^ 31 ->
  run true (sz ← emem (uvmalloc (pr_pagetable x) (pr_sz x) (u64 (pr_sz x + n)) PTE_W);
    if sz =? 0 then mret (-1) else passign (my_idx (w_me w)) (set_sz sz);; mret 0) (grow_post n w x s l us) w.
Proof using syok mlaws.
  intros P Hn. pose proof (process_fits _ _ _ _ _ P) as Hfit. destruct P as [Hw Hx A _ _ _ _].
  pose proof (space_built _ _ _ _ _ A) as B. pose proof (space_pages_ok _ _ _ _ _ A) as Hpo. pose proof Hfit as [Hsz Hus]. unfold NTF in Hsz.
  rewrite u64_small by lia. eapply (run_emem _ (fun r s' => exists l' us', built (pr_trapframe x) s (owned (p_mem s) (pr_pagetable x) us ++ l) s' (pr_pagetable x) l' (us ++ us') /\
    (forall img, holds (p_mem s) us img -> holds (p_mem s') (us ++ us') img) /\
    ((r = pr_sz x + n /\ fits (pr_sz x + n) (us ++ us')) \/ (r = 0 /\ us' = [])))); [|exact Hw|].
  { intros v Hv Hl. eapply wp_mono; [|apply (wp_space_alloc (pr_trapframe x) s _ (pr_pagetable x) (pr_sz x) (pr_sz x + n) PTE_W l us v Hpo)]; rewrite ?Hv; try done; try lia.
    - intros r v' (s' & l' & us' & -> & B' & _ & Hh & Hr). exists s'. split; [done|]. exists l', us'. split_and!; [exact B'|done|].
      destruct Hr as [(-> & ? & ?)|?]; [left; split; [done|]; split; [lia|done]|by right].
    - unfold NTF. lia. }
  intros r s' w' Hw' (l' & us' & B' & Hh & Hres). destruct Hres as [[-> Hf]|[-> ->]].
  - destruct (Z.eqb_spec (pr_sz x + n) 0); [lia|]. eapply run_passign; [exact Hw'|exact Hx|]. intros w2 Hw2. apply run_ret.
    exists (pr_sz x + n), s', l', (us ++ us'). split; [|left; split; [done|]; unfold grown_size; by rewrite (proj2 (Z.ltb_ge _ _)) by lia].
    apply built_resized; try done. intros img H. by apply fits_cut, Hh.
  - rewrite app_nil_r in *. apply run_ret. exists (pr_sz x), s', l', us. split; [|by right; split_and!; [..|lia|]]. apply built_resized; try done.
    + intros img H. by apply fits_cut, Hh.
    + by apply same_size.
Qed.

Lemma run_shrink n w x s l us : process w x s l us -> - 2 ^ 31 <= n < 0 ->
  run true (sz ← emem (uvmdealloc (pr_pagetable x) (pr_sz x) (u64 (pr_sz x + n))); passign (my_idx (w_me w)) (set_sz sz);; mret 0) (grow_post n w x s l us) w.
Proof using syok mlaws.
  intros P Hn. pose proof (process_fits _ _ _ _ _ P) as Hfit. destruct P as [Hw Hx A _ _ _ _].
  pose proof (space_built _ _ _ _ _ A) as B. pose proof Hfit as [Hsz Hus]. unfold NTF in Hsz.
  destruct (Z.lt_ge_cases (pr_sz x + n) 0) as [Hund|Hge].
  - assert (E0 : u64 (pr_sz x + n) = pr_sz x + n + 2 ^ 64) by (unfold u64; rewrite <- (Z.mod_add _ 1), Z.mod_small by lia; lia). rewrite E0.
    eapply (run_emem _ (fun r s' => r = pr_sz x /\ s' = s)); [|exact Hw|].
    { intros v Hv Hl. unfold uvmdealloc. rewrite Z.geb_leb, (proj2 (Z.leb_le _ _)) by lia. apply wp_ret. exists s. by destruct v; cbn in *; subst. }
    intros r s' w' Hw' [-> ->]. eapply run_passign; [exact Hw'|exact Hx|]. intros w2 Hw2. apply run_ret.
    exists (pr_sz x), s, l, us. split; [|left; split; [done|]; unfold grown_size; by rewrite (proj2 (Z.ltb_lt _ _)) by lia].
    apply built_resized; try done. intros img H. by apply fits_cut.
  - rewrite u64_small by lia. eapply (run_emem _ (fun r s' => exists l', r = pr_sz x + n /\
      let us' := take (Z.to_nat (PGROUNDUP (pr_sz x + n) / 4096)) us in
      built (pr_trapframe x) s (owned (p_mem s) (pr_pagetable x) us ++ l) s' (pr_pagetable x) l' us' /\ PGROUNDUP (pr_sz x + n) / 4096 = Z.of_nat (length us') /\
      forall img, holds (p_mem s) us img -> holds (p_mem s') us' (cut (PGROUNDUP (pr_sz x + n)) img))); [|exact Hw|].
    { intros v Hv Hl. eapply wp_mono; [|apply (wp_space_dealloc (pr_trapframe x) s (owned (p_mem s) (pr_pagetable x) us ++ l) (pr_pagetable x) (pr_sz x) (pr_sz x + n) l us v)];
        rewrite ?Hv; try done; try lia.
      - intros r v' (s' & l' & -> & -> & H). exists s'. split; [done|]. by exists l'.
      - unfold NTF. lia. }
    intros r s' w' Hw' (l' & -> & B' & Hlen & Hh). eapply run_passign; [exact Hw'|exact Hx|]. intros w2 Hw2. apply run_ret.
    eexists (pr_sz x + n), s', l', _. split; [|left; split; [done|]; unfold grown_size; by rewrite (proj2 (Z.ltb_ge _ _)) by lia].
    apply built_resized; try done. split; [unfold NTF; lia|done].
Qed.

Lemma run_growproc n w x s l us : process w x s l us -> - 2 ^ 31 <= n < 2 ^ 31 -> run true (growproc n) (grow_post n w x s l us) w.
Proof using syok mlaws.
  intros P Hn. pose proof (pc_here _ _ _ _ _ P) as Hw. pose proof (pc_proc _ _ _ _ _ P) as Hx.
  unfold growproc. eapply run_mypid; [exact Hw|]. eapply run_pload; [exact Hw|exact Hx|]. cbv zeta. rewrite Z.gtb_ltb.
  destruct (Z.ltb_spec 0 n) as [Hpos|Hneg]; [apply run_grow; [done|lia]|]. destruct (Z.ltb_spec n 0) as [Hlt|Hz]; [apply run_shrink; [done|lia]|].
  pose proof (process_fits _ _ _ _ _ P) as Hfit. eapply run_passign; [exact Hw|exact Hx|]. intros w2 Hw2. apply run_ret. exists (pr_sz x), s, l, us.
  split; [|left; split; [done|]; unfold grown_size; destruct Hfit; rewrite (proj2 (Z.ltb_ge _ _)) by lia; lia].
  apply built_resized; [apply space_built, P|done| |done]. intros img H. by apply fits_cut.
Qed.
End sbrk.

Section calls.
Context {sy : Symbols} {syok : SymbolsOk sy} {ts : TextSyms} {S : Type} {ops : BlockOps S}.
Implicit Types (s : phys) (x : proc) (w : world (pst (kenv S))) (l us : list Z).

#[global] Instance kernel_mem : MemLaws (kenv S).
Proof. split. done. Qed.

(** A routine of kernel/sysfile.c that changes nothing. *)
Lemma ksys_pure {A} (m : M (kst S phys) A) a w x cwd :
  pt_procs (w_st w) !! my_idx (w_me w) = Some x -> pr_cwd x = Some cwd ->
  (forall v, k_args (w_st v) = tf_args (p_mem (e_mem (pt_env (w_st w)))) (pr_trapframe x) -> m v = Ok a v) -> ksys m w = Ok a w.
Proof.
  intros Hx Hc Hm. destruct w as [me held evs [[fs pipes ft] T np ip fi]]. cbn in *. unfold ksys, mypid, myproc, pload, gets, mbind, M_bind, mret, M_ret. cbn.
  rewrite Hx. cbn. rewrite Hc. unfold zoom. rewrite Hm by done. cbn. do 3 f_equal.
  rewrite (list_alter_insert _ _ _ _ Hx). assert (E0 : set_fds (pr_ofile x) (set_pcwd (Some cwd) x) = x) by (rewrite <- Hc; by destruct x).
  by rewrite E0, list_insert_id.
Qed.

Lemma ksys_argint w x cwd : pt_procs (w_st w) !! my_idx (w_me w) = Some x -> pr_cwd x = Some cwd ->
  ksys (argint 0) w = Ok (i32 (load64 (p_mem (e_mem (pt_env (w_st w)))) (pr_trapframe x + tf_a0))) w.
Proof.
  intros Hx Hc. apply (ksys_pure _ _ _ _ _ Hx Hc). intros v Hv. unfold argint, argraw, gets, mbind, M_bind. rewrite Hv.
  set (m := p_mem _). set (tf := pr_trapframe x). replace (tf + tf_a0) with (tf + tf_a0 + 8 * Z.of_nat 0) by lia. done.
Qed.

(** C25: [sbrk(n)] returns the old size of the process and moves the end of its
    memory by [n] bytes: pages are added, zeroed, or given back, the bytes
    below the end keep their values and no other memory changes; a request
    below 0 leaves the size alone.  It returns -1, and leaves size and
    contents alone, only for a positive [n]. *)
Theorem sbrk_correct w x s l us cwd : process w x s l us -> pr_cwd x = Some cwd ->
  let n := i32 (load64 (p_mem s) (pr_trapframe x + tf_a0)) in
  wp sys_sbrk (fun r w' => exists sz' s' l' us', resized w x s l us w' sz' s' l' us' /\
    ((r = pr_sz x /\ sz' = grown_size (pr_sz x) n) \/ (r = -1 /\ 0 < n /\ sz' = pr_sz x))) w.
Proof using syok.
  intros P Hc n. pose proof (h_mem _ _ _ (pc_here _ _ _ _ _ P)) as Hm. pose proof (pc_proc _ _ _ _ _ P) as Hx.
  unfold sys_sbrk. eapply wp_bind, wp_intro; [by eapply ksys_argint|]. rewrite Hm. fold n.
  apply run_total. eapply run_mypid; [apply P|]. eapply run_pload; [apply P|exact Hx|]. cbv zeta.
  eapply run_call; [apply (run_growproc n w x s l us P), i32_range|].
  intros r w' (sz' & s' & l' & us' & R & Hr). destruct Hr as [[-> ->]|(-> & Hn & ->)]; apply run_ret;
    eexists _, s', l', us'; (split; [exact R|]); [by left|by right].
Qed.
End calls.

(** ** sleep *)

Section table.
Context {E : Type}.
Implicit Types (w : world (pst E)).

Lemma pload_eq p x w : pt_procs (w_st w) !! p = Some x -> pload p w = Ok x w.
Proof. intros Hx. unfold pload, gets, mbind, M_bind. by rewrite Hx. Qed.
Lemma wp_pload p x (Q : proc -> world (pst E) -> Prop) w : pt_procs (w_st w) !! p = Some x -> Q x w -> wp (pload p) Q w.
Proof. intros Hx HQ. by eapply wp_intro, HQ; apply pload_eq. Qed.
Lemma wp_passign p x f (Q : () -> world (pst E) -> Prop) w : pt_procs (w_st w) !! p = Some x ->
  Q () (with_procs (<[p := f x]> (pt_procs (w_st w))) w) -> wp (passign p f) Q w.
Proof.
  intros Hx HQ. unfold passign. eapply wp_bind, wp_pload; [done|]. apply wp_modify. by rewrite (list_alter_insert _ _ _ _ Hx).
Qed.

(** What [wakeup(c)] of process [cur] does to entry [j]. *)
Definition wake (cur : nat) (c : option wchan) (j : nat) (x : proc) : proc :=
  if decide (j <> cur /\ pr_state x = SLEEPING /\ pr_chan x = c) then set_state RUNNABLE x else x.

Lemma wp_wakeup_loop cur c n : forall p (Q : () -> world (pst E) -> Prop) w, (p + n <= length (pt_procs (w_st w)))%nat -> (forall q, L_proc q ∉ w_held w) ->
  (forall T, length T = length (pt_procs (w_st w)) ->
     (forall j, T !! j = (if decide (p <= j < p + n)%nat then wake cur c j <$> pt_procs (w_st w) !! j else pt_procs (w_st w) !! j)) -> Q () (with_procs T w)) ->
  wp (wakeup_loop n p cur c) Q w.
Proof.
  induction n as [|n IH]; intros p Q w Hlen Hl HQ; cbn [wakeup_loop].
  { apply wp_ret. replace w with (with_procs (pt_procs (w_st w)) w) at 1 by (by destruct w as [? ? ? []]). apply HQ; [done|].
    intros j. by rewrite decide_False by lia. }
  destruct (lookup_lt_is_Some_2 (pt_procs (w_st w)) p ltac:(lia)) as [x Hx].
  assert (Hstep : forall w1, w1 = with_procs (<[p := wake cur c p x]> (pt_procs (w_st w))) w -> wp (wakeup_loop n (S p) cur c) Q w1).
  { intros w1 ->. apply IH; cbn; [rewrite length_insert; lia|done|]. rewrite length_insert. intros T HT Hj. apply (HQ T HT). intros j. rewrite Hj.
    destruct (decide (j = p)) as [->|Hne].
    - rewrite decide_False by lia. rewrite decide_True by lia. rewrite list_lookup_insert_eq by lia. by rewrite Hx.
    - rewrite list_lookup_insert_ne by done. repeat case_decide; (done || lia). }
  assert (Hsame : w = with_procs (<[p := x]> (pt_procs (w_st w))) w) by (destruct w as [? ? ? []]; cbn in *; unfold with_procs; cbn; by rewrite list_insert_id).
  apply wp_bind. destruct (decide (p = cur)) as [->|Hne].
  { apply wp_ret, Hstep. unfold wake. by rewrite decide_False by tauto. }
  apply wp_bind, wp_acquire; [apply Hl|]. eapply wp_bind, wp_pload; [exact Hx|]. apply wp_bind.
  case_decide as Hd.
  - eapply wp_passign; [exact Hx|]. eapply wp_release; [done|apply Hl|]. apply Hstep. unfold wake. rewrite decide_True by tauto. by destruct w as [? ? ? []].
  - apply wp_ret. eapply wp_release; [done|apply Hl|]. apply Hstep. unfold wake. rewrite decide_False by tauto. rewrite <- Hsame. by destruct w as [? ? ? []].
Qed.
End table.

Section sleep.
Context {sy : Symbols} {ts : TextSyms} {S : Type} {ops : BlockOps S}.
Implicit Types (st : kern S) (w : world (kern S)) (x : proc).

Definition kn_procs st : list proc := pt_procs (kn_ps st).
Definition kn_set_procs (T : list proc) st : kern S :=
  Kern (PSt (pt_env (kn_ps st)) T (pt_nextpid (kn_ps st)) (pt_initproc (kn_ps st)) (pt_first (kn_ps st))) (kn_ticks st).

(** The entry of a process that sleeps until the next tick. *)
Definition napping x : proc := set_state SLEEPING (set_chan (Some ChTicks) x).

Lemma wp_psleep_ticks i x (Q : () -> world (pst (kenv S)) -> Prop) (w : world (pst (kenv S))) :
  w_held w = [L_ticks] -> my_idx (w_me w) = i -> pt_procs (w_st w) !! i = Some x ->
  Q () (set_held [] (with_procs (<[i := napping x]> (pt_procs (w_st w))) w)) -> wp (psleep ChTicks L_ticks) Q w.
Proof.
  intros Hh Hi Hx HQ. destruct w as [me held evs st]. cbn in *. subst held. unfold psleep. apply wp_bind, wp_bind, wp_myproc, wp_ret. cbn. rewrite Hi.
  apply wp_bind, wp_acquire; [by intros ?%list_elem_of_singleton|]. apply wp_bind. unfold wp at 1, release. rewrite decide_True by (right; left). cbn.
  eapply wp_bind, wp_passign; [exact Hx|]. unfold sched. apply wp_bind, wp_bind, wp_myproc, wp_ret. cbn. rewrite Hi.
  apply wp_bind. unfold wp at 1, holding. cbn. rewrite bool_decide_eq_true_2 by left. cbn. unfold wp. cbn.
  rewrite decide_False by tauto. unfold mbind at 1, M_bind at 1. rewrite (pload_eq i (napping x)) by (cbn; by rewrite list_lookup_insert_eq by (by eapply lookup_lt_Some)).
  cbn. exact HQ.
Qed.

(** One round of the loop of [sys_sleep]. *)
Lemma wp_sleep_round ticks0 n i x (Q : segment -> world (kern S) -> Prop) w :
  w_held w = [L_ticks] -> my_idx (w_me w) = i -> kn_procs (w_st w) !! i = Some x -> pr_killed x = 0 ->
  (u32 (kn_ticks (w_st w) - ticks0) < u32 n ->
     Q (Slept ChTicks ticks0) (set_held [] (set_st (kn_set_procs (<[i := napping x]> (kn_procs (w_st w))) (w_st w)) w))) ->
  (u32 n <= u32 (kn_ticks (w_st w) - ticks0) -> Q (Returned 0) (set_held [] w)) -> wp (sleep_round ticks0 n) Q w.
Proof.
  intros Hh Hi Hx Hk H1 H2. unfold sleep_round. apply wp_bind, wp_gets. destruct (Z.ltb_spec (u32 (kn_ticks (w_st w) - ticks0)) (u32 n)) as [Hlt|Hge].
  - apply wp_bind, wp_zoom, wp_bind, wp_myproc, wp_ret. cbn. rewrite Hi. apply wp_bind, wp_zoom. unfold pkilled.
    apply wp_bind, wp_acquire; [cbn; rewrite Hh; by intros ?%list_elem_of_singleton|]. eapply wp_bind, wp_pload; [exact Hx|].
    eapply wp_bind, wp_release; [done|cbn; rewrite Hh; by intros ?%list_elem_of_singleton|]. apply wp_ret. cbn. rewrite Hk. cbn.
    apply wp_bind, wp_zoom. eapply (wp_psleep_ticks i x); [done|done|done|]. apply wp_ret. cbn. by apply H1.
  - eapply wp_bind, wp_release; [exact Hh|apply not_elem_of_nil|]. apply wp_ret. by apply H2.
Qed.

Lemma wp_clockintr i x (Q : () -> world (kern S) -> Prop) w :
  w_held w = [] -> my_idx (w_me w) <> i -> length (kn_procs (w_st w)) = NPROC -> kn_procs (w_st w) !! i = Some x ->
  (forall T, length T = NPROC -> T !! i = Some (if decide (pr_state x = SLEEPING /\ pr_chan x = Some ChTicks) then set_state RUNNABLE x else x) ->
     Q () (set_st (kn_set_procs T (Kern (kn_ps (w_st w)) (u32 (kn_ticks (w_st w) + 1)))) w)) -> wp clockintr Q w.
Proof.
  intros Hh Hi Hlen Hx HQ. unfold clockintr. apply wp_bind, wp_acquire; [rewrite Hh; apply not_elem_of_nil|]. rewrite Hh.
  apply wp_bind, wp_modify, wp_bind, wp_zoom. unfold pwakeup. apply wp_bind, wp_bind, wp_myproc, wp_ret.
  apply wp_wakeup_loop; cbn; [unfold kn_procs in Hlen; lia|by intros q ?%list_elem_of_singleton|].
  intros T HT Hj. eapply wp_release; [done|apply not_elem_of_nil|]. pose proof (lookup_lt_Some _ _ _ Hx) as Hlt.
  assert (HQ' := HQ T ltac:(by rewrite HT)). destruct w as [me held evs st]. cbn in *. subst held. apply HQ'.
  rewrite Hj, decide_True by (unfold kn_procs, NPROC in *; lia). unfold kn_procs in Hx. rewrite Hx. cbn. f_equal. unfold wake.
  repeat case_decide; naive_solver.
Qed.

(** The scheduler switches to process [i], which goes on in [sys_sleep]. *)
Definition rescheduled (i : nat) (n ticks0 : Z) (m2 m3 : me) st : option (segment * kern S) :=
  match scheduler_try i (World m2 [] [] (kn_ps st)) with
  | Ok true w3 =>
      match sys_sleep_resume n ticks0 (World m3 (w_held w3) [] (Kern (w_st w3) (kn_ticks st))) with
      | Ok seg w4 => Some (seg, w_st w4)
      | _ => None
      end
  | _ => None
  end.

Lemma rescheduled_runs i n ticks0 m2 m3 st x :
  my_idx m3 = i -> kn_procs st !! i = Some x -> pr_state x = RUNNABLE -> pr_killed x = 0 ->
  exists seg st', rescheduled i n ticks0 m2 m3 st = Some (seg, st') /\ kn_ticks st' = kn_ticks st /\ length (kn_procs st') = length (kn_procs st) /\
    exists x', kn_procs st' !! i = Some x' /\ pr_killed x' = 0 /\
      if u32 (kn_ticks st - ticks0) <? u32 n then seg = Slept ChTicks ticks0 /\ pr_state x' = SLEEPING /\ pr_chan x' = Some ChTicks else seg = Returned 0.
Proof.
  intros Hi Hx Hr Hk. pose proof (lookup_lt_Some _ _ _ Hx) as Hlt. unfold rescheduled.
  assert (H1 : scheduler_try i (World m2 [] [] (kn_ps st)) = Ok true (World m2 [L_proc i] [] (kn_ps (kn_set_procs (<[i := set_state RUNNING x]> (kn_procs st)) st)))).
  { destruct (wp_elim (scheduler_try i) (fun r (w' : world (pst (kenv S))) => r = true /\ w' = World m2 [L_proc i] [] (kn_ps (kn_set_procs (<[i := set_state RUNNING x]> (kn_procs st)) st)))
      (World m2 [] [] (kn_ps st))) as (r & w' & -> & -> & ->); [|done].
    unfold scheduler_try. apply wp_bind, wp_acquire; [apply not_elem_of_nil|]. eapply wp_bind, wp_pload; [exact Hx|]. rewrite decide_True by done.
    eapply wp_bind, wp_passign; [exact Hx|]. by apply wp_ret. }
  rewrite H1. cbn [w_held w_st]. set (y := set_chan None (set_state RUNNING x)).
  destruct (wp_elim (sys_sleep_resume n ticks0) (fun seg w' => kn_ticks (w_st w') = kn_ticks st /\ length (kn_procs (w_st w')) = length (kn_procs st) /\
    exists x', kn_procs (w_st w') !! i = Some x' /\ pr_killed x' = 0 /\
      if u32 (kn_ticks st - ticks0) <? u32 n then seg = Slept ChTicks ticks0 /\ pr_state x' = SLEEPING /\ pr_chan x' = Some ChTicks else seg = Returned 0)
    (World m3 [L_proc i] [] (Kern (kn_ps (kn_set_procs (<[i := set_state RUNNING x]> (kn_procs st)) st)) (kn_ticks st)))) as (seg & w4 & -> & H); [|by exists seg, (w_st w4)].
  unfold sys_sleep_resume. apply wp_bind, wp_zoom. unfold psleep_resume. apply wp_bind, wp_bind, wp_myproc, wp_ret. cbn. rewrite Hi.
  eapply wp_bind, wp_passign; [cbn; by rewrite list_lookup_insert_eq|]. eapply wp_bind, wp_release; [done|apply not_elem_of_nil|].
  apply wp_acquire; [apply not_elem_of_nil|]. cbn. rewrite list_insert_insert_eq.
  assert (Hy : <[i := y]> (kn_procs st) !! i = Some y) by (by rewrite list_lookup_insert_eq).
  eapply (wp_sleep_round _ _ i y); [done|done|exact Hy|by destruct x|..]; cbn.
  - intros Hlt'. rewrite (proj2 (Z.ltb_lt _ _)) by done. rewrite !length_insert. split_and!; [done|done|]. exists (napping y).
    rewrite list_insert_insert_eq, list_lookup_insert_eq by done. split_and!; try done; by destruct x.
  - intros Hge. rewrite (proj2 (Z.ltb_ge _ _)) by done. rewrite length_insert. split_and!; [done|done|]. exists y. split_and!; [done|by destruct x|done].
Qed.

(** What other processes do between two steps. *)
Definition others (i : nat) st st' : Prop :=
  kn_procs st' !! i = kn_procs st !! i /\ kn_ticks st' = kn_ticks st /\ length (kn_procs st') = length (kn_procs st).

(** Process [i] calls [sleep(n)]; [k] ticks later the call is at [seg].  Ticks
    come on other processes' time, the scheduler chooses [i] when it can run. *)
Inductive nap (i : nat) (n : Z) : nat -> segment -> kern S -> Prop :=
| nap_call m evs st x cwd seg w' :
    my_idx m = i -> length (kn_procs st) = NPROC -> kn_procs st !! i = Some x -> pr_killed x = 0 -> pr_cwd x = Some cwd ->
    n = i32 (load64 (p_mem (en_mem (pt_env (kn_ps st)))) (pr_trapframe x + tf_a0)) -> 0 <= kn_ticks st < 2 ^ 32 ->
    sys_sleep (World m [] evs st) = Ok seg w' -> nap i n 0 seg (w_st w')
| nap_others k seg st st' : nap i n k seg st -> others i st st' -> nap i n k seg st'
| nap_tick k c t0 st m evs w' : nap i n k (Slept c t0) st -> my_idx m <> i ->
    clockintr (World m [] evs st) = Ok () w' -> nap i n (Datatypes.S k) (Slept c t0) (w_st w')
| nap_resume k c t0 st m2 m3 seg st' : nap i n k (Slept c t0) st -> my_idx m3 = i ->
    rescheduled i n t0 m2 m3 st = Some (seg, st') -> nap i n k seg st'.

(** After [k] ticks of a call that began at [t0]. *)
Record nap_at (i : nat) (n : Z) (k : nat) (t0 : Z) st x : Prop := {
  na_len : length (kn_procs st) = NPROC;
  na_proc : kn_procs st !! i = Some x;
  na_alive : pr_killed x = 0;
  na_start : 0 <= t0 < 2 ^ 32;
  na_ticks : kn_ticks st = u32 (t0 + Z.of_nat k);
  na_state : (pr_state x = SLEEPING /\ pr_chan x = Some ChTicks /\ Z.of_nat k < u32 n) \/ pr_state x = RUNNABLE }.

Definition nap_ok (i : nat) (n : Z) (k : nat) (seg : segment) st : Prop :=
  match seg with
  | Slept c t0 => c = ChTicks /\ exists x, nap_at i n k t0 st x
  | Returned r => r = 0 /\ u32 n <= Z.of_nat k
  end.

Lemma elapsed t0 k : 0 <= t0 < 2 ^ 32 -> 0 <= k < 2 ^ 32 -> u32 (u32 (t0 + k) - t0) = k.
Proof.
  intros Ht Hk. unfold u32. rewrite Zminus_mod_idemp_l. replace (t0 + k - t0) with k by lia. by apply Z.mod_small.
Qed.

Lemma nap_call_ok i n m evs st x cwd :
  my_idx m = i -> length (kn_procs st) = NPROC -> kn_procs st !! i = Some x -> pr_killed x = 0 -> pr_cwd x = Some cwd ->
  n = i32 (load64 (p_mem (en_mem (pt_env (kn_ps st)))) (pr_trapframe x + tf_a0)) -> 0 <= kn_ticks st < 2 ^ 32 ->
  wp sys_sleep (fun seg w' => nap_ok i n 0 seg (w_st w')) (World m [] evs st).
Proof.
  intros Hi Hlen Hx Hk Hc Hn Ht. pose proof (lookup_lt_Some _ _ _ Hx) as Hlt. unfold sys_sleep. apply wp_bind, wp_zoom. eapply wp_intro.
  { apply (ksys_argint (World m [] evs (kn_ps st)) x cwd); [cbn; by rewrite Hi|done]. }
  cbn [w_me w_held w_evs w_st]. change (e_mem (pt_env (kn_ps st))) with (en_mem (pt_env (kn_ps st))). rewrite <- Hn. apply wp_bind, wp_acquire; [apply not_elem_of_nil|]. apply wp_bind, wp_gets.
  eapply (wp_sleep_round _ _ i x); [done|done|by destruct st|done|..]; cbn; rewrite Z.sub_diag; change (u32 0) with 0.
  - intros Hlt'. split; [done|]. exists (napping x). destruct st as [[]]. cbn in *. split; cbn; rewrite ?length_insert; try done.
    + by rewrite list_lookup_insert_eq.
    + rewrite Z.add_0_r. symmetry. by apply u32_small.
    + left. by destruct x.
  - intros Hge. split; [done|]. exact Hge.
Qed.

Lemma nap_safe i n k seg st : nap i n k seg st -> Z.of_nat k < 2 ^ 32 -> nap_ok i n k seg st.
Proof.
  induction 1 as [m evs st x cwd seg w' Hi Hlen Hx Hk Hc Hn Ht Hrun|k seg st st' H IH Ho|k c t0 st m evs w' H IH Hi Hrun|k c t0 st m2 m3 seg st' H IH Hi Hrun]; intros Hlt.
  - destruct (wp_elim _ _ _ (nap_call_ok i n m evs st x cwd Hi Hlen Hx Hk Hc Hn Ht)) as (seg' & w1 & E & Hok). rewrite Hrun in E. by injection E as <- <-.
  - destruct seg; [by apply IH|]. destruct (IH Hlt) as (-> & x & [H1 H2 H3 H4 H5 H6]), Ho as (O1 & O2 & O3). split; [done|]. exists x. split; congruence.
  - destruct (IH ltac:(lia)) as (-> & x & [H1 H2 H3 H4 H5 H6]). split; [done|]. set (y := if decide (pr_state x = SLEEPING /\ pr_chan x = Some ChTicks) then set_state RUNNABLE x else x).
    assert (Hy : pr_killed y = 0 /\ pr_state y = RUNNABLE).
    { unfold y. case_decide as Hd; [by destruct x|]. split; [done|]. destruct H6 as [(? & ? & _)|?]; tauto. }
    destruct (wp_elim clockintr (fun _ w' => nap_at i n (Datatypes.S k) t0 (w_st w') y) (World m [] evs st)) as (u & w1 & E & Hok).
    + apply (wp_clockintr i x); [done|done|done|done|]. intros T HT Hj. split; cbn; try done; [apply Hy| |by right; apply Hy].
      rewrite H5. unfold u32. rewrite Zplus_mod_idemp_l. f_equal. lia.
    + rewrite Hrun in E. injection E as <- <-. by exists y.
  - destruct (IH Hlt) as (-> & x & [H1 H2 H3 H4 H5 H6]). destruct H6 as [(Hs & _)|Hr].
    { exfalso. unfold rescheduled in Hrun. destruct (wp_elim (scheduler_try i) (fun r (_ : world (pst (kenv S))) => r = false) (World m2 [] [] (kn_ps st))) as (r & w3 & E & ->);
        [|by rewrite E in Hrun].
      unfold scheduler_try. apply wp_bind, wp_acquire; [apply not_elem_of_nil|]. eapply wp_bind, wp_pload; [exact H2|]. rewrite decide_False by congruence.
      eapply wp_bind, wp_release; [done|apply not_elem_of_nil|]. by apply wp_ret. }
    destruct (rescheduled_runs i n t0 m2 m3 st x Hi H2 Hr H3) as (seg1 & st1 & E & E1 & E2 & x' & E3 & E4 & E5). rewrite Hrun in E. injection E as <- <-.
    rewrite H5, elapsed in E5 by lia. destruct (Z.ltb_spec (Z.of_nat k) (u32 n)).
    + destruct E5 as (-> & ? & ?). split; [done|]. exists x'. split; try done; try congruence. by left.
    + subst seg. by split.
Qed.

(** C26: [sleep(n)] sleeps exactly [n] ticks, read as an unsigned number.  It
    returns only when that many ticks have passed and then returns 0; before,
    it is asleep or will look at the clock again, and from the [n]-th tick on
    it is runnable and returns as soon as the scheduler chooses it. *)
Theorem sleep_exact i n k seg st : nap i n k seg st -> Z.of_nat k < 2 ^ 32 ->
  match seg with
  | Returned r => r = 0 /\ u32 n <= Z.of_nat k
  | Slept c t0 => exists x, kn_procs st !! i = Some x /\ ((pr_state x = SLEEPING /\ Z.of_nat k < u32 n) \/
      (pr_state x = RUNNABLE /\ forall m2 m3, my_idx m3 = i -> exists seg' st', rescheduled i n t0 m2 m3 st = Some (seg', st') /\
         (seg' = Returned 0 <-> u32 n <= Z.of_nat k)))
  end.
Proof.
  intros H Hlt. pose proof (nap_safe _ _ _ _ _ H Hlt) as Hok. destruct seg as [r|c t0]; [done|]. destruct Hok as (-> & x & [H1 H2 H3 H4 H5 H6]).
  exists x. split; [done|]. destruct H6 as [(Hs & _ & Hk)|Hr]; [by left|right]. split; [done|]. intros m2 m3 Hi.
  destruct (rescheduled_runs i n t0 m2 m3 st x Hi H2 Hr H3) as (seg1 & st1 & E & _ & _ & x' & _ & _ & E5). exists seg1, st1. split; [done|].
  rewrite H5, elapsed in E5 by lia. destruct (Z.ltb_spec (Z.of_nat k) (u32 n)); [|by subst]. destruct E5 as (-> & _). split; [done|lia].
Qed.
End sleep.

(** ** Dispatch *)

Section dispatch.
Context {sy : Symbols} {ts : TextSyms} {S : Type} {ops : BlockOps S}.
Context (devs : Z -> devsw S phys) (pad name0 de0 : list Z).

(** A number has an entry in the table or is unknown. *)
Lemma syscalls_none num : ~ 1 <= num <= 21 -> syscalls devs pad name0 de0 num = None.
Proof.
  intros H. unfold syscalls.
  repeat match goal with |- context [num =? ?c] => rewrite (proj2 (Z.eqb_neq num c)) by (let v := eval vm_compute in c in change c with v; lia) end.
  done.
Qed.

(** A system call number without an entry in the table, 0, negative or
    above 21, makes the call return -1 to the user and changes nothing but the
    register it is returned in. *)
Theorem syscall_unknown (w : world (kern S)) x :
  kn_procs (w_st w) !! my_idx (w_me w) = Some x ->
  let s := e_mem (pt_env (kn_ps (w_st w))) in
  let num := i32 (load64 (p_mem s) (pr_trapframe x + tf_a7)) in
  ~ 1 <= num <= 21 ->
  wp (syscall devs pad name0 de0) (fun r w' => r = SysRet (-1) /\ w_me w' = w_me w /\ w_held w' = w_held w /\
    w_st w' = let ps := kn_ps (w_st w) in
      Kern (PSt (e_set_mem (pt_env ps) (upd_mem (fun m => store64 m (pr_trapframe x + tf_a0) (2 ^ 64 - 1)) s)) (pt_procs ps) (pt_nextpid ps)
              (pt_initproc ps) (pt_first ps)) (kn_ticks (w_st w))) w.
Proof.
  intros Hx s num Hn. unfold syscall. apply wp_bind, wp_zoom. unfold tf_load. apply wp_bind, wp_bind, wp_myproc, wp_ret. eapply wp_bind, wp_pload; [exact Hx|].
  apply wp_gets. cbn [w_me w_held w_evs w_st]. fold s. change (en_mem (pt_env (kn_ps (w_st w)))) with s. fold num.
  assert (E : (if num >? 0 then syscalls devs pad name0 de0 num else None) = None) by (destruct (num >? 0); [by apply syscalls_none|done]).
  rewrite E. apply wp_bind, wp_emit, wp_bind, wp_zoom. unfold set_a0. apply wp_bind, wp_bind, wp_myproc, wp_ret. eapply wp_bind, wp_pload; [exact Hx|].
  apply wp_zoom, wp_zoom, wp_modify, wp_ret. by split_and!.
Qed.
End dispatch.

(** ** Witnesses *)

Section ex.
#[local] Existing Instance ex_exec_symbols.
#[local] Existing Instance ex_exec_symbols_ok.
#[local] Existing Instance ex_text.

Lemma sbrk_correct_witness : exists l, process (ex_exec_world (ex_kenv ex_exec_mem)) ex_exec_proc ex_exec_mem l [] /\
  wp sys_sbrk (fun r w' => exists sz' s' l' us', resized (ex_exec_world (ex_kenv ex_exec_mem)) ex_exec_proc ex_exec_mem l [] w' sz' s' l' us' /\
    let n := i32 (load64 (p_mem ex_exec_mem) (pr_trapframe ex_exec_proc + tf_a0)) in
    ((r = 0 /\ sz' = grown_size 0 n) \/ (r = -1 /\ 0 < n /\ sz' = 0))) (ex_exec_world (ex_kenv ex_exec_mem)).
Proof.
  destruct (ex_exec_process (ex_kenv ex_exec_mem) (ex_kenv_mem _)) as [l P]. exists l. split; [exact P|].
  exact (sbrk_correct _ _ _ l [] 0%nat P eq_refl).
Defined.

(** A process that called sleep(0) when its first argument register is 0. *)
Definition ex_sleeper : proc :=
  Proc RUNNING None 0 0 1 None 0 0 0 0 (repeat 0 14) (repeat None 16) (Some 0%nat) (repeat 0 16).
Definition ex_kern : kern bcache := Kern (PSt (ex_kenv ex_phys) (repeat ex_sleeper 64) 2 (Some 0%nat) 0) 7.

Lemma sleep_exact_witness : exists st : kern bcache, nap 0 0 0 (Returned 0) st /\ 0 = 0 /\ u32 0 <= Z.of_nat 0.
Proof.
  assert (H : exists st : kern bcache, nap 0 0 0 (Returned 0) st).
  { eexists. eapply (nap_call 0 0 (Me 0 1 0 0) [] ex_kern ex_sleeper 0 (Returned 0)); try reflexivity. split; [discriminate|reflexivity]. }
  destruct H as [st H]. exists st. split; [exact H|]. exact (sleep_exact 0 0 0 (Returned 0) st H eq_refl).
Defined.

Lemma syscall_unknown_witness : exists w', syscall (fun _ => Devsw None None) [] [] [] (World (Me 0 1 0 0) [] [] ex_kern) = Ok (SysRet (-1)) w'.
Proof.
  destruct (wp_elim _ _ _ (syscall_unknown (fun _ => Devsw None None) [] [] [] (World (Me 0 1 0 0) [] [] ex_kern) ex_sleeper eq_refl
    ltac:(vm_compute; intros [H _]; apply H; reflexivity))) as (r & w' & Hrun & -> & _). by exists w'.
Defined.
End ex.
