(* ===== verification/FileInv.v ===== *)
(** The reference counts of the file table: what the routines of kernel/file.c
    and the system calls of kernel/sysfile.c do to the counts and to the
    descriptors of the caller. *)

From S2P Require Import Prelude KMonad UserMem Pipe Bytes Sleeplock BlockStore Log LogTx Fs File Sysfile ProcSpec.

(** ** What stays *)

(** [g] is the same whenever the routine returns. *)
Definition still {S A X} (g : S -> X) (m : M S A) : Prop := forall w, wlp m (fun _ w' => g (w_st w') = g (w_st w)) w.

Create HintDb still discriminated.
#[export] Hint Constants Opaque : still.
#[export] Hint Variables Opaque : still.

Section still.
Context {S X : Type} (g : S -> X).

Lemma still_bind {A B} (m : M S A) (f : A -> M S B) : still g m -> (forall a, still g (f a)) -> still g (m ≫= f).
Proof.
  intros H1 H2 w. apply wlp_bind. eapply wlp_mono; [|apply H1]. intros a w' E. eapply wlp_mono; [|apply H2].
  intros b w'' E'. congruence.
Qed.
Lemma still_ret {A} (a : A) : still g (mret a).
Proof. done. Qed.
Lemma still_gets {A} (f : S -> A) : still g (gets f).
Proof. done. Qed.
Lemma still_get : still g get.
Proof. done. Qed.
Lemma still_panic {A} s : still g (A := A) (panic s).
Proof. done. Qed.
Lemma still_ub {A} s : still g (A := A) (ub s).
Proof. done. Qed.
Lemma still_myproc : still g myproc.
Proof. done. Qed.
Lemma still_emit e : still g (emit e).
Proof. done. Qed.
Lemma still_acquire l : still g (acquire l).
Proof. intros w. by apply wlp_acquire. Qed.
Lemma still_release l : still g (release l).
Proof. intros w. by apply wlp_release. Qed.
Lemma still_modify (f : S -> S) : (forall s, g (f s) = g s) -> still g (modify f).
Proof. intros H w. apply wlp_modify, H. Qed.
Lemma still_zoom {T A} (get : S -> T) (put : S -> T -> S) (m : M T A) : (forall s x, g (put s x) = g s) -> still g (zoom get put m).
Proof. intros H w. unfold wlp, zoom. destruct (m _); [apply H|done..]. Qed.
Lemma wlp_still {A} (m : M S A) (Q : A -> world S -> Prop) w : still g m ->
  (forall a w', g (w_st w') = g (w_st w) -> Q a w') -> wlp m Q w.
Proof. intros H HQ. eapply wlp_mono; [|apply H]. intros a w' E. by apply HQ. Qed.
End still.
#[export] Hint Resolve still_ret still_gets still_get still_panic still_ub still_myproc still_emit still_acquire still_release : still.
#[export] Hint Extern 1 (still _ (modify _)) => apply still_modify; reflexivity : still.

(** Take a program apart into routines that leave it alone. *)
Ltac still :=
  repeat (intros; lazymatch goal with
    | |- still _ (mbind _ _) => apply still_bind
    | |- still _ (if ?b then _ else _) => destruct b
    | |- still _ (match ?x with _ => _ end) => destruct x
    | IH : forall _, _ |- still _ _ => first [solve [auto with still nocore] | simple apply IH]
    | |- still _ _ => solve [auto with still nocore]
    end).

(** [I] holds after the routine if it held before. *)
Definition inv {S A} (I : S -> Prop) (m : M S A) : Prop := forall w, I (w_st w) -> wlp m (fun _ w' => I (w_st w')) w.

Lemma inv_bind {S A B} (I : S -> Prop) (m : M S A) (k : A -> M S B) : inv I m -> (forall a, inv I (k a)) -> inv I (m ≫= k).
Proof. intros Hm Hk w H. apply wlp_bind. eapply wlp_mono; [|exact (Hm w H)]. intros a w' H'. exact (Hk a w' H'). Qed.
Lemma inv_still {S A X} (I : S -> Prop) (g : S -> X) (m : M S A) : (forall s s', g s' = g s -> I s -> I s') -> still g m -> inv I m.
Proof. intros HI Hm w H. eapply wlp_mono; [|exact (Hm w)]. intros a w' E. exact (HI _ _ E H). Qed.
Lemma inv_zoom {S T A} (I : T -> Prop) (get : S -> T) (put : S -> T -> S) (m : M T A) :
  (forall s x, get (put s x) = x) -> inv I m -> inv (fun s => I (get s)) (zoom get put m).
Proof.
  intros Hp Hm w H. unfold wlp, zoom. specialize (Hm (World (w_me w) (w_held w) (w_evs w) (get (w_st w))) H). unfold wlp in Hm.
  destruct (m _); [|done..]. cbn. by rewrite Hp.
Qed.

(** ** Descriptors and counts *)

Definition hit (f : nat) (o : option nat) : Z := if decide (o = Some f) then 1 else 0.

(** How many descriptors of a process name the file [f]. *)
Fixpoint cnt (f : nat) (O : list (option nat)) : Z :=
  match O with
  | [] => 0
  | o :: O' => hit f o + cnt f O'
  end.

Lemma hit_nonneg f o : 0 <= hit f o.
Proof. unfold hit. case_decide; lia. Qed.
Lemma cnt_nonneg f O : 0 <= cnt f O.
Proof. induction O as [|o O IH]; cbn; [lia|]. pose proof (hit_nonneg f o). lia. Qed.
Lemma cnt_insert f O fd o o' : O !! fd = Some o -> cnt f (<[fd := o']> O) = cnt f O - hit f o + hit f o'.
Proof.
  revert fd. induction O as [|a O IH]; intros [|fd] H; [done..| |].
  - injection H as ->. cbn. lia.
  - change (<[S fd := o']> (a :: O)) with (a :: <[fd := o']> O). cbn [cnt]. rewrite (IH fd H). lia.
Qed.
Lemma cnt_pos f O fd : O !! fd = Some (Some f) -> 0 < cnt f O.
Proof.
  revert fd. induction O as [|a O IH]; intros [|fd] H; cbn in *; [done..| |].
  - injection H as ->. unfold hit. rewrite decide_True by done. pose proof (cnt_nonneg f O). lia.
  - pose proof (IH _ H). pose proof (hit_nonneg f a). lia.
Qed.
Lemma hit_some f g : hit f (Some g) = if decide (f = g) then 1 else 0.
Proof. unfold hit. by repeat case_decide; simplify_eq. Qed.
Lemma hit_none f : hit f None = 0.
Proof. done. Qed.

(** In the table [F] the count of every file [f] is [c f], and every file that
    the descriptors name, [r f] times, is open, but for those of [X]. *)
Record counted (c r : nat -> Z) (X : list nat) (F : list file) : Prop := {
  cn_ref : forall f y, F !! f = Some y -> f_ref y = c f;
  cn_type : forall f, 0 < r f -> f ∉ X -> exists y, F !! f = Some y /\ f_type y <> FD_NONE }.

(** What the invariant looks at. *)
Definition look (y : file) : Z * ftype := (f_ref y, f_type y).

Lemma counted_look c r X F F' : map look F' = map look F -> counted c r X F -> counted c r X F'.
Proof.
  intros E [H1 H2].
  assert (Hl : forall f, look <$> F' !! f = look <$> F !! f) by (intros f; rewrite <- !list_lookup_fmap; change (fmap look) with (map look); by rewrite E).
  split.
  - intros f y Hy. specialize (Hl f). rewrite Hy in Hl. destruct (F !! f) as [y0|] eqn:E0; [|done]. injection Hl as -> _. by apply H1.
  - intros f Hr Hx. destruct (H2 f Hr Hx) as (y0 & Hy0 & Ht). specialize (Hl f). rewrite Hy0 in Hl.
    destruct (F' !! f) as [y|]; [|done]. injection Hl as _ Ey. exists y. split; [done|congruence].
Qed.

Lemma counted_ext c r c' r' X F : (forall f, c' f = c f) -> (forall f, r' f = r f) -> counted c r X F -> counted c' r' X F.
Proof. intros Hc Hr [H1 H2]. split; [intros f y Hy; by rewrite Hc, (H1 f y)|intros f H Hx; rewrite Hr in H; by apply H2]. Qed.

(** One entry changes: its count, and its type unless no descriptor names it. *)
Lemma counted_insert c r X F f y y' c' : F !! f = Some y -> f_ref y' = c' f -> (forall g, g <> f -> c' g = c g) ->
  (f_type y' = f_type y \/ f_type y' <> FD_NONE \/ r f <= 0 \/ f ∈ X) ->
  counted c r X F -> counted c' r X (<[f := y']> F).
Proof.
  intros Hy Hr Hc Ht [H1 H2]. pose proof (lookup_lt_Some _ _ _ Hy) as Hlt. split.
  - intros g z Hz. destruct (decide (g = f)) as [->|Hne].
    + rewrite list_lookup_insert_eq in Hz by done. by injection Hz as <-.
    + rewrite list_lookup_insert_ne in Hz by done. rewrite Hc by done. by apply H1.
  - intros g Hg Hx. destruct (H2 g Hg Hx) as (z & Hz & Hzt). destruct (decide (g = f)) as [->|Hne].
    + exists y'. rewrite list_lookup_insert_eq by done. split; [done|]. destruct Ht as [E|[E|[E|E]]]; [congruence|done|lia|done].
    + exists z. by rewrite list_lookup_insert_ne.
Qed.

(** The files named without being open yet become open. *)
Lemma counted_open c r X F f y : F !! f = Some y -> f_type y <> FD_NONE -> counted c r (f :: X) F -> counted c r X F.
Proof.
  intros Hy Ht [H1 H2]. split; [done|]. intros g Hg Hx. destruct (decide (g = f)) as [->|Hne]; [by exists y|].
  apply H2; [done|]. by apply not_elem_of_cons.
Qed.

Lemma counted_except c r X F f : counted c r X F -> counted c r (f :: X) F.
Proof. intros [H1 H2]. split; [done|]. intros g Hg Hx. apply H2; [done|]. by apply not_elem_of_cons in Hx as [_ ?]. Qed.

(** Descriptors come and go. *)
Lemma counted_names c r r' X F : (forall f, f ∉ X -> 0 < r' f -> 0 < r f) -> counted c r X F -> counted c r' X F.
Proof. intros Hr [H1 H2]. split; [done|]. intros f Hf Hx. by apply H2; [apply Hr|]. Qed.

Definition upd (e : nat -> Z) (f : nat) (n : Z) : nat -> Z := fun g => if decide (g = f) then e g + n else e g.
Lemma upd_eq e f n : upd e f n f = e f + n.
Proof. unfold upd. by rewrite decide_True. Qed.
Lemma upd_ne e f n g : g <> f -> upd e f n g = e g.
Proof. intros. unfold upd. by rewrite decide_False. Qed.
Lemma upd_undo e f n g : upd (upd e f n) f (- n) g = e g.
Proof. unfold upd. case_decide; lia. Qed.

(** ** File calls *)

Section calls.
Context {S U : Type} {ops : BlockOps S} {uops : UserOps U}.
Abbreviation km := (M (kst S U)).
(** How many descriptors the caller has. *)
Variable nfd : nat.
Implicit Types (w : world (kst S U)).

Definition kfd (s : kst S U) : list (Z * ftype) * list (option nat) := (map look (k_ftable s), k_ofile s).

Lemma still_kfs {A} (m : M (fsst (logst S) U) A) : still kfd (kfs m).
Proof. by apply still_zoom. Qed.
Lemma still_kmem {A} (m : M U A) : still kfd (kmem (S := S) m).
Proof. apply still_kfs. Qed.
Lemma still_kpipe {A} (m : M (pipest U) A) : still kfd (kpipe m).
Proof. by apply still_zoom. Qed.
Lemma still_kbegin_op : still kfd (kbegin_op (U := U)).
Proof. apply still_kfs. Qed.
Lemma still_kend_op : still kfd (kend_op (U := U)).
Proof. apply still_kfs. Qed.
Lemma still_fload f : still kfd (fload (S := S) (U := U) f).
Proof. unfold fload. still. Qed.

Lemma map_alter_look g f F : (forall y, look (g y) = look y) -> map look (alter g f F) = map look F.
Proof.
  intros H. change (look <$> alter g f F = look <$> F). apply list_eq. intros i. rewrite !list_lookup_fmap.
  destruct (decide (i = f)) as [->|Hne]; [|by rewrite list_lookup_alter_ne]. rewrite list_lookup_alter_eq.
  destruct (F !! f); cbn; [by rewrite H|done].
Qed.
Lemma still_fassign f g : (forall y, look (g y) = look y) -> still kfd (fassign (S := S) (U := U) f g).
Proof. intros H. apply still_modify. intros s. unfold kfd. cbn. by rewrite map_alter_look. Qed.
#[local] Hint Resolve still_kfs still_kmem still_kpipe still_kbegin_op still_kend_op still_fload : still.
#[local] Hint Extern 1 (still _ (fassign _ _)) => apply still_fassign; reflexivity : still.

Lemma still_filestat pad f addr : still kfd (filestat (S := S) (U := U) pad f addr).
Proof. unfold filestat. still. Qed.

(** The devices do not touch the file table. *)
Class QuietDevs (devs : Z -> devsw S U) : Prop := {
  qd_read mj rd : d_read (devs mj) = Some rd -> forall addr n, still kfd (rd addr n);
  qd_write mj wr : d_write (devs mj) = Some wr -> forall addr n, still kfd (wr addr n) }.

Lemma still_fileread devs f addr n : QuietDevs devs -> still kfd (fileread devs f addr n).
Proof.
  intros Hd. unfold fileread. apply still_bind; [auto with still nocore|]. intros x. case_match; [still|].
  destruct (f_type x); [still|still|still|]. case_match; [still|].
  destruct (d_read _) as [rd|] eqn:E; [by eapply qd_read|still].
Qed.
Lemma still_filewrite_loop fuel : forall f addr n i, still kfd (filewrite_loop (S := S) (U := U) fuel f addr n i).
Proof. induction fuel as [|fuel IH]; intros; cbn [filewrite_loop]; still. Qed.
Lemma still_filewrite devs f addr n : QuietDevs devs -> still kfd (filewrite devs f addr n).
Proof.
  intros Hd. unfold filewrite. apply still_bind; [auto with still nocore|]. intros x. case_match; [still|].
  destruct (f_type x); [still|still| |].
  - apply still_bind; [apply still_filewrite_loop|still].
  - case_match; [still|]. destruct (d_write _) as [wr|] eqn:E; [by eapply qd_write|still].
Qed.

(** *** Arguments and names *)

Lemma still_argraw n : still kfd (argraw (S := S) (U := U) n).
Proof. unfold argraw. still. Qed.
#[local] Hint Resolve still_argraw still_filestat : still.
Lemma still_argint n : still kfd (argint (S := S) (U := U) n).
Proof. unfold argint. still. Qed.
Lemma still_argaddr n : still kfd (argaddr (S := S) (U := U) n).
Proof. unfold argaddr. still. Qed.
Lemma still_fetchstr addr max : still kfd (fetchstr (S := S) (U := U) addr max).
Proof. unfold fetchstr. still. Qed.
Lemma still_fetchaddr addr : still kfd (fetchaddr (S := S) (U := U) addr).
Proof. unfold fetchaddr. still. Qed.
#[local] Hint Resolve still_argint still_argaddr still_fetchstr still_fetchaddr : still.
Lemma still_argstr n max : still kfd (argstr (S := S) (U := U) n max).
Proof. unfold argstr. still. Qed.
Lemma still_argfd n : still kfd (argfd (S := S) (U := U) n).
Proof. unfold argfd. still. Qed.
Lemma still_knamei name0 path : still kfd (knamei (S := S) (U := U) name0 path).
Proof. unfold knamei. still. Qed.
Lemma still_knameiparent name0 path : still kfd (knameiparent (S := S) (U := U) name0 path).
Proof. unfold knameiparent. still. Qed.
#[local] Hint Resolve still_argstr still_argfd still_knamei still_knameiparent : still.
Lemma still_create_fail ip dp : still kfd (create_fail (S := S) (U := U) ip dp).
Proof. unfold create_fail. still. Qed.
#[local] Hint Resolve still_create_fail : still.
Lemma still_create name0 de0 path type major minor : still kfd (create (S := S) (U := U) name0 de0 path type major minor).
Proof. unfold create. still. Qed.
#[local] Hint Resolve still_create : still.
Lemma still_open_inode name0 de0 path omode : still kfd (open_inode (S := S) (U := U) name0 de0 path omode).
Proof. unfold open_inode. still. Qed.
Lemma still_open_fail ip : still kfd (open_fail (S := S) (U := U) ip).
Proof. unfold open_fail. still. Qed.
#[local] Hint Resolve still_open_inode still_open_fail : still.

Lemma still_sys_link name0 de0 : still kfd (sys_link (S := S) (U := U) name0 de0).
Proof. unfold sys_link, sys_link_bad. still. Qed.
Lemma still_isdirempty_loop fuel : forall dp off, still kfd (isdirempty_loop (S := S) (U := U) fuel dp off).
Proof. induction fuel as [|f IH]; intros; cbn [isdirempty_loop]; still. Qed.
#[local] Hint Resolve still_isdirempty_loop : still.
Lemma still_sys_unlink name0 : still kfd (sys_unlink (S := S) (U := U) name0).
Proof. unfold sys_unlink, sys_unlink_bad, isdirempty. still. Qed.
Lemma still_sys_mkdir name0 de0 : still kfd (sys_mkdir (S := S) (U := U) name0 de0).
Proof. unfold sys_mkdir. still. Qed.
Lemma still_sys_mknod name0 de0 : still kfd (sys_mknod (S := S) (U := U) name0 de0).
Proof. unfold sys_mknod. still. Qed.
Lemma still_sys_chdir name0 : still kfd (sys_chdir (S := S) (U := U) name0).
Proof. unfold sys_chdir. still. Qed.
Lemma still_sys_fstat pad : still kfd (sys_fstat (S := S) (U := U) pad).
Proof. unfold sys_fstat. still. Qed.
Lemma still_sys_read devs : QuietDevs devs -> still kfd (sys_read devs).
Proof. intros Hd. unfold sys_read. still. by apply still_fileread. Qed.
Lemma still_sys_write devs : QuietDevs devs -> still kfd (sys_write devs).
Proof. intros Hd. unfold sys_write. still. by apply still_filewrite. Qed.
Lemma still_free_args l : still kfd (free_args (S := S) (U := U) l).
Proof. induction l as [|[pg s] l IH]; cbn [free_args]; still. Qed.
Lemma still_sys_exec_loop n : forall i u l, still kfd (sys_exec_loop (S := S) (U := U) n i u l).
Proof. induction n as [|n IH]; intros; cbn [sys_exec_loop]; still. Qed.

(** ** The counts during a call

    [o f] descriptors of other processes name [f], and the call itself holds
    [e f] references; the files of [X] are named but not open yet. *)
Record kok (o e : nat -> Z) (X : list nat) (s : kst S U) : Prop := {
  ko_counted : counted (fun f => o f + cnt f (k_ofile s) + e f) (fun f => o f + cnt f (k_ofile s)) X (k_ftable s);
  ko_length : length (k_ofile s) = nfd }.

Lemma kok_still o e X s s' : kfd s' = kfd s -> kok o e X s -> kok o e X s'.
Proof. intros E [H1 H2]. injection E as E1 E2. split; rewrite ?E2; [|done]. by apply (counted_look _ _ _ (k_ftable s)). Qed.

Lemma kok_ext o e e' X s : (forall f, e' f = e f) -> kok o e X s -> kok o e' X s.
Proof. intros He [H1 H2]. split; [|done]. eapply counted_ext; [| |exact H1]; [|done]. intros f. cbn. by rewrite He. Qed.

(** [s'] has one entry of the file table changed, or one descriptor. *)
Lemma kok_file o e e' X s s' f y y' : k_ftable s !! f = Some y -> k_ftable s' = <[f := y']> (k_ftable s) -> k_ofile s' = k_ofile s ->
  f_ref y' = f_ref y + (e' f - e f) -> (forall g, g <> f -> e' g = e g) ->
  (f_type y' = f_type y \/ f_type y' <> FD_NONE \/ o f + cnt f (k_ofile s) <= 0 \/ f ∈ X) -> kok o e X s -> kok o e' X s'.
Proof.
  intros Hy EF EO Er He Ht [H1 H2]. split; rewrite ?EO; [|done]. rewrite EF. eapply counted_insert; [exact Hy| | |exact Ht|exact H1].
  - rewrite Er, (cn_ref _ _ _ _ H1 f y Hy). cbn. lia.
  - intros g Hg. cbn. by rewrite He.
Qed.

Lemma kok_name o e X s s' fd f : kok o e X s -> k_ofile s !! fd = Some None -> k_ftable s' = k_ftable s ->
  k_ofile s' = <[fd := Some f]> (k_ofile s) -> kok o (upd e f (-1)) (f :: X) s'.
Proof.
  intros [H1 H2] Hfd EF EO. rewrite <- (length_insert (k_ofile s) fd (Some f)), <- EO in H2. split; [|done].
  assert (Ec : forall g, cnt g (k_ofile s') = cnt g (k_ofile s) + if decide (g = f) then 1 else 0).
  { intros g. rewrite EO, (cnt_insert _ _ _ _ _ Hfd), hit_none, hit_some. lia. }
  rewrite EF. eapply counted_names; [|eapply counted_ext; [| |apply counted_except, H1]]; [|intros g|done]; cbn.
  - intros g Hg%not_elem_of_cons. rewrite Ec. rewrite decide_False by naive_solver. lia.
  - rewrite Ec. unfold upd. case_decide; lia.
Qed.

Lemma kok_unname o e X s s' fd f : kok o e X s -> k_ofile s !! fd = Some (Some f) -> k_ftable s' = k_ftable s ->
  k_ofile s' = <[fd := None]> (k_ofile s) -> kok o (upd e f 1) X s'.
Proof.
  intros [H1 H2] Hfd EF EO. rewrite <- (length_insert (k_ofile s) fd None), <- EO in H2. split; [|done].
  assert (Ec : forall g, cnt g (k_ofile s') = cnt g (k_ofile s) - if decide (g = f) then 1 else 0).
  { intros g. rewrite EO, (cnt_insert _ _ _ _ _ Hfd), hit_none, hit_some. lia. }
  rewrite EF. eapply counted_names; [|eapply counted_ext; [| |exact H1]]; [|intros g|done]; cbn.
  - intros g _. rewrite Ec. case_decide; lia.
  - rewrite Ec. unfold upd. case_decide; lia.
Qed.

(** [f] is an open file. *)
Definition opened (f : nat) (s : kst S U) : Prop := exists y, k_ftable s !! f = Some y /\ f_type y <> FD_NONE.

Lemma kok_opened o e X s f : opened f s -> kok o e (f :: X) s -> kok o e X s.
Proof. intros (y & Hy & Ht) [H1 H2]. split; [|done]. by eapply counted_open. Qed.

Lemma opened_look s s' f : map look (k_ftable s') = map look (k_ftable s) -> opened f s -> opened f s'.
Proof.
  intros E (y & Hy & Ht). assert (Hl : look <$> k_ftable s' !! f = look <$> k_ftable s !! f).
  { rewrite <- !list_lookup_fmap. change (map look (k_ftable s') !! f = map look (k_ftable s) !! f). by rewrite E. }
  rewrite Hy in Hl. unfold opened. destruct (k_ftable s' !! f) as [y'|]; [|done]. injection Hl as _ El. exists y'. split; [done|congruence].
Qed.

(** [f] is an index of the file table. *)
Definition has (f : nat) (s : kst S U) : Prop := (f < length (k_ftable s))%nat.

Lemma kfd_length s s' : kfd s' = kfd s -> length (k_ftable s') = length (k_ftable s).
Proof. intros E. injection E as E _. apply (f_equal length) in E. by rewrite !length_map in E. Qed.

(** *** The routines of file.c *)

Lemma wlp_fload f (Q : file -> world (kst S U) -> Prop) w :
  (forall y, k_ftable (w_st w) !! f = Some y -> Q y w) -> wlp (fload f) Q w.
Proof. intros HQ. apply wlp_bind, wlp_gets. destruct (k_ftable (w_st w) !! f) as [y|]; [by apply HQ|done]. Qed.

Lemma wlp_fassign f g y (Q : () -> world (kst S U) -> Prop) w : k_ftable (w_st w) !! f = Some y ->
  (forall w', k_ftable (w_st w') = <[f := g y]> (k_ftable (w_st w)) -> k_ofile (w_st w') = k_ofile (w_st w) -> Q () w') ->
  wlp (fassign f g) Q w.
Proof. intros Hy HQ. apply wlp_modify, HQ; [|done]. cbn. by apply list_alter_insert. Qed.

Lemma wlp_filealloc_loop o e X n : forall f w (Q : option nat -> world (kst S U) -> Prop), kok o e X (w_st w) ->
  (forall w', kok o e X (w_st w') -> Q None w') ->
  (forall f w', kok o (upd e f 1) X (w_st w') -> k_ofile (w_st w') = k_ofile (w_st w) -> has f (w_st w') -> length (k_ftable (w_st w')) = length (k_ftable (w_st w)) -> Q (Some f) w') ->
  wlp (filealloc_loop n f) Q w.
Proof.
  induction n as [|n IH]; intros f w Q Hk HN HS; cbn [filealloc_loop].
  { apply wlp_bind, wlp_release, wlp_ret, HN. exact Hk. }
  apply wlp_bind, wlp_fload. intros y Hy. destruct (Z.eqb_spec (f_ref y) 0) as [E|E]; [|by apply IH].
  apply wlp_bind. eapply wlp_fassign; [exact Hy|]. intros w1 E1 E2. apply wlp_bind, wlp_release, wlp_ret, HS; [|done| |].
  - eapply kok_file; [exact Hy|exact E1|exact E2| | | |exact Hk]; cbn; [rewrite upd_eq; lia|intros; by apply upd_ne|by left].
  - unfold has. cbn. rewrite E1, length_insert. by eapply lookup_lt_Some.
  - cbn. by rewrite E1, length_insert.
Qed.

Lemma wlp_filealloc o e X w (Q : option nat -> world (kst S U) -> Prop) : kok o e X (w_st w) ->
  (forall w', kok o e X (w_st w') -> Q None w') ->
  (forall f w', kok o (upd e f 1) X (w_st w') -> k_ofile (w_st w') = k_ofile (w_st w) -> has f (w_st w') -> length (k_ftable (w_st w')) = length (k_ftable (w_st w)) -> Q (Some f) w') ->
  wlp filealloc Q w.
Proof. intros Hk HN HS. apply wlp_bind, wlp_acquire. by eapply wlp_filealloc_loop. Qed.

Lemma wlp_filedup o e X f w (Q : nat -> world (kst S U) -> Prop) : kok o e X (w_st w) ->
  (forall w', kok o (upd e f 1) X (w_st w') -> k_ofile (w_st w') = k_ofile (w_st w) -> Q f w') -> wlp (filedup f) Q w.
Proof.
  intros Hk HQ. apply wlp_bind, wlp_acquire, wlp_bind, wlp_fload. intros y Hy. destruct (f_ref y <? 1); [done|].
  apply wlp_bind. eapply wlp_fassign; [exact Hy|]. intros w1 E1 E2. apply wlp_bind, wlp_release, wlp_ret, HQ; [|done].
  eapply kok_file; [exact Hy|exact E1|exact E2| | | |exact Hk]; cbn; [rewrite upd_eq; lia|intros; by apply upd_ne|by left].
Qed.

(** The reference that is dropped may be one of the caller's own, or one that a
    descriptor still stands for: then the file stays named, but closed. *)
Lemma wlp_fileclose_type o e X f w (Q : () -> world (kst S U) -> Prop) : kok o e X (w_st w) -> 1 <= e f \/ f ∈ X ->
  (forall w', kok o (upd e f (-1)) X (w_st w') -> k_ofile (w_st w') = k_ofile (w_st w) ->
    (opened f (w_st w) -> opened f (w_st w') \/ o f + cnt f (k_ofile (w_st w)) + e f = 1) -> Q () w') -> wlp (fileclose f) Q w.
Proof.
  intros Hk He HQ. apply wlp_bind, wlp_acquire, wlp_bind, wlp_fload. intros y Hy. destruct (f_ref y <? 1) eqn:Hy1; [done|].
  apply wlp_bind. eapply wlp_fassign; [exact Hy|]. intros w1 E1 E2. cbn in Hy, E1, E2.
  assert (K1 : kok o (upd e f (-1)) X (w_st w1)).
  { eapply kok_file; [exact Hy|exact E1|exact E2| | | |exact Hk]; cbn; [rewrite upd_eq; lia|intros; by apply upd_ne|by left]. }
  assert (Hy' : k_ftable (w_st w1) !! f = Some (set_fref (f_ref y - 1) y)) by (rewrite E1; apply list_lookup_insert_eq; by eapply lookup_lt_Some).
  destruct (f_ref y - 1 >? 0) eqn:Hgt.
  { apply wlp_release, HQ; [done|done|]. intros (z & Hz & Ht). left. eexists. split; [exact Hy'|]. cbn in *. congruence. }
  assert (Hr : f_ref y = 1) by (apply Z.ltb_ge in Hy1; rewrite Z.gtb_ltb in Hgt; apply Z.ltb_ge in Hgt; lia).
  pose proof (cn_ref _ _ _ _ (ko_counted _ _ _ _ Hk) f y Hy) as Er. cbn in Er.
  apply wlp_bind, wlp_fload. rewrite Hy'. intros ff [= <-]. apply wlp_bind. eapply wlp_fassign; [exact Hy'|]. intros w2 E3 E4.
  assert (K2 : kok o (upd e f (-1)) X (w_st w2)).
  { eapply kok_file; [exact Hy'|exact E3|exact E4| | | |exact K1]; cbn; [lia|done|]. right. right. destruct He as [He|He]; [left|by right].
    rewrite E2. lia. }
  apply wlp_bind, wlp_release.
  assert (Hs : forall m : km (), still kfd m -> wlp m Q (set_held (filter (fun l => l <> L_ftable) (w_held w2)) w2)).
  { intros m Hm. apply (wlp_still kfd); [exact Hm|]. intros [] w3 E5. apply HQ; [eapply kok_still; [exact E5|exact K2]| |].
    - injection E5 as _ E5. cbn in E5. congruence.
    - intros _. right. lia. }
  destruct (f_type _); apply Hs; still.
Qed.

Lemma wlp_fileclose o e X f w (Q : () -> world (kst S U) -> Prop) : kok o e X (w_st w) -> 1 <= e f \/ f ∈ X ->
  (forall w', kok o (upd e f (-1)) X (w_st w') -> k_ofile (w_st w') = k_ofile (w_st w) -> Q () w') -> wlp (fileclose f) Q w.
Proof. intros Hk He HQ. eapply wlp_fileclose_type; [exact Hk|exact He|]. intros w' K E _. by apply HQ. Qed.

(** *** Descriptors *)

Lemma wlp_argfd n w (Q : option (nat * nat) -> world (kst S U) -> Prop) :
  (forall w', w_st w' = w_st w -> Q None w') ->
  (forall fd f w', w_st w' = w_st w -> k_ofile (w_st w) !! fd = Some (Some f) -> Q (Some (fd, f)) w') -> wlp (argfd n) Q w.
Proof.
  intros HN HS. unfold argfd, argint, argraw. apply wlp_bind, wlp_bind, wlp_bind, wlp_gets.
  destruct (k_args (w_st w) !! n) as [x|]; [|done]. apply wlp_ret, wlp_ret. destruct (_ || _); [by apply wlp_ret, HN|].
  apply wlp_bind, wlp_gets. destruct (k_ofile (w_st w) !! _) as [[f|]|] eqn:E; [by apply wlp_ret, HS|by apply wlp_ret, HN|done].
Qed.

Lemma wlp_fdalloc_loop o e X f n : forall fd w (Q : Z -> world (kst S U) -> Prop), kok o e X (w_st w) ->
  Q (-1) w ->
  (forall fd w', kok o (upd e f (-1)) (f :: X) (w_st w') -> k_ftable (w_st w') = k_ftable (w_st w) -> k_ofile (w_st w) !! fd = Some None ->
    k_ofile (w_st w') = <[fd := Some f]> (k_ofile (w_st w)) -> Q (Z.of_nat fd) w') -> wlp (fdalloc_loop n fd f) Q w.
Proof.
  induction n as [|n IH]; intros fd w Q Hk HN HS; cbn [fdalloc_loop]; [by apply wlp_ret|].
  apply wlp_bind, wlp_gets. destruct (k_ofile (w_st w) !! fd) as [[g|]|] eqn:E; [by apply IH| |done].
  apply wlp_bind, wlp_modify, wlp_ret, HS; [|done|done|done]. by eapply kok_name.
Qed.

(** [fdalloc]: the file is named, and no longer held, once a descriptor is free. *)
Lemma wlp_fdalloc o e X f w (Q : Z -> world (kst S U) -> Prop) : kok o e X (w_st w) ->
  Q (-1) w ->
  (forall fd w', kok o (upd e f (-1)) (f :: X) (w_st w') -> k_ftable (w_st w') = k_ftable (w_st w) -> k_ofile (w_st w) !! fd = Some None ->
    k_ofile (w_st w') = <[fd := Some f]> (k_ofile (w_st w)) -> Q (Z.of_nat fd) w') -> wlp (fdalloc f) Q w.
Proof. apply wlp_fdalloc_loop. Qed.

(** *** The system calls *)

(** A call keeps the counts right. *)
Definition ksafe {A} (m : km A) : Prop := forall o w, (forall f, 0 <= o f) -> kok o (fun _ => 0) [] (w_st w) ->
  wlp m (fun _ w' => kok o (fun _ => 0) [] (w_st w')) w.

Lemma ksafe_still {A} (m : km A) : still kfd m -> ksafe m.
Proof. intros H o w Ho Hk. apply (wlp_still kfd); [exact H|]. intros a w' E. by eapply kok_still. Qed.

Lemma kok_named_open o e s fd f : (forall f, 0 <= o f) -> kok o e [] s -> k_ofile s !! fd = Some (Some f) -> opened f s.
Proof.
  intros Ho [H1 _] Hfd. apply (cn_type _ _ _ _ H1 f); [|apply not_elem_of_nil]. cbn. pose proof (cnt_pos _ _ _ Hfd). specialize (Ho f). lia.
Qed.

Lemma ksafe_sys_dup : ksafe sys_dup.
Proof.
  intros o w Ho Hk. apply wlp_bind, wlp_argfd; intros; [apply wlp_ret; congruence|]. rename w' into w1, H into E1, H0 into Hfd.
  assert (Hop : opened f (w_st w)) by (by eapply kok_named_open).
  apply wlp_bind. eapply wlp_fdalloc; [rewrite E1; exact Hk| |]; [cbn; by rewrite E1|].
  intros fd' w2 K2 EF _ _. rewrite (proj2 (Z.ltb_ge (Z.of_nat fd') 0)) by lia. apply wlp_bind.
  eapply wlp_filedup; [eapply kok_opened; [|exact K2]|].
  - eapply opened_look; [|exact Hop]. by rewrite EF, E1.
  - intros w3 K3 _. apply wlp_ret. eapply kok_ext; [|exact K3]. intros g. exact (eq_sym (upd_undo (fun _ => 0) f (-1) g)).
Qed.

Lemma ksafe_sys_close : ksafe sys_close.
Proof.
  intros o w Ho Hk. apply wlp_bind, wlp_argfd; intros; [apply wlp_ret; congruence|]. rename w' into w1, H into E1, H0 into Hfd.
  apply wlp_bind, wlp_modify, wlp_bind. eapply wlp_fileclose.
  - eapply (kok_unname _ _ _ (w_st w1)); [rewrite E1; exact Hk|rewrite E1; exact Hfd|done|done].
  - left. rewrite upd_eq. lia.
  - intros w3 K3 _. apply wlp_ret. eapply kok_ext; [|exact K3]. intros g. exact (eq_sym (upd_undo (fun _ => 0) f 1 g)).
Qed.

Lemma ksafe_bind {A B} (m : km A) (k : A -> km B) : still kfd m -> (forall a, ksafe (k a)) -> ksafe (m ≫= k).
Proof. intros Hm Hk o w Ho H. apply wlp_bind, (wlp_still kfd); [exact Hm|]. intros a w' E. apply Hk; [done|by eapply kok_still]. Qed.

Lemma wlp_tail {A} o e X (m : km A) w : still kfd m -> kok o e X (w_st w) -> wlp m (fun _ w' => kok o e X (w_st w')) w.
Proof. intros Hm H. apply (wlp_still kfd); [exact Hm|]. intros a w' E. by eapply kok_still. Qed.

(** A file gets a type, and is open from then on. *)
Lemma wlp_set_type o e X f g w (Q : () -> world (kst S U) -> Prop) : (forall y, f_ref (g y) = f_ref y /\ f_type (g y) <> FD_NONE) ->
  kok o e X (w_st w) -> has f (w_st w) ->
  (forall w', kok o e X (w_st w') -> opened f (w_st w') -> length (k_ftable (w_st w')) = length (k_ftable (w_st w)) ->
    (forall h, opened h (w_st w) -> opened h (w_st w')) -> Q () w') -> wlp (fassign f g) Q w.
Proof.
  intros Hg Hk [y Hy]%lookup_lt_is_Some_2 HQ. eapply wlp_fassign; [exact Hy|]. intros w' E1 E2. destruct (Hg y) as [G1 G2].
  assert (Ho : opened f (w_st w')) by (exists (g y); rewrite E1; split; [apply list_lookup_insert_eq; by eapply lookup_lt_Some|done]).
  apply HQ; [|done|by rewrite E1, length_insert|].
  - eapply kok_file; [exact Hy|exact E1|exact E2|by rewrite Z.sub_diag, Z.add_0_r|done|right; by left|exact Hk].
  - intros h (z & Hz & Ht). destruct (decide (h = f)) as [->|Hne]; [done|]. exists z. rewrite E1. by rewrite list_lookup_insert_ne.
Qed.

Lemma ksafe_sys_open name0 de0 : ksafe (sys_open name0 de0).
Proof.
  unfold sys_open. apply ksafe_bind; [still|]. intros omode. apply ksafe_bind; [still|]. intros a. case_match; [apply ksafe_still; still|].
  apply ksafe_bind; [still|]. intros []. apply ksafe_bind; [still|]. intros [ip|]; [|apply ksafe_still; still].
  apply ksafe_bind; [still|]. intros x. case_match; [apply ksafe_still; still|].
  intros o w Ho Hk. apply wlp_bind. eapply wlp_filealloc; [exact Hk| |].
  { intros w1 K1. by apply wlp_tail; [still|]. }
  intros f w1 K1 _ Hf _. apply wlp_bind. eapply wlp_fdalloc; [exact K1| |].
  - change (-1 <? 0) with true. apply wlp_bind. eapply wlp_fileclose; [exact K1|left; rewrite upd_eq; lia|]. intros w2 K2 _.
    apply wlp_tail; [still|]. eapply kok_ext; [|exact K2]. intros g. exact (eq_sym (upd_undo (fun _ => 0) f 1 g)).
  - intros fd w2 K2 EF _ _. rewrite (proj2 (Z.ltb_ge (Z.of_nat fd) 0)) by lia. apply wlp_bind.
    assert (Hset : wlp (if i_type x =? T_DEVICE then fassign f (fun y => set_fmajor (i_major x) (set_ftype FD_DEVICE y))
        else fassign f (fun y => set_foff 0 (set_ftype FD_INODE y)))
      (fun _ w' => kok o (upd (upd (fun _ => 0) f 1) f (-1)) [f] (w_st w') /\ opened f (w_st w')) w2).
    { destruct (i_type x =? T_DEVICE); eapply wlp_set_type; [done|exact K2|unfold has; by rewrite EF|auto|done|exact K2|unfold has; by rewrite EF|auto]. }
    eapply wlp_mono; [|exact Hset]. intros [] w3 [K3 O3]. apply wlp_tail; [still|].
    eapply kok_ext; [|by eapply kok_opened]. intros g. exact (eq_sym (upd_undo (fun _ => 0) f 1 g)).
Qed.

Definition none_held : nat -> Z := fun _ => 0.

(** Both ends of a pipe are closed again. *)
Lemma wlp_close_both {A} o f0 f1 (m : km A) w (Q : A -> world (kst S U) -> Prop) : kok o (upd (upd none_held f0 1) f1 1) [] (w_st w) ->
  (forall w', kok o none_held [] (w_st w') -> wlp m Q w') -> wlp (fileclose f0;; fileclose f1;; m) Q w.
Proof.
  intros Hk HQ. apply wlp_bind. eapply wlp_fileclose; [exact Hk|left|].
  { unfold upd, none_held. repeat case_decide; done || lia. }
  intros w1 K1 _. apply wlp_bind. eapply wlp_fileclose; [exact K1|left|].
  { unfold upd, none_held. repeat case_decide; congruence || lia. }
  intros w2 K2 _. apply HQ. eapply kok_ext; [|exact K2]. intros g. unfold upd, none_held. repeat case_decide; lia.
Qed.

Lemma wlp_pipealloc o w (Q : option (nat * nat) -> world (kst S U) -> Prop) : kok o none_held [] (w_st w) ->
  (forall w', kok o none_held [] (w_st w') -> Q None w') ->
  (forall f0 f1 w', kok o (upd (upd none_held f0 1) f1 1) [] (w_st w') -> opened f0 (w_st w') -> opened f1 (w_st w') -> Q (Some (f0, f1)) w') ->
  wlp pipealloc Q w.
Proof.
  intros Hk HN HS. apply wlp_bind. eapply wlp_filealloc; [exact Hk| |].
  { intros w1 K1. unfold pipealloc_bad. cbn [Z.eqb negb]. by apply wlp_bind, wlp_ret, wlp_bind, wlp_ret, wlp_bind, wlp_ret, wlp_ret, HN. }
  intros f0 w1 K1 _ H0 _. apply wlp_bind. eapply wlp_filealloc; [exact K1| |].
  { intros w2 K2. unfold pipealloc_bad. cbn [Z.eqb negb]. apply wlp_bind, wlp_ret, wlp_bind.
    eapply wlp_fileclose; [exact K2|left; rewrite upd_eq; unfold none_held; lia|].
    intros w3 K3 _. apply wlp_bind, wlp_ret, wlp_ret, HN. eapply kok_ext; [|exact K3]. intros g. exact (eq_sym (upd_undo none_held f0 1 g)). }
  intros f1 w2 K2 _ H1 L2. apply wlp_bind, (wlp_still kfd); [still|]. intros pi w3 E3. pose proof (kfd_length _ _ E3) as L3.
  eapply kok_still in K2; [|exact E3]. destruct (pi =? 0).
  { unfold pipealloc_bad. cbn [Z.eqb negb]. apply wlp_bind, wlp_ret. eapply wlp_close_both; [exact K2|]. intros w4 K4. by apply wlp_ret, HN. }
  apply wlp_bind, (wlp_still kfd); [still|]. intros [] w4 E4. pose proof (kfd_length _ _ E4) as L4. eapply kok_still in K2; [|exact E4].
  unfold has in *. apply wlp_bind. eapply wlp_set_type; [done|exact K2|unfold has; lia|]. intros w5 K5 O5 L5 _. apply wlp_bind.
  eapply wlp_set_type; [done|exact K5|unfold has; lia|]. intros w6 K6 O6 _ Ho. apply wlp_ret, HS; [exact K6|by apply Ho|exact O6].
Qed.

Lemma wlp_clear_fd {A} o e X fd f (m : km A) w (Q : A -> world (kst S U) -> Prop) : kok o e X (w_st w) ->
  k_ofile (w_st w) !! fd = Some (Some f) ->
  (forall w', kok o (upd e f 1) X (w_st w') -> k_ofile (w_st w') = <[fd := None]> (k_ofile (w_st w)) -> wlp m Q w') ->
  wlp (clear_fd (Z.of_nat fd);; m) Q w.
Proof.
  intros Hk Hfd HQ. apply wlp_bind, wlp_modify. rewrite Nat2Z.id. apply HQ; [|done]. by eapply kok_unname.
Qed.

(** [sys_pipe] once both files have a descriptor. *)
Lemma wlp_pipe_copy o fd0 fd1 rf wf p fdarray w : kok o none_held [] (w_st w) -> fd0 <> fd1 ->
  k_ofile (w_st w) !! fd0 = Some (Some rf) -> k_ofile (w_st w) !! fd1 = Some (Some wf) ->
  wlp (c ← kmem (u_copyout (my_pagetable p) fdarray (le_bytes 4 (Z.of_nat fd0)));
       c ← (if c <? 0 then mret c else kmem (u_copyout (my_pagetable p) (u64 (fdarray + 4)) (le_bytes 4 (Z.of_nat fd1))));
       if c <? 0 then
         clear_fd (Z.of_nat fd0);;
         clear_fd (Z.of_nat fd1);;
         fileclose rf;;
         fileclose wf;;
         mret (-1)
       else mret 0) (fun _ w' => kok o none_held [] (w_st w')) w.
Proof.
  intros Hk Hne H0 H1. apply wlp_bind, (wlp_still kfd); [still|]. intros c w1 E1. apply wlp_bind, (wlp_still kfd); [still|].
  intros c' w2 E2. rewrite E1 in E2. eapply kok_still in Hk; [|exact E2]. injection E2 as _ E2. rewrite <- E2 in H0, H1.
  destruct (c' <? 0); [|by apply wlp_ret]. eapply wlp_clear_fd; [exact Hk|exact H0|]. intros w3 K3 E3.
  eapply wlp_clear_fd; [exact K3|rewrite E3, list_lookup_insert_ne by done; exact H1|]. intros w4 K4 _.
  eapply wlp_close_both; [exact K4|]. intros w5 K5. by apply wlp_ret.
Qed.

Lemma ksafe_sys_pipe : ksafe sys_pipe.
Proof.
  unfold sys_pipe. apply ksafe_bind; [still|]. intros p. apply ksafe_bind; [still|]. intros fdarray o w Ho Hk.
  apply wlp_bind. eapply wlp_pipealloc; [exact Hk|intros w1 K1; by apply wlp_ret|]. intros rf wf w1 K1 O0 O1.
  apply wlp_bind. eapply wlp_fdalloc; [exact K1| |].
  { apply wlp_bind, wlp_ret. cbn [Z.ltb Z.compare orb Z.geb]. apply wlp_bind, wlp_ret. eapply wlp_close_both; [exact K1|].
    intros w2 K2. by apply wlp_ret. }
  intros fd0 w2 K2 EF2 N0 EO2. rewrite (proj2 (Z.ltb_ge (Z.of_nat fd0) 0)) by lia.
  apply kok_opened in K2; [|eapply opened_look; [by rewrite EF2|exact O0]].
  pose proof (lookup_lt_Some _ _ _ N0) as L0. apply wlp_bind. eapply wlp_fdalloc; [exact K2| |].
  { cbn [Z.ltb Z.compare orb]. rewrite (proj2 (Z.geb_ge (Z.of_nat fd0) 0)) by lia. eapply wlp_clear_fd; [exact K2|rewrite EO2; by apply list_lookup_insert_eq|].
    intros w3 K3 _. eapply wlp_close_both; [|intros w4 K4; by apply wlp_ret]. eapply kok_ext; [|exact K3].
    intros g. exact (eq_sym (upd_undo (upd (upd none_held rf 1) wf 1) rf (-1) g)). }
  intros fd1 w3 K3 EF3 N1 EO3. rewrite (proj2 (Z.ltb_ge (Z.of_nat fd1) 0)) by lia. cbn [orb].
  apply kok_opened in K3; [|eapply opened_look; [by rewrite EF3, EF2|exact O1]].
  assert (Hne : fd0 <> fd1) by (intros ->; rewrite EO2, list_lookup_insert_eq in N1 by done; done).
  eapply wlp_pipe_copy; [eapply kok_ext; [|exact K3]|exact Hne| |].
  - intros g. unfold upd, none_held. repeat case_decide; lia.
  - rewrite EO3, list_lookup_insert_ne, EO2 by done. by apply list_lookup_insert_eq.
  - rewrite EO3. apply list_lookup_insert_eq. by eapply lookup_lt_Some.
Qed.
End calls.
#[export] Hint Resolve still_kfs still_kmem still_kpipe still_kbegin_op still_kend_op still_fload still_argint still_argaddr still_argstr still_free_args still_sys_exec_loop : still.
