(* ===== verification/FileProps.v ===== *)
(** Every system call keeps the file table and the descriptors of all
    processes in agreement. *)

From S2P Require Import Prelude Bytes KMonad Riscv Kalloc Vm UserMem Pipe Sleeplock BlockStore Log LogTx Bio Fs File Sysfile Proc ProcSpec ProcProps Kernel Exec ExecProps Syscall SyscallProps FileInv.

(** ** The invariant *)

(** How many descriptors of all processes name the file [f]. *)
Fixpoint refs (f : nat) (T : list proc) : Z :=
  match T with
  | [] => 0
  | x :: T' => cnt f (pr_ofile x) + refs f T'
  end.

Lemma refs_nonneg f T : 0 <= refs f T.
Proof. induction T as [|x T IH]; cbn; [lia|]. pose proof (cnt_nonneg f (pr_ofile x)). lia. Qed.
Lemma refs_insert f T p x x' : T !! p = Some x -> refs f (<[p := x']> T) = refs f T - cnt f (pr_ofile x) + cnt f (pr_ofile x').
Proof.
  revert p. induction T as [|a T IH]; intros [|p] H; [done..| |].
  - injection H as ->. cbn. lia.
  - change (<[S p := x']> (a :: T)) with (a :: <[p := x']> T). cbn [refs]. rewrite (IH p H). lia.
Qed.
Lemma refs_cnt f T p x : T !! p = Some x -> cnt f (pr_ofile x) <= refs f T.
Proof.
  revert p. induction T as [|a T IH]; intros [|p] H; cbn in *; [done..| |].
  - injection H as ->. pose proof (refs_nonneg f T). lia.
  - pose proof (IH p H). pose proof (cnt_nonneg f (pr_ofile a)). lia.
Qed.

Definition dead (x : proc) : Prop := pr_state x = UNUSED \/ pr_state x = ZOMBIE.
Definition closed (x : proc) : Prop := Forall (fun o => o = None) (pr_ofile x).

Lemma closed_lookup x fd o : closed x -> pr_ofile x !! fd = Some o -> o = None.
Proof. intros Hc Ho. by eapply (Forall_lookup_1 _ _ _ _ Hc). Qed.
Lemma closed_cnt x f : closed x -> cnt f (pr_ofile x) = 0.
Proof. unfold closed. induction 1 as [|o O -> _ IH]; cbn; [done|]. by rewrite IH. Qed.

Section inv.
Context {S : Type}.
Abbreviation ps := (pst (kenv S)).
Implicit Types (s : ps) (w : world ps) (x : proc).

Definition ftab s : list file := en_ftable (pt_env s).

(** The file table counts the descriptors of all processes, and [e f] more
    for each file [f]; a file that a descriptor names is open, but for those
    of [X]; a process that is unused or a zombie has no descriptors.  Entries
    of [Em] have none either, entries of [Ex] are left out. *)
Record fds_ok (e : nat -> Z) (X Em Ex : list nat) s : Prop := {
  fo_counted : counted (fun f => refs f (pt_procs s) + e f) (fun f => refs f (pt_procs s)) X (ftab s);
  fo_length : forall i x, pt_procs s !! i = Some x -> length (pr_ofile x) = NOFILE;
  fo_closed : forall i x, pt_procs s !! i = Some x -> (dead x /\ (i ∉ Ex)) \/ i ∈ Em -> closed x }.

(** At rest. *)
Definition files_ok s : Prop := fds_ok none_held [] [] [] s.

(** What the invariant looks at. *)
Definition glance (x : proc) : procstate * list (option nat) := (pr_state x, pr_ofile x).
Definition pfd s : list (Z * ftype) * list (procstate * list (option nat)) := (map look (ftab s), map glance (pt_procs s)).

Lemma refs_glance f T T' : map glance T' = map glance T -> refs f T' = refs f T.
Proof.
  revert T'. induction T as [|x T IH]; intros [|x' T'] E; try done. cbn in *. injection E as _ Eo E. by rewrite Eo, (IH T').
Qed.
Lemma glance_lookup T T' i x' : map glance T' = map glance T -> T' !! i = Some x' -> exists x, T !! i = Some x /\ glance x' = glance x.
Proof.
  intros E Hx'. assert (H : glance <$> T' !! i = glance <$> T !! i).
  { rewrite <- !list_lookup_fmap. change (map glance T' !! i = map glance T !! i). by rewrite E. }
  rewrite Hx' in H. destruct (T !! i) as [x|]; [|done]. injection H as E1 E2. exists x. split; [done|]. unfold glance. congruence.
Qed.

Lemma fds_still e X Em Ex s s' : pfd s' = pfd s -> fds_ok e X Em Ex s -> fds_ok e X Em Ex s'.
Proof.
  intros E [H1 H2 H3]. injection E as EF ET. split.
  - eapply counted_look; [exact EF|]. eapply counted_ext; [| |exact H1]; intros f; cbn; by rewrite (refs_glance f _ _ ET).
  - intros i x' Hx'. destruct (glance_lookup _ _ _ _ ET Hx') as (x & Hx & Eg). injection Eg as _ ->. by eapply H2.
  - intros i x' Hx' Hd. destruct (glance_lookup _ _ _ _ ET Hx') as (x & Hx & Eg). injection Eg as Es Eo. unfold closed. rewrite Eo.
    eapply (H3 i x Hx). unfold dead in *. by rewrite <- Es.
Qed.

Lemma fds_ext e e' X Em Ex s : (forall f, e' f = e f) -> fds_ok e X Em Ex s -> fds_ok e' X Em Ex s.
Proof. intros He [H1 H2 H3]. split; [|done|done]. eapply counted_ext; [| |exact H1]; [|done]. intros f. cbn. by rewrite He. Qed.

(** One process changes, not in its descriptors. *)
Lemma fds_proc e X Em Ex s s' p x x' : pt_procs s !! p = Some x -> pt_procs s' = <[p := x']> (pt_procs s) -> ftab s' = ftab s ->
  pr_ofile x' = pr_ofile x -> (dead x' -> dead x \/ p ∈ Em \/ p ∈ Ex) -> fds_ok e X Em Ex s -> fds_ok e X Em Ex s'.
Proof.
  intros Hx ET EF Eo Hd [H1 H2 H3]. pose proof (lookup_lt_Some _ _ _ Hx) as Hlt.
  assert (Hl : forall i z, pt_procs s' !! i = Some z -> i = p /\ z = x' \/ i <> p /\ pt_procs s !! i = Some z).
  { intros i z. rewrite ET. destruct (decide (i = p)) as [->|Hne]; [|rewrite list_lookup_insert_ne by done; tauto].
    rewrite list_lookup_insert_eq by done. intros [= <-]. by left. }
  split.
  - rewrite EF. eapply counted_ext; [| |exact H1]; intros f; cbn; rewrite ET, (refs_insert _ _ _ _ _ Hx), Eo; lia.
  - intros i z [[-> ->]|[_ Hz]]%Hl; [rewrite Eo; by eapply H2|by eapply H2].
  - intros i z Hz Hd'. destruct (Hl _ _ Hz) as [[-> ->]|[_ Hz']]; [|by eapply H3]. unfold closed. rewrite Eo. apply (H3 p x Hx).
    destruct Hd' as [[Hd1 Hd2]|]; [|by right]. destruct (Hd Hd1) as [|[|]]; tauto.
Qed.

(** A descriptor of a process is set or cleared. *)
Lemma fds_set e X Em Ex s s' p x fd o o' : pt_procs s !! p = Some x -> pr_ofile x !! fd = Some o ->
  pt_procs s' = <[p := set_fds (<[fd := o']> (pr_ofile x)) x]> (pt_procs s) -> ftab s' = ftab s ->
  (forall f, o' = Some f -> 0 < refs f (pt_procs s) /\ (p ∉ Em) /\ (dead x -> p ∈ Ex)) ->
  fds_ok e X Em Ex s -> fds_ok (fun f => e f + hit f o - hit f o') X Em Ex s'.
Proof.
  intros Hx Ho ET EF Ho' [H1 H2 H3]. pose proof (lookup_lt_Some _ _ _ Hx) as Hlt.
  assert (Er : forall f, refs f (pt_procs s') = refs f (pt_procs s) - hit f o + hit f o').
  { intros f. rewrite ET, (refs_insert _ _ _ _ _ Hx). cbn [pr_ofile set_fds]. rewrite (cnt_insert _ _ _ _ _ Ho). lia. }
  split.
  - rewrite EF. eapply counted_names; [|eapply counted_ext; [| |exact H1]]; [intros f _|intros f|done]; cbn; rewrite Er; [|lia].
    pose proof (hit_nonneg f o). destruct (decide (o' = Some f)) as [E|E]; [intros _; by apply Ho'|]. unfold hit at 2. rewrite decide_False by done. lia.
  - intros i z. rewrite ET. destruct (decide (i = p)) as [->|Hne]; [|rewrite list_lookup_insert_ne by done; apply H2].
    rewrite list_lookup_insert_eq by done. intros [= <-]. cbn. rewrite length_insert. by eapply H2.
  - intros i z. rewrite ET. destruct (decide (i = p)) as [->|Hne]; [|rewrite list_lookup_insert_ne by done; apply H3].
    rewrite list_lookup_insert_eq by done. intros [= <-] Hd. unfold closed, dead in *. cbn in *. destruct o' as [f|].
    + destruct (Ho' f eq_refl) as (_ & H4 & H5). tauto.
    + apply Forall_insert; [|done]. by apply (H3 p x Hx).
Qed.
End inv.

(** ** Routines that leave the descriptors alone *)

Section calm.
Context {sy : Symbols} {ts : TextSyms} {S : Type} {ops : BlockOps S}.
Abbreviation ps := (pst (kenv S)).
Abbreviation pm := (M ps).
Implicit Types (w : world ps) (x : proc).

Lemma still_efs {A} (m : M (fsst (logst S) phys) A) : still pfd (env (efs m)).
Proof.
  intros w. unfold wlp, env, zoom, efs, zoom. destruct (m _); [reflexivity|done..].
Qed.
Lemma still_emem {A} (m : M phys A) : still pfd (emem (E := kenv S) m).
Proof.
  intros w. unfold wlp, emem, env, zoom. destruct (m _); [reflexivity|done..].
Qed.
Lemma still_tf_store tf off v : still pfd (tf_store (E := kenv S) tf off v).
Proof. apply still_emem. Qed.
Lemma still_pload p : still pfd (pload (E := kenv S) p).
Proof. unfold pload. still. Qed.
Lemma still_mypid : still pfd (mypid (E := kenv S)).
Proof. unfold mypid. still. Qed.
#[local] Hint Resolve still_efs still_emem still_tf_store still_pload still_mypid : still.

Lemma still_passign p g : (forall x, glance (g x) = glance x) -> still pfd (passign (E := kenv S) p g).
Proof.
  intros H. unfold passign. apply still_bind; [still|]. intros _. apply still_modify. intros s. unfold pfd, ftab. cbn. f_equal.
  apply list_eq. intros i. change (map glance) with (fmap (M := list) glance). rewrite !list_lookup_fmap.
  destruct (decide (i = p)) as [->|Hne]; [|by rewrite list_lookup_alter_ne]. rewrite list_lookup_alter_eq.
  destruct (pt_procs s !! p); cbn; [by rewrite H|done].
Qed.
#[local] Hint Extern 1 (still _ (passign _ _)) => apply still_passign; reflexivity : still.
#[local] Hint Extern 1 (still _ (env (e_begin_op))) => apply still_efs : still.
#[local] Hint Extern 1 (still _ (env (e_end_op))) => apply still_efs : still.
#[local] Hint Extern 1 (still _ (env (e_iput _))) => apply still_efs : still.
#[local] Hint Extern 1 (still _ (env (e_idup _))) => apply still_efs : still.
#[local] Hint Extern 1 (still _ (env (x_namei _ _))) => apply still_efs : still.
#[local] Hint Extern 1 (still _ (env (x_ilock _))) => apply still_efs : still.
#[local] Hint Extern 1 (still _ (env (x_iunlockput _))) => apply still_efs : still.
#[local] Hint Extern 1 (still _ (env (x_readi _ _ _))) => apply still_efs : still.

Lemma still_sched : still pfd (sched (E := kenv S)).
Proof.
  intros w. apply wlp_bind. unfold wlp at 1, mypid. cbn. apply wlp_bind. unfold wlp at 1, holding. cbn beta iota.
  destruct (bool_decide _); [|done]. cbn [negb]. unfold wlp. destruct (decide _); [done|].
  unfold mbind at 1, M_bind, pload. cbv [mbind M_bind gets]. destruct (_ !! _) as [x|]; [|done]. cbn. by destruct (decide _).
Qed.
#[local] Hint Resolve still_sched : still.

(** Exec gives the process another image. *)
Lemma still_loadseg_loop fuel : forall pt va ip off sz i, still pfd (loadseg_loop (E := kenv S) fuel pt va ip off sz i).
Proof. induction fuel as [|f IH]; intros; cbn [loadseg_loop]; still. Qed.
Lemma still_loadseg pt va ip off sz : still pfd (loadseg (E := kenv S) pt va ip off sz).
Proof. apply still_loadseg_loop. Qed.
Lemma still_exec_bad pt sz ip : still pfd (exec_bad (E := kenv S) pt sz ip).
Proof. unfold exec_bad. still. Qed.
#[local] Hint Resolve still_loadseg still_exec_bad : still.
Lemma still_exec_load n : forall pt ip off sz, still pfd (exec_load (E := kenv S) n pt ip off sz).
Proof. induction n as [|n IH]; intros; cbn [exec_load]; cbv zeta; still. Qed.
Lemma still_exec_args pt base argv : forall sp us, still pfd (exec_args (E := kenv S) pt base argv sp us).
Proof. induction argv as [|a argv IH]; intros; cbn [exec_args]; cbv zeta; still. Qed.
Lemma still_set_mypagetable pt : still pfd (set_mypagetable (E := kenv S) pt).
Proof. done. Qed.
#[local] Hint Resolve still_exec_load still_exec_args still_set_mypagetable : still.
Lemma still_exec_commit path pt sz sp entry oldsz argc : still pfd (exec_commit (E := kenv S) path pt sz sp entry oldsz argc).
Proof. unfold exec_commit. still. Qed.
#[local] Hint Resolve still_exec_commit : still.
Lemma still_exec_stack path argv pt sz entry : still pfd (exec_stack (E := kenv S) path argv pt sz entry).
Proof. unfold exec_stack. cbv zeta. still. Qed.
#[local] Hint Resolve still_exec_stack : still.
Lemma still_exec path argv : still pfd (exec (E := kenv S) path argv).
Proof. unfold exec, exec_file. cbv zeta. still. Qed.
Lemma still_growproc n : still pfd (growproc (E := kenv S) n).
Proof. unfold growproc. cbv zeta. still. Qed.
Lemma still_pkilled p : still pfd (pkilled (E := kenv S) p).
Proof. unfold pkilled. still. Qed.

(** ** Routines that keep the invariant *)

Definition psafe {A} (Em Ex : list nat) (m : pm A) : Prop := inv (fds_ok none_held [] Em Ex) m.

Lemma psafe_still {A} Em Ex (m : pm A) : still pfd m -> psafe Em Ex m.
Proof. apply inv_still. intros s s' E. by apply fds_still. Qed.

Lemma wlp_assign p g (Q : () -> world ps -> Prop) w :
  (forall x w', pt_procs (w_st w) !! p = Some x -> pt_procs (w_st w') = <[p := g x]> (pt_procs (w_st w)) -> ftab (w_st w') = ftab (w_st w) ->
    w_me w' = w_me w -> Q () w') -> wlp (passign p g) Q w.
Proof.
  intros HQ. apply wlp_bind, wlp_bind, wlp_gets. destruct (pt_procs (w_st w) !! p) as [x|] eqn:Hx; [|done]. apply wlp_ret, wlp_modify.
  apply (HQ x); [done| |done|done]. cbn. by apply list_alter_insert.
Qed.

Lemma psafe_assign Em Ex p g : (forall x, pr_ofile (g x) = pr_ofile x) -> (forall x, dead (g x) -> dead x \/ p ∈ Em \/ p ∈ Ex) ->
  psafe Em Ex (passign p g).
Proof. intros Ho Hd w H. apply wlp_assign. intros x w' Hx ET EF _. eapply fds_proc; [exact Hx|exact ET|exact EF|apply Ho|apply Hd|exact H]. Qed.

Lemma psafe_bind {A B} Em Ex (m : pm A) (k : A -> pm B) : psafe Em Ex m -> (forall a, psafe Em Ex (k a)) -> psafe Em Ex (m ≫= k).
Proof. apply inv_bind. Qed.

(** A new state of a process, and any change of an entry without descriptors. *)
#[local] Hint Extern 1 (psafe _ _ (passign _ _)) =>
  apply psafe_assign; [reflexivity|let Hd := fresh in intros ? Hd; first [left; exact Hd | destruct Hd; discriminate | right; solve [auto with still nocore]]] : still.
#[local] Hint Extern 2 (psafe _ _ _) => apply psafe_still; solve [auto with still nocore] : still.

Ltac psafe :=
  repeat (intros; lazymatch goal with
    | |- psafe _ _ (mbind _ _) => apply psafe_bind
    | |- psafe _ _ (if ?b then _ else _) => destruct b
    | |- psafe _ _ (match ?x with _ => _ end) => destruct x
    | IH : forall _, _ |- psafe _ _ _ => first [solve [auto with still nocore] | simple apply IH]
    | |- psafe _ _ _ => solve [auto with still nocore]
    end).

#[local] Hint Resolve still_pkilled : still.
Lemma psafe_wakeup_loop Em Ex n : forall p cur c, psafe Em Ex (wakeup_loop n p cur c).
Proof. induction n as [|n IH]; intros; cbn [wakeup_loop]; psafe. Qed.
#[local] Hint Resolve psafe_wakeup_loop : still.
Lemma psafe_pwakeup Em Ex c : psafe Em Ex (pwakeup c).
Proof. unfold pwakeup. psafe. Qed.
#[local] Hint Resolve psafe_pwakeup : still.
Lemma psafe_kill_loop Em Ex n : forall p pid, psafe Em Ex (kill_loop n p pid).
Proof. induction n as [|n IH]; intros; cbn [kill_loop]; psafe. Qed.
Lemma psafe_kill Em Ex pid : psafe Em Ex (kill pid).
Proof. apply psafe_kill_loop. Qed.
Lemma psafe_psleep Em Ex c lk : psafe Em Ex (psleep c lk).
Proof. unfold psleep. psafe. Qed.
Lemma psafe_psleep_resume Em Ex lk : psafe Em Ex (psleep_resume lk).
Proof. unfold psleep_resume. psafe. Qed.
Lemma psafe_reparent_loop Em Ex n : forall pp p, psafe Em Ex (reparent_loop n pp p).
Proof. induction n as [|n IH]; intros; cbn [reparent_loop]; psafe. Qed.
Lemma psafe_freeproc Em Ex p : p ∈ Em -> psafe Em Ex (freeproc p).
Proof.
  intros Hp. unfold freeproc. psafe.
  intros _. apply psafe_assign; [reflexivity|]. intros x _. right. by left.
Qed.
Lemma psafe_allocproc_found Em Ex p : p ∈ Em -> psafe Em Ex (allocproc_found p).
Proof. intros Hp. unfold allocproc_found, allocpid. psafe; intros; by apply psafe_freeproc. Qed.
#[local] Hint Resolve psafe_kill psafe_psleep psafe_psleep_resume psafe_reparent_loop : still.

(** *** Wait *)

Lemma fds_more e X Em Ex p (s : ps) : (forall x, pt_procs s !! p = Some x -> closed x) -> fds_ok e X Em Ex s -> fds_ok e X (p :: Em) Ex s.
Proof.
  intros Hp [H1 H2 H3]. split; [done|done|]. intros i x Hx [Hd|[->|Hi]%elem_of_cons]; [apply (H3 i x Hx); by left|by apply Hp|].
  apply (H3 i x Hx). by right.
Qed.
Lemma fds_less e X Em Ex p (s : ps) : fds_ok e X (p :: Em) Ex s -> fds_ok e X Em Ex s.
Proof.
  intros [H1 H2 H3]. split; [done|done|]. intros i x Hx [Hd|Hi]; apply (H3 i x Hx); [by left|right]. apply elem_of_cons. by right.
Qed.

Lemma psafe_wait_scan n : forall pp p addr hk, psafe [] [] (wait_scan n pp p addr hk).
Proof.
  induction n as [|n IH]; intros pp p addr hk; cbn [wait_scan]; [psafe|]. apply psafe_bind; [psafe|]. intros x0.
  destruct (decide _); [|apply IH]. apply psafe_bind; [psafe|]. intros _ w H. apply wlp_bind, wlp_bind, wlp_gets.
  destruct (pt_procs (w_st w) !! pp) as [x|] eqn:Hx; [|done]. apply wlp_ret. destruct (decide (pr_state x = ZOMBIE)) as [Hz|Hz].
  2:{ revert w H Hx. intros w H _. revert w H. change (psafe [] [] (release (L_proc pp);; wait_scan n (Datatypes.S pp) p addr true)). psafe. }
  eapply (wlp_mono _ (fun _ w' => fds_ok none_held [] [pp] [] (w_st w'))); [intros a w'; apply fds_less|].
  assert (H' : fds_ok none_held [] [pp] [] (w_st w)).
  { apply fds_more; [|done]. intros x' Hx'. apply (fo_closed _ _ _ _ _ H pp x' Hx'). left. split; [right; congruence|apply not_elem_of_nil]. }
  revert w H H' Hx. intros w _ H' _. revert w H'.
  assert (Hp : pp ∈ [pp]) by (by left).
  match goal with |- forall w, _ -> wlp ?m _ w => change (psafe [pp] [] m) end. psafe; intros; by apply psafe_freeproc.
Qed.
Lemma psafe_wait_round addr : psafe [] [] (wait_round addr).
Proof. unfold wait_round. apply psafe_bind; [psafe|]. intros p. apply psafe_bind; [apply psafe_wait_scan|]. psafe. Qed.
Lemma psafe_pwait addr : psafe [] [] (pwait addr).
Proof. unfold pwait. apply psafe_bind; [psafe|]. intros _. apply psafe_wait_round. Qed.
Lemma psafe_pwait_resume addr : psafe [] [] (pwait_resume addr).
Proof. unfold pwait_resume. apply psafe_bind; [psafe|]. intros _. apply psafe_wait_round. Qed.

(** *** References to files *)

Lemma wlp_env_file {A} (P : A -> list file -> Prop) e e' X Em Ex (m : M (kst S phys) A) w (Q : A -> world ps -> Prop) :
  let o := fun f => refs f (pt_procs (w_st w)) in fds_ok e X Em Ex (w_st w) ->
  (forall (v : world (kst S phys)) (R : A -> world (kst S phys) -> Prop), k_ftable (w_st v) = ftab (w_st w) -> k_ofile (w_st v) = [] ->
    kok 0 o e X (w_st v) -> (forall a v', P a (k_ftable (w_st v')) -> kok 0 o e' X (w_st v') -> R a v') -> wlp m R v) ->
  (forall a w', P a (ftab (w_st w')) -> fds_ok e' X Em Ex (w_st w') -> pt_procs (w_st w') = pt_procs (w_st w) -> Q a w') ->
  wlp (env (efile m)) Q w.
Proof.
  intros o [H1 H2 H3] Hm HQ. unfold wlp, env, zoom, efile, zoom. cbn.
  specialize (Hm (World (w_me w) (w_held w) (w_evs w) (KSt (en_fs (pt_env (w_st w))) (en_pipes (pt_env (w_st w))) (en_ftable (pt_env (w_st w))) [] 0 0 []))
    (fun a v' => P a (k_ftable (w_st v')) /\ kok 0 o e' X (w_st v')) eq_refl eq_refl).
  unfold wlp in Hm. destruct (m _) as [a v'| | | |]; [|done..].
  assert (K : P a (k_ftable (w_st v')) /\ kok 0 o e' X (w_st v')).
  { apply Hm; [|done]. split; [|done]. cbn. eapply counted_ext; [| |exact H1]; intros f; unfold o; cbn; lia. }
  destruct K as [Pa [K1 K2]]. apply HQ; [done| |done]. cbn. apply nil_length_inv in K2. split; cbn; [|done|done]. unfold ftab. cbn.
  eapply counted_ext; [| |exact K1]; intros f; unfold o; cbn; rewrite K2; cbn; lia.
Qed.

Lemma wlp_env_filedup e X Em Ex f w (Q : nat -> world ps -> Prop) : fds_ok e X Em Ex (w_st w) ->
  (forall w', fds_ok (upd e f 1) X Em Ex (w_st w') -> pt_procs (w_st w') = pt_procs (w_st w) -> Q f w') -> wlp (env (e_filedup f)) Q w.
Proof.
  intros H HQ. eapply (wlp_env_file (fun a _ => a = f)); [exact H| |].
  - intros v R _ _ K HR. eapply wlp_filedup; [exact K|]. intros v' K' _. by apply HR.
  - intros a w' -> H' E. by apply HQ.
Qed.

Definition open_in (F : list file) (f : nat) : Prop := exists y, F !! f = Some y /\ f_type y <> FD_NONE.

Lemma wlp_env_fileclose e X Em Ex f w (Q : () -> world ps -> Prop) : fds_ok e X Em Ex (w_st w) -> 1 <= e f \/ f ∈ X ->
  (forall w', fds_ok (upd e f (-1)) X Em Ex (w_st w') -> pt_procs (w_st w') = pt_procs (w_st w) ->
    (open_in (ftab (w_st w)) f -> open_in (ftab (w_st w')) f \/ refs f (pt_procs (w_st w)) + e f = 1) -> Q () w') -> wlp (env (e_fileclose f)) Q w.
Proof.
  intros H He HQ. eapply (wlp_env_file (fun _ F => open_in (ftab (w_st w)) f -> open_in F f \/ refs f (pt_procs (w_st w)) + e f = 1)); [exact H| |].
  - intros v R EF EO K HR. eapply wlp_fileclose_type; [exact K|exact He|]. intros v' K' _ Ht. apply HR; [|done].
    unfold opened in Ht. rewrite EF, EO in Ht. cbn in Ht. rewrite Z.add_0_r in Ht. exact Ht.
  - intros [] w' P H' E. by apply HQ.
Qed.

(** *** Exit *)

(** A file that is named less often than before is no exception any more, when
    its count says that nobody names it. *)
Lemma fds_closed_file X Em Ex f (s : ps) : fds_ok none_held (f :: X) Em Ex s -> refs f (pt_procs s) = 0 \/ open_in (ftab s) f -> fds_ok none_held X Em Ex s.
Proof.
  intros [H1 H2 H3] Hf. split; [|done|done]. destruct Hf as [Hf|(y & Hy & Ht)]; [|by eapply counted_open].
  destruct H1 as [C1 C2]. split; [done|]. intros g Hg Hx. apply C2; [done|]. apply not_elem_of_cons. split; [|done]. intros ->. cbn in Hg. lia.
Qed.

Lemma wlp_closing Q p n : forall fd w, fds_ok none_held [] [] [] (w_st w) ->
  (forall x j, pt_procs (w_st w) !! p = Some x -> (j < fd)%nat -> pr_ofile x !! j = Some None \/ pr_ofile x !! j = None) ->
  (forall w', fds_ok none_held [] [] [] (w_st w') ->
     (forall x j, pt_procs (w_st w') !! p = Some x -> (j < fd + n)%nat -> pr_ofile x !! j = Some None \/ pr_ofile x !! j = None) -> Q () w') ->
  wlp (close_files n fd p) Q w.
Proof.
  induction n as [|n IH]; intros fd w H Hc HQ; cbn [close_files].
  { apply wlp_ret, HQ; [done|]. intros x j Hx Hj. apply (Hc x j Hx). lia. }
  apply wlp_bind, wlp_bind, wlp_gets. destruct (pt_procs (w_st w) !! p) as [x|] eqn:Hx; [|done]. apply wlp_ret, wlp_bind.
  assert (Hnext : forall w', fds_ok none_held [] [] [] (w_st w') ->
    (forall x j, pt_procs (w_st w') !! p = Some x -> (j < Datatypes.S fd)%nat -> pr_ofile x !! j = Some None \/ pr_ofile x !! j = None) ->
    wlp (close_files n (Datatypes.S fd) p) Q w').
  { intros w' H' Hc'. apply IH; [done|done|]. intros w'' H'' Hc''. apply HQ; [done|]. intros z j Hz Hj. apply (Hc'' z j Hz). lia. }
  destruct (pr_ofile x !! fd) as [[f|]|] eqn:Ho.
  2, 3: apply wlp_ret, Hnext; [done|]; intros x' j Hx' Hj; assert (x' = x) as -> by congruence;
    (destruct (decide (j = fd)) as [->|]; [tauto|apply (Hc x j eq_refl); lia]).
  pose proof (cnt_pos _ _ _ Ho) as Hpos. pose proof (refs_cnt f _ _ _ Hx) as Hle.
  assert (Hop : open_in (ftab (w_st w)) f) by (apply (cn_type _ _ _ _ (fo_counted _ _ _ _ _ H) f); [cbn; lia|apply not_elem_of_nil]).
  apply wlp_bind. eapply (wlp_env_fileclose none_held [f] [] []); [|by right; left|].
  { destruct H as [C1 C2 C3]. split; [by apply counted_except|done|done]. }
  intros w1 H1 ET Ht. apply wlp_assign. rewrite ET. intros x1 w2 Hx1 ET2 EF2 _. assert (x1 = x) as -> by congruence.
  assert (H2 : fds_ok none_held [f] [] [] (w_st w2)).
  { eapply fds_ext; [|eapply fds_set; [rewrite ET; exact Hx|exact Ho|rewrite ET; exact ET2|exact EF2|done|exact H1]].
    intros g. cbn. rewrite hit_some, hit_none. unfold upd, none_held. case_decide; lia. }
  apply Hnext.
  - eapply fds_closed_file; [exact H2|]. destruct (Ht Hop) as [Ht'|Ht']; [right; by rewrite EF2|left].
    rewrite ET2, (refs_insert _ _ _ _ _ Hx). cbn [pr_ofile set_fds]. rewrite (cnt_insert _ _ _ _ _ Ho), hit_some, hit_none, decide_True by done.
    unfold none_held in Ht'. pose proof (refs_nonneg f (pt_procs (w_st w))). lia.
  - intros x' j. rewrite ET2, list_lookup_insert_eq by (by eapply lookup_lt_Some). intros [= <-] Hj. cbn.
    destruct (decide (j = fd)) as [->|Hne]; [left; apply list_lookup_insert_eq; by eapply lookup_lt_Some|].
    rewrite list_lookup_insert_ne by done. apply (Hc x j eq_refl). lia.
Qed.

Lemma all_closed x : length (pr_ofile x) = NOFILE -> (forall j, (j < NOFILE)%nat -> pr_ofile x !! j = Some None \/ pr_ofile x !! j = None) -> closed x.
Proof.
  intros Hl Hj. apply Forall_lookup. intros j o Ho. pose proof (lookup_lt_Some _ _ _ Ho) as Hlt. rewrite Hl in Hlt.
  destruct (Hj j Hlt) as [E|E]; congruence.
Qed.

Lemma psafe_pexit status : psafe [] [] (pexit status).
Proof.
  unfold pexit. apply psafe_bind; [psafe|]. intros p. apply psafe_bind; [psafe|]. intros ip. destruct (decide _); [psafe|].
  intros w H. apply wlp_bind. apply wlp_closing; [done|intros; lia|]. intros w1 H1 Hc.
  assert (H2 : fds_ok none_held [] [p] [] (w_st w1)).
  { apply fds_more; [|done]. intros x Hx. apply all_closed; [by eapply fo_length|]. intros j Hj. by apply (Hc x j Hx). }
  eapply (wlp_mono _ (fun _ w' => fds_ok none_held [] [p] [] (w_st w'))); [intros a w'; apply fds_less|].
  clear Hc H1. revert w1 H2. match goal with |- forall w, _ -> wlp ?m _ w => change (psafe [p] [] m) end.
  unfold reparent. psafe.
  apply psafe_assign; [reflexivity|]. intros x _. right. left. by left.
Qed.

(** *** Fork *)

Lemma wlp_find_unused_proc n : forall p w (Q : option nat -> world ps -> Prop),
  (forall w', w_st w' = w_st w -> w_me w' = w_me w -> Q None w') ->
  (forall q x w', w_st w' = w_st w -> w_me w' = w_me w -> pt_procs (w_st w) !! q = Some x -> pr_state x = UNUSED -> Q (Some q) w') ->
  wlp (find_unused_proc n p) Q w.
Proof.
  induction n as [|n IH]; intros p w Q HN HS; cbn [find_unused_proc]; [by apply wlp_ret, HN|].
  apply wlp_bind, wlp_acquire, wlp_bind, wlp_bind, wlp_gets. cbn. destruct (pt_procs (w_st w) !! p) as [x|] eqn:Hx; [|done].
  apply wlp_ret. destruct (decide _) as [Hu|Hu]; [by apply wlp_ret, (HS p x)|]. apply wlp_bind, wlp_release, IH; [done|].
  intros q y w' E1 E2 Hy Hyu. by apply (HS q y).
Qed.

Lemma wlp_forking_files Q p np n : p <> np -> forall i w, fds_ok none_held [] [] [np] (w_st w) ->
  (forall y j, pt_procs (w_st w) !! np = Some y -> (i <= j < NOFILE)%nat -> pr_ofile y !! j = Some None) ->
  (forall w', fds_ok none_held [] [] [np] (w_st w') -> Q () w') -> wlp (fork_files n p np i) Q w.
Proof.
  intros Hne. induction n as [|n IH]; intros i w H Hc HQ; cbn [fork_files]; [by apply wlp_ret, HQ|].
  apply wlp_bind, wlp_bind, wlp_gets. destruct (pt_procs (w_st w) !! p) as [x|] eqn:Hx; [|done]. apply wlp_ret, wlp_bind.
  destruct (pr_ofile x !! i) as [[f|]|] eqn:Ho.
  2, 3: apply wlp_ret, IH; [done|intros y j Hy Hj; apply (Hc y j Hy); lia|done].
  apply wlp_bind. eapply wlp_env_filedup; [exact H|]. intros w1 H1 ET. apply wlp_assign. rewrite ET. intros y w2 Hy ET2 EF2 _.
  pose proof (lookup_lt_Some _ _ _ Ho) as Hi. rewrite (fo_length _ _ _ _ _ H p x Hx) in Hi.
  pose proof (cnt_pos _ _ _ Ho) as Hpos. pose proof (refs_cnt f _ _ _ Hx) as Hle. pose proof (Hc y i Hy ltac:(lia)) as Hn.
  apply IH; [| |done].
  - eapply fds_ext; [|eapply fds_set; [rewrite ET; exact Hy|exact Hn|rewrite ET; exact ET2|exact EF2| |exact H1]].
    + intros g. cbn. rewrite hit_some, hit_none. unfold upd, none_held. case_decide; lia.
    + intros g [= <-]. rewrite ET. split; [lia|]. split; [apply not_elem_of_nil|]. intros _. by left.
  - intros z j. rewrite ET2, list_lookup_insert_eq by (by eapply lookup_lt_Some). intros [= <-] Hj. cbn.
    rewrite list_lookup_insert_ne by lia. apply (Hc y j Hy). lia.
Qed.

(** The entry of a new process is left out until the process can run. *)
Lemma fds_except e X p (s : ps) : fds_ok e X [p] [] s -> fds_ok e X [] [p] s.
Proof.
  intros [H1 H2 H3]. split; [done|done|]. intros i x Hx [[Hd _]|Hi]; [|by apply not_elem_of_nil in Hi].
  apply (H3 i x Hx). left. split; [done|apply not_elem_of_nil].
Qed.
Lemma fds_start e X p x (s s' : ps) : pt_procs s !! p = Some x -> pt_procs s' = <[p := set_state RUNNABLE x]> (pt_procs s) -> ftab s' = ftab s ->
  fds_ok e X [] [p] s -> fds_ok e X [] [] s'.
Proof.
  intros Hx ET EF H. assert (H' : fds_ok e X [] [p] s').
  { eapply fds_proc; [exact Hx|exact ET|exact EF|done| |exact H]. intros _. right. right. by left. }
  destruct H' as [H1 H2 H3]. split; [done|done|]. intros i z Hz [[Hd _]|Hi]; [|by apply not_elem_of_nil in Hi].
  apply (H3 i z Hz). left. split; [done|]. intros ->%list_elem_of_singleton. rewrite ET, list_lookup_insert_eq in Hz by (by eapply lookup_lt_Some).
  injection Hz as <-. destruct Hd; discriminate.
Qed.

Lemma wlp_psafe_bind {A B} Em Ex (m : pm A) (k : A -> pm B) Q w : psafe Em Ex m -> fds_ok none_held [] Em Ex (w_st w) ->
  (forall a w', fds_ok none_held [] Em Ex (w_st w') -> wlp (k a) Q w') -> wlp (m ≫= k) Q w.
Proof. intros Hm H HQ. apply wlp_bind. eapply wlp_mono; [|exact (Hm w H)]. intros a w'. apply HQ. Qed.
Ltac step := eapply wlp_psafe_bind; [psafe|eassumption|intros ? ? ?].

(** What [allocproc_found] returns. *)
Lemma allocproc_found_result p w : wlp (allocproc_found (E := kenv S) p) (fun r _ => r = None \/ r = Some p) w.
Proof.
  assert (Hb : forall A B (m : pm A) (k : A -> pm B) (P : B -> Prop), (forall a w, wlp (k a) (fun b _ => P b) w) -> forall w, wlp (m ≫= k) (fun b _ => P b) w).
  { intros A B m k P Hk v. apply wlp_bind. unfold wlp at 1. destruct (m v); [apply Hk|done..]. }
  revert w. unfold allocproc_found. repeat (apply Hb; intros). case_match; repeat (apply Hb; intros); [by apply wlp_ret; left|].
  case_match; repeat (apply Hb; intros); apply wlp_ret; [by left|by right].
Qed.

(** The end of [fork], with the files in place. *)
Lemma wlp_fork_end p np x w : fds_ok none_held [] [] [np] (w_st w) ->
  wlp ((match pr_cwd x with
        | Some ip => ip' ← env (e_idup ip); passign np (set_pcwd (Some ip'))
        | None => ub "fork: cwd"
        end);;
       passign np (fun y => set_name (name_copy (pr_name y) (pr_name x)) y);;
       y ← pload np;
       let pid := pr_pid y in
       release (L_proc np);;
       acquire L_wait;;
       passign np (set_parent (Some p));;
       release L_wait;;
       acquire (L_proc np);;
       passign np (set_state RUNNABLE);;
       release (L_proc np);;
       mret pid) (fun _ w' => files_ok (w_st w')) w.
Proof.
  intros H. do 3 step. cbv zeta. do 5 step. apply wlp_bind, wlp_assign. intros z v Hz ET EF _. apply wlp_bind, wlp_release, wlp_ret.
  eapply fds_start; [exact Hz|exact ET|exact EF|assumption].
Qed.

Lemma wlp_forking w x : files_ok (w_st w) -> pt_procs (w_st w) !! my_idx (w_me w) = Some x -> ~ dead x ->
  wlp fork (fun _ w' => files_ok (w_st w')) w.
Proof.
  intros H Hx Hd. unfold fork. apply wlp_bind, wlp_mypid. set (p := my_idx (w_me w)) in *.
  unfold allocproc. apply wlp_bind, wlp_bind, wlp_find_unused_proc; [intros w1 E1 _; apply wlp_ret, wlp_ret; by rewrite E1|].
  intros q xq w1 E1 _ Hq Hu. assert (Hne : p <> q) by (intros <-; apply Hd; left; congruence).
  assert (H1 : fds_ok none_held [] [q] [] (w_st w1)).
  { rewrite E1. apply fds_more; [|exact H]. intros z Hz. apply (fo_closed _ _ _ _ _ H q z Hz). left. split; [left; congruence|apply not_elem_of_nil]. }
  assert (Hq1 : q ∈ [q]) by (by left).
  eapply (wlp_mono _ (fun r w' => (r = None \/ r = Some q) /\ fds_ok none_held [] [q] [] (w_st w'))).
  2:{ pose proof (psafe_allocproc_found _ [] _ Hq1 w1 H1) as A1. pose proof (allocproc_found_result q w1) as A2. unfold wlp in *.
      destruct (allocproc_found q w1); done. }
  clear H H1. intros r w2 [[->| ->] H2]; [by apply wlp_ret; eapply fds_less|].
  step. step. step. destruct (_ <? 0).
  { eapply (wlp_mono _ (fun _ w' => fds_ok none_held [] [q] [] (w_st w'))); [intros b v; apply fds_less|].
    assert (Hf : psafe [q] [] (freeproc q)) by (by apply psafe_freeproc). eapply wlp_psafe_bind; [exact Hf|eassumption|intros ? ? ?].
    step. by apply wlp_ret. }
  step. step. step. apply wlp_bind. apply wlp_forking_files; [done|by apply fds_except| |].
  - intros y j Hy Hj. match goal with K : fds_ok _ _ [q] _ _ |- _ => pose proof (fo_closed _ _ _ _ _ K q y Hy (or_intror Hq1)) as Hc; pose proof (fo_length _ _ _ _ _ K q y Hy) as Hl end.
    destruct (lookup_lt_is_Some_2 (pr_ofile y) j) as [o Ho]; [lia|]. by rewrite Ho, (closed_lookup _ _ _ Hc Ho).
  - intros v Hv. by apply wlp_fork_end.
Qed.

(** ** The system calls on files *)

(** A call that touches no descriptor, for the calling process. *)
Lemma still_ksys {A} (m : M (kst S phys) A) : still kfd m -> still pfd (ksys m).
Proof.
  intros Hm w. unfold ksys. apply wlp_bind, wlp_mypid, wlp_bind, wlp_bind, wlp_gets.
  destruct (pt_procs (w_st w) !! my_idx (w_me w)) as [x|] eqn:Hx; [|done]. apply wlp_ret. destruct (pr_cwd x) as [cwd|]; [|done].
  unfold wlp, zoom. cbv zeta.
  match goal with |- context [m ?v] => specialize (Hm v); unfold wlp in Hm; destruct (m v) as [a v'| | | |]; [|done..] end.
  cbn in Hm |- *. injection Hm as EF EO. unfold pfd, ftab. cbn. rewrite EF. f_equal.
  rewrite (list_alter_insert _ _ _ _ Hx). apply list_eq. intros i. change (map glance) with (fmap (M := list) glance). rewrite !list_lookup_fmap.
  destruct (decide (i = my_idx (w_me w))) as [->|Hne]; [|by rewrite list_lookup_insert_ne].
  rewrite list_lookup_insert_eq by (by eapply lookup_lt_Some). rewrite Hx. cbn. unfold glance. cbn. by rewrite EO.
Qed.

(** One that keeps the counts right. *)
Lemma wlp_ksys {A} (m : M (kst S phys) A) w x : ksafe NOFILE m -> files_ok (w_st w) -> pt_procs (w_st w) !! my_idx (w_me w) = Some x -> ~ dead x ->
  wlp (ksys m) (fun _ w' => files_ok (w_st w')) w.
Proof.
  intros Hm H Hx Hd. unfold ksys. apply wlp_bind, wlp_mypid, wlp_bind, wlp_bind, wlp_gets. rewrite Hx. apply wlp_ret.
  destruct (pr_cwd x) as [cwd|]; [|done]. pose proof (lookup_lt_Some _ _ _ Hx) as Hlt. destruct H as [H1 H2 H3].
  set (o := fun f => refs f (pt_procs (w_st w)) - cnt f (pr_ofile x)).
  unfold wlp, zoom. cbv zeta.
  match goal with |- context [m ?v] => specialize (Hm o v); unfold wlp in Hm; destruct (m v) as [a v'| | | |]; [|done..] end.
  assert (K : kok NOFILE o (fun _ => 0) [] (w_st v')).
  { apply Hm; [intros f; pose proof (refs_cnt f _ _ _ Hx); unfold o; lia|]. split; [|by eapply H2]. cbn.
    eapply counted_ext; [| |exact H1]; intros f; unfold o, none_held; cbn; lia. }
  destruct K as [K1 K2]. split; cbn; rewrite (list_alter_insert _ _ _ _ Hx).
  - unfold ftab. cbn. eapply counted_ext; [| |exact K1]; intros f; cbn; rewrite (refs_insert _ _ _ _ _ Hx); unfold o, none_held; cbn; lia.
  - intros i z. destruct (decide (i = my_idx (w_me w))) as [->|Hne]; [|rewrite list_lookup_insert_ne by done; apply H2].
    rewrite list_lookup_insert_eq by done. by intros [= <-].
  - intros i z. destruct (decide (i = my_idx (w_me w))) as [->|Hne]; [|rewrite list_lookup_insert_ne by done; apply H3].
    rewrite list_lookup_insert_eq by done. intros [= <-] [[Hdz _]|Hi]; [by destruct Hd|by apply not_elem_of_nil in Hi].
Qed.

(** ** All system calls *)

Abbreviation kn := (M (kern S)).
Abbreviation kfiles := (fun s : kern S => files_ok (kn_ps s)).

Lemma inv_kps {A} (m : pm A) : psafe [] [] m -> inv kfiles (kps m).
Proof. intros Hm. unfold kps. by apply inv_zoom. Qed.
Lemma inv_kern {A} (m : kn A) : still kn_ps m -> inv kfiles m.
Proof. apply inv_still. by intros s s' ->. Qed.

Lemma inv_sleep_round t0 n : inv kfiles (sleep_round t0 n).
Proof.
  unfold sleep_round. apply inv_bind; [apply inv_kern; still|]. intros t. destruct (_ <? _).
  - apply inv_bind; [apply inv_kps; psafe|]. intros p. apply inv_bind; [apply inv_kps; psafe|]. intros k. destruct (negb _).
    + apply inv_kern. still.
    + apply inv_bind; [apply inv_kps; psafe|]. intros _. apply inv_kern. still.
  - apply inv_kern. still.
Qed.
#[local] Hint Resolve still_ksys still_exec still_growproc : still.
Lemma inv_sys_sleep : inv kfiles sys_sleep.
Proof.
  unfold sys_sleep. apply inv_bind; [apply inv_kps; psafe|]. intros n. apply inv_bind; [apply inv_kern; still|]. intros _.
  apply inv_bind; [apply inv_kern; still|]. intros t0. apply inv_sleep_round.
Qed.
Lemma inv_sys_sleep_resume n t0 : inv kfiles (sys_sleep_resume n t0).
Proof. unfold sys_sleep_resume. apply inv_bind; [apply inv_kps; psafe|]. intros _. apply inv_sleep_round. Qed.
Lemma inv_sys_wait_resume p : inv kfiles (kps (sys_wait_resume p)).
Proof. apply inv_kps, psafe_pwait_resume. Qed.
Lemma inv_clockintr : inv kfiles clockintr.
Proof.
  unfold clockintr. do 2 (apply inv_bind; [apply inv_kern; still|]; intros _). apply inv_bind; [apply inv_kps; psafe|]. intros _.
  apply inv_kern. still.
Qed.

Lemma psafe_sys_exec : psafe [] [] (sys_exec (fun _ => ksys) exec).
Proof. unfold sys_exec. psafe. Qed.

(** The caller has a live entry. *)
Definition caller (w : world (kern S)) : Prop := exists x, pt_procs (kn_ps (w_st w)) !! my_idx (w_me w) = Some x /\ ~ dead x.

Definition call_ok {A} (m : kn A) : Prop :=
  forall v : world (kern S), kfiles (w_st v) -> caller v -> wlp m (fun _ v' => kfiles (w_st v')) v.

Lemma call_ret {A} (m : kn A) f : call_ok m -> call_ok (ret m f).
Proof. intros Hm v H Hc. unfold ret. apply wlp_bind. eapply wlp_mono; [|exact (Hm v H Hc)]. intros a v' H'. by apply wlp_ret. Qed.
Lemma call_kps {A} (m : pm A) :
  (forall w x, files_ok (w_st w) -> pt_procs (w_st w) !! my_idx (w_me w) = Some x -> ~ dead x -> wlp m (fun _ w' => files_ok (w_st w')) w) -> call_ok (kps m).
Proof.
  intros Hm v H (x & Hx & Hd). unfold kps, wlp, zoom. specialize (Hm (World (w_me v) (w_held v) (w_evs v) (kn_ps (w_st v))) x H Hx Hd).
  unfold wlp in Hm. by destruct (m _).
Qed.
Lemma call_inv {A} (m : kn A) : inv kfiles m -> call_ok m.
Proof. intros Hm v H _. exact (Hm v H). Qed.
Lemma call_still {A} (m : M (kst S phys) A) : still kfd m -> call_ok (kps (ksys m)).
Proof. intros Hm. by apply call_inv, inv_kps, psafe_still, still_ksys. Qed.
Lemma call_ksafe {A} (m : M (kst S phys) A) : ksafe NOFILE m -> call_ok (kps (ksys m)).
Proof. intros Hm. apply call_kps. intros w x H Hx Hd. by eapply wlp_ksys. Qed.

Variables (devs : Z -> devsw S phys) (pad name0 de0 : list Z).
Context {qd : QuietDevs devs}.

Lemma syscalls_ok num m : syscalls devs pad name0 de0 num = Some m -> call_ok m.
Proof using qd.
  unfold syscalls. repeat (destruct (num =? _); [intros [= <-]; apply call_ret|]); [..|done].
  - apply call_kps. intros w x H Hx Hd. by eapply wlp_forking.
  - apply call_inv, inv_kps. unfold sys_exit. apply psafe_bind; [psafe|]. intros n. apply psafe_pexit.
  - apply call_inv, inv_kps. unfold sys_wait. apply psafe_bind; [psafe|]. intros n. apply psafe_pwait.
  - apply call_ksafe, ksafe_sys_pipe.
  - by apply call_still, still_sys_read.
  - apply call_inv, inv_kps. unfold sys_kill. psafe.
  - apply call_inv, inv_kps, psafe_sys_exec.
  - apply call_still, still_sys_fstat.
  - apply call_still, still_sys_chdir.
  - apply call_ksafe, ksafe_sys_dup.
  - apply call_inv, inv_kps. unfold sys_getpid. psafe.
  - apply call_inv, inv_kps. unfold sys_sbrk. psafe.
  - apply call_inv, inv_sys_sleep.
  - apply call_inv, inv_kern. unfold sys_uptime. still.
  - apply call_ksafe, ksafe_sys_open.
  - by apply call_still, still_sys_write.
  - apply call_still, still_sys_mknod.
  - apply call_still, still_sys_unlink.
  - apply call_still, still_sys_link.
  - apply call_still, still_sys_mkdir.
  - apply call_ksafe, ksafe_sys_close.
Qed.

(** ** Reachable states *)

(** What happens between the moments at which no kernel code runs: a system
    call of a live process up to its return or its sleep; the rest of one after
    the sleep; a tick of the clock; a switch.  [mv_io] is the rest of a read or
    a write after its sleep on a pipe or a device: since the devices are
    arguments of the model, it allows any code that leaves the file table and
    the descriptors as they are, as those of the pipe do. *)
Inductive kmove (s s' : kern S) : Prop :=
| mv_syscall v v' r : w_st v = s -> w_st v' = s' -> caller v -> syscall devs pad name0 de0 v = Ok r v' -> kmove s s'
| mv_wait v v' p r : w_st v = s -> w_st v' = s' -> kps (sys_wait_resume p) v = Ok r v' -> kmove s s'
| mv_sleep v v' n t0 r : w_st v = s -> w_st v' = s' -> sys_sleep_resume n t0 v = Ok r v' -> kmove s s'
| mv_io v v' (m : M (kst S phys) segment) r : w_st v = s -> w_st v' = s' -> still kfd m -> kps (ksys m) v = Ok r v' -> kmove s s'
| mv_clock v v' r : w_st v = s -> w_st v' = s' -> clockintr v = Ok r v' -> kmove s s'
| mv_run v v' p r : w_st v = s -> w_st v' = s' -> kps (scheduler_try p) v = Ok r v' -> kmove s s'
| mv_yield v v' r : w_st v = s -> w_st v' = s' -> kps yield v = Ok r v' -> kmove s s'.

Lemma syscall_ok : call_ok (syscall devs pad name0 de0).
Proof using qd.
  intros v H Hc. unfold syscall. apply wlp_bind.
  eapply (wlp_mono _ (fun (_ : Z) (v' : world (kern S)) => w_st v' = w_st v /\ w_me v' = w_me v)).
  2:{ unfold wlp, kps, zoom, tf_load, mypid. cbv [mbind M_bind myproc mret M_ret pload gets]. cbn. destruct (_ !! _); cbn; [|done].
      split; [by destruct (w_st v)|done]. }
  intros a7 v1 [E1 E2]. cbv zeta. assert (H1 : kfiles (w_st v1)) by (by rewrite E1). assert (Hc1 : caller v1) by (unfold caller; by rewrite E1, E2).
  assert (Ha : forall r, inv kfiles (kps (set_a0 r))) by (intros r; apply inv_kps; unfold set_a0; psafe).
  match goal with |- wlp (match ?c with _ => _ end) _ _ => destruct c as [m|] eqn:Em end.
  - assert (Hm : call_ok m) by (destruct (_ >? _); [by eapply syscalls_ok|done]). apply wlp_bind. eapply wlp_mono; [|exact (Hm v1 H1 Hc1)].
    intros r v2 H2. apply (inv_bind kfiles); [|intros _; apply inv_kern; still|exact H2]. destruct r; [apply Ha|apply inv_kern; still..].
  - apply (inv_bind kfiles); [apply inv_kern; unfold printk; still| |exact H1]. intros _. apply inv_bind; [apply Ha|]. intros _. apply inv_kern. still.
Qed.

Lemma kmove_ok s s' : kmove s s' -> kfiles s -> kfiles s'.
Proof using qd.
  assert (Hinv : forall A (m : kn A) (v v' : world (kern S)) r, inv kfiles m -> m v = Ok r v' -> kfiles (w_st v) -> kfiles (w_st v')).
  { intros A m v v' r Hm Hr H. exact (wlp_elim _ _ _ _ _ (Hm v H) Hr). }
  intros [v v' r <- <- Hc Hr|v v' p r <- <- Hr|v v' n t0 r <- <- Hr|v v' m r <- <- Hm Hr|v v' r <- <- Hr|v v' p r <- <- Hr|v v' r <- <- Hr] H.
  - exact (wlp_elim _ _ _ _ _ (syscall_ok v H Hc) Hr).
  - eapply Hinv; [|exact Hr|exact H]. apply inv_sys_wait_resume.
  - eapply Hinv; [|exact Hr|exact H]. apply inv_sys_sleep_resume.
  - eapply Hinv; [|exact Hr|exact H]. by apply inv_kps, psafe_still, still_ksys.
  - eapply Hinv; [|exact Hr|exact H]. apply inv_clockintr.
  - eapply Hinv; [|exact Hr|exact H]. apply inv_kps; unfold scheduler_try; psafe.
  - eapply Hinv; [|exact Hr|exact H]. apply inv_kps; unfold yield; psafe.
Qed.

(** When the kernel starts nothing is open. *)
Definition boot_files (s : kern S) : Prop :=
  (forall f y, ftab (kn_ps s) !! f = Some y -> f_ref y = 0) /\
  (forall i x, pt_procs (kn_ps s) !! i = Some x -> pr_ofile x = repeat None NOFILE).

Lemma refs_boot T f : (forall i x, T !! i = Some x -> pr_ofile x = repeat None NOFILE) -> refs f T = 0.
Proof.
  induction T as [|x T IH]; intros H; [done|]. cbn [refs]. rewrite (H 0%nat x eq_refl), IH; [done|]. intros i y Hy. apply (H (Datatypes.S i) y Hy).
Qed.

Lemma boot_ok s : boot_files s -> kfiles s.
Proof.
  intros [H1 H2]. assert (Hr : forall f, refs f (pt_procs (kn_ps s)) = 0) by (intros f; by apply refs_boot). split.
  - split; cbn; [intros f y Hy; rewrite Hr; by apply H1 in Hy|]. intros f Hf. rewrite Hr in Hf. lia.
  - intros i x Hx. by rewrite (H2 i x Hx).
  - intros i x Hx _. unfold closed. rewrite (H2 i x Hx). by apply (bool_decide_unpack _).
Qed.

End calm.

(** ** Witness *)

Section ex.
#[local] Existing Instance ex_exec_symbols.
#[local] Existing Instance ex_text.

(** A process calls pipe when there is no free page: both files are opened, and
    closed again. *)
Definition ex_pipe_kern : kern bcache :=
  Kern (PSt (KEnv (en_fs (ex_kenv (Phys (fun a => if a =? tf_a7 then SYS_pipe else 0) 0))) ∅ (repeat (File FD_NONE 0 0 0 0 0 0 0) 2))
    (repeat ex_sleeper 4) 2 (Some 0%nat) 0) 7.
Definition ex_closed_devs (_ : Z) : devsw bcache phys := Devsw None None.
#[local] Instance ex_closed_devs_quiet : QuietDevs ex_closed_devs.
Proof. by split. Qed.

Lemma ex_pipe_boot : boot_files ex_pipe_kern.
Proof.
  split.
  - intros f y Hy. apply list_elem_of_lookup_2, list_elem_of_In, repeat_spec in Hy. by subst y.
  - intros i x Hx. apply list_elem_of_lookup_2, list_elem_of_In, repeat_spec in Hx. by subst x.
Qed.

End ex.
