(* ===== verification/Trap.v ===== *)
(** Control registers (kernel/riscv.h), the interrupt controller
    (kernel/plic.c), the entry of the kernel (kernel/start.c, kernel/main.c) and
    traps (kernel/trap.c). *)

From S2P Require Import Prelude KMonad Riscv Kalloc Vm UserMem Pipe Bytes Sleeplock BlockStore Log LogTx Bio Fs File Sysfile Printf Uart Console Virtio Proc Kernel Exec Syscall.

(** ** kernel/riscv.h: the registers of a hart

    [sstatus] and [mstatus] are separate registers here: start.c uses the
    one, the kernel the other. *)

Inductive csr :=
| C_mhartid | C_mstatus | C_mepc | C_sstatus | C_sip | C_sie | C_mie | C_sepc | C_medeleg | C_mideleg | C_stvec | C_mtvec | C_pmpcfg0 | C_pmpaddr0 | C_satp | C_mscratch | C_scause | C_stval | C_mcounteren | C_time | C_sp | C_tp | C_ra.

#[global] Instance csr_eq_dec : EqDecision csr.
Proof. solve_decision. Defined.

Definition hart : Type := csr -> Z.
Definition set_csr (c : csr) (v : Z) (h : hart) : hart := fun c' => if decide (c' = c) then v else h c'.

Abbreviation hm := (M hart).
Definition csrr (c : csr) : hm Z := gets (fun h => h c).
Definition csrw (c : csr) (v : Z) : hm () := modify (set_csr c (u64 v)).

Definition r_mhartid : hm Z := csrr C_mhartid.
Definition r_mstatus : hm Z := csrr C_mstatus.
Definition r_sstatus : hm Z := csrr C_sstatus.
Definition r_sip : hm Z := csrr C_sip.
Definition r_sie : hm Z := csrr C_sie.
Definition r_mie : hm Z := csrr C_mie.
Definition r_sepc : hm Z := csrr C_sepc.
Definition r_medeleg : hm Z := csrr C_medeleg.
Definition r_mideleg : hm Z := csrr C_mideleg.
Definition r_stvec : hm Z := csrr C_stvec.
Definition r_satp : hm Z := csrr C_satp.
Definition r_scause : hm Z := csrr C_scause.
Definition r_stval : hm Z := csrr C_stval.
Definition r_mcounteren : hm Z := csrr C_mcounteren.
Definition r_time : hm Z := csrr C_time.
Definition r_sp : hm Z := csrr C_sp.
Definition r_tp : hm Z := csrr C_tp.
Definition r_ra : hm Z := csrr C_ra.
Definition w_mstatus (x : Z) : hm () := csrw C_mstatus x.
Definition w_mepc (x : Z) : hm () := csrw C_mepc x.
Definition w_sstatus (x : Z) : hm () := csrw C_sstatus x.
Definition w_sip (x : Z) : hm () := csrw C_sip x.
Definition w_sie (x : Z) : hm () := csrw C_sie x.
Definition w_mie (x : Z) : hm () := csrw C_mie x.
Definition w_sepc (x : Z) : hm () := csrw C_sepc x.
Definition w_medeleg (x : Z) : hm () := csrw C_medeleg x.
Definition w_mideleg (x : Z) : hm () := csrw C_mideleg x.
Definition w_stvec (x : Z) : hm () := csrw C_stvec x.
Definition w_mtvec (x : Z) : hm () := csrw C_mtvec x.
Definition w_pmpcfg0 (x : Z) : hm () := csrw C_pmpcfg0 x.
Definition w_pmpaddr0 (x : Z) : hm () := csrw C_pmpaddr0 x.
Definition w_satp (x : Z) : hm () := csrw C_satp x.
Definition w_mscratch (x : Z) : hm () := csrw C_mscratch x.
Definition w_mcounteren (x : Z) : hm () := csrw C_mcounteren x.
Definition w_tp (x : Z) : hm () := csrw C_tp x.

Definition MSTATUS_MPP_MASK : Z := Z.shiftl 3 11.
Definition MSTATUS_MPP_S : Z := Z.shiftl 1 11.
Definition MSTATUS_MIE : Z := Z.shiftl 1 3.
Definition SSTATUS_SPP : Z := Z.shiftl 1 8.
Definition SSTATUS_SPIE : Z := Z.shiftl 1 5.
Definition SSTATUS_SIE : Z := Z.shiftl 1 1.
Definition SIE_SEIE : Z := Z.shiftl 1 9.
Definition SIE_STIE : Z := Z.shiftl 1 5.
Definition SIE_SSIE : Z := Z.shiftl 1 1.
Definition MIE_MTIE : Z := Z.shiftl 1 7.

Definition intr_on : hm () := x ← r_sstatus; w_sstatus (Z.lor x SSTATUS_SIE).
Definition intr_off : hm () := x ← r_sstatus; w_sstatus (Z.land x (Z.lnot SSTATUS_SIE)).
Definition intr_get : hm bool := x ← r_sstatus; mret (negb (Z.land x SSTATUS_SIE =? 0)).

(** kernel/proc.c *)
Definition cpuid : hm Z := id ← r_tp; mret (i32 id).

(** kernel/vm.c: [kernel_pagetable] is made, and used by each hart. *)
Definition kvminit {sy : Symbols} : M phys Z := kvmmake.
Definition kvminithart (kernel_pagetable : Z) : hm () := w_satp (MAKE_SATP kernel_pagetable).

(** ** kernel/start.c *)

(** The addresses of [main], [timervec] and [timer_scratch]. *)
Class BootSyms := { sym_main : Z; sym_timervec : Z; sym_timer_scratch : Z }.

Definition CLINT : Z := 0x2000000.
Definition CLINT_MTIMECMP (hartid : Z) : Z := CLINT + 0x4000 + 8 * hartid.
Definition CLINT_MTIME : Z := CLINT + 0xBFF8.

Section start.
Context {bs : BootSyms}.

(** A hart with the memory it sees, the timer of the CLINT included. *)
Abbreviation sm := (M (hart * memory)).
Definition on_hart {A} (m : hm A) : sm A := zoom fst (fun s h => (h, snd s)) m.
Definition load_at (a : Z) : sm Z := gets (fun s => load64 (snd s) a).
Definition store_at (a v : Z) : sm () := modify (fun s => (fst s, store64 (snd s) a (u64 v))).

Definition timerinit : sm () :=
  x ← on_hart r_mhartid;
  let id := i32 x in
  let interval := 1000000 in
  t ← load_at CLINT_MTIME;
  store_at (CLINT_MTIMECMP id) (t + interval);;
  let scratch := sym_timer_scratch + 40 * id in
  store_at (scratch + 24) (CLINT_MTIMECMP id);;
  store_at (scratch + 32) interval;;
  on_hart (w_mscratch scratch);;
  on_hart (w_mtvec sym_timervec);;
  x ← on_hart r_mstatus;
  on_hart (w_mstatus (Z.lor x MSTATUS_MIE));;
  x ← on_hart r_mie;
  on_hart (w_mie (Z.lor x MIE_MTIE)).

(** [start], up to the instruction [mret]. *)
Definition start : sm () :=
  x ← on_hart r_mstatus;
  let x := Z.land x (Z.lnot MSTATUS_MPP_MASK) in
  let x := Z.lor x MSTATUS_MPP_S in
  on_hart (w_mstatus x);;
  on_hart (w_mepc sym_main);;
  on_hart (w_satp 0);;
  on_hart (w_medeleg 0xffff);;
  on_hart (w_mideleg 0xffff);;
  x ← on_hart r_sie;
  on_hart (w_sie (Z.lor (Z.lor (Z.lor x SIE_SEIE) SIE_STIE) SIE_SSIE));;
  on_hart (w_pmpaddr0 0x3fffffffffffff);;
  on_hart (w_pmpcfg0 0xf);;
  timerinit;;
  id ← on_hart r_mhartid;
  on_hart (w_tp (i32 id)).
End start.

(** ** kernel/plic.c *)

Definition UART0_IRQ : Z := 10.
Definition VIRTIO0_IRQ : Z := 1.
Definition PLIC_SENABLE (hart : Z) : Z := PLIC + 0x2080 + hart * 0x100.
Definition PLIC_SPRIORITY (hart : Z) : Z := PLIC + 0x201000 + hart * 0x2000.
Definition PLIC_SCLAIM (hart : Z) : Z := PLIC + 0x201004 + hart * 0x2000.

(** The controller: 32-bit registers whose reads and writes have effects. *)
Class PlicDev (P : Type) := {
  plic_read : Z -> P -> Z * P;
  plic_write : Z -> Z -> P -> P }.

(** The documented behaviour of its claim registers: the interrupts a hart has
    claimed and not completed are in service. *)
Class PlicLaws (P : Type) {pdev : PlicDev P} := {
  in_service : P -> Z -> gset Z;
  claim_range h d : 0 <= fst (plic_read (PLIC_SCLAIM h) d) < 1024;
  claim_none h d : fst (plic_read (PLIC_SCLAIM h) d) = 0 -> forall h', in_service (snd (plic_read (PLIC_SCLAIM h) d)) h' = in_service d h';
  claim_some h d irq : fst (plic_read (PLIC_SCLAIM h) d) = irq -> irq <> 0 -> (irq ∉ in_service d h) /\
    forall h', in_service (snd (plic_read (PLIC_SCLAIM h) d)) h' = if decide (h' = h) then {[irq]} ∪ in_service d h else in_service d h';
  complete h d irq h' : in_service (plic_write (PLIC_SCLAIM h) irq d) h' = if decide (h' = h) then in_service d h ∖ {[irq]} else in_service d h' }.

Section plic.
Context {P : Type} {pdev : PlicDev P}.
Abbreviation lm := (M (hart * P)).
Definition at_cpu {A} (m : hm A) : lm A := zoom fst (fun s h => (h, snd s)) m.
Definition plic_get (a : Z) : lm Z := s ← get; let '(x, d) := plic_read a (snd s) in put (fst s, d);; mret (u32 x).
Definition plic_put (a v : Z) : lm () := modify (fun s => (fst s, plic_write a (u32 v) (snd s))).

Definition plicinit : lm () :=
  plic_put (PLIC + UART0_IRQ * 4) 1;;
  plic_put (PLIC + VIRTIO0_IRQ * 4) 1.

Definition plicinithart : lm () :=
  hart ← at_cpu cpuid;
  plic_put (PLIC_SENABLE hart) (Z.lor (Z.shiftl 1 UART0_IRQ) (Z.shiftl 1 VIRTIO0_IRQ));;
  plic_put (PLIC_SPRIORITY hart) 0.

Definition plic_claim : lm Z :=
  hart ← at_cpu cpuid;
  irq ← plic_get (PLIC_SCLAIM hart);
  mret (i32 irq).

Definition plic_complete (irq : Z) : lm () :=
  hart ← at_cpu cpuid;
  plic_put (PLIC_SCLAIM hart) irq.
End plic.

(** ** kernel/trap.c *)

(** The kernel with its devices and one hart.  The buffers the disk driver
    transfers are a component of their own: the file system is above the
    interface of the buffer cache.  In a handler [my_idx] is [NPROC] when the
    hart runs no process. *)
Record mach (S D V P : Type) := Mach {
  ma_kern : kern S;
  ma_cons : cons_t;
  ma_uart : uart D;
  ma_disk : vdisk;
  ma_bufs : list vbuf;
  ma_vdev : V;
  ma_plic : P;
  ma_hart : hart }.
Arguments Mach {S D V P} _ _ _ _ _ _ _ _.
Arguments ma_kern {S D V P} _.
Arguments ma_cons {S D V P} _.
Arguments ma_uart {S D V P} _.
Arguments ma_disk {S D V P} _.
Arguments ma_bufs {S D V P} _.
Arguments ma_vdev {S D V P} _.
Arguments ma_plic {S D V P} _.
Arguments ma_hart {S D V P} _.

(** How the handling of a trap ends: in user space with the page table
    [satp], asleep in a system call, never, or off the CPU. *)
Inductive trapres :=
| ToUser (satp : Z)
| TrapSleep (c : wchan) (i : Z)
| TrapExit
| TrapYield.

Section trap.
Context {sy : Symbols} {ts : TextSyms} {S : Type} {ops : BlockOps S}.
Context {D V P : Type} {udev : UartDev D} {vdev : VirtioDev V} {pdev : PlicDev P}.
Abbreviation st := (mach S D V P).
Abbreviation mm := (M st).

Definition mk {A} (m : M (kern S) A) : mm A :=
  zoom ma_kern (fun s k => Mach k (ma_cons s) (ma_uart s) (ma_disk s) (ma_bufs s) (ma_vdev s) (ma_plic s) (ma_hart s)) m.
Definition mps {A} (m : M (pst (kenv S)) A) : mm A := mk (kps m).
Definition mh {A} (m : hm A) : mm A :=
  zoom ma_hart (fun s h => Mach (ma_kern s) (ma_cons s) (ma_uart s) (ma_disk s) (ma_bufs s) (ma_vdev s) (ma_plic s) h) m.
Definition mplic {A} (m : M (hart * P) A) : mm A :=
  zoom (fun s => (ma_hart s, ma_plic s))
    (fun s x => Mach (ma_kern s) (ma_cons s) (ma_uart s) (ma_disk s) (ma_bufs s) (ma_vdev s) (snd x) (fst x)) m.

(** The memory the devices' drivers see. *)
Definition ma_phys (s : st) : phys := en_mem (pt_env (kn_ps (ma_kern s))).
Definition with_phys (m : phys) (k : kern S) : kern S :=
  let ps := kn_ps k in
  Kern (PSt (en_set_mem (pt_env ps) m) (pt_procs ps) (pt_nextpid ps) (pt_initproc ps) (pt_first ps)) (kn_ticks k).
Definition mcons {A} (m : M (const D phys) A) : mm A :=
  zoom (fun s => ConsSt (ma_cons s) (ma_uart s) (ma_phys s))
    (fun s x => Mach (with_phys (cs_mem x) (ma_kern s)) (cs_cons x) (cs_uart x) (ma_disk s) (ma_bufs s) (ma_vdev s) (ma_plic s) (ma_hart s)) m.
Definition mdisk {A} (m : M (vst V) A) : mm A :=
  zoom (fun s => Vst (ma_disk s) (ma_bufs s) (ma_vdev s) (ma_phys s))
    (fun s x => Mach (with_phys (v_phys x) (ma_kern s)) (ma_cons s) (ma_uart s) (v_disk x) (v_bufs x) (v_dev x) (ma_plic s) (ma_hart s)) m.

(** The wakeups among the events [l], on the process table. *)
Fixpoint wake_all (l : list event) : mm () :=
  match l with
  | [] => mret ()
  | EvWakeup c :: l => mps (pwakeup (Some c));; wake_all l
  | EvPrint _ :: l => wake_all l
  end.

(** A handler of a device with the wakeups it issues. *)
Definition waking (m : mm ()) : mm () := fun w =>
  mbind (M := M st) (fun _ w' => wake_all (drop (length (w_evs w)) (w_evs w')) w') m w.

Definition trapinit : mm () := mret ().
Definition trapinithart : mm () := mh (w_stvec sym_kernelvec).

Definition devintr (dump : list Z) : mm Z :=
  scause ← mh r_scause;
  if negb (Z.land scause 0x8000000000000000 =? 0) && (Z.land scause 0xff =? 9) then
    irq ← mplic plic_claim;
    (if irq =? UART0_IRQ then waking (mcons (uartintr dump))
     else if irq =? VIRTIO0_IRQ then waking (mdisk virtio_disk_intr)
     else if negb (irq =? 0) then printk "unexpected interrupt irq"
     else mret ());;
    (if negb (irq =? 0) then mplic (plic_complete irq) else mret ());;
    mret 1
  else if scause =? 0x8000000000000001 then
    id ← mh cpuid;
    (if id =? 0 then mk clockintr else mret ());;
    sip ← mh r_sip;
    mh (w_sip (Z.land sip (Z.lnot 2)));;
    mret 2
  else mret 0.

(** [usertrapret], which jumps to [userret] with the value returned. *)
Definition usertrapret : mm Z :=
  p ← mps mypid;
  x ← mps (pload p);
  mh intr_off;;
  let trampoline_uservec := TRAMPOLINE + (sym_uservec - sym_trampoline) in
  mh (w_stvec trampoline_uservec);;
  satp ← mh r_satp;
  mps (tf_store (pr_trapframe x) tf_kernel_satp satp);;
  mps (tf_store (pr_trapframe x) tf_kernel_sp (u64 (pr_kstack x + PGSIZE)));;
  mps (tf_store (pr_trapframe x) tf_kernel_trap sym_usertrap);;
  tp ← mh r_tp;
  mps (tf_store (pr_trapframe x) tf_kernel_hartid tp);;
  v ← mh r_sstatus;
  let v := Z.land v (Z.lnot SSTATUS_SPP) in
  let v := Z.lor v SSTATUS_SPIE in
  mh (w_sstatus v);;
  epc ← mps (tf_load tf_epc);
  mh (w_sepc epc);;
  mret (MAKE_SATP (pr_pagetable x)).

(** [usertrap] once the trap has been dealt with, and after its [yield]. *)
Definition usertrap_end (which_dev : Z) : mm trapres :=
  p ← mps mypid;
  k ← mps (pkilled p);
  if negb (k =? 0) then mps (pexit (-1));; mret TrapExit
  else if which_dev =? 2 then mps yield;; mret TrapYield
  else satp ← usertrapret; mret (ToUser satp).
Definition usertrap_resume : mm trapres :=
  mps yield_resume;;
  satp ← usertrapret;
  mret (ToUser satp).

(** A system call that slept goes on as [m], and returns through [syscall]
    and [usertrap]. *)
Definition usertrap_syscall_resume (m : M (kern S) segment) : mm trapres :=
  r ← mk m;
  match r with
  | Returned v => mps (set_a0 v);; usertrap_end 0
  | Slept c i => mret (TrapSleep c i)
  end.

(** The text [consoleintr] prints for ^P, the device table, the padding of a
    [struct stat] and the buffers on the stack. *)
Variables (dump : list Z) (devs : Z -> devsw S phys) (pad name0 de0 : list Z).

Definition usertrap : mm trapres :=
  v ← mh r_sstatus;
  if negb (Z.land v SSTATUS_SPP =? 0) then panic "usertrap: not from user mode"
  else
    mh (w_stvec sym_kernelvec);;
    p ← mps mypid;
    x ← mps (pload p);
    sepc ← mh r_sepc;
    mps (tf_store (pr_trapframe x) tf_epc sepc);;
    scause ← mh r_scause;
    if scause =? 8 then
      k ← mps (pkilled p);
      if negb (k =? 0) then mps (pexit (-1));; mret TrapExit
      else
        epc ← mps (tf_load tf_epc);
        mps (tf_store (pr_trapframe x) tf_epc (u64 (epc + 4)));;
        mh intr_on;;
        r ← mk (syscall devs pad name0 de0);
        match r with
        | SysRet _ => usertrap_end 0
        | SysSleep c i => mret (TrapSleep c i)
        | SysExit => mret TrapExit
        end
    else
      which_dev ← devintr dump;
      (if negb (which_dev =? 0) then mret ()
       else
         printk "usertrap(): unexpected scause";;
         printk "            sepc stval";;
         mps (setkilled p));;
      usertrap_end which_dev.

(** [kerneltrap]: when it gives up the CPU, the values it saved, with which
    [kerneltrap_resume] continues. *)
Definition kerneltrap_end (sepc sstatus : Z) : mm () :=
  mh (w_sepc sepc);;
  mh (w_sstatus sstatus).
Definition kerneltrap : mm (option (Z * Z)) :=
  sepc ← mh r_sepc;
  sstatus ← mh r_sstatus;
  scause ← mh r_scause;
  if Z.land sstatus SSTATUS_SPP =? 0 then panic "kerneltrap: not from supervisor mode"
  else
    i ← mh intr_get;
    if (i : bool) then panic "kerneltrap: interrupts enabled"
    else
      which_dev ← devintr dump;
      if which_dev =? 0 then
        printk "scause";;
        printk "sepc= stval=";;
        panic "kerneltrap"
      else
        p ← mps mypid;
        y ← (if (which_dev =? 2) && (p <? NPROC)%nat then x ← mps (pload p); mret (bool_decide (pr_state x = RUNNING))
             else mret false);
        if (y : bool) then mps yield;; mret (Some (sepc, sstatus))
        else kerneltrap_end sepc sstatus;; mret None.
Definition kerneltrap_resume (sepc sstatus : Z) : mm () :=
  mps yield_resume;;
  kerneltrap_end sepc sstatus.
End trap.

(** ** kernel/main.c *)

(** The machine with [pr.locking], [kernel_pagetable] and [started]. *)
Record boot (D V P : Type) := Boot {
  bo_mach : mach bcache D V P;
  bo_locking : Z;
  bo_kpgtbl : Z;
  bo_started : Z }.
Arguments Boot {D V P} _ _ _ _.
Arguments bo_mach {D V P} _.
Arguments bo_locking {D V P} _.
Arguments bo_kpgtbl {D V P} _.
Arguments bo_started {D V P} _.

Section main.
Context {sy : Symbols} {ts : TextSyms}.
Context {D V P : Type} {udev : UartDev D} {vdev : VirtioDev V} {pdev : PlicDev P}.
Abbreviation bm := (M (boot D V P)).

Definition bmach {A} (m : M (mach bcache D V P) A) : bm A :=
  zoom bo_mach (fun s x => Boot x (bo_locking s) (bo_kpgtbl s) (bo_started s)) m.
Definition bprintf (m : M (prst D phys) ()) : bm () :=
  zoom (fun s => PrSt (ConsSt (ma_cons (bo_mach s)) (ma_uart (bo_mach s)) (ma_phys (bo_mach s))) (bo_locking s))
    (fun s x =>
      let k := bo_mach s in let c := pr_console x in
      Boot (Mach (with_phys (cs_mem c) (ma_kern k)) (cs_cons c) (cs_uart c) (ma_disk k) (ma_bufs k) (ma_vdev k) (ma_plic k) (ma_hart k))
        (pr_locking x) (bo_kpgtbl s) (bo_started s)) m.
Definition bmem {A} (m : M phys A) : bm A := bmach (mps (emem m)).
Definition bfs {A} (m : M (fsst (logst bcache) phys) A) : bm A := bmach (mps (env (efs m))).
Definition bbio {A} (m : M bcache A) : bm A :=
  bfs (zoom (fun s => l_bio (f_tx s)) (fun s x => FsSt (LogSt x (l_log (f_tx s))) (f_sb s) (f_itable s) (f_mem s)) m).

(** [main] up to the call of [scheduler]; [fileinit] initialises a lock. *)
Definition kmain : bm () :=
  id ← bmach (mh cpuid);
  if id =? 0 then
    bmach (mcons consoleinit);;
    bprintf printfinit;;
    bprintf (kprintf (Some [10]) []);;
    bprintf (kprintf (Some (text_line "xv6 kernel is booting")) []);;
    bprintf (kprintf (Some [10]) []);;
    bmem kinit;;
    kpt ← bmem kvminit;
    modify (fun s => Boot (bo_mach s) (bo_locking s) kpt (bo_started s));;
    bmach (mh (kvminithart kpt));;
    bmach (mps procinit);;
    bmach trapinit;;
    bmach trapinithart;;
    bmach (mplic plicinit);;
    bmach (mplic plicinithart);;
    bbio binit;;
    bfs iinit;;
    bmach (mdisk virtio_disk_init);;
    bmach (mps userinit);;
    modify (fun s => Boot (bo_mach s) (bo_locking s) (bo_kpgtbl s) 1)
  else
    s ← get;
    if bo_started s =? 0 then spin "main: started"
    else
      bprintf (kprintf (Some (text_line "hart %d starting")) [VWord id]);;
      bmach (mh (kvminithart (bo_kpgtbl s)));;
      bmach trapinithart;;
      bmach (mplic plicinithart).
End main.
