(* ===== verification/TrapProps.v ===== *)
(** Theorems about traps: what a trap from user space and from the kernel
    leaves behind, and that interrupts are completed. *)

From S2P Require Import Prelude KMonad Riscv Kalloc Vm UserMem Pipe Bytes Sleeplock BlockStore Log LogTx Bio Fs File Sysfile Ulib Printf Uart Console ConsoleSpec ConsoleProps Virtio Proc ProcSpec ProcProps Kernel Exec VmSpace VmImage ExecSpec ExecProps Syscall SyscallProps Trap.

Section props.
Context {sy : Symbols} {ts : TextSyms} {S : Type} {ops : BlockOps S}.
Context {D V P : Type} {udev : UartDev D} {vdev : VirtioDev V} {pdev : PlicDev P}.
Abbreviation st := (mach S D V P).
Abbreviation mm := (M st).
Implicit Types (w : world st) (s : st) (x : proc).

(** ** The parts of the machine *)

Definition ma_procs s : list proc := pt_procs (kn_ps (ma_kern s)).
Definition ma_mem s : memory := p_mem (ma_phys s).
Definition set_kern (k : kern S) s : st :=
  Mach k (ma_cons s) (ma_uart s) (ma_disk s) (ma_bufs s) (ma_vdev s) (ma_plic s) (ma_hart s).
Definition set_hart (h : hart) s : st :=
  Mach (ma_kern s) (ma_cons s) (ma_uart s) (ma_disk s) (ma_bufs s) (ma_vdev s) (ma_plic s) h.
(** A store of the kernel. *)
Definition poke (a v : Z) s : st := set_kern (with_phys (upd_mem (fun m => store64 m a v) (ma_phys s)) (ma_kern s)) s.
Definition set_procs (T : list proc) s : st := set_kern (kn_set_procs T (ma_kern s)) s.

Lemma wp_mh {A} (m : hm A) Q w :
  wp m (fun a (w' : world hart) => Q a (World (w_me w') (w_held w') (w_evs w') (set_hart (w_st w') (w_st w)))) (World (w_me w) (w_held w) (w_evs w) (ma_hart (w_st w))) ->
  wp (mh m) Q w.
Proof. intros H. by apply wp_zoom. Qed.
Lemma wp_csrr c (Q : Z -> world st -> Prop) w : Q (ma_hart (w_st w) c) w -> wp (mh (csrr c)) Q w.
Proof. intros H. apply wp_mh, wp_gets. by destruct w as [? ? ? []]. Qed.
Lemma wp_csrw c v (Q : () -> world st -> Prop) w :
  Q () (set_st (set_hart (set_csr c (u64 v) (ma_hart (w_st w))) (w_st w)) w) -> wp (mh (csrw c v)) Q w.
Proof. intros H. by apply wp_mh, wp_modify. Qed.
Lemma wp_cpuid (Q : Z -> world st -> Prop) w : Q (i32 (ma_hart (w_st w) C_tp)) w -> wp (mh cpuid) Q w.
Proof. intros H. apply wp_mh, wp_bind, wp_gets, wp_ret. by destruct w as [? ? ? []]. Qed.
Lemma wp_intr_get (Q : bool -> world st -> Prop) w : Q (negb (Z.land (ma_hart (w_st w) C_sstatus) SSTATUS_SIE =? 0)) w -> wp (mh intr_get) Q w.
Proof. intros H. apply wp_mh, wp_bind, wp_gets, wp_ret. by destruct w as [? ? ? []]. Qed.
Lemma wp_mps {A} (m : M (pst (kenv S)) A) Q w :
  wp m (fun a (w' : world (pst (kenv S))) => Q a (World (w_me w') (w_held w') (w_evs w') (set_kern (Kern (w_st w') (kn_ticks (ma_kern (w_st w)))) (w_st w))))
    (World (w_me w) (w_held w) (w_evs w) (kn_ps (ma_kern (w_st w)))) -> wp (mps m) Q w.
Proof. intros H. by apply wp_zoom, wp_zoom. Qed.
Lemma wp_mps_pid (Q : nat -> world st -> Prop) w : Q (my_idx (w_me w)) w -> wp (mps mypid) Q w.
Proof. intros H. apply wp_mps, wp_bind, wp_myproc, wp_ret. by destruct w as [? ? ? [[]]]. Qed.
Lemma wp_mps_pload p x (Q : proc -> world st -> Prop) w : ma_procs (w_st w) !! p = Some x -> Q x w -> wp (mps (pload p)) Q w.
Proof. intros Hx H. eapply wp_mps, wp_pload; [exact Hx|]. by destruct w as [? ? ? [[]]]. Qed.
Lemma wp_mps_tf_store tf off v (Q : () -> world st -> Prop) w :
  Q () (set_st (poke (tf + off) v (w_st w)) w) -> wp (mps (tf_store tf off v)) Q w.
Proof. intros H. by apply wp_mps, wp_zoom, wp_zoom, wp_modify. Qed.
Lemma wp_mps_tf_load x off (Q : Z -> world st -> Prop) w : ma_procs (w_st w) !! my_idx (w_me w) = Some x ->
  Q (load64 (ma_mem (w_st w)) (pr_trapframe x + off)) w -> wp (mps (tf_load off)) Q w.
Proof.
  intros Hx H. apply wp_mps. unfold tf_load. apply wp_bind, wp_bind, wp_myproc, wp_ret. eapply wp_bind, wp_pload; [exact Hx|].
  apply wp_gets. by destruct w as [? ? ? [[]]].
Qed.
Lemma wp_mps_pkilled p x (Q : Z -> world st -> Prop) w : L_proc p ∉ w_held w -> ma_procs (w_st w) !! p = Some x ->
  Q (pr_killed x) w -> wp (mps (pkilled p)) Q w.
Proof.
  intros Hl Hx H. apply wp_mps. unfold pkilled. apply wp_bind, wp_acquire; [done|]. eapply wp_bind, wp_pload; [exact Hx|].
  eapply wp_bind, wp_release; [done|done|]. apply wp_ret. by destruct w as [? ? ? [[]]].
Qed.

(** What [usertrapret] leaves for [userret] and the instruction [sret], and
    for the next trap. *)
Record user_ready s x s' : Prop := {
  ur_spp : Z.testbit (ma_hart s' C_sstatus) 8 = false;
  ur_spie : Z.testbit (ma_hart s' C_sstatus) 5 = true;
  ur_sie : Z.testbit (ma_hart s' C_sstatus) 1 = false;
  ur_stvec : ma_hart s' C_stvec = u64 (TRAMPOLINE + (sym_uservec - sym_trampoline));
  ur_sepc : ma_hart s' C_sepc = load64 (ma_mem s) (pr_trapframe x + tf_epc);
  ur_csr c : c ∉ [C_sstatus; C_stvec; C_sepc] -> ma_hart s' c = ma_hart s c;
  ur_satp : load64 (ma_mem s') (pr_trapframe x + tf_kernel_satp) = u64 (ma_hart s C_satp);
  ur_sp : load64 (ma_mem s') (pr_trapframe x + tf_kernel_sp) = u64 (pr_kstack x + PGSIZE);
  ur_trap : load64 (ma_mem s') (pr_trapframe x + tf_kernel_trap) = u64 sym_usertrap;
  ur_hartid : load64 (ma_mem s') (pr_trapframe x + tf_kernel_hartid) = u64 (ma_hart s C_tp);
  ur_mem a : a < pr_trapframe x \/ pr_trapframe x + 24 <= a < pr_trapframe x + 32 \/ pr_trapframe x + 40 <= a -> rd (ma_mem s') a = rd (ma_mem s) a;
  ur_rest : exists m, s' = set_hart (ma_hart s') (set_kern (with_phys (Phys m (p_freelist (ma_phys s))) (ma_kern s)) s) }.

Lemma load64_store64_u64 m a v : load64 (store64 m a v) a = u64 v.
Proof. unfold load64, store64. change 8 with (Z.of_nat 8) at 1. apply load_store_le. Qed.

Lemma u64_u64 v : u64 (u64 v) = u64 v.
Proof. unfold u64. by rewrite Zmod_mod. Qed.

Lemma u64_land v k : 0 <= v < 2 ^ 64 -> u64 (Z.land v k) = Z.land v k.
Proof.
  intros Hv. unfold u64. rewrite <- Z.land_ones by lia. rewrite <- Z.land_assoc, (Z.land_comm k), Z.land_assoc, Z.land_ones by lia.
  by rewrite Z.mod_small by lia.
Qed.

Lemma testbit_u64 v n : 0 <= n < 64 -> Z.testbit (u64 v) n = Z.testbit v n.
Proof. intros H. unfold u64. rewrite Z.mod_pow2_bits_low by lia. done. Qed.

Lemma set_csr_eq c v h : set_csr c v h c = v.
Proof. unfold set_csr. by rewrite decide_True. Qed.
Lemma set_csr_ne c c' v h : c' <> c -> set_csr c v h c' = h c'.
Proof. intros. unfold set_csr. by rewrite decide_False. Qed.

(** The state [usertrapret] leaves. *)
Definition hart_ret (epc : Z) (h : hart) : hart :=
  set_csr C_sepc (u64 epc) (set_csr C_sstatus (u64 (Z.lor (Z.land (u64 (Z.land (h C_sstatus) (Z.lnot SSTATUS_SIE))) (Z.lnot SSTATUS_SPP)) SSTATUS_SPIE))
    (set_csr C_stvec (u64 (TRAMPOLINE + (sym_uservec - sym_trampoline))) (set_csr C_sstatus (u64 (Z.land (h C_sstatus) (Z.lnot SSTATUS_SIE))) h))).
Definition tf_ret x (h : hart) (m : memory) : memory :=
  let tf := pr_trapframe x in
  store64 (store64 (store64 (store64 m (tf + tf_kernel_satp) (h C_satp)) (tf + tf_kernel_sp) (u64 (pr_kstack x + PGSIZE)))
    (tf + tf_kernel_trap) sym_usertrap) (tf + tf_kernel_hartid) (h C_tp).
Definition user_state x s : st :=
  set_hart (hart_ret (load64 (tf_ret x (ma_hart s) (ma_mem s)) (pr_trapframe x + tf_epc)) (ma_hart s))
    (set_kern (with_phys (upd_mem (tf_ret x (ma_hart s)) (ma_phys s)) (ma_kern s)) s).

Lemma wp_usertrapret x (Q : Z -> world st -> Prop) w : ma_procs (w_st w) !! my_idx (w_me w) = Some x ->
  Q (MAKE_SATP (pr_pagetable x)) (set_st (user_state x (w_st w)) w) -> wp usertrapret Q w.
Proof.
  intros Hx HQ. unfold usertrapret. apply wp_bind, wp_mps_pid. eapply wp_bind, wp_mps_pload; [exact Hx|].
  apply wp_bind, wp_mh, wp_bind, wp_gets, wp_modify.
  apply wp_bind, wp_csrw, wp_bind, wp_csrr, wp_bind, wp_mps_tf_store, wp_bind, wp_mps_tf_store, wp_bind, wp_mps_tf_store, wp_bind, wp_csrr,
    wp_bind, wp_mps_tf_store, wp_bind, wp_csrr, wp_bind, wp_csrw. eapply wp_bind, wp_mps_tf_load; [exact Hx|].
  apply wp_bind, wp_csrw, wp_ret. exact HQ.
Qed.

Lemma rd_tf_ret x h m a : a < pr_trapframe x \/ pr_trapframe x + 24 <= a < pr_trapframe x + 32 \/ pr_trapframe x + 40 <= a ->
  rd (tf_ret x h m) a = rd m a.
Proof.
  intros Ha. unfold tf_ret, store64. rewrite !rd_store_le_out by (unfold tf_kernel_satp, tf_kernel_sp, tf_kernel_trap, tf_kernel_hartid; lia). done.
Qed.
Lemma load64_tf_ret x h m off : off + 8 <= 0 \/ off = 24 \/ 40 <= off -> load64 (tf_ret x h m) (pr_trapframe x + off) = load64 m (pr_trapframe x + off).
Proof. intros Ho. apply load_le_ext. intros k Hk. apply rd_tf_ret. lia. Qed.

(** A field that [tf_ret] fills. *)
Ltac tf_field :=
  lazymatch goal with |- load64 (ma_mem (user_state ?x ?s)) _ = _ => change (ma_mem (user_state x s)) with (tf_ret x (ma_hart s) (ma_mem s)) end;
  unfold tf_ret, tf_kernel_satp, tf_kernel_sp, tf_kernel_trap, tf_kernel_hartid;
  rewrite ?load64_store64_other by lia; apply load64_store64_u64.

Lemma user_state_ready x s : user_ready s x (user_state x s).
Proof.
  assert (Hst : forall n, 0 <= n < 64 -> Z.testbit (ma_hart (user_state x s) C_sstatus) n =
    Z.testbit (ma_hart s C_sstatus) n && Z.testbit (Z.lnot SSTATUS_SIE) n && Z.testbit (Z.lnot SSTATUS_SPP) n || Z.testbit SSTATUS_SPIE n).
  { intros n Hn. change (ma_hart (user_state x s) C_sstatus) with (u64 (Z.lor (Z.land (u64 (Z.land (ma_hart s C_sstatus) (Z.lnot SSTATUS_SIE))) (Z.lnot SSTATUS_SPP)) SSTATUS_SPIE)).
    by rewrite testbit_u64, Z.lor_spec, Z.land_spec, testbit_u64, Z.land_spec by lia. }
  split.
  - rewrite Hst by lia. by rewrite andb_false_r.
  - rewrite Hst by lia. by rewrite orb_true_r.
  - rewrite Hst by lia. by rewrite andb_false_r.
  - done.
  - change (ma_hart (user_state x s) C_sepc) with (u64 (load64 (tf_ret x (ma_hart s) (ma_mem s)) (pr_trapframe x + tf_epc))).
    rewrite load64_tf_ret by (unfold tf_epc; lia). apply u64_small, load64_range.
  - intros c Hc. cbn in Hc. change (ma_hart (user_state x s)) with (hart_ret (load64 (tf_ret x (ma_hart s) (ma_mem s)) (pr_trapframe x + tf_epc)) (ma_hart s)).
    unfold hart_ret. rewrite !set_csr_ne by set_solver. done.
  - tf_field.
  - rewrite <- u64_u64. tf_field.
  - tf_field.
  - tf_field.
  - intros a Ha. change (ma_mem (user_state x s)) with (tf_ret x (ma_hart s) (ma_mem s)). by apply rd_tf_ret.
  - by exists (tf_ret x (ma_hart s) (ma_mem s)).
Qed.
(** ** System calls *)

Context (dump : list Z).

Section user.
Context (devs : Z -> devsw S phys) (pad name0 de0 : list Z).
Abbreviation usertrap := (usertrap dump devs pad name0 de0).

(** The state in which [usertrap] calls [syscall]. *)
Definition entered x s : st :=
  let s1 := poke (pr_trapframe x + tf_epc) (ma_hart s C_sepc) (set_hart (set_csr C_stvec (u64 sym_kernelvec) (ma_hart s)) s) in
  let s2 := poke (pr_trapframe x + tf_epc) (u64 (u64 (ma_hart s C_sepc) + 4)) s1 in
  set_hart (set_csr C_sstatus (u64 (Z.lor (ma_hart s C_sstatus) SSTATUS_SIE)) (ma_hart s2)) s2.

Lemma wp_usertrap_call x (Q : trapres -> world st -> Prop) w :
  Z.land (ma_hart (w_st w) C_sstatus) SSTATUS_SPP = 0 -> ma_hart (w_st w) C_scause = 8 ->
  ma_procs (w_st w) !! my_idx (w_me w) = Some x -> pr_killed x = 0 -> L_proc (my_idx (w_me w)) ∉ w_held w ->
  wp (mk (syscall devs pad name0 de0)) (fun r => wp (match r with
      | SysRet _ => usertrap_end 0
      | SysSleep c i => mret (TrapSleep c i)
      | SysExit => mret TrapExit
      end) Q) (set_st (entered x (w_st w)) w) -> wp usertrap Q w.
Proof.
  intros Hspp Hcause Hx Hk Hl HQ. unfold Trap.usertrap. apply wp_bind, wp_csrr. rewrite Hspp. cbn [Z.eqb negb].
  apply wp_bind, wp_csrw, wp_bind, wp_mps_pid. eapply wp_bind, wp_mps_pload; [exact Hx|]. apply wp_bind, wp_csrr, wp_bind, wp_mps_tf_store, wp_bind, wp_csrr.
  match goal with |- context [?a =? 8] => change a with (ma_hart (w_st w) C_scause) end. rewrite Hcause. cbn [Z.eqb Pos.eqb].
  eapply wp_bind, wp_mps_pkilled; [exact Hl|exact Hx|]. rewrite Hk. cbn [Z.eqb negb].
  eapply wp_bind, wp_mps_tf_load; [exact Hx|]. apply wp_bind, wp_mps_tf_store, wp_bind, wp_mh, wp_bind, wp_gets, wp_modify, wp_bind.
  match goal with |- context [load64 (ma_mem ?t) ?a] => replace (load64 (ma_mem t) a) with (u64 (ma_hart (w_st w) C_sepc)) by (symmetry; apply load64_store64_u64) end.
  exact HQ.
Qed.

(** After the trap of a process that is not killed and not preempted. *)
Lemma wp_usertrap_end x (Q : trapres -> world st -> Prop) w :
  ma_procs (w_st w) !! my_idx (w_me w) = Some x -> pr_killed x = 0 -> L_proc (my_idx (w_me w)) ∉ w_held w ->
  Q (ToUser (MAKE_SATP (pr_pagetable x))) (set_st (user_state x (w_st w)) w) -> wp (usertrap_end 0) Q w.
Proof.
  intros Hx Hk Hl HQ. unfold usertrap_end. apply wp_bind, wp_mps_pid. eapply wp_bind, wp_mps_pkilled; [exact Hl|exact Hx|].
  rewrite Hk. cbn [Z.eqb negb]. eapply wp_bind, wp_usertrapret; [exact Hx|]. by apply wp_ret.
Qed.

Lemma wp_syscall_getpid x (Q : sysres -> world (kern S) -> Prop) (w : world (kern S)) :
  kn_procs (w_st w) !! my_idx (w_me w) = Some x ->
  i32 (load64 (p_mem (en_mem (pt_env (kn_ps (w_st w))))) (pr_trapframe x + tf_a7)) = SYS_getpid ->
  Q (SysRet (pr_pid x)) (set_st (with_phys (upd_mem (fun m => store64 m (pr_trapframe x + tf_a0) (u64 (pr_pid x))) (en_mem (pt_env (kn_ps (w_st w))))) (w_st w)) w) ->
  wp (syscall devs pad name0 de0) Q w.
Proof.
  intros Hx Hn HQ. unfold syscall. apply wp_bind, wp_zoom. unfold tf_load. apply wp_bind, wp_bind, wp_myproc, wp_ret. eapply wp_bind, wp_pload; [exact Hx|].
  apply wp_gets. cbn [w_me w_held w_evs w_st]. rewrite Hn. cbv zeta.
  assert (E : (if SYS_getpid >? 0 then syscalls devs pad name0 de0 SYS_getpid else None) = Some (ret (kps sys_getpid) SysRet)) by reflexivity. rewrite E.
  apply wp_bind, wp_bind, wp_zoom. unfold sys_getpid. apply wp_bind, wp_bind, wp_myproc, wp_ret. eapply wp_bind, wp_pload; [exact Hx|]. apply wp_ret, wp_ret.
  apply wp_bind, wp_zoom. unfold set_a0. apply wp_bind, wp_bind, wp_myproc, wp_ret. eapply wp_bind, wp_pload; [exact Hx|].
  apply wp_zoom, wp_zoom, wp_modify, wp_ret. exact HQ.
Qed.

(** Memory without the trapframe fields the kernel fills, and without [a0]. *)
Definition user_visible x (a : Z) : Prop :=
  let o := a - pr_trapframe x in ~ 0 <= o < 40 /\ ~ tf_a0 <= o < tf_a0 + 8.

(** C19: [getpid] from the [ecall] of a user program to the instruction that
    returns to it: the trap returns to user mode with interrupts on, at the
    instruction after the [ecall] and with the page table of the process; a0
    is its pid, and every other register of the user, all other memory, the
    process table and the devices are as they were.  The next trap will find
    the kernel's page table, stack and hart in the trapframe. *)
Theorem getpid_trap x w :
  Z.land (ma_hart (w_st w) C_sstatus) SSTATUS_SPP = 0 -> ma_hart (w_st w) C_scause = 8 ->
  ma_procs (w_st w) !! my_idx (w_me w) = Some x -> pr_killed x = 0 -> L_proc (my_idx (w_me w)) ∉ w_held w ->
  i32 (load64 (ma_mem (w_st w)) (pr_trapframe x + tf_a7)) = SYS_getpid ->
  wp usertrap (fun r w' => let h' := ma_hart (w_st w') in let m' := ma_mem (w_st w') in
    r = ToUser (MAKE_SATP (pr_pagetable x)) /\ w_me w' = w_me w /\ w_held w' = w_held w /\
    Z.testbit (h' C_sstatus) 8 = false /\ Z.testbit (h' C_sstatus) 5 = true /\ Z.testbit (h' C_sstatus) 1 = false /\
    h' C_sepc = u64 (ma_hart (w_st w) C_sepc + 4) /\ h' C_stvec = u64 (TRAMPOLINE + (sym_uservec - sym_trampoline)) /\
    load64 m' (pr_trapframe x + tf_a0) = u64 (pr_pid x) /\
    load64 m' (pr_trapframe x + tf_kernel_satp) = u64 (ma_hart (w_st w) C_satp) /\
    load64 m' (pr_trapframe x + tf_kernel_sp) = u64 (pr_kstack x + PGSIZE) /\
    load64 m' (pr_trapframe x + tf_kernel_trap) = u64 sym_usertrap /\
    load64 m' (pr_trapframe x + tf_kernel_hartid) = u64 (ma_hart (w_st w) C_tp) /\
    (forall a, user_visible x a -> rd m' a = rd (ma_mem (w_st w)) a) /\
    exists m, w_st w' = set_hart h' (set_kern (with_phys (Phys m (p_freelist (ma_phys (w_st w)))) (ma_kern (w_st w))) (w_st w))) w.
Proof.
  intros Hspp Hcause Hx Hk Hl Hn. eapply wp_usertrap_call; [done|done|exact Hx|done|done|]. apply wp_zoom. eapply wp_syscall_getpid; [exact Hx| |].
  { cbn [w_st set_st]. rewrite <- Hn. f_equal. apply load_le_ext. intros k Hkk.
    match goal with |- rd ?m _ = _ => change m with (store64 (store64 (ma_mem (w_st w)) (pr_trapframe x + tf_epc) (ma_hart (w_st w) C_sepc)) (pr_trapframe x + tf_epc) (u64 (u64 (ma_hart (w_st w) C_sepc) + 4))) end.
    unfold store64. rewrite !rd_store_le_out by (unfold tf_epc, tf_a7 in *; lia). done. }
  eapply wp_usertrap_end; [exact Hx|done|exact Hl|]. lazymatch goal with |- context [user_state x ?s] => set (s1 := s) end.
  destruct (user_state_ready x s1) as [H1 H2 H3 H4 H5 H6 H7 H8 H9 H10 H11 [m H12]]. cbv zeta. cbn [w_st w_me w_held set_st].
  assert (Hm : ma_mem s1 = store64 (store64 (store64 (ma_mem (w_st w)) (pr_trapframe x + tf_epc) (ma_hart (w_st w) C_sepc)) (pr_trapframe x + tf_epc) (u64 (u64 (ma_hart (w_st w) C_sepc) + 4))) (pr_trapframe x + tf_a0) (u64 (pr_pid x))) by reflexivity.
  split_and!; try done.
  - rewrite H5, Hm, load64_store64_other by (unfold tf_epc, tf_a0; lia). rewrite load64_store64_u64, u64_u64. unfold u64. by rewrite Zplus_mod_idemp_l.
  - change (ma_mem (user_state x s1)) with (tf_ret x (ma_hart s1) (ma_mem s1)). rewrite load64_tf_ret by (unfold tf_a0; lia). rewrite Hm, load64_store64_u64. apply u64_u64.
  - intros a [Ha1 Ha2]. rewrite H11 by lia. rewrite Hm. unfold store64. rewrite !rd_store_le_out by (unfold tf_epc, tf_a0 in *; lia). done.
  - exists m. rewrite H12. reflexivity.
Qed.

(** ** Every return to user space *)

Record back_to_user (w : world st) x (satp : Z) : Prop := {
  bu_proc : ma_procs (w_st w) !! my_idx (w_me w) = Some x;
  bu_satp : satp = MAKE_SATP (pr_pagetable x);
  bu_spp : Z.testbit (ma_hart (w_st w) C_sstatus) 8 = false;
  bu_spie : Z.testbit (ma_hart (w_st w) C_sstatus) 5 = true;
  bu_sie : Z.testbit (ma_hart (w_st w) C_sstatus) 1 = false;
  bu_stvec : ma_hart (w_st w) C_stvec = u64 (TRAMPOLINE + (sym_uservec - sym_trampoline));
  bu_sepc : ma_hart (w_st w) C_sepc = load64 (ma_mem (w_st w)) (pr_trapframe x + tf_epc);
  bu_ksatp : load64 (ma_mem (w_st w)) (pr_trapframe x + tf_kernel_satp) = u64 (ma_hart (w_st w) C_satp);
  bu_ksp : load64 (ma_mem (w_st w)) (pr_trapframe x + tf_kernel_sp) = u64 (pr_kstack x + PGSIZE);
  bu_ktrap : load64 (ma_mem (w_st w)) (pr_trapframe x + tf_kernel_trap) = u64 sym_usertrap;
  bu_khart : load64 (ma_mem (w_st w)) (pr_trapframe x + tf_kernel_hartid) = u64 (ma_hart (w_st w) C_tp) }.

Lemma user_state_back x w : ma_procs (w_st w) !! my_idx (w_me w) = Some x ->
  back_to_user (set_st (user_state x (w_st w)) w) x (MAKE_SATP (pr_pagetable x)).
Proof.
  intros Hx. destruct (user_state_ready x (w_st w)) as [H1 H2 H3 H4 H5 H6 H7 H8 H9 H10 H11 _]. split; try done; cbn [w_st set_st].
  rewrite H5. symmetry. change (ma_mem (user_state x (w_st w))) with (tf_ret x (ma_hart (w_st w)) (ma_mem (w_st w))).
  apply load64_tf_ret. unfold tf_epc. lia.
Qed.

Lemma wlp_any {T A B} (m : M T A) (f : A -> M T B) Q (w : world T) : (forall a (w' : world T), wlp (f a) Q w') -> wlp (m ≫= f) Q w.
Proof. intros H. apply wlp_bind. unfold wlp at 1. by destruct (m w). Qed.
Lemma wp_wlp {T A} (m : M T A) Q (w : world T) : wp m Q w -> wlp m Q w.
Proof. unfold wp, wlp. by destruct (m w). Qed.
Lemma wlp_zoom {T T' A} (g : T -> T') (p : T -> T' -> T) (m : M T' A) Q (w : world T) :
  wlp m (fun a (w' : world T') => Q a (World (w_me w') (w_held w') (w_evs w') (p (w_st w) (w_st w'))))
    (World (w_me w) (w_held w) (w_evs w) (g (w_st w))) -> wlp (zoom g p m) Q w.
Proof. unfold wlp, zoom. by destruct (m _). Qed.

Lemma wlp_mps_pload p (Q : proc -> world st -> Prop) w : (forall x, ma_procs (w_st w) !! p = Some x -> Q x w) -> wlp (mps (pload p)) Q w.
Proof.
  intros H. destruct (ma_procs (w_st w) !! p) as [x|] eqn:Hx; [by eapply wp_wlp, wp_mps_pload; [exact Hx|]; apply H|].
  unfold mps, mk, kps. apply wlp_zoom, wlp_zoom. unfold wlp, pload, mbind, M_bind, gets. unfold ma_procs in Hx. cbn [w_st]. by rewrite Hx.
Qed.
Lemma wlp_mps_pkilled p (Q : Z -> world st -> Prop) w :
  (forall x, ma_procs (w_st w) !! p = Some x -> Q (pr_killed x) (set_held (filter (fun k => k <> L_proc p) (L_proc p :: w_held w)) w)) -> wlp (mps (pkilled p)) Q w.
Proof.
  intros H. unfold mps, mk, kps. apply wlp_zoom, wlp_zoom. unfold pkilled. apply wlp_bind, wlp_acquire, wlp_bind, wlp_pload. intros x Hx.
  apply wlp_bind, wlp_release, wlp_ret. destruct w as [? ? ? [[]]]. by apply H.
Qed.

Lemma wlp_usertrapret (Q : Z -> world st -> Prop) w :
  (forall x w', ma_procs (w_st w) !! my_idx (w_me w) = Some x -> back_to_user w' x (MAKE_SATP (pr_pagetable x)) -> Q (MAKE_SATP (pr_pagetable x)) w') ->
  wlp usertrapret Q w.
Proof.
  intros HQ. destruct (ma_procs (w_st w) !! my_idx (w_me w)) as [x|] eqn:Hx.
  - eapply wp_wlp, wp_usertrapret; [exact Hx|]. by apply HQ, user_state_back.
  - unfold usertrapret. apply wlp_bind, wp_wlp, wp_mps_pid, wlp_bind, wlp_mps_pload. intros y Hy. exfalso. congruence.
Qed.

Lemma wlp_usertrap_end d (Q : trapres -> world st -> Prop) w :
  (forall x r w', ma_procs (w_st w) !! my_idx (w_me w) = Some x ->
     match r with
     | ToUser satp => pr_killed x = 0 /\ back_to_user w' x satp
     | TrapExit => pr_killed x <> 0
     | TrapYield => pr_killed x = 0 /\ d = 2
     | TrapSleep _ _ => False
     end -> Q r w') -> wlp (usertrap_end d) Q w.
Proof.
  intros HQ. unfold usertrap_end. apply wlp_bind, wp_wlp, wp_mps_pid, wlp_bind, wlp_mps_pkilled. intros x Hx. specialize (HQ x).
  destruct (Z.eqb_spec (pr_killed x) 0) as [Hk|Hk]; cbn [negb].
  - destruct (Z.eqb_spec d 2) as [->|Hd].
    + apply wlp_any. intros _ w'. by apply wlp_ret, HQ.
    + apply wlp_bind, wlp_usertrapret. intros y w' Hy Hb. assert (y = x) as ->.
      { apply (inj Some). rewrite <- Hx. symmetry. exact Hy. }
      apply wlp_ret, HQ; [exact Hx|]. by split.
  - apply wlp_any. intros _ w'. by apply wlp_ret, HQ.
Qed.

(** How a trap may end: in user space, as [sret] needs it, and unless it comes
    from a preemption only when nobody killed the process. *)
Definition trap_end (preempted : bool) (r : trapres) (w : world st) : Prop :=
  match r with
  | ToUser satp => exists x, back_to_user w x satp /\ (preempted = false -> pr_killed x = 0)
  | _ => True
  end.

Lemma usertrap_end_safe d w : wlp (usertrap_end d) (trap_end false) w.
Proof. apply wlp_usertrap_end. intros x r w' Hx Hr. destruct r; try done. destruct Hr. by exists x. Qed.

(** C20: whatever the trap was, and whether it returns at once, after a system
    call that slept, or after the process was preempted, the kernel enters
    user space only with the privilege bit cleared, interrupts off until
    [sret] turns them on, traps sent to the trampoline, the program counter
    and the page table of the running process, and the trapframe filled for
    the next trap; and, except after a preemption, only if the process is not
    killed. *)
Theorem user_return_safe w :
  wlp usertrap (trap_end false) w /\
  (forall m, wlp (usertrap_syscall_resume m) (trap_end false) w) /\
  wlp usertrap_resume (trap_end true) w.
Proof.
  split_and!.
  - unfold Trap.usertrap. apply wlp_any. intros v w1. destruct (negb _); [done|]. do 4 (apply wlp_any; intros ? ?).
    apply wlp_any. intros _ w2. apply wlp_any. intros c w3. destruct (c =? 8).
    + apply wlp_any. intros k w4. destruct (negb _); [by apply wlp_any|]. do 3 (apply wlp_any; intros ? ?). apply wlp_any. intros r w5.
      destruct r; [|done..]. apply usertrap_end_safe.
    + do 2 (apply wlp_any; intros ? ?). apply usertrap_end_safe.
  - intros m. apply wlp_any. intros r w1. destruct r; [|done]. apply wlp_any. intros _ w2. apply usertrap_end_safe.
  - apply wlp_any. intros _ w1. apply wlp_bind, wlp_usertrapret. intros x w' _ Hb. apply wlp_ret. by exists x.
Qed.

(** ** Faults *)

Lemma wlp_mps_setkilled p (Q : () -> world st -> Prop) w :
  (forall x w', ma_procs (w_st w) !! p = Some x -> w_me w' = w_me w -> ma_procs (w_st w') = <[p := set_killed 1 x]> (ma_procs (w_st w)) -> Q () w') ->
  wlp (mps (setkilled p)) Q w.
Proof.
  intros HQ. unfold mps, mk, kps. apply wlp_zoom, wlp_zoom. unfold setkilled. apply wlp_bind, wlp_acquire, wlp_bind, wlp_passign.
  intros x w1 Hx H1. apply wlp_release. apply (HQ x); [exact Hx|apply H1|apply H1].
Qed.

(** Causes of a trap that the kernel handles. *)
Definition is_external (c : Z) : bool := negb (Z.land c 0x8000000000000000 =? 0) && (Z.land c 0xff =? 9).
Definition is_timer (c : Z) : bool := c =? 0x8000000000000001.

Lemma wp_devintr_unknown (Q : Z -> world st -> Prop) w :
  is_external (ma_hart (w_st w) C_scause) = false -> is_timer (ma_hart (w_st w) C_scause) = false -> Q 0 w -> wp (devintr dump) Q w.
Proof.
  intros He Ht HQ. unfold devintr. apply wp_bind, wp_csrr. unfold is_external in He. unfold is_timer in Ht. rewrite He, Ht. by apply wp_ret.
Qed.

(** C23: an exception that is no system call and no interrupt (a page fault, an
    illegal instruction) kills the process: the trap never returns to user
    space, nor does it sleep or yield; if it ends at all it ends in exit(-1). *)
Theorem usertrap_fault w :
  let c := ma_hart (w_st w) C_scause in
  c <> 8 -> is_external c = false -> is_timer c = false ->
  wlp usertrap (fun r _ => r = TrapExit) w.
Proof.
  intros c H8 He Ht. unfold Trap.usertrap. apply wlp_bind, wp_wlp, wp_csrr. destruct (negb _); [done|].
  apply wlp_bind, wp_wlp, wp_csrw, wlp_bind, wp_wlp, wp_mps_pid, wlp_bind, wlp_mps_pload. intros x Hx.
  apply wlp_bind, wp_wlp, wp_csrr, wlp_bind, wp_wlp, wp_mps_tf_store, wlp_bind, wp_wlp, wp_csrr.
  match goal with |- context [?a =? 8] => change a with c end. rewrite (proj2 (Z.eqb_neq c 8) H8).
  apply wlp_bind, wp_wlp, wp_devintr_unknown; [exact He|exact Ht|]. cbn [Z.eqb negb].
  apply wlp_bind, wlp_bind, wp_wlp, wp_emit, wlp_bind, wp_wlp, wp_emit, wlp_mps_setkilled. intros y w' Hy Hme Hp.
  apply wlp_usertrap_end. intros z r w2 Hz Hr. rewrite Hme, Hp in Hz. cbn [w_me set_st add_ev] in Hz.
  rewrite list_lookup_insert_eq in Hz by (by eapply lookup_lt_Some). injection Hz as <-. change (pr_killed (set_killed 1 y)) with 1 in Hr.
  destruct r; try done; by destruct Hr.
Qed.
End user.

(** ** Interrupts *)

Lemma wlp_zoom_fixed {T X A} (g : st -> X) (f : st -> T) (p : st -> T -> st) (m : M T A) w :
  (forall s y, g (p s y) = g s) -> wlp (zoom f p m) (fun _ w' => g (w_st w') = g (w_st w)) w.
Proof. intros H. apply wlp_zoom. unfold wlp. destruct (m _); try done. apply H. Qed.

(** The registers and the interrupt controller. *)
Definition io s : hart * P := (ma_hart s, ma_plic s).

Lemma wlp_wake_all l w : wlp (wake_all l) (fun _ w' => io (w_st w') = io (w_st w)) w.
Proof.
  revert w. induction l as [|e l IH]; intros w; [done|]. destruct e; cbn [wake_all]; [|apply IH].
  apply wlp_bind. eapply wlp_mono; [|by apply (wlp_zoom_fixed io)]. intros [] w1 H1. rewrite <- H1. apply IH.
Qed.

Lemma wlp_waking (m : mm ()) w : (forall w, wlp m (fun _ w' => io (w_st w') = io (w_st w)) w) -> wlp (waking m) (fun _ w' => io (w_st w') = io (w_st w)) w.
Proof.
  intros H. unfold waking. apply (wlp_bind m). eapply wlp_mono, H. intros [] w1 H1. rewrite <- H1. apply wlp_wake_all.
Qed.

Lemma wp_mplic_claim (Q : Z -> world st -> Prop) w :
  let h := i32 (ma_hart (w_st w) C_tp) in let r := plic_read (PLIC_SCLAIM h) (ma_plic (w_st w)) in
  (forall s', io s' = (ma_hart (w_st w), snd r) -> Q (i32 (u32 (fst r))) (set_st s' w)) -> wp (mplic plic_claim) Q w.
Proof.
  intros h r HQ. apply wp_zoom. unfold plic_claim. apply wp_bind, wp_zoom, wp_bind, wp_gets, wp_ret. cbn [w_st w_me w_held w_evs fst snd].
  apply wp_bind. unfold plic_get. apply wp_bind, wp_get. cbn [w_st w_me w_held w_evs fst snd]. fold h.
  destruct r as [x d] eqn:E. unfold r in E. rewrite E. apply wp_bind, wp_put, wp_ret, wp_ret. by apply HQ.
Qed.
Lemma wp_mplic_complete irq (Q : () -> world st -> Prop) w :
  (forall s', io s' = (ma_hart (w_st w), plic_write (PLIC_SCLAIM (i32 (ma_hart (w_st w) C_tp))) (u32 irq) (ma_plic (w_st w))) -> Q () (set_st s' w)) ->
  wp (mplic (plic_complete irq)) Q w.
Proof.
  intros HQ. apply wp_zoom. unfold plic_complete. apply wp_bind, wp_zoom, wp_bind, wp_gets, wp_ret, wp_modify. by apply HQ.
Qed.

(** C22: [devintr] completes the interrupt it claims, at the hart that claimed
    it and whatever the handler did: no interrupt of any hart stays in
    service, and none is completed that another hart serves. *)
Theorem devintr_completes {laws : PlicLaws P} w h :
  wlp (devintr dump) (fun r w' => in_service (ma_plic (w_st w')) h = in_service (ma_plic (w_st w)) h /\
    r = let c := ma_hart (w_st w) C_scause in if is_external c then 1 else if is_timer c then 2 else 0) w.
Proof.
  unfold devintr. apply wlp_bind, wp_wlp, wp_csrr. fold (is_external (ma_hart (w_st w) C_scause)). fold (is_timer (ma_hart (w_st w) C_scause)). cbv zeta.
  destruct (is_external _); [|destruct (is_timer _); [|done]].
  - apply wlp_bind, wp_wlp, wp_mplic_claim. intros s1 H1. set (c := i32 (ma_hart (w_st w) C_tp)) in *.
    set (r := plic_read (PLIC_SCLAIM c) (ma_plic (w_st w))) in *. pose proof (claim_range c (ma_plic (w_st w))) as Hr. fold r in Hr.
    replace (i32 (u32 (fst r))) with (fst r) by (symmetry; rewrite u32_small by lia; apply i32_small; lia).
    apply wlp_bind. eapply (wlp_mono _ (fun _ w' => io (w_st w') = (ma_hart (w_st w), snd r))).
    + intros [] w2 H2. unfold io in H2. injection H2 as Hh Hp. apply wlp_bind. destruct (Z.eqb_spec (fst r) 0) as [Hz|Hz]; cbn [negb].
      * do 2 apply wlp_ret. split; [|done]. rewrite Hp. by apply claim_none.
      * apply wp_wlp, wp_mplic_complete. intros s3 H3. apply wlp_ret. split; [|done]. unfold io in H3. injection H3 as _ Hp3.
        destruct (claim_some c (ma_plic (w_st w)) _ eq_refl Hz) as [Hn Hs]. fold r in Hn, Hs. cbn [w_st set_st]. rewrite Hp3, Hh, Hp. fold c.
        rewrite u32_small by lia. rewrite complete, !Hs. case_decide; [|done]. subst h. rewrite decide_True by done. set_solver.
    + rewrite <- H1. change (io s1) with (io (w_st (set_st s1 w))). destruct (_ =? UART0_IRQ).
      { apply wlp_waking. intros w1. by apply (wlp_zoom_fixed io). }
      destruct (_ =? VIRTIO0_IRQ); [|by destruct (negb _)]. apply wlp_waking. intros w1. by apply (wlp_zoom_fixed io).
  - apply wlp_bind, wp_wlp, wp_cpuid, wlp_bind. eapply (wlp_mono _ (fun _ w' => io (w_st w') = io (w_st w))).
    + intros [] w1 H1. injection H1 as Hh Hp. apply wlp_bind, wp_wlp, wp_csrr, wlp_bind, wp_wlp, wp_csrw, wlp_ret. split; [|done]. cbn. by rewrite Hp.
    + destruct (_ =? 0); [|done]. by apply (wlp_zoom_fixed io).
Qed.

(** ** The clock *)

Lemma wp_mk {A} (m : M (kern S) A) Q w :
  wp m (fun a (w' : world (kern S)) => Q a (World (w_me w') (w_held w') (w_evs w') (set_kern (w_st w') (w_st w))))
    (World (w_me w) (w_held w) (w_evs w) (ma_kern (w_st w))) -> wp (mk m) Q w.
Proof. intros H. by apply wp_zoom. Qed.

(** The process table after a tick on the time of process [cur]. *)
Definition ticked (cur : nat) (T : list proc) : list proc := imap (wake cur (Some ChTicks)) T.

Lemma wp_clock (Q : () -> world st -> Prop) w : w_held w = [] -> length (ma_procs (w_st w)) = NPROC ->
  Q () (set_st (set_kern (kn_set_procs (ticked (my_idx (w_me w)) (ma_procs (w_st w)))
     (Kern (kn_ps (ma_kern (w_st w))) (u32 (kn_ticks (ma_kern (w_st w)) + 1)))) (w_st w)) w) -> wp (mk clockintr) Q w.
Proof.
  intros Hh Hlen HQ. apply wp_mk. unfold clockintr. apply wp_bind, wp_acquire; [cbn; rewrite Hh; apply not_elem_of_nil|]. cbn [w_held]. rewrite Hh.
  apply wp_bind, wp_modify, wp_bind, wp_zoom. unfold pwakeup. apply wp_bind, wp_bind, wp_myproc, wp_ret.
  apply wp_wakeup_loop; cbn [w_held w_st w_me set_st set_held kn_ps]; [unfold ma_procs in Hlen; lia|by intros q ?%list_elem_of_singleton|].
  intros T HT Hj. eapply wp_release; [done|apply not_elem_of_nil|].
  assert (T = ticked (my_idx (w_me w)) (ma_procs (w_st w))) as ->.
  { apply list_eq. intros j. rewrite Hj. unfold ticked. rewrite list_lookup_imap. fold (ma_procs (w_st w)). case_decide as Hd; [done|].
    rewrite lookup_ge_None_2; [done|]. lia. }
  destruct w as [me held evs st]. cbn in Hh. subst held. exact HQ.
Qed.

Lemma wp_mps_yield x (Q : () -> world st -> Prop) w : w_held w = [] -> ma_procs (w_st w) !! my_idx (w_me w) = Some x ->
  Q () (set_st (set_procs (<[my_idx (w_me w) := set_state RUNNABLE x]> (ma_procs (w_st w))) (w_st w)) w) -> wp (mps yield) Q w.
Proof.
  intros Hh Hx HQ. apply wp_mps. unfold yield. apply wp_bind, wp_bind, wp_myproc, wp_ret, wp_bind, wp_acquire; [cbn; rewrite Hh; apply not_elem_of_nil|].
  eapply wp_bind, wp_passign; [exact Hx|]. unfold sched. apply wp_bind, wp_bind, wp_myproc, wp_ret. cbn [w_me with_procs set_held w_held].
  apply wp_bind. unfold wp at 1, holding. cbn [w_held with_procs set_held]. rewrite Hh. rewrite bool_decide_eq_true_2 by left. cbn [negb]. unfold wp. cbn [w_held with_procs set_held length].
  rewrite decide_False by (cbn; lia). unfold mbind at 1, M_bind at 1. rewrite (pload_eq _ (set_state RUNNABLE x)).
  - cbn. destruct w as [me held evs st]. cbn in Hh. subst held. exact HQ.
  - cbn. rewrite list_lookup_insert_eq; [done|]. by eapply lookup_lt_Some.
Qed.

Definition hart_ok (h : hart) : Prop := forall c, 0 <= h c < 2 ^ 64.

(** Whether process [i] of the table runs. *)
Definition runs (T : list proc) (i : nat) : bool := match T !! i with Some x => bool_decide (pr_state x = RUNNING) | None => false end.

Lemma wp_devintr_timer (Q : Z -> world st -> Prop) w :
  is_timer (ma_hart (w_st w) C_scause) = true -> i32 (ma_hart (w_st w) C_tp) = 0 -> w_held w = [] -> length (ma_procs (w_st w)) = NPROC ->
  Q 2 (set_st (set_hart (set_csr C_sip (u64 (Z.land (ma_hart (w_st w) C_sip) (Z.lnot 2))) (ma_hart (w_st w)))
    (set_kern (kn_set_procs (ticked (my_idx (w_me w)) (ma_procs (w_st w))) (Kern (kn_ps (ma_kern (w_st w))) (u32 (kn_ticks (ma_kern (w_st w)) + 1)))) (w_st w))) w) ->
  wp (devintr dump) Q w.
Proof.
  intros Ht Htp Hh Hlen HQ. unfold devintr. apply wp_bind, wp_csrr. apply Z.eqb_eq in Ht. rewrite Ht.
  change (negb _ && _) with false. change (0x8000000000000001 =? 0x8000000000000001) with true. cbv iota.
  apply wp_bind, wp_cpuid. rewrite Htp. cbn [Z.eqb]. apply wp_bind, wp_clock; [done|done|]. apply wp_bind, wp_csrr, wp_bind, wp_csrw, wp_ret. exact HQ.
Qed.

Lemma wp_kerneltrap_end (sepc sstatus : Z) (Q : () -> world st -> Prop) w :
  Q () (set_st (set_hart (set_csr C_sstatus (u64 sstatus) (set_csr C_sepc (u64 sepc) (ma_hart (w_st w)))) (w_st w)) w) -> wp (kerneltrap_end sepc sstatus) Q w.
Proof. intros HQ. apply wp_bind, wp_csrw, wp_csrw. exact HQ. Qed.

(** C21: a timer interrupt in the kernel, on hart 0: the clock advances by one
    tick, every process that sleeps on it becomes runnable, the interrupt is
    acknowledged, and the interrupted code goes on with the registers it had:
    at once, or, when it ran in a process, once that process, now runnable,
    is scheduled again, whatever the registers hold then. *)
Theorem kerneltrap_timer w : let h := ma_hart (w_st w) in let i := my_idx (w_me w) in let T := ticked i (ma_procs (w_st w)) in
  hart_ok h -> Z.land (h C_sstatus) SSTATUS_SPP <> 0 -> Z.land (h C_sstatus) SSTATUS_SIE = 0 ->
  is_timer (h C_scause) = true -> i32 (h C_tp) = 0 -> w_held w = [] -> length (ma_procs (w_st w)) = NPROC ->
  wp (kerneltrap dump) (fun r w' =>
    w_me w' = w_me w /\ w_held w' = [] /\
    (forall c, ma_hart (w_st w') c = if decide (c = C_sip) then Z.land (h C_sip) (Z.lnot 2) else h c) /\
    w_st w' = set_hart (ma_hart (w_st w')) (set_kern (kn_set_procs (if runs T i then alter (set_state RUNNABLE) i T else T)
      (Kern (kn_ps (ma_kern (w_st w))) (u32 (kn_ticks (ma_kern (w_st w)) + 1)))) (w_st w)) /\
    match r with
    | None => runs T i = false
    | Some (sepc, sstatus) => runs T i = true /\ forall w2, w_held w2 = [L_proc (my_idx (w_me w2))] ->
        wp (kerneltrap_resume sepc sstatus) (fun _ w3 => ma_hart (w_st w3) C_sepc = h C_sepc /\ ma_hart (w_st w3) C_sstatus = h C_sstatus /\ w_held w3 = []) w2
    end) w.
Proof.
  intros h i T Hok Hspp Hsie Ht Htp Hh Hlen. unfold kerneltrap. apply wp_bind, wp_csrr, wp_bind, wp_csrr, wp_bind, wp_csrr.
  fold h. rewrite (proj2 (Z.eqb_neq _ _) Hspp). apply wp_bind, wp_intr_get. fold h. rewrite Hsie. cbn [Z.eqb negb].
  apply wp_bind, wp_devintr_timer; [done|done|done|done|]. cbn [Z.eqb]. apply wp_bind, wp_mps_pid, wp_bind. cbn [w_me set_st Z.eqb Pos.eqb andb].
  fold h i T. set (s1 := set_hart _ _). assert (HT : ma_procs s1 = T) by reflexivity. assert (HTl : length T = NPROC) by (unfold T, ticked; by rewrite length_imap).
  assert (Hsip : forall c, ma_hart s1 c = if decide (c = C_sip) then Z.land (h C_sip) (Z.lnot 2) else h c).
  { intros c. change (ma_hart s1) with (set_csr C_sip (u64 (Z.land (h C_sip) (Z.lnot 2))) h). unfold set_csr. case_decide; [|done].
    by apply u64_land. }
  eapply (wp_mono _ (fun y w' => y = runs T i /\ w' = set_st s1 w)).
  - intros y w1 [-> ->]. destruct (runs T i) eqn:Hr.
    + unfold runs in Hr. destruct (T !! i) as [x|] eqn:Hx; [|done].
      eapply wp_bind, wp_mps_yield; [exact Hh|exact Hx|]. apply wp_ret. split_and!; [done|exact Hh|exact Hsip| |done|].
      * cbn [w_st set_st w_me]. fold i. rewrite HT. by rewrite (list_alter_insert _ _ _ _ Hx).
      * intros w2 Hw2. apply wp_bind, wp_mps. unfold yield_resume. apply wp_bind, wp_bind, wp_myproc, wp_ret.
        eapply wp_release; [exact Hw2|apply not_elem_of_nil|]. apply wp_kerneltrap_end. cbn. rewrite !set_csr_eq, set_csr_ne, set_csr_eq by done.
        split_and!; [by apply u64_small|by apply u64_small|done].
    + apply wp_bind, wp_kerneltrap_end, wp_ret. split_and!; [done|exact Hh| |done|done].
      intros c. cbn [w_st set_st]. cbn [ma_hart set_hart]. destruct (decide (c = C_sstatus)) as [->|Hc1]; [rewrite set_csr_eq, decide_False by done; by apply u64_small|].
      rewrite set_csr_ne by done. destruct (decide (c = C_sepc)) as [->|Hc2]; [rewrite set_csr_eq, decide_False by done; by apply u64_small|]. rewrite set_csr_ne by done. apply Hsip.
  - unfold runs. destruct (T !! i) as [x|] eqn:Hx.
    + rewrite (proj2 (Nat.ltb_lt i NPROC)) by (rewrite <- HTl; by eapply lookup_lt_Some). eapply wp_bind, wp_mps_pload; [exact Hx|]. by apply wp_ret.
    + rewrite (proj2 (Nat.ltb_ge i NPROC)) by (rewrite <- HTl; by apply lookup_ge_None_1). by apply wp_ret.
Qed.
End props.

(** ** Start-up *)

Section start.
Context {bs : BootSyms}.

Abbreviation sm := (M (hart * memory)).
Implicit Types (w : world (hart * memory)).

(** What [start] leaves for [mret] and for timer interrupts. *)
Record booted (h : hart) (m : memory) (h' : hart) (m' : memory) : Prop := {
  bt_mpp : Z.testbit (h' C_mstatus) 12 = false /\ Z.testbit (h' C_mstatus) 11 = true;
  bt_mie : Z.testbit (h' C_mstatus) 3 = true /\ Z.testbit (h' C_mie) 7 = true;
  bt_mepc : h' C_mepc = u64 sym_main;
  bt_satp : h' C_satp = 0;
  bt_deleg : h' C_medeleg = 0xffff /\ h' C_mideleg = 0xffff;
  bt_sie : Z.testbit (h' C_sie) 9 = true /\ Z.testbit (h' C_sie) 5 = true /\ Z.testbit (h' C_sie) 1 = true;
  bt_pmp : h' C_pmpaddr0 = 0x3fffffffffffff /\ h' C_pmpcfg0 = 0xf;
  bt_mtvec : h' C_mtvec = u64 sym_timervec;
  bt_tp : h' C_tp = h C_mhartid;
  bt_scratch : h' C_mscratch = u64 (sym_timer_scratch + 40 * h C_mhartid);
  bt_next : load64 m' (CLINT_MTIMECMP (h C_mhartid)) = u64 (load64 m CLINT_MTIME + 1000000);
  bt_cmp : load64 m' (sym_timer_scratch + 40 * h C_mhartid + 24) = CLINT_MTIMECMP (h C_mhartid);
  bt_interval : load64 m' (sym_timer_scratch + 40 * h C_mhartid + 32) = 1000000;
  bt_mem a : (a < CLINT_MTIMECMP (h C_mhartid) \/ CLINT_MTIMECMP (h C_mhartid) + 8 <= a) ->
    (a < sym_timer_scratch + 40 * h C_mhartid + 24 \/ sym_timer_scratch + 40 * h C_mhartid + 40 <= a) -> rd m' a = rd m a }.

(** Read registers back after writes. *)
Ltac csr_reads := repeat (rewrite set_csr_eq || rewrite set_csr_ne by discriminate).

(** [start] on one of the eight harts: [mret] will enter [main] in supervisor
    mode without paging, with exceptions and interrupts delegated to it and
    all of memory open to it; the timer will interrupt after an interval, and
    the scratch area of the hart has what [timervec] needs to set the next. *)
Theorem start_correct w : let h := fst (w_st w) in
  0 <= h C_mhartid < 8 -> KERNBASE <= sym_timer_scratch ->
  wp start (fun _ w' => booted h (snd (w_st w)) (fst (w_st w')) (snd (w_st w'))) w.
Proof.
  intros h Hid Hsc. destruct w as [me held evs [h0 m]]. cbn [w_st fst snd] in *. subst h. rename h0 into h.
  lazy beta zeta iota delta [wp start timerinit mbind M_bind on_hart zoom csrr csrw r_mstatus w_mstatus w_mepc w_satp w_medeleg w_mideleg r_sie w_sie
    w_pmpaddr0 w_pmpcfg0 r_mhartid w_mscratch w_mtvec r_mie w_mie w_tp gets modify set_st w_st w_me w_held w_evs fst snd load_at store_at].
  csr_reads. rewrite (i32_small (h C_mhartid)) by lia.
  assert (Hcl : CLINT_MTIMECMP (h C_mhartid) = 33570816 + 8 * h C_mhartid) by (unfold CLINT_MTIMECMP, CLINT; lia).
  rewrite (u64_small (CLINT_MTIMECMP (h C_mhartid))) by lia. change (u64 1000000) with 1000000. change KERNBASE with 2147483648 in Hsc.
  split; csr_reads; try done.
  - rewrite !testbit_u64, !Z.lor_spec, !testbit_u64, !Z.lor_spec, !Z.land_spec by lia. split; [|by rewrite orb_true_r].
    by rewrite andb_false_r.
  - rewrite !testbit_u64, !Z.lor_spec by lia. by rewrite !orb_true_r.
  - rewrite !testbit_u64, !Z.lor_spec by lia. by rewrite ?orb_true_r.
  - apply u64_small. lia.
  - rewrite 2!load64_store64_other by lia. by rewrite load64_store64_u64, u64_u64.
  - rewrite load64_store64_other by lia. apply load64_store64_same. lia.
  - by apply load64_store64_same.
  - intros a H1 H2. unfold store64. rewrite !rd_store_le_out by lia. done.
Qed.
End start.

(** ** main on the other harts *)

Section main.
Context {sy : Symbols} {ts : TextSyms}.
Context {D V P : Type} {udev : UartDev D} {ulaws : UartLaws D} {vdev : VirtioDev V} {pdev : PlicDev P}.

Lemma decimal_bytes id : bytes_of (printint kdigits (i32 id) 10 1).
Proof.
  destruct (printint_decimal kdigits (i32 id) kdigits_decimal (i32_range _)) as (ds & -> & Hd & _).
  apply Forall_app. split; [destruct (_ <? _); [apply Forall_singleton; lia|by apply Forall_nil]|].
  eapply Forall_impl; [exact Hd|]. unfold is_digit. intros c Hc. cbn in *. lia.
Qed.

Lemma wp_inithart kpt (Q : () -> world (boot D V P) -> Prop) me held evs k lk pt st : let id := i32 (ma_hart k C_tp) in
  Q () (World me held evs (Boot (Mach (ma_kern k) (ma_cons k) (ma_uart k) (ma_disk k) (ma_bufs k) (ma_vdev k)
       (plic_write (PLIC_SPRIORITY id) 0 (plic_write (PLIC_SENABLE id) 0x402 (ma_plic k)))
       (set_csr C_stvec (u64 sym_kernelvec) (set_csr C_satp (u64 (MAKE_SATP kpt)) (ma_hart k)))) lk pt st)) ->
  wp (bmach (mh (kvminithart kpt));; bmach trapinithart;; bmach (mplic plicinithart)) Q (World me held evs (Boot k lk pt st)).
Proof.
  intros id HQ. subst id. destruct k as [kk cc uu dd bb vv pp hh].
  lazy beta zeta iota delta [wp mbind M_bind mret M_ret bmach mh mplic zoom kvminithart trapinithart plicinithart at_cpu cpuid r_tp csrr csrw w_satp w_stvec plic_put
    gets modify set_st w_st w_me w_held w_evs fst snd ma_hart ma_plic ma_kern ma_cons ma_uart ma_disk ma_bufs ma_vdev bo_mach bo_locking bo_kpgtbl bo_started] in HQ |- *.
  rewrite !set_csr_ne by discriminate. exact HQ.
Qed.

Lemma with_phys_same (k : mach bcache D V P) : with_phys (ma_phys k) (ma_kern k) = ma_kern k.
Proof. by destruct k as [[[[[]]]]]. Qed.

(** A hart other than the first waits until the first has initialised the
    kernel.  Then it reports itself, turns on paging with the kernel's page
    table, sets its trap vector, enables the two device interrupts for itself
    at the interrupt controller, and changes nothing else. *)
Theorem main_secondary (w : world (boot D V P)) : let s := w_st w in let k := bo_mach s in let h := ma_hart k in let id := i32 (h C_tp) in
  id <> 0 ->
  (bo_started s = 0 -> kmain w = Spin "main: started") /\
  (bo_started s <> 0 -> panicked (ma_uart k) = 0 -> L_pr ∉ w_held w ->
   wp kmain (fun _ (w' : world (boot D V P)) => exists u',
     sent (u_dev u') = sent (u_dev (ma_uart k)) ++ ascii_bytes "hart " ++ printint kdigits id 10 1 ++ text_line " starting" /\
     queue u' = queue (ma_uart k) /\
     w' = set_st (Boot (Mach (ma_kern k) (ma_cons k) u' (ma_disk k) (ma_bufs k) (ma_vdev k)
       (plic_write (PLIC_SPRIORITY id) 0 (plic_write (PLIC_SENABLE id) 0x402 (ma_plic k)))
       (set_csr C_stvec (u64 sym_kernelvec) (set_csr C_satp (u64 (MAKE_SATP (bo_kpgtbl s))) h)))
       (bo_locking s) (bo_kpgtbl s) (bo_started s)) w) w).
Proof.
  intros s k h id Hid. destruct w as [me held evs [k0 lk kpt st]]. subst s k h. cbn [w_st bo_mach bo_started bo_kpgtbl bo_locking w_held] in *. split.
  - intros ->. unfold kmain. cbv [mbind M_bind bmach mh zoom cpuid csrr r_tp gets mret M_ret get]. cbn [w_st w_me w_held w_evs bo_mach].
    fold id. by rewrite (proj2 (Z.eqb_neq id 0)).
  - intros Hst Hp Hl. unfold kmain. apply wp_bind, wp_zoom, wp_cpuid. cbn [w_st w_me w_held w_evs bo_mach bo_locking bo_kpgtbl bo_started]. fold id.
    rewrite (proj2 (Z.eqb_neq id 0)) by done. apply wp_bind, wp_get. cbn [w_st bo_started]. rewrite (proj2 (Z.eqb_neq st 0)) by done.
    apply wp_bind, wp_zoom. eapply kprintf_prints; [reflexivity| |done|done|].
    { repeat (apply Forall_cons; split; [cbn; lia|]). apply Forall_app. split; [apply decimal_bytes|]. apply (bool_decide_unpack _). by vm_compute. }
    intros [me1 held1 evs1 [[c1 u1 m1] lk1]] [P1 P2 P3 P4 P5 P6 P7 P8 P9]. cbn in P1, P2, P3, P4, P5, P6, P7, P8, P9. subst.
    cbn [w_st w_me w_held w_evs bo_mach bo_locking bo_kpgtbl bo_started pr_console pr_locking cs_mem cs_cons cs_uart]. rewrite with_phys_same.
    apply wp_inithart. cbn [ma_hart]. by exists u1.
Qed.
End main.

(** ** Witnesses *)

Section ex.
#[local] Existing Instance ex_exec_symbols.
#[local] Existing Instance ex_text.

(** A uart and a disk that have nothing to say. *)
#[local] Instance ex_quiet_uart : UartDev () := {| Uart.reg_read _ d := (0, d); Uart.reg_write _ _ d := d; polls _ := 1%nat |}.
#[local] Instance ex_quiet_disk : VirtioDev () :=
  {| Virtio.reg_read _ d := (0, d); Virtio.reg_write _ _ d := d; dev_step _ _ _ _ _ _ := False |}.

(** An interrupt controller with at most one pending interrupt. *)
Record ex_plic := ExPlic { xp_pending : Z; xp_service : Z -> gset Z }.
Definition ex_claimer (a : Z) : Z := (a - (PLIC + 0x201004)) / 0x2000.
Definition ex_claims (d : ex_plic) (h : Z) : bool :=
  negb (xp_pending d =? 0) && (0 <=? xp_pending d) && (xp_pending d <? 1024) && bool_decide (xp_pending d ∉ xp_service d h).
Definition ex_serving (h : Z) (l : gset Z) (f : Z -> gset Z) : Z -> gset Z := fun h' => if decide (h' = h) then l else f h'.
#[local] Instance ex_plic_dev : PlicDev ex_plic := {|
  plic_read a d := let h := ex_claimer a in
    if ex_claims d h then (xp_pending d, ExPlic 0 (ex_serving h ({[xp_pending d]} ∪ xp_service d h) (xp_service d))) else (0, d);
  plic_write a v d := let h := ex_claimer a in ExPlic (xp_pending d) (ex_serving h (xp_service d h ∖ {[v]}) (xp_service d)) |}.

Lemma ex_claimer_claim h : ex_claimer (PLIC_SCLAIM h) = h.
Proof. unfold ex_claimer, PLIC_SCLAIM. replace (PLIC + 0x201004 + h * 0x2000 - (PLIC + 0x201004)) with (h * 0x2000) by lia. by apply Z.div_mul. Qed.

#[local] Instance ex_plic_laws : PlicLaws ex_plic.
Proof.
  refine {| in_service := xp_service |}; intros h d; cbn [plic_read plic_write ex_plic_dev]; rewrite ex_claimer_claim; unfold ex_claims.
  - destruct (_ && _) eqn:E; cbn; [|lia]. rewrite !andb_true_iff, Z.leb_le, Z.ltb_lt in E. lia.
  - destruct (Z.eqb_spec (xp_pending d) 0); [done|]. destruct (_ && _); [|done]. cbn. congruence.
  - intros irq. destruct (_ && _) eqn:E; cbn; [|congruence]. intros <- Hz. rewrite !andb_true_iff, bool_decide_eq_true in E. by split; [apply E|].
  - done.
Defined.

Definition ex_regs (scause sstatus : Z) : hart := fun c => match c with C_scause => scause | C_sstatus => sstatus | C_sepc => 64 | _ => 0 end.
Definition ex_mach (m : memory) (pending : Z) (h : hart) : mach bcache () () ex_plic :=
  Mach (Kern (PSt (ex_kenv (Phys m 0)) (repeat ex_sleeper 64) 2 (Some 0%nat) 0) 7) (Cons [] 0 0 0) (Uart () 0 [] 0 0)
    (Disk [] 0 [] 0 [] [] 0 [] [] (0, 0, 0)) [] () (ExPlic pending (fun _ => ∅)) h.
Definition ex_trapped (m : memory) (pending : Z) (h : hart) : world (mach bcache () () ex_plic) := World (Me 0 1 0 0) [] [] (ex_mach m pending h).
Definition ex_no_devs (_ : Z) : devsw bcache phys := Devsw None None.

(** Process 1 calls [getpid] at address 64. *)
Lemma getpid_trap_witness : exists w', usertrap [] ex_no_devs [] [] [] (ex_trapped (store64 (p_mem ex_phys) tf_a7 11) 0 (ex_regs 8 0)) = Ok (ToUser (MAKE_SATP 0)) w' /\
  ma_hart (w_st w') C_sepc = 68 /\ load64 (ma_mem (w_st w')) tf_a0 = 1.
Proof.
  destruct (wp_elim _ _ _ (getpid_trap [] ex_no_devs [] [] [] ex_sleeper (ex_trapped (store64 (p_mem ex_phys) tf_a7 11) 0 (ex_regs 8 0))
    eq_refl eq_refl eq_refl eq_refl (not_elem_of_nil _) eq_refl)) as (r & w' & Hrun & -> & _ & _ & _ & _ & _ & Hpc & _ & Ha0 & _).
  exists w'. split; [exact Hrun|]. split; [exact Hpc|exact Ha0].
Defined.

(** A page fault. *)
Lemma usertrap_fault_witness : wlp (usertrap [] ex_no_devs [] [] []) (fun r _ => r = TrapExit) (ex_trapped (p_mem ex_phys) 0 (ex_regs 13 0)).
Proof. apply usertrap_fault; [discriminate|reflexivity|reflexivity]. Defined.

(** A pending uart interrupt. *)
Lemma devintr_completes_witness : is_external 0x8000000000000009 = true /\
  wlp (devintr []) (fun r w' => in_service (ma_plic (w_st w')) 0 = ∅ /\ r = 1) (ex_trapped (p_mem ex_phys) 10 (ex_regs 0x8000000000000009 0)).
Proof. split; [reflexivity|]. exact (devintr_completes [] (ex_trapped (p_mem ex_phys) 10 (ex_regs 0x8000000000000009 0)) 0). Defined.

(** A tick while process 0 runs in the kernel. *)
Lemma kerneltrap_timer_witness : exists w', kerneltrap [] (ex_trapped (p_mem ex_phys) 0 (ex_regs 0x8000000000000001 256)) = Ok (Some (64, 256)) w' /\
  kn_ticks (ma_kern (w_st w')) = 8.
Proof.
  destruct (wp_elim _ _ _ (kerneltrap_timer [] (ex_trapped (p_mem ex_phys) 0 (ex_regs 0x8000000000000001 256))
    ltac:(intros []; cbn; lia) ltac:(discriminate) eq_refl eq_refl eq_refl eq_refl eq_refl)) as (r & w' & Hrun & _ & _ & _ & Hst & _).
  exists w'. split; [|by rewrite Hst].
  rewrite Hrun. f_equal. apply (f_equal (fun o => match o with Ok r _ => r | _ => None end)) in Hrun. vm_compute in Hrun. by rewrite <- Hrun.
Defined.
End ex.
