(* ===== verification/Mkfs.v ===== *)
(** mkfs/mkfs.c: the tool that makes the file system image. *)

From S2P Require Import Prelude Bytes BlockStore Log Fs.

(** ** The image *)

Definition FSSIZE : Z := 2000.
Definition NINODES : Z := 200.
Definition nbitmap : Z := FSSIZE / (BSIZE * 8) + 1.
Definition ninodeblocks : Z := NINODES / IPB + 1.
Definition nlog : Z := LOGSIZE.
Definition nmeta : Z := 2 + nlog + ninodeblocks + nbitmap.
Definition nblocks : Z := FSSIZE - nmeta.
Definition zeroes : list Z := repeat 0 (Z.to_nat BSIZE).

(** The image file as a list of sectors, and the counters. *)
Record mkst := Mkst {
  mk_img : list (list Z);
  mk_freeinode : Z;
  mk_freeblock : Z }.

(** A step ends the program with a message, or goes on. *)
Definition mkm (A : Type) : Type := mkst -> string + A * mkst.
#[global] Instance mkm_ret : MRet mkm := fun A a s => inr (a, s).
#[global] Instance mkm_bind : MBind mkm := fun A B f m s => match m s with inl e => inl e | inr (a, s') => f a s' end.
Definition die {A} (msg : string) : mkm A := fun _ => inl msg.
Definition assert (b : bool) : mkm () := if b then mret () else die "assert".
Definition mget {A} (f : mkst -> A) : mkm A := fun s => inr (f s, s).
Definition mset (f : mkst -> mkst) : mkm () := fun s => inr ((), f s).

(** [xshort] and [xint]: the value whose bytes on a little-endian host are the
    low bytes of [x]. *)
Definition xshort (x : Z) : Z := le_value [u8 x; u8 (Z.shiftr x 8)].
Definition xint (x : Z) : Z := le_value [u8 x; u8 (Z.shiftr x 8); u8 (Z.shiftr x 16); u8 (Z.shiftr x 24)].

Definition sb : superblock :=
  Superblock FSMAGIC (xint FSSIZE) (xint nblocks) (xint NINODES) (xint nlog) (xint 2) (xint (2 + nlog)) (xint (2 + nlog + ninodeblocks)).
Definition sb_bytes : list Z :=
  le_bytes 4 (sb_magic sb) ++ le_bytes 4 (sb_size sb) ++ le_bytes 4 (sb_nblocks sb) ++ le_bytes 4 (sb_ninodes sb) ++
  le_bytes 4 (sb_nlog sb) ++ le_bytes 4 (sb_logstart sb) ++ le_bytes 4 (sb_inodestart sb) ++ le_bytes 4 (sb_bmapstart sb).

(** Writing after the end of the file fills the gap with zeros; reading there
    does not give a whole sector. *)
Definition put_sect (img : list (list Z)) (sec : Z) (buf : list Z) : list (list Z) :=
  if (Z.to_nat sec <? length img)%nat then <[Z.to_nat sec := buf]> img
  else img ++ repeat zeroes (Z.to_nat sec - length img) ++ [buf].
Definition wsect (sec : Z) (buf : list Z) : mkm () := mset (fun s => Mkst (put_sect (mk_img s) sec buf) (mk_freeinode s) (mk_freeblock s)).
Definition rsect (sec : Z) : mkm (list Z) :=
  img ← mget mk_img;
  match img !! Z.to_nat sec with Some b => mret b | None => die "read" end.

Definition winode (inum : Z) (ip : dinode) : mkm () :=
  let bn := IBLOCK inum sb in
  buf ← rsect bn;
  wsect bn (put_dinode buf (dinode_off inum) ip).
Definition rinode (inum : Z) : mkm dinode :=
  buf ← rsect (IBLOCK inum sb);
  mret (dinode_at buf (dinode_off inum)).

Definition ialloc (type : Z) : mkm Z :=
  inum ← mget mk_freeinode;
  mset (fun s => Mkst (mk_img s) (u32 (mk_freeinode s + 1)) (mk_freeblock s));;
  winode inum (Dinode (xshort type) 0 0 (xshort 1) (xint 0) (repeat 0 13));;
  mret inum.

(** The loop of [balloc] from [i]. *)
Fixpoint balloc_fill (n : nat) (i : Z) (buf : list Z) : list Z :=
  match n with
  | O => buf
  | S n' => balloc_fill n' (i + 1) (set_bit buf i)
  end.
Definition balloc (used : Z) : mkm () :=
  assert (used <? BSIZE * 8);;
  wsect (sb_bmapstart sb) (balloc_fill (Z.to_nat used) 0 zeroes).

(** A block for the next address: [freeblock++]. *)
Definition next_block : mkm Z :=
  b ← mget mk_freeblock;
  mset (fun s => Mkst (mk_img s) (mk_freeinode s) (u32 (mk_freeblock s + 1)));;
  mret b.
Definition set_daddr (k : nat) (a : Z) (d : dinode) : dinode :=
  Dinode (d_type d) (d_major d) (d_minor d) (d_nlink d) (d_size d) (<[k := a]> (d_addrs d)).
Definition set_dsize (n : Z) (d : dinode) : dinode :=
  Dinode (d_type d) (d_major d) (d_minor d) (d_nlink d) n (d_addrs d).
Definition daddr (d : dinode) (k : Z) : Z := nth (Z.to_nat k) (d_addrs d) 0.

(** The part of the loop of [iappend] that finds block [fbn] of the file. *)
Definition iappend_block (din : dinode) (fbn : Z) : mkm (dinode * Z) :=
  if fbn <? NDIRECT then
    din ← (if xint (daddr din fbn) =? 0 then b ← next_block; mret (set_daddr (Z.to_nat fbn) (xint b) din) else mret din);
    mret (din, xint (daddr din fbn))
  else
    din ← (if xint (daddr din NDIRECT) =? 0 then b ← next_block; mret (set_daddr (Z.to_nat NDIRECT) (xint b) din) else mret din);
    indirect ← rsect (xint (daddr din NDIRECT));
    let k := Z.to_nat (4 * (fbn - NDIRECT)) in
    indirect ← (if get32 indirect k =? 0 then
                  b ← next_block;
                  let indirect := put32 indirect k (xint b) in
                  wsect (xint (daddr din NDIRECT)) indirect;;
                  mret indirect
                else mret indirect);
    mret (din, xint (get32 indirect k)).

(** The loop of [iappend]; [p] are the bytes still to be written. *)
Fixpoint iappend_loop (fuel : nat) (din : dinode) (off : Z) (p : list Z) : mkm (dinode * Z) :=
  match fuel with
  | O => die "iappend: fuel"
  | S f =>
      let n := Z.of_nat (length p) in
      if n >? 0 then
        let fbn := off / BSIZE in
        assert (fbn <? MAXFILE);;
        r ← iappend_block din fbn;
        let '(din, x) := r : dinode * Z in
        let n1 := Z.to_nat (Z.min n ((fbn + 1) * BSIZE - off)) in
        buf ← rsect x;
        wsect x (splice buf (Z.to_nat (off - fbn * BSIZE)) (take n1 p));;
        iappend_loop f din (u32 (off + Z.of_nat n1)) (drop n1 p)
      else mret (din, off)
  end.
Definition iappend (inum : Z) (xp : list Z) : mkm () :=
  din ← rinode inum;
  r ← iappend_loop (S (length xp)) din (xint (d_size din)) xp;
  winode inum (set_dsize (xint (snd r)) (fst r)).

(** ** main *)

Fixpoint zero_image (n : nat) (i : Z) : mkm () :=
  match n with
  | O => mret ()
  | S n' => wsect i zeroes;; zero_image n' (i + 1)
  end.

(** A directory entry with [name] copied by [strncpy] or [strcpy] over zeros. *)
Definition dirent (inum : Z) (name : list Z) : list Z :=
  dirent_bytes (xshort inum) (take (Z.to_nat DIRSIZ) (name ++ repeat 0 (Z.to_nat DIRSIZ))).

(** Names of files without NUL bytes; opening a file of the host gives what
    the following calls of [read] return, each a part of the file of at most
    BSIZE bytes. *)
Definition user_dir : list Z := [117; 115; 101; 114; 47].
Definition shortname (arg : list Z) : list Z := if decide (take 5 arg = user_dir) then drop 5 arg else arg.
Definition no_underscore (name : list Z) : list Z := match name with 95 :: name' => name' | _ => name end.

Fixpoint append_all (inum : Z) (reads : list (list Z)) : mkm () :=
  match reads with
  | [] => mret ()
  | buf :: reads' => iappend inum buf;; append_all inum reads'
  end.

Section main.
Variable open : list Z -> option (list (list Z)).

(** One round of the loop over the arguments. *)
Definition add_file (rootino : Z) (arg : list Z) : mkm () :=
  let name := shortname arg in
  assert (bool_decide (47 ∉ name));;
  match open arg with
  | None => die "open"
  | Some reads =>
      let name := no_underscore name in
      inum ← ialloc T_FILE;
      iappend rootino (dirent inum name);;
      append_all inum reads
  end.

Fixpoint add_files (rootino : Z) (args : list (list Z)) : mkm () :=
  match args with
  | [] => mret ()
  | arg :: args' => add_file rootino arg;; add_files rootino args'
  end.

(** The end of [main]: the size of the root directory is rounded up. *)
Definition fix_root (rootino : Z) : mkm () :=
  din ← rinode rootino;
  let off := xint (d_size din) in
  let off := u32 ((off / BSIZE + 1) * BSIZE) in
  winode rootino (set_dsize (xint off) din).

(** [main] with the arguments after the name of the program; [create] opens
    the image, which is empty then. *)
Definition main (create : list Z -> bool) (args : list (list Z)) : mkm () :=
  match args with
  | [] => die "Usage: mkfs fs.img files..."
  | image :: files =>
      assert (BSIZE mod sizeof_dinode =? 0);;
      assert (BSIZE mod sizeof_dirent =? 0);;
      if negb (create image) then die "image"
      else
        mset (fun s => Mkst [] (mk_freeinode s) nmeta);;
        zero_image (Z.to_nat FSSIZE) 0;;
        wsect 1 (splice zeroes 0 sb_bytes);;
        rootino ← ialloc T_DIR;
        assert (rootino =? ROOTINO);;
        iappend rootino (dirent rootino [46]);;
        iappend rootino (dirent rootino [46; 46]);;
        add_files rootino files;;
        fix_root rootino;;
        used ← mget mk_freeblock;
        balloc used
  end.
End main.

(** The state the program starts in. *)
Definition mk_start : mkst := Mkst [] 1 0.
