(* ===== verification/MkfsSpec.v ===== *)
(** The files of an image that mkfs makes: their block maps and contents, and
    what [iappend] of mkfs/mkfs.c does to them. *)

From S2P Require Import Prelude KMonad UserMem Bytes Sleeplock BlockStore Log Fs FsSpec FsFile FsInode Mkfs.

(** ** Integers of the disk format *)

Lemma xint_u32 x : xint x = u32 x.
Proof.
  unfold xint. replace [u8 x; u8 (Z.shiftr x 8); u8 (Z.shiftr x 16); u8 (Z.shiftr x 24)] with (le_bytes 4 x).
  - rewrite le_value_bytes. done.
  - unfold le_bytes, byte_at, u8. cbn [seq map]. rewrite !Z.shiftr_div_pow2 by lia. rewrite Z.div_1_r. done.
Qed.
Lemma xint_small x : 0 <= x < 2 ^ 32 -> xint x = x.
Proof. intros H. rewrite xint_u32. by apply u32_small. Qed.

Lemma xshort_small x : 0 <= x < 2 ^ 16 -> xshort x = x.
Proof.
  intros H. unfold xshort. replace [u8 x; u8 (Z.shiftr x 8)] with (le_bytes 2 x).
  - rewrite le_value_bytes. by apply Z.mod_small.
  - unfold le_bytes, byte_at, u8. cbn [seq map]. rewrite Z.shiftr_div_pow2 by lia. by rewrite Z.div_1_r.
Qed.

(** ** Runs *)

Definition mwp {A} (m : mkm A) (Q : A -> mkst -> Prop) (s : mkst) : Prop :=
  match m s with inr (a, s') => Q a s' | inl _ => False end.

Lemma mwp_ret {A} (a : A) (Q : A -> mkst -> Prop) s : Q a s -> mwp (mret a) Q s.
Proof. done. Qed.
Lemma mwp_bind {A B} (m : mkm A) (f : A -> mkm B) Q s : mwp m (fun a => mwp (f a) Q) s -> mwp (m ≫= f) Q s.
Proof. unfold mwp, mbind, mkm_bind. destruct (m s) as [e|[a s']]; [done|]. by destruct (f a s'). Qed.
Lemma mwp_mono {A} (m : mkm A) (Q R : A -> mkst -> Prop) s : (forall a s', Q a s' -> R a s') -> mwp m Q s -> mwp m R s.
Proof. unfold mwp. destruct (m s) as [e|[a s']]; auto. Qed.
Lemma mwp_mget {A} (f : mkst -> A) (Q : A -> mkst -> Prop) s : Q (f s) s -> mwp (mget f) Q s.
Proof. done. Qed.
Lemma mwp_mset f (Q : () -> mkst -> Prop) s : Q () (f s) -> mwp (mset f) Q s.
Proof. done. Qed.
Lemma mwp_assert b (Q : () -> mkst -> Prop) s : b = true -> Q () s -> mwp (assert b) Q s.
Proof. by intros ->. Qed.

(** The image holds the sectors [v]. *)
Record mrep (s : mkst) (v : Z -> list Z) (fi fb : Z) : Prop := {
  mr_len : length (mk_img s) = Z.to_nat FSSIZE;
  mr_img b : 0 <= b < FSSIZE -> mk_img s !! Z.to_nat b = Some (v b);
  mr_sect b : length (v b) = Z.to_nat BSIZE;
  mr_fi : mk_freeinode s = fi;
  mr_fb : mk_freeblock s = fb }.

Lemma mwp_rsect s v fi fb b (Q : list Z -> mkst -> Prop) : mrep s v fi fb -> 0 <= b < FSSIZE -> Q (v b) s -> mwp (rsect b) Q s.
Proof. intros H Hb HQ. apply mwp_bind, mwp_mget. rewrite (mr_img _ _ _ _ H) by done. done. Qed.

Lemma mwp_wsect s v fi fb b buf (Q : () -> mkst -> Prop) : mrep s v fi fb -> 0 <= b < FSSIZE -> length buf = Z.to_nat BSIZE ->
  (forall s', mrep s' (fupd v b buf) fi fb -> Q () s') -> mwp (wsect b buf) Q s.
Proof.
  intros H Hb Hl HQ. apply mwp_mset, HQ. destruct H as [H1 H2 H3 H4 H5]. unfold put_sect. change FSSIZE with 2000 in *.
  rewrite (proj2 (Nat.ltb_lt _ _)) by lia. split; cbn [mk_img mk_freeinode mk_freeblock]; [by rewrite length_insert| | |done|done].
  - intros k Hk. unfold fupd. case_decide as Hd.
    + subst k. rewrite list_lookup_insert_eq by lia. done.
    + rewrite list_lookup_insert_ne by lia. by apply H2.
  - intros k. unfold fupd. by case_decide.
Qed.

Lemma mwp_next s v fi fb (Q : Z -> mkst -> Prop) : mrep s v fi fb -> 0 <= fb < FSSIZE ->
  (forall s', mrep s' v fi (fb + 1) -> Q fb s') -> mwp next_block Q s.
Proof.
  intros H Hb HQ. pose proof (mr_fb _ _ _ _ H) as <-. apply mwp_bind, mwp_mget, mwp_bind, mwp_mset, mwp_ret. apply HQ.
  destruct H as [H1 H2 H3 H4 H5]. split; try done. cbn. apply u32_small. change FSSIZE with 2000 in *. lia.
Qed.

(** ** Files *)

(** The block map with addresses [l], as [addr_of] and [ind_of] read it. *)
Definition aind (l : list Z) : Z := nth (Z.to_nat NDIRECT) l 0.
Definition amap (v : Z -> list Z) (l : list Z) (bn : Z) : Z :=
  if bn <? NDIRECT then nth (Z.to_nat bn) l 0
  else if aind l =? 0 then 0
  else get32 (v (aind l)) (Z.to_nat (4 * (bn - NDIRECT))).
Definition abyte (v : Z -> list Z) (l : list Z) (i : Z) : Z := nth (Z.to_nat (i mod BSIZE)) (v (amap v l (i / BSIZE))) 0.

(** A data block below [fb]. *)
Definition dat (fb b : Z) : Prop := nmeta <= b < fb.

(** The file with addresses [l] has [k] blocks, and an indirect block if [hi];
    it holds [c], with zeros up to the end of its blocks. *)
Record fileat (v : Z -> list Z) (fb : Z) (l c : list Z) (k : Z) (hi : bool) : Prop := {
  fa_len : length l = 13%nat;
  fa_k : 0 <= k <= MAXFILE;
  fa_c : Z.of_nat (length c) <= k * BSIZE;
  fa_hi : hi = false -> k <= NDIRECT;
  fa_ind : if hi then dat fb (aind l) else aind l = 0;
  fa_addr bn : 0 <= bn < MAXFILE -> if bn <? k then dat fb (amap v l bn) else amap v l bn = 0;
  fa_inj bn bn' : 0 <= bn < k -> 0 <= bn' < k -> amap v l bn = amap v l bn' -> bn = bn';
  fa_ne bn : 0 <= bn < k -> amap v l bn <> aind l;
  fa_bytes i : 0 <= i < k * BSIZE -> abyte v l i = nth (Z.to_nat i) c 0 }.

(** The blocks of a file. *)
Definition owns (v : Z -> list Z) (l : list Z) (b : Z) : Prop :=
  b <> 0 /\ (aind l = b \/ exists bn, 0 <= bn < MAXFILE /\ amap v l bn = b).

Lemma nmeta_eq : nmeta = 46.
Proof. done. Qed.
Lemma maxfile_eq : MAXFILE = 268.
Proof. done. Qed.

Section fileat.
Context {v : Z -> list Z} {fb : Z} {l c : list Z} {k : Z} {hi : bool}.
Hypothesis F : fileat v fb l c k hi.

Lemma owns_dat b : owns v l b -> dat fb b.
Proof using F.
  intros [Hb [H|(bn & Hbn & H)]].
  - pose proof (fa_ind _ _ _ _ _ _ F) as Hi. destruct hi; [by rewrite H in Hi|congruence].
  - pose proof (fa_addr _ _ _ _ _ _ F bn Hbn) as Ha. destruct (bn <? k); [by rewrite H in Ha|congruence].
Qed.

Lemma addr_dat bn : 0 <= bn < k -> dat fb (amap v l bn).
Proof using F. intros Hb. pose proof (fa_k _ _ _ _ _ _ F). pose proof (fa_addr _ _ _ _ _ _ F bn ltac:(lia)) as Ha. by rewrite (proj2 (Z.ltb_lt _ _)) in Ha by lia. Qed.

Lemma addr_none bn : k <= bn < MAXFILE -> amap v l bn = 0.
Proof using F. intros Hb. pose proof (fa_k _ _ _ _ _ _ F). pose proof (fa_addr _ _ _ _ _ _ F bn ltac:(lia)) as Ha. by rewrite (proj2 (Z.ltb_ge _ _)) in Ha by lia. Qed.

Lemma owns_addr bn : 0 <= bn < k -> owns v l (amap v l bn).
Proof using F.
  intros Hb. pose proof (addr_dat bn Hb) as [Ha _]. rewrite nmeta_eq in Ha. pose proof (fa_k _ _ _ _ _ _ F). split; [lia|]. right. exists bn. split; [lia|done].
Qed.

(** Only the blocks of a file matter to it. *)
Lemma amap_frame v' bn : (forall b, owns v l b -> v' b = v b) -> amap v' l bn = amap v l bn.
Proof using F.
  intros H. unfold amap. destruct (bn <? NDIRECT); [done|]. destruct (Z.eqb_spec (aind l) 0) as [|Hz]; [done|].
  rewrite H; [done|]. split; [done|by left].
Qed.
Lemma fileat_frame v' fb' : fb <= fb' -> (forall b, owns v l b -> v' b = v b) -> fileat v' fb' l c k hi.
Proof using F.
  intros Hfb H. destruct F as [F1 F2 F3 F4 F5 F6 F7 F8 F9].
  split; try done; unfold abyte; intros; rewrite ?(amap_frame v') by done.
  - destruct hi; [|done]. unfold dat in *. lia.
  - specialize (F6 bn ltac:(done)). destruct (bn <? k); [unfold dat in *; lia|done].
  - apply F7; [done|done|]. rewrite <- !(amap_frame v') by done. done.
  - by apply F8.
  - assert (Hq : 0 <= i / BSIZE < k) by (split; [apply Z.div_pos; [lia|done]|apply Z.div_lt_upper_bound; [done|lia]]).
    rewrite H by (by apply owns_addr). by apply F9.
Qed.
End fileat.

Lemma nth_zeroes i : nth i zeroes 0 = 0.
Proof. unfold zeroes. destruct (decide (i < Z.to_nat BSIZE)%nat); [by apply nth_repeat|apply nth_overflow; rewrite repeat_length; lia]. Qed.
Lemma get32_zeroes off : get32 zeroes off = 0.
Proof. apply get32_zero. Qed.

(** Changing an address of the list. *)
Lemma nth_insert_ne (l : list Z) i j (a : Z) : i <> j -> nth i (<[j := a]> l) 0 = nth i l 0.
Proof. intros H. rewrite !nth_lookup. by rewrite list_lookup_insert_ne. Qed.
Lemma nth_insert_eq (l : list Z) i (a : Z) : (i < length l)%nat -> nth i (<[i := a]> l) 0 = a.
Proof. intros H. rewrite nth_lookup. by rewrite list_lookup_insert_eq. Qed.

(** A file with one more block, which is zero: what the block map must be. *)
Lemma fileat_extend v fb l c k hi v' fb' l' x :
  fileat v fb l c k hi -> k < MAXFILE -> (hi = false -> k < NDIRECT) -> fb <= x < fb' -> nmeta <= fb -> v x = zeroes -> length l' = 13%nat ->
  aind l' = aind l -> (forall bn, 0 <= bn < MAXFILE -> amap v' l' bn = if decide (bn = k) then x else amap v l bn) ->
  (forall b, b <> aind l -> v' b = v b) -> fileat v' fb' l' c (k + 1) hi.
Proof.
  intros F Hk Hh Hx Hm Hz Hl Hi Ha Hv. pose proof F as [F1 F2 F3 F4 F5 F6 F7 F8 F9]. change BSIZE with 1024 in *. change NDIRECT with 12 in *.
  assert (Hold : forall bn, 0 <= bn < k -> amap v' l' bn = amap v l bn /\ nmeta <= amap v l bn < fb).
  { intros bn Hb. rewrite Ha, decide_False by lia. split; [done|]. by apply (addr_dat F). }
  assert (Hnew : amap v' l' k = x) by (rewrite Ha, decide_True by lia; done).
  assert (Hxi : x <> aind l) by (destruct hi; [unfold dat in F5; lia|rewrite nmeta_eq in *; lia]).
  split; try (done || (change BSIZE with 1024; lia)).
  - intros E. specialize (Hh E). change NDIRECT with 12. lia.
  - rewrite Hi. destruct hi; [unfold dat in *; lia|done].
  - intros bn Hb. destruct (Z.ltb_spec bn (k + 1)) as [H1|H1].
    + destruct (decide (bn = k)) as [->|Hne]; [rewrite Hnew; unfold dat; lia|]. destruct (Hold bn ltac:(lia)) as [-> ?]. unfold dat. lia.
    + rewrite Ha, decide_False by lia. apply (addr_none F). lia.
  - intros bn bn' Hb Hb' E. destruct (decide (bn = k)) as [->|Hne], (decide (bn' = k)) as [->|Hne']; [done| | |].
    + destruct (Hold bn' ltac:(lia)). lia.
    + destruct (Hold bn ltac:(lia)). lia.
    + destruct (Hold bn ltac:(lia)) as [E1 _], (Hold bn' ltac:(lia)) as [E2 _]. apply F7; [lia|lia|congruence].
  - intros bn Hb. rewrite Hi. destruct (decide (bn = k)) as [->|Hne]; [congruence|]. destruct (Hold bn ltac:(lia)) as [-> _]. apply F8. lia.
  - intros i Hib. change BSIZE with 1024 in *. unfold abyte. change BSIZE with 1024. pose proof (Z.div_mod i 1024 ltac:(lia)) as Hdm. pose proof (Z.mod_pos_bound i 1024 ltac:(lia)) as Hmb.
    destruct (decide (i / 1024 = k)) as [E|Hne].
    + rewrite E, Hnew, Hv, Hz, nth_zeroes by done. symmetry. apply nth_overflow. lia.
    + destruct (Hold (i / 1024) ltac:(lia)) as [-> _]. rewrite Hv by (apply F8; lia). apply F9. lia.
Qed.

Lemma fileat_direct v fb l c k hi : fileat v fb l c k hi -> k < NDIRECT -> nmeta <= fb -> v fb = zeroes ->
  fileat v (fb + 1) (<[Z.to_nat k := fb]> l) c (k + 1) hi.
Proof.
  intros F Hk Hm Hz. pose proof (fa_len _ _ _ _ _ _ F) as Hl. pose proof (fa_k _ _ _ _ _ _ F) as Hk0. change NDIRECT with 12 in *. rewrite maxfile_eq in *.
  assert (Hi : aind (<[Z.to_nat k := fb]> l) = aind l) by (unfold aind; apply nth_insert_ne; change NDIRECT with 12; lia).
  eapply (fileat_extend v fb l c k hi v (fb + 1) _ fb); try (done || lia).
  - rewrite maxfile_eq. lia.
  - by rewrite length_insert.
  - intros bn Hb. unfold amap. rewrite Hi. change NDIRECT with 12. destruct (Z.ltb_spec bn 12).
    + case_decide as E; [subst; apply nth_insert_eq; lia|apply nth_insert_ne; lia].
    + by rewrite decide_False by lia.
Qed.

Lemma fileat_new_ind v fb l c : fileat v fb l c NDIRECT false -> nmeta <= fb -> v fb = zeroes ->
  fileat v (fb + 1) (<[Z.to_nat NDIRECT := fb]> l) c NDIRECT true.
Proof.
  intros F Hm Hz. pose proof F as [F1 F2 F3 F4 F5 F6 F7 F8 F9]. change NDIRECT with 12 in *. rewrite nmeta_eq in Hm.
  assert (Hi : aind (<[Z.to_nat 12 := fb]> l) = fb) by (unfold aind; apply nth_insert_eq; lia).
  assert (Ha : forall bn, 0 <= bn < MAXFILE -> amap v (<[Z.to_nat 12 := fb]> l) bn = amap v l bn).
  { intros bn Hb. unfold amap. rewrite Hi, F5. change NDIRECT with 12. destruct (Z.ltb_spec bn 12); [apply nth_insert_ne; lia|].
    rewrite (proj2 (Z.eqb_neq fb 0)) by lia. rewrite Hz. apply get32_zeroes. }
  rewrite maxfile_eq in *. split; try done.
  - by rewrite length_insert.
  - rewrite Hi. unfold dat. rewrite nmeta_eq. lia.
  - intros bn Hb. rewrite Ha by done. specialize (F6 bn Hb). destruct (bn <? 12); [unfold dat in *; lia|done].
  - intros bn bn' Hb Hb'. rewrite !Ha by lia. by apply F7.
  - intros bn Hb. rewrite Ha, Hi by lia. pose proof (addr_dat F bn Hb) as Hd. unfold dat in Hd. lia.
  - intros i Hib. unfold abyte. rewrite Ha; [by apply F9|]. change BSIZE with 1024 in *.
    split; [apply Z.div_pos; lia|apply Z.div_lt_upper_bound; lia].
Qed.

Lemma fileat_indirect v fb l c k : fileat v fb l c k true -> NDIRECT <= k < MAXFILE -> nmeta <= fb < 2 ^ 32 -> v fb = zeroes ->
  length (v (aind l)) = Z.to_nat BSIZE ->
  fileat (fupd v (aind l) (put32 (v (aind l)) (Z.to_nat (4 * (k - NDIRECT))) fb)) (fb + 1) l c (k + 1) true.
Proof.
  intros F Hk Hm Hz Hlen. pose proof (fa_ind _ _ _ _ _ _ F) as Hi. unfold dat in Hi. rewrite nmeta_eq in Hi.
  eapply (fileat_extend v fb l c k true _ (fb + 1) l fb); try (done || lia).
  - apply F.
  - intros bn Hb. unfold amap. rewrite maxfile_eq in *. change NDIRECT with 12 in *. change BSIZE with 1024 in *. destruct (Z.ltb_spec bn 12); [by rewrite decide_False by lia|].
    rewrite (proj2 (Z.eqb_neq _ _)) by lia. rewrite fupd_same. case_decide as E.
    + subst. rewrite get_put_le_same by lia. apply Z.mod_small. lia.
    + apply get_put_le_other; lia.
  - intros b Hb. by apply fupd_other.
Qed.

(** Bytes written behind the contents, in a block the file has. *)
Lemma fileat_write v fb l c k hi s :
  let off := Z.of_nat (length c) in let x := amap v l (off / BSIZE) in
  fileat v fb l c k hi -> off / BSIZE < k -> off mod BSIZE + Z.of_nat (length s) <= BSIZE -> length (v x) = Z.to_nat BSIZE ->
  fileat (fupd v x (splice (v x) (Z.to_nat (off mod BSIZE)) s)) fb l (c ++ s) k hi.
Proof.
  intros off x F Hk Hs Hlen. pose proof F as [F1 F2 F3 F4 F5 F6 F7 F8 F9]. pose proof (Z.div_pos off BSIZE ltac:(lia) ltac:(done)) as Hq.
  assert (Hxi : x <> aind l) by (apply F8; lia).
  assert (Ha : forall bn v', amap (fupd v x v') l bn = amap v l bn).
  { intros bn v'. unfold amap. destruct (bn <? NDIRECT); [done|]. destruct (_ =? 0); [done|]. by rewrite fupd_other. }
  change BSIZE with 1024 in *. pose proof (Z.div_mod off 1024 ltac:(lia)) as Hdm. pose proof (Z.mod_pos_bound off 1024 ltac:(lia)) as Hmb.
  split; try done.
  - rewrite length_app. change BSIZE with 1024. lia.
  - intros bn Hb. rewrite Ha. by apply F6.
  - intros bn bn' Hb Hb'. rewrite !Ha. by apply F7.
  - intros bn Hb. rewrite Ha. by apply F8.
  - intros i Hib. unfold abyte. rewrite Ha. change BSIZE with 1024 in *. pose proof (Z.div_mod i 1024 ltac:(lia)) as Hdi. pose proof (Z.mod_pos_bound i 1024 ltac:(lia)) as Hmi.
    specialize (F9 i Hib). unfold abyte in F9. change BSIZE with 1024 in F9. destruct (decide (i / 1024 = off / 1024)) as [E|E].
    + rewrite E in *. fold x in F9 |- *. rewrite fupd_same. rewrite nth_lookup, lookup_splice by lia. case_decide as Hd.
      * rewrite app_nth2 by lia. rewrite nth_lookup. do 2 f_equal. lia.
      * rewrite nth_lookup in F9. rewrite F9. destruct (decide (i < off)); [by rewrite app_nth1 by lia|].
        rewrite !nth_overflow; [done|rewrite length_app; lia|lia].
    + rewrite fupd_other.
      * rewrite F9. destruct (decide (i < off)); [by rewrite app_nth1 by lia|]. rewrite !nth_overflow; [done|rewrite length_app; lia|lia].
      * intros E2. apply E. apply F7; [|lia|done]. split; [apply Z.div_pos; lia|apply Z.div_lt_upper_bound; lia].
Qed.

(** What a step on one file may change: its blocks, and fresh ones. *)
Record enlarged (v : Z -> list Z) (l : list Z) (fb : Z) (v' : Z -> list Z) (l' : list Z) (fb' : Z) : Prop := {
  gn_fb : fb <= fb' <= FSSIZE;
  gn_old b : dat fb b -> ~ owns v l b -> v' b = v b;
  gn_owns b : owns v' l' b -> owns v l b \/ fb <= b;
  gn_meta b : b < nmeta -> v' b = v b;
  gn_fresh : (forall b, fb <= b -> v b = zeroes) -> forall b, fb' <= b -> v' b = zeroes }.

Lemma enlarged_refl v l fb : fb <= FSSIZE -> enlarged v l fb v l fb.
Proof. intros H. split; auto. lia. Qed.
Lemma enlarged_trans v l fb v1 l1 fb1 v2 l2 fb2 : enlarged v l fb v1 l1 fb1 -> enlarged v1 l1 fb1 v2 l2 fb2 -> enlarged v l fb v2 l2 fb2.
Proof.
  intros [A1 A2 A3 A4 A5] [B1 B2 B3 B4 B5]. split.
  - lia.
  - intros b Hb Hn. rewrite <- (A2 b Hb Hn). apply B2; [unfold dat in *; lia|]. intros [H|H]%A3; [done|unfold dat in *; lia].
  - intros b [H|H]%B3; [by apply A3|right; lia].
  - intros b Hb. rewrite B4, A4 by done. done.
  - intros H b Hb. apply B5; [by apply A5|done].
Qed.

(** ** iappend *)

Definition with_addrs (l : list Z) (d : dinode) : dinode := Dinode (d_type d) (d_major d) (d_minor d) (d_nlink d) (d_size d) l.

(** The blocks of a file of [k] blocks, the indirect one included. *)
Definition nblk (k : Z) : Z := k + if NDIRECT <? k then 1 else 0.

Lemma dat_xint fb b : dat fb b \/ b = 0 -> fb <= FSSIZE -> xint b = b.
Proof. intros [H| ->] Hf; [|done]. apply xint_small. unfold dat in H. rewrite nmeta_eq in H. change FSSIZE with 2000 in Hf. lia. Qed.

(** Growth by a block [fb] that the file did not have, where the map changes
    at [k] only. *)
Lemma enlarged_extend v l fb v' l' k : fb < FSSIZE -> nmeta <= fb -> 0 <= k < MAXFILE -> length l' = length l -> aind l' = aind l ->
  (aind l <> 0 -> dat fb (aind l)) ->
  (forall bn, 0 <= bn < MAXFILE -> amap v' l' bn = if decide (bn = k) then fb else amap v l bn) ->
  (forall b, b <> aind l -> v' b = v b) -> (aind l = 0 -> v' 0 = v 0) -> enlarged v l fb v' l' (fb + 1).
Proof.
  intros Hf Hm Hk Hl Hi Hd Ha Hv Hz. rewrite nmeta_eq in Hm. assert (Hv' : forall b, b <> aind l \/ aind l = 0 -> v' b = v b).
  { intros b [H|H]; [by apply Hv|]. destruct (decide (b = 0)) as [->|]; [by apply Hz|apply Hv; congruence]. }
  split.
  - lia.
  - intros b Hb Hn. apply Hv. intros ->. apply Hn. split; [|by left]. unfold dat in Hb. rewrite nmeta_eq in Hb. lia.
  - intros b [Hb [H|(bn & Hbn & H)]]; [left; split; [done|left; congruence]|]. rewrite Ha in H by done. case_decide; [right; lia|].
    left. split; [done|]. right. by exists bn.
  - intros b Hb. apply Hv'. destruct (decide (aind l = 0)) as [|Hne]; [by right|]. specialize (Hd Hne). unfold dat in Hd. left. lia.
  - intros H b Hb. rewrite Hv'; [apply H; lia|]. destruct (decide (aind l = 0)) as [|Hne]; [by right|]. specialize (Hd Hne). unfold dat in Hd. left. lia.
Qed.

Lemma enlarged_write {v fb l c k hi} (F : fileat v fb l c k hi) bn d : fb <= FSSIZE -> 0 <= bn < k -> enlarged v l fb (fupd v (amap v l bn) d) l fb.
Proof.
  intros Hf Hb. pose proof (addr_dat F bn Hb) as Hx. pose proof (owns_addr F bn Hb) as Ho. pose proof (fa_ne _ _ _ _ _ _ F bn Hb) as Hne. unfold dat in Hx. rewrite nmeta_eq in Hx. split.
  - lia.
  - intros b _ Hn. apply fupd_other. by intros ->.
  - intros b [Hz [H|(bn' & Hbn' & H)]]; left; (split; [done|]); [by left|]. right. exists bn'. split; [done|]. rewrite <- H. unfold amap at 2.
    rewrite fupd_other by done. done.
  - intros b Hb'. rewrite nmeta_eq in Hb'. apply fupd_other. lia.
  - intros H b Hb'. rewrite fupd_other by lia. by apply H.
Qed.

Section append.
Context (fi : Z).
Implicit Types (s : mkst) (v : Z -> list Z) (d : dinode) (c l : list Z).

(** The block is there already. *)
Lemma mwp_block_old s v fb d c k hi fbn (Q : dinode * Z -> mkst -> Prop) :
  mrep s v fi fb -> fileat v fb (d_addrs d) c k hi -> fb <= FSSIZE -> 0 <= fbn < k ->
  Q (d, amap v (d_addrs d) fbn) s -> mwp (iappend_block d fbn) Q s.
Proof.
  intros R F Hf Hb HQ. pose proof (addr_dat F fbn Hb) as Hd. pose proof (dat_xint fb _ (or_introl Hd) Hf) as Hx.
  assert (Hnz : amap v (d_addrs d) fbn <> 0) by (unfold dat in Hd; rewrite nmeta_eq in Hd; lia).
  unfold iappend_block, daddr. unfold amap in *. destruct (Z.ltb_spec fbn NDIRECT) as [H1|H1].
  - rewrite Hx, (proj2 (Z.eqb_neq _ _)) by done. apply mwp_bind, mwp_ret, mwp_ret. by rewrite Hx.
  - pose proof (fa_ind _ _ _ _ _ _ F) as Hi. pose proof (fa_hi _ _ _ _ _ _ F) as Hh. destruct hi; [|specialize (Hh eq_refl); lia].
    pose proof (dat_xint fb _ (or_introl Hi) Hf) as Hxi. fold (aind (d_addrs d)). rewrite Hxi. destruct (Z.eqb_spec (aind (d_addrs d)) 0) as [Hz|Hz]; [done|].
    apply mwp_bind, mwp_ret, mwp_bind. fold (aind (d_addrs d)). rewrite Hxi. eapply mwp_rsect; [exact R|unfold dat in Hi; rewrite nmeta_eq in Hi; lia|].
    rewrite (proj2 (Z.eqb_neq _ _)) by done. apply mwp_bind, mwp_ret, mwp_ret. by rewrite Hx.
Qed.

(** What a new block needs and gives. *)
Definition room_at v (fb : Z) : Prop := nmeta <= fb < FSSIZE /\ forall b, fb <= b -> v b = zeroes.

Lemma mwp_block_direct s v fb d c k hi (Q : dinode * Z -> mkst -> Prop) :
  mrep s v fi fb -> fileat v fb (d_addrs d) c k hi -> k < NDIRECT -> room_at v fb ->
  (forall s' l', mrep s' v fi (fb + 1) -> fileat v (fb + 1) l' c (k + 1) hi -> enlarged v (d_addrs d) fb v l' (fb + 1) ->
     Q (with_addrs l' d, amap v l' k) s') -> mwp (iappend_block d k) Q s.
Proof.
  intros R F Hk [Hfb Hz] HQ. pose proof (fa_k _ _ _ _ _ _ F) as Hk0. pose proof (fa_len _ _ _ _ _ _ F) as Hl. pose proof (addr_none F k ltac:(change NDIRECT with 12 in *; rewrite maxfile_eq in *; lia)) as Ha0.
  rewrite nmeta_eq in Hfb. change FSSIZE with 2000 in *. assert (Hx : xint fb = fb) by (apply xint_small; lia).
  pose proof (fileat_direct v fb (d_addrs d) c k hi F Hk ltac:(rewrite nmeta_eq; lia) (Hz fb ltac:(lia))) as F'. set (l' := <[Z.to_nat k := fb]> (d_addrs d)) in *.
  assert (Hn : nth (Z.to_nat k) l' 0 = fb) by (apply nth_insert_eq; change NDIRECT with 12 in *; lia).
  assert (Hk' : amap v l' k = fb) by (unfold amap; by rewrite (proj2 (Z.ltb_lt _ _)) by done).
  unfold iappend_block. rewrite (proj2 (Z.ltb_lt _ _)) by done. unfold amap in Ha0. rewrite (proj2 (Z.ltb_lt _ _)) in Ha0 by done. change (daddr d k) with (nth (Z.to_nat k) (d_addrs d) 0). rewrite Ha0.
  change (xint 0 =? 0) with true. cbv iota. apply mwp_bind, mwp_bind. eapply mwp_next; [exact R|change FSSIZE with 2000; lia|]. intros s' R'. apply mwp_ret, mwp_ret. rewrite Hx.
  change (set_daddr (Z.to_nat k) fb d) with (with_addrs l' d).
  replace (xint (daddr (with_addrs l' d) k)) with (amap v l' k); [apply HQ; [done|done|]|].
  - apply (enlarged_extend v (d_addrs d) fb v l' k); try (done || lia).
    + change FSSIZE with 2000. lia.
    + rewrite nmeta_eq. lia.
    + change NDIRECT with 12 in *. rewrite maxfile_eq. lia.
    + apply length_insert.
    + unfold aind, l'. apply nth_insert_ne. change NDIRECT with 12 in *. lia.
    + intros Hne. pose proof (fa_ind _ _ _ _ _ _ F) as Hi. by destruct hi.
    + intros bn Hb. unfold amap, l', aind. rewrite (nth_insert_ne _ (Z.to_nat NDIRECT)) by (change NDIRECT with 12 in *; lia). change NDIRECT with 12 in *. destruct (Z.ltb_spec bn 12).
      * case_decide as E; [subst bn; apply nth_insert_eq; lia|apply nth_insert_ne; lia].
      * by rewrite decide_False by lia.
  - rewrite Hk'. change (daddr (with_addrs l' d) k) with (nth (Z.to_nat k) l' 0). by rewrite Hn, Hx.
Qed.

(** The second half of the indirect case, once there is an indirect block. *)
Definition indirect_block (d : dinode) (fbn : Z) : mkm (dinode * Z) :=
  indirect ← rsect (xint (daddr d NDIRECT));
  let k := Z.to_nat (4 * (fbn - NDIRECT)) in
  indirect ← (if get32 indirect k =? 0 then
                b ← next_block;
                let indirect := put32 indirect k (xint b) in
                wsect (xint (daddr d NDIRECT)) indirect;;
                mret indirect
              else mret indirect);
  mret (d, xint (get32 indirect k)).

Lemma mwp_indirect s v fb d c k (Q : dinode * Z -> mkst -> Prop) :
  mrep s v fi fb -> fileat v fb (d_addrs d) c k true -> NDIRECT <= k < MAXFILE -> room_at v fb ->
  (forall s' v', mrep s' v' fi (fb + 1) -> fileat v' (fb + 1) (d_addrs d) c (k + 1) true -> enlarged v (d_addrs d) fb v' (d_addrs d) (fb + 1) ->
     Q (d, amap v' (d_addrs d) k) s') -> mwp (indirect_block d k) Q s.
Proof.
  intros R F Hk [Hfb Hz] HQ. pose proof (addr_none F k ltac:(lia)) as Ha0. pose proof (fa_ind _ _ _ _ _ _ F) as Hi.
  pose proof (mr_sect _ _ _ _ R (aind (d_addrs d))) as Hlen. set (l := d_addrs d) in *.
  assert (Hib : 46 <= aind l < fb) by (unfold dat in Hi; by rewrite nmeta_eq in Hi). rewrite nmeta_eq in Hfb. change FSSIZE with 2000 in *.
  assert (Hx : xint fb = fb) by (apply xint_small; lia). assert (Hxi : xint (aind l) = aind l) by (apply xint_small; lia).
  pose proof (fileat_indirect v fb l c k F Hk ltac:(rewrite nmeta_eq; lia) (Hz fb ltac:(lia)) Hlen) as F'. set (v' := fupd v (aind l) _) in *.
  unfold amap in Ha0. rewrite (proj2 (Z.ltb_ge _ _)), (proj2 (Z.eqb_neq _ _)) in Ha0 by lia.
  unfold indirect_block. change (daddr d NDIRECT) with (aind l). rewrite Hxi. apply mwp_bind. eapply mwp_rsect; [exact R|change FSSIZE with 2000; lia|].
  rewrite Ha0. change (0 =? 0) with true. cbv iota zeta. apply mwp_bind, mwp_bind. eapply mwp_next; [exact R|change FSSIZE with 2000; lia|]. intros s1 R1. rewrite Hx.
  assert (Hkb : (Z.to_nat (4 * (k - NDIRECT)) + 4 <= length (v (aind l)))%nat) by (rewrite Hlen; change NDIRECT with 12 in *; rewrite maxfile_eq in *; change BSIZE with 1024; lia).
  apply mwp_bind. eapply mwp_wsect; [exact R1|change FSSIZE with 2000; lia|by rewrite length_put_le|]. intros s2 R2. apply mwp_ret, mwp_ret.
  assert (Hk' : amap v' l k = get32 (put32 (v (aind l)) (Z.to_nat (4 * (k - NDIRECT))) fb) (Z.to_nat (4 * (k - NDIRECT)))).
  { unfold amap, v'. rewrite (proj2 (Z.ltb_ge _ _)), (proj2 (Z.eqb_neq _ _)) by lia. by rewrite fupd_same. }
  rewrite <- Hk'. assert (Hkf : amap v' l k = fb) by (rewrite Hk', get_put_le_same by done; apply Z.mod_small; lia).
  replace (xint (amap v' l k)) with (amap v' l k) by (by rewrite Hkf, Hx). apply HQ; [exact R2|exact F'|].
  apply (enlarged_extend v l fb v' l k); try (done || lia).
  - change FSSIZE with 2000. lia.
  - rewrite nmeta_eq. lia.
  - change NDIRECT with 12 in *. lia.
  - intros bn Hb. case_decide as E; [by subst bn|]. unfold amap, v'. destruct (Z.ltb_spec bn NDIRECT); [done|].
    rewrite (proj2 (Z.eqb_neq _ _)) by lia. rewrite fupd_same. change NDIRECT with 12 in *. apply get_put_le_other; [done|lia].
  - intros b Hb. by apply fupd_other.
Qed.

Lemma mwp_block_indirect s v fb d c k (Q : dinode * Z -> mkst -> Prop) :
  mrep s v fi fb -> fileat v fb (d_addrs d) c k true -> NDIRECT <= k < MAXFILE -> room_at v fb ->
  (forall s' v', mrep s' v' fi (fb + 1) -> fileat v' (fb + 1) (d_addrs d) c (k + 1) true -> enlarged v (d_addrs d) fb v' (d_addrs d) (fb + 1) ->
     Q (d, amap v' (d_addrs d) k) s') -> mwp (iappend_block d k) Q s.
Proof.
  intros R F Hk Hr HQ. pose proof (fa_ind _ _ _ _ _ _ F) as Hi. pose proof (proj1 Hr) as Hfb. unfold iappend_block. rewrite (proj2 (Z.ltb_ge _ _)) by lia.
  change (daddr d NDIRECT) with (aind (d_addrs d)) at 1. rewrite (dat_xint fb _ (or_introl Hi)) by lia.
  rewrite (proj2 (Z.eqb_neq _ _)) by (unfold dat in Hi; rewrite nmeta_eq in Hi; lia). apply mwp_bind, mwp_ret. eapply mwp_indirect; [exact R|exact F|done|done|done].
Qed.

(** The first block behind the direct ones. *)
Lemma mwp_block_first s v fb d c (Q : dinode * Z -> mkst -> Prop) :
  mrep s v fi fb -> fileat v fb (d_addrs d) c NDIRECT false -> room_at v fb -> fb + 1 < FSSIZE ->
  (forall s' v' l', mrep s' v' fi (fb + 2) -> fileat v' (fb + 2) l' c (NDIRECT + 1) true -> enlarged v (d_addrs d) fb v' l' (fb + 2) ->
     Q (with_addrs l' d, amap v' l' NDIRECT) s') -> mwp (iappend_block d NDIRECT) Q s.
Proof.
  intros R F [Hfb Hz] Hf HQ. pose proof (fa_ind _ _ _ _ _ _ F) as Hi. pose proof (fa_len _ _ _ _ _ _ F) as Hl. rewrite nmeta_eq in Hfb.
  pose proof (fileat_new_ind v fb (d_addrs d) c F ltac:(rewrite nmeta_eq; lia) (Hz fb ltac:(lia))) as F1. set (l1 := <[Z.to_nat NDIRECT := fb]> (d_addrs d)) in *.
  unfold iappend_block. rewrite Z.ltb_irrefl. change (daddr d NDIRECT) with (aind (d_addrs d)) at 1. rewrite Hi. change (xint 0 =? 0) with true. cbv iota.
  apply mwp_bind, mwp_bind. eapply mwp_next; [exact R|lia|]. intros s1 R1. apply mwp_ret. change FSSIZE with 2000 in *. rewrite (xint_small fb) by lia.
  change (set_daddr (Z.to_nat NDIRECT) fb d) with (with_addrs l1 d). eapply (mwp_indirect s1 v (fb + 1) (with_addrs l1 d) c NDIRECT); [exact R1|exact F1|done| |].
  { split; [rewrite nmeta_eq; change FSSIZE with 2000; lia|]. intros b Hb. apply Hz. lia. }
  intros s2 v' R2 F2 G2. replace (fb + 1 + 1) with (fb + 2) in * by lia. apply HQ; [exact R2|exact F2|]. eapply enlarged_trans; [|exact G2].
  assert (Hi1 : aind l1 = fb) by (unfold aind; apply nth_insert_eq; change NDIRECT with 12; lia). split.
  - change FSSIZE with 2000. lia.
  - done.
  - intros b [Hb [H|(bn & Hbn & H)]]; [right; change (aind l1 = b) in H; lia|]. cbn [with_addrs d_addrs] in H. left. split; [done|]. right. exists bn. split; [done|]. rewrite <- H. unfold amap. rewrite Hi, Hi1.
    change NDIRECT with 12. destruct (Z.ltb_spec bn 12); [symmetry; apply nth_insert_ne; change NDIRECT with 12; lia|].
    rewrite (proj2 (Z.eqb_neq fb 0)) by lia. rewrite (Hz fb) by lia. by rewrite get32_zeroes.
  - done.
  - intros H b Hb. apply H. lia.
Qed.

Lemma with_addrs_id d : with_addrs (d_addrs d) d = d.
Proof. by destruct d. Qed.

(** [iappend_block], in all cases: the file has block [fbn] afterwards. *)
Lemma mwp_block s v fb d c k fbn (Q : dinode * Z -> mkst -> Prop) :
  let k' := Z.max k (fbn + 1) in let fb' := fb + (nblk k' - nblk k) in
  mrep s v fi fb -> fileat v fb (d_addrs d) c k (NDIRECT <? k) -> 0 <= fbn <= k -> fbn < MAXFILE ->
  nmeta <= fb -> (forall b, fb <= b -> v b = zeroes) -> fb' <= FSSIZE ->
  (forall s' v' l', mrep s' v' fi fb' -> fileat v' fb' l' c k' (NDIRECT <? k') -> enlarged v (d_addrs d) fb v' l' fb' ->
     Q (with_addrs l' d, amap v' l' fbn) s') -> mwp (iappend_block d fbn) Q s.
Proof.
  intros k' fb' R F Hfk Hfm Hm Hz Hfb HQ. subst fb' k'. unfold nblk in *. destruct (decide (fbn = k)) as [->|Hne].
  - rewrite (Z.max_r k (k + 1)) in * by lia. change NDIRECT with 12 in *. destruct (Z.ltb_spec 12 k) as [H1|H1].
    + rewrite (proj2 (Z.ltb_lt 12 (k + 1))) in * by lia. replace (fb + (k + 1 + 1 - (k + 1))) with (fb + 1) in * by lia.
      eapply mwp_block_indirect; [exact R|exact F|change NDIRECT with 12; lia|by split; [lia|]|]. intros s' v' R' F' G'. rewrite <- (with_addrs_id d) at 1. by apply HQ.
    + destruct (decide (k = 12)) as [->|Hk12].
      * change (12 <? 12 + 1) with true in *. cbv iota in *. replace (fb + (12 + 1 + 1 - (12 + 0))) with (fb + 2) in * by lia.
        eapply (mwp_block_first s v fb d c); [exact R|exact F|by split; [lia|]|lia|]. intros s' v' l' R' F' G'. by apply HQ.
      * rewrite (proj2 (Z.ltb_ge 12 (k + 1))) in * by lia. replace (fb + (k + 1 + 0 - (k + 0))) with (fb + 1) in * by lia.
        eapply mwp_block_direct; [exact R|exact F|change NDIRECT with 12; lia|by split; [lia|]|]. intros s' l' R' F' G'. by apply HQ.
  - rewrite (Z.max_l k (fbn + 1)) in * by lia. rewrite Z.sub_diag, Z.add_0_r in *.
    eapply mwp_block_old; [exact R|exact F|done|lia|]. rewrite <- (with_addrs_id d) at 1. apply HQ; [done|done|]. by apply enlarged_refl.
Qed.

(** The blocks a file of [n] bytes has. *)
Definition cdiv (n : Z) : Z := (n + (BSIZE - 1)) / BSIZE.
Definition blocks (n : Z) : Z := nblk (cdiv n).

Lemma cdiv_spec n : 0 <= n -> n <= cdiv n * BSIZE < n + BSIZE.
Proof. intros Hn. unfold cdiv. change BSIZE with 1024. pose proof (Z.div_mod (n + (1024 - 1)) 1024 ltac:(lia)). pose proof (Z.mod_pos_bound (n + (1024 - 1)) 1024 ltac:(lia)). lia. Qed.
Lemma cdiv_unique n q : 0 <= n -> n <= q * BSIZE < n + BSIZE -> cdiv n = q.
Proof. intros Hn Hq. pose proof (cdiv_spec n Hn). change BSIZE with 1024 in *. lia. Qed.
Lemma cdiv_mono n n' : 0 <= n <= n' -> cdiv n <= cdiv n'.
Proof. intros H. unfold cdiv. apply Z.div_le_mono; [done|lia]. Qed.
Lemma blocks_mono n n' : 0 <= n <= n' -> blocks n <= blocks n'.
Proof. intros H. pose proof (cdiv_mono n n' H). unfold blocks, nblk. change NDIRECT with 12. destruct (Z.ltb_spec 12 (cdiv n)), (Z.ltb_spec 12 (cdiv n')); lia. Qed.

(** The file is exactly as large as its contents. *)
Definition exact_file v (fb : Z) l c : Prop :=
  fileat v fb l c (cdiv (Z.of_nat (length c))) (NDIRECT <? cdiv (Z.of_nat (length c))).

(** One round of the loop: [n1] bytes, to the end of a block or of the data. *)
Lemma round_arith off n : 0 <= off -> 0 < n -> let m := Z.min n ((off / BSIZE + 1) * BSIZE - off) in
  0 < m <= n /\ off mod BSIZE + m <= BSIZE /\ off / BSIZE <= cdiv off /\ Z.max (cdiv off) (off / BSIZE + 1) = cdiv (off + m).
Proof.
  intros Ho Hn m. pose proof (cdiv_spec off Ho). unfold m. change BSIZE with 1024 in *.
  pose proof (Z.div_mod off 1024 ltac:(lia)). pose proof (Z.mod_pos_bound off 1024 ltac:(lia)). split_and!; [lia..|].
  symmetry. apply cdiv_unique; change BSIZE with 1024; lia.
Qed.

Lemma mwp_iappend_loop fuel : forall s v fb d c p (Q : dinode * Z -> mkst -> Prop),
  let n := Z.of_nat (length c) in let n' := Z.of_nat (length (c ++ p)) in let fb' := fb + (blocks n' - blocks n) in
  (length p < fuel)%nat -> mrep s v fi fb -> exact_file v fb (d_addrs d) c -> nmeta <= fb -> (forall b, fb <= b -> v b = zeroes) ->
  n' <= MAXFILE * BSIZE -> fb' <= FSSIZE ->
  (forall s' v' l', mrep s' v' fi fb' -> exact_file v' fb' l' (c ++ p) -> enlarged v (d_addrs d) fb v' l' fb' -> Q (with_addrs l' d, n') s') ->
  mwp (iappend_loop fuel d n p) Q s.
Proof.
  induction fuel as [|fuel IH]; intros s v fb d c p Q n n' fb' Hfuel R F Hm Hz Hmax Hfb HQ; [lia|]. cbn [iappend_loop].
  assert (Hn' : n' = n + Z.of_nat (length p)) by (unfold n', n; rewrite length_app; lia).
  destruct (Z.gtb_spec (Z.of_nat (length p)) 0) as [Hp|Hp].
  2: { assert (p = []) as -> by (destruct p; [done|cbn in Hp; lia]). subst fb' n' n. rewrite app_nil_r in *. rewrite Z.sub_diag, Z.add_0_r in *.
       apply mwp_ret. rewrite <- (with_addrs_id d). apply (HQ s v); [done|done|by apply enlarged_refl]. }
  destruct (round_arith n (Z.of_nat (length p)) ltac:(lia) ltac:(lia)) as (Hm1 & Hm2 & Hq & Hk). set (m := Z.min _ _) in *.
  assert (Hq0 : 0 <= n / BSIZE) by (apply Z.div_pos; [lia|done]). change (MAXFILE * BSIZE) with 274432 in Hmax.
  assert (Hqm : n / BSIZE < MAXFILE) by (rewrite maxfile_eq; change BSIZE with 1024; apply Z.div_lt_upper_bound; lia).
  set (c1 := c ++ take (Z.to_nat m) p). assert (Hc1 : Z.of_nat (length c1) = n + m) by (unfold c1; rewrite length_app, length_take; lia).
  assert (Hb1 : blocks n <= blocks (n + m) <= blocks n') by (split; apply blocks_mono; lia).
  apply mwp_bind, mwp_assert; [by apply Z.ltb_lt|].
  apply mwp_bind. eapply (mwp_block s v fb d c (cdiv n) (n / BSIZE)); [exact R|exact F|lia|done|done|done| |].
  { rewrite Hk. fold (blocks n) (blocks (n + m)). lia. }
  rewrite Hk. fold (blocks n) (blocks (n + m)). set (fb1 := fb + (blocks (n + m) - blocks n)). intros s1 v1 l1 R1 F1 G1.
  set (x := amap v1 l1 (n / BSIZE)) in *. assert (Hqk : n / BSIZE < cdiv (n + m)) by lia. pose proof (addr_dat F1 (n / BSIZE) ltac:(lia)) as Hx. fold x in Hx.
  assert (Hxr : 0 <= x < FSSIZE) by (unfold dat in Hx; rewrite nmeta_eq in Hx; unfold fb1 in *; lia).
  assert (Hoff : n - n / BSIZE * BSIZE = n mod BSIZE) by (rewrite Z.mod_eq by done; lia). rewrite Hoff.
  pose proof (fileat_write v1 fb1 l1 c _ _ (take (Z.to_nat m) p) F1 Hqk) as F2. fold n c1 x in F2.
  specialize (F2 ltac:(rewrite length_take; lia) (mr_sect _ _ _ _ R1 x)). set (v2 := fupd v1 x _) in *.
  apply mwp_bind. eapply mwp_rsect; [exact R1|done|]. apply mwp_bind. pose proof (mr_sect _ _ _ _ R1 x) as Hxl.
  pose proof (Z.mod_pos_bound n BSIZE ltac:(done)) as Hmb.
  eapply mwp_wsect; [exact R1|done|rewrite length_splice; [done|rewrite length_take, Hxl; lia]|]. intros s2 R2. fold v2 in R2.
  assert (G2 : enlarged v (d_addrs d) fb v2 l1 fb1).
  { eapply enlarged_trans; [exact G1|]. apply (enlarged_write F1); [apply G1|lia]. }
  replace (u32 (n + Z.of_nat (Z.to_nat m))) with (Z.of_nat (length c1)) by (rewrite Hc1, u32_small; lia).
  assert (Hcat : c1 ++ drop (Z.to_nat m) p = c ++ p) by (unfold c1; by rewrite <- app_assoc, take_drop).
  assert (Hfb1 : fb1 + (blocks n' - blocks (n + m)) = fb') by (unfold fb1, fb'; lia).
  pose proof (IH s2 v2 fb1 (with_addrs l1 d) c1 (drop (Z.to_nat m) p) Q) as IH'. cbv zeta in IH'. rewrite Hcat, Hc1 in IH'. fold n' in IH'. rewrite Hfb1 in IH'. rewrite Hc1.
  apply IH'; [rewrite length_drop; lia|exact R2|unfold exact_file; by rewrite Hc1|unfold fb1; lia| |done|done|].
  - apply G2. exact Hz.
  - intros s' v' l' R' F' G'. apply (HQ s' v' l'); [done|done|]. by eapply enlarged_trans.
Qed.
End append.
