(* ===== verification/MkfsProps.v ===== *)
(** The image that mkfs makes (mkfs/mkfs.c) is a file system in the sense of
    kernel/fs.c, and holds the files of the host. *)

From S2P Require Import Prelude KMonad UserMem Bytes Sleeplock BlockStore Log LogTx Fs FsSpec FsFile FsInode FsWrite Mkfs MkfsSpec.

(** ** Inodes of the image *)

Lemma sb_eq : sb = Superblock FSMAGIC 2000 1954 200 30 2 32 45.
Proof. reflexivity. Qed.

Lemma iblock_mk inum : 0 <= inum < NINODES -> IBLOCK inum sb = inum / 16 + 32 /\ 32 <= IBLOCK inum sb < 45.
Proof.
  intros H. unfold IBLOCK. rewrite sb_eq. cbn [sb_inodestart]. change IPB with 16. change NINODES with 200 in H.
  pose proof (Z.div_mod inum 16 ltac:(lia)). pose proof (Z.mod_pos_bound inum 16 ltac:(lia)). rewrite u32_small by lia. lia.
Qed.

Definition upd_inode (v : Z -> list Z) (inum : Z) (d : dinode) : Z -> list Z :=
  fupd v (IBLOCK inum sb) (put_dinode (v (IBLOCK inum sb)) (dinode_off inum) d).

Lemma upd_inode_view v inum d b : 0 <= inum < NINODES -> nmeta <= b \/ b < 32 -> upd_inode v inum d b = v b.
Proof. intros Hi Hb. destruct (iblock_mk inum Hi) as [_ H]. rewrite nmeta_eq in Hb. apply fupd_other. lia. Qed.

Lemma upd_inode_same v inum d : (forall b, length (v b) = Z.to_nat BSIZE) -> dinode_ok d -> disk_dinode sb (upd_inode v inum d) inum = d.
Proof. intros Hv Hd. unfold disk_dinode, upd_inode. rewrite fupd_same. apply dinode_at_put_same; [done|]. rewrite Hv. apply dinode_off_bound. Qed.

Lemma upd_inode_other v inum d j : (forall b, length (v b) = Z.to_nat BSIZE) -> length (d_addrs d) = 13%nat -> 0 <= inum < NINODES -> 0 <= j < NINODES -> j <> inum ->
  disk_dinode sb (upd_inode v inum d) j = disk_dinode sb v j.
Proof.
  intros Hv Hl Hi Hj Hne. unfold disk_dinode, upd_inode. destruct (decide (IBLOCK j sb = IBLOCK inum sb)) as [E|E]; [|by rewrite fupd_other].
  rewrite E, fupd_same. apply dinode_at_put_other; [done|rewrite Hv; apply dinode_off_bound|].
  destruct (iblock_mk j Hj) as [E1 _], (iblock_mk inum Hi) as [E2 _]. pose proof (Z.div_mod inum 16 ltac:(lia)). pose proof (Z.div_mod j 16 ltac:(lia)).
  pose proof (Z.mod_pos_bound inum 16 ltac:(lia)). pose proof (Z.mod_pos_bound j 16 ltac:(lia)). unfold dinode_off. change IPB with 16. unfold sizeof_dinode. lia.
Qed.

Lemma mwp_rinode s v fi fb inum (Q : dinode -> mkst -> Prop) : mrep s v fi fb -> 0 <= inum < NINODES -> Q (disk_dinode sb v inum) s -> mwp (rinode inum) Q s.
Proof.
  intros R Hi HQ. destruct (iblock_mk inum Hi) as [_ H]. apply mwp_bind. eapply mwp_rsect; [exact R|change FSSIZE with 2000; lia|]. by apply mwp_ret.
Qed.
Lemma mwp_winode s v fi fb inum d (Q : () -> mkst -> Prop) : mrep s v fi fb -> 0 <= inum < NINODES -> length (d_addrs d) = 13%nat ->
  (forall s', mrep s' (upd_inode v inum d) fi fb -> Q () s') -> mwp (winode inum d) Q s.
Proof.
  intros R Hi Hl HQ. destruct (iblock_mk inum Hi) as [_ H]. apply mwp_bind. eapply mwp_rsect; [exact R|change FSSIZE with 2000; lia|].
  eapply mwp_wsect; [exact R|change FSSIZE with 2000; lia| |exact HQ]. pose proof (mr_sect _ _ _ _ R (IBLOCK inum sb)) as Hs.
  rewrite length_put_dinode; [done|done|]. rewrite Hs. apply dinode_off_bound.
Qed.

(** ** The image *)

(** Inode [j + 1] of [v] is a file of the given type and contents. *)
Record holds_file (v : Z -> list Z) (fb : Z) (d : dinode) (ty : Z) (c : list Z) : Prop := {
  hf_type : d_type d = ty;
  hf_nlink : d_nlink d = 1;
  hf_ok : dinode_ok d;
  hf_size : d_size d = Z.of_nat (length c);
  hf_file : exact_file v fb (d_addrs d) c }.

Definition inum_of (j : nat) : Z := Z.of_nat j + 1.

(** The image with only a superblock. *)
Definition blank : Z -> list Z := fupd (fun _ => zeroes) 1 (splice zeroes 0 sb_bytes).

(** The files [K] by inode number, from 1 on. *)
Record image (s : mkst) (v : Z -> list Z) (fb : Z) (K : list (Z * list Z)) : Prop := {
  im_rep : mrep s v (inum_of (length K)) fb;
  im_fb : nmeta <= fb <= FSSIZE;
  im_n : inum_of (length K) <= NINODES;
  im_low b : b < 32 -> v b = blank b;
  im_file j ty c : K !! j = Some (ty, c) -> holds_file v fb (disk_dinode sb v (inum_of j)) ty c;
  im_disj j j' b : (j < length K)%nat -> (j' < length K)%nat -> owns v (d_addrs (disk_dinode sb v (inum_of j))) b ->
    owns v (d_addrs (disk_dinode sb v (inum_of j'))) b -> j = j';
  im_free b : fb <= b -> v b = zeroes;
  im_unused inum : inum_of (length K) <= inum < NINODES -> d_type (disk_dinode sb v inum) = 0 }.

Lemma amap_empty v bn : amap v (repeat 0 13) bn = 0.
Proof.
  unfold amap. destruct (bn <? NDIRECT); [|done]. destruct (decide (Z.to_nat bn < 13)%nat); [by apply nth_repeat|]. apply nth_overflow. rewrite repeat_length. lia.
Qed.
Lemma empty_file v fb : exact_file v fb (repeat 0 13) [].
Proof.
  split; try done.
  - intros bn Hb. change (cdiv (Z.of_nat (length []))) with 0. rewrite (proj2 (Z.ltb_ge bn 0)) by lia. apply amap_empty.
  - intros bn bn' Hb. change (cdiv (Z.of_nat (length []))) with 0 in Hb. lia.
  - intros bn Hb. change (cdiv (Z.of_nat (length []))) with 0 in Hb. lia.
  - intros i Hi. change (cdiv (Z.of_nat (length []))) with 0 in Hi. lia.
Qed.
Lemma empty_owns v b : ~ owns v (repeat 0 13) b.
Proof. intros [Hb [H|(bn & _ & H)]]; [by unfold aind in H; cbn in H|]. rewrite amap_empty in H. congruence. Qed.

Lemma owns_frame {v fb l c k hi} (F : fileat v fb l c k hi) v' b : (forall b, owns v l b -> v' b = v b) -> owns v' l b <-> owns v l b.
Proof. intros H. unfold owns. setoid_rewrite (amap_frame F v' _ H). done. Qed.
Lemma holds_frame v fb d ty c v' fb' : holds_file v fb d ty c -> fb <= fb' -> (forall b, owns v (d_addrs d) b -> v' b = v b) -> holds_file v' fb' d ty c.
Proof. intros [H1 H2 H3 H4 H5] Hf Hv. split; try done. by eapply fileat_frame. Qed.
Lemma holds_owns v fb d ty c b : holds_file v fb d ty c -> owns v (d_addrs d) b -> dat fb b.
Proof. intros [_ _ _ _ H]. by eapply owns_dat. Qed.

(** Every inode of the image. *)
Lemma im_each {s v fb K} (I : image s v fb K) j : (j < length K)%nat ->
  0 <= inum_of j < NINODES /\ exists ty c, holds_file v fb (disk_dinode sb v (inum_of j)) ty c.
Proof.
  intros Hj. pose proof (im_n _ _ _ _ I). unfold inum_of in *. split; [lia|]. destruct (lookup_lt_is_Some_2 K j Hj) as [[ty c] H1]. exists ty, c. by apply I.
Qed.

(** A file [j] of the image has enlarged to [c1] by blocks of its own, and its
    inode has been written. *)
Lemma image_update s v fb K j ty c v1 l1 fb1 c1 s2 d1 : let d := disk_dinode sb v (inum_of j) in
  image s v fb K -> K !! j = Some (ty, c) -> enlarged v (d_addrs d) fb v1 l1 fb1 -> exact_file v1 fb1 l1 c1 ->
  d_type d1 = d_type d -> d_nlink d1 = d_nlink d -> d_addrs d1 = l1 -> d_size d1 = Z.of_nat (length c1) -> dinode_ok d1 ->
  mrep s2 (upd_inode v1 (inum_of j) d1) (inum_of (length K)) fb1 -> (forall b, length (v1 b) = Z.to_nat BSIZE) ->
  image s2 (upd_inode v1 (inum_of j) d1) fb1 (<[j := (ty, c1)]> K).
Proof.
  intros d I Hj G F1 Ht Hn Hl Hs Hok R2 Hv1. pose proof (lookup_lt_Some _ _ _ Hj) as Hlt. destruct (im_each I j Hlt) as [Hji _].
  set (v2 := upd_inode v1 (inum_of j) d1) in *. pose proof (im_file _ _ _ _ I j ty c Hj) as Hd. fold d in Hd.
  assert (Hlen : length (d_addrs d1) = 13%nat) by apply Hok.
  assert (Hdj : disk_dinode sb v2 (inum_of j) = d1) by (by apply upd_inode_same).
  assert (Hmeta : forall b, b < nmeta -> v1 b = v b) by apply G.
  assert (Hdk : forall inum, 0 <= inum < NINODES -> inum <> inum_of j -> disk_dinode sb v2 inum = disk_dinode sb v inum).
  { intros inum Hi Hne. unfold v2. rewrite upd_inode_other by done. unfold disk_dinode. destruct (iblock_mk inum Hi) as [_ Hb]. rewrite Hmeta by (rewrite nmeta_eq; lia). done. }
  assert (Hdat : forall b, nmeta <= b -> v2 b = v1 b) by (intros b Hb; apply upd_inode_view; [done|by left]).
  pose proof (gn_fb _ _ _ _ _ _ G) as Hfb.
  assert (Hown : forall b, owns v2 l1 b <-> owns v1 l1 b).
  { intros b. apply (owns_frame F1). intros b' Hb'. apply Hdat. by apply (owns_dat F1) in Hb' as [? _]. }
  (* the other files *)
  assert (Hoth : forall k, (k < length K)%nat -> k <> j -> let l := d_addrs (disk_dinode sb v (inum_of k)) in forall b, owns v l b -> v2 b = v b).
  { intros k Hk Hne l b Hb. destruct (im_each I k Hk) as [_ (ty' & c' & Hk')]. pose proof (holds_owns _ _ _ _ _ _ Hk' Hb) as Hbd.
    rewrite Hdat by apply Hbd. apply G; [done|]. intros Ho. apply Hne. by eapply (im_disj _ _ _ _ I k j b). }
  split.
  - by rewrite length_insert.
  - pose proof (im_fb _ _ _ _ I). lia.
  - rewrite length_insert. apply I.
  - intros b Hb. unfold v2. rewrite upd_inode_view by (done || (right; lia)). rewrite Hmeta by (rewrite nmeta_eq; lia). by apply I.
  - intros k ty' c' Hk. destruct (decide (k = j)) as [->|Hne].
    + rewrite list_lookup_insert_eq in Hk by done. injection Hk as <- <-. rewrite Hdj. split; [rewrite Ht; apply Hd|rewrite Hn; apply Hd|done|done|].
      rewrite Hl. eapply (fileat_frame F1); [lia|]. intros b Hb. apply Hdat. by apply (owns_dat F1) in Hb as [? _].
    + rewrite list_lookup_insert_ne in Hk by done. pose proof (lookup_lt_Some _ _ _ Hk) as Hkl. rewrite Hdk; [|by apply (im_each I)|unfold inum_of; lia].
      eapply holds_frame; [by apply I|lia|]. by apply Hoth.
  - rewrite length_insert. intros k k' b Hk Hk' Ho Ho'.
    assert (Hcase : forall i, (i < length K)%nat -> owns v2 (d_addrs (disk_dinode sb v2 (inum_of i))) b ->
      (i = j /\ (owns v (d_addrs d) b \/ fb <= b)) \/ (i <> j /\ owns v (d_addrs (disk_dinode sb v (inum_of i))) b /\ b < fb)).
    { intros i Hi Hoi. destruct (decide (i = j)) as [->|Hne].
      - left. split; [done|]. rewrite Hdj, Hl in Hoi. apply G. by apply Hown.
      - right. split; [done|]. destruct (im_each I i Hi) as [Hib (ty' & c' & Hki)]. rewrite Hdk in Hoi by (done || (unfold inum_of; lia)).
        rewrite (owns_frame (hf_file _ _ _ _ _ Hki)) in Hoi by (by apply Hoth). split; [done|]. by apply (holds_owns _ _ _ _ _ _ Hki) in Hoi as [_ ?]. }
    destruct (Hcase k Hk Ho) as [[-> H1]|(H1 & H2 & H3)], (Hcase k' Hk' Ho') as [[-> H4]|(H4 & H5 & H6)]; [done| | |].
    + exfalso. destruct H1 as [H1|H1]; [|lia]. apply H4. by eapply (im_disj _ _ _ _ I).
    + exfalso. destruct H4 as [H4|H4]; [|lia]. apply H1. by eapply (im_disj _ _ _ _ I).
    + by eapply (im_disj _ _ _ _ I).
  - intros b Hb. rewrite Hdat by (pose proof (im_fb _ _ _ _ I); lia). apply G; [apply I|done].
  - rewrite length_insert. intros inum Hi. rewrite Hdk; [by apply I|unfold inum_of in *; lia..].
Qed.

(** Addresses of a file fit the disk format. *)
Lemma addrs_fit {v fb l c k hi} (F : fileat v fb l c k hi) : fb <= FSSIZE -> Forall (fun a => 0 <= a < 2 ^ 32) l.
Proof.
  intros Hf. apply Forall_lookup. intros i a Hi. pose proof (fa_len _ _ _ _ _ _ F) as Hl. pose proof (lookup_lt_Some _ _ _ Hi) as Hlt.
  change FSSIZE with 2000 in Hf. assert (Hr : dat fb a \/ a = 0); [|unfold dat in Hr; rewrite nmeta_eq in Hr; lia].
  destruct (decide (i = 12%nat)) as [->|Hne].
  - pose proof (fa_ind _ _ _ _ _ _ F) as Ha. unfold aind in Ha. change (Z.to_nat NDIRECT) with 12%nat in Ha. rewrite (nth_lookup_Some _ _ _ _ Hi) in Ha. destruct hi; auto.
  - pose proof (fa_addr _ _ _ _ _ _ F (Z.of_nat i) ltac:(rewrite maxfile_eq; lia)) as Ha. unfold amap in Ha. change NDIRECT with 12 in Ha.
    rewrite (proj2 (Z.ltb_lt (Z.of_nat i) 12)), Nat2Z.id, (nth_lookup_Some _ _ _ _ Hi) in Ha by lia. destruct (_ <? _); auto.
Qed.

Lemma mwp_iappend s v fb K j ty c p (Q : () -> mkst -> Prop) :
  let n := Z.of_nat (length c) in let n' := Z.of_nat (length (c ++ p)) in let fb' := fb + (blocks n' - blocks n) in
  image s v fb K -> K !! j = Some (ty, c) -> n' <= MAXFILE * BSIZE -> fb' <= FSSIZE ->
  (forall s' v', image s' v' fb' (<[j := (ty, c ++ p)]> K) -> Q () s') -> mwp (iappend (inum_of j) p) Q s.
Proof.
  intros n n' fb' I Hj Hmax Hfb HQ. pose proof (im_file _ _ _ _ I j ty c Hj) as [D1 D2 D3 D4 D5]. pose proof (im_rep _ _ _ _ I) as R.
  destruct (im_each I j ltac:(by eapply lookup_lt_Some)) as [Hji _]. change (MAXFILE * BSIZE) with 274432 in Hmax.
  assert (Hn : 0 <= n <= n') by (unfold n, n'; rewrite length_app; lia).
  unfold iappend. apply mwp_bind. eapply mwp_rinode; [exact R|done|]. set (d := disk_dinode sb v (inum_of j)) in *. rewrite D4, xint_small by (fold n; lia).
  apply mwp_bind. eapply (mwp_iappend_loop (inum_of (length K)) _ s v fb d c p); [lia|exact R|exact D5|apply I|apply I|done|done|].
  fold n n' fb'. intros s1 v1 l1 R1 F1 G1. cbn [fst snd]. rewrite xint_small by (fold n'; lia). fold n'. set (d1 := set_dsize n' (with_addrs l1 d)).
  assert (Hok : dinode_ok d1).
  { destruct D3 as [K1 K2 K3 K4 K5 K6 K7]. split; try done; [cbn; lia|by apply (addrs_fit F1)|apply F1]. }
  eapply mwp_winode; [exact R1|done|apply Hok|]. intros s2 R2. apply (HQ s2 (upd_inode v1 (inum_of j) d1)).
  eapply (image_update s v fb K j ty c v1 l1 fb' (c ++ p) s2 d1); try done. apply R1.
Qed.

Definition new_dinode (type : Z) : dinode := Dinode type 0 0 1 0 (repeat 0 13).
Lemma new_dinode_ok ty : 0 <= ty < 2 ^ 15 -> dinode_ok (new_dinode ty).
Proof. intros H. split; cbn; (done || lia || (repeat constructor; lia)). Qed.

Lemma mwp_ialloc s v fb K ty (Q : Z -> mkst -> Prop) :
  image s v fb K -> inum_of (length K) < NINODES -> 0 <= ty < 2 ^ 15 ->
  (forall s' v', image s' v' fb (K ++ [(ty, [])]) -> Q (inum_of (length K)) s') -> mwp (ialloc ty) Q s.
Proof.
  intros I Hn Ht HQ. pose proof (im_rep _ _ _ _ I) as R. set (i := inum_of (length K)) in *. assert (Hi : 0 <= i < NINODES) by (unfold i, inum_of in *; lia).
  pose proof (mr_fi _ _ _ _ R) as Hfi. unfold ialloc. rewrite <- Hfi in HQ. apply mwp_bind, mwp_mget, mwp_bind, mwp_mset. rewrite Hfi in HQ |- *.
  assert (Hnew : Dinode (xshort ty) 0 0 (xshort 1) (xint 0) (repeat 0 13) = new_dinode ty).
  { unfold new_dinode. by rewrite xshort_small by lia. }
  rewrite Hnew. apply mwp_bind. eapply (mwp_winode _ v (i + 1) fb); [|done|done|].
  { destruct R as [R1 R2 R3 R4 R5]. split; try done. cbn. apply u32_small. change NINODES with 200 in *. lia. }
  intros s' R'. apply mwp_ret. apply (HQ s' (upd_inode v i (new_dinode ty))). clear HQ Hnew Hfi.
  set (v' := upd_inode v i (new_dinode ty)) in *. pose proof (mr_sect _ _ _ _ R) as Hv.
  assert (Hdi : disk_dinode sb v' i = new_dinode ty) by (by apply upd_inode_same, new_dinode_ok).
  assert (Hdk : forall j, 0 <= j < NINODES -> j <> i -> disk_dinode sb v' j = disk_dinode sb v j) by (intros; by apply upd_inode_other).
  assert (Hdat : forall b, nmeta <= b -> v' b = v b) by (intros b Hb; apply upd_inode_view; [done|by left]).
  assert (Hold : forall j, (j < length K)%nat -> disk_dinode sb v' (inum_of j) = disk_dinode sb v (inum_of j)).
  { intros j Hj. apply Hdk; [by apply (im_each I)|unfold i, inum_of; lia]. }
  assert (Hfr : forall j, (j < length K)%nat -> forall b, owns v (d_addrs (disk_dinode sb v (inum_of j))) b -> v' b = v b).
  { intros j Hj b Hb. destruct (im_each I j Hj) as [_ (ty' & c' & Hh)]. apply Hdat. by apply (holds_owns _ _ _ _ _ _ Hh) in Hb as [? _]. }
  assert (Hlen : inum_of (length (K ++ [(ty, [])])) = i + 1) by (unfold i, inum_of; rewrite length_app; cbn [length]; lia).
  split.
  - by rewrite Hlen.
  - apply I.
  - rewrite Hlen. lia.
  - intros b Hb. unfold v'. rewrite upd_inode_view by (done || (right; lia)). by apply I.
  - intros j ty' c' Hj. destruct (decide (j < length K)%nat) as [Hlt|Hge].
    + rewrite lookup_app_l in Hj by done. rewrite Hold by done. eapply holds_frame; [by apply I|lia|by apply Hfr].
    + rewrite lookup_app_r in Hj by lia. assert (j = length K) as -> by (apply lookup_lt_Some in Hj; cbn in Hj; lia). rewrite Nat.sub_diag in Hj. injection Hj as <- <-.
      fold i. rewrite Hdi. split; [done|done|by apply new_dinode_ok|done|apply empty_file].
  - assert (Hcase : forall j b, (j < length (K ++ [(ty, [])]))%nat -> owns v' (d_addrs (disk_dinode sb v' (inum_of j))) b ->
      (j < length K)%nat /\ owns v (d_addrs (disk_dinode sb v (inum_of j))) b).
    { intros j b Hj Ho. rewrite length_app in Hj. cbn [length] in Hj. destruct (decide (j < length K)%nat) as [Hlt|Hge].
      - split; [done|]. rewrite Hold in Ho by done. destruct (im_each I j Hlt) as [_ (ty' & c' & Hh)]. by rewrite (owns_frame (hf_file _ _ _ _ _ Hh)) in Ho by (by apply Hfr).
      - exfalso. assert (j = length K) as -> by lia. fold i in Ho. rewrite Hdi in Ho. by apply empty_owns in Ho. }
    intros j j' b Hj Hj' Ho Ho'. apply Hcase in Ho as [H1 H2]; [|done]. apply Hcase in Ho' as [H3 H4]; [|done]. by eapply (im_disj _ _ _ _ I).
  - intros b Hb. rewrite Hdat by (pose proof (im_fb _ _ _ _ I); lia). by apply I.
  - rewrite Hlen. intros inum Hi'. rewrite Hdk by lia. apply I. fold i. lia.
Qed.

(** ** The files of the host *)

Lemma mwp_append_all reads : forall s v fb K j ty c (Q : () -> mkst -> Prop),
  let n := Z.of_nat (length c) in let n' := Z.of_nat (length (c ++ concat reads)) in let fb' := fb + (blocks n' - blocks n) in
  image s v fb K -> K !! j = Some (ty, c) -> n' <= MAXFILE * BSIZE -> fb' <= FSSIZE ->
  (forall s' v', image s' v' fb' (<[j := (ty, c ++ concat reads)]> K) -> Q () s') -> mwp (append_all (inum_of j) reads) Q s.
Proof.
  induction reads as [|p reads IH]; intros s v fb K j ty c Q n n' fb' I Hj Hmax Hfb HQ; cbn [append_all concat] in *.
  - apply mwp_ret, (HQ s v). rewrite app_nil_r in *. unfold fb', n', n. rewrite app_nil_r, Z.sub_diag, Z.add_0_r. by rewrite list_insert_id.
  - assert (Hb : blocks n <= blocks (Z.of_nat (length (c ++ p))) <= blocks n') by (unfold n, n'; split; apply blocks_mono; rewrite !length_app; lia).
    assert (Hm : Z.of_nat (length (c ++ p)) <= n') by (unfold n'; rewrite !length_app; lia).
    apply mwp_bind. eapply (mwp_iappend s v fb K j ty c p); [exact I|exact Hj|by etrans|fold n; unfold fb' in Hfb; lia|]. fold n. intros s1 v1 I1.
    pose proof (lookup_lt_Some _ _ _ Hj) as Hlt.
    eapply (IH s1 v1 _ _ j ty (c ++ p)); [exact I1|by rewrite list_lookup_insert_eq|rewrite <- app_assoc; exact Hmax|rewrite <- app_assoc; fold n'; unfold fb' in Hfb; lia|].
    rewrite <- app_assoc. fold n'. rewrite list_insert_insert_eq.
    replace (fb + (blocks (Z.of_nat (length (c ++ p))) - blocks n) + (blocks n' - blocks (Z.of_nat (length (c ++ p))))) with fb' by (unfold fb'; lia). exact HQ.
Qed.

(** The name of a file in the image. *)
Definition fname (arg : list Z) : list Z := no_underscore (shortname arg).

Section host.
Context (open : list Z -> option (list (list Z))).

(** The argument names a file that can be opened and holds [c]. *)
Definition host_file (arg c : list Z) : Prop :=
  (47 ∉ shortname arg) /\ (exists reads, open arg = Some reads /\ concat reads = c) /\ Z.of_nat (length c) <= MAXFILE * BSIZE.

Definition entries (i : nat) (args : list (list Z)) : list Z := concat (imap (fun k a => dirent (inum_of (i + k)) (fname a)) args).
Definition all_blocks (cs : list (list Z)) : Z := foldr (fun c n => blocks (Z.of_nat (length c)) + n) 0 cs.

Lemma length_dirent i name : length (dirent i name) = 16%nat.
Proof. unfold dirent, dirent_bytes. rewrite length_app, length_le_bytes, length_take, length_app, repeat_length. change (Z.to_nat DIRSIZ) with 14%nat. lia. Qed.
Lemma entries_cons i a args : entries i (a :: args) = dirent (inum_of i) (fname a) ++ entries (S i) args.
Proof.
  unfold entries. rewrite imap_cons. cbn [concat]. rewrite Nat.add_0_r. do 2 f_equal. apply imap_ext. intros k x _. unfold compose.
  by replace (i + S k)%nat with (S i + k)%nat by lia.
Qed.
Lemma length_entries i args : length (entries i args) = (16 * length args)%nat.
Proof. revert i. induction args as [|a args IH]; intros i; [done|]. rewrite entries_cons, length_app, length_dirent, IH. cbn [length]. lia. Qed.
Lemma all_blocks_nonneg cs : 0 <= all_blocks cs.
Proof. induction cs as [|c cs IH]; [done|]. change (all_blocks (c :: cs)) with (blocks (Z.of_nat (length c)) + all_blocks cs). pose proof (blocks_mono 0 (Z.of_nat (length c)) ltac:(lia)). change (blocks 0) with 0 in *. lia. Qed.

Lemma insert_last {A} (l : list A) x y : <[length l := y]> (l ++ [x]) = l ++ [y].
Proof. induction l as [|z l IH]; [done|]. change (z :: <[length l := y]> (l ++ [x]) = z :: l ++ [y]). by rewrite IH. Qed.

Lemma mwp_add_file s v fb r K a c (Q : () -> mkst -> Prop) :
  let i := S (length K) in let n := Z.of_nat (length r) in let fb' := fb + (blocks (n + 16) - blocks n) + blocks (Z.of_nat (length c)) in
  image s v fb ((T_DIR, r) :: K) -> host_file a c -> inum_of i < NINODES -> n + 16 <= MAXFILE * BSIZE -> fb' <= FSSIZE ->
  (forall s' v', image s' v' fb' ((T_DIR, r ++ dirent (inum_of i) (fname a)) :: K ++ [(T_FILE, c)]) -> Q () s') -> mwp (add_file open ROOTINO a) Q s.
Proof.
  intros i n fb' I (Hs & (reads & Ho & <-) & Hc) Hi Hn Hfb HQ. pose proof (blocks_mono n (n + 16) ltac:(lia)) as Hb1.
  pose proof (blocks_mono 0 (Z.of_nat (length (concat reads))) ltac:(lia)) as Hb2. change (blocks 0) with 0 in Hb2.
  unfold add_file. apply mwp_bind, mwp_assert; [by apply bool_decide_eq_true|]. rewrite Ho.
  apply mwp_bind. eapply mwp_ialloc; [exact I|exact Hi|done|]. intros s1 v1 I1. change (inum_of (length ((T_DIR, r) :: K))) with (inum_of i). cbn [app] in I1.
  assert (Hn16 : Z.of_nat (length (r ++ dirent (inum_of i) (fname a))) = n + 16) by (rewrite length_app, length_dirent; lia).
  apply mwp_bind. eapply (mwp_iappend s1 v1 fb _ 0 T_DIR r); [exact I1|done|fold (fname a); lia|fold (fname a) n; rewrite Hn16; unfold fb' in Hfb; lia|].
  fold (fname a) n. rewrite Hn16. cbn [insert list_insert]. intros s2 v2 I2. replace i with (0 + S (length K))%nat by done.
  eapply (mwp_append_all reads s2 v2 _ _ (S (length K)) T_FILE []); [exact I2| |done| |].
  - by apply (list_lookup_middle ((T_DIR, _) :: K) []).
  - cbn [app length]. change (blocks (Z.of_nat 0)) with 0. unfold fb' in Hfb. lia.
  - cbn [app length]. change (blocks (Z.of_nat 0)) with 0. rewrite Z.sub_0_r. fold fb'. intros s3 v3 I3. apply (HQ s3 v3). rewrite <- (insert_last K (T_FILE, [])). exact I3.
Qed.

Lemma mwp_add_files args : forall cs s v fb r K (Q : () -> mkst -> Prop),
  let i := S (length K) in let n := Z.of_nat (length r) in let n' := n + 16 * Z.of_nat (length args) in
  let fb' := fb + (blocks n' - blocks n) + all_blocks cs in
  image s v fb ((T_DIR, r) :: K) -> Forall2 host_file args cs -> inum_of (i + length args) <= NINODES -> n' <= MAXFILE * BSIZE -> fb' <= FSSIZE ->
  (forall s' v', image s' v' fb' ((T_DIR, r ++ entries i args) :: K ++ map (pair T_FILE) cs) -> Q () s') -> mwp (add_files open ROOTINO args) Q s.
Proof.
  induction args as [|a args IH]; intros cs s v fb r K Q i n n' fb' I Hc Hi Hmax Hfb HQ; cbn [add_files].
  - apply Forall2_nil_inv_l in Hc as ->. apply mwp_ret, (HQ s v). cbn [entries imap concat map]. unfold entries. cbn. rewrite !app_nil_r.
    assert (Hn' : n' = n) by (unfold n'; cbn [length]; lia). assert (fb' = fb) as ->; [|done]. unfold fb'. rewrite Hn'. cbn. lia.
  - apply Forall2_cons_inv_l in Hc as (c & cs' & Hac & Hcs & ->). cbn [length] in *. pose proof (all_blocks_nonneg cs') as Hab.
    assert (Hfb' : fb' = fb + (blocks n' - blocks n) + (blocks (Z.of_nat (length c)) + all_blocks cs')) by done.
    assert (Hb : blocks n <= blocks (n + 16) <= blocks n') by (unfold n'; split; apply blocks_mono; lia).
    assert (Hn16 : Z.of_nat (length (r ++ dirent (inum_of i) (fname a))) = n + 16) by (rewrite length_app, length_dirent; lia).
    apply mwp_bind. eapply (mwp_add_file s v fb r K a c); [exact I|done|unfold inum_of, i in *; lia|fold n; etrans; [|exact Hmax]; unfold n'; lia|fold n; lia|].
    fold i n. intros s1 v1 I1. eapply (IH cs' s1 v1 _ _ (K ++ [(T_FILE, c)])); [exact I1|done|..]; rewrite ?Hn16.
    + rewrite length_app. cbn [length]. unfold i in Hi. etrans; [|exact Hi]. apply Z.eq_le_incl. f_equal. lia.
    + etrans; [|exact Hmax]. unfold n'. lia.
    + replace (n + 16 + 16 * Z.of_nat (length args)) with n' by (unfold n'; lia). lia.
    + replace (n + 16 + 16 * Z.of_nat (length args)) with n' by (unfold n'; lia). rewrite length_app. cbn [length].
      replace (fb + (blocks (n + 16) - blocks n) + blocks (Z.of_nat (length c)) + (blocks n' - blocks (n + 16)) + all_blocks cs') with fb' by lia.
      rewrite <- !app_assoc. rewrite entries_cons in HQ. replace (S (length K + 1)) with (S i) by (unfold i; lia). exact HQ.
Qed.
End host.

(** ** The whole run *)

Lemma mwp_zero_image n : forall s (Q : () -> mkst -> Prop),
  Q () (Mkst (mk_img s ++ repeat zeroes n) (mk_freeinode s) (mk_freeblock s)) -> mwp (zero_image n (Z.of_nat (length (mk_img s)))) Q s.
Proof.
  induction n as [|n IH]; intros s Q HQ; cbn [zero_image repeat] in *.
  - apply mwp_ret. rewrite app_nil_r in HQ. by destruct s.
  - apply mwp_bind, mwp_mset. unfold put_sect. rewrite Nat2Z.id, Nat.ltb_irrefl, Nat.sub_diag. cbn [repeat app].
    set (s1 := Mkst _ _ _). replace (Z.of_nat (length (mk_img s)) + 1) with (Z.of_nat (length (mk_img s1))) by (cbn; rewrite length_app; cbn; lia).
    apply IH. cbn [s1 mk_img mk_freeinode mk_freeblock]. by rewrite <- app_assoc.
Qed.

Lemma get_le_zeroes n off : get_le n zeroes off = 0.
Proof.
  apply le_value_zeros. unfold slice. apply Forall_take, Forall_drop. apply Forall_forall. intros z Hz%list_elem_of_In%repeat_spec. done.
Qed.
Lemma blank_length b : length (blank b) = Z.to_nat BSIZE.
Proof. unfold blank, fupd. case_decide; [|done]. rewrite length_splice; [done|]. by apply Nat.leb_le. Qed.
Lemma blank_data b : 32 <= b -> blank b = zeroes.
Proof. intros H. unfold blank. rewrite fupd_other by lia. done. Qed.

Lemma blank_image s : mrep s blank 1 nmeta -> image s blank nmeta [].
Proof.
  intros R. split; try done.
  - cbn. intros. lia.
  - intros b Hb. rewrite nmeta_eq in Hb. apply blank_data. lia.
  - intros inum Hi. destruct (iblock_mk inum) as [_ Hb]; [unfold inum_of in Hi; cbn in Hi; lia|]. unfold disk_dinode, dinode_at. cbn [d_type].
    rewrite blank_data by lia. by rewrite get_le_zeroes.
Qed.

(** The bitmap. *)
Lemma balloc_fill_spec n : forall i d bj, length d = Z.to_nat BSIZE -> 0 <= i -> i + Z.of_nat n <= BPB -> 0 <= bj ->
  length (balloc_fill n i d) = Z.to_nat BSIZE /\ bit (balloc_fill n i d) bj = bit d bj || ((i <=? bj) && (bj <? i + Z.of_nat n)).
Proof.
  induction n as [|n IH]; intros i d bj Hl Hi Hn Hb; cbn [balloc_fill].
  - split; [done|]. destruct (Z.leb_spec i bj), (Z.ltb_spec bj (i + Z.of_nat 0)); cbn; rewrite ?orb_false_r; (done || lia).
  - destruct (IH (i + 1) (set_bit d i) bj) as [H1 H2]; [by rewrite length_set_bit|lia|lia|done|]. split; [done|]. rewrite H2, bit_set by (done || lia).
    case_decide as E.
    + subst. rewrite Z.leb_refl. destruct (Z.ltb_spec i (i + Z.of_nat (S n))); [|lia]. by rewrite orb_true_r.
    + f_equal. destruct (Z.leb_spec (i + 1) bj), (Z.leb_spec i bj), (Z.ltb_spec bj (i + 1 + Z.of_nat n)), (Z.ltb_spec bj (i + Z.of_nat (S n))); cbn; (done || lia).
Qed.

Lemma bit_zeroes bj : bit zeroes bj = false.
Proof. unfold bit, bmap_byte. rewrite nth_zeroes. apply Z.bits_0. Qed.

Lemma mk_layout : layout (home := home_at (sb_logstart sb)) sb.
Proof. rewrite sb_eq. split; [by vm_compute..| |by vm_compute]. intros b Hb. cbn in Hb |- *. split; [lia|]. unfold LOGSIZE, MAXOPBLOCKS. lia. Qed.

(** An inode as [ilock] loads it. *)
Definition loaded (v : Z -> list Z) (inum : Z) (x : inode) : Prop :=
  i_dev x = ROOTDEV /\ i_inum x = inum /\ inode_dinode x = disk_dinode sb v inum.

Lemma bmap_used v fb b : v 45 = balloc_fill (Z.to_nat fb) 0 zeroes -> 0 <= fb <= FSSIZE -> 0 <= b < sb_size sb -> used sb v b = (b <? fb).
Proof.
  intros Hv Hf Hb. rewrite sb_eq in Hb. cbn in Hb. change FSSIZE with 2000 in Hf. assert (Hq : b / BPB = 0) by (apply Z.div_small; change BPB with 8192; lia).
  unfold used, BBLOCK. rewrite Hq. rewrite Z.mod_small by (change BPB with 8192; lia). change (u32 (0 + sb_bmapstart sb)) with 45. rewrite Hv.
  destruct (balloc_fill_spec (Z.to_nat fb) 0 zeroes b) as [_ ->]; [done|lia|change BPB with 8192; lia|lia|]. rewrite bit_zeroes, Z2Nat.id by lia.
  rewrite (proj2 (Z.leb_le 0 b)) by lia. done.
Qed.

(** A file of the image is one that the kernel accepts, with its contents. *)
Lemma exact_file_ok v fb l c k hi x : fileat v fb l c k hi -> i_addrs x = l -> i_dev x = ROOTDEV -> fb <= FSSIZE ->
  (forall b, 0 <= b < sb_size sb -> used sb v b = (b <? fb)) -> file_ok (dev := ROOTDEV) sb v x.
Proof.
  intros F Hl Hd Hf Hu. change FSSIZE with 2000 in Hf. assert (Hdb : forall b, dat fb b -> data_block sb b /\ used sb v b = true).
  { intros b Hb. unfold dat in Hb. rewrite nmeta_eq in Hb. rewrite Hu by (rewrite sb_eq; cbn; lia). split; [split; rewrite sb_eq; [change (data_start _) with 46|cbn]; lia|].
    apply Z.ltb_lt. lia. }
  assert (Ham : forall bn, addr_of v x bn = amap v l bn) by (intros bn; rewrite <- Hl; done).
  assert (Hnz : forall bn, 0 <= bn < MAXFILE -> amap v l bn <> 0 -> 0 <= bn < k).
  { intros bn Hb Hn. split; [lia|]. destruct (decide (bn < k)); [done|]. exfalso. apply Hn, (addr_none F). lia. }
  split.
  - rewrite Hl. apply F.
  - done.
  - intros bn Hb. rewrite Ham. intros Hn. apply Hdb, (addr_dat F). by apply Hnz.
  - unfold ind_of. rewrite Hl. fold (aind l). intros Hn. apply Hdb. pose proof (fa_ind _ _ _ _ _ _ F) as Hi. by destruct hi.
  - intros bn bn' Hb Hb'. rewrite !Ham. intros Hn E. assert (Hn' : amap v l bn' <> 0) by congruence. apply (fa_inj _ _ _ _ _ _ F); [by apply Hnz..|done].
  - intros bn Hb. rewrite Ham. intros Hn. unfold ind_of. rewrite Hl. by apply (fa_ne _ _ _ _ _ _ F), Hnz.
Qed.

Lemma lookup_repeat_lt {A} (x : A) n i : (i < n)%nat -> repeat x n !! i = Some x.
Proof. revert i. induction n as [|n IH]; intros [|i] H; try lia; [done|]. apply IH. lia. Qed.

Lemma take_zeros n m : take m (repeat 0 n) = repeat 0 (Nat.min m n).
Proof. revert m. induction n as [|n IH]; intros [|m]; cbn; [done..|]. by rewrite IH. Qed.

Lemma file_bytes v fb l c k hi x n : fileat v fb l c k hi -> i_addrs x = l -> Z.of_nat n <= k * BSIZE ->
  fbytes v x 0 n = take n (c ++ repeat 0 n).
Proof.
  intros F Hl Hn. apply list_eq. intros i. destruct (decide (i < n)%nat) as [Hi|Hi].
  - rewrite lookup_fbytes by done. change (fbyte v x (0 + Z.of_nat i)) with (abyte v (i_addrs x) (Z.of_nat i)). rewrite Hl, (fa_bytes _ _ _ _ _ _ F) by lia. rewrite Nat2Z.id.
    rewrite lookup_take_lt by done. destruct (decide (i < length c)%nat) as [Hc|Hc].
    + rewrite lookup_app_l by done. destruct (lookup_lt_is_Some_2 c i Hc) as [y Hy]. by rewrite (nth_lookup_Some _ _ _ _ Hy).
    + rewrite lookup_app_r by lia. rewrite nth_overflow by lia. rewrite lookup_repeat_lt by lia. done.
  - rewrite !lookup_ge_None_2; [done|rewrite length_take; lia|rewrite length_fbytes; lia].
Qed.

(** A file whose size is within its blocks. *)
Lemma file_inv_intro v fb l c k hi x : fileat v fb l c k hi -> i_addrs x = l -> i_dev x = ROOTDEV -> 0 <= i_inum x < NINODES -> dinode_ok (inode_dinode x) ->
  i_size x <= k * BSIZE -> fb <= FSSIZE -> (forall b, 0 <= b < sb_size sb -> used sb v b = (b <? fb)) -> map_ok sb v -> file_inv (dev := ROOTDEV) sb v x.
Proof.
  intros F Hl Hd Hi Hok Hs Hf Hu Hm. pose proof (fa_k _ _ _ _ _ _ F) as Hk. pose proof (do_size _ Hok) as Hz. cbn in Hz. change BSIZE with 1024 in *. rewrite maxfile_eq in *. split; try done.
  - by eapply exact_file_ok.
  - rewrite maxfile_eq. change BSIZE with 1024. lia.
  - intros bn Hb Hn. change BSIZE with 1024 in Hn. pose proof (addr_dat F bn ltac:(lia)) as Ha. unfold dat in Ha. rewrite nmeta_eq in Ha.
    change (addr_of v x bn) with (amap v (i_addrs x) bn). rewrite Hl. lia.
Qed.

(** ** What mkfs makes *)

(** The root directory: an entry for each file, inode numbers from 2 on. *)
Definition root_bytes (args : list (list Z)) : list Z := dirent ROOTINO [46] ++ dirent ROOTINO [46; 46] ++ entries 1 args.
Definition first_free (args cs : list (list Z)) : Z := nmeta + blocks (Z.of_nat (length (root_bytes args))) + all_blocks cs.

(** The size of the root directory after it was rounded. *)
Definition root_size (args : list (list Z)) : Z := (Z.of_nat (length (root_bytes args)) / BSIZE + 1) * BSIZE.

Record made (v : Z -> list Z) (args cs : list (list Z)) : Prop := {
  md_sb : sb_of (v 1) = sb;
  md_log b : sb_logstart sb <= b < sb_inodestart sb -> v b = zeroes;
  md_used b : 0 <= b < sb_size sb -> used sb v b = (b <? first_free args cs);
  md_file i c x : cs !! i = Some c -> loaded v (inum_of (S i)) x ->
    i_type x = T_FILE /\ i_nlink x = 1 /\ i_size x = Z.of_nat (length c) /\ file_inv (dev := ROOTDEV) sb v x /\ fbytes v x 0 (length c) = c;
  md_root x : loaded v ROOTINO x ->
    i_type x = T_DIR /\ i_nlink x = 1 /\ i_size x = root_size args /\ file_ok (dev := ROOTDEV) sb v x /\
    fbytes v x 0 (length (root_bytes args)) = root_bytes args /\
    if Z.of_nat (length (root_bytes args)) mod BSIZE =? 0 then addr_of v x (root_size args / BSIZE - 1) = 0
    else file_inv (dev := ROOTDEV) sb v x /\
      fbytes v x 0 (Z.to_nat (root_size args)) = root_bytes args ++ repeat 0 (Z.to_nat (root_size args) - length (root_bytes args));
  md_disj inum inum' x x' b : 1 <= inum <= 1 + Z.of_nat (length cs) -> 1 <= inum' <= 1 + Z.of_nat (length cs) -> loaded v inum x -> loaded v inum' x' ->
    owns v (i_addrs x) b -> owns v (i_addrs x') b -> inum = inum';
  md_unused inum : 1 + Z.of_nat (length cs) < inum < sb_ninodes sb -> d_type (disk_dinode sb v inum) = 0 }.

Lemma length_root args : length (root_bytes args) = (32 + 16 * length args)%nat.
Proof. unfold root_bytes. rewrite !length_app, !length_dirent, length_entries. lia. Qed.

(** From the files to the image as it is left. *)
Section final.
Context (s : mkst) (v : Z -> list Z) (args cs : list (list Z)).
Let fb := first_free args cs.
Let K := (T_DIR, root_bytes args) :: map (pair T_FILE) cs.
Hypothesis I : image s v fb K.
Hypothesis Hlen : length args = length cs.
Let d2 := set_dsize (root_size args) (disk_dinode sb v ROOTINO).
Let v2 := upd_inode v ROOTINO d2.
Let v3 := fupd v2 (sb_bmapstart sb) (balloc_fill (Z.to_nat fb) 0 zeroes).

Lemma K_length : length K = S (length cs).
Proof. unfold K. cbn. by rewrite length_map. Qed.
Lemma root_holds : holds_file v fb (disk_dinode sb v ROOTINO) T_DIR (root_bytes args).
Proof. by apply (im_file _ _ _ _ I 0). Qed.

Lemma d2_ok : dinode_ok d2.
Proof using I Hlen.
  pose proof root_holds as [_ _ [K1 K2 K3 K4 K5 K6 K7] _ _]. split; try done. cbn [d2 set_dsize d_size]. unfold root_size. change BSIZE with 1024.
  pose proof (im_n _ _ _ _ I) as Hn. rewrite K_length in Hn. unfold inum_of in Hn. change NINODES with 200 in *. rewrite length_root, Hlen.
  pose proof (Z.div_mod (Z.of_nat (32 + 16 * length cs)) 1024 ltac:(lia)). pose proof (Z.mod_pos_bound (Z.of_nat (32 + 16 * length cs)) 1024 ltac:(lia)). lia.
Qed.

Lemma v3_data b : nmeta <= b -> v3 b = v b.
Proof. intros Hb. unfold v3. rewrite fupd_other by (rewrite nmeta_eq in Hb; change (sb_bmapstart sb) with 45; lia). by apply upd_inode_view; [|left]. Qed.
Lemma v3_low b : b < 32 -> v3 b = blank b.
Proof using I Hlen. intros Hb. unfold v3. rewrite fupd_other by (change (sb_bmapstart sb) with 45; lia). unfold v2. rewrite upd_inode_view by (done || (right; lia)). by apply I. Qed.
Lemma v3_dinode inum : 0 <= inum < NINODES -> disk_dinode sb v3 inum = if decide (inum = ROOTINO) then d2 else disk_dinode sb v inum.
Proof using I Hlen.
  intros Hi. destruct (iblock_mk inum Hi) as [_ Hb]. unfold disk_dinode at 1. unfold v3. rewrite fupd_other by (change (sb_bmapstart sb) with 45; lia).
  pose proof (mr_sect _ _ _ _ (im_rep _ _ _ _ I)) as Hs. case_decide as E.
  - subst inum. apply upd_inode_same; [exact Hs|apply d2_ok].
  - apply upd_inode_other; done.
Qed.
Lemma v3_used b : 0 <= b < sb_size sb -> used sb v3 b = (b <? fb).
Proof using I Hlen. intros Hb. pose proof (im_fb _ _ _ _ I). rewrite nmeta_eq in *. apply bmap_used; [|lia|done]. unfold v3. by rewrite fupd_same. Qed.
Lemma v3_file d ty c : holds_file v fb d ty c -> exact_file v3 fb (d_addrs d) c.
Proof. intros [_ _ _ _ F]. eapply (fileat_frame F); [lia|]. intros b Hb. apply v3_data. by apply (owns_dat F) in Hb as [? _]. Qed.
Lemma v3_owns d ty c b : holds_file v fb d ty c -> owns v3 (d_addrs d) b -> owns v (d_addrs d) b.
Proof. intros [_ _ _ _ F] Ho. rewrite (owns_frame F) in Ho; [done|]. intros b' Hb. apply v3_data. by apply (owns_dat F) in Hb as [? _]. Qed.

Lemma root_made x : map_ok sb v3 -> disk_dinode sb v3 ROOTINO = d2 -> loaded v3 ROOTINO x ->
  i_type x = T_DIR /\ i_nlink x = 1 /\ i_size x = root_size args /\ file_ok (dev := ROOTDEV) sb v3 x /\
  fbytes v3 x 0 (length (root_bytes args)) = root_bytes args /\
  if Z.of_nat (length (root_bytes args)) mod BSIZE =? 0 then addr_of v3 x (root_size args / BSIZE - 1) = 0
  else file_inv (dev := ROOTDEV) sb v3 x /\
    fbytes v3 x 0 (Z.to_nat (root_size args)) = root_bytes args ++ repeat 0 (Z.to_nat (root_size args) - length (root_bytes args)).
Proof using I Hlen.
  intros Hmap Hd2 (X1 & X2 & X3). rewrite Hd2 in X3. pose proof (im_fb _ _ _ _ I) as Hfb. pose proof (v3_file _ _ _ root_holds) as F. destruct root_holds as [H1 H2 H3 H4 H5].
  assert (Hx : i_type x = T_DIR /\ i_nlink x = 1 /\ i_size x = root_size args /\ i_addrs x = d_addrs (disk_dinode sb v ROOTINO)).
  { unfold d2, set_dsize, inode_dinode in X3. injection X3 as E1 E2 E3 E4 E5 E6. split_and!; [by rewrite E1|by rewrite E4|done|done]. }
  destruct Hx as (Ht & Hl & Hs & Ha). pose proof (cdiv_spec (Z.of_nat (length (root_bytes args))) ltac:(lia)) as Hcd. unfold exact_file in F.
  set (n := Z.of_nat (length (root_bytes args))) in *. assert (Hn : n <= 3232).
  { pose proof (im_n _ _ _ _ I) as Hn. rewrite K_length in Hn. unfold inum_of in Hn. change NINODES with 200 in Hn. unfold n. rewrite length_root, Hlen. lia. }
  split_and!; [done|done|done|eapply exact_file_ok; [exact F|done|done|lia|apply v3_used]| |].
  { rewrite (file_bytes _ _ _ _ _ _ x _ F Ha) by (fold n; change BSIZE with 1024 in *; lia). by rewrite take_app_length. }
  unfold root_size in *. fold n in Hs |- *. change BSIZE with 1024 in *. rewrite Z.div_mul by lia. pose proof (Z.div_mod n 1024 ltac:(lia)) as Hdm.
  pose proof (Z.mod_pos_bound n 1024 ltac:(lia)) as Hmb. destruct (Z.eqb_spec (n mod 1024) 0) as [Hz|Hz].
  - change (addr_of v3 x ?b) with (amap v3 (i_addrs x) b). rewrite Ha. apply (addr_none F). rewrite maxfile_eq. lia.
  - split; [eapply file_inv_intro; [exact F|done|done|by rewrite X2| |change BSIZE with 1024; lia|lia|apply v3_used|done]|].
    + rewrite X3. apply d2_ok.
    + rewrite (file_bytes _ _ _ _ _ _ x _ F Ha) by (change BSIZE with 1024; lia). rewrite take_app_ge by lia. f_equal. rewrite take_zeros. f_equal. lia.
Qed.

Lemma final_made : made v3 args cs.
Proof using I Hlen.
  pose proof (im_fb _ _ _ _ I) as Hfb. pose proof (im_n _ _ _ _ I) as Hn. rewrite K_length in Hn. unfold inum_of in Hn. change NINODES with 200 in Hn.
  assert (Hmap : map_ok sb v3).
  { intros b Hb Hu. rewrite v3_used in Hu by done. apply Z.ltb_ge in Hu. change (data_start sb) with nmeta. lia. }
  assert (Hr : disk_dinode sb v3 ROOTINO = d2) by (rewrite v3_dinode by done; by rewrite decide_True).
  assert (Hj : forall j ty c, K !! j = Some (ty, c) -> holds_file v fb (disk_dinode sb v (inum_of j)) ty c) by apply I.
  split.
  - rewrite v3_low by lia. reflexivity.
  - intros b Hb. rewrite sb_eq in Hb. cbn in Hb. rewrite v3_low by lia. unfold blank. by rewrite fupd_other by lia.
  - intros b Hb. by apply v3_used.
  - intros i c x Hi (X1 & X2 & X3). pose proof (lookup_lt_Some _ _ _ Hi) as Hlt. assert (HiN : 0 <= inum_of (S i) < NINODES) by (unfold inum_of; change NINODES with 200; lia).
    rewrite v3_dinode, decide_False in X3 by (done || (unfold inum_of, ROOTINO; lia)).
    assert (Hh : holds_file v fb (disk_dinode sb v (inum_of (S i))) T_FILE c).
    { apply Hj. change (map (pair T_FILE) cs !! i = Some (T_FILE, c)). by rewrite list_lookup_fmap, Hi. }
    pose proof (v3_file _ _ _ Hh) as F. destruct Hh as [H1 H2 H3 H4 H5]. rewrite <- X3 in *. cbn [inode_dinode d_type d_nlink d_size d_addrs] in *.
    pose proof (cdiv_spec (Z.of_nat (length c)) ltac:(lia)) as Hcd. split_and!; [done|done|done| |].
    + eapply file_inv_intro; [exact F|done|done|by rewrite X2|done|lia|lia|apply v3_used|done].
    + rewrite (file_bytes _ _ _ _ _ _ x _ F eq_refl) by lia. by rewrite take_app_length.
  - intros x Hx. exact (root_made x Hmap Hr Hx).
  - intros inum inum' x x' b Hi Hi' (X1 & X2 & X3) (Y1 & Y2 & Y3) Ho Ho'.
    assert (Hcase : forall inum x, 1 <= inum <= 1 + Z.of_nat (length cs) -> inode_dinode x = disk_dinode sb v3 inum -> owns v3 (i_addrs x) b ->
      inum = inum_of (Z.to_nat (inum - 1)) /\ (Z.to_nat (inum - 1) < length K)%nat /\ owns v (d_addrs (disk_dinode sb v (inum_of (Z.to_nat (inum - 1))))) b).
    { intros k y Hk Hy Hoy. assert (E : k = inum_of (Z.to_nat (k - 1))) by (unfold inum_of; lia). assert (HkK : (Z.to_nat (k - 1) < length K)%nat) by (rewrite K_length; lia).
      split_and!; [done|done|]. rewrite <- E. assert (Hya : i_addrs y = d_addrs (disk_dinode sb v k)).
      { change (i_addrs y) with (d_addrs (inode_dinode y)). rewrite Hy, v3_dinode by (change NINODES with 200; lia). case_decide; [by subst|done]. }
      rewrite Hya in Hoy. destruct (im_each I _ HkK) as [_ (ty & c & Hh)]. rewrite <- E in Hh. by eapply v3_owns. }
    destruct (Hcase inum x Hi X3 Ho) as (E1 & L1 & O1), (Hcase inum' x' Hi' Y3 Ho') as (E2 & L2 & O2).
    pose proof (im_disj _ _ _ _ I _ _ b L1 L2 O1 O2). lia.
  - intros inum Hi. change (sb_ninodes sb) with 200 in Hi. rewrite v3_dinode by (change NINODES with 200; lia). rewrite decide_False by (unfold ROOTINO; lia).
    apply I. rewrite K_length. unfold inum_of. change NINODES with 200. lia.
Qed.
End final.

Lemma root_start : blocks (Z.of_nat 0) = 0 /\ blocks 16 = 1 /\ blocks 32 = 1.
Proof. done. Qed.

Lemma mwp_fix_root s v fb args K (Q : () -> mkst -> Prop) : image s v fb ((T_DIR, root_bytes args) :: K) -> Z.of_nat (length args) <= NINODES ->
  (forall s', mrep s' (upd_inode v ROOTINO (set_dsize (root_size args) (disk_dinode sb v ROOTINO))) (inum_of (S (length K))) fb -> Q () s') -> mwp (fix_root ROOTINO) Q s.
Proof.
  intros I Hn HQ. destruct (im_file _ _ _ _ I 0 _ _ eq_refl) as [H1 H2 H3 H4 H5]. pose proof (im_rep _ _ _ _ I) as R. change (inum_of 0) with ROOTINO in *.
  unfold fix_root. apply mwp_bind. eapply mwp_rinode; [exact R|done|]. cbv zeta. rewrite H4. change NINODES with 200 in Hn.
  assert (Hs : 0 <= Z.of_nat (length (root_bytes args)) <= 3232) by (rewrite length_root; lia). rewrite (xint_small (Z.of_nat (length (root_bytes args)))) by lia. fold (root_size args).
  assert (Hr : 0 <= root_size args < 2 ^ 32).
  { unfold root_size. change BSIZE with 1024. pose proof (Z.div_mod (Z.of_nat (length (root_bytes args))) 1024 ltac:(lia)).
    pose proof (Z.mod_pos_bound (Z.of_nat (length (root_bytes args))) 1024 ltac:(lia)). lia. }
  rewrite u32_small, xint_small by done. eapply mwp_winode; [exact R|done|apply H3|]. exact HQ.
Qed.

Lemma mwp_balloc s v fi fb n (Q : () -> mkst -> Prop) : mrep s v fi fb -> 0 <= n <= FSSIZE ->
  (forall s', mrep s' (fupd v (sb_bmapstart sb) (balloc_fill (Z.to_nat n) 0 zeroes)) fi fb -> Q () s') -> mwp (balloc n) Q s.
Proof.
  intros R Hn HQ. change FSSIZE with 2000 in Hn. apply mwp_bind, mwp_assert; [apply Z.ltb_lt; change (BSIZE * 8) with 8192; lia|].
  eapply mwp_wsect; [exact R|done| |exact HQ]. apply (balloc_fill_spec (Z.to_nat n) 0 zeroes 0); [done|lia|change BPB with 8192; lia|lia].
Qed.

(** C11: the image mkfs makes is a file system as the kernel expects it, and
    holds the files.  If every argument can be opened and is small enough, and
    all of them fit the disk, mkfs ends without an error; the superblock and
    an empty log are where the kernel looks for them; the free map marks
    exactly the blocks in use; inode [2 + i] is a regular file with the
    contents of the [i]-th argument, in the form [readi] and [writei] need;
    the root directory lists all of them; no two files share a block; and the
    remaining inodes are free.  Where the entries of the root directory fill
    its blocks, its rounded size covers one block that it does not have. *)
Theorem mkfs_correct open create img args cs :
  create img = true -> Forall2 (host_file open) args cs -> Z.of_nat (length args) + 2 <= NINODES -> first_free args cs <= FSSIZE ->
  exists s v, Mkfs.main open create (img :: args) mk_start = inr ((), s) /\ length (mk_img s) = Z.to_nat FSSIZE /\
    (forall b, 0 <= b < FSSIZE -> mk_img s !! Z.to_nat b = Some (v b)) /\ layout (home := home_at (sb_logstart sb)) sb /\ made v args cs.
Proof.
  intros Hc Hf Hn Hff. pose proof (Forall2_length _ _ _ Hf) as Hlen.
  assert (H : mwp (Mkfs.main open create (img :: args)) (fun _ s => exists v, length (mk_img s) = Z.to_nat FSSIZE /\
    (forall b, 0 <= b < FSSIZE -> mk_img s !! Z.to_nat b = Some (v b)) /\ layout (home := home_at (sb_logstart sb)) sb /\ made v args cs) mk_start).
  2: { unfold mwp in H. destruct (Mkfs.main _ _ _ _) as [e|[[] s]]; [done|]. destruct H as [v H]. by exists s, v. }
  unfold Mkfs.main. apply mwp_bind, mwp_assert; [done|]. apply mwp_bind, mwp_assert; [done|]. rewrite Hc. cbn [negb].
  apply mwp_bind, mwp_mset. cbn [mk_start mk_freeinode]. apply mwp_bind. apply (mwp_zero_image (Z.to_nat FSSIZE) (Mkst [] 1 nmeta)). cbn [mk_img mk_freeinode mk_freeblock app].
  apply mwp_bind. eapply (mwp_wsect _ (fun _ => zeroes) 1 nmeta); [|done|by apply (blank_length 1)|].
  { split; try done. intros b Hb. apply lookup_repeat_lt. lia. }
  intros s1 R1. pose proof (blank_image s1 R1) as I1. apply mwp_bind. eapply mwp_ialloc; [exact I1|done|done|]. intros s2 v2 I2. change (inum_of (length [])) with ROOTINO. cbn [app] in I2.
  apply mwp_bind, mwp_assert; [done|]. destruct root_start as (B0 & B16 & B32).
  apply mwp_bind. eapply (mwp_iappend s2 v2 nmeta _ 0 T_DIR []); [exact I2|done|done|done|]. cbn [app insert list_insert].
  change (nmeta + (blocks (Z.of_nat (length (dirent ROOTINO [46]))) - blocks (Z.of_nat (length [])))) with (nmeta + 1). intros s3 v3 I3.
  apply mwp_bind. eapply (mwp_iappend s3 v3 (nmeta + 1) _ 0 T_DIR (dirent ROOTINO [46])); [exact I3|done|done|done|]. cbn [insert list_insert].
  change (nmeta + 1 + (blocks (Z.of_nat (length (dirent ROOTINO [46] ++ dirent ROOTINO [46; 46]))) - blocks (Z.of_nat (length (dirent ROOTINO [46]))))) with (nmeta + 1).
  intros s4 v4 I4. set (r := dirent ROOTINO [46] ++ dirent ROOTINO [46; 46]) in *. assert (Hr : Z.of_nat (length r) = 32) by done.
  assert (Hrt : r ++ entries 1 args = root_bytes args) by (unfold r, root_bytes; by rewrite <- app_assoc).
  assert (Hrl : 32 + 16 * Z.of_nat (length args) = Z.of_nat (length (root_bytes args))) by (rewrite length_root; lia).
  assert (Hfb : nmeta + 1 + (blocks (32 + 16 * Z.of_nat (length args)) - blocks 32) + all_blocks cs = first_free args cs) by (rewrite Hrl, B32; unfold first_free; lia).
  change NINODES with 200 in *. change (MAXFILE * BSIZE) with 274432 in *.
  apply mwp_bind. eapply (mwp_add_files open args cs s4 v4 (nmeta + 1) r []); [exact I4|done|..]; rewrite ?Hr, ?Hfb.
  - unfold inum_of. cbn [length]. change NINODES with 200. lia.
  - change (MAXFILE * BSIZE) with 274432. lia.
  - done.
  - cbn [length]. rewrite Hrt. cbn [app]. intros s5 v5 I5. apply mwp_bind. eapply mwp_fix_root; [exact I5|change NINODES with 200; lia|]. intros s6 R6.
    pose proof (im_fb _ _ _ _ I5) as Hfb5. rewrite nmeta_eq in Hfb5. apply mwp_bind, mwp_mget. rewrite (mr_fb _ _ _ _ R6). eapply mwp_balloc; [exact R6|lia|].
    intros s7 R7. eexists. split_and!; [apply R7|apply R7|apply mk_layout|]. by apply (final_made s5 v5 args cs).
Qed.

(** One file "a" that holds two bytes. *)
Definition ex_open (_ : list Z) : option (list (list Z)) := Some [[104]; [105]].

Lemma mkfs_correct_witness : exists s v, Mkfs.main ex_open (fun _ => true) [[1]; [97]] mk_start = inr ((), s) /\ made v [[97]] [[104; 105]].
Proof.
  destruct (mkfs_correct ex_open (fun _ => true) [1] [[97]] [[104; 105]] eq_refl) as (s & v & Hrun & _ & _ & _ & Hm).
  - constructor; [|constructor]. split; [intros H; by apply list_elem_of_singleton in H|]. split; [by exists [[104]; [105]]|]. vm_compute. discriminate.
  - vm_compute. discriminate.
  - vm_compute. discriminate.
  - exists s, v. by split.
Defined.
